(* ===== verification/_CoqProject ===== *)
-Q . S2P
Prelude.v
DataPatcher.v
FlexArray.v
WordMemory.v
BigNumPrimitives.v
BigNumMod.v
BigNumMontgomery.v
Rsa.v
MemoryMap.v
MemoryAttributes.v
MemoryQuery.v
KeyMap.v
UpDown.v
Digest.v
Sha512.v
ChaCha.v
Sha2.v
Aes.v
Umm.v
VirtualMemory.v
RamDisk.v
Chunklist.v
DiskImage.v
Xml.v
XmlSyntax.v
Plist.v
Template.v
Serialize.v
SerializeSpec.v
SerializeFrame.v
SerializeSafety.v
SerializeStore.v
ConfigDocument.v
ConfigTypes.v
Configuration.v
