(* ===== verification/Prelude.v ===== *)
(** * Verification of OpenCorePkg

    OpenCorePkg is a UEFI boot loader: drivers (Platform/), applications
    (Application/, Utilities/) and a set of EDK II libraries (Library/Oc*Lib) with
    their interfaces in Include/. This development models library code that every
    boot goes through, and proves it correct. Paths below are relative to src/.

    ** How the code is modelled

    Functions of the source become functions of the same name. C integers are
    values of [Z] kept in their width, with the wrap-around of the source written
    out ([wrap w], [x +[w] y]); memory is a list of cells with checked accesses
    ([rd], [wr], [rd_slice], [wr_slice], [CopyMem], [ZeroMem]) or, where pointers
    alias, a map from addresses. A computation that the source gives no meaning to
    is the value [Fault] of the type [outcome]: an access outside of a buffer, a
    failed ASSERT of a DEBUG build, or a loop that needs more turns than its fuel.
    A theorem of the form "returns" therefore says that the code stays in its
    buffers and terminates. Firmware services, the pool allocator and other code
    that is not part of the repository are type classes with their documented
    behaviour as laws ([MemoryPool], [Firmware], [ShaLib], ...), and the theorems
    have witnesses at concrete instances of them.

    ** The files

    - Prelude: this header, integers, outcomes, buffers, loops and their total
      correctness rules, shared lemmas and tactics.
    - DataPatcher (OcMiscLib/DataPatcher.c): [FindPattern] and [ApplyPatch], used
      for kernel, kext and ACPI patches. [ApplyPatch] is a greedy left-to-right
      substitution on the original data and writes nothing else.
    - FlexArray (OcFlexArrayLib/FlexArray.c): growing arrays against the list of
      their items, with the pool as interface.
    - WordMemory, BigNumPrimitives, BigNumMod, BigNumMontgomery, Rsa
      (OcCryptoLib/BigNum*.c, Cpu32, Cpu64, RsaDigitalSign.c): from word arithmetic
      to PKCS#1 v1.5 verification, at both word sizes, with aliasing operands; a
      signature is accepted exactly when its power is the encoded message.
    - Digest (Md5.c, Sha1.c, SHA-256 of Sha2.c), Sha512 (SHA-384/512 of Sha2.c,
      PasswordHash.c, SecureMem.c), Sha2 (instance of the hash interface of Rsa):
      the streaming functions compute the padded digest for any split of the
      input; SHA-2 follows the formulas of FIPS 180-4.
    - ChaCha (ChaCha.c), Aes (Aes.c): the stream cipher and AES in CBC and CTR mode
      against RFC 8439 and FIPS 197, in place or not, with their round trips.
    - MemoryMap, MemoryAttributes, MemoryQuery (OcMemoryLib/MemoryMap.c,
      MemoryAttributes.c, MemoryAlloc.c): the UEFI memory map as a buffer of
      descriptor slots: sorting, joining, deduplication, splitting by the memory
      attributes table, repair of that table, and allocation from the top of
      memory around the firmware calls.
    - KeyMap, UpDown (OcAppleKeyMapLib): the database of pressed keys with its
      reachable states, and the detection of key transitions and repeats on top of
      the aggregator interface.
    - Umm (OcMemoryLib/UmmMalloc.c): the heap allocator as an array of block links,
      with the invariant of its block chain and free list, best fit, and the round
      trip of allocation and release.
    - VirtualMemory (OcMemoryLib/VirtualMemory.c): the page walk, mapping of pages
      with splitting of large ones, and the attribute index of ranges.
    - RamDisk (OcAppleRamDiskLib): the extents of a disk in memory as one flat byte
      array to readers and writers, loading of a file, and the balance of pages.
    - Chunklist (OcAppleChunklistLib, and the check in
      OcBootManagementLib/DmgBootSupport.c): RamDisk, Sha2 and Rsa put together; a
      signed image is accepted only when its chunks are what was signed.
    - DiskImage (OcAppleDiskImageLib): validation of the block tables of an image,
      and its sectors as one flat array over RamDisk, with zlib as interface.
    - Xml, XmlSyntax (OcXmlLib/OcXmlLib.c): the parser of property lists in place,
      on a heap of nodes: memory safety for any input and any pool, the documents
      that it reads as a grammar, and parsing and export as inverses.
    - Plist (the second part of OcXmlLib.c): typed access to the nodes of a property
      list, described by the element that a node stands for, and unescaping.
    - Template (OcTemplateLib.c): the objects of the configuration, with the blocks
      of the pool that belong to them; blobs, arrays and maps that grow.
    - Serialize (OcSerializeLib.c): reading a property list by a schema.
      SerializeSpec has its meaning, the merge of an element into an object, as a
      refinement; SerializeFrame the fields that it leaves alone; SerializeSafety
      its types and the account of its blocks; SerializeStore what is in the fields
      afterwards; ConfigDocument the way from a text.
    - ConfigTypes (OcConfigurationLib.h), Configuration (OcConfigurationLib.c): all
      structures and all tables of the configuration, and [OcConfigurationInit]: what
      it accepts, for any text and any pool, and what is in the configuration then.

    ** Theorems

    The claims C1, C2, ... are numbered by importance over all files. They are
    refinements of abstract specifications (RSA verification, the digests and
    ciphers, splitting and joining of the memory map, patches, the observer of key
    transitions), invariants of reachable states (the key database), the results
    of an operation on every branch, errors included, round trips (export and
    parsing, escaping, key sets) and termination. Lemmas named after a defect ([RightShift_asserts],
    [PowMod_not_reduced], [Free_after_failed_add], [InsertItem_overruns],
    [Shrink_keeps_absorbed], [chunk_beyond_block], [flush_gives_up]) show what the code does where it
    departs from its comments or its intention.

    ** Bounds and fuel

    Loops over a buffer take its length as fuel. [while_bin] counts with a binary
    number for loops whose bound is a machine integer: 2^34 turns for the
    shift-and-subtract loop of [BigNumMod], 2^65 for the word inverse and for
    digest updates with a 64-bit length, 2^33 for the 32-bit index of
    [Sha256Update]; the theorems show that these are never exhausted, or where
    they are, that the source loop does not end. The fuel of [OcKeyMapFlush] and
    of the retries of [OcGetCurrentMemoryMapAlloc], loops that the source does not
    bound, is a parameter, and the theorems say for which runs it is not enough; so is that of the loops of VirtualMemory over a range of
    addresses. A walk over the extents of a RAM disk takes one turn more than there
    are extents, the allocation of a disk 256 turns (a table has 254 extents), the
    loading of an extent one turn per 4 MB and two more, the scans of Umm the number
    of words of the heap, and the read of an image one turn per byte and one more.
    The loops of the XML parser take one turn per byte and one more, its recursion
    33 levels (the limit of the source is 32), and the walks over a tree of nodes
    the number of nodes and one. The scans of a string take one turn per character
    and one more, the search in a table one turn per entry and one more.

    ** Not modelled

    DEBUG output; assembly (X64/Sha512Avx.nasm is an interface with a law);
    [SecureZeroMem], whose point is what a compiler may not remove; vendored code
    (zlib, lodepng, minimp3, UBSan, the HII database, DuetPkg and the tools under
    Utilities/); drivers and applications that only call firmware protocols.
    Objects of the configuration are copied by value: a constructor yields its
    initial object, and the layout of a structure in memory is the list of its
    fields. Libraries with logic of their own that are not modelled are listed with
    the manifest; among them the string library and the kernel extension linker. *)
From stdpp Require Export prelude.

Declare Scope oc_scope.
Delimit Scope oc_scope with oc.
#[global] Open Scope Z_scope.
#[global] Open Scope oc_scope.

(** ** Machine integers

    A [w]-bit unsigned integer is a [Z] kept in [0 <= x < 2^w]; [wrap w] is the
    conversion the C abstract machine applies on assignment. *)
Definition wrap (w x : Z) : Z := x mod 2 ^ w.

Definition in_width (w x : Z) : Prop := 0 <= x < 2 ^ w.

Definition is_byte (b : Z) : Prop := in_width 8 b.

Notation "x '+[' w ] y" := (wrap w (x + y))
  (at level 50, w at level 9, left associativity, format "x  +[ w ]  y") : oc_scope.
Notation "x '-[' w ] y" := (wrap w (x - y))
  (at level 50, w at level 9, left associativity, format "x  -[ w ]  y") : oc_scope.
Notation "x '*[' w ] y" := (wrap w (x * y))
  (at level 40, w at level 9, left associativity, format "x  *[ w ]  y") : oc_scope.

(** The two's complement reading of a [w]-bit word (C conversion to a signed
    type of the same width). *)
Definition swrap (w x : Z) : Z :=
  let y := wrap w x in if decide (y < 2 ^ (w - 1)) then y else y - 2 ^ w.

(** Overflow-checked arithmetic: the result is stored wrapped, the returned flag
    tells that the exact result did not fit ([BaseOverflow*] contract). *)
Definition overflow_add (w a b : Z) : bool * Z := (bool_decide (2 ^ w <= a + b), a +[w] b).
Definition overflow_mul (w a b : Z) : bool * Z := (bool_decide (2 ^ w <= a * b), a *[w] b).

Definition MAX_UINT32 : Z := 2 ^ 32 - 1.
Definition MAX_UINT64 : Z := 2 ^ 64 - 1.

(** ** EFI_STATUS

    A status is an unsigned 64-bit word; errors have the high bit set. *)
Abbreviation EFI_STATUS := Z (only parsing).
Definition EFIERR (n : Z) : Z := Z.lor (2 ^ 63) n.
Definition EFI_SUCCESS : Z := 0.
Definition EFI_INVALID_PARAMETER : Z := EFIERR 2.
Definition EFI_UNSUPPORTED : Z := EFIERR 3.
Definition EFI_BUFFER_TOO_SMALL : Z := EFIERR 5.
Definition EFI_OUT_OF_RESOURCES : Z := EFIERR 9.
Definition EFI_NOT_FOUND : Z := EFIERR 14.
Definition EFI_ERROR (s : Z) : bool := bool_decide (2 ^ 63 <= s).

(** ** Outcomes

    [Fault] is the explicit value of executions that the C source gives no
    meaning to (an access outside of a buffer), that stop in a DEBUG build (a
    failed ASSERT), or that need more iterations than the fuel of a loop. *)
Inductive fault : Set :=
| OutOfBounds
| AssertFailed
| OutOfFuel.

Inductive outcome (A : Type) : Type :=
| Ret (a : A)
| Fault (f : fault).
Arguments Ret {A} a.
Arguments Fault {A} f.

#[export] Instance fault_eq_dec : EqDecision fault.
Proof. solve_decision. Defined.
#[export] Instance outcome_eq_dec {A} `{EqDecision A} : EqDecision (outcome A).
Proof. solve_decision. Defined.

#[export] Instance outcome_ret : MRet outcome := @Ret.
#[export] Instance outcome_bind : MBind outcome := fun A B f m =>
  match m with Ret a => f a | Fault e => Fault e end.
#[export] Instance outcome_fmap : FMap outcome := fun A B f m =>
  match m with Ret a => Ret (f a) | Fault e => Fault e end.

(** [ASSERT (b)]. *)
Definition assert (b : bool) : outcome unit := if b then Ret tt else Fault AssertFailed.

(** ** Buffers

    A buffer is a list of cells; an index is a machine integer. *)
Definition rd {A} (l : list A) (i : Z) : outcome A :=
  if decide (0 <= i) then
    match l !! Z.to_nat i with Some x => Ret x | None => Fault OutOfBounds end
  else Fault OutOfBounds.

Definition wr {A} (l : list A) (i : Z) (x : A) : outcome (list A) :=
  if decide (0 <= i < Z.of_nat (length l)) then Ret (<[Z.to_nat i := x]> l)
  else Fault OutOfBounds.

(** [n] consecutive cells of [l] from index [off]. *)
Definition slice {A} (l : list A) (off n : Z) : list A :=
  take (Z.to_nat n) (drop (Z.to_nat off) l).

(** Reading [n] cells at [off], all of them inside the buffer. *)
Definition rd_slice {A} (l : list A) (off n : Z) : outcome (list A) :=
  if decide (0 <= off /\ 0 <= n /\ off + n <= Z.of_nat (length l))
  then Ret (slice l off n) else Fault OutOfBounds.

(** Writing the cells [xs] at [off], all of them inside the buffer. *)
Definition wr_slice {A} (l : list A) (off : Z) (xs : list A) : outcome (list A) :=
  if decide (0 <= off /\ off + Z.of_nat (length xs) <= Z.of_nat (length l))
  then Ret (list_inserts (Z.to_nat off) xs l) else Fault OutOfBounds.

(** [CopyMem (&dst[doff], &src[soff], n)]; as for the EDK II primitive, the two
    ranges may overlap, so all cells are read before the first one is written. *)
Definition CopyMem {A} (dst : list A) (doff : Z) (src : list A) (soff n : Z) : outcome (list A) :=
  xs ← rd_slice src soff n; wr_slice dst doff xs.

(** [ZeroMem (&l[off], n)]. *)
Definition ZeroMem (l : list Z) (off n : Z) : outcome (list Z) :=
  wr_slice l off (replicate (Z.to_nat n) 0).

(** The value of a little-endian list of [w]-bit digits. *)
Fixpoint le_value (w : Z) (l : list Z) : Z :=
  match l with [] => 0 | d :: t => d + 2 ^ w * le_value w t end.

(** The [k] low bytes of a number, the lowest first. *)
Fixpoint le_bytes (k : nat) (x : Z) : list Z :=
  match k with O => [] | S k => x mod 2 ^ 8 :: le_bytes k (x / 2 ^ 8) end.

(** ** Pool memory

    [AllocatePool] and [ReallocatePool] of the EDK II MemoryAllocationLib are not
    part of the sources: a call either fails or yields a buffer (of unspecified
    content), and the laws state what the documentation promises. *)
Class MemoryPool : Type := {
  AllocatePool : Z -> option (list Z);
  ReallocatePool : Z -> Z -> list Z -> option (list Z)
}.

Class MemoryPoolLaws (P : MemoryPool) : Prop := {
  AllocatePool_length n b : AllocatePool n = Some b -> Z.of_nat (length b) = n;
  ReallocatePool_length old new b b' :
    ReallocatePool old new b = Some b' -> Z.of_nat (length b') = new;
  ReallocatePool_prefix old new b b' :
    ReallocatePool old new b = Some b' ->
    take (Z.to_nat (Z.min old new)) b' = take (Z.to_nat (Z.min old new)) b
}.

(** A pool that always succeeds (and one that always fails), with the laws. *)
Definition pool_filled (x : Z) : MemoryPool := {|
  AllocatePool n := if decide (0 <= n) then Some (replicate (Z.to_nat n) x) else None;
  ReallocatePool old new b :=
    if decide (0 <= new /\ old <= Z.of_nat (length b))
    then Some (take (Z.to_nat (Z.min old new)) b
               ++ replicate (Z.to_nat new - length (take (Z.to_nat (Z.min old new)) b)) x)
    else None
|}.

Definition pool_empty : MemoryPool := {|
  AllocatePool _ := None;
  ReallocatePool _ _ _ := None
|}.

#[export] Instance pool_filled_laws x : MemoryPoolLaws (pool_filled x).
Proof.
  constructor; simpl.
  - intros n b. case_decide; [|done]. intros [= <-]. rewrite length_replicate. lia.
  - intros old new b b'. case_decide; [|done]. intros [= <-].
    rewrite length_app, length_replicate, length_take. lia.
  - intros old new b b'. case_decide; [|done]. intros [= <-].
    rewrite take_app_le by (rewrite length_take; lia). rewrite take_take. f_equal. lia.
Qed.

#[export] Instance pool_empty_laws : MemoryPoolLaws pool_empty.
Proof. by constructor. Qed.

(** ** Loops

    [while_] runs a loop body on an explicit state; the body either continues
    with a new state ([inl]) or leaves the loop with a result ([inr]). The fuel
    is a bound on the number of iterations; [while_total] below is the rule that
    shows it is never exhausted. *)
Fixpoint while_ {St R} (fuel : nat) (body : St -> outcome (St + R)) (s : St) : outcome R :=
  match fuel with
  | O => Fault OutOfFuel
  | S fuel =>
      x ← body s;
      match x with inl s' => while_ fuel body s' | inr r => Ret r end
  end.

(** [for (i = start; i < start + n; ++i)] without an early exit. *)
Fixpoint for_ {St} (n : nat) (i : Z) (body : Z -> St -> outcome St) (s : St) : outcome St :=
  match n with
  | O => Ret s
  | S n => s' ← body i s; for_ n (i + 1) body s'
  end.

(** A loop whose iteration count can reach [2^64]: the fuel is a binary number,
    so that a run with few iterations stays executable. *)
Fixpoint iterate_ {St R} (fuel : positive) (body : St -> outcome (St + R)) (s : St) : outcome (St + R) :=
  match fuel with
  | xH => body s
  | xO p =>
      x ← iterate_ p body s;
      match x with inl s' => iterate_ p body s' | inr r => Ret (inr r) end
  | xI p =>
      x ← body s;
      match x with
      | inl s' =>
          y ← iterate_ p body s';
          match y with inl s'' => iterate_ p body s'' | inr r => Ret (inr r) end
      | inr r => Ret (inr r)
      end
  end.

Definition while_bin {St R} (fuel : positive) (body : St -> outcome (St + R)) (s : St) : outcome R :=
  x ← iterate_ fuel body s;
  match x with inl _ => Fault OutOfFuel | inr r => Ret r end.

(** ** Lemmas on machine integers *)
Create HintDb oc.
Create Rewrite HintDb oc_len.

Lemma length_le_bytes k x : length (le_bytes k x) = k.
Proof. revert x. induction k; intros x; simpl; [done|]. by rewrite IHk. Qed.

Lemma wrap_range w x : 0 <= w -> 0 <= wrap w x < 2 ^ w.
Proof. intros Hw. apply Z.mod_pos_bound. lia. Qed.

Lemma wrap_small w x : 0 <= x < 2 ^ w -> wrap w x = x.
Proof. apply Z.mod_small. Qed.

Lemma wrap_in_width w x : 0 <= w -> in_width w (wrap w x).
Proof. apply wrap_range. Qed.

Lemma in_width_wrap w x : in_width w x -> wrap w x = x.
Proof. apply wrap_small. Qed.

Lemma wrap_neg w x : - 2 ^ w <= x < 0 -> wrap w x = x + 2 ^ w.
Proof.
  intros Hx. unfold wrap. symmetry. apply Z.mod_unique with (-1); lia.
Qed.

Lemma wrap_over w x : 2 ^ w <= x < 2 ^ w + 2 ^ w -> wrap w x = x - 2 ^ w.
Proof.
  intros Hx. unfold wrap. symmetry. apply Z.mod_unique with 1; lia.
Qed.

(** The union of a multiple of [2^b] and a [b]-bit number is their sum. *)
Lemma lor_disjoint b x y : 0 <= b -> 0 <= y < 2 ^ b -> Z.lor (x * 2 ^ b) y = x * 2 ^ b + y.
Proof.
  intros Hb Hy. assert (Z.land (x * 2 ^ b) y = 0) as E.
  { apply Z.bits_inj'. intros n Hn. rewrite Z.land_spec, Z.bits_0.
    destruct (decide (n < b)).
    - by rewrite Z.mul_pow2_bits_low by lia.
    - rewrite andb_comm. destruct (decide (y = 0)) as [->|]; [by rewrite Z.testbit_0_l|].
      assert (Z.log2 y < b) by (apply Z.log2_lt_pow2; lia). rewrite (Z.bits_above_log2 y); [done|lia|lia]. }
  by rewrite Z.add_nocarry_lxor, Z.lxor_lor.
Qed.

Lemma overflow_add_false w a b r :
  0 <= a + b -> overflow_add w a b = (false, r) -> r = a + b /\ a + b < 2 ^ w.
Proof.
  unfold overflow_add. intros H0 [= Hd <-].
  apply bool_decide_eq_false in Hd. rewrite wrap_small; lia.
Qed.

Lemma overflow_mul_false w a b r :
  0 <= a * b -> overflow_mul w a b = (false, r) -> r = a * b /\ a * b < 2 ^ w.
Proof.
  unfold overflow_mul. intros H0 [= Hd <-].
  apply bool_decide_eq_false in Hd. rewrite wrap_small; lia.
Qed.

(** ** Lemmas on outcomes and buffers *)
Lemma bind_Ret {A B} (m : outcome A) (f : A -> outcome B) b :
  m ≫= f = Ret b <-> exists a, m = Ret a /\ f a = Ret b.
Proof.
  destruct m as [a|e]; simpl.
  - split; [intros H; eauto|]. by intros (? & [= ->] & ?).
  - split; [done|]. by intros (? & ? & ?).
Qed.

Lemma bind_ret {A B} (a : A) (f : A -> outcome B) : Ret a ≫= f = f a.
Proof. done. Qed.

Lemma rd_lookup {A} (l : list A) (i : Z) x :
  0 <= i -> l !! Z.to_nat i = Some x -> rd l i = Ret x.
Proof. intros Hi Hx. unfold rd. rewrite decide_True by done. by rewrite Hx. Qed.

Lemma rd_nat {A} (l : list A) (i : nat) x : l !! i = Some x -> rd l (Z.of_nat i) = Ret x.
Proof. intros Hx. apply rd_lookup; [lia|]. by rewrite Nat2Z.id. Qed.

Lemma rd_Ret {A} (l : list A) (i : Z) x :
  rd l i = Ret x -> 0 <= i < Z.of_nat (length l) /\ l !! Z.to_nat i = Some x.
Proof.
  unfold rd. case_decide; [|done]. destruct (l !! Z.to_nat i) eqn:E; [|done].
  intros [= ->]. split; [|done]. apply lookup_lt_Some in E. lia.
Qed.

Lemma wr_in {A} (l : list A) (i : Z) x :
  0 <= i < Z.of_nat (length l) -> wr l i x = Ret (<[Z.to_nat i := x]> l).
Proof. intros. unfold wr. by rewrite decide_True. Qed.

Lemma rd_slice_in {A} (l : list A) off n :
  0 <= off -> 0 <= n -> off + n <= Z.of_nat (length l) ->
  rd_slice l off n = Ret (slice l off n).
Proof. intros. unfold rd_slice. by rewrite decide_True. Qed.

Lemma wr_slice_in {A} (l : list A) off xs :
  0 <= off -> off + Z.of_nat (length xs) <= Z.of_nat (length l) ->
  wr_slice l off xs = Ret (list_inserts (Z.to_nat off) xs l).
Proof. intros. unfold wr_slice. by rewrite decide_True. Qed.

Lemma slice_length {A} (l : list A) off n :
  0 <= off -> 0 <= n -> off + n <= Z.of_nat (length l) ->
  length (slice l off n) = Z.to_nat n.
Proof. intros. unfold slice. rewrite length_take, length_drop. lia. Qed.

Lemma CopyMem_in {A} (dst : list A) doff src soff n :
  0 <= n -> 0 <= soff -> soff + n <= Z.of_nat (length src) ->
  0 <= doff -> doff + n <= Z.of_nat (length dst) ->
  CopyMem dst doff src soff n = Ret (list_inserts (Z.to_nat doff) (slice src soff n) dst).
Proof.
  intros. unfold CopyMem. rewrite rd_slice_in by lia. simpl.
  apply wr_slice_in; [lia|]. rewrite slice_length; lia.
Qed.

Lemma lookup_slice {A} (l : list A) off n i :
  0 <= off -> 0 <= n -> (i < Z.to_nat n)%nat ->
  slice l off n !! i = l !! (Z.to_nat off + i)%nat.
Proof. intros. unfold slice. rewrite lookup_take_lt by lia. apply lookup_drop. Qed.

(** Total correctness of a loop: an invariant and a decreasing measure. *)
Lemma while_total {St R} (body : St -> outcome (St + R)) (I : St -> Prop) (m : St -> nat) (Q : R -> Prop) :
  (forall s, I s -> exists x, body s = Ret x /\
     match x with inl s' => I s' /\ (m s' < m s)%nat | inr r => Q r end) ->
  forall fuel s, I s -> (m s < fuel)%nat -> exists r, while_ fuel body s = Ret r /\ Q r.
Proof.
  intros Hb fuel. induction fuel as [|fuel IH]; intros s Hs Hm; [lia|].
  destruct (Hb s Hs) as ([s'|r] & E & HQ); simpl; rewrite E; simpl; [|by eauto].
  destruct HQ. apply IH; [done|lia].
Qed.

(** Partial correctness, for loops that are already known to return. *)
Lemma while_partial {St R} (body : St -> outcome (St + R)) (I : St -> Prop) (Q : R -> Prop) :
  (forall s x, I s -> body s = Ret x -> match x with inl s' => I s' | inr r => Q r end) ->
  forall fuel s r, I s -> while_ fuel body s = Ret r -> Q r.
Proof.
  intros Hb fuel. induction fuel as [|fuel IH]; intros s r Hs; simpl; [done|].
  destruct (body s) as [[s'|r']|] eqn:E; simpl; [|intros [= <-]|done].
  - apply IH. exact (Hb _ _ Hs E).
  - exact (Hb _ _ Hs E).
Qed.

Lemma iterate_total {St R} (body : St -> outcome (St + R)) (I : St -> Prop) (m : St -> Z) (Q : R -> Prop) :
  (forall s, I s -> exists x, body s = Ret x /\
     match x with inl s' => I s' /\ m s' < m s | inr r => Q r end) ->
  forall fuel s, I s -> exists x, iterate_ fuel body s = Ret x /\
     match x with inl s' => I s' /\ m s' <= m s - Zpos fuel | inr r => Q r end.
Proof.
  intros Hb fuel. induction fuel as [p IH|p IH|]; intros s Hs; simpl.
  - destruct (Hb s Hs) as ([s1|r] & -> & H1); simpl; [|eauto]. destruct H1 as [H1 M1].
    destruct (IH s1 H1) as ([s2|r] & -> & H2); simpl; [|eauto]. destruct H2 as [H2 M2].
    destruct (IH s2 H2) as ([s3|r] & -> & H3); eexists; (split; [done|]); simpl; [|done].
    destruct H3. split; [done|lia].
  - destruct (IH s Hs) as ([s2|r] & -> & H2); simpl; [|eauto]. destruct H2 as [H2 M2].
    destruct (IH s2 H2) as ([s3|r] & -> & H3); eexists; (split; [done|]); simpl; [|done].
    destruct H3. split; [done|lia].
  - destruct (Hb s Hs) as ([s1|r] & -> & H1); eexists; (split; [done|]); simpl; [|done].
    destruct H1. split; [done|lia].
Qed.

(** A loop whose body never leaves runs out of every fuel. *)
Lemma iterate_forever {St R} (body : St -> outcome (St + R)) (I : St -> Prop) :
  (forall s, I s -> exists s', body s = Ret (inl s') /\ I s') ->
  forall fuel s, I s -> exists s', iterate_ fuel body s = Ret (inl s') /\ I s'.
Proof.
  intros Hb fuel. induction fuel as [p IH|p IH|]; intros s Hs; simpl; [| |by apply Hb].
  - destruct (Hb s Hs) as (s1 & -> & H1); simpl.
    destruct (IH s1 H1) as (s2 & -> & H2); simpl.
    destruct (IH s2 H2) as (s3 & -> & H3); simpl. eauto.
  - destruct (IH s Hs) as (s2 & -> & H2); simpl.
    destruct (IH s2 H2) as (s3 & -> & H3); simpl. eauto.
Qed.

Lemma while_bin_forever {St R} (body : St -> outcome (St + R)) (I : St -> Prop) :
  (forall s, I s -> exists s', body s = Ret (inl s') /\ I s') ->
  forall fuel s, I s -> while_bin fuel body s = Fault OutOfFuel.
Proof.
  intros Hb fuel s Hs. unfold while_bin. by destruct (iterate_forever body I Hb fuel s Hs) as (s' & -> & _).
Qed.

(** Total correctness of a loop with binary fuel. *)
Lemma while_bin_total {St R} (body : St -> outcome (St + R)) (I : St -> Prop) (m : St -> Z) (Q : R -> Prop) :
  (forall s, I s -> 0 <= m s) ->
  (forall s, I s -> exists x, body s = Ret x /\
     match x with inl s' => I s' /\ m s' < m s | inr r => Q r end) ->
  forall fuel s, I s -> m s < Zpos fuel -> exists r, while_bin fuel body s = Ret r /\ Q r.
Proof.
  intros Hm Hb fuel s Hs Hf. unfold while_bin.
  destruct (iterate_total body I m Q Hb fuel s Hs) as ([s'|r] & -> & H); simpl; [|eauto].
  destruct H as [H HM]. specialize (Hm _ H). lia.
Qed.

Lemma for_total {St} (body : Z -> St -> outcome St) (I : Z -> St -> Prop) (n : nat) :
  forall i s, I i s ->
  (forall j s, i <= j < i + Z.of_nat n -> I j s -> exists s', body j s = Ret s' /\ I (j + 1) s') ->
  exists s', for_ n i body s = Ret s' /\ I (i + Z.of_nat n) s'.
Proof.
  induction n as [|n IH]; intros i s Hs Hb.
  - exists s. rewrite Nat2Z.inj_0, Z.add_0_r. done.
  - destruct (Hb i s ltac:(lia) Hs) as (s' & E & Hs'). simpl for_. rewrite E. simpl.
    destruct (IH (i + 1) s' Hs') as (s'' & E' & H'').
    { intros j t Hj. apply Hb. lia. }
    exists s''. split; [done|].
    by replace (i + Z.of_nat (S n)) with (i + 1 + Z.of_nat n) by lia.
Qed.

Lemma for_app {St} (body : Z -> St -> outcome St) n m : forall i s,
  for_ (n + m) i body s = (s' ← for_ n i body s; for_ m (i + Z.of_nat n) body s').
Proof.
  induction n as [|n IH]; intros i s; simpl for_.
  - simpl. by rewrite Z.add_0_r.
  - destruct (body i s) as [s'|e]; simpl; [|done]. rewrite IH.
    by replace (i + Z.of_nat (S n)) with (i + 1 + Z.of_nat n) by lia.
Qed.

Lemma while_S {St R} fuel (body : St -> outcome (St + R)) s :
  while_ (S fuel) body s = (x ← body s; match x with inl s' => while_ fuel body s' | inr r => Ret r end).
Proof. done. Qed.

(** One iteration of a loop whose body is evaluated. *)
Lemma while_inl {St R} fuel (body : St -> outcome (St + R)) s s' :
  body s = Ret (inl s') -> while_ (S fuel) body s = while_ fuel body s'.
Proof. intros E. by rewrite while_S, E. Qed.
Lemma while_inr {St R} fuel (body : St -> outcome (St + R)) s r :
  body s = Ret (inr r) -> while_ (S fuel) body s = Ret r.
Proof. intros E. by rewrite while_S, E. Qed.

#[global] Arguments while_ : simpl never.
#[global] Arguments while_bin : simpl never.
#[global] Arguments for_ : simpl never.

(** The content of a buffer after the write of a block, in one equation. *)
Lemma lookup_inserts {A} (l xs : list A) (off i : nat) :
  (off + length xs <= length l)%nat ->
  list_inserts off xs l !! i =
  if decide (off <= i < off + length xs)%nat then xs !! (i - off)%nat else l !! i.
Proof.
  intros Hle. case_decide as Hc.
  - destruct (xs !! (i - off)%nat) eqn:E.
    + apply list_lookup_inserts_Some. right. split; [lia|]. split; [lia|done].
    + apply lookup_ge_None in E. lia.
  - destruct (decide (i < off)%nat).
    + by apply list_lookup_inserts_lt.
    + apply list_lookup_inserts_ge. lia.
Qed.

Lemma inserts_all {A} (b xs : list A) : length xs = length b -> list_inserts 0 xs b = xs.
Proof.
  intros H. apply list_eq. intros i. rewrite lookup_inserts by lia. rewrite Nat.sub_0_r.
  case_decide; [done|]. rewrite !(proj2 (lookup_ge_None _ _)) by lia. done.
Qed.

Lemma slice_ext {A} (l l' : list A) off off' n :
  0 <= off -> 0 <= off' -> 0 <= n ->
  (forall i, (i < Z.to_nat n)%nat -> l !! (Z.to_nat off + i)%nat = l' !! (Z.to_nat off' + i)%nat) ->
  slice l off n = slice l' off' n.
Proof.
  intros H1 H2 H3 H. apply list_eq. intros i. destruct (decide (i < Z.to_nat n)%nat).
  - rewrite !lookup_slice by lia. by apply H.
  - unfold slice. by rewrite !lookup_take_ge by lia.
Qed.

Lemma ZeroMem_in (l : list Z) off n :
  0 <= off -> 0 <= n -> off + n <= Z.of_nat (length l) ->
  ZeroMem l off n = Ret (list_inserts (Z.to_nat off) (replicate (Z.to_nat n) 0) l).
Proof. intros. apply wr_slice_in; rewrite ?length_replicate; lia. Qed.

Lemma lookup_zeroed (l : list Z) off n i :
  0 <= off -> 0 <= n -> off + n <= Z.of_nat (length l) ->
  list_inserts (Z.to_nat off) (replicate (Z.to_nat n) 0) l !! i =
  if decide (Z.to_nat off <= i < Z.to_nat off + Z.to_nat n)%nat then Some 0 else l !! i.
Proof.
  intros. rewrite lookup_inserts by (rewrite length_replicate; lia). rewrite length_replicate.
  case_decide; [|done]. apply lookup_replicate. split; [done|lia].
Qed.

(** ** Lemmas on bytes *)
Lemma wrap8_lxor x y : wrap 8 (Z.lxor x y) = Z.lxor (wrap 8 x) (wrap 8 y).
Proof.
  unfold wrap. rewrite <- !Z.land_ones by lia. apply Z.bits_inj'. intros n Hn.
  rewrite Z.lxor_spec, !Z.land_spec, Z.lxor_spec. by destruct (Z.testbit x n), (Z.testbit y n), (Z.testbit (Z.ones 8) n).
Qed.

Lemma lxor_bytes x k : Forall is_byte x -> Forall is_byte k -> Forall is_byte (zip_with Z.lxor x k).
Proof.
  intros Hx. revert k. induction Hx as [|a x Ha Hx IH]; intros k Hk; simpl; [done|].
  destruct Hk as [|b k Hb Hk]; [done|]. constructor; [|by apply IH].
  rewrite <- (wrap_small 8 a), <- (wrap_small 8 b) by done. rewrite <- wrap8_lxor. apply wrap_in_width. lia.
Qed.

(** ** Lemmas on consecutive writes *)
Lemma inserts_inserts (b x y : list Z) off :
  (off + length x + length y <= length b)%nat ->
  list_inserts (off + length x) y (list_inserts off x b) = list_inserts off (x ++ y) b.
Proof.
  intros H. apply list_eq. intros i. rewrite !lookup_inserts by (rewrite ?length_inserts, ?length_app; lia).
  rewrite length_app. repeat case_decide; try lia; try done.
  - rewrite lookup_app_r by lia. f_equal. lia.
  - by rewrite lookup_app_l by lia.
Qed.

Lemma slice_inserts_after (b x : list Z) off o n :
  0 <= off -> 0 <= n -> off + Z.of_nat (length x) <= o -> off + Z.of_nat (length x) <= Z.of_nat (length b) ->
  slice (list_inserts (Z.to_nat off) x b) o n = slice b o n.
Proof.
  intros H1 H2 H3 H4. apply slice_ext; [lia..|]. intros i Hi. rewrite lookup_inserts by lia.
  by rewrite decide_False by lia.
Qed.

Lemma slice_inserts_same (b x : list Z) off :
  0 <= off -> off + Z.of_nat (length x) <= Z.of_nat (length b) ->
  slice (list_inserts (Z.to_nat off) x b) off (Z.of_nat (length x)) = x.
Proof.
  intros H1 H2. apply list_eq. intros i. destruct (decide (i < length x)%nat).
  - rewrite lookup_slice by lia. rewrite lookup_inserts by lia. rewrite decide_True by lia. f_equal. lia.
  - rewrite !(proj2 (lookup_ge_None _ _)); [done|lia|]. rewrite slice_length; rewrite ?length_inserts; lia.
Qed.

(** A counting loop that stores the elements of [xs] one after the other. *)
Lemma inserts_extend (l xs : list Z) (off i : nat) x :
  (off + length xs <= length l)%nat -> xs !! i = Some x ->
  <[(off + i)%nat := x]> (list_inserts off (take i xs) l) = list_inserts off (take (S i) xs) l.
Proof.
  intros H Hx. pose proof (lookup_lt_Some _ _ _ Hx) as Hi. apply list_eq. intros k.
  destruct (decide (k = off + i)%nat) as [->|Hk].
  - rewrite list_lookup_insert_eq by (rewrite length_inserts; lia).
    rewrite lookup_inserts by (rewrite length_take; lia). rewrite length_take, decide_True by lia.
    rewrite lookup_take_lt by lia. rewrite <- Hx. f_equal. lia.
  - rewrite list_lookup_insert_ne by done. rewrite !lookup_inserts by (rewrite length_take; lia). rewrite !length_take.
    repeat case_decide; try lia; [|done]. by rewrite !lookup_take_lt by lia.
Qed.

Lemma for_fill (f : Z -> list Z -> outcome (list Z)) (J : Z) (xs l : list Z) :
  0 <= J -> J + Z.of_nat (length xs) <= Z.of_nat (length l) ->
  (forall i x, xs !! i = Some x ->
     let l' := list_inserts (Z.to_nat J) (take i xs) l in f (Z.of_nat i) l' = wr l' (J + Z.of_nat i) x) ->
  for_ (length xs) 0 f l = Ret (list_inserts (Z.to_nat J) xs l).
Proof.
  intros HJ HL Hf.
  destruct (for_total f (fun j s => 0 <= j /\ s = list_inserts (Z.to_nat J) (take (Z.to_nat j) xs) l) (length xs) 0 l)
    as (s & E & H0 & ->).
  - split; [lia|]. change (Z.to_nat 0) with 0%nat. by rewrite take_0.
  - intros j s Hj [_ ->]. destruct (lookup_lt_is_Some_2 xs (Z.to_nat j)) as [x Hx]; [lia|].
    specialize (Hf _ _ Hx). cbv zeta in Hf. rewrite Z2Nat.id in Hf by lia. rewrite Hf.
    rewrite wr_in by (rewrite length_inserts; lia). eexists. split; [done|]. split; [lia|].
    replace (Z.to_nat (J + j)) with (Z.to_nat J + Z.to_nat j)%nat by lia. rewrite inserts_extend by (done || lia).
    by replace (Z.to_nat (j + 1)) with (S (Z.to_nat j)) by lia.
  - rewrite E. rewrite Z.add_0_l, Nat2Z.id. by rewrite firstn_all.
Qed.

#[export] Hint Resolve wrap_range wrap_in_width : oc.
#[export] Hint Rewrite @length_inserts @length_insert @length_app @length_take @length_drop
  @length_replicate : oc_len.

(** ** Tactics *)

(** Splits a chain of [outcome] binds in a hypothesis. *)
Ltac oc_inv_bind :=
  repeat match goal with
  | H : (_ ≫= _) = Ret _ |- _ =>
      let a := fresh "a" in let E := fresh "E" in
      apply bind_Ret in H; destruct H as (a & E & H)
  end.

(** Case analysis on the decisions and conditionals of the goal. *)
Ltac oc_case :=
  repeat first [ case_decide | case_bool_decide | case_match ]; simplify_eq/=.

(** Total correctness of the loop of the goal, by invariant, measure and
    postcondition; the loop is replaced by its result [r] with [Hr : Q r]. *)
Tactic Notation "oc_while" constr(I) constr(m) constr(Q) "as" ident(r) ident(Hr) :=
  match goal with
  | |- context [while_ ?f ?b ?x] =>
      let E := fresh "E" in
      assert (exists r, while_ f b x = Ret r /\ Q r) as (r & E & Hr);
      [ apply (while_total b I m Q) | rewrite E; clear E ]
  end.

(** The same for a loop with binary fuel; the first subgoals are that the
    measure is not negative and that the body preserves the invariant. *)
Tactic Notation "oc_while_bin" constr(I) constr(m) constr(Q) "as" ident(r) ident(Hr) :=
  match goal with
  | |- context [while_bin ?f ?b ?x] =>
      let E := fresh "E" in
      assert (exists r, while_bin f b x = Ret r /\ Q r) as (r & E & Hr);
      [ apply (while_bin_total b I m Q) | rewrite E; clear E ]
  end.

(** The same for a counting loop. *)
Tactic Notation "oc_for" constr(I) "as" ident(r) ident(Hr) :=
  match goal with
  | |- context [for_ ?n ?i ?b ?x] =>
      let E := fresh "E" in
      assert (exists r, for_ n i b x = Ret r /\ I (i + Z.of_nat n) r) as (r & E & Hr);
      [ apply (for_total b I n) | rewrite E; clear E ]
  end.

(** Arithmetic on lengths. *)
Ltac oc_len := autorewrite with oc_len in *; lia.
