(* ===== verification/DataPatcher.v ===== *)
(** * Binary patch engine: [Library/OcMiscLib/DataPatcher.c]

    [FindPattern] and [ApplyPatch] are the primitives behind kernel, kext and
    ACPI patches. The model keeps the two loops of the source, the 32-bit offset
    arithmetic and the optional masks; the specification is a greedy left-to-right
    scan of the original data followed by a pointwise substitution. *)
From S2P Require Import Prelude.

Module DataPatcher.

(** ** Model *)

(** The comparison of one cell, without and with a pattern mask. *)
Definition CellMatches (Pattern : list Z) (PatternMask : option (list Z)) (Data : list Z)
    (CurrentOffset Index : Z) : outcome bool :=
  d ← rd Data (CurrentOffset +[32] Index);
  match PatternMask with
  | None => p ← rd Pattern Index; Ret (bool_decide (d = p))
  | Some Mask =>
      m ← rd Mask Index; p ← rd Pattern Index; Ret (bool_decide (Z.land d m = p))
  end.

(** [for (Index = 0; Index < PatternSize; ++Index)] up to the first difference;
    the result is the value of [Index] after the loop. *)
Definition MatchLength (Pattern : list Z) (PatternMask : option (list Z)) (PatternSize : Z)
    (Data : list Z) (CurrentOffset : Z) : outcome Z :=
  while_ (S (length Pattern))
    (fun Index =>
       if decide (Index < PatternSize) then
         same ← CellMatches Pattern PatternMask Data CurrentOffset Index;
         if (same : bool) then Ret (inl (Index +[32] 1)) else Ret (inr Index)
       else Ret (inr Index)) 0.

Definition InternalFindPattern (Pattern : list Z) (PatternMask : option (list Z)) (PatternSize : Z)
    (Data : list Z) (DataSize DataOff : Z) : outcome (bool * Z) :=
  assert (bool_decide (PatternSize <= DataSize));;
  if decide (PatternSize = 0) then Ret (false, DataOff) else
  let LastOffset := DataSize -[32] PatternSize in
  while_ (S (length Data))
    (fun CurrentOffset =>
       if decide (CurrentOffset <= LastOffset) then
         Index ← MatchLength Pattern PatternMask PatternSize Data CurrentOffset;
         if decide (Index = PatternSize) then Ret (inr (true, CurrentOffset))
         else Ret (inl (CurrentOffset +[32] 1))
       else Ret (inr (false, DataOff))) DataOff.

Definition FindPattern (Pattern : list Z) (PatternMask : option (list Z)) (PatternSize : Z)
    (Data : list Z) (DataSize DataOff : Z) : outcome (bool * Z) :=
  if decide (DataSize < PatternSize) then Ret (false, DataOff)
  else InternalFindPattern Pattern PatternMask PatternSize Data DataSize DataOff.

(** The replacement of one finding: a copy, or a masked read-modify-write loop. *)
Definition ReplaceAt (Replace : list Z) (ReplaceMask : option (list Z)) (PatternSize : Z)
    (DataOff : Z) (Data : list Z) : outcome (list Z) :=
  match ReplaceMask with
  | None => CopyMem Data DataOff Replace 0 PatternSize
  | Some Mask =>
      for_ (Z.to_nat PatternSize) 0
        (fun Index Data =>
           d ← rd Data (DataOff + Index);
           m ← rd Mask Index;
           r ← rd Replace Index;
           wr Data (DataOff + Index) (wrap 8 (Z.lor (Z.land d (Z.lnot m)) (Z.land r m))))
        Data
  end.

(** The variables [ApplyPatch] updates in its loop. *)
Record patch_state : Type := PatchState {
  ps_data : list Z;
  ps_off : Z;
  ps_count : Z;
  ps_skip : Z;
  ps_replaced : Z
}.

Definition ApplyPatchStep (Pattern : list Z) (PatternMask : option (list Z)) (PatternSize : Z)
    (Replace : list Z) (ReplaceMask : option (list Z)) (DataSize : Z) (s : patch_state)
    : outcome (patch_state + (Z * list Z)) :=
  '(Found, DataOff) ← InternalFindPattern Pattern PatternMask PatternSize (ps_data s) DataSize (ps_off s);
  if (Found : bool) then
    if decide (0 < ps_skip s) then
      Ret (inl (PatchState (ps_data s) (DataOff +[32] PatternSize) (ps_count s) (ps_skip s - 1) (ps_replaced s)))
    else
      Data ← ReplaceAt Replace ReplaceMask PatternSize DataOff (ps_data s);
      let ReplaceCount := ps_replaced s +[32] 1 in
      let DataOff := DataOff +[32] PatternSize in
      if decide (0 < ps_count s) then
        let Count := ps_count s - 1 in
        if decide (Count = 0) then Ret (inr (ReplaceCount, Data))
        else Ret (inl (PatchState Data DataOff Count (ps_skip s) ReplaceCount))
      else Ret (inl (PatchState Data DataOff (ps_count s) (ps_skip s) ReplaceCount))
  else Ret (inr (ps_replaced s, ps_data s)).

(** The result is the replacement count and the final content of [Data]. *)
Definition ApplyPatch (Pattern : list Z) (PatternMask : option (list Z)) (PatternSize : Z)
    (Replace : list Z) (ReplaceMask : option (list Z)) (Data : list Z) (DataSize Count Skip : Z)
    : outcome (Z * list Z) :=
  if decide (DataSize < PatternSize) then Ret (0, Data) else
  while_ (S (length Data))
    (ApplyPatchStep Pattern PatternMask PatternSize Replace ReplaceMask DataSize)
    (PatchState Data 0 Count Skip 0).

(** ** Specification *)

(** The buffers of one patch, with the lengths the callers guarantee. *)
Definition mask_fits (Mask : option (list Z)) (n : nat) : Prop :=
  match Mask with None => True | Some m => length m = n end.

Definition masked (Mask : option (list Z)) (i : nat) (d : Z) : Z :=
  match Mask with None => d | Some m => Z.land d (default 0 (m !! i)) end.

(** [Pattern] occurs in [Data] at offset [off]. *)
Definition occurs_at (Pattern : list Z) (Mask : option (list Z)) (Data : list Z) (off : nat) : Prop :=
  imap (masked Mask) (take (length Pattern) (drop off Data)) = Pattern.

#[export] Instance occurs_at_dec Pattern Mask Data off : Decision (occurs_at Pattern Mask Data off).
Proof. unfold occurs_at. apply _. Defined.

(** The greedy, non-overlapping left-to-right scan from [off]. *)
Fixpoint occurrences_from (Pattern : list Z) (Mask : option (list Z)) (Data : list Z) (fuel off : nat)
    : list nat :=
  match fuel with
  | O => []
  | S fuel =>
      if decide (occurs_at Pattern Mask Data off)
      then off :: occurrences_from Pattern Mask Data fuel (off + length Pattern)
      else if decide (off < length Data)%nat
           then occurrences_from Pattern Mask Data fuel (S off) else []
  end.

Definition occurrences Pattern Mask Data (off : nat) : list nat :=
  occurrences_from Pattern Mask Data (S (length Data)) off.

(** Skip the first [Skip] findings, then keep [Count] of them (all for 0). *)
Definition selected (Count Skip : Z) (os : list nat) : list nat :=
  let os := drop (Z.to_nat Skip) os in
  if decide (Count = 0) then os else take (Z.to_nat Count) os.

(** The new value of the [i]-th cell of a finding. *)
Definition new_cell (Replace : list Z) (ReplaceMask : option (list Z)) (i : nat) (d : Z) : Z :=
  let r := default 0 (Replace !! i) in
  match ReplaceMask with
  | None => r
  | Some m => let m := default 0 (m !! i) in wrap 8 (Z.lor (Z.land d (Z.lnot m)) (Z.land r m))
  end.

(** The pointwise substitution of the findings [os] of size [n]. *)
Definition patched (Replace : list Z) (ReplaceMask : option (list Z)) (n : nat) (os : list nat)
    (Data : list Z) : list Z :=
  imap (fun k d =>
          match list_find (fun o => o <= k < o + n)%nat os with
          | Some (_, o) => new_cell Replace ReplaceMask (k - o) d
          | None => d
          end) Data.

(** ** Lemmas *)
Lemma lookup_patched R M n os Data k :
  patched R M n os Data !! k =
  (fun d => match list_find (fun o => o <= k < o + n)%nat os with
            | Some (_, o) => new_cell R M (k - o) d | None => d end) <$> Data !! k.
Proof. unfold patched. apply list_lookup_imap. Qed.

Lemma length_patched R M n os Data : length (patched R M n os Data) = length Data.
Proof. apply length_imap. Qed.

Section Patch.

Context (Pattern : list Z) (PatternMask : option (list Z)).
Context (HPmask : mask_fits PatternMask (length Pattern)) (Hne : Pattern <> []).
Local Abbreviation PatternSize := (Z.of_nat (length Pattern)).
Local Abbreviation occurs := (occurs_at Pattern PatternMask).

Lemma pattern_pos : (0 < length Pattern)%nat.
Proof using Hne. apply Nat.neq_0_lt_0. by intros ?%nil_length_inv. Qed.

Lemma occurs_at_lookup Data off :
  occurs Data off <->
  forall i p, Pattern !! i = Some p ->
    exists d, Data !! (off + i)%nat = Some d /\ masked PatternMask i d = p.
Proof using.
  unfold occurs_at. split.
  - intros E i p Hp. rewrite <- E in Hp.
    rewrite list_lookup_imap in Hp. apply fmap_Some in Hp as (d & Hd & ->).
    apply lookup_take_Some in Hd as [Hd _]. rewrite lookup_drop in Hd. eauto.
  - intros H. apply list_eq. intros i. rewrite list_lookup_imap.
    destruct (Pattern !! i) as [p|] eqn:Hp.
    + destruct (H i p Hp) as (d & Hd & <-).
      rewrite lookup_take_lt by eauto using lookup_lt_Some.
      rewrite lookup_drop, Hd. done.
    + rewrite lookup_take_ge by by apply lookup_ge_None. done.
Qed.

Lemma occurs_at_bound Data off : occurs Data off -> (off + length Pattern <= length Data)%nat.
Proof using Hne.
  intros E%(f_equal length). rewrite length_imap, length_take, length_drop in E.
  pose proof pattern_pos. lia.
Qed.

Lemma CellMatches_spec Data (off i : nat) d p :
  Data !! (off + i)%nat = Some d -> Pattern !! i = Some p ->
  Z.of_nat off + Z.of_nat i < 2 ^ 32 ->
  CellMatches Pattern PatternMask Data (Z.of_nat off) (Z.of_nat i)
  = Ret (bool_decide (masked PatternMask i d = p)).
Proof.
  intros Hd Hp Hlt. unfold CellMatches. rewrite wrap_small by lia.
  rewrite <- Nat2Z.inj_add, (rd_nat _ _ _ Hd). simpl. unfold masked, mask_fits in *.
  destruct PatternMask as [m|]; simpl.
  - destruct (lookup_lt_is_Some_2 m i) as [x Hx].
    { rewrite HPmask. by eapply lookup_lt_Some. }
    rewrite (rd_nat _ _ _ Hx). simpl. rewrite (rd_nat _ _ _ Hp), Hx. done.
  - rewrite (rd_nat _ _ _ Hp). done.
Qed.

Lemma MatchLength_spec Data (off : nat) :
  (off + length Pattern <= length Data)%nat -> Z.of_nat (length Data) < 2 ^ 32 ->
  exists i, MatchLength Pattern PatternMask PatternSize Data (Z.of_nat off) = Ret i /\
    (i = PatternSize <-> occurs Data off).
Proof.
  intros Hle Hsz. unfold MatchLength.
  apply while_total with
    (I := fun Index => exists i : nat, Index = Z.of_nat i /\ (i <= length Pattern)%nat /\
       forall j p, (j < i)%nat -> Pattern !! j = Some p ->
         exists d, Data !! (off + j)%nat = Some d /\ masked PatternMask j d = p)
    (m := fun Index => (length Pattern - Z.to_nat Index)%nat).
  - intros ? (i & -> & Hi & Hpre). destruct (decide _) as [Hlt|Hge].
    + destruct (lookup_lt_is_Some_2 Pattern i) as [p Hp]; [lia|].
      destruct (lookup_lt_is_Some_2 Data (off + i)) as [d Hd]; [lia|].
      rewrite (CellMatches_spec _ _ _ _ _ Hd Hp) by lia. simpl.
      case_bool_decide as Hdp; eexists; split; try done.
      * rewrite wrap_small by lia. split; [|lia].
        exists (S i). split; [lia|]. split; [lia|]. intros j q Hj Hq.
        destruct (decide (j = i)) as [->|]; [naive_solver|]. apply Hpre; [lia|done].
      * simpl. split; [lia|]. rewrite occurs_at_lookup. intros Hocc.
        destruct (Hocc i p Hp) as (? & ? & ?). naive_solver.
    + eexists. split; [done|]. simpl. split; [|lia]. intros _.
      apply occurs_at_lookup. intros j p Hp. apply Hpre; [|done].
      apply lookup_lt_Some in Hp. lia.
  - exists 0%nat. split; [done|]. split; [lia|]. intros; lia.
  - simpl. lia.
Qed.

(** The first finding at or after [off], or none. *)
Definition is_first (Data : list Z) (off o : nat) : Prop :=
  (off <= o)%nat /\ occurs Data o /\ forall k, (off <= k < o)%nat -> ~ occurs Data k.

Definition none_from (Data : list Z) (off : nat) : Prop :=
  forall k, (off <= k)%nat -> ~ occurs Data k.

Lemma InternalFindPattern_spec Data (off : nat) :
  (length Pattern <= length Data)%nat -> Z.of_nat (length Data) < 2 ^ 32 ->
  (off <= length Data)%nat ->
  (exists o, InternalFindPattern Pattern PatternMask PatternSize Data (Z.of_nat (length Data)) (Z.of_nat off)
             = Ret (true, Z.of_nat o) /\ is_first Data off o) \/
  (InternalFindPattern Pattern PatternMask PatternSize Data (Z.of_nat (length Data)) (Z.of_nat off)
   = Ret (false, Z.of_nat off) /\ none_from Data off).
Proof.
  intros Hle Hsz Hoff. unfold InternalFindPattern.
  pose proof pattern_pos.
  rewrite bool_decide_true by lia. simpl. rewrite decide_False by lia.
  rewrite (wrap_small 32 (_ - _)) by lia.
  oc_while (fun c : Z => exists o, c = Z.of_nat o /\ (off <= o <= length Data)%nat /\
              forall k, (off <= k < o)%nat -> ~ occurs Data k)
    (fun c : Z => (length Data - Z.to_nat c)%nat)
    (fun r : bool * Z => (exists o, r = (true, Z.of_nat o) /\ is_first Data off o) \/
              (r = (false, Z.of_nat off) /\ none_from Data off)) as r Hr.
  - intros ? (o & -> & Ho & Hpre). destruct (decide _) as [Hlt|Hge].
    + destruct (MatchLength_spec Data o) as (i & -> & Hi); [lia|done|]. simpl.
      case_decide; eexists; split; try done.
      * left. exists o. split; [done|]. split; [lia|]. split; [by apply Hi|done].
      * rewrite wrap_small by lia. split; [|lia]. exists (S o). split; [lia|]. split; [lia|].
        intros k Hk. destruct (decide (k = o)) as [->|]; [tauto|]. apply Hpre. lia.
    + eexists. split; [done|]. simpl. right. split; [done|]. intros k Hk Hocc.
      pose proof (occurs_at_bound _ _ Hocc). apply (Hpre k); [lia|done].
  - exists off. split; [done|]. split; [lia|]. intros; lia.
  - lia.
  - destruct Hr as [(o & -> & Ho)|[-> Ho]]; eauto.
Qed.

(** *** The scan *)
Local Abbreviation occs := (occurrences Pattern PatternMask).
Local Abbreviation occs_from := (occurrences_from Pattern PatternMask).

Lemma occs_from_fuel Data : forall f g off,
  (length Data - off < f)%nat -> (length Data - off < g)%nat ->
  occs_from Data f off = occs_from Data g off.
Proof using Hne.
  pose proof pattern_pos.
  induction f as [|f IH]; intros [|g] off Hf Hg; [lia..|]. simpl.
  destruct (decide (occurs _ _)) as [Hocc|]; [f_equal|].
  - pose proof (occurs_at_bound _ _ Hocc). apply IH; lia.
  - destruct (decide (_ < _)%nat); [|done]. apply IH; lia.
Qed.

Lemma occs_step Data off :
  occs Data off =
  if decide (occurs Data off) then off :: occs Data (off + length Pattern)
  else if decide (off < length Data)%nat then occs Data (S off) else [].
Proof using Hne.
  pose proof pattern_pos. unfold occurrences at 1. simpl.
  destruct (decide (occurs _ _)) as [Hocc|]; [f_equal|].
  - pose proof (occurs_at_bound _ _ Hocc). apply occs_from_fuel; lia.
  - destruct (decide (_ < _)%nat); [|done]. apply occs_from_fuel; lia.
Qed.

Lemma occs_first Data off o : is_first Data off o -> occs Data off = o :: occs Data (o + length Pattern).
Proof using Hne.
  intros (Hle & Hocc & Hpre). remember (o - off)%nat as n eqn:Hn.
  revert off Hle Hpre Hn. induction n as [|n IH]; intros off Hle Hpre Hn; rewrite occs_step.
  - assert (off = o) as -> by lia. by rewrite decide_True.
  - rewrite decide_False by (apply Hpre; lia).
    pose proof (occurs_at_bound _ _ Hocc). rewrite decide_True by lia.
    apply IH; [lia| |lia]. intros k Hk. apply Hpre. lia.
Qed.

Lemma occs_none Data off : none_from Data off -> occs Data off = [].
Proof using Hne.
  remember (length Data - off)%nat as n eqn:Hn. revert off Hn.
  induction n as [|n IH]; intros off Hn Hpre; rewrite occs_step, decide_False by (apply Hpre; lia).
  - by rewrite decide_False by lia.
  - rewrite decide_True by lia. apply IH; [lia|]. intros k Hk. apply Hpre. lia.
Qed.

(** Findings only depend on the data at and after the scan position. *)
Lemma occurs_drop Data Data' off k :
  drop off Data = drop off Data' -> (off <= k)%nat -> occurs Data k <-> occurs Data' k.
Proof using.
  intros E Hk. unfold occurs_at. replace k with (off + (k - off))%nat by lia.
  by rewrite <- !drop_drop, E.
Qed.

(** *** The substitution *)
Context (Replace : list Z) (ReplaceMask : option (list Z)).
Context (HR : length Replace = length Pattern) (HRmask : mask_fits ReplaceMask (length Pattern)).
Local Abbreviation patch := (patched Replace ReplaceMask (length Pattern)).

(** The masked loop over one finding: cells below [Index] are done. *)
Lemma ReplaceAt_spec Data (o : nat) :
  (o + length Pattern <= length Data)%nat ->
  ReplaceAt Replace ReplaceMask PatternSize (Z.of_nat o) Data = Ret (patch [o] Data).
Proof using HR HRmask.
  intros Ho. unfold ReplaceAt. unfold mask_fits in HRmask. destruct ReplaceMask as [Mask|].
  - oc_for (fun (Index : Z) (D : list Z) => length D = length Data /\ forall k,
      D !! k = (fun d => if decide (o <= k < o + Z.to_nat Index)%nat
                         then new_cell Replace (Some Mask) (k - o) d else d)
               <$> Data !! k) as D HD.
    + split; [done|]. intros k. destruct (Data !! k); [|done]. simpl. by rewrite decide_False by lia.
    + intros Index D HI [HL HD].
      destruct (lookup_lt_is_Some_2 Data (o + Z.to_nat Index)) as [d Hd]; [lia|].
      destruct (lookup_lt_is_Some_2 Mask (Z.to_nat Index)) as [m Hm]; [lia|].
      destruct (lookup_lt_is_Some_2 Replace (Z.to_nat Index)) as [r Hr]; [lia|].
      rewrite (rd_lookup D _ d); [|lia|].
      2:{ rewrite HD. replace (Z.to_nat (Z.of_nat o + Index)) with (o + Z.to_nat Index)%nat by lia.
          rewrite Hd. simpl. by rewrite decide_False by lia. }
      simpl. rewrite (rd_lookup _ _ _ (proj1 HI) Hm). simpl.
      rewrite (rd_lookup _ _ _ (proj1 HI) Hr). simpl. rewrite wr_in by lia.
      eexists. split; [done|]. split; [by rewrite length_insert|]. intros k.
      replace (Z.to_nat (Z.of_nat o + Index)) with (o + Z.to_nat Index)%nat by lia.
      destruct (decide (k = o + Z.to_nat Index)%nat) as [->|Hk].
      * rewrite list_lookup_insert_eq by lia. rewrite Hd. simpl. rewrite decide_True by lia.
        replace (o + Z.to_nat Index - o)%nat with (Z.to_nat Index) by lia.
        unfold new_cell. by rewrite Hr, Hm.
      * rewrite list_lookup_insert_ne by lia. rewrite HD. destruct (Data !! k); [|done]. simpl.
        f_equal. repeat case_decide; done || lia.
    + simpl. f_equal. apply list_eq. intros k. rewrite (proj2 HD), lookup_patched. simpl.
      destruct (Data !! k); [|done]. simpl. f_equal. repeat case_decide; done || lia.
  - rewrite CopyMem_in by lia. f_equal. apply list_eq. intros k.
    rewrite lookup_inserts, lookup_patched by (rewrite slice_length by lia; lia).
    rewrite slice_length by lia. simpl. destruct (decide _) as [Hk|Hk].
    + rewrite lookup_slice by lia. rewrite decide_True by lia.
      destruct (lookup_lt_is_Some_2 Data k) as [d ->]; [lia|]. simpl.
      destruct (lookup_lt_is_Some_2 Replace (k - Z.to_nat (Z.of_nat o))) as [r Hr]; [lia|].
      unfold new_cell. rewrite Nat2Z.id in Hr. simpl.
      by rewrite Nat2Z.id, Hr.
    + destruct (Data !! k); [|done]. simpl. by rewrite decide_False by lia.
Qed.

(** A new finding after all earlier ones. *)
Lemma patched_snoc os o Data :
  Forall (fun o' => o' + length Pattern <= o)%nat os ->
  patch [o] (patch os Data) = patch (os ++ [o]) Data.
Proof.
  intros Hos. apply list_eq. intros k. rewrite !lookup_patched. destruct (Data !! k) as [d|]; [|done].
  simpl. f_equal. destruct (list_find _ os) as [[i o']|] eqn:E; simpl.
  - rewrite (list_find_app_l _ _ _ _ _ E). apply list_find_Some in E as (Hi & Hk & _).
    rewrite Forall_lookup in Hos. pose proof (Hos _ _ Hi). by rewrite decide_False by lia.
  - rewrite list_find_app_r by done. simpl. by case_decide.
Qed.

Lemma drop_patched os off Data :
  Forall (fun o => o + length Pattern <= off)%nat os -> drop off (patch os Data) = drop off Data.
Proof.
  intros Hos. apply list_eq. intros k. rewrite !lookup_drop, lookup_patched.
  destruct (Data !! _) as [d|]; [|done]. simpl. f_equal.
  destruct (list_find _ os) as [[i o]|] eqn:E; [|done].
  apply list_find_Some in E as (Hi & Hk & _). rewrite Forall_lookup in Hos.
  pose proof (Hos _ _ Hi). lia.
Qed.

(** *** The loop of [ApplyPatch] *)
Local Abbreviation sel := (fun Count Skip Data off => selected Count Skip (occs Data off)).

Lemma selected_skip Count Skip o os :
  0 < Skip -> selected Count Skip (o :: os) = selected Count (Skip - 1) os.
Proof.
  intros. unfold selected. replace (Z.to_nat Skip) with (S (Z.to_nat (Skip - 1))) by lia. done.
Qed.

Lemma selected_take Count o os :
  0 <= Count -> selected Count 0 (o :: os) =
  o :: (if decide (Count = 0) then os else take (Z.to_nat (Count - 1)) os).
Proof.
  intros. unfold selected. simpl. case_decide; [done|].
  by replace (Z.to_nat Count) with (S (Z.to_nat (Count - 1))) by lia.
Qed.

(** What holds at the head of the loop: the findings [done] are replaced, all of
    them before the current offset, and the rest of the selection is still ahead. *)
Definition patch_inv (Data : list Z) (Count Skip : Z) (s : patch_state) : Prop :=
  exists (off : nat) (doneo : list nat),
    ps_off s = Z.of_nat off /\ (off <= length Data)%nat /\
    ps_data s = patch doneo Data /\
    Forall (fun o => o + length Pattern <= off)%nat doneo /\
    ps_replaced s = Z.of_nat (length doneo) /\ (length doneo <= off)%nat /\
    0 <= ps_skip s /\ 0 <= ps_count s /\
    selected Count Skip (occs Data 0) = doneo ++ selected (ps_count s) (ps_skip s) (occs Data off).

Lemma ApplyPatchStep_inv Data Count Skip s :
  (length Pattern <= length Data)%nat -> Z.of_nat (length Data) < 2 ^ 32 ->
  patch_inv Data Count Skip s ->
  exists x, ApplyPatchStep Pattern PatternMask PatternSize Replace ReplaceMask (Z.of_nat (length Data)) s = Ret x /\
    match x with
    | inl s' => patch_inv Data Count Skip s' /\
        (length Data - Z.to_nat (ps_off s') < length Data - Z.to_nat (ps_off s))%nat
    | inr r => let os := selected Count Skip (occs Data 0) in r = (Z.of_nat (length os), patch os Data)
    end.
Proof.
  intros Hle Hsz (off & dn & Eo & Ho & Ed & Hdn & Er & Hl & Hs0 & Hc0 & Esel).
  pose proof pattern_pos as Hpp. unfold ApplyPatchStep. rewrite Eo.
  assert (drop off (ps_data s) = drop off Data) as Hdrop by (rewrite Ed; by apply drop_patched).
  assert (length (ps_data s) = length Data) as Hlen by (rewrite Ed; apply length_patched).
  pose proof (InternalFindPattern_spec (ps_data s) off) as HF. rewrite Hlen in HF.
  destruct HF as [(o & -> & Hoo & Hocc & Hpre)|[-> Hnone]]; [lia..| |]; simpl.
  2:{ eexists. split; [done|]. simpl. rewrite Esel, (occs_none Data off).
      - unfold selected. rewrite drop_nil. replace (if decide _ then [] else _) with (@nil nat)
          by (case_decide; [done|by rewrite take_nil]).
        by rewrite app_nil_r, Er, Ed.
      - intros k Hk Hocc. apply (Hnone k Hk). by apply (occurs_drop _ _ _ _ Hdrop). }
  apply (occurs_drop _ _ _ _ Hdrop Hoo) in Hocc. pose proof (occurs_at_bound _ _ Hocc) as Hb.
  assert (occs Data off = o :: occs Data (o + length Pattern)) as Eocc.
  { apply occs_first. split; [done|]. split; [done|]. intros k Hk Hkk. apply (Hpre k Hk).
    apply (occurs_drop _ _ off k Hdrop); [lia|done]. }
  rewrite Eocc in Esel. rewrite (wrap_small 32 (_ + Z.of_nat (length Pattern))) by lia.
  destruct (decide (0 < ps_skip s)) as [Hsk|Hsk].
  { eexists. split; [done|]. simpl. split; [|lia]. rewrite selected_skip in Esel by done.
    exists (o + length Pattern)%nat, dn. simpl. repeat split; [lia|lia|done| |done|lia|lia|done|done].
    eapply Forall_impl; [exact Hdn|]. simpl. lia. }
  replace (ps_skip s) with 0 in * by lia. rewrite selected_take in Esel by done.
  rewrite ReplaceAt_spec by lia. simpl.
  rewrite (wrap_small 32 (ps_replaced s + 1)) by lia.
  assert (Forall (fun o' => o' + length Pattern <= o)%nat dn) as Hdn'.
  { eapply Forall_impl; [exact Hdn|]. simpl. lia. }
  rewrite Ed, patched_snoc by done.
  assert (Forall (fun o' => o' + length Pattern <= o + length Pattern)%nat (dn ++ [o])).
  { apply Forall_app. split; [|by constructor]. eapply Forall_impl; [exact Hdn'|]. simpl. lia. }
  assert (length (dn ++ [o]) = S (length dn)) as Hsn by (rewrite length_app; simpl; lia).
  destruct (decide (0 < ps_count s)) as [Hc|Hc].
  - rewrite decide_False in Esel by lia.
    destruct (decide (ps_count s - 1 = 0)) as [Hz|Hz]; (eexists; split; [done|]); simpl.
    + rewrite Hz in Esel. simpl in Esel. rewrite take_0 in Esel. rewrite Esel, Hsn. f_equal. lia.
    + split; [|lia]. exists (o + length Pattern)%nat, (dn ++ [o]). simpl. rewrite Hsn, <- app_assoc.
      repeat split; [lia|lia|done|lia|lia|lia|lia|]. rewrite Esel. unfold selected. simpl.
      by rewrite decide_False by lia.
  - eexists. split; [done|]. simpl. split; [|lia]. exists (o + length Pattern)%nat, (dn ++ [o]).
    simpl. rewrite Hsn, <- app_assoc. repeat split; [lia|lia|done|lia|lia|lia|lia|].
    rewrite Esel. replace (ps_count s) with 0 by lia. done.
Qed.

End Patch.

(** ** Properties *)

(** [FindPattern] terminates without leaving its buffers and reports the
    first offset at or after [DataOff] where the (masked) pattern occurs; it
    reports failure, with the offset untouched, exactly when there is none. *)
Theorem FindPattern_first_match (Pattern : list Z) (PatternMask : option (list Z)) (Data : list Z) (off : nat) :
  Pattern <> [] -> mask_fits PatternMask (length Pattern) ->
  Z.of_nat (length Pattern) < 2 ^ 32 -> Z.of_nat (length Data) < 2 ^ 32 -> (off <= length Data)%nat ->
  exists found o,
    FindPattern Pattern PatternMask (Z.of_nat (length Pattern)) Data (Z.of_nat (length Data)) (Z.of_nat off)
      = Ret (found, Z.of_nat o) /\
    match found with
    | true => (off <= o)%nat /\ occurs_at Pattern PatternMask Data o /\
              forall k, (off <= k < o)%nat -> ~ occurs_at Pattern PatternMask Data k
    | false => o = off /\ forall k, (off <= k)%nat -> ~ occurs_at Pattern PatternMask Data k
    end.
Proof.
  intros Hne Hm _ Hsz Hoff. unfold FindPattern. destruct (decide _) as [Hlt|Hge].
  - exists false, off. repeat split; [done..|]. intros k _ Hocc.
    apply (occurs_at_bound Pattern PatternMask Hne) in Hocc. lia.
  - destruct (InternalFindPattern_spec Pattern PatternMask Hm Hne Data off)
      as [(o & -> & Ho)|[-> Hn]]; [lia..| |].
    + exists true, o. done.
    + exists false, off. done.
Qed.

(** The shared form of the two theorems on [ApplyPatch] below. *)
Lemma ApplyPatch_spec (Pattern Replace Data : list Z) (PatternMask ReplaceMask : option (list Z)) (Count Skip : Z) :
  Pattern <> [] -> length Replace = length Pattern ->
  mask_fits PatternMask (length Pattern) -> mask_fits ReplaceMask (length Pattern) ->
  Z.of_nat (length Pattern) < 2 ^ 32 -> Z.of_nat (length Data) < 2 ^ 32 ->
  in_width 32 Count -> in_width 32 Skip ->
  let os := selected Count Skip (occurrences Pattern PatternMask Data 0) in
  ApplyPatch Pattern PatternMask (Z.of_nat (length Pattern)) Replace ReplaceMask Data
    (Z.of_nat (length Data)) Count Skip
  = Ret (Z.of_nat (length os), patched Replace ReplaceMask (length Pattern) os Data).
Proof.
  intros Hne HR HPm HRm _ Hsz HC HS os. unfold ApplyPatch. destruct (decide _) as [Hlt|Hge].
  - assert (os = []) as ->.
    { unfold os. rewrite occs_none; [|done|].
      - unfold selected. rewrite drop_nil. by case_decide; [|rewrite take_nil].
      - intros k _ Hocc%occurs_at_bound; [lia|done]. }
    simpl. do 2 f_equal. apply list_eq. intros k. rewrite lookup_patched. by destruct (Data !! k).
  - oc_while (patch_inv Pattern PatternMask Replace ReplaceMask Data Count Skip)
      (fun s : patch_state => (length Data - Z.to_nat (ps_off s))%nat)
      (fun r : Z * list Z => r = (Z.of_nat (length os), patched Replace ReplaceMask (length Pattern) os Data))
      as r Hr.
    + intros s Hs. apply (ApplyPatchStep_inv Pattern PatternMask HPm Hne); [done|done|lia|done|done].
    + exists 0%nat, []. unfold in_width in *. simpl.
      split_and!; [done|lia| |by constructor|done|lia|lia|lia|done].
      apply list_eq. intros k. rewrite lookup_patched. by destruct (Data !! k).
    + simpl. lia.
    + by rewrite Hr.
Qed.

(** C13: [ApplyPatch] is the greedy specification: it scans the original data
    left to right for non-overlapping findings, skips the first [Skip], replaces
    the next [Count] (all of them when [Count] is 0), and returns how many it
    replaced; it always terminates and never leaves a buffer. *)
Theorem ApplyPatch_greedy (Pattern Replace Data : list Z) (PatternMask ReplaceMask : option (list Z)) (Count Skip : Z) :
  Pattern <> [] -> length Replace = length Pattern ->
  mask_fits PatternMask (length Pattern) -> mask_fits ReplaceMask (length Pattern) ->
  Z.of_nat (length Pattern) < 2 ^ 32 -> Z.of_nat (length Data) < 2 ^ 32 ->
  in_width 32 Count -> in_width 32 Skip ->
  let os := selected Count Skip (occurrences Pattern PatternMask Data 0) in
  ApplyPatch Pattern PatternMask (Z.of_nat (length Pattern)) Replace ReplaceMask Data
    (Z.of_nat (length Data)) Count Skip
  = Ret (Z.of_nat (length os), patched Replace ReplaceMask (length Pattern) os Data).
Proof. apply ApplyPatch_spec. Qed.

(** Bits of a masked read-modify-write. *)
Lemma testbit_masked_write d r m b :
  in_width 8 d ->
  Z.testbit (wrap 8 (Z.lor (Z.land d (Z.lnot m)) (Z.land r m))) b <> Z.testbit d b ->
  Z.testbit m b = true.
Proof.
  intros Hd Hb. destruct (decide (0 <= b)) as [Hb0|]; [|by rewrite !Z.testbit_neg_r in Hb by lia].
  unfold wrap in Hb. destruct (decide (b < 8)) as [Hb8|Hb8].
  - rewrite Z.mod_pow2_bits_low in Hb by lia.
    rewrite Z.lor_spec, !Z.land_spec, Z.lnot_spec in Hb by lia.
    destruct (Z.testbit m b); [done|]. by rewrite andb_true_r, andb_false_r, orb_false_r in Hb.
  - rewrite Z.mod_pow2_bits_high in Hb by lia. exfalso. apply Hb. symmetry.
    destruct (decide (d = 0)) as [->|]; [apply Z.testbit_0_l|].
    apply Z.bits_above_log2; [apply Hd|]. unfold in_width in Hd.
    assert (Z.log2 d < 8); [|lia]. apply Z.log2_lt_pow2; lia.
Qed.

Lemma occurrences_occur Pattern Mask Data : forall fuel off o,
  o ∈ occurrences_from Pattern Mask Data fuel off -> occurs_at Pattern Mask Data o.
Proof.
  induction fuel as [|fuel IH]; intros off o; simpl; [by intros ?%elem_of_nil|].
  destruct (decide (occurs_at _ _ _ _)) as [Hocc|].
  - intros [->|Ho]%elem_of_cons; [done|by eapply IH].
  - destruct (decide (_ < _)%nat); [apply IH|by intros ?%elem_of_nil].
Qed.

Lemma elem_of_selected Count Skip os o : o ∈ selected Count Skip os -> o ∈ os.
Proof.
  unfold selected. case_decide; intros Ho.
  - by apply (subseteq_drop (Z.to_nat Skip)).
  - apply (subseteq_drop (Z.to_nat Skip)). by eapply subseteq_take.
Qed.

(** [ApplyPatch] is confined: the buffer keeps its size, at most [Count]
    findings are replaced when [Count] is not 0, and every bit that changes lies
    inside an occurrence of the pattern in the original data and, for a masked
    replacement, inside the replacement mask. *)
Theorem ApplyPatch_confined (Pattern Replace Data : list Z) (PatternMask ReplaceMask : option (list Z))
    (Count Skip n : Z) (Data' : list Z) :
  Pattern <> [] -> length Replace = length Pattern ->
  mask_fits PatternMask (length Pattern) -> mask_fits ReplaceMask (length Pattern) ->
  Z.of_nat (length Pattern) < 2 ^ 32 -> Z.of_nat (length Data) < 2 ^ 32 ->
  in_width 32 Count -> in_width 32 Skip -> Forall (in_width 8) Data ->
  ApplyPatch Pattern PatternMask (Z.of_nat (length Pattern)) Replace ReplaceMask Data
    (Z.of_nat (length Data)) Count Skip = Ret (n, Data') ->
  length Data' = length Data /\ (Count <> 0 -> n <= Count) /\
  forall k d d' b, Data !! k = Some d -> Data' !! k = Some d' -> Z.testbit d' b <> Z.testbit d b ->
  exists o, (o <= k < o + length Pattern)%nat /\ occurs_at Pattern PatternMask Data o /\
    match ReplaceMask with
    | None => True
    | Some m => Z.testbit (default 0 (m !! (k - o)%nat)) b = true
    end.
Proof.
  intros Hne HR HPm HRm HPs Hsz HC HS Hbytes Heq.
  pose proof (ApplyPatch_spec _ _ Data _ _ Count Skip Hne HR HPm HRm HPs Hsz HC HS) as Hg.
  rewrite Hg in Heq. simplify_eq. split; [apply length_patched|]. split.
  { intros HC0. unfold selected. rewrite decide_False by done. rewrite length_take.
    unfold in_width in HC. lia. }
  intros k d d' b Hd Hd' Hb. rewrite lookup_patched, Hd in Hd'. simplify_eq/=.
  destruct (list_find _ _) as [[i o]|] eqn:E; [|done].
  apply list_find_Some in E as (Ho & Hk & _). exists o. split; [done|]. split.
  - eapply occurrences_occur, elem_of_selected, list_elem_of_lookup_2, Ho.
  - destruct ReplaceMask as [m|]; [|done]. rewrite Forall_lookup in Hbytes.
    eapply testbit_masked_write, Hb. eauto.
Qed.

(** ** Witnesses *)

(** A masked search that passes over a partial match. *)
Lemma FindPattern_first_match_witness :
  FindPattern [85; 160] (Some [255; 240]) 2 [85; 170; 85; 7; 85; 161] 6 1 = Ret (true, 4) /\
  exists found o,
    FindPattern [85; 160] (Some [255; 240]) 2 [85; 170; 85; 7; 85; 161] 6 1 = Ret (found, Z.of_nat o) /\
    match found with
    | true => (1 <= o)%nat /\ occurs_at [85; 160] (Some [255; 240]) [85; 170; 85; 7; 85; 161] o /\
              forall k, (1 <= k < o)%nat -> ~ occurs_at [85; 160] (Some [255; 240]) [85; 170; 85; 7; 85; 161] k
    | false => o = 1%nat /\
              forall k, (1 <= k)%nat -> ~ occurs_at [85; 160] (Some [255; 240]) [85; 170; 85; 7; 85; 161] k
    end.
Proof.
  split; [reflexivity|].
  apply (FindPattern_first_match [85; 160] (Some [255; 240]) [85; 170; 85; 7; 85; 161] 1);
    [done|done|simpl; lia|simpl; lia|simpl; lia].
Defined.

(** Skip one finding of [90 90], replace the second, leave the third. *)
Lemma ApplyPatch_greedy_witness :
  ApplyPatch [90; 90] None 2 [1; 2] None [90; 90; 90; 90; 90; 90; 0] 7 1 1
  = Ret (1, [90; 90; 1; 2; 90; 90; 0]).
Proof.
  pose proof (ApplyPatch_greedy [90; 90] [1; 2] [90; 90; 90; 90; 90; 90; 0] None None 1 1) as H.
  simpl length in H. refine (eq_trans (H _ _ _ _ _ _ _ _) _);
    [done|done|done|done|lia|lia|unfold in_width; lia|unfold in_width; lia|reflexivity].
Defined.

(** A masked replacement only touches the low nibble of the finding. *)
Lemma ApplyPatch_confined_witness :
  length [9; 162; 7] = 3%nat /\ (0 <> 0 -> 1 <= 0) /\
  forall k d d' b, [9; 170; 7] !! k = Some d -> [9; 162; 7] !! k = Some d' -> Z.testbit d' b <> Z.testbit d b ->
  exists o, (o <= k < o + 1)%nat /\ occurs_at [170] None [9; 170; 7] o /\
    Z.testbit (default 0 ([15] !! (k - o)%nat)) b = true.
Proof.
  apply (ApplyPatch_confined [170] [2] [9; 170; 7] None (Some [15]) 0 0 1 [9; 162; 7]);
    [done|done|done|done|simpl; lia|simpl; lia|unfold in_width; lia|unfold in_width; lia| |reflexivity].
  repeat constructor; unfold in_width; lia.
Defined.

End DataPatcher.
