(* ===== verification/FlexArray.v ===== *)
(** * Auto-resizing arrays: [Library/OcFlexArrayLib/FlexArray.c]

    [OC_FLEX_ARRAY] with its items in one byte buffer. The abstract value of an
    array is the list of its items ([contents]). *)
From S2P Require Import Prelude.

Module FlexArray.

(** ** Model *)

(** An item callback, applied to the bytes of the item: the new bytes and the
    pool pointers it released. *)
Definition FREE_ITEM : Type := list Z -> outcome (list Z * list Z).

Record OC_FLEX_ARRAY : Type := FlexArr {
  Items : option (list Z);
  ItemSize : Z;
  AllocatedCount : Z;
  Count : Z;
  FreeItem : option FREE_ITEM
}.

Definition INITIAL_NUM_ITEMS : Z := 8.

Definition set_Items (fa : OC_FLEX_ARRAY) (b : option (list Z)) :=
  FlexArr b (ItemSize fa) (AllocatedCount fa) (Count fa) (FreeItem fa).
Definition set_AllocatedCount (fa : OC_FLEX_ARRAY) (n : Z) :=
  FlexArr (Items fa) (ItemSize fa) n (Count fa) (FreeItem fa).
Definition set_Count (fa : OC_FLEX_ARRAY) (n : Z) :=
  FlexArr (Items fa) (ItemSize fa) (AllocatedCount fa) n (FreeItem fa).

(** The pointer held by an item that is a single pointer (8 bytes), released
    and cleared unless it is NULL. *)
Definition OcFlexArrayFreePointerItem : FREE_ITEM := fun Item =>
  p ← rd_slice Item 0 8;
  if decide (le_value 8 p <> 0) then
    Item' ← ZeroMem Item 0 8; Ret (Item', [le_value 8 p])
  else Ret (Item, []).

(** [alloc]: whether the allocation of the descriptor succeeds. *)
Definition OcFlexArrayInit (alloc : bool) (ItemSize : Z) (FreeItem : option FREE_ITEM)
    : outcome (option OC_FLEX_ARRAY) :=
  assert (bool_decide (0 < ItemSize));;
  Ret (if alloc then Some (FlexArr None ItemSize 0 0 FreeItem) else None).

(** An item pointer is its byte offset in [Items]. *)
Definition InternalFlexArrayItemAt (fa : OC_FLEX_ARRAY) (Index : Z) : outcome Z :=
  assert (bool_decide (Index < Count fa));;
  assert (bool_decide (is_Some (Items fa)));;
  Ret (Index *[64] ItemSize fa).

Definition InternalFlexArrayAddItem `{MemoryPool} (fa : OC_FLEX_ARRAY)
    : outcome (OC_FLEX_ARRAY * option Z) :=
  match Items fa with
  | None =>
      let fa := set_AllocatedCount fa INITIAL_NUM_ITEMS in
      let '(Overflow, NewSize) := overflow_mul 64 (AllocatedCount fa) (ItemSize fa) in
      if (Overflow : bool) then Ret (fa, None) else
      let fa := set_Items (set_Count fa 1) (AllocatePool NewSize) in
      match Items fa with
      | None => Ret (fa, None)
      | Some _ => Item ← InternalFlexArrayItemAt fa (Count fa -[64] 1); Ret (fa, Some Item)
      end
  | Some b =>
      assert (bool_decide (0 < AllocatedCount fa));;
      assert (bool_decide (Count fa <= AllocatedCount fa));;
      let fa := set_Count fa (Count fa +[64] 1) in
      if decide (AllocatedCount fa < Count fa) then
        let OldSize := AllocatedCount fa *[64] ItemSize fa in
        let '(Overflow, NewSize) := overflow_mul 64 OldSize 2 in
        if (Overflow : bool) then Ret (fa, None) else
        match ReallocatePool OldSize NewSize b with
        | None => Ret (fa, None)
        | Some TmpBuffer =>
            let fa := set_Items fa (Some TmpBuffer) in
            let fa := set_AllocatedCount fa (AllocatedCount fa *[64] 2) in
            Item ← InternalFlexArrayItemAt fa (Count fa -[64] 1); Ret (fa, Some Item)
        end
      else Item ← InternalFlexArrayItemAt fa (Count fa -[64] 1); Ret (fa, Some Item)
  end.

(** [ZeroMem (Item, FlexArray->ItemSize)] *)
Definition ZeroItem (fa : OC_FLEX_ARRAY) (Item : Z) : outcome OC_FLEX_ARRAY :=
  match Items fa with
  | None => Fault OutOfBounds
  | Some b => b' ← ZeroMem b Item (ItemSize fa); Ret (set_Items fa (Some b'))
  end.

Definition OcFlexArrayAddItem `{MemoryPool} (fa : OC_FLEX_ARRAY) : outcome (OC_FLEX_ARRAY * option Z) :=
  '(fa, Item) ← InternalFlexArrayAddItem fa;
  match Item with
  | None => Ret (fa, None)
  | Some Item => fa ← ZeroItem fa Item; Ret (fa, Some Item)
  end.

Definition OcFlexArrayInsertItem `{MemoryPool} (fa : OC_FLEX_ARRAY) (InsertIndex : Z)
    : outcome (OC_FLEX_ARRAY * option Z) :=
  assert (bool_decide (InsertIndex <= Count fa));;
  if decide (InsertIndex = Count fa) then OcFlexArrayAddItem fa else
  '(fa, Item) ← InternalFlexArrayAddItem fa;
  match Item with
  | None => Ret (fa, None)
  | Some _ =>
      Item ← InternalFlexArrayItemAt fa InsertIndex;
      Dest ← InternalFlexArrayItemAt fa (InsertIndex +[64] 1);
      match Items fa with
      | None => Fault OutOfBounds
      | Some b =>
          b ← CopyMem b Dest b Item ((Count fa -[64] InsertIndex) *[64] ItemSize fa);
          fa ← ZeroItem (set_Items fa (Some b)) Item;
          Ret (fa, Some Item)
      end
  end.

Definition OcFlexArrayItemAt (fa : OC_FLEX_ARRAY) (Index : Z) : outcome Z :=
  assert (bool_decide (Index < Count fa));;
  assert (bool_decide (is_Some (Items fa)));;
  InternalFlexArrayItemAt fa Index.

(** [FreeItem (Item)] on the item at byte offset [Item] of [b]. *)
Definition CallFreeItem (cb : FREE_ITEM) (isz : Z) (b : list Z) (Item : Z) : outcome (list Z * list Z) :=
  it ← rd_slice b Item isz;
  '(it', released) ← cb it;
  b' ← wr_slice b Item it';
  Ret (b', released).

(** The result lists, in order, the pointers released by the item callbacks; the
    items, the descriptor and the caller's pointer are gone afterwards. *)
Definition OcFlexArrayFree (FlexArray : option OC_FLEX_ARRAY) : outcome (list Z) :=
  match FlexArray with
  | None => Ret []
  | Some fa =>
      match Items fa, FreeItem fa with
      | Some b, Some cb =>
          r ← for_ (Z.to_nat (Count fa)) 0
            (fun Index st =>
               Item ← InternalFlexArrayItemAt fa Index;
               '(b', released) ← CallFreeItem cb (ItemSize fa) (fst st) Item;
               Ret (b', snd st ++ released))
            (b, []);
          Ret (snd r)
      | _, _ => Ret []
      end
  end.

(** The array and the pointers released. *)
Definition OcFlexArrayDiscardItem (fa : OC_FLEX_ARRAY) (FreeItemArg : bool)
    : outcome (OC_FLEX_ARRAY * list Z) :=
  match Items fa with
  | None => Fault AssertFailed
  | Some b =>
      assert (bool_decide (0 < Count fa));;
      '(b, released) ←
        match FreeItemArg, FreeItem fa with
        | true, Some cb =>
            Item ← InternalFlexArrayItemAt fa (Count fa -[64] 1);
            CallFreeItem cb (ItemSize fa) b Item
        | _, _ => Ret (b, [])
        end;
      Ret (set_Count (set_Items fa (Some b)) (Count fa - 1), released)
  end.

(** [Items] and [Count] as handed to the caller. *)
Definition OcFlexArrayFreeContainer (FlexArray : option OC_FLEX_ARRAY) : outcome (option (list Z) * Z) :=
  match FlexArray with
  | None => Fault AssertFailed
  | Some fa =>
      match Items fa with
      | Some _ => if decide (Count fa = 0) then Ret (None, 0) else Ret (Items fa, Count fa)
      | None => Ret (None, Count fa)
      end
  end.

(** ** Specification *)
Definition bytes (fa : OC_FLEX_ARRAY) : list Z := default [] (Items fa).

Definition item_at (fa : OC_FLEX_ARRAY) (i : Z) : list Z := slice (bytes fa) (i * ItemSize fa) (ItemSize fa).

(** The abstract value: the items, in order. *)
Definition contents (fa : OC_FLEX_ARRAY) : list (list Z) := item_at fa <$> seqZ 0 (Count fa).

Definition zero_item (fa : OC_FLEX_ARRAY) : list Z := replicate (Z.to_nat (ItemSize fa)) 0.

(** The representation invariant. *)
Definition wf (fa : OC_FLEX_ARRAY) : Prop :=
  0 < ItemSize fa /\
  match Items fa with
  | None => Count fa = 0
  | Some b =>
      INITIAL_NUM_ITEMS <= AllocatedCount fa /\ 0 <= Count fa <= AllocatedCount fa /\
      Z.of_nat (length b) = AllocatedCount fa * ItemSize fa /\
      AllocatedCount fa * ItemSize fa < 2 ^ 64 /\ AllocatedCount fa < 2 ^ 64 - 1
  end.

(** The request the next addition makes cannot be served. *)
Definition exhausted `{MemoryPool} (fa : OC_FLEX_ARRAY) : Prop :=
  match Items fa with
  | None => 2 ^ 64 <= INITIAL_NUM_ITEMS * ItemSize fa \/ AllocatePool (INITIAL_NUM_ITEMS * ItemSize fa) = None
  | Some b =>
      Count fa = AllocatedCount fa /\
      (2 ^ 64 <= AllocatedCount fa * ItemSize fa * 2 \/
       ReallocatePool (AllocatedCount fa * ItemSize fa) (AllocatedCount fa * ItemSize fa * 2) b = None)
  end.

(** ** Lemmas *)
#[local] Hint Unfold INITIAL_NUM_ITEMS : core.
Local Ltac flia := unfold INITIAL_NUM_ITEMS in *; nia.

Lemma length_contents fa : 0 <= Count fa -> Z.of_nat (length (contents fa)) = Count fa.
Proof. intros. unfold contents. rewrite length_fmap, length_seqZ. lia. Qed.

Lemma lookup_contents fa i :
  (i < Z.to_nat (Count fa))%nat -> contents fa !! i = Some (item_at fa (Z.of_nat i)).
Proof.
  intros Hi. unfold contents. rewrite list_lookup_fmap, lookup_seqZ_lt by lia. done.
Qed.

(** Item [i] of one array and item [j] of another with the same bytes. *)
Lemma item_at_ext fa fa' i j :
  ItemSize fa' = ItemSize fa -> 0 < ItemSize fa -> 0 <= i -> 0 <= j ->
  (forall k, (k < Z.to_nat (ItemSize fa))%nat ->
     bytes fa !! (Z.to_nat (i * ItemSize fa) + k)%nat = bytes fa' !! (Z.to_nat (j * ItemSize fa) + k)%nat) ->
  item_at fa i = item_at fa' j.
Proof. intros E H Hi Hj Hk. unfold item_at. rewrite E. apply slice_ext; [nia|nia|lia|done]. Qed.

(** A contents list is determined by its length and its items. *)
Lemma contents_eq fa (l : list (list Z)) :
  0 <= Count fa -> Z.of_nat (length l) = Count fa ->
  (forall i, (i < length l)%nat -> l !! i = Some (item_at fa (Z.of_nat i))) -> contents fa = l.
Proof.
  intros HC Hl Hi. apply list_eq_same_length with (length l); [done| |].
  - pose proof (length_contents fa HC). lia.
  - intros i x y Hlt Hx Hy. rewrite lookup_contents in Hx by lia. rewrite Hi in Hy by done. congruence.
Qed.

Lemma ItemAt_spec fa i :
  wf fa -> 0 <= i < Count fa -> InternalFlexArrayItemAt fa i = Ret (i * ItemSize fa).
Proof.
  intros [Hs Hw] Hi. unfold InternalFlexArrayItemAt.
  rewrite (bool_decide_true (i < Count fa)) by lia. simpl.
  destruct (Items fa) as [b|] eqn:E; [|lia]. rewrite bool_decide_true by eauto. simpl.
  rewrite wrap_small; [done|]. nia.
Qed.

Section WithPool.
Context {P : MemoryPool} {HP : MemoryPoolLaws P}.

(** The capacity after an addition. *)
Definition grown (fa : OC_FLEX_ARRAY) : Z :=
  match Items fa with
  | None => INITIAL_NUM_ITEMS
  | Some _ => if decide (Count fa = AllocatedCount fa) then AllocatedCount fa * 2 else AllocatedCount fa
  end.

(** What an addition guarantees before the new item is cleared. *)
Definition added (fa fa' : OC_FLEX_ARRAY) (off : Z) : Prop :=
  wf fa' /\ Count fa' = Count fa + 1 /\ 0 <= Count fa /\ ItemSize fa' = ItemSize fa /\ FreeItem fa' = FreeItem fa /\
  off = Count fa * ItemSize fa /\ AllocatedCount fa' = grown fa /\
  forall k, (k < Z.to_nat (Count fa * ItemSize fa))%nat -> bytes fa' !! k = bytes fa !! k.

Lemma added_offset fa fa' off :
  added fa fa' off -> InternalFlexArrayItemAt fa' (Count fa' -[64] 1) = Ret off.
Proof.
  intros ((Hs & Hw) & HC & H0 & HI & _ & -> & _). destruct (Items fa') eqn:E; [|lia].
  rewrite wrap_small by nia. replace (Count fa' - 1) with (Count fa) by lia. rewrite <- HI.
  apply ItemAt_spec; [|lia]. split; [done|]. by rewrite E.
Qed.

Lemma take_lookup_eq {A} (l l' : list A) n k :
  take n l = take n l' -> (k < n)%nat -> l !! k = l' !! k.
Proof. intros E Hk. by rewrite <- (lookup_take_lt l n), E, lookup_take_lt by done. Qed.

Lemma InternalAddItem_spec fa :
  wf fa ->
  exists fa' r, InternalFlexArrayAddItem fa = Ret (fa', r) /\
    match r with Some off => added fa fa' off | None => exhausted fa end.
Proof.
  intros [Hs Hw]. unfold InternalFlexArrayAddItem, exhausted. destruct (Items fa) as [b|] eqn:E.
  - destruct Hw as (Ha & HC & Hl & Hov & Hmax). unfold INITIAL_NUM_ITEMS in Ha. rewrite !bool_decide_true by lia. simpl.
    rewrite (wrap_small 64 (Count fa + 1)) by lia.
    destruct (decide (Count fa = AllocatedCount fa)) as [Hfull|Hroom].
    + rewrite (wrap_small 64 (AllocatedCount fa * ItemSize fa)) by nia. rewrite decide_True by lia.
      unfold overflow_mul. case_bool_decide as Ho; [eexists _, None; split; [done|]; auto|].
      rewrite (wrap_small 64 (_ * 2)) by nia.
      destruct (ReallocatePool _ _ _) as [b'|] eqn:Er; [|eexists _, None; split; [done|]; auto].
      match goal with |- context [InternalFlexArrayItemAt ?fa' _] =>
        assert (added fa fa' (Count fa * ItemSize fa)) as Hadd end.
      { pose proof (ReallocatePool_length _ _ _ _ Er). pose proof (ReallocatePool_prefix _ _ _ _ Er) as Hp.
        rewrite wrap_small by nia. split_and!; simpl; try done; try lia.
        2:{ unfold grown. by rewrite E, decide_True. }
        - split; [done|]. simpl. flia.
        - intros k Hk. unfold bytes. rewrite E. simpl. eapply take_lookup_eq; [exact Hp|]. nia. }
      pose proof (added_offset _ _ _ Hadd) as Hoff. simpl in Hoff. rewrite Hoff. simpl.
      eexists _, (Some _). split; [done|exact Hadd].
    + rewrite decide_False by lia.
      match goal with |- context [InternalFlexArrayItemAt ?fa' _] =>
        assert (added fa fa' (Count fa * ItemSize fa)) as Hadd end.
      { split_and!; simpl; try done; try lia.
        - split; [done|]. simpl. rewrite E. flia.
        - unfold grown. by rewrite E, decide_False. }
      pose proof (added_offset _ _ _ Hadd) as Hoff. simpl in Hoff. rewrite Hoff. simpl.
      eexists _, (Some _). split; [done|exact Hadd].
  - unfold overflow_mul. simpl AllocatedCount. simpl ItemSize.
    case_bool_decide as Ho; [eexists _, None; split; [done|]; auto|].
    unfold INITIAL_NUM_ITEMS in *. rewrite (wrap_small 64 (8 * _)) by lia.
    simpl. destruct (AllocatePool _) as [b|] eqn:Ea; [|eexists _, None; split; [done|]; auto].
    match goal with |- context [InternalFlexArrayItemAt ?fa' _] =>
      assert (added fa fa' (Count fa * ItemSize fa)) as Hadd end.
    { pose proof (AllocatePool_length _ _ Ea). split_and!; simpl; try done; try lia.
      - split; [done|]. simpl. flia.
      - unfold grown. by rewrite E. }
    pose proof (added_offset _ _ _ Hadd) as Hoff. simpl in Hoff. rewrite Hoff. simpl.
    eexists _, (Some _). split; [done|exact Hadd].
Qed.

(** Clearing the new item of an array. *)
Lemma ZeroItem_spec fa i :
  wf fa -> 0 <= i < Count fa ->
  exists fa', ZeroItem fa (i * ItemSize fa) = Ret fa' /\ wf fa' /\ Count fa' = Count fa /\
    ItemSize fa' = ItemSize fa /\ FreeItem fa' = FreeItem fa /\ AllocatedCount fa' = AllocatedCount fa /\
    forall k, bytes fa' !! k =
      if decide (Z.to_nat (i * ItemSize fa) <= k < Z.to_nat (i * ItemSize fa) + Z.to_nat (ItemSize fa))%nat
      then Some 0 else bytes fa !! k.
Proof.
  intros [Hs Hw] Hi. unfold ZeroItem. destruct (Items fa) as [b|] eqn:E; [|lia].
  rewrite ZeroMem_in by nia. simpl. eexists. split; [done|]. simpl. split_and!; try done.
  - split; [done|]. simpl. rewrite length_inserts. done.
  - intros k. unfold bytes. rewrite E. simpl. apply lookup_zeroed; nia.
Qed.

Lemma zeroed_item fa i :
  wf fa -> 0 <= i < Count fa ->
  (forall k, (k < Z.to_nat (ItemSize fa))%nat -> bytes fa !! (Z.to_nat (i * ItemSize fa) + k)%nat = Some 0) ->
  item_at fa i = replicate (Z.to_nat (ItemSize fa)) 0.
Proof.
  intros [Hs Hw] Hi Hk. destruct (Items fa) as [b|] eqn:E; [|lia]. symmetry.
  apply replicate_as_elem_of. unfold item_at. unfold bytes in *. rewrite E in *. simpl in *. split.
  - apply slice_length; nia.
  - intros y Hy. apply list_elem_of_lookup_1 in Hy as [k Hy].
    assert (k < Z.to_nat (ItemSize fa))%nat as Hlt.
    { apply lookup_lt_Some in Hy. rewrite slice_length in Hy by nia. done. }
    rewrite lookup_slice in Hy by nia. rewrite Hk in Hy by done. congruence.
Qed.

Lemma wf_count fa : wf fa -> 0 <= Count fa.
Proof. intros [_ Hw]. destruct (Items fa); lia. Qed.

(** The items of an array whose first [n] items have the bytes of another one. *)
Lemma lookup_contents_ext fa fa' i :
  wf fa -> ItemSize fa' = ItemSize fa -> (i < Z.to_nat (Count fa))%nat ->
  (forall k, (k < Z.to_nat ((Z.of_nat i + 1) * ItemSize fa))%nat ->
     (Z.to_nat (Z.of_nat i * ItemSize fa) <= k)%nat -> bytes fa' !! k = bytes fa !! k) ->
  contents fa !! i = Some (item_at fa' (Z.of_nat i)).
Proof.
  intros [Hs Hw] HI Hi Hk. rewrite lookup_contents by done. f_equal.
  apply item_at_ext; [done|done|lia|lia|]. intros k Hlt. symmetry. apply Hk; nia.
Qed.

Lemma AddItem_spec fa :
  wf fa ->
  exists fa' r, OcFlexArrayAddItem fa = Ret (fa', r) /\
    match r with
    | Some Item => wf fa' /\ Item = Count fa * ItemSize fa /\ contents fa' = contents fa ++ [zero_item fa]
    | None => exhausted fa
    end.
Proof.
  intros Hwf. pose proof (wf_count _ Hwf) as H0. unfold OcFlexArrayAddItem.
  destruct (InternalAddItem_spec fa Hwf) as (fa' & [off|] & -> & Ha); simpl; [|by eexists _, None].
  destruct Ha as (Hwf' & HC & _ & HI & HF & -> & _ & Hb).
  destruct (ZeroItem_spec fa' (Count fa) Hwf' ltac:(lia)) as (fa'' & HZ & Hwf'' & HC'' & HI'' & _ & _ & Hb'').
  rewrite HI in HZ. rewrite HZ. simpl. eexists _, (Some _). split; [done|]. split; [done|]. split; [done|].
  pose proof (length_contents fa H0) as Hlen. destruct Hwf as [Hs Hw].
  apply contents_eq; [lia|rewrite length_app; simpl; lia|].
  intros i Hi. rewrite length_app in Hi. simpl in Hi.
  destruct (decide (i < length (contents fa))%nat).
  - rewrite lookup_app_l by done. apply lookup_contents_ext; [by split|congruence|lia|].
    intros k Hk _. rewrite Hb'', decide_False by nia. apply Hb. nia.
  - replace i with (length (contents fa)) by lia. rewrite lookup_app_r, Nat.sub_diag by lia. simpl.
    rewrite Hlen. f_equal. symmetry. unfold zero_item. rewrite <- HI, <- HI''.
    apply zeroed_item; [done|lia|]. intros k Hk. rewrite Hb''. rewrite decide_True by nia. done.
Qed.

(** The block move of an insertion into an array that was just extended. *)
Lemma insert_move fa fa' i b :
  added fa fa' (Count fa * ItemSize fa) -> 0 <= i < Count fa -> Items fa' = Some b ->
  InternalFlexArrayItemAt fa' i = Ret (i * ItemSize fa) /\
  InternalFlexArrayItemAt fa' (i +[64] 1) = Ret ((i + 1) * ItemSize fa) /\
  (Count fa' -[64] i) *[64] ItemSize fa' = (Count fa' - i) * ItemSize fa /\
  0 < ItemSize fa /\ Z.of_nat (length b) = AllocatedCount fa' * ItemSize fa /\
  Count fa' <= AllocatedCount fa'.
Proof.
  intros (Hwf & HC & H0 & HI & _ & _ & _ & _) Hi Eb. pose proof Hwf as [Hs Hw]. rewrite Eb in Hw.
  rewrite (wrap_small 64 (i + 1)), (wrap_small 64 (Count fa' - i)) by lia.
  rewrite (wrap_small 64 (_ * _)) by nia. rewrite HI in *.
  rewrite <- HI. split_and!; [apply ItemAt_spec; [done|lia]..|done|lia|lia|lia].
Qed.

(** The bytes after the block move and the clearing of the gap, for a gap of
    [z] bytes at [p] and [m] moved bytes. *)
Lemma lookup_moved (b : list Z) (p z m : Z) k :
  0 <= p -> 0 <= z -> 0 <= m -> p + z + m <= Z.of_nat (length b) ->
  list_inserts (Z.to_nat p) (replicate (Z.to_nat z) 0)
    (list_inserts (Z.to_nat (p + z)) (slice b p m) b) !! k =
  if decide (p <= Z.of_nat k < p + z) then Some 0
  else if decide (p + z <= Z.of_nat k < p + z + m) then b !! (k - Z.to_nat z)%nat else b !! k.
Proof.
  intros. rewrite lookup_zeroed by (rewrite ?length_inserts; lia).
  destruct (decide (p <= Z.of_nat k < p + z)); [by rewrite decide_True by lia|rewrite decide_False by lia].
  rewrite lookup_inserts by (rewrite slice_length by lia; lia). rewrite slice_length by lia.
  destruct (decide (p + z <= Z.of_nat k < p + z + m)); [rewrite decide_True by lia|by rewrite decide_False by lia].
  rewrite lookup_slice by lia. f_equal. lia.
Qed.

(** The contents after an insertion at [i], from the bytes. *)
Lemma contents_inserted fa fz i :
  wf fa -> wf fz -> 0 <= i < Count fa -> Count fz = Count fa + 1 -> ItemSize fz = ItemSize fa ->
  let p := i * ItemSize fa in let z := ItemSize fa in let q := Count fa * ItemSize fa in
  (forall k, Z.of_nat k < q + z -> bytes fz !! k =
     if decide (p <= Z.of_nat k < p + z) then Some 0
     else if decide (p + z <= Z.of_nat k) then bytes fa !! (k - Z.to_nat z)%nat else bytes fa !! k) ->
  contents fz = take (Z.to_nat i) (contents fa) ++ zero_item fa :: drop (Z.to_nat i) (contents fa).
Proof.
  intros Hwf Hwfz Hi HC HI p z q Hb. pose proof Hwf as [Hs _].
  pose proof (length_contents fa ltac:(lia)) as Hlen. assert (0 <= p /\ 0 < z) as [Hp Hz] by (subst p z; nia).
  assert (length (take (Z.to_nat i) (contents fa)) = Z.to_nat i) as Hti by (rewrite length_take; lia).
  apply contents_eq; [lia|rewrite length_app; simpl; rewrite length_drop; lia|].
  intros j Hj. rewrite length_app in Hj. simpl in Hj. rewrite length_drop in Hj.
  assert (Z.of_nat j * z + z <= q + z) as Hjq by (subst z q; nia).
  destruct (decide (j < Z.to_nat i)%nat) as [Hlt|Hge].
  - rewrite lookup_app_l, lookup_take_lt by lia. apply lookup_contents_ext; [done|congruence|lia|].
    fold z. assert ((Z.of_nat j + 1) * z <= p) by (subst p z; nia).
    intros k Hk _. by rewrite Hb, !decide_False by lia.
  - rewrite lookup_app_r by lia. rewrite Hti. destruct (decide (j = Z.to_nat i)) as [->|].
    + rewrite Nat.sub_diag. simpl. f_equal. symmetry. unfold zero_item.
      replace (Z.of_nat (Z.to_nat i)) with i by lia. rewrite <- HI.
      apply zeroed_item; [done|lia|]. rewrite HI. fold z p. intros k Hk.
      rewrite Hb by lia. by rewrite decide_True by lia.
    + destruct (j - Z.to_nat i)%nat as [|j'] eqn:Ej; [lia|]. simpl. rewrite lookup_drop.
      rewrite lookup_contents by lia. f_equal. apply item_at_ext; [congruence|done|lia|lia|]. fold z.
      replace (Z.of_nat (Z.to_nat i + j')) with (Z.of_nat j - 1) by lia.
      assert (p + z <= Z.of_nat j * z) by (subst p z; nia).
      replace ((Z.of_nat j - 1) * z) with (Z.of_nat j * z - z) by lia.
      intros k Hk. rewrite Hb by lia. rewrite decide_False, decide_True by lia. f_equal. lia.
Qed.

(** The insertion once the array has been extended and has a spare slot. *)
Lemma InsertItem_room fa fa' i :
  wf fa -> added fa fa' (Count fa * ItemSize fa) -> 0 <= i < Count fa -> Count fa' < AllocatedCount fa' ->
  exists b fz, Items fa' = Some b /\
    (b' ← CopyMem b ((i + 1) * ItemSize fa) b (i * ItemSize fa) ((Count fa' - i) * ItemSize fa);
     ZeroItem (set_Items fa' (Some b')) (i * ItemSize fa)) = Ret fz /\
    wf fz /\ contents fz = take (Z.to_nat i) (contents fa) ++ zero_item fa :: drop (Z.to_nat i) (contents fa).
Proof.
  intros Hwf (Hwf' & HC & H0 & HI & HF & _ & _ & Hb) Hi Hlt. pose proof Hwf' as [Hs Hw'].
  destruct (Items fa') as [b|] eqn:Eb; [|lia]. destruct Hw' as (Ha & _ & Hl & Hov & Hmx). rewrite HI in *.
  assert (0 <= i * ItemSize fa) by nia. assert (0 <= (Count fa' - i) * ItemSize fa) by nia.
  assert ((Count fa' - i) * ItemSize fa = Count fa' * ItemSize fa - i * ItemSize fa) as Em by lia.
  assert (Count fa' * ItemSize fa + ItemSize fa <= AllocatedCount fa' * ItemSize fa) by nia.
  replace ((i + 1) * ItemSize fa) with (i * ItemSize fa + ItemSize fa) by lia.
  exists b. rewrite CopyMem_in by lia. simpl. unfold ZeroItem. simpl. rewrite HI, ZeroMem_in by (rewrite ?length_inserts; lia).
  simpl. eexists. split; [done|]. split; [done|].
  assert (wf (set_Items fa' (Some (list_inserts (Z.to_nat (i * ItemSize fa)) (replicate (Z.to_nat (ItemSize fa)) 0)
    (list_inserts (Z.to_nat (i * ItemSize fa + ItemSize fa))
       (slice b (i * ItemSize fa) ((Count fa' - i) * ItemSize fa)) b))))) as Hwfz.
  { split; simpl; [lia|]. rewrite !length_inserts, HI. lia. }
  split; [exact Hwfz|]. apply contents_inserted; [done|exact Hwfz|done|done|done|].
  assert (Count fa * ItemSize fa + ItemSize fa = Count fa' * ItemSize fa) as Eq by nia.
  assert (i * ItemSize fa + ItemSize fa <= Count fa * ItemSize fa) by nia.
  intros k Hk. unfold bytes at 1. simpl. rewrite lookup_moved by lia. rewrite Em.
  destruct (decide (_ <= Z.of_nat k < _)); [done|].
  assert (forall k', Z.of_nat k' < Count fa * ItemSize fa -> b !! k' = bytes fa !! k') as Hb'.
  { intros k' Hk'. rewrite <- Hb by lia. unfold bytes. by rewrite Eb. }
  destruct (decide (_ + ItemSize fa <= Z.of_nat k)).
  - rewrite decide_True by lia. apply Hb'. lia.
  - rewrite decide_False by lia. apply Hb'. lia.
Qed.

Lemma InsertItem_spec fa i :
  wf fa -> 0 <= i < Count fa ->
  if decide (Count fa + 1 = AllocatedCount fa) then OcFlexArrayInsertItem fa i = Fault OutOfBounds
  else exists fa' r, OcFlexArrayInsertItem fa i = Ret (fa', r) /\
    match r with
    | Some Item => wf fa' /\ Item = i * ItemSize fa /\
        contents fa' = take (Z.to_nat i) (contents fa) ++ zero_item fa :: drop (Z.to_nat i) (contents fa)
    | None => exhausted fa
    end.
Proof.
  intros Hwf Hi. unfold OcFlexArrayInsertItem. rewrite bool_decide_true by lia. simpl.
  rewrite (decide_False (P := i = Count fa)) by lia.
  destruct (InternalAddItem_spec fa Hwf) as (fa' & [off|] & -> & Ha); simpl.
  2:{ unfold exhausted in Ha. destruct Hwf as [_ Hw]. destruct (Items fa) eqn:E; [|lia].
      rewrite decide_False by lia. eexists _, None. split; [done|]. unfold exhausted. by rewrite E. }
  pose proof Ha as (Hwf' & HC & H0 & HI & HF & -> & HA & Hb).
  pose proof Hwf' as [_ Hw']. pose proof Hwf as [_ Hw]. unfold grown in HA.
  destruct (Items fa') as [b|] eqn:Eb; [|lia]. destruct (Items fa) as [b0|] eqn:Eb0; [|lia].
  destruct (insert_move fa fa' i b Ha Hi Eb) as (-> & H1 & H2 & Hs & Hlb & Hcap). simpl.
  rewrite H1, H2. simpl. destruct (decide (Count fa + 1 = AllocatedCount fa)) as [Hfull|Hroom].
  - rewrite decide_False in HA by lia. unfold CopyMem. rewrite rd_slice_in by nia. simpl.
    unfold wr_slice. rewrite decide_False; [done|]. rewrite slice_length by nia. nia.
  - destruct (InsertItem_room fa fa' i Hwf Ha Hi) as (b' & fz & Eb' & HZ & Hwfz & Hc).
    { destruct (decide _) in HA; flia. }
    rewrite Eb in Eb'. injection Eb' as <-. apply bind_Ret in HZ as (b1 & -> & HZ). simpl. rewrite HZ. simpl.
    eexists _, (Some _). split; [done|]. done.
Qed.

End WithPool.

(** A callback that accepts every item of the array. *)
Definition total_callback (isz : Z) (cb : FREE_ITEM) (rel : list Z -> list Z) : Prop :=
  forall it, Z.of_nat (length it) = isz ->
    exists it', cb it = Ret (it', rel it) /\ length it' = length it.

(** The loop of [OcFlexArrayFree] over the items of [fa]; [fb] is the descriptor
    the loop reads, which shares the buffer. *)
Lemma free_loop fa fb b cb rel :
  wf fa -> Items fa = Some b -> Items fb = Some b -> ItemSize fb = ItemSize fa -> Count fa <= Count fb ->
  total_callback (ItemSize fa) cb rel ->
  exists b', for_ (Z.to_nat (Count fa)) 0
     (fun Index st =>
        Item ← InternalFlexArrayItemAt fb Index;
        '(b', released) ← CallFreeItem cb (ItemSize fb) (fst st) Item;
        Ret (b', snd st ++ released)) (b, [])
    = Ret (b', concat (rel <$> contents fa)) /\ length b' = length b.
Proof.
  intros Hwf Eb Ebb HI HC Hcb. pose proof Hwf as [Hs Hw]. rewrite Eb in Hw.
  destruct Hw as (Ha & HCw & Hl & Hov & Hmx). pose proof (length_contents fa ltac:(lia)) as Hlen.
  oc_for (fun (Index : Z) (st : list Z * list Z) => length (fst st) = length b /\
     (forall k, Index * ItemSize fa <= Z.of_nat k -> fst st !! k = b !! k) /\
     snd st = concat (rel <$> take (Z.to_nat Index) (contents fa))) as st Hst.
  - done.
  - intros j [b' acc] Hj (Hbl & Hbk & Hacc). simpl in *.
    assert (0 <= j * ItemSize fa /\ j * ItemSize fa + ItemSize fa <= Count fa * ItemSize fa /\
      Count fa * ItemSize fa <= AllocatedCount fa * ItemSize fa) as (H1 & H2 & H3) by nia.
    unfold InternalFlexArrayItemAt. rewrite (bool_decide_true (j < Count fb)) by lia. simpl.
    rewrite Ebb, bool_decide_true by eauto. simpl. rewrite HI, wrap_small by lia.
    unfold CallFreeItem. rewrite rd_slice_in by lia. simpl.
    destruct (Hcb (slice b' (j * ItemSize fa) (ItemSize fa))) as (it' & -> & Hit);
      [rewrite slice_length by lia; lia|]. simpl. rewrite slice_length in Hit by lia.
    rewrite wr_slice_in by lia. simpl. eexists. split; [done|]. simpl. split_and!.
    + by rewrite length_inserts.
    + intros k Hk. rewrite lookup_inserts by lia. rewrite decide_False by lia. apply Hbk. lia.
    + replace (Z.to_nat (j + 1)) with (S (Z.to_nat j)) by lia.
      rewrite (take_S_r _ _ (item_at fa j)).
      2:{ rewrite lookup_contents by lia. do 2 f_equal. lia. }
      rewrite fmap_app, concat_app, <- Hacc. simpl. rewrite app_nil_r. do 2 f_equal.
      unfold item_at, bytes. rewrite Eb. simpl. apply slice_ext; [lia|lia|lia|].
      intros k Hk. apply Hbk. lia.
  - destruct st as [b' acc]. destruct Hst as (H1 & _ & H3). simpl in *. exists b'. split; [|done].
    do 2 f_equal. rewrite H3. do 2 f_equal. apply take_ge. lia.
Qed.

Lemma FreePointerItem_total isz :
  8 <= isz -> total_callback isz OcFlexArrayFreePointerItem
    (fun it => let p := le_value 8 (take 8 it) in if decide (p <> 0) then [p] else []).
Proof.
  intros Hsz it Hit. unfold OcFlexArrayFreePointerItem. rewrite rd_slice_in by lia. simpl.
  change (slice it 0 8) with (take 8 it). destruct (decide _) as [Hp|Hp].
  - rewrite ZeroMem_in by lia. eexists. split; [reflexivity|]. apply length_inserts.
  - eexists. split; done.
Qed.

(** ** Properties *)

(** [OcFlexArrayAddItem] on a well-formed array always returns; on success
    the array is well formed, the returned pointer is the new last slot and the
    items are the old ones followed by a zeroed item; it fails only when the pool
    request or its size computation fails. *)
Theorem AddItem_appends (P : MemoryPool) (HP : MemoryPoolLaws P) (fa : OC_FLEX_ARRAY) :
  wf fa ->
  exists fa' r, OcFlexArrayAddItem fa = Ret (fa', r) /\
    match r with
    | Some Item => wf fa' /\ Item = Count fa * ItemSize fa /\ contents fa' = contents fa ++ [zero_item fa]
    | None => exhausted fa
    end.
Proof. apply AddItem_spec. Qed.

(** [OcFlexArrayInsertItem] before the end of an array that keeps at least
    one spare slot inserts a zeroed item and shifts the following items by one. *)
Theorem InsertItem_inserts (P : MemoryPool) (HP : MemoryPoolLaws P) (fa : OC_FLEX_ARRAY) (i : Z) :
  wf fa -> 0 <= i < Count fa -> Count fa + 1 <> AllocatedCount fa -> ~ exhausted fa ->
  exists fa', OcFlexArrayInsertItem fa i = Ret (fa', Some (i * ItemSize fa)) /\ wf fa' /\
    contents fa' = take (Z.to_nat i) (contents fa) ++ zero_item fa :: drop (Z.to_nat i) (contents fa).
Proof.
  intros Hwf Hi Hne Hex. pose proof (InsertItem_spec fa i Hwf Hi) as H. rewrite decide_False in H by done.
  destruct H as (fa' & [Item|] & HE & Hr); [|done]. destruct Hr as (? & -> & ?). eauto.
Qed.

(** When the insertion fills the last slot, the block move of
    [OcFlexArrayInsertItem] is one item too long and writes past the end of the
    allocation. *)
Theorem InsertItem_overruns (P : MemoryPool) (HP : MemoryPoolLaws P) (fa : OC_FLEX_ARRAY) (i : Z) :
  wf fa -> 0 <= i < Count fa -> Count fa + 1 = AllocatedCount fa ->
  OcFlexArrayInsertItem fa i = Fault OutOfBounds.
Proof.
  intros Hwf Hi Heq. pose proof (InsertItem_spec fa i Hwf Hi) as H. by rewrite decide_True in H.
Qed.

(** [OcFlexArrayFree] of a well-formed array calls the item callback on
    every live item exactly once, in order, and stays inside the buffer; for
    pointer items it releases exactly the non-NULL pointers. *)
Theorem Free_releases_items (fa : OC_FLEX_ARRAY) (cb : FREE_ITEM) (rel : list Z -> list Z) :
  wf fa -> FreeItem fa = Some cb -> total_callback (ItemSize fa) cb rel ->
  OcFlexArrayFree (Some fa) = Ret (concat (rel <$> contents fa)).
Proof.
  intros Hwf Ecb Hcb. unfold OcFlexArrayFree. rewrite Ecb. destruct (Items fa) as [b|] eqn:Eb.
  - destruct (free_loop fa fa b cb rel Hwf Eb Eb eq_refl ltac:(lia) Hcb) as (b' & -> & _). done.
  - destruct Hwf as [_ Hw]. rewrite Eb in Hw. unfold contents. by rewrite Hw.
Qed.

(** After [OcFlexArrayAddItem] failed to grow a full array of pointers, the
    item count is one too large, so that [OcFlexArrayFree] (the clean-up the
    callers run) reads an item past the end of the allocation. *)
Theorem Free_after_failed_add (P : MemoryPool) (fa : OC_FLEX_ARRAY) (b : list Z) :
  wf fa -> Items fa = Some b -> 8 <= ItemSize fa -> FreeItem fa = Some OcFlexArrayFreePointerItem ->
  exhausted fa ->
  exists fa', OcFlexArrayAddItem fa = Ret (fa', None) /\ OcFlexArrayFree (Some fa') = Fault OutOfBounds.
Proof.
  intros Hwf Eb Hsz Ecb Hex. pose proof Hwf as [Hs Hw]. unfold exhausted in Hex. rewrite Eb in Hw, Hex.
  destruct Hw as (Ha & HC & Hl & Hov & Hmx), Hex as [Hfull Hex]. unfold INITIAL_NUM_ITEMS in Ha.
  assert (InternalFlexArrayAddItem fa = Ret (set_Count fa (Count fa + 1), None)) as EA.
  { unfold InternalFlexArrayAddItem. rewrite Eb, !bool_decide_true by lia. simpl.
    rewrite (wrap_small 64 (Count fa + 1)) by lia. rewrite decide_True by lia.
    rewrite (wrap_small 64 (AllocatedCount fa * _)) by nia. unfold overflow_mul.
    case_bool_decide; [done|]. rewrite wrap_small by nia. destruct Hex as [Hov'|Hnone]; [done|by rewrite Hnone]. }
  unfold OcFlexArrayAddItem. rewrite EA. simpl. eexists. split; [done|]. unfold OcFlexArrayFree. simpl.
  rewrite Eb, Ecb. replace (Z.to_nat (Count fa + 1)) with (Z.to_nat (Count fa) + 1)%nat by lia.
  rewrite for_app.
  destruct (free_loop fa (set_Count fa (Count fa + 1)) b _ _ Hwf Eb Eb eq_refl ltac:(simpl; lia)
    (FreePointerItem_total _ Hsz)) as (b' & E' & Hb'). simpl in E'. rewrite E'. simpl.
  replace (0 + Z.of_nat (Z.to_nat (Count fa))) with (Count fa) by lia.
  unfold for_, InternalFlexArrayItemAt. simpl. rewrite (bool_decide_true (Count fa < Count fa + 1)) by lia. simpl.
  rewrite Eb, bool_decide_true by eauto. simpl. unfold CallFreeItem, rd_slice.
  rewrite Hfull, wrap_small by lia. rewrite decide_False; [done|]. rewrite Hb'. lia.
Qed.

(** [OcFlexArrayDiscardItem] drops exactly the last item, and
    [OcFlexArrayFreeContainer] hands over the bytes of the remaining items. *)
Theorem Discard_drops_last (fa : OC_FLEX_ARRAY) :
  wf fa -> 0 < Count fa ->
  exists fa', OcFlexArrayDiscardItem fa false = Ret (fa', []) /\ wf fa' /\
    contents fa' = take (length (contents fa) - 1) (contents fa) /\
    OcFlexArrayFreeContainer (Some fa') =
      Ret (if decide (Count fa = 1) then None else Items fa, Count fa - 1).
Proof.
  intros [Hs Hw] HC. unfold OcFlexArrayDiscardItem. destruct (Items fa) as [b|] eqn:Eb; [|lia].
  rewrite bool_decide_true by lia. simpl. eexists. split; [done|]. split_and!.
  - split; simpl; [done|lia].
  - apply contents_eq; simpl; [lia| |].
    + rewrite length_take. pose proof (length_contents fa). lia.
    + intros i Hi. rewrite length_take in Hi. rewrite lookup_take_lt by lia.
      pose proof (length_contents fa ltac:(lia)). rewrite lookup_contents by lia. f_equal.
      unfold item_at, bytes. rewrite Eb. done.
  - unfold OcFlexArrayFreeContainer. simpl. repeat case_decide; try lia; repeat f_equal; lia.
Qed.

(** ** Witnesses *)

(** An array of 8-byte items with [n] live items, item [k] holding pointer [k + 1]. *)
Definition sample (cap n : Z) : OC_FLEX_ARRAY :=
  FlexArr (Some (concat ((fun k => (k + 1) :: replicate 7 0) <$> seqZ 0 cap))) 8 cap n
    (Some OcFlexArrayFreePointerItem).

Lemma AddItem_appends_witness :
  exists fa' r, @OcFlexArrayAddItem (pool_filled 7) (sample 8 8) = Ret (fa', r) /\
    match r with
    | Some Item => wf fa' /\ Item = 8 * 8 /\ contents fa' = contents (sample 8 8) ++ [zero_item (sample 8 8)]
    | None => @exhausted (pool_filled 7) (sample 8 8)
    end.
Proof. apply (AddItem_appends (pool_filled 7) _ (sample 8 8)). split; vm_compute; intuition congruence. Defined.

Lemma InsertItem_inserts_witness :
  exists fa', @OcFlexArrayInsertItem (pool_filled 7) (sample 8 3) 1 = Ret (fa', Some (1 * 8)) /\ wf fa' /\
    contents fa' = take 1 (contents (sample 8 3)) ++ zero_item (sample 8 3) :: drop 1 (contents (sample 8 3)).
Proof.
  apply (InsertItem_inserts (pool_filled 7) _ (sample 8 3) 1);
    [split; vm_compute; intuition congruence|simpl; lia|simpl; lia|].
  intros [E _]. discriminate E.
Defined.

(** The eighth item of the initial allocation, inserted in front of the seven others. *)
Lemma InsertItem_overruns_witness :
  @OcFlexArrayInsertItem (pool_filled 7) (sample 8 7) 0 = Fault OutOfBounds.
Proof.
  apply (InsertItem_overruns (pool_filled 7) _ (sample 8 7) 0);
    [split; vm_compute; intuition congruence|simpl; lia|reflexivity].
Defined.

Lemma Free_releases_items_witness : OcFlexArrayFree (Some (sample 8 3)) = Ret [1; 2; 3].
Proof.
  refine (eq_trans (Free_releases_items (sample 8 3) _ _ _ eq_refl (FreePointerItem_total 8 _)) _);
    [split; vm_compute; intuition congruence|lia|reflexivity].
Defined.

Lemma Free_after_failed_add_witness :
  exists fa', @OcFlexArrayAddItem pool_empty (sample 8 8) = Ret (fa', None) /\
    OcFlexArrayFree (Some fa') = Fault OutOfBounds.
Proof.
  eapply (Free_after_failed_add pool_empty (sample 8 8));
    [split; vm_compute; intuition congruence|reflexivity|simpl; lia|reflexivity|].
  split; [reflexivity|right; reflexivity].
Defined.

Lemma Discard_drops_last_witness :
  exists fa', OcFlexArrayDiscardItem (sample 8 3) false = Ret (fa', []) /\ wf fa' /\
    contents fa' = take (length (contents (sample 8 3)) - 1) (contents (sample 8 3)) /\
    OcFlexArrayFreeContainer (Some fa') =
      Ret (if decide (Count (sample 8 3) = 1) then None else Items (sample 8 3), 3 - 1).
Proof.
  apply (Discard_drops_last (sample 8 3)); [split; vm_compute; intuition congruence|simpl; lia].
Defined.

End FlexArray.
