(* ===== verification/WordMemory.v ===== *)
(** * Memory of machine words

    The memory the big number library works on: blocks of [w]-bit words. A
    pointer is a block and a word index; functions receive pointers, so that the
    aliasing of the C calls (a result buffer that is also an operand, two numbers
    in one scratch buffer) is the aliasing of the model. An address that is not in
    the map is not part of any buffer: accessing it is [Fault OutOfBounds]. *)
From stdpp Require Export gmap.
From S2P Require Import Prelude.

#[local] Open Scope Z_scope.
#[local] Open Scope oc_scope.

(** ** Model *)
Abbreviation loc := (Z * Z)%type.
Abbreviation mem := (gmap loc Z).

Definition loc_add (p : loc) (i : Z) : loc := (p.1, p.2 + i).
Notation "p +ₗ i" := (loc_add p i) (at level 50, left associativity) : oc_scope.

(** [p[i]] *)
Definition ld (m : mem) (p : loc) (i : Z) : outcome Z :=
  match m !! (p +ₗ i) with Some x => Ret x | None => Fault OutOfBounds end.

(** [p[i] = x] *)
Definition st (m : mem) (p : loc) (i : Z) (x : Z) : outcome mem :=
  match m !! (p +ₗ i) with Some _ => Ret (<[p +ₗ i := x]> m) | None => Fault OutOfBounds end.

Fixpoint ld_list (m : mem) (p : loc) (n : nat) : outcome (list Z) :=
  match n with
  | O => Ret []
  | S n => x ← ld m p 0; l ← ld_list m (p +ₗ 1) n; Ret (x :: l)
  end.

Fixpoint st_list (m : mem) (p : loc) (l : list Z) : outcome mem :=
  match l with
  | [] => Ret m
  | x :: l => m ← st m p 0 x; st_list m (p +ₗ 1) l
  end.

(** [CopyMem (d, s, n words)] (the ranges may overlap) and [ZeroMem (p, n words)]. *)
Definition copy_words (m : mem) (d s : loc) (n : Z) : outcome mem :=
  l ← ld_list m s (Z.to_nat n); st_list m d l.

Definition zero_words (m : mem) (p : loc) (n : Z) : outcome mem :=
  st_list m p (replicate (Z.to_nat n) 0).

(** A memory with the words [l] at [p], for closed examples. *)
Fixpoint alloc (p : loc) (l : list Z) (m : mem) : mem :=
  match l with [] => m | x :: l => <[p := x]> (alloc (p +ₗ 1) l m) end.

(** ** Specification *)

(** The word at [p[i]]. *)
Definition word (m : mem) (p : loc) (i : Z) : Z := default 0 (m !! (p +ₗ i)).

(** The little-endian number of the [n] words at [p]. *)
Fixpoint value_nat (w : Z) (m : mem) (p : loc) (n : nat) : Z :=
  match n with
  | O => 0
  | S k => value_nat w m p k + word m p (Z.of_nat k) * 2 ^ (w * Z.of_nat k)
  end.
Definition value (w : Z) (m : mem) (p : loc) (n : Z) : Z := value_nat w m p (Z.to_nat n).

(** [n] allocated words at [p]. *)
Definition buffer (w : Z) (m : mem) (p : loc) (n : Z) : Prop :=
  forall k, 0 <= k < n -> exists x, m !! (p +ₗ k) = Some x /\ 0 <= x < 2 ^ w.

Definition in_range (p : loc) (n : Z) (l : loc) : Prop :=
  l.1 = p.1 /\ p.2 <= l.2 < p.2 + n.

(** Only the [n] words at [p] may differ between [m] and [m']. *)
Definition unchanged_but (m m' : mem) (p : loc) (n : Z) : Prop :=
  forall l, ~ in_range p n l -> m' !! l = m !! l.

(** The ranges do not overlap. *)
Definition apart (p : loc) (n : Z) (q : loc) (k : Z) : Prop :=
  p.1 <> q.1 \/ p.2 + n <= q.2 \/ q.2 + k <= p.2.

#[export] Instance in_range_dec p n l : Decision (in_range p n l).
Proof. unfold in_range. apply _. Defined.

(** ** Lemmas *)
Lemma loc_add_add p i j : p +ₗ i +ₗ j = p +ₗ (i + j).
Proof. unfold loc_add. simpl. f_equal. lia. Qed.

Lemma loc_add_0 p : p +ₗ 0 = p.
Proof. destruct p. unfold loc_add. simpl. f_equal. lia. Qed.

Lemma loc_add_inj p i j : p +ₗ i = p +ₗ j -> i = j.
Proof. unfold loc_add. intros [= H]. lia. Qed.

Lemma in_range_add p n i : in_range p n (p +ₗ i) <-> 0 <= i < n.
Proof. unfold in_range, loc_add. simpl. lia. Qed.

Lemma in_range_apart p n q k i : apart p n q k -> 0 <= i < k -> ~ in_range p n (q +ₗ i).
Proof. unfold in_range, loc_add, apart. simpl. intros. lia. Qed.

Lemma apart_sub p n q k p' n' q' k' :
  apart p n q k -> (forall l, in_range p' n' l -> in_range p n l) ->
  (forall l, in_range q' k' l -> in_range q k l) -> 0 < n' -> 0 < k' ->
  apart p' n' q' k'.
Proof.
  unfold apart, in_range. intros H Hp Hq Hn Hk.
  pose proof (Hp p' ltac:(lia)). pose proof (Hp (p' +ₗ (n' - 1)) ltac:(simpl; lia)).
  pose proof (Hq q' ltac:(lia)). pose proof (Hq (q' +ₗ (k' - 1)) ltac:(simpl; lia)). simpl in *. lia.
Qed.

Lemma apart_sym p n q k : apart p n q k -> apart q k p n.
Proof. unfold apart. intuition congruence. Qed.

Lemma word_Some m p i x : m !! (p +ₗ i) = Some x -> word m p i = x.
Proof. unfold word. by intros ->. Qed.

Lemma word_add m p i j : word m (p +ₗ i) j = word m p (i + j).
Proof. unfold word. by rewrite loc_add_add. Qed.

Section WithWidth.
Context (w : Z) (Hw : 0 < w).

Lemma value_0 m p : value w m p 0 = 0.
Proof. done. Qed.

Lemma value_S m p n :
  0 <= n -> value w m p (n + 1) = value w m p n + word m p n * 2 ^ (w * n).
Proof.
  intros Hn. unfold value. replace (Z.to_nat (n + 1)) with (S (Z.to_nat n)) by lia. simpl.
  by rewrite Z2Nat.id.
Qed.

Lemma value_1 m p : value w m p 1 = word m p 0.
Proof. change 1 with (0 + 1). rewrite value_S by lia. rewrite value_0, Z.mul_0_r. lia. Qed.

Lemma word_in m p n i : buffer w m p n -> 0 <= i < n -> m !! (p +ₗ i) = Some (word m p i) /\ 0 <= word m p i < 2 ^ w.
Proof. intros Hb Hi. destruct (Hb i Hi) as (x & Hx & ?). unfold word. rewrite Hx. done. Qed.

Lemma word_range m p n i : buffer w m p n -> 0 <= i < n -> 0 <= word m p i < 2 ^ w.
Proof. intros Hb Hi. by apply (word_in m p n i). Qed.

Lemma ld_in m p n i : buffer w m p n -> 0 <= i < n -> ld m p i = Ret (word m p i).
Proof. intros Hb Hi. unfold ld. by destruct (word_in m p n i Hb Hi) as [-> _]. Qed.

(** Reading a word that did not change since [m]. *)
Lemma ld_frame m m' p n i :
  buffer w m p n -> 0 <= i < n -> m' !! (p +ₗ i) = m !! (p +ₗ i) -> ld m' p i = Ret (word m p i).
Proof. intros Hb Hi E. unfold ld. rewrite E. by destruct (word_in m p n i Hb Hi) as [-> _]. Qed.

Lemma st_in m p n i x : buffer w m p n -> 0 <= i < n -> st m p i x = Ret (<[p +ₗ i := x]> m).
Proof. intros Hb Hi. unfold st. by destruct (word_in m p n i Hb Hi) as [-> _]. Qed.

Lemma buffer_insert m p n l x : buffer w m p n -> 0 <= x < 2 ^ w -> buffer w (<[l := x]> m) p n.
Proof.
  intros Hb Hx k Hk. destruct (decide (l = p +ₗ k)) as [->|Hne].
  - rewrite lookup_insert_eq. eauto.
  - rewrite lookup_insert_ne by done. by apply Hb.
Qed.

Lemma buffer_sub m p n i k : buffer w m p n -> 0 <= i -> i + k <= n -> buffer w m (p +ₗ i) k.
Proof. intros Hb Hi Hk j Hj. rewrite loc_add_add. apply Hb. lia. Qed.

Lemma buffer_le m p n k : buffer w m p n -> k <= n -> buffer w m p k.
Proof. intros Hb Hk j Hj. apply Hb. lia. Qed.

Lemma buffer_frame m m' p n :
  buffer w m p n -> (forall k, 0 <= k < n -> m' !! (p +ₗ k) = m !! (p +ₗ k)) -> buffer w m' p n.
Proof. intros Hb He k Hk. rewrite He by done. by apply Hb. Qed.

Lemma value_frame m m' p q n :
  (forall k, 0 <= k < n -> m' !! (q +ₗ k) = m !! (p +ₗ k)) -> value w m' q n = value w m p n.
Proof.
  destruct (decide (0 <= n)) as [Hn|Hn].
  - revert n Hn. apply (natlike_ind (fun n => _ -> value w m' q n = value w m p n)); [done|].
    intros n Hn IH He. unfold Z.succ in *. rewrite !value_S by done. unfold word. rewrite He by lia.
    rewrite IH; [done|]. intros k Hk. apply He. lia.
  - intros _. unfold value. by replace (Z.to_nat n) with O by lia.
Qed.

Lemma word_frame m m' p q i : m' !! (q +ₗ i) = m !! (p +ₗ i) -> word m' q i = word m p i.
Proof. unfold word. by intros ->. Qed.

Lemma value_range m p n : buffer w m p n -> 0 <= n -> 0 <= value w m p n < 2 ^ (w * n).
Proof using Hw.
  intros Hb Hn. revert Hb. revert n Hn.
  apply (natlike_ind (fun n => buffer w m p n -> 0 <= value w m p n < 2 ^ (w * n))).
  - intros _. rewrite value_0, Z.mul_0_r. lia.
  - intros n Hn IH Hb. unfold Z.succ in *. rewrite value_S by done.
    pose proof (IH (buffer_le m p (n + 1) n Hb ltac:(lia))). pose proof (word_range m p (n + 1) n Hb ltac:(lia)).
    replace (w * (n + 1)) with (w * n + w) by lia. rewrite Z.pow_add_r by lia. nia.
Qed.

Lemma value_app m p a b :
  0 <= a -> 0 <= b -> value w m p (a + b) = value w m p a + 2 ^ (w * a) * value w m (p +ₗ a) b.
Proof using Hw.
  intros Ha Hb. revert b Hb.
  apply (natlike_ind (fun b => value w m p (a + b) = value w m p a + 2 ^ (w * a) * value w m (p +ₗ a) b)).
  - rewrite value_0, Z.add_0_r. lia.
  - intros b Hb IH. unfold Z.succ in *. rewrite Z.add_assoc, !value_S, IH by lia.
    unfold word. rewrite loc_add_add, Z.mul_add_distr_l, Z.pow_add_r by lia. lia.
Qed.

Lemma value_insert_ne m p n l x :
  (forall k, 0 <= k < n -> l <> p +ₗ k) -> value w (<[l := x]> m) p n = value w m p n.
Proof. intros Hne. apply value_frame. intros k Hk. by rewrite lookup_insert_ne by auto. Qed.

Lemma word_insert_eq m p i x : word (<[p +ₗ i := x]> m) p i = x.
Proof. unfold word. by rewrite lookup_insert_eq. Qed.

(** Appending the word [x] at index [n] of a number. *)
Lemma value_snoc m p n x :
  0 <= n -> value w (<[p +ₗ n := x]> m) p (n + 1) = value w m p n + x * 2 ^ (w * n).
Proof.
  intros Hn. rewrite value_S, word_insert_eq by done. f_equal. apply value_insert_ne.
  intros k Hk E. apply loc_add_inj in E. lia.
Qed.

Lemma value_zero m p n : (forall k, 0 <= k < n -> m !! (p +ₗ k) = Some 0) -> value w m p n = 0.
Proof.
  destruct (decide (0 <= n)) as [Hn|Hn].
  - revert n Hn. apply (natlike_ind (fun n => _ -> value w m p n = 0)); [done|].
    intros n Hn IH He. unfold Z.succ in *. rewrite value_S by done. unfold word. rewrite He by lia.
    rewrite IH; [done|]. intros k Hk. apply He. lia.
  - intros _. unfold value. by replace (Z.to_nat n) with O by lia.
Qed.

(** The digits are determined by the value. *)
Lemma value_word m p n i :
  buffer w m p n -> 0 <= i < n -> word m p i = value w m p n / 2 ^ (w * i) mod 2 ^ w.
Proof using Hw.
  intros Hb Hi. replace n with (i + (1 + (n - i - 1))) by lia.
  rewrite value_app, (value_app _ _ 1), value_1 by lia. rewrite !loc_add_add.
  pose proof (value_range m p i (buffer_le m p n i Hb ltac:(lia)) ltac:(lia)).
  pose proof (word_range m p n i Hb Hi) as Hr.
  assert (0 < 2 ^ (w * i)) by (apply Z.pow_pos_nonneg; lia).
  rewrite (Z.mul_comm (2 ^ (w * i))), Z.div_add, Z.div_small by lia.
  rewrite Z.add_0_l, Z.mul_1_r, (Z.mul_comm (2 ^ w)), Z_mod_plus_full.
  assert (word m (p +ₗ i) 0 = word m p i) as -> by (unfold word; by rewrite loc_add_add, Z.add_0_r).
  rewrite Z.mod_small; lia.
Qed.

(** *** Block operations *)
Lemma ld_list_in m p n :
  buffer w m p (Z.of_nat n) -> ld_list m p n = Ret (word m p <$> seqZ 0 (Z.of_nat n)).
Proof.
  revert p. induction n as [|n IH]; intros p Hb; [done|]. simpl ld_list.
  rewrite (ld_in m p _ 0 Hb) by lia. simpl.
  rewrite IH. 2:{ apply (buffer_sub m p _ 1 _ Hb); lia. }
  rewrite (seqZ_cons 0 (Z.of_nat (S n))) by lia. rewrite fmap_cons.
  replace (Z.pred (Z.of_nat (S n))) with (Z.of_nat n) by lia.
  assert (word m (p +ₗ 1) <$> seqZ 0 (Z.of_nat n) = word m p <$> seqZ (Z.succ 0) (Z.of_nat n)) as ->; [|done].
  apply list_eq. intros i. rewrite !list_lookup_fmap. destruct (decide (i < n)%nat).
  - rewrite !lookup_seqZ_lt by lia. simpl. unfold word. rewrite loc_add_add. do 4 f_equal.
  - rewrite !lookup_seqZ_ge by lia. done.
Qed.

Lemma st_list_in m p l :
  buffer w m p (Z.of_nat (length l)) -> Forall (fun x => 0 <= x < 2 ^ w) l ->
  exists m', st_list m p l = Ret m' /\ unchanged_but m m' p (Z.of_nat (length l)) /\
    (forall k, 0 <= k < Z.of_nat (length l) -> m' !! (p +ₗ k) = l !! Z.to_nat k).
Proof.
  revert m p. induction l as [|x l IH]; intros m p Hb Hl; simpl.
  { exists m. split_and!; [done|by intros|simpl; lia]. }
  apply Forall_cons in Hl as [Hx Hl]. simpl in Hb. rewrite (st_in m p _ 0 x Hb) by lia. simpl.
  rewrite loc_add_0.
  destruct (IH (<[p := x]> m) (p +ₗ 1)) as (m' & -> & Hu & Hk); [|done|].
  { apply buffer_insert; [|done]. apply (buffer_sub m p _ 1 _ Hb); lia. }
  exists m'. split_and!; [done| |].
  - intros q Hq. rewrite Hu.
    + apply lookup_insert_ne. intros ->. apply Hq. unfold in_range. lia.
    + unfold in_range, loc_add in *. simpl in *. lia.
  - intros k Hkr. destruct (decide (k = 0)) as [->|].
    + rewrite loc_add_0. rewrite Hu; [by rewrite lookup_insert_eq|]. unfold in_range, loc_add. simpl. lia.
    + replace (p +ₗ k) with (p +ₗ 1 +ₗ (k - 1)) by (rewrite loc_add_add; f_equal; lia).
      rewrite Hk by lia. replace (Z.to_nat k) with (S (Z.to_nat (k - 1))) by lia. done.
Qed.

Lemma copy_words_spec m d s n :
  0 <= n -> buffer w m d n -> buffer w m s n ->
  exists m', copy_words m d s n = Ret m' /\ unchanged_but m m' d n /\
    (forall k, 0 <= k < n -> m' !! (d +ₗ k) = m !! (s +ₗ k)).
Proof.
  intros Hn Hd Hs. unfold copy_words. rewrite ld_list_in by (by rewrite Z2Nat.id). simpl.
  rewrite Z2Nat.id by done.
  assert (length (word m s <$> seqZ 0 n) = Z.to_nat n) as Hlen by (by rewrite length_fmap, length_seqZ).
  destruct (st_list_in m d (word m s <$> seqZ 0 n)) as (m' & -> & Hu & Hk).
  - by rewrite Hlen, Z2Nat.id.
  - apply Forall_fmap, Forall_forall. intros i Hi. apply elem_of_seqZ in Hi. simpl.
    apply (word_range m s n); [done|lia].
  - rewrite Hlen, Z2Nat.id in Hu, Hk by done. exists m'. split_and!; [done|done|].
    intros k Hkr. rewrite Hk by done. rewrite list_lookup_fmap, lookup_seqZ_lt by lia. simpl.
    destruct (word_in m s n k Hs Hkr) as [-> _]. do 2 f_equal. lia.
Qed.

Lemma zero_words_spec m p n :
  0 <= n -> buffer w m p n ->
  exists m', zero_words m p n = Ret m' /\ unchanged_but m m' p n /\
    (forall k, 0 <= k < n -> m' !! (p +ₗ k) = Some 0).
Proof using Hw.
  intros Hn Hb. unfold zero_words.
  destruct (st_list_in m p (replicate (Z.to_nat n) 0)) as (m' & -> & Hu & Hk).
  - by rewrite length_replicate, Z2Nat.id.
  - apply Forall_replicate. lia.
  - rewrite length_replicate, Z2Nat.id in Hu, Hk by done. exists m'. split_and!; [done|done|].
    intros k Hkr. rewrite Hk by done. apply lookup_replicate. split; [done|lia].
Qed.

Lemma unchanged_buffer m m' p n q k :
  unchanged_but m m' p n -> apart p n q k -> buffer w m q k -> buffer w m' q k.
Proof. intros Hu Ha Hb. apply (buffer_frame m); [done|]. intros i Hi. apply Hu. by apply (in_range_apart _ _ _ k). Qed.

Lemma unchanged_value m m' p n q k :
  unchanged_but m m' p n -> apart p n q k -> value w m' q k = value w m q k.
Proof. intros Hu Ha. apply value_frame. intros i Hi. apply Hu. by apply (in_range_apart _ _ _ k). Qed.

End WithWidth.

Lemma unchanged_refl m p n : unchanged_but m m p n.
Proof. done. Qed.

Lemma unchanged_trans m1 m2 m3 p n :
  unchanged_but m1 m2 p n -> unchanged_but m2 m3 p n -> unchanged_but m1 m3 p n.
Proof. intros H1 H2 l Hl. rewrite H2, H1 by done. done. Qed.

Lemma unchanged_mono m m' p n q k :
  unchanged_but m m' p n -> (forall l, in_range p n l -> in_range q k l) -> unchanged_but m m' q k.
Proof. intros H1 H2 l Hl. apply H1. auto. Qed.

Lemma unchanged_insert m m' p n i x :
  unchanged_but m m' p n -> 0 <= i < n -> unchanged_but m (<[p +ₗ i := x]> m') p n.
Proof.
  intros H Hi l Hl. rewrite lookup_insert_ne; [by apply H|]. intros <-. apply Hl. by apply in_range_add.
Qed.

#[export] Hint Resolve unchanged_refl unchanged_trans unchanged_insert : oc.
