(* ===== verification/BigNumPrimitives.v ===== *)
(** * Big number primitives: [Library/OcCryptoLib/BigNumPrimitives.c]

    Word multiplication, subtraction, comparison, shifts, significant bits and
    the parsing of big-endian buffers, on the word memory of [WordMemory]; the
    two implementations of [BigNumWordMul64] ([Cpu32], [Cpu64]). The remainder
    [BigNumMod] is in [BigNumMod]. NULL checks have no counterpart: a pointer of
    the model is never NULL. *)
From stdpp Require Import gmap.
From S2P Require Import Prelude WordMemory.

#[global] Open Scope Z_scope.
#[global] Open Scope oc_scope.

(** The build: the size of [OC_BN_WORD] (a [UINTN]) in bytes, and whether
    [ASSERT] is compiled in (DEBUG and NOOPT targets) or not (RELEASE). *)
Class BnBuild : Type := {
  OC_BN_WORD_SIZE : Z;
  asserts_enabled : bool
}.

(** The static assertion of [BigNumPrimitives.c]. *)
Class BnBuildOk (B : BnBuild) : Prop :=
  word_size_ok : OC_BN_WORD_SIZE = 4 \/ OC_BN_WORD_SIZE = 8.

(** Byte swapping of the EDK II BaseLib. *)
Class SwapBytesLib : Type := { SwapBytes32 : Z -> Z; SwapBytes64 : Z -> Z }.

Definition ASSERT {B : BnBuild} (b : bool) : outcome unit := if asserts_enabled then assert b else Ret tt.

Module BigNum.

Section Model.
Context {B : BnBuild}.

(** ** Model *)
Definition OC_BN_WORD_NUM_BITS : Z := OC_BN_WORD_SIZE * 8.

(** [UINTN] is [OC_BN_WORD]; the other index types are [UINT16] and [UINT32]. *)
Abbreviation w := OC_BN_WORD_NUM_BITS.

(** [OC_BN_SIZE (NumWords)], in bytes. *)
Definition OC_BN_SIZE (NumWords : Z) : Z := wrap 32 NumWords *[w] OC_BN_WORD_SIZE.

(** [CopyMem] and [ZeroMem] of whole words; the size is in bytes. *)
Definition CopyMem_words (m : mem) (d s : loc) (size : Z) : outcome mem := copy_words m d s (size / OC_BN_WORD_SIZE).
Definition ZeroMem_words (m : mem) (p : loc) (size : Z) : outcome mem := zero_words m p (size / OC_BN_WORD_SIZE).

Definition BigNumSwapWord `{SwapBytesLib} (Word : Z) : outcome Z :=
  if decide (OC_BN_WORD_SIZE = 4) then Ret (SwapBytes32 (wrap 32 Word))
  else if decide (OC_BN_WORD_SIZE = 8) then Ret (SwapBytes64 (wrap 64 Word))
  else Fault AssertFailed.

Definition BigNumLeftShiftWords (m : mem) (Result : loc) (NumWordsResult : Z) (A : loc)
    (NumWordsA Exponent : Z) : outcome mem :=
  ASSERT (bool_decide (0 < NumWordsResult));;
  ASSERT (bool_decide (0 < NumWordsA));;
  ASSERT (bool_decide (Exponent < NumWordsResult));;
  ASSERT (bool_decide (NumWordsA <= NumWordsResult -[w] Exponent));;
  m ← CopyMem_words m (Result +ₗ Exponent) A (OC_BN_SIZE (NumWordsResult -[w] Exponent));
  m ← ZeroMem_words m Result (OC_BN_SIZE Exponent);
  if decide (NumWordsA < NumWordsResult -[w] Exponent) then
    ZeroMem_words m (Result +ₗ (NumWordsA +[w] Exponent))
      (OC_BN_SIZE (NumWordsResult -[w] Exponent -[w] NumWordsA))
  else Ret m.

Definition BigNumLeftShiftWordsAndBits (m : mem) (Result : loc) (NumWordsResult : Z) (A : loc)
    (NumWordsA NumWords NumBits : Z) : outcome mem :=
  ASSERT (bool_decide (0 < NumWordsResult));;
  ASSERT (bool_decide (0 < NumWordsA));;
  ASSERT (bool_decide (NumWordsResult = NumWordsA +[w] NumWords +[w] 1));;
  ASSERT (bool_decide (0 < NumBits));;
  ASSERT (bool_decide (NumBits < w));;
  ASSERT (bool_decide (0 < NumWords));;
  m ← for_ (Z.to_nat (NumWordsA -[16] 1)) 0
    (fun i m =>
       let Index := NumWordsA -[16] 1 - i in
       a ← ld m A Index;
       a' ← ld m A (Index - 1);
       st m Result (Index +[w] NumWords) (Z.lor (wrap w (Z.shiftl a NumBits)) (Z.shiftr a' (w - NumBits))))
    m;
  a ← ld m A 0;
  m ← st m Result NumWords (wrap w (Z.shiftl a NumBits));
  a ← ld m A (NumWordsA - 1);
  m ← st m Result (NumWordsA +[w] NumWords) (Z.shiftr a (w - NumBits));
  ZeroMem_words m Result (OC_BN_SIZE NumWords).

Definition BigNumLeftShift (m : mem) (Result : loc) (NumWordsResult : Z) (A : loc)
    (NumWordsA Exponent : Z) : outcome mem :=
  ASSERT (bool_decide (0 < NumWordsResult));;
  ASSERT (bool_decide (0 < NumWordsA));;
  let NumWords := Exponent / w in
  let NumBits := wrap 8 (Exponent mod w) in
  if decide (NumBits <> 0) then
    BigNumLeftShiftWordsAndBits m Result NumWordsResult A NumWordsA NumWords NumBits
  else BigNumLeftShiftWords m Result NumWordsResult A NumWordsA NumWords.

Definition BigNumRightShiftWords (m : mem) (Result : loc) (NumWordsResult : Z) (A : loc)
    (NumWordsA Exponent : Z) : outcome mem :=
  ASSERT (bool_decide (0 < NumWordsResult));;
  ASSERT (bool_decide (0 < NumWordsA));;
  ASSERT (bool_decide (Exponent < NumWordsResult));;
  ASSERT (bool_decide (NumWordsA <= NumWordsResult -[w] Exponent));;
  m ← CopyMem_words m Result (A +ₗ Exponent) (OC_BN_SIZE (NumWordsResult -[w] Exponent));
  ZeroMem_words m (Result +ₗ (NumWordsResult -[w] Exponent)) (OC_BN_SIZE Exponent).

Definition BigNumRightShiftBitsSmall (m : mem) (A : loc) (NumWords Exponent : Z) : outcome mem :=
  ASSERT (bool_decide (0 < NumWords));;
  ASSERT (bool_decide (0 < Exponent));;
  ASSERT (bool_decide (Exponent < w));;
  m ← for_ (Z.to_nat (NumWords -[32] 1)) 0
    (fun Index m =>
       a ← ld m A Index;
       a' ← ld m A (Index + 1);
       st m A Index (Z.lor (Z.shiftr a Exponent) (wrap w (Z.shiftl a' (w - Exponent)))))
    m;
  let Index := NumWords -[32] 1 in
  a ← ld m A Index;
  st m A Index (Z.shiftr a Exponent).

Definition BigNumRightShiftWordsAndBits (m : mem) (Result : loc) (NumWordsResult : Z) (A : loc)
    (NumWordsA NumWords NumBits : Z) : outcome mem :=
  ASSERT (bool_decide (0 < NumWordsResult));;
  ASSERT (bool_decide (0 < NumWordsA));;
  ASSERT (bool_decide (NumWords <= NumWordsA));;
  ASSERT (bool_decide (0 < NumBits));;
  ASSERT (bool_decide (NumBits < w));;
  ASSERT (bool_decide (NumWordsResult <= NumWordsA -[w] NumWords));;
  m ← for_ (Z.to_nat (NumWordsA -[w] 1 - NumWords)) NumWords
    (fun Index m =>
       a ← ld m A Index;
       a' ← ld m A (Index + 1);
       st m Result (Index -[w] NumWords) (Z.lor (Z.shiftr a NumBits) (wrap w (Z.shiftl a' (w - NumBits)))))
    m;
  let Index := Z.max NumWords (NumWordsA -[w] 1) in
  a ← ld m A (NumWordsA - 1);
  m ← st m Result (Index -[w] NumWords) (Z.shiftr a NumBits);
  ZeroMem_words m (Result +ₗ (Index -[w] NumWords +[w] 1))
    (OC_BN_SIZE (NumWordsResult -[w] (Index -[w] NumWords +[w] 1))).

Definition BigNumRightShift (m : mem) (Result : loc) (NumWordsResult : Z) (A : loc)
    (NumWordsA Exponent : Z) : outcome mem :=
  ASSERT (bool_decide (0 < NumWordsResult));;
  ASSERT (bool_decide (0 < NumWordsA));;
  let NumWords := Exponent / w in
  let NumBits := wrap 8 (Exponent mod w) in
  if decide (NumBits <> 0) then
    BigNumRightShiftWordsAndBits m Result NumWordsResult A NumWordsA NumWords NumBits
  else BigNumRightShiftWords m Result NumWordsResult A NumWordsA NumWords.

(** A double word result is the pair of the low and the high word. *)

(** [Cpu64/BigNumWordMul64.c]: [unsigned __int128]. *)
Definition BigNumWordMul64 (A C : Z) : outcome (Z * Z) :=
  ASSERT (bool_decide (OC_BN_WORD_SIZE = 8));;
  let Result := A *[128] C in
  Ret (wrap w Result, wrap w (Z.shiftr Result w)).

(** [Cpu32/BigNumWordMul64.c]: the portable four-product version. *)
Definition BigNumWordMul64_Cpu32 (A C : Z) : outcome (Z * Z) :=
  ASSERT (bool_decide (OC_BN_WORD_SIZE = 8));;
  let SubWordShift := w / 2 in
  let SubWordMask := wrap w (Z.shiftl 1 SubWordShift) -[w] 1 in
  let ALo := Z.land A SubWordMask in
  let AHi := Z.shiftr A SubWordShift in
  let BLo := Z.land C SubWordMask in
  let BHi := Z.shiftr C SubWordShift in
  let P0 := ALo *[w] BLo in
  let P1 := ALo *[w] BHi in
  let P2 := AHi *[w] BLo in
  let P3 := AHi *[w] BHi in
  let Cy := Z.land (Z.shiftr (Z.shiftr P0 SubWordShift +[w] Z.land P1 SubWordMask +[w] Z.land P2 SubWordMask)
                             SubWordShift) SubWordMask in
  let Hi := P3 +[w] Z.shiftr P1 SubWordShift +[w] Z.shiftr P2 SubWordShift +[w] Cy in
  Ret (P0 +[w] wrap w (Z.shiftl P1 SubWordShift) +[w] wrap w (Z.shiftl P2 SubWordShift), Hi).

Definition BigNumWordMul (A C : Z) : outcome (Z * Z) :=
  if decide (OC_BN_WORD_SIZE = 4) then
    let Result64 := A *[64] C in
    Ret (wrap w Result64, wrap w (Z.shiftr Result64 w))
  else if decide (OC_BN_WORD_SIZE = 8) then BigNumWordMul64 A C
  else Fault AssertFailed.

(** The loop state is the memory and [Borrow]. *)
Definition BigNumSub (m : mem) (Result : loc) (NumWords : Z) (A C : loc) : outcome mem :=
  ASSERT (bool_decide (0 < NumWords));;
  r ← for_ (Z.to_nat NumWords) 0
    (fun Index s =>
       let '(m, Borrow) := s in
       Tmp1 ← ld m A Index;
       b ← ld m C Index;
       let Tmp2 := b +[w] Borrow in
       let TmpResult := Tmp1 -[w] Tmp2 in
       let Borrow := Z.lor (Z.b2z (bool_decide (Tmp2 < Borrow))) (Z.b2z (bool_decide (Tmp1 < TmpResult))) in
       m ← st m Result Index TmpResult;
       Ret (m, Borrow))
    (m, 0);
  Ret (fst r).

Definition BigNumSignificantBitsWord (Word : Z) : outcome Z :=
  while_bin (2 ^ 7)
    (fun s =>
       let '(NumBits, Mask) := s in
       if decide (Mask <> 0 /\ Z.land Word Mask = 0) then
         Ret (inl (NumBits -[8] 1, Z.shiftr Mask 1))
       else Ret (inr NumBits))
    (wrap 8 w, wrap w (Z.shiftl 1 (w - 1))).

Definition BigNumMostSignificantWord (m : mem) (A : loc) (NumWords : Z) : outcome Z :=
  ASSERT (bool_decide (0 < NumWords));;
  while_bin (2 ^ 16)
    (fun Index =>
       let Index := Index -[16] 1 in
       a ← ld m A Index;
       if decide (a <> 0) then Ret (inr Index)
       else if decide (Index <> 0) then Ret (inl Index) else Ret (inr 0))
    NumWords.

Definition BigNumSignificantBits (m : mem) (A : loc) (NumWords : Z) : outcome Z :=
  ASSERT (bool_decide (0 < NumWords));;
  Index ← BigNumMostSignificantWord m A NumWords;
  a ← ld m A Index;
  bits ← BigNumSignificantBitsWord a;
  Ret (Index *[32] w +[32] bits).

Definition BigNumOrWord (m : mem) (A : loc) (NumWords Value Exponent : Z) : outcome mem :=
  ASSERT (bool_decide (0 < NumWords));;
  ASSERT (bool_decide (Exponent / w < NumWords));;
  let WordIndex := Exponent / w in
  if decide (WordIndex < NumWords) then
    let NumBits := wrap 8 (Exponent mod w) in
    a ← ld m A WordIndex;
    st m A WordIndex (Z.lor a (wrap w (Z.shiftl Value NumBits)))
  else Ret m.

Definition BigNumCmp (m : mem) (A : loc) (NumWords : Z) (C : loc) : outcome Z :=
  ASSERT (bool_decide (0 < NumWords));;
  while_bin (2 ^ 16)
    (fun Index =>
       let Index := Index -[w] 1 in
       a ← ld m A Index;
       b ← ld m C Index;
       if decide (b < a) then Ret (inr 1)
       else if decide (a < b) then Ret (inr (-1))
       else if decide (Index <> 0) then Ret (inl Index) else Ret (inr 0))
    NumWords.

(** The word whose big-endian bytes start at [o] of [Buffer]. *)
Definition ParseWord (Buffer : list Z) (o : Z) : outcome Z :=
  if decide (OC_BN_WORD_SIZE = 4) then
    b0 ← rd Buffer (o + 0); b1 ← rd Buffer (o + 1); b2 ← rd Buffer (o + 2); b3 ← rd Buffer (o + 3);
    Ret (Z.lor (Z.lor (Z.lor (Z.shiftl b0 24) (Z.shiftl b1 16)) (Z.shiftl b2 8)) (Z.shiftl b3 0))
  else if decide (OC_BN_WORD_SIZE = 8) then
    b0 ← rd Buffer (o + 0); b1 ← rd Buffer (o + 1); b2 ← rd Buffer (o + 2); b3 ← rd Buffer (o + 3);
    b4 ← rd Buffer (o + 4); b5 ← rd Buffer (o + 5); b6 ← rd Buffer (o + 6); b7 ← rd Buffer (o + 7);
    Ret (Z.lor (Z.lor (Z.lor (Z.lor (Z.lor (Z.lor (Z.lor (Z.shiftl b0 56) (Z.shiftl b1 48))
      (Z.shiftl b2 40)) (Z.shiftl b3 32)) (Z.shiftl b4 24)) (Z.shiftl b5 16)) (Z.shiftl b6 8)) (Z.shiftl b7 0))
  else Fault AssertFailed.

(** Iteration [k] has [Index = k * OC_BN_WORD_SIZE]. *)
Definition BigNumParseBuffer (m : mem) (Result : loc) (NumWords : Z) (Buffer : list Z) (BufferSize : Z)
    : outcome mem :=
  ASSERT (bool_decide (OC_BN_SIZE NumWords = BufferSize));;
  ASSERT (bool_decide (0 < BufferSize));;
  for_ (Z.to_nat (BufferSize / OC_BN_WORD_SIZE)) 1
    (fun k m =>
       let Index := k * OC_BN_WORD_SIZE in
       Tmp ← ParseWord Buffer (BufferSize - Index);
       st m Result (Index / OC_BN_WORD_SIZE - 1) Tmp)
    m.

End Model.

(** ** Specification *)

(** The number of significant bits of a number. *)
Definition sig_bits (x : Z) : Z := if decide (x = 0) then 0 else Z.log2 x + 1.

(** The result of a three-way comparison. *)
Definition cmp_sign (x y : Z) : Z := if decide (y < x) then 1 else if decide (x < y) then -1 else 0.

(** The number of a big-endian byte string. *)
Definition be_value (l : list Z) : Z := foldl (fun a b => a * 2 ^ 8 + b) 0 l.

(** ** Lemmas *)
Section Proofs.
Context {B : BnBuild} {HB : BnBuildOk B}.
Abbreviation w := OC_BN_WORD_NUM_BITS.

Lemma w_cases : w = 32 \/ w = 64.
Proof using HB. unfold w. destruct HB; lia. Qed.

Lemma w_pos : 32 <= w <= 64.
Proof using HB. destruct w_cases; lia. Qed.

Lemma w_gt0 : 0 < w.
Proof using HB. pose proof w_pos. lia. Qed.

Lemma w_ne0 : w <> 0.
Proof using HB. pose proof w_pos. lia. Qed.

Lemma vrange m p n : buffer w m p n -> 0 <= n -> 0 <= value w m p n < 2 ^ (w * n).
Proof using HB. apply value_range, w_gt0. Qed.

Lemma pow_w_min : 2 ^ 32 <= 2 ^ w.
Proof using HB. apply Z.pow_le_mono_r; [lia|]. apply w_pos. Qed.

Lemma ASSERT_true b : b = true -> ASSERT b = Ret tt.
Proof using. intros ->. unfold ASSERT. by destruct asserts_enabled. Qed.

Lemma ASSERT_release b : asserts_enabled = false -> ASSERT b = Ret tt.
Proof using. intros E. unfold ASSERT. by rewrite E. Qed.

Lemma OC_BN_SIZE_words n : 0 <= n < 2 ^ 24 -> OC_BN_SIZE n / OC_BN_WORD_SIZE = n.
Proof using HB.
  intros Hn. pose proof pow_w_min. unfold OC_BN_SIZE. destruct HB as [E|E]; rewrite E;
    rewrite (wrap_small 32), wrap_small by lia; apply Z.div_mul; lia.
Qed.

(** *** Words *)
Lemma WordMul_spec a c :
  0 <= a < 2 ^ w -> 0 <= c < 2 ^ w ->
  BigNumWordMul a c = Ret ((a * c) mod 2 ^ w, a * c / 2 ^ w).
Proof using HB.
  intros Ha Hc. unfold BigNumWordMul, BigNumWordMul64.
  assert (0 <= a * c < 2 ^ (2 * w)) as Hac.
  { replace (2 * w) with (w + w) by lia. rewrite Z.pow_add_r by (pose proof w_pos; lia). nia. }
  assert (a * c / 2 ^ w < 2 ^ w) as Hhi by (apply Z.div_lt_upper_bound; nia).
  assert (0 <= a * c / 2 ^ w) as Hlo by (apply Z.div_pos; lia).
  destruct HB as [E|E]; unfold w in *; rewrite E in *.
  - rewrite decide_True by done. rewrite (wrap_small 64) by lia. rewrite Z.shiftr_div_pow2 by lia.
    rewrite (wrap_small _ (_ / _)) by lia. done.
  - rewrite decide_False, decide_True by done. rewrite ASSERT_true by (by apply bool_decide_true). simpl.
    rewrite (wrap_small 128) by lia. rewrite Z.shiftr_div_pow2 by lia.
    rewrite (wrap_small _ (_ / _)) by lia. done.
Qed.

(** The digit and the borrow of one subtraction step. *)
Lemma sub_step a b c :
  0 <= a < 2 ^ w -> 0 <= b < 2 ^ w -> 0 <= c <= 1 ->
  let Tmp2 := b +[w] c in let r := a -[w] Tmp2 in
  let c' := Z.lor (Z.b2z (bool_decide (Tmp2 < c))) (Z.b2z (bool_decide (a < r))) in
  0 <= r < 2 ^ w /\ 0 <= c' <= 1 /\ r - c' * 2 ^ w = a - b - c.
Proof using HB.
  intros Ha Hb Hc. pose proof pow_w_min. cbv zeta. destruct (decide (b + c = 2 ^ w)).
  - rewrite (wrap_over w (b + c)) by lia. replace (b + c - 2 ^ w) with 0 by lia.
    rewrite Z.sub_0_r, wrap_small by lia. rewrite (bool_decide_true (0 < c)), (bool_decide_false (a < a)) by lia. cbn [Z.b2z]; rewrite ?Z.lor_0_r, ?Z.lor_0_l; lia.
  - rewrite (wrap_small w (b + c)) by lia. rewrite (bool_decide_false (b + c < c)) by lia.
    destruct (decide (a < b + c)).
    + rewrite wrap_neg by lia. rewrite bool_decide_true by lia. cbn [Z.b2z]; rewrite ?Z.lor_0_r, ?Z.lor_0_l; lia.
    + rewrite wrap_small by lia. rewrite bool_decide_false by lia. cbn [Z.b2z]; rewrite ?Z.lor_0_r, ?Z.lor_0_l; lia.
Qed.

(** An operand of an operation that writes the [n] words at [R]: the same
    buffer, or one that does not overlap. *)
Definition same_or_apart (R : loc) (n : Z) (A : loc) : Prop := A = R \/ apart R n A n.

Lemma same_or_apart_later R n A j k m m' :
  same_or_apart R n A -> unchanged_but m m' R j -> 0 <= j <= k -> k < n -> m' !! (A +ₗ k) = m !! (A +ₗ k).
Proof using.
  intros [->|Ha] Hu Hj Hk; apply Hu.
  - rewrite in_range_add. lia.
  - unfold apart, in_range, loc_add in *. simpl. lia.
Qed.

Lemma Sub_spec m R n A C :
  0 < n -> buffer w m R n -> buffer w m A n -> buffer w m C n ->
  same_or_apart R n A -> same_or_apart R n C ->
  exists m', BigNumSub m R n A C = Ret m' /\ unchanged_but m m' R n /\ buffer w m' R n /\
    value w m' R n = (value w m A n - value w m C n) mod 2 ^ (w * n).
Proof using HB.
  intros Hn HR HA HC HRA HRC. pose proof w_pos as Hw. unfold BigNumSub.
  rewrite ASSERT_true by (apply bool_decide_true; lia). simpl.
  oc_for (fun (j : Z) (s : mem * Z) => 0 <= s.2 <= 1 /\ unchanged_but m s.1 R j /\ buffer w s.1 R n /\
     value w s.1 R j - s.2 * 2 ^ (w * j) = value w m A j - value w m C j) as r Hr.
  - split_and!; [simpl; lia|simpl; lia|done|done|]. rewrite !value_0. simpl. lia.
  - intros j [m' c] Hj (Hc & Hu & Hb & Hv). simpl in *.
    pose proof (same_or_apart_later R n A j j m m' HRA Hu ltac:(lia) ltac:(lia)) as EA.
    pose proof (same_or_apart_later R n C j j m m' HRC Hu ltac:(lia) ltac:(lia)) as EC.
    destruct (word_in w m A n j HA ltac:(lia)) as [LA RA]. destruct (word_in w m C n j HC ltac:(lia)) as [LC RC].
    unfold ld. rewrite EA, LA, EC, LC. simpl. rewrite (st_in w m' R n) by (done || lia). simpl.
    destruct (sub_step (word m A j) (word m C j) c RA RC Hc) as (H1 & H2 & H3).
    eexists. split; [done|]. simpl. split_and!; [lia|lia| | |].
    + apply unchanged_insert; [|lia]. eapply unchanged_mono; [done|]. unfold in_range. lia.
    + by apply buffer_insert.
    + rewrite value_snoc, (value_S w m A j), (value_S w m C j) by lia.
      rewrite (Z.mul_add_distr_l w j 1), Z.mul_1_r, Z.pow_add_r by lia. nia.
  - destruct r as [m' c]. rewrite Z.add_0_l, Z2Nat.id in Hr by lia.
    destruct Hr as (Hc & Hu & Hb & Hv). simpl in *. exists m'. split_and!; [done|done|done|].
    pose proof (vrange m' R n Hb ltac:(lia)).
    apply Z.mod_unique with (- c); lia.
Qed.

(** *** Comparison *)
Lemma cmp_top (x y p a b : Z) : 0 <= x < p -> 0 <= y < p -> a < b -> x + a * p < y + b * p.
Proof using. intros. nia. Qed.

Lemma Cmp_spec m A n C :
  0 < n < 2 ^ 16 -> buffer w m A n -> buffer w m C n ->
  BigNumCmp m A n C = Ret (cmp_sign (value w m A n) (value w m C n)).
Proof using HB.
  intros Hn HA HC. pose proof w_pos as Hw. pose proof pow_w_min as HW. unfold BigNumCmp.
  rewrite ASSERT_true by (apply bool_decide_true; lia). simpl.
  oc_while_bin (fun i => 0 < i <= n /\ value w m A n - value w m C n = value w m A i - value w m C i)
    (fun i : Z => i) (fun r => r = cmp_sign (value w m A n) (value w m C n)) as r Hr; [lia| |lia|lia|by subst].
  intros i (Hi & Hd). simpl. rewrite (wrap_small w (i - 1)) by lia.
  rewrite (ld_in w m A n) by (done || lia). simpl. rewrite (ld_in w m C n) by (done || lia). simpl.
  replace i with (i - 1 + 1) in Hd by lia. rewrite !value_S in Hd by lia.
  pose proof (vrange m A (i - 1) (buffer_le w m A n (i - 1) HA ltac:(lia)) ltac:(lia)) as VA.
  pose proof (vrange m C (i - 1) (buffer_le w m C n (i - 1) HC ltac:(lia)) ltac:(lia)) as VC.
  set (p := 2 ^ (w * (i - 1))) in *. set (a := word m A (i - 1)) in *. set (b := word m C (i - 1)) in *.
  set (x := value w m A (i - 1)) in *. set (y := value w m C (i - 1)) in *.
  assert (i - 1 = 0 -> x = y) by (intros E0; subst x y; by rewrite E0).
  unfold cmp_sign. repeat case_decide; eexists; (split; [done|]); simpl.
  all: try (pose proof (cmp_top x y p a b)); try (pose proof (cmp_top y x p b a)); try lia.
  all: assert (a * p = b * p) by (f_equal; lia); repeat split; lia.
Qed.

(** *** Significant bits *)
Lemma sig_bits_upper x : 0 <= x -> 0 <= sig_bits x /\ x < 2 ^ sig_bits x.
Proof using.
  intros Hx. unfold sig_bits. case_decide; [subst; simpl; lia|].
  pose proof (Z.log2_nonneg x). pose proof (Z.log2_spec x ltac:(lia)). lia.
Qed.

Lemma sig_bits_lower x : 0 < x -> 0 < sig_bits x /\ 2 ^ (sig_bits x - 1) <= x.
Proof using.
  intros Hx. unfold sig_bits. rewrite decide_False by lia.
  pose proof (Z.log2_nonneg x). pose proof (Z.log2_spec x Hx). rewrite Z.add_simpl_r. lia.
Qed.

Lemma sig_bits_unique x s : 0 < s -> 2 ^ (s - 1) <= x < 2 ^ s -> sig_bits x = s.
Proof using.
  intros Hs Hx. assert (0 < 2 ^ (s - 1)) by (apply Z.pow_pos_nonneg; lia).
  unfold sig_bits. rewrite decide_False by lia.
  rewrite (Z.log2_unique x (s - 1)); [lia|lia|]. by replace (Z.succ (s - 1)) with s by lia.
Qed.

Lemma sig_bits_le x s : 0 <= s -> 0 <= x < 2 ^ s -> sig_bits x <= s.
Proof using.
  intros Hs Hx. destruct (decide (x = 0)) as [->|]; [unfold sig_bits; simpl; lia|].
  destruct (sig_bits_lower x) as [H1 H2]; [lia|]. apply Z.le_ngt. intros Hlt.
  pose proof (Z.pow_le_mono_r 2 s (sig_bits x - 1)). lia.
Qed.

Lemma sig_bits_mono x y : 0 <= x <= y -> sig_bits x <= sig_bits y.
Proof using. intros H. destruct (sig_bits_upper y); [lia|]. apply sig_bits_le; lia. Qed.

(** Multiplication by a power of two. *)
Lemma sig_bits_shift x k : 0 < x -> 0 <= k -> sig_bits (x * 2 ^ k) = sig_bits x + k.
Proof using.
  intros Hx Hk. destruct (sig_bits_lower x Hx) as [H1 H2]. destruct (sig_bits_upper x) as [_ H3]; [lia|].
  assert (0 < 2 ^ k) by (apply Z.pow_pos_nonneg; lia).
  apply sig_bits_unique; [lia|]. replace (sig_bits x + k - 1) with (sig_bits x - 1 + k) by lia.
  rewrite !Z.pow_add_r by lia. nia.
Qed.

(** A top word [d <> 0] above [v]. *)
Lemma sig_bits_top v d k : 0 < d -> 0 <= k -> 0 <= v < 2 ^ k -> sig_bits (v + d * 2 ^ k) = k + sig_bits d.
Proof using.
  intros Hd Hk Hv. destruct (sig_bits_lower d Hd) as [H1 H2]. destruct (sig_bits_upper d) as [_ H3]; [lia|].
  apply sig_bits_unique; [lia|]. replace (k + sig_bits d - 1) with (sig_bits d - 1 + k) by lia.
  rewrite !Z.pow_add_r by lia. nia.
Qed.

Lemma SignificantBitsWord_spec x : 0 <= x < 2 ^ w -> BigNumSignificantBitsWord x = Ret (sig_bits x).
Proof using HB.
  intros Hx. pose proof w_pos as Hw. unfold BigNumSignificantBitsWord.
  assert (0 < 2 ^ (w - 1) < 2 ^ w) as Hp.
  { split; [apply Z.pow_pos_nonneg|apply Z.pow_lt_mono_r]; lia. }
  oc_while_bin (fun s : Z * Z => 0 <= s.1 <= w /\ x < 2 ^ s.1 /\ s.2 = (if decide (s.1 = 0) then 0 else 2 ^ (s.1 - 1)))
    (fun s : Z * Z => s.1) (fun r => r = sig_bits x) as r Hr; [intros [? ?]; simpl; lia| | | |by subst].
  - intros [s M] (Hs & Hxs & HM). simpl in *.
    destruct (decide (M <> 0 /\ Z.land x M = 0)) as [Hc|Hc]; eexists; (split; [done|]); simpl.
    + destruct Hc as [HM0 Hand]. rewrite HM in *. case_decide as Hs0; [done|].
      rewrite (wrap_small 8) by lia. split; [|lia]. split; [lia|]. split.
      * assert (Z.testbit x (s - 1) = false) as Hbit.
        { destruct (Z.testbit x (s - 1)) eqn:Eb; [|done]. exfalso.
          assert (Z.testbit (Z.land x (2 ^ (s - 1))) (s - 1) = true) as Et
            by (rewrite Z.land_spec, Eb, Z.pow2_bits_true by lia; done).
          by rewrite Hand, Z.bits_0 in Et. }
        apply Z.testbit_false in Hbit; [|lia]. destruct (decide (x < 2 ^ (s - 1))); [done|].
        assert (x / 2 ^ (s - 1) = 1) as E1.
        { symmetry. apply Z.div_unique with (x - 2 ^ (s - 1)); [|lia].
          replace s with (s - 1 + 1) in Hxs by lia. rewrite Z.pow_add_r in Hxs by lia. lia. }
        by rewrite E1 in Hbit.
      * rewrite Z.shiftr_div_pow2 by lia. case_decide as Hs1.
        -- by replace s with 1 by lia.
        -- replace (s - 1) with (s - 1 - 1 + 1) at 1 by lia. rewrite Z.pow_add_r by lia. apply Z.div_mul. lia.
    + case_decide as Hs0; [subst; unfold sig_bits; by rewrite decide_True by lia|].
      symmetry. apply sig_bits_unique; [lia|]. split; [|done].
      assert (0 < 2 ^ (s - 1)) by (apply Z.pow_pos_nonneg; lia).
      apply Z.le_ngt. intros Hlt. apply Hc. split; [lia|]. rewrite HM.
      destruct (decide (x = 0)) as [->|]; [by rewrite Z.land_0_l|].
      apply Z.bits_inj'. intros k Hk. rewrite Z.land_spec, Z.bits_0.
      destruct (decide (k = s - 1)) as [->|]; [|by rewrite Z.pow2_bits_false, andb_comm by lia].
      rewrite Z.bits_above_log2; [done|lia|]. apply Z.log2_lt_pow2; lia.
  - simpl. rewrite (wrap_small 8) by lia. rewrite decide_False by lia. split; [lia|]. split; [lia|].
    rewrite Z.shiftl_1_l. apply wrap_small. lia.
  - simpl. rewrite (wrap_small 8) by lia. lia.
Qed.

Lemma MostSignificantWord_spec m A n :
  0 < n < 2 ^ 16 -> buffer w m A n ->
  exists i, BigNumMostSignificantWord m A n = Ret i /\ 0 <= i < n /\
    value w m A n = value w m A (i + 1) /\ (word m A i <> 0 \/ i = 0 /\ value w m A n = 0).
Proof using HB.
  intros Hn HA. unfold BigNumMostSignificantWord. rewrite ASSERT_true by (apply bool_decide_true; lia). simpl.
  oc_while_bin (fun i => 0 < i <= n /\ value w m A n = value w m A i) (fun i : Z => i)
    (fun i => 0 <= i < n /\ value w m A n = value w m A (i + 1) /\ (word m A i <> 0 \/ i = 0 /\ value w m A n = 0))
    as r Hr; [lia| |lia|lia|eauto].
  intros i (Hi & Hv). simpl. rewrite (wrap_small 16 (i - 1)) by lia.
  rewrite (ld_in w m A n) by (done || lia). simpl.
  repeat case_decide; eexists; (split; [done|]); simpl.
  - rewrite Z.sub_add. split; [lia|]. auto.
  - split; [|lia]. split; [lia|]. rewrite Hv. replace i with (i - 1 + 1) at 1 by lia. rewrite value_S by lia.
    destruct (decide (word m A (i - 1) = 0)) as [->|]; [lia|done].
  - assert (i = 1) as -> by lia. split; [lia|]. split; [done|]. right. split; [done|].
    rewrite Hv, value_1. destruct (decide (word m A 0 = 0)); [done|]. by simpl in *.
Qed.

(** The manual computation of [BigNumMod] and [BigNumSignificantBits]. *)
Lemma msw_bits m A n i :
  0 < n < 2 ^ 16 -> buffer w m A n -> 0 <= i < n -> value w m A n = value w m A (i + 1) ->
  (word m A i <> 0 \/ i = 0 /\ value w m A n = 0) ->
  i *[32] w +[32] sig_bits (word m A i) = sig_bits (value w m A n) /\
  sig_bits (value w m A n) <= w * (i + 1).
Proof using HB.
  intros Hn HA Hi Hv Hw0. pose proof w_pos as Hw. pose proof (word_range w m A n i HA Hi) as Hr.
  pose proof (vrange m A i (buffer_le w m A n i HA ltac:(lia)) ltac:(lia)) as Hri.
  assert (sig_bits (word m A i) <= w) by (apply sig_bits_le; lia).
  assert (0 <= sig_bits (word m A i)) by (apply sig_bits_upper; lia).
  rewrite (wrap_small 32 (i * w)) by nia. rewrite wrap_small by nia.
  destruct Hw0 as [Hne|[-> Hz]].
  - rewrite Hv, value_S by lia. rewrite sig_bits_top by lia. lia.
  - rewrite Hz in *. change (0 + 1) with 1 in Hv. rewrite value_1 in Hv. rewrite <- Hv in *.
    change (sig_bits 0) with 0. lia.
Qed.

Lemma SignificantBits_spec m A n :
  0 < n < 2 ^ 16 -> buffer w m A n -> BigNumSignificantBits m A n = Ret (sig_bits (value w m A n)).
Proof using HB.
  intros Hn HA. unfold BigNumSignificantBits. rewrite ASSERT_true by (apply bool_decide_true; lia). simpl.
  destruct (MostSignificantWord_spec m A n Hn HA) as (i & -> & Hi & Hv & Hw0). simpl.
  rewrite (ld_in w m A n) by done. simpl.
  rewrite SignificantBitsWord_spec by (by apply (word_range w m A n)). simpl.
  by destruct (msw_bits m A n i Hn HA Hi Hv Hw0) as [-> _].
Qed.

(** *** Shifts *)

(** The two parts of a word that is shifted by [0 < b < w] bits. *)
Lemma shl_parts a b :
  0 < b < w -> 0 <= a < 2 ^ w ->
  Z.shiftr a (w - b) = a / 2 ^ (w - b) /\ 0 <= a / 2 ^ (w - b) < 2 ^ b /\
  wrap w (Z.shiftl a b) = a mod 2 ^ (w - b) * 2 ^ b /\ 0 <= a mod 2 ^ (w - b) < 2 ^ (w - b) /\
  a * 2 ^ b = wrap w (Z.shiftl a b) + a / 2 ^ (w - b) * 2 ^ w /\ 2 ^ w = 2 ^ (w - b) * 2 ^ b.
Proof using HB.
  intros Hb Ha. assert (2 ^ w = 2 ^ (w - b) * 2 ^ b) as E by (rewrite <- Z.pow_add_r by lia; f_equal; lia).
  assert (0 < 2 ^ b /\ 0 < 2 ^ (w - b)) as [P1 P2] by (split; apply Z.pow_pos_nonneg; lia).
  assert (wrap w (Z.shiftl a b) = a mod 2 ^ (w - b) * 2 ^ b) as Ew.
  { unfold wrap. rewrite Z.shiftl_mul_pow2, E by lia. apply Z.mul_mod_distr_r; lia. }
  split_and!.
  - apply Z.shiftr_div_pow2. lia.
  - apply Z.div_pos; lia.
  - apply Z.div_lt_upper_bound; lia.
  - done.
  - by apply Z.mod_pos_bound.
  - by apply Z.mod_pos_bound.
  - rewrite Ew, E. rewrite (Z.div_mod a (2 ^ (w - b))) at 1 by lia. ring.
  - done.
Qed.

Lemma shl_digit a a' b :
  0 < b < w -> 0 <= a < 2 ^ w -> 0 <= a' < 2 ^ w ->
  let d := Z.lor (wrap w (Z.shiftl a b)) (Z.shiftr a' (w - b)) in
  d = wrap w (Z.shiftl a b) + a' / 2 ^ (w - b) /\ 0 <= d < 2 ^ w.
Proof using HB.
  intros Hb Ha Ha'. destruct (shl_parts a b Hb Ha) as (_ & _ & -> & H3 & _ & ->).
  destruct (shl_parts a' b Hb Ha') as (-> & H2 & _). cbv zeta. rewrite lor_disjoint by lia. nia.
Qed.

(** The digits of a left shift by less than a word. *)
Lemma shl_value m m' A D n b :
  0 < b < w -> 0 < n -> buffer w m A n ->
  m' !! (D +ₗ 0) = Some (wrap w (Z.shiftl (word m A 0) b)) ->
  (forall k, 0 < k < n -> m' !! (D +ₗ k) =
     Some (Z.lor (wrap w (Z.shiftl (word m A k) b)) (Z.shiftr (word m A (k - 1)) (w - b)))) ->
  m' !! (D +ₗ n) = Some (Z.shiftr (word m A (n - 1)) (w - b)) ->
  value w m' D (n + 1) = value w m A n * 2 ^ b /\ buffer w m' D (n + 1).
Proof using HB.
  intros Hb Hn HA H0 Hk Htop. pose proof w_pos as Hw.
  assert (forall j, 0 <= j -> j < n ->
    value w m' D (j + 1) + word m A j / 2 ^ (w - b) * 2 ^ (w * (j + 1)) = value w m A (j + 1) * 2 ^ b) as Hind.
  { apply (natlike_ind (fun j => j < n -> _)).
    - intros _. rewrite Z.add_0_l, !value_1, Z.mul_1_r. rewrite (word_Some _ _ _ _ H0).
      by destruct (shl_parts (word m A 0) b Hb (word_range w m A n 0 HA ltac:(lia))) as (_ & _ & _ & _ & -> & _).
    - intros j Hj IH Hjn. unfold Z.succ in *. specialize (IH ltac:(lia)).
      rewrite (value_S w m' D), (value_S w m A (j + 1)), Z.mul_add_distr_r, <- IH by lia.
      rewrite (word_Some m' D _ _ (Hk (j + 1) ltac:(lia))), Z.add_simpl_r.
      pose proof (word_range w m A n (j + 1) HA ltac:(lia)) as R1.
      pose proof (word_range w m A n j HA ltac:(lia)) as R2.
      destruct (shl_digit (word m A (j + 1)) (word m A j) b Hb R1 R2) as [-> _].
      destruct (shl_parts (word m A (j + 1)) b Hb R1) as (_ & _ & _ & _ & E & _).
      rewrite (Z.mul_add_distr_l w (j + 1) 1), Z.mul_1_r, (Z.pow_add_r 2 (w * (j + 1)) w) by lia. nia. }
  split.
  - specialize (Hind (n - 1) ltac:(lia) ltac:(lia)). rewrite Z.sub_add in Hind. rewrite value_S, <- Hind by lia.
    rewrite (word_Some _ _ _ _ Htop).
    by destruct (shl_parts (word m A (n - 1)) b Hb (word_range w m A n (n - 1) HA ltac:(lia))) as (-> & _).
  - intros k Hkn. destruct (decide (k = 0)) as [->|]; [|destruct (decide (k = n)) as [->|]].
    + rewrite H0. eexists. split; [done|]. apply wrap_range. lia.
    + rewrite Htop. eexists. split; [done|].
      destruct (shl_parts (word m A (n - 1)) b Hb (word_range w m A n (n - 1) HA ltac:(lia))) as (-> & ? & _ & _ & _ & E).
      assert (0 < 2 ^ (w - b)) by (apply Z.pow_pos_nonneg; lia). nia.
    + rewrite Hk by lia. eexists. split; [done|].
      apply shl_digit; [done|apply (word_range w m A n); [done|lia]..].
Qed.

(** The digits of a right shift by [nw] words and [b] bits. *)
Lemma shr_value m m' A D n nw b :
  0 < b < w -> 0 <= nw < n -> buffer w m A n ->
  (forall k, 0 <= k < n - 1 - nw -> m' !! (D +ₗ k) =
     Some (Z.lor (Z.shiftr (word m A (k + nw)) b) (wrap w (Z.shiftl (word m A (k + nw + 1)) (w - b))))) ->
  m' !! (D +ₗ (n - 1 - nw)) = Some (Z.shiftr (word m A (n - 1)) b) ->
  (forall k, n - nw <= k < n -> m' !! (D +ₗ k) = Some 0) ->
  value w m' D n = value w m A n / 2 ^ (w * nw + b) /\ buffer w m' D n.
Proof using HB.
  intros Hb Hn HA Hk Htop Hzero. pose proof w_pos as Hw. assert (0 < w - b < w) as Hb' by lia.
  assert (0 < 2 ^ b /\ 0 < 2 ^ (w - b)) as [P1 P2] by (split; apply Z.pow_pos_nonneg; lia).
  assert (forall i, 0 <= i < n -> 0 <= word m A i < 2 ^ w) as HR by (intros; by apply (word_range w m A n)).
  assert (forall j, 0 <= j -> j < n - nw ->
    value w m (A +ₗ nw) (j + 1) / 2 ^ b = value w m' D j + word m A (j + nw) / 2 ^ b * 2 ^ (w * j)) as Hind.
  { apply (natlike_ind (fun j => j < n - nw -> _)).
    - intros _. rewrite Z.add_0_l, value_1, value_0, Z.mul_0_r, word_add, !Z.add_0_l, Z.add_0_r, Z.pow_0_r. lia.
    - intros j Hj IH Hjn. unfold Z.succ in *. specialize (IH ltac:(lia)).
      rewrite (value_S w m (A +ₗ nw)), (value_S w m' D) by lia.
      rewrite word_add.
      replace (nw + (j + 1)) with (j + nw + 1) by lia. replace (j + 1 + nw) with (j + nw + 1) by lia.
      rewrite (word_Some m' D _ _ (Hk j ltac:(lia))), Z.lor_comm, (Z.shiftr_div_pow2 _ b) by lia.
      destruct (shl_parts (word m A (j + nw + 1)) (w - b) Hb' (HR (j + nw + 1) ltac:(lia))) as (_ & _ & Ew & _ & Ea & Ep).
      rewrite Ew in *. replace (w - (w - b)) with b in * by lia.
      rewrite lor_disjoint; [|lia|].
      2:{ split; [apply Z.div_pos; [apply HR|]; lia|]. apply Z.div_lt_upper_bound; [lia|].
          pose proof (HR (j + nw) ltac:(lia)). lia. }
      replace (2 ^ (w * (j + 1))) with (2 ^ (w * j) * 2 ^ (w - b) * 2 ^ b).
      2:{ rewrite <- !Z.pow_add_r by lia. f_equal. lia. }
      rewrite !Z.mul_assoc, Z.div_add, IH by lia. nia. }
  split.
  - specialize (Hind (n - 1 - nw) ltac:(lia) ltac:(lia)).
    replace (n - 1 - nw + 1) with (n - nw) in Hind by lia. replace (n - 1 - nw + nw) with (n - 1) in Hind by lia.
    rewrite Z.pow_add_r, <- Z.div_div by lia.
    assert (value w m A n / 2 ^ (w * nw) = value w m (A +ₗ nw) (n - nw)) as ->.
    { replace n with (nw + (n - nw)) at 1 by lia. rewrite (value_app w w_gt0) by lia.
      pose proof (vrange m A nw (buffer_le w m A n nw HA ltac:(lia)) ltac:(lia)).
      rewrite (Z.mul_comm (2 ^ (w * nw))), Z.div_add, Z.div_small by lia. lia. }
    rewrite Hind. replace n with (n - 1 - nw + (1 + nw)) at 1 by lia.
    rewrite (value_app w w_gt0), (value_app w w_gt0 m' _ 1), value_1 by lia.
    rewrite (value_zero w m' (D +ₗ (n - 1 - nw) +ₗ 1)).
    2:{ intros k Hkz. rewrite !loc_add_add. apply Hzero. lia. }
    rewrite word_add, Z.add_0_r, (word_Some _ _ _ _ Htop), Z.shiftr_div_pow2 by lia. lia.
  - intros k Hkn. destruct (decide (k < n - 1 - nw)); [|destruct (decide (k = n - 1 - nw)) as [->|]].
    + rewrite Hk by lia. eexists. split; [done|]. rewrite Z.lor_comm.
      pose proof (shl_digit (word m A (k + nw + 1)) (word m A (k + nw)) (w - b) Hb' (HR (k + nw + 1) ltac:(lia)) (HR (k + nw) ltac:(lia))) as Hd.
      replace (w - (w - b)) with b in Hd by lia. apply Hd.
    + rewrite Htop. eexists. split; [done|]. rewrite Z.shiftr_div_pow2 by lia.
      split; [apply Z.div_pos; [apply HR|]; lia|]. pose proof (HR (n - 1) ltac:(lia)).
      apply Z.div_lt_upper_bound; [lia|]. nia.
    + rewrite Hzero by lia. eexists. split; [done|]. pose proof pow_w_min. lia.
Qed.

Lemma CopyMem_words_spec m d s n :
  0 <= n < 2 ^ 24 -> buffer w m d n -> buffer w m s n ->
  exists m', CopyMem_words m d s (OC_BN_SIZE n) = Ret m' /\ unchanged_but m m' d n /\
    (forall k, 0 <= k < n -> m' !! (d +ₗ k) = m !! (s +ₗ k)).
Proof using HB. intros Hn. unfold CopyMem_words. rewrite OC_BN_SIZE_words by done. eapply copy_words_spec; eauto using w_gt0; lia. Qed.

Lemma ZeroMem_words_spec m p n :
  0 <= n < 2 ^ 24 -> buffer w m p n ->
  exists m', ZeroMem_words m p (OC_BN_SIZE n) = Ret m' /\ unchanged_but m m' p n /\
    (forall k, 0 <= k < n -> m' !! (p +ₗ k) = Some 0).
Proof using HB.
  intros Hn. unfold ZeroMem_words. rewrite OC_BN_SIZE_words by done. apply zero_words_spec; [apply w_gt0|lia].
Qed.

(** A number whose low [k] words are zero. *)
Lemma value_low_zero m p k n :
  0 <= k -> 0 <= n -> (forall i, 0 <= i < k -> m !! (p +ₗ i) = Some 0) ->
  value w m p (k + n) = value w m (p +ₗ k) n * 2 ^ (w * k).
Proof using HB. intros Hk Hn Hz. rewrite (value_app w w_gt0) by lia. rewrite (value_zero w m p k) by done. lia. Qed.

Lemma LeftShiftWords_spec m R A n e :
  0 < n -> 0 <= e -> n + e < 2 ^ 16 -> buffer w m R (n + e) -> buffer w m A n -> apart R (n + e) A n ->
  exists m', BigNumLeftShiftWords m R (n + e) A n e = Ret m' /\ unchanged_but m m' R (n + e) /\
    buffer w m' R (n + e) /\ value w m' R (n + e) = value w m A n * 2 ^ (w * e).
Proof using HB.
  intros Hn He Hm HR HA Ha. pose proof pow_w_min as HW. unfold BigNumLeftShiftWords.
  rewrite (wrap_small w (n + e - e)) by lia. replace (n + e - e) with n by lia.
  rewrite !ASSERT_true by (apply bool_decide_true; lia). simpl.
  destruct (CopyMem_words_spec m (R +ₗ e) A n) as (m1 & -> & Hu1 & Hk1);
    [lia|apply (buffer_sub w m R (n + e)); [done|lia..]|done|]. simpl.
  assert (buffer w m1 (R +ₗ e) n) as Hb1.
  { intros k Hk. rewrite Hk1 by done. by apply HA. }
  assert (buffer w m1 R e) as Hb1'.
  { apply (buffer_frame w m); [apply (buffer_le w m R (n + e)); [done|lia]|]. intros k Hk. apply Hu1.
    unfold in_range, loc_add. simpl. lia. }
  destruct (ZeroMem_words_spec m1 R e) as (m2 & -> & Hu2 & Hk2); [lia|done|]. simpl.
  rewrite decide_False by lia.
  assert (forall k, 0 <= k < n -> m2 !! (R +ₗ e +ₗ k) = m !! (A +ₗ k)) as Hk3.
  { intros k Hk. rewrite Hu2, Hk1; [done|done|]. unfold in_range, loc_add. simpl. lia. }
  exists m2. split_and!; [done| | |].
  - intros l Hl. rewrite Hu2, Hu1; [done|..]; intros Hr; apply Hl; unfold in_range, loc_add in *; simpl in *; lia.
  - intros k Hk. destruct (decide (k < e)).
    + rewrite Hk2 by lia. eexists. split; [done|lia].
    + replace k with (e + (k - e)) by lia. rewrite <- loc_add_add, Hk3 by lia. apply HA. lia.
  - rewrite Z.add_comm, value_low_zero by (done || lia). f_equal. by apply value_frame.
Qed.

Lemma LeftShiftWordsAndBits_spec m R A n nw b :
  0 < n -> 0 < nw -> 0 < b < w -> n + nw + 1 < 2 ^ 16 ->
  buffer w m R (n + nw + 1) -> buffer w m A n -> apart R (n + nw + 1) A n ->
  exists m', BigNumLeftShiftWordsAndBits m R (n + nw + 1) A n nw b = Ret m' /\
    unchanged_but m m' R (n + nw + 1) /\ buffer w m' R (n + nw + 1) /\
    value w m' R (n + nw + 1) = value w m A n * 2 ^ (w * nw + b).
Proof using HB.
  intros Hn Hnw Hb Hm HR HA Ha. pose proof pow_w_min as HW. unfold BigNumLeftShiftWordsAndBits.
  rewrite (wrap_small w (n + nw)), (wrap_small w (n + nw + 1)), (wrap_small 16) by lia.
  rewrite !ASSERT_true by (apply bool_decide_true; lia). simpl.
  set (dig k := Z.lor (wrap w (Z.shiftl (word m A k) b)) (Z.shiftr (word m A (k - 1)) (w - b))).
  assert (forall k, 0 <= k < n -> ~ in_range R (n + nw + 1) (A +ₗ k)) as Hout by (intros; by apply (in_range_apart _ _ _ n)).
  oc_for (fun (i : Z) (m' : mem) => unchanged_but m m' R (n + nw + 1) /\ buffer w m' R (n + nw + 1) /\
     forall k, n - 1 - i < k < n -> m' !! (R +ₗ nw +ₗ k) = Some (dig k)) as m1 Hm1.
  - split_and!; [done|done|lia].
  - intros i m' Hi (Hu & Hb' & Hk). pose proof (word_range w m A n (n - 1 - i) HA ltac:(lia)) as R1.
    pose proof (word_range w m A n (n - 1 - i - 1) HA ltac:(lia)) as R2.
    rewrite !(ld_frame w m m' A n) by (done || lia || (apply Hu, Hout; lia)). simpl.
    rewrite (wrap_small w (_ + nw)) by lia. rewrite (st_in w m' R (n + nw + 1)) by (done || lia).
    eexists. split; [done|]. split_and!.
    + apply unchanged_insert; [done|lia].
    + apply buffer_insert; [done|]. by apply shl_digit.
    + intros k Hkr. rewrite loc_add_add. destruct (decide (k = n - 1 - i)) as [->|].
      * rewrite (Z.add_comm nw). by rewrite lookup_insert_eq.
      * rewrite lookup_insert_ne; [rewrite <- loc_add_add; apply Hk; lia|]. intros E. apply loc_add_inj in E. lia.
  - destruct Hm1 as (Hu & Hb' & Hk). simpl.
    rewrite (ld_frame w m m1 A n 0 HA ltac:(lia)) by (apply Hu, Hout; lia). simpl.
    rewrite (st_in w m1 R (n + nw + 1)) by (done || lia). simpl.
    assert (0 <= wrap w (Z.shiftl (word m A 0) b) < 2 ^ w) as Hr0 by (apply wrap_range; lia).
    rewrite (ld_frame w m _ A n (n - 1) HA ltac:(lia)).
    2:{ rewrite lookup_insert_ne by (unfold apart, loc_add in *; intros [= ?]; simpl in *; lia). apply Hu, Hout. lia. }
    simpl. pose proof (word_range w m A n (n - 1) HA ltac:(lia)) as R1.
    rewrite (st_in w _ R (n + nw + 1)) by (by apply buffer_insert || lia). simpl.
    set (m2 := <[R +ₗ (n + nw) := _]> _).
    assert (0 <= Z.shiftr (word m A (n - 1)) (w - b) < 2 ^ w) as Hr1.
    { destruct (shl_parts (word m A (n - 1)) b Hb R1) as (-> & ? & _ & _ & _ & E).
      assert (0 < 2 ^ (w - b)) by (apply Z.pow_pos_nonneg; lia). nia. }
    assert (buffer w m2 R (n + nw + 1)) as Hb2 by (subst m2; by repeat apply buffer_insert).
    destruct (ZeroMem_words_spec m2 R nw) as (m3 & -> & Hu3 & Hk3);
      [lia|apply (buffer_le w m2 R (n + nw + 1)); [done|lia]|].
    assert (forall k, 0 <= k -> m3 !! (R +ₗ nw +ₗ k) = m2 !! (R +ₗ (nw + k))) as Hk4.
    { intros k Hk0. rewrite loc_add_add. apply Hu3. rewrite in_range_add. lia. }
    destruct (shl_value m m3 A (R +ₗ nw) n b) as [Hv Hbuf]; [done|done|done| | | |].
    + rewrite Hk4 by lia. rewrite Z.add_0_r. subst m2.
      rewrite lookup_insert_ne by (intros E; apply loc_add_inj in E; lia). by rewrite lookup_insert_eq.
    + intros k Hkr. rewrite Hk4 by lia. subst m2.
      rewrite !lookup_insert_ne by (intros E; apply loc_add_inj in E; lia).
      rewrite <- loc_add_add. apply Hk. lia.
    + rewrite Hk4 by lia. subst m2. rewrite (Z.add_comm nw). by rewrite lookup_insert_eq.
    + exists m3. split_and!; [done| | |].
      * intros l Hl. rewrite Hu3 by (intros Hr; apply Hl; unfold in_range in *; lia). subst m2.
        rewrite !lookup_insert_ne; [by apply Hu|..]; intros <-; apply Hl; apply in_range_add; lia.
      * intros k Hkr. destruct (decide (k < nw)).
        -- rewrite Hk3 by lia. eexists. split; [done|lia].
        -- destruct (Hbuf (k - nw)) as (x & Hx & ?); [lia|]. exists x. rewrite loc_add_add in Hx.
           by replace (nw + (k - nw)) with k in Hx by lia.
      * replace (n + nw + 1) with (nw + (n + 1)) by lia. rewrite value_low_zero by (done || lia).
        rewrite Hv, (Z.add_comm (w * nw)), Z.pow_add_r by (pose proof w_pos; nia). lia.
Qed.

Lemma LeftShift_spec m R nr A n e :
  0 < n -> 0 <= e -> nr < 2 ^ 16 -> buffer w m R nr -> buffer w m A n -> apart R nr A n ->
  nr = n + e / w + (if decide (e mod w = 0) then 0 else 1) -> (e mod w = 0 \/ 0 < e / w) ->
  exists m', BigNumLeftShift m R nr A n e = Ret m' /\ unchanged_but m m' R nr /\
    buffer w m' R nr /\ value w m' R nr = value w m A n * 2 ^ e.
Proof using HB.
  intros Hn He Hm HR HA Ha Hnr Hnw. pose proof w_pos as Hw. unfold BigNumLeftShift.
  pose proof (Z.mod_pos_bound e w w_gt0). pose proof (Z.div_mod e w w_ne0) as Hdm.
  assert (0 <= e / w) by (apply Z.div_pos; lia).
  rewrite !ASSERT_true by (apply bool_decide_true; case_decide; lia). simpl. rewrite wrap_small by lia.
  assert (2 ^ e = 2 ^ (w * (e / w) + e mod w)) as -> by (by rewrite <- Hdm). destruct (decide (e mod w = 0)) as [E|E].
  - rewrite decide_False by lia. rewrite E, Z.add_0_r in *. subst nr. by apply LeftShiftWords_spec.
  - rewrite decide_True by done. subst nr. apply LeftShiftWordsAndBits_spec; [done|lia|lia|lia|done..].
Qed.

(** The loop of both bitwise right shifts, in place. *)
Lemma shr_loop (m : mem) (A : loc) (n nw b : Z) (body : Z -> mem -> outcome mem) :
  0 < b < w -> 0 <= nw < n -> buffer w m A n ->
  (forall i m', nw <= i < n - 1 -> body i m' =
     (a ← ld m' A i; a' ← ld m' A (i + 1);
      st m' A (i - nw) (Z.lor (Z.shiftr a b) (wrap w (Z.shiftl a' (w - b)))))) ->
  exists m', for_ (Z.to_nat (n - 1 - nw)) nw body m = Ret m' /\ unchanged_but m m' A (n - 1 - nw) /\
    buffer w m' A n /\
    forall k, 0 <= k < n - 1 - nw -> m' !! (A +ₗ k) =
      Some (Z.lor (Z.shiftr (word m A (k + nw)) b) (wrap w (Z.shiftl (word m A (k + nw + 1)) (w - b)))).
Proof using HB.
  intros Hb Hn HA Hbody. pose proof w_pos as Hw. assert (0 < w - b < w) as Hb' by lia.
  oc_for (fun (i : Z) (m' : mem) => unchanged_but m m' A (i - nw) /\ buffer w m' A n /\
    forall k, 0 <= k < i - nw -> m' !! (A +ₗ k) =
      Some (Z.lor (Z.shiftr (word m A (k + nw)) b) (wrap w (Z.shiftl (word m A (k + nw + 1)) (w - b))))) as m1 Hm1.
  - split_and!; [done|done|lia].
  - intros i m' Hi (Hu & Hbuf & Hk). rewrite Hbody by lia.
    rewrite !(ld_frame w m m' A n) by (done || lia || (apply Hu; rewrite in_range_add; lia)). simpl.
    rewrite (st_in w m' A n) by (done || lia). eexists. split; [done|].
    pose proof (shl_digit (word m A (i + 1)) (word m A i) (w - b) Hb' (word_range w m A n (i + 1) HA ltac:(lia))
      (word_range w m A n i HA ltac:(lia))) as [_ Hd]. rewrite Z.lor_comm in Hd.
    replace (w - (w - b)) with b in Hd by lia. split_and!.
    + apply unchanged_insert; [|lia]. eapply unchanged_mono; [done|]. unfold in_range. lia.
    + by apply buffer_insert.
    + intros k Hkr. destruct (decide (k = i - nw)) as [->|].
      * rewrite lookup_insert_eq. by rewrite Z.sub_add.
      * rewrite lookup_insert_ne by (intros E; apply loc_add_inj in E; lia). apply Hk. lia.
  - rewrite Z2Nat.id in Hm1 by lia. replace (nw + (n - 1 - nw) - nw) with (n - 1 - nw) in Hm1 by lia.
    destruct Hm1 as (Hu & Hbuf & Hk). exists m1. auto.
Qed.

Lemma RightShiftBitsSmall_spec m A n b :
  0 < n < 2 ^ 16 -> 0 < b < w -> buffer w m A n ->
  exists m', BigNumRightShiftBitsSmall m A n b = Ret m' /\ unchanged_but m m' A n /\
    buffer w m' A n /\ value w m' A n = value w m A n / 2 ^ b.
Proof using HB.
  intros Hn Hb HA. unfold BigNumRightShiftBitsSmall. rewrite (wrap_small 32) by lia.
  rewrite !ASSERT_true by (apply bool_decide_true; lia). simpl.
  match goal with |- context [for_ _ _ ?f m] =>
    destruct (shr_loop m A n 0 b f) as (m1 & E & Hu & Hbuf & Hk); [done|lia|done| |] end.
  { intros i m' Hi. by rewrite Z.sub_0_r. }
  rewrite Z.sub_0_r in E. rewrite E. clear E.
  simpl. rewrite (ld_frame w m m1 A n) by (done || lia || (apply Hu; rewrite in_range_add; lia)). simpl.
  rewrite (st_in w m1 A n) by (done || lia).
  set (m2 := <[A +ₗ (n - 1) := _]> _).
  destruct (shr_value m m2 A A n 0 b) as [Hv Hb2]; [done|lia|done| | |lia|].
  - intros k Hkr. subst m2. rewrite lookup_insert_ne by (intros E; apply loc_add_inj in E; lia). by apply Hk.
  - subst m2. rewrite Z.sub_0_r. by rewrite lookup_insert_eq.
  - exists m2. split_and!; [done| |done|].
    + apply unchanged_insert; [|lia]. eapply unchanged_mono; [done|]. unfold in_range. lia.
    + rewrite Hv. do 2 f_equal. lia.
Qed.

(** The right shift in place; the last assertions of both variants reject every
    shift by a word or more, so such a shift only works when they are compiled
    out. *)
Lemma RightShiftWordsAndBits_spec m A n nw b :
  0 < n < 2 ^ 16 -> 0 < b < w -> 0 <= nw < n -> buffer w m A n -> (asserts_enabled = false \/ nw = 0) ->
  exists m', BigNumRightShiftWordsAndBits m A n A n nw b = Ret m' /\ unchanged_but m m' A n /\
    buffer w m' A n /\ value w m' A n = value w m A n / 2 ^ (w * nw + b).
Proof using HB.
  intros Hn Hb Hnw HA Hrel. pose proof pow_w_min as HW. unfold BigNumRightShiftWordsAndBits.
  rewrite (wrap_small w (n - 1)), (wrap_small w (n - nw)) by lia. rewrite Z.max_r by lia.
  rewrite (wrap_small w (n - 1 - nw)) by lia. rewrite (wrap_small w (n - 1 - nw + 1)) by lia.
  rewrite (wrap_small w (n - (n - 1 - nw + 1))) by lia.
  assert (ASSERT (bool_decide (n <= n - nw)) = Ret tt) as ->.
  { destruct Hrel as [Hr| ->]; [by apply ASSERT_release|]. apply ASSERT_true, bool_decide_true. lia. }
  rewrite !ASSERT_true by (apply bool_decide_true; lia). simpl.
  match goal with |- context [for_ _ _ ?f m] =>
    destruct (shr_loop m A n nw b f) as (m1 & -> & Hu & Hbuf & Hk); [done|lia|done| |] end.
  { intros i m' Hi. by rewrite (wrap_small w) by lia. }
  simpl. rewrite (ld_frame w m m1 A n) by (done || lia || (apply Hu; rewrite in_range_add; lia)). simpl.
  rewrite (st_in w m1 A n) by (done || lia). simpl.
  set (m2 := <[A +ₗ (n - 1 - nw) := _]> _).
  replace (n - 1 - nw + 1) with (n - nw) by lia. replace (n - (n - nw)) with nw by lia.
  assert (0 <= Z.shiftr (word m A (n - 1)) b < 2 ^ w) as Hr1.
  { pose proof (word_range w m A n (n - 1) HA ltac:(lia)) as Hr. rewrite Z.shiftr_div_pow2 by lia.
    assert (0 < 2 ^ b) by (apply Z.pow_pos_nonneg; lia).
    split; [apply Z.div_pos; lia|]. apply Z.div_lt_upper_bound; nia. }
  assert (buffer w m2 A n) as Hb2 by (by apply buffer_insert).
  destruct (ZeroMem_words_spec m2 (A +ₗ (n - nw)) nw) as (m3 & -> & Hu3 & Hk3);
    [lia|apply (buffer_sub w m2 A n); [done|lia..]|].
  assert (forall k, k < n - nw -> m3 !! (A +ₗ k) = m2 !! (A +ₗ k)) as Hlow.
  { intros k Hkl. apply Hu3. unfold in_range, loc_add. simpl. lia. }
  destruct (shr_value m m3 A A n nw b) as [Hv Hb3]; [done|lia|done| | | |].
  - intros k Hkr. rewrite Hlow by lia. subst m2.
    rewrite lookup_insert_ne by (intros E; apply loc_add_inj in E; lia). by apply Hk.
  - rewrite Hlow by lia. subst m2. by rewrite lookup_insert_eq.
  - intros k Hkr. replace k with (n - nw + (k - (n - nw))) by lia. rewrite <- loc_add_add. apply Hk3. lia.
  - exists m3. split_and!; [done| |done|done].
    intros l Hl. rewrite Hu3 by (intros Hr; apply Hl; unfold in_range, loc_add in *; simpl in *; lia).
    subst m2. rewrite lookup_insert_ne by (intros <-; apply Hl, in_range_add; lia). apply Hu.
    intros Hr; apply Hl; unfold in_range in *; lia.
Qed.

Lemma RightShiftWords_spec m A n e :
  0 < n < 2 ^ 16 -> 0 <= e < n -> buffer w m A n -> (asserts_enabled = false \/ e = 0) ->
  exists m', BigNumRightShiftWords m A n A n e = Ret m' /\ unchanged_but m m' A n /\
    buffer w m' A n /\ value w m' A n = value w m A n / 2 ^ (w * e).
Proof using HB.
  intros Hn He HA Hrel. pose proof pow_w_min as HW. unfold BigNumRightShiftWords.
  rewrite (wrap_small w (n - e)) by lia.
  assert (ASSERT (bool_decide (n <= n - e)) = Ret tt) as ->.
  { destruct Hrel as [Hr| ->]; [by apply ASSERT_release|]. apply ASSERT_true, bool_decide_true. lia. }
  rewrite !ASSERT_true by (apply bool_decide_true; lia). simpl.
  destruct (CopyMem_words_spec m A (A +ₗ e) (n - e)) as (m1 & -> & Hu1 & Hk1);
    [lia|apply (buffer_le w m A n); [done|lia]|apply (buffer_sub w m A n); [done|lia..]|]. simpl.
  assert (buffer w m1 (A +ₗ (n - e)) e) as Hb1.
  { apply (buffer_frame w m); [apply (buffer_sub w m A n); [done|lia..]|]. intros k Hk. apply Hu1.
    unfold in_range, loc_add. simpl. lia. }
  destruct (ZeroMem_words_spec m1 (A +ₗ (n - e)) e) as (m2 & -> & Hu2 & Hk2); [lia|done|].
  assert (forall k, 0 <= k < n - e -> m2 !! (A +ₗ k) = m !! (A +ₗ e +ₗ k)) as Hlow.
  { intros k Hk. rewrite Hu2, Hk1; [done|done|]. unfold in_range, loc_add. simpl. lia. }
  exists m2. split_and!; [done| | |].
  - intros l Hl. rewrite Hu2, Hu1; [done|..]; intros Hr; apply Hl; unfold in_range, loc_add in *; simpl in *; lia.
  - intros k Hk. destruct (decide (k < n - e)).
    + rewrite Hlow, loc_add_add by lia. apply HA. lia.
    + replace k with (n - e + (k - (n - e))) by lia. rewrite <- loc_add_add, Hk2 by lia. eexists. split; [done|lia].
  - replace n with (n - e + e) at 1 by lia. rewrite (value_app w w_gt0) by lia. rewrite (value_zero w m2 (A +ₗ (n - e))) by done.
    rewrite (value_frame w m m2 (A +ₗ e) A (n - e) Hlow).
    replace n with (e + (n - e)) at 3 by lia. rewrite (value_app w w_gt0) by lia.
    pose proof (vrange m A e (buffer_le w m A n e HA ltac:(lia)) ltac:(lia)).
    rewrite (Z.mul_comm (2 ^ (w * e))), Z.div_add, Z.div_small by lia. lia.
Qed.

Lemma RightShift_spec m A n e :
  0 < n < 2 ^ 16 -> 0 <= e < w * n -> buffer w m A n -> (asserts_enabled = false \/ e < w) ->
  exists m', BigNumRightShift m A n A n e = Ret m' /\ unchanged_but m m' A n /\
    buffer w m' A n /\ value w m' A n = value w m A n / 2 ^ e.
Proof using HB.
  intros Hn He HA Hrel. pose proof w_pos as Hw. unfold BigNumRightShift.
  pose proof (Z.mod_pos_bound e w w_gt0). pose proof (Z.div_mod e w w_ne0) as Hdm.
  assert (0 <= e / w < n) by (split; [apply Z.div_pos; lia|apply Z.div_lt_upper_bound; lia]).
  assert (asserts_enabled = false \/ e / w = 0) by (destruct Hrel; [by left|right; apply Z.div_small; lia]).
  rewrite !ASSERT_true by (apply bool_decide_true; lia). simpl. rewrite wrap_small by lia.
  assert (2 ^ e = 2 ^ (w * (e / w) + e mod w)) as -> by (by rewrite <- Hdm). destruct (decide (e mod w = 0)) as [E|E].
  - rewrite decide_False by lia. rewrite E, Z.add_0_r. by apply RightShiftWords_spec.
  - rewrite decide_True by done. apply RightShiftWordsAndBits_spec; [done|lia|done|done|done].
Qed.

(** *** Bit setting and parsing *)
Lemma OrWord_spec m A n e :
  0 <= e < w * n -> n < 2 ^ 16 -> (forall k, 0 <= k < n -> m !! (A +ₗ k) = Some 0) ->
  exists m', BigNumOrWord m A n 1 e = Ret m' /\ unchanged_but m m' A n /\ buffer w m' A n /\ value w m' A n = 2 ^ e.
Proof using HB.
  intros He Hn Hz. pose proof w_pos as Hw. unfold BigNumOrWord.
  pose proof (Z.mod_pos_bound e w w_gt0) as Hm. pose proof (Z.div_mod e w w_ne0) as Hdm.
  assert (0 <= e / w < n) as Hd by (split; [apply Z.div_pos; lia|apply Z.div_lt_upper_bound; lia]).
  rewrite !ASSERT_true by (apply bool_decide_true; lia). simpl. rewrite decide_True by lia.
  rewrite (wrap_small 8) by lia. unfold ld, st. rewrite !Hz by lia. simpl.
  assert (0 < 2 ^ (e mod w) < 2 ^ w) by (split; [apply Z.pow_pos_nonneg|apply Z.pow_lt_mono_r]; lia).
  rewrite Z.shiftl_1_l, (wrap_small w), Z.lor_0_l by lia. set (m' := <[_ := _]> m).
  assert (forall k, 0 <= k < n -> k <> e / w -> m' !! (A +ₗ k) = Some 0) as Hk.
  { intros k Hk Hne. subst m'. rewrite lookup_insert_ne by (intros E; apply loc_add_inj in E; lia). by apply Hz. }
  exists m'. split_and!; [done|by apply unchanged_insert| |].
  - intros k Hkn. destruct (decide (k = e / w)) as [->|].
    + subst m'. rewrite lookup_insert_eq. eexists. split; [done|lia].
    + rewrite Hk by done. eexists. split; [done|lia].
  - replace n with (e / w + (1 + (n - e / w - 1))) by lia.
    rewrite (value_app w w_gt0), (value_app w w_gt0 m' _ 1), value_1 by lia.
    rewrite (value_zero w m' A), (value_zero w m' (_ +ₗ 1)).
    2:{ intros k Hkn. rewrite !loc_add_add. apply Hk; lia. }
    2:{ intros k Hkn. apply Hk; lia. }
    rewrite word_add, Z.add_0_r. subst m'. rewrite word_insert_eq.
    rewrite Hdm at 3. rewrite Z.pow_add_r by nia. lia.
Qed.


Lemma be_value_acc l a : foldl (fun a b => a * 2 ^ 8 + b) a l = a * 2 ^ (8 * Z.of_nat (length l)) + be_value l.
Proof using.
  unfold be_value. revert a. induction l as [|b l IH]; intros a; cbn [foldl length]; [simpl; lia|].
  rewrite IH, (IH (0 * _ + b)).
  replace (8 * Z.of_nat (S (length l))) with (8 + 8 * Z.of_nat (length l)) by lia.
  rewrite (Z.pow_add_r 2 8) by lia. lia.
Qed.

Lemma be_value_app l1 l2 : be_value (l1 ++ l2) = be_value l1 * 2 ^ (8 * Z.of_nat (length l2)) + be_value l2.
Proof using. unfold be_value at 1. rewrite foldl_app. apply be_value_acc. Qed.

Lemma be_value_range l : Forall is_byte l -> 0 <= be_value l < 2 ^ (8 * Z.of_nat (length l)).
Proof using.
  induction l as [|b l IH] using rev_ind; intros H; [done|]. apply Forall_app in H as [H1 H2].
  apply Forall_cons in H2 as [Hb _]. unfold is_byte, in_width in Hb. specialize (IH H1). rewrite be_value_app, length_app. simpl length.
  replace (8 * Z.of_nat (length l + 1)) with (8 * Z.of_nat (length l) + 8) by lia. rewrite Z.pow_add_r by lia.
  change (be_value [b]) with b. change (2 ^ (8 * Z.of_nat 1)) with (2 ^ 8). nia.
Qed.

(** One more byte below the bytes that are already in place. *)
Lemma lor_byte x b k : is_byte b -> 0 <= k -> Z.lor (x * 2 ^ (k + 8)) (Z.shiftl b k) = (x * 2 ^ 8 + b) * 2 ^ k.
Proof using.
  unfold is_byte, in_width. intros Hb Hk. assert (0 < 2 ^ k) by (apply Z.pow_pos_nonneg; lia).
  rewrite Z.shiftl_mul_pow2 by lia.
  rewrite lor_disjoint; [rewrite Z.pow_add_r by lia; lia|lia|rewrite Z.pow_add_r by lia; nia].
Qed.

Lemma rd_of_slice (l : list Z) o n i :
  0 <= o -> 0 <= i < n -> o + n <= Z.of_nat (length l) -> rd l (o + i) = rd (slice l o n) i.
Proof using.
  intros Ho Hi Hl. unfold rd. rewrite !decide_True by lia. rewrite lookup_slice by lia.
  by rewrite Z2Nat.inj_add by lia.
Qed.

Lemma ParseWord_spec Buffer o :
  0 <= o -> o + OC_BN_WORD_SIZE <= Z.of_nat (length Buffer) -> Forall is_byte Buffer ->
  ParseWord Buffer o = Ret (be_value (slice Buffer o OC_BN_WORD_SIZE)).
Proof using HB.
  intros Ho Hl Hb. unfold ParseWord.
  assert (Forall is_byte (slice Buffer o OC_BN_WORD_SIZE)) as Hs by (by apply Forall_take, Forall_drop).
  assert (length (slice Buffer o OC_BN_WORD_SIZE) = Z.to_nat OC_BN_WORD_SIZE) as Hlen
    by (apply slice_length; destruct HB; lia).
  pose proof (fun i Hi => rd_of_slice Buffer o OC_BN_WORD_SIZE i Ho Hi Hl) as Hrd.
  set (l := slice Buffer o OC_BN_WORD_SIZE) in *. clearbody l.
  destruct HB as [E|E]; rewrite E in *; [rewrite decide_True by done|rewrite decide_False, decide_True by done];
    rewrite !Hrd by lia.
  - destruct l as [|b0 [|b1 [|b2 [|b3 [|]]]]]; try done. unfold rd; simpl.
    repeat (apply Forall_cons in Hs as [? Hs]). f_equal. rewrite Z.shiftl_0_r.
    change (Z.shiftl b0 24) with (Z.shiftl b0 (16 + 8)). rewrite (Z.shiftl_mul_pow2 b0) by lia.
    rewrite (lor_byte _ b1 16), (lor_byte _ b2 8), <- (Z.shiftl_0_r b3), (lor_byte _ b3 0) by (done || lia).
    unfold be_value. cbn [foldl]. rewrite Z.shiftl_0_r. lia.
  - destruct l as [|b0 [|b1 [|b2 [|b3 [|b4 [|b5 [|b6 [|b7 [|]]]]]]]]]; try done. unfold rd; simpl.
    repeat (apply Forall_cons in Hs as [? Hs]). f_equal. rewrite Z.shiftl_0_r.
    change (Z.shiftl b0 56) with (Z.shiftl b0 (48 + 8)). rewrite (Z.shiftl_mul_pow2 b0) by lia.
    rewrite (lor_byte _ b1 48), (lor_byte _ b2 40), (lor_byte _ b3 32), (lor_byte _ b4 24), (lor_byte _ b5 16),
      (lor_byte _ b6 8), <- (Z.shiftl_0_r b7), (lor_byte _ b7 0) by (done || lia).
    unfold be_value. cbn [foldl]. rewrite Z.shiftl_0_r. lia.
Qed.

Lemma ParseBuffer_spec m R n Buffer :
  0 < n < 2 ^ 16 -> buffer w m R n -> Z.of_nat (length Buffer) = n * OC_BN_WORD_SIZE -> Forall is_byte Buffer ->
  exists m', BigNumParseBuffer m R n Buffer (n * OC_BN_WORD_SIZE) = Ret m' /\
    unchanged_but m m' R n /\ buffer w m' R n /\ value w m' R n = be_value Buffer.
Proof using HB.
  intros Hn HR Hl Hb. pose proof pow_w_min as HW. pose proof HB as HB'. unfold BnBuildOk in HB'.
  set (S := OC_BN_WORD_SIZE) in *. assert (w = 8 * S) as Ew by (unfold w; fold S; lia).
  unfold BigNumParseBuffer. fold S.
  assert (OC_BN_SIZE n = n * S) as ->.
  { unfold OC_BN_SIZE. fold S. rewrite (wrap_small 32), wrap_small by nia. done. }
  rewrite !ASSERT_true by (apply bool_decide_true; nia). simpl. rewrite Z.div_mul by lia.
  oc_for (fun (k : Z) (m' : mem) => unchanged_but m m' R n /\ buffer w m' R n /\
    value w m' R (k - 1) = be_value (drop (Z.to_nat (n * S - (k - 1) * S)) Buffer)) as m1 Hm1.
  - split_and!; [done|done|]. rewrite drop_ge by lia. done.
  - intros k m' Hk (Hu & Hbuf & Hv).
    assert (k * S <= n * S /\ 0 < k * S) as [Hks Hks'] by nia.
    rewrite ParseWord_spec by (done || fold S; lia). fold S. simpl.
    rewrite Z.div_mul by lia. rewrite (st_in w m' R n) by (done || lia). eexists. split; [done|].
    assert (drop (Z.to_nat (n * S - k * S)) Buffer =
      slice Buffer (n * S - k * S) S ++ drop (Z.to_nat (n * S - (k - 1) * S)) Buffer) as Hsplit.
    { unfold slice. rewrite <- (take_drop (Z.to_nat S) (drop (Z.to_nat (n * S - k * S)) Buffer)) at 1.
      f_equal. rewrite drop_drop. f_equal. lia. }
    assert (length (slice Buffer (n * S - k * S) S) = Z.to_nat S) as Hlen by (apply slice_length; lia).
    split_and!.
    + apply unchanged_insert; [done|lia].
    + apply buffer_insert; [done|]. assert (Forall is_byte (slice Buffer (n * S - k * S) S)) as Hf.
      { unfold slice. by apply Forall_take, Forall_drop. }
      apply be_value_range in Hf. rewrite Hlen, Z2Nat.id, <- Ew in Hf by lia. done.
    + rewrite Z.add_simpl_r. rewrite Hsplit, be_value_app, <- Hv, length_drop.
      pose proof (value_snoc w m' R (k - 1) (be_value (slice Buffer (n * S - k * S) S)) ltac:(lia)) as Hsn.
      rewrite Z.sub_add in Hsn. rewrite Hsn, Ew.
      replace (8 * Z.of_nat (length Buffer - Z.to_nat (n * S - (k - 1) * S))) with (8 * S * (k - 1)) by lia. lia.
  - rewrite Z2Nat.id in Hm1 by lia. destruct Hm1 as (Hu & Hbuf & Hv). exists m1. split_and!; [done|done|done|].
    replace (1 + n - 1) with n in Hv by lia. rewrite Hv, Z.sub_diag. done.
Qed.

(** *** Portable multiplication *)
Lemma half_split x : Z.land x (2 ^ 32 - 1) = x mod 2 ^ 32 /\ Z.shiftr x 32 = x / 2 ^ 32.
Proof using.
  split; [|by apply Z.shiftr_div_pow2]. change (2 ^ 32 - 1) with (Z.ones 32). by apply Z.land_ones.
Qed.

Lemma four_products (a0 a1 b0 b1 : Z) :
  0 <= a0 < 2 ^ 32 -> 0 <= a1 < 2 ^ 32 -> 0 <= b0 < 2 ^ 32 -> 0 <= b1 < 2 ^ 32 ->
  let P0 := a0 * b0 in let P1 := a0 * b1 in let P2 := a1 * b0 in let P3 := a1 * b1 in
  let Cy := (P0 / 2 ^ 32 + P1 mod 2 ^ 32 + P2 mod 2 ^ 32) / 2 ^ 32 in
  let T := (a0 + a1 * 2 ^ 32) * (b0 + b1 * 2 ^ 32) in
  T / 2 ^ 64 = P3 + P1 / 2 ^ 32 + P2 / 2 ^ 32 + Cy /\ 0 <= Cy < 2 ^ 2 /\ T / 2 ^ 64 < 2 ^ 64 /\
  T mod 2 ^ 64 = (P0 + P1 * 2 ^ 32 + P2 * 2 ^ 32) mod 2 ^ 64.
Proof using.
  intros Ha0 Ha1 Hb0 Hb1 P0 P1 P2 P3 Cy T.
  assert (T = P0 + P1 * 2 ^ 32 + P2 * 2 ^ 32 + P3 * 2 ^ 64) as ET by (subst T P0 P1 P2 P3; lia).
  assert (0 <= T < 2 ^ 64 * 2 ^ 64) as HT by (subst T; nia).
  assert (0 <= P0 /\ 0 <= P1 /\ 0 <= P2 /\ 0 <= P3) as (H0 & H1 & H2 & H3) by (subst P0 P1 P2 P3; nia).
  assert (P0 < 2 ^ 64) as H4 by (subst P0; nia).
  clearbody T P0 P1 P2 P3. set (s := P0 / 2 ^ 32 + P1 mod 2 ^ 32 + P2 mod 2 ^ 32) in *.
  pose proof (Z.div_mod P0 (2 ^ 32)). pose proof (Z.div_mod P1 (2 ^ 32)). pose proof (Z.div_mod P2 (2 ^ 32)).
  pose proof (Z.mod_pos_bound P0 (2 ^ 32)). pose proof (Z.mod_pos_bound P1 (2 ^ 32)). pose proof (Z.mod_pos_bound P2 (2 ^ 32)).
  pose proof (Z.div_mod s (2 ^ 32)). pose proof (Z.mod_pos_bound s (2 ^ 32)).
  assert (0 <= P0 / 2 ^ 32 < 2 ^ 32) by lia. assert (s = P0 / 2 ^ 32 + P1 mod 2 ^ 32 + P2 mod 2 ^ 32) as Es by done.
  split_and!.
  - symmetry. apply Z.div_unique with (P0 mod 2 ^ 32 + s mod 2 ^ 32 * 2 ^ 32); lia.
  - lia.
  - lia.
  - apply Z.div_lt_upper_bound; lia.
  - subst T. apply Z_mod_plus_full.
Qed.

Lemma WordMul64_Cpu32_spec a c :
  OC_BN_WORD_SIZE = 8 -> 0 <= a < 2 ^ 64 -> 0 <= c < 2 ^ 64 ->
  BigNumWordMul64_Cpu32 a c = Ret ((a * c) mod 2 ^ 64, a * c / 2 ^ 64).
Proof using.
  intros E Ha Hc. unfold BigNumWordMul64_Cpu32. rewrite ASSERT_true by (by apply bool_decide_true).
  cbn [mbind outcome_bind]. unfold w. rewrite E. change (8 * 8) with 64. change (64 / 2) with 32. cbv zeta.
  change (wrap 64 (Z.shiftl 1 32) -[64] 1) with (2 ^ 32 - 1).
  rewrite !(proj1 (half_split _)), !(proj2 (half_split _)).
  assert (forall x, 0 <= x < 2 ^ 64 -> 0 <= x mod 2 ^ 32 < 2 ^ 32 /\ 0 <= x / 2 ^ 32 < 2 ^ 32 /\
    x = x mod 2 ^ 32 + x / 2 ^ 32 * 2 ^ 32) as Hsp.
  { intros x Hx. pose proof (Z.div_mod x (2 ^ 32) ltac:(lia)). split; [apply Z.mod_pos_bound; lia|].
    split; [|lia]. split; [apply Z.div_pos|apply Z.div_lt_upper_bound]; lia. }
  destruct (Hsp a Ha) as (A0 & A1 & EA). destruct (Hsp c Hc) as (B0 & B1 & EC).
  set (a0 := a mod 2 ^ 32) in *. set (a1 := a / 2 ^ 32) in *. set (b0 := c mod 2 ^ 32) in *. set (b1 := c / 2 ^ 32) in *.
  destruct (four_products a0 a1 b0 b1 A0 A1 B0 B1) as (Hhi & Hcy & Hlt & Hlo). rewrite EA, EC, Hhi, Hlo.
  rewrite Hhi in Hlt. clearbody a0 a1 b0 b1.
  assert (0 <= a0 * b0 < 2 ^ 64 /\ 0 <= a0 * b1 < 2 ^ 64 /\ 0 <= a1 * b0 < 2 ^ 64 /\ 0 <= a1 * b1 < 2 ^ 64)
    as (P0 & P1 & P2 & P3) by nia.
  rewrite !(wrap_small 64 (_ * _)) by assumption.
  set (p0 := a0 * b0) in *. set (p1 := a0 * b1) in *. set (p2 := a1 * b0) in *. set (p3 := a1 * b1) in *.
  clearbody p0 p1 p2 p3. pose proof (Hsp p0 P0). pose proof (Hsp p1 P1). pose proof (Hsp p2 P2). clear Hsp.
  rewrite (wrap_small 64 (p0 / 2 ^ 32 + p1 mod 2 ^ 32)) by lia.
  rewrite (wrap_small 64 (p0 / 2 ^ 32 + p1 mod 2 ^ 32 + p2 mod 2 ^ 32)) by lia.
  set (cy := (p0 / 2 ^ 32 + p1 mod 2 ^ 32 + p2 mod 2 ^ 32) / 2 ^ 32) in *.
  rewrite (Z.mod_small cy (2 ^ 32)) by lia.
  rewrite (wrap_small 64 (p3 + p1 / 2 ^ 32)), (wrap_small 64 (p3 + p1 / 2 ^ 32 + p2 / 2 ^ 32)) by lia.
  rewrite (wrap_small 64 (p3 + p1 / 2 ^ 32 + p2 / 2 ^ 32 + cy)) by lia.
  do 2 f_equal. unfold wrap. rewrite !Z.shiftl_mul_pow2 by lia.
  by rewrite (Z.add_mod_idemp_r p0), Z.add_mod_idemp_r, Z.add_mod_idemp_l by lia.
Qed.

End Proofs.

(** ** Properties *)

(** the portable four-product multiplication of [Cpu32/BigNumWordMul64.c]
    returns the same low and high words as the 128-bit multiplication of
    [Cpu64/BigNumWordMul64.c], namely the double-word product. *)
Theorem WordMul64_portable (B : BnBuild) (HB : BnBuildOk B) (a c : Z) :
  OC_BN_WORD_SIZE = 8 -> 0 <= a < 2 ^ 64 -> 0 <= c < 2 ^ 64 ->
  BigNumWordMul64_Cpu32 a c = BigNumWordMul a c /\
  BigNumWordMul a c = Ret ((a * c) mod 2 ^ 64, a * c / 2 ^ 64).
Proof.
  intros E Ha Hc. assert (OC_BN_WORD_NUM_BITS = 64) as Ew by (unfold OC_BN_WORD_NUM_BITS; lia).
  assert (BigNumWordMul a c = Ret ((a * c) mod 2 ^ 64, a * c / 2 ^ 64)) as H.
  { rewrite <- Ew in *. by apply WordMul_spec. }
  split; [|done]. rewrite H. by apply WordMul64_Cpu32_spec.
Qed.

(** [BigNumSub] computes the difference modulo [2^(w n)] for operands that
    are the result buffer itself or do not overlap it, and changes nothing else. *)
Theorem Sub_modular (B : BnBuild) (HB : BnBuildOk B) (m : mem) (R : loc) (n : Z) (A C : loc) :
  let w := OC_BN_WORD_NUM_BITS in
  0 < n -> buffer w m R n -> buffer w m A n -> buffer w m C n ->
  same_or_apart R n A -> same_or_apart R n C ->
  exists m', BigNumSub m R n A C = Ret m' /\ unchanged_but m m' R n /\ buffer w m' R n /\
    value w m' R n = (value w m A n - value w m C n) mod 2 ^ (w * n).
Proof. apply Sub_spec. Qed.

(** [BigNumParseBuffer] stores the number whose big-endian digits are the
    bytes of the buffer. *)
Theorem ParseBuffer_big_endian (B : BnBuild) (HB : BnBuildOk B) (m : mem) (R : loc) (n : Z) (Buffer : list Z) :
  let w := OC_BN_WORD_NUM_BITS in
  0 < n < 2 ^ 16 -> buffer w m R n -> Z.of_nat (length Buffer) = n * OC_BN_WORD_SIZE -> Forall is_byte Buffer ->
  exists m', BigNumParseBuffer m R n Buffer (n * OC_BN_WORD_SIZE) = Ret m' /\
    unchanged_but m m' R n /\ buffer w m' R n /\ value w m' R n = be_value Buffer.
Proof. apply ParseBuffer_spec. Qed.

(** ** Witnesses *)

(** The 64-bit and 32-bit builds. *)
Definition build64 (asserts : bool) : BnBuild := {| OC_BN_WORD_SIZE := 8; asserts_enabled := asserts |}.
Definition build32 (asserts : bool) : BnBuild := {| OC_BN_WORD_SIZE := 4; asserts_enabled := asserts |}.
#[export] Instance build64_ok a : BnBuildOk (build64 a) := or_intror eq_refl.
#[export] Instance build32_ok a : BnBuildOk (build32 a) := or_introl eq_refl.

(** A checkable form of [buffer]. *)
Definition buffer_check (w : Z) (m : mem) (p : loc) (n : Z) : bool :=
  forallb (fun k => match m !! (p +ₗ k) with Some x => bool_decide (0 <= x < 2 ^ w) | None => false end) (seqZ 0 n).

Lemma buffer_checked w m p n : buffer_check w m p n = true -> buffer w m p n.
Proof.
  unfold buffer_check. rewrite forallb_forall. intros H k Hk. specialize (H k).
  destruct (m !! (p +ₗ k)) as [x|] eqn:E.
  - exists x. split; [done|]. eapply bool_decide_eq_true_1, H. apply list_elem_of_In, elem_of_seqZ. lia.
  - exfalso. assert (false = true) as [=]. apply H, list_elem_of_In, elem_of_seqZ. lia.
Qed.

Lemma WordMul64_portable_witness :
  @BigNumWordMul64_Cpu32 (build64 true) (2 ^ 64 - 1) (2 ^ 64 - 3) = @BigNumWordMul (build64 true) (2 ^ 64 - 1) (2 ^ 64 - 3) /\
  @BigNumWordMul (build64 true) (2 ^ 64 - 1) (2 ^ 64 - 3) =
    Ret (((2 ^ 64 - 1) * (2 ^ 64 - 3)) mod 2 ^ 64, (2 ^ 64 - 1) * (2 ^ 64 - 3) / 2 ^ 64).
Proof. apply (WordMul64_portable (build64 true) _ (2 ^ 64 - 1) (2 ^ 64 - 3)); [reflexivity|lia|lia]. Defined.

(** Two words in place: [2^64 - 1] is subtracted from [2^64]. *)
Definition sub_mem : mem := alloc (1, 0) [0; 1] (alloc (2, 0) [2 ^ 64 - 1; 0] ∅).

Lemma Sub_modular_witness :
  exists m', @BigNumSub (build64 true) sub_mem (1, 0) 2 (1, 0) (2, 0) = Ret m' /\
    unchanged_but sub_mem m' (1, 0) 2 /\ buffer 64 m' (1, 0) 2 /\
    value 64 m' (1, 0) 2 = (value 64 sub_mem (1, 0) 2 - value 64 sub_mem (2, 0) 2) mod 2 ^ (64 * 2).
Proof.
  apply (Sub_modular (build64 true) _ sub_mem (1, 0) 2 (1, 0) (2, 0));
    [lia|apply buffer_checked; vm_compute; reflexivity..|left; reflexivity|right; left; discriminate].
Defined.

Lemma ParseBuffer_big_endian_witness :
  exists m', @BigNumParseBuffer (build32 true) (alloc (1, 0) [0; 0] ∅) (1, 0) 2 [1; 2; 3; 4; 5; 6; 7; 8] (2 * 4) = Ret m' /\
    unchanged_but (alloc (1, 0) [0; 0] ∅) m' (1, 0) 2 /\ buffer 32 m' (1, 0) 2 /\
    value 32 m' (1, 0) 2 = be_value [1; 2; 3; 4; 5; 6; 7; 8].
Proof.
  apply (ParseBuffer_big_endian (build32 true) _ (alloc (1, 0) [0; 0] ∅) (1, 0) 2 [1; 2; 3; 4; 5; 6; 7; 8]);
    [lia|apply buffer_checked; vm_compute; reflexivity|reflexivity|repeat constructor; lia].
Defined.

End BigNum.
