(* ===== verification/BigNumMod.v ===== *)
(** * Big number remainder: [BigNumMod] of [Library/OcCryptoLib/BigNumPrimitives.c]

    The shift-and-subtract division with the two numbers it keeps in one scratch
    buffer. The theorem covers every build: a RELEASE build (assertions compiled
    out) always returns the remainder; a DEBUG build either returns it or stops
    in the assertion of the in-place right shift, which [RightShift_asserts]
    characterises. *)
From stdpp Require Import gmap.
From S2P Require Import Prelude WordMemory BigNumPrimitives.

Module BigNumMod.
Import BigNum.

Section Model.
Context {Build : BnBuild}.
Abbreviation w := OC_BN_WORD_NUM_BITS.

(** ** Model *)

(** An [ASSERT] whose argument calls a function: evaluated in DEBUG builds only. *)
Definition ASSERT_expr (b : outcome bool) : outcome unit :=
  if asserts_enabled then x ← b; assert x else Ret tt.

(** The variables of the loop; [BigDiv] and [ModTmp] point into [mod_mem]. *)
Record mod_state : Type := ModState {
  mod_mem : mem;
  SigWordsModTmp : Z;
  SigBitsModTmp : Z;
  BigDivExp : Z;
  SigBitsBigDiv : Z;
  SigWordsBigDiv : Z
}.

(** The words and bits of a number, with the assertion that follows each of the
    two computations. *)
Definition MeasureModTmp (m : mem) (A : loc) (NumWords : Z) : outcome (Z * Z) :=
  Index ← BigNumMostSignificantWord m A NumWords;
  a ← ld m A Index;
  b ← BigNumSignificantBitsWord a;
  let SigBits := Index *[32] w +[32] b in
  let SigWords := Index +[16] 1 in
  ASSERT_expr (x ← BigNumSignificantBits m A SigWords; Ret (bool_decide (SigBits = x)));;
  Ret (SigWords, SigBits).

(** One iteration; [inr] is the [break] with the memory and [SigWordsModTmp]. *)
Definition ModStep (ModTmp BigDiv C : loc) (s : mod_state) : outcome (mod_state + mem * Z) :=
  let m := mod_mem s in
  let SigWordsModTmp := SigWordsModTmp s in
  let SigBitsModTmp := SigBitsModTmp s in
  let BigDivExp := BigDivExp s in
  let SigBitsBigDiv := SigBitsBigDiv s in
  let SigWordsBigDiv := SigWordsBigDiv s in
  ASSERT (bool_decide (SigWordsModTmp = SigWordsBigDiv \/ SigWordsModTmp = SigWordsBigDiv + 1));;
  CmpResult ←
    (if decide (SigWordsBigDiv < SigWordsModTmp) then
       ASSERT_expr (x ← ld m ModTmp (SigWordsModTmp - 1); Ret (bool_decide (x <> 0)));;
       Ret 1
     else BigNumCmp m ModTmp SigWordsBigDiv BigDiv);
  if decide (0 <= CmpResult) then
    m ← BigNumSub m ModTmp SigWordsModTmp ModTmp BigDiv;
    if decide (BigDivExp = 0) then
      ASSERT_expr (x ← BigNumCmp m BigDiv SigWordsBigDiv C; Ret (bool_decide (x = 0)));;
      Ret (inr (m, SigWordsModTmp))
    else
    '(SigWordsModTmp, SigBitsModTmp) ← MeasureModTmp m ModTmp SigWordsModTmp;
    ASSERT (bool_decide (SigBitsModTmp <= SigBitsBigDiv));;
    let DeltaBits := SigBitsBigDiv -[32] SigBitsModTmp in
    if decide (BigDivExp < DeltaBits) then Ret (inr (m, SigWordsModTmp)) else
    m ← BigNumRightShift m BigDiv SigWordsBigDiv BigDiv SigWordsBigDiv DeltaBits;
    let SigWordsBigDiv := wrap 16 ((SigBitsModTmp +[32] (w - 1)) / w) in
    let SigBitsBigDiv := SigBitsModTmp in
    let BigDivExp := BigDivExp -[32] DeltaBits in
    ASSERT_expr (x ← BigNumSignificantBits m BigDiv SigWordsBigDiv; Ret (bool_decide (SigBitsBigDiv = x)));;
    Ret (inl (ModState m SigWordsModTmp SigBitsModTmp BigDivExp SigBitsBigDiv SigWordsBigDiv))
  else
    if decide (BigDivExp = 0) then
      ASSERT_expr (x ← BigNumCmp m BigDiv SigWordsBigDiv C; Ret (bool_decide (x = 0)));;
      Ret (inr (m, SigWordsModTmp))
    else
    m ← BigNumRightShiftBitsSmall m BigDiv SigWordsBigDiv 1;
    let SigBitsBigDiv := SigBitsBigDiv -[32] 1 in
    let BigDivExp := BigDivExp -[32] 1 in
    SigWordsBigDiv ←
      (if decide (SigBitsBigDiv mod w = 0) then
         ASSERT_expr (x ← ld m BigDiv (SigWordsBigDiv - 1); Ret (bool_decide (x = 0)));;
         Ret (SigWordsBigDiv -[16] 1)
       else Ret SigWordsBigDiv);
    ASSERT_expr (x ← BigNumSignificantBits m BigDiv SigWordsBigDiv; Ret (bool_decide (SigBitsBigDiv = x)));;
    Ret (inl (ModState m SigWordsModTmp SigBitsModTmp BigDivExp SigBitsBigDiv SigWordsBigDiv)).

(** The fuel exceeds twice the largest [BigDivExp] (a [UINT32]). *)
Definition BigNumMod (m : mem) (Result : loc) (NumWordsRest : Z) (A : loc) (NumWordsA : Z)
    (C : loc) (Scratch : loc) : outcome mem :=
  ASSERT (bool_decide (0 < NumWordsRest));;
  ASSERT (bool_decide (0 < NumWordsA));;
  ASSERT (bool_decide (NumWordsRest <= NumWordsA));;
  '(SigWordsModTmp, SigBitsModTmp) ← MeasureModTmp m A NumWordsA;
  let ModTmp := Scratch +ₗ 0 in
  let BigDiv := Scratch +ₗ SigWordsModTmp in
  let SigWordsBigDiv := SigWordsModTmp in
  m ← CopyMem_words m ModTmp A (OC_BN_SIZE SigWordsModTmp);
  SigBitsBigDiv ← BigNumSignificantBits m C NumWordsRest;
  ASSERT (bool_decide (SigBitsBigDiv <= SigBitsModTmp));;
  let BigDivExp := SigBitsModTmp -[32] SigBitsBigDiv in
  m ← BigNumLeftShift m BigDiv SigWordsBigDiv C NumWordsRest BigDivExp;
  let SigBitsBigDiv := SigBitsModTmp in
  ASSERT_expr (x ← BigNumSignificantBits m BigDiv SigWordsBigDiv; Ret (bool_decide (SigBitsBigDiv = x)));;
  '(m, SigWordsModTmp) ← while_bin (2 ^ 34) (ModStep ModTmp BigDiv C)
    (ModState m SigWordsModTmp SigBitsModTmp BigDivExp SigBitsBigDiv SigWordsBigDiv);
  ASSERT_expr (i ← BigNumMostSignificantWord m ModTmp SigWordsModTmp; Ret (bool_decide (i + 1 <= NumWordsRest)));;
  CopyMem_words m Result ModTmp (OC_BN_SIZE NumWordsRest).

End Model.

(** ** Specification *)

(** A run that yields a result in [Q], or stops in an assertion of a DEBUG build. *)
Definition runs {Build : BnBuild} {T} (Q : T -> Prop) (m : outcome T) : Prop :=
  match m with
  | Ret x => Q x
  | Fault AssertFailed => asserts_enabled = true
  | Fault _ => False
  end.

(** What [BigNumMod] needs of the significant bits of dividend and divisor so
    that the initial left shift fits its assertions: the leading word of the
    dividend has at most as many bits as that of the divisor. *)
Definition shiftable (w a n e : Z) : Prop :=
  0 <= e /\ a = n + e / w + (if decide (e mod w = 0) then 0 else 1) /\ (e mod w = 0 \/ 0 < e / w).

(** [s] bits need [k] words. *)
Definition words_for (w s k : Z) : Prop := w * (k - 1) < s <= w * k.

(** ** Lemmas *)
Section Proofs.
Context {Build : BnBuild} {HB : BnBuildOk Build}.
Abbreviation w := OC_BN_WORD_NUM_BITS.

Lemma runs_bind {T U} (Q : U -> Prop) (m : outcome T) (f : T -> outcome U) :
  runs (fun x => runs Q (f x)) m -> runs Q (m ≫= f).
Proof using. by destruct m. Qed.

Lemma runs_mono {T} (P Q : T -> Prop) (m : outcome T) : (forall x, P x -> Q x) -> runs P m -> runs Q m.
Proof using. intros H. destruct m; simpl; [apply H|done]. Qed.

Lemma iterate_runs {St R} (body : St -> outcome (St + R)) (I : St -> Prop) (mu : St -> Z) (Q : R -> Prop) :
  (forall s, I s -> runs (fun x => match x with inl s' => I s' /\ mu s' < mu s | inr r => Q r end) (body s)) ->
  forall fuel s, I s -> runs (fun x => match x with inl s' => I s' /\ mu s' <= mu s - Zpos fuel | inr r => Q r end)
    (iterate_ fuel body s).
Proof using.
  intros Hb fuel. induction fuel as [p IH|p IH|]; intros s Hs; simpl.
  - apply runs_bind. eapply runs_mono; [|by apply Hb]. intros [s1|r]; [|done]. intros [H1 M1].
    apply runs_bind. eapply runs_mono; [|by apply IH]. intros [s2|r]; [|done]. intros [H2 M2].
    eapply runs_mono; [|by apply IH]. intros [s3|r]; [|done]. intros [H3 M3]. split; [done|lia].
  - apply runs_bind. eapply runs_mono; [|by apply IH]. intros [s2|r]; [|done]. intros [H2 M2].
    eapply runs_mono; [|by apply IH]. intros [s3|r]; [|done]. intros [H3 M3]. split; [done|lia].
  - eapply runs_mono; [|by apply Hb]. intros [s1|r]; [|done]. intros [H1 M1]. split; [done|lia].
Qed.

Lemma while_bin_runs {St R} (body : St -> outcome (St + R)) (I : St -> Prop) (mu : St -> Z) (Q : R -> Prop) fuel s :
  (forall s, I s -> 0 <= mu s) ->
  (forall s, I s -> runs (fun x => match x with inl s' => I s' /\ mu s' < mu s | inr r => Q r end) (body s)) ->
  I s -> mu s < Zpos fuel -> runs Q (while_bin fuel body s).
Proof using.
  intros Hm Hb Hs Hf. unfold while_bin. apply runs_bind. eapply runs_mono; [|by apply (iterate_runs body I mu Q Hb)].
  intros [s'|r]; [|done]. intros [H HM]. specialize (Hm _ H). simpl. lia.
Qed.

Lemma ASSERT_expr_true b : b = Ret true -> ASSERT_expr b = Ret tt.
Proof using. intros ->. unfold ASSERT_expr. by destruct asserts_enabled. Qed.

(** A number that fits [k] words. *)
Lemma value_small m p n k :
  buffer w m p n -> 0 <= k <= n -> value w m p n < 2 ^ (w * k) ->
  value w m p k = value w m p n /\ value w m (p +ₗ k) (n - k) = 0.
Proof using HB.
  intros Hb Hk Hv. replace n with (k + (n - k)) in Hv |- * at 1 by lia.
  rewrite (value_app w w_gt0) in Hv |- * by lia.
  pose proof (vrange m p k (buffer_le w m p n k Hb ltac:(lia)) ltac:(lia)).
  pose proof (vrange m (p +ₗ k) (n - k) (buffer_sub w m p n k (n - k) Hb ltac:(lia) ltac:(lia)) ltac:(lia)).
  assert (value w m (p +ₗ k) (n - k) = 0) as E by nia. rewrite E. split; [lia|]. done.
Qed.

(** An operation on the low [k] words of a number that fits them. *)
Lemma value_low_update m m' p n k :
  buffer w m p n -> 0 <= k <= n -> value w m p n < 2 ^ (w * k) ->
  unchanged_but m m' p k -> buffer w m' p k ->
  value w m' p n = value w m' p k /\ buffer w m' p n /\ unchanged_but m m' p n.
Proof using HB.
  intros Hb Hk Hv Hu Hb'. destruct (value_small m p n k Hb Hk Hv) as [_ Hz].
  assert (forall i, k <= i < n -> m' !! (p +ₗ i) = m !! (p +ₗ i)) as Hup.
  { intros i Hi. apply Hu. rewrite in_range_add. lia. }
  split_and!.
  - replace n with (k + (n - k)) by lia. rewrite (value_app w w_gt0) by lia.
    rewrite (value_frame w m m' (p +ₗ k) (p +ₗ k) (n - k)), Hz; [lia|].
    intros i Hi. rewrite loc_add_add. apply Hup. lia.
  - intros i Hi. destruct (decide (i < k)); [apply Hb'; lia|]. rewrite Hup by lia. by apply Hb.
  - eapply unchanged_mono; [done|]. unfold in_range. lia.
Qed.

Lemma Measure_spec m A n :
  0 < n < 2 ^ 16 -> buffer w m A n ->
  exists k, MeasureModTmp m A n = Ret (k, sig_bits (value w m A n)) /\ 1 <= k <= n /\
    value w m A k = value w m A n /\ sig_bits (value w m A n) <= w * k /\
    (value w m A n <> 0 -> words_for w (sig_bits (value w m A n)) k).
Proof using HB.
  intros Hn HA. pose proof w_pos as Hw. unfold MeasureModTmp.
  destruct (MostSignificantWord_spec m A n Hn HA) as (i & -> & Hi & Hv & Hw0). simpl.
  rewrite (ld_in w m A n) by done. simpl.
  rewrite SignificantBitsWord_spec by (by apply (word_range w m A n)). simpl.
  destruct (msw_bits m A n i Hn HA Hi Hv Hw0) as [-> Hup]. rewrite (wrap_small 16) by lia.
  rewrite ASSERT_expr_true.
  2:{ rewrite SignificantBits_spec by first [lia | apply (buffer_le w m A n); [done|lia]]. simpl.
      rewrite <- Hv. by rewrite bool_decide_true. }
  exists (i + 1). split_and!; [done|lia|lia|done|done|].
  intros Hne. destruct Hw0 as [Hw0|[_ ?]]; [|done]. split; [|done].
  pose proof (vrange m A i (buffer_le w m A n i HA ltac:(lia)) ltac:(lia)) as Hri.
  pose proof (word_range w m A n i HA Hi) as Hr.
  rewrite Hv, value_S, sig_bits_top by lia. destruct (sig_bits_lower (word m A i)); lia.
Qed.

Lemma words_for_bound s k a : words_for w s k -> 0 < s <= w * a -> 1 <= k <= a.
Proof using HB. intros [H1 H2] Hs. pose proof w_pos. nia. Qed.

Lemma words_for_fits s k x : words_for w s k -> sig_bits x = s -> 0 <= x -> x < 2 ^ (w * k).
Proof using HB.
  intros [H1 H2] <- Hx. destruct (sig_bits_upper x Hx). pose proof (Z.pow_le_mono_r 2 (sig_bits x) (w * k)). lia.
Qed.

Lemma words_for_ceil s : 0 < s -> words_for w s ((s + (w - 1)) / w).
Proof using HB.
  intros Hs. pose proof w_pos. unfold words_for.
  pose proof (Z.div_mod (s + (w - 1)) w). pose proof (Z.mod_pos_bound (s + (w - 1)) w w_gt0). nia.
Qed.

(** A right shift in place by at least one word never passes the assertions. *)
Lemma RightShift_debug m A n e :
  asserts_enabled = true -> 0 < n < 2 ^ 16 -> w <= e < w * n ->
  BigNumRightShift m A n A n e = Fault AssertFailed.
Proof using HB.
  intros Ed Hn He. pose proof w_pos as Hw. pose proof pow_w_min as HW.
  pose proof (Z.mod_pos_bound e w w_gt0) as Hm.
  assert (1 <= e / w < n) as Hd by (split; [apply Z.div_le_lower_bound|apply Z.div_lt_upper_bound]; lia).
  unfold BigNumRightShift. rewrite !ASSERT_true by (apply bool_decide_true; lia). simpl.
  assert (ASSERT (bool_decide (n <= n - e / w)) = Fault AssertFailed) as Hfail.
  { unfold ASSERT. rewrite Ed, bool_decide_false by lia. done. }
  rewrite (wrap_small 8) by lia. destruct (decide (e mod w <> 0)).
  - unfold BigNumRightShiftWordsAndBits. rewrite (wrap_small w (n - e / w)) by lia. rewrite Hfail.
    by rewrite !ASSERT_true by (apply bool_decide_true; lia).
  - unfold BigNumRightShiftWords. rewrite (wrap_small w (n - e / w)), Hfail by lia.
    by rewrite !ASSERT_true by (apply bool_decide_true; lia).
Qed.

Lemma RightShift_runs m A n e :
  0 < n < 2 ^ 16 -> 0 <= e < w * n -> buffer w m A n ->
  runs (fun m' => unchanged_but m m' A n /\ buffer w m' A n /\ value w m' A n = value w m A n / 2 ^ e)
    (BigNumRightShift m A n A n e).
Proof using HB.
  intros Hn He HA. destruct (decide (asserts_enabled = false \/ e < w)) as [Hr|Hr].
  - destruct (RightShift_spec m A n e Hn He HA Hr) as (m' & -> & ?). done.
  - destruct asserts_enabled eqn:Ed; [|exfalso; auto]. rewrite RightShift_debug by (done || lia). exact Ed.
Qed.

Section Loop.
Context (m0 : mem) (Scratch C : loc) (a n vA vB : Z).
Context (Ha : 0 < n /\ n <= a /\ a < 2 ^ 16) (HC : buffer w m0 C n) (HvB : value w m0 C n = vB) (HB0 : 0 < vB).
Context (Hapart : apart Scratch (2 * a) C n).

Definition Mv (s : mod_state) : Z := value w (mod_mem s) Scratch a.
Definition Dv (s : mod_state) : Z := value w (mod_mem s) (Scratch +ₗ a) a.

(** The loop invariant: [BigDiv = B * 2^BigDivExp > ModTmp / 2], [ModTmp] is
    congruent to [A], and the four size variables are exact. *)
Record inv (s : mod_state) : Prop := {
  inv_bm : buffer w (mod_mem s) Scratch a;
  inv_bd : buffer w (mod_mem s) (Scratch +ₗ a) a;
  inv_un : unchanged_but m0 (mod_mem s) Scratch (2 * a);
  inv_exp : 0 <= BigDivExp s;
  inv_D : Dv s = vB * 2 ^ BigDivExp s;
  inv_M : Mv s mod vB = vA mod vB;
  inv_lt : Mv s < 2 * Dv s;
  inv_sd : SigBitsBigDiv s = sig_bits (Dv s);
  inv_sm : SigBitsModTmp s = sig_bits (Mv s);
  inv_wd : words_for w (SigBitsBigDiv s) (SigWordsBigDiv s);
  inv_wm : words_for w (SigBitsModTmp s) (SigWordsModTmp s);
  inv_phase : SigBitsModTmp s = SigBitsBigDiv s \/ SigBitsModTmp s = SigBitsBigDiv s + 1
}.

(** The consequences used by every step. *)
Lemma inv_facts s : inv s ->
  0 < Dv s < 2 ^ (w * a) /\ 0 < Mv s < 2 ^ (w * a) /\
  0 < SigBitsBigDiv s <= w * a /\ 0 < SigBitsModTmp s <= w * a /\
  1 <= SigWordsBigDiv s <= a /\ 1 <= SigWordsModTmp s <= a /\
  Dv s < 2 ^ (w * SigWordsBigDiv s) /\ Mv s < 2 ^ (w * SigWordsModTmp s) /\
  SigBitsBigDiv s = sig_bits vB + BigDivExp s.
Proof using HB Ha HB0.
  intros I. pose proof w_pos as Hw. pose proof (vrange _ _ _ (inv_bm s I) ltac:(lia)) as R1.
  pose proof (vrange _ _ _ (inv_bd s I) ltac:(lia)) as R2. fold (Mv s) in R1. fold (Dv s) in R2.
  assert (0 < 2 ^ BigDivExp s) by (apply Z.pow_pos_nonneg; [lia|apply I]).
  assert (0 < Dv s) by (rewrite (inv_D s I); nia).
  pose proof (sig_bits_lower (Dv s)) as [? _]; [done|]. pose proof (sig_bits_le (Dv s) (w * a)).
  pose proof (sig_bits_le (Mv s) (w * a)). pose proof (inv_sd s I). pose proof (inv_sm s I). pose proof (inv_phase s I).
  assert (Mv s <> 0) by (intros E; rewrite E in *; change (sig_bits 0) with 0 in *; lia).
  pose proof (words_for_bound _ _ a (inv_wd s I)). pose proof (words_for_bound _ _ a (inv_wm s I)).
  assert (0 <= w * a) by nia. split_and!; try lia.
  - apply (words_for_fits (SigBitsBigDiv s)); [apply I|by rewrite (inv_sd s I)|lia].
  - apply (words_for_fits (SigBitsModTmp s)); [apply I|by rewrite (inv_sm s I)|lia].
  - rewrite (inv_sd s I), (inv_D s I). apply sig_bits_shift; [done|apply I].
Qed.

(** The comparison of the step decides [BigDiv <= ModTmp]. *)
Lemma step_cmp s : inv s ->
  exists c, (if decide (SigWordsBigDiv s < SigWordsModTmp s) then
       ASSERT_expr (x ← ld (mod_mem s) Scratch (SigWordsModTmp s - 1); Ret (bool_decide (x <> 0)));; Ret 1
     else BigNumCmp (mod_mem s) Scratch (SigWordsBigDiv s) (Scratch +ₗ a)) = Ret c /\ (0 <= c <-> Dv s <= Mv s).
Proof using HB Ha HB0.
  intros I. destruct (inv_facts s I) as (D0 & M0 & SD & SM & WD & WM & FD & FM & _). pose proof w_pos as Hw.
  pose proof (inv_wd s I) as [W1 W2]. pose proof (inv_wm s I) as [W3 W4].
  assert (2 ^ (w * (SigWordsModTmp s - 1)) <= Mv s) as Htop.
  { destruct (sig_bits_lower (Mv s)) as [_ HL]; [lia|]. rewrite <- (inv_sm s I) in HL.
    etransitivity; [|exact HL]. apply Z.pow_le_mono_r; lia. }
  destruct (value_small (mod_mem s) Scratch a (SigWordsModTmp s) (inv_bm s I) ltac:(lia) FM) as [VM _].
  destruct (value_small (mod_mem s) (Scratch +ₗ a) a (SigWordsBigDiv s) (inv_bd s I) ltac:(lia) FD) as [VD _].
  case_decide as Hlt.
  - exists 1. rewrite ASSERT_expr_true.
    + split; [done|]. split; [|lia]. intros _.
      pose proof (Z.pow_le_mono_r 2 (w * SigWordsBigDiv s) (w * (SigWordsModTmp s - 1))). nia.
    + rewrite (ld_in w (mod_mem s) Scratch a) by (apply I || lia). simpl. rewrite bool_decide_true; [done|].
      intros E0. replace (SigWordsModTmp s) with (SigWordsModTmp s - 1 + 1) in VM by lia.
      rewrite value_S, E0 in VM by lia. fold (Mv s) in VM.
      pose proof (vrange (mod_mem s) Scratch (SigWordsModTmp s - 1)
        (buffer_le w (mod_mem s) Scratch a (SigWordsModTmp s - 1) (inv_bm s I) ltac:(lia)) ltac:(lia)). lia.
  - assert (SigWordsModTmp s = SigWordsBigDiv s) as Ew by (pose proof (inv_phase s I); nia).
    rewrite Cmp_spec; [|lia|eapply buffer_le; [apply I|lia]..]. rewrite <- Ew in VD |- *. rewrite VM, VD.
    fold (Mv s) (Dv s). eexists. split; [done|]. unfold cmp_sign. repeat case_decide; lia.
Qed.

(** Subtracting the divisor in place. *)
Lemma step_sub s : inv s -> Dv s <= Mv s ->
  exists m', BigNumSub (mod_mem s) Scratch (SigWordsModTmp s) Scratch (Scratch +ₗ a) = Ret m' /\
    unchanged_but (mod_mem s) m' Scratch a /\ buffer w m' Scratch a /\
    value w m' Scratch a = Mv s - Dv s /\ buffer w m' (Scratch +ₗ a) a /\ value w m' (Scratch +ₗ a) a = Dv s /\
    value w m' Scratch (SigWordsModTmp s) = Mv s - Dv s.
Proof using HB Ha HB0.
  intros I Hle. destruct (inv_facts s I) as (D0 & M0 & SD & SM & WD & WM & FD & FM & _).
  assert (apart Scratch a (Scratch +ₗ a) a) as Hap by (unfold apart, loc_add; simpl; lia).
  destruct (value_small (mod_mem s) Scratch a (SigWordsModTmp s) (inv_bm s I) ltac:(lia) FM) as [VM _].
  destruct (value_small (mod_mem s) (Scratch +ₗ a) a (SigWordsModTmp s) (inv_bd s I) ltac:(lia)) as [VD _];
    [fold (Dv s); lia|].
  destruct (Sub_spec (mod_mem s) Scratch (SigWordsModTmp s) Scratch (Scratch +ₗ a)) as (m' & -> & Hu & Hb & Hv).
  - lia.
  - eapply buffer_le; [apply I|lia].
  - eapply buffer_le; [apply I|lia].
  - eapply buffer_le; [apply I|lia].
  - by left.
  - right. unfold apart, loc_add in *. simpl. lia.
  - rewrite VM, VD in Hv. fold (Mv s) (Dv s) in Hv. rewrite Z.mod_small in Hv by lia.
    destruct (value_low_update (mod_mem s) m' Scratch a (SigWordsModTmp s) (inv_bm s I) ltac:(lia) FM Hu Hb) as (V' & B' & U').
    exists m'. split_and!; [done|done|done|lia| | |done].
    + by apply (unchanged_buffer w (mod_mem s) m' Scratch a); [..|apply I].
    + by apply (unchanged_value w (mod_mem s) m' Scratch a).
Qed.

(** The final assertion of both exits: [BigDiv = B]. *)
Lemma step_exit s m : inv s -> BigDivExp s = 0 -> unchanged_but m0 m Scratch (2 * a) ->
  buffer w m (Scratch +ₗ a) a -> value w m (Scratch +ₗ a) a = Dv s ->
  ASSERT_expr (x ← BigNumCmp m (Scratch +ₗ a) (SigWordsBigDiv s) C; Ret (bool_decide (x = 0))) = Ret tt.
Proof using HB Ha HB0 HC HvB Hapart.
  intros I E0 Hu Hb Hv. destruct (inv_facts s I) as (D0 & M0 & SD & SM & WD & WM & FD & FM & FS).
  apply ASSERT_expr_true. pose proof (inv_D s I) as ED. rewrite E0, Z.pow_0_r, Z.mul_1_r in ED.
  assert (buffer w m C n) as HCm by (by apply (unchanged_buffer w m0 m Scratch (2 * a))).
  assert (value w m C n = vB) as HCv by (rewrite <- HvB; by apply (unchanged_value w m0 m Scratch (2 * a))).
  assert (SigWordsBigDiv s <= n) as Hn.
  { apply (words_for_bound (SigBitsBigDiv s)); [apply I|]. split; [lia|]. rewrite (inv_sd s I), ED.
    apply sig_bits_le; [pose proof w_pos; nia|]. rewrite <- HCv. apply vrange; [done|lia]. }
  rewrite Cmp_spec; [|lia|eapply buffer_le; [done|lia]..].
  destruct (value_small m C n (SigWordsBigDiv s) HCm ltac:(lia)) as [-> _]; [rewrite HCv, <- ED; done|].
  destruct (value_small m (Scratch +ₗ a) a (SigWordsBigDiv s) Hb ltac:(lia)) as [-> _]; [by rewrite Hv|].
  rewrite HCv, Hv, ED. simpl. unfold cmp_sign. by rewrite !decide_False, bool_decide_true by lia.
Qed.

(** The measure of the loop: [BigDiv] is halved at least every other iteration. *)
Definition mu (s : mod_state) : Z := 2 * BigDivExp s + (if decide (Dv s <= Mv s) then 1 else 0).

Definition mod_exit (r : mem * Z) : Prop :=
  unchanged_but m0 r.1 Scratch (2 * a) /\ buffer w r.1 Scratch a /\
  value w r.1 Scratch a = vA mod vB /\ 1 <= r.2 <= a /\ value w r.1 Scratch r.2 = vA mod vB.

Lemma inv_bits_lt s : inv s -> SigBitsBigDiv s < 2 ^ 23 /\ SigBitsModTmp s < 2 ^ 23 /\ BigDivExp s < 2 ^ 23.
Proof using HB Ha HB0.
  intros I. destruct (inv_facts s I) as (_ & _ & SD & SM & _ & _ & _ & _ & FS). pose proof w_pos.
  destruct (sig_bits_lower vB HB0) as [? _]. assert (w * a <= 64 * 2 ^ 16) by nia. lia.
Qed.

Lemma mu_range s : inv s -> 0 <= mu s < 2 ^ 34.
Proof using HB Ha HB0.
  intros I. destruct (inv_bits_lt s I) as (_ & _ & L). pose proof (inv_exp s I). unfold mu. case_decide; lia.
Qed.

(** The branch that halves [BigDiv]. *)
Lemma step_halve s : inv s -> Mv s < Dv s -> BigDivExp s <> 0 ->
  exists m', BigNumRightShiftBitsSmall (mod_mem s) (Scratch +ₗ a) (SigWordsBigDiv s) 1 = Ret m' /\
    forall k, words_for w (SigBitsBigDiv s - 1) k ->
    let s' := ModState m' (SigWordsModTmp s) (SigBitsModTmp s) (BigDivExp s - 1) (SigBitsBigDiv s - 1) k in
    inv s' /\ mu s' < mu s.
Proof using HB Ha HB0.
  intros I Hlt Hne. destruct (inv_facts s I) as (D0 & M0 & SD & SM & WD & WM & FD & FM & FS). pose proof w_pos as Hw.
  destruct (RightShiftBitsSmall_spec (mod_mem s) (Scratch +ₗ a) (SigWordsBigDiv s) 1) as (m' & -> & Hu & Hb & Hv);
    [lia|lia|eapply buffer_le; [apply I|lia]|].
  destruct (value_small (mod_mem s) (Scratch +ₗ a) a (SigWordsBigDiv s) (inv_bd s I) ltac:(lia) FD) as [VD _].
  destruct (value_low_update (mod_mem s) m' (Scratch +ₗ a) a (SigWordsBigDiv s) (inv_bd s I) ltac:(lia) FD Hu Hb)
    as (V' & B' & U').
  assert (value w m' (Scratch +ₗ a) a = vB * 2 ^ (BigDivExp s - 1)) as HD.
  { rewrite V', Hv, VD. fold (Dv s). rewrite (inv_D s I). pose proof (inv_exp s I).
    replace (BigDivExp s) with (BigDivExp s - 1 + 1) at 1 by lia. rewrite Z.pow_add_r, Z.mul_assoc by lia.
    apply Z.div_mul. lia. }
  assert (Dv s = 2 * (vB * 2 ^ (BigDivExp s - 1))) as HDs.
  { rewrite (inv_D s I). pose proof (inv_exp s I).
    replace (BigDivExp s) with (BigDivExp s - 1 + 1) at 1 by lia. rewrite Z.pow_add_r by lia. lia. }
  assert (apart (Scratch +ₗ a) a Scratch a) as Hap by (unfold apart, loc_add; simpl; lia).
  assert (value w m' Scratch a = Mv s) as HM by (by apply (unchanged_value w (mod_mem s) m' (Scratch +ₗ a) a)).
  exists m'. split; [done|]. intros k Hk s'. assert (Mv s' = Mv s /\ Dv s' = vB * 2 ^ (BigDivExp s - 1)) as [EM ED] by done.
  pose proof (inv_exp s I). split.
  - constructor; simpl.
    + apply (unchanged_buffer w (mod_mem s) m' (Scratch +ₗ a) a); [done|done|apply I].
    + done.
    + eapply unchanged_trans; [apply I|]. eapply unchanged_mono; [exact U'|]. unfold in_range, loc_add. simpl. lia.
    + lia.
    + exact ED.
    + rewrite EM. apply I.
    + rewrite EM, ED. lia.
    + rewrite ED, sig_bits_shift by lia. lia.
    + rewrite EM. apply I.
    + done.
    + apply I.
    + right. destruct (inv_phase s I) as [|Hp]; [lia|]. exfalso.
      pose proof (sig_bits_mono (Mv s) (Dv s)). rewrite <- (inv_sd s I), <- (inv_sm s I) in *. lia.
  - unfold mu. rewrite EM. simpl. repeat case_decide; lia.
Qed.

(** The branch that reduces [ModTmp], after the subtraction. *)
Lemma step_reduce s m1 k :
  inv s -> Dv s <= Mv s -> BigDivExp s <> 0 ->
  unchanged_but (mod_mem s) m1 Scratch a -> buffer w m1 Scratch a -> value w m1 Scratch a = Mv s - Dv s ->
  buffer w m1 (Scratch +ₗ a) a -> value w m1 (Scratch +ₗ a) a = Dv s ->
  let b := sig_bits (Mv s - Dv s) in let Delta := SigBitsBigDiv s - b in
  (Mv s - Dv s <> 0 -> words_for w b k) -> Delta <= BigDivExp s ->
  runs (fun m' => let s' := ModState m' k b (BigDivExp s - Delta) b ((b + (w - 1)) / w) in inv s' /\ mu s' < mu s)
    (BigNumRightShift m1 (Scratch +ₗ a) (SigWordsBigDiv s) (Scratch +ₗ a) (SigWordsBigDiv s) Delta).
Proof using HB Ha HB0.
  intros I Hle Hne Hu1 Hb1 HM1 Hbd1 HD1 b Delta Hk Hdelta.
  destruct (inv_facts s I) as (D0 & M0 & SD & SM & WD & WM & FD & FM & FS). pose proof w_pos as Hw.
  pose proof (inv_exp s I) as He. pose proof (inv_wd s I) as [W1 W2]. pose proof (inv_lt s I) as Hlt.
  destruct (sig_bits_lower vB HB0) as [HsB HsB'].
  assert (b <= SigBitsBigDiv s) as HbD by (unfold b; rewrite (inv_sd s I); apply sig_bits_mono; lia).
  assert (sig_bits vB <= b) as HbB by lia.
  assert (Mv s - Dv s <> 0) as HM0 by (intros E; subst b; rewrite E in *; change (sig_bits 0) with 0 in *; lia).
  eapply runs_mono; [|apply RightShift_runs; [lia|lia|eapply buffer_le; [done|lia]]].
  intros m' (Hu & Hb & Hv). rewrite <- HD1 in FD.
  destruct (value_small m1 (Scratch +ₗ a) a (SigWordsBigDiv s) Hbd1 ltac:(lia) FD) as [VD _].
  destruct (value_low_update m1 m' (Scratch +ₗ a) a (SigWordsBigDiv s) Hbd1 ltac:(lia) FD Hu Hb) as (V' & B' & U').
  assert (value w m' (Scratch +ₗ a) a = vB * 2 ^ (BigDivExp s - Delta)) as HD.
  { rewrite V', Hv, VD, HD1, (inv_D s I).
    replace (BigDivExp s) with (BigDivExp s - Delta + Delta) at 1 by lia.
    rewrite Z.pow_add_r, Z.mul_assoc by lia. apply Z.div_mul. assert (0 < 2 ^ Delta) by (apply Z.pow_pos_nonneg; lia). lia. }
  assert (apart (Scratch +ₗ a) a Scratch a) as Hap by (unfold apart, loc_add; simpl; lia).
  assert (value w m' Scratch a = Mv s - Dv s) as HM
    by (rewrite <- HM1; by apply (unchanged_value w m1 m' (Scratch +ₗ a) a)).
  intros s'. assert (Mv s' = Mv s - Dv s /\ Dv s' = vB * 2 ^ (BigDivExp s - Delta)) as [EM ED] by done.
  assert (sig_bits (Dv s') = b) as Hsb by (rewrite ED, sig_bits_shift by lia; lia).
  assert (Mv s' < 2 * Dv s') as Hlt'.
  { assert (0 < Dv s') as HD0 by (rewrite ED; assert (0 < 2 ^ (BigDivExp s - Delta)) by (apply Z.pow_pos_nonneg; lia); nia).
    destruct (sig_bits_lower (Dv s') HD0) as [Hb0 Hlow]. destruct (sig_bits_upper (Mv s')) as [_ Hup]; [rewrite EM; lia|].
    rewrite EM in Hup |- *. fold b in Hup. rewrite Hsb in Hlow, Hb0. replace b with (b - 1 + 1) in Hup by lia.
    rewrite Z.pow_add_r in Hup by lia. lia. }
  split.
  - constructor; simpl.
    + by apply (unchanged_buffer w m1 m' (Scratch +ₗ a) a).
    + done.
    + eapply unchanged_trans; [apply I|]. eapply unchanged_trans; [|eapply unchanged_mono; [exact U'|]].
      * eapply unchanged_mono; [exact Hu1|]. unfold in_range. lia.
      * unfold in_range, loc_add. simpl. lia.
    + lia.
    + exact ED.
    + rewrite EM, (inv_D s I). rewrite <- (inv_M s I).
      replace (Mv s - vB * 2 ^ BigDivExp s) with (Mv s + - 2 ^ BigDivExp s * vB) by lia. apply Z_mod_plus_full.
    + exact Hlt'.
    + by rewrite Hsb.
    + by rewrite EM.
    + apply words_for_ceil. lia.
    + auto.
    + by left.
  - unfold mu. rewrite (decide_True (P := Dv s <= Mv s)) by done. simpl BigDivExp.
    destruct (decide (Delta = 0)) as [E0|]; [|case_decide; lia].
    rewrite decide_False; [lia|]. rewrite EM, ED. replace (BigDivExp s - Delta) with (BigDivExp s) by lia.
    rewrite <- (inv_D s I). lia.
Qed.

(** The exits of the loop. *)
Lemma exit_at s m k : inv s -> unchanged_but m0 m Scratch (2 * a) -> buffer w m Scratch a -> 1 <= k <= a ->
  value w m Scratch k = value w m Scratch a -> value w m Scratch a mod vB = Mv s mod vB ->
  value w m Scratch a < vB -> mod_exit (m, k).
Proof using HB Ha HB0.
  intros I Hu Hb Hk Hv Hm Hlt. pose proof (vrange m Scratch a Hb ltac:(lia)).
  rewrite (inv_M s I), Z.mod_small in Hm by lia. unfold mod_exit. simpl. split_and!; [done|done|done|lia|lia|congruence].
Qed.

Lemma SignificantBits_checked m p k x b :
  0 < k < 2 ^ 16 -> buffer w m p k -> value w m p k = x -> b = sig_bits x ->
  ASSERT_expr (y ← BigNumSignificantBits m p k; Ret (bool_decide (b = y))) = Ret tt.
Proof using HB.
  intros Hk Hb Hv ->. apply ASSERT_expr_true. rewrite SignificantBits_spec by done. simpl.
  by rewrite Hv, bool_decide_true.
Qed.

(** The assertion that ends an iteration. *)
Lemma inv_checked s : inv s ->
  ASSERT_expr (y ← BigNumSignificantBits (mod_mem s) (Scratch +ₗ a) (SigWordsBigDiv s);
               Ret (bool_decide (SigBitsBigDiv s = y))) = Ret tt.
Proof using HB Ha HB0.
  intros I. destruct (inv_facts s I) as (D0 & M0 & SD & SM & WD & WM & FD & FM & FS).
  destruct (value_small (mod_mem s) (Scratch +ₗ a) a (SigWordsBigDiv s) (inv_bd s I) ltac:(lia) FD) as [VD _].
  eapply SignificantBits_checked; [lia|eapply buffer_le; [apply I|lia]|exact VD|apply I].
Qed.

Lemma quot_below k q y : 0 < k -> k * (y - 1) < k * q + 1 <= k * y -> q = y - 1.
Proof using. clear. intros. nia. Qed.

(** The stripping of the top word of [BigDiv]. *)
Lemma strip_word s m' : inv s -> BigDivExp s <> 0 -> buffer w m' (Scratch +ₗ a) a ->
  value w m' (Scratch +ₗ a) a < 2 ^ (SigBitsBigDiv s - 1) ->
  exists k, (if decide ((SigBitsBigDiv s - 1) mod w = 0) then
     ASSERT_expr (x ← ld m' (Scratch +ₗ a) (SigWordsBigDiv s - 1); Ret (bool_decide (x = 0)));;
     Ret (SigWordsBigDiv s -[16] 1)
   else Ret (SigWordsBigDiv s)) = Ret k /\ words_for w (SigBitsBigDiv s - 1) k.
Proof using HB Ha HB0.
  intros I Hne Hb Hv. destruct (inv_facts s I) as (D0 & M0 & SD & SM & WD & WM & FD & FM & FS). pose proof w_pos as Hw.
  pose proof (inv_wd s I) as [W1 W2]. pose proof (inv_exp s I). destruct (sig_bits_lower vB HB0) as [? _].
  pose proof (Z.div_mod (SigBitsBigDiv s - 1) w w_ne0) as Hdm.
  case_decide as Hm.
  - assert ((SigBitsBigDiv s - 1) / w = SigWordsBigDiv s - 1) as Eq by (apply (quot_below w); lia).
    assert (SigBitsBigDiv s - 1 = w * (SigWordsBigDiv s - 1)) as E by (rewrite <- Eq; lia).
    assert (1 <= SigWordsBigDiv s - 1) by (destruct (decide (SigWordsBigDiv s = 1)) as [E1|]; [rewrite E1 in E|]; lia).
    rewrite ASSERT_expr_true.
    + simpl. rewrite wrap_small by lia. eexists. split; [done|]. unfold words_for. rewrite E. lia.
    + rewrite (ld_in w m' _ a) by (done || lia). simpl. rewrite bool_decide_true; [done|].
      rewrite E in Hv. destruct (value_small m' (Scratch +ₗ a) a (SigWordsBigDiv s - 1) Hb ltac:(lia) Hv) as [_ Hz].
      replace (a - (SigWordsBigDiv s - 1)) with (1 + (a - SigWordsBigDiv s)) in Hz by lia.
      rewrite (value_app w w_gt0), value_1, word_add, Z.add_0_r in Hz by lia.
      pose proof (word_range w m' (Scratch +ₗ a) a (SigWordsBigDiv s - 1) Hb ltac:(lia)).
      pose proof (vrange m' (Scratch +ₗ a +ₗ (SigWordsBigDiv s - 1) +ₗ 1) (a - SigWordsBigDiv s)) as Hr.
      rewrite !loc_add_add in Hr, Hz.
      assert (0 <= value w m' (Scratch +ₗ (a + (SigWordsBigDiv s - 1 + 1))) (a - SigWordsBigDiv s)) as Hr'.
      { rewrite <- loc_add_add. apply vrange; [|lia]. apply (buffer_sub w m' (Scratch +ₗ a) a); [done|lia|lia]. }
      rewrite Z.add_assoc in Hr'. pose proof pow_w_min. rewrite Z.mul_1_r, Z.add_assoc in Hz.
      assert (0 <= 2 ^ w * value w m' (Scratch +ₗ (a + (SigWordsBigDiv s - 1) + 1)) (a - SigWordsBigDiv s))
        by (apply Z.mul_nonneg_nonneg; lia). lia.
  - eexists. split; [done|]. unfold words_for. split; [|lia].
    assert (SigBitsBigDiv s - 1 <> w * (SigWordsBigDiv s - 1)); [|lia].
    intros E. apply Hm. rewrite E, Z.mul_comm. apply Z.mod_mul. lia.
Qed.

(** The iteration when [BigDiv <= ModTmp], from the subtraction on. *)
Lemma step_ge s : inv s -> Dv s <= Mv s ->
  runs (fun x => match x with inl s' => inv s' /\ mu s' < mu s | inr r => mod_exit r end)
    (m ← BigNumSub (mod_mem s) Scratch (SigWordsModTmp s) Scratch (Scratch +ₗ a);
     if decide (BigDivExp s = 0) then
       ASSERT_expr (x ← BigNumCmp m (Scratch +ₗ a) (SigWordsBigDiv s) C; Ret (bool_decide (x = 0)));;
       Ret (inr (m, SigWordsModTmp s))
     else
     '(SigWords, SigBits) ← MeasureModTmp m Scratch (SigWordsModTmp s);
     ASSERT (bool_decide (SigBits <= SigBitsBigDiv s));;
     let DeltaBits := SigBitsBigDiv s -[32] SigBits in
     if decide (BigDivExp s < DeltaBits) then Ret (inr (m, SigWords)) else
     m ← BigNumRightShift m (Scratch +ₗ a) (SigWordsBigDiv s) (Scratch +ₗ a) (SigWordsBigDiv s) DeltaBits;
     ASSERT_expr (x ← BigNumSignificantBits m (Scratch +ₗ a) (wrap 16 ((SigBits +[32] (w - 1)) / w));
                  Ret (bool_decide (SigBits = x)));;
     Ret (inl (ModState m SigWords SigBits (BigDivExp s -[32] DeltaBits) SigBits (wrap 16 ((SigBits +[32] (w - 1)) / w))))).
Proof using HB Ha HC HvB HB0 Hapart.
  intros I Hge. destruct (inv_facts s I) as (D0 & M0 & SD & SM & WD & WM & FD & FM & FS).
  destruct (inv_bits_lt s I) as (L1 & L2 & L3). pose proof (inv_exp s I) as He. pose proof (inv_lt s I) as H2.
  destruct (step_sub s I Hge) as (m1 & -> & Hu1 & Hb1 & HM1 & Hbd1 & HD1 & HMk). simpl.
  assert (unchanged_but m0 m1 Scratch (2 * a)) as Hun1.
  { eapply unchanged_trans; [apply I|]. eapply unchanged_mono; [exact Hu1|]. unfold in_range. lia. }
  assert (value w m1 Scratch a mod vB = Mv s mod vB) as Hmod.
  { rewrite HM1, (inv_D s I). replace (Mv s - _) with (Mv s + - 2 ^ BigDivExp s * vB) by lia. apply Z_mod_plus_full. }
  destruct (decide (BigDivExp s = 0)) as [E0|E0].
  { rewrite (step_exit s m1) by done. simpl. pose proof (inv_D s I) as ED. rewrite E0, Z.pow_0_r, Z.mul_1_r in ED.
    apply (exit_at s); [done|done|done|lia|congruence|done|lia]. }
  destruct (Measure_spec m1 Scratch (SigWordsModTmp s)) as (k & -> & Hk & Hkv & _ & Hkw);
    [lia|eapply buffer_le; [done|lia]|]. simpl. rewrite HMk in *. set (b := sig_bits (Mv s - Dv s)) in *.
  assert (0 <= b <= SigBitsBigDiv s) as Hb.
  { split; [apply sig_bits_upper; lia|]. rewrite (inv_sd s I). apply sig_bits_mono. lia. }
  rewrite ASSERT_true by (apply bool_decide_true; lia). simpl. rewrite (wrap_small 32 (_ - b)) by lia.
  destruct (sig_bits_lower vB HB0) as [HsB HL]. case_decide as Hd.
  - apply (exit_at s); [done|done|done|lia|by rewrite Hkv, HM1|done|].
    rewrite HM1. destruct (sig_bits_upper (Mv s - Dv s)) as [_ HU]; [lia|]. fold b in HU.
    pose proof (Z.pow_le_mono_r 2 b (sig_bits vB - 1)). lia.
  - apply runs_bind. eapply runs_mono; [|apply (step_reduce s m1 k); try done; fold b; lia].
    simpl. fold b. intros m' [I' Hmu].
    assert ((b + (w - 1)) / w <= a) as Hcb by (destruct (inv_facts _ I') as (_ & _ & _ & _ & [_ ?] & _); done).
    assert (0 <= (b + (w - 1)) / w) by (apply Z.div_pos; pose proof w_pos; lia).
    pose proof w_pos. rewrite (wrap_small 32 (b + _)), (wrap_small 16), (wrap_small 32) by lia.
    pose proof (inv_checked _ I') as Hck. simpl in Hck. rewrite Hck. done.
Qed.

Lemma ModStep_runs s : inv s ->
  runs (fun x => match x with inl s' => inv s' /\ mu s' < mu s | inr r => mod_exit r end)
    (ModStep Scratch (Scratch +ₗ a) C s).
Proof using HB Ha HC HvB HB0 Hapart.
  intros I. pose proof w_pos as Hw. destruct (inv_facts s I) as (D0 & M0 & SD & SM & WD & WM & FD & FM & FS).
  destruct (inv_bits_lt s I) as (L1 & L2 & L3). pose proof (inv_exp s I) as He.
  unfold ModStep. cbv zeta.
  rewrite (ASSERT_true (bool_decide (SigWordsModTmp s = SigWordsBigDiv s \/ SigWordsModTmp s = SigWordsBigDiv s + 1))).
  2:{ apply bool_decide_true. pose proof (inv_wd s I) as [W1 W2]. pose proof (inv_wm s I) as [W3 W4].
      pose proof (inv_phase s I) as Hph. clear - W1 W2 W3 W4 Hph Hw. nia. }
  cbn [mbind outcome_bind]. destruct (step_cmp s I) as (c & -> & Hc). cbn [mbind outcome_bind].
  destruct (decide (0 <= c)) as [Hge|Hlt]; [apply step_ge; [done|tauto]|].
  assert (Mv s < Dv s) as HltM by lia.
  destruct (decide (BigDivExp s = 0)) as [E0|E0].
  - rewrite (step_exit s (mod_mem s)) by (done || apply I). simpl.
    pose proof (inv_D s I) as ED. rewrite E0, Z.pow_0_r, Z.mul_1_r in ED.
    apply (exit_at s); [done|apply I|apply I|lia| |done|fold (Mv s); lia].
    by apply (value_small (mod_mem s) Scratch a (SigWordsModTmp s) (inv_bm s I)); [lia|].
  - destruct (step_halve s I HltM E0) as (m' & -> & Hstep). cbn [mbind outcome_bind].
    rewrite (wrap_small 32 (SigBitsBigDiv s - 1)), (wrap_small 32) by lia.
    destruct (Hstep _ (words_for_ceil (SigBitsBigDiv s - 1) ltac:(destruct (sig_bits_lower vB HB0); lia))) as [I1 _].
    destruct (strip_word s m' I E0) as (k & -> & Hk).
    + apply I1.
    + pose proof (inv_sd _ I1) as E1. destruct (inv_facts _ I1) as (D1 & _). unfold Dv in E1, D1. simpl in E1, D1.
      rewrite E1. apply sig_bits_upper. lia.
    + cbn [mbind outcome_bind]. destruct (Hstep k Hk) as [I2 Hmu]. pose proof (inv_checked _ I2) as Hck.
      simpl in Hck. rewrite Hck. simpl. done.
Qed.

End Loop.
(** The most significant word of a number below [2^(w n)]. *)
Lemma msw_bound m p k n :
  0 < k < 2 ^ 16 -> buffer w m p k -> 0 < n -> value w m p k < 2 ^ (w * n) ->
  ASSERT_expr (i ← BigNumMostSignificantWord m p k; Ret (bool_decide (i + 1 <= n))) = Ret tt.
Proof using HB.
  intros Hk Hb Hn Hv. pose proof w_pos as Hw. apply ASSERT_expr_true.
  destruct (MostSignificantWord_spec m p k Hk Hb) as (i & -> & Hi & Ev & Hne). simpl.
  rewrite bool_decide_true; [done|]. destruct Hne as [Hne|[-> _]]; [|lia].
  apply Z.le_ngt. intros Hlt. rewrite Ev, value_S in Hv by lia.
  pose proof (word_range w m p k i Hb Hi). pose proof (vrange m p i (buffer_le w m p k i Hb ltac:(lia)) ltac:(lia)).
  pose proof (Z.pow_le_mono_r 2 (w * n) (w * i)). nia.
Qed.

(** The state the loop starts with. *)
Lemma inv_init m m1 m2 Scratch a n vA vB e :
  0 < n -> n <= a < 2 ^ 16 -> 0 < vB -> sig_bits vB + e = sig_bits vA -> 0 <= e -> 0 < vA ->
  words_for w (sig_bits vA) a ->
  unchanged_but m m1 Scratch a -> buffer w m1 Scratch a -> value w m1 Scratch a = vA ->
  unchanged_but m1 m2 (Scratch +ₗ a) a -> buffer w m2 (Scratch +ₗ a) a ->
  value w m2 (Scratch +ₗ a) a = vB * 2 ^ e ->
  inv m Scratch a vA vB (ModState m2 a (sig_bits vA) e (sig_bits vA) a).
Proof using HB.
  intros Hn Ha HB0 Hs He HA Hwf Hu1 Hb1 Hv1 Hu2 Hb2 Hv2.
  assert (apart (Scratch +ₗ a) a Scratch a) as Hap by (unfold apart, loc_add; simpl; lia).
  assert (value w m2 Scratch a = vA) as HM by (rewrite <- Hv1; by apply (unchanged_value w m1 m2 (Scratch +ₗ a) a)).
  assert (sig_bits (vB * 2 ^ e) = sig_bits vA) as Hsb by (rewrite sig_bits_shift by lia; lia).
  constructor; unfold Mv, Dv; simpl; rewrite ?HM, ?Hv2; try done; try lia.
  - by apply (unchanged_buffer w m1 m2 (Scratch +ₗ a) a).
  - eapply unchanged_trans; (eapply unchanged_mono; [eassumption|]); unfold in_range, loc_add; simpl; lia.
  - assert (0 < 2 ^ e) by (apply Z.pow_pos_nonneg; lia).
    destruct (sig_bits_lower (vB * 2 ^ e)) as [H0 HL]; [nia|]. destruct (sig_bits_upper vA) as [_ HU]; [lia|].
    rewrite Hsb in HL, H0. replace (sig_bits vA) with (sig_bits vA - 1 + 1) in HU by lia.
    rewrite Z.pow_add_r in HU by lia. lia.
Qed.

Lemma Mod_runs m R n A nA C Scratch :
  let vA := value w m A nA in let vB := value w m C n in
  0 < n <= nA -> nA < 2 ^ 16 -> buffer w m R n -> buffer w m A nA -> buffer w m C n -> buffer w m Scratch (2 * nA) ->
  apart Scratch (2 * nA) A nA -> apart Scratch (2 * nA) C n -> apart Scratch (2 * nA) R n ->
  0 < vB -> sig_bits vB <= sig_bits vA ->
  (forall a, words_for w (sig_bits vA) a -> shiftable w a n (sig_bits vA - sig_bits vB)) ->
  runs (fun m' => buffer w m' R n /\ value w m' R n = vA mod vB /\
      forall l, ~ in_range R n l -> ~ in_range Scratch (2 * nA) l -> m' !! l = m !! l)
    (BigNumMod m R n A nA C Scratch).
Proof using HB.
  intros vA vB Hn HnA HR HA HC HS HSA HSC HSR HB0 Hsig Hshift. pose proof w_pos as Hw. unfold BigNumMod.
  rewrite !ASSERT_true by (apply bool_decide_true; lia). rewrite !bind_ret. rewrite !loc_add_0.
  assert (0 < sig_bits vB) as HsB by (by apply sig_bits_lower).
  assert (0 < vA) as HA0.
  { destruct (decide (vA = 0)) as [E|]; [rewrite E in Hsig; change (sig_bits 0) with 0 in Hsig; lia|].
    pose proof (vrange m A nA HA ltac:(lia)). fold vA in H. lia. }
  destruct (Measure_spec m A nA) as (a & -> & Ha & Hva & _ & Hwf); [lia|done|]. fold vA in Hva, Hwf |- *.
  specialize (Hwf ltac:(lia)). destruct (Hshift a Hwf) as (He & Hae & Hae'). rewrite bind_ret; cbv beta iota zeta.
  set (e := sig_bits vA - sig_bits vB) in *.
  assert (n <= a) as Hna by (assert (0 <= e / w) by (apply Z.div_pos; lia); case_decide; lia).
  destruct (CopyMem_words_spec m Scratch A a) as (m1 & -> & Hu1 & Hk1);
    [lia|eapply buffer_le; [done|lia]..|]. rewrite bind_ret; cbv beta iota zeta.
  assert (buffer w m1 Scratch a) as Hb1 by (intros k Hk; rewrite Hk1 by done; apply HA; lia).
  assert (value w m1 Scratch a = vA) as Hv1 by (rewrite <- Hva; by apply value_frame).
  assert (unchanged_but m m1 Scratch (2 * nA)) as Hu1' by (eapply unchanged_mono; [done|unfold in_range; lia]).
  assert (buffer w m1 C n) as HC1 by (by apply (unchanged_buffer w m m1 Scratch (2 * nA))).
  assert (value w m1 C n = vB) as HvC by (by apply (unchanged_value w m m1 Scratch (2 * nA))).
  rewrite SignificantBits_spec, HvC by (done || lia). rewrite bind_ret; cbv beta iota zeta.
  rewrite ASSERT_true by (apply bool_decide_true; lia). rewrite bind_ret; cbv beta iota zeta. fold e.
  assert (sig_bits vA <= w * nA) as Hbits by (apply sig_bits_le; [nia|]; apply (vrange m A nA); [done|lia]).
  assert (w * nA <= 64 * 2 ^ 16) by nia. rewrite (wrap_small 32) by lia.
  destruct (LeftShift_spec m1 (Scratch +ₗ a) a C n e) as (m2 & -> & Hu2 & Hb2 & Hv2).
  { lia. } { lia. } { lia. }
  { apply (buffer_frame w m); [apply (buffer_sub w m Scratch (2 * nA)); [done|lia..]|].
    intros k Hk. apply Hu1. unfold in_range, loc_add. simpl. lia. }
  { done. } { unfold apart, loc_add in *. simpl. lia. } { done. } { done. }
  rewrite bind_ret; cbv beta iota zeta. rewrite HvC in Hv2.
  pose proof (inv_init m m1 m2 Scratch a n vA vB e ltac:(lia) ltac:(lia) HB0 ltac:(lia) He HA0 Hwf Hu1 Hb1 Hv1 Hu2 Hb2 Hv2) as I0.
  assert (apart Scratch (2 * a) C n) as HapC by (unfold apart in *; lia).
  pose proof (inv_checked m Scratch a n vA vB ltac:(lia) HB0 _ I0) as Hck. simpl in Hck. rewrite Hck. rewrite bind_ret; cbv beta iota zeta.
  apply runs_bind. eapply runs_mono.
  2:{ eapply (while_bin_runs _ (inv m Scratch a vA vB) (mu Scratch a) (mod_exit m Scratch a vA vB)).
      - intros s I. by apply (mu_range m Scratch a n vA vB ltac:(lia) HB0).
      - intros s I. apply (ModStep_runs m Scratch C a n vA vB); [lia|done..].
      - exact I0.
      - by apply (mu_range m Scratch a n vA vB ltac:(lia) HB0). }
  intros [m3 k] (Hu3 & Hb3 & Hv3 & Hk & Hvk). simpl in *.
  pose proof (Z.mod_pos_bound vA vB HB0). pose proof (vrange m C n HC ltac:(lia)) as HrB. fold vB in HrB.
  rewrite msw_bound; [|lia|eapply buffer_le; [done|lia]|lia|lia]. simpl.
  assert (unchanged_but m m3 Scratch (2 * nA)) as Hu3' by (eapply unchanged_mono; [done|unfold in_range; lia]).
  destruct (CopyMem_words_spec m3 R Scratch n) as (m4 & -> & Hu4 & Hk4).
  { lia. } { by apply (unchanged_buffer w m m3 Scratch (2 * nA)). } { eapply buffer_le; [done|lia]. }
  simpl. split_and!.
  - intros i Hi. rewrite Hk4 by done. apply Hb3. lia.
  - rewrite (value_frame w m3 m4 Scratch R n Hk4), <- Hv3.
    apply (value_small m3 Scratch a n Hb3); [lia|lia].
  - intros l Hl1 Hl2. rewrite Hu4, Hu3' by done. done.
Qed.

End Proofs.

(** ** Properties *)

(** C38: for a divisor that is not zero and has at most as many significant bits as the
    dividend, in buffers apart from the scratch buffer, and if the shift of the divisor
    to the top of the dividend fits the assertions of [BigNumLeftShift] ([shiftable]; it
    does for the dividends of [BigNumCalculateMontParams]),
    [BigNumMod] in a RELEASE build returns, stores the remainder of the dividend by the
    divisor and touches only the result and the scratch buffer; in a DEBUG build it does
    the same or stops in an assertion. *)
Theorem Mod_remainder (Build : BnBuild) (HB : BnBuildOk Build) (m : mem) (R : loc) (n : Z) (A : loc) (nA : Z) (C Scratch : loc) :
  let w := OC_BN_WORD_NUM_BITS in let vA := value w m A nA in let vB := value w m C n in
  0 < n <= nA -> nA < 2 ^ 16 -> buffer w m R n -> buffer w m A nA -> buffer w m C n -> buffer w m Scratch (2 * nA) ->
  apart Scratch (2 * nA) A nA -> apart Scratch (2 * nA) C n -> apart Scratch (2 * nA) R n ->
  0 < vB -> sig_bits vB <= sig_bits vA ->
  (forall a, words_for w (sig_bits vA) a -> shiftable w a n (sig_bits vA - sig_bits vB)) ->
  (exists m', BigNumMod m R n A nA C Scratch = Ret m' /\ buffer w m' R n /\ value w m' R n = vA mod vB /\
     forall l, ~ in_range R n l -> ~ in_range Scratch (2 * nA) l -> m' !! l = m !! l) \/
  (asserts_enabled = true /\ BigNumMod m R n A nA C Scratch = Fault AssertFailed).
Proof.
  intros w vA vB H1 H2 H3 H4 H5 H6 H7 H8 H9 H10 H11 H12.
  pose proof (Mod_runs m R n A nA C Scratch H1 H2 H3 H4 H5 H6 H7 H8 H9 H10 H11 H12) as H.
  destruct (BigNumMod m R n A nA C Scratch) as [m'|[| |]]; simpl in H; [left; eauto|done|right; done|done].
Qed.

(** The in-place right shift that [BigNumMod] calls stops in its own
    assertion ([NumWordsA - NumWords >= NumWordsResult]) for every shift by one
    word or more, although the code below the assertion computes that shift. *)
Theorem RightShift_asserts (Build : BnBuild) (HB : BnBuildOk Build) (m : mem) (A : loc) (n e : Z) :
  let w := OC_BN_WORD_NUM_BITS in
  0 < n < 2 ^ 16 -> w <= e < w * n -> buffer w m A n ->
  if asserts_enabled then BigNumRightShift m A n A n e = Fault AssertFailed
  else exists m', BigNumRightShift m A n A n e = Ret m' /\ value w m' A n = value w m A n / 2 ^ e.
Proof.
  intros w Hn He HA. destruct asserts_enabled eqn:Ed; [by apply RightShift_debug|].
  assert (0 <= e < OC_BN_WORD_NUM_BITS * n) as He' by (pose proof w_gt0; subst w; lia).
  destruct (RightShift_spec m A n e Hn He' HA) as (m' & -> & _ & _ & Hv); [by left|]. eauto.
Qed.

(** ** Witnesses *)
Definition mod_mem0 : mem :=
  alloc (1, 0) [0; 0] (alloc (2, 0) [0; 0; 0; 0; 1] (alloc (3, 0) [3; 2 ^ 63] (alloc (4, 0) (replicate 10 0) ∅))).

Lemma Mod_remainder_witness :
  (exists m', @BigNumMod (build64 false) mod_mem0 (1, 0) 2 (2, 0) 5 (3, 0) (4, 0) = Ret m' /\ buffer 64 m' (1, 0) 2 /\
     value 64 m' (1, 0) 2 = value 64 mod_mem0 (2, 0) 5 mod value 64 mod_mem0 (3, 0) 2 /\
     forall l, ~ in_range (1, 0) 2 l -> ~ in_range (4, 0) (2 * 5) l -> m' !! l = mod_mem0 !! l) \/
  (false = true /\ @BigNumMod (build64 false) mod_mem0 (1, 0) 2 (2, 0) 5 (3, 0) (4, 0) = Fault AssertFailed).
Proof.
  apply (Mod_remainder (build64 false) _ mod_mem0 (1, 0) 2 (2, 0) 5 (3, 0) (4, 0)).
  1,2: lia.
  1,2,3,4: apply buffer_checked; vm_compute; reflexivity.
  1,2,3: left; discriminate.
  1,2: vm_compute; congruence.
  intros a Ha. change (@OC_BN_WORD_NUM_BITS (build64 false)) with 64 in *.
  assert (sig_bits (value 64 mod_mem0 (2, 0) 5) = 257) as E by (vm_compute; reflexivity).
  rewrite E in Ha. unfold words_for in Ha. assert (a = 5) as -> by lia.
  split; [vm_compute; congruence|]. split; [vm_compute; reflexivity|right; vm_compute; reflexivity].
Defined.

Lemma RightShift_asserts_witness :
  @BigNumRightShift (build64 true) mod_mem0 (2, 0) 5 (2, 0) 5 64 = Fault AssertFailed.
Proof.
  apply (RightShift_asserts (build64 true) _ mod_mem0 (2, 0) 5 64); [lia|vm_compute; split; congruence|].
  apply buffer_checked. vm_compute. reflexivity.
Defined.

End BigNumMod.
