(* ===== verification/BigNumMontgomery.v ===== *)
(** * Montgomery arithmetic: [Library/OcCryptoLib/BigNumMontgomery.c]

    The word inverse, the Montgomery product and its specialisation for a factor
    of one, the parameters of a modulus and the modular exponentiation that RSA
    verification uses. [cong N] is congruence modulo [N], a setoid whose
    morphisms carry the algebra of the exponentiation. *)
From Stdlib Require Import Zdivisibility.
From stdpp Require Import gmap.
From S2P Require Import Prelude WordMemory BigNumPrimitives BigNumMod.

Module Montgomery.
Import BigNum BigNumMod.

Section Model.
Context {Build : BnBuild}.
Abbreviation w := OC_BN_WORD_NUM_BITS.

(** ** Model *)

(** [2^w mod A0] and [2^w / A0] by the subtraction loop; the loop state is
    [Dividend] and [Div]. *)
Definition UnrolledDivision (Divisor : Z) : outcome (Z * Z) :=
  while_bin (2 ^ 65)
    (fun s =>
       let '(Dividend, Div) := s in
       let Dividend := Dividend -[w] Divisor in
       let Div := Div +[w] 1 in
       if decide (Divisor <= Dividend) then Ret (inl (Dividend, Div)) else Ret (inr (Dividend, Div)))
    (0, 0).

(** The variables of the Euclidean loop. *)
Record euclid_state : Type := Euclid { Dividend : Z; Divisor : Z; X : Z; Y : Z }.

Definition EuclidStep (s : euclid_state) : outcome (euclid_state + euclid_state) :=
  if decide (Divisor s <> 0) then
    let Div := Dividend s / Divisor s in
    let Mod := Dividend s mod Divisor s in
    let Tmp := Y s -[w] (Div *[w] X s) in
    Ret (inl (Euclid (Divisor s) Mod Tmp (X s)))
  else Ret (inr s).

Definition BigNumMontInverse (m : mem) (A : loc) : outcome Z :=
  A0 ← ld m A 0;
  if decide (A0 = 0) then Ret 0 else
  let Divisor := A0 in
  '(Mod, Div) ← UnrolledDivision Divisor;
  s ← while_bin (2 ^ 65) EuclidStep (Euclid Divisor Mod (0 -[w] Div) 1);
  if decide (Dividend s <> 1) then Ret 0 else Ret (0 -[w] Y s).

Definition OC_BN_MAX_LEN : Z := wrap 16 (65536 / OC_BN_WORD_SIZE).
Definition OC_BN_MONT_MAX_LEN : Z := OC_BN_MAX_LEN / 2 - 1.
Definition OC_BN_MONT_RSQR_LEN (NumWords : Z) : Z := wrap 16 ((NumWords + 1) * 2).
Definition OC_BN_BITS (NumWords : Z) : Z := wrap 32 (OC_BN_SIZE NumWords) *[32] 8.

(** The memory and [N0Inv]; a zero inverse is the failure value. *)
Definition BigNumCalculateMontParams (m : mem) (RSqrMod : loc) (NumWords : Z) (N Scratch : loc)
    : outcome (mem * Z) :=
  ASSERT (bool_decide (0 < NumWords));;
  ASSERT (bool_decide (NumWords <= OC_BN_MONT_MAX_LEN));;
  N0Inv ← BigNumMontInverse m N;
  if decide (N0Inv = 0) then Ret (m, 0) else
  let NumWordsRSqr := OC_BN_MONT_RSQR_LEN NumWords in
  let RSqr := Scratch +ₗ 0 in
  let Scratch2 := Scratch +ₗ NumWordsRSqr in
  m ← ZeroMem_words m RSqr (OC_BN_SIZE NumWordsRSqr);
  let NumBits := OC_BN_BITS NumWords in
  m ← BigNumOrWord m RSqr NumWordsRSqr 1 (2 *[32] NumBits);
  m ← BigNumMod m RSqrMod NumWords RSqr NumWordsRSqr N Scratch2;
  Ret (m, N0Inv).

(** Low and high word of [C + A * D]. *)
Definition BigNumWordAddMul (C A D : Z) : outcome (Z * Z) :=
  '(Lo, ResHi) ← BigNumWordMul A D;
  let ResLo := Lo +[w] C in
  let ResHi := if decide (ResLo < C) then ResHi +[w] 1 else ResHi in
  Ret (ResLo, ResHi).

Definition BigNumWordAddMulCarry (C A D Carry : Z) : outcome (Z * Z) :=
  '(MulResLo, MulResHi) ← BigNumWordAddMul C A D;
  let MulResLo := MulResLo +[w] Carry in
  let MulResHi := if decide (MulResLo < Carry) then MulResHi +[w] 1 else MulResHi in
  Ret (MulResLo, MulResHi).

(** The loop state is the memory, [CCurMulHi] and [CCurMontHi]. *)
Definition BigNumMontMulRow (m : mem) (Result : loc) (NumWords AWord : Z) (D N : loc) (N0Inv : Z) : outcome mem :=
  ASSERT (bool_decide (0 < NumWords));;
  ASSERT (bool_decide (N0Inv <> 0));;
  r0 ← ld m Result 0;
  b0 ← ld m D 0;
  '(CCurMulLo, CCurMulHi) ← BigNumWordAddMul r0 AWord b0;
  let TFirst := CCurMulLo *[w] N0Inv in
  n0 ← ld m N 0;
  '(_, CCurMontHi) ← BigNumWordAddMul CCurMulLo TFirst n0;
  '(m, CCurMulHi, CCurMontHi) ← for_ (Z.to_nat (NumWords - 1)) 1
    (fun CompIndex s =>
       let '(m, CCurMulHi, CCurMontHi) := s in
       r ← ld m Result CompIndex;
       b ← ld m D CompIndex;
       '(CCurMulLo, CCurMulHi) ← BigNumWordAddMulCarry r AWord b CCurMulHi;
       n ← ld m N CompIndex;
       '(CCurMontLo, CCurMontHi) ← BigNumWordAddMulCarry CCurMulLo TFirst n CCurMontHi;
       m ← st m Result (CompIndex - 1) CCurMontLo;
       Ret (m, CCurMulHi, CCurMontHi))
    (m, CCurMulHi, CCurMontHi);
  let CompIndex := Z.max 1 NumWords in
  let CCurMulLo := CCurMulHi +[w] CCurMontHi in
  m ← st m Result (CompIndex - 1) CCurMulLo;
  if decide (CCurMulLo < CCurMulHi) then BigNumSub m Result NumWords Result N else Ret m.

Definition BigNumMontMul (m : mem) (Result : loc) (NumWords : Z) (A D N : loc) (N0Inv : Z) : outcome mem :=
  ASSERT (bool_decide (0 < NumWords));;
  ASSERT (bool_decide (N0Inv <> 0));;
  m ← ZeroMem_words m Result (OC_BN_SIZE NumWords);
  for_ (Z.to_nat NumWords) 0
    (fun RowIndex m => a ← ld m A RowIndex; BigNumMontMulRow m Result NumWords a D N N0Inv)
    m.

Definition BigNumMontMulRow0 (m : mem) (Result : loc) (NumWords : Z) (N : loc) (N0Inv : Z) : outcome mem :=
  ASSERT (bool_decide (0 < NumWords));;
  ASSERT (bool_decide (N0Inv <> 0));;
  r0 ← ld m Result 0;
  let TFirst := r0 *[w] N0Inv in
  n0 ← ld m N 0;
  '(_, CCurMontHi) ← BigNumWordAddMul r0 TFirst n0;
  '(m, CCurMontHi) ← for_ (Z.to_nat (NumWords - 1)) 1
    (fun CompIndex s =>
       let '(m, CCurMontHi) := s in
       r ← ld m Result CompIndex;
       n ← ld m N CompIndex;
       '(CCurMontLo, CCurMontHi) ← BigNumWordAddMulCarry r TFirst n CCurMontHi;
       m ← st m Result (CompIndex - 1) CCurMontLo;
       Ret (m, CCurMontHi))
    (m, CCurMontHi);
  let CompIndex := Z.max 1 NumWords in
  st m Result (CompIndex - 1) CCurMontHi.

Definition BigNumMontMul1 (m : mem) (Result : loc) (NumWords : Z) (A N : loc) (N0Inv : Z) : outcome mem :=
  ASSERT (bool_decide (0 < NumWords));;
  ASSERT (bool_decide (N0Inv <> 0));;
  m ← ZeroMem_words m Result (OC_BN_SIZE NumWords);
  m ← BigNumMontMulRow m Result NumWords 1 A N N0Inv;
  for_ (Z.to_nat (NumWords - 1)) 1 (fun _ m => BigNumMontMulRow0 m Result NumWords N N0Inv) m.

Definition BigNumPowMod (m : mem) (Result : loc) (NumWords : Z) (A : loc) (Exponent : Z) (N : loc) (N0Inv : Z)
    (RSqrMod ATmp : loc) : outcome (mem * bool) :=
  ASSERT (bool_decide (0 < NumWords));;
  ASSERT (bool_decide (N0Inv <> 0));;
  if decide (Exponent <> 65537 /\ Exponent <> 3) then Ret (m, false) else
  m ← BigNumMontMul m ATmp NumWords A RSqrMod N N0Inv;
  m ←
    (if decide (Exponent = 65537) then
       m ← for_ 8 0
         (fun _ m =>
            m ← BigNumMontMul m Result NumWords ATmp ATmp N N0Inv;
            BigNumMontMul m ATmp NumWords Result Result N N0Inv)
         m;
       BigNumMontMul m Result NumWords ATmp A N N0Inv
     else
       m ← BigNumMontMul m Result NumWords ATmp ATmp N N0Inv;
       m ← BigNumMontMul m ATmp NumWords Result ATmp N N0Inv;
       BigNumMontMul1 m Result NumWords ATmp N N0Inv);
  c ← BigNumCmp m Result NumWords N;
  m ← (if decide (0 <= c) then BigNumSub m Result NumWords Result N else Ret m);
  Ret (m, true).

End Model.

(** ** Specification *)

(** Congruence modulo [N]. *)
Definition cong (N x y : Z) : Prop := (N | x - y).

(** [N0Inv] is the negated inverse of the low word of [N]. *)
Definition mont_inverse (w n0 N0Inv : Z) : Prop :=
  0 < N0Inv < 2 ^ w /\ (2 ^ w | n0 * N0Inv + 1).

(** ** Lemmas *)

#[export] Instance cong_equiv N : Equivalence (cong N).
Proof.
  unfold cong. split.
  - intros x. rewrite Z.sub_diag. apply Z.divide_0_r.
  - intros x y H. replace (y - x) with (- (x - y)) by lia. by apply Z.divide_opp_r.
  - intros x y z H1 H2. replace (x - z) with ((x - y) + (y - z)) by lia. by apply Z.divide_add_r.
Qed.

#[export] Instance cong_add N : Proper (cong N ==> cong N ==> cong N) Z.add.
Proof.
  intros x x' Hx y y' Hy. unfold cong in *. replace (x + y - (x' + y')) with ((x - x') + (y - y')) by lia.
  by apply Z.divide_add_r.
Qed.

#[export] Instance cong_sub N : Proper (cong N ==> cong N ==> cong N) Z.sub.
Proof.
  intros x x' Hx y y' Hy. unfold cong in *. replace (x - y - (x' - y')) with ((x - x') - (y - y')) by lia.
  by apply Z.divide_sub_r.
Qed.

#[export] Instance cong_mul N : Proper (cong N ==> cong N ==> cong N) Z.mul.
Proof.
  intros x x' Hx y y' Hy. unfold cong in *. replace (x * y - x' * y') with ((x - x') * y + x' * (y - y')) by lia.
  apply Z.divide_add_r; [by apply Z.divide_mul_l|by apply Z.divide_mul_r].
Qed.

Lemma cong_multiple N x k : cong N (x + k * N) x.
Proof. unfold cong. exists k. lia. Qed.

Lemma cong_cancel N r x y : Z.gcd N r = 1 -> cong N (r * x) (r * y) -> cong N x y.
Proof.
  unfold cong. intros Hg H. rewrite <- Z.mul_sub_distr_l in H. by apply (Z.gauss N r).
Qed.

Lemma cong_mod N x y : 0 < N -> cong N x y -> 0 <= x < N -> x = y mod N.
Proof.
  unfold cong. intros HN [k Hk] Hx. apply Z.mod_unique with (- k); lia.
Qed.

Section Proofs.
Context {Build : BnBuild} {HB : BnBuildOk Build}.
Abbreviation w := OC_BN_WORD_NUM_BITS.
Abbreviation W := (2 ^ OC_BN_WORD_NUM_BITS).

Lemma W_pos : 0 < W.
Proof using HB. pose proof pow_w_min. lia. Qed.

Lemma W_ne0 : W <> 0.
Proof using HB. pose proof W_pos. lia. Qed.

(** *** The word inverse *)
Lemma UnrolledDivision_spec d :
  0 < d < W -> UnrolledDivision d = Ret (W mod d, wrap w (W / d)).
Proof using HB.
  intros Hd. pose proof W_pos as HW. unfold UnrolledDivision.
  oc_while_bin (fun s : Z * Z => exists k, 0 <= k /\ s.2 = wrap w k /\
       (k = 0 /\ s.1 = 0 \/ 0 < k /\ s.1 = W - k * d /\ d <= s.1))
    (fun s : Z * Z => if decide (s.1 = 0) then W else s.1)
    (fun r => r = (W mod d, wrap w (W / d))) as r Hr; [| | | |by subst].
  - intros [x q] (k & Hk & _ & [[_ Hx]|(_ & _ & Hx)]); simpl in *; case_decide; lia.
  - intros [x q] (k & Hk & Hq & Hc). simpl in *. subst q.
    assert (exists y, x -[w] d = y /\ y = W - (k + 1) * d /\ 0 <= y < W) as (y & Ey & Ey' & Hy).
    { destruct Hc as [[-> ->]|(Hk0 & -> & Hx)].
      - exists (W - d). rewrite wrap_neg by lia. lia.
      - eexists. rewrite wrap_small by lia. split; [done|]. nia. }
    rewrite Ey. assert (wrap w k +[w] 1 = wrap w (k + 1)) as -> by (unfold wrap; apply Z.add_mod_idemp_l; lia).
    case_decide as Hge; eexists; (split; [done|]); simpl.
    + split; [exists (k + 1); split_and!; [lia|done|right; lia]|]. destruct Hc as [[-> ->]|(Hk0 & -> & Hx)].
      * rewrite decide_False, decide_True by lia. lia.
      * rewrite !decide_False by lia. lia.
    + assert (W / d = k + 1) as -> by (symmetry; apply Z.div_unique with y; lia).
      assert (W mod d = y) as -> by (symmetry; apply Z.mod_unique with (k + 1); lia). done.
  - exists 0. simpl. split_and!; [done|by rewrite wrap_small by lia|by left].
  - simpl. pose proof w_pos. change (Z.pos (2 ^ 65)) with (2 ^ 65). apply Z.pow_lt_mono_r; lia.
Qed.

(** The state [s] of the Euclidean loop for the inverse of [a]. *)
Definition euclid_inv (a : Z) (s : euclid_state) : Prop :=
  0 < Dividend s < W /\ 0 <= Divisor s < W /\ Z.gcd (Dividend s) (Divisor s) = Z.gcd W a /\
  cong W (Y s * a) (Dividend s) /\ cong W (X s * a) (Divisor s) /\ 0 <= Y s < W /\ 0 <= X s < W.

Lemma wrap_cong x : cong W (wrap w x) x.
Proof using HB.
  unfold cong, wrap. exists (- (x / W)). pose proof (Z.div_mod x W W_ne0). lia.
Qed.

Lemma Euclid_spec a s :
  euclid_inv a s -> exists s', while_bin (2 ^ 65) EuclidStep s = Ret s' /\ euclid_inv a s' /\ Divisor s' = 0.
Proof using HB.
  intros Hs. pose proof W_pos as HW. pose proof w_pos.
  oc_while_bin (euclid_inv a) Divisor (fun s' => euclid_inv a s' /\ Divisor s' = 0) as r Hr; [| |done| |eauto].
  - intros t (_ & ? & _). lia.
  - intros t Ht. pose proof Ht as (H1 & H2 & Hg & HY & HX & HYr & HXr). unfold EuclidStep. case_decide as Hd; eexists; (split; [done|]); simpl.
    + pose proof (Z.mod_pos_bound (Dividend t) (Divisor t) ltac:(lia)). split; [|lia].
      unfold euclid_inv. simpl. split_and!; try lia; try done.
      * rewrite <- Hg. rewrite Z.gcd_comm, Z.gcd_mod, Z.gcd_comm by lia. done.
      * rewrite !wrap_cong, Z.mul_sub_distr_r, HY, <- Z.mul_assoc, HX.
        replace (Dividend t - Dividend t / Divisor t * Divisor t) with (Dividend t mod Divisor t); [done|].
        pose proof (Z.div_mod (Dividend t) (Divisor t) ltac:(lia)). lia.
      * apply wrap_range. lia.
      * apply wrap_range. lia.
    + split; [done|lia].
  - destruct Hs as (_ & ? & _). pose proof (Z.pow_lt_mono_r 2 w 65). lia.
Qed.

Lemma gcd_pow2_odd a k : 0 <= k -> Z.odd a = true -> Z.gcd (2 ^ k) a = 1.
Proof using.
  intros Hk Ho. apply Z.coprime_pow_l; [done|]. apply Z.odd_spec in Ho as [q ->].
  apply Z.coprime_Bezout. exists (- q), 1. lia.
Qed.

Lemma gcd_pow2_even a k : 0 < k -> Z.even a = true -> Z.gcd (2 ^ k) a <> 1.
Proof using.
  intros Hk He E. apply Z.even_spec in He as [q ->].
  assert ((2 | 1)) as [z Hz]; [|lia]. rewrite <- E. apply Z.gcd_greatest; [|by exists q; lia].
  exists (2 ^ (k - 1)). replace k with (k - 1 + 1) at 1 by lia. rewrite Z.pow_add_r by lia. lia.
Qed.

Lemma MontInverse_spec m A n :
  0 < n -> buffer w m A n ->
  exists r, BigNumMontInverse m A = Ret r /\
    if Z.odd (word m A 0) then mont_inverse w (word m A 0) r else r = 0.
Proof using HB.
  intros Hn HA. pose proof W_pos as HW. pose proof w_pos as Hw. unfold BigNumMontInverse.
  rewrite (ld_in w m A n) by (done || lia). rewrite bind_ret. cbv beta.
  pose proof (word_range w m A n 0 HA ltac:(lia)) as Ha. set (a := word m A 0) in *. clearbody a.
  case_decide as H0; [subst; by exists 0|].
  rewrite UnrolledDivision_spec by lia. rewrite bind_ret. cbv beta iota.
  destruct (Euclid_spec a (Euclid a (W mod a) (0 -[w] wrap w (W / a)) 1)) as (s & -> & (H1 & _ & Hg & HY & _ & HYr & _) & Hd).
  { pose proof (Z.mod_pos_bound W a ltac:(lia)). unfold euclid_inv. simpl. split_and!; try lia.
    - by rewrite Z.gcd_comm, Z.gcd_mod, Z.gcd_comm by lia.
    - by rewrite Z.mul_1_l.
    - rewrite !wrap_cong. pose proof (Z.div_mod W a ltac:(lia)). unfold cong. exists (-1). lia.
    - apply wrap_range. lia.
    - apply wrap_range. lia. }
  rewrite bind_ret. cbv beta. rewrite Hd, Z.gcd_0_r, Z.abs_eq in Hg by lia.
  destruct (Z.odd a) eqn:Ho.
  - rewrite (gcd_pow2_odd a w) in Hg by (done || lia). rewrite decide_False by lia. eexists. split; [done|].
    rewrite Hg in HY. destruct (decide (Y s = 0)) as [E|].
    { rewrite E in HY. apply Z.divide_opp_r, Z.divide_pos_le in HY; [|lia]. pose proof pow_w_min. lia. }
    rewrite wrap_neg by lia. split; [lia|]. destruct HY as [z Hz]. exists (a - z). lia.
  - rewrite decide_True; [eauto|]. rewrite Hg. apply gcd_pow2_even; [lia|]. by rewrite <- Z.negb_odd, Ho.
Qed.

(** *** Word products with carries *)

(** Adding a word to a double word that has room for it. *)
Lemma add_carry lo hi c :
  0 <= lo < W -> 0 <= c < W -> 0 <= hi -> lo + hi * W + c < W * W ->
  let lo' := lo +[w] c in let hi' := if decide (lo' < c) then hi +[w] 1 else hi in
  0 <= lo' < W /\ 0 <= hi' < W /\ lo' + hi' * W = lo + hi * W + c.
Proof using HB.
  intros Hlo Hc Hhi Hsum. pose proof W_pos as HW. cbv zeta. destruct (decide (lo + c < W)).
  - rewrite (wrap_small w (lo + c)) by lia. rewrite decide_False by lia. split; [lia|]. split; [nia|lia].
  - rewrite (wrap_over w (lo + c)) by lia. rewrite decide_True by lia. assert (hi + 1 < W) by nia.
    rewrite wrap_small by lia. lia.
Qed.

Lemma WordAddMul_spec c a d :
  0 <= c < W -> 0 <= a < W -> 0 <= d < W ->
  exists lo hi, BigNumWordAddMul c a d = Ret (lo, hi) /\ 0 <= lo < W /\ 0 <= hi < W /\ lo + hi * W = c + a * d.
Proof using HB.
  intros Hc Ha Hd. pose proof W_pos as HW. unfold BigNumWordAddMul. rewrite WordMul_spec by done. simpl.
  pose proof (Z.div_mod (a * d) W W_ne0) as Hdm. pose proof (Z.mod_pos_bound (a * d) W HW).
  destruct (add_carry ((a * d) mod W) (a * d / W) c) as (H1 & H2 & H3);
    [lia|done|apply Z.div_pos; nia|nia|].
  eexists _, _. split; [done|]. split; [done|]. split; [done|]. lia.
Qed.

Lemma WordAddMulCarry_spec c a d k :
  0 <= c < W -> 0 <= a < W -> 0 <= d < W -> 0 <= k < W ->
  exists lo hi, BigNumWordAddMulCarry c a d k = Ret (lo, hi) /\ 0 <= lo < W /\ 0 <= hi < W /\
    lo + hi * W = c + a * d + k.
Proof using HB.
  intros Hc Ha Hd Hk. unfold BigNumWordAddMulCarry.
  destruct (WordAddMul_spec c a d Hc Ha Hd) as (lo & hi & -> & Hlo & Hhi & E). simpl.
  destruct (add_carry lo hi k) as (H1 & H2 & H3); [done|done|lia|nia|].
  eexists _, _. split; [done|]. split; [done|]. split; [done|]. lia.
Qed.

(** The low word of a number. *)
Lemma value_low m p n : 0 < n -> cong W (value w m p n) (word m p 0).
Proof using HB.
  intros Hn. replace n with (1 + (n - 1)) by lia. rewrite (value_app w w_gt0), value_1, Z.mul_1_r by lia.
  exists (value w m (p +ₗ 1) (n - 1)). lia.
Qed.

(** The first digit of a Montgomery reduction vanishes. *)
Lemma mont_first x n0 ninv lo hi :
  mont_inverse w n0 ninv -> 0 <= lo < W -> lo + hi * W = x + (x *[w] ninv) * n0 -> lo = 0.
Proof using HB.
  intros [_ Hinv] Hlo E. pose proof W_pos as HW. destruct Hinv as [q Hq].
  assert (cong W lo 0) as Hc.
  { assert (cong W (lo + hi * W) (x * (n0 * ninv + 1))) as Hc.
    { rewrite E, wrap_cong. unfold cong. exists 0. lia. }
    rewrite Hq in Hc. destruct Hc as [k Hk]. exists (k - hi + x * q). lia. }
  destruct Hc as [k Hk]. destruct (decide (k = 0)); [nia|]. nia.
Qed.

Lemma mulW j : 0 <= j -> 2 ^ (w * (j + 1)) = 2 ^ (w * j) * W.
Proof using HB. intros Hj. pose proof w_pos. rewrite Z.mul_add_distr_l, Z.mul_1_r, Z.pow_add_r by lia. done. Qed.

Section Row.
Context (m : mem) (R N : loc) (n ninv : Z).
Context (Hn : 0 < n < 2 ^ 16) (HR : buffer w m R n) (HN : buffer w m N n) (HRN : apart R n N n).
Context (Hinv : mont_inverse w (word m N 0) ninv).

(** The reduction factor of a row for the accumulated value [x]. *)
Definition row_factor (x : Z) : Z := (x * ninv) mod W.

Lemma row_factor_range x : 0 <= row_factor x < W.
Proof using HB. apply Z.mod_pos_bound, W_pos. Qed.

Lemma row_factor_cong x y : cong W x y -> x *[w] ninv = row_factor y.
Proof using HB.
  intros Hxy. unfold row_factor, wrap. pose proof W_pos as HW.
  apply cong_mod; [done| |by apply Z.mod_pos_bound]. fold (wrap w (x * ninv)). by rewrite wrap_cong, Hxy.
Qed.

(** The digit loop of [BigNumMontMulRow]. *)
Lemma Row_loop D a x0 mh th :
  buffer w m D n -> same_or_apart R n D -> 0 <= a < W -> 0 <= mh < W -> 0 <= th < W ->
  let t := row_factor x0 in
  (mh + th) * W = word m R 0 + a * word m D 0 + t * word m N 0 ->
  exists m' mh' th',
    for_ (Z.to_nat (n - 1)) 1
      (fun CompIndex s =>
         let '(m, CCurMulHi, CCurMontHi) := s in
         r ← ld m R CompIndex; b ← ld m D CompIndex;
         '(CCurMulLo, CCurMulHi) ← BigNumWordAddMulCarry r a b CCurMulHi;
         n ← ld m N CompIndex;
         '(CCurMontLo, CCurMontHi) ← BigNumWordAddMulCarry CCurMulLo t n CCurMontHi;
         m ← st m R (CompIndex - 1) CCurMontLo;
         Ret (m, CCurMulHi, CCurMontHi)) (m, mh, th) = Ret (m', mh', th') /\
    0 <= mh' < W /\ 0 <= th' < W /\ unchanged_but m m' R (n - 1) /\ buffer w m' R n /\
    W * value w m' R (n - 1) + (mh' + th') * 2 ^ (w * n) = value w m R n + a * value w m D n + t * value w m N n.
Proof using HB Hn HR HN HRN.
  intros HD HRD Ha Hmh Hth t E0. pose proof W_pos as HW. pose proof (row_factor_range x0) as Ht. fold t in Ht.
  oc_for (fun (j : Z) (s : mem * Z * Z) => let '(m', mh', th') := s in
    0 <= mh' < W /\ 0 <= th' < W /\ unchanged_but m m' R (j - 1) /\ buffer w m' R n /\
    W * value w m' R (j - 1) + (mh' + th') * 2 ^ (w * j) = value w m R j + a * value w m D j + t * value w m N j) as r Hr.
  - split_and!; try lia; try done. rewrite value_0, !value_1, Z.mul_1_r. lia.
  - intros j [[m' mh'] th'] Hj (H1 & H2 & Hu & Hb & Hv).
    rewrite (ld_frame w m m' R n), (ld_frame w m m' D n), (ld_frame w m m' N n); try done; try lia.
    2:{ apply Hu. unfold apart, in_range, loc_add in *. simpl. lia. }
    2:{ eapply same_or_apart_later; [done|done|lia|lia]. }
    2:{ apply Hu. rewrite in_range_add. lia. }
    pose proof (word_range w m R n j HR ltac:(lia)) as RR. pose proof (word_range w m D n j HD ltac:(lia)) as RD.
    pose proof (word_range w m N n j HN ltac:(lia)) as RN. simpl.
    destruct (WordAddMulCarry_spec (word m R j) a (word m D j) mh' RR Ha RD H1) as (lo1 & hi1 & -> & L1 & G1 & E1). simpl.
    destruct (WordAddMulCarry_spec lo1 t (word m N j) th' L1 Ht RN H2) as (lo2 & hi2 & -> & L2 & G2 & E2). simpl.
    rewrite (st_in w m' R n) by (done || lia). simpl. eexists. split; [done|]. simpl.
    split_and!; try lia; [apply unchanged_insert; [|lia]|by apply buffer_insert|].
    + eapply unchanged_mono; [done|]. unfold in_range. lia.
    + rewrite Z.add_simpl_r. pose proof (value_snoc w m' R (j - 1) lo2 ltac:(lia)) as Hsn. rewrite Z.sub_add in Hsn.
      rewrite Hsn, (value_S w m R j), (value_S w m D j), (value_S w m N j), mulW by lia.
      replace (2 ^ (w * j)) with (2 ^ (w * (j - 1)) * W) in * by (rewrite <- mulW by lia; do 2 f_equal; lia).
      set (P := 2 ^ (w * (j - 1))) in *. clearbody P.
      transitivity (W * value w m' R (j - 1) + (lo2 + hi2 * W + hi1 * W) * (P * W)); [ring|].
      transitivity (W * value w m' R (j - 1) + (mh' + th') * (P * W) +
        (word m R j + a * word m D j + t * word m N j) * (P * W)); [|rewrite Hv; ring].
      rewrite E2. replace lo1 with (word m R j + a * word m D j + mh' - hi1 * W) by lia. ring.
  - destruct r as [[m' mh'] th']. rewrite Z2Nat.id in Hr by lia. replace (1 + (n - 1)) with n in Hr by lia.
    exists m', mh', th'. done.
Qed.

(** The top word: either the value fits, or the modulus is subtracted once. *)
Lemma Row_top m' mh th X :
  0 <= mh < W -> 0 <= th < W -> unchanged_but m m' R (n - 1) -> buffer w m' R n ->
  X = value w m' R (n - 1) + (mh + th) * 2 ^ (w * (n - 1)) -> X - value w m N n < 2 ^ (w * n) ->
  exists m'' c,
    (m1 ← st m' R (n - 1) (mh +[w] th);
     if decide (mh +[w] th < mh) then BigNumSub m1 R n R N else Ret m1) = Ret m'' /\
    unchanged_but m m'' R n /\ buffer w m'' R n /\ 0 <= c <= 1 /\ value w m'' R n = X - c * value w m N n.
Proof using HB Hn HR HN HRN.
  intros Hmh Hth Hu Hb HX Hlt. pose proof W_pos as HW. pose proof w_pos as Hw.
  rewrite (st_in w m' R n) by (done || lia). simpl.
  assert (0 <= mh +[w] th < W) as Hr by (apply wrap_range; lia).
  set (m1 := <[R +ₗ (n - 1) := mh +[w] th]> m').
  assert (buffer w m1 R n) as Hb1 by (by apply buffer_insert).
  assert (unchanged_but m m1 R n) as Hu1.
  { apply unchanged_insert; [|lia]. eapply unchanged_mono; [done|]. unfold in_range. lia. }
  pose proof (value_snoc w m' R (n - 1) (mh +[w] th) ltac:(lia)) as Hv1. rewrite Z.sub_add in Hv1. fold m1 in Hv1.
  pose proof (vrange m1 R n Hb1 ltac:(lia)) as Hr1. pose proof (vrange m N n HN ltac:(lia)) as HrN.
  assert (2 ^ (w * n) = 2 ^ (w * (n - 1)) * W) as EP by (rewrite <- mulW by lia; do 2 f_equal; lia).
  destruct (decide (mh + th < W)).
  - rewrite (wrap_small w (mh + th)) in * by lia. rewrite decide_False by lia. exists m1, 0. split_and!; try done; lia.
  - rewrite (wrap_over w (mh + th)) in * by lia. rewrite decide_True by lia.
    destruct (Sub_spec m1 R n R N) as (m2 & -> & Hu2 & Hb2 & Hv2); [lia|done|done| |by left|by right|].
    { by apply (unchanged_buffer w m m1 R n). }
    rewrite (unchanged_value w m m1 R n N n Hu1 HRN) in Hv2.
    assert (value w m1 R n = X - 2 ^ (w * n)) as Hv1' by (rewrite Hv1, HX, EP; ring).
    exists m2, 1. split_and!; try done; try lia; [by eapply unchanged_trans|].
    rewrite Hv2, Hv1'. symmetry. apply Z.mod_unique with (-1); lia.
Qed.

Lemma Row_spec D a :
  buffer w m D n -> same_or_apart R n D -> 0 <= a < W ->
  let x := value w m R n + a * value w m D n in
  exists m' c, BigNumMontMulRow m R n a D N ninv = Ret m' /\ unchanged_but m m' R n /\ buffer w m' R n /\
    0 <= c <= 1 /\ W * value w m' R n = x + row_factor x * value w m N n - c * W * value w m N n.
Proof using HB Hn HR HN HRN Hinv.
  intros HD HRD Ha x. pose proof W_pos as HW. pose proof w_pos as Hw. unfold BigNumMontMulRow.
  rewrite !ASSERT_true by (apply bool_decide_true; destruct Hinv; lia). rewrite !bind_ret.
  rewrite (ld_in w m R n), (ld_in w m D n), (ld_in w m N n) by (done || lia). rewrite !bind_ret; cbv beta.
  pose proof (word_range w m R n 0 HR ltac:(lia)) as RR. pose proof (word_range w m D n 0 HD ltac:(lia)) as RD.
  pose proof (word_range w m N n 0 HN ltac:(lia)) as RN.
  destruct (WordAddMul_spec (word m R 0) a (word m D 0) RR Ha RD) as (lo & mh & -> & Hlo & Hmh & E1). rewrite bind_ret; cbv beta iota zeta.
  assert (cong W lo x) as Hlx.
  { unfold x. rewrite (value_low m R n), (value_low m D n) by lia. rewrite <- E1. exists (- mh). lia. }
  rewrite ?bind_ret; cbv beta iota zeta. rewrite (row_factor_cong lo x Hlx). pose proof (row_factor_range x) as Ht.
  destruct (WordAddMul_spec lo (row_factor x) (word m N 0) Hlo Ht RN) as (lo' & th & -> & Hlo' & Hth & E2).
  rewrite bind_ret; cbv beta iota zeta.
  assert (lo' = 0) as -> by (eapply mont_first; [exact Hinv|exact Hlo'|]; rewrite (row_factor_cong lo x Hlx); exact E2).
  destruct (Row_loop D a x mh th HD HRD Ha Hmh Hth) as (m1 & mh' & th' & -> & Hmh' & Hth' & Hu & Hb & Hv); [lia|].
  rewrite bind_ret; cbv beta iota zeta. rewrite Z.max_r by lia.
  set (X := value w m1 R (n - 1) + (mh' + th') * 2 ^ (w * (n - 1))).
  assert (2 ^ (w * n) = 2 ^ (w * (n - 1)) * W) as EP by (rewrite <- mulW by lia; do 2 f_equal; lia).
  assert (W * X = x + row_factor x * value w m N n) as HX by (etransitivity; [|exact Hv]; unfold X; rewrite EP; ring).
  destruct (Row_top m1 mh' th' X) as (m2 & c & E & Hu2 & Hb2 & Hc & Hv2); try done.
  { pose proof (vrange m R n HR ltac:(lia)). pose proof (vrange m D n HD ltac:(lia)). pose proof (vrange m N n HN ltac:(lia)).
    set (VR := value w m R n) in *. set (VD := value w m D n) in *. set (VN := value w m N n) in *.
    set (P := 2 ^ (w * n)) in *. set (t := row_factor x) in *. assert (W * (X - VN) < W * P); [|nia].
    rewrite Z.mul_sub_distr_l, HX. unfold x. assert (a * VD <= (W - 1) * (P - 1)) by nia.
    assert (t * VN <= (W - 1) * VN) by nia. nia. }
  rewrite E. exists m2, c. split_and!; try done; lia.
Qed.

(** The digit loop of [BigNumMontMulRow0]. *)
Lemma Row0_spec :
  let x := value w m R n in
  exists m', BigNumMontMulRow0 m R n N ninv = Ret m' /\ unchanged_but m m' R n /\ buffer w m' R n /\
    W * value w m' R n = x + row_factor x * value w m N n.
Proof using HB Hn HR HN HRN Hinv.
  intros x. pose proof W_pos as HW. pose proof w_pos as Hw. unfold BigNumMontMulRow0.
  rewrite !ASSERT_true by (apply bool_decide_true; destruct Hinv; lia). rewrite !bind_ret.
  rewrite (ld_in w m R n), (ld_in w m N n) by (done || lia). rewrite !bind_ret; cbv beta zeta.
  pose proof (word_range w m R n 0 HR ltac:(lia)) as RR. pose proof (word_range w m N n 0 HN ltac:(lia)) as RN.
  assert (cong W (word m R 0) x) as Hlx by (unfold x; by rewrite (value_low m R n) by lia).
  rewrite (row_factor_cong _ x Hlx). pose proof (row_factor_range x) as Ht. set (t := row_factor x) in *.
  destruct (WordAddMul_spec (word m R 0) t (word m N 0) RR Ht RN) as (lo' & th & -> & Hlo' & Hth & E2).
  rewrite bind_ret; cbv beta iota zeta.
  assert (lo' = 0) as -> by (eapply mont_first; [exact Hinv|exact Hlo'|]; rewrite (row_factor_cong _ x Hlx); exact E2).
  oc_for (fun (j : Z) (s : mem * Z) => let '(m', th') := s in
    0 <= th' < W /\ unchanged_but m m' R (j - 1) /\ buffer w m' R n /\
    W * value w m' R (j - 1) + th' * 2 ^ (w * j) = value w m R j + t * value w m N j) as r Hr.
  - split_and!; try lia; try done. rewrite value_0, !value_1, Z.mul_1_r. lia.
  - intros j [m' th'] Hj (H2 & Hu & Hb & Hv).
    rewrite (ld_frame w m m' R n), (ld_frame w m m' N n); try done; try lia.
    2:{ apply Hu. unfold apart, in_range, loc_add in *. simpl. lia. }
    2:{ apply Hu. rewrite in_range_add. lia. }
    pose proof (word_range w m R n j HR ltac:(lia)) as RRj. pose proof (word_range w m N n j HN ltac:(lia)) as RNj. simpl.
    destruct (WordAddMulCarry_spec (word m R j) t (word m N j) th' RRj Ht RNj H2) as (lo2 & hi2 & -> & L2 & G2 & E3). simpl.
    rewrite (st_in w m' R n) by (done || lia). simpl. eexists. split; [done|]. simpl.
    split_and!; try lia; [apply unchanged_insert; [|lia]|by apply buffer_insert|].
    + eapply unchanged_mono; [done|]. unfold in_range. lia.
    + rewrite Z.add_simpl_r. pose proof (value_snoc w m' R (j - 1) lo2 ltac:(lia)) as Hsn. rewrite Z.sub_add in Hsn.
      rewrite Hsn, (value_S w m R j), (value_S w m N j), mulW by lia.
      replace (2 ^ (w * j)) with (2 ^ (w * (j - 1)) * W) in * by (rewrite <- mulW by lia; do 2 f_equal; lia).
      set (P := 2 ^ (w * (j - 1))) in *. clearbody P.
      transitivity (W * value w m' R (j - 1) + (lo2 + hi2 * W) * (P * W)); [ring|]. rewrite E3.
      transitivity (W * value w m' R (j - 1) + th' * (P * W) + (word m R j + t * word m N j) * (P * W)); [ring|].
      rewrite Hv. ring.
  - destruct r as [m1 th1]. rewrite Z2Nat.id in Hr by lia. replace (1 + (n - 1)) with n in Hr by lia.
    destruct Hr as (H2 & Hu & Hb & Hv). rewrite bind_ret; cbv beta iota zeta. rewrite Z.max_r by lia.
    rewrite (st_in w m1 R n) by (done || lia). eexists. split; [done|].
    assert (2 ^ (w * n) = 2 ^ (w * (n - 1)) * W) as EP by (rewrite <- mulW by lia; do 2 f_equal; lia).
    pose proof (value_snoc w m1 R (n - 1) th1 ltac:(lia)) as Hv1. rewrite Z.sub_add in Hv1. split_and!.
    + apply unchanged_insert; [|lia]. eapply unchanged_mono; [done|]. unfold in_range. lia.
    + by apply buffer_insert.
    + rewrite Hv1. unfold x. rewrite <- Hv, EP. ring.
Qed.

End Row.

(** *** Products *)

(** [V] is a Montgomery product of [x], up to [k] words, with [M] multiples of [N]. *)
Definition mont_rel (k x N V : Z) : Prop :=
  exists M, M < 2 ^ (w * k) /\ 2 ^ (w * k) * V = x + M * N.

Lemma mont_rel_cong k x N V : mont_rel k x N V -> cong N (2 ^ (w * k) * V) x.
Proof using. intros (M & _ & E). rewrite E. apply cong_multiple. Qed.

(** A reduction row after [k] rows; [c] is the number of final subtractions. *)
Lemma mont_rel_row k x y N V V' t c :
  0 <= k -> 0 <= N -> mont_rel k x N V -> 0 <= t < W -> 0 <= c ->
  W * V' = V + y + t * N - c * W * N ->
  mont_rel (k + 1) (x + 2 ^ (w * k) * y) N V'.
Proof using HB.
  intros Hk HN (M & HM & E) Ht Hc E'. pose proof W_pos as HW. exists (M + 2 ^ (w * k) * (t - c * W)).
  assert (0 < 2 ^ (w * k)) by (apply Z.pow_pos_nonneg; pose proof w_pos; lia). rewrite mulW by lia. split.
  - assert (2 ^ (w * k) * (t - c * W) <= 2 ^ (w * k) * (W - 1)); [|lia]. apply Z.mul_le_mono_nonneg_l; nia.
  - rewrite <- Z.mul_assoc, E'. rewrite Z.mul_sub_distr_l, !Z.mul_add_distr_l, E. ring.
Qed.

Section Product.
Context (N : loc) (n ninv : Z).

(** What a Montgomery routine needs of the modulus in memory [m]. *)
Definition modulus_ok (m : mem) : Prop :=
  0 < n < 2 ^ 16 /\ buffer w m N n /\ mont_inverse w (word m N 0) ninv.

Lemma modulus_ok_frame m m' R : modulus_ok m -> unchanged_but m m' R n -> apart R n N n -> modulus_ok m'.
Proof using HB.
  intros (Hn & HN & Hi) Hu Ha. split_and!; [lia|lia|by apply (unchanged_buffer w m m' R n)|].
  rewrite (word_frame m m' N N 0); [done|]. apply Hu, (in_range_apart R n N n); [done|lia].
Qed.

Lemma MontMul_zeroed m R :
  modulus_ok m -> buffer w m R n ->
  exists m', ZeroMem_words m R (OC_BN_SIZE n) = Ret m' /\ unchanged_but m m' R n /\ buffer w m' R n /\ value w m' R n = 0.
Proof using HB.
  intros (Hn & _) HR. destruct (ZeroMem_words_spec m R n) as (m' & -> & Hu & Hz); [lia|done|].
  exists m'. split_and!; [done|done| |by apply value_zero].
  intros k Hk. rewrite Hz by done. eexists. split; [done|]. pose proof W_pos. lia.
Qed.

Lemma MontMul_spec m R A D :
  modulus_ok m -> buffer w m R n -> buffer w m A n -> buffer w m D n ->
  apart R n N n -> apart R n A n -> apart R n D n ->
  exists m', BigNumMontMul m R n A D N ninv = Ret m' /\ unchanged_but m m' R n /\ buffer w m' R n /\
    mont_rel n (value w m A n * value w m D n) (value w m N n) (value w m' R n).
Proof using HB.
  intros Hok HR HA HD HRN HRA HRD. pose proof Hok as (Hn & HN & Hi). unfold BigNumMontMul.
  rewrite !ASSERT_true by (apply bool_decide_true; destruct Hi; lia). rewrite !bind_ret.
  destruct (MontMul_zeroed m R Hok HR) as (m0 & -> & Hu0 & Hb0 & Hv0). rewrite bind_ret; cbv beta.
  pose proof (vrange m N n HN ltac:(lia)) as HrN.
  oc_for (fun (j : Z) (m' : mem) => unchanged_but m m' R n /\ buffer w m' R n /\
     mont_rel j (value w m A j * value w m D n) (value w m N n) (value w m' R n)) as r Hr.
  - split_and!; [done|done|]. rewrite Hv0, value_0. exists 0. rewrite Z.mul_0_r. simpl. lia.
  - intros j m' Hj (Hu & Hb & Hrel).
    rewrite (ld_frame w m m' A n) by (done || lia || (apply Hu, (in_range_apart R n A n); [done|lia])).
    rewrite bind_ret; cbv beta. pose proof (modulus_ok_frame m m' R Hok Hu HRN) as (_ & HN' & Hi').
    destruct (Row_spec m' R N n ninv Hn Hb HN' HRN Hi' D (word m A j)) as (m'' & c & -> & Hu' & Hb' & Hc & E).
    { by apply (unchanged_buffer w m m' R n). } { by right. } { by apply (word_range w m A n); [|lia]. }
    eexists. split; [done|]. split_and!; [by eapply unchanged_trans|done|].
    rewrite (unchanged_value w m m' R n N n Hu HRN), (unchanged_value w m m' R n D n Hu HRD) in E.
    rewrite value_S by lia.
    replace ((value w m A j + word m A j * 2 ^ (w * j)) * value w m D n) with
      (value w m A j * value w m D n + 2 ^ (w * j) * (word m A j * value w m D n)) by ring.
    eapply mont_rel_row; [lia|lia|exact Hrel|apply (row_factor_range ninv)| |exact E]. lia.
  - rewrite Z.add_0_l, Z2Nat.id in Hr by lia. destruct Hr as (Hu & Hb & Hrel). eauto.
Qed.

(** The result buffer as multiplier: it is cleared first, so the product is zero. *)
Lemma MontMul_aliased m R A :
  modulus_ok m -> buffer w m R n -> buffer w m A n -> apart R n N n -> apart R n A n ->
  exists m', BigNumMontMul m R n A R N ninv = Ret m' /\ unchanged_but m m' R n /\ buffer w m' R n /\
    value w m' R n = 0.
Proof using HB.
  intros Hok HR HA HRN HRA. pose proof Hok as (Hn & HN & Hi). unfold BigNumMontMul. pose proof W_pos as HW.
  rewrite !ASSERT_true by (apply bool_decide_true; destruct Hi; lia). rewrite !bind_ret.
  destruct (MontMul_zeroed m R Hok HR) as (m0 & -> & Hu0 & Hb0 & Hv0). rewrite bind_ret; cbv beta.
  oc_for (fun (j : Z) (m' : mem) => unchanged_but m m' R n /\ buffer w m' R n /\ value w m' R n = 0) as r Hr;
    [done| |by eauto].
  intros j m' Hj (Hu & Hb & Hv).
  rewrite (ld_frame w m m' A n) by (done || lia || (apply Hu, (in_range_apart R n A n); [done|lia])).
  rewrite bind_ret; cbv beta. pose proof (modulus_ok_frame m m' R Hok Hu HRN) as (_ & HN' & Hi').
  destruct (Row_spec m' R N n ninv Hn Hb HN' HRN Hi' R (word m A j)) as (m'' & c & -> & Hu' & Hb' & Hc & E).
  { done. } { by left. } { by apply (word_range w m A n); [|lia]. }
  eexists. split; [done|]. split_and!; [by eapply unchanged_trans|done|].
  rewrite Hv, Z.mul_0_r, Z.add_0_r in E. unfold row_factor in E.
  pose proof (vrange m'' R n Hb' ltac:(lia)). pose proof (vrange m' N n HN' ltac:(lia)). nia.
Qed.

Lemma MontMul1_spec m R A :
  modulus_ok m -> buffer w m R n -> buffer w m A n -> apart R n N n -> apart R n A n ->
  exists m', BigNumMontMul1 m R n A N ninv = Ret m' /\ unchanged_but m m' R n /\ buffer w m' R n /\
    mont_rel n (value w m A n) (value w m N n) (value w m' R n).
Proof using HB.
  intros Hok HR HA HRN HRA. pose proof Hok as (Hn & HN & Hi). unfold BigNumMontMul1.
  rewrite !ASSERT_true by (apply bool_decide_true; destruct Hi; lia). rewrite !bind_ret.
  destruct (MontMul_zeroed m R Hok HR) as (m0 & -> & Hu0 & Hb0 & Hv0). rewrite bind_ret; cbv beta.
  pose proof (vrange m N n HN ltac:(lia)) as HrN. pose proof pow_w_min as HW.
  pose proof (modulus_ok_frame m m0 R Hok Hu0 HRN) as (_ & HN0 & Hi0).
  destruct (Row_spec m0 R N n ninv Hn Hb0 HN0 HRN Hi0 A 1) as (m1 & c & -> & Hu1 & Hb1 & Hc & E1).
  { by apply (unchanged_buffer w m m0 R n). } { by right. } { lia. }
  rewrite bind_ret; cbv beta.
  rewrite (unchanged_value w m m0 R n N n Hu0 HRN), (unchanged_value w m m0 R n A n Hu0 HRA), Hv0 in E1.
  oc_for (fun (j : Z) (m' : mem) => unchanged_but m m' R n /\ buffer w m' R n /\
     mont_rel j (value w m A n) (value w m N n) (value w m' R n)) as r Hr.
  - split_and!; [by eapply unchanged_trans|done|].
    assert (mont_rel (0 + 1) (0 + 2 ^ (w * 0) * (1 * value w m A n)) (value w m N n) (value w m1 R n)) as Hrel.
    { eapply (mont_rel_row 0 0 (1 * value w m A n) (value w m N n) 0 _ _ c);
        [lia|lia| |apply (row_factor_range ninv)|lia|exact E1]. exists 0. rewrite Z.mul_0_r. simpl. lia. }
    rewrite Z.mul_0_r, Z.pow_0_r, !Z.mul_1_l in Hrel. exact Hrel.
  - intros j m' Hj (Hu & Hb & Hrel). pose proof (modulus_ok_frame m m' R Hok Hu HRN) as (_ & HN' & Hi').
    destruct (Row0_spec m' R N n ninv Hn Hb HN' HRN Hi') as (m'' & -> & Hu' & Hb' & E).
    eexists. split; [done|]. split_and!; [by eapply unchanged_trans|done|].
    rewrite (unchanged_value w m m' R n N n Hu HRN) in E.
    replace (value w m A n) with (value w m A n + 2 ^ (w * j) * 0) by lia.
    eapply (mont_rel_row j _ 0 _ _ _ (row_factor ninv (value w m' R n)) 0); [lia|lia|exact Hrel|apply (row_factor_range ninv)|lia|]. lia.
  - rewrite Z2Nat.id in Hr by lia. replace (1 + (n - 1)) with n in Hr by lia. destruct Hr as (Hu & Hb & Hrel). eauto.
Qed.

Lemma modulus_odd m : modulus_ok m -> Z.odd (value w m N n) = true.
Proof using HB.
  intros (Hn & HN & _ & [q Hq]). destruct (value_low m N n ltac:(lia)) as [k Hk]. pose proof w_pos.
  assert (W = 2 * 2 ^ (w - 1)) as EW by (rewrite <- Z.pow_succ_r by lia; f_equal; lia).
  assert (Z.odd (word m N 0 * ninv) = true) as Ho.
  { apply Z.odd_spec. exists (q * 2 ^ (w - 1) - 1). rewrite EW in Hq. lia. }
  rewrite Z.odd_mul in Ho. apply andb_prop in Ho as [Ho _]. apply Z.odd_spec in Ho as [j Hj].
  apply Z.odd_spec. exists (j + k * 2 ^ (w - 1)). rewrite EW in Hk. lia.
Qed.

(** [2^(w n)] is invertible modulo [N]. *)
Lemma modulus_coprime m : modulus_ok m -> Z.gcd (value w m N n) (2 ^ (w * n)) = 1.
Proof using HB.
  intros Hok. rewrite Z.gcd_comm. destruct Hok as (Hn & Hok). pose proof w_pos.
  apply gcd_pow2_odd; [nia|]. apply modulus_odd. by split.
Qed.

(** The Montgomery product of two numbers in the Montgomery domain. *)
Lemma mont_rel_domain m x y a d v :
  modulus_ok m -> let Nv := value w m N n in let RR := 2 ^ (w * n) in
  mont_rel n (a * d) Nv v -> cong Nv a (x * RR) -> cong Nv d (y * RR) -> cong Nv v (x * y * RR).
Proof using HB.
  intros Hok Nv RR Hrel Ha Hd. subst RR. apply (cong_cancel Nv (2 ^ (w * n))); [by apply modulus_coprime|].
  rewrite (mont_rel_cong n (a * d) Nv v Hrel), Ha, Hd. unfold cong. exists 0. ring.
Qed.

(** The last product leaves the domain. *)
Lemma mont_rel_leave m x a d v :
  modulus_ok m -> let Nv := value w m N n in let RR := 2 ^ (w * n) in
  mont_rel n (a * d) Nv v -> cong Nv a (x * RR) -> cong Nv v (x * d).
Proof using HB.
  intros Hok Nv RR Hrel Ha. subst RR. apply (cong_cancel Nv (2 ^ (w * n))); [by apply modulus_coprime|].
  rewrite (mont_rel_cong n (a * d) Nv v Hrel), Ha. unfold cong. exists 0. ring.
Qed.

Lemma mont_rel_bound a d Nv v :
  0 <= n -> mont_rel n (a * d) Nv v -> 0 <= a < 2 ^ (w * n) -> 0 <= d -> 0 < Nv -> v < d + Nv.
Proof using HB.
  intros Hn (M & HM & E) Ha Hd HN. set (RR := 2 ^ (w * n)) in *.
  assert (a * d <= (RR - 1) * d) by nia. assert (M * Nv <= (RR - 1) * Nv) by nia.
  assert (RR * v < RR * (d + Nv)) by nia. nia.
Qed.

(** The conditional subtraction at the end of the exponentiation. *)
Lemma final_reduce m R x :
  modulus_ok m -> buffer w m R n -> apart R n N n -> let Nv := value w m N n in
  cong Nv (value w m R n) x -> value w m R n < 2 * Nv ->
  exists m', (c ← BigNumCmp m R n N; m ← (if decide (0 <= c) then BigNumSub m R n R N else Ret m); Ret (m, true)) =
    Ret (m', true) /\ unchanged_but m m' R n /\ buffer w m' R n /\ value w m' R n = x mod Nv.
Proof using HB.
  intros (Hn & HN & Hi) HR HRN Nv Hc Hlt. rewrite Cmp_spec by done. rewrite bind_ret; cbv beta.
  pose proof (vrange m R n HR ltac:(lia)) as HrR. pose proof (vrange m N n HN ltac:(lia)) as HrN. fold Nv in HrN |- *.
  unfold cmp_sign. destruct (decide (Nv <= value w m R n)).
  - rewrite decide_True by (repeat case_decide; lia).
    destruct (Sub_spec m R n R N) as (m' & -> & Hu & Hb & Hv); [lia|done|done|done|by left|by right|].
    rewrite bind_ret. exists m'. split_and!; [done|done|done|]. fold Nv in Hv. rewrite Z.mod_small in Hv by lia.
    rewrite Hv. apply cong_mod; [lia| |lia]. rewrite <- Hc. exists (-1). lia.
  - rewrite decide_False by (repeat case_decide; lia). rewrite bind_ret. exists m. split_and!; [done|done|done|].
    apply cong_mod; [lia|done|lia].
Qed.

End Product.

(** *** Exponentiation *)
Lemma pow_split x k e : 0 <= k -> e = k + 1 -> x ^ e = x ^ k * x.
Proof using. intros Hk ->. by rewrite Z.pow_add_r, Z.pow_1_r by lia. Qed.

Section PowMod.
Context (m : mem) (Res A N RSqr ATmp : loc) (n ninv : Z).
Context (Hok : modulus_ok N n ninv m).
Context (HRes : buffer w m Res n) (HA : buffer w m A n) (HS : buffer w m RSqr n) (HT : buffer w m ATmp n).
Context (HRA : apart Res n A n) (HRN : apart Res n N n) (HRT : apart Res n ATmp n) (HTA : apart ATmp n A n)
  (HTN : apart ATmp n N n) (HTS : apart ATmp n RSqr n).

Definition in_frame (m' : mem) : Prop :=
  (forall l, ~ in_range Res n l -> ~ in_range ATmp n l -> m' !! l = m !! l) /\
  buffer w m' Res n /\ buffer w m' ATmp n.

Lemma in_frame_outside m' q : in_frame m' -> apart Res n q n -> apart ATmp n q n ->
  forall k, 0 <= k < n -> m' !! (q +ₗ k) = m !! (q +ₗ k).
Proof using. intros (Hf & _) H1 H2 k Hk. apply Hf; by apply (in_range_apart _ _ _ n). Qed.

Lemma in_frame_ok m' : in_frame m' -> modulus_ok N n ninv m' /\ value w m' N n = value w m N n.
Proof using Hok HRN HTN.
  intros Hf. destruct Hok as (Hn & HN & Hi). pose proof (in_frame_outside m' N Hf HRN HTN) as HE.
  split; [|by apply value_frame]. split_and!; [lia|lia|by apply (buffer_frame w m)|].
  rewrite (word_frame m m' N N 0); [done|]. apply HE. lia.
Qed.

Lemma in_frame_A m' : in_frame m' -> buffer w m' A n /\ value w m' A n = value w m A n.
Proof using HA HRA HTA.
  intros Hf. pose proof (in_frame_outside m' A Hf HRA HTA) as HE.
  split; [by apply (buffer_frame w m)|by apply value_frame].
Qed.

Lemma in_frame_step m' m'' p : in_frame m' -> (p = Res \/ p = ATmp) -> unchanged_but m' m'' p n -> buffer w m'' p n ->
  in_frame m''.
Proof using HRT.
  intros (Hf & H1 & H2) Hp Hu Hb. split.
  - intros l Hl1 Hl2. rewrite Hu; [by apply Hf|]. by destruct Hp as [-> | ->].
  - destruct Hp as [-> | ->]; (split; [|done]) || (split; [done|]).
    + apply (unchanged_buffer w m' m'' Res n); [done|done|done].
    + apply (unchanged_buffer w m' m'' ATmp n); [done|by apply apart_sym|done].
Qed.

Abbreviation Nv := (value w m N n).
Abbreviation RR := (2 ^ (w * n)).

(** A product into one of the two work buffers of numbers in the domain. *)
Lemma domain_step m' p a d x y :
  in_frame m' -> (p = Res \/ p = ATmp) -> buffer w m' a n -> buffer w m' d n -> apart p n a n -> apart p n d n ->
  cong Nv (value w m' a n) (x * RR) -> cong Nv (value w m' d n) (y * RR) ->
  exists m'', BigNumMontMul m' p n a d N ninv = Ret m'' /\ in_frame m'' /\ unchanged_but m' m'' p n /\
    cong Nv (value w m'' p n) (x * y * RR).
Proof using HB Hok HRN HTN HRT.
  intros Hf Hp Ha Hd Hpa Hpd Hca Hcd. destruct (in_frame_ok m' Hf) as [Hok' EN].
  assert (apart p n N n) as HpN by (by destruct Hp as [-> | ->]).
  assert (buffer w m' p n) as Hb by (destruct Hf as (_ & ? & ?); by destruct Hp as [-> | ->]).
  destruct (MontMul_spec N n ninv m' p a d Hok' Hb Ha Hd HpN Hpa Hpd) as (m'' & E & Hu & Hb' & Hrel).
  exists m''. split_and!; [done|by eapply in_frame_step|done|]. rewrite EN in Hrel. rewrite <- EN in *.
  by eapply mont_rel_domain.
Qed.

Lemma enter_domain : cong Nv (value w m RSqr n) (RR * RR) ->
  exists m', BigNumMontMul m ATmp n A RSqr N ninv = Ret m' /\ in_frame m' /\ cong Nv (value w m' ATmp n) (value w m A n * RR).
Proof using HB Hok HRes HA HS HT HTA HTN HTS HRT.
  intros HR2. destruct (MontMul_spec N n ninv m ATmp A RSqr Hok HT HA HS HTN HTA HTS) as (m' & E & Hu & Hb & Hrel).
  exists m'. split_and!; [done| |].
  - apply (in_frame_step m m' ATmp); [by split_and!|by right|done|done].
  - apply (cong_cancel Nv RR); [by apply (modulus_coprime N n ninv)|].
    rewrite (mont_rel_cong _ _ _ _ Hrel), HR2. exists 0. ring.
Qed.

(** Sixteen squarings. *)
Lemma squarings m1 x : in_frame m1 -> cong Nv (value w m1 ATmp n) (x * RR) ->
  exists m2, for_ 8 0 (fun _ m => m ← BigNumMontMul m Res n ATmp ATmp N ninv; BigNumMontMul m ATmp n Res Res N ninv) m1 = Ret m2 /\
    in_frame m2 /\ cong Nv (value w m2 ATmp n) (x ^ 65536 * RR).
Proof using HB Hok HRN HTN HRT.
  intros Hf Hc.
  oc_for (fun (j : Z) (m' : mem) => in_frame m' /\ cong Nv (value w m' ATmp n) (x ^ (2 ^ (2 * j)) * RR)) as r Hr.
  - split; [done|]. by rewrite Z.mul_0_r, Z.pow_0_r, Z.pow_1_r.
  - intros j m' Hj (Hf' & Hc'). pose proof Hf' as (_ & Hb1 & Hb2).
    destruct (domain_step m' Res ATmp ATmp _ _ Hf' (or_introl eq_refl) Hb2 Hb2 HRT HRT Hc' Hc') as (m2 & -> & Hf2 & _ & Hc2).
    rewrite bind_ret; cbv beta. pose proof Hf2 as (_ & Hb3 & Hb4).
    destruct (domain_step m2 ATmp Res Res _ _ Hf2 (or_intror eq_refl) Hb3 Hb3 (apart_sym _ _ _ _ HRT) (apart_sym _ _ _ _ HRT) Hc2 Hc2)
      as (m3 & -> & Hf3 & _ & Hc3).
    eexists. split; [done|]. split; [done|]. etransitivity; [exact Hc3|].
    replace (2 ^ (2 * (j + 1))) with (2 ^ (2 * j) + 2 ^ (2 * j) + (2 ^ (2 * j) + 2 ^ (2 * j))).
    2:{ replace (2 * (j + 1)) with (2 * j + 2) by lia. rewrite Z.pow_add_r by lia. lia. }
    assert (0 <= 2 ^ (2 * j)) by (apply Z.pow_nonneg; lia). rewrite !Z.pow_add_r by lia. done.
  - change (0 + Z.of_nat 8) with 8 in Hr. destruct Hr as [Hf2 Hc2]. eauto.
Qed.

Lemma PowMod_65537 :
  cong Nv (value w m RSqr n) (RR * RR) -> (value w m A n <= Nv \/ RR <= 2 * Nv) ->
  exists m', BigNumPowMod m Res n A 65537 N ninv RSqr ATmp = Ret (m', true) /\ in_frame m' /\
    value w m' Res n = value w m A n ^ 65537 mod Nv.
Proof using All.
  intros HR2 Hsmall. pose proof Hok as (Hn & HN & Hi). unfold BigNumPowMod.
  rewrite !ASSERT_true by (apply bool_decide_true; destruct Hi; lia). rewrite !bind_ret.
  rewrite decide_False by lia.
  destruct (enter_domain HR2) as (m1 & -> & Hf1 & Hc1). rewrite bind_ret; cbv beta. rewrite decide_True by done.
  destruct (squarings m1 _ Hf1 Hc1) as (m2 & -> & Hf2 & Hc2). rewrite bind_ret; cbv beta.
  destruct (in_frame_ok m2 Hf2) as [Hok2 EN2]. destruct (in_frame_A m2 Hf2) as [HA2 EA2]. pose proof Hf2 as (_ & Hb2 & Hb2').
  destruct (MontMul_spec N n ninv m2 Res ATmp A Hok2 Hb2 Hb2' HA2 HRN HRT HRA) as (m3 & -> & Hu3 & Hb3 & Hrel).
  rewrite bind_ret; cbv beta. assert (in_frame m3) as Hf3 by (by apply (in_frame_step m2 m3 Res); [|left|..]).
  destruct (in_frame_ok m3 Hf3) as [Hok3 EN3]. rewrite EN2, EA2 in Hrel.
  pose proof (vrange m N n HN ltac:(lia)) as HrN. pose proof (vrange m A n HA ltac:(lia)) as HrA.
  pose proof (vrange m3 Res n Hb3 ltac:(lia)) as Hr3. pose proof (vrange m2 ATmp n Hb2' ltac:(lia)) as Hr2.
  assert (0 < Nv) as HN0.
  { destruct (decide (Nv = 0)) as [E0|]; [|lia]. pose proof (modulus_odd N n ninv m Hok) as Ho. by rewrite E0 in Ho. }
  destruct (final_reduce N n ninv m3 Res (value w m A n ^ 65536 * value w m A n) Hok3 Hb3 HRN) as (m4 & -> & Hu4 & Hb4 & Hv4).
  - rewrite EN3. rewrite <- EN2 in *. eapply mont_rel_leave; [exact Hok2|exact Hrel|exact Hc2].
  - rewrite EN3. pose proof (mont_rel_bound n _ _ _ _ ltac:(lia) Hrel ltac:(lia) ltac:(lia) HN0) as Hlt.
    clear - Hlt Hsmall Hr3. lia.
  - exists m4. split_and!; [done|by apply (in_frame_step m3 m4 Res); [|left|..]|]. rewrite Hv4, EN3, (pow_split _ 65536 65537) by lia. reflexivity.
Qed.

(** With exponent 3, the second product reads its multiplier from the buffer it
    has just cleared: the result is always zero. *)
Lemma PowMod_3 :
  exists m', BigNumPowMod m Res n A 3 N ninv RSqr ATmp = Ret (m', true) /\ in_frame m' /\ value w m' Res n = 0.
Proof using All.
  pose proof Hok as (Hn & HN & Hi). unfold BigNumPowMod.
  rewrite !ASSERT_true by (apply bool_decide_true; destruct Hi; lia). rewrite !bind_ret.
  rewrite decide_False by lia.
  destruct (MontMul_spec N n ninv m ATmp A RSqr Hok HT HA HS HTN HTA HTS) as (m1 & -> & Hu1 & Hb1 & _).
  rewrite bind_ret; cbv beta. rewrite decide_False by done.
  assert (in_frame m1) as Hf1 by (apply (in_frame_step m m1 ATmp); [by split_and!|by right|done|done]).
  destruct (in_frame_ok m1 Hf1) as [Hok1 EN1]. pose proof Hf1 as (_ & HbR1 & HbT1).
  destruct (MontMul_spec N n ninv m1 Res ATmp ATmp Hok1 HbR1 HbT1 HbT1 HRN HRT HRT) as (m2 & -> & Hu2 & Hb2 & _).
  rewrite bind_ret; cbv beta. assert (in_frame m2) as Hf2 by (by apply (in_frame_step m1 m2 Res); [|left|..]).
  destruct (in_frame_ok m2 Hf2) as [Hok2 EN2]. pose proof Hf2 as (_ & HbR2 & HbT2).
  destruct (MontMul_aliased N n ninv m2 ATmp Res Hok2 HbT2 HbR2 HTN (apart_sym _ _ _ _ HRT)) as (m3 & -> & Hu3 & Hb3 & Hv3).
  rewrite bind_ret; cbv beta. assert (in_frame m3) as Hf3 by (by apply (in_frame_step m2 m3 ATmp); [|right|..]).
  destruct (in_frame_ok m3 Hf3) as [Hok3 EN3]. pose proof Hf3 as (_ & HbR3 & HbT3).
  destruct (MontMul1_spec N n ninv m3 Res ATmp Hok3 HbR3 HbT3 HRN HRT) as (m4 & -> & Hu4 & Hb4 & Hrel).
  rewrite bind_ret; cbv beta. assert (in_frame m4) as Hf4 by (by apply (in_frame_step m3 m4 Res); [|left|..]).
  destruct (in_frame_ok m4 Hf4) as [Hok4 EN4]. rewrite Hv3, EN3 in Hrel.
  pose proof (vrange m N n HN ltac:(lia)) as HrN. pose proof (vrange m4 Res n Hb4 ltac:(lia)) as Hr4.
  assert (0 < Nv) as HN0.
  { destruct (decide (Nv = 0)) as [E0|]; [|lia]. pose proof (modulus_odd N n ninv m Hok) as Ho. by rewrite E0 in Ho. }
  destruct (final_reduce N n ninv m4 Res 0 Hok4 Hb4 HRN) as (m5 & -> & Hu5 & Hb5 & Hv5).
  - rewrite EN4. apply (cong_cancel Nv RR); [by apply (modulus_coprime N n ninv)|].
    rewrite (mont_rel_cong _ _ _ _ Hrel). by rewrite Z.mul_0_r.
  - rewrite EN4. change 0 with (0 * 0) in Hrel. pose proof (mont_rel_bound n _ _ _ _ ltac:(lia) Hrel ltac:(lia) ltac:(lia) HN0). lia.
  - exists m5. split_and!; [done|by apply (in_frame_step m4 m5 Res); [|left|..]|]. rewrite Hv5. apply Z.mod_0_l. lia.
Qed.

End PowMod.

(** *** Parameters *)
Lemma mont_max_len : 0 < OC_BN_MONT_MAX_LEN < 2 ^ 13.
Proof using HB. unfold OC_BN_MONT_MAX_LEN, OC_BN_MAX_LEN. destruct HB as [-> | ->]; vm_compute; split; congruence. Qed.

(** The initial shift of the division of [2^(2 w n)] fits for a modulus whose
    top word is not zero. *)
Lemma rsqr_shiftable n b : 0 < n -> w * (n - 1) < b <= w * n ->
  shiftable w (2 * n + 1) n (2 * (w * n) + 1 - b).
Proof using HB.
  intros Hn Hb. pose proof w_pos as Hw. unfold shiftable. set (e := 2 * (w * n) + 1 - b).
  assert (0 <= e) by (unfold e; nia). destruct (decide (b = w * (n - 1) + 1)) as [E|E].
  - assert (e = (n + 1) * w) as -> by (unfold e; lia). rewrite Z.mod_mul, Z.div_mul by lia.
    rewrite decide_True by done. split_and!; [nia|lia|by left].
  - assert (e / w = n) as Ed by (symmetry; apply Z.div_unique with (e - w * n); unfold e in *; lia).
    assert (e mod w = e - w * n) as Em by (symmetry; apply Z.mod_unique with n; unfold e in *; lia).
    rewrite Ed, Em. rewrite decide_False by (unfold e; lia). split_and!; [done|lia|by right].
Qed.

Lemma MontParams_runs m RS n N Scratch :
  0 < n <= OC_BN_MONT_MAX_LEN -> buffer w m RS n -> buffer w m N n -> buffer w m Scratch (6 * (n + 1)) ->
  apart Scratch (6 * (n + 1)) N n -> apart Scratch (6 * (n + 1)) RS n -> word m N (n - 1) <> 0 ->
  runs (fun r => if Z.odd (word m N 0) then
      mont_inverse w (word m N 0) r.2 /\ buffer w r.1 RS n /\ value w r.1 RS n = 2 ^ (2 * (w * n)) mod value w m N n /\
      (forall l, ~ in_range RS n l -> ~ in_range Scratch (6 * (n + 1)) l -> r.1 !! l = m !! l)
    else r = (m, 0))
    (BigNumCalculateMontParams m RS n N Scratch).
Proof using HB.
  intros Hn HRS HN HS HSN HSR Htop. pose proof w_pos as Hw. pose proof mont_max_len as Hmax.
  unfold BigNumCalculateMontParams. rewrite !ASSERT_true by (apply bool_decide_true; lia). rewrite !bind_ret.
  destruct (MontInverse_spec m N n ltac:(lia) HN) as (r & -> & Hr). rewrite bind_ret; cbv beta.
  destruct (Z.odd (word m N 0)) eqn:Ho; [|subst; by rewrite decide_True].
  rewrite decide_False by (destruct Hr; lia). cbv zeta. rewrite loc_add_0. unfold OC_BN_MONT_RSQR_LEN.
  rewrite (wrap_small 16) by lia. set (L := (n + 1) * 2).
  destruct (ZeroMem_words_spec m Scratch L) as (m1 & -> & Hu1 & Hz1); [lia|eapply buffer_le; [done|lia]|].
  rewrite bind_ret; cbv beta.
  assert (OC_BN_BITS n = w * n) as Hbits.
  { unfold OC_BN_BITS, OC_BN_SIZE. pose proof pow_w_min. unfold w. pose proof HB as HB'. unfold BnBuildOk in HB'.
    rewrite (wrap_small 32 n) by lia. rewrite (wrap_small _ (n * _)) by (unfold w in *; nia).
    rewrite (wrap_small 32 (n * _)) by nia. rewrite wrap_small by nia. lia. }
  rewrite Hbits. rewrite (wrap_small 32) by nia.
  destruct (OrWord_spec m1 Scratch L (2 * (w * n))) as (m2 & -> & Hu2 & Hb2 & Hv2); [nia|lia|done|].
  rewrite bind_ret; cbv beta.
  assert (unchanged_but m m2 Scratch L) as Hu by (by eapply unchanged_trans).
  assert (unchanged_but m m2 Scratch (6 * (n + 1))) as Hu' by (eapply unchanged_mono; [done|unfold in_range; lia]).
  assert (buffer w m2 N n) as HN2 by (by apply (unchanged_buffer w m m2 Scratch (6 * (n + 1)))).
  assert (value w m2 N n = value w m N n) as EN by (by apply (unchanged_value w m m2 Scratch (6 * (n + 1)))).
  pose proof (vrange m N (n - 1) (buffer_le w m N n (n - 1) HN ltac:(lia)) ltac:(lia)) as HrL.
  pose proof (word_range w m N n (n - 1) HN ltac:(lia)) as HrT.
  assert (value w m N n = value w m N (n - 1) + word m N (n - 1) * 2 ^ (w * (n - 1))) as EvN.
  { replace n with (n - 1 + 1) at 1 by lia. apply value_S. lia. }
  assert (words_for w (sig_bits (value w m N n)) n) as Hwf.
  { unfold words_for. rewrite EvN, sig_bits_top by first [lia|nia].
    destruct (sig_bits_lower (word m N (n - 1))) as [? _]; [lia|].
    assert (sig_bits (word m N (n - 1)) <= w) by (apply sig_bits_le; lia). lia. }
  assert (sig_bits (2 ^ (2 * (w * n))) = 2 * (w * n) + 1) as HsA.
  { rewrite <- (Z.mul_1_l (2 ^ _)), sig_bits_shift by nia. change (sig_bits 1) with 1. lia. }
  apply runs_bind. eapply runs_mono; [|apply Mod_runs].
  - intros m3 (Hb3 & Hv3 & Hf3). rewrite Hv2, EN in Hv3. simpl. split_and!; [apply Hr..|done|done|].
    intros l Hl1 Hl2. rewrite Hf3, Hu'; [done|done|done|]. intros Hr'. apply Hl2. unfold in_range, loc_add in *. simpl in *. lia.
  - lia.
  - lia.
  - by apply (unchanged_buffer w m m2 Scratch (6 * (n + 1))).
  - done.
  - done.
  - apply (buffer_frame w m); [apply (buffer_sub w m Scratch (6 * (n + 1))); [done|lia..]|].
    intros k Hk. apply Hu. unfold in_range, loc_add. simpl. lia.
  - unfold apart, loc_add. simpl. lia.
  - unfold apart, loc_add in *. simpl. lia.
  - unfold apart, loc_add in *. simpl. lia.
  - rewrite EN, EvN. assert (0 < 2 ^ (w * (n - 1))) by (apply Z.pow_pos_nonneg; nia). nia.
  - rewrite Hv2, EN, HsA. destruct Hwf. nia.
  - rewrite Hv2, EN, HsA. intros a Ha. assert (a = 2 * n + 1) as -> by (unfold words_for in Ha; nia).
    by apply rsqr_shiftable; [lia|].
Qed.

End Proofs.

(** ** Properties *)

(** C39: [BigNumMontInverse] always returns: the negated inverse of the low word
    modulo [2^w] when the number is odd, and the failure value 0 otherwise. *)
Theorem MontInverse_correct (Build : BnBuild) (HB : BnBuildOk Build) (m : mem) (A : loc) (n : Z) :
  let w := OC_BN_WORD_NUM_BITS in
  0 < n -> buffer w m A n ->
  exists r, BigNumMontInverse m A = Ret r /\
    if Z.odd (word m A 0) then 0 < r < 2 ^ w /\ (word m A 0 * r + 1) mod 2 ^ w = 0 else r = 0.
Proof.
  intros w Hn HA. destruct (MontInverse_spec m A n Hn HA) as (r & E & Hr). exists r. split; [done|].
  destruct (Z.odd _); [|done]. destruct Hr as [H1 [q Hq]]. split; [done|]. rewrite Hq. apply Z.mod_mul.
  pose proof W_ne0. done.
Qed.

(** [BigNumCalculateMontParams] fails exactly for even moduli; for an odd
    modulus with a non-zero top word it returns the Montgomery inverse and
    stores [2^(2 w n) mod N], touching only the result and the scratch buffer
    (a DEBUG build may stop in the assertion of the right shift instead). *)
Theorem MontParams_correct (Build : BnBuild) (HB : BnBuildOk Build) (m : mem) (RSqrMod : loc) (n : Z) (N Scratch : loc) :
  let w := OC_BN_WORD_NUM_BITS in
  0 < n <= OC_BN_MONT_MAX_LEN -> buffer w m RSqrMod n -> buffer w m N n -> buffer w m Scratch (6 * (n + 1)) ->
  apart Scratch (6 * (n + 1)) N n -> apart Scratch (6 * (n + 1)) RSqrMod n -> word m N (n - 1) <> 0 ->
  (exists m' N0Inv, BigNumCalculateMontParams m RSqrMod n N Scratch = Ret (m', N0Inv) /\
     if Z.odd (word m N 0) then
       mont_inverse w (word m N 0) N0Inv /\ buffer w m' RSqrMod n /\
       value w m' RSqrMod n = 2 ^ (2 * (w * n)) mod value w m N n /\
       (forall l, ~ in_range RSqrMod n l -> ~ in_range Scratch (6 * (n + 1)) l -> m' !! l = m !! l)
     else m' = m /\ N0Inv = 0) \/
  (asserts_enabled = true /\ BigNumCalculateMontParams m RSqrMod n N Scratch = Fault AssertFailed).
Proof.
  intros w H1 H2 H3 H4 H5 H6 H7. pose proof (MontParams_runs m RSqrMod n N Scratch H1 H2 H3 H4 H5 H6 H7) as H.
  destruct (BigNumCalculateMontParams m RSqrMod n N Scratch) as [[m' r]|[| |]]; simpl in H; [left|done|right; done|done].
  exists m', r. split; [done|]. destruct (Z.odd _); [done|]. by injection H.
Qed.

(** C8: with the parameters of an odd modulus, [BigNumPowMod] with exponent
    65537 returns [A^65537 mod N], provided [A <= N] or the top bit of the
    modulus buffer is set; it changes only the result and the scratch number.
    Exponents other than 65537 and 3 are rejected. *)
Theorem PowMod_correct (Build : BnBuild) (HB : BnBuildOk Build) (m : mem) (Res A N RSqrMod ATmp : loc) (n N0Inv Exponent : Z) :
  let w := OC_BN_WORD_NUM_BITS in
  modulus_ok N n N0Inv m ->
  buffer w m Res n -> buffer w m A n -> buffer w m RSqrMod n -> buffer w m ATmp n ->
  apart Res n A n -> apart Res n N n -> apart Res n ATmp n -> apart ATmp n A n -> apart ATmp n N n -> apart ATmp n RSqrMod n ->
  cong (value w m N n) (value w m RSqrMod n) (2 ^ (w * n) * 2 ^ (w * n)) ->
  (value w m A n <= value w m N n \/ 2 ^ (w * n) <= 2 * value w m N n) ->
  Exponent <> 3 ->
  if decide (Exponent = 65537) then
    exists m', BigNumPowMod m Res n A Exponent N N0Inv RSqrMod ATmp = Ret (m', true) /\
      value w m' Res n = value w m A n ^ Exponent mod value w m N n /\ buffer w m' Res n /\
      forall l, ~ in_range Res n l -> ~ in_range ATmp n l -> m' !! l = m !! l
  else BigNumPowMod m Res n A Exponent N N0Inv RSqrMod ATmp = Ret (m, false).
Proof.
  intros w Hok HR HA HS HT H1 H2 H3 H4 H5 H6 Hc Hs Hne. case_decide as HE.
  - subst Exponent. destruct (PowMod_65537 m Res A N RSqrMod ATmp n N0Inv Hok HR HA HS HT H1 H2 H3 H4 H5 H6 Hc Hs)
      as (m' & E & (Hf & Hb & _) & Hv). exists m'. split; [exact E|]. split; [exact Hv|]. split; [exact Hb|exact Hf].
  - pose proof Hok as (Hn & _ & Hi). unfold BigNumPowMod.
    rewrite !ASSERT_true by (apply bool_decide_true; destruct Hi; lia). rewrite !bind_ret. by rewrite decide_True.
Qed.

(** with exponent 3, which [BigNumPowMod] declares supported, the result is
    0 for every base: the product [MM (Result, ATmp)] is written to [ATmp], which
    is cleared before it is read as the multiplier. *)
Theorem PowMod_exponent_3_zero (Build : BnBuild) (HB : BnBuildOk Build) (m : mem) (Res A N RSqrMod ATmp : loc) (n N0Inv : Z) :
  let w := OC_BN_WORD_NUM_BITS in
  modulus_ok N n N0Inv m ->
  buffer w m Res n -> buffer w m A n -> buffer w m RSqrMod n -> buffer w m ATmp n ->
  apart Res n A n -> apart Res n N n -> apart Res n ATmp n -> apart ATmp n A n -> apart ATmp n N n -> apart ATmp n RSqrMod n ->
  exists m', BigNumPowMod m Res n A 3 N N0Inv RSqrMod ATmp = Ret (m', true) /\ value w m' Res n = 0.
Proof.
  intros w Hok HR HA HS HT H1 H2 H3 H4 H5 H6.
  destruct (PowMod_3 m Res A N RSqrMod ATmp n N0Inv Hok HR HA HS HT H1 H2 H3 H4 H5 H6) as (m' & E & _ & Hv).
  exists m'. split; [exact E|exact Hv].
Qed.

(** ** Witnesses *)

(** One-word numbers: modulus, base, [RSqrMod], result, [ATmp] and scratch. *)
Definition pow_mem (nv a rsqr : Z) : mem :=
  alloc (1, 0) [nv] (alloc (2, 0) [a] (alloc (3, 0) [rsqr] (alloc (4, 0) [0] (alloc (5, 0) [0] (alloc (6, 0) (replicate 12 0) ∅))))).

(** The remark that [#Bits(N)] only fits values below [2 * N] needs the top
    bit of the modulus: for the 32-bit modulus [0x66ea6ad5] and a base above it,
    the final conditional subtraction leaves a result that is not reduced. *)
Theorem PowMod_not_reduced :
  match @BigNumCalculateMontParams (build32 true) (pow_mem 0x66ea6ad5 0xffffffd4 0) (3, 0) 1 (1, 0) (6, 0) with
  | Ret (m, N0Inv) =>
      match @BigNumPowMod (build32 true) m (4, 0) 1 (2, 0) 65537 (1, 0) N0Inv (3, 0) (5, 0) with
      | Ret (m', b) => b = true /\ 0x66ea6ad5 <= value 32 m' (4, 0) 1
      | Fault _ => False
      end
  | Fault _ => False
  end.
Proof. vm_compute. split; [reflexivity|congruence]. Qed.

Lemma MontInverse_correct_witness :
  exists r, @BigNumMontInverse (build64 true) (pow_mem (2 ^ 64 - 59) 3 0) (1, 0) = Ret r /\
    if Z.odd (word (pow_mem (2 ^ 64 - 59) 3 0) (1, 0) 0) then
      0 < r < 2 ^ 64 /\ (word (pow_mem (2 ^ 64 - 59) 3 0) (1, 0) 0 * r + 1) mod 2 ^ 64 = 0 else r = 0.
Proof.
  apply (MontInverse_correct (build64 true) _ (pow_mem (2 ^ 64 - 59) 3 0) (1, 0) 1); [lia|].
  apply buffer_checked. vm_compute. reflexivity.
Defined.

Lemma MontParams_correct_witness :
  (exists m' N0Inv, @BigNumCalculateMontParams (build64 true) (pow_mem (2 ^ 64 - 59) 3 0) (3, 0) 1 (1, 0) (6, 0) = Ret (m', N0Inv) /\
     if Z.odd (word (pow_mem (2 ^ 64 - 59) 3 0) (1, 0) 0) then
       mont_inverse 64 (word (pow_mem (2 ^ 64 - 59) 3 0) (1, 0) 0) N0Inv /\ buffer 64 m' (3, 0) 1 /\
       value 64 m' (3, 0) 1 = 2 ^ (2 * (64 * 1)) mod value 64 (pow_mem (2 ^ 64 - 59) 3 0) (1, 0) 1 /\
       (forall l, ~ in_range (3, 0) 1 l -> ~ in_range (6, 0) (6 * (1 + 1)) l -> m' !! l = pow_mem (2 ^ 64 - 59) 3 0 !! l)
     else m' = pow_mem (2 ^ 64 - 59) 3 0 /\ N0Inv = 0) \/
  (true = true /\ @BigNumCalculateMontParams (build64 true) (pow_mem (2 ^ 64 - 59) 3 0) (3, 0) 1 (1, 0) (6, 0) = Fault AssertFailed).
Proof.
  apply (MontParams_correct (build64 true) _ (pow_mem (2 ^ 64 - 59) 3 0) (3, 0) 1 (1, 0) (6, 0)).
  - vm_compute. split; [reflexivity|congruence].
  - apply buffer_checked. vm_compute. reflexivity.
  - apply buffer_checked. vm_compute. reflexivity.
  - apply buffer_checked. vm_compute. reflexivity.
  - left. discriminate.
  - left. discriminate.
  - vm_compute. congruence.
Defined.

(** [3^65537] modulo the prime [2^64 - 59]. *)
Lemma PowMod_correct_witness :
  exists m', @BigNumPowMod (build64 true) (pow_mem (2 ^ 64 - 59) 3 3481) (4, 0) 1 (2, 0) 65537 (1, 0) 14694863923124558067 (3, 0) (5, 0) = Ret (m', true) /\
      value 64 m' (4, 0) 1 = value 64 (pow_mem (2 ^ 64 - 59) 3 3481) (2, 0) 1 ^ 65537 mod value 64 (pow_mem (2 ^ 64 - 59) 3 3481) (1, 0) 1 /\
      buffer 64 m' (4, 0) 1 /\
      forall l, ~ in_range (4, 0) 1 l -> ~ in_range (5, 0) 1 l -> m' !! l = pow_mem (2 ^ 64 - 59) 3 3481 !! l.
Proof.
  apply (PowMod_correct (build64 true) _ (pow_mem (2 ^ 64 - 59) 3 3481) (4, 0) (2, 0) (1, 0) (3, 0) (5, 0) 1 14694863923124558067 65537).
  - split; [lia|]. split; [apply buffer_checked; vm_compute; reflexivity|]. split; [vm_compute; split; reflexivity|].
    apply Z.mod_divide; vm_compute; congruence.
  - apply buffer_checked. vm_compute. reflexivity.
  - apply buffer_checked. vm_compute. reflexivity.
  - apply buffer_checked. vm_compute. reflexivity.
  - apply buffer_checked. vm_compute. reflexivity.
  - left. discriminate.
  - left. discriminate.
  - left. discriminate.
  - left. discriminate.
  - left. discriminate.
  - left. discriminate.
  - apply Z.mod_divide; vm_compute; congruence.
  - left. vm_compute. congruence.
  - discriminate.
Defined.

Lemma PowMod_exponent_3_zero_witness :
  exists m', @BigNumPowMod (build64 true) (pow_mem (2 ^ 64 - 59) 3 3481) (4, 0) 1 (2, 0) 3 (1, 0) 14694863923124558067 (3, 0) (5, 0) = Ret (m', true) /\
    value 64 m' (4, 0) 1 = 0.
Proof.
  apply (PowMod_exponent_3_zero (build64 true) _ (pow_mem (2 ^ 64 - 59) 3 3481) (4, 0) (2, 0) (1, 0) (3, 0) (5, 0) 1 14694863923124558067).
  - split; [lia|]. split; [apply buffer_checked; vm_compute; reflexivity|]. split; [vm_compute; split; reflexivity|].
    apply Z.mod_divide; vm_compute; congruence.
  - apply buffer_checked. vm_compute. reflexivity.
  - apply buffer_checked. vm_compute. reflexivity.
  - apply buffer_checked. vm_compute. reflexivity.
  - apply buffer_checked. vm_compute. reflexivity.
  - left. discriminate.
  - left. discriminate.
  - left. discriminate.
  - left. discriminate.
  - left. discriminate.
  - left. discriminate.
Defined.

End Montgomery.
