(* ===== verification/Rsa.v ===== *)
(** * RSA signature verification: [Library/OcCryptoLib/RsaDigitalSign.c]

    PKCS#1 v1.5 verification on top of the Montgomery exponentiation. The hash
    functions are an interface ([ShaLib]); the theorems show that a signature is
    accepted exactly when its [e]-th power modulo [N] is the encoded message. *)
From stdpp Require Import gmap.
From S2P Require Import Prelude WordMemory BigNumPrimitives BigNumMod BigNumMontgomery.

(** The SHA-2 functions of the library, by their digests. *)
Class ShaLib : Type := {
  Sha256 : list Z -> list Z;
  Sha384 : list Z -> list Z;
  Sha512 : list Z -> list Z
}.

Class ShaLaws (H : ShaLib) : Prop := {
  Sha256_size d : length (Sha256 d) = 32%nat;
  Sha384_size d : length (Sha384 d) = 48%nat;
  Sha512_size d : length (Sha512 d) = 64%nat
}.

(** Platform configuration database entries ([PcdGet16]). *)
Class CryptoPcd : Type := {
  PcdOcCryptoAllowedRsaModuli : Z;
  PcdOcCryptoAllowedSigHashTypes : Z
}.

(** Pool allocations of whole words: a fresh block, or nothing. *)
Class WordPool : Type := { AllocateWords : mem -> Z -> option (mem * loc) }.

Module Rsa.
Import BigNum BigNumMod Montgomery.

Section Model.
Context {Build : BnBuild} {Swap : SwapBytesLib} {Sha : ShaLib} {Pcd : CryptoPcd}.
Abbreviation w := OC_BN_WORD_NUM_BITS.

(** ** Model *)
Inductive OC_SIG_HASH_TYPE : Set := OcSigHashTypeSha256 | OcSigHashTypeSha384 | OcSigHashTypeSha512.

(** The value of the C enumeration. *)
Definition sig_hash_index (Type_ : OC_SIG_HASH_TYPE) : Z :=
  match Type_ with OcSigHashTypeSha256 => 0 | OcSigHashTypeSha384 => 1 | OcSigHashTypeSha512 => 2 end.

Definition SHA256_DIGEST_SIZE : Z := 32.
Definition SHA384_DIGEST_SIZE : Z := 48.
Definition SHA512_DIGEST_SIZE : Z := 64.

Definition mPkcsDigestEncodingPrefixSha256 : list Z :=
  [0x30; 0x31; 0x30; 0x0d; 0x06; 0x09; 0x60; 0x86; 0x48; 0x01; 0x65; 0x03; 0x04; 0x02; 0x01; 0x05; 0x00; 0x04; 0x20].
Definition mPkcsDigestEncodingPrefixSha384 : list Z :=
  [0x30; 0x41; 0x30; 0x0d; 0x06; 0x09; 0x60; 0x86; 0x48; 0x01; 0x65; 0x03; 0x04; 0x02; 0x02; 0x05; 0x00; 0x04; 0x30].
Definition mPkcsDigestEncodingPrefixSha512 : list Z :=
  [0x30; 0x51; 0x30; 0x0d; 0x06; 0x09; 0x60; 0x86; 0x48; 0x01; 0x65; 0x03; 0x04; 0x02; 0x03; 0x05; 0x00; 0x04; 0x40].

Definition InternalRsaModulusSizeIsAllowed (ModulusSize : Z) : bool :=
  if decide (Z.land ModulusSize (ModulusSize -[32] 1) <> 0) then false
  else bool_decide (Z.land PcdOcCryptoAllowedRsaModuli ModulusSize <> 0).

Definition InternalSigHashTypeIsAllowed (Type_ : OC_SIG_HASH_TYPE) : bool :=
  bool_decide (Z.land PcdOcCryptoAllowedSigHashTypes (Z.shiftl 1 (sig_hash_index Type_)) <> 0).

(** [CompareMem (&l1[off], l2, n)]: the difference of the first two bytes that
    differ, or 0. *)
Fixpoint compare_bytes (l1 l2 : list Z) : Z :=
  match l1, l2 with
  | x :: l1, y :: l2 => if decide (x = y) then compare_bytes l1 l2 else x - y
  | _, _ => 0
  end.
Definition CompareMem (l1 : list Z) (off : Z) (l2 : list Z) (n : Z) : outcome Z :=
  s1 ← rd_slice l1 off n; s2 ← rd_slice l2 0 n; Ret (compare_bytes s1 s2).

(** [-1] for a digest size without an algorithm. *)
Definition SigVerifyShaHashBySize (Data : list Z) (Hash : list Z) (HashSize : Z) : outcome Z :=
  ASSERT (bool_decide (Data <> []));;
  ASSERT (bool_decide (0 < HashSize));;
  ASSERT (bool_decide (HashSize <= SHA512_DIGEST_SIZE));;
  let verify Hashtype DataDigest :=
    if InternalSigHashTypeIsAllowed Hashtype then CompareMem DataDigest 0 Hash HashSize else Ret (-1) in
  if decide (HashSize = SHA512_DIGEST_SIZE) then verify OcSigHashTypeSha512 (Sha512 Data)
  else if decide (HashSize = SHA384_DIGEST_SIZE) then verify OcSigHashTypeSha384 (Sha384 Data)
  else if decide (HashSize = SHA256_DIGEST_SIZE) then verify OcSigHashTypeSha256 (Sha256 Data)
  else Ret (-1).

(** The bytes of [n] words in memory order. *)
Definition bytes_at (m : mem) (p : loc) (n : Z) : outcome (list Z) :=
  l ← ld_list m p (Z.to_nat n);
  Ret (concat (le_bytes (Z.to_nat OC_BN_WORD_SIZE) <$> l)).

(** The conversion loop: word [Index] of [EncryptedSigNum] becomes the swapped
    word [NumWords - 1 - Index] of [DecryptedSigNum], from the top down. *)
Definition SwapResult (m : mem) (EncryptedSigNum DecryptedSigNum : loc) (NumWords : Z) : outcome mem :=
  for_ (Z.to_nat NumWords) 0
    (fun i m =>
       let Index := NumWords - 1 - i in
       x ← ld m DecryptedSigNum (NumWords - 1 - Index);
       Tmp ← BigNumSwapWord x;
       st m EncryptedSigNum Index Tmp)
    m.

(** The checks of the encoded message [Signature] (lines 332-376). *)
Definition CheckEncodedMessage (Signature : list Z) (SignatureSize : Z) (Padding : list Z) (PaddingSize : Z)
    (Hash : list Z) (HashSize : Z) : outcome bool :=
  let DigestSize := PaddingSize +[w] HashSize in
  if decide (SignatureSize < DigestSize +[w] 11) then Ret false else
  s0 ← rd Signature 0;
  s1 ← rd Signature 1;
  if decide (s0 <> 0 \/ s1 <> 1) then Ret false else
  let last := SignatureSize -[w] DigestSize -[w] 3 +[w] 2 in
  r ← while_ (Z.to_nat last + 1)
    (fun Index =>
       if decide (Index < last) then
         x ← rd Signature Index;
         if decide (x <> 0xFF) then Ret (inr None) else Ret (inl (Index + 1))
       else Ret (inr (Some Index)))
    2;
  match r with
  | None => Ret false
  | Some Index =>
      x ← rd Signature Index;
      if decide (x <> 0) then Ret false else
      let Index := Index + 1 in
      CmpResult ← CompareMem Signature Index Padding PaddingSize;
      if decide (CmpResult <> 0) then Ret false else
      let Index := Index + PaddingSize in
      CmpResult ← CompareMem Signature Index Hash HashSize;
      if decide (CmpResult <> 0) then Ret false else
      ASSERT (bool_decide (Index + HashSize = SignatureSize));;
      Ret true
  end.

(** Padding and the asserted digest size of an algorithm. *)
Definition PaddingOf (Algorithm : OC_SIG_HASH_TYPE) : list Z * Z :=
  match Algorithm with
  | OcSigHashTypeSha256 => (mPkcsDigestEncodingPrefixSha256, SHA256_DIGEST_SIZE)
  | OcSigHashTypeSha384 => (mPkcsDigestEncodingPrefixSha384, SHA384_DIGEST_SIZE)
  | OcSigHashTypeSha512 => (mPkcsDigestEncodingPrefixSha512, SHA512_DIGEST_SIZE)
  end.

Definition RsaVerifySigHashFromProcessed (m : mem) (N : loc) (NumWords N0Inv : Z) (RSqrMod : loc) (Exponent : Z)
    (Signature : list Z) (SignatureSize : Z) (Hash : list Z) (HashSize : Z) (Algorithm : OC_SIG_HASH_TYPE)
    (Scratch : loc) : outcome (mem * bool) :=
  ASSERT (bool_decide (0 < NumWords));;
  ASSERT (bool_decide (0 < SignatureSize));;
  ASSERT (bool_decide (0 < HashSize));;
  if decide (OC_BN_MAX_LEN < NumWords) then Ret (m, false) else
  if negb (InternalSigHashTypeIsAllowed Algorithm) then Ret (m, false) else
  let '(Padding, DigestSize) := PaddingOf Algorithm in
  ASSERT (bool_decide (HashSize = DigestSize));;
  let PaddingSize := Z.of_nat (length Padding) in
  let ModulusSize := wrap 32 (OC_BN_SIZE NumWords) in
  if negb (InternalRsaModulusSizeIsAllowed ModulusSize) then Ret (m, false) else
  if decide (SignatureSize <> ModulusSize) then Ret (m, false) else
  let EncryptedSigNum := Scratch in
  let DecryptedSigNum := EncryptedSigNum +ₗ NumWords in
  let PowScratchNum := DecryptedSigNum +ₗ NumWords in
  m ← BigNumParseBuffer m EncryptedSigNum NumWords Signature SignatureSize;
  '(m, Result) ← BigNumPowMod m DecryptedSigNum NumWords EncryptedSigNum Exponent N N0Inv RSqrMod PowScratchNum;
  if negb Result then Ret (m, false) else
  m ← SwapResult m EncryptedSigNum DecryptedSigNum NumWords;
  Signature ← bytes_at m EncryptedSigNum NumWords;
  b ← CheckEncodedMessage Signature SignatureSize Padding PaddingSize Hash HashSize;
  Ret (m, b).

Definition RsaVerifySigDataFromProcessed (m : mem) (N : loc) (NumWords N0Inv : Z) (RSqrMod : loc) (Exponent : Z)
    (Signature : list Z) (SignatureSize : Z) (Data : list Z) (Algorithm : OC_SIG_HASH_TYPE)
    (Scratch : loc) : outcome (mem * bool) :=
  ASSERT (bool_decide (0 < NumWords));;
  ASSERT (bool_decide (0 < Exponent));;
  ASSERT (bool_decide (0 < SignatureSize));;
  ASSERT (bool_decide (Data <> []));;
  let '(Hash, HashSize) :=
    match Algorithm with
    | OcSigHashTypeSha256 => (Sha256 Data, SHA256_DIGEST_SIZE)
    | OcSigHashTypeSha384 => (Sha384 Data, SHA384_DIGEST_SIZE)
    | OcSigHashTypeSha512 => (Sha512 Data, SHA512_DIGEST_SIZE)
    end in
  RsaVerifySigHashFromProcessed m N NumWords N0Inv RSqrMod Exponent Signature SignatureSize Hash HashSize Algorithm Scratch.

(** [OC_RSA_PUBLIC_KEY]: the header fields and the address of [Data], which holds
    the words of [N] followed by those of [RSqrMod]. *)
Record OC_RSA_PUBLIC_KEY : Type := RsaKey { NumQwords : Z; KeyN0Inv : Z; KeyData : loc }.

Definition RsaVerifySigHashFromKey (m : mem) (Key : OC_RSA_PUBLIC_KEY) (Signature : list Z) (SignatureSize : Z)
    (Hash : list Z) (HashSize : Z) (Algorithm : OC_SIG_HASH_TYPE) (Scratch : loc) : outcome (mem * bool) :=
  ASSERT (bool_decide (0 < SignatureSize));;
  ASSERT (bool_decide (0 < HashSize));;
  RsaVerifySigHashFromProcessed m (KeyData Key) (wrap 16 (NumQwords Key * (8 / OC_BN_WORD_SIZE))) (wrap w (KeyN0Inv Key))
    (KeyData Key +ₗ NumQwords Key * (8 / OC_BN_WORD_SIZE)) 0x10001 Signature SignatureSize Hash HashSize Algorithm Scratch.

Definition RsaVerifySigDataFromKey (m : mem) (Key : OC_RSA_PUBLIC_KEY) (Signature : list Z) (SignatureSize : Z)
    (Data : list Z) (Algorithm : OC_SIG_HASH_TYPE) (Scratch : loc) : outcome (mem * bool) :=
  ASSERT (bool_decide (0 < SignatureSize));;
  ASSERT (bool_decide (Data <> []));;
  RsaVerifySigDataFromProcessed m (KeyData Key) (wrap 16 (NumQwords Key * (8 / OC_BN_WORD_SIZE))) (wrap w (KeyN0Inv Key))
    (KeyData Key +ₗ NumQwords Key * (8 / OC_BN_WORD_SIZE)) 0x10001 Signature SignatureSize Data Algorithm Scratch.

(** [FreePool] of [n] words at [p]. *)
Definition FreeWords (m : mem) (p : loc) (n : Z) : mem :=
  filter (fun kv => ~ in_range p n kv.1) m.

Definition RSA_SCRATCH_BUFFER_SIZE (ModulusSize : Z) : Z := ModulusSize * 3.

Definition RsaVerifySigHashFromKeyDynalloc `{WordPool} (m : mem) (Key : OC_RSA_PUBLIC_KEY) (Signature : list Z)
    (SignatureSize : Z) (Hash : list Z) (HashSize : Z) (Algorithm : OC_SIG_HASH_TYPE) : outcome (mem * bool) :=
  let size := RSA_SCRATCH_BUFFER_SIZE (NumQwords Key *[w] 8) in
  match AllocateWords m size with
  | None => Ret (m, false)
  | Some (m, Scratch) =>
      '(m, Result) ← RsaVerifySigHashFromKey m Key Signature SignatureSize Hash HashSize Algorithm Scratch;
      Ret (FreeWords m Scratch (size / OC_BN_WORD_SIZE), Result)
  end.

Definition RsaVerifySigDataFromKeyDynalloc `{WordPool} (m : mem) (Key : OC_RSA_PUBLIC_KEY) (Signature : list Z)
    (SignatureSize : Z) (Data : list Z) (Algorithm : OC_SIG_HASH_TYPE) : outcome (mem * bool) :=
  let size := RSA_SCRATCH_BUFFER_SIZE (NumQwords Key *[w] 8) in
  match AllocateWords m size with
  | None => Ret (m, false)
  | Some (m, Scratch) =>
      '(m, Result) ← RsaVerifySigDataFromKey m Key Signature SignatureSize Data Algorithm Scratch;
      Ret (FreeWords m Scratch (size / OC_BN_WORD_SIZE), Result)
  end.

Definition BIG_NUM_MONT_PARAMS_SCRATCH_SIZE (NumWords : Z) : Z := OC_BN_SIZE (OC_BN_MONT_RSQR_LEN NumWords) * 3.

Definition RsaVerifySigDataFromData `{WordPool} (m : mem) (Modulus : list Z) (ModulusSize Exponent : Z)
    (Signature : list Z) (SignatureSize : Z) (Data : list Z) (Algorithm : OC_SIG_HASH_TYPE) : outcome (mem * bool) :=
  ASSERT (bool_decide (0 < ModulusSize));;
  ASSERT (bool_decide (0 < Exponent));;
  ASSERT (bool_decide (0 < SignatureSize));;
  ASSERT (bool_decide (Data <> []));;
  if decide (OC_BN_SIZE OC_BN_MONT_MAX_LEN < ModulusSize \/ ModulusSize mod OC_BN_WORD_SIZE <> 0) then Ret (m, false) else
  let ModulusNumWords := wrap 16 (ModulusSize / OC_BN_WORD_SIZE) in
  let MemorySize := 2 * ModulusSize + BIG_NUM_MONT_PARAMS_SCRATCH_SIZE ModulusNumWords in
  match AllocateWords m MemorySize with
  | None => Ret (m, false)
  | Some (m, Memory) =>
      let N := Memory +ₗ 0 * ModulusNumWords in
      let RSqrMod := Memory +ₗ 1 * ModulusNumWords in
      let Mont := Memory +ₗ 2 * ModulusNumWords in
      let MemoryWords := MemorySize / OC_BN_WORD_SIZE in
      m ← BigNumParseBuffer m N ModulusNumWords Modulus ModulusSize;
      '(m, N0Inv) ← BigNumCalculateMontParams m RSqrMod ModulusNumWords N Mont;
      if decide (N0Inv = 0) then Ret (FreeWords m Memory MemoryWords, false) else
      let ScratchSize := RSA_SCRATCH_BUFFER_SIZE ModulusSize in
      match AllocateWords m ScratchSize with
      | None => Ret (FreeWords m Memory MemoryWords, false)
      | Some (m, Scratch) =>
          '(m, Result) ← RsaVerifySigDataFromProcessed m N ModulusNumWords N0Inv RSqrMod Exponent Signature SignatureSize
                           Data Algorithm Scratch;
          Ret (FreeWords (FreeWords m Scratch (ScratchSize / OC_BN_WORD_SIZE)) Memory MemoryWords, Result)
      end
  end.

End Model.

(** ** Specification *)

(** EMSA-PKCS1-v1_5 (RFC 3447, 9.2): the encoded message of [k] bytes for the
    DER-encoded digest [T]. *)
Definition emsa_pkcs1 (k : Z) (T : list Z) : list Z :=
  [0; 1] ++ replicate (Z.to_nat (k - Z.of_nat (length T) - 3)) 0xFF ++ [0] ++ T.

(** The encoding exists ([emLen >= tLen + 11]) and is the message [em]. *)
Definition encodes (em : list Z) (T : list Z) : Prop :=
  Z.of_nat (length T) + 11 <= Z.of_nat (length em) /\ em = emsa_pkcs1 (Z.of_nat (length em)) T.

#[export] Instance encodes_dec em T : Decision (encodes em T).
Proof. unfold encodes. apply _. Defined.

(** The [k]-byte big-endian string of a number (I2OSP). *)
Definition be_bytes (k : nat) (x : Z) : list Z := rev (le_bytes k x).

(** What BaseLib documents of byte swapping. *)
Class SwapBytesLaws (L : SwapBytesLib) : Prop := {
  SwapBytes32_law x : 0 <= x < 2 ^ 32 -> 0 <= SwapBytes32 x < 2 ^ 32 /\ le_bytes 4 (SwapBytes32 x) = rev (le_bytes 4 x);
  SwapBytes64_law x : 0 <= x < 2 ^ 64 -> 0 <= SwapBytes64 x < 2 ^ 64 /\ le_bytes 8 (SwapBytes64 x) = rev (le_bytes 8 x)
}.

(** ** Lemmas *)
Lemma compare_bytes_zero l1 : forall l2, length l1 = length l2 -> compare_bytes l1 l2 = 0 <-> l1 = l2.
Proof.
  induction l1 as [|x l1 IH]; intros [|y l2] Hl; simpl in *; try done. case_decide as E.
  - subst. rewrite IH by lia. split; [by intros ->|by intros [= ->]].
  - split; [lia|intros [= ? ?]; done].
Qed.

Lemma slice_all {A} (l : list A) : slice l 0 (Z.of_nat (length l)) = l.
Proof. unfold slice. rewrite Nat2Z.id. apply firstn_all. Qed.

Lemma CompareMem_spec l1 off l2 :
  0 <= off -> off + Z.of_nat (length l2) <= Z.of_nat (length l1) ->
  exists c, CompareMem l1 off l2 (Z.of_nat (length l2)) = Ret c /\ (c = 0 <-> slice l1 off (Z.of_nat (length l2)) = l2).
Proof.
  intros Ho Hl. unfold CompareMem. rewrite (rd_slice_in l1), (rd_slice_in l2) by lia. rewrite !bind_ret.
  rewrite slice_all.
  eexists. split; [done|]. apply compare_bytes_zero. rewrite slice_length by lia. lia.
Qed.

Lemma slice_app_next {A} (l : list A) o n k :
  0 <= o -> 0 <= n -> 0 <= k -> slice l o (n + k) = slice l o n ++ slice l (o + n) k.
Proof.
  intros. unfold slice. rewrite !Z2Nat.inj_add by lia. by rewrite <- take_take_drop, drop_drop.
Qed.

Lemma slice_single (l : list Z) i x : 0 <= i < Z.of_nat (length l) -> rd l i = Ret x -> slice l i 1 = [x].
Proof.
  intros Hi Hr. apply rd_Ret in Hr as [_ Hx]. unfold slice. change (Z.to_nat 1) with 1%nat.
  rewrite (drop_S l x (Z.to_nat i)) by done. done.
Qed.

Lemma replicate_snoc {A} n (x : A) : replicate (S n) x = replicate n x ++ [x].
Proof. by rewrite <- replicate_cons_app. Qed.

Section Check.
Context {Build : BnBuild} {HB : BnBuildOk Build}.
Abbreviation w := OC_BN_WORD_NUM_BITS.

(** The padding loop from index 2 up to [last]. *)
Lemma padding_loop (S0 : list Z) last :
  2 <= last <= Z.of_nat (length S0) ->
  exists r, while_ (Z.to_nat last + 1)
    (fun Index =>
       if decide (Index < last) then
         x ← rd S0 Index; if decide (x <> 0xFF) then Ret (inr None) else Ret (inl (Index + 1))
       else Ret (inr (Some Index))) 2 = Ret r /\
    match r with
    | Some Index => Index = last /\ slice S0 2 (last - 2) = replicate (Z.to_nat (last - 2)) 0xFF
    | None => slice S0 2 (last - 2) <> replicate (Z.to_nat (last - 2)) 0xFF
    end.
Proof using.
  intros Hl.
  oc_while (fun i => 2 <= i <= last /\ slice S0 2 (i - 2) = replicate (Z.to_nat (i - 2)) 0xFF)
    (fun i => Z.to_nat (last - i))
    (fun r : option Z => match r with
      | Some Index => Index = last /\ slice S0 2 (last - 2) = replicate (Z.to_nat (last - 2)) 0xFF
      | None => slice S0 2 (last - 2) <> replicate (Z.to_nat (last - 2)) 0xFF end) as r Hr; [| |lia|eauto].
  - intros i (Hi & Hs). case_decide as Hlt.
    + destruct (lookup_lt_is_Some_2 S0 (Z.to_nat i)) as [x Hx]; [lia|].
      assert (rd S0 i = Ret x) as Hrd by (apply rd_lookup; [lia|done]). rewrite Hrd, bind_ret. cbv beta.
      case_decide as Hff; eexists; (split; [done|]).
      * intros E. apply Hff. apply (f_equal (lookup (Z.to_nat (i - 2)))) in E.
        rewrite lookup_slice in E by lia. replace (Z.to_nat 2 + Z.to_nat (i - 2))%nat with (Z.to_nat i) in E by lia.
        rewrite Hx, lookup_replicate_2 in E by lia. congruence.
      * assert (x = 0xFF) as -> by (destruct (decide (x = 255)); [done|tauto]).
        split; [|lia]. split; [lia|]. replace (i + 1 - 2) with (i - 2 + 1) by lia.
        rewrite slice_app_next by lia. rewrite Hs. replace (2 + (i - 2)) with i by lia.
        rewrite (slice_single S0 i 0xFF) by (done || lia).
        replace (Z.to_nat (i - 2 + 1)) with (S (Z.to_nat (i - 2))) by lia. by rewrite replicate_snoc.
    + eexists. split; [done|]. assert (i = last) as -> by lia. done.
  - split; [lia|]. done.
Qed.

(** The encoded message, field by field. *)
Lemma emsa_fields S0 P H :
  let k := Z.of_nat (length S0) in let t := Z.of_nat (length (P ++ H)) in let last := k - t - 1 in
  t + 11 <= k ->
  S0 = emsa_pkcs1 k (P ++ H) <->
  slice S0 0 2 = [0; 1] /\ slice S0 2 (last - 2) = replicate (Z.to_nat (last - 2)) 0xFF /\ slice S0 last 1 = [0] /\
  slice S0 (last + 1) (Z.of_nat (length P)) = P /\ slice S0 (last + 1 + Z.of_nat (length P)) (Z.of_nat (length H)) = H.
Proof using.
  intros k t last Hk. assert (t = Z.of_nat (length P) + Z.of_nat (length H)) as Et by (unfold t; rewrite length_app; lia).
  assert (S0 = slice S0 0 2 ++ slice S0 2 (last - 2) ++ slice S0 last 1 ++
    slice S0 (last + 1) (Z.of_nat (length P)) ++ slice S0 (last + 1 + Z.of_nat (length P)) (Z.of_nat (length H))) as Hsplit.
  { rewrite <- (slice_all S0) at 1. fold k.
    replace k with (2 + ((last - 2) + (1 + (Z.of_nat (length P) + Z.of_nat (length H))))) by lia.
    rewrite !slice_app_next by lia. repeat f_equal; lia. }
  unfold emsa_pkcs1. replace (k - Z.of_nat (length (P ++ H)) - 3) with (last - 2) by (fold t; lia).
  assert (length (slice S0 0 2) = 2%nat) by (apply slice_length; lia).
  assert (length (slice S0 2 (last - 2)) = Z.to_nat (last - 2)) by (apply slice_length; lia).
  assert (length (slice S0 last 1) = 1%nat) by (apply slice_length; lia).
  assert (length (slice S0 (last + 1) (Z.of_nat (length P))) = length P) by (rewrite slice_length by lia; lia).
  split.
  - intros E. rewrite E in Hsplit at 1.
    apply app_inj_1 in Hsplit as [E1 Hsplit]; [|simpl; lia].
    apply app_inj_1 in Hsplit as [E2 Hsplit]; [|rewrite length_replicate; lia].
    apply app_inj_1 in Hsplit as [E3 Hsplit]; [|simpl; lia].
    apply app_inj_1 in Hsplit as [E4 E5]; [|lia]. split_and!; congruence.
  - intros (E1 & E2 & E3 & E4 & E5). rewrite Hsplit at 1. by rewrite E1, E2, E3, E4, E5.
Qed.

Lemma Check_spec S0 P H :
  length S0 <> 0%nat -> Z.of_nat (length S0) < 2 ^ 31 -> Z.of_nat (length (P ++ H)) < 2 ^ 30 ->
  CheckEncodedMessage S0 (Z.of_nat (length S0)) P (Z.of_nat (length P)) H (Z.of_nat (length H)) =
  Ret (bool_decide (encodes S0 (P ++ H))).
Proof using HB.
  intros Hne HS HT. pose proof pow_w_min as HW. pose proof (length_app P H) as El. unfold CheckEncodedMessage, encodes.
  set (k := Z.of_nat (length S0)) in *. set (t := Z.of_nat (length (P ++ H))) in *.
  rewrite (wrap_small w (_ + Z.of_nat (length H))) by lia.
  replace (Z.of_nat (length P) + Z.of_nat (length H)) with t by lia. rewrite (wrap_small w (t + 11)) by lia.
  case_decide as Hlt; [by rewrite bool_decide_false by lia|].
  destruct (lookup_lt_is_Some_2 S0 0) as [s0 H0]; [lia|]. destruct (lookup_lt_is_Some_2 S0 1) as [s1 H1]; [lia|].
  rewrite (rd_nat S0 0 s0 H0 : rd S0 0 = _), (rd_nat S0 1 s1 H1 : rd S0 1 = _), !bind_ret. cbv beta.
  assert (slice S0 0 2 = [s0; s1]) as Hs01.
  { change 2 with (1 + 1). rewrite slice_app_next by lia.
    by rewrite (slice_single S0 0 s0), (slice_single S0 (0 + 1) s1) by (lia || by apply rd_lookup). }
  set (last := k - t - 1). rewrite (wrap_small w (k - t)), (wrap_small w (k - t - 3)), (wrap_small w (_ + 2)) by lia.
  replace (k - t - 3 + 2) with last by lia.
  pose proof (emsa_fields S0 P H) as Hf. cbv zeta in Hf. fold k t last in Hf. specialize (Hf ltac:(lia)).
  case_decide as H01.
  { rewrite bool_decide_false; [done|]. intros [_ E]. apply Hf in E as (E & _). rewrite Hs01 in E. injection E. tauto. }
  destruct (padding_loop S0 last ltac:(lia)) as ([i|] & -> & Hr); rewrite bind_ret; cbv beta iota.
  2:{ rewrite bool_decide_false; [done|]. intros [_ E]. apply Hf in E as (_ & E & _). done. }
  destruct Hr as [-> Hpad]. destruct (lookup_lt_is_Some_2 S0 (Z.to_nat last)) as [z Hz]; [lia|].
  assert (rd S0 last = Ret z) as Hrz by (apply rd_lookup; [lia|done]). rewrite Hrz, bind_ret. cbv beta.
  pose proof (slice_single S0 last z ltac:(lia) Hrz) as Hsz. case_decide as Hz0.
  { rewrite bool_decide_false; [done|]. intros [_ E]. apply Hf in E as (_ & _ & E & _). rewrite Hsz in E. congruence. }
  destruct (CompareMem_spec S0 (last + 1) P) as (c1 & -> & Hc1); [lia|lia|]. rewrite bind_ret. cbv beta. case_decide as Hc10.
  { rewrite bool_decide_false; [done|]. intros [_ E]. apply Hf in E as (_ & _ & _ & E & _). tauto. }
  destruct (CompareMem_spec S0 (last + 1 + Z.of_nat (length P)) H) as (c2 & -> & Hc2); [lia|lia|]. rewrite bind_ret. cbv beta.
  case_decide as Hc20.
  { rewrite bool_decide_false; [done|]. intros [_ E]. apply Hf in E as (_ & _ & _ & _ & E). tauto. }
  rewrite ASSERT_true by (apply bool_decide_true; lia). rewrite bind_ret. rewrite bool_decide_true; [done|].
  split; [lia|]. apply Hf. split_and!; [rewrite Hs01; repeat f_equal; lia|done|rewrite Hsz; repeat f_equal; lia|tauto|tauto].
Qed.

(** *** Bytes *)
Lemma le_bytes_app a b x :
  le_bytes (a + b) x = le_bytes a x ++ le_bytes b (x / 2 ^ (8 * Z.of_nat a)).
Proof using.
  clear. revert x. induction a as [|a IH]; intros x; [simpl; by rewrite Z.div_1_r|].
  cbn [le_bytes Nat.add app]. rewrite IH. do 3 f_equal.
  rewrite Z.div_div by (try apply Z.pow_pos_nonneg; lia). rewrite <- Z.pow_add_r by lia. do 2 f_equal. lia.
Qed.

(** The bytes above the low part do not matter for the low bytes. *)
Lemma le_bytes_low k x y : le_bytes k (x + y * 2 ^ (8 * Z.of_nat k)) = le_bytes k x.
Proof using.
  clear. revert x y. induction k as [|k IH]; intros x y; [done|]. cbn [le_bytes].
  replace (y * 2 ^ (8 * Z.of_nat (S k))) with (y * 2 ^ (8 * Z.of_nat k) * 2 ^ 8).
  2:{ rewrite <- Z.mul_assoc, <- Z.pow_add_r by lia. do 2 f_equal. lia. }
  rewrite Z_mod_plus_full, Z.div_add by lia. by rewrite IH.
Qed.

Lemma be_value_le_bytes k x : 0 <= x < 2 ^ (8 * Z.of_nat k) -> be_value (be_bytes k x) = x.
Proof using.
  clear. unfold be_bytes. revert x. induction k as [|k IH]; intros x Hx; [simpl in *; change (be_value []) with 0; lia|].
  cbn [le_bytes rev]. rewrite be_value_app. change (be_value [x mod 2 ^ 8]) with (x mod 2 ^ 8).
  change (2 ^ (8 * Z.of_nat (length [x mod 2 ^ 8]))) with (2 ^ 8). rewrite IH.
  - pose proof (Z.div_mod x (2 ^ 8) ltac:(lia)). lia.
  - replace (8 * Z.of_nat (S k)) with (8 + 8 * Z.of_nat k) in Hx by lia. rewrite Z.pow_add_r in Hx by lia.
    split; [apply Z.div_pos; lia|apply Z.div_lt_upper_bound; lia].
Qed.

Section Bytes.
Context {Swap : SwapBytesLib} {HSwap : SwapBytesLaws Swap}.

(** The words of a memory block as bytes. *)
Lemma value_bytes m p n :
  0 <= n -> buffer w m p n ->
  concat (le_bytes (Z.to_nat OC_BN_WORD_SIZE) <$> (word m p <$> seqZ 0 n)) =
  le_bytes (Z.to_nat (n * OC_BN_WORD_SIZE)) (value w m p n).
Proof using HB.
  set (S := OC_BN_WORD_SIZE). assert (w = 8 * S /\ 0 < S) as [Ew HS] by (unfold w, S; destruct HB; lia).
  intros Hn. revert n Hn. apply (natlike_ind (fun n => buffer w m p n -> _)); [done|].
  intros n Hn IH Hb. unfold Z.succ. specialize (IH (buffer_le w m p (n + 1) n Hb ltac:(lia))).
  rewrite seqZ_app, !fmap_app, concat_app, IH by lia. change (seqZ (0 + n) 1) with [0 + (0 + n)]. simpl concat.
  rewrite app_nil_r, !Z.add_0_l, value_S by lia.
  replace (Z.to_nat ((n + 1) * S)) with (Z.to_nat (n * S) + Z.to_nat S)%nat by nia.
  rewrite le_bytes_app. replace (8 * Z.of_nat (Z.to_nat (n * S))) with (w * n) by (rewrite Ew; nia).
  pose proof (vrange m p n (buffer_le w m p (n + 1) n Hb ltac:(lia)) ltac:(lia)).
  assert (0 < 2 ^ (w * n)) by (apply Z.pow_pos_nonneg; nia).
  f_equal.
  - replace (w * n) with (8 * Z.of_nat (Z.to_nat (n * S))) by (rewrite Ew; nia). by rewrite le_bytes_low.
  - rewrite Z.div_add, Z.div_small by lia. by rewrite Z.add_0_l.
Qed.

Lemma SwapWord_spec x : 0 <= x < 2 ^ w ->
  exists y, BigNumSwapWord x = Ret y /\ 0 <= y < 2 ^ w /\
    le_bytes (Z.to_nat OC_BN_WORD_SIZE) y = rev (le_bytes (Z.to_nat OC_BN_WORD_SIZE) x).
Proof using HB HSwap.
  intros Hx. unfold BigNumSwapWord, w in *. destruct HB as [E|E]; rewrite E in *.
  - rewrite decide_True by done. rewrite wrap_small by done. eexists. split; [done|]. by apply SwapBytes32_law.
  - rewrite decide_False, decide_True by done. rewrite wrap_small by done. eexists. split; [done|]. by apply SwapBytes64_law.
Qed.

Lemma SwapResult_spec m E D n :
  0 <= n -> buffer w m E n -> buffer w m D n -> apart E n D n ->
  exists m', SwapResult m E D n = Ret m' /\ unchanged_but m m' E n /\
    bytes_at m' E n = Ret (be_bytes (Z.to_nat (n * OC_BN_WORD_SIZE)) (value w m D n)).
Proof using HB HSwap.
  intros Hn HE HD Hap. unfold SwapResult. set (k := Z.to_nat OC_BN_WORD_SIZE).
  oc_for (fun (i : Z) (m' : mem) => unchanged_but m m' E n /\ buffer w m' E n /\
    forall j, n - i <= j < n -> le_bytes k (word m' E j) = rev (le_bytes k (word m D (n - 1 - j)))) as m1 Hm1.
  - split_and!; [done|done|lia].
  - intros i m' Hi (Hu & Hb & Hk). replace (n - 1 - (n - 1 - i)) with i by lia.
    rewrite (ld_frame w m m' D n) by (done || lia || (apply Hu, (in_range_apart E n D n); [done|lia])). rewrite bind_ret. cbv beta.
    destruct (SwapWord_spec (word m D i) (word_range w m D n i HD ltac:(lia))) as (y & -> & Hy & Hly). rewrite bind_ret. cbv beta.
    rewrite (st_in w m' E n) by (done || lia). eexists. split; [done|]. split_and!.
    + apply unchanged_insert; [done|lia].
    + by apply buffer_insert.
    + intros j Hj. destruct (decide (j = n - 1 - i)) as [->|].
      * rewrite word_insert_eq. replace (n - 1 - (n - 1 - i)) with i by lia. done.
      * unfold word at 1. rewrite lookup_insert_ne by (intros Ei; apply loc_add_inj in Ei; lia). apply Hk. lia.
  - rewrite Z.add_0_l, Z2Nat.id in Hm1 by lia. destruct Hm1 as (Hu & Hb & Hk). exists m1. split_and!; [done|done|].
    unfold bytes_at. rewrite (ld_list_in w) by (by rewrite Z2Nat.id). rewrite bind_ret. fold k. f_equal.
    unfold be_bytes. rewrite <- value_bytes by done. fold k. rewrite Z2Nat.id by lia.
    assert (le_bytes k <$> (word m1 E <$> seqZ 0 n) = (@rev Z <$> reverse (le_bytes k <$> (word m D <$> seqZ 0 n)))) as ->.
    { apply list_eq. intros i. rewrite !list_lookup_fmap. destruct (decide (i < Z.to_nat n)%nat) as [Hi|Hi].
      - rewrite reverse_lookup by (rewrite !length_fmap, length_seqZ; lia).
        rewrite !list_lookup_fmap, !length_fmap, length_seqZ, !lookup_seqZ_lt by lia. simpl. f_equal. rewrite Hk by lia.
        do 3 f_equal. lia.
      - rewrite lookup_seqZ_ge by lia. simpl. symmetry. apply fmap_None, lookup_ge_None.
        rewrite length_reverse, !length_fmap, length_seqZ. lia. }
    generalize (le_bytes k <$> (word m D <$> seqZ 0 n)). intros ls. clear. induction ls as [|l ls IH]; [done|].
    rewrite reverse_cons, fmap_app, concat_app, IH. simpl. by rewrite rev_app_distr, app_nil_r.
Qed.

Context {Sha : ShaLib} {Pcd : CryptoPcd}.

Lemma modulus_size n : 0 < n < 2 ^ 16 -> wrap 32 (OC_BN_SIZE n) = n * OC_BN_WORD_SIZE.
Proof using HB.
  intros Hn. pose proof pow_w_min. pose proof HB as HB'. unfold BnBuildOk in HB'. unfold OC_BN_SIZE.
  rewrite (wrap_small 32 n) by lia. rewrite (wrap_small w) by nia. apply wrap_small. nia.
Qed.

(** The verdict of the verification for the modulus [Nv] of [n] words. *)
Definition verdict (n Nv Exponent : Z) (Signature Hash : list Z) (Algorithm : OC_SIG_HASH_TYPE) : bool :=
  let size := n * OC_BN_WORD_SIZE in
  InternalSigHashTypeIsAllowed Algorithm && InternalRsaModulusSizeIsAllowed size &&
  bool_decide (Z.of_nat (length Signature) = size) &&
  bool_decide (encodes (be_bytes (Z.to_nat size) (be_value Signature ^ Exponent mod Nv)) ((PaddingOf Algorithm).1 ++ Hash)).

Lemma PaddingOf_size Algorithm :
  Z.of_nat (length (PaddingOf Algorithm).1) = 19 /\ 0 < (PaddingOf Algorithm).2 <= 64.
Proof using. clear. destruct Algorithm; vm_compute; split; congruence || (split; congruence). Qed.

Lemma HashFromProcessed_spec m N n N0Inv RSqr Signature Hash Algorithm Scratch :
  modulus_ok N n N0Inv m -> n <= OC_BN_MAX_LEN -> buffer w m RSqr n ->
  cong (value w m N n) (value w m RSqr n) (2 ^ (w * n) * 2 ^ (w * n)) ->
  buffer w m Scratch (3 * n) -> apart Scratch (3 * n) N n -> apart Scratch (3 * n) RSqr n ->
  Forall is_byte Signature -> Signature <> [] -> Z.of_nat (length Hash) = (PaddingOf Algorithm).2 ->
  (be_value Signature <= value w m N n \/ 2 ^ (w * n) <= 2 * value w m N n) ->
  exists m', RsaVerifySigHashFromProcessed m N n N0Inv RSqr 65537 Signature (Z.of_nat (length Signature)) Hash
      (Z.of_nat (length Hash)) Algorithm Scratch = Ret (m', verdict n (value w m N n) 65537 Signature Hash Algorithm) /\
    unchanged_but m m' Scratch (3 * n).
Proof using HB HSwap.
  intros Hok Hmax HRS HR2 HS HSN HSR Hsig Hne Hhash Hsmall. pose proof Hok as (Hn & HN & Hi).
  destruct (PaddingOf_size Algorithm) as [HP HD]. assert (0 < Z.of_nat (length Signature)) by (destruct Signature; [done|simpl; lia]).
  unfold RsaVerifySigHashFromProcessed, verdict. rewrite !ASSERT_true by (apply bool_decide_true; lia). rewrite !bind_ret.
  rewrite decide_False by lia.
  destruct (InternalSigHashTypeIsAllowed Algorithm); [|by exists m]. simpl negb. cbv iota.
  destruct (PaddingOf Algorithm) as [P DS] eqn:EP. simpl in HP, HD, Hhash |- *.
  rewrite ASSERT_true by (apply bool_decide_true; lia). rewrite bind_ret. cbv zeta. rewrite modulus_size by done.
  set (size := n * OC_BN_WORD_SIZE). assert (4 * n <= size <= 8 * n) as Hsize by (unfold size; destruct HB; lia).
  destruct (InternalRsaModulusSizeIsAllowed size); [|by exists m]. simpl.
  case_decide as Hlen; [rewrite bool_decide_false by done; by exists m|]. rewrite (bool_decide_true (_ = size)) by done. simpl.
  assert (buffer w m Scratch n) as HB1 by (eapply buffer_le; [done|lia]).
  assert (buffer w m (Scratch +ₗ n) n) as HB2 by (apply (buffer_sub w m Scratch (3 * n)); [done|lia..]).
  rewrite loc_add_add. assert (buffer w m (Scratch +ₗ (n + n)) n) as HB3 by (apply (buffer_sub w m Scratch (3 * n)); [done|lia..]).
  destruct (ParseBuffer_spec m Scratch n Signature Hn HB1 Hlen Hsig) as (m1 & E1 & Hu1 & Hb1 & Hv1).
  rewrite Hlen. unfold size in *. rewrite E1, bind_ret. cbv beta.
  assert (forall q, apart Scratch (3 * n) q n -> apart Scratch n q n) as Hap by (unfold apart; intros; lia).
  assert (modulus_ok N n N0Inv m1 /\ value w m1 N n = value w m N n) as [Hok1 EN1].
  { split; [by apply (modulus_ok_frame N n N0Inv m m1 Scratch); auto|by apply (unchanged_value w m m1 Scratch n); auto]. }
  assert (forall q, apart Scratch n q n -> buffer w m q n -> buffer w m1 q n) as Hfr by (intros; by apply (unchanged_buffer w m m1 Scratch n)).
  assert (apart Scratch n (Scratch +ₗ n) n /\ apart Scratch n (Scratch +ₗ (n + n)) n /\ apart (Scratch +ₗ n) n (Scratch +ₗ (n + n)) n)
    as (A1 & A2 & A3) by (unfold apart, loc_add; simpl; lia).
  destruct (PowMod_65537 m1 (Scratch +ₗ n) Scratch N RSqr (Scratch +ₗ (n + n)) n N0Inv) as (m2 & E2 & (Hf2 & Hb2 & _) & Hv2);
    [done|by apply Hfr|done|by apply Hfr; auto|by apply Hfr|by apply apart_sym|unfold apart, loc_add in *; simpl; lia|done|
     by apply apart_sym|unfold apart, loc_add in *; simpl; lia|unfold apart, loc_add in *; simpl; lia| | |].
  { rewrite EN1. rewrite (unchanged_value w m m1 Scratch n RSqr n Hu1) by auto. done. }
  { rewrite EN1, Hv1. done. }
  rewrite E2, bind_ret. cbv beta iota. simpl negb. cbv iota.
  assert (buffer w m2 Scratch n) as HbE.
  { apply (buffer_frame w m1); [done|]. intros k Hk. apply Hf2; unfold in_range, loc_add; simpl; lia. }
  destruct (SwapResult_spec m2 Scratch (Scratch +ₗ n) n) as (m3 & -> & Hu3 & Hby); [lia|done|done|done|].
  assert (unchanged_but m m3 Scratch (3 * n)) as Hu.
  { clear - Hu1 Hf2 Hu3 Hn. intros l Hl.
    rewrite Hu3, Hf2, Hu1; [done|..]; intros Hr; apply Hl; unfold in_range, loc_add in *; simpl in *; lia. }
  rewrite bind_ret. cbv beta. rewrite Hby, bind_ret. cbv beta. rewrite Hv2, EN1, Hv1.
  set (em := be_bytes _ _).
  assert (length em = length Signature) as Hle by (unfold em, be_bytes; rewrite length_rev, length_le_bytes; lia).
  rewrite <- Hlen, <- Hle. rewrite Check_spec by (rewrite ?length_app; lia). rewrite bind_ret.
  exists m3. split; [reflexivity|exact Hu].
Qed.

(** *** Verification from raw key data *)

(** A fresh block of [size] bytes in whole words. *)
Definition fresh_block (m m' : mem) (p : loc) (n : Z) : Prop :=
  buffer w m' p n /\ unchanged_but m m' p n /\ forall l, in_range p n l -> m !! l = None.

Lemma FreeWords_fresh m m1 m2 p n :
  fresh_block m m1 p n -> unchanged_but m1 m2 p n -> FreeWords m2 p n = m.
Proof using.
  clear. intros (_ & Hu & Hnone) Hu2. apply map_eq. intros l. unfold FreeWords.
  destruct (decide (in_range p n l)) as [Hin|Hout].
  - rewrite (Hnone l Hin). apply map_lookup_filter_None. right. intros x _ Hx. by apply Hx.
  - rewrite <- Hu, <- Hu2 by done. destruct (m2 !! l) as [x|] eqn:E.
    + by apply map_lookup_filter_Some.
    + apply map_lookup_filter_None. by left.
Qed.

(** Freeing a block that was allocated inside the life time of another one. *)
Lemma FreeWords_outside m p n l : ~ in_range p n l -> FreeWords m p n !! l = m !! l.
Proof using.
  clear. intros Hout. unfold FreeWords. destruct (m !! l) as [x|] eqn:E.
  - by apply map_lookup_filter_Some.
  - apply map_lookup_filter_None. by left.
Qed.

Context {Pool : WordPool}.

(** What the pool promises: a block of the requested size that is not in use. *)
Definition pool_ok : Prop :=
  forall m size m' p, AllocateWords m size = Some (m', p) -> fresh_block m m' p (size / OC_BN_WORD_SIZE).

Lemma words_of_sizes n :
  0 < n <= OC_BN_MONT_MAX_LEN ->
  OC_BN_SIZE OC_BN_MONT_MAX_LEN = OC_BN_MONT_MAX_LEN * OC_BN_WORD_SIZE /\
  (2 * (n * OC_BN_WORD_SIZE) + BIG_NUM_MONT_PARAMS_SCRATCH_SIZE n) / OC_BN_WORD_SIZE = 2 * n + 6 * (n + 1) /\
  RSA_SCRATCH_BUFFER_SIZE (n * OC_BN_WORD_SIZE) / OC_BN_WORD_SIZE = 3 * n.
Proof using HB.
  intros Hn. pose proof mont_max_len as Hmax. pose proof pow_w_min as HW. pose proof HB as HB'. unfold BnBuildOk in HB'.
  assert (forall k, 0 <= k < 2 ^ 24 -> OC_BN_SIZE k = k * OC_BN_WORD_SIZE) as Hsz.
  { intros k Hk. unfold OC_BN_SIZE. rewrite (wrap_small 32), wrap_small by nia. done. }
  unfold BIG_NUM_MONT_PARAMS_SCRATCH_SIZE, RSA_SCRATCH_BUFFER_SIZE, OC_BN_MONT_RSQR_LEN. rewrite (wrap_small 16) by lia.
  rewrite !Hsz by lia. split; [done|]. split.
  - replace (2 * (n * OC_BN_WORD_SIZE) + (n + 1) * 2 * OC_BN_WORD_SIZE * 3) with ((2 * n + 6 * (n + 1)) * OC_BN_WORD_SIZE) by ring.
    apply Z.div_mul. lia.
  - replace (n * OC_BN_WORD_SIZE * 3) with (3 * n * OC_BN_WORD_SIZE) by ring. apply Z.div_mul. lia.
Qed.

Lemma mont_len_le : OC_BN_MONT_MAX_LEN <= OC_BN_MAX_LEN.
Proof using HB. unfold OC_BN_MONT_MAX_LEN, OC_BN_MAX_LEN. destruct HB as [-> | ->]; vm_compute; congruence. Qed.

Lemma odd_low m p n : 0 < n -> buffer w m p n -> Z.odd (word m p 0) = Z.odd (value w m p n).
Proof using HB.
  intros Hn Hb. destruct (value_low m p n Hn) as [k Hk]. pose proof w_pos.
  replace (value w m p n) with (word m p 0 + 2 * (k * 2 ^ (w - 1))).
  - by rewrite Z.odd_add, Z.odd_mul, xorb_false_r.
  - assert (2 ^ w = 2 * 2 ^ (w - 1)) as E by (rewrite <- Z.pow_succ_r by lia; f_equal; lia). rewrite E in Hk. lia.
Qed.

Lemma fresh_apart (m m' : mem) p n q k :
  fresh_block m m' p n -> buffer w m q k -> 0 < n -> 0 < k -> apart p n q k.
Proof using.
  intros (_ & _ & Hnone) Hb Hn Hk. unfold apart. destruct (decide (p.1 = q.1)) as [Ep|]; [|by left]. right.
  destruct (decide (p.2 + n <= q.2)); [by left|]. right. apply Z.le_ngt. intros Hlt.
  set (i := Z.max 0 (p.2 - q.2)). destruct (Hb i) as (x & Hx & _); [lia|].
  rewrite (Hnone (q +ₗ i)) in Hx; [done|]. unfold in_range, loc_add. simpl. lia.
Qed.

(** The digest of [Data]. *)
Definition digest (Algorithm : OC_SIG_HASH_TYPE) (Data : list Z) : list Z :=
  match Algorithm with
  | OcSigHashTypeSha256 => Sha256 Data
  | OcSigHashTypeSha384 => Sha384 Data
  | OcSigHashTypeSha512 => Sha512 Data
  end.

Context {HSha : ShaLaws Sha}.

Lemma digest_size Algorithm Data : Z.of_nat (length (digest Algorithm Data)) = (PaddingOf Algorithm).2.
Proof using HSha. destruct Algorithm; simpl; rewrite ?Sha256_size, ?Sha384_size, ?Sha512_size; done. Qed.

Lemma DataFromProcessed_digest m N n N0Inv RSqr e Signature Data Algorithm Scratch :
  0 < n -> 0 < e -> Signature <> [] -> Data <> [] ->
  RsaVerifySigDataFromProcessed m N n N0Inv RSqr e Signature (Z.of_nat (length Signature)) Data Algorithm Scratch =
  RsaVerifySigHashFromProcessed m N n N0Inv RSqr e Signature (Z.of_nat (length Signature)) (digest Algorithm Data)
    (Z.of_nat (length (digest Algorithm Data))) Algorithm Scratch.
Proof using HSha.
  intros Hn He Hs Hd. unfold RsaVerifySigDataFromProcessed. assert (0 < Z.of_nat (length Signature)) by (destruct Signature; [done|simpl; lia]).
  rewrite !ASSERT_true by (apply bool_decide_true; done || lia). rewrite !bind_ret.
  rewrite digest_size. by destruct Algorithm.
Qed.

Lemma DataFromData_spec m Modulus n Signature Data Algorithm :
  asserts_enabled = false -> pool_ok ->
  0 < n <= OC_BN_MONT_MAX_LEN -> Z.of_nat (length Modulus) = n * OC_BN_WORD_SIZE -> Forall is_byte Modulus ->
  let Nv := be_value Modulus in
  2 ^ (w * (n - 1)) <= Nv -> Forall is_byte Signature -> Signature <> [] -> Data <> [] ->
  (be_value Signature <= Nv \/ 2 ^ (w * n) <= 2 * Nv) ->
  let valid := Z.odd Nv && verdict n Nv 65537 Signature (digest Algorithm Data) Algorithm in
  exists b, RsaVerifySigDataFromData m Modulus (Z.of_nat (length Modulus)) 65537 Signature (Z.of_nat (length Signature)) Data
      Algorithm = Ret (m, b) /\ (b = true -> valid = true) /\
    ((forall m size, AllocateWords m size <> None) -> b = valid).
Proof using HB HSwap HSha.
  intros Hrel Hpool Hn Hlen Hmod Nv Htop Hsig Hsne Hdne Hsmall valid. pose proof mont_max_len as Hmax.
  pose proof HB as HB'. unfold BnBuildOk in HB'. pose proof w_pos as Hw.
  destruct (words_of_sizes n Hn) as (S1 & S2 & S3). unfold RsaVerifySigDataFromData.
  rewrite !ASSERT_release by done. rewrite !bind_ret. rewrite Hlen, S1.
  rewrite decide_False by (rewrite Z.mod_mul by lia; nia). cbv zeta. rewrite Z.div_mul, (wrap_small 16), S2, S3 by lia.
  destruct (AllocateWords m (2 * (n * OC_BN_WORD_SIZE) + BIG_NUM_MONT_PARAMS_SCRATCH_SIZE n)) as [[m1 M]|] eqn:EA;
    [|exists false; split_and!; [done|done|intros Hno; by edestruct Hno]].
  apply Hpool in EA as HF1. rewrite S2 in HF1. pose proof HF1 as (HbM & HuM & _).
  replace (M +ₗ 0 * n) with M by (by rewrite Z.mul_0_l, loc_add_0). rewrite Z.mul_1_l.
  destruct (ParseBuffer_spec m1 M n Modulus) as (m2 & E2 & Hu2 & Hb2 & Hv2); [lia|eapply buffer_le; [done|lia]|done|done|].
  rewrite E2, bind_ret. cbv beta. fold Nv in Hv2.
  assert (forall q k, 0 <= q -> q + k <= 2 * n + 6 * (n + 1) -> buffer w m2 (M +ₗ q) k) as Hsub.
  { intros q k Hq Hk. apply (buffer_sub w m2 M (2 * n + 6 * (n + 1))); [|lia|lia]. intros j Hj.
    destruct (decide (j < n)); [apply Hb2; lia|]. rewrite Hu2 by (rewrite in_range_add; lia). by apply HbM. }
  assert (word m2 M (n - 1) <> 0) as Hw0.
  { intros E0. pose proof (value_S w m2 M (n - 1) ltac:(lia)) as Hv. rewrite Z.sub_add, E0, Hv2 in Hv.
    pose proof (vrange m2 M (n - 1) (buffer_le w m2 M n (n - 1) Hb2 ltac:(lia)) ltac:(lia)). lia. }
  pose proof (MontParams_runs m2 (M +ₗ n) n M (M +ₗ 2 * n) Hn ltac:(apply Hsub; lia) Hb2 ltac:(apply Hsub; lia)
    ltac:(unfold apart, loc_add; simpl; lia) ltac:(unfold apart, loc_add; simpl; lia) Hw0) as Hruns.
  rewrite (odd_low m2 M n) in Hruns by (done || lia). rewrite Hv2 in Hruns.
  destruct (BigNumCalculateMontParams m2 (M +ₗ n) n M (M +ₗ 2 * n)) as [[m3 ninv]|[| |]];
    [|done|simpl in Hruns; congruence|done]. rewrite bind_ret. cbv beta iota. simpl in Hruns.
  assert (unchanged_but m1 m2 M (2 * n + 6 * (n + 1))) as Hu12 by (eapply unchanged_mono; [done|unfold in_range; lia]).
  subst valid. destruct (Z.odd Nv) eqn:Ho; simpl in Hruns.
  2:{ injection Hruns as -> ->. rewrite decide_True by done. rewrite (FreeWords_fresh m m1) by done. exists false. done. }
  destruct Hruns as (Hinv & Hb3 & Hv3 & Hf3). rewrite decide_False by (destruct Hinv; lia).
  assert (unchanged_but m1 m3 M (2 * n + 6 * (n + 1))) as Hu13.
  { eapply unchanged_trans; [done|]. intros l Hl. apply Hf3; intros Hr; apply Hl; unfold in_range, loc_add in *; simpl in *; lia. }
  destruct (AllocateWords m3 (RSA_SCRATCH_BUFFER_SIZE (n * OC_BN_WORD_SIZE))) as [[m4 Sc]|] eqn:EB;
    [|rewrite (FreeWords_fresh m m1) by done; exists false; split_and!; [done|done|intros Hno; by edestruct Hno]].
  apply Hpool in EB as HF2. rewrite S3 in HF2. pose proof HF2 as (HbS & HuS & _).
  assert (forall k, 0 <= k < n -> m3 !! (M +ₗ k) = m2 !! (M +ₗ k)) as H32.
  { intros k Hk. apply Hf3; unfold in_range, loc_add; simpl; lia. }
  assert (buffer w m3 M n) as HbN3 by (by apply (buffer_frame w m2)).
  pose proof (fresh_apart m3 m4 Sc (3 * n) M n HF2 HbN3 ltac:(lia) ltac:(lia)) as HaN.
  pose proof (fresh_apart m3 m4 Sc (3 * n) (M +ₗ n) n HF2 Hb3 ltac:(lia) ltac:(lia)) as HaR.
  assert (value w m4 M n = Nv) as EN4.
  { rewrite (unchanged_value w m3 m4 Sc (3 * n) M n HuS HaN). rewrite <- Hv2. by apply value_frame. }
  rewrite DataFromProcessed_digest by (done || lia).
  destruct (HashFromProcessed_spec m4 M n ninv (M +ₗ n) Signature (digest Algorithm Data) Algorithm Sc) as (m5 & -> & Hu5).
  - split_and!; [lia|lia|by apply (unchanged_buffer w m3 m4 Sc (3 * n))|].
    rewrite (word_frame m2 m4 M M 0); [done|]. rewrite HuS by (apply (in_range_apart _ _ _ n); [done|lia]). apply H32. lia.
  - pose proof mont_len_le. lia.
  - by apply (unchanged_buffer w m3 m4 Sc (3 * n)).
  - rewrite EN4, (unchanged_value w m3 m4 Sc (3 * n) (M +ₗ n) n HuS HaR), Hv3.
    rewrite <- Z.pow_add_r by lia. replace (w * n + w * n) with (2 * (w * n)) by lia.
    assert (0 < 2 ^ (w * (n - 1))) as Hp by (apply Z.pow_pos_nonneg; [lia|apply Z.mul_nonneg_nonneg; lia]).
    assert (Nv <> 0) as Hnz by lia. pose proof (Z.div_mod (2 ^ (2 * (w * n))) Nv Hnz) as Hdm.
    exists (- (2 ^ (2 * (w * n)) / Nv)). rewrite Hdm at 2. ring.
  - done.
  - done.
  - done.
  - done.
  - done.
  - apply digest_size.
  - by rewrite EN4.
  - rewrite bind_ret. cbv beta iota. rewrite (FreeWords_fresh m3 m4 m5 Sc) by done. rewrite (FreeWords_fresh m m1) by done.
    rewrite EN4. eexists. split; [reflexivity|]. split; [exact (fun H => H)|]. intros _. reflexivity.
Qed.

End Bytes.
End Check.

(** ** Properties *)

(** C1: end to end, a RELEASE build of [RsaVerifySigDataFromData] with exponent
    65537 returns (with every pool block released, so the caller's memory is
    unchanged) and accepts only a signature whose [65537]-th power modulo the odd
    modulus is the encoding of the digest of the data; when the pool does not
    fail it accepts every such signature. *)
Theorem Rsa_end_to_end (Build : BnBuild) (HB : BnBuildOk Build) (Swap : SwapBytesLib) (HSwap : SwapBytesLaws Swap)
    (Sha : ShaLib) (HSha : ShaLaws Sha) (Pcd : CryptoPcd) (Pool : WordPool)
    (m : mem) (Modulus : list Z) (n : Z) (Signature Data : list Z) (Algorithm : OC_SIG_HASH_TYPE) :
  let w := OC_BN_WORD_NUM_BITS in let Nv := be_value Modulus in let size := n * OC_BN_WORD_SIZE in
  asserts_enabled = false -> pool_ok ->
  0 < n <= OC_BN_MONT_MAX_LEN -> Z.of_nat (length Modulus) = size -> Forall is_byte Modulus ->
  2 ^ (w * (n - 1)) <= Nv -> Forall is_byte Signature -> Signature <> [] -> Data <> [] ->
  (be_value Signature <= Nv \/ 2 ^ (w * n) <= 2 * Nv) ->
  let valid := Z.odd Nv = true /\ InternalSigHashTypeIsAllowed Algorithm = true /\ InternalRsaModulusSizeIsAllowed size = true /\
    Z.of_nat (length Signature) = size /\
    encodes (be_bytes (Z.to_nat size) (be_value Signature ^ 65537 mod Nv)) ((PaddingOf Algorithm).1 ++ digest Algorithm Data) in
  exists b, RsaVerifySigDataFromData m Modulus (Z.of_nat (length Modulus)) 65537 Signature (Z.of_nat (length Signature)) Data
      Algorithm = Ret (m, b) /\ (b = true -> valid) /\
    ((forall m size, AllocateWords m size <> None) -> valid -> b = true).
Proof.
  intros w Nv size H1 H2 H3 H4 H5 H6 H7 H8 H9 H10 valid.
  destruct (DataFromData_spec m Modulus n Signature Data Algorithm H1 H2 H3 H4 H5 H6 H7 H8 H9 H10) as (b & E & Hs & Hc).
  assert (Z.odd Nv && verdict n Nv 65537 Signature (digest Algorithm Data) Algorithm = true <-> valid) as Hv.
  { unfold verdict, valid. rewrite !andb_true_iff, !bool_decide_eq_true. tauto. }
  exists b. split; [exact E|]. split; [intros Hb; apply Hv, Hs, Hb|]. intros Hno Hval. rewrite (Hc Hno). by apply Hv.
Qed.

(** C40: PKCS#1 v1.5 verification with exponent 65537 always returns, and it
    returns TRUE exactly when hash type and modulus size are allowed, the
    signature has the size of the modulus, and the big-endian string of
    [Signature^65537 mod N] is the EMSA-PKCS1-v1_5 encoding of the digest; only
    the scratch buffer is modified. *)
Theorem Rsa_verifies (Build : BnBuild) (HB : BnBuildOk Build) (Swap : SwapBytesLib) (HSwap : SwapBytesLaws Swap)
    (Pcd : CryptoPcd) (m : mem) (N : loc) (n N0Inv : Z) (RSqrMod : loc) (Signature Hash : list Z)
    (Algorithm : OC_SIG_HASH_TYPE) (Scratch : loc) :
  let w := OC_BN_WORD_NUM_BITS in let Nv := value w m N n in let size := n * OC_BN_WORD_SIZE in
  modulus_ok N n N0Inv m -> n <= OC_BN_MAX_LEN -> buffer w m RSqrMod n ->
  cong Nv (value w m RSqrMod n) (2 ^ (w * n) * 2 ^ (w * n)) ->
  buffer w m Scratch (3 * n) -> apart Scratch (3 * n) N n -> apart Scratch (3 * n) RSqrMod n ->
  Forall is_byte Signature -> Signature <> [] -> Z.of_nat (length Hash) = (PaddingOf Algorithm).2 ->
  (be_value Signature <= Nv \/ 2 ^ (w * n) <= 2 * Nv) ->
  exists m' b, RsaVerifySigHashFromProcessed m N n N0Inv RSqrMod 65537 Signature (Z.of_nat (length Signature)) Hash
      (Z.of_nat (length Hash)) Algorithm Scratch = Ret (m', b) /\ unchanged_but m m' Scratch (3 * n) /\
    (b = true <->
       InternalSigHashTypeIsAllowed Algorithm = true /\ InternalRsaModulusSizeIsAllowed size = true /\
       Z.of_nat (length Signature) = size /\
       encodes (be_bytes (Z.to_nat size) (be_value Signature ^ 65537 mod Nv)) ((PaddingOf Algorithm).1 ++ Hash)).
Proof.
  intros w Nv size H1 H2 H3 H4 H5 H6 H7 H8 H9 H10 H11.
  destruct (HashFromProcessed_spec m N n N0Inv RSqrMod Signature Hash Algorithm Scratch H1 H2 H3 H4 H5 H6 H7 H8 H9 H10 H11)
    as (m' & E & Hu). eexists m', _. split; [exact E|]. split; [exact Hu|]. unfold verdict.
  rewrite !andb_true_iff, !bool_decide_eq_true. tauto.
Qed.

(** ** Witnesses *)

(** Byte swapping by its law, and a platform that allows 512-bit moduli. *)
Definition swap_rev : SwapBytesLib :=
  {| SwapBytes32 x := be_value (le_bytes 4 x); SwapBytes64 x := be_value (le_bytes 8 x) |}.

Lemma le_bytes_range k : forall x, Forall is_byte (le_bytes k x).
Proof. induction k; intros x; simpl; constructor; [apply Z.mod_pos_bound; lia|done]. Qed.

Lemma le_bytes_be_value l : Forall is_byte l -> le_bytes (length l) (be_value l) = rev l.
Proof.
  induction l as [|b l IH] using rev_ind; intros H; [done|]. apply Forall_app in H as [H1 H2].
  apply Forall_cons in H2 as [Hb _]. unfold is_byte, in_width in Hb. rewrite length_app, Nat.add_comm. cbn [length Nat.add le_bytes].
  rewrite be_value_app. change (2 ^ (8 * Z.of_nat (length [b]))) with (2 ^ 8). change (be_value [b]) with b.
  rewrite Z.add_comm, Z_mod_plus_full, Z.mod_small by lia. rewrite Z.div_add, Z.div_small, Z.add_0_l by lia.
  rewrite IH by done. by rewrite rev_app_distr.
Qed.

#[export] Instance swap_rev_laws : SwapBytesLaws swap_rev.
Proof.
  constructor; intros x Hx; simpl SwapBytes32; simpl SwapBytes64.
  - pose proof (be_value_range (le_bytes 4 x) (le_bytes_range 4 x)) as Hr. rewrite length_le_bytes in Hr. split; [exact Hr|].
    pose proof (le_bytes_be_value (le_bytes 4 x) (le_bytes_range 4 x)) as E. by rewrite length_le_bytes in E.
  - pose proof (be_value_range (le_bytes 8 x) (le_bytes_range 8 x)) as Hr. rewrite length_le_bytes in Hr. split; [exact Hr|].
    pose proof (le_bytes_be_value (le_bytes 8 x) (le_bytes_range 8 x)) as E. by rewrite length_le_bytes in E.
Qed.

Definition pcd512 : CryptoPcd := {| PcdOcCryptoAllowedRsaModuli := 64; PcdOcCryptoAllowedSigHashTypes := 7 |}.

(** A 512-bit key, the SHA-256 digest of a message and its signature. *)
Definition rsa_N : Z :=
  11263864785479927325982134292420003781553309639447072803612131019313296713221055508655192601576568586304282542970723322383315410175426911000441280361381009.
Definition rsa_N0Inv : Z := 2748200437312682895.
Definition rsa_Signature : list Z := be_bytes 64
  4460881320544444836150233008740133394352206655657099682980971902269472587424612197497423734974117639535050795777939437430696606040228280724487095625670057.
Definition rsa_Hash : list Z :=
  [85; 70; 197; 220; 198; 59; 218; 59; 26; 138; 74; 115; 44; 105; 253; 111; 166; 69; 203; 43; 49; 177; 111; 24; 230; 36; 83;
   49; 129; 4; 243; 183].

(** The little-endian digits of a number. *)
Fixpoint digits (w : Z) (n : nat) (x : Z) : list Z :=
  match n with O => [] | S n => x mod 2 ^ w :: digits w n (x / 2 ^ w) end.

Definition rsa_mem : mem :=
  alloc (1, 0) (digits 64 8 rsa_N) (alloc (2, 0) (digits 64 8 (2 ^ 1024 mod rsa_N)) (alloc (3, 0) (replicate 24 0) ∅)).

Lemma Rsa_verifies_witness :
  exists m' b, @RsaVerifySigHashFromProcessed (build64 true) swap_rev pcd512 rsa_mem (1, 0) 8 rsa_N0Inv (2, 0) 65537
      rsa_Signature 64 rsa_Hash 32 OcSigHashTypeSha256 (3, 0) = Ret (m', b) /\ unchanged_but rsa_mem m' (3, 0) (3 * 8) /\
    (b = true <->
       @InternalSigHashTypeIsAllowed pcd512 OcSigHashTypeSha256 = true /\ @InternalRsaModulusSizeIsAllowed pcd512 64 = true /\
       Z.of_nat (length rsa_Signature) = 64 /\
       encodes (be_bytes (Z.to_nat 64) (be_value rsa_Signature ^ 65537 mod value 64 rsa_mem (1, 0) 8))
         (mPkcsDigestEncodingPrefixSha256 ++ rsa_Hash)).
Proof.
  apply (Rsa_verifies (build64 true) _ swap_rev _ pcd512 rsa_mem (1, 0) 8 rsa_N0Inv (2, 0) rsa_Signature rsa_Hash
    OcSigHashTypeSha256 (3, 0)).
  - split; [lia|]. split; [apply buffer_checked; vm_compute; reflexivity|]. split; [vm_compute; split; reflexivity|].
    apply Z.mod_divide; vm_compute; congruence.
  - vm_compute. congruence.
  - apply buffer_checked. vm_compute. reflexivity.
  - apply Z.mod_divide; vm_compute; congruence.
  - apply buffer_checked. vm_compute. reflexivity.
  - left. discriminate.
  - left. discriminate.
  - apply Forall_rev, le_bytes_range.
  - discriminate.
  - reflexivity.
  - left. vm_compute. congruence.
Defined.

(** A pool that takes every block from a fresh address, and a hash whose digest of
    every message is [rsa_Hash] (padded for the longer digests). *)
Definition fresh_base (m : mem) : Z := fresh (set_map fst (dom m : gset loc) : gset Z).
Definition fresh_pool (word_size : Z) : WordPool :=
  {| AllocateWords m size :=
       let p := (fresh_base m, 0) in Some (alloc p (replicate (Z.to_nat (size / word_size)) 0) m, p) |}.
Definition sha_const : ShaLib :=
  {| Sha256 _ := rsa_Hash; Sha384 _ := rsa_Hash ++ replicate 16 0; Sha512 _ := rsa_Hash ++ replicate 32 0 |}.
#[export] Instance sha_const_laws : ShaLaws sha_const.
Proof. by constructor. Qed.

Lemma alloc_in k p m i : 0 <= i < Z.of_nat k -> alloc p (replicate k 0) m !! (p +ₗ i) = Some 0.
Proof.
  revert p i. induction k as [|k IH]; intros p i Hi; [lia|]. simpl. destruct (decide (i = 0)) as [->|].
  - by rewrite loc_add_0, lookup_insert_eq.
  - rewrite lookup_insert_ne by (rewrite <- (loc_add_0 p) at 1; intros E%loc_add_inj; lia).
    replace (p +ₗ i) with (p +ₗ 1 +ₗ (i - 1)) by (rewrite loc_add_add; f_equal; lia). apply IH. lia.
Qed.

Lemma alloc_out l p m q : ~ in_range p (Z.of_nat (length l)) q -> alloc p l m !! q = m !! q.
Proof.
  revert p. induction l as [|x l IH]; intros p Hq; [done|]. simpl in *. rewrite lookup_insert_ne, IH; [done|..].
  - unfold in_range, loc_add in *. simpl. lia.
  - intros ->. apply Hq. unfold in_range. lia.
Qed.

Lemma fresh_pool_ok a : @pool_ok (build64 a) (fresh_pool 8).
Proof.
  intros m size m' p [= <- <-]. change (@OC_BN_WORD_SIZE (build64 a)) with 8. split_and!.
  - intros k Hk. exists 0. split; [apply alloc_in; lia|]. vm_compute. split; congruence.
  - intros l Hl. apply alloc_out. rewrite length_replicate. unfold in_range in *. lia.
  - intros l [Hl _]. apply not_elem_of_dom. intros Hd. simpl in Hl.
    apply (is_fresh (set_map fst (dom m : gset loc) : gset Z)). fold (fresh_base m). rewrite <- Hl.
    apply elem_of_map. eauto.
Qed.

Lemma Rsa_end_to_end_witness :
  let Modulus := be_bytes 64 rsa_N in
  exists b, @RsaVerifySigDataFromData (build64 false) swap_rev sha_const pcd512 (fresh_pool 8) ∅ Modulus 64 65537
      rsa_Signature 64 [1; 2; 3] OcSigHashTypeSha256 = Ret (∅, b) /\
    (b = true -> Z.odd (be_value Modulus) = true /\ @InternalSigHashTypeIsAllowed pcd512 OcSigHashTypeSha256 = true /\
       @InternalRsaModulusSizeIsAllowed pcd512 (8 * 8) = true /\ Z.of_nat (length rsa_Signature) = 8 * 8 /\
       encodes (be_bytes (Z.to_nat (8 * 8)) (be_value rsa_Signature ^ 65537 mod be_value Modulus))
         (mPkcsDigestEncodingPrefixSha256 ++ rsa_Hash)) /\
    ((forall m size, @AllocateWords (fresh_pool 8) m size <> None) ->
       Z.odd (be_value Modulus) = true /\ @InternalSigHashTypeIsAllowed pcd512 OcSigHashTypeSha256 = true /\
       @InternalRsaModulusSizeIsAllowed pcd512 (8 * 8) = true /\ Z.of_nat (length rsa_Signature) = 8 * 8 /\
       encodes (be_bytes (Z.to_nat (8 * 8)) (be_value rsa_Signature ^ 65537 mod be_value Modulus))
         (mPkcsDigestEncodingPrefixSha256 ++ rsa_Hash) -> b = true).
Proof.
  apply (Rsa_end_to_end (build64 false) _ swap_rev _ sha_const _ pcd512 (fresh_pool 8) ∅ (be_bytes 64 rsa_N) 8 rsa_Signature
    [1; 2; 3] OcSigHashTypeSha256).
  - reflexivity.
  - apply fresh_pool_ok.
  - vm_compute. split; congruence.
  - reflexivity.
  - apply Forall_rev, le_bytes_range.
  - vm_compute. congruence.
  - apply Forall_rev, le_bytes_range.
  - discriminate.
  - discriminate.
  - left. vm_compute. congruence.
Defined.

(** The signature is accepted, and the digest of another message is not. *)
Example rsa_accepts :
  match @RsaVerifySigHashFromProcessed (build64 true) swap_rev pcd512 rsa_mem (1, 0) 8 rsa_N0Inv (2, 0) 65537
      rsa_Signature 64 rsa_Hash 32 OcSigHashTypeSha256 (3, 0) with Ret (_, b) => b | Fault _ => false end = true /\
  match @RsaVerifySigHashFromProcessed (build64 true) swap_rev pcd512 rsa_mem (1, 0) 8 rsa_N0Inv (2, 0) 65537
      rsa_Signature 64 (0 :: tail rsa_Hash) 32 OcSigHashTypeSha256 (3, 0) with Ret (_, b) => b | Fault _ => true end = false.
Proof. vm_compute. split; reflexivity. Qed.

End Rsa.
