(* ===== verification/MemoryMap.v ===== *)
(** * Memory map operations: [Library/OcMemoryLib/MemoryMap.c] and the counters of
    [MemoryAlloc.c]

    A memory map buffer is a sequence of slots of [DescriptorSize] bytes: the
    40 bytes of the [EFI_MEMORY_DESCRIPTOR] and the bytes the firmware appends.
    A descriptor pointer is its byte offset from the start of the buffer. The
    theorems relate sorting, joining, deduplication and updates to operations on
    the list of descriptors. Addresses and sizes are those of a 64-bit build. *)
From stdpp Require Import strings sorting.
From S2P Require Import Prelude.

Module MemoryMap.

(** ** Data *)

(** [EFI_MEMORY_TYPE] of the UEFI specification; the field is a 32-bit word. *)
Definition EfiReservedMemoryType : Z := 0.
Definition EfiLoaderCode : Z := 1.
Definition EfiLoaderData : Z := 2.
Definition EfiBootServicesCode : Z := 3.
Definition EfiBootServicesData : Z := 4.
Definition EfiRuntimeServicesCode : Z := 5.
Definition EfiRuntimeServicesData : Z := 6.
Definition EfiConventionalMemory : Z := 7.
Definition EfiUnusableMemory : Z := 8.
Definition EfiACPIReclaimMemory : Z := 9.
Definition EfiACPIMemoryNVS : Z := 10.
Definition EfiMemoryMappedIO : Z := 11.
Definition EfiMemoryMappedIOPortSpace : Z := 12.
Definition EfiPalCode : Z := 13.
Definition EfiPersistentMemory : Z := 14.

Definition EFI_MEMORY_XP : Z := 0x4000.
Definition EFI_MEMORY_RO : Z := 0x20000.
Definition EFI_MEMORY_RUNTIME : Z := 2 ^ 63.

Record EFI_MEMORY_DESCRIPTOR : Set := MemDesc {
  Type_ : Z;
  PhysicalStart : Z;
  VirtualStart : Z;
  NumberOfPages : Z;
  Attribute_ : Z
}.

(** A slot of the buffer: the descriptor and the rest of the [DescriptorSize]
    bytes. *)
Record slot : Set := Slot { Desc : EFI_MEMORY_DESCRIPTOR; Ext : list Z }.

#[export] Instance desc_eq_dec : EqDecision EFI_MEMORY_DESCRIPTOR.
Proof. solve_decision. Defined.
#[export] Instance slot_eq_dec : EqDecision slot.
Proof. solve_decision. Defined.

Definition set_Type (d : EFI_MEMORY_DESCRIPTOR) (t : Z) :=
  MemDesc t (PhysicalStart d) (VirtualStart d) (NumberOfPages d) (Attribute_ d).
Definition set_PhysicalStart (d : EFI_MEMORY_DESCRIPTOR) (p : Z) :=
  MemDesc (Type_ d) p (VirtualStart d) (NumberOfPages d) (Attribute_ d).
Definition set_NumberOfPages (d : EFI_MEMORY_DESCRIPTOR) (n : Z) :=
  MemDesc (Type_ d) (PhysicalStart d) (VirtualStart d) n (Attribute_ d).
Definition set_Attribute (d : EFI_MEMORY_DESCRIPTOR) (a : Z) :=
  MemDesc (Type_ d) (PhysicalStart d) (VirtualStart d) (NumberOfPages d) a.

Definition EFI_PAGES_TO_SIZE (Pages : Z) : Z := wrap 64 (Z.shiftl Pages 12).
Definition EFI_SIZE_TO_PAGES (Size : Z) : Z :=
  Z.shiftr Size 12 +[64] (if decide (Z.land Size 0xFFF <> 0) then 1 else 0).

Definition LAST_DESCRIPTOR_ADDR (d : EFI_MEMORY_DESCRIPTOR) : Z :=
  PhysicalStart d +[64] (EFI_PAGES_TO_SIZE (NumberOfPages d) -[64] 1).

Definition AREA_WITHIN_DESCRIPTOR (d : EFI_MEMORY_DESCRIPTOR) (Area AreaSize : Z) : bool :=
  bool_decide (PhysicalStart d <= Area) &&
  bool_decide (Area +[64] (AreaSize -[64] 1) <= LAST_DESCRIPTOR_ADDR d).

(** ** Buffer accesses *)

(** The slot at a byte offset (or the slots in a byte count). *)
Definition slot_of (DescriptorSize o : Z) : outcome Z :=
  if decide (o mod DescriptorSize = 0) then Ret (o / DescriptorSize) else Fault OutOfBounds.

Definition rd_desc (DescriptorSize : Z) (Map : list slot) (p : Z) : outcome EFI_MEMORY_DESCRIPTOR :=
  i ← slot_of DescriptorSize p; s ← rd Map i; Ret (Desc s).

Definition wr_desc (DescriptorSize : Z) (Map : list slot) (p : Z) (d : EFI_MEMORY_DESCRIPTOR) : outcome (list slot) :=
  i ← slot_of DescriptorSize p; s ← rd Map i; wr Map i (Slot d (Ext s)).

(** [CopyMem (dst, src, Size)] of whole slots. *)
Definition CopySlots (DescriptorSize : Z) (Map : list slot) (dst src Size : Z) : outcome (list slot) :=
  d ← slot_of DescriptorSize dst; s ← slot_of DescriptorSize src; n ← slot_of DescriptorSize Size;
  CopyMem Map d Map s n.

Definition NEXT_MEMORY_DESCRIPTOR (p Size : Z) : Z := p + Size.

(** ** Model *)

(** The table has 16 elements and 15 initialisers. *)
Definition OC_MEMORY_TYPE_DESC_COUNT : Z := 16.
Definition OcMemoryTypeString : list (option string * Z) :=
  [(Some "Reserved", EfiReservedMemoryType);
   (Some "LoaderCode", EfiLoaderCode);
   (Some "LoaderData", EfiLoaderData);
   (Some "BootServiceCode", EfiBootServicesCode);
   (Some "BootServiceData", EfiBootServicesData);
   (Some "RuntimeCode", EfiRuntimeServicesCode);
   (Some "RuntimeData", EfiRuntimeServicesData);
   (Some "Available", EfiConventionalMemory);
   (Some "Persistent", EfiPersistentMemory);
   (Some "UnusableMemory", EfiUnusableMemory);
   (Some "ACPIReclaimMemory", EfiACPIReclaimMemory);
   (Some "ACPIMemoryNVS", EfiACPIMemoryNVS);
   (Some "MemoryMappedIO", EfiMemoryMappedIO);
   (Some "MemoryMappedIOPortSpace", EfiMemoryMappedIOPortSpace);
   (Some "PalCode", EfiPalCode);
   (None, 0)]%string.

(** The comparison with a NULL name is an access outside of any object. The result
    is the status and the type stored on success; [HasMemoryType] tells that the
    output pointer is not NULL. *)
Definition OcDescToMemoryType (MemoryTypeDesc : option string) (HasMemoryType : bool) : outcome (EFI_STATUS * option Z) :=
  match MemoryTypeDesc, HasMemoryType with
  | Some MemoryTypeDesc, true =>
      while_ (S (Z.to_nat OC_MEMORY_TYPE_DESC_COUNT))
        (fun Index =>
           if decide (Index < OC_MEMORY_TYPE_DESC_COUNT) then
             '(Name, Type_) ← rd OcMemoryTypeString Index;
             match Name with
             | None => Fault OutOfBounds
             | Some Name =>
                 if decide (MemoryTypeDesc = Name) then Ret (inr (EFI_SUCCESS, Some Type_))
                 else Ret (inl (Index + 1))
             end
           else Ret (inr (EFI_NOT_FOUND, None))) 0
  | _, _ => Ret (EFI_INVALID_PARAMETER, None)
  end.

(** One comparison of the inner loop of [OcSortMemoryMap]. *)
Definition SortSwap (DescriptorSize : Z) (Map : list slot) (MemoryMapEntry NextMemoryMapEntry : Z) : outcome (list slot) :=
  d ← rd_desc DescriptorSize Map MemoryMapEntry;
  d' ← rd_desc DescriptorSize Map NextMemoryMapEntry;
  if decide (PhysicalStart d' < PhysicalStart d) then
    Map ← wr_desc DescriptorSize Map MemoryMapEntry d';
    wr_desc DescriptorSize Map NextMemoryMapEntry d
  else Ret Map.

(** Each loop runs at most once per byte of the map. *)
Definition OcSortMemoryMap (MemoryMapSize : Z) (Map : list slot) (DescriptorSize : Z) : outcome (list slot) :=
  let MemoryMapEnd := MemoryMapSize in
  let fuel := S (Z.to_nat MemoryMapSize) in
  while_ fuel
    (fun '(MemoryMapEntry, NextMemoryMapEntry, Map) =>
       if decide (MemoryMapEntry < MemoryMapEnd) then
         Map ← while_ fuel
           (fun '(NextMemoryMapEntry, Map) =>
              if decide (NextMemoryMapEntry < MemoryMapEnd) then
                Map ← SortSwap DescriptorSize Map MemoryMapEntry NextMemoryMapEntry;
                Ret (inl (NEXT_MEMORY_DESCRIPTOR NextMemoryMapEntry DescriptorSize, Map))
              else Ret (inr Map))
           (NextMemoryMapEntry, Map);
         let MemoryMapEntry := NEXT_MEMORY_DESCRIPTOR MemoryMapEntry DescriptorSize in
         Ret (inl (MemoryMapEntry, NEXT_MEMORY_DESCRIPTOR MemoryMapEntry DescriptorSize, Map))
       else Ret (inr Map))
    (0, NEXT_MEMORY_DESCRIPTOR 0 DescriptorSize, Map).

(** The tests of [OcShrinkMemoryMap]. *)
Definition IsFreeType (t : Z) : bool :=
  bool_decide (t = EfiBootServicesCode) || bool_decide (t = EfiBootServicesData) ||
  bool_decide (t = EfiConventionalMemory) || bool_decide (t = EfiLoaderCode) || bool_decide (t = EfiLoaderData).

Definition Adjacent (PrevDesc Desc : EFI_MEMORY_DESCRIPTOR) : bool :=
  bool_decide (Attribute_ Desc = Attribute_ PrevDesc) &&
  bool_decide (PhysicalStart PrevDesc +[64] EFI_PAGES_TO_SIZE (NumberOfPages PrevDesc) = PhysicalStart Desc).
Definition CanBeJoinedFree (PrevDesc Desc : EFI_MEMORY_DESCRIPTOR) : bool :=
  Adjacent PrevDesc Desc && (IsFreeType (Type_ Desc) && IsFreeType (Type_ PrevDesc)).
Definition CanBeJoinedRt (PrevDesc Desc : EFI_MEMORY_DESCRIPTOR) : bool :=
  Adjacent PrevDesc Desc &&
  (bool_decide (Type_ Desc = EfiRuntimeServicesCode) && bool_decide (Type_ PrevDesc = EfiRuntimeServicesCode) ||
   bool_decide (Type_ Desc = EfiRuntimeServicesData) && bool_decide (Type_ PrevDesc = EfiRuntimeServicesData)).

(** The local variables of [OcShrinkMemoryMap]; [ToGo] is [SizeFromDescToEnd]. *)
Record shrink_state : Set := Shrink {
  s_Prev : Z; s_Desc : Z; s_ToGo : Z; s_Size : Z; s_HasEntriesToRemove : bool; s_Map : list slot
}.

Definition ShrinkStep (DescriptorSize : Z) (s : shrink_state) : outcome (shrink_state + Z * list slot) :=
  let '(Shrink PrevDesc Desc ToGo Size Has Map) := s in
  if decide (0 < ToGo) then
    p ← rd_desc DescriptorSize Map PrevDesc;
    d ← rd_desc DescriptorSize Map Desc;
    '(PrevDesc, Desc, Size, Has, Map) ←
      (if CanBeJoinedFree p d then
         Map ← wr_desc DescriptorSize Map PrevDesc
           (set_NumberOfPages (set_Type p EfiConventionalMemory) (NumberOfPages p +[64] NumberOfPages d));
         Ret (PrevDesc, Desc, Size, true, Map)
       else if CanBeJoinedRt p d then
         Map ← wr_desc DescriptorSize Map PrevDesc (set_NumberOfPages p (NumberOfPages p +[64] NumberOfPages d));
         Ret (PrevDesc, Desc, Size, true, Map)
       else
         let Size := Size +[64] DescriptorSize in
         let PrevDesc := NEXT_MEMORY_DESCRIPTOR PrevDesc DescriptorSize in
         if Has : bool then
           Map ← CopySlots DescriptorSize Map PrevDesc Desc ToGo;
           Ret (PrevDesc, PrevDesc, Size, false, Map)
         else Ret (PrevDesc, Desc, Size, Has, Map));
    Ret (inl (Shrink PrevDesc (NEXT_MEMORY_DESCRIPTOR Desc DescriptorSize) (ToGo -[64] DescriptorSize) Size Has Map))
  else Ret (inr (if Has then Size +[64] DescriptorSize else Size, Map)).

(** The status, the updated [*MemoryMapSize] and the buffer. *)
Definition OcShrinkMemoryMap (MemoryMapSize : Z) (Map : list slot) (DescriptorSize : Z)
    : outcome (EFI_STATUS * Z * list slot) :=
  if decide (MemoryMapSize <= DescriptorSize) then Ret (EFI_NOT_FOUND, MemoryMapSize, Map) else
  '(Size, Map) ← while_ (S (Z.to_nat MemoryMapSize)) (ShrinkStep DescriptorSize)
    (Shrink 0 (NEXT_MEMORY_DESCRIPTOR 0 DescriptorSize) (MemoryMapSize -[64] DescriptorSize) DescriptorSize false Map);
  Ret (EFI_SUCCESS, Size, Map).

Record dedup_state : Set := Dedup {
  d_Status : EFI_STATUS; d_Prev : Z; d_Desc : Z; d_ToGo : Z; d_Count : Z; d_HasEntriesToRemove : bool; d_Map : list slot
}.

Definition IsDuplicate (PrevDesc Desc : EFI_MEMORY_DESCRIPTOR) : bool :=
  bool_decide (PhysicalStart Desc = PhysicalStart PrevDesc) && bool_decide (NumberOfPages Desc = NumberOfPages PrevDesc).

Definition DedupStep (DescriptorSize : Z) (s : dedup_state) : outcome (dedup_state + EFI_STATUS * Z * list slot) :=
  let '(Dedup Status PrevDesc Desc ToGo Count Has Map) := s in
  if decide (0 < ToGo) then
    p ← rd_desc DescriptorSize Map PrevDesc;
    d ← rd_desc DescriptorSize Map Desc;
    '(Status, PrevDesc, Desc, Count, Has, Map) ←
      (if IsDuplicate p d then Ret (EFI_SUCCESS, PrevDesc, Desc, Count, true, Map)
       else
         let Count := Count +[32] 1 in
         let PrevDesc := NEXT_MEMORY_DESCRIPTOR PrevDesc DescriptorSize in
         if Has : bool then
           Map ← CopySlots DescriptorSize Map PrevDesc Desc (ToGo *[64] DescriptorSize);
           Ret (Status, PrevDesc, PrevDesc, Count, false, Map)
         else Ret (Status, PrevDesc, Desc, Count, Has, Map));
    Ret (inl (Dedup Status PrevDesc (NEXT_MEMORY_DESCRIPTOR Desc DescriptorSize) (ToGo -[64] 1) Count Has Map))
  else Ret (inr (Status, (if Has then Count +[32] 1 else Count), Map)).

(** The status, the updated [*EntryCount] and the buffer. *)
Definition OcDeduplicateDescriptors (EntryCount : Z) (Map : list slot) (DescriptorSize : Z)
    : outcome (EFI_STATUS * Z * list slot) :=
  if decide (EntryCount <= 1) then Ret (EFI_NOT_FOUND, EntryCount, Map) else
  while_ (S (Z.to_nat EntryCount)) (DedupStep DescriptorSize)
    (Dedup EFI_NOT_FOUND 0 (NEXT_MEMORY_DESCRIPTOR 0 DescriptorSize) (EntryCount -[32] 1) 1 false Map).

Definition OcUpdateDescriptors (MemoryMapSize : Z) (Map : list slot) (DescriptorSize Address Type_ SetAttributes DropAttributes : Z)
    : outcome (EFI_STATUS * list slot) :=
  let EntryCount := MemoryMapSize / DescriptorSize in
  while_ (S (Z.to_nat EntryCount))
    (fun '(Index, MemoryMap) =>
       if decide (Index < EntryCount) then
         d ← rd_desc DescriptorSize Map MemoryMap;
         if AREA_WITHIN_DESCRIPTOR d Address 1 then
           let d := set_Type d Type_ in
           let d := set_Attribute d (Z.lor (Attribute_ d) SetAttributes) in
           let d := set_Attribute d (Z.land (Attribute_ d) (Z.lxor DropAttributes MAX_UINT64)) in
           Map ← wr_desc DescriptorSize Map MemoryMap d;
           Ret (inr (EFI_SUCCESS, Map))
         else Ret (inl (Index + 1, NEXT_MEMORY_DESCRIPTOR MemoryMap DescriptorSize))
       else Ret (inr (EFI_NOT_FOUND, Map)))
    (0, 0).

(** [MemoryAlloc.c]: the page sum and the descriptor count. *)
Definition OcCountRuntimePages (MemoryMapSize : Z) (Map : list slot) (DescriptorSize : Z) : outcome (Z * Z) :=
  let NumEntries := MemoryMapSize / DescriptorSize in
  '(_, DescNum, PageNum) ← for_ (Z.to_nat NumEntries) 0
    (fun _ '(p, DescNum, PageNum) =>
       Desc ← rd_desc DescriptorSize Map p;
       let '(DescNum, PageNum) :=
         if decide (Type_ Desc <> EfiReservedMemoryType /\ Z.land (Attribute_ Desc) EFI_MEMORY_RUNTIME <> 0)
         then (DescNum +[64] 1, PageNum +[64] NumberOfPages Desc) else (DescNum, PageNum) in
       Ret (NEXT_MEMORY_DESCRIPTOR p DescriptorSize, DescNum, PageNum))
    (0, 0, 0);
  Ret (PageNum, DescNum).

(** ** Specification *)

(** Joining neighbours from left to right: [join p d] is the slot that replaces
    [p] when [d] is absorbed. The second component of the result is the first slot
    of the last, still open, run of absorbed slots. *)
Fixpoint compact (join : slot -> slot -> option slot) (p : slot) (st : option slot) (l : list slot)
    : list slot * option slot :=
  match l with
  | [] => ([p], st)
  | d :: l =>
      match join p d with
      | Some p' => compact join p' (Some (default d st)) l
      | None => let '(r, st') := compact join d None l in (p :: r, st')
      end
  end.

Definition join_desc (p d : EFI_MEMORY_DESCRIPTOR) : option EFI_MEMORY_DESCRIPTOR :=
  if CanBeJoinedFree p d then
    Some (set_NumberOfPages (set_Type p EfiConventionalMemory) (NumberOfPages p +[64] NumberOfPages d))
  else if CanBeJoinedRt p d then Some (set_NumberOfPages p (NumberOfPages p +[64] NumberOfPages d))
  else None.
Definition join_slot (p d : slot) : option slot := (fun x => Slot x (Ext p)) <$> join_desc (Desc p) (Desc d).
Definition drop_slot (p d : slot) : option slot := if IsDuplicate (Desc p) (Desc d) then Some p else None.

(** The entries that the map counts after a compaction: the joined ones, and the
    first slot of an absorbed run at the end, which is left behind. *)
Definition counted (r : list slot * option slot) : list slot := r.1 ++ option_list r.2.

(** ** Buffer lemmas *)

(** Lengths of lists built with [::] and [++]. *)
Ltac slen := repeat progress (rewrite ?length_app in *; cbn [app length] in * ); try lia; nia.

Section WithSize.
Context (DS : Z) (HDS : 0 < DS).

Lemma slot_of_mul i : slot_of DS (i * DS) = Ret i.
Proof using HDS. unfold slot_of. rewrite decide_True by (apply Z.mod_mul; lia). by rewrite Z.div_mul by lia. Qed.

Lemma rd_mid {A} (l1 : list A) x l2 : rd (l1 ++ x :: l2) (Z.of_nat (length l1)) = Ret x.
Proof using. apply rd_nat. by rewrite list_lookup_middle. Qed.

Lemma rd_desc_mid l1 x l2 : rd_desc DS (l1 ++ x :: l2) (Z.of_nat (length l1) * DS) = Ret (Desc x).
Proof using HDS. unfold rd_desc. rewrite slot_of_mul. simpl. by rewrite rd_mid. Qed.

Lemma wr_desc_mid l1 x l2 d :
  wr_desc DS (l1 ++ x :: l2) (Z.of_nat (length l1) * DS) d = Ret (l1 ++ Slot d (Ext x) :: l2).
Proof using HDS.
  unfold wr_desc. rewrite slot_of_mul. simpl. rewrite rd_mid. simpl.
  rewrite wr_in by (rewrite length_app; simpl; lia). rewrite Nat2Z.id. by rewrite insert_app_r_alt, Nat.sub_diag by lia.
Qed.

(** Moving [l] down over the gap in front of it. *)
Lemma CopySlots_down l1 gap l rest a b k :
  a = Z.of_nat (length l1) -> b = a + Z.of_nat (length gap) -> k = Z.of_nat (length l) ->
  CopySlots DS (l1 ++ gap ++ l ++ rest) (a * DS) (b * DS) (k * DS) =
  Ret (l1 ++ l ++ drop (length l) (gap ++ l) ++ rest).
Proof using HDS.
  intros -> -> ->. unfold CopySlots. rewrite !slot_of_mul. simpl.
  rewrite CopyMem_in by (rewrite ?length_app; lia). f_equal.
  unfold slice. rewrite !Nat2Z.id. rewrite <- Nat2Z.inj_add, Nat2Z.id, drop_app_add, drop_app_length, take_app_length.
  rewrite <- (Nat.add_0_r (length l1)), list_inserts_app_r. f_equal.
  rewrite (app_assoc gap l rest). rewrite <- (take_drop (length l) (gap ++ l)) at 1. rewrite <- app_assoc.
  apply list_inserts_0_r. rewrite length_take, length_app. lia.
Qed.

(** *** Compaction loops *)

(** A non-empty run of absorbed slots sets [HasEntriesToRemove]. *)
Definition has {A} (gap : list A) : bool := match gap with [] => false | _ => true end.

(** The result of a compaction of [p :: l] behind [done], with the absorbed slots
    [gap] between [p] and [l]. *)
Definition compacted (join : slot -> slot -> option slot) (done_ : list slot) (p : slot) (gap l rest Map' : list slot) : Prop :=
  exists x, Map' = done_ ++ counted (compact join p (head gap) l) ++ x ++ rest /\
    length Map' = length (done_ ++ p :: gap ++ l ++ rest).

Lemma compacted_base join done_ p gap rest : compacted join done_ p gap [] rest (done_ ++ p :: gap ++ rest).
Proof using. exists (tail gap). destruct gap; done. Qed.

Lemma compacted_join join done_ p gap d l rest p' Map' :
  join p d = Some p' -> compacted join done_ p' (gap ++ [d]) l rest Map' -> compacted join done_ p gap (d :: l) rest Map'.
Proof using.
  intros E (x & -> & Hl). exists x. simpl compact. rewrite E. destruct gap as [|g gap]; (split; [done|]); slen.
Qed.

Lemma compacted_keep join done_ p gap d l rest y Map' :
  join p d = None -> compacted join (done_ ++ [p]) d [] l (y ++ rest) Map' -> length y = length gap ->
  compacted join done_ p gap (d :: l) rest Map'.
Proof using.
  intros E (x & -> & Hl) Hy. exists (x ++ y). simpl compact. rewrite E. simpl in *.
  destruct (compact join d None l) as [r st]. unfold counted in *. simpl in *. split.
  - by rewrite <- !app_assoc.
  - rewrite Hl. slen.
Qed.

(** The loop states at [p], with [l] still to visit. *)
Definition shrink_at (done_ : list slot) (p : slot) (gap l rest : list slot) : shrink_state :=
  let a := Z.of_nat (length done_) in
  Shrink (a * DS) ((a + 1 + Z.of_nat (length gap)) * DS) (Z.of_nat (length l) * DS) ((a + 1) * DS) (has gap)
    (done_ ++ p :: gap ++ l ++ rest).

Lemma mid_assoc (done_ : list slot) p gap d l rest :
  done_ ++ p :: gap ++ (d :: l) ++ rest = (done_ ++ p :: gap) ++ d :: l ++ rest.
Proof using. by rewrite <- app_assoc. Qed.

Lemma has_snoc {A} (gap : list A) d : has (gap ++ [d]) = true.
Proof using. by destruct gap. Qed.

(** Reading the two descriptors of an iteration. *)
Lemma rd_pair done_ p gap d l rest :
  let Map := done_ ++ p :: gap ++ (d :: l) ++ rest in let a := Z.of_nat (length done_) in
  rd_desc DS Map (a * DS) = Ret (Desc p) /\ rd_desc DS Map ((a + 1 + Z.of_nat (length gap)) * DS) = Ret (Desc d).
Proof using HDS.
  intros Map a. split; [apply rd_desc_mid|]. unfold Map. rewrite mid_assoc.
  replace (a + 1 + Z.of_nat (length gap)) with (Z.of_nat (length (done_ ++ p :: gap))) by slen. apply rd_desc_mid.
Qed.

Lemma shrink_join done_ p gap d l rest p' :
  join_slot p d = Some p' -> Z.of_nat (length (d :: l)) * DS < 2 ^ 64 ->
  ShrinkStep DS (shrink_at done_ p gap (d :: l) rest) = Ret (inl (shrink_at done_ p' (gap ++ [d]) l rest)).
Proof using HDS.
  intros E Hb. unfold ShrinkStep, shrink_at. rewrite decide_True by (simpl; nia).
  destruct (rd_pair done_ p gap d l rest) as [-> ->]. rewrite !bind_ret.
  unfold join_slot, join_desc in E. rewrite has_snoc.
  assert (forall x, wr_desc DS (done_ ++ p :: gap ++ (d :: l) ++ rest) (Z.of_nat (length done_) * DS) x =
    Ret (done_ ++ Slot x (Ext p) :: (gap ++ [d]) ++ l ++ rest)) as Hw.
  { intros x. rewrite wr_desc_mid. by rewrite <- (app_assoc gap). }
  destruct (CanBeJoinedFree _ _); [|destruct (CanBeJoinedRt _ _); [|done]]; injection E as <-; rewrite Hw, !bind_ret; cbv iota;
    (rewrite wrap_small by (simpl length in *; nia)); do 3 f_equal; unfold NEXT_MEMORY_DESCRIPTOR; slen.
Qed.

(** The move of the remaining slots behind [p], a no-op without absorbed slots. *)
Lemma move_down done_ p gap d l rest a :
  a = Z.of_nat (length done_) ->
  (if has gap then
     CopySlots DS (done_ ++ p :: gap ++ (d :: l) ++ rest) ((a + 1) * DS) ((a + 1 + Z.of_nat (length gap)) * DS)
       (Z.of_nat (length (d :: l)) * DS)
   else Ret (done_ ++ p :: gap ++ (d :: l) ++ rest)) =
  Ret ((done_ ++ [p]) ++ (d :: l) ++ drop (length (d :: l)) (gap ++ d :: l) ++ rest).
Proof using HDS.
  intros ->. destruct gap as [|g gap]; cbv iota; simpl has; cbv iota.
  - rewrite app_nil_l, drop_all, app_nil_l. by rewrite <- app_assoc.
  - replace (done_ ++ p :: (g :: gap) ++ (d :: l) ++ rest) with ((done_ ++ [p]) ++ (g :: gap) ++ (d :: l) ++ rest)
      by (by rewrite <- app_assoc).
    apply CopySlots_down; [slen|slen|done].
Qed.

Lemma Ret_inj {A} (x y : A) : Ret x = Ret y -> x = y.
Proof using. congruence. Qed.

Lemma dropped_length {A} (gap l : list A) : length (drop (length l) (gap ++ l)) = length gap.
Proof using. rewrite length_drop, length_app. lia. Qed.

Lemma shrink_keep done_ p gap d l rest :
  join_slot p d = None -> Z.of_nat (length (done_ ++ p :: gap ++ (d :: l) ++ rest)) * DS < 2 ^ 64 ->
  ShrinkStep DS (shrink_at done_ p gap (d :: l) rest) =
  Ret (inl (shrink_at (done_ ++ [p]) d [] l (drop (length (d :: l)) (gap ++ d :: l) ++ rest))).
Proof using HDS.
  intros E Hb. unfold ShrinkStep, shrink_at. rewrite decide_True by (simpl; nia).
  destruct (rd_pair done_ p gap d l rest) as [-> ->]. rewrite !bind_ret.
  unfold join_slot, join_desc in E.
  destruct (CanBeJoinedFree _ _); [done|destruct (CanBeJoinedRt _ _); [done|]]. cbv zeta. unfold NEXT_MEMORY_DESCRIPTOR.
  pose proof (move_down done_ p gap d l rest _ eq_refl) as Hm.
  replace (Z.of_nat (length done_) * DS + DS) with ((Z.of_nat (length done_) + 1) * DS) by lia.
  destruct gap as [|g gap]; simpl has in *; cbv iota in *; [apply Ret_inj in Hm|]; rewrite Hm, !bind_ret; cbv iota;
    rewrite !wrap_small by slen; do 3 f_equal; slen.
Qed.

Lemma shrink_loop l : forall fuel done_ p gap rest,
  (length l < fuel)%nat -> Z.of_nat (length (done_ ++ p :: gap ++ l ++ rest)) * DS < 2 ^ 64 ->
  exists Map', while_ fuel (ShrinkStep DS) (shrink_at done_ p gap l rest) =
      Ret (Z.of_nat (length (done_ ++ counted (compact join_slot p (head gap) l))) * DS, Map') /\
    compacted join_slot done_ p gap l rest Map'.
Proof using HDS.
  induction l as [|d l IH]; intros fuel done_ p gap rest Hf Hb; (destruct fuel as [|fuel]; [simpl in Hf; lia|]); rewrite while_S.
  - unfold ShrinkStep, shrink_at. rewrite decide_False by (simpl; lia). rewrite bind_ret. eexists. split; [|apply compacted_base].
    destruct gap as [|g gap]; simpl has; cbv iota; [|rewrite wrap_small by slen]; f_equal; f_equal; unfold counted; simpl; slen.
  - destruct (join_slot p d) as [p'|] eqn:E.
    + rewrite (shrink_join _ _ _ _ _ _ p') by (done || slen). rewrite bind_ret.
      destruct (IH fuel done_ p' (gap ++ [d]) rest) as (Map' & -> & Hc); [simpl in Hf; lia|slen|].
      exists Map'. split; [|by eapply compacted_join]. simpl compact. rewrite E. by destruct gap.
    + rewrite shrink_keep by done. rewrite bind_ret. pose proof (dropped_length gap (d :: l)) as Hd.
      destruct (IH fuel (done_ ++ [p]) d [] (drop (length (d :: l)) (gap ++ d :: l) ++ rest)) as (Map' & -> & Hc);
        [simpl in Hf; lia|slen|].
      exists Map'. split; [|by eapply compacted_keep]. simpl compact. rewrite E. simpl head.
      destruct (compact join_slot d None l) as [r st]. unfold counted. simpl. f_equal. f_equal. slen.
Qed.

(** [OcShrinkMemoryMap] on a map of at least two entries. *)
Lemma Shrink_spec p l rest :
  l <> [] -> Z.of_nat (length (p :: l ++ rest)) * DS < 2 ^ 64 ->
  let r := counted (compact join_slot p None l) in
  exists x, OcShrinkMemoryMap (Z.of_nat (length (p :: l)) * DS) (p :: l ++ rest) DS =
      Ret (EFI_SUCCESS, Z.of_nat (length r) * DS, r ++ x ++ rest) /\ length (r ++ x) = length (p :: l).
Proof using HDS.
  intros Hl Hb r. unfold OcShrinkMemoryMap. destruct l as [|d l]; [done|].
  rewrite decide_False by (simpl; nia).
  destruct (shrink_loop (d :: l) (S (Z.to_nat (Z.of_nat (length (p :: d :: l)) * DS))) [] p [] rest)
    as (Map' & E & x & -> & Hlen); [simpl; nia|done|]. cbn [head] in *.
  replace (Shrink 0 _ _ _ _ _) with (shrink_at [] p [] (d :: l) rest).
  - rewrite E. rewrite bind_ret. exists x. split; [done|]. unfold r. slen.
  - unfold shrink_at, NEXT_MEMORY_DESCRIPTOR. rewrite wrap_small by slen. f_equal; slen.
Qed.

(** *** Deduplication *)
Definition dedup_at (Status : EFI_STATUS) (done_ : list slot) (p : slot) (gap l rest : list slot) : dedup_state :=
  let a := Z.of_nat (length done_) in
  Dedup Status (a * DS) ((a + 1 + Z.of_nat (length gap)) * DS) (Z.of_nat (length l)) (a + 1) (has gap)
    (done_ ++ p :: gap ++ l ++ rest).

Lemma dedup_join Status done_ p gap d l rest p' :
  drop_slot p d = Some p' -> Z.of_nat (length (d :: l)) < 2 ^ 32 ->
  DedupStep DS (dedup_at Status done_ p gap (d :: l) rest) = Ret (inl (dedup_at EFI_SUCCESS done_ p' (gap ++ [d]) l rest)).
Proof using HDS.
  unfold drop_slot. intros E Hb. unfold DedupStep, dedup_at. rewrite decide_True by (simpl; lia).
  destruct (rd_pair done_ p gap d l rest) as [-> ->]. rewrite !bind_ret, has_snoc.
  destruct (IsDuplicate _ _); [|done]. injection E as <-. rewrite bind_ret; cbv iota.
  rewrite wrap_small by (simpl length in *; lia). rewrite <- (app_assoc gap). do 3 f_equal; unfold NEXT_MEMORY_DESCRIPTOR; slen.
Qed.

Lemma dedup_keep Status done_ p gap d l rest :
  drop_slot p d = None -> Z.of_nat (length (done_ ++ p :: gap ++ (d :: l) ++ rest)) * DS < 2 ^ 64 ->
  Z.of_nat (length (done_ ++ p :: gap ++ d :: l)) < 2 ^ 32 ->
  DedupStep DS (dedup_at Status done_ p gap (d :: l) rest) =
  Ret (inl (dedup_at Status (done_ ++ [p]) d [] l (drop (length (d :: l)) (gap ++ d :: l) ++ rest))).
Proof using HDS.
  unfold drop_slot. intros E Hb Hb2. unfold DedupStep, dedup_at. rewrite decide_True by (simpl; nia).
  destruct (rd_pair done_ p gap d l rest) as [-> ->]. rewrite !bind_ret.
  destruct (IsDuplicate _ _); [done|]. cbv zeta. unfold NEXT_MEMORY_DESCRIPTOR.
  pose proof (move_down done_ p gap d l rest _ eq_refl) as Hm.
  replace (Z.of_nat (length done_) * DS + DS) with ((Z.of_nat (length done_) + 1) * DS) by lia.
  rewrite (wrap_small 64 (_ * DS)) by slen.
  destruct gap as [|g gap]; simpl has in *; cbv iota in *; [apply Ret_inj in Hm|]; rewrite Hm, !bind_ret; cbv iota;
    rewrite !wrap_small by slen; do 3 f_equal; slen.
Qed.

(** Whether a slot is absorbed. *)
Fixpoint absorbs (join : slot -> slot -> option slot) (p : slot) (l : list slot) : bool :=
  match l with
  | [] => false
  | d :: l => match join p d with Some _ => true | None => absorbs join d l end
  end.

Lemma dedup_loop l : forall fuel Status done_ p gap rest,
  (length l < fuel)%nat -> Z.of_nat (length (done_ ++ p :: gap ++ l ++ rest)) * DS < 2 ^ 64 ->
  Z.of_nat (length (done_ ++ p :: gap ++ l)) < 2 ^ 32 ->
  exists Map', while_ fuel (DedupStep DS) (dedup_at Status done_ p gap l rest) =
      Ret (if absorbs drop_slot p l then EFI_SUCCESS else Status,
           Z.of_nat (length (done_ ++ counted (compact drop_slot p (head gap) l))), Map') /\
    compacted drop_slot done_ p gap l rest Map'.
Proof using HDS.
  induction l as [|d l IH]; intros fuel Status done_ p gap rest Hf Hb Hb2; (destruct fuel as [|fuel]; [simpl in Hf; lia|]); rewrite while_S.
  - unfold DedupStep, dedup_at. rewrite decide_False by (simpl; lia). rewrite bind_ret. eexists. split; [|apply compacted_base].
    destruct gap as [|g gap]; simpl has; cbv iota; [|rewrite wrap_small by slen]; f_equal; f_equal; f_equal; unfold counted; simpl; slen.
  - simpl absorbs. destruct (drop_slot p d) as [p'|] eqn:E.
    + rewrite (dedup_join _ _ _ _ _ _ _ p') by (done || slen). rewrite bind_ret.
      destruct (IH fuel EFI_SUCCESS done_ p' (gap ++ [d]) rest) as (Map' & -> & Hc); [simpl in Hf; lia|slen|slen|].
      exists Map'. split; [|by eapply compacted_join]. simpl compact. rewrite E. destruct (absorbs _ p' l); by destruct gap.
    + rewrite dedup_keep by done. rewrite bind_ret. pose proof (dropped_length gap (d :: l)) as Hd.
      destruct (IH fuel Status (done_ ++ [p]) d [] (drop (length (d :: l)) (gap ++ d :: l) ++ rest)) as (Map' & -> & Hc);
        [simpl in Hf; lia|slen|slen|].
      exists Map'. split; [|by eapply compacted_keep]. simpl compact. rewrite E. simpl head.
      destruct (compact drop_slot d None l) as [r st]. unfold counted. simpl. f_equal. f_equal. f_equal. slen.
Qed.

Lemma Deduplicate_spec p l rest :
  l <> [] -> Z.of_nat (length (p :: l ++ rest)) * DS < 2 ^ 64 -> Z.of_nat (length (p :: l)) < 2 ^ 32 ->
  let r := counted (compact drop_slot p None l) in
  exists x, OcDeduplicateDescriptors (Z.of_nat (length (p :: l))) (p :: l ++ rest) DS =
      Ret (if absorbs drop_slot p l then EFI_SUCCESS else EFI_NOT_FOUND, Z.of_nat (length r), r ++ x ++ rest) /\
    length (r ++ x) = length (p :: l).
Proof using HDS.
  intros Hl Hb Hb2 r. unfold OcDeduplicateDescriptors. destruct l as [|d l]; [done|].
  rewrite decide_False by (simpl; lia).
  destruct (dedup_loop (d :: l) (S (Z.to_nat (Z.of_nat (length (p :: d :: l))))) EFI_NOT_FOUND [] p [] rest)
    as (Map' & E & x & -> & Hlen); [simpl; lia|done|done|]. cbn [head] in *.
  replace (Dedup EFI_NOT_FOUND 0 _ _ _ _ _) with (dedup_at EFI_NOT_FOUND [] p [] (d :: l) rest).
  - rewrite E. exists x. split; [done|]. unfold r. slen.
  - unfold dedup_at, NEXT_MEMORY_DESCRIPTOR. rewrite wrap_small by slen. f_equal; slen.
Qed.

Lemma rd_desc_at Map i s : 0 <= i -> Map !! Z.to_nat i = Some s -> rd_desc DS Map (i * DS) = Ret (Desc s).
Proof using HDS. intros Hi Hs. unfold rd_desc. rewrite slot_of_mul by done. simpl. by rewrite (rd_lookup _ _ s). Qed.

Lemma wr_desc_at Map i s d :
  0 <= i -> Map !! Z.to_nat i = Some s -> wr_desc DS Map (i * DS) d = Ret (<[Z.to_nat i := Slot d (Ext s)]> Map).
Proof using HDS.
  intros Hi Hs. unfold wr_desc. rewrite slot_of_mul by done. simpl. rewrite (rd_lookup _ _ s) by done. simpl.
  apply wr_in. apply lookup_lt_Some in Hs. lia.
Qed.

End WithSize.

(** ** The memory a map describes *)

Definition PAGE : Z := 2 ^ 12.
Definition desc_end (d : EFI_MEMORY_DESCRIPTOR) : Z := PhysicalStart d + NumberOfPages d * PAGE.
Definition in_desc (d : EFI_MEMORY_DESCRIPTOR) (x : Z) : Prop := PhysicalStart d <= x < desc_end d.

(** A descriptor below the end of the address space. *)
Definition wf_desc (d : EFI_MEMORY_DESCRIPTOR) : Prop :=
  0 <= PhysicalStart d /\ 0 <= NumberOfPages d /\ desc_end d < 2 ^ 64.

(** The loader and boot services types are free memory to the operating system. *)
Definition usage (t : Z) : Z := if IsFreeType t then EfiConventionalMemory else t.

(** The address [x] belongs to [d], with usage [u] and attributes [at_]. *)
Definition owns (d : EFI_MEMORY_DESCRIPTOR) (x u at_ : Z) : Prop :=
  in_desc d x /\ usage (Type_ d) = u /\ Attribute_ d = at_.
Definition map_owns (l : list slot) (x u at_ : Z) : Prop := exists s, s ∈ l /\ owns (Desc s) x u at_.

(** Sorted by address, without overlap. *)
Definition disjoint_map (l : list slot) : Prop :=
  StronglySorted (fun s s' => desc_end (Desc s) <= PhysicalStart (Desc s')) l.

(** No neighbours that [join] would combine. *)
Fixpoint unjoinable (join : slot -> slot -> option slot) (l : list slot) : Prop :=
  match l with
  | p :: (d :: _) as l' => join p d = None /\ unjoinable join l'
  | _ => True
  end.

Lemma pages_to_size n : 0 <= n -> n * PAGE < 2 ^ 64 -> EFI_PAGES_TO_SIZE n = n * PAGE.
Proof. intros. unfold EFI_PAGES_TO_SIZE, PAGE in *. rewrite Z.shiftl_mul_pow2 by lia. apply wrap_small. lia. Qed.

Lemma Adjacent_spec p d :
  wf_desc p -> Adjacent p d = true <-> Attribute_ d = Attribute_ p /\ desc_end p = PhysicalStart d.
Proof.
  intros (H1 & H2 & H3). unfold Adjacent, desc_end in *. unfold PAGE in *.
  rewrite pages_to_size by (unfold PAGE; lia). unfold PAGE. rewrite wrap_small by lia.
  by rewrite andb_true_iff, !bool_decide_eq_true.
Qed.

Lemma usage_free t : IsFreeType t = true -> usage t = EfiConventionalMemory.
Proof. unfold usage. by intros ->. Qed.

(** A joined descriptor covers exactly the two it replaces. *)
Lemma join_desc_spec p d q :
  wf_desc p -> wf_desc d -> join_desc p d = Some q ->
  wf_desc q /\ PhysicalStart q = PhysicalStart p /\ desc_end q = desc_end d /\ desc_end p = PhysicalStart d /\
  usage (Type_ q) = usage (Type_ p) /\ usage (Type_ d) = usage (Type_ p) /\ (IsFreeType (Type_ q) = IsFreeType (Type_ p)) /\
  (IsFreeType (Type_ p) = false -> Type_ q = Type_ p) /\
  Attribute_ q = Attribute_ p /\ Attribute_ d = Attribute_ p.
Proof.
  intros Hp Hd. pose proof Hp as (P1 & P2 & P3). pose proof Hd as (D1 & D2 & D3).
  assert (forall t, Adjacent p d = true ->
    let q := set_NumberOfPages (set_Type p t) (NumberOfPages p +[64] NumberOfPages d) in
    wf_desc q /\ PhysicalStart q = PhysicalStart p /\ desc_end q = desc_end d /\ desc_end p = PhysicalStart d /\
    Attribute_ q = Attribute_ p /\ Attribute_ d = Attribute_ p) as Hq.
  { intros t [Ha He]%Adjacent_spec; [|done]. unfold wf_desc, desc_end, PAGE in *. simpl.
    rewrite wrap_small by lia. repeat split; lia. }
  unfold join_desc, CanBeJoinedFree, CanBeJoinedRt. destruct (Adjacent p d); [|done]. specialize (fun t => Hq t eq_refl).
  destruct (IsFreeType (Type_ d)) eqn:Fd; simpl; [destruct (IsFreeType (Type_ p)) eqn:Fp; simpl|].
  - intros [= <-]. destruct (Hq EfiConventionalMemory) as (? & ? & ? & ? & ? & ?). rewrite !usage_free by done.
    split_and!; done.
  - destruct (decide (Type_ p = EfiRuntimeServicesCode)) as [Ep|Np]; [|destruct (decide (Type_ p = EfiRuntimeServicesData)) as [Ep|Np2]].
    + rewrite Ep. destruct (decide (Type_ d = EfiRuntimeServicesCode)) as [Ed|]; [by rewrite Ed in Fd|].
      rewrite !bool_decide_eq_false_2 by (done || congruence). simpl. by rewrite andb_false_r.
    + rewrite Ep. destruct (decide (Type_ d = EfiRuntimeServicesData)) as [Ed|]; [by rewrite Ed in Fd|].
      rewrite (bool_decide_eq_false_2 (Type_ d = EfiRuntimeServicesData)) by done. simpl. by rewrite andb_false_r.
    + rewrite (bool_decide_eq_false_2 (Type_ p = _)) by done. rewrite (bool_decide_eq_false_2 (Type_ p = _)) by done.
      by rewrite !andb_false_r.
  - destruct (_ || _) eqn:E; [|done]. intros [= <-].
    assert (Type_ d = Type_ p) as Et.
    { apply orb_true_iff in E as [E|E]; apply andb_true_iff in E as [E1 E2]; apply bool_decide_eq_true in E1, E2; congruence. }
    destruct (Hq (Type_ p)) as (? & ? & ? & ? & ? & ?). rewrite Et in *.
    replace (set_Type p (Type_ p)) with p in * by (by destruct p). simpl. split_and!; done.
Qed.

(** *** Joining a whole map *)
Abbreviation wf_slot s := (wf_desc (Desc s)).

Lemma join_slot_spec p d q :
  wf_slot p -> wf_slot d -> join_slot p d = Some q ->
  wf_slot q /\ PhysicalStart (Desc q) = PhysicalStart (Desc p) /\ desc_end (Desc q) = desc_end (Desc d) /\
  (forall x u a, owns (Desc q) x u a <-> owns (Desc p) x u a \/ owns (Desc d) x u a).
Proof.
  intros Hp Hd. unfold join_slot. destruct (join_desc _ _) as [q'|] eqn:E; [|done]. intros [= <-]. simpl.
  destruct (join_desc_spec _ _ _ Hp Hd E) as (? & E1 & E2 & E3 & E4 & E5 & _ & _ & E6 & E7). split_and!; [done..|].
  intros x u a. unfold owns, in_desc. rewrite E1, E2, E4, E5, E6, E7.
  destruct Hp as (? & ? & _), Hd as (? & ? & _). unfold desc_end, PAGE in *. split; [|intuition lia].
  intros (Hx & Hu). destruct (decide (x < PhysicalStart (Desc d))); [left|right]; intuition lia.
Qed.

(** Induction on the run of [compact join_slot]. *)
Lemma compact_join_ind (P : slot -> option slot -> list slot -> list slot -> option slot -> Prop) :
  (forall p st, wf_slot p -> P p st [] [p] st) ->
  (forall p st d l p' r st', wf_slot p -> wf_slot d -> join_slot p d = Some p' -> wf_slot p' ->
     P p' (Some (default d st)) l r st' -> P p st (d :: l) r st') ->
  (forall p st d l r st', wf_slot p -> wf_slot d -> join_slot p d = None ->
     P d None l r st' -> P p st (d :: l) (p :: r) st') ->
  forall l p st, Forall (fun s => wf_slot s) (p :: l) ->
  P p st l (compact join_slot p st l).1 (compact join_slot p st l).2.
Proof.
  intros Hb Hj Hk l. induction l as [|d l IH]; intros p st [Hp Hl]%Forall_cons; [by apply Hb|].
  apply Forall_cons in Hl as [Hd Hl]. simpl. destruct (join_slot p d) as [p'|] eqn:E.
  - destruct (join_slot_spec p d p' Hp Hd E) as (Hp' & _). apply (Hj _ _ _ _ p'); [done..|]. apply IH. by constructor.
  - specialize (IH d None ltac:(by constructor)). destruct (compact join_slot d None l). by apply Hk.
Qed.

Lemma map_owns_cons s l x u a : map_owns (s :: l) x u a <-> owns (Desc s) x u a \/ map_owns l x u a.
Proof.
  unfold map_owns. setoid_rewrite elem_of_cons. split.
  - intros (t & [->|Ht] & Ho); eauto.
  - intros [Ho|(t & Ht & Ho)]; eauto.
Qed.

Lemma compact_owns l p st :
  Forall (fun s => wf_slot s) (p :: l) -> forall x u a, map_owns (compact join_slot p st l).1 x u a <-> map_owns (p :: l) x u a.
Proof.
  apply (compact_join_ind (fun p st l r _ => forall x u a, map_owns r x u a <-> map_owns (p :: l) x u a)).
  - done.
  - intros q st0 d l0 q' r st' Hq Hd E Hq' IH x u a. rewrite IH, !map_owns_cons.
    destruct (join_slot_spec q d q' Hq Hd E) as (_ & _ & _ & ->). tauto.
  - intros q st0 d l0 r st' Hq Hd E IH x u a. rewrite (map_owns_cons q), IH, (map_owns_cons q). done.
Qed.

(** What is left behind lies inside the last joined entry. *)
Lemma compact_stale l p st s :
  Forall (fun s => wf_slot s) (p :: l) -> (forall s, st = Some s -> forall x u a, owns (Desc s) x u a -> owns (Desc p) x u a) ->
  (compact join_slot p st l).2 = Some s ->
  exists r0 q, (compact join_slot p st l).1 = r0 ++ [q] /\ forall x u a, owns (Desc s) x u a -> owns (Desc q) x u a.
Proof.
  intros Hwf. revert s. apply (compact_join_ind (fun p st l r st' => forall s,
    (forall s, st = Some s -> forall x u a, owns (Desc s) x u a -> owns (Desc p) x u a) -> st' = Some s ->
    exists r0 q, r = r0 ++ [q] /\ forall x u a, owns (Desc s) x u a -> owns (Desc q) x u a)); [..|done].
  - intros q st0 _ s Hst ->. exists [], q. eauto.
  - intros q st0 d l0 q' r st' Hq Hd E _ IH s Hst. apply IH. intros s' [= <-] x u a Ho.
    apply (join_slot_spec q d q' Hq Hd E). destruct st0 as [s0|]; simpl in Ho; [left; by apply (Hst s0)|by right].
  - intros q st0 d l0 r st' _ _ _ IH s _ Hs. destruct (IH s) as (r0 & t & -> & Ht); [done..|]. by exists (q :: r0), t.
Qed.

(** Joined entries start where an entry of the map started. *)
Lemma compact_starts l p st :
  Forall (fun s => wf_slot s) (p :: l) ->
  Forall (fun s => exists t, t ∈ p :: l /\ PhysicalStart (Desc s) = PhysicalStart (Desc t)) (compact join_slot p st l).1.
Proof.
  apply (compact_join_ind (fun p st l r _ =>
    Forall (fun s => exists t, t ∈ p :: l /\ PhysicalStart (Desc s) = PhysicalStart (Desc t)) r)).
  - intros. constructor; [|constructor]. eexists. split; [by left|done].
  - intros q st0 d l0 q' r st' Hq Hd E _ IH. eapply Forall_impl; [exact IH|]. intros s (t & Ht & Es).
    destruct (join_slot_spec q d q' Hq Hd E) as (_ & E1 & _).
    apply elem_of_cons in Ht as [->|Ht]; [exists q|exists t]; rewrite ?elem_of_cons; split; eauto; congruence.
  - intros q st0 d l0 r st' _ _ _ IH. constructor.
    + eexists. split; [by left|done].
    + eapply Forall_impl; [exact IH|]. intros s (t & Ht & Es). exists t. split; [by right|done].
Qed.

Lemma compact_disjoint l p st :
  Forall (fun s => wf_slot s) (p :: l) -> disjoint_map (p :: l) -> disjoint_map (compact join_slot p st l).1.
Proof.
  unfold disjoint_map. revert p st. induction l as [|d l IH]; intros p st Hwf Hd; [by repeat constructor|]. simpl.
  pose proof Hwf as [Hp Hl]%Forall_cons. pose proof Hl as [Hd' Hl']%Forall_cons.
  apply StronglySorted_inv in Hd as [Hdl Hpd]. destruct (join_slot p d) as [p'|] eqn:E.
  - destruct (join_slot_spec p d p' Hp Hd' E) as (Hp' & E1 & E2 & _). apply IH; [by constructor|].
    apply StronglySorted_inv in Hdl as [Hl2 Hd2]. constructor; [done|]. by rewrite E2.
  - pose proof (compact_starts l d None Hl) as Hs. specialize (IH d None Hl Hdl).
    destruct (compact join_slot d None l) as [r st']. simpl in *. constructor; [done|].
    eapply Forall_impl; [exact Hs|]. intros s (t & Ht & ->). rewrite Forall_forall in Hpd. by apply Hpd.
Qed.

(** Joining only depends on where the right descriptor starts and on its class. *)
Lemma join_None_ext p d q :
  join_desc p d = None -> PhysicalStart q = PhysicalStart d -> Attribute_ q = Attribute_ d ->
  IsFreeType (Type_ q) = IsFreeType (Type_ d) -> (IsFreeType (Type_ d) = false -> Type_ q = Type_ d) -> join_desc p q = None.
Proof.
  intros E E1 E2 E3 E4. unfold join_desc in *.
  assert (Adjacent p q = Adjacent p d) as Ea by (unfold Adjacent; by rewrite E1, E2).
  assert (CanBeJoinedFree p q = CanBeJoinedFree p d) as Ef by (unfold CanBeJoinedFree; by rewrite Ea, E3).
  rewrite Ef. destruct (CanBeJoinedFree p d); [done|]. destruct (CanBeJoinedRt p d) eqn:Er; [done|].
  unfold CanBeJoinedRt in *. rewrite Ea. destruct (Adjacent p d); [|done].
  destruct (IsFreeType (Type_ d)) eqn:Fd; [|by rewrite E4, Er].
  rewrite !(bool_decide_eq_false_2 (Type_ q = _)); [done|..]; intros Hq; by rewrite Hq in E3.
Qed.

Lemma compact_unjoinable l p st :
  Forall (fun s => wf_slot s) (p :: l) -> unjoinable join_slot (compact join_slot p st l).1 /\
  exists q r, (compact join_slot p st l).1 = q :: r /\ PhysicalStart (Desc q) = PhysicalStart (Desc p) /\
    Attribute_ (Desc q) = Attribute_ (Desc p) /\ IsFreeType (Type_ (Desc q)) = IsFreeType (Type_ (Desc p)) /\
    (IsFreeType (Type_ (Desc p)) = false -> Type_ (Desc q) = Type_ (Desc p)).
Proof.
  apply (compact_join_ind (fun p st l r _ => unjoinable join_slot r /\
    exists q r0, r = q :: r0 /\ PhysicalStart (Desc q) = PhysicalStart (Desc p) /\
    Attribute_ (Desc q) = Attribute_ (Desc p) /\ IsFreeType (Type_ (Desc q)) = IsFreeType (Type_ (Desc p)) /\
    (IsFreeType (Type_ (Desc p)) = false -> Type_ (Desc q) = Type_ (Desc p)))).
  - intros q st0 _. split; [done|]. exists q, []. done.
  - intros q st0 d l0 q' r st' Hq Hd E _ (IH & t & r0 & -> & E1 & E2 & E3 & E4). split; [done|]. exists t, r0.
    unfold join_slot in E. destruct (join_desc _ _) as [x|] eqn:Ej; [|done]. injection E as <-. simpl in *.
    destruct (join_desc_spec _ _ _ Hq Hd Ej) as (_ & J1 & _ & _ & _ & _ & J3 & J4 & J2 & _).
    split_and!; try congruence. intros Hf. rewrite E4 by congruence. auto.
  - intros q st0 d l0 r st' Hq Hd E (IH & t & r0 & -> & E1 & E2 & E3 & E4). split; [|by exists q, (t :: r0)].
    split; [|done]. unfold join_slot in *. destruct (join_desc (Desc q) (Desc d)) eqn:Ej; [done|].
    by rewrite (join_None_ext (Desc q) (Desc d) (Desc t)).
Qed.

(** When the last entry can be joined, something is left behind. *)
Lemma compact_last_joined join l p st d :
  (forall q r, (compact join p st l).1 = r ++ [q] -> is_Some (join q d)) -> is_Some (compact join p st (l ++ [d])).2.
Proof.
  revert p st. induction l as [|e l IH]; intros p st Hj; simpl in *.
  - destruct (Hj p [] eq_refl) as [t ->]. eauto.
  - destruct (join p e) as [p'|]; [by apply IH|]. specialize (IH e None).
    destruct (compact join e None l) as [r0 st1]. destruct (compact join e None (l ++ [d])) as [r1 st2]. simpl in *.
    apply IH. intros q r ->. by apply (Hj q (p :: r)).
Qed.

(** Whether the last entry of [p :: l] is absorbed when neighbours are joined from left to right. *)
Fixpoint last_joined (join : slot -> slot -> option slot) (p : slot) (l : list slot) : bool :=
  match l with
  | [] => false
  | d :: l' =>
      match join p d, l' with
      | Some _, [] => true
      | Some p', _ => last_joined join p' l'
      | None, _ => last_joined join d l'
      end
  end.

Lemma compact_left_over join l p st :
  length (option_list (compact join p st l).2) = match l with [] => length (option_list st) | _ => if last_joined join p l then 1%nat else 0%nat end.
Proof.
  revert p st. induction l as [|d l IH]; intros p st; [done|]. cbn [compact last_joined]. destruct (join p d) as [p'|].
  - rewrite IH. by destruct l.
  - specialize (IH d None). destruct (compact join d None l) as [r st']. cbn [snd] in *. rewrite IH. by destruct l.
Qed.

Lemma map_owns_left_over l p x u a : Forall (fun s => wf_slot s) (p :: l) ->
  map_owns (counted (compact join_slot p None l)) x u a <-> map_owns (p :: l) x u a.
Proof.
  intros Hwf. rewrite <- (compact_owns l p None Hwf). unfold counted, map_owns. setoid_rewrite elem_of_app. split; [|intros (s & Hs & Ho); exists s; by split; [left|]].
  intros (s & [Hs|Hs] & Ho); [by exists s|]. destruct (compact join_slot p None l).2 as [s0|] eqn:E; [|by apply elem_of_nil in Hs].
  apply list_elem_of_singleton in Hs as ->. destruct (compact_stale l p None s0 Hwf) as (r & q & Er & Hq); [done|done|].
  exists q. split; [rewrite Er; apply elem_of_app; right; by apply list_elem_of_singleton|by apply Hq].
Qed.

(** *** Dropping duplicates *)
Definition same_range (s t : slot) : Prop :=
  PhysicalStart (Desc s) = PhysicalStart (Desc t) /\ NumberOfPages (Desc s) = NumberOfPages (Desc t).

Lemma drop_slot_Some p d q : drop_slot p d = Some q -> q = p /\ same_range d p.
Proof.
  unfold drop_slot, IsDuplicate. destruct (_ && _) eqn:E; [|done]. intros [= <-]. apply andb_true_iff in E as [E1 E2].
  by apply bool_decide_eq_true in E1, E2.
Qed.

Lemma compact_dedup l p st :
  let r := (compact drop_slot p st l).1 in
  sublist r (p :: l) /\ Forall (fun s => exists t, t ∈ r /\ same_range s t) (p :: l) /\ unjoinable drop_slot r /\ head r = Some p.
Proof.
  simpl. revert p st. induction l as [|d l IH]; intros p st; simpl.
  - split_and!; [done| |done|done]. repeat constructor. exists p. split; [by left|done].
  - destruct (drop_slot p d) as [p'|] eqn:E.
    + apply drop_slot_Some in E as [-> E]. destruct (IH p (Some (default d st))) as (H1 & H2 & H3 & H4). split_and!; [|..|done|done].
      * etrans; [exact H1|]. apply sublist_skip, sublist_cons. done.
      * apply Forall_cons in H2 as [Hp Hl]. constructor; [done|]. constructor; [|done].
        destruct Hp as (t & Ht & Hs). exists t. split; [done|]. unfold same_range in *. intuition congruence.
    + destruct (IH d None) as (H1 & H2 & H3 & H4). destruct (compact drop_slot d None l) as [r st'] eqn:Ec. simpl in *.
      split_and!; [by apply sublist_skip| | |done].
      * constructor; [exists p; split; [by left|done]|]. eapply Forall_impl; [exact H2|]. intros s (t & Ht & Hs).
        exists t. split; [by right|done].
      * destruct r as [|t r]; [done|]. simpl in H4. injection H4 as ->. done.
Qed.

Lemma compact_dedup_stale l p st s :
  (forall s, st = Some s -> same_range s p) -> (compact drop_slot p st l).2 = Some s ->
  exists r0 q, (compact drop_slot p st l).1 = r0 ++ [q] /\ same_range s q.
Proof.
  revert p st. induction l as [|d l IH]; intros p st Hst Hs; simpl in *.
  - exists [], p. split; [done|]. auto.
  - destruct (drop_slot p d) as [p'|] eqn:E.
    + apply drop_slot_Some in E as [-> E]. apply IH; [|done]. intros s' [= <-]. destruct st as [s0|]; simpl; auto.
    + specialize (IH d None). destruct (compact drop_slot d None l) as [r st']. simpl in *.
      destruct IH as (r0 & q & -> & Hq); [done..|]. by exists (p :: r0), q.
Qed.

(** *** Sorting *)
Definition start (Map : list slot) (k : Z) : Z := from_option (fun s => PhysicalStart (Desc s)) 0 (Map !! Z.to_nat k).

Lemma StronglySorted_lookup {A} (R : A -> A -> Prop) l :
  (forall i j x y, (i < j)%nat -> l !! i = Some x -> l !! j = Some y -> R x y) -> StronglySorted R l.
Proof.
  induction l as [|z l IH]; intros H; constructor.
  - apply IH. intros i j x y Hij Hx Hy. apply (H (S i) (S j)); [lia|done..].
  - apply Forall_lookup. intros j y Hy. apply (H 0%nat (S j)); [lia|done..].
Qed.

Section Sort.
Context (DS : Z) (HDS : 0 < DS) (n : Z) (Map0 : list slot) (Hn : 0 <= n <= Z.of_nat (length Map0)).

(** A rearrangement of the descriptors of the first [n] slots. *)
Record rearranged (Map : list slot) : Prop := {
  re_Ext : Ext <$> Map = Ext <$> Map0;
  re_Desc : Desc <$> Map ≡ₚ Desc <$> Map0;
  re_rest : drop (Z.to_nat n) Map = drop (Z.to_nat n) Map0
}.

Lemma rearranged_length Map : rearranged Map -> length Map = length Map0.
Proof using. intros [H _ _]. rewrite <- (length_fmap Ext Map), <- (length_fmap Ext Map0). by rewrite H. Qed.

Lemma SortSwap_spec Map i j :
  0 <= i < j -> j < n -> rearranged Map ->
  exists Map', SortSwap DS Map (i * DS) (j * DS) = Ret Map' /\ rearranged Map' /\
    start Map' i = Z.min (start Map i) (start Map j) /\ start Map' j = Z.max (start Map i) (start Map j) /\
    (forall k, 0 <= k -> k <> i -> k <> j -> start Map' k = start Map k).
Proof using HDS Hn.
  intros Hi Hj Hre. pose proof (rearranged_length _ Hre) as Hlen.
  destruct (lookup_lt_is_Some_2 Map (Z.to_nat i)) as [s Hs]; [lia|].
  destruct (lookup_lt_is_Some_2 Map (Z.to_nat j)) as [t Ht]; [lia|].
  unfold SortSwap. rewrite (rd_desc_at DS HDS _ i s), (rd_desc_at DS HDS _ j t) by (done || lia). rewrite !bind_ret.
  assert (start Map i = PhysicalStart (Desc s) /\ start Map j = PhysicalStart (Desc t)) as [-> ->] by (unfold start; by rewrite Hs, Ht).
  destruct (decide _) as [Hlt|Hge].
  2:{ exists Map. split_and!; [done|done|unfold start; rewrite Hs; simpl; lia|unfold start; rewrite Ht; simpl; lia|done]. }
  rewrite (wr_desc_at DS HDS _ i s) by (done || lia). rewrite bind_ret.
  rewrite (wr_desc_at DS HDS _ j t) by (lia || rewrite list_lookup_insert_ne by lia; done).
  eexists. split; [reflexivity|].
  assert (forall x y : EFI_MEMORY_DESCRIPTOR, length (<[Z.to_nat j:=Slot x (Ext t)]> (<[Z.to_nat i:=Slot y (Ext s)]> Map)) = length Map)
    as Hl by (intros; by rewrite !length_insert).
  split.
  - destruct Hre as [H1 H2 H3]. split.
    + rewrite !list_fmap_insert. simpl. rewrite <- H1.
      rewrite (list_insert_id (Ext <$> Map) (Z.to_nat i)) by (by rewrite list_lookup_fmap, Hs).
      rewrite list_insert_id; [done|]. by rewrite list_lookup_fmap, Ht.
    + rewrite !list_fmap_insert. simpl. rewrite <- H2.
      apply Permutation_insert_swap; by rewrite list_lookup_fmap, ?Hs, ?Ht.
    + rewrite !drop_insert_lt by lia. done.
  - unfold start. split_and!.
    + rewrite list_lookup_insert_ne by lia. rewrite list_lookup_insert_eq by lia. simpl. lia.
    + rewrite list_lookup_insert_eq by (rewrite length_insert; lia). simpl. lia.
    + intros k Hk Hki Hkj. rewrite !list_lookup_insert_ne by lia. done.
Qed.

(** Position [i] holds the least start of the positions [i..j-1] behind the sorted
    prefix. *)
Definition sorted_upto (i j : Z) (Map : list slot) : Prop :=
  rearranged Map /\ (forall a b, 0 <= a < i -> a < b < n -> start Map a <= start Map b) /\
  (forall b, i < b < j -> start Map i <= start Map b).

Lemma sort_inner i Map fuel :
  0 <= i < n -> sorted_upto i (i + 1) Map -> (Z.to_nat n < fuel)%nat ->
  exists Map', while_ fuel
    (fun '(NextMemoryMapEntry, Map) =>
       if decide (NextMemoryMapEntry < n * DS) then
         Map ← SortSwap DS Map (i * DS) NextMemoryMapEntry;
         Ret (inl (NEXT_MEMORY_DESCRIPTOR NextMemoryMapEntry DS, Map))
       else Ret (inr Map)) ((i + 1) * DS, Map) = Ret Map' /\ sorted_upto i n Map'.
Proof using HDS Hn.
  intros Hi Hs Hf.
  apply (while_total _ (fun s => exists j, s.1 = j * DS /\ i < j <= n /\ sorted_upto i j s.2)
    (fun s => Z.to_nat (n - s.1 / DS)) (sorted_upto i n)).
  - intros [p Map1] (j & Hj & Hjn & H1 & H2 & H3). simpl in *. subst p. destruct (decide (j * DS < n * DS)) as [Hlt|Hge].
    + assert (j < n) by nia. destruct (SortSwap_spec Map1 i j) as (Map2 & -> & Hre & E1 & E2 & E3); [lia|nia|done|]. rewrite bind_ret.
      eexists. split; [reflexivity|]. split.
      * exists (j + 1). simpl. unfold NEXT_MEMORY_DESCRIPTOR. split; [lia|]. split; [nia|]. split_and!; [done|..].
        -- intros a b Ha Hb. rewrite (E3 a) by lia. destruct (decide (b = i)) as [->|]; [|destruct (decide (b = j)) as [->|]].
           ++ rewrite E1. apply Z.min_glb; apply H2; lia.
           ++ rewrite E2. etrans; [apply (H2 a i); lia|lia].
           ++ rewrite E3 by lia. apply H2; lia.
        -- intros b Hb. rewrite E1. destruct (decide (b = j)) as [->|]; [rewrite E2; lia|]. rewrite E3 by lia.
           etrans; [apply Z.le_min_l|]. apply H3. lia.
      * simpl. unfold NEXT_MEMORY_DESCRIPTOR. replace (j * DS + DS) with ((j + 1) * DS) by lia. rewrite !Z.div_mul by lia. nia.
    + exists (inr Map1). split; [done|]. assert (j = n) as -> by nia. split_and!; done.
  - exists (i + 1). simpl. split; [done|]. split; [lia|done].
  - simpl. rewrite Z.div_mul by lia. lia.
Qed.

Lemma sort_outer :
  exists Map', OcSortMemoryMap (n * DS) Map0 DS = Ret Map' /\ sorted_upto n n Map'.
Proof using HDS Hn.
  unfold OcSortMemoryMap.
  apply (while_total _ (fun s => exists i, s.1.1 = i * DS /\ s.1.2 = (i + 1) * DS /\ 0 <= i <= n /\ sorted_upto i (i + 1) s.2)
    (fun s => Z.to_nat (n - s.1.1 / DS)) (sorted_upto n n)).
  - intros [[p q] Map1] (i & Hp & Hq & Hin & Hs). simpl in *. subst p q. destruct (decide (i * DS < n * DS)) as [Hlt|Hge].
    + destruct (sort_inner i Map1 (S (Z.to_nat (n * DS)))) as (Map2 & -> & H1 & H2 & H3); [nia|done|nia|]. rewrite bind_ret.
      cbv zeta. eexists. split; [reflexivity|]. unfold NEXT_MEMORY_DESCRIPTOR. simpl. split.
      * exists (i + 1). split; [lia|]. split; [lia|]. split; [nia|]. split_and!; [done|..].
        -- intros a b Ha Hb. destruct (decide (a = i)) as [->|]; [by apply H3|apply H2; lia].
        -- intros b Hb. lia.
      * replace (i * DS + DS) with ((i + 1) * DS) by lia. rewrite !Z.div_mul by lia. nia.
    + exists (inr Map1). split; [done|]. assert (i = n) as -> by nia. destruct Hs as (? & ? & ?). split_and!; [done..|]. lia.
  - exists 0. unfold NEXT_MEMORY_DESCRIPTOR. cbn [fst snd]. split; [lia|]. split; [lia|]. split; [lia|].
    split; [by split|]. split; intros; lia.
  - cbn [fst]. rewrite Z.div_0_l by lia. nia.
Qed.

Lemma Sort_spec :
  exists Map', OcSortMemoryMap (n * DS) Map0 DS = Ret Map' /\ Ext <$> Map' = Ext <$> Map0 /\
    drop (Z.to_nat n) Map' = drop (Z.to_nat n) Map0 /\
    Desc <$> take (Z.to_nat n) Map' ≡ₚ Desc <$> take (Z.to_nat n) Map0 /\
    StronglySorted (fun d d' => PhysicalStart d <= PhysicalStart d') (Desc <$> take (Z.to_nat n) Map').
Proof using HDS Hn.
  destruct sort_outer as (Map' & E & Hre & Hs & _). pose proof Hre as [H1 H2 H3]. exists Map'. split_and!; [done..| |].
  - rewrite <- (take_drop (Z.to_nat n) Map'), <- (take_drop (Z.to_nat n) Map0), !fmap_app, H3 in H2.
    by apply Permutation_app_inv_r in H2.
  - apply StronglySorted_lookup. intros i j x y Hij Hx Hy. rewrite list_lookup_fmap in Hx, Hy.
    destruct (take (Z.to_nat n) Map' !! i) as [s|] eqn:Es; [|done]. destruct (take (Z.to_nat n) Map' !! j) as [t|] eqn:Et; [|done].
    injection Hx as <-. injection Hy as <-. apply lookup_take_Some in Es as [Es Hi]. apply lookup_take_Some in Et as [Et Hj].
    specialize (Hs (Z.of_nat i) (Z.of_nat j)). unfold start in Hs. rewrite !Nat2Z.id, Es, Et in Hs. simpl in Hs. apply Hs; lia.
Qed.

End Sort.

(** *** Updates and counters *)
#[export] Instance in_desc_dec d x : Decision (in_desc d x).
Proof. unfold in_desc. apply _. Defined.

Lemma LAST_spec d : wf_desc d -> 0 < NumberOfPages d -> LAST_DESCRIPTOR_ADDR d = desc_end d - 1.
Proof.
  intros (H1 & H2 & H3) H4. unfold LAST_DESCRIPTOR_ADDR, desc_end, PAGE in *. rewrite pages_to_size by (unfold PAGE; lia).
  unfold PAGE. rewrite (wrap_small 64 (_ - 1)), wrap_small by lia. lia.
Qed.

(** The area of [n > 0] bytes at [x] lies in [d]. *)
Lemma AREA_spec d x n :
  wf_desc d -> 0 < NumberOfPages d -> 0 <= x -> 0 < n < 2 ^ 64 -> x + n <= 2 ^ 64 ->
  AREA_WITHIN_DESCRIPTOR d x n = bool_decide (PhysicalStart d <= x /\ x + n <= desc_end d).
Proof.
  intros Hd Hp Hx Hn Hxn. unfold AREA_WITHIN_DESCRIPTOR. rewrite LAST_spec by done.
  rewrite (wrap_small 64 (n - 1)), wrap_small by lia.
  destruct (decide (PhysicalStart d <= x /\ x + n <= desc_end d)) as [Hy|Hy].
  - rewrite !bool_decide_eq_true_2 by lia. done.
  - rewrite (bool_decide_eq_false_2 _ Hy). destruct (decide (PhysicalStart d <= x)).
    + rewrite bool_decide_eq_true_2, bool_decide_eq_false_2 by lia. done.
    + rewrite bool_decide_eq_false_2 by lia. done.
Qed.

Lemma AREA_1 d x :
  wf_desc d -> 0 < NumberOfPages d -> 0 <= x < 2 ^ 64 -> AREA_WITHIN_DESCRIPTOR d x 1 = bool_decide (in_desc d x).
Proof. intros. rewrite AREA_spec by (done || lia). apply bool_decide_ext. unfold in_desc. lia. Qed.

(** The descriptor after an update of its type and attributes. *)
Definition updated (s : slot) (Type_ SetAttributes DropAttributes : Z) : slot :=
  let d := Desc s in
  Slot (MemDesc Type_ (PhysicalStart d) (VirtualStart d) (NumberOfPages d)
    (Z.land (Z.lor (Attribute_ d) SetAttributes) (Z.lxor DropAttributes MAX_UINT64))) (Ext s).

Lemma Update_spec DS Map n Address Type_ SetAttributes DropAttributes :
  0 < DS -> 0 <= n <= Z.of_nat (length Map) -> 0 <= Address < 2 ^ 64 ->
  Forall (fun s => wf_desc (Desc s) /\ 0 < NumberOfPages (Desc s)) Map ->
  OcUpdateDescriptors (n * DS) Map DS Address Type_ SetAttributes DropAttributes =
  Ret match list_find (fun s => in_desc (Desc s) Address) (take (Z.to_nat n) Map) with
      | Some (i, s) => (EFI_SUCCESS, <[i := updated s Type_ SetAttributes DropAttributes]> Map)
      | None => (EFI_NOT_FOUND, Map)
      end.
Proof.
  intros HDS Hn HA Hwf. unfold OcUpdateDescriptors. rewrite Z.div_mul by lia.
  match goal with |- while_ ?f ?b ?x = Ret ?r => assert (exists y, while_ f b x = Ret y /\ y = r) as (y & -> & ->); [|done] end.
  eapply (while_total _ (fun s => 0 <= s.1 <= n /\ s.2 = s.1 * DS /\
      Forall (fun s => ~ in_desc (Desc s) Address) (take (Z.to_nat s.1) Map))
    (fun s => Z.to_nat (n - s.1))); [|simpl; split_and!; try lia; by rewrite take_0|simpl; lia].
  intros [k q] (Hk & Hq & Hno). simpl in *. subst q. destruct (decide (k < n)) as [Hlt|Hge].
  - destruct (lookup_lt_is_Some_2 Map (Z.to_nat k)) as [s Hs]; [lia|].
    rewrite (rd_desc_at DS HDS Map k s) by (done || lia). rewrite bind_ret.
    rewrite Forall_forall in Hwf. destruct (Hwf s) as [Hw Hp]; [by eapply list_elem_of_lookup_2|]. rewrite AREA_1 by done.
    destruct (bool_decide_reflect (in_desc (Desc s) Address)) as [Hin|Hout].
    + rewrite (wr_desc_at DS HDS Map k s) by (done || lia). rewrite bind_ret. eexists. split; [reflexivity|]. simpl.
      assert (list_find (fun s => in_desc (Desc s) Address) (take (Z.to_nat n) Map) = Some (Z.to_nat k, s)) as ->; [|done].
      apply list_find_Some. split; [rewrite lookup_take_lt by lia; done|]. split; [done|].
      intros j t Hj Htj. rewrite Forall_forall in Hno. rewrite lookup_take_lt in Hj by lia. apply Hno.
      apply (list_elem_of_lookup_2 _ j). rewrite lookup_take_lt by lia. done.
    + eexists. split; [reflexivity|]. simpl. split; [|lia]. split; [lia|]. split; [unfold NEXT_MEMORY_DESCRIPTOR; lia|].
      replace (Z.to_nat (k + 1)) with (S (Z.to_nat k)) by lia. rewrite (take_S_r _ _ s) by done.
      apply Forall_app. split; [done|]. by repeat constructor.
  - assert (k = n) as -> by lia. eexists. split; [reflexivity|]. simpl.
    assert (list_find (fun s => in_desc (Desc s) Address) (take (Z.to_nat n) Map) = None) as ->; [|done].
    by apply list_find_None.
Qed.

(** The first entry of the table with that name. *)
Definition type_named (name : string) : option Z :=
  (fun e => e.2.2) <$> list_find (fun e => e.1 = Some name) OcMemoryTypeString.

Definition is_runtime (d : EFI_MEMORY_DESCRIPTOR) : bool :=
  bool_decide (Type_ d <> EfiReservedMemoryType /\ Z.land (Attribute_ d) EFI_MEMORY_RUNTIME <> 0).
Definition runtime_descs (l : list slot) : list EFI_MEMORY_DESCRIPTOR := List.filter is_runtime (Desc <$> l).
Definition pages_of (l : list EFI_MEMORY_DESCRIPTOR) : Z := foldr (fun d a => NumberOfPages d + a) 0 l.

Lemma pages_of_app l1 l2 : pages_of (l1 ++ l2) = pages_of l1 + pages_of l2.
Proof. induction l1 as [|d l1 IH]; simpl; [done|]. rewrite IH. lia. Qed.

(** [OcCountRuntimePages] counts the runtime descriptors and sums their pages. *)
Lemma CountRuntimePages_spec DS n Map :
  0 < DS -> 0 <= n <= Z.of_nat (length Map) -> n < 2 ^ 64 ->
  let rt := runtime_descs (take (Z.to_nat n) Map) in
  OcCountRuntimePages (n * DS) Map DS = Ret (wrap 64 (pages_of rt), Z.of_nat (length rt)).
Proof.
  intros HDS Hn Hn64 rt. unfold OcCountRuntimePages. rewrite Z.div_mul by lia.
  oc_for (fun i (s : Z * Z * Z) => s = (i * DS, Z.of_nat (length (runtime_descs (take (Z.to_nat i) Map))),
    wrap 64 (pages_of (runtime_descs (take (Z.to_nat i) Map))))) as r Hr.
  - reflexivity.
  - intros j s Hj ->. destruct (lookup_lt_is_Some_2 Map (Z.to_nat j)) as [t Ht]; [lia|].
    rewrite (rd_desc_at DS HDS Map j t) by (done || lia). rewrite bind_ret.
    replace (Z.to_nat (j + 1)) with (S (Z.to_nat j)) by lia. rewrite (take_S_r _ _ t) by done.
    assert (Z.of_nat (length (runtime_descs (take (Z.to_nat j) Map))) <= j) as Hle.
    { unfold runtime_descs. pose proof (List.filter_length_le is_runtime (Desc <$> take (Z.to_nat j) Map)) as Hle.
      rewrite length_fmap, length_take in Hle. lia. }
    assert (runtime_descs (take (Z.to_nat j) Map ++ [t]) =
      runtime_descs (take (Z.to_nat j) Map) ++ (if is_runtime (Desc t) then [Desc t] else [])) as ->.
    { unfold runtime_descs. by rewrite fmap_app, List.filter_app. }
    rewrite length_app, pages_of_app. unfold is_runtime, NEXT_MEMORY_DESCRIPTOR.
    destruct (decide (Type_ (Desc t) <> EfiReservedMemoryType /\ _)) as [Hd|Hd];
      (eexists; split; [reflexivity|]); [rewrite (bool_decide_eq_true_2 _ Hd)|rewrite (bool_decide_eq_false_2 _ Hd)]; simpl.
    + f_equal; [f_equal; [lia|]|].
      * rewrite wrap_small by lia. lia.
      * unfold wrap. rewrite Z.add_mod_idemp_l by lia. f_equal. lia.
    + f_equal; [f_equal; lia|]. f_equal. lia.
  - rewrite bind_ret. replace (0 + Z.of_nat (Z.to_nat n)) with n in Hr by lia. by rewrite Hr.
Qed.

(** The search from element [k] of the table. *)
Lemma type_named_from name k fuel :
  (k <= 15)%nat -> (15 - k < fuel)%nat ->
  while_ fuel
    (fun Index =>
       if decide (Index < OC_MEMORY_TYPE_DESC_COUNT) then
         '(Name, Type_) ← rd OcMemoryTypeString Index;
         match Name with
         | None => Fault OutOfBounds
         | Some Name =>
             if decide (name = Name) then Ret (inr (EFI_SUCCESS, Some Type_)) else Ret (inl (Index + 1))
         end
       else Ret (inr (EFI_NOT_FOUND, None))) (Z.of_nat k) =
  match (fun e => e.2.2) <$> list_find (fun e => e.1 = Some name) (drop k OcMemoryTypeString) with
  | Some t => Ret (EFI_SUCCESS, Some t)
  | None => Fault OutOfBounds
  end.
Proof.
  intros Hk. remember (15 - k)%nat as n eqn:En. revert k Hk En fuel.
  induction n as [|n IH]; intros k Hk En fuel Hf; (destruct fuel as [|fuel]; [lia|]); rewrite while_S;
    rewrite decide_True by (unfold OC_MEMORY_TYPE_DESC_COUNT; lia).
  - by assert (k = 15)%nat as -> by lia.
  - assert (exists s t, OcMemoryTypeString !! k = Some (Some s, t)) as (s & t & Hs) by (do 15 (destruct k as [|k]; [by eauto|]); lia).
    rewrite (rd_nat _ _ _ Hs), bind_ret. rewrite (drop_S _ _ _ Hs). cbn [list_find fst].
    destruct (decide (name = s)) as [->|Hne]; [by rewrite decide_True|]. rewrite decide_False by congruence. rewrite bind_ret.
    replace (Z.of_nat k + 1) with (Z.of_nat (S k)) by lia. rewrite IH by lia. by destruct (list_find _ _).
Qed.

(** ** Properties *)

(** [OcSortMemoryMap] returns; the descriptors of the map are the ones it had,
    in ascending order of their start address, while the trailing bytes of each
    slot and the slots behind the map do not move. *)
Theorem Sort_correct (DescriptorSize n : Z) (Map : list slot) :
  0 < DescriptorSize -> 0 <= n <= Z.of_nat (length Map) ->
  exists Map', OcSortMemoryMap (n * DescriptorSize) Map DescriptorSize = Ret Map' /\ Ext <$> Map' = Ext <$> Map /\
    drop (Z.to_nat n) Map' = drop (Z.to_nat n) Map /\
    Desc <$> take (Z.to_nat n) Map' ≡ₚ Desc <$> take (Z.to_nat n) Map /\
    StronglySorted (fun d d' => PhysicalStart d <= PhysicalStart d') (Desc <$> take (Z.to_nat n) Map').
Proof. intros HDS Hn. by apply Sort_spec. Qed.

(** C26: [OcShrinkMemoryMap] on a map of two or more entries returns a map in which every
    address has the same usage and attributes as before. It consists of the joined entries,
    no two neighbours of which can be joined any more, and which are sorted and without
    overlaps if those of the map were; and of one more slot exactly if the last entry of
    the map was joined ([Shrink_keeps_absorbed] shows that this slot overlaps the last
    joined entry). The size counts both, and nothing behind the map changes. *)
Theorem Shrink_correct (DescriptorSize : Z) (p : slot) (l rest : list slot) :
  0 < DescriptorSize -> l <> [] -> Z.of_nat (length (p :: l ++ rest)) * DescriptorSize < 2 ^ 64 ->
  Forall (fun s => wf_desc (Desc s)) (p :: l) ->
  exists joined left_over x,
    OcShrinkMemoryMap (Z.of_nat (length (p :: l)) * DescriptorSize) (p :: l ++ rest) DescriptorSize =
      Ret (EFI_SUCCESS, Z.of_nat (length joined + length left_over) * DescriptorSize, joined ++ left_over ++ x ++ rest) /\
    length (joined ++ left_over ++ x) = length (p :: l) /\
    length left_over = (if last_joined join_slot p l then 1%nat else 0%nat) /\
    (forall a u at_, map_owns (joined ++ left_over) a u at_ <-> map_owns (p :: l) a u at_) /\
    (forall a u at_, map_owns joined a u at_ <-> map_owns (p :: l) a u at_) /\
    unjoinable join_slot joined /\ (disjoint_map (p :: l) -> disjoint_map joined).
Proof.
  intros HDS Hl Hb Hwf. destruct (Shrink_spec DescriptorSize HDS p l rest Hl Hb) as (x & E & Hlen).
  exists (compact join_slot p None l).1, (option_list (compact join_slot p None l).2), x. split; [|split; [|split]].
  - rewrite E. unfold counted. by rewrite <- app_assoc, length_app.
  - rewrite <- Hlen. unfold counted. by rewrite app_assoc.
  - rewrite compact_left_over. by destruct l.
  - split; [intros; by apply map_owns_left_over|]. split; [by apply compact_owns|]. split; [by apply compact_unjoinable|by apply compact_disjoint].
Qed.

(** When the last two entries of a map are joined, the map that
    [OcShrinkMemoryMap] returns still counts an absorbed entry, whose addresses
    all belong to the entry in front of it as well. *)
Theorem Shrink_keeps_absorbed (DescriptorSize : Z) (p : slot) (l : list slot) (d : slot) (rest : list slot) :
  0 < DescriptorSize -> Z.of_nat (length (p :: l ++ d :: rest)) * DescriptorSize < 2 ^ 64 ->
  Forall (fun s => wf_desc (Desc s)) (p :: l ++ [d]) ->
  (forall q r, (compact join_slot p None l).1 = r ++ [q] -> is_Some (join_slot q d)) ->
  exists r q s x,
    OcShrinkMemoryMap (Z.of_nat (length (p :: l ++ [d])) * DescriptorSize) (p :: l ++ d :: rest) DescriptorSize =
      Ret (EFI_SUCCESS, Z.of_nat (length (r ++ [q; s])) * DescriptorSize, r ++ [q; s] ++ x ++ rest) /\
    forall a, in_desc (Desc s) a -> in_desc (Desc q) a.
Proof.
  intros HDS Hb Hwf Hj. replace (p :: l ++ d :: rest) with (p :: (l ++ [d]) ++ rest) in * by (by rewrite <- app_assoc).
  destruct (Shrink_spec DescriptorSize HDS p (l ++ [d]) rest) as (x & E & _); [by destruct l|done|].
  destruct (compact_last_joined join_slot l p None d Hj) as [s Hs].
  destruct (compact_stale (l ++ [d]) p None s Hwf) as (r & q & Er & Ho); [done|done|].
  exists r, q, s, x. split.
  - rewrite E. unfold counted. rewrite Hs, Er. simpl. by rewrite <- !app_assoc.
  - intros a Ha. by apply (Ho a (usage (Type_ (Desc s))) (Attribute_ (Desc s))).
Qed.

(** [OcDeduplicateDescriptors] on two or more entries returns; the kept entries
    are entries of the map in their order, every range of the map is kept, and no
    two neighbours have the same range. It reports success exactly when an entry
    was dropped; a duplicate at the end of the map stays counted. *)
Theorem Deduplicate_correct (DescriptorSize : Z) (p : slot) (l rest : list slot) :
  0 < DescriptorSize -> l <> [] -> Z.of_nat (length (p :: l ++ rest)) * DescriptorSize < 2 ^ 64 ->
  Z.of_nat (length (p :: l)) < 2 ^ 32 ->
  exists kept stale x,
    OcDeduplicateDescriptors (Z.of_nat (length (p :: l))) (p :: l ++ rest) DescriptorSize =
      Ret (if absorbs drop_slot p l then EFI_SUCCESS else EFI_NOT_FOUND,
           Z.of_nat (length (kept ++ option_list stale)), kept ++ option_list stale ++ x ++ rest) /\
    sublist kept (p :: l) /\ Forall (fun s => exists t, t ∈ kept /\ same_range s t) (p :: l) /\ unjoinable drop_slot kept /\
    (forall s, stale = Some s -> exists r q, kept = r ++ [q] /\ same_range s q).
Proof.
  intros HDS Hl Hb Hb2. destruct (Deduplicate_spec DescriptorSize HDS p l rest Hl Hb Hb2) as (x & E & _).
  destruct (compact_dedup l p None) as (H1 & H2 & H3 & _).
  exists (compact drop_slot p None l).1, (compact drop_slot p None l).2, x. split_and!; [|done..|].
  - rewrite E. unfold counted. by rewrite <- app_assoc.
  - intros s Hs. by apply (compact_dedup_stale l p None s).
Qed.

(** [OcUpdateDescriptors] changes type and attributes of the first entry that
    contains the address and nothing else; without such an entry it reports
    EFI_NOT_FOUND and leaves the map alone. *)
Theorem Update_first_containing (DescriptorSize n : Z) (Map : list slot) (Address Type_ SetAttributes DropAttributes : Z) :
  0 < DescriptorSize -> 0 <= n <= Z.of_nat (length Map) -> 0 <= Address < 2 ^ 64 ->
  Forall (fun s => wf_desc (Desc s) /\ 0 < NumberOfPages (Desc s)) Map ->
  OcUpdateDescriptors (n * DescriptorSize) Map DescriptorSize Address Type_ SetAttributes DropAttributes =
  Ret match list_find (fun s => in_desc (Desc s) Address) (take (Z.to_nat n) Map) with
      | Some (i, s) => (EFI_SUCCESS, <[i := updated s Type_ SetAttributes DropAttributes]> Map)
      | None => (EFI_NOT_FOUND, Map)
      end.
Proof. apply Update_spec. Qed.

(** [OcDescToMemoryType] returns the type of a name of the table, but for any
    other name it compares with the NULL name of the 16th, uninitialised element
    instead of returning EFI_NOT_FOUND. *)
Theorem DescToMemoryType_lookup (name : string) :
  OcDescToMemoryType (Some name) true =
  match type_named name with Some t => Ret (EFI_SUCCESS, Some t) | None => Fault OutOfBounds end.
Proof.
  unfold OcDescToMemoryType, type_named. change OcMemoryTypeString with (drop 0 OcMemoryTypeString) at 2.
  apply (type_named_from name 0); [lia|vm_compute; lia].
Qed.

(** ** Witnesses *)

(** 48-byte slots: two free neighbours, runtime data and a free entry, unsorted. *)
Definition sample_slot (t s n : Z) : slot := Slot (MemDesc t s 0 n 0xF) (replicate 8 0).
Definition sample_map : list slot :=
  [sample_slot EfiConventionalMemory 0x100000 16; sample_slot EfiLoaderData 0 1; sample_slot EfiBootServicesData 0x1000 2;
   sample_slot EfiRuntimeServicesData 0x3000 1].

Lemma Sort_correct_witness :
  exists Map', OcSortMemoryMap (3 * 48) sample_map 48 = Ret Map' /\ Ext <$> Map' = Ext <$> sample_map /\
    drop 3 Map' = drop 3 sample_map /\ Desc <$> take 3 Map' ≡ₚ Desc <$> take 3 sample_map /\
    StronglySorted (fun d d' => PhysicalStart d <= PhysicalStart d') (Desc <$> take 3 Map').
Proof. apply (Sort_correct 48 3 sample_map); [lia|simpl; lia]. Defined.

(** The first two entries are joined, the last one is not. *)
Lemma Shrink_correct_witness :
  exists joined x,
    OcShrinkMemoryMap (3 * 48) (tail sample_map) 48 = Ret (EFI_SUCCESS, 2 * 48, joined ++ x) /\ length joined = 2%nat /\
    unjoinable join_slot joined.
Proof.
  destruct (Shrink_correct 48 (sample_slot EfiLoaderData 0 1)
    [sample_slot EfiBootServicesData 0x1000 2; sample_slot EfiRuntimeServicesData 0x3000 1] []) as (joined & left_over & x & E & Hn & Hl & _ & _ & HU & _);
    [lia|discriminate|simpl; lia|repeat constructor; vm_compute; congruence|].
  replace (if last_joined _ _ _ then 1%nat else 0%nat) with 0%nat in Hl by reflexivity. apply nil_length_inv in Hl as ->.
  assert (exists Map', OcShrinkMemoryMap (3 * 48) (tail sample_map) 48 = Ret (EFI_SUCCESS, 2 * 48, Map')) as [Map' EM] by (eexists; vm_compute; reflexivity).
  change (OcShrinkMemoryMap (3 * 48) (tail sample_map) 48 = Ret (EFI_SUCCESS, Z.of_nat (length joined + 0) * 48, joined ++ x ++ [])) in E.
  pose proof E as E'. rewrite EM in E'. injection E' as EL _. assert (length joined = 2%nat) as HJ by lia.
  exists joined, x. split; [|by split]. rewrite E, app_nil_r. do 3 f_equal. lia.
Defined.

(** Two free neighbours: both stay counted. *)
Lemma Shrink_keeps_absorbed_witness :
  exists r q s x,
    OcShrinkMemoryMap (2 * 48) [sample_slot EfiLoaderData 0 1; sample_slot EfiBootServicesData 0x1000 2] 48 =
      Ret (EFI_SUCCESS, Z.of_nat (length (r ++ [q; s])) * 48, r ++ [q; s] ++ x ++ []) /\
    forall a, in_desc (Desc s) a -> in_desc (Desc q) a.
Proof.
  apply (Shrink_keeps_absorbed 48 (sample_slot EfiLoaderData 0 1) [] (sample_slot EfiBootServicesData 0x1000 2) []).
  - lia.
  - simpl. lia.
  - repeat constructor; vm_compute; congruence.
  - intros q r E. destruct r as [|? [|? ?]]; try discriminate E. injection E as <-. eexists. vm_compute. reflexivity.
Defined.

Lemma Deduplicate_correct_witness :
  let dup := [sample_slot EfiLoaderData 0 1; sample_slot EfiLoaderCode 0 1; sample_slot EfiRuntimeServicesData 0x3000 1] in
  exists kept stale x,
    OcDeduplicateDescriptors 3 dup 48 =
      Ret (EFI_SUCCESS, Z.of_nat (length (kept ++ option_list stale)), kept ++ option_list stale ++ x ++ []) /\
    sublist kept dup /\ Forall (fun s => exists t, t ∈ kept /\ same_range s t) dup /\ unjoinable drop_slot kept /\
    (forall s, stale = Some s -> exists r q, kept = r ++ [q] /\ same_range s q).
Proof.
  apply (Deduplicate_correct 48 (sample_slot EfiLoaderData 0 1)
    [sample_slot EfiLoaderCode 0 1; sample_slot EfiRuntimeServicesData 0x3000 1] []); [lia|discriminate|simpl; lia|simpl; lia].
Defined.

Lemma Update_first_containing_witness :
  OcUpdateDescriptors (4 * 48) sample_map 48 0x3010 EfiRuntimeServicesCode EFI_MEMORY_RO EFI_MEMORY_XP =
  Ret (EFI_SUCCESS, <[3%nat := updated (sample_slot EfiRuntimeServicesData 0x3000 1) EfiRuntimeServicesCode EFI_MEMORY_RO EFI_MEMORY_XP]>
    sample_map).
Proof.
  apply (Update_first_containing 48 4 sample_map 0x3010); [lia|simpl; lia|lia|]. repeat constructor; vm_compute; congruence.
Defined.

(** The stale entry of the last witness in numbers: the map of the first three
    pages is followed by an entry for its last two. *)
Example shrink_overlap :
  OcShrinkMemoryMap (2 * 48) [sample_slot EfiLoaderData 0 1; sample_slot EfiBootServicesData 0x1000 2] 48 =
  Ret (EFI_SUCCESS, 2 * 48, [sample_slot EfiConventionalMemory 0 3; sample_slot EfiBootServicesData 0x1000 2]).
Proof. vm_compute. reflexivity. Qed.

End MemoryMap.
