(* ===== verification/MemoryAttributes.v ===== *)
(** * Memory attributes: [Library/OcMemoryLib/MemoryAttributes.c]

    The memory attributes table (MAT) lists the protection of runtime memory in
    descriptors of its own; this file models splitting the memory map by it,
    repairing a table with duplicates, and the table lookup. The theorems show
    that splitting keeps a valid memory map inside its buffer and assigns types by
    attributes, and that the repair stays inside the table. *)
From stdpp Require Import sorting.
From S2P Require Import Prelude MemoryMap.

Module MemoryAttributes.
Import MemoryMap.

(** ** Model *)

(** [EFI_MEMORY_ATTRIBUTES_TABLE]: the header and the entries behind it. An entry
    pointer is its byte offset from the first entry. *)
Record EFI_MEMORY_ATTRIBUTES_TABLE : Set := Mat {
  NumberOfEntries : Z;
  MatDescriptorSize : Z;
  Entries : list slot
}.

Definition set_Entries (t : EFI_MEMORY_ATTRIBUTES_TABLE) (l : list slot) := Mat (NumberOfEntries t) (MatDescriptorSize t) l.
Definition set_NumberOfEntries (t : EFI_MEMORY_ATTRIBUTES_TABLE) (n : Z) := Mat n (MatDescriptorSize t) (Entries t).

(** The configuration tables of the system table by vendor GUID. *)
Definition gEfiMemoryAttributesTableGuid : Z := 0xdcfa911d_26eb_469f_a220_38b7dc461220.
Definition ConfigurationTable : Set := list (Z * EFI_MEMORY_ATTRIBUTES_TABLE).

(** The position of the table among the configuration tables. *)
Definition OcGetMemoryAttributes (Tables : ConfigurationTable) : option (nat * EFI_MEMORY_ATTRIBUTES_TABLE) :=
  (fun e => (e.1, e.2.2)) <$> list_find (fun e => e.1 = gEfiMemoryAttributesTableGuid) Tables.

Definition IsRuntime (t : Z) : bool :=
  bool_decide (t = EfiRuntimeServicesCode) || bool_decide (t = EfiRuntimeServicesData).

Section Model.
(** Whether ASSERTs are compiled in. *)
Context (debug : bool).
Definition ASSERT (b : bool) : outcome unit := if debug then assert b else Ret tt.

Definition OcRealMemoryType (MemoryAttribute : EFI_MEMORY_DESCRIPTOR) : outcome Z :=
  ASSERT (IsRuntime (Type_ MemoryAttribute));;
  Ret (if decide (Z.land (Attribute_ MemoryAttribute) EFI_MEMORY_RO <> 0) then EfiRuntimeServicesCode
       else if decide (Z.land (Attribute_ MemoryAttribute) EFI_MEMORY_XP <> 0) then EfiRuntimeServicesData
       else Type_ MemoryAttribute).

(** The variables that [OcSplitMemoryEntryByAttribute] updates through pointers. *)
Record split_state : Set := SplitSt {
  MemoryMapEntry : Z; CurrentEntryIndex : Z; CurrentEntryCount : Z; sp_Map : list slot
}.

(** The entry is split in front of the attribute; [None] is out of resources. *)
Definition SplitBefore (s : split_state) (TotalEntryCount : Z) (MemoryAttribute : EFI_MEMORY_DESCRIPTOR) (DescriptorSize : Z)
    : outcome (option split_state) :=
  let '(SplitSt Entry Index Count Map) := s in
  d ← rd_desc DescriptorSize Map Entry;
  if decide (PhysicalStart d < PhysicalStart MemoryAttribute) then
    if decide (Count = TotalEntryCount) then Ret None else
    let NewEntry := NEXT_MEMORY_DESCRIPTOR Entry DescriptorSize in
    let DiffPages := EFI_SIZE_TO_PAGES (PhysicalStart MemoryAttribute -[64] PhysicalStart d) in
    Map ← CopySlots DescriptorSize Map NewEntry Entry (DescriptorSize *[64] (Count -[64] Index));
    d ← rd_desc DescriptorSize Map Entry;
    Map ← wr_desc DescriptorSize Map Entry (set_NumberOfPages d DiffPages);
    d ← rd_desc DescriptorSize Map NewEntry;
    Map ← wr_desc DescriptorSize Map NewEntry
      (set_NumberOfPages (set_PhysicalStart d (PhysicalStart MemoryAttribute)) (NumberOfPages d -[64] DiffPages));
    Ret (Some (SplitSt NewEntry (Index +[64] 1) (Count +[64] 1) Map))
  else Ret (Some s).

(** The status and the updated variables. The entry pointer is only stored back on
    success. *)
Definition OcSplitMemoryEntryByAttribute (s0 : split_state) (TotalEntryCount : Z) (MemoryAttribute : EFI_MEMORY_DESCRIPTOR)
    (DescriptorSize : Z) : outcome (EFI_STATUS * split_state) :=
  r ← SplitBefore s0 TotalEntryCount MemoryAttribute DescriptorSize;
  match r with
  | None => Ret (EFI_OUT_OF_RESOURCES, s0)
  | Some (SplitSt Entry Index Count Map) =>
      d ← rd_desc DescriptorSize Map Entry;
      ASSERT (bool_decide (PhysicalStart MemoryAttribute = PhysicalStart d));;
      if decide (NumberOfPages d = NumberOfPages MemoryAttribute) then
        t ← OcRealMemoryType MemoryAttribute;
        Map ← wr_desc DescriptorSize Map Entry (set_Type d t);
        Ret (EFI_SUCCESS, SplitSt Entry Index Count Map)
      else if decide (Count = TotalEntryCount) then
        Ret (EFI_OUT_OF_RESOURCES, SplitSt (MemoryMapEntry s0) Index Count Map)
      else
        let NewEntry := NEXT_MEMORY_DESCRIPTOR Entry DescriptorSize in
        Map ← CopySlots DescriptorSize Map NewEntry Entry (DescriptorSize *[64] (Count -[64] Index));
        t ← OcRealMemoryType MemoryAttribute;
        d ← rd_desc DescriptorSize Map Entry;
        Map ← wr_desc DescriptorSize Map Entry (set_NumberOfPages (set_Type d t) (NumberOfPages MemoryAttribute));
        d ← rd_desc DescriptorSize Map NewEntry;
        Map ← wr_desc DescriptorSize Map NewEntry
          (set_NumberOfPages
             (set_PhysicalStart d (PhysicalStart d +[64] EFI_PAGES_TO_SIZE (NumberOfPages MemoryAttribute)))
             (NumberOfPages d -[64] NumberOfPages MemoryAttribute));
        Ret (EFI_SUCCESS, SplitSt NewEntry (Index +[64] 1) (Count +[64] 1) Map)
  end.

(** The search of the attribute for the entry [d]: [Index2], the attribute pointer,
    [InDescAttrs] and the updated [LastAttributeEntry], [LastAttributeIndex]. *)
Record find_state : Set := FindSt {
  Index2 : Z; MemoryAttributesEntry : Z; InDescAttrs : bool; LastAttributeEntry : Z; LastAttributeIndex : Z
}.

Definition FindAttribute (Table : EFI_MEMORY_ATTRIBUTES_TABLE) (d : EFI_MEMORY_DESCRIPTOR) (AttributeCount : Z)
    (LastEntry LastIndex : Z) : outcome find_state :=
  let Next p := NEXT_MEMORY_DESCRIPTOR p (MatDescriptorSize Table) in
  while_ (S (Z.to_nat (AttributeCount - LastIndex)))
    (fun f =>
       let '(FindSt i e InDesc le li) := f in
       if decide (i < AttributeCount) then
         a ← rd_desc (MatDescriptorSize Table) (Entries Table) e;
         if IsRuntime (Type_ a) then
           if AREA_WITHIN_DESCRIPTOR d (PhysicalStart a) (EFI_PAGES_TO_SIZE (NumberOfPages a)) then
             t ← OcRealMemoryType a;
             if decide (t <> Type_ d) then Ret (inr (FindSt i e true (Next e) (i + 1)))
             else Ret (inl (FindSt (i + 1) (Next e) true le li))
           else if InDesc : bool then Ret (inr (FindSt i e false le li))
           else Ret (inl (FindSt (i + 1) (Next e) InDesc le li))
         else Ret (inl (FindSt (i + 1) (Next e) InDesc le li))
       else Ret (inr f))
    (FindSt LastIndex LastEntry false LastEntry LastIndex).

(** The loop that splits one entry by as many attributes as possible: the last
    attribute position and the split variables, or the status of a failed split. *)
Definition SplitEntry (Table : EFI_MEMORY_ATTRIBUTES_TABLE) (AttributeCount TotalEntryCount DescriptorSize : Z)
    (LastEntry LastIndex : Z) (s : split_state) : outcome (Z * Z * split_state + EFI_STATUS * split_state) :=
  while_ (S (S (Z.to_nat (AttributeCount - LastIndex))))
    (fun '(le, li, s) =>
       d ← rd_desc DescriptorSize (sp_Map s) (MemoryMapEntry s);
       if IsRuntime (Type_ d) then
         f ← FindAttribute Table d AttributeCount le li;
         if bool_decide (Index2 f < AttributeCount) && InDescAttrs f then
           a ← rd_desc (MatDescriptorSize Table) (Entries Table) (MemoryAttributesEntry f);
           '(Status, s) ← OcSplitMemoryEntryByAttribute s TotalEntryCount a DescriptorSize;
           if EFI_ERROR Status then Ret (inr (inr (Status, s)))
           else Ret (inl (LastAttributeEntry f, LastAttributeIndex f, s))
         else Ret (inr (inl (LastAttributeEntry f, LastAttributeIndex f, s)))
       else Ret (inr (inl (le, li, s))))
    (LastEntry, LastIndex, s).

(** The status, the updated [*MemoryMapSize] and the map. *)
Definition OcSplitMemoryMapByAttributes (Tables : ConfigurationTable) (MaxMemoryMapSize MemoryMapSize : Z) (Map : list slot)
    (DescriptorSize : Z) : outcome (EFI_STATUS * Z * list slot) :=
  ASSERT (bool_decide (MemoryMapSize <= MaxMemoryMapSize));;
  match OcGetMemoryAttributes Tables with
  | None => Ret (EFI_UNSUPPORTED, MemoryMapSize, Map)
  | Some (_, Table) =>
      let TotalEntryCount := MaxMemoryMapSize / DescriptorSize in
      let AttributeCount := NumberOfEntries Table in
      while_ (S (Z.to_nat (MemoryMapSize / DescriptorSize)))
        (fun '(le, li, s) =>
           if decide (CurrentEntryIndex s < CurrentEntryCount s) then
             r ← SplitEntry Table AttributeCount TotalEntryCount DescriptorSize le li s;
             match r with
             | inr (Status, s) => Ret (inr (Status, CurrentEntryCount s *[64] DescriptorSize, sp_Map s))
             | inl (le, li, SplitSt Entry Index Count Map) =>
                 Ret (inl (le, li, SplitSt (NEXT_MEMORY_DESCRIPTOR Entry DescriptorSize) (Index +[64] 1) Count Map))
             end
           else Ret (inr (EFI_SUCCESS, CurrentEntryCount s *[64] DescriptorSize, sp_Map s)))
        (0, 0, SplitSt 0 0 (MemoryMapSize / DescriptorSize) Map)
  end.

Definition OcCountSplitDescriptors (Tables : ConfigurationTable) : outcome Z :=
  match OcGetMemoryAttributes Tables with
  | None => Ret 0
  | Some (_, Table) =>
      r ← for_ (Z.to_nat (NumberOfEntries Table)) 0
        (fun _ '(e, DescriptorCount) =>
           a ← rd_desc (MatDescriptorSize Table) (Entries Table) e;
           Ret (NEXT_MEMORY_DESCRIPTOR e (MatDescriptorSize Table),
                if IsRuntime (Type_ a) then DescriptorCount +[64] 1 else DescriptorCount))
        (0, 0);
      Ret (snd r)
  end.

(** [Entry = None] appends. The status and the table. *)
Definition OcExpandAttributeWrite (Table : EFI_MEMORY_ATTRIBUTES_TABLE) (Entry : option Z) (MaxDescriptors : Z)
    (MapDesc : EFI_MEMORY_DESCRIPTOR) (CurrentMapAddress : Z) : outcome (EFI_STATUS * EFI_MEMORY_ATTRIBUTES_TABLE) :=
  let DS := MatDescriptorSize Table in
  if decide (MaxDescriptors <= NumberOfEntries Table) then Ret (EFI_OUT_OF_RESOURCES, Table) else
  '(e, NextMatAddress, l) ←
    match Entry with
    | Some e =>
        a ← rd_desc DS (Entries Table) e;
        ASSERT (bool_decide (CurrentMapAddress < PhysicalStart a));;
        l ← CopySlots DS (Entries Table) (NEXT_MEMORY_DESCRIPTOR e DS) e ((NumberOfEntries Table *[32] DS) -[64] e);
        let NextMatAddress := LAST_DESCRIPTOR_ADDR MapDesc +[64] 1 in
        a ← rd_desc DS l e;
        Ret (e, if decide (PhysicalStart a < NextMatAddress) then PhysicalStart a else NextMatAddress, l)
    | None => Ret (NumberOfEntries Table *[32] DS, LAST_DESCRIPTOR_ADDR MapDesc +[64] 1, Entries Table)
    end;
  t ← OcRealMemoryType MapDesc;
  let Attribute := if decide (t = EfiRuntimeServicesCode) then Z.lor EFI_MEMORY_RUNTIME EFI_MEMORY_RO
                   else Z.lor EFI_MEMORY_RUNTIME EFI_MEMORY_XP in
  l ← wr_desc DS l e
    (MemDesc t CurrentMapAddress 0 (EFI_SIZE_TO_PAGES (NextMatAddress -[64] CurrentMapAddress)) Attribute);
  Ret (EFI_SUCCESS, Mat (NumberOfEntries Table +[32] 1) DS l).

(** The inner loop of [OcExpandAttributesByMap] for the map entry [m]. *)
Record expand_state : Set := ExpandSt {
  x_Status : EFI_STATUS; x_MatIndex : Z; x_Entry : Z; x_Address : Z; x_Table : EFI_MEMORY_ATTRIBUTES_TABLE
}.

Definition ExpandStep (MaxDescriptors : Z) (m : EFI_MEMORY_DESCRIPTOR) (NextMapAddress : Z) (s : expand_state)
    : outcome (expand_state + expand_state * bool) :=
  let '(ExpandSt Status MatIndex e CurrentMapAddress Table) := s in
  if decide (MatIndex < NumberOfEntries Table /\ CurrentMapAddress < NextMapAddress) then
    let Continue Status CurrentMapAddress Table :=
      Ret (inl (ExpandSt Status (MatIndex +[64] 1) (NEXT_MEMORY_DESCRIPTOR e (MatDescriptorSize Table)) CurrentMapAddress Table)) in
    a ← rd_desc (MatDescriptorSize Table) (Entries Table) e;
    if negb (IsRuntime (Type_ a)) then Continue Status CurrentMapAddress Table else
    let LastMatAddress := LAST_DESCRIPTOR_ADDR a in
    if decide (LastMatAddress < PhysicalStart m) then Continue Status CurrentMapAddress Table else
    if decide (CurrentMapAddress = PhysicalStart a) then
      ASSERT (bool_decide (NumberOfPages a <= NumberOfPages m));;
      Continue Status (LastMatAddress +[64] 1) Table
    else
      '(Status, Table) ← OcExpandAttributeWrite Table (Some e) MaxDescriptors m CurrentMapAddress;
      if EFI_ERROR Status then Ret (inr (ExpandSt Status MatIndex e CurrentMapAddress Table, true)) else
      a ← rd_desc (MatDescriptorSize Table) (Entries Table) e;
      Continue Status (LAST_DESCRIPTOR_ADDR a +[64] 1) Table
  else Ret (inr (s, false)).

(** One map entry; the boolean tells that the function returns. *)
Definition ExpandEntry (MaxDescriptors : Z) (m : EFI_MEMORY_DESCRIPTOR) (s : expand_state) : outcome (expand_state * bool) :=
  if negb (IsRuntime (Type_ m)) then Ret (s, false) else
  let NextMapAddress := LAST_DESCRIPTOR_ADDR m +[64] 1 in
  '(s, Failed) ← while_ (S (S (Z.to_nat MaxDescriptors))) (ExpandStep MaxDescriptors m NextMapAddress)
    (ExpandSt (x_Status s) (x_MatIndex s) (x_Entry s) (PhysicalStart m) (x_Table s));
  if (Failed : bool) then Ret (s, true) else
  if decide (x_Address s = NextMapAddress) then Ret (s, false) else
  ASSERT (bool_decide (x_Address s < NextMapAddress));;
  ASSERT (bool_decide (x_MatIndex s = NumberOfEntries (x_Table s)));;
  '(Status, Table) ← OcExpandAttributeWrite (x_Table s) None MaxDescriptors m (x_Address s);
  if EFI_ERROR Status then Ret (ExpandSt Status (x_MatIndex s) (x_Entry s) (x_Address s) Table, true)
  else Ret (ExpandSt Status (x_MatIndex s +[64] 1) (x_Entry s) (x_Address s) Table, false).

Definition OcExpandAttributesByMap (Table : EFI_MEMORY_ATTRIBUTES_TABLE) (Entry MaxDescriptors MemoryMapDescriptors : Z)
    (Map : list slot) (DescriptorSize : Z) : outcome (EFI_STATUS * EFI_MEMORY_ATTRIBUTES_TABLE) :=
  while_ (S (Z.to_nat MemoryMapDescriptors))
    (fun '(MapIndex, p, s) =>
       if decide (MapIndex < MemoryMapDescriptors) then
         m ← rd_desc DescriptorSize Map p;
         '(s, Return) ← ExpandEntry MaxDescriptors m s;
         if (Return : bool) then Ret (inr (x_Status s, x_Table s))
         else Ret (inl (MapIndex + 1, NEXT_MEMORY_DESCRIPTOR p DescriptorSize, s))
       else Ret (inr (x_Status s, x_Table s)))
    (0, 0, ExpandSt EFI_NOT_FOUND 0 Entry 0 Table).

(** [GetMemoryMap] of the firmware into the static buffer: its status, and the
    size, the descriptor size and the content stored on success. *)
Class FirmwareMap : Type := { GetMemoryMap : Z -> EFI_STATUS * (Z * Z * list slot) }.
Definition OC_DEFAULT_MEMORY_MAP_SIZE : Z := 4096 * 3.

Definition OcRebuildAttributes `{FirmwareMap} (Tables : ConfigurationTable) (Address : Z)
    : outcome (EFI_STATUS * ConfigurationTable) :=
  match OcGetMemoryAttributes Tables with
  | None => Ret (EFI_UNSUPPORTED, Tables)
  | Some (i, Table) =>
      if decide (NumberOfEntries Table = 0) then Ret (EFI_UNSUPPORTED, Tables) else
      let DS := MatDescriptorSize Table in
      l ← OcSortMemoryMap (NumberOfEntries Table *[32] DS) (Entries Table) DS;
      let MaxDescriptors := NumberOfEntries Table in
      '(Status, n, l) ← OcDeduplicateDescriptors (NumberOfEntries Table) l DS;
      let Table := Mat n DS l in
      '(Status, Table) ←
        (if negb (EFI_ERROR Status) then
           let '(Status, (MemoryMapSize, DescriptorSize, MemoryMap)) := GetMemoryMap OC_DEFAULT_MEMORY_MAP_SIZE in
           if negb (EFI_ERROR Status) then
             MemoryMap ← OcSortMemoryMap MemoryMapSize MemoryMap DescriptorSize;
             '(_, Table) ← OcExpandAttributesByMap Table 0 MaxDescriptors (MemoryMapSize / DescriptorSize) MemoryMap DescriptorSize;
             Ret (Status, Table)
           else Ret (Status, Table)
         else Ret (Status, Table));
      '(Status, Table) ←
        (if decide (Address <> 0) then
           '(Status, l) ← OcUpdateDescriptors (NumberOfEntries Table *[32] DS) (Entries Table) DS Address
             EfiRuntimeServicesCode EFI_MEMORY_RO EFI_MEMORY_XP;
           Ret (Status, set_Entries Table l)
         else Ret (Status, Table));
      Ret (Status, <[i := (gEfiMemoryAttributesTableGuid, Table)]> Tables)
  end.

End Model.

(** ** Specification *)

(** The type that the protection of a runtime descriptor implies. *)
Definition real_type (d : EFI_MEMORY_DESCRIPTOR) : Z :=
  if decide (Z.land (Attribute_ d) EFI_MEMORY_RO <> 0) then EfiRuntimeServicesCode
  else if decide (Z.land (Attribute_ d) EFI_MEMORY_XP <> 0) then EfiRuntimeServicesData
  else Type_ d.

(** A descriptor of whole pages. *)
Definition page_desc (d : EFI_MEMORY_DESCRIPTOR) : Prop :=
  wf_desc d /\ 0 < NumberOfPages d /\ (PAGE | PhysicalStart d).

(** Runtime code and data are one class; the split moves memory between them. *)
Definition rt_class (t : Z) : Z := if IsRuntime t then EfiRuntimeServicesCode else t.
Definition has (l : list slot) (x c at_ : Z) : Prop :=
  exists s, s ∈ l /\ in_desc (Desc s) x /\ rt_class (Type_ (Desc s)) = c /\ Attribute_ (Desc s) = at_.

(** The type [t] at address [x] is that of a runtime attribute there. *)
Definition attributed (Mats : list slot) (x t : Z) : Prop :=
  exists a, a ∈ Mats /\ IsRuntime (Type_ (Desc a)) = true /\ in_desc (Desc a) x /\ t = real_type (Desc a).

(** [new] is a valid refinement of the map [old]: page descriptors that describe
    the same addresses with the same attributes and class, ordered if [old] was,
    with types from [old] or from the attributes. *)
Record refined (Mats old new : list slot) : Prop := {
  ref_pages : Forall (fun s => page_desc (Desc s)) new;
  ref_has x c at_ : has new x c at_ <-> has old x c at_;
  ref_disjoint : disjoint_map old -> disjoint_map new;
  ref_types s x : s ∈ new -> in_desc (Desc s) x ->
    exists s0, s0 ∈ old /\ in_desc (Desc s0) x /\ (Type_ (Desc s) = Type_ (Desc s0) \/ attributed Mats x (Type_ (Desc s)))
}.

Lemma refined_refl Mats l : Forall (fun s => page_desc (Desc s)) l -> refined Mats l l.
Proof. intros H. split; [done..|]. intros s x Hs Hx. exists s. eauto. Qed.

Lemma has_app l1 l2 x c at_ : has (l1 ++ l2) x c at_ <-> has l1 x c at_ \/ has l2 x c at_.
Proof.
  unfold has. setoid_rewrite elem_of_app. split.
  - intros (s & [Hs|Hs] & H); [left|right]; eauto.
  - intros [(s & Hs & H)|(s & Hs & H)]; eauto.
Qed.

Lemma has_cons s l x c at_ : has (s :: l) x c at_ <-> has [s] x c at_ \/ has l x c at_.
Proof. apply (has_app [s]). Qed.

(** Pieces of one entry: they refine it and stay inside. *)
Definition pieces (Mats : list slot) (e : slot) (ps : list slot) : Prop :=
  refined Mats [e] ps /\ Forall (fun s => PhysicalStart (Desc e) <= PhysicalStart (Desc s) /\ desc_end (Desc s) <= desc_end (Desc e)) ps.

Lemma StronglySorted_app3 {A} (R : A -> A -> Prop) l1 ps ps' l2 :
  StronglySorted R (l1 ++ ps ++ l2) -> StronglySorted R ps' ->
  (forall y, (forall z, z ∈ ps -> R y z) -> forall z', z' ∈ ps' -> R y z') ->
  (forall y, (forall z, z ∈ ps -> R z y) -> forall z', z' ∈ ps' -> R z' y) ->
  StronglySorted R (l1 ++ ps' ++ l2).
Proof.
  intros H Hp Hl Hr. induction l1 as [|z l1 IH]; simpl in *.
  - revert Hr Hp. clear Hl. induction ps' as [|q ps' IH]; intros Hr Hp; simpl.
    + clear - H. induction ps; simpl in *; [done|]. apply StronglySorted_inv in H as [H _]. auto.
    + apply StronglySorted_inv in Hp as [Hp Hq]. constructor.
      * apply IH; [|done]. intros y Hy z' Hz'. apply (Hr y Hy). by right.
      * apply Forall_app. split; [done|]. apply Forall_forall. intros y Hy. apply (Hr y); [|by left].
        clear - H Hy. intros z Hz. induction ps as [|t ps IH]; [by apply not_elem_of_nil in Hz|]. simpl in *.
        apply StronglySorted_inv in H as [H1 H2]. apply elem_of_cons in Hz as [->|Hz]; [|by apply IH].
        rewrite Forall_forall in H2. apply H2, elem_of_app. by right.
  - apply StronglySorted_inv in H as [H1 H2]. constructor; [by apply IH|].
    rewrite !Forall_app in H2 |- *. destruct H2 as (? & H3 & ?). split; [done|]. split; [|done].
    rewrite Forall_forall in H3. apply Forall_forall. by apply Hl.
Qed.

(** Replacing an entry by pieces of it. *)
Lemma refined_replace Mats old l1 e l2 ps :
  refined Mats old (l1 ++ e :: l2) -> pieces Mats e ps -> refined Mats old (l1 ++ ps ++ l2).
Proof.
  intros [H1 H2 H3 H4] [[P1 P2 P3 P4] P5]. split.
  - rewrite !Forall_app, Forall_cons in *. intuition.
  - intros x c at_. rewrite <- H2, !has_app, (has_cons e), P2. tauto.
  - intros Hd. specialize (H3 Hd). apply (StronglySorted_app3 _ l1 [e] ps l2); [done|apply P3; repeat constructor|..];
      rewrite Forall_forall in P5; intros y Hy z' Hz'; specialize (Hy e ltac:(by left)); specialize (P5 z' Hz'); lia.
  - intros s x Hs Hx. rewrite !elem_of_app in Hs. destruct Hs as [Hs|[Hs|Hs]].
    + apply (H4 s x); [|done]. rewrite elem_of_app. by left.
    + destruct (P4 s x Hs Hx) as (e' & He' & Hxe & Ht). apply list_elem_of_singleton in He'. subst e'.
      destruct (H4 e x) as (s0 & Hs0 & Hx0 & Ht0); [rewrite elem_of_app, elem_of_cons; by right; left|done|].
      exists s0. split; [done|]. split; [done|]. destruct Ht as [->|Ht]; [done|by right].
    + apply (H4 s x); [|done]. rewrite elem_of_app, elem_of_cons. by right; right.
Qed.

(** Cutting an entry at the page boundary [m]. *)
Definition cut_left (e : slot) (m : Z) : slot :=
  Slot (set_NumberOfPages (Desc e) ((m - PhysicalStart (Desc e)) / PAGE)) (Ext e).
Definition cut_right (e : slot) (m : Z) : slot :=
  Slot (set_NumberOfPages (set_PhysicalStart (Desc e) m)
    (NumberOfPages (Desc e) - (m - PhysicalStart (Desc e)) / PAGE)) (Ext e).

Lemma cut_pages e m :
  page_desc (Desc e) -> PhysicalStart (Desc e) < m < desc_end (Desc e) -> (PAGE | m) ->
  let n := (m - PhysicalStart (Desc e)) / PAGE in
  n * PAGE = m - PhysicalStart (Desc e) /\ 0 < n < NumberOfPages (Desc e).
Proof.
  intros ((H1 & H2 & H3) & H4 & [k H5]) Hm [j H6] n. unfold desc_end in *.
  assert (n = j - k) as ->.
  { unfold n. rewrite H5, H6. replace (j * PAGE - k * PAGE) with ((j - k) * PAGE) by lia. apply Z.div_mul. done. }
  unfold PAGE in *. lia.
Qed.

Lemma has_singleton s x c at_ :
  has [s] x c at_ <-> in_desc (Desc s) x /\ rt_class (Type_ (Desc s)) = c /\ Attribute_ (Desc s) = at_.
Proof.
  unfold has. split.
  - intros (t & Ht & H). apply list_elem_of_singleton in Ht. by subst t.
  - intros H. exists s. split; [by apply list_elem_of_singleton|done].
Qed.

Lemma pieces_cut Mats e m :
  page_desc (Desc e) -> PhysicalStart (Desc e) < m < desc_end (Desc e) -> (PAGE | m) ->
  pieces Mats e [cut_left e m; cut_right e m] /\ page_desc (Desc (cut_left e m)) /\ page_desc (Desc (cut_right e m)) /\
  desc_end (Desc (cut_left e m)) = m /\ desc_end (Desc (cut_right e m)) = desc_end (Desc e).
Proof.
  intros He Hm Hd. destruct (cut_pages e m He Hm Hd) as [En Hn]. pose proof He as ((H1 & H2 & H3) & H4 & H5).
  assert (desc_end (Desc (cut_left e m)) = m) as E1 by (unfold desc_end; simpl; lia).
  assert (desc_end (Desc (cut_right e m)) = desc_end (Desc e)) as E2 by (unfold desc_end in *; simpl; lia).
  assert (page_desc (Desc (cut_left e m))) as P1.
  { unfold page_desc, wf_desc. rewrite E1. simpl. split_and!; [lia..|done]. }
  assert (page_desc (Desc (cut_right e m))) as P2.
  { unfold page_desc, wf_desc. rewrite E2. simpl. split_and!; [lia..|done]. }
  split; [|done]. split.
  - split.
    + constructor; [done|]. constructor; [done|]. constructor.
    + intros x c at_. rewrite has_cons, !has_singleton. unfold in_desc. rewrite E1, E2. simpl. split; [intuition lia|].
      intros (Hx & Hc). destruct (decide (x < m)); [left|right]; intuition lia.
    + intros _. constructor; [repeat constructor|]. constructor; [|constructor]. rewrite E1. simpl. lia.
    + intros s x Hs Hx. exists e. split; [by left|]. apply elem_of_cons in Hs as [->|Hs%list_elem_of_singleton];
        [|subst s]; unfold in_desc in *; [rewrite E1 in Hx|rewrite E2 in Hx]; simpl in *; (split; [lia|by left]).
  - constructor; [rewrite E1; simpl; lia|]. constructor; [rewrite E2; simpl; lia|]. constructor.
Qed.

Definition retyped (e : slot) (t : Z) : slot := Slot (set_Type (Desc e) t) (Ext e).

Lemma real_type_runtime a : IsRuntime (Type_ a) = true -> IsRuntime (real_type a) = true.
Proof. intros H. unfold real_type. by repeat case_decide. Qed.

Lemma pieces_retype Mats e a :
  page_desc (Desc e) -> IsRuntime (Type_ (Desc e)) = true -> a ∈ Mats -> IsRuntime (Type_ (Desc a)) = true ->
  PhysicalStart (Desc a) = PhysicalStart (Desc e) -> desc_end (Desc a) = desc_end (Desc e) ->
  pieces Mats e [retyped e (real_type (Desc a))].
Proof.
  intros He Hr Ha Hra E1 E2.
  assert (desc_end (Desc (retyped e (real_type (Desc a)))) = desc_end (Desc e)) as E3 by done.
  split; [|constructor; [done|constructor]]. split.
  - constructor; [done|]. constructor.
  - intros x c at_. rewrite !has_singleton. unfold in_desc. rewrite E3. simpl. unfold rt_class.
    by rewrite real_type_runtime, Hr.
  - intros _. repeat constructor.
  - intros s x Hs%list_elem_of_singleton Hx. subst s. exists e. split; [by left|]. split; [done|]. right.
    exists a. unfold in_desc in *. rewrite E1, E2, <- E3. done.
Qed.

(** ** Splitting one entry *)
Section Split.
Context (debug : bool) (DS : Z) (HDS : 0 < DS).

Lemma ASSERT_holds (b : bool) : b = true -> ASSERT debug b = Ret tt.
Proof using. intros ->. by destruct debug. Qed.

Lemma RealMemoryType_spec d : IsRuntime (Type_ d) = true -> OcRealMemoryType debug d = Ret (real_type d).
Proof using. intros H. unfold OcRealMemoryType. by rewrite ASSERT_holds. Qed.

(** Opening a slot behind [e]. *)
Lemma CopySlots_up l1 e l2 y rest :
  CopySlots DS (l1 ++ e :: l2 ++ y :: rest) ((Z.of_nat (length l1) + 1) * DS) (Z.of_nat (length l1) * DS)
    ((1 + Z.of_nat (length l2)) * DS) = Ret (l1 ++ e :: e :: l2 ++ rest).
Proof using HDS.
  unfold CopySlots. rewrite !slot_of_mul by done. rewrite !bind_ret, CopyMem_in by slen.
  f_equal. unfold slice. rewrite Nat2Z.id, drop_app_length.
  replace (Z.to_nat (1 + Z.of_nat (length l2))) with (S (length l2)) by lia. rewrite firstn_cons, take_app_length.
  replace (Z.to_nat (Z.of_nat (length l1) + 1)) with (length l1 + 1)%nat by lia. rewrite (list_inserts_app_r (e :: l2)). f_equal.
  rewrite list_inserts_cons. f_equal.
  replace (l2 ++ y :: rest) with ((l2 ++ [y]) ++ rest) by (by rewrite <- app_assoc).
  rewrite (list_inserts_0_r (e :: l2)); [done|]. rewrite length_app. simpl. lia.
Qed.

(** The variables when the loop stands at [e] behind [l1], with [l2] to come and
    the spare slots [rest]. *)
Definition at_entry (l1 : list slot) (e : slot) (l2 rest : list slot) : split_state :=
  let a := Z.of_nat (length l1) in
  SplitSt (a * DS) a (a + 1 + Z.of_nat (length l2)) (l1 ++ e :: l2 ++ rest).

Lemma size_to_pages e m :
  page_desc (Desc e) -> PhysicalStart (Desc e) < m < desc_end (Desc e) -> (PAGE | m) ->
  EFI_SIZE_TO_PAGES (m -[64] PhysicalStart (Desc e)) = (m - PhysicalStart (Desc e)) / PAGE.
Proof using.
  intros He Hm Hd. destruct (cut_pages e m He Hm Hd) as [En Hn]. destruct He as ((H1 & H2 & H3) & _).
  rewrite wrap_small by lia. unfold EFI_SIZE_TO_PAGES. rewrite Z.shiftr_div_pow2 by lia. change (2 ^ 12) with PAGE.
  rewrite decide_False.
  - rewrite Z.add_0_r. apply wrap_small. unfold desc_end, PAGE in *. lia.
  - change 0xFFF with (Z.ones 12). rewrite Z.land_ones by lia. change (2 ^ 12) with PAGE. rewrite <- En. rewrite Z.mod_mul by done. lia.
Qed.

Lemma OpenSlot l1 e l2 y rest :
  let a := Z.of_nat (length l1) in Z.of_nat (length (l1 ++ e :: l2 ++ y :: rest)) * DS < 2 ^ 64 ->
  CopySlots DS (l1 ++ e :: l2 ++ y :: rest) (a * DS + DS) (a * DS) (DS *[64] ((a + 1 + Z.of_nat (length l2)) -[64] a)) =
  Ret (l1 ++ e :: e :: l2 ++ rest).
Proof using HDS.
  intros a Hb. assert (a + 1 + Z.of_nat (length l2) < 2 ^ 64) as Hc by slen.
  rewrite (wrap_small 64 (_ - a)) by lia. rewrite wrap_small by slen. rewrite <- CopySlots_up with (y := y). f_equal; lia.
Qed.

(** The writes to an entry and to the slot opened behind it. *)
Lemma wr_pair {B} l1 e l2 f g (K : list slot -> outcome B) :
  let a := Z.of_nat (length l1) in
  (d ← rd_desc DS (l1 ++ e :: e :: l2) (a * DS); Map ← wr_desc DS (l1 ++ e :: e :: l2) (a * DS) (f d);
   d ← rd_desc DS Map (a * DS + DS); Map ← wr_desc DS Map (a * DS + DS) (g d); K Map) =
  K (l1 ++ Slot (f (Desc e)) (Ext e) :: Slot (g (Desc e)) (Ext e) :: l2).
Proof using HDS.
  intros a. unfold a. rewrite rd_desc_mid, bind_ret, wr_desc_mid, bind_ret by done. set (q := Slot (f _) _).
  replace (l1 ++ q :: e :: l2) with ((l1 ++ [q]) ++ e :: l2) by (by rewrite <- app_assoc).
  replace (Z.of_nat (length l1) * DS + DS) with (Z.of_nat (length (l1 ++ [q])) * DS) by slen.
  rewrite rd_desc_mid, bind_ret, wr_desc_mid, bind_ret by done. by rewrite <- app_assoc.
Qed.

Lemma at_entry_eq l1 e l2 rest Entry Index Count Map :
  Entry = Z.of_nat (length l1) * DS -> Index = Z.of_nat (length l1) -> Count = Z.of_nat (length l1) + 1 + Z.of_nat (length l2) ->
  Map = l1 ++ e :: l2 ++ rest -> SplitSt Entry Index Count Map = at_entry l1 e l2 rest.
Proof using. by intros -> -> -> ->. Qed.

Lemma SplitBefore_cut l1 e l2 y rest Total a :
  let m := PhysicalStart a in
  Z.of_nat (length (l1 ++ e :: l2 ++ y :: rest)) * DS < 2 ^ 64 ->
  Z.of_nat (length l1) + 1 + Z.of_nat (length l2) <> Total ->
  page_desc (Desc e) -> PhysicalStart (Desc e) < m < desc_end (Desc e) -> (PAGE | m) ->
  SplitBefore (at_entry l1 e l2 (y :: rest)) Total a DS =
  Ret (Some (at_entry (l1 ++ [cut_left e m]) (cut_right e m) l2 rest)).
Proof using HDS.
  intros m Hb HT He Hm Hd. unfold SplitBefore, at_entry. rewrite rd_desc_mid, bind_ret by done.
  rewrite decide_True, decide_False by (done || lia). cbv zeta. unfold NEXT_MEMORY_DESCRIPTOR.
  fold m. rewrite (size_to_pages e m) by done. rewrite OpenSlot, bind_ret by done.
  rewrite (wr_pair l1 e (l2 ++ rest) (fun d => set_NumberOfPages d _) (fun d => set_NumberOfPages (set_PhysicalStart d m) _)).
  destruct (cut_pages e m He Hm Hd) as [_ Hn]. destruct He as ((H1 & H2 & H3) & _). unfold desc_end, PAGE in H3.
  do 2 f_equal. apply at_entry_eq; [slen|rewrite wrap_small; slen|rewrite wrap_small; slen|].
  rewrite <- app_assoc. unfold cut_left, cut_right. simpl. by rewrite wrap_small by (unfold PAGE in *; lia).
Qed.

Lemma SplitBefore_same l1 e l2 rest Total a :
  PhysicalStart (Desc e) = PhysicalStart a ->
  SplitBefore (at_entry l1 e l2 rest) Total a DS = Ret (Some (at_entry l1 e l2 rest)).
Proof using HDS. intros E. unfold SplitBefore, at_entry. rewrite rd_desc_mid, bind_ret by done. by rewrite decide_False by lia. Qed.

Lemma SplitBefore_full l1 e l2 rest Total a :
  PhysicalStart (Desc e) < PhysicalStart a -> Z.of_nat (length l1) + 1 + Z.of_nat (length l2) = Total ->
  SplitBefore (at_entry l1 e l2 rest) Total a DS = Ret None.
Proof using HDS.
  intros E1 E2. unfold SplitBefore, at_entry. rewrite rd_desc_mid, bind_ret by done. by rewrite !decide_True by lia.
Qed.

Context (Mats old : list slot) (Total : Z).

(** The result of a split: the loop stands at an entry of a refined map, or there
    was no slot left. [rest] are the spare slots before the split. *)
Definition split_ok (l1 l2 rest : list slot) (r : EFI_STATUS * split_state) : Prop :=
  (exists z l1' e' rest', r = (EFI_SUCCESS, at_entry l1' e' l2 rest') /\ refined Mats old (l1' ++ e' :: l2) /\
     rest = z ++ rest' /\ length l1' = (length l1 + length z)%nat /\ Z.of_nat (length (l1' ++ e' :: l2)) <= Total) \/
  (exists z l rest', r.1 = EFI_OUT_OF_RESOURCES /\ sp_Map r.2 = l ++ rest' /\ CurrentEntryCount r.2 = Z.of_nat (length l) /\
     refined Mats old l /\ rest = z ++ rest' /\ length l = (length l1 + 1 + length l2 + length z)%nat /\ Z.of_nat (length l) = Total).

(** The part behind the first cut. *)
Definition SplitAfter (a : EFI_MEMORY_DESCRIPTOR) (Entry0 : Z) (s : split_state) : outcome (EFI_STATUS * split_state) :=
  let '(SplitSt Entry Index Count Map) := s in
  d ← rd_desc DS Map Entry;
  ASSERT debug (bool_decide (PhysicalStart a = PhysicalStart d));;
  if decide (NumberOfPages d = NumberOfPages a) then
    t ← OcRealMemoryType debug a;
    Map ← wr_desc DS Map Entry (set_Type d t);
    Ret (EFI_SUCCESS, SplitSt Entry Index Count Map)
  else if decide (Count = Total) then Ret (EFI_OUT_OF_RESOURCES, SplitSt Entry0 Index Count Map)
  else
    let NewEntry := NEXT_MEMORY_DESCRIPTOR Entry DS in
    Map ← CopySlots DS Map NewEntry Entry (DS *[64] (Count -[64] Index));
    t ← OcRealMemoryType debug a;
    d ← rd_desc DS Map Entry;
    Map ← wr_desc DS Map Entry (set_NumberOfPages (set_Type d t) (NumberOfPages a));
    d ← rd_desc DS Map NewEntry;
    Map ← wr_desc DS Map NewEntry
      (set_NumberOfPages (set_PhysicalStart d (PhysicalStart d +[64] EFI_PAGES_TO_SIZE (NumberOfPages a)))
         (NumberOfPages d -[64] NumberOfPages a));
    Ret (EFI_SUCCESS, SplitSt NewEntry (Index +[64] 1) (Count +[64] 1) Map).

Lemma Split_unfold s a :
  OcSplitMemoryEntryByAttribute debug s Total a DS =
  (r ← SplitBefore s Total a DS;
   match r with None => Ret (EFI_OUT_OF_RESOURCES, s) | Some s' => SplitAfter a (MemoryMapEntry s) s' end).
Proof using. unfold OcSplitMemoryEntryByAttribute. destruct (SplitBefore _ _ _ _) as [[[]|]|]; done. Qed.

Lemma SplitAfter_spec l1 e l2 rest a Entry0 :
  Z.of_nat (length (l1 ++ e :: l2 ++ rest)) * DS < 2 ^ 64 ->
  Z.of_nat (length (l1 ++ e :: l2)) <= Total <= Z.of_nat (length (l1 ++ e :: l2 ++ rest)) ->
  refined Mats old (l1 ++ e :: l2) -> IsRuntime (Type_ (Desc e)) = true ->
  a ∈ Mats -> IsRuntime (Type_ (Desc a)) = true -> page_desc (Desc a) ->
  PhysicalStart (Desc a) = PhysicalStart (Desc e) -> desc_end (Desc a) <= desc_end (Desc e) ->
  exists r, SplitAfter (Desc a) Entry0 (at_entry l1 e l2 rest) = Ret r /\ split_ok l1 l2 rest r.
Proof using HDS.
  intros Hb HT Href Hre Ha Hra Hpa Es Ee. pose proof (ref_pages _ _ _ Href) as Hall.
  assert (page_desc (Desc e)) as He by (rewrite Forall_app, Forall_cons in Hall; tauto).
  unfold SplitAfter, at_entry. rewrite rd_desc_mid, bind_ret by done. rewrite ASSERT_holds by (by apply bool_decide_eq_true). rewrite bind_ret.
  destruct (decide (NumberOfPages (Desc e) = NumberOfPages (Desc a))) as [En|En].
  - rewrite RealMemoryType_spec, bind_ret, wr_desc_mid, bind_ret by done. eexists. split; [reflexivity|]. left.
    exists [], l1, (retyped e (real_type (Desc a))), rest. split; [done|]. split.
    + apply (refined_replace _ _ l1 e l2 [_]); [done|]. apply pieces_retype; try done. unfold desc_end. congruence.
    + split; [done|]. split; [simpl; lia|slen].
  - destruct (decide (_ = Total)) as [Hfull|Hroom].
    { eexists. split; [reflexivity|]. right. exists [], (l1 ++ e :: l2), rest. simpl.
      split_and!; [done|by rewrite <- app_assoc|slen|done|done|slen|slen]. }
    destruct rest as [|y rest]; [slen|]. cbv zeta. unfold NEXT_MEMORY_DESCRIPTOR.
    rewrite OpenSlot, bind_ret, RealMemoryType_spec, bind_ret by done.
    rewrite (wr_pair l1 e (l2 ++ rest) (fun d => set_NumberOfPages _ _) (fun d => set_NumberOfPages (set_PhysicalStart d _) _)).
    set (m := desc_end (Desc a)). pose proof He as ((E1 & E2 & E3) & E4 & E5). pose proof Hpa as ((A1 & A2 & A3) & A4 & A5).
    assert (PhysicalStart (Desc e) < m < desc_end (Desc e)) as Hm.
    { unfold m, desc_end, PAGE in *. nia. }
    assert (PAGE | m) as Hd by (unfold m, desc_end; apply Z.divide_add_r; [done|apply Z.divide_factor_r]).
    destruct (cut_pages e m He Hm Hd) as [Hcp Hcn]. destruct (pieces_cut Mats e m He Hm Hd) as (Hpc & Hpl & Hpr & El & Er).
    assert ((m - PhysicalStart (Desc e)) / PAGE = NumberOfPages (Desc a)) as Hna by (unfold m, desc_end, PAGE in *; lia).
    eexists. split; [reflexivity|]. left. exists [y], (l1 ++ [retyped (cut_left e m) (real_type (Desc a))]), (cut_right e m), rest.
    split; [|split; [|split; [done|split; [slen|slen]]]].
    + f_equal. apply at_entry_eq; [slen|rewrite wrap_small; slen|rewrite wrap_small; slen|]. rewrite <- app_assoc.
      unfold retyped, cut_left, cut_right, set_Type, set_NumberOfPages, set_PhysicalStart. simpl. rewrite Hna.
      rewrite pages_to_size by (unfold desc_end, PAGE in *; lia). unfold desc_end in m.
      rewrite !wrap_small by (unfold desc_end, PAGE in *; lia). unfold m. by rewrite Es.
    + rewrite <- app_assoc. apply (refined_replace _ _ l1 (cut_left e m) (cut_right e m :: l2) [_]).
      * by apply (refined_replace _ _ l1 e l2 [_; _]).
      * by apply pieces_retype.
Qed.

Lemma Split_spec l1 e l2 rest a :
  Z.of_nat (length (l1 ++ e :: l2 ++ rest)) * DS < 2 ^ 64 ->
  Z.of_nat (length (l1 ++ e :: l2)) <= Total <= Z.of_nat (length (l1 ++ e :: l2 ++ rest)) ->
  refined Mats old (l1 ++ e :: l2) -> IsRuntime (Type_ (Desc e)) = true ->
  a ∈ Mats -> IsRuntime (Type_ (Desc a)) = true -> page_desc (Desc a) ->
  PhysicalStart (Desc e) <= PhysicalStart (Desc a) -> desc_end (Desc a) <= desc_end (Desc e) ->
  exists r, OcSplitMemoryEntryByAttribute debug (at_entry l1 e l2 rest) Total (Desc a) DS = Ret r /\ split_ok l1 l2 rest r.
Proof using HDS.
  intros Hb HT Href Hre Ha Hra Hpa Es Ee. pose proof (ref_pages _ _ _ Href) as Hall.
  assert (page_desc (Desc e)) as He by (rewrite Forall_app, Forall_cons in Hall; tauto).
  rewrite Split_unfold. destruct (decide (PhysicalStart (Desc e) = PhysicalStart (Desc a))) as [Eq|Ne].
  - rewrite SplitBefore_same, bind_ret by done. by apply SplitAfter_spec.
  - destruct (decide (Z.of_nat (length l1) + 1 + Z.of_nat (length l2) = Total)) as [Hfull|Hroom].
    { rewrite SplitBefore_full, bind_ret by (done || lia). eexists. split; [reflexivity|]. right.
      exists [], (l1 ++ e :: l2), rest. simpl. split_and!; [done|by rewrite <- app_assoc|slen|done|done|slen|slen]. }
    destruct rest as [|y rest]; [slen|]. set (m := PhysicalStart (Desc a)).
    pose proof Hpa as ((A1 & A2 & A3) & A4 & A5).
    assert (PhysicalStart (Desc e) < m < desc_end (Desc e)) as Hm by (unfold m, desc_end, PAGE in *; nia).
    rewrite (SplitBefore_cut l1 e l2 y rest) by done. rewrite bind_ret.
    destruct (pieces_cut Mats e m He Hm A5) as (Hpc & Hpl & Hpr & El & Er).
    destruct (SplitAfter_spec (l1 ++ [cut_left e m]) (cut_right e m) l2 rest a (MemoryMapEntry (at_entry l1 e l2 (y :: rest))))
      as (r & E & Hok); [slen|slen| |done|done|done|done|done|lia|].
    { rewrite <- app_assoc. by apply (refined_replace _ _ l1 e l2 [_; _]). }
    exists r. split; [exact E|]. destruct Hok as [(z & l1' & e' & rest' & -> & R1 & -> & R2 & R3)|(z & l & rest' & R1 & R2 & R3 & R4 & -> & R5 & R6)].
    + left. exists (y :: z), l1', e', rest'. split_and!; [done|done|done|slen|done].
    + right. exists (y :: z), l, rest'. split_and!; [done|done|done|done|done|slen|done].
Qed.

(** *** The loops *)
Context (Table : EFI_MEMORY_ATTRIBUTES_TABLE).
Abbreviation ADS := (MatDescriptorSize Table).
Abbreviation AC := (NumberOfEntries Table).

(** A table whose runtime entries are whole pages. *)
Definition table_ok : Prop :=
  0 < ADS /\ 0 <= AC <= Z.of_nat (length (Entries Table)) /\ Mats = take (Z.to_nat AC) (Entries Table) /\
  Forall (fun s => IsRuntime (Type_ (Desc s)) = true -> page_desc (Desc s)) Mats.

(** The search found an attribute inside [d] that changes its type ... *)
Definition attr_found (d : EFI_MEMORY_DESCRIPTOR) (li : Z) (f : find_state) : Prop :=
  exists a, Entries Table !! Z.to_nat (Index2 f) = Some a /\ a ∈ Mats /\ IsRuntime (Type_ (Desc a)) = true /\ page_desc (Desc a) /\
    PhysicalStart d <= PhysicalStart (Desc a) /\ desc_end (Desc a) <= desc_end d /\
    li <= Index2 f < AC /\ InDescAttrs f = true /\ MemoryAttributesEntry f = Index2 f * ADS /\
    LastAttributeEntry f = (Index2 f + 1) * ADS /\ LastAttributeIndex f = Index2 f + 1.

(** ... or there is none. *)
Definition attr_none (li : Z) (f : find_state) : Prop :=
  ~ (Index2 f < AC /\ InDescAttrs f = true) /\ LastAttributeEntry f = li * ADS /\ LastAttributeIndex f = li.

Lemma FindAttribute_spec d li :
  table_ok -> page_desc d -> 0 <= li <= AC ->
  exists f, FindAttribute debug Table d AC (li * ADS) li = Ret f /\ (attr_found d li f \/ attr_none li f).
Proof using.
  intros (HA & HAC & HM & Hpages) Hd Hli. unfold FindAttribute.
  apply (while_total _ (fun f => exists i b, f = FindSt i (i * ADS) b (li * ADS) li /\ li <= i <= AC)
    (fun f => Z.to_nat (AC - Index2 f)) (fun f => attr_found d li f \/ attr_none li f)); [|exists li, false; split; [done|lia]|simpl; lia].
  intros f (i & b & -> & Hi). destruct (decide (i < AC)) as [Hlt|Hge].
  2:{ eexists. split; [reflexivity|]. right. split; [|done]. simpl. lia. }
  destruct (lookup_lt_is_Some_2 (Entries Table) (Z.to_nat i)) as [a Hlk]; [lia|].
  assert (a ∈ Mats) as HaM by (rewrite HM; apply (list_elem_of_lookup_2 _ (Z.to_nat i)); rewrite lookup_take_lt by lia; done).
  rewrite (rd_desc_at ADS HA _ i a) by (done || lia). rewrite bind_ret.
  assert (forall b', exists x : find_state + find_state, Ret (inl (FindSt (i + 1) (NEXT_MEMORY_DESCRIPTOR (i * ADS) ADS) b' (li * ADS) li)) = Ret x /\
    match x with
    | inl f' => (exists i0 b0, f' = FindSt i0 (i0 * ADS) b0 (li * ADS) li /\ li <= i0 <= AC) /\
        (Z.to_nat (AC - Index2 f') < Z.to_nat (AC - i))%nat
    | inr f' => attr_found d li f' \/ attr_none li f' end) as Hnext.
  { intros b'. eexists. split; [reflexivity|]. unfold NEXT_MEMORY_DESCRIPTOR. simpl. split; [|lia].
    exists (i + 1), b'. split; [f_equal; lia|lia]. }
  destruct (IsRuntime (Type_ (Desc a))) eqn:Hra; [|apply Hnext].
  rewrite Forall_forall in Hpages. pose proof (Hpages a HaM Hra) as Hpa. pose proof Hpa as ((A1 & A2 & A3) & A4 & A5).
  destruct Hd as (Hwd & Hpd & _).
  rewrite pages_to_size, AREA_spec by (done || unfold desc_end, PAGE in *; lia).
  destruct (bool_decide_reflect (PhysicalStart d <= PhysicalStart (Desc a) /\ PhysicalStart (Desc a) + NumberOfPages (Desc a) * PAGE <= desc_end d))
    as [Hin|Hout].
  - rewrite RealMemoryType_spec, bind_ret by done. destruct (decide (real_type (Desc a) <> Type_ d)); [|apply Hnext].
    eexists. split; [reflexivity|]. left. exists a. unfold NEXT_MEMORY_DESCRIPTOR, desc_end in *. simpl. split_and!; try done; lia.
  - destruct b; [|apply Hnext]. eexists. split; [reflexivity|]. right. split; [|done]. simpl. by intros [_ ?].
Qed.

(** The loop state at an entry of a refined map. *)
Definition loop_at (l1 : list slot) (e : slot) (l2 rest : list slot) (li : Z) (st : Z * Z * split_state) : Prop :=
  st = (li * ADS, li, at_entry l1 e l2 rest) /\ 0 <= li <= AC /\ refined Mats old (l1 ++ e :: l2) /\
  Z.of_nat (length (l1 ++ e :: l2)) <= Total <= Z.of_nat (length (l1 ++ e :: l2 ++ rest)) /\
  Z.of_nat (length (l1 ++ e :: l2 ++ rest)) * DS < 2 ^ 64.

(** The function left the loop without a slot for a split. *)
Definition split_failed (l1 l2 rest : list slot) (r : EFI_STATUS * split_state) : Prop :=
  exists z l rest', r.1 = EFI_OUT_OF_RESOURCES /\ sp_Map r.2 = l ++ rest' /\ CurrentEntryCount r.2 = Z.of_nat (length l) /\
    refined Mats old l /\ rest = z ++ rest' /\ length l = (length l1 + 1 + length l2 + length z)%nat /\ Z.of_nat (length l) = Total.

Lemma SplitEntry_spec l1 e l2 rest li s :
  table_ok -> loop_at l1 e l2 rest li (li * ADS, li, s) ->
  exists r, SplitEntry debug Table AC Total DS (li * ADS) li s = Ret r /\
    match r with
    | inl st => exists z l1' e' rest' li', loop_at l1' e' l2 rest' li' st /\ rest = z ++ rest' /\ length l1' = (length l1 + length z)%nat
    | inr r => split_failed l1 l2 rest r
    end.
Proof using HDS.
  intros Ht Hl. unfold SplitEntry.
  apply (while_total _ (fun st => exists z l1' e' rest' li', loop_at l1' e' l2 rest' li' st /\ rest = z ++ rest' /\
      length l1' = (length l1 + length z)%nat)
    (fun st => S (Z.to_nat (AC - st.1.2)))
    (fun r => match r with
      | inl st => exists z l1' e' rest' li', loop_at l1' e' l2 rest' li' st /\ rest = z ++ rest' /\ length l1' = (length l1 + length z)%nat
      | inr r => split_failed l1 l2 rest r end)); [|exists [], l1, e, rest, li; split_and!; [done|done|simpl; lia]|simpl; lia].
  intros st (z & l1' & e' & rest' & li' & Hst & Hz & Hlen). pose proof Hst as (-> & Hli & Href & HT & Hb). cbn [MemoryMapEntry sp_Map at_entry].
  pose proof (ref_pages _ _ _ Href) as Hall.
  assert (page_desc (Desc e')) as He by (rewrite Forall_app, Forall_cons in Hall; tauto).
  rewrite rd_desc_mid, bind_ret by done.
  assert (exists x : Z * Z * split_state + (Z * Z * split_state + EFI_STATUS * split_state),
    Ret (inr (inl (li' * ADS, li', at_entry l1' e' l2 rest'))) = Ret x /\
    match x with inl _ => False | inr r => match r with
      | inl st => exists z l1' e' rest' li', loop_at l1' e' l2 rest' li' st /\ rest = z ++ rest' /\ length l1' = (length l1 + length z)%nat
      | inr r => split_failed l1 l2 rest r end end) as Hstop.
  { eexists. split; [reflexivity|]. exists z, l1', e', rest', li'. done. }
  destruct (IsRuntime (Type_ (Desc e'))) eqn:Hre.
  2:{ destruct Hstop as (x & Ex & Hx). exists x. split; [exact Ex|]. by destruct x. }
  destruct (FindAttribute_spec (Desc e') li' Ht He Hli) as (f & -> & Hf). rewrite bind_ret.
  destruct Hf as [(a & F1 & F2 & F3 & F4 & F5 & F6 & F7 & F8 & F9 & F10 & F11)|(F1 & F2 & F3)].
  - rewrite bool_decide_eq_true_2, F8 by lia. cbn [andb]. destruct Ht as (HA & _). rewrite F9.
    rewrite (rd_desc_at ADS HA _ (Index2 f) a), bind_ret by (done || lia).
    destruct (Split_spec l1' e' l2 rest' a Hb HT Href Hre F2 F3 F4 F5 F6) as (r & -> & Hr). rewrite bind_ret.
    destruct Hr as [(z2 & l3 & e3 & rest3 & -> & R1 & -> & R2 & R3)|(z2 & l & rest3 & R1 & R2 & R3 & R4 & -> & R5 & R6)].
    + rewrite F10, F11. eexists. split; [reflexivity|]. split; [|simpl; lia].
      exists (z ++ z2), l3, e3, rest3, (Index2 f + 1). split; [|split; [by rewrite Hz, app_assoc|slen]].
      split; [done|]. split; [lia|]. split; [done|]. slen.
    + destruct r as [Status s']. simpl in R1. subst Status. eexists. split; [reflexivity|].
      exists (z ++ z2), l, rest3. split_and!; try done; [by rewrite Hz, app_assoc|slen].
  - assert (bool_decide (Index2 f < AC) && InDescAttrs f = false) as ->.
    { apply not_true_is_false. rewrite andb_true_iff, bool_decide_eq_true. exact F1. }
    rewrite F2, F3. destruct Hstop as (x & Ex & Hx). exists x. split; [exact Ex|]. by destruct x.
Qed.

(** The whole map: processed entries [l1] and the rest [l2] of the entries. *)
Definition map_at (l1 l2 rest : list slot) (li : Z) (st : Z * Z * split_state) : Prop :=
  st = (li * ADS, li, SplitSt (Z.of_nat (length l1) * DS) (Z.of_nat (length l1)) (Z.of_nat (length l1 + length l2)) (l1 ++ l2 ++ rest)) /\
  0 <= li <= AC /\ refined Mats old (l1 ++ l2) /\
  Z.of_nat (length (l1 ++ l2)) <= Total <= Z.of_nat (length (l1 ++ l2 ++ rest)) /\
  Z.of_nat (length (l1 ++ l2 ++ rest)) * DS < 2 ^ 64.

(** The result of the function on [n0] entries with the spare slots [rest0]. *)
Definition split_result (n0 : nat) (rest0 : list slot) (r : EFI_STATUS * Z * list slot) : Prop :=
  exists z l rest, r.1.2 = Z.of_nat (length l) * DS /\ r.2 = l ++ rest /\ refined Mats old l /\ rest0 = z ++ rest /\
    length l = (n0 + length z)%nat /\ Z.of_nat (length l) <= Total /\
    (r.1.1 = EFI_SUCCESS \/ r.1.1 = EFI_OUT_OF_RESOURCES /\ Z.of_nat (length l) = Total).

Lemma split_map_loop l2 rest :
  table_ok -> map_at [] l2 rest 0 (0, 0, SplitSt 0 0 (Z.of_nat (length l2)) (l2 ++ rest)) ->
  exists r,
    while_ (S (length l2))
      (fun '(le, li, s) =>
         if decide (CurrentEntryIndex s < CurrentEntryCount s) then
           r ← SplitEntry debug Table AC Total DS le li s;
           match r with
           | inr (Status, s) => Ret (inr (Status, CurrentEntryCount s *[64] DS, sp_Map s))
           | inl (le, li, SplitSt Entry Index Count Map) =>
               Ret (inl (le, li, SplitSt (NEXT_MEMORY_DESCRIPTOR Entry DS) (Index +[64] 1) Count Map))
           end
         else Ret (inr (EFI_SUCCESS, CurrentEntryCount s *[64] DS, sp_Map s)))
      (0, 0, SplitSt 0 0 (Z.of_nat (length l2)) (l2 ++ rest)) = Ret r /\ split_result (length l2) rest r.
Proof using HDS.
  intros Ht Hm. apply (while_total _ (fun st => exists z l1 l2' rest' li, map_at l1 l2' rest' li st /\ rest = z ++ rest' /\
      length (l1 ++ l2') = (length l2 + length z)%nat)
    (fun st => Z.to_nat (CurrentEntryCount st.2 - CurrentEntryIndex st.2)) (split_result (length l2) rest));
    [|exists [], [], l2, rest, 0; split_and!; [done|done|slen]|simpl; lia].
  intros st (z & l1 & l2' & rest' & li & (-> & Hli & Href & HT & Hb) & Hz & Hlen). cbn [CurrentEntryIndex CurrentEntryCount sp_Map snd].
  destruct l2' as [|e l2'].
  - rewrite decide_False by slen. eexists. split; [reflexivity|]. exists z, l1, rest'. rewrite app_nil_r in Href. simpl.
    rewrite wrap_small by slen. split_and!; try done; [slen|slen|slen|by left].
  - rewrite decide_True by slen.
    replace (SplitSt _ _ _ _) with (at_entry l1 e l2' rest') by (symmetry; apply at_entry_eq; try done; slen).
    destruct (SplitEntry_spec l1 e l2' rest' li (at_entry l1 e l2' rest') Ht) as (r & -> & Hr).
    { split; [done|]. split; [done|]. split; [done|]. slen. }
    rewrite bind_ret. destruct r as [[[le li0] s']|[Status s']].
    + destruct Hr as (z2 & l1' & e' & rest2 & li' & ([= -> -> ->] & Hli' & Href' & HT' & Hb') & -> & Hl').
      unfold at_entry. eexists. split; [reflexivity|]. cbn [CurrentEntryIndex CurrentEntryCount snd]. split.
      * exists (z ++ z2), (l1' ++ [e']), l2', rest2, li'. split; [|split; [by rewrite Hz, app_assoc|slen]].
        unfold map_at. rewrite <- !app_assoc. split; [|exact (conj Hli' (conj Href' (conj HT' Hb')))].
        f_equal. f_equal; [unfold NEXT_MEMORY_DESCRIPTOR; slen|rewrite wrap_small; slen|slen].
      * rewrite wrap_small by slen. slen.
    + destruct Hr as (z2 & l & rest2 & R1 & R2 & R3 & R4 & -> & R5 & R6). simpl in *. eexists. split; [reflexivity|].
      exists (z ++ z2), l, rest2. simpl. rewrite R3, wrap_small by slen. split_and!; try done.
      * by rewrite Hz, app_assoc.
      * slen.
      * lia.
      * right. done.
Qed.

End Split.

(** ** Completing the attributes table *)

(** The address [x] is runtime memory of a list of descriptors. *)
Definition runtime_at (l : list slot) (x : Z) : Prop :=
  exists s, s ∈ l /\ IsRuntime (Type_ (Desc s)) = true /\ in_desc (Desc s) x.

(** Each runtime attribute lies within a runtime entry of the map, as the UEFI
    specification demands. *)
Definition within_runtime (M : list slot) (a : slot) : Prop :=
  exists m, m ∈ M /\ IsRuntime (Type_ (Desc m)) = true /\
    PhysicalStart (Desc m) <= PhysicalStart (Desc a) /\ desc_end (Desc a) <= desc_end (Desc m).

Definition rt_pages (a : slot) : Prop := IsRuntime (Type_ (Desc a)) = true -> page_desc (Desc a).

Lemma runtime_at_nil x : ~ runtime_at [] x.
Proof. by intros (s & Hs%not_elem_of_nil & _). Qed.

Lemma runtime_at_app l1 l2 x : runtime_at (l1 ++ l2) x <-> runtime_at l1 x \/ runtime_at l2 x.
Proof.
  unfold runtime_at. setoid_rewrite elem_of_app. split.
  - intros (s & [Hs|Hs] & H); [left|right]; eauto.
  - intros [(s & Hs & H)|(s & Hs & H)]; eauto.
Qed.

Section Expand.
Context (debug : bool).

(** The entry that fills [c, n) of the runtime memory [m]. *)
Definition hole_desc (m : EFI_MEMORY_DESCRIPTOR) (c n : Z) : EFI_MEMORY_DESCRIPTOR :=
  MemDesc (real_type m) c 0 ((n - c) / PAGE)
    (if decide (real_type m = EfiRuntimeServicesCode) then Z.lor EFI_MEMORY_RUNTIME EFI_MEMORY_RO
     else Z.lor EFI_MEMORY_RUNTIME EFI_MEMORY_XP).

Lemma hole_pages c n : 0 <= c < n -> n < 2 ^ 64 -> (PAGE | c) -> (PAGE | n) ->
  EFI_SIZE_TO_PAGES (n -[64] c) = (n - c) / PAGE /\ (n - c) / PAGE * PAGE = n - c /\ 0 < (n - c) / PAGE.
Proof using.
  intros Hc Hn [j ->] [k ->]. rewrite wrap_small by lia. replace (k * PAGE - j * PAGE) with ((k - j) * PAGE) by lia.
  rewrite Z.div_mul by done. unfold EFI_SIZE_TO_PAGES. rewrite Z.shiftr_div_pow2 by lia. change (2 ^ 12) with PAGE.
  rewrite Z.div_mul by done. rewrite decide_False.
  - rewrite Z.add_0_r, wrap_small; unfold PAGE in *; lia.
  - change 0xFFF with (Z.ones 12). rewrite Z.land_ones by lia. change (2 ^ 12) with PAGE. rewrite Z.mod_mul by done. lia.
Qed.

Lemma hole_ok m c n :
  page_desc m -> IsRuntime (Type_ m) = true -> PhysicalStart m <= c < n -> n <= desc_end m -> (PAGE | c) -> (PAGE | n) ->
  page_desc (hole_desc m c n) /\ IsRuntime (Type_ (hole_desc m c n)) = true /\ PhysicalStart (hole_desc m c n) = c /\
  desc_end (hole_desc m c n) = n.
Proof using.
  intros ((M1 & M2 & M3) & M4 & M5) Hr Hc Hn Dc Dn. destruct (hole_pages c n) as (_ & E & P); [lia|lia|done|done|].
  assert (desc_end (hole_desc m c n) = n) as Ee by (unfold desc_end; simpl; lia).
  split_and!; [|by apply real_type_runtime|done|done]. unfold page_desc, wf_desc. rewrite Ee. simpl. split_and!; [lia..|done].
Qed.

Section Write.
Context (ADS Max : Z) (HA : 0 < ADS) (Hmax : Max * ADS < 2 ^ 32).

(** Filling the hole in front of the attribute [a]. *)
Lemma Write_insert done_ a todo y rest m c :
  let N := Z.of_nat (length (done_ ++ a :: todo)) in let n := Z.min (PhysicalStart (Desc a)) (desc_end m) in
  N < Max -> page_desc m -> IsRuntime (Type_ m) = true -> PhysicalStart m <= c < n -> (PAGE | c) -> (PAGE | n) ->
  OcExpandAttributeWrite debug (Mat N ADS (done_ ++ a :: todo ++ y :: rest)) (Some (Z.of_nat (length done_) * ADS)) Max m c =
  Ret (EFI_SUCCESS, Mat (N + 1) ADS (done_ ++ Slot (hole_desc m c n) (Ext a) :: a :: todo ++ rest)).
Proof using HA Hmax.
  intros N n HN Hm Hr Hc Dc Dn. unfold OcExpandAttributeWrite. cbn [MatDescriptorSize NumberOfEntries Entries].
  rewrite decide_False by lia. rewrite rd_desc_mid, bind_ret by done. rewrite ASSERT_holds by (apply bool_decide_eq_true; lia).
  rewrite bind_ret. assert (Z.of_nat (length done_) <= N) as HdN by (unfold N; rewrite length_app; lia).
  assert (0 <= N * ADS < 2 ^ 32 /\ 0 <= Z.of_nat (length done_) * ADS <= N * ADS) as [HNA HdA] by (clear - HA Hmax HN HdN; nia).
  rewrite (wrap_small 32 (N * ADS)), (wrap_small 64 (N * ADS - _)) by lia. unfold NEXT_MEMORY_DESCRIPTOR.
  replace (Z.of_nat (length done_) * ADS + ADS) with ((Z.of_nat (length done_) + 1) * ADS) by lia.
  replace (N * ADS - _) with ((1 + Z.of_nat (length todo)) * ADS) by (unfold N; slen).
  rewrite CopySlots_up, bind_ret by done. rewrite rd_desc_mid, bind_ret by done. cbv zeta. rewrite bind_ret.
  destruct Hm as ((M1 & M2 & M3) & M4 & M5). rewrite LAST_spec by done. rewrite RealMemoryType_spec, bind_ret by done.
  rewrite (wrap_small 64 (_ - 1 + 1)) by (unfold desc_end, PAGE in *; lia).
  replace (if decide _ then _ else _) with n by (unfold n; case_decide; lia).
  destruct (hole_pages c n) as (-> & _); [lia|unfold n; lia|done|done|].
  rewrite wr_desc_mid, bind_ret by done. rewrite wrap_small by nia. done.
Qed.

(** Appending the rest of [m]. *)
Lemma Write_append l y rest m c :
  let N := Z.of_nat (length l) in
  N < Max -> page_desc m -> IsRuntime (Type_ m) = true -> PhysicalStart m <= c < desc_end m -> (PAGE | c) -> (PAGE | desc_end m) ->
  OcExpandAttributeWrite debug (Mat N ADS (l ++ y :: rest)) None Max m c =
  Ret (EFI_SUCCESS, Mat (N + 1) ADS (l ++ Slot (hole_desc m c (desc_end m)) (Ext y) :: rest)).
Proof using HA Hmax.
  intros N HN Hm Hr Hc Dc Dn. unfold OcExpandAttributeWrite. cbn [MatDescriptorSize NumberOfEntries Entries].
  rewrite decide_False by lia. rewrite bind_ret. rewrite RealMemoryType_spec, bind_ret by done.
  destruct Hm as ((M1 & M2 & M3) & M4 & M5). rewrite LAST_spec by done.
  rewrite (wrap_small 64 (_ - 1 + 1)) by (unfold desc_end, PAGE in *; lia). rewrite Z.sub_add.
  destruct (hole_pages c (desc_end m)) as (-> & _); [lia|lia|done|done|].
  rewrite (wrap_small 32 (N * ADS)) by (unfold N in *; nia). unfold N at 1.
  rewrite wr_desc_mid, bind_ret by done. rewrite wrap_small by nia. done.
Qed.

Lemma Write_full Table Entry m c :
  Max <= NumberOfEntries Table -> OcExpandAttributeWrite debug Table Entry Max m c = Ret (EFI_OUT_OF_RESOURCES, Table).
Proof using. intros H. unfold OcExpandAttributeWrite. by rewrite decide_True. Qed.

(** The memory map [M] and the entries [orig] of the table at the start. *)
Context (M orig : list slot).

(** The table keeps the original entries, and its runtime entries lie in runtime
    memory. *)
Definition table_sound (l : list slot) : Prop :=
  sublist orig l /\ Forall (fun a => IsRuntime (Type_ (Desc a)) = true -> within_runtime M a) l.

(** Visited and unvisited table entries while the map entry [m] is processed up to
    the address [c]; the map entries before [m] are [M1], those behind it [M2]. *)
Record expanding (M1 : list slot) (m : slot) (M2 done_ todo rest : list slot) (c e : Z) : Prop := {
  ex_ptr : todo <> [] -> e = Z.of_nat (length done_) * ADS;
  ex_pages : Forall rt_pages todo;
  ex_disjoint : disjoint_map todo;
  ex_todo a : a ∈ todo -> IsRuntime (Type_ (Desc a)) = true -> c <= PhysicalStart (Desc a) /\ within_runtime (m :: M2) a;
  ex_before x : runtime_at M1 x -> runtime_at done_ x;
  ex_here x : PhysicalStart (Desc m) <= x < c -> runtime_at done_ x;
  ex_addr : PhysicalStart (Desc m) <= c <= desc_end (Desc m);
  ex_aligned : (PAGE | c);
  ex_room : Z.of_nat (length (done_ ++ todo)) <= Max <= Z.of_nat (length (done_ ++ todo ++ rest));
  ex_sound : table_sound (done_ ++ todo)
}.

Definition expand_at (Status : EFI_STATUS) (done_ todo rest : list slot) (c e : Z) : expand_state :=
  ExpandSt Status (Z.of_nat (length done_)) e c (Mat (Z.of_nat (length (done_ ++ todo))) ADS (done_ ++ todo ++ rest)).

Context (Hpages : Forall (fun s => page_desc (Desc s)) M) (Hdis : disjoint_map M).

Lemma runtime_at_snoc l a x : runtime_at l x -> runtime_at (l ++ [a]) x.
Proof using. intros H. apply runtime_at_app. by left. Qed.

Lemma runtime_at_last l a x : IsRuntime (Type_ (Desc a)) = true -> in_desc (Desc a) x -> runtime_at (l ++ [a]) x.
Proof using. intros Hr Hx. apply runtime_at_app. right. exists a. split; [by left|done]. Qed.

Lemma page_end d : page_desc d -> (PAGE | desc_end d).
Proof using. intros (_ & _ & H). unfold desc_end. apply Z.divide_add_r; [done|apply Z.divide_factor_r]. Qed.

(** Where the next attribute lies. *)
Lemma todo_cases M1 m M2 a :
  M = M1 ++ m :: M2 -> page_desc (Desc a) -> within_runtime (m :: M2) a ->
  (PhysicalStart (Desc m) <= PhysicalStart (Desc a) /\ desc_end (Desc a) <= desc_end (Desc m)) \/
  (desc_end (Desc m) <= PhysicalStart (Desc a) /\ within_runtime M2 a).
Proof using Hdis Hpages.
  intros -> Ha (m' & Hm' & Hr & H1 & H2). apply elem_of_cons in Hm' as [->|Hm']; [by left|]. right.
  split; [|by exists m']. clear Ha. assert (disjoint_map (m :: M2)) as Hd.
  { clear - Hdis. induction M1 as [|z M1 IH]; [done|]. apply StronglySorted_inv in Hdis as [H _]. auto. }
  apply StronglySorted_inv in Hd as [_ Hd]. rewrite Forall_forall in Hd. specialize (Hd m' Hm'). lia.
Qed.

(** Moving an attribute that needs no change, or that covers the memory up to [c']. *)
Lemma expanding_next M1 m M2 done_ a todo rest c c' e :
  expanding M1 m M2 done_ (a :: todo) rest c e ->
  (c' = c \/ IsRuntime (Type_ (Desc a)) = true /\ c = PhysicalStart (Desc a) /\ c' = desc_end (Desc a) /\ desc_end (Desc a) <= desc_end (Desc m)) ->
  expanding M1 m M2 (done_ ++ [a]) todo rest c' (e + ADS).
Proof using.
  intros [E1 E2 E3 E4 E5 E6 E7 E8 E9 E10] Hc. specialize (E1 ltac:(done)). apply Forall_cons in E2 as [E2a E2].
  apply StronglySorted_inv in E3 as [E3 E3a]. rewrite Forall_forall in E3a. split.
  - intros _. slen.
  - done.
  - done.
  - intros b Hb Hrb. destruct (E4 b) as [Hcb Hwb]; [by right|done|]. split; [|done].
    destruct Hc as [->|(_ & _ & -> & _)]; [done|by apply E3a].
  - intros x Hx. by apply runtime_at_snoc, E5.
  - intros x Hx. destruct (decide (x < c)) as [Hlt|Hge]; [apply runtime_at_snoc, E6; lia|].
    destruct Hc as [->|(Hr & -> & -> & _)]; [lia|]. apply runtime_at_last; [done|]. unfold in_desc. lia.
  - destruct Hc as [->|(Hr & -> & -> & Hle)]; [done|]. destruct (E2a Hr) as ((P1 & P2 & P3) & P4 & _). unfold desc_end, PAGE in *. lia.
  - destruct Hc as [->|(Hr & -> & -> & _)]; [done|]. by apply page_end, E2a.
  - slen.
  - by rewrite <- app_assoc.
Qed.

(** Adding an entry for [c, n). *)
Lemma expanding_add M1 m M2 done_ todo y rest c n e ext :
  M = M1 ++ m :: M2 -> IsRuntime (Type_ (Desc m)) = true -> expanding M1 m M2 done_ todo (y :: rest) c e ->
  c < n <= desc_end (Desc m) -> (PAGE | n) -> Z.of_nat (length (done_ ++ todo)) < Max ->
  (forall a, a ∈ todo -> IsRuntime (Type_ (Desc a)) = true -> n <= PhysicalStart (Desc a)) ->
  expanding M1 m M2 (done_ ++ [Slot (hole_desc (Desc m) c n) ext]) todo rest n (e + ADS).
Proof using Hpages.
  intros HM Hr [E1 E2 E3 E4 E5 E6 E7 E8 E9 E10] Hn Dn Hroom Hto.
  assert (page_desc (Desc m)) as Hm by (rewrite HM, Forall_app, Forall_cons in Hpages; tauto).
  destruct (hole_ok (Desc m) c n Hm Hr) as (Hp & Hrt & Hs & He); [lia|lia|done|done|]. split.
  - intros Ht. specialize (E1 Ht). slen.
  - done.
  - done.
  - intros a Ha Hra. split; [by apply Hto|]. by apply E4.
  - intros x Hx. by apply runtime_at_snoc, E5.
  - intros x Hx. destruct (decide (x < c)) as [Hlt|Hge]; [apply runtime_at_snoc, E6; lia|].
    apply runtime_at_last; [done|]. cbn [Desc]. unfold in_desc. rewrite Hs, He. lia.
  - lia.
  - done.
  - slen.
  - destruct E10 as [S1 S2]. rewrite <- app_assoc. split.
    + etrans; [exact S1|]. apply sublist_app; [done|]. by apply sublist_cons.
    + rewrite Forall_app in *. destruct S2 as [S2 S3]. split; [done|]. constructor; [|done]. intros _. exists m.
      split; [rewrite HM; apply elem_of_app; right; by left|]. split; [done|]. cbn [Desc]. rewrite Hs, He. lia.
Qed.

(** The table ran full: what it holds is still sound. *)
Definition expand_full (s : expand_state) : Prop :=
  x_Status s = EFI_OUT_OF_RESOURCES /\ exists l rest, x_Table s = Mat Max ADS (l ++ rest) /\ Z.of_nat (length l) = Max /\ table_sound l.

Lemma full_at Status done_ todo rest c e :
  table_sound (done_ ++ todo) -> Z.of_nat (length (done_ ++ todo)) = Max -> Status = EFI_OUT_OF_RESOURCES ->
  expand_full (expand_at Status done_ todo rest c e).
Proof using.
  intros Hs Hl ->. split; [done|]. exists (done_ ++ todo), rest. unfold expand_at. simpl. rewrite Hl, <- app_assoc. done.
Qed.

Lemma ExpandStep_spec M1 m M2 done_ a todo rest c e Status :
  M = M1 ++ m :: M2 -> IsRuntime (Type_ (Desc m)) = true -> expanding M1 m M2 done_ (a :: todo) rest c e -> c < desc_end (Desc m) ->
  exists x, ExpandStep debug Max (Desc m) (desc_end (Desc m)) (expand_at Status done_ (a :: todo) rest c e) = Ret x /\
  match x with
  | inl s => exists Status' done' todo' rest' c' e', s = expand_at Status' done' todo' rest' c' e' /\
      expanding M1 m M2 done' todo' rest' c' e' /\ length done' = S (length done_)
  | inr (s, b) => b = true /\ expand_full s
  end.
Proof using Hpages Hdis HA Hmax.
  intros HM Hrm Hex Hc. assert (page_desc (Desc m)) as Hm by (rewrite HM, Forall_app, Forall_cons in Hpages; tauto).
  pose proof (ex_ptr _ _ _ _ _ _ _ _ Hex ltac:(done)) as He. pose proof (ex_room _ _ _ _ _ _ _ _ Hex) as Hroom.
  pose proof (ex_addr _ _ _ _ _ _ _ _ Hex) as Haddr.
  assert (Z.of_nat (length done_) < 2 ^ 63) as Hsmall by (clear - Hroom HA Hmax; slen).
  unfold ExpandStep, expand_at. rewrite decide_True by (split; [cbn [NumberOfEntries]; slen|done]). cbv zeta.
  cbn [MatDescriptorSize Entries]. rewrite He. cbn [app].
  rewrite rd_desc_mid, bind_ret by done. rewrite wrap_small by lia. unfold NEXT_MEMORY_DESCRIPTOR.
  assert (forall Status' done' todo' rest' c', expanding M1 m M2 done' todo' rest' c' (e + ADS) -> length done' = S (length done_) ->
    exists x : expand_state + expand_state * bool,
      Ret (inl (ExpandSt Status' (Z.of_nat (length done_) + 1) (Z.of_nat (length done_) * ADS + ADS) c'
        (Mat (Z.of_nat (length (done' ++ todo'))) ADS (done' ++ todo' ++ rest')))) = Ret x /\
      match x with
      | inl s => exists Status' done' todo' rest' c' e', s = expand_at Status' done' todo' rest' c' e' /\
          expanding M1 m M2 done' todo' rest' c' e' /\ length done' = S (length done_)
      | inr (s, b) => b = true /\ expand_full s end) as Hnext.
  { intros Status' done' todo' rest' c' Hex' Hl'. eexists. split; [reflexivity|]. exists Status', done', todo', rest', c', (e + ADS).
    split; [|done]. unfold expand_at. rewrite Hl', He. f_equal. lia. }
  assert (forall c', expanding M1 m M2 (done_ ++ [a]) todo rest c' (e + ADS) ->
    exists x : expand_state + expand_state * bool,
      Ret (inl (ExpandSt Status (Z.of_nat (length done_) + 1) (Z.of_nat (length done_) * ADS + ADS) c'
        (Mat (Z.of_nat (length (done_ ++ a :: todo))) ADS (done_ ++ a :: todo ++ rest)))) = Ret x /\
      match x with
      | inl s => exists Status' done' todo' rest' c' e', s = expand_at Status' done' todo' rest' c' e' /\
          expanding M1 m M2 done' todo' rest' c' e' /\ length done' = S (length done_)
      | inr (s, b) => b = true /\ expand_full s end) as Hskip.
  { intros c' Hex'. destruct (Hnext Status (done_ ++ [a]) todo rest c' Hex') as (x & Ex & Hx); [slen|]. exists x. split; [|exact Hx].
    rewrite <- Ex. rewrite <- !app_assoc. done. }
  destruct (IsRuntime (Type_ (Desc a))) eqn:Hra; cbn [negb].
  2:{ apply Hskip. apply (expanding_next _ _ _ _ _ _ _ c); [done|by left]. }
  pose proof (ex_pages _ _ _ _ _ _ _ _ Hex) as [Hpa _]%Forall_cons. specialize (Hpa Hra). pose proof Hpa as ((A1 & A2 & A3) & A4 & A5).
  destruct (ex_todo _ _ _ _ _ _ _ _ Hex a) as [Hca Hwa]; [by left|done|]. pose proof (todo_cases M1 m M2 a HM Hpa Hwa) as Hpos.
  pose proof Hm as ((M1' & M2' & M3') & M4' & M5').
  rewrite LAST_spec by done. rewrite decide_False by (unfold desc_end, PAGE in *; lia).
  destruct (decide (c = PhysicalStart (Desc a))) as [Eq|Ne].
  - destruct Hpos as [Hin|[Hout _]]; [|lia]. rewrite ASSERT_holds by (apply bool_decide_eq_true; unfold desc_end, PAGE in *; lia).
    rewrite bind_ret. rewrite (wrap_small 64) by (unfold desc_end, PAGE in *; lia). rewrite Z.sub_add.
    apply Hskip. apply (expanding_next _ _ _ _ _ _ _ c); [done|]. right. split_and!; [done|done|done|lia].
  - destruct (decide (Max <= Z.of_nat (length (done_ ++ a :: todo)))) as [Hfull|Hfree].
    { rewrite Write_full by (simpl; lia). rewrite bind_ret. eexists. split; [reflexivity|]. simpl. split; [done|].
      assert (Z.of_nat (length (done_ ++ a :: todo)) = Max) by lia.
      pose proof (full_at EFI_OUT_OF_RESOURCES done_ (a :: todo) rest c (Z.of_nat (length done_) * ADS) (ex_sound _ _ _ _ _ _ _ _ Hex)) as Hf.
      apply Hf; done. }
    destruct rest as [|y rest]; [slen|]. set (n := Z.min (PhysicalStart (Desc a)) (desc_end (Desc m))).
    assert (PAGE | n) as Dn by (unfold n; destruct (Z.min_spec (PhysicalStart (Desc a)) (desc_end (Desc m))) as [[_ ->]|[_ ->]];
      [done|by apply page_end]).
    rewrite (Write_insert done_ a todo y rest (Desc m) c) by (done || lia || apply Hex). fold n.
    rewrite bind_ret. cbv iota. change (EFI_ERROR EFI_SUCCESS) with false. cbv iota. cbn [MatDescriptorSize Entries].
    rewrite rd_desc_mid, bind_ret by done. cbn [Desc].
    destruct (hole_ok (Desc m) c n Hm Hrm) as (Hp & Hrt & Hs & Hhe); [lia|lia|apply Hex|done|].
    rewrite LAST_spec by apply Hp. rewrite Hhe. rewrite (wrap_small 64) by (unfold desc_end, PAGE in *; lia). rewrite Z.sub_add.
    destruct (Hnext EFI_SUCCESS (done_ ++ [Slot (hole_desc (Desc m) c n) (Ext a)]) (a :: todo) rest n) as (x & Ex & Hx).
    + apply (expanding_add M1 m M2 done_ (a :: todo) y rest c n e); try done; [lia|lia|]. intros b Hb Hrb.
      apply elem_of_cons in Hb as [->|Hb]; [lia|]. pose proof (ex_disjoint _ _ _ _ _ _ _ _ Hex) as [_ Hd]%StronglySorted_inv.
      rewrite Forall_forall in Hd. specialize (Hd b Hb). unfold desc_end, PAGE in *. lia.
    + slen.
    + exists x. split; [|exact Hx]. rewrite <- Ex. rewrite <- !app_assoc. simpl. do 4 f_equal. slen.
Qed.

(** Between two map entries: [M1] is processed, [M2] is not. *)
Record between (M1 M2 done_ todo rest : list slot) (e : Z) : Prop := {
  bt_ptr : todo <> [] -> e = Z.of_nat (length done_) * ADS;
  bt_pages : Forall rt_pages todo;
  bt_disjoint : disjoint_map todo;
  bt_todo a : a ∈ todo -> IsRuntime (Type_ (Desc a)) = true -> within_runtime M2 a;
  bt_before x : runtime_at M1 x -> runtime_at done_ x;
  bt_room : Z.of_nat (length (done_ ++ todo)) <= Max <= Z.of_nat (length (done_ ++ todo ++ rest));
  bt_sound : table_sound (done_ ++ todo)
}.

Lemma between_enter M1 m M2 done_ todo rest e :
  M = M1 ++ m :: M2 -> between M1 (m :: M2) done_ todo rest e ->
  expanding M1 m M2 done_ todo rest (PhysicalStart (Desc m)) e.
Proof using Hpages Hdis.
  intros HM [E1 E2 E3 E4 E5 E6 E7]. assert (page_desc (Desc m)) as Hm by (rewrite HM, Forall_app, Forall_cons in Hpages; tauto).
  split; try done.
  - intros a Ha Hra. split; [|by apply E4]. rewrite Forall_forall in E2.
    destruct (todo_cases M1 m M2 a HM (E2 a Ha Hra) (E4 a Ha Hra)) as [?|[? _]]; [lia|].
    destruct Hm as ((? & ? & ?) & ? & _). unfold desc_end, PAGE in *. lia.
  - intros x Hx. lia.
  - destruct Hm as ((? & ? & ?) & ? & _). unfold desc_end, PAGE in *. lia.
  - apply Hm.
Qed.

Lemma between_leave M1 m M2 done_ todo rest e :
  M = M1 ++ m :: M2 -> expanding M1 m M2 done_ todo rest (desc_end (Desc m)) e -> between (M1 ++ [m]) M2 done_ todo rest e.
Proof using Hpages Hdis.
  intros HM [E1 E2 E3 E4 E5 E6 E7 E8 E9 E10]. split; try done.
  - intros a Ha Hra. rewrite Forall_forall in E2. destruct (E4 a Ha Hra) as [Hc Hw].
    destruct (todo_cases M1 m M2 a HM (E2 a Ha Hra) Hw) as [Hin|[_ ?]]; [|done].
    destruct (E2 a Ha Hra) as ((? & ? & ?) & ? & _). unfold desc_end, PAGE in *. lia.
  - intros x [Hx|(s & Hs%list_elem_of_singleton & Hr & Hx)]%runtime_at_app; [by apply E5|]. subst s. by apply E6.
Qed.

Lemma between_skip M1 m M2 done_ todo rest e :
  IsRuntime (Type_ (Desc m)) = false -> between M1 (m :: M2) done_ todo rest e -> between (M1 ++ [m]) M2 done_ todo rest e.
Proof using.
  intros Hr [E1 E2 E3 E4 E5 E6 E7]. split; try done.
  - intros a Ha Hra. destruct (E4 a Ha Hra) as (m' & [->|Hm']%elem_of_cons & Hr' & H); [congruence|]. by exists m'.
  - intros x [Hx|(s & Hs%list_elem_of_singleton & Hr' & Hx)]%runtime_at_app; [by apply E5|]. subst s. congruence.
Qed.

(** The inner loop for a runtime map entry. *)
Lemma expand_loop M1 m M2 done_ todo rest c e Status fuel :
  M = M1 ++ m :: M2 -> IsRuntime (Type_ (Desc m)) = true -> expanding M1 m M2 done_ todo rest c e ->
  (S (Z.to_nat (Max - Z.of_nat (length done_))) < fuel)%nat ->
  exists s b, while_ fuel (ExpandStep debug Max (Desc m) (desc_end (Desc m))) (expand_at Status done_ todo rest c e) = Ret (s, b) /\
    if (b : bool) then expand_full s else
    exists Status' done' todo' rest' c' e', s = expand_at Status' done' todo' rest' c' e' /\
      expanding M1 m M2 done' todo' rest' c' e' /\ (c' = desc_end (Desc m) \/ todo' = []).
Proof using Hpages Hdis HA Hmax.
  intros HM Hrm Hex Hf.
  edestruct (while_total (ExpandStep debug Max (Desc m) (desc_end (Desc m)))
    (fun s => exists Status' done' todo' rest' c' e', s = expand_at Status' done' todo' rest' c' e' /\ expanding M1 m M2 done' todo' rest' c' e')
    (fun s => Z.to_nat (Max - x_MatIndex s))
    (fun r => if r.2 : bool then expand_full r.1 else
      exists Status' done' todo' rest' c' e', r.1 = expand_at Status' done' todo' rest' c' e' /\
      expanding M1 m M2 done' todo' rest' c' e' /\ (c' = desc_end (Desc m) \/ todo' = []))) as ([s b] & E & Hr);
    [|by exists Status, done_, todo, rest, c, e| |exists s, b; split; [exact E|exact Hr]]; [|simpl; lia].
  intros s (St & dn & td & rs & c1 & e1 & -> & Hx). pose proof (ex_addr _ _ _ _ _ _ _ _ Hx) as Haddr.
  assert (td = [] \/ c1 = desc_end (Desc m) \/ (td <> [] /\ c1 < desc_end (Desc m))) as Hcase by (destruct td; [by left|right; destruct (decide (c1 = desc_end (Desc m))); [by left|right; split; [done|lia]]]).
  assert (td = [] \/ c1 = desc_end (Desc m) -> exists x, ExpandStep debug Max (Desc m) (desc_end (Desc m)) (expand_at St dn td rs c1 e1) = Ret x /\
    x = inr (expand_at St dn td rs c1 e1, false)) as Hexit.
  { intros Hor. unfold ExpandStep, expand_at. rewrite decide_False; [eauto|]. cbn [NumberOfEntries].
    destruct Hor as [->| ->]; [rewrite app_nil_r; lia|lia]. }
  destruct Hcase as [Hn|[Hn|[Hn Hlt]]].
  - destruct Hexit as (x & Ex & ->); [by left|]. eexists. split; [exact Ex|]. simpl. eauto 12.
  - destruct Hexit as (x & Ex & ->); [by right|]. eexists. split; [exact Ex|]. simpl. eauto 12.
  - destruct td as [|a td]; [done|].
    destruct (ExpandStep_spec M1 m M2 dn a td rs c1 e1 St HM Hrm Hx Hlt) as (x & Ex & Hs). exists x. split; [exact Ex|].
    destruct x as [s'|[s' b]].
    + destruct Hs as (St' & dn' & td' & rs' & c' & e' & -> & Hx' & Hl). split; [by eauto 10|]. simpl.
      pose proof (ex_room _ _ _ _ _ _ _ _ Hx) as Hrm'. clear - Hl Hrm'. slen.
    + destruct Hs as [-> Hs]. exact Hs.
Qed.

Lemma ExpandEntry_spec M1 m M2 done_ todo rest c e Status :
  M = M1 ++ m :: M2 -> between M1 (m :: M2) done_ todo rest e ->
  exists s b, ExpandEntry debug Max (Desc m) (expand_at Status done_ todo rest c e) = Ret (s, b) /\
    if (b : bool) then expand_full s else
    exists Status' done' todo' rest' c' e', s = expand_at Status' done' todo' rest' c' e' /\ between (M1 ++ [m]) M2 done' todo' rest' e'.
Proof using Hpages Hdis HA Hmax.
  intros HM Hbt. assert (page_desc (Desc m)) as Hm by (rewrite HM, Forall_app, Forall_cons in Hpages; tauto).
  unfold ExpandEntry. destruct (IsRuntime (Type_ (Desc m))) eqn:Hrm; cbn [negb].
  2:{ eexists _, false. split; [reflexivity|]. simpl. exists Status, done_, todo, rest, c, e. split; [done|]. by apply between_skip. }
  pose proof Hm as ((M1' & M2' & M3') & M4' & M5').
  rewrite LAST_spec, wrap_small by (done || unfold desc_end, PAGE in *; lia). rewrite Z.sub_add. cbv zeta.
  destruct (expand_loop M1 m M2 done_ todo rest (PhysicalStart (Desc m)) e Status (S (S (Z.to_nat Max))) HM Hrm) as (s & b & E & Hr).
  { by apply between_enter. }
  { lia. }
  change (ExpandSt (x_Status (expand_at Status done_ todo rest c e)) _ _ _ _) with
    (expand_at Status done_ todo rest (PhysicalStart (Desc m)) e). rewrite E, bind_ret. clear E.
  destruct b; [by eexists _, true|]. destruct Hr as (St & dn & td & rs & c1 & e1 & -> & Hx & Hor). cbv iota.
  unfold expand_at at 1. cbn [x_Address].
  destruct (decide (c1 = desc_end (Desc m))) as [->|Hne].
  { eexists _, false. split; [reflexivity|]. exists St, dn, td, rs, (desc_end (Desc m)), e1. split; [done|]. by apply between_leave. }
  destruct Hor as [->| ->]; [done|]. pose proof (ex_addr _ _ _ _ _ _ _ _ Hx) as Haddr.
  unfold expand_at. cbn [x_Address x_MatIndex x_Table x_Entry NumberOfEntries]. rewrite !app_nil_r, !app_nil_l.
  rewrite !ASSERT_holds by (apply bool_decide_eq_true; lia). rewrite !bind_ret. pose proof (ex_room _ _ _ _ _ _ _ _ Hx) as Hroom. rewrite app_nil_r, app_nil_l in Hroom.
  destruct (decide (Max <= Z.of_nat (length dn))) as [Hfull|Hfree].
  - rewrite Write_full, bind_ret by (simpl; lia). eexists _, true. split; [reflexivity|].
    pose proof (full_at EFI_OUT_OF_RESOURCES dn [] rs c1 e1 (ex_sound _ _ _ _ _ _ _ _ Hx)) as Hf. unfold expand_at in Hf.
    rewrite !app_nil_r, !app_nil_l in Hf. apply Hf; [lia|done].
  - destruct rs as [|y rs]; [slen|]. rewrite Write_append, bind_ret by (done || lia || apply Hx || by apply page_end).
    change (EFI_ERROR EFI_SUCCESS) with false. cbv iota. eexists _, false. split; [reflexivity|].
    exists EFI_SUCCESS, (dn ++ [Slot (hole_desc (Desc m) c1 (desc_end (Desc m))) (Ext y)]), [], rs, c1, e1. split.
    + unfold expand_at. rewrite app_nil_r, app_nil_l, <- app_assoc. rewrite wrap_small.
      * f_equal; [slen|]. f_equal. slen.
      * assert (Max < 2 ^ 32) by (clear - HA Hmax; nia). lia.
    + apply between_leave; [done|].
      destruct (expanding_add M1 m M2 dn [] y rs c1 (desc_end (Desc m)) e1 (Ext y) HM Hrm Hx) as [E1 E2 E3 E4 E5 E6 E7 E8 E9 E10];
        [lia|by apply page_end|rewrite app_nil_r; lia|by intros ? ?%not_elem_of_nil|]. by split.
Qed.

(** The whole function: a full table, or one that covers all runtime memory. *)
Definition expand_result (r : EFI_STATUS * EFI_MEMORY_ATTRIBUTES_TABLE) : Prop :=
  exists l rest, r.2 = Mat (Z.of_nat (length l)) ADS (l ++ rest) /\ Z.of_nat (length l) <= Max /\ table_sound l /\
    (r.1 = EFI_OUT_OF_RESOURCES \/ forall x, runtime_at M x -> runtime_at l x).

Lemma ExpandByMap_spec DS spare rest :
  0 < DS -> between [] M [] orig rest 0 ->
  exists r, OcExpandAttributesByMap debug (Mat (Z.of_nat (length orig)) ADS (orig ++ rest)) 0 Max (Z.of_nat (length M)) (M ++ spare) DS = Ret r /\
    expand_result r.
Proof using Hpages Hdis HA Hmax.
  intros HDS Hbt. unfold OcExpandAttributesByMap.
  apply (while_total _ (fun st => exists M1 M2 Status done_ todo rest c e, M = M1 ++ M2 /\
      st = (Z.of_nat (length M1), Z.of_nat (length M1) * DS, expand_at Status done_ todo rest c e) /\ between M1 M2 done_ todo rest e)
    (fun st => Z.to_nat (Z.of_nat (length M) - st.1.1)) expand_result).
  - intros st (M1 & M2 & Status & dn & td & rs & c & e & HM & -> & Hb). destruct M2 as [|m M2].
    + rewrite app_nil_r in HM. rewrite decide_False by (rewrite HM; lia). eexists. split; [reflexivity|].
      exists (dn ++ td), rs. simpl. rewrite <- app_assoc. split; [done|]. split; [apply Hb|]. split; [apply Hb|]. right.
      intros x Hx. rewrite HM in Hx. apply runtime_at_app. left. by apply (bt_before _ _ _ _ _ _ Hb).
    + rewrite decide_True by (rewrite HM; slen). replace (M ++ spare) with (M1 ++ m :: M2 ++ spare) by (by rewrite HM, <- app_assoc). rewrite rd_desc_mid, bind_ret by done.
      destruct (ExpandEntry_spec M1 m M2 dn td rs c e Status HM Hb) as (s & b & -> & Hr). rewrite bind_ret. cbv iota. destruct b.
      * eexists. split; [reflexivity|]. destruct Hr as (Hst & l & rest' & Hl & Hlen & Hs). exists l, rest'. simpl. rewrite Hl, Hlen.
        split; [done|]. split; [lia|]. split; [done|by left].
      * destruct Hr as (St' & dn' & td' & rs' & c' & e' & -> & Hb'). eexists. split; [reflexivity|]. split.
        -- exists (M1 ++ [m]), M2, St', dn', td', rs', c', e'. split; [by rewrite <- app_assoc|]. split; [|done].
           unfold NEXT_MEMORY_DESCRIPTOR. f_equal. f_equal; slen.
        -- simpl. rewrite HM. slen.
  - exists [], M, EFI_NOT_FOUND, [], orig, rest, 0, 0. split; [done|]. split; [|done]. done.
  - simpl. lia.
Qed.

End Write.
End Expand.

(** ** Properties *)

(** C12: [OcSplitMemoryMapByAttributes] returns for every sorted or unsorted map of
    whole pages with a page-aligned attributes table: it stays inside the buffer,
    and the result is a valid map: every address keeps its attributes and its
    class, a map without overlaps stays one, and runtime types come from the old
    entry or from an attribute of the address. It only gives up when all slots
    are used. *)
Theorem Split_valid (debug : bool) (Tables : ConfigurationTable) (i : nat) (Table : EFI_MEMORY_ATTRIBUTES_TABLE)
    (DescriptorSize MaxMemoryMapSize : Z) (l rest : list slot) :
  let n := Z.of_nat (length l) in let Mats := take (Z.to_nat (NumberOfEntries Table)) (Entries Table) in
  OcGetMemoryAttributes Tables = Some (i, Table) -> table_ok Mats Table ->
  0 < DescriptorSize -> n * DescriptorSize <= MaxMemoryMapSize ->
  MaxMemoryMapSize / DescriptorSize <= Z.of_nat (length (l ++ rest)) -> Z.of_nat (length (l ++ rest)) * DescriptorSize < 2 ^ 64 ->
  Forall (fun s => page_desc (Desc s)) l ->
  exists Status l' rest' z,
    OcSplitMemoryMapByAttributes debug Tables MaxMemoryMapSize (n * DescriptorSize) (l ++ rest) DescriptorSize =
      Ret (Status, Z.of_nat (length l') * DescriptorSize, l' ++ rest') /\
    refined Mats l l' /\ rest = z ++ rest' /\ length l' = (length l + length z)%nat /\
    Z.of_nat (length l') <= MaxMemoryMapSize / DescriptorSize /\
    (Status = EFI_SUCCESS \/ Status = EFI_OUT_OF_RESOURCES /\ Z.of_nat (length l') = MaxMemoryMapSize / DescriptorSize).
Proof.
  intros n Mats HT Hok HDS Hmax HTot Hb Hp. unfold OcSplitMemoryMapByAttributes.
  rewrite ASSERT_holds by (by apply bool_decide_eq_true). rewrite bind_ret, HT. cbv zeta. rewrite Z.div_mul by lia.
  assert (n <= MaxMemoryMapSize / DescriptorSize) by (apply Z.div_le_lower_bound; lia).
  destruct (split_map_loop debug DescriptorSize HDS Mats l (MaxMemoryMapSize / DescriptorSize) Table l rest Hok)
    as ([[Status Size] Map'] & E & z & l' & rest' & R1 & R2 & R3 & R4 & R5 & R6 & R7).
  { split; [done|]. split; [destruct Hok as (_ & ? & _); lia|]. split; [by apply refined_refl|]. simpl. done. }
  simpl in *. subst Size Map'. exists Status, l', rest', z. split; [|done]. unfold n. rewrite Nat2Z.id. exact E.
Qed.

(** [OcExpandAttributesByMap], with a sorted map and a sorted table whose
    runtime entries lie within runtime map entries, returns inside the table; it
    keeps every entry, adds only entries inside runtime memory, and unless the
    table is full every runtime address of the map is covered afterwards. *)
Theorem Expand_covers (debug : bool) (ADS MaxDescriptors DescriptorSize : Z) (M spare orig rest : list slot) :
  0 < ADS -> MaxDescriptors * ADS < 2 ^ 32 -> 0 < DescriptorSize ->
  Forall (fun s => page_desc (Desc s)) M -> disjoint_map M -> Forall rt_pages orig -> disjoint_map orig ->
  Forall (fun a => IsRuntime (Type_ (Desc a)) = true -> within_runtime M a) orig ->
  Z.of_nat (length orig) <= MaxDescriptors <= Z.of_nat (length (orig ++ rest)) ->
  exists Status l rest',
    OcExpandAttributesByMap debug (Mat (Z.of_nat (length orig)) ADS (orig ++ rest)) 0 MaxDescriptors (Z.of_nat (length M)) (M ++ spare)
      DescriptorSize = Ret (Status, Mat (Z.of_nat (length l)) ADS (l ++ rest')) /\
    Z.of_nat (length l) <= MaxDescriptors /\ sublist orig l /\
    Forall (fun a => IsRuntime (Type_ (Desc a)) = true -> within_runtime M a) l /\
    (Status = EFI_OUT_OF_RESOURCES \/ forall x, runtime_at M x -> runtime_at l x).
Proof.
  intros HA Hmax HDS Hp Hd Ho Hod How Hroom.
  destruct (ExpandByMap_spec debug ADS MaxDescriptors HA Hmax M orig Hp Hd DescriptorSize spare rest HDS) as ([St T] & E & l & rest' & R1 & R2 & (R3 & R4) & R5).
  { pose proof How as How'. rewrite Forall_forall in How'. split; try done. }
  simpl in *. subst T. exists St, l, rest'. done.
Qed.

(** ** Witnesses *)

(** A checkable form of [page_desc]. *)
Definition page_check (s : slot) : bool :=
  let d := Desc s in
  bool_decide (0 <= PhysicalStart d /\ desc_end d < 2 ^ 64 /\ 0 < NumberOfPages d /\ PhysicalStart d mod PAGE = 0).

Lemma page_checked l : forallb page_check l = true -> Forall (fun s => page_desc (Desc s)) l.
Proof.
  rewrite forallb_forall. intros H. apply Forall_forall. intros s Hs.
  specialize (H s ltac:(by apply list_elem_of_In)). apply bool_decide_eq_true in H as (H1 & H2 & H3 & H4).
  split_and!; [split_and!; lia|lia|]. by apply Z.mod_divide.
Qed.

(** Runtime data whose second page is protected code, and free memory. *)
Definition split_map : list slot := [sample_slot EfiRuntimeServicesData 0x1000 4; sample_slot EfiConventionalMemory 0x5000 8].
Definition split_rest : list slot := [sample_slot 0 0 0; sample_slot 0 0 0; sample_slot 0 0 0].
Definition split_table : EFI_MEMORY_ATTRIBUTES_TABLE :=
  Mat 1 48 [Slot (MemDesc EfiRuntimeServicesCode 0x2000 0 1 (Z.lor EFI_MEMORY_RUNTIME EFI_MEMORY_RO)) (replicate 8 0);
            sample_slot 0 0 0; sample_slot 0 0 0].
Definition split_tables : ConfigurationTable := [(1, Mat 0 48 []); (gEfiMemoryAttributesTableGuid, split_table)].

Lemma Split_valid_witness :
  let Mats := take 1 (Entries split_table) in
  exists Status l' rest' z,
    OcSplitMemoryMapByAttributes true split_tables (4 * 48) (2 * 48) (split_map ++ split_rest) 48 =
      Ret (Status, Z.of_nat (length l') * 48, l' ++ rest') /\
    refined Mats split_map l' /\ split_rest = z ++ rest' /\ length l' = (2 + length z)%nat /\ Z.of_nat (length l') <= 4 * 48 / 48 /\
    (Status = EFI_SUCCESS \/ Status = EFI_OUT_OF_RESOURCES /\ Z.of_nat (length l') = 4 * 48 / 48).
Proof.
  apply (Split_valid true split_tables 1 split_table 48 (4 * 48) split_map split_rest).
  - reflexivity.
  - split; [reflexivity|]. split; [simpl; lia|]. split; [reflexivity|]. eapply Forall_impl; [apply page_checked; vm_compute; reflexivity|].
    intros s Hs _. exact Hs.
  - lia.
  - vm_compute. congruence.
  - vm_compute. congruence.
  - vm_compute. reflexivity.
  - apply page_checked. vm_compute. reflexivity.
Defined.

(** The runtime data is split in three. *)
Example split_in_three :
  OcSplitMemoryMapByAttributes true split_tables (4 * 48) (2 * 48) (split_map ++ split_rest) 48 =
  Ret (EFI_SUCCESS, 4 * 48,
    [sample_slot EfiRuntimeServicesData 0x1000 1; sample_slot EfiRuntimeServicesCode 0x2000 1;
     sample_slot EfiRuntimeServicesData 0x3000 2; sample_slot EfiConventionalMemory 0x5000 8; sample_slot 0 0 0]).
Proof. vm_compute. reflexivity. Qed.

Lemma Expand_covers_witness :
  exists Status l rest',
    OcExpandAttributesByMap true split_table 0 3 2 split_map 48 = Ret (Status, Mat (Z.of_nat (length l)) 48 (l ++ rest')) /\
    Z.of_nat (length l) <= 3 /\ sublist (take 1 (Entries split_table)) l /\
    Forall (fun a => IsRuntime (Type_ (Desc a)) = true -> within_runtime split_map a) l /\
    (Status = EFI_OUT_OF_RESOURCES \/ forall x, runtime_at split_map x -> runtime_at l x).
Proof.
  apply (Expand_covers true 48 3 48 split_map [] (take 1 (Entries split_table)) (drop 1 (Entries split_table))).
  - lia.
  - lia.
  - lia.
  - apply page_checked. vm_compute. reflexivity.
  - repeat constructor. vm_compute. congruence.
  - eapply Forall_impl; [apply page_checked; vm_compute; reflexivity|]. intros s Hs _. exact Hs.
  - repeat constructor.
  - constructor; [|constructor]. intros _. exists (sample_slot EfiRuntimeServicesData 0x1000 4). split; [by left|].
    split; [reflexivity|]. vm_compute. split; congruence.
  - simpl. lia.
Defined.

(** The holes in front of and behind the attribute are filled. *)
Example expand_fills :
  match OcExpandAttributesByMap true split_table 0 3 2 split_map 48 with
  | Ret (Status, T) => (Status, (fun s => (Type_ (Desc s), PhysicalStart (Desc s), NumberOfPages (Desc s))) <$> Entries T)
  | Fault _ => (1, [])
  end = (EFI_SUCCESS, [(EfiRuntimeServicesData, 0x1000, 1); (EfiRuntimeServicesCode, 0x2000, 1); (EfiRuntimeServicesData, 0x3000, 2)]).
Proof. vm_compute. reflexivity. Qed.

End MemoryAttributes.
