(* ===== verification/MemoryQuery.v ===== *)
(** * The current memory map and allocations by it: [OcGetCurrentMemoryMap] and
    [OcGetCurrentMemoryMapAlloc] of [Library/OcMemoryLib/MemoryMap.c], and
    [OcAllocatePagesFromTop] and [OcCountFreePages] of [MemoryAlloc.c]

    The memory services of the firmware are the interface [Firmware] on a state of
    their own; the two functions that call each other are tied through a
    parameter, as the recursion of the code has depth one. *)
From stdpp Require Import sorting.
From S2P Require Import Prelude MemoryMap MemoryAttributes.

Module MemoryQuery.
Import MemoryMap MemoryAttributes.

(** ** Boot services *)

(** What [GetMemoryMap] stores: the size in bytes, the descriptor size, the key,
    the version and, on success, the descriptors. *)
Record map_info : Set := MapInfo {
  MemoryMapSize : Z; DescriptorSize : Z; MapKey : Z; DescriptorVersion : Z; Content : list slot
}.

Class Firmware : Type := {
  Fw : Type;
  GetMemoryMap : Fw -> Z -> bool -> EFI_STATUS * map_info;
  AllocatePool : Fw -> Z -> option (Z * Fw);
  FreePool : Fw -> Z -> Fw;
  AllocateAddress : Fw -> Z -> Z -> Z -> EFI_STATUS * Fw;
  FreePages : Fw -> Z -> Z -> Fw
}.

(** UEFI specification of [GetMemoryMap]: a map that is returned consists of whole
    descriptors, fits into the buffer, and lies in the address space; without a
    buffer there is an error. *)
Definition map_ok (i : map_info) : Prop :=
  0 < i.(DescriptorSize) /\ i.(MemoryMapSize) = Z.of_nat (length i.(Content)) * i.(DescriptorSize)
  /\ i.(MemoryMapSize) < 2 ^ 64 /\ Forall (fun s => wf_desc (Desc s)) i.(Content).

Class FirmwareLaws (F : Firmware) : Prop := {
  map_returned fw n Status i :
    GetMemoryMap fw n true = (Status, i) -> EFI_ERROR Status = false -> map_ok i /\ i.(MemoryMapSize) <= n;
  map_size_asked fw Status i : GetMemoryMap fw 0 false = (Status, i) -> EFI_ERROR Status = true
}.

Definition BASE_4GB : Z := 2 ^ 32.

Section Model.
Context `{Firmware}.

(** The buffer of a map on the pool, with the size that was allocated. *)
Record current_map : Set := CurrentMap { Buffer : Z; Info : map_info; OriginalSize : Z }.

Definition OcGetCurrentMemoryMap (Tables : ConfigurationTable) (IncludeSplitSpace : bool) (fw : Fw)
  : outcome (Fw * option current_map) :=
  let '(Status, i) := GetMemoryMap fw 0 false in
  if decide (Status <> EFI_BUFFER_TOO_SMALL) then Ret (fw, None) else
  ExtraSize ← (if IncludeSplitSpace then n ← OcCountSplitDescriptors Tables; Ret (n *[64] i.(DescriptorSize)) else Ret 0);
  let '(Result, Size) := overflow_add 64 i.(MemoryMapSize)
    (Z.max (i.(DescriptorSize) +[64] ExtraSize) (1024 +[64] ExtraSize)) in
  if (Result : bool) then Ret (fw, None) else
  match AllocatePool fw Size with
  | None => Ret (fw, None)
  | Some (MemoryMap, fw) =>
      let '(Status, i) := GetMemoryMap fw Size true in
      if EFI_ERROR Status then Ret (FreePool fw MemoryMap, None)
      else Ret (fw, Some (CurrentMap MemoryMap i Size))
  end.

(** The allocation of the buffer: from the pool, or from the top of memory by
    [FromTop Pages Memory]. The second component is the new value of [*TopMemory]. *)
Definition AllocateBuffer (FromTop : Fw -> Z -> Z -> outcome (Fw * EFI_STATUS * Z)) (fw : Fw) (Size : Z) (TopMemory : option Z)
  : outcome (Fw * option Z * (EFI_STATUS + Z)) :=
  match TopMemory with
  | Some MemoryMapAlloc =>
      let Pages := EFI_SIZE_TO_PAGES Size in
      '(fw, Status, MemoryMapAlloc) ← FromTop fw Pages MemoryMapAlloc;
      Ret (fw, Some Pages, if EFI_ERROR Status then inl Status else inr MemoryMapAlloc)
  | None =>
      match AllocatePool fw Size with
      | None => Ret (fw, None, inl EFI_OUT_OF_RESOURCES)
      | Some (MemoryMap, fw) => Ret (fw, None, inr MemoryMap)
      end
  end.

(** The result of [OcGetCurrentMemoryMapAlloc]: the status, the map with its buffer
    and the value of [*TopMemory]. *)
Definition alloc_result : Type := Fw * EFI_STATUS * option (Z * map_info) * option Z.

(** One turn of the loop; the state is [*MemoryMapSize] and [*TopMemory]. *)
Definition AllocStep (FromTop : Fw -> Z -> Z -> outcome (Fw * EFI_STATUS * Z)) (s : Fw * Z * option Z)
  : outcome (Fw * Z * option Z + alloc_result) :=
  let '(fw, Size, TopMemory) := s in
  let Size := Size +[64] 512 in
  '(fw, TopMemory, r) ← AllocateBuffer FromTop fw Size TopMemory;
  match r with
  | inl Status => Ret (inr (fw, Status, None, TopMemory))
  | inr MemoryMap =>
      let '(Status, i) := GetMemoryMap fw Size true in
      if EFI_ERROR Status then
        let fw := match TopMemory with
                  | Some Pages => FreePages fw MemoryMap Pages
                  | None => FreePool fw MemoryMap
                  end in
        if decide (Status = EFI_BUFFER_TOO_SMALL) then Ret (inl (fw, i.(MemoryMapSize), TopMemory))
        else Ret (inr (fw, Status, None, TopMemory))
      else Ret (inr (fw, Status, Some (MemoryMap, i), TopMemory))
  end.

(** [fuel] bounds the retries, the source has no bound. *)
Definition GetMapAlloc (FromTop : Fw -> Z -> Z -> outcome (Fw * EFI_STATUS * Z)) (fuel : nat) (fw : Fw) (TopMemory : option Z)
  : outcome alloc_result :=
  let '(Status, i) := GetMemoryMap fw 0 false in
  if decide (Status <> EFI_BUFFER_TOO_SMALL) then Ret (fw, Status, None, TopMemory)
  else while_ fuel (AllocStep FromTop) (fw, i.(MemoryMapSize), TopMemory).

(** The search for a block; the state is the offset of [Desc] and [*Memory], the
    result is [*Memory] and whether a block was found. *)
Definition TopStep (CheckRange : option (Z -> Z -> bool)) (Pages : Z) (i : map_info) (s : Z * Z)
  : outcome (Z * Z + Z * bool) :=
  let '(p, Memory) := s in
  if decide (0 <= p) then
    Desc ← rd_desc i.(DescriptorSize) i.(Content) p;
    let prev := p - i.(DescriptorSize) in
    if decide (Type_ Desc = EfiConventionalMemory /\ Pages <= NumberOfPages Desc
               /\ PhysicalStart Desc +[64] EFI_PAGES_TO_SIZE Pages <= Memory) then
      let Memory :=
        if decide (PhysicalStart Desc +[64] EFI_PAGES_TO_SIZE (NumberOfPages Desc) <= Memory)
        then PhysicalStart Desc +[64] EFI_PAGES_TO_SIZE (NumberOfPages Desc -[64] Pages)
        else Memory -[64] EFI_PAGES_TO_SIZE Pages in
      if match CheckRange with Some f => f Memory (EFI_PAGES_TO_SIZE Pages) | None => false end
      then Ret (inl (prev, Memory))
      else Ret (inr (Memory, true))
    else Ret (inl (prev, Memory))
  else Ret (inr (Memory, false)).

(** The map is asked for without a top address, so that [FromTop] is not called.
    Without an error and without a map the code goes on with a NULL map. *)
Definition OcAllocatePagesFromTop (CheckRange : option (Z -> Z -> bool)) (MemoryType : Z) (fuel : nat) (fw : Fw)
    (Pages Memory : Z) : outcome (Fw * EFI_STATUS * Z) :=
  '(fw, Status, m, _) ← GetMapAlloc (fun _ _ _ => Fault OutOfBounds) fuel fw None;
  match m with
  | None => if EFI_ERROR Status then Ret (fw, Status, Memory) else Fault OutOfBounds
  | Some (MemoryMap, i) =>
      '(Memory, Found) ← while_ (S (length i.(Content))) (TopStep CheckRange Pages i)
        (i.(MemoryMapSize) - i.(DescriptorSize), Memory);
      let '(Status, fw) := if (Found : bool) then AllocateAddress fw MemoryType Pages Memory else (EFI_NOT_FOUND, fw) in
      Ret (FreePool fw MemoryMap, Status, Memory)
  end.

Definition OcGetCurrentMemoryMapAlloc (fuel : nat) (fw : Fw) (TopMemory : option Z) : outcome alloc_result :=
  GetMapAlloc (OcAllocatePagesFromTop None EfiBootServicesData fuel) fuel fw TopMemory.

(** The loop of [OcCountFreePages]; [debug] compiles the assertions in. The state
    is the offset, the free pages and [*LowerMemory]. *)
Definition FreeStep (debug : bool) (i : map_info) (s : Z * Z * Z) : outcome (Z * Z * Z + Z * Z) :=
  let '(p, FreePages, LowerMemory) := s in
  if decide (p < i.(MemoryMapSize)) then
    d ← rd_desc i.(DescriptorSize) i.(Content) p;
    let next := NEXT_MEMORY_DESCRIPTOR p i.(DescriptorSize) in
    if decide (Type_ d <> EfiConventionalMemory) then Ret (inl (next, FreePages, LowerMemory)) else
    ASSERT debug (bool_decide (NumberOfPages d <= MAX_UINT64));;
    ASSERT debug (bool_decide (FreePages <= MAX_UINT64 - NumberOfPages d));;
    let FreePages := FreePages +[64] NumberOfPages d in
    if decide (BASE_4GB <= PhysicalStart d) then Ret (inl (next, FreePages, LowerMemory)) else
    let LowerMemory :=
      LowerMemory +[64]
        (if decide (BASE_4GB < PhysicalStart d +[64] EFI_PAGES_TO_SIZE (NumberOfPages d))
         then EFI_SIZE_TO_PAGES (BASE_4GB -[64] PhysicalStart d) else NumberOfPages d) in
    Ret (inl (next, FreePages, LowerMemory))
  else Ret (inr (FreePages, LowerMemory)).

(** The free pages and [*LowerMemory], for a caller that asks for both. *)
Definition OcCountFreePages (debug : bool) (fw : Fw) : outcome (Fw * (Z * Z)) :=
  '(fw, m) ← OcGetCurrentMemoryMap [] false fw;
  match m with
  | None => Ret (fw, (0, 0))
  | Some m =>
      r ← while_ (S (length m.(Info).(Content))) (FreeStep debug m.(Info)) (0, 0, 0);
      Ret (FreePool fw m.(Buffer), r)
  end.

End Model.

(** ** Specification *)

(** Free memory with room for [Pages] below [Memory], and the highest address
    of such a range in it. *)
Definition fits (Pages Memory : Z) (d : EFI_MEMORY_DESCRIPTOR) : Prop :=
  Type_ d = EfiConventionalMemory /\ Pages <= NumberOfPages d /\ PhysicalStart d + Pages * PAGE <= Memory.
#[export] Instance fits_dec Pages Memory d : Decision (fits Pages Memory d).
Proof. unfold fits. apply _. Defined.

Definition top_address (Pages Memory : Z) (d : EFI_MEMORY_DESCRIPTOR) : Z := Z.min (desc_end d) Memory - Pages * PAGE.

Definition rejected (CheckRange : option (Z -> Z -> bool)) (a Size : Z) : bool :=
  match CheckRange with Some f => f a Size | None => false end.

(** The search on the list of descriptors in reverse. *)
Fixpoint top_search (CheckRange : option (Z -> Z -> bool)) (Pages : Z) (l : list slot) (Memory : Z) : Z * bool :=
  match l with
  | [] => (Memory, false)
  | s :: l =>
      if decide (fits Pages Memory (Desc s)) then
        let a := top_address Pages Memory (Desc s) in
        if rejected CheckRange a (Pages * PAGE) then top_search CheckRange Pages l a else (a, true)
      else top_search CheckRange Pages l Memory
  end.

(** A range of [Pages] pages at [a] inside the free descriptor [d]. *)
Definition free_range (Pages : Z) (d : EFI_MEMORY_DESCRIPTOR) (a : Z) : Prop :=
  Type_ d = EfiConventionalMemory /\ PhysicalStart d <= a /\ a + Pages * PAGE <= desc_end d.

Definition is_free (d : EFI_MEMORY_DESCRIPTOR) : bool := bool_decide (Type_ d = EfiConventionalMemory).
Definition free_descs (l : list slot) : list EFI_MEMORY_DESCRIPTOR := List.filter is_free (Desc <$> l).

(** The pages of [d] that start below 4 GB. *)
Definition pages_below_4GB (d : EFI_MEMORY_DESCRIPTOR) : Z :=
  if decide (BASE_4GB <= PhysicalStart d) then 0
  else if decide (BASE_4GB < desc_end d) then (BASE_4GB - PhysicalStart d + (PAGE - 1)) / PAGE else NumberOfPages d.
Definition lower_of (l : list EFI_MEMORY_DESCRIPTOR) : Z := foldr (fun d a => pages_below_4GB d + a) 0 l.

(** ** Lemmas *)
Lemma size_pages_range n : 0 <= n -> n * PAGE < 2 ^ 64 -> EFI_PAGES_TO_SIZE n = n * PAGE.
Proof. apply pages_to_size. Qed.

Lemma to_pages x : 0 <= x < 2 ^ 64 - PAGE -> EFI_SIZE_TO_PAGES x = (x + (PAGE - 1)) / PAGE.
Proof.
  intros Hx. unfold EFI_SIZE_TO_PAGES, PAGE in *. rewrite Z.shiftr_div_pow2 by lia.
  change 0xFFF with (Z.ones 12). rewrite Z.land_ones by lia.
  pose proof (Z.div_mod x (2 ^ 12) ltac:(lia)). pose proof (Z.mod_pos_bound x (2 ^ 12) ltac:(lia)).
  assert (0 <= x / 2 ^ 12 < 2 ^ 63) by (split; [apply Z.div_pos; lia|apply Z.div_lt_upper_bound; lia]).
  case_decide as Hc.
  - rewrite wrap_small by lia. apply (Z.div_unique _ _ _ (x mod 2 ^ 12 - 1)); lia.
  - rewrite wrap_small by lia. rewrite Z.add_0_r. apply (Z.div_unique _ _ _ (2 ^ 12 - 1)); lia.
Qed.

Section Search.
Context (i : map_info) (Hi : map_ok i) (CheckRange : option (Z -> Z -> bool)) (Pages : Z) (HP : 0 <= Pages).

(** One step of the search at a descriptor. *)
Lemma TopStep_spec k s Memory : i.(Content) !! k = Some s ->
  TopStep CheckRange Pages i (Z.of_nat k * i.(DescriptorSize), Memory)
  = Ret (if decide (fits Pages Memory (Desc s)) then
           let a := top_address Pages Memory (Desc s) in
           if rejected CheckRange a (Pages * PAGE) then inl ((Z.of_nat k - 1) * i.(DescriptorSize), a) else inr (a, true)
         else inl ((Z.of_nat k - 1) * i.(DescriptorSize), Memory)).
Proof using Hi HP.
  intros Hs. destruct Hi as (HDS & _ & _ & Hwf). pose proof (Forall_lookup_1 _ _ _ _ Hwf Hs) as (W1 & W2 & W3).
  unfold desc_end in W3. unfold TopStep. rewrite decide_True by nia.
  rewrite (rd_desc_at _ HDS _ (Z.of_nat k) s) by (rewrite ?Nat2Z.id; done || lia). cbn [mbind outcome_bind].
  replace (Z.of_nat k * DescriptorSize i - DescriptorSize i) with ((Z.of_nat k - 1) * DescriptorSize i) by lia.
  set (d := Desc s) in *. unfold fits, top_address, desc_end.
  destruct (decide (Pages <= NumberOfPages d)) as [Hle|Hle].
  2: { rewrite decide_False by tauto. by rewrite (decide_False (P := _ /\ _)) by tauto. }
  assert (EFI_PAGES_TO_SIZE Pages = Pages * PAGE) as -> by (apply size_pages_range; unfold PAGE in *; lia).
  rewrite (size_pages_range (NumberOfPages d)) by lia.
  rewrite (wrap_small 64 (PhysicalStart d + Pages * PAGE)) by (unfold PAGE in *; lia).
  destruct (decide (Type_ d = EfiConventionalMemory /\ Pages <= NumberOfPages d /\ PhysicalStart d + Pages * PAGE <= Memory)) as [Hf|Hf]; [|done].
  rewrite (wrap_small 64 (PhysicalStart d + NumberOfPages d * PAGE)) by (unfold PAGE in *; lia).
  rewrite (wrap_small 64 (NumberOfPages d - Pages)) by (unfold PAGE in *; lia).
  rewrite size_pages_range by (unfold PAGE in *; lia).
  rewrite (wrap_small 64 (PhysicalStart d + (NumberOfPages d - Pages) * PAGE)) by (unfold PAGE in *; lia).
  match goal with |- context [if decide (PhysicalStart d + NumberOfPages d * PAGE <= Memory) then ?x else ?y] =>
    assert ((if decide (PhysicalStart d + NumberOfPages d * PAGE <= Memory) then x else y)
      = Z.min (PhysicalStart d + NumberOfPages d * PAGE) Memory - Pages * PAGE) as -> end.
  { case_decide; [unfold PAGE in *; lia|]. rewrite wrap_small by (unfold PAGE in *; lia). unfold PAGE in *. lia. }
  unfold rejected. destruct CheckRange as [f|]; [|done]. by destruct (f _ _).
Qed.

Lemma TopLoop_spec : forall k Memory fuel, (k <= length i.(Content))%nat -> (k < fuel)%nat ->
  while_ fuel (TopStep CheckRange Pages i) ((Z.of_nat k - 1) * i.(DescriptorSize), Memory)
  = Ret (top_search CheckRange Pages (rev (take k i.(Content))) Memory).
Proof using Hi HP.
  induction k as [|k IH]; intros Memory fuel Hk Hf; (destruct fuel as [|fuel]; [lia|]).
  - rewrite (while_inr _ _ _ (Memory, false)); [done|]. unfold TopStep. rewrite decide_False; [done|]. destruct Hi. nia.
  - destruct (lookup_lt_is_Some_2 i.(Content) k) as [s Hs]; [lia|]. rewrite (take_S_r _ _ s), rev_unit by done. cbn [top_search].
    replace ((Z.of_nat (S k) - 1) * DescriptorSize i) with (Z.of_nat k * DescriptorSize i) by lia.
    pose proof (TopStep_spec k s Memory Hs) as E. cbv zeta in E. revert E.
    destruct (decide (fits Pages Memory (Desc s))); [destruct (rejected _ _ _)|]; intros E.
    + rewrite (while_inl _ _ _ _ E). apply IH; lia.
    + by rewrite (while_inr _ _ _ _ E).
    + rewrite (while_inl _ _ _ _ E). apply IH; lia.
Qed.

Lemma search_sound l : Forall (fun s => wf_desc (Desc s)) l -> forall Memory,
  let r := top_search CheckRange Pages l Memory in
  r.1 <= Memory /\ (r.2 = true -> rejected CheckRange r.1 (Pages * PAGE) = false /\ r.1 + Pages * PAGE <= Memory
    /\ exists s, s ∈ l /\ free_range Pages (Desc s) r.1).
Proof using HP.
  induction 1 as [|s l [W1 [W2 W3]] Hl IH]; intros Memory; cbn [top_search]; [split; cbn; [lia|done]|].
  assert (0 <= Pages * PAGE) as HPP by (unfold PAGE; lia).
  destruct (decide (fits Pages Memory (Desc s))) as [(F1 & F2 & F3)|F].
  - assert (free_range Pages (Desc s) (top_address Pages Memory (Desc s)) /\ top_address Pages Memory (Desc s) + Pages * PAGE <= Memory) as [HR HM].
    { unfold free_range, top_address, desc_end, PAGE in *. split; [|lia]. split; [done|]. lia. }
    destruct (rejected CheckRange (top_address Pages Memory (Desc s)) (Pages * PAGE)) eqn:ER.
    + destruct (IH (top_address Pages Memory (Desc s))) as [I1 I2]. split; [lia|]. intros H. destruct (I2 H) as (J1 & J2 & t & J3 & J4).
      split; [done|]. split; [lia|]. exists t. by split; [right|].
    + cbn. split; [lia|]. intros _. split; [done|]. split; [done|]. exists s. by split; [left|].
  - destruct (IH Memory) as [I1 I2]. split; [lia|]. intros H. destruct (I2 H) as (J1 & J2 & t & J3 & J4).
    split; [done|]. split; [lia|]. exists t. by split; [right|].
Qed.

End Search.

(** Without a restricted area the first block from the top is taken. *)
Lemma search_first Pages l : forall Memory,
  let r := top_search None Pages l Memory in
  if (r.2 : bool) then exists l1 s l2, l = l1 ++ s :: l2 /\ Forall (fun t => ~ fits Pages Memory (Desc t)) l1
       /\ fits Pages Memory (Desc s) /\ r.1 = top_address Pages Memory (Desc s)
  else r.1 = Memory /\ Forall (fun t => ~ fits Pages Memory (Desc t)) l.
Proof.
  induction l as [|s l IH]; intros Memory; cbn [top_search]; [done|]. destruct (decide (fits Pages Memory (Desc s))) as [F|F].
  - cbn. exists [], s, l. done.
  - specialize (IH Memory). cbv zeta in *. destruct (top_search None Pages l Memory).2.
    + destruct IH as (l1 & t & l2 & -> & H1 & H2 & H3). exists (s :: l1), t, l2. split; [done|]. split; [by constructor|done].
    + destruct IH as [H1 H2]. split; [done|]. by constructor.
Qed.

(** A range is found if there is one. *)
Lemma search_finds Pages l Memory : 0 <= Pages ->
  forall s a, s ∈ l -> free_range Pages (Desc s) a -> a + Pages * PAGE <= Memory -> (top_search None Pages (rev l) Memory).2 = true.
Proof.
  intros HP s a Hs (F1 & F2 & F3) HM. pose proof (search_first Pages (rev l) Memory) as HF. cbv zeta in HF.
  destruct (top_search None Pages (rev l) Memory).2; [done|]. destruct HF as [_ HF]. exfalso.
  apply (proj1 (Forall_forall _ _) HF s); [apply list_elem_of_In, in_rev; rewrite rev_involutive; by apply list_elem_of_In|].
  unfold fits, desc_end, PAGE in *. split; [done|]. split; lia.
Qed.

(** In a sorted map it is the highest free range below the limit. *)
Lemma search_highest Pages l Memory :
  0 <= Pages -> Forall (fun s => wf_desc (Desc s)) l -> disjoint_map l ->
  let r := top_search None Pages (rev l) Memory in
  forall s a, s ∈ l -> free_range Pages (Desc s) a -> a + Pages * PAGE <= Memory -> r.2 = true /\ a <= r.1.
Proof.
  intros HP Hwf Hd r s a Hs (F1 & F2 & F3) HM. pose proof (search_first Pages (rev l) Memory) as HF. cbv zeta in HF. fold r in HF.
  assert (fits Pages Memory (Desc s)) as Hfit by (unfold fits, desc_end, PAGE in *; split; [done|]; split; lia).
  destruct r.2.
  - split; [done|]. destruct HF as (l1 & t & l2 & E & H1 & H2 & ->). apply (f_equal (@rev slot)) in E. rewrite rev_involutive in E.
    rewrite E, rev_app_distr in Hs, Hd. cbn [rev] in Hs, Hd. rewrite <- app_assoc in Hs, Hd. cbn [app] in Hs, Hd.
    apply elem_of_app in Hs as [Hs|Hs].
    + unfold disjoint_map in Hd. apply StronglySorted_app_1_elem_of with (x1 := s) (x2 := t) in Hd; [|done|by left].
      unfold top_address. assert (PhysicalStart (Desc t) + Pages * PAGE <= desc_end (Desc t)).
      { destruct H2 as (_ & H2 & _). unfold desc_end, PAGE in *. lia. }
      assert (0 <= Pages * PAGE) by (unfold PAGE; lia). destruct H2 as (_ & _ & H2). lia.
    + apply elem_of_cons in Hs as [->|Hs]; [unfold top_address; lia|].
      exfalso. assert (s ∈ l1) as Hs1 by (by apply list_elem_of_In, in_rev, list_elem_of_In).
      by apply (proj1 (Forall_forall _ _) H1 s).
  - destruct HF as [_ HF]. exfalso. by apply (proj1 (Forall_forall _ _) HF s); [apply list_elem_of_In, in_rev; rewrite rev_involutive; by apply list_elem_of_In|].
Qed.

Lemma free_descs_snoc l s : free_descs (l ++ [s]) = free_descs l ++ (if is_free (Desc s) then [Desc s] else []).
Proof. unfold free_descs. by rewrite fmap_app, List.filter_app. Qed.

Lemma lower_of_app l1 l2 : lower_of (l1 ++ l2) = lower_of l1 + lower_of l2.
Proof. unfold lower_of. induction l1 as [|d l1 IH]; cbn [app foldr]; [done|]. rewrite IH. lia. Qed.

Lemma pages_below_range d : wf_desc d -> 0 <= pages_below_4GB d <= NumberOfPages d.
Proof.
  intros (W1 & W2 & W3). unfold pages_below_4GB, desc_end in *. repeat case_decide; [lia| |lia].
  unfold PAGE in *. split; [apply Z.div_pos; lia|]. apply Z.lt_succ_r, Z.div_lt_upper_bound; lia.
Qed.

Lemma free_sums l : Forall (fun s => wf_desc (Desc s)) l ->
  0 <= lower_of (free_descs l) <= pages_of (free_descs l).
Proof.
  induction 1 as [|s l Hs Hl IH]; [done|]. pose proof (pages_below_range _ Hs).
  unfold free_descs in *. cbn [fmap list_fmap List.filter]. destruct (is_free (Desc s)); cbn; [|done]. unfold lower_of, pages_of in *. lia.
Qed.

(** The count over a map of the firmware. *)
Lemma FreeLoop_spec debug i :
  map_ok i -> pages_of (free_descs i.(Content)) < 2 ^ 64 ->
  while_ (S (length i.(Content))) (FreeStep debug i) (0, 0, 0)
  = Ret (pages_of (free_descs i.(Content)), lower_of (free_descs i.(Content))).
Proof.
  intros (HDS & HSize & H64 & Hwf) Hsum. set (l := i.(Content)) in *.
  assert (forall k, 0 <= lower_of (free_descs (take k l)) <= pages_of (free_descs (take k l))
     /\ pages_of (free_descs (take k l)) <= pages_of (free_descs l)) as Hk.
  { intros k. split; [apply free_sums; by apply Forall_take|]. rewrite <- (take_drop k l) at 2.
    unfold free_descs. rewrite fmap_app, List.filter_app, pages_of_app. fold (free_descs (take k l)) (free_descs (drop k l)).
    pose proof (free_sums (drop k l) (Forall_drop _ _ _ Hwf)). lia. }
  oc_while (fun s : Z * Z * Z => exists k, (k <= length l)%nat
      /\ s = (Z.of_nat k * i.(DescriptorSize), pages_of (free_descs (take k l)), lower_of (free_descs (take k l))))
    (fun s : Z * Z * Z => Z.to_nat (Z.of_nat (length l) - s.1.1 / i.(DescriptorSize)))
    (fun r : Z * Z => r = (pages_of (free_descs l), lower_of (free_descs l))) as r Hr.
  - intros s (k & Hkl & ->). unfold FreeStep. rewrite HSize. destruct (decide (k = length l)) as [->|Hne].
    + rewrite decide_False by lia. eexists. split; [done|]. by rewrite firstn_all.
    + rewrite decide_True by nia. destruct (lookup_lt_is_Some_2 l k) as [t Ht]; [lia|].
      pose proof (Forall_lookup_1 _ _ _ _ Hwf Ht) as Hw. pose proof (pages_below_range _ Hw) as HB. destruct Hw as (W1 & W2 & W3).
      rewrite (rd_desc_at _ HDS _ (Z.of_nat k) t) by (rewrite ?Nat2Z.id; done || lia). cbn [mbind outcome_bind].
      destruct (Hk (S k)) as [K1 K2]. rewrite (take_S_r _ _ t), free_descs_snoc, pages_of_app, ?lower_of_app in K1, K2 by done.
      destruct (Hk k) as [K3 K4]. set (d := Desc t) in *.
      assert (forall f lo, f = pages_of (free_descs (take (S k) l)) -> lo = lower_of (free_descs (take (S k) l)) ->
        exists x : Z * Z * Z + Z * Z, Ret (inl (NEXT_MEMORY_DESCRIPTOR (Z.of_nat k * DescriptorSize i) (DescriptorSize i), f, lo)) = Ret x
        /\ match x with
           | inl s' => (exists k', (k' <= length l)%nat /\ s' = (Z.of_nat k' * DescriptorSize i, pages_of (free_descs (take k' l)), lower_of (free_descs (take k' l))))
               /\ (Z.to_nat (Z.of_nat (length l) - s'.1.1 / DescriptorSize i) < Z.to_nat (Z.of_nat (length l) - Z.of_nat k * DescriptorSize i / DescriptorSize i))%nat
           | inr r => r = (pages_of (free_descs l), lower_of (free_descs l)) end) as Hnext.
      { intros f lo -> ->. eexists. split; [done|]. cbn [fst]. unfold NEXT_MEMORY_DESCRIPTOR.
        replace (Z.of_nat k * DescriptorSize i + DescriptorSize i) with (Z.of_nat (S k) * DescriptorSize i) by lia.
        rewrite !Z.div_mul by lia. split; [exists (S k); split; [lia|done]|lia]. }
      rewrite (take_S_r _ _ t), free_descs_snoc, pages_of_app, lower_of_app in Hnext by done. fold d in Hnext.
      unfold is_free in *. destruct (decide (Type_ d = EfiConventionalMemory)) as [HT|HT].
      2: { rewrite decide_True by done. rewrite bool_decide_eq_false_2 in Hnext by done. apply Hnext; cbn; lia. }
      rewrite decide_False by tauto. rewrite bool_decide_eq_true_2 in K1, K2, Hnext by done. cbn in K1, K2, Hnext.
      unfold MAX_UINT64. rewrite !bool_decide_eq_true_2 by (unfold desc_end, PAGE in *; lia).
      assert (ASSERT debug true = Ret tt) as -> by (by destruct debug). cbn [mbind outcome_bind].
      rewrite (wrap_small 64 (pages_of (free_descs (take k l)) + NumberOfPages d)) by lia.
      unfold pages_below_4GB in K1, HB, Hnext. destruct (decide (BASE_4GB <= PhysicalStart d)) as [H4|H4]; [apply Hnext; lia|].
      unfold desc_end in *. rewrite size_pages_range by lia. rewrite (wrap_small 64 (PhysicalStart d + NumberOfPages d * PAGE)) by (unfold PAGE in *; lia).
      rewrite (wrap_small 64 (BASE_4GB - PhysicalStart d)) by (unfold BASE_4GB in *; lia).
      rewrite to_pages by (unfold BASE_4GB, PAGE in *; lia). rewrite wrap_small by (case_decide; lia).
      apply Hnext; lia.
  - exists 0%nat. split; [lia|done].
  - cbn [fst]. rewrite Z.div_0_l by lia. lia.
  - by rewrite Hr.
Qed.

(** ** The map on the pool *)

(** The firmware answers [n] turns of the loop, the first for a map of [Size] bytes, with
    EFI_BUFFER_TOO_SMALL: the map has grown by more than the 512 bytes that are added. *)
Fixpoint asks_again `{Firmware} (n : nat) (fw : Fw) (Size : Z) : bool :=
  match n with
  | O => true
  | S n =>
      match AllocatePool fw (Size +[64] 512) with
      | None => false
      | Some (MemoryMap, fw) =>
          let '(Status, i) := GetMemoryMap fw (Size +[64] 512) true in
          if decide (Status = EFI_BUFFER_TOO_SMALL) then asks_again n (FreePool fw MemoryMap) i.(MemoryMapSize) else false
      end
  end.
Definition outgrows `{Firmware} (n : nat) (fw : Fw) : bool :=
  let '(Status, i) := GetMemoryMap fw 0 false in bool_decide (Status = EFI_BUFFER_TOO_SMALL) && asks_again n fw i.(MemoryMapSize).

Lemma AllocLoop_pool {F : Firmware} {HF : FirmwareLaws F} FromTop n : forall fw Size,
  if asks_again n fw Size then while_ n (AllocStep FromTop) (fw, Size, None) = Fault OutOfFuel else
  exists fw1 Status m, while_ n (AllocStep FromTop) (fw, Size, None) = Ret (fw1, Status, m, None)
    /\ match m with None => EFI_ERROR Status = true | Some (_, i) => EFI_ERROR Status = false /\ map_ok i end.
Proof.
  induction n as [|n IH]; intros fw Size; [done|]. cbn [asks_again].
  assert (AllocStep FromTop (fw, Size, None) = match AllocatePool fw (Size +[64] 512) with
    | None => Ret (inr (fw, EFI_OUT_OF_RESOURCES, None, None))
    | Some (b, fw) => let '(Status, i) := GetMemoryMap fw (Size +[64] 512) true in
        if EFI_ERROR Status then if decide (Status = EFI_BUFFER_TOO_SMALL) then Ret (inl (FreePool fw b, i.(MemoryMapSize), None)) else Ret (inr (FreePool fw b, Status, None, None))
        else Ret (inr (fw, Status, Some (b, i), None)) end) as E by (unfold AllocStep, AllocateBuffer; by destruct (AllocatePool fw _) as [[b fw']|]).
  destruct (AllocatePool fw (Size +[64] 512)) as [[b fw1]|]; [|by exists fw, EFI_OUT_OF_RESOURCES, None; rewrite (while_inr _ _ _ _ E)].
  destruct (GetMemoryMap fw1 (Size +[64] 512) true) as [Status i] eqn:E1. destruct (decide (Status = EFI_BUFFER_TOO_SMALL)) as [->|HS].
  - change (EFI_ERROR EFI_BUFFER_TOO_SMALL) with true in E. cbn iota in E. rewrite (while_inl _ _ _ _ E). apply IH.
  - destruct (EFI_ERROR Status) eqn:EE; rewrite (while_inr _ _ _ _ E); [by exists (FreePool fw1 b), Status, None|].
    exists fw1, Status, (Some (b, i)). split; [done|]. split; [done|by eapply map_returned].
Qed.

(** The result of [GetMapAlloc] without a top address. *)
Lemma GetMapAlloc_pool {F : Firmware} {HF : FirmwareLaws F} FromTop fuel fw :
  if outgrows fuel fw then GetMapAlloc FromTop fuel fw None = Fault OutOfFuel else
  exists fw1 Status m, GetMapAlloc FromTop fuel fw None = Ret (fw1, Status, m, None)
    /\ match m with None => EFI_ERROR Status = true | Some (_, i) => EFI_ERROR Status = false /\ map_ok i end.
Proof.
  unfold GetMapAlloc, outgrows. destruct (GetMemoryMap fw 0 false) as [Status i] eqn:E0.
  pose proof (map_size_asked fw Status i E0) as HE. destruct (decide (Status = EFI_BUFFER_TOO_SMALL)) as [->|HS].
  - rewrite bool_decide_true, decide_False by (by auto). cbn [andb]. apply AllocLoop_pool.
  - rewrite bool_decide_false, decide_True by done. by exists fw, Status, None.
Qed.

(** ** Properties *)

(** C27: [OcAllocatePagesFromTop], for any firmware. As long as the map outgrows every
    buffer that is allocated for it, it keeps asking. Otherwise it returns, and asks the
    firmware for at most one range, which lies in free memory of the current map, ends at
    or below the given address and is not refused by the range check. Without a range
    check it finds such a range if there is one in the map (otherwise it returns
    EFI_NOT_FOUND), and if the map is sorted, it takes the highest. *)
Theorem FromTop_highest {F : Firmware} {HF : FirmwareLaws F} CheckRange MemoryType fuel fw Pages Memory :
  0 <= Pages ->
  if outgrows fuel fw then OcAllocatePagesFromTop CheckRange MemoryType fuel fw Pages Memory = Fault OutOfFuel else
  exists fw1 Status m, GetMapAlloc (fun _ _ _ => Fault OutOfBounds) fuel fw None = Ret (fw1, Status, m, None)
  /\ match m with
     | None => EFI_ERROR Status = true /\ OcAllocatePagesFromTop CheckRange MemoryType fuel fw Pages Memory = Ret (fw1, Status, Memory)
     | Some (b, i) => exists a (Found : bool),
         OcAllocatePagesFromTop CheckRange MemoryType fuel fw Pages Memory =
           (let '(Status, fw2) := if Found then AllocateAddress fw1 MemoryType Pages a else (EFI_NOT_FOUND, fw1) in
            Ret (FreePool fw2 b, Status, a))
         /\ (Found = true -> a + Pages * PAGE <= Memory /\ rejected CheckRange a (Pages * PAGE) = false
              /\ exists s, s ∈ i.(Content) /\ free_range Pages (Desc s) a)
         /\ (CheckRange = None -> forall s x, s ∈ i.(Content) -> free_range Pages (Desc s) x -> x + Pages * PAGE <= Memory ->
              Found = true /\ (disjoint_map i.(Content) -> x <= a))
     end.
Proof.
  intros HP. pose proof (GetMapAlloc_pool (fun _ _ _ => Fault OutOfBounds) fuel fw) as H. unfold OcAllocatePagesFromTop.
  destruct (outgrows fuel fw); [by rewrite H|]. destruct H as (fw1 & Status & m & E & Hm).
  exists fw1, Status, m. split; [done|]. rewrite E. cbn [mbind outcome_bind].
  destruct m as [[b i]|]; [|by rewrite Hm]. destruct Hm as [_ Hi]. pose proof Hi as (_ & HS & _ & Hwf).
  pose proof (TopLoop_spec i Hi CheckRange Pages HP (length i.(Content)) Memory (S (length i.(Content)))) as HL.
  rewrite firstn_all in HL. replace (i.(MemoryMapSize) - i.(DescriptorSize)) with ((Z.of_nat (length i.(Content)) - 1) * i.(DescriptorSize)) by lia.
  rewrite HL by lia. cbn [mbind outcome_bind].
  destruct (search_sound CheckRange Pages HP (rev i.(Content)) ltac:(by apply Forall_rev) Memory) as [_ H2].
  destruct (top_search CheckRange Pages (rev i.(Content)) Memory) as [a Found] eqn:ET. cbn in H2. exists a, Found.
  split; [done|]. split.
  - intros HFd. destruct (H2 HFd) as (K1 & K2 & s & K3 & K4). split; [done|]. split; [done|]. exists s. split; [|done].
    by apply list_elem_of_In, in_rev, list_elem_of_In.
  - intros -> s x Hs Hx HM. pose proof (search_finds Pages i.(Content) Memory HP s x Hs Hx HM) as K. rewrite ET in K. split; [exact K|].
    intros Hd. pose proof (search_highest Pages i.(Content) Memory HP Hwf Hd s x Hs Hx HM) as K'. rewrite ET in K'. exact (proj2 K').
Qed.

(** [OcCountFreePages] returns the sum of the pages of all free descriptors of
    the current map and how many of them start below 4 GB, frees the map again and
    passes its assertions; without a map it returns 0. *)
Theorem CountFreePages_sums {F : Firmware} {HF : FirmwareLaws F} debug fw :
  (forall fw' n Status i, GetMemoryMap fw' n true = (Status, i) -> EFI_ERROR Status = false ->
     pages_of (free_descs i.(Content)) < 2 ^ 64) ->
  exists fw1 m, OcGetCurrentMemoryMap [] false fw = Ret (fw1, m)
  /\ OcCountFreePages debug fw =
     Ret match m with
         | None => (fw1, (0, 0))
         | Some m => (FreePool fw1 m.(Buffer), (pages_of (free_descs m.(Info).(Content)), lower_of (free_descs m.(Info).(Content))))
         end.
Proof.
  intros Hsum.
  assert (exists fw1 m, OcGetCurrentMemoryMap [] false fw = Ret (fw1, m) /\
    match m with None => True | Some m => map_ok m.(Info) /\ pages_of (free_descs m.(Info).(Content)) < 2 ^ 64 end) as (fw1 & m & E & Hm).
  { unfold OcGetCurrentMemoryMap. destruct (GetMemoryMap fw 0 false) as [Status i]. case_decide; [by exists fw, None|].
    cbn [mbind outcome_bind]. destruct (overflow_add _ _ _) as [[] Size]; [by exists fw, None|].
    destruct (AllocatePool fw Size) as [[b fw1]|]; [|by exists fw, None].
    destruct (GetMemoryMap fw1 Size true) as [Status' i'] eqn:E1. destruct (EFI_ERROR Status') eqn:EE; [by eexists _, None|].
    do 2 eexists. split; [done|]. cbn [Info]. split; [by eapply map_returned|by eapply Hsum]. }
  exists fw1, m. split; [done|]. unfold OcCountFreePages. rewrite E. cbn [mbind outcome_bind].
  destruct m as [m|]; [|done]. destruct Hm as [H1 H2]. by rewrite FreeLoop_spec.
Qed.

(** A firmware with two free blocks, whose map grows by [grow] bytes with the first
    allocation; its state counts the allocations. *)
Definition two_blocks : list slot :=
  [Slot (MemDesc EfiConventionalMemory 0x100000 0 1000 0xF) []; Slot (MemDesc EfiBootServicesData 0x500000 0 16 0xF) [];
   Slot (MemDesc EfiConventionalMemory 0xFFFF0000 0 1000 0xF) []].
Definition needed (grow allocations : nat) : Z := 120 + (if decide (allocations = 0%nat) then 0 else Z.of_nat grow).
Definition growing (grow : nat) : Firmware := {|
  Fw := nat;
  GetMemoryMap fw n present :=
    if present && bool_decide (needed grow fw <= n) then (EFI_SUCCESS, MapInfo 120 40 1 1 two_blocks)
    else (EFI_BUFFER_TOO_SMALL, MapInfo (needed grow fw) 40 1 1 []);
  AllocatePool fw n := Some (0x10000, S fw);
  FreePool fw _ := fw;
  AllocateAddress fw _ _ _ := (EFI_SUCCESS, S fw);
  FreePages fw _ _ := fw
|}.

#[export] Instance wf_desc_dec d : Decision (wf_desc d).
Proof. unfold wf_desc. apply _. Defined.

#[export] Instance growing_laws grow : FirmwareLaws (growing grow).
Proof.
  constructor.
  - intros fw n Status i. cbn. destruct (bool_decide _) eqn:E; intros [= <- <-]; [|done]. intros _. apply bool_decide_eq_true in E.
    split; [|unfold needed in E; cbn; case_decide; lia].
    split; [cbn; lia|]. split; [done|]. split; [cbn; lia|]. by apply (bool_decide_unpack _).
  - intros fw Status i. cbn. by intros [= <- _].
Qed.

(** The first answer is too late for a map that grows by 600 bytes. *)
Lemma FromTop_highest_witness :
  @outgrows (growing 600) 1 0%nat = true /\ @outgrows (growing 600) 2 0%nat = false
  /\ @OcAllocatePagesFromTop (growing 600) None EfiLoaderData 2 0%nat 16 0x100000000 = Ret (3%nat, EFI_SUCCESS, 0xFFFF0000).
Proof.
  split; [reflexivity|]. split; [reflexivity|].
  pose proof (@FromTop_highest (growing 600) (growing_laws 600) None EfiLoaderData 2 0%nat 16 0x100000000 ltac:(lia)) as H.
  change (@outgrows (growing 600) 2 0%nat) with false in H. destruct H as (fw1 & St & m & E & H).
  vm_compute in E. injection E as <- <- <-. destruct H as (a & Found & -> & H1 & H2).
  destruct (H2 eq_refl) with (s := Slot (MemDesc EfiConventionalMemory 0xFFFF0000 0 1000 0xF) []) (x := 0xFFFF0000) as [-> Ha].
  - do 2 right. left.
  - split; [done|]. vm_compute. split; discriminate.
  - vm_compute. discriminate.
  - assert (0xFFFF0000 <= a) as Ha' by (apply Ha; repeat constructor; vm_compute; discriminate).
    destruct (H1 eq_refl) as (K & _). assert (a = 0xFFFF0000) as -> by (unfold PAGE in K; lia). reflexivity.
Defined.

Lemma CountFreePages_sums_witness :
  @OcCountFreePages (growing 100) true 0%nat = Ret (1%nat, (2000, 1016)).
Proof.
  destruct (@CountFreePages_sums (growing 100) (growing_laws 100) true 0%nat) as (fw1 & m & E & ->).
  - intros fw' n Status i. cbn. destruct (bool_decide _); intros [= <- <-] HE; [reflexivity|discriminate HE].
  - vm_compute in E. injection E as <- <-. vm_compute. reflexivity.
Defined.

(** When the map has grown in between, the second turn of [OcGetCurrentMemoryMapAlloc]
    takes the number of pages that the first one stored in [*TopMemory] for the top
    address: with two blocks of free memory below 4 GB it finds none. *)
Lemma retry_loses_top :
  @OcGetCurrentMemoryMapAlloc (growing 1000) 3 0%nat (Some 0x100000000) = Ret (4%nat, EFI_NOT_FOUND, None, Some 1).
Proof. vm_compute. reflexivity. Qed.

End MemoryQuery.
