(* ===== verification/KeyMap.v ===== *)
(** * The Apple key map database and aggregator

    Library/OcAppleKeyMapLib/OcAppleKeyMapLib.c: the list of key sets that the
    keyboard drivers register ([APPLE_KEY_STROKES_INFO]), the database protocol
    that creates, fills and removes them, and the aggregator protocol that
    reports the keys that are pressed in any of them. The linked list of the
    source is a list in link order, and a pointer to one of its nodes is a
    position. [KeyMapAggregator] is the interface through which the clients of
    the aggregator (this file and UpDown.v) call [GetKeyStrokes]; the database
    implements it ([key_map_laws]). *)
From S2P Require Import Prelude.

Module KeyMap.

(** ** Data *)
Definition OC_KEY_MAP_DEFAULT_SIZE : Z := 8.

Record APPLE_KEY_STROKES_INFO := {
  Index : Z;
  KeyCodeBufferLength : Z;
  NumberOfKeyCodes : Z;
  Modifiers : Z;
  KeyCodes : list Z
}.

(** [KeyCodeBuffer] is [None] for the NULL pointer. *)
Record KEY_MAP_AGGREGATOR_DATA := {
  NextKeyStrokeIndex : Z;
  KeyCodeBuffer : option (list Z);
  TotalKeyCodeBufferLength : Z;
  KeyStrokesInfoList : list APPLE_KEY_STROKES_INFO
}.

#[export] Instance info_eq_dec : EqDecision APPLE_KEY_STROKES_INFO.
Proof. solve_decision. Defined.
#[export] Instance data_eq_dec : EqDecision KEY_MAP_AGGREGATOR_DATA.
Proof. solve_decision. Defined.

(** The zeroed structure, as [OcAppleKeyMapInstallProtocols] fills it. *)
Definition InitialData : KEY_MAP_AGGREGATOR_DATA := {|
  NextKeyStrokeIndex := 3000;
  KeyCodeBuffer := None;
  TotalKeyCodeBufferLength := 0;
  KeyStrokesInfoList := []
|}.

(** [OFFSET_OF (APPLE_KEY_STROKES_INFO, KeyCodes)] for 64-bit words: five words
    and one two-word link before the 16-bit modifiers. *)
Definition SIZE_OF_APPLE_KEY_STROKES_INFO : Z := 50.

(** What a call of [GetKeyStrokes] returns: the status and the output
    parameters ([None] for modifiers that are not written, and for the NULL
    [KeyCodes] buffer). *)
Record strokes := {
  Status : EFI_STATUS;
  OutModifiers : option Z;
  OutNumber : Z;
  OutKeyCodes : option (list Z)
}.

#[export] Instance strokes_eq_dec : EqDecision strokes.
Proof. solve_decision. Defined.

(** ** The database *)
Fixpoint FindIndex (l : list APPLE_KEY_STROKES_INFO) (i : Z) : option nat :=
  match l with
  | [] => None
  | KeyStrokesInfoWalker :: l =>
      if decide (KeyStrokesInfoWalker.(Index) = i) then Some O else S <$> FindIndex l i
  end.

Definition InternalGetKeyStrokesByIndex (D : KEY_MAP_AGGREGATOR_DATA) (i : Z) : option nat :=
  FindIndex D.(KeyStrokesInfoList) i.

(** [AllocateZeroPool]: whether the [k]-th allocation of a call is granted is
    up to the firmware; its content is [size] zero bytes. *)
Definition Granted : Type := nat -> Z -> bool.

Definition InternalCreateKeyStrokesBuffer (G : Granted) (D : KEY_MAP_AGGREGATOR_DATA) (BufferLength : Z)
  : outcome (KEY_MAP_AGGREGATOR_DATA * EFI_STATUS * option Z) :=
  let TotalBufferLength := D.(TotalKeyCodeBufferLength) +[64] BufferLength in
  let Size := TotalBufferLength *[64] 2 in
  let Buffer := if G 0%nat Size then Some (replicate (Z.to_nat (Size / 2)) 0) else None in
  let D' := {| NextKeyStrokeIndex := D.(NextKeyStrokeIndex);
               KeyCodeBuffer := Buffer;
               TotalKeyCodeBufferLength := TotalBufferLength;
               KeyStrokesInfoList := D.(KeyStrokesInfoList) |} in
  match Buffer with
  | None => Ret (D', EFI_OUT_OF_RESOURCES, None)
  | Some _ =>
      let InfoSize := SIZE_OF_APPLE_KEY_STROKES_INFO +[64] (BufferLength *[64] 2) in
      if G 1%nat InfoSize then
        if decide (SIZE_OF_APPLE_KEY_STROKES_INFO <= InfoSize) then
          let KeyStrokesInfo := {|
            Index := D.(NextKeyStrokeIndex);
            KeyCodeBufferLength := BufferLength;
            NumberOfKeyCodes := 0;
            Modifiers := 0;
            KeyCodes := replicate (Z.to_nat ((InfoSize - SIZE_OF_APPLE_KEY_STROKES_INFO) / 2)) 0 |} in
          Ret ({| NextKeyStrokeIndex := D.(NextKeyStrokeIndex) +[64] 1;
                  KeyCodeBuffer := Buffer;
                  TotalKeyCodeBufferLength := TotalBufferLength;
                  KeyStrokesInfoList := D.(KeyStrokesInfoList) ++ [KeyStrokesInfo] |},
               EFI_SUCCESS, Some KeyStrokesInfo.(Index))
        else Fault OutOfBounds
      else Ret (D', EFI_OUT_OF_RESOURCES, None)
  end.

Definition InternalRemoveKeyStrokesBuffer (D : KEY_MAP_AGGREGATOR_DATA) (i : Z)
  : KEY_MAP_AGGREGATOR_DATA * EFI_STATUS :=
  match InternalGetKeyStrokesByIndex D i ≫= fun p => (p,.) <$> (D.(KeyStrokesInfoList) !! p) with
  | None => (D, EFI_NOT_FOUND)
  | Some (p, KeyStrokesInfo) =>
      ({| NextKeyStrokeIndex := D.(NextKeyStrokeIndex);
          KeyCodeBuffer := D.(KeyCodeBuffer);
          TotalKeyCodeBufferLength :=
            D.(TotalKeyCodeBufferLength) -[64] KeyStrokesInfo.(KeyCodeBufferLength);
          KeyStrokesInfoList := delete p D.(KeyStrokesInfoList) |}, EFI_SUCCESS)
  end.

Definition InternalSetKeyStrokeBufferKeys (D : KEY_MAP_AGGREGATOR_DATA) (i Mods Number : Z) (Codes : list Z)
  : outcome (KEY_MAP_AGGREGATOR_DATA * EFI_STATUS) :=
  match InternalGetKeyStrokesByIndex D i ≫= fun p => (p,.) <$> (D.(KeyStrokesInfoList) !! p) with
  | None => Ret (D, EFI_NOT_FOUND)
  | Some (p, KeyStrokesInfo) =>
      if decide (KeyStrokesInfo.(KeyCodeBufferLength) >= Number) then
        NewCodes ← CopyMem KeyStrokesInfo.(KeyCodes) 0 Codes 0 Number;
        let NewInfo := {|
          Index := KeyStrokesInfo.(Index);
          KeyCodeBufferLength := KeyStrokesInfo.(KeyCodeBufferLength);
          NumberOfKeyCodes := Number;
          Modifiers := Mods;
          KeyCodes := NewCodes |} in
        Ret ({| NextKeyStrokeIndex := D.(NextKeyStrokeIndex);
                KeyCodeBuffer := D.(KeyCodeBuffer);
                TotalKeyCodeBufferLength := D.(TotalKeyCodeBufferLength);
                KeyStrokesInfoList := <[p := NewInfo]> D.(KeyStrokesInfoList) |}, EFI_SUCCESS)
      else Ret (D, EFI_OUT_OF_RESOURCES)
  end.

(** ** The aggregator *)

(** The innermost loop: the first position below [Count] that holds [Key], or
    [Count]. A NULL buffer has no cell to read or write. *)
Definition SearchKey (Buffer : list Z) (Count Key : Z) : outcome Z :=
  while_ (S (Z.to_nat Count)) (fun Index2 =>
    if decide (Index2 < Count) then
      k ← rd Buffer Index2;
      if decide (k = Key) then Ret (inr Index2) else Ret (inl (Index2 + 1))
    else Ret (inr Index2)) 0.

Definition AddKey (Codes : list Z) (i : Z) (St : list Z * Z) : outcome (list Z * Z) :=
  let '(Buffer, DbNumberOfKeyCodestrokes) := St in
  Key ← rd Codes i;
  Index2 ← SearchKey Buffer DbNumberOfKeyCodestrokes Key;
  if decide (Index2 = DbNumberOfKeyCodestrokes) then
    Buffer ← wr Buffer DbNumberOfKeyCodestrokes Key;
    Ret (Buffer, DbNumberOfKeyCodestrokes + 1)
  else Ret (Buffer, DbNumberOfKeyCodestrokes).

(** The loop over the key sets; the state is the buffer, the number of distinct
    keys found and the union of the modifiers. *)
Fixpoint Collect (l : list APPLE_KEY_STROKES_INFO) (St : list Z * Z * Z) : outcome (list Z * Z * Z) :=
  match l with
  | [] => Ret St
  | KeyStrokesInfo :: l =>
      let '(Buffer, DbNumberOfKeyCodestrokes, DbModifiers) := St in
      let DbModifiers := Z.lor DbModifiers KeyStrokesInfo.(Modifiers) in
      r ← for_ (Z.to_nat KeyStrokesInfo.(NumberOfKeyCodes)) 0
            (AddKey KeyStrokesInfo.(KeyCodes)) (Buffer, DbNumberOfKeyCodestrokes);
      Collect l (r, DbModifiers)
  end.

Definition InternalGetKeyStrokes (D : KEY_MAP_AGGREGATOR_DATA) (Number : Z) (Codes : option (list Z))
  : outcome (KEY_MAP_AGGREGATOR_DATA * strokes) :=
  '(Buffer, DbNumberOfKeyCodestrokes, DbModifiers) ←
    Collect D.(KeyStrokesInfoList) (default [] D.(KeyCodeBuffer), 0, 0);
  let D' := {| NextKeyStrokeIndex := D.(NextKeyStrokeIndex);
               KeyCodeBuffer := (fun _ => Buffer) <$> D.(KeyCodeBuffer);
               TotalKeyCodeBufferLength := D.(TotalKeyCodeBufferLength);
               KeyStrokesInfoList := D.(KeyStrokesInfoList) |} in
  if decide (DbNumberOfKeyCodestrokes > Number) then
    Ret (D', {| Status := EFI_BUFFER_TOO_SMALL; OutModifiers := None;
                OutNumber := DbNumberOfKeyCodestrokes; OutKeyCodes := Codes |})
  else
    match Codes with
    | None =>
        Ret (D', {| Status := EFI_SUCCESS; OutModifiers := Some DbModifiers;
                    OutNumber := DbNumberOfKeyCodestrokes; OutKeyCodes := None |})
    | Some Dst =>
        Dst ← CopyMem Dst 0 Buffer 0 DbNumberOfKeyCodestrokes;
        Ret (D', {| Status := EFI_SUCCESS; OutModifiers := Some DbModifiers;
                    OutNumber := DbNumberOfKeyCodestrokes; OutKeyCodes := Some Dst |})
    end.

(** ** Queries on lists of keys *)
Definition HasKeysInner (Keys : list Z) (NumKeys CheckKey : Z) : outcome Z :=
  while_ (S (Z.to_nat NumKeys)) (fun i =>
    if decide (i < NumKeys) then
      k ← rd Keys i;
      if decide (CheckKey = k) then Ret (inr i) else Ret (inl (i + 1))
    else Ret (inr i)) 0.

Definition OcKeyMapHasKeys (Keys : list Z) (NumKeys : Z) (CheckKeys : list Z) (NumCheckKeys : Z)
    (ExactMatch : bool) : outcome bool :=
  if ExactMatch && bool_decide (NumKeys ≠ NumCheckKeys) then Ret false
  else
    while_ (S (Z.to_nat NumCheckKeys)) (fun CheckIndex =>
      if decide (CheckIndex < NumCheckKeys) then
        CheckKey ← rd CheckKeys CheckIndex;
        i ← HasKeysInner Keys NumKeys CheckKey;
        if decide (NumKeys = i) then Ret (inr false) else Ret (inl (CheckIndex + 1))
      else Ret (inr true)) 0.

Definition OcKeyMapHasKey (Keys : list Z) (NumKeys KeyCode : Z) : outcome bool :=
  OcKeyMapHasKeys Keys NumKeys [KeyCode] 1 false.

(** ** Clients of the aggregator protocol

    [This->GetKeyStrokes] is a call through the protocol: an operation on an
    abstract aggregator state. *)
Class KeyMapAggregator (St : Type) : Type :=
  GetKeyStrokes : St -> Z -> option (list Z) -> outcome (St * strokes).

(** The time that passes in [MicroSecondDelay] (the drivers' timer events run
    and update the database) and the console flush of the firmware. *)
Class Platform (St : Type) : Type := {
  MicroSecondDelay : St -> St;
  OcConsoleFlush : St -> St
}.

Section Clients.
Context {St : Type} {A : KeyMapAggregator St}.

(** The uninitialised stack buffer of the callers. *)
Variable Stack : list Z.

Definition InternalContainsKeyStrokes (This : St) (Mods Number : Z) (Codes : list Z) (ExactMatch : bool)
  : outcome (St * EFI_STATUS) :=
  '(This, r) ← GetKeyStrokes This 8 (Some Stack);
  if EFI_ERROR r.(Status) then Ret (This, r.(Status))
  else
    let DbModifiers := default 0 r.(OutModifiers) in
    if (if ExactMatch then bool_decide (DbModifiers ≠ Mods)
        else bool_decide (Z.land DbModifiers Mods ≠ Mods))
    then Ret (This, 0)
    else
      Result ← OcKeyMapHasKeys (default [] r.(OutKeyCodes)) r.(OutNumber) Codes Number ExactMatch;
      Ret (This, if negb Result then EFI_NOT_FOUND else EFI_SUCCESS).

Context {P : Platform St}.

Definition FlushStep (Key : Z) (KeyMap : St) : outcome (St + St) :=
  '(KeyMap, r) ← GetKeyStrokes KeyMap OC_KEY_MAP_DEFAULT_SIZE (Some Stack);
  if EFI_ERROR r.(Status) then Ret (inr KeyMap)
  else
    let Mods := default 0 r.(OutModifiers) in
    HasKey ← (if decide (Key ≠ 0)
              then OcKeyMapHasKey (default [] r.(OutKeyCodes)) r.(OutNumber) Key else Ret true);
    if bool_decide (Key ≠ 0) && negb HasKey && bool_decide (Mods = 0) then Ret (inr KeyMap)
    else if bool_decide (Key = 0) && bool_decide (r.(OutNumber) = 0) && bool_decide (Mods = 0)
    then Ret (inr KeyMap)
    else Ret (inl (MicroSecondDelay KeyMap)).

(** [fuel] bounds the polls, the source has no bound. *)
Definition OcKeyMapFlush (fuel : nat) (KeyMap : St) (Key : Z) (FlushConsole : bool) : outcome St :=
  KeyMap ← while_ fuel (FlushStep Key) KeyMap;
  Ret (if FlushConsole then OcConsoleFlush KeyMap else KeyMap).

End Clients.

(** ** Installation

    The handle database of the firmware is not part of the sources: [Uninstalled],
    [Located] and [Installed] are the statuses of its calls, [Granted] the outcome
    of the allocation. The result tells which aggregator is returned, and which
    database [mKeyMapDatabase] refers to afterwards. *)
Inductive protocol := ExistingProtocol | OwnProtocol (D : KEY_MAP_AGGREGATOR_DATA).

Record install_env := {
  UninstallDatabase : EFI_STATUS;
  UninstallAggregator : EFI_STATUS;
  LocateDatabase : EFI_STATUS;
  LocateAggregator : EFI_STATUS;
  GrantData : bool;
  InstallInterfaces : EFI_STATUS
}.

Definition InstallOwn (E : install_env) (mKeyMapDatabase : option protocol) : option protocol * option protocol :=
  if E.(GrantData) then
    if EFI_ERROR E.(InstallInterfaces) then (None, mKeyMapDatabase)
    else (Some (OwnProtocol InitialData), Some (OwnProtocol InitialData))
  else (None, mKeyMapDatabase).

Definition OcAppleKeyMapInstallProtocols (E : install_env) (mKeyMapDatabase : option protocol) (Reinstall : bool)
  : option protocol * option protocol :=
  if Reinstall then
    if EFI_ERROR E.(UninstallDatabase) || EFI_ERROR E.(UninstallAggregator) then (None, mKeyMapDatabase)
    else InstallOwn E mKeyMapDatabase
  else if negb (EFI_ERROR E.(LocateAggregator)) then
    (Some ExistingProtocol,
     if negb (EFI_ERROR E.(LocateDatabase)) then Some ExistingProtocol else mKeyMapDatabase)
  else if negb (EFI_ERROR E.(LocateDatabase)) then (None, mKeyMapDatabase)
  else InstallOwn E mKeyMapDatabase.

Definition OcAppleKeyMapGetDatabase (mKeyMapDatabase : option protocol) : option protocol := mKeyMapDatabase.

(** ** Abstract view: the keys and modifiers that are pressed *)
Definition add_key (ks : list Z) (k : Z) : list Z := if decide (k ∈ ks) then ks else ks ++ [k].
Definition active (i : APPLE_KEY_STROKES_INFO) : list Z := take (Z.to_nat i.(NumberOfKeyCodes)) i.(KeyCodes).
Definition pressed_keys (l : list APPLE_KEY_STROKES_INFO) : list Z := foldl add_key [] (l ≫= active).
Definition pressed_modifiers (l : list APPLE_KEY_STROKES_INFO) : Z :=
  foldl (fun m i => Z.lor m i.(Modifiers)) 0 l.

(** The contract of [GetKeyStrokes]. *)
Definition strokes_spec (keys : list Z) (mods Number : Z) (Codes : option (list Z)) : strokes :=
  if decide (Z.of_nat (length keys) <= Number) then
    {| Status := EFI_SUCCESS; OutModifiers := Some mods; OutNumber := Z.of_nat (length keys);
       OutKeyCodes := list_inserts 0 keys <$> Codes |}
  else
    {| Status := EFI_BUFFER_TOO_SMALL; OutModifiers := None; OutNumber := Z.of_nat (length keys);
       OutKeyCodes := Codes |}.

Definition fits (Number : Z) (Codes : option (list Z)) : Prop :=
  0 <= Number /\ forall b, Codes = Some b -> Number <= Z.of_nat (length b).

Class KeyMapAggregatorLaws (St : Type) {A : KeyMapAggregator St} : Type := {
  ready : St -> Prop;
  pressed : St -> list Z;
  modifiers : St -> Z;
  pressed_NoDup s : ready s -> NoDup (pressed s);
  GetKeyStrokes_law s Number Codes :
    ready s -> fits Number Codes ->
    exists s', GetKeyStrokes s Number Codes = Ret (s', strokes_spec (pressed s) (modifiers s) Number Codes)
      /\ ready s' /\ pressed s' = pressed s /\ modifiers s' = modifiers s
}.

(** ** The invariant of the database *)
Definition info_ok (i : APPLE_KEY_STROKES_INFO) : Prop :=
  0 <= i.(NumberOfKeyCodes) <= i.(KeyCodeBufferLength)
  /\ Z.of_nat (length i.(KeyCodes)) = i.(KeyCodeBufferLength).

Definition total_length (l : list APPLE_KEY_STROKES_INFO) : Z :=
  foldr (fun i t => i.(KeyCodeBufferLength) + t) 0 l.

Record Inv (D : KEY_MAP_AGGREGATOR_DATA) : Prop := {
  inv_infos : Forall info_ok D.(KeyStrokesInfoList);
  inv_unique : NoDup (Index <$> D.(KeyStrokesInfoList));
  inv_fresh : Forall (fun i => 3000 <= i.(Index) < D.(NextKeyStrokeIndex)) D.(KeyStrokesInfoList);
  inv_next : 3000 <= D.(NextKeyStrokeIndex) < 2 ^ 64;
  inv_total : total_length D.(KeyStrokesInfoList) <= D.(TotalKeyCodeBufferLength) < 2 ^ 62;
  inv_buffer b : D.(KeyCodeBuffer) = Some b -> total_length D.(KeyStrokesInfoList) <= Z.of_nat (length b)
}.

(** ** Lemmas: the aggregator *)
Lemma add_key_NoDup ks k : NoDup ks -> NoDup (add_key ks k).
Proof.
  intros. unfold add_key. case_decide; [done|]. apply NoDup_app. split_and!; [done| |].
  - intros x Hx. rewrite list_elem_of_singleton. by intros ->.
  - apply NoDup_singleton.
Qed.

Lemma foldl_add_NoDup l : forall ks, NoDup ks -> NoDup (foldl add_key ks l).
Proof. induction l as [|k l IH]; intros ks Hk; simpl; [done|]. apply IH. by apply add_key_NoDup. Qed.

Lemma foldl_add_elem l : forall ks k, k ∈ foldl add_key ks l <-> k ∈ ks \/ k ∈ l.
Proof.
  induction l as [|x l IH]; intros ks k; simpl.
  - rewrite elem_of_nil. tauto.
  - rewrite IH, elem_of_cons. unfold add_key. case_decide as Hx; [split; [tauto|]|].
    + intros [?|[->|?]]; tauto.
    + rewrite elem_of_app, list_elem_of_singleton. tauto.
Qed.

Lemma foldl_add_length l : forall ks,
  (length ks <= length (foldl add_key ks l) <= length ks + length l)%nat.
Proof.
  induction l as [|x l IH]; intros ks; simpl; [lia|]. specialize (IH (add_key ks x)).
  unfold add_key in *. case_decide; rewrite ?length_app in IH; simpl in *; lia.
Qed.

Lemma SearchKey_spec ks rest Key :
  exists j, SearchKey (ks ++ rest) (Z.of_nat (length ks)) Key = Ret j
    /\ (j = Z.of_nat (length ks) <-> Key ∉ ks).
Proof.
  unfold SearchKey.
  oc_while (fun j : Z => 0 <= j <= Z.of_nat (length ks) /\ Key ∉ take (Z.to_nat j) ks)
    (fun j : Z => Z.to_nat (Z.of_nat (length ks) - j))
    (fun j : Z => j = Z.of_nat (length ks) <-> Key ∉ ks) as r Hr.
  - intros j (Hj & Hnot). case_decide as Hlt.
    + destruct (lookup_lt_is_Some_2 ks (Z.to_nat j)) as [k Hk]; [lia|].
      rewrite (rd_lookup _ _ k) by (rewrite ?lookup_app_l; auto with lia). simpl.
      case_decide as Heq; eexists; (split; [done|]).
      * split; [lia|]. intros Hn. destruct Hn. subst k. by eapply list_elem_of_lookup_2.
      * split_and!; [lia|lia| |lia]. replace (Z.to_nat (j + 1)) with (S (Z.to_nat j)) by lia.
        rewrite (take_S_r _ _ k), elem_of_app by done.
        rewrite list_elem_of_singleton. intros [H| ->]; done.
    + eexists. split; [done|]. replace j with (Z.of_nat (length ks)) in * by lia.
      rewrite Nat2Z.id, take_ge in Hnot by done. done.
  - split; [lia|]. rewrite take_0. set_solver.
  - lia.
  - eauto.
Qed.

Lemma AddKey_spec Codes i ks rest Key :
  0 <= i -> Codes !! Z.to_nat i = Some Key ->
  AddKey Codes i (ks ++ rest, Z.of_nat (length ks)) =
  if decide (Key ∈ ks) then Ret (ks ++ rest, Z.of_nat (length ks))
  else match rest with
       | [] => Fault OutOfBounds
       | _ :: rest => Ret (add_key ks Key ++ rest, Z.of_nat (length (add_key ks Key)))
       end.
Proof.
  intros Hi HK. unfold AddKey. rewrite (rd_lookup _ _ Key) by done. simpl.
  destruct (SearchKey_spec ks rest Key) as (j & -> & Hj). simpl.
  destruct (decide (Key ∈ ks)) as [Hin|Hin]; [rewrite decide_False; [done|tauto]|].
  rewrite decide_True by tauto. unfold wr.
  destruct rest as [|x rest].
  - rewrite decide_False; [done|]. rewrite app_nil_r. lia.
  - rewrite decide_True by (rewrite length_app; simpl; lia). simpl. rewrite Nat2Z.id.
    rewrite insert_app_r_alt, Nat.sub_diag by lia. simpl.
    unfold add_key. rewrite decide_False by done. rewrite <- app_assoc, length_app. simpl. repeat f_equal. lia.
Qed.

Lemma AddKeys_spec Codes n ks rest :
  (n <= length Codes)%nat -> (n <= length rest)%nat ->
  exists rest', for_ n 0 (AddKey Codes) (ks ++ rest, Z.of_nat (length ks))
      = Ret (foldl add_key ks (take n Codes) ++ rest', Z.of_nat (length (foldl add_key ks (take n Codes))))
    /\ length (foldl add_key ks (take n Codes) ++ rest') = length (ks ++ rest).
Proof.
  intros Hn Hr.
  oc_for (fun j (St : list Z * Z) => exists rest',
      St = (foldl add_key ks (take (Z.to_nat j) Codes) ++ rest',
            Z.of_nat (length (foldl add_key ks (take (Z.to_nat j) Codes))))
      /\ length (foldl add_key ks (take (Z.to_nat j) Codes) ++ rest') = length (ks ++ rest)) as r H.
  - exists rest. done.
  - intros j St Hj (rest' & -> & Hlen).
    destruct (lookup_lt_is_Some_2 Codes (Z.to_nat j)) as [Key HK]; [lia|].
    rewrite (AddKey_spec _ _ _ _ Key) by (done || lia).
    replace (Z.to_nat (j + 1)) with (S (Z.to_nat j)) by lia.
    rewrite (take_S_r _ _ Key) by done. rewrite foldl_app. simpl.
    set (ks' := foldl add_key ks (take (Z.to_nat j) Codes)) in *.
    pose proof (foldl_add_length (take (Z.to_nat j) Codes) ks) as Hl.
    rewrite length_take in Hl. rewrite !length_app in Hlen.
    case_decide as Hin.
    + eexists. split; [done|]. exists rest'. unfold add_key. rewrite decide_True by done.
      rewrite !length_app. done.
    + destruct rest' as [|x rest']; [simpl in Hlen; subst ks'; lia|].
      eexists. split; [done|]. exists rest'. split; [done|]. unfold add_key. rewrite decide_False by done.
      rewrite !length_app. simpl in *. lia.
  - destruct H as (rest' & -> & Hlen). rewrite Z.add_0_l, Nat2Z.id in *. eauto.
Qed.

Lemma Collect_spec l : forall ks rest m,
  Forall info_ok l -> total_length l <= Z.of_nat (length rest) ->
  exists rest', Collect l (ks ++ rest, Z.of_nat (length ks), m)
      = Ret (foldl add_key ks (l ≫= active) ++ rest', Z.of_nat (length (foldl add_key ks (l ≫= active))),
             foldl (fun m i => Z.lor m i.(Modifiers)) m l)
    /\ length (foldl add_key ks (l ≫= active) ++ rest') = length (ks ++ rest).
Proof.
  induction l as [|i l IH]; intros ks rest m Hok Hlen; [exists rest; done|].
  apply Forall_cons in Hok as [[Hn Hc] Hok]. simpl in Hlen.
  assert (0 <= total_length l).
  { clear -Hok. induction Hok as [|i l [Hi _] _ IH]; simpl; [done|]. lia. }
  destruct (AddKeys_spec i.(KeyCodes) (Z.to_nat i.(NumberOfKeyCodes)) ks rest) as (rest1 & E1 & L1); [lia..|].
  rewrite bind_cons, foldl_app. change (active i) with (take (Z.to_nat i.(NumberOfKeyCodes)) i.(KeyCodes)).
  simpl Collect. rewrite E1. cbn [mbind outcome_bind].
  pose proof (foldl_add_length (take (Z.to_nat i.(NumberOfKeyCodes)) i.(KeyCodes)) ks) as Hl.
  rewrite length_take in Hl. rewrite !length_app in L1.
  destruct (IH (foldl add_key ks (take (Z.to_nat i.(NumberOfKeyCodes)) i.(KeyCodes))) rest1
              (Z.lor m i.(Modifiers))) as (rest2 & E2 & L2); [done|lia|].
  exists rest2. rewrite E2. split; [done|]. rewrite L2, !length_app. lia.
Qed.

Lemma Collect_null l : forall m,
  Forall info_ok l ->
  Collect l ([], 0, m) =
  if decide (l ≫= active = []) then Ret ([], 0, foldl (fun m i => Z.lor m i.(Modifiers)) m l)
  else Fault OutOfBounds.
Proof.
  induction l as [|i l IH]; intros m Hok; [done|].
  apply Forall_cons in Hok as [[Hn Hc] Hok]. rewrite bind_cons. simpl Collect.
  destruct (decide (i.(NumberOfKeyCodes) = 0)) as [E|E].
  - assert (active i = []) as -> by (unfold active; by rewrite E). rewrite E. simpl. by apply IH.
  - destruct (i.(KeyCodes)) as [|c cs] eqn:EC; [simpl in Hc; lia|].
    destruct (Z.to_nat i.(NumberOfKeyCodes)) as [|n] eqn:En; [lia|].
    unfold for_. fold (@for_ (list Z * Z)).
    pose proof (AddKey_spec (c :: cs) 0 [] [] c ltac:(lia) eq_refl) as HA.
    change (Z.of_nat (length [])) with 0 in HA. simpl app in HA. rewrite HA.
    rewrite decide_False by set_solver. simpl.
    assert (active i = c :: take n cs) as -> by (unfold active; by rewrite En, EC).
    by rewrite decide_False.
Qed.

Lemma total_length_nonneg l : Forall info_ok l -> 0 <= total_length l.
Proof. induction 1 as [|i l [Hi _] _ IH]; simpl; [done|]. lia. Qed.

Lemma pressed_keys_nil l : pressed_keys l = [] <-> l ≫= active = [].
Proof.
  unfold pressed_keys. split; [|by intros ->]. intros H. destruct (l ≫= active) as [|k t] eqn:E; [done|].
  assert (k ∈ foldl add_key [] (k :: t)) as Hk by (apply foldl_add_elem; set_solver).
  rewrite H in Hk. by apply not_elem_of_nil in Hk.
Qed.

(** The aggregator reports every pressed key once, in the order of the sets, and
    needs the buffer exactly when a key is pressed. *)
Lemma GetKeyStrokes_spec D Number Codes :
  Inv D -> fits Number Codes ->
  (D.(KeyCodeBuffer) = None -> pressed_keys D.(KeyStrokesInfoList) = []) ->
  exists D', InternalGetKeyStrokes D Number Codes =
      Ret (D', strokes_spec (pressed_keys D.(KeyStrokesInfoList))
                 (pressed_modifiers D.(KeyStrokesInfoList)) Number Codes)
    /\ Inv D' /\ D'.(KeyStrokesInfoList) = D.(KeyStrokesInfoList)
    /\ (D'.(KeyCodeBuffer) = None <-> D.(KeyCodeBuffer) = None)
    /\ D'.(NextKeyStrokeIndex) = D.(NextKeyStrokeIndex)
    /\ D'.(TotalKeyCodeBufferLength) = D.(TotalKeyCodeBufferLength).
Proof.
  intros HI [HN HC] Hnull. unfold InternalGetKeyStrokes.
  assert (exists Buffer, Collect D.(KeyStrokesInfoList) (default [] D.(KeyCodeBuffer), 0, 0)
      = Ret (pressed_keys D.(KeyStrokesInfoList) ++ Buffer,
             Z.of_nat (length (pressed_keys D.(KeyStrokesInfoList))),
             pressed_modifiers D.(KeyStrokesInfoList))
      /\ length (pressed_keys D.(KeyStrokesInfoList) ++ Buffer) = length (default [] D.(KeyCodeBuffer)))
    as (Buffer & -> & HL).
  { destruct (D.(KeyCodeBuffer)) as [b|] eqn:Eb.
    - destruct (Collect_spec D.(KeyStrokesInfoList) [] b 0) as (rest & E & L);
        [apply HI|by apply HI|]. exists rest. done.
    - rewrite pressed_keys_nil in Hnull. exists []. simpl. rewrite Collect_null by apply HI.
      rewrite decide_True by auto. unfold pressed_keys. rewrite Hnull by done. done. }
  cbn [mbind outcome_bind]. cbv zeta.
  set (ks := pressed_keys D.(KeyStrokesInfoList)) in *.
  assert (Inv {| NextKeyStrokeIndex := D.(NextKeyStrokeIndex);
                 KeyCodeBuffer := (fun _ => ks ++ Buffer) <$> D.(KeyCodeBuffer);
                 TotalKeyCodeBufferLength := D.(TotalKeyCodeBufferLength);
                 KeyStrokesInfoList := D.(KeyStrokesInfoList) |}) as HI'.
  { destruct HI. constructor; simpl; try done. intros b.
    destruct (D.(KeyCodeBuffer)) as [b0|] eqn:Eb; [|done]. intros [= <-]. rewrite HL. simpl. auto. }
  unfold strokes_spec. destruct (decide (Z.of_nat (length ks) <= Number)) as [Hle|Hgt].
  - rewrite decide_False by lia. destruct Codes as [Dst|].
    + rewrite CopyMem_in by (rewrite ?length_app; specialize (HC _ eq_refl); lia).
      cbn [mbind outcome_bind]. unfold slice. rewrite Nat2Z.id. change (Z.to_nat 0) with 0%nat.
      rewrite drop_0, take_app_length.
      eexists. split; [done|]. split_and!; [done|done| |done|done]. simpl. by destruct (D.(KeyCodeBuffer)).
    + eexists. split; [done|]. split_and!; [done|done| |done|done]. simpl. by destruct (D.(KeyCodeBuffer)).
  - rewrite decide_True by lia. eexists. split; [done|]. split_and!; [done|done| |done|done].
    simpl. by destruct (D.(KeyCodeBuffer)).
Qed.

Lemma GetKeyStrokes_null_spec D Number Codes :
  Inv D -> D.(KeyCodeBuffer) = None -> pressed_keys D.(KeyStrokesInfoList) ≠ [] ->
  InternalGetKeyStrokes D Number Codes = Fault OutOfBounds.
Proof.
  intros HI HB HP. unfold InternalGetKeyStrokes. rewrite HB. simpl default.
  rewrite Collect_null by apply HI. rewrite decide_False; [done|]. by rewrite <- pressed_keys_nil.
Qed.

(** The database implements the interface of its clients. *)
#[export] Instance key_map_aggregator : KeyMapAggregator KEY_MAP_AGGREGATOR_DATA := InternalGetKeyStrokes.

#[export, program] Instance key_map_laws : KeyMapAggregatorLaws KEY_MAP_AGGREGATOR_DATA := {|
  ready D := Inv D /\ (D.(KeyCodeBuffer) = None -> pressed_keys D.(KeyStrokesInfoList) = []);
  pressed D := pressed_keys D.(KeyStrokesInfoList);
  modifiers D := pressed_modifiers D.(KeyStrokesInfoList)
|}.
Next Obligation. intros D _. apply foldl_add_NoDup, NoDup_nil_2. Qed.
Next Obligation.
  intros D Number Codes [HI HB] HF.
  destruct (GetKeyStrokes_spec D Number Codes HI HF HB) as (D' & E & HI' & EL & Eb & _).
  exists D'. rewrite EL. split; [done|]. split; [|done]. split; [done|]. tauto.
Qed.

(** ** Lemmas: the database *)
Lemma FindIndex_Some l i p :
  FindIndex l i = Some p -> exists info, l !! p = Some info /\ info.(Index) = i.
Proof.
  revert p. induction l as [|x l IH]; intros p; simpl; [done|].
  case_decide as Hx; [intros [= <-]; eauto|].
  destruct (FindIndex l i) as [q|]; [|done]. intros [= <-]. by apply IH.
Qed.

Lemma FindIndex_None l i : FindIndex l i = None <-> i ∉ (Index <$> l).
Proof.
  induction l as [|x l IH]; simpl; [split; [intros _; apply not_elem_of_nil|done]|].
  rewrite not_elem_of_cons. case_decide as Hx; [split; [done|intros [H _]; by destruct H]|].
  destruct (FindIndex l i) as [q|]; simpl; split; try done.
  - intros [_ H]. by rewrite <- IH in H.
  - intros _. split; [congruence|by apply IH].
Qed.

Lemma FindIndex_lookup l p info :
  NoDup (Index <$> l) -> l !! p = Some info -> FindIndex l info.(Index) = Some p.
Proof.
  revert p. induction l as [|x l IH]; intros p Hn Hp; [done|]. simpl.
  apply NoDup_cons in Hn as [Hx Hn]. destruct p as [|p]; simpl in Hp.
  - simplify_eq. by rewrite decide_True.
  - rewrite decide_False; [by rewrite (IH p)|]. intros E. apply Hx. rewrite E.
    apply list_elem_of_fmap_2. by eapply list_elem_of_lookup_2.
Qed.

Lemma total_length_app l1 l2 : total_length (l1 ++ l2) = total_length l1 + total_length l2.
Proof. induction l1 as [|i l IH]; simpl; [done|]. lia. Qed.

(** The set that a position refers to, with the sets before and after it. *)
Lemma info_split l p (info : APPLE_KEY_STROKES_INFO) :
  l !! p = Some info -> exists l1 l2, l = l1 ++ info :: l2 /\ length l1 = p.
Proof. intros H. exists (take p l), (drop (S p) l). split; [by rewrite take_drop_middle|]. apply length_take_le. apply lookup_lt_Some in H. lia. Qed.

Lemma insert_mid {X} (l1 l2 : list X) x y : <[length l1 := y]> (l1 ++ x :: l2) = l1 ++ y :: l2.
Proof. rewrite insert_app_r_alt by lia. by rewrite Nat.sub_diag. Qed.

(** What the calls of the database require of their arguments: lengths that the
    64-bit size computations can represent. *)
Definition create_args (D : KEY_MAP_AGGREGATOR_DATA) (n : Z) : Prop :=
  0 <= n /\ D.(TotalKeyCodeBufferLength) + n < 2 ^ 62 /\ D.(NextKeyStrokeIndex) < 2 ^ 64 - 1.

Lemma Create_spec G D n :
  Inv D -> create_args D n ->
  exists D' st i, InternalCreateKeyStrokesBuffer G D n = Ret (D', st, i) /\ Inv D'
    /\ match i with
       | Some i =>
           st = EFI_SUCCESS /\ i = D.(NextKeyStrokeIndex) /\ D'.(KeyCodeBuffer) ≠ None
           /\ D'.(TotalKeyCodeBufferLength) = D.(TotalKeyCodeBufferLength) + n
           /\ D'.(KeyStrokesInfoList) = D.(KeyStrokesInfoList) ++
                [{| Index := i; KeyCodeBufferLength := n; NumberOfKeyCodes := 0; Modifiers := 0;
                    KeyCodes := replicate (Z.to_nat n) 0 |}]
       | None => st = EFI_OUT_OF_RESOURCES /\ D'.(KeyStrokesInfoList) = D.(KeyStrokesInfoList)
       end
    /\ (i = None <-> G 0%nat (2 * (D.(TotalKeyCodeBufferLength) + n)) = false
                     \/ G 1%nat (50 + 2 * n) = false).
Proof.
  intros [Hinf Huniq Hfresh Hnext Htot Hbuf] (Hn & Hs & Hi).
  pose proof (total_length_nonneg _ Hinf) as H0.
  unfold InternalCreateKeyStrokesBuffer. cbv zeta. unfold SIZE_OF_APPLE_KEY_STROKES_INFO.
  rewrite (wrap_small 64 (D.(TotalKeyCodeBufferLength) + n)) by lia.
  rewrite (wrap_small 64 ((D.(TotalKeyCodeBufferLength) + n) * 2)) by lia.
  rewrite (wrap_small 64 (n * 2)) by lia. rewrite (wrap_small 64 (50 + n * 2)) by lia.
  rewrite (Z.mul_comm 2 (D.(TotalKeyCodeBufferLength) + n)), (Z.mul_comm 2 n).
  rewrite !Z.div_mul by lia. rewrite Z.add_simpl_l, Z.div_mul by lia.
  destruct (G 0%nat ((D.(TotalKeyCodeBufferLength) + n) * 2)).
  - destruct (G 1%nat (50 + n * 2)).
    + rewrite decide_True by lia. eexists _, _, _. split; [done|]. split; [|split; [done|]; intuition done].
      constructor; simpl.
      * apply Forall_app. split; [done|]. apply Forall_singleton. split; simpl; rewrite ?length_replicate; lia.
      * rewrite fmap_app. apply NoDup_app. split_and!; [done| |apply NoDup_singleton].
        intros x Hx. simpl. rewrite list_elem_of_singleton. intros ->.
        apply list_elem_of_fmap in Hx as (j & Ej & Hj). rewrite Forall_forall in Hfresh. specialize (Hfresh j Hj). lia.
      * rewrite wrap_small by lia. apply Forall_app. split; [|apply Forall_singleton; simpl; lia].
        eapply Forall_impl; [exact Hfresh|]. simpl. lia.
      * rewrite wrap_small by lia. lia.
      * rewrite total_length_app. simpl. lia.
      * intros b [= <-]. rewrite total_length_app, length_replicate. simpl. lia.
    + eexists _, _, _. split; [done|]. split; [|split; [done|]; intuition done].
      constructor; simpl; try done; [lia|]. intros b [= <-]. rewrite length_replicate. lia.
  - eexists _, _, _. split; [done|]. split; [|split; [done|]; intuition done].
    constructor; simpl; try done. lia.
Qed.

Lemma Remove_spec D l1 info l2 :
  Inv D -> D.(KeyStrokesInfoList) = l1 ++ info :: l2 ->
  exists D', InternalRemoveKeyStrokesBuffer D info.(Index) = (D', EFI_SUCCESS) /\ Inv D'
    /\ D'.(KeyStrokesInfoList) = l1 ++ l2 /\ D'.(KeyCodeBuffer) = D.(KeyCodeBuffer)
    /\ D'.(TotalKeyCodeBufferLength) = D.(TotalKeyCodeBufferLength) - info.(KeyCodeBufferLength).
Proof.
  intros [Hinf Huniq Hfresh Hnext Htot Hbuf] El.
  assert (D.(KeyStrokesInfoList) !! length l1 = Some info) as Hp by (rewrite El; by apply list_lookup_middle).
  unfold InternalRemoveKeyStrokesBuffer, InternalGetKeyStrokesByIndex.
  rewrite (FindIndex_lookup _ (length l1) info) by done. simpl. rewrite Hp. simpl.
  rewrite El in *. rewrite delete_middle.
  apply Forall_app in Hinf as [Hi1 [Hi Hi2]%Forall_cons]. destruct Hi as [Hi Hic].
  rewrite fmap_app, fmap_cons in Huniq. apply Forall_app in Hfresh as [Hf1 [_ Hf2]%Forall_cons].
  rewrite total_length_app in Htot, Hbuf. simpl in Htot, Hbuf.
  pose proof (total_length_nonneg _ Hi1). pose proof (total_length_nonneg _ Hi2).
  eexists. split; [done|]. rewrite wrap_small by lia. split; [|done].
  constructor; simpl; rewrite ?total_length_app.
  - by apply Forall_app.
  - rewrite fmap_app. apply NoDup_app in Huniq as (H1 & H2 & H3). apply NoDup_cons in H3 as [H3 H4].
    apply NoDup_app. split_and!; [done| |done]. intros x Hx Hx2. apply (H2 x Hx). by apply elem_of_cons; right.
  - by apply Forall_app.
  - done.
  - lia.
  - intros b Hb. specialize (Hbuf b Hb). lia.
Qed.

Lemma Set_spec D l1 info l2 Mods Number Codes :
  Inv D -> D.(KeyStrokesInfoList) = l1 ++ info :: l2 ->
  0 <= Number <= Z.of_nat (length Codes) ->
  if decide (Number <= info.(KeyCodeBufferLength)) then
    exists D' info', InternalSetKeyStrokeBufferKeys D info.(Index) Mods Number Codes = Ret (D', EFI_SUCCESS)
      /\ Inv D' /\ D'.(KeyStrokesInfoList) = l1 ++ info' :: l2
      /\ info'.(Index) = info.(Index) /\ info'.(KeyCodeBufferLength) = info.(KeyCodeBufferLength)
      /\ info'.(Modifiers) = Mods /\ active info' = take (Z.to_nat Number) Codes
      /\ D'.(KeyCodeBuffer) = D.(KeyCodeBuffer)
      /\ D'.(TotalKeyCodeBufferLength) = D.(TotalKeyCodeBufferLength)
  else InternalSetKeyStrokeBufferKeys D info.(Index) Mods Number Codes = Ret (D, EFI_OUT_OF_RESOURCES).
Proof.
  intros [Hinf Huniq Hfresh Hnext Htot Hbuf] El HN.
  assert (D.(KeyStrokesInfoList) !! length l1 = Some info) as Hp by (rewrite El; by apply list_lookup_middle).
  unfold InternalSetKeyStrokeBufferKeys, InternalGetKeyStrokesByIndex.
  rewrite (FindIndex_lookup _ (length l1) info) by done. simpl. rewrite Hp. simpl.
  destruct (decide (Number <= info.(KeyCodeBufferLength))) as [Hle|Hgt]; [|by rewrite decide_False by lia].
  rewrite decide_True by lia.
  rewrite El in *.
  apply Forall_app in Hinf as [Hi1 [Hi Hi2]%Forall_cons]. destruct Hi as [Hi Hic].
  apply Forall_app in Hfresh as [Hf1 [Hf Hf2]%Forall_cons].
  rewrite CopyMem_in by lia. cbn [mbind outcome_bind]. cbv zeta. rewrite insert_mid.
  eexists _, _. split; [done|]. split; [|split; [done|]; simpl; split_and!; try done].
  - constructor; simpl.
    + apply Forall_app. split; [done|]. apply Forall_cons. split; [|done].
      split; simpl; [lia|]. by rewrite length_inserts.
    + rewrite fmap_app, fmap_cons in *. done.
    + apply Forall_app. split; [done|]. by apply Forall_cons.
    + done.
    + rewrite total_length_app in *. done.
    + intros b Hb. specialize (Hbuf b Hb). rewrite total_length_app in *. done.
  - unfold active, slice. simpl. change (Z.to_nat 0) with 0%nat. rewrite drop_0.
    apply list_eq. intros i. destruct (decide (i < Z.to_nat Number)%nat).
    + rewrite lookup_take_lt by done. rewrite lookup_inserts by (rewrite length_take; lia).
      rewrite decide_True by (rewrite length_take; lia). by rewrite Nat.sub_0_r.
    + by rewrite !lookup_take_ge by lia.
Qed.

(** ** Runs of the database *)
Inductive step : KEY_MAP_AGGREGATOR_DATA -> KEY_MAP_AGGREGATOR_DATA -> Prop :=
| step_create G D n D' st i :
    create_args D n -> InternalCreateKeyStrokesBuffer G D n = Ret (D', st, i) -> step D D'
| step_remove D i D' st :
    InternalRemoveKeyStrokesBuffer D i = (D', st) -> step D D'
| step_set D i Mods Number Codes D' st :
    0 <= Number <= Z.of_nat (length Codes) ->
    InternalSetKeyStrokeBufferKeys D i Mods Number Codes = Ret (D', st) -> step D D'
| step_get D Number Codes D' r :
    fits Number Codes -> InternalGetKeyStrokes D Number Codes = Ret (D', r) -> step D D'.

Lemma Remove_missing D i :
  FindIndex D.(KeyStrokesInfoList) i = None -> InternalRemoveKeyStrokesBuffer D i = (D, EFI_NOT_FOUND).
Proof. unfold InternalRemoveKeyStrokesBuffer, InternalGetKeyStrokesByIndex. by intros ->. Qed.

Lemma Set_missing D i Mods Number Codes :
  FindIndex D.(KeyStrokesInfoList) i = None ->
  InternalSetKeyStrokeBufferKeys D i Mods Number Codes = Ret (D, EFI_NOT_FOUND).
Proof. unfold InternalSetKeyStrokeBufferKeys, InternalGetKeyStrokesByIndex. by intros ->. Qed.

(** An index either names no set, or exactly one position. *)
Lemma FindIndex_cases l i :
  FindIndex l i = None \/ exists l1 info l2, l = l1 ++ info :: l2 /\ info.(Index) = i.
Proof.
  destruct (FindIndex l i) as [p|] eqn:E; [right|by left].
  apply FindIndex_Some in E as (info & Hp & Hi). apply info_split in Hp as (l1 & l2 & -> & _). eauto.
Qed.

Lemma Set_total D i Mods Number Codes :
  Inv D -> 0 <= Number <= Z.of_nat (length Codes) ->
  exists D' st, InternalSetKeyStrokeBufferKeys D i Mods Number Codes = Ret (D', st) /\ Inv D'.
Proof.
  intros HI HN. destruct (FindIndex_cases D.(KeyStrokesInfoList) i) as [E|(l1 & info & l2 & El & <-)].
  - rewrite Set_missing by done. eauto.
  - pose proof (Set_spec D l1 info l2 Mods Number Codes HI El HN) as H.
    case_decide; [|rewrite H; eauto]. destruct H as (D' & info' & -> & HI' & _). eauto.
Qed.

Lemma step_Inv D D' : Inv D -> step D D' -> Inv D'.
Proof.
  intros HI. destruct 1 as [G D n D' st i HA E|D i D' st E|D i Mods Number Codes D' st HN E|D Number Codes D' r HF E].
  - destruct (Create_spec G D n HI HA) as (D1 & st1 & i1 & E1 & H1 & _). rewrite E1 in E. by simplify_eq.
  - destruct (FindIndex_cases D.(KeyStrokesInfoList) i) as [E1|(l1 & info & l2 & El & <-)].
    + rewrite Remove_missing in E by done. by simplify_eq.
    + destruct (Remove_spec D l1 info l2 HI El) as (D1 & E1 & H1 & _). rewrite E1 in E. by simplify_eq.
  - destruct (Set_total D i Mods Number Codes HI HN) as (D1 & st1 & E1 & H1). rewrite E1 in E. by simplify_eq.
  - destruct (decide (D.(KeyCodeBuffer) = None /\ pressed_keys D.(KeyStrokesInfoList) ≠ [])) as [[H1 H2]|H].
    + by rewrite GetKeyStrokes_null_spec in E.
    + destruct (GetKeyStrokes_spec D Number Codes HI HF) as (D1 & E1 & H1 & _); [|rewrite E1 in E; by simplify_eq].
      intros HN. destruct (decide (pressed_keys D.(KeyStrokesInfoList) = [])); [done|]. by destruct H.
Qed.

Lemma InitialData_Inv : Inv InitialData.
Proof.
  constructor; simpl; try done; apply NoDup_nil_2.
Qed.

Lemma reachable_Inv D : rtc step InitialData D -> Inv D.
Proof.
  assert (forall D0, Inv D0 -> rtc step D0 D -> Inv D) as H; [|apply H, InitialData_Inv].
  intros D0 H0. induction 1 as [|x y z Hxy _ IH]; [done|]. apply IH. by apply (step_Inv x).
Qed.

(** ** Lemmas: the clients *)
Lemma HasKeysInner_spec Keys NumKeys CheckKey :
  0 <= NumKeys <= Z.of_nat (length Keys) ->
  exists i, HasKeysInner Keys NumKeys CheckKey = Ret i
    /\ (NumKeys = i <-> CheckKey ∉ take (Z.to_nat NumKeys) Keys).
Proof.
  intros HN. unfold HasKeysInner.
  oc_while (fun j : Z => 0 <= j <= NumKeys /\ CheckKey ∉ take (Z.to_nat j) Keys)
    (fun j : Z => Z.to_nat (NumKeys - j))
    (fun j : Z => NumKeys = j <-> CheckKey ∉ take (Z.to_nat NumKeys) Keys) as r Hr.
  - intros j (Hj & Hnot). case_decide as Hlt.
    + destruct (lookup_lt_is_Some_2 Keys (Z.to_nat j)) as [k Hk]; [lia|].
      rewrite (rd_lookup _ _ k) by (done || lia). simpl.
      case_decide as Heq; eexists; (split; [done|]).
      * split; [lia|]. intros Hn. destruct Hn. subst k. apply list_elem_of_lookup. exists (Z.to_nat j).
        rewrite lookup_take_lt by lia. done.
      * split_and!; [lia|lia| |lia]. replace (Z.to_nat (j + 1)) with (S (Z.to_nat j)) by lia.
        rewrite (take_S_r _ _ k), elem_of_app by done.
        rewrite list_elem_of_singleton. intros [H| H]; done.
    + eexists. split; [done|]. replace j with NumKeys in * by lia. done.
  - split; [lia|]. rewrite take_0. apply not_elem_of_nil.
  - lia.
  - eauto.
Qed.

Lemma HasKeys_spec Keys NumKeys CheckKeys NumCheckKeys (ExactMatch : bool) :
  0 <= NumKeys <= Z.of_nat (length Keys) -> 0 <= NumCheckKeys <= Z.of_nat (length CheckKeys) ->
  OcKeyMapHasKeys Keys NumKeys CheckKeys NumCheckKeys ExactMatch =
  Ret (bool_decide ((ExactMatch = true -> NumKeys = NumCheckKeys)
        /\ Forall (.∈ take (Z.to_nat NumKeys) Keys) (take (Z.to_nat NumCheckKeys) CheckKeys))).
Proof.
  intros HN HC. unfold OcKeyMapHasKeys. case_match eqn:E.
  - apply andb_true_iff in E as [-> E%bool_decide_eq_true]. rewrite bool_decide_eq_false_2; [done|].
    intros [H _]. by apply E, H.
  - oc_while (fun j : Z => 0 <= j <= NumCheckKeys /\
        Forall (.∈ take (Z.to_nat NumKeys) Keys) (take (Z.to_nat j) CheckKeys))
      (fun j : Z => Z.to_nat (NumCheckKeys - j))
      (fun r : bool => r = bool_decide (Forall (.∈ take (Z.to_nat NumKeys) Keys) (take (Z.to_nat NumCheckKeys) CheckKeys)))
      as r Hr.
    + intros j (Hj & Hall). destruct (decide (j < NumCheckKeys)) as [Hlt|Hlt].
      * destruct (lookup_lt_is_Some_2 CheckKeys (Z.to_nat j)) as [k Hk]; [lia|].
        rewrite (rd_lookup _ _ k) by (done || lia). simpl.
        destruct (HasKeysInner_spec Keys NumKeys k HN) as (i & -> & Hi). simpl.
        destruct (decide (NumKeys = i)) as [Heq|Heq]; eexists; (split; [done|]).
        -- symmetry. apply bool_decide_eq_false. rewrite Forall_forall. intros Hf. apply Hi; [done|].
           apply Hf. apply list_elem_of_lookup. exists (Z.to_nat j). rewrite lookup_take_lt by lia. done.
        -- split; [split; [lia|]|lia]. replace (Z.to_nat (j + 1)) with (S (Z.to_nat j)) by lia.
           rewrite (take_S_r _ _ k) by done. apply Forall_app. split; [done|].
           apply Forall_singleton. destruct (decide (k ∈ take (Z.to_nat NumKeys) Keys)); [done|tauto].
      * eexists. split; [done|]. symmetry. apply bool_decide_eq_true. by replace NumCheckKeys with j by lia.
    + split; [lia|]. by rewrite take_0.
    + lia.
    + rewrite Hr. f_equal. apply bool_decide_ext.
      apply andb_false_iff in E as [->|E%bool_decide_eq_false]; [intuition done|].
      apply dec_stable in E. intuition done.
Qed.

Section ClientProofs.
Context {St : Type} {A : KeyMapAggregator St} {L : KeyMapAggregatorLaws St} (Stack : list Z).
Hypothesis HStack : length Stack = 8%nat.

(** One call of a client with a stack buffer for eight keys. *)
Lemma Get_eight s :
  ready s -> exists s' r, GetKeyStrokes s 8 (Some Stack) = Ret (s', r)
    /\ ready s' /\ pressed s' = pressed s /\ modifiers s' = modifiers s
    /\ (if decide (length (pressed s) <= 8)%nat
        then r.(Status) = EFI_SUCCESS /\ r.(OutModifiers) = Some (modifiers s)
             /\ r.(OutNumber) = Z.of_nat (length (pressed s))
             /\ exists Keys, r.(OutKeyCodes) = Some Keys /\ length Keys = 8%nat
                  /\ take (length (pressed s)) Keys = pressed s
        else r.(Status) = EFI_BUFFER_TOO_SMALL /\ r.(OutModifiers) = None).
Proof.
  intros Hs. destruct (GetKeyStrokes_law s 8 (Some Stack) Hs) as (s' & E & H1 & H2 & H3).
  { split; [lia|]. intros b [= <-]. lia. }
  exists s', (strokes_spec (pressed s) (modifiers s) 8 (Some Stack)). split_and!; try done.
  unfold strokes_spec. destruct (decide (length (pressed s) <= 8)%nat); [|by rewrite decide_False by lia].
  rewrite decide_True by lia. simpl. split_and!; try done. eexists. split; [done|].
  split; [by rewrite length_inserts|]. apply list_eq. intros i.
  destruct (decide (i < length (pressed s))%nat).
  - rewrite lookup_take_lt by done. rewrite lookup_inserts by lia. rewrite decide_True by lia. by rewrite Nat.sub_0_r.
  - rewrite lookup_take_ge by lia. symmetry. apply lookup_ge_None. lia.
Qed.

Definition contains_status (keys : list Z) (mods Mods Number : Z) (Codes : list Z) (ExactMatch : bool) : EFI_STATUS :=
  if decide (length keys <= 8)%nat then
    if (if ExactMatch then bool_decide (mods ≠ Mods) else bool_decide (Z.land mods Mods ≠ Mods))
    then EFI_SUCCESS
    else if decide ((ExactMatch = true -> Z.of_nat (length keys) = Number)
                    /\ Forall (.∈ keys) (take (Z.to_nat Number) Codes))
    then EFI_SUCCESS else EFI_NOT_FOUND
  else EFI_BUFFER_TOO_SMALL.

Lemma Contains_spec s Mods Number Codes ExactMatch :
  ready s -> 0 <= Number <= Z.of_nat (length Codes) ->
  exists s', InternalContainsKeyStrokes Stack s Mods Number Codes ExactMatch
      = Ret (s', contains_status (pressed s) (modifiers s) Mods Number Codes ExactMatch)
    /\ ready s' /\ pressed s' = pressed s /\ modifiers s' = modifiers s.
Proof using HStack.
  intros Hs HN. destruct (Get_eight s Hs) as (s' & r & E & H1 & H2 & H3 & H).
  exists s'. split; [|done]. unfold InternalContainsKeyStrokes, contains_status. rewrite E. cbn [mbind outcome_bind].
  destruct (decide (length (pressed s) <= 8)%nat); [|by destruct H as [-> _]].
  destruct H as (-> & -> & -> & Keys & -> & HK & HT). change (EFI_ERROR EFI_SUCCESS) with false. simpl default. cbv zeta.
  destruct (if ExactMatch then _ else _); [done|]. rewrite HasKeys_spec by lia. cbn [mbind outcome_bind]. rewrite Nat2Z.id, HT.
  case_bool_decide; case_decide; done.
Qed.

Context {P : Platform St}.
Hypothesis Delay_ready : forall s, ready s -> ready (MicroSecondDelay s).

(** The state at the [k]-th poll of [OcKeyMapFlush]. *)
Fixpoint polls (k : nat) (s : St) : outcome St :=
  match k with
  | O => Ret s
  | S k => '(s, _) ← GetKeyStrokes s OC_KEY_MAP_DEFAULT_SIZE (Some Stack); polls k (MicroSecondDelay s)
  end.

(** The awaited key (or, for 0, every key) and all modifiers are up. *)
Definition released (Key : Z) (s : St) : Prop :=
  modifiers s = 0 /\ (if decide (Key = 0) then pressed s = [] else Key ∉ pressed s).
(** [GetKeyStrokes] fails as the buffer of [OcKeyMapFlush] is too small. *)
Definition overfull (s : St) : Prop := (8 < length (pressed s))%nat.
(** The polls that end the wait. *)
Definition ends_wait (Key : Z) (s : St) : Prop := overfull s \/ released Key s.

Lemma FlushStep_spec Key s :
  ready s -> exists s', (exists r, GetKeyStrokes s OC_KEY_MAP_DEFAULT_SIZE (Some Stack) = Ret (s', r))
    /\ ready s' /\ pressed s' = pressed s /\ modifiers s' = modifiers s
    /\ ((ends_wait Key s /\ FlushStep Stack Key s = Ret (inr s'))
        \/ (~ ends_wait Key s /\ FlushStep Stack Key s = Ret (inl (MicroSecondDelay s')))).
Proof using HStack.
  intros Hs. destruct (Get_eight s Hs) as (s' & r & E & H1 & H2 & H3 & H).
  exists s'. split; [eauto|]. split_and!; [done..|]. unfold FlushStep, ends_wait, overfull, released.
  change OC_KEY_MAP_DEFAULT_SIZE with 8. rewrite E. cbn [mbind outcome_bind].
  destruct (decide (length (pressed s) <= 8)%nat); [|left; destruct H as [-> _]; split; [left; lia|done]].
  destruct H as (-> & -> & -> & Keys & -> & HK & HT). change (EFI_ERROR EFI_SUCCESS) with false. simpl default. cbv zeta.
  destruct (decide (Key = 0)) as [->|HKey].
  - rewrite decide_False by (intros Hc; by apply Hc). cbn [mbind outcome_bind]. simpl.
    destruct (pressed s) as [|k ks]; simpl.
    + destruct (decide (modifiers s = 0)).
      * rewrite bool_decide_true by done. left. split; [right; done|done].
      * rewrite bool_decide_false by done. right. split; [|done]. intros [?|[??]]; [lia|done].
    + right. split; [|done]. intros [?|[??]]; [simpl in *; lia|done].
  - rewrite decide_True by done. unfold OcKeyMapHasKey. rewrite HasKeys_spec by (simpl; lia).
    cbn [mbind outcome_bind]. rewrite Nat2Z.id, HT.
    change (take (Z.to_nat 1) [Key]) with [Key].
    rewrite (bool_decide_true (Key ≠ 0)) by done. rewrite (bool_decide_false (Key = 0)) by done. simpl.
    destruct (decide (Key ∈ pressed s)) as [Hin|Hin].
    + rewrite bool_decide_true by (split; [done|by apply Forall_singleton]). simpl.
      right. split; [|done]. intros [?|[??]]; [lia|done].
    + rewrite bool_decide_false by (rewrite Forall_singleton; tauto). simpl.
      destruct (decide (modifiers s = 0)).
      * rewrite bool_decide_true by done. left. split; [right; done|done].
      * rewrite bool_decide_false by done. right. split; [|done]. intros [?|[??]]; [lia|done].
Qed.

Lemma Flush_stops Key k : forall s sk,
  ready s -> polls k s = Ret sk -> ends_wait Key sk -> forall fuel, (k < fuel)%nat ->
  exists j sj s', (j <= k)%nat /\ polls j s = Ret sj /\ ends_wait Key sj
    /\ (forall i si, (i < j)%nat -> polls i s = Ret si -> ~ ends_wait Key si)
    /\ pressed s' = pressed sj /\ modifiers s' = modifiers sj
    /\ while_ fuel (FlushStep Stack Key) s = Ret s'.
Proof using HStack Delay_ready.
  induction k as [|k IH]; intros s sk Hs Hk Hr fuel Hf; (destruct fuel as [|fuel]; [lia|]); rewrite while_S;
    destruct (FlushStep_spec Key s Hs) as (s' & (r & Er) & H1 & H2 & H3 & [[Hd ->]|[Hd ->]]); cbn [mbind outcome_bind].
  - exists O, s, s'. split_and!; try done. lia.
  - by simplify_eq/=.
  - exists O, s, s'. split_and!; try done; lia.
  - simpl in Hk. rewrite Er in Hk. simpl in Hk.
    destruct (IH _ sk (Delay_ready _ H1) Hk Hr fuel) as (j & sj & s2 & Hj & Hp & Hrel & Hfirst & Hrest); [lia|].
    exists (S j), sj, s2. split; [lia|]. split; [simpl; by rewrite Er|]. split; [done|]. split; [|done].
    intros [|i] si Hi; simpl; [by intros [= <-]|]. rewrite Er. simpl. apply Hfirst. lia.
Qed.

Lemma Flush_waits Key fuel : forall s,
  ready s -> (forall k sk, (k < fuel)%nat -> polls k s = Ret sk -> ~ ends_wait Key sk) ->
  while_ fuel (FlushStep Stack Key) s = Fault OutOfFuel.
Proof using HStack Delay_ready.
  induction fuel as [|fuel IH]; intros s Hs Hk; [done|]. rewrite while_S.
  destruct (FlushStep_spec Key s Hs) as (s' & (r & Er) & H1 & H2 & H3 & [[Hd ->]|[Hd ->]]); cbn [mbind outcome_bind].
  - destruct (Hk O s); [lia|done|done].
  - apply IH; [by apply Delay_ready|]. intros k sk Hlt Hp. apply (Hk (S k)); [lia|]. simpl. by rewrite Er.
Qed.

End ClientProofs.

(** ** Properties *)

(** C14: In every state that the database protocol can reach, whatever the
    allocator grants, the key sets are well formed: indices are unique and below
    the next one, every set holds at most as many keys as it was created for,
    and the recorded length covers all sets. Creating and filling a set never
    faults, and [GetKeyStrokes] reports every pressed key once, in the order of
    the sets, with the union of the modifiers, or the required number of keys
    with EFI_BUFFER_TOO_SMALL; it accesses the NULL pointer exactly when the
    common buffer is missing while a key is pressed. *)
Theorem Database_invariant D :
  rtc step InitialData D ->
  Inv D
  /\ (forall G n, create_args D n -> exists r, InternalCreateKeyStrokesBuffer G D n = Ret r)
  /\ (forall i Mods Number Codes, 0 <= Number <= Z.of_nat (length Codes) ->
        exists r, InternalSetKeyStrokeBufferKeys D i Mods Number Codes = Ret r)
  /\ (forall Number Codes, fits Number Codes ->
        if decide (D.(KeyCodeBuffer) = None /\ pressed_keys D.(KeyStrokesInfoList) ≠ [])
        then InternalGetKeyStrokes D Number Codes = Fault OutOfBounds
        else exists D', InternalGetKeyStrokes D Number Codes =
               Ret (D', strokes_spec (pressed_keys D.(KeyStrokesInfoList))
                          (pressed_modifiers D.(KeyStrokesInfoList)) Number Codes)
             /\ D'.(KeyStrokesInfoList) = D.(KeyStrokesInfoList)).
Proof.
  intros HD%reachable_Inv. split_and!; [done| | |].
  - intros G n HA. destruct (Create_spec G D n HD HA) as (D' & st & i & E & _). eauto.
  - intros i Mods Number Codes HN. destruct (Set_total D i Mods Number Codes HD HN) as (D' & st & E & _). eauto.
  - intros Number Codes HF. case_decide as H; [destruct H; by apply GetKeyStrokes_null_spec|].
    destruct (GetKeyStrokes_spec D Number Codes HD HF) as (D' & E & _ & El & _); [|eauto].
    intros HN. destruct (decide (pressed_keys D.(KeyStrokesInfoList) = [])); [done|]. by destruct H.
Qed.

(** Two keys of one set, pressed with a modifier. *)
Definition demo_created : KEY_MAP_AGGREGATOR_DATA :=
  match InternalCreateKeyStrokesBuffer (fun _ _ => true) InitialData 2 with
  | Ret (D, _, _) => D | Fault _ => InitialData
  end.
Definition demo_pressed : KEY_MAP_AGGREGATOR_DATA :=
  match InternalSetKeyStrokeBufferKeys demo_created 3000 2 2 [4; 5] with
  | Ret (D, _) => D | Fault _ => InitialData
  end.

Lemma demo_reachable : rtc step InitialData demo_pressed.
Proof.
  apply (rtc_l _ _ demo_created).
  - apply (step_create (fun _ _ => true) InitialData 2 demo_created EFI_SUCCESS (Some 3000));
      [by vm_compute|reflexivity].
  - apply rtc_once. apply (step_set demo_created 3000 2 2 [4; 5] demo_pressed EFI_SUCCESS);
      [by vm_compute|reflexivity].
Qed.

Lemma demo_ready : ready demo_pressed.
Proof. split; [apply reachable_Inv, demo_reachable|done]. Qed.

Lemma Database_invariant_witness :
  rtc step InitialData demo_pressed
  /\ pressed_keys demo_pressed.(KeyStrokesInfoList) = [4; 5] /\ Inv demo_pressed.
Proof.
  split; [apply demo_reachable|]. split; [reflexivity|].
  exact (proj1 (Database_invariant demo_pressed demo_reachable)).
Defined.

(** After an allocation failure in [CreateKeyStrokesBuffer], a key that is still
    pressed makes [GetKeyStrokes] access the NULL pointer. *)
Example create_failure_then_get :
  exists D, rtc step InitialData D /\ InternalGetKeyStrokes D 8 None = Fault OutOfBounds.
Proof.
  destruct (InternalCreateKeyStrokesBuffer (fun _ _ => false) demo_pressed 1) as [[[D st] i]|] eqn:E; [|done].
  exists D. split.
  - apply (rtc_r _ demo_pressed); [apply demo_reachable|].
    apply (step_create (fun _ _ => false) demo_pressed 1 D st i); [|done]. by vm_compute.
  - vm_compute in E. injection E as <- _ _. reflexivity.
Qed.

(** A key set that is created, filled and removed: the new set gets a fresh
    index, its keys and modifiers are reported after those of the other sets,
    once each, and removing it restores the sets and the recorded length. *)
Theorem KeySet_roundtrip D n Mods Keys :
  Inv D -> create_args D n -> Z.of_nat (length Keys) <= n ->
  exists D1 D2 i,
    InternalCreateKeyStrokesBuffer (fun _ _ => true) D n = Ret (D1, EFI_SUCCESS, Some i)
    /\ (i ∉ (Index <$> D.(KeyStrokesInfoList)))
    /\ InternalSetKeyStrokeBufferKeys D1 i Mods (Z.of_nat (length Keys)) Keys = Ret (D2, EFI_SUCCESS)
    /\ (forall Number Codes, fits Number Codes -> exists D3, InternalGetKeyStrokes D2 Number Codes =
          Ret (D3, strokes_spec (foldl add_key (pressed_keys D.(KeyStrokesInfoList)) Keys)
                     (Z.lor (pressed_modifiers D.(KeyStrokesInfoList)) Mods) Number Codes))
    /\ (exists D4, InternalRemoveKeyStrokesBuffer D2 i = (D4, EFI_SUCCESS)
          /\ D4.(KeyStrokesInfoList) = D.(KeyStrokesInfoList)
          /\ D4.(TotalKeyCodeBufferLength) = D.(TotalKeyCodeBufferLength)).
Proof.
  intros HI HA HK.
  destruct (Create_spec (fun _ _ => true) D n HI HA) as (D1 & st & [i|] & E1 & HI1 & H & Hi); last first.
  { destruct Hi as [Hi _]. by destruct (Hi eq_refl). }
  destruct H as (-> & -> & Hb & Ht & El). set (info := Build_APPLE_KEY_STROKES_INFO _ _ _ _ _) in El.
  pose proof (Set_spec D1 _ info [] Mods (Z.of_nat (length Keys)) Keys HI1 El) as H2.
  rewrite decide_True in H2 by done.
  destruct H2 as (D2 & info' & E2 & HI2 & El2 & Hi2 & Hl2 & Hm2 & Ha2 & Hb2 & Ht2); [lia|].
  rewrite Nat2Z.id, firstn_all in Ha2.
  exists D1, D2, D.(NextKeyStrokeIndex). split_and!; [done| |done| |].
  - intros (j & Hj & Hin)%list_elem_of_fmap. destruct HI. rewrite Forall_forall in inv_fresh0.
    specialize (inv_fresh0 j Hin). lia.
  - intros Number Codes HF. destruct (GetKeyStrokes_spec D2 Number Codes HI2 HF) as (D3 & E3 & _).
    { rewrite Hb2. done. }
    exists D3. rewrite E3. unfold pressed_keys, pressed_modifiers.
    rewrite El2, bind_app, bind_cons, Ha2, !foldl_app. simpl. rewrite Hm2. by rewrite ?app_nil_r.
  - destruct (Remove_spec D2 _ info' [] HI2 El2) as (D4 & E4 & _ & El4 & _ & Ht4).
    exists D4. rewrite Hi2 in E4. rewrite app_nil_r in El4. rewrite Ht4, Hl2, Ht2, Ht. simpl.
    split_and!; [done|done|lia].
Qed.

Lemma KeySet_roundtrip_witness :
  exists D1 D2 i,
    InternalCreateKeyStrokesBuffer (fun _ _ => true) InitialData 3 = Ret (D1, EFI_SUCCESS, Some i)
    /\ InternalSetKeyStrokeBufferKeys D1 i 1 3 [7; 8; 7] = Ret (D2, EFI_SUCCESS).
Proof.
  destruct (KeySet_roundtrip InitialData 3 1 [7; 8; 7]) as (D1 & D2 & i & H1 & _ & H2 & _).
  - apply InitialData_Inv.
  - by vm_compute.
  - simpl. lia.
  - exists D1, D2, i. split; [exact H1|exact H2].
Defined.

(** C36: [ContainsKeyStrokes] against any aggregator that keeps its contract: more
    than eight pressed keys are an error, keys are compared as sets (for an exact
    match their number as well), a missing key is EFI_NOT_FOUND; but when the
    modifiers do not match, the returned FALSE is the value of EFI_SUCCESS. *)
Theorem Contains_status (St : Type) (A : KeyMapAggregator St) (L : KeyMapAggregatorLaws St)
    Stack s Mods Number Codes ExactMatch :
  length Stack = 8%nat -> ready s -> 0 <= Number <= Z.of_nat (length Codes) ->
  exists s', InternalContainsKeyStrokes Stack s Mods Number Codes ExactMatch
      = Ret (s', contains_status (pressed s) (modifiers s) Mods Number Codes ExactMatch)
    /\ ready s' /\ pressed s' = pressed s /\ modifiers s' = modifiers s.
Proof. intros. by apply Contains_spec. Qed.

Lemma Contains_status_witness :
  exists s', InternalContainsKeyStrokes (replicate 8 0) demo_pressed 1 1 [99] false = Ret (s', EFI_SUCCESS).
Proof.
  destruct (Contains_status KEY_MAP_AGGREGATOR_DATA _ _ (replicate 8 0) demo_pressed 1 1 [99] false)
    as (s' & E & _); [reflexivity|apply demo_ready|simpl; lia|].
  exists s'. exact E.
Defined.

(** C33: [OcKeyMapFlush] polls until the awaited key (or every key) and all modifiers are
    up, or more than eight keys are pressed, for which its buffer is too small: if that
    ever happens it returns at the first such poll, and as long as it does not happen it
    keeps waiting. If never more than eight keys are pressed, the keys are up when it
    returns; if more are pressed, it gives up at once while they are down. *)
Theorem Flush_released (St : Type) (A : KeyMapAggregator St) (L : KeyMapAggregatorLaws St) (P : Platform St)
    Stack s Key FlushConsole :
  length Stack = 8%nat -> (forall s, ready s -> ready (MicroSecondDelay s)) -> ready s ->
  (forall k sk fuel, polls Stack k s = Ret sk -> ends_wait Key sk -> (k < fuel)%nat ->
     exists j sj s', (j <= k)%nat /\ polls Stack j s = Ret sj /\ ends_wait Key sj
       /\ (forall i si, (i < j)%nat -> polls Stack i s = Ret si -> ~ ends_wait Key si)
       /\ (~ overfull sj -> released Key sj)
       /\ pressed s' = pressed sj /\ modifiers s' = modifiers sj
       /\ OcKeyMapFlush Stack fuel s Key FlushConsole = Ret (if FlushConsole then OcConsoleFlush s' else s'))
  /\ (forall fuel, (forall k sk, (k < fuel)%nat -> polls Stack k s = Ret sk -> ~ ends_wait Key sk) ->
     OcKeyMapFlush Stack fuel s Key FlushConsole = Fault OutOfFuel).
Proof.
  intros HS HD Hs. split.
  - intros k sk fuel Hk Hr Hf.
    destruct (Flush_stops Stack HS HD Key k s sk Hs Hk Hr fuel Hf) as (j & sj & s' & Hj & Hp & Hrel & Hfirst & H1 & H2 & E).
    exists j, sj, s'. split_and!; try done; [by destruct Hrel|]. unfold OcKeyMapFlush. by rewrite E.
  - intros fuel Hk. unfold OcKeyMapFlush. by rewrite (Flush_waits Stack HS HD Key fuel s Hs Hk).
Qed.

(** More than eight pressed keys: the flush returns at the first poll, and they stay pressed. *)
Lemma flush_gives_up (St : Type) (A : KeyMapAggregator St) (L : KeyMapAggregatorLaws St) (P : Platform St) Stack s Key :
  length Stack = 8%nat -> ready s -> overfull s ->
  exists s', OcKeyMapFlush Stack 1 s Key false = Ret s' /\ pressed s' = pressed s.
Proof.
  intros HS Hs Ho. destruct (FlushStep_spec Stack HS Key s Hs) as (s' & _ & _ & H2 & _ & [[_ E]|[Hn _]]); [|exfalso; apply Hn; by left].
  exists s'. split; [|done]. unfold OcKeyMapFlush. by rewrite (while_inr _ _ _ _ E).
Qed.

(** A platform on which the first delay releases the keys. *)
#[local] Instance demo_platform : Platform KEY_MAP_AGGREGATOR_DATA := {|
  MicroSecondDelay D := fst (InternalRemoveKeyStrokesBuffer D 3000);
  OcConsoleFlush D := D
|}.

Lemma Remove_ready D i : ready D -> ready (fst (InternalRemoveKeyStrokesBuffer D i)).
Proof.
  intros [HI HB]. destruct (FindIndex_cases D.(KeyStrokesInfoList) i) as [E|(l1 & info & l2 & El & <-)].
  - by rewrite Remove_missing.
  - destruct (Remove_spec D l1 info l2 HI El) as (D1 & -> & H1 & El1 & Hb & _). simpl.
    split; [done|]. rewrite Hb. intros HN. specialize (HB HN). rewrite El1. rewrite El in HB.
    rewrite pressed_keys_nil in *. rewrite bind_app, bind_cons in HB. rewrite bind_app.
    apply app_nil in HB as [-> HB]. by apply app_nil in HB as [_ ->].
Qed.

Lemma Flush_released_witness :
  exists s', OcKeyMapFlush (replicate 8 0) 2 demo_pressed 0 true = Ret s' /\ pressed demo_pressed <> [] /\ pressed s' = [].
Proof.
  destruct (Flush_released KEY_MAP_AGGREGATOR_DATA _ _ demo_platform (replicate 8 0) demo_pressed 0 true)
    as [H _]; [reflexivity|intros D; apply Remove_ready|apply demo_ready|].
  destruct (polls (replicate 8 0) 1 demo_pressed) as [sk|] eqn:E; [|done].
  destruct (H 1%nat sk 2%nat E) as (j & sj & s' & Hj & Hp & Hr & _ & Hup & H1 & H2 & E2).
  - vm_compute in E. injection E as <-. right. done.
  - lia.
  - exists s'. split; [exact E2|]. split; [done|]. rewrite H1. destruct j as [|[|j]]; [|vm_compute in Hp; injection Hp as <-; done|lia].
    vm_compute in Hp. injection Hp as <-. by destruct Hr as [?%Nat.ltb_lt|[? ?]].
Defined.

End KeyMap.
