(* ===== verification/UpDown.v ===== *)
(** * Key transitions and key repeat

    Library/OcAppleKeyMapLib/UpDownDetection.c: the key repeat context, which
    remembers the keys that were held at the previous poll with the time until
    they repeat, and [OcGetUpDownKeys], which compares it with the keys that the
    aggregator reports now. The aggregator is used through the interface of
    KeyMap.v; its state is threaded beside the context. *)
From stdpp Require Import gmap.
From S2P Require Import Prelude KeyMap.

Module UpDown.
Import KeyMap.

(** ** Data *)
Definition OC_HELD_KEYS_DEFAULT_SIZE : Z := 8.

(** A pointer to a buffer; [Wild] is the uninitialised pointer of a freshly
    allocated structure, which compares equal to NULL or not. *)
Inductive pointer :=
| Null
| Wild (LooksNull : bool)
| At (Cells : list Z).

#[export] Instance pointer_eq_dec : EqDecision pointer.
Proof. solve_decision. Defined.

Definition is_null (p : pointer) : bool :=
  match p with Null => true | Wild b => b | At _ => false end.

Definition cells (p : pointer) : list Z := match p with At l => l | _ => [] end.

(** [p[i] = x], and [CopyMem (Dst, p, n)] of [n] elements. *)
Definition put (p : pointer) (i x : Z) : outcome pointer :=
  match p with At l => At <$> wr l i x | _ => Fault OutOfBounds end.
Definition CopyFrom (Dst : list Z) (p : pointer) (n : Z) : outcome (list Z) := CopyMem Dst 0 (cells p) 0 n.

Record OC_KEY_REPEAT_CONTEXT := {
  InitialDelay : Z;
  SubsequentDelay : Z;
  PreviousTime : Z;
  KeysHeld : pointer;
  KeyHeldTimes : pointer;
  NumKeysHeld : Z;
  MaxKeysHeld : Z
}.

(** The output parameters of [OcGetUpDownKeys] and its status. *)
Record updown := {
  UdStatus : EFI_STATUS;
  UdModifiers : option Z;
  NumKeysUp : Z;
  KeysUp : option (list Z);
  NumKeysDown : Z;
  KeysDown : option (list Z)
}.

(** ** Detection *)

(** Storing into an optional caller buffer at the running count. *)
Definition emit (Buffer : option (list Z)) (n Key : Z) : outcome (option (list Z)) :=
  match Buffer with None => Ret None | Some b => Some <$> wr b n Key end.

(** The inner loop: the first live entry of the copy that holds [Key]. *)
Definition FindHeldKey (KeysHeldCopy : list Z) (NumKeysHeldInCopy Key : Z) : outcome (option Z) :=
  while_ (S (Z.to_nat NumKeysHeldInCopy)) (fun Index2 =>
    if decide (Index2 < NumKeysHeldInCopy) then
      k ← rd KeysHeldCopy Index2;
      if decide (k = Key) then Ret (inr (Some Index2)) else Ret (inl (Index2 + 1))
    else Ret (inr None)) 0.

(** The state of the loop over the raw keys. *)
Record scan := {
  ScContext : OC_KEY_REPEAT_CONTEXT;
  KeysHeldCopy : list Z;
  ScDown : option (list Z);
  ScNumDown : Z
}.

Definition set_held (C : OC_KEY_REPEAT_CONTEXT) (Held Times : pointer) (Num : Z) : OC_KEY_REPEAT_CONTEXT := {|
  InitialDelay := C.(InitialDelay);
  SubsequentDelay := C.(SubsequentDelay);
  PreviousTime := C.(PreviousTime);
  KeysHeld := Held;
  KeyHeldTimes := Times;
  NumKeysHeld := Num;
  MaxKeysHeld := C.(MaxKeysHeld)
|}.

Definition set_time (C : OC_KEY_REPEAT_CONTEXT) (t : Z) : OC_KEY_REPEAT_CONTEXT := {|
  InitialDelay := C.(InitialDelay);
  SubsequentDelay := C.(SubsequentDelay);
  PreviousTime := t;
  KeysHeld := C.(KeysHeld);
  KeyHeldTimes := C.(KeyHeldTimes);
  NumKeysHeld := C.(NumKeysHeld);
  MaxKeysHeld := C.(MaxKeysHeld)
|}.

Definition DownStep (RawKeys KeyHeldTimesCopy : list Z) (NumKeysHeldInCopy DeltaTime : Z) (i : Z) (T : scan)
  : outcome scan :=
  let C := T.(ScContext) in
  Key ← rd RawKeys i;
  Held ← (if is_null C.(KeysHeld) then Ret C.(KeysHeld) else put C.(KeysHeld) C.(NumKeysHeld) Key);
  Found ← FindHeldKey T.(KeysHeldCopy) NumKeysHeldInCopy Key;
  '(Copy, Down, NumDown, KeyTime) ←
    match Found with
    | Some Index2 =>
        t ← rd KeyHeldTimesCopy Index2;
        let KeyTime := swrap 64 (t + DeltaTime) in
        Copy ← wr T.(KeysHeldCopy) Index2 0;
        if bool_decide (C.(InitialDelay) ≠ 0) && bool_decide (0 <= KeyTime) then
          Down ← emit T.(ScDown) T.(ScNumDown) Key;
          Ret (Copy, Down, T.(ScNumDown) + 1, swrap 64 (KeyTime - C.(SubsequentDelay)))
        else Ret (Copy, T.(ScDown), T.(ScNumDown), KeyTime)
    | None =>
        Down ← emit T.(ScDown) T.(ScNumDown) Key;
        Ret (T.(KeysHeldCopy), Down, T.(ScNumDown) + 1, swrap 64 (- swrap 64 C.(InitialDelay)))
    end;
  if is_null C.(KeysHeld) then
    Ret {| ScContext := C; KeysHeldCopy := Copy; ScDown := Down; ScNumDown := NumDown |}
  else
    Times ← put C.(KeyHeldTimes) C.(NumKeysHeld) KeyTime;
    Ret {| ScContext := set_held C Held Times (C.(NumKeysHeld) + 1);
           KeysHeldCopy := Copy; ScDown := Down; ScNumDown := NumDown |}.

Definition UpStep (Copy : list Z) (i : Z) (T : option (list Z) * Z) : outcome (option (list Z) * Z) :=
  let '(Up, NumUp) := T in
  Key ← rd Copy i;
  if decide (Key ≠ 0) then Up ← emit Up NumUp Key; Ret (Up, NumUp + 1) else Ret (Up, NumUp).

Section Detection.
Context {St : Type} {A : KeyMapAggregator St}.

(** The stack buffers, not initialised. *)
Variables StackRaw StackKeys StackTimes : list Z.

Definition UpDownFail (C : OC_KEY_REPEAT_CONTEXT) (KeyMap : St) (Status : EFI_STATUS) (Mods : option Z)
    (NumUp : Z) (Up : option (list Z)) (NumDown : Z) (Down : option (list Z))
  : outcome (OC_KEY_REPEAT_CONTEXT * St * updown) :=
  Ret (C, KeyMap, {| UdStatus := Status; UdModifiers := Mods; NumKeysUp := NumUp; KeysUp := Up;
                     NumKeysDown := NumDown; KeysDown := Down |}).

(** From the call of [GetKeyStrokes] on; [Copies] are the copied keys and times
    and the number of them. *)
Definition UpDownScan (C : OC_KEY_REPEAT_CONTEXT) (KeyMap : St) (Copies : list Z * list Z * Z) (DeltaTime : Z)
    (NumUp : Z) (Up : option (list Z)) (NumDown : Z) (Down : option (list Z))
  : outcome (OC_KEY_REPEAT_CONTEXT * St * updown) :=
  let '(Copy, TimesCopy, NumKeysHeldInCopy) := Copies in
  '(KeyMap, r) ← GetKeyStrokes KeyMap OC_KEY_MAP_DEFAULT_SIZE (Some StackRaw);
  if EFI_ERROR r.(Status) then UpDownFail C KeyMap r.(Status) r.(OutModifiers) NumUp Up NumDown Down
  else if bool_decide (is_Some Down) && bool_decide (r.(OutNumber) > NumDown) then
    UpDownFail C KeyMap EFI_BUFFER_TOO_SMALL r.(OutModifiers) NumUp Up NumDown Down
  else
    T ← for_ (Z.to_nat r.(OutNumber)) 0
          (DownStep (default [] r.(OutKeyCodes)) TimesCopy NumKeysHeldInCopy DeltaTime)
          {| ScContext := set_held C C.(KeysHeld) C.(KeyHeldTimes) 0;
             KeysHeldCopy := Copy; ScDown := Down; ScNumDown := 0 |};
    '(Up, NumUp) ← for_ (Z.to_nat NumKeysHeldInCopy) 0 (UpStep T.(KeysHeldCopy)) (Up, 0);
    Ret (T.(ScContext), KeyMap,
         {| UdStatus := r.(Status); UdModifiers := r.(OutModifiers); NumKeysUp := NumUp; KeysUp := Up;
            NumKeysDown := T.(ScNumDown); KeysDown := T.(ScDown) |}).

Definition OcGetUpDownKeys (C : OC_KEY_REPEAT_CONTEXT) (KeyMap : St)
    (NumUp : Z) (Up : option (list Z)) (NumDown : Z) (Down : option (list Z)) (CurrentTime : Z)
  : outcome (OC_KEY_REPEAT_CONTEXT * St * updown) :=
  assert (bool_decide (C.(NumKeysHeld) <= C.(MaxKeysHeld)));;
  assert (bool_decide (is_null C.(KeysHeld) = is_null C.(KeyHeldTimes)));;
  let DeltaTime := CurrentTime -[64] C.(PreviousTime) in
  let C := set_time C CurrentTime in
  let Fail Status := UpDownFail C KeyMap Status None NumUp Up NumDown Down in
  if negb (is_null C.(KeysHeld)) && bool_decide (is_Some Up) && bool_decide (C.(MaxKeysHeld) > NumUp) then
    Fail EFI_UNSUPPORTED
  else if negb (is_null C.(KeysHeld)) && bool_decide (is_Some Down) && bool_decide (NumDown > C.(MaxKeysHeld)) then
    Fail EFI_UNSUPPORTED
  else if negb (is_null C.(KeysHeld)) && bool_decide (C.(MaxKeysHeld) > OC_HELD_KEYS_DEFAULT_SIZE) then
    Fail EFI_UNSUPPORTED
  else
    Copies ←
      (if is_null C.(KeysHeld) then Ret (StackKeys, StackTimes, 0)
       else
         Copy ← CopyFrom StackKeys C.(KeysHeld) C.(NumKeysHeld);
         TimesCopy ← CopyFrom StackTimes C.(KeyHeldTimes) C.(NumKeysHeld);
         Ret (Copy, TimesCopy, C.(NumKeysHeld)));
    if decide (NumDown > OC_KEY_MAP_DEFAULT_SIZE) then Fail EFI_UNSUPPORTED
    else UpDownScan C KeyMap Copies DeltaTime NumUp Up NumDown Down.

(** ** The context

    [FreePool] accepts what [AllocatePool] returned; NULL fails its assertion,
    and a wild pointer has no meaning. *)
Definition FreePool (p : pointer) : outcome unit :=
  match p with At _ => Ret tt | Null => Fault AssertFailed | Wild _ => Fault OutOfBounds end.

Definition OcFreeKeyRepeatContext (Context : option OC_KEY_REPEAT_CONTEXT) : outcome (option OC_KEY_REPEAT_CONTEXT) :=
  match Context with
  | None => Ret None
  | Some C => FreePool C.(KeyHeldTimes);; FreePool C.(KeysHeld);; Ret None
  end.

(** [MAX_INT64 >> 1]. *)
Definition FarFuture : Z := Z.shiftr (2 ^ 63 - 1) 1.

(** [G] tells which of the three allocations are granted, [Wild LooksNull] is the
    content of an uninitialised pointer, and the fresh buffers hold [Junk]. *)
Definition OcInitKeyRepeatContext (G : Granted) (LooksNull : bool) (Junk : Z -> list Z) (KeyMap : St)
    (Max Initial Subsequent : Z) (PreventInitialRepeat : bool)
  : outcome (option OC_KEY_REPEAT_CONTEXT * St * EFI_STATUS) :=
  if negb (G 0%nat 64) then Ret (None, KeyMap, EFI_OUT_OF_RESOURCES)
  else if bool_decide (Max ≠ 0) && negb (G 1%nat (Max *[64] 2)) then Ret (None, KeyMap, EFI_OUT_OF_RESOURCES)
  else if bool_decide (Max ≠ 0) && negb (G 2%nat (Max *[64] 8)) then Ret (None, KeyMap, EFI_OUT_OF_RESOURCES)
  else
    let Context := {|
      InitialDelay := Initial;
      SubsequentDelay := Subsequent;
      PreviousTime := 0;
      KeysHeld := if decide (Max = 0) then Null else At (Junk ((Max *[64] 2) / 2));
      KeyHeldTimes := if decide (Max = 0) then Wild LooksNull else At (Junk ((Max *[64] 8) / 8));
      NumKeysHeld := 0;
      MaxKeysHeld := Max |} in
    if bool_decide (Max = 0) || negb PreventInitialRepeat then Ret (Some Context, KeyMap, EFI_SUCCESS)
    else
      '(Context, KeyMap, r) ← OcGetUpDownKeys Context KeyMap 0 None Max None FarFuture;
      if EFI_ERROR r.(UdStatus) then
        Context ← OcFreeKeyRepeatContext (Some Context);
        Ret (Context, KeyMap, r.(UdStatus))
      else Ret (Some Context, KeyMap, r.(UdStatus)).

End Detection.

(** ** Abstract view: the held keys with their times *)
Definition held (C : OC_KEY_REPEAT_CONTEXT) : list (Z * Z) :=
  zip (take (Z.to_nat C.(NumKeysHeld)) (cells C.(KeysHeld)))
      (take (Z.to_nat C.(NumKeysHeld)) (cells C.(KeyHeldTimes))).

Fixpoint held_time (h : list (Z * Z)) (k : Z) : option Z :=
  match h with [] => None | (k', t) :: h => if decide (k' = k) then Some t else held_time h k end.

(** What a poll does with one pressed key: whether it is reported as going down,
    and its time afterwards. *)
Definition key_event (Initial Subsequent DeltaTime : Z) (h : list (Z * Z)) (k : Z) : bool * Z :=
  match held_time h k with
  | Some t =>
      let u := swrap 64 (t + DeltaTime) in
      if bool_decide (Initial ≠ 0) && bool_decide (0 <= u) then (true, swrap 64 (u - Subsequent)) else (false, u)
  | None => (true, swrap 64 (- swrap 64 Initial))
  end.

Definition keys_down (Initial Subsequent DeltaTime : Z) (h : list (Z * Z)) (raw : list Z) : list Z :=
  filter (fun k => (key_event Initial Subsequent DeltaTime h k).1 = true) raw.
Definition keys_up (h : list (Z * Z)) (raw : list Z) : list Z := filter (.∉ raw) h.*1.
Definition held_after (Initial Subsequent DeltaTime : Z) (h : list (Z * Z)) (raw : list Z) : list (Z * Z) :=
  (fun k => (k, (key_event Initial Subsequent DeltaTime h k).2)) <$> raw.

(** ** Lemmas on the buffers *)
Lemma inserts_snoc (b ds : list Z) k :
  (length ds < length b)%nat ->
  wr (list_inserts 0 ds b) (Z.of_nat (length ds)) k = Ret (list_inserts 0 (ds ++ [k]) b).
Proof.
  intros H. rewrite wr_in by (rewrite length_inserts; lia). f_equal. rewrite Nat2Z.id.
  apply list_eq. intros i. rewrite (lookup_inserts _ (ds ++ [k])) by (rewrite length_app; simpl; lia).
  rewrite length_app. simpl. destruct (decide (i = length ds)) as [->|Hi].
  - rewrite list_lookup_insert_eq by (rewrite length_inserts; lia). rewrite decide_True by lia.
    rewrite Nat.sub_0_r. by rewrite list_lookup_middle.
  - rewrite list_lookup_insert_ne by done. rewrite lookup_inserts by lia. rewrite Nat.sub_0_r.
    destruct (decide (i < length ds)%nat).
    + rewrite !decide_True by lia. by rewrite lookup_app_l.
    + rewrite !decide_False by lia. done.
Qed.

Definition fits_buffer (Buffer : option (list Z)) (n : nat) : Prop :=
  forall b, Buffer = Some b -> (n <= length b)%nat.

Lemma emit_spec Buffer ds k :
  fits_buffer Buffer (S (length ds)) ->
  emit (list_inserts 0 ds <$> Buffer) (Z.of_nat (length ds)) k = Ret (list_inserts 0 (ds ++ [k]) <$> Buffer).
Proof.
  intros H. destruct Buffer as [b|]; [|done]. unfold emit. simpl. rewrite inserts_snoc; [done|].
  specialize (H b eq_refl). lia.
Qed.

(** [x] written right after the first cells of a buffer. *)
Lemma put_after l1 x y l2 n :
  n = length l1 -> put (At (l1 ++ y :: l2)) (Z.of_nat n) x = Ret (At ((l1 ++ [x]) ++ l2)).
Proof.
  intros ->. unfold put. rewrite wr_in by (rewrite length_app; simpl; lia). simpl.
  rewrite Nat2Z.id, insert_app_r_alt, Nat.sub_diag by lia. simpl. by rewrite <- app_assoc.
Qed.

(** ** Lemmas on the copy of the held keys *)
Definition mark (seen ks : list Z) : list Z := (fun k => if decide (k ∈ seen) then 0 else k) <$> ks.

Lemma mark_nil ks : mark [] ks = ks.
Proof. unfold mark. rewrite <- (list_fmap_id ks) at 2. apply list_fmap_ext. intros i k _. by rewrite decide_False by apply not_elem_of_nil. Qed.

Lemma mark_lookup seen ks i Key :
  Key ∉ seen -> Key ≠ 0 -> mark seen ks !! i = Some Key <-> ks !! i = Some Key.
Proof.
  intros Hs H0. unfold mark. rewrite list_lookup_fmap. destruct (ks !! i) as [k|]; simpl; [|done].
  case_decide as Hk; split; intros [= E]; simplify_eq; done.
Qed.

Lemma mark_skip seen ks Key : Key ∉ ks -> mark (seen ++ [Key]) ks = mark seen ks.
Proof.
  intros H. apply list_fmap_ext. intros i k Hk. apply list_elem_of_lookup_2 in Hk.
  destruct (decide (k ∈ seen)); [rewrite decide_True; [done|]|rewrite decide_False; [done|]];
    rewrite elem_of_app, list_elem_of_singleton; first [by left | intros [?| ->]; done].
Qed.

Lemma mark_insert seen ks i Key :
  NoDup ks -> ks !! i = Some Key -> <[i := 0]> (mark seen ks) = mark (seen ++ [Key]) ks.
Proof.
  intros Hn Hi. apply list_eq. intros j. unfold mark. rewrite list_lookup_fmap.
  destruct (decide (j = i)) as [->|Hj].
  - rewrite list_lookup_insert_eq by (rewrite length_fmap; by eapply lookup_lt_Some). rewrite Hi. simpl.
    rewrite decide_True; [done|]. rewrite elem_of_app, list_elem_of_singleton. by right.
  - rewrite list_lookup_insert_ne by done. rewrite list_lookup_fmap.
    destruct (ks !! j) as [k|] eqn:Ek; [|done]. simpl. f_equal.
    assert (k ≠ Key) by (intros ->; apply Hj; by eapply NoDup_lookup).
    destruct (decide (k ∈ seen)); [rewrite decide_True; [done|]|rewrite decide_False; [done|]];
      rewrite elem_of_app, list_elem_of_singleton; first [by left | intros [?| ->]; done].
Qed.

Lemma FindHeldKey_spec cs junk Key :
  exists r, FindHeldKey (cs ++ junk) (Z.of_nat (length cs)) Key = Ret r /\
    match r with
    | Some i => exists n, i = Z.of_nat n /\ cs !! n = Some Key
    | None => Key ∉ cs
    end.
Proof.
  unfold FindHeldKey.
  oc_while (fun j : Z => 0 <= j <= Z.of_nat (length cs) /\ Key ∉ take (Z.to_nat j) cs)
    (fun j : Z => Z.to_nat (Z.of_nat (length cs) - j))
    (fun r : option Z => match r with
       | Some i => exists n, i = Z.of_nat n /\ cs !! n = Some Key | None => Key ∉ cs end) as r Hr.
  - intros j (Hj & Hnot). destruct (decide (j < Z.of_nat (length cs))) as [Hlt|Hge].
    + destruct (lookup_lt_is_Some_2 cs (Z.to_nat j)) as [k Hk]; [lia|].
      rewrite (rd_lookup _ _ k) by (rewrite ?lookup_app_l; auto with lia). simpl.
      destruct (decide (k = Key)) as [->|Heq]; eexists; (split; [done|]).
      * exists (Z.to_nat j). split; [lia|done].
      * split_and!; [lia|lia| |lia]. replace (Z.to_nat (j + 1)) with (S (Z.to_nat j)) by lia.
        rewrite (take_S_r _ _ k), elem_of_app by done. rewrite list_elem_of_singleton. intros [H|H]; done.
    + eexists. split; [done|]. replace j with (Z.of_nat (length cs)) in * by lia.
      by rewrite Nat2Z.id, take_ge in Hnot by done.
  - split; [lia|]. rewrite take_0. apply not_elem_of_nil.
  - lia.
  - eauto.
Qed.

Lemma held_time_lookup h i k t :
  NoDup h.*1 -> h !! i = Some (k, t) -> held_time h k = Some t.
Proof.
  revert i. induction h as [|[k' t'] h IH]; intros i Hn Hi; [done|].
  apply NoDup_cons in Hn as [Hn1 Hn2]. destruct i as [|i]; simpl in Hi.
  - simplify_eq. simpl. by rewrite decide_True.
  - simpl. rewrite decide_False; [by eapply IH|]. intros ->. apply Hn1.
    apply (list_elem_of_fmap_2' fst h (k, t)); [by eapply list_elem_of_lookup_2|done].
Qed.

Lemma held_time_None h k : held_time h k = None <-> k ∉ h.*1.
Proof.
  induction h as [|[k' t] h IH]; simpl; [split; [intros _; apply not_elem_of_nil|done]|].
  rewrite not_elem_of_cons. case_decide; [split; [done|intros [H' _]; by destruct H']|].
  rewrite IH. intuition congruence.
Qed.

(** ** The loop over the raw keys *)
Section Scan.
Variables (C : OC_KEY_REPEAT_CONTEXT) (h : list (Z * Z)) (raw rawjunk keyjunk timejunk : list Z).
Variables (DeltaTime : Z) (Down : option (list Z)) (lk lt : list Z).
Hypothesis Hh : NoDup h.*1.
Hypothesis Hraw : NoDup raw.
Hypothesis Hzero : 0 ∉ raw.
Hypothesis Hdown : fits_buffer Down (length raw).

Let ev := key_event C.(InitialDelay) C.(SubsequentDelay) DeltaTime h.
Let downs (seen : list Z) := keys_down C.(InitialDelay) C.(SubsequentDelay) DeltaTime h seen.

(** The state after the first [n] keys. *)
Definition scan_at (n : nat) : scan := {|
  ScContext := set_held C (At (take n raw ++ drop n lk))
                 (At (((fun k => (ev k).2) <$> take n raw) ++ drop n lt)) (Z.of_nat n);
  KeysHeldCopy := mark (take n raw) h.*1 ++ keyjunk;
  ScDown := list_inserts 0 (downs (take n raw)) <$> Down;
  ScNumDown := Z.of_nat (length (downs (take n raw)))
|}.

Lemma downs_snoc seen k :
  downs (seen ++ [k]) = if (ev k).1 then downs seen ++ [k] else downs seen.
Proof.
  unfold downs, keys_down. rewrite filter_app. unfold ev.
  destruct (key_event _ _ _ h k).1 eqn:E.
  - rewrite filter_cons_True by done. done.
  - rewrite filter_cons_False by (rewrite E; done). by rewrite filter_nil, app_nil_r.
Qed.

Lemma downs_length seen : (length (downs seen) <= length seen)%nat.
Proof. apply length_filter. Qed.

Lemma DownStep_spec n k :
  raw !! n = Some k -> (n < length lk)%nat -> (n < length lt)%nat ->
  DownStep (raw ++ rawjunk) (h.*2 ++ timejunk) (Z.of_nat (length h)) DeltaTime (Z.of_nat n) (scan_at n)
  = Ret (scan_at (S n)).
Proof using Hh Hraw Hzero Hdown.
  intros Hn Hk Ht. pose proof (lookup_lt_Some _ _ _ Hn) as Hlt.
  unfold DownStep. rewrite (rd_nat _ n k) by (by rewrite lookup_app_l). cbn [mbind outcome_bind].
  destruct (lookup_lt_is_Some_2 lk n) as [xk Hxk]; [lia|].
  destruct (lookup_lt_is_Some_2 lt n) as [xt Hxt]; [lia|].
  set (R := scan_at (S n)). unfold scan_at. cbn [ScContext KeysHeldCopy ScDown ScNumDown set_held KeysHeld KeyHeldTimes NumKeysHeld is_null].
  rewrite (drop_S lk xk n), (drop_S lt xt n) by done.
  set (seen := take n raw) in *. assert (length seen = n) as Hseen by (subst seen; rewrite length_take; lia).
  assert (take (S n) raw = seen ++ [k]) as HS by (subst seen; by apply take_S_r).
  rewrite (put_after seen) by done. cbn [mbind outcome_bind].
  assert (k ≠ 0) as Hk0 by (intros ->; apply Hzero; by eapply list_elem_of_lookup_2).
  assert (k ∉ seen) as Hks.
  { intros (j & Hj & Hjn)%elem_of_take. assert (j = n) by (by eapply NoDup_lookup). lia. }
  assert (fits_buffer Down (S (length (downs seen)))) as Hfit.
  { intros b Hb. specialize (Hdown b Hb). pose proof (downs_length seen). lia. }
  assert (length (mark seen h.*1) = length h) as HLm by (unfold mark; by rewrite !length_fmap).
  destruct (FindHeldKey_spec (mark seen h.*1) keyjunk k) as (r & E & Hr). rewrite HLm in E. rewrite E.
  cbn [mbind outcome_bind].
  assert (length ((fun k0 => (ev k0).2) <$> seen) = n) as Hseen2 by (by rewrite length_fmap).
  pose proof (downs_snoc seen k) as HD.
  destruct r as [i|].
  - destruct Hr as (m & -> & Hm%mark_lookup); [|done..].
    rewrite list_lookup_fmap in Hm. destruct (h !! m) as [[k' t]|] eqn:Em; [|done].
    simpl in Hm. injection Hm as ->. pose proof (held_time_lookup h m k t Hh Em) as Htime.
    rewrite (rd_nat _ m t); [|rewrite lookup_app_l by (rewrite length_fmap; by eapply lookup_lt_Some);
                              by rewrite list_lookup_fmap, Em].
    cbn [mbind outcome_bind]. cbv zeta.
    assert (m < length h)%nat by (by eapply lookup_lt_Some).
    rewrite wr_in by (rewrite length_app, HLm; lia). cbn [mbind outcome_bind].
    rewrite Nat2Z.id, insert_app_l by lia. rewrite (mark_insert seen _ m k) by (done || by rewrite list_lookup_fmap, Em).
    assert (ev k = if bool_decide (C.(InitialDelay) ≠ 0) && bool_decide (0 <= swrap 64 (t + DeltaTime))
                   then (true, swrap 64 (swrap 64 (t + DeltaTime) - C.(SubsequentDelay)))
                   else (false, swrap 64 (t + DeltaTime))) as Eev.
    { unfold ev, key_event. by rewrite Htime. }
    cbn [InitialDelay SubsequentDelay set_held].
    destruct (bool_decide (C.(InitialDelay) ≠ 0) && _).
    + rewrite emit_spec by done. cbn [mbind outcome_bind]. rewrite put_after by done.
      cbn [mbind outcome_bind]. rewrite Eev in HD. simpl in HD. subst R. unfold scan_at. rewrite HS, HD.
      rewrite fmap_app, length_app. simpl. rewrite Eev. simpl. unfold set_held. simpl. repeat f_equal; lia.
    + cbn [mbind outcome_bind]. rewrite put_after by done.
      cbn [mbind outcome_bind]. rewrite Eev in HD. simpl in HD. subst R. unfold scan_at. rewrite HS, HD.
      rewrite fmap_app. simpl. rewrite Eev. simpl. unfold set_held. simpl. repeat f_equal; lia.
  - assert (k ∉ h.*1) as Hnew.
    { intros (m & Hm)%list_elem_of_lookup. apply Hr. apply list_elem_of_lookup. exists m. by apply mark_lookup. }
    rewrite emit_spec by done. cbn [mbind outcome_bind]. rewrite put_after by done.
    assert (ev k = (true, swrap 64 (- swrap 64 C.(InitialDelay)))) as Eev.
    { unfold ev, key_event. by rewrite (proj2 (held_time_None h k)). }
    cbn [mbind outcome_bind]. rewrite Eev in HD. simpl in HD. subst R. unfold scan_at. rewrite HS, HD.
    rewrite fmap_app, length_app, mark_skip by done. simpl. rewrite Eev. simpl. unfold set_held. simpl. repeat f_equal; lia.
Qed.

Lemma DownLoop_spec m :
  (m <= length raw)%nat -> (m <= length lk)%nat -> (m <= length lt)%nat ->
  for_ m 0 (DownStep (raw ++ rawjunk) (h.*2 ++ timejunk) (Z.of_nat (length h)) DeltaTime) (scan_at 0)
  = Ret (scan_at m).
Proof using Hh Hraw Hzero Hdown.
  intros Hm Hk Ht. oc_for (fun j s => s = scan_at (Z.to_nat j)) as r Hr.
  - done.
  - intros j s Hj ->. destruct (lookup_lt_is_Some_2 raw (Z.to_nat j)) as [k Hkj]; [lia|].
    exists (scan_at (S (Z.to_nat j))). split.
    + rewrite <- (DownStep_spec (Z.to_nat j) k) by (done || lia). by rewrite Z2Nat.id by lia.
    + f_equal. lia.
  - rewrite Hr. by rewrite Z.add_0_l, Nat2Z.id.
Qed.

(** One key more than the held-key buffer has room for. *)
Lemma DownStep_overrun :
  (length lk < length raw)%nat ->
  DownStep (raw ++ rawjunk) (h.*2 ++ timejunk) (Z.of_nat (length h)) DeltaTime
    (Z.of_nat (length lk)) (scan_at (length lk)) = Fault OutOfBounds.
Proof using.
  intros Hlt. destruct (lookup_lt_is_Some_2 raw (length lk)) as [k Hk]; [lia|].
  unfold DownStep. rewrite (rd_nat _ _ k) by (by rewrite lookup_app_l).
  cbn [mbind outcome_bind scan_at ScContext set_held KeysHeld NumKeysHeld is_null].
  rewrite drop_ge by lia. unfold put, wr. rewrite app_nil_r, length_take.
  by rewrite decide_False by lia.
Qed.

Lemma DownLoop_overrun :
  (length lk < length raw)%nat -> length lt = length lk ->
  for_ (length raw) 0 (DownStep (raw ++ rawjunk) (h.*2 ++ timejunk) (Z.of_nat (length h)) DeltaTime) (scan_at 0)
  = Fault OutOfBounds.
Proof using Hh Hraw Hzero Hdown.
  intros Hlt Hl. replace (length raw) with (length lk + S (length raw - length lk - 1))%nat by lia.
  rewrite for_app, DownLoop_spec by lia. cbn [mbind outcome_bind]. rewrite Z.add_0_l.
  unfold for_. by rewrite DownStep_overrun.
Qed.

End Scan.

(** ** The loop over the remaining held keys *)
Lemma UpLoop_spec cs junk Up :
  fits_buffer Up (length cs) ->
  for_ (length cs) 0 (UpStep (cs ++ junk)) (Up, 0)
  = Ret (list_inserts 0 (filter (.≠ 0) cs) <$> Up, Z.of_nat (length (filter (.≠ 0) cs))).
Proof.
  intros Hf. set (ups j := filter (.≠ 0) (take (Z.to_nat j) cs)).
  oc_for (fun j s => s = (list_inserts 0 (ups j) <$> Up, Z.of_nat (length (ups j)))) as r Hr.
  - unfold ups. simpl. by destruct Up.
  - intros j s Hj ->. destruct (lookup_lt_is_Some_2 cs (Z.to_nat j)) as [k Hk]; [lia|].
    unfold UpStep. rewrite (rd_lookup _ _ k) by (rewrite ?lookup_app_l; auto with lia). cbn [mbind outcome_bind].
    assert (ups (j + 1) = ups j ++ filter (.≠ 0) [k]) as HS.
    { unfold ups. replace (Z.to_nat (j + 1)) with (S (Z.to_nat j)) by lia.
      by rewrite (take_S_r _ _ k), filter_app by done. }
    rewrite HS. destruct (decide (k ≠ 0)) as [H0|H0].
    + rewrite filter_cons_True by done. rewrite filter_nil. rewrite emit_spec.
      * simpl. eexists. split; [done|]. rewrite length_app. simpl. f_equal. lia.
      * intros b Hb. specialize (Hf b Hb). unfold ups.
        pose proof (length_filter (.≠ 0) (take (Z.to_nat j) cs)) as HL. rewrite length_take in HL. lia.
    + rewrite filter_cons_False by done. rewrite filter_nil, app_nil_r. eauto.
  - rewrite Hr. unfold ups. by rewrite Z.add_0_l, Nat2Z.id, firstn_all.
Qed.

Lemma mark_up seen ks : 0 ∉ ks -> filter (.≠ 0) (mark seen ks) = filter (.∉ seen) ks.
Proof.
  induction ks as [|k ks IH]; intros H0; [done|]. apply not_elem_of_cons in H0 as [H0 H1].
  unfold mark in *. rewrite fmap_cons. destruct (decide (k ∈ seen)) as [Hk|Hk].
  - rewrite filter_cons_False by tauto. rewrite filter_cons_False by tauto. by apply IH.
  - rewrite filter_cons_True by done. rewrite filter_cons_True by done. by rewrite IH.
Qed.

(** ** One poll *)
Record ctx_ok (C : OC_KEY_REPEAT_CONTEXT) : Prop := {
  ok_held : KeysHeld C = At (cells C.(KeysHeld)) /\ Z.of_nat (length (cells C.(KeysHeld))) = C.(MaxKeysHeld);
  ok_times : KeyHeldTimes C = At (cells C.(KeyHeldTimes)) /\ Z.of_nat (length (cells C.(KeyHeldTimes))) = C.(MaxKeysHeld);
  ok_num : 0 <= C.(NumKeysHeld) <= C.(MaxKeysHeld);
  ok_unique : NoDup (held C).*1;
  ok_zero : 0 ∉ (held C).*1
}.

(** The caller's buffers hold at least the announced numbers of keys. *)
Definition buffers_ok (NumUp : Z) (Up : option (list Z)) (NumDown : Z) (Down : option (list Z)) : Prop :=
  0 <= NumDown /\ (forall b, Up = Some b -> NumUp <= Z.of_nat (length b))
  /\ (forall b, Down = Some b -> NumDown <= Z.of_nat (length b)).

(** The checks of the parameters. *)
Definition unsupported (C : OC_KEY_REPEAT_CONTEXT) (NumUp : Z) (Up : option (list Z)) (NumDown : Z) (Down : option (list Z)) : Prop :=
  (is_Some Up /\ NumUp < C.(MaxKeysHeld)) \/ (is_Some Down /\ C.(MaxKeysHeld) < NumDown)
  \/ 8 < C.(MaxKeysHeld) \/ 8 < NumDown.

#[export] Instance unsupported_dec C NumUp Up NumDown Down : Decision (unsupported C NumUp Up NumDown Down).
Proof. unfold unsupported. apply _. Defined.

Lemma held_length C : ctx_ok C -> length (held C) = Z.to_nat C.(NumKeysHeld).
Proof. intros [[_ Hk] [_ Ht] Hn _ _]. unfold held. rewrite length_zip, !length_take. lia. Qed.

Lemma held_keys C : ctx_ok C ->
  take (Z.to_nat C.(NumKeysHeld)) (cells C.(KeysHeld)) = (held C).*1
  /\ take (Z.to_nat C.(NumKeysHeld)) (cells C.(KeyHeldTimes)) = (held C).*2.
Proof.
  intros [[_ Hk] [_ Ht] Hn _ _]. unfold held.
  rewrite fst_zip, snd_zip by (rewrite !length_take; lia). done.
Qed.

(** The copy of the held keys, followed by what the stack buffer held. *)
Lemma CopyFrom_spec (stack l : list Z) n :
  0 <= n <= Z.of_nat (length l) -> n <= Z.of_nat (length stack) ->
  CopyFrom stack (At l) n = Ret (take (Z.to_nat n) l ++ drop (Z.to_nat n) stack).
Proof.
  intros Hn Hs. unfold CopyFrom. simpl cells. rewrite CopyMem_in by lia. f_equal.
  change (Z.to_nat 0) with 0%nat. unfold slice. change (Z.to_nat 0) with 0%nat. rewrite drop_0.
  apply list_eq. intros i. rewrite lookup_inserts by (rewrite length_take; lia). rewrite length_take, Nat.sub_0_r.
  destruct (decide (i < Z.to_nat n)%nat).
  - rewrite decide_True by lia. rewrite lookup_app_l by (rewrite length_take; lia). done.
  - rewrite decide_False by lia. rewrite lookup_app_r by (rewrite length_take; lia).
    rewrite lookup_drop, length_take. f_equal. lia.
Qed.

(** The outcomes of a poll that finds the keys [raw]. *)
Inductive poll_class := Unsupported | TooManyKeys | NoRoom | Overrun | Detected.

Definition classify (C : OC_KEY_REPEAT_CONTEXT) (raw : list Z) (NumUp : Z) (Up : option (list Z))
    (NumDown : Z) (Down : option (list Z)) : poll_class :=
  if decide (unsupported C NumUp Up NumDown Down) then Unsupported
  else if decide (8 < length raw)%nat then TooManyKeys
  else if decide (is_Some Down /\ NumDown < Z.of_nat (length raw)) then NoRoom
  else if decide (C.(MaxKeysHeld) < Z.of_nat (length raw)) then Overrun
  else Detected.

Definition failed (Status : EFI_STATUS) (Mods : option Z) (NumUp : Z) (Up : option (list Z))
    (NumDown : Z) (Down : option (list Z)) : updown :=
  {| UdStatus := Status; UdModifiers := Mods; NumKeysUp := NumUp; KeysUp := Up;
     NumKeysDown := NumDown; KeysDown := Down |}.

Definition detected (mods : Z) (ups : list Z) (Up : option (list Z)) (downs : list Z) (Down : option (list Z)) : updown :=
  {| UdStatus := EFI_SUCCESS; UdModifiers := Some mods;
     NumKeysUp := Z.of_nat (length ups); KeysUp := list_inserts 0 ups <$> Up;
     NumKeysDown := Z.of_nat (length downs); KeysDown := list_inserts 0 downs <$> Down |}.

Lemma held_after_keys I S D h raw : (held_after I S D h raw).*1 = raw.
Proof.
  unfold held_after. rewrite <- list_fmap_compose. rewrite <- (list_fmap_id raw) at 2. done.
Qed.

(** The context after the scan of all keys. *)
Lemma scanned_context C h raw Delta lk lt junk Down :
  (length raw <= length lk)%nat -> length lt = length lk ->
  Z.of_nat (length lk) = C.(MaxKeysHeld) -> NoDup raw -> 0 ∉ raw ->
  let C' := (scan_at C h raw junk Delta Down lk lt (length raw)).(ScContext) in
  ctx_ok C' /\ held C' = held_after C.(InitialDelay) C.(SubsequentDelay) Delta h raw
  /\ C'.(InitialDelay) = C.(InitialDelay) /\ C'.(SubsequentDelay) = C.(SubsequentDelay)
  /\ C'.(PreviousTime) = C.(PreviousTime) /\ C'.(MaxKeysHeld) = C.(MaxKeysHeld).
Proof.
  intros H1 H2 H3 Hn H0 C'.
  assert (held C' = held_after C.(InitialDelay) C.(SubsequentDelay) Delta h raw) as HE.
  { unfold held, C', scan_at. simpl. rewrite Nat2Z.id, firstn_all.
    rewrite take_app_length. rewrite take_app_length' by (by rewrite length_fmap).
    unfold held_after. clear -raw. induction raw as [|k raw IH]; [done|].
    rewrite !fmap_cons. simpl. f_equal. exact IH. }
  split; [|done]. constructor.
  - split; [done|]. simpl. rewrite length_app, length_take, length_drop. lia.
  - split; [done|]. simpl. rewrite length_app, length_fmap, length_take, length_drop. lia.
  - simpl. lia.
  - by rewrite HE, held_after_keys.
  - by rewrite HE, held_after_keys.
Qed.

(** *** Contexts without held-key buffers *)

(** The scan without held keys: every key is reported down. *)
Definition plain_scan (C : OC_KEY_REPEAT_CONTEXT) (Copy : list Z) (Down : option (list Z)) (raw : list Z) (n : nat) : scan :=
  {| ScContext := C; KeysHeldCopy := Copy; ScDown := list_inserts 0 (take n raw) <$> Down; ScNumDown := Z.of_nat n |}.

Lemma PlainLoop_spec C Copy Times Delta Down raw rawjunk :
  is_null C.(KeysHeld) = true -> fits_buffer Down (length raw) ->
  for_ (length raw) 0 (DownStep (raw ++ rawjunk) Times 0 Delta) (plain_scan C Copy Down raw 0) = Ret (plain_scan C Copy Down raw (length raw)).
Proof.
  intros HN HF. oc_for (fun j s => s = plain_scan C Copy Down raw (Z.to_nat j)) as r Hr.
  - done.
  - intros j s Hj ->. destruct (lookup_lt_is_Some_2 raw (Z.to_nat j)) as [k Hk]; [lia|].
    exists (plain_scan C Copy Down raw (S (Z.to_nat j))). split; [|f_equal; lia].
    unfold DownStep, plain_scan. cbn [ScContext ScDown ScNumDown KeysHeldCopy]. replace j with (Z.of_nat (Z.to_nat j)) at 1 by lia.
    rewrite (rd_nat _ _ k) by (rewrite lookup_app_l by lia; done). cbn [mbind outcome_bind]. rewrite HN. cbn [mbind outcome_bind].
    change (FindHeldKey Copy 0 k) with (@Ret (option Z) None). cbn [mbind outcome_bind].
    assert (length (take (Z.to_nat j) raw) = Z.to_nat j) as HL by (rewrite length_take; lia).
    rewrite <- HL at 2. rewrite emit_spec by (intros b Hb; specialize (HF b Hb); lia). cbn [mbind outcome_bind].
    rewrite (take_S_r raw _ k Hk). do 2 f_equal. lia.
  - rewrite Hr. by rewrite Z.add_0_l, Nat2Z.id.
Qed.

(** The context has no buffers for held keys. *)
Definition no_buffers (C : OC_KEY_REPEAT_CONTEXT) : Prop :=
  is_null C.(KeysHeld) = true /\ is_null C.(KeyHeldTimes) = true /\ C.(NumKeysHeld) <= C.(MaxKeysHeld).

Definition classify_plain (raw : list Z) (NumDown : Z) (Down : option (list Z)) : poll_class :=
  if decide (8 < NumDown) then Unsupported
  else if decide (8 < length raw)%nat then TooManyKeys
  else if decide (is_Some Down /\ NumDown < Z.of_nat (length raw)) then NoRoom
  else Detected.

Section Poll.
Context {St : Type} {A : KeyMapAggregator St} {L : KeyMapAggregatorLaws St}.
Variables StackRaw StackKeys StackTimes : list Z.
Hypothesis HRaw : length StackRaw = 8%nat.
Hypothesis HKeys : length StackKeys = 8%nat.
Hypothesis HTimes : length StackTimes = 8%nat.

(** The checks and the copies, for a context with held-key buffers. *)
Lemma Poll_checks C (s : St) NumUp Up NumDown Down CurrentTime :
  ctx_ok C ->
  exists keyjunk timejunk,
  OcGetUpDownKeys StackRaw StackKeys StackTimes C s NumUp Up NumDown Down CurrentTime
  = if decide (unsupported C NumUp Up NumDown Down)
    then UpDownFail (set_time C CurrentTime) s EFI_UNSUPPORTED None NumUp Up NumDown Down
    else UpDownScan StackRaw (set_time C CurrentTime) s
      ((held C).*1 ++ keyjunk, (held C).*2 ++ timejunk, Z.of_nat (length (held C)))
      (CurrentTime -[64] C.(PreviousTime)) NumUp Up NumDown Down.
Proof using HRaw HKeys HTimes.
  intros HC. pose proof (held_keys C HC) as [EK ET]. pose proof (held_length C HC) as HL.
  destruct HC as [[HK HKl] [HT HTl] Hn _ _].
  exists (drop (Z.to_nat C.(NumKeysHeld)) StackKeys), (drop (Z.to_nat C.(NumKeysHeld)) StackTimes).
  unfold OcGetUpDownKeys, unsupported, OC_HELD_KEYS_DEFAULT_SIZE, OC_KEY_MAP_DEFAULT_SIZE.
  rewrite (bool_decide_true (C.(NumKeysHeld) <= C.(MaxKeysHeld))) by lia. cbn [assert mbind outcome_bind].
  rewrite <- EK, <- ET, HL. cbv zeta. cbn [set_time MaxKeysHeld KeysHeld NumKeysHeld KeyHeldTimes].
  clear EK ET HL. destruct (C.(KeysHeld)) as [| |lk]; [done|done|]. destruct (C.(KeyHeldTimes)) as [| |lt]; [done|done|].
  cbn [is_null cells] in *. rewrite (bool_decide_true (false = false)) by done. cbn [assert mbind outcome_bind negb andb].
  destruct (decide (is_Some Up /\ NumUp < C.(MaxKeysHeld))) as [[H1 H2]|HU].
  { rewrite !bool_decide_true by (done || lia). cbn [andb]. rewrite decide_True by tauto. done. }
  destruct (bool_decide (is_Some Up) && _) eqn:E.
  { apply andb_true_iff in E. rewrite !bool_decide_eq_true in E. destruct HU. split; [tauto|lia]. } clear E.
  destruct (decide (is_Some Down /\ C.(MaxKeysHeld) < NumDown)) as [[H1 H2]|HD].
  { rewrite !bool_decide_true by (done || lia). cbn [andb]. rewrite decide_True by tauto. done. }
  destruct (bool_decide (is_Some Down) && _) eqn:E.
  { apply andb_true_iff in E. rewrite !bool_decide_eq_true in E. destruct HD. split; [tauto|lia]. } clear E.
  case_bool_decide as HM; [rewrite decide_True by lia; done|].
  rewrite !CopyFrom_spec by lia. cbn [mbind outcome_bind].
  case_decide as HN; [rewrite decide_True by lia; done|].
  rewrite decide_False; [by rewrite Z2Nat.id by lia|]. intros [?|[?|[?|?]]]; [done|done|lia|lia].
Qed.

Lemma Poll_spec C (s : St) NumUp Up NumDown Down CurrentTime :
  ctx_ok C -> buffers_ok NumUp Up NumDown Down -> ready s -> 0 ∉ pressed s ->
  let raw := pressed s in
  let Delta := CurrentTime -[64] C.(PreviousTime) in
  let poll := OcGetUpDownKeys StackRaw StackKeys StackTimes C s NumUp Up NumDown Down CurrentTime in
  exists s', ready s' /\ pressed s' = pressed s /\ modifiers s' = modifiers s /\
  match classify C raw NumUp Up NumDown Down with
  | Unsupported => poll = Ret (set_time C CurrentTime, s, failed EFI_UNSUPPORTED None NumUp Up NumDown Down)
  | TooManyKeys => poll = Ret (set_time C CurrentTime, s', failed EFI_BUFFER_TOO_SMALL None NumUp Up NumDown Down)
  | NoRoom => poll = Ret (set_time C CurrentTime, s',
                          failed EFI_BUFFER_TOO_SMALL (Some (modifiers s)) NumUp Up NumDown Down)
  | Overrun => poll = Fault OutOfBounds
  | Detected => exists C',
      poll = Ret (C', s', detected (modifiers s) (keys_up (held C) raw) Up
                            (keys_down C.(InitialDelay) C.(SubsequentDelay) Delta (held C) raw) Down)
      /\ ctx_ok C' /\ held C' = held_after C.(InitialDelay) C.(SubsequentDelay) Delta (held C) raw
      /\ C'.(InitialDelay) = C.(InitialDelay) /\ C'.(SubsequentDelay) = C.(SubsequentDelay)
      /\ C'.(PreviousTime) = CurrentTime /\ C'.(MaxKeysHeld) = C.(MaxKeysHeld)
  end.
Proof using HRaw HKeys HTimes.
  intros HC (HB0 & HBu & HBd) Hs Hzero raw Delta poll.
  destruct (Get_eight StackRaw HRaw s Hs) as (s' & r & E & Hs' & Hp' & Hm' & Hr).
  exists s'. split_and!; [done..|]. unfold poll, classify.
  destruct (Poll_checks C s NumUp Up NumDown Down CurrentTime HC) as (keyjunk & timejunk & ->).
  destruct (decide (unsupported C NumUp Up NumDown Down)) as [HU|HU]; [done|].
  unfold UpDownScan. change OC_KEY_MAP_DEFAULT_SIZE with 8. rewrite E. cbn [mbind outcome_bind].
  fold raw in Hr, Hp'. destruct (decide (length raw <= 8)%nat) as [H8|H8]; last first.
  { destruct Hr as [-> ->]. by rewrite decide_True by lia. }
  destruct Hr as (-> & -> & -> & Keys & -> & HK & HT). change (EFI_ERROR EFI_SUCCESS) with false. cbv iota.
  rewrite decide_False by lia.
  destruct (decide (is_Some Down /\ NumDown < Z.of_nat (length raw))) as [[HD1 HD2]|HD].
  { rewrite !bool_decide_true by (done || lia). done. }
  destruct (bool_decide (is_Some Down) && _) eqn:EB.
  { apply andb_true_iff in EB. rewrite !bool_decide_eq_true in EB. destruct HD. split; [tauto|lia]. }
  clear EB. pose proof (pressed_NoDup s Hs) as Hraw. fold raw in Hraw, Hzero.
  assert (default [] (Some Keys) = raw ++ drop (length raw) Keys) as ->.
  { rewrite <- HT at 1. simpl. by rewrite take_drop. }
  destruct HC as [[HK1 HK2] [HT1 HT2] Hn Hu Hz].
  set (lk := cells C.(KeysHeld)) in *. set (lt := cells C.(KeyHeldTimes)) in *.
  assert (fits_buffer Down (length raw)) as Hfd.
  { intros b Hb. specialize (HBd b Hb). apply Nat.nlt_ge. intros ?. apply HD. split; [done|lia]. }
  match goal with |- context [for_ _ 0 (DownStep _ _ _ _) ?S0] =>
    assert (S0 = scan_at (set_time C CurrentTime) (held C) raw keyjunk Delta Down lk lt 0) as ->
  end.
  { unfold scan_at. simpl. rewrite mark_nil, !drop_0, HK1, HT1. by destruct Down. }
  rewrite !Nat2Z.id. fold Delta.
  destruct (decide (C.(MaxKeysHeld) < Z.of_nat (length raw))) as [HM|HM].
  { by rewrite DownLoop_overrun by (done || lia). }
  rewrite DownLoop_spec by (done || lia). cbn [mbind outcome_bind].
  pose proof (scanned_context (set_time C CurrentTime) (held C) raw Delta lk lt keyjunk Down) as HC'.
  set (T := scan_at _ _ _ _ _ _ _ _ _) in *. cbv zeta in HC'.
  change (KeysHeldCopy T) with (mark (take (length raw) raw) (held C).*1 ++ keyjunk).
  assert (length (held C) = length (mark (take (length raw) raw) (held C).*1)) as -> by
    (unfold mark; by rewrite !length_fmap).
  rewrite UpLoop_spec.
  - cbn [mbind outcome_bind]. rewrite mark_up by done. rewrite firstn_all. exists T.(ScContext). split; [|apply HC'; done || lia].
    unfold detected, T, scan_at, keys_up. simpl. by rewrite firstn_all.
  - intros b Hb. specialize (HBu b Hb). unfold mark. rewrite !length_fmap.
    rewrite held_length by done. apply Nat2Z.inj_le. rewrite Z2Nat.id by lia.
    destruct (decide (NumUp < C.(MaxKeysHeld))); [|lia]. destruct HU. left. split; [done|lia].
Qed.

Lemma Plain_poll_spec C (s : St) NumUp Up NumDown Down CurrentTime :
  no_buffers C -> buffers_ok NumUp Up NumDown Down -> ready s ->
  let raw := pressed s in
  let poll := OcGetUpDownKeys StackRaw StackKeys StackTimes C s NumUp Up NumDown Down CurrentTime in
  exists s', ready s' /\ pressed s' = pressed s /\ modifiers s' = modifiers s /\
  poll = match classify_plain raw NumDown Down with
  | Unsupported => Ret (set_time C CurrentTime, s, failed EFI_UNSUPPORTED None NumUp Up NumDown Down)
  | TooManyKeys => Ret (set_time C CurrentTime, s', failed EFI_BUFFER_TOO_SMALL None NumUp Up NumDown Down)
  | NoRoom => Ret (set_time C CurrentTime, s', failed EFI_BUFFER_TOO_SMALL (Some (modifiers s)) NumUp Up NumDown Down)
  | _ => Ret (set_held (set_time C CurrentTime) C.(KeysHeld) C.(KeyHeldTimes) 0, s', detected (modifiers s) [] Up raw Down)
  end.
Proof using HRaw HKeys HTimes.
  intros (HN1 & HN2 & HN3) (HB0 & _ & HBd) Hs raw poll.
  destruct (Get_eight StackRaw HRaw s Hs) as (s' & r & E & Hs' & Hp' & Hm' & Hr).
  exists s'. split_and!; [done..|]. unfold poll, OcGetUpDownKeys, classify_plain. rewrite (bool_decide_true (C.(NumKeysHeld) <= _)) by done.
  cbn [assert mbind outcome_bind]. cbv zeta. cbn [set_time KeysHeld KeyHeldTimes]. rewrite HN1, HN2, (bool_decide_true (true = true)) by done.
  cbn [assert mbind outcome_bind negb andb]. change OC_KEY_MAP_DEFAULT_SIZE with 8.
  destruct (decide (NumDown > 8)) as [HD|HD]; [by rewrite decide_True by lia|]. rewrite decide_False by lia.
  unfold UpDownScan. change OC_KEY_MAP_DEFAULT_SIZE with 8. rewrite E. cbn [mbind outcome_bind].
  fold raw in Hr, Hp'. destruct (decide (length raw <= 8)%nat) as [H8|H8]; last first.
  { destruct Hr as [-> ->]. by rewrite decide_True by lia. }
  destruct Hr as (-> & -> & -> & Keys & -> & HK & HT). change (EFI_ERROR EFI_SUCCESS) with false. cbv iota. rewrite decide_False by lia.
  destruct (decide (is_Some Down /\ NumDown < Z.of_nat (length raw))) as [[HD1 HD2]|HD'].
  { rewrite !bool_decide_true by (done || lia). done. }
  destruct (bool_decide (is_Some Down) && _) eqn:EB.
  { apply andb_true_iff in EB. rewrite !bool_decide_eq_true in EB. destruct HD'. split; [tauto|lia]. }
  assert (default [] (Some Keys) = raw ++ drop (length raw) Keys) as -> by (rewrite <- HT at 1; simpl; by rewrite take_drop).
  rewrite Nat2Z.id. cbn [set_time KeysHeld KeyHeldTimes].
  match goal with |- context [for_ _ 0 (DownStep _ _ _ _) ?S0] =>
    assert (S0 = plain_scan (set_held (set_time C CurrentTime) (KeysHeld C) (KeyHeldTimes C) 0) StackKeys Down raw 0) as -> by (unfold plain_scan; by destruct Down)
  end.
  rewrite PlainLoop_spec; [|done|]; last first.
  { intros b Hb. specialize (HBd b Hb). apply Nat.nlt_ge. intros ?. apply HD'. split; [done|lia]. }
  cbn [mbind outcome_bind plain_scan ScContext ScDown ScNumDown]. unfold detected. rewrite firstn_all. by destruct Up.
Qed.

End Poll.

(** ** Sessions: polling again and again *)
Section Session.
Context {St : Type} {A : KeyMapAggregator St} {L : KeyMapAggregatorLaws St}.
Variables StackRaw StackKeys StackTimes : list Z.
Hypothesis HRaw : length StackRaw = 8%nat.
Hypothesis HKeys : length StackKeys = 8%nat.
Hypothesis HTimes : length StackTimes = 8%nat.

(** The keys that a successful poll reports in a buffer. *)
Definition reported (n : Z) (Buffer : option (list Z)) : list Z := take (Z.to_nat n) (default [] Buffer).

(** A caller that polls with buffers of eight keys: [polls] gives the state of
    the aggregator and the time of each call, the result lists the keys that were
    reported up and down. *)
Fixpoint session (Up Down : list Z) (C : OC_KEY_REPEAT_CONTEXT) (polls : list (St * Z))
  : outcome (OC_KEY_REPEAT_CONTEXT * list (list Z * list Z)) :=
  match polls with
  | [] => Ret (C, [])
  | (s, t) :: polls =>
      '(C, _, r) ← OcGetUpDownKeys StackRaw StackKeys StackTimes C s 8 (Some Up) 8 (Some Down) t;
      '(C, es) ← session Up Down C polls;
      Ret (C, (reported r.(NumKeysUp) r.(KeysUp), reported r.(NumKeysDown) r.(KeysDown)) :: es)
  end.

(** The keys an observer of the events believes to be down. *)
Definition observe (K : gset Z) (e : list Z * list Z) : gset Z := (K ∖ list_to_set e.1) ∪ list_to_set e.2.

(** Every key that goes up was down; without key repeat, every key that goes
    down was up. *)
Fixpoint honest (Initial : Z) (K : gset Z) (es : list (list Z * list Z)) : Prop :=
  match es with
  | [] => True
  | e :: es =>
      (list_to_set e.1 : gset Z) ⊆ K /\ (Initial = 0 -> (list_to_set e.2 : gset Z) ## K)
      /\ honest Initial (observe K e) es
  end.

Definition poll_ok (p : St * Z) : Prop := ready p.1 /\ (0 ∉ pressed p.1) /\ (length (pressed p.1) <= 8)%nat.

Lemma reported_inserts ks (b : list Z) :
  (length ks <= length b)%nat -> reported (Z.of_nat (length ks)) (Some (list_inserts 0 ks b)) = ks.
Proof.
  intros H. unfold reported. simpl. rewrite Nat2Z.id. apply list_eq. intros i.
  destruct (decide (i < length ks)%nat).
  - rewrite lookup_take_lt by done. rewrite lookup_inserts by lia. rewrite decide_True by lia. by rewrite Nat.sub_0_r.
  - rewrite lookup_take_ge by lia. symmetry. apply lookup_ge_None. lia.
Qed.

Lemma keys_up_length h raw : (length (keys_up h raw) <= length h)%nat.
Proof. unfold keys_up. etransitivity; [apply length_filter|]. by rewrite length_fmap. Qed.

Lemma keys_down_length I S D h raw : (length (keys_down I S D h raw) <= length raw)%nat.
Proof. apply length_filter. Qed.

Lemma elem_of_keys_down I S D h raw k :
  k ∈ keys_down I S D h raw <-> (key_event I S D h k).1 = true /\ k ∈ raw.
Proof. unfold keys_down. by rewrite list_elem_of_filter. Qed.

Lemma key_event_new I S D h k : k ∉ h.*1 -> (key_event I S D h k).1 = true.
Proof. intros H%held_time_None. unfold key_event. by rewrite H. Qed.

Lemma key_event_old S D h k : k ∈ h.*1 -> (key_event 0 S D h k).1 = false.
Proof.
  intros H. unfold key_event. destruct (held_time h k) eqn:E; [done|]. by apply held_time_None in E.
Qed.

(** One poll of a session. *)
Lemma session_step Up Down C s t :
  length Up = 8%nat -> length Down = 8%nat -> ctx_ok C -> C.(MaxKeysHeld) = 8 -> poll_ok (s, t) ->
  let Delta := t -[64] C.(PreviousTime) in
  exists C' s' r, OcGetUpDownKeys StackRaw StackKeys StackTimes C s 8 (Some Up) 8 (Some Down) t = Ret (C', s', r)
    /\ ctx_ok C' /\ C'.(MaxKeysHeld) = 8
    /\ held C' = held_after C.(InitialDelay) C.(SubsequentDelay) Delta (held C) (pressed s)
    /\ C'.(InitialDelay) = C.(InitialDelay) /\ C'.(SubsequentDelay) = C.(SubsequentDelay) /\ C'.(PreviousTime) = t
    /\ reported r.(NumKeysUp) r.(KeysUp) = keys_up (held C) (pressed s)
    /\ reported r.(NumKeysDown) r.(KeysDown)
       = keys_down C.(InitialDelay) C.(SubsequentDelay) Delta (held C) (pressed s).
Proof using HRaw HKeys HTimes.
  intros HU HD HC HM (Hs & H0 & H8) Delta. simpl in Hs, H0, H8.
  destruct (Poll_spec StackRaw StackKeys StackTimes HRaw HKeys HTimes C s 8 (Some Up) 8 (Some Down) t HC)
    as (s' & _ & _ & _ & H).
  { split; [done|]. split; intros b [= <-]; lia. }
  { done. } { done. }
  unfold classify in H. rewrite decide_False in H by (intros [[_ ?]|[[_ ?]|[?|?]]]; lia).
  rewrite decide_False in H by lia. rewrite decide_False in H by lia. rewrite decide_False in H by lia.
  destruct H as (C' & E & HC' & HE & H1 & H2 & H3 & H4).
  eexists C', s', _. split; [exact E|]. split_and!; try done; [by rewrite H4| |].
  - simpl. apply reported_inserts. rewrite HU. pose proof (keys_up_length (held C) (pressed s)).
    pose proof (held_length C HC). destruct HC. lia.
  - simpl. apply reported_inserts. rewrite HD.
    pose proof (keys_down_length C.(InitialDelay) C.(SubsequentDelay) Delta (held C) (pressed s)). fold Delta. lia.
Qed.

Lemma observe_poll I S D h raw :
  observe (list_to_set h.*1) (keys_up h raw, keys_down I S D h raw) = list_to_set raw.
Proof.
  apply set_eq. intros k. unfold observe. simpl.
  rewrite elem_of_union, elem_of_difference, !elem_of_list_to_set, elem_of_keys_down.
  unfold keys_up. rewrite list_elem_of_filter.
  destruct (decide (k ∈ raw)); [|tauto]. destruct (decide (k ∈ h.*1)); [tauto|].
  pose proof (key_event_new I S D h k). tauto.
Qed.

Lemma session_spec Up Down polls : forall C,
  length Up = 8%nat -> length Down = 8%nat -> ctx_ok C -> C.(MaxKeysHeld) = 8 -> Forall poll_ok polls ->
  exists C' es, session Up Down C polls = Ret (C', es) /\ ctx_ok C'
    /\ (held C').*1 = default (held C).*1 (pressed <$> (last polls.*1))
    /\ foldl observe (list_to_set (held C).*1) es = list_to_set (held C').*1
    /\ honest C.(InitialDelay) (list_to_set (held C).*1) es.
Proof using HRaw HKeys HTimes.
  induction polls as [|[s t] polls IH]; intros C HU HD HC HM Hp.
  { exists C, []. done. }
  apply Forall_cons in Hp as [Hp Hps].
  destruct (session_step Up Down C s t HU HD HC HM Hp) as (C1 & s1 & r & E & HC1 & HM1 & HE & HI & _ & _ & Eu & Ed).
  destruct (IH C1 HU HD HC1 HM1 Hps) as (C' & es & E' & HC' & HL & HF & Hh).
  cbn [session]. rewrite E. cbn [mbind outcome_bind]. rewrite E'. cbn [mbind outcome_bind].
  eexists C', _. split; [done|]. rewrite Eu, Ed. split; [done|].
  assert ((held C1).*1 = pressed s) as HK by (by rewrite HE, held_after_keys).
  rewrite HK in *. split; [|split].
  - rewrite HL. rewrite fmap_cons, last_cons. by destruct (last polls.*1).
  - simpl. by rewrite observe_poll.
  - simpl. rewrite observe_poll. rewrite HI in Hh. split_and!; [| |done].
    + intros k. rewrite !elem_of_list_to_set. unfold keys_up. rewrite list_elem_of_filter. tauto.
    + intros HI0. rewrite HI0. apply elem_of_disjoint. intros k. rewrite !elem_of_list_to_set, elem_of_keys_down.
      intros [Hk _] Hin. by rewrite key_event_old in Hk.
Qed.

(** ** Keys held since the initialisation *)
Lemma wrap_swrap w x : 0 < w -> wrap w (swrap w x) = wrap w x.
Proof.
  intros Hw. unfold swrap, wrap. case_decide; [by rewrite Z.mod_mod by lia|].
  rewrite <- (Z.mod_add (_ - _) 1) by lia. rewrite Z.mul_1_l, Z.sub_add. by rewrite Z.mod_mod by lia.
Qed.

Lemma swrap_add x y : swrap 64 (swrap 64 x + wrap 64 y) = swrap 64 (x + y).
Proof.
  unfold swrap at 1 3. assert (wrap 64 (swrap 64 x + wrap 64 y) = wrap 64 (x + y)) as ->; [|done].
  unfold wrap at 1. rewrite Z.add_mod by lia. fold (wrap 64 (swrap 64 x)). rewrite wrap_swrap by lia.
  unfold wrap. by rewrite Z.mod_mod, <- Z.add_mod by lia.
Qed.

Lemma swrap_opp x : swrap 64 (- swrap 64 x) = swrap 64 (- x).
Proof.
  unfold swrap at 1 3. assert (wrap 64 (- swrap 64 x) = wrap 64 (- x)) as ->; [|done].
  unfold wrap at 1. rewrite <- (Z.sub_0_l (swrap 64 x)), Zminus_mod. fold (wrap 64 (swrap 64 x)).
  rewrite wrap_swrap by lia. unfold wrap. by rewrite <- Zminus_mod, Z.sub_0_l.
Qed.

Lemma swrap_small x : - 2 ^ 63 <= x < 2 ^ 63 -> swrap 64 x = x.
Proof.
  intros H. unfold swrap. destruct (decide (0 <= x)).
  - rewrite wrap_small by lia. by rewrite decide_True by lia.
  - rewrite wrap_neg by lia. rewrite decide_False by lia. lia.
Qed.

(** The time of a key that was down when the context was initialised. *)
Definition dormant (C : OC_KEY_REPEAT_CONTEXT) (k : Z) : Prop :=
  held_time (held C) k = Some (swrap 64 (C.(PreviousTime) - FarFuture - C.(InitialDelay))).

Lemma held_time_after I S D h raw k :
  k ∈ raw -> held_time (held_after I S D h raw) k = Some (key_event I S D h k).2.
Proof.
  induction raw as [|x raw IH]; intros Hk; [by apply not_elem_of_nil in Hk|].
  unfold held_after. rewrite fmap_cons. simpl. case_decide as Hx; [by subst|].
  apply IH. by apply elem_of_cons in Hk as [->|?].
Qed.

Lemma dormant_event C k t S :
  0 <= C.(InitialDelay) < 2 ^ 62 -> 0 <= t < FarFuture -> dormant C k ->
  key_event C.(InitialDelay) S (t -[64] C.(PreviousTime)) (held C) k
  = (false, swrap 64 (t - FarFuture - C.(InitialDelay))).
Proof.
  intros HI Ht Hd. unfold key_event. rewrite Hd. cbv zeta. rewrite swrap_add.
  replace (C.(PreviousTime) - FarFuture - C.(InitialDelay) + (t - C.(PreviousTime)))
    with (t - FarFuture - C.(InitialDelay)) by lia.
  rewrite (bool_decide_false (0 <= _)); [by rewrite andb_false_r|].
  assert (0 < FarFuture < 2 ^ 62) by done. rewrite swrap_small by lia. lia.
Qed.

Lemma dormant_session Up Down k polls : forall C C' es,
  length Up = 8%nat -> length Down = 8%nat -> ctx_ok C -> C.(MaxKeysHeld) = 8 -> Forall poll_ok polls ->
  0 <= C.(InitialDelay) < 2 ^ 62 -> Forall (fun p => 0 <= p.2 < FarFuture /\ k ∈ pressed p.1) polls ->
  dormant C k -> session Up Down C polls = Ret (C', es) -> Forall (fun e => k ∉ e.2) es.
Proof using HRaw HKeys HTimes.
  induction polls as [|[s t] polls IH]; intros C C' es HU HD HC HM Hp HI Hk Hd E; simpl in E.
  { by injection E as _ <-. }
  apply Forall_cons in Hp as [Hp Hps]. apply Forall_cons in Hk as [[Ht Hk] Hks]. simpl in Ht, Hk.
  destruct (session_step Up Down C s t HU HD HC HM Hp) as (C1 & s1 & r & E1 & HC1 & HM1 & HE & EI & _ & EP & _ & Ed).
  rewrite E1 in E. cbn [mbind outcome_bind] in E.
  destruct (session Up Down C1 polls) as [[C2 es2]|] eqn:E2; cbn [mbind outcome_bind] in E; [|done].
  injection E as _ <-. pose proof (dormant_event C k t C.(SubsequentDelay) HI Ht Hd) as Hev.
  apply Forall_cons. split.
  - simpl. rewrite Ed. rewrite elem_of_keys_down, Hev. by intros [? _].
  - apply (IH C1 C2); try done; [by rewrite EI|].
    unfold dormant. rewrite HE, held_time_after by done. rewrite Hev, EI, EP. done.
Qed.

Lemma held_time_fmap (t : Z) raw k : k ∈ raw -> held_time ((fun k => (k, t)) <$> raw) k = Some t.
Proof.
  induction raw as [|x raw IH]; intros Hk; [by apply not_elem_of_nil in Hk|].
  simpl. case_decide; [done|]. apply IH. by apply elem_of_cons in Hk as [->|?].
Qed.

(** What the fresh buffers of the context are. *)
Definition junk_ok (Junk : Z -> list Z) : Prop := forall n, 0 <= n -> Z.of_nat (length (Junk n)) = n.

Lemma Init_spec Junk LooksNull s Max Initial Subsequent :
  junk_ok Junk -> ready s -> 0 ∉ pressed s ->
  0 < Max <= 8 -> Z.of_nat (length (pressed s)) <= Max ->
  exists C s', OcInitKeyRepeatContext StackRaw StackKeys StackTimes (fun _ _ => true) LooksNull Junk s
                 Max Initial Subsequent true = Ret (Some C, s', EFI_SUCCESS)
    /\ ctx_ok C /\ C.(MaxKeysHeld) = Max /\ C.(InitialDelay) = Initial /\ C.(SubsequentDelay) = Subsequent
    /\ (held C).*1 = pressed s /\ forall k, k ∈ pressed s -> dormant C k.
Proof using HRaw HKeys HTimes.
  intros HJ Hs H0 HM Hp. unfold OcInitKeyRepeatContext. cbn [negb].
  rewrite !(wrap_small 64) by lia. rewrite !Z.div_mul by lia.
  rewrite (bool_decide_true (Max ≠ 0)), (bool_decide_false (Max = 0)) by lia. cbn [andb orb negb].
  rewrite !decide_False by lia. cbv zeta.
  set (C0 := Build_OC_KEY_REPEAT_CONTEXT _ _ _ _ _ _ _).
  assert (held C0 = []) as HE0 by done.
  assert (ctx_ok C0) as HC0.
  { constructor; rewrite ?HE0; simpl; try done; try (split; [done|]; apply HJ; lia); [lia|apply NoDup_nil_2|apply not_elem_of_nil]. }
  destruct (Poll_spec StackRaw StackKeys StackTimes HRaw HKeys HTimes C0 s 0 None Max None FarFuture HC0)
    as (s' & _ & _ & _ & H).
  { split; [lia|]. done. }
  { done. } { done. }
  unfold classify in H. rewrite decide_False in H.
  2: { intros [[[? ?] _]|[[[? ?] _]|[?|?]]]; [done|done|simpl in *; lia|lia]. }
  rewrite decide_False in H by lia. rewrite decide_False in H by (intros [[? ?] _]; done).
  rewrite decide_False in H by (simpl; lia).
  destruct H as (C' & E & HC' & HE & H1 & H2 & H3 & H4). rewrite E. cbn [mbind outcome_bind detected UdStatus].
  change (EFI_ERROR EFI_SUCCESS) with false. cbv iota.
  exists C', s'. split; [done|]. split; [done|]. rewrite H4, H1, H2. split_and!; [done..| |].
  - by rewrite HE, held_after_keys.
  - intros k Hk. unfold dormant. rewrite HE, held_time_after by done. rewrite HE0, H3, H1.
    replace (FarFuture - FarFuture - C0.(InitialDelay)) with (- Initial) by (subst C0; simpl InitialDelay; lia).
    change (Some (swrap 64 (- swrap 64 Initial)) = Some (swrap 64 (- Initial))). by rewrite swrap_opp.
Qed.

End Session.

(** ** Properties *)

(** C37: [OcGetUpDownKeys] on every path, for any aggregator that keeps its contract and
    key buffers with the room that is announced.
    With held-key buffers: unsupported buffer sizes, more than eight pressed keys and a
    key buffer that is too small are reported without touching the held keys (only the
    poll time advances). Otherwise exactly the held keys that are no longer pressed are
    reported up, exactly the pressed keys that are new or whose repeat time has come are
    reported down, and the held keys become the pressed ones. Without a key buffer the
    held-key buffer is overrun exactly when more keys are pressed than it holds.
    Without held-key buffers: the same errors but for the sizes of those buffers, and
    otherwise every pressed key is reported down and none up; no memory is overrun.
    A context with one of the two buffers, or with more held keys than it has room for,
    fails an assertion. *)
Theorem UpDown_outcome (St : Type) (A : KeyMapAggregator St) (L : KeyMapAggregatorLaws St)
    StackRaw StackKeys StackTimes C (s : St) NumUp Up NumDown Down CurrentTime :
  length StackRaw = 8%nat -> length StackKeys = 8%nat -> length StackTimes = 8%nat ->
  buffers_ok NumUp Up NumDown Down -> ready s -> 0 ∉ pressed s ->
  let raw := pressed s in
  let Delta := CurrentTime -[64] C.(PreviousTime) in
  let poll := OcGetUpDownKeys StackRaw StackKeys StackTimes C s NumUp Up NumDown Down CurrentTime in
  let Now := set_time C CurrentTime in
  (ctx_ok C -> exists s', ready s' /\ pressed s' = pressed s /\ modifiers s' = modifiers s /\
   match classify C raw NumUp Up NumDown Down with
   | Unsupported => poll = Ret (Now, s, failed EFI_UNSUPPORTED None NumUp Up NumDown Down)
   | TooManyKeys => poll = Ret (Now, s', failed EFI_BUFFER_TOO_SMALL None NumUp Up NumDown Down)
   | NoRoom => poll = Ret (Now, s', failed EFI_BUFFER_TOO_SMALL (Some (modifiers s)) NumUp Up NumDown Down)
   | Overrun => poll = Fault OutOfBounds
   | Detected => exists C',
       poll = Ret (C', s', detected (modifiers s) (keys_up (held C) raw) Up
                             (keys_down C.(InitialDelay) C.(SubsequentDelay) Delta (held C) raw) Down)
       /\ ctx_ok C' /\ held C' = held_after C.(InitialDelay) C.(SubsequentDelay) Delta (held C) raw
       /\ C'.(InitialDelay) = C.(InitialDelay) /\ C'.(SubsequentDelay) = C.(SubsequentDelay)
       /\ C'.(PreviousTime) = CurrentTime /\ C'.(MaxKeysHeld) = C.(MaxKeysHeld)
   end)
  /\ (no_buffers C -> exists s', ready s' /\ pressed s' = pressed s /\ modifiers s' = modifiers s /\
   poll = match classify_plain raw NumDown Down with
   | Unsupported => Ret (Now, s, failed EFI_UNSUPPORTED None NumUp Up NumDown Down)
   | TooManyKeys => Ret (Now, s', failed EFI_BUFFER_TOO_SMALL None NumUp Up NumDown Down)
   | NoRoom => Ret (Now, s', failed EFI_BUFFER_TOO_SMALL (Some (modifiers s)) NumUp Up NumDown Down)
   | _ => Ret (set_held Now C.(KeysHeld) C.(KeyHeldTimes) 0, s', detected (modifiers s) [] Up raw Down)
   end)
  /\ (C.(MaxKeysHeld) < C.(NumKeysHeld) \/ is_null C.(KeysHeld) <> is_null C.(KeyHeldTimes) -> poll = Fault AssertFailed).
Proof.
  intros HR HK HT HB Hs H0 raw Delta poll Now. split; [|split].
  - intros HC. by apply (Poll_spec StackRaw StackKeys StackTimes HR HK HT).
  - intros HC. by apply (Plain_poll_spec StackRaw StackKeys StackTimes HR HK HT).
  - intros HC. unfold poll, OcGetUpDownKeys. destruct (decide (C.(NumKeysHeld) <= C.(MaxKeysHeld))) as [H1|H1].
    + rewrite (bool_decide_true (_ <= _)) by done. cbn [assert mbind outcome_bind].
      rewrite (bool_decide_false (is_null _ = _)) by (destruct HC; [lia|done]). done.
    + by rewrite (bool_decide_false (C.(NumKeysHeld) <= _)) by done.
Qed.

(** A context of two held keys: 4 is down since the last poll, 6 as well. *)
Definition demo_context (Max : Z) : OC_KEY_REPEAT_CONTEXT := {|
  InitialDelay := 350;
  SubsequentDelay := 80;
  PreviousTime := 100;
  KeysHeld := At [4; 6; 0; 0; 0; 0; 0; 0];
  KeyHeldTimes := At [-10; -200; 0; 0; 0; 0; 0; 0];
  NumKeysHeld := 2;
  MaxKeysHeld := Max
|}.

Lemma demo_context_ok : ctx_ok (demo_context 8).
Proof.
  constructor; try done. all: vm_compute held; simpl.
  - by apply (bool_decide_unpack _).
  - by apply (bool_decide_unpack _).
Qed.

Lemma demo_zero : 0 ∉ pressed demo_pressed.
Proof. by apply (bool_decide_unpack _). Qed.

(** Keys 4 and 5 are pressed now: 6 goes up, 5 goes down and 4 repeats. *)
Lemma UpDown_outcome_witness :
  exists C' s', OcGetUpDownKeys (replicate 8 9) (replicate 8 9) (replicate 8 9) (demo_context 8) demo_pressed
      8 (Some (replicate 8 1)) 8 (Some (replicate 8 1)) 120
    = Ret (C', s', detected 2 [6] (Some (replicate 8 1)) [4; 5] (Some (replicate 8 1)))
    /\ held C' = [(4, -70); (5, -350)].
Proof.
  destruct (UpDown_outcome KEY_MAP_AGGREGATOR_DATA _ _ (replicate 8 9) (replicate 8 9) (replicate 8 9)
              (demo_context 8) demo_pressed 8 (Some (replicate 8 1)) 8 (Some (replicate 8 1)) 120)
    as (H & _); try reflexivity.
  - split; [lia|]. split; intros b [= <-]; simpl; lia.
  - apply demo_ready.
  - apply demo_zero.
  - destruct (H demo_context_ok) as (s' & _ & _ & _ & C' & E & _ & HE & _).
    exists C', s'. split; [exact E|]. rewrite HE. vm_compute. reflexivity.
Defined.

(** Without a key buffer the announced number of keys does not bound the keys that are
    processed: two keys are pressed, one is asked for, and both become held keys. *)
Example keys_beyond_requested :
  match OcGetUpDownKeys (replicate 8 9) (replicate 8 9) (replicate 8 9) (demo_context 8) demo_pressed 0 None 1 None 120 with
  | Ret (C', _, r) => r.(UdStatus) = EFI_SUCCESS /\ (held C').*1 = [4; 5]
  | Fault _ => False
  end.
Proof. vm_compute. done. Qed.

(** Without a key buffer, two pressed keys overrun a context for one key. *)
Example overrun_one_key :
  OcInitKeyRepeatContext (replicate 8 9) (replicate 8 9) (replicate 8 9) (fun _ _ => true) false
    (fun n => replicate (Z.to_nat n) 7) demo_pressed 1 0 0 true = Fault OutOfBounds.
Proof. vm_compute. reflexivity. Qed.

(** A context without held keys cannot be freed. *)
Example free_without_held_keys LooksNull :
  match OcInitKeyRepeatContext (replicate 8 9) (replicate 8 9) (replicate 8 9) (fun _ _ => true) LooksNull
          (fun n => replicate (Z.to_nat n) 7) demo_pressed 0 0 0 false with
  | Ret (Context, _, Status) => Status = EFI_SUCCESS /\ OcFreeKeyRepeatContext Context = Fault OutOfBounds
  | Fault _ => False
  end.
Proof. done. Qed.

(** C24: A caller that polls again and again with full-size buffers never meets
    an error as long as at most eight keys are pressed, and an observer who only
    sees the reported transitions always knows the pressed keys: every key that
    goes up was down, every key that goes down without key repeat was up, and
    after the last poll the tracked set is the set of pressed keys. *)
Theorem Session_tracks (St : Type) (A : KeyMapAggregator St) (L : KeyMapAggregatorLaws St)
    StackRaw StackKeys StackTimes Up Down C (polls : list (St * Z)) :
  length StackRaw = 8%nat -> length StackKeys = 8%nat -> length StackTimes = 8%nat ->
  length Up = 8%nat -> length Down = 8%nat -> ctx_ok C -> C.(MaxKeysHeld) = 8 -> Forall poll_ok polls ->
  exists C' es, session StackRaw StackKeys StackTimes Up Down C polls = Ret (C', es) /\ ctx_ok C'
    /\ (held C').*1 = default (held C).*1 (pressed <$> last polls.*1)
    /\ foldl observe (list_to_set (held C).*1) es = list_to_set (held C').*1
    /\ honest C.(InitialDelay) (list_to_set (held C).*1) es.
Proof. intros. by apply session_spec. Qed.

Lemma demo_poll_ok : Forall poll_ok [(demo_pressed, 120); (InitialData, 130)].
Proof.
  repeat apply Forall_cons_2; [| |apply Forall_nil_2]; (split; [|split]).
  - apply demo_ready.
  - apply demo_zero.
  - by apply Nat.leb_le.
  - split; [apply InitialData_Inv|done].
  - apply not_elem_of_nil.
  - by apply Nat.leb_le.
Qed.

Lemma Session_tracks_witness :
  exists C' es, session (replicate 8 9) (replicate 8 9) (replicate 8 9) (replicate 8 0) (replicate 8 0)
      (demo_context 8) [(demo_pressed, 120); (InitialData, 130)] = Ret (C', es)
    /\ foldl observe (list_to_set [4; 6]) es = ∅.
Proof.
  destruct (Session_tracks KEY_MAP_AGGREGATOR_DATA _ _ (replicate 8 9) (replicate 8 9) (replicate 8 9)
              (replicate 8 0) (replicate 8 0) (demo_context 8) [(demo_pressed, 120); (InitialData, 130)])
    as (C' & es & E & _ & HL & HF & _); try reflexivity.
  - apply demo_context_ok.
  - apply demo_poll_ok.
  - exists C', es. split; [exact E|]. change (held (demo_context 8)).*1 with [4; 6] in HF. rewrite HF, HL. reflexivity.
Defined.

(** A context that is initialised with the prevention of initial repeats:
    creating it succeeds, its held keys are the keys that are down, and a key that
    stays down from then on is never reported as going down, for all polls at
    times before 2^62. *)
Theorem Init_prevents_repeat (St : Type) (A : KeyMapAggregator St) (L : KeyMapAggregatorLaws St)
    StackRaw StackKeys StackTimes LooksNull Junk (s : St) Initial Subsequent :
  length StackRaw = 8%nat -> length StackKeys = 8%nat -> length StackTimes = 8%nat ->
  junk_ok Junk -> ready s -> 0 ∉ pressed s -> (length (pressed s) <= 8)%nat -> 0 <= Initial < 2 ^ 62 ->
  exists C s', OcInitKeyRepeatContext StackRaw StackKeys StackTimes (fun _ _ => true) LooksNull Junk s
                 OC_HELD_KEYS_DEFAULT_SIZE Initial Subsequent true = Ret (Some C, s', EFI_SUCCESS)
    /\ ctx_ok C /\ (held C).*1 = pressed s
    /\ forall Up Down k (polls : list (St * Z)),
         length Up = 8%nat -> length Down = 8%nat -> Forall poll_ok polls -> k ∈ pressed s ->
         Forall (fun p => 0 <= p.2 < FarFuture /\ k ∈ pressed p.1) polls ->
         exists C' es, session StackRaw StackKeys StackTimes Up Down C polls = Ret (C', es)
           /\ Forall (fun e => k ∉ e.2) es.
Proof.
  intros HR HK HT HJ Hs H0 H8 HI.
  destruct (Init_spec StackRaw StackKeys StackTimes HR HK HT Junk LooksNull s OC_HELD_KEYS_DEFAULT_SIZE
              Initial Subsequent HJ Hs H0) as (C & s' & E & HC & HM & Ei & Es & Hh & Hd);
    [done|unfold OC_HELD_KEYS_DEFAULT_SIZE; lia|].
  exists C, s'. split_and!; [done..|]. intros Up Down k polls HU HD Hp Hk Hpk.
  destruct (session_spec StackRaw StackKeys StackTimes HR HK HT Up Down polls C HU HD HC HM Hp)
    as (C' & es & E' & _). exists C', es. split; [done|].
  apply (dormant_session StackRaw StackKeys StackTimes HR HK HT Up Down k polls C C' es); try done.
  - by rewrite Ei.
  - by apply Hd.
Qed.

Lemma Init_prevents_repeat_witness :
  exists C s', OcInitKeyRepeatContext (replicate 8 9) (replicate 8 9) (replicate 8 9) (fun _ _ => true) true
      (fun n => replicate (Z.to_nat n) 7) demo_pressed 8 350 80 true = Ret (Some C, s', EFI_SUCCESS)
    /\ exists C' es, session (replicate 8 9) (replicate 8 9) (replicate 8 9) (replicate 8 0) (replicate 8 0) C
         [(demo_pressed, 1000); (demo_pressed, 5000)] = Ret (C', es) /\ Forall (fun e => 4 ∉ e.2) es.
Proof.
  destruct (Init_prevents_repeat KEY_MAP_AGGREGATOR_DATA _ _ (replicate 8 9) (replicate 8 9) (replicate 8 9)
              true (fun n => replicate (Z.to_nat n) 7) demo_pressed 350 80) as (C & s' & E & _ & _ & H); try reflexivity.
  - intros n Hn. rewrite length_replicate. lia.
  - apply demo_ready.
  - apply demo_zero.
  - apply Nat.leb_le. reflexivity.
  - lia.
  - exists C, s'. split; [exact E|]. apply H; try reflexivity.
    + pose proof demo_poll_ok as HP. apply Forall_cons in HP as [HP _]. by repeat apply Forall_cons_2.
    + by apply (bool_decide_unpack _).
    + by repeat apply Forall_cons_2; [split; [|by apply (bool_decide_unpack _)]..|].
Defined.

End UpDown.
