(* ===== verification/Digest.v ===== *)
(** * Message digests with a byte-wise update: MD5, SHA-1 and SHA-256

    Library/OcCryptoLib/Md5.c, Sha1.c and the SHA-256 part of Sha2.c share one
    streaming scheme: bytes are collected in a block of 64, every full block is
    compressed, and the final call pads and appends the length in bits. Section
    [Stream] models that scheme for a compression function and proves that it
    computes the compression of the padded message, whatever the chunks of the
    input are; the compression functions and the wrappers follow. SHA-256 is also
    compared with the message schedule and the rounds of FIPS 180-4. *)
From S2P Require Import Prelude.

Module Digest.

(** ** Contexts

    [MD5_CONTEXT], [SHA1_CONTEXT] and [SHA256_CONTEXT]; the constants [K] of the
    SHA-1 context never change and are a definition below. *)
Record hash_context := {
  Data : list Z;
  DataLen : Z;
  BitLen : Z;
  State : list Z
}.

(** ** The streaming scheme *)
Section Stream.
(** The compression of a 64-byte block, and the store of the 64-bit length. *)
Variable Transform : list Z -> list Z -> list Z.
Variable StoreLength : Z -> list Z.

(** The body of the loop of the update functions. *)
Definition UpdateByte (Ctx : hash_context) (b : Z) : outcome hash_context :=
  Data' ← wr Ctx.(Data) Ctx.(DataLen) b;
  let DataLen' := Ctx.(DataLen) +[32] 1 in
  if decide (DataLen' = 64) then
    Ret {| Data := Data'; DataLen := 0; BitLen := Ctx.(BitLen) +[64] 512;
           State := Transform Ctx.(State) Data' |}
  else
    Ret {| Data := Data'; DataLen := DataLen'; BitLen := Ctx.(BitLen); State := Ctx.(State) |}.

(** The loop, for an index of [iw] bits. *)
Definition UpdateBody (iw : Z) (Input : list Z) (Len : Z) (s : Z * hash_context)
  : outcome (Z * hash_context + hash_context) :=
  let '(Index, Ctx) := s in
  if decide (Index < Len) then
    b ← rd Input Index;
    Ctx ← UpdateByte Ctx b;
    Ret (inl (Index +[iw] 1, Ctx))
  else Ret (inr Ctx).

Definition UpdateLoop (iw : Z) (fuel : positive) (Ctx : hash_context) (Input : list Z) (Len : Z) : outcome hash_context :=
  while_bin fuel (UpdateBody iw Input Len) (0, Ctx).

(** The final functions, up to the output of the digest. *)
Definition FinalBlocks (Ctx : hash_context) : outcome hash_context :=
  Data' ← wr Ctx.(Data) Ctx.(DataLen) 0x80;
  let Index := Ctx.(DataLen) + 1 in
  '(Data', State') ←
    (if decide (Ctx.(DataLen) < 56) then
       Data' ← ZeroMem Data' Index (56 - Index);
       Ret (Data', Ctx.(State))
     else
       Data' ← ZeroMem Data' Index (64 - Index);
       let State' := Transform Ctx.(State) Data' in
       Data' ← ZeroMem Data' 0 56;
       Ret (Data', State'));
  let BitLen' := Ctx.(BitLen) +[64] (Ctx.(DataLen) * 8) in
  Data' ← wr_slice Data' 56 (StoreLength BitLen');
  Ret {| Data := Data'; DataLen := Ctx.(DataLen); BitLen := BitLen'; State := Transform State' Data' |}.

End Stream.

(** The bytes of a stored 64-bit length, most and least significant first. *)
Definition StoreLengthBE (x : Z) : list Z :=
  (fun i => wrap 8 (Z.shiftr x (56 - 8 * Z.of_nat i))) <$> seq 0 8.
Definition StoreLengthLE (x : Z) : list Z :=
  (fun i => wrap 8 (Z.shiftr x (8 * Z.of_nat i))) <$> seq 0 8.

(** The loop that stores the digest: byte [Index] of every state word [j]. *)
Definition StoreDigest (Words : nat) (Shift : Z -> Z) (St : list Z) (Hash : list Z) : outcome (list Z) :=
  for_ 4 0 (fun Index Hash =>
    for_ Words 0 (fun j Hash =>
      s ← rd St j;
      wr Hash (Index + 4 * j) (Z.land (Z.shiftr s (Shift Index)) 0xFF)) Hash) Hash.

(** ** Macros *)
Definition ROTLEFT (w a b : Z) : Z := Z.lor (wrap w (Z.shiftl a b)) (Z.shiftr a (w - b)).
Definition ROTRIGHT (w a b : Z) : Z := Z.lor (Z.shiftr a b) (wrap w (Z.shiftl a (w - b))).
Definition SHFR (a b : Z) : Z := Z.shiftr a b.
Definition NOT (w x : Z) : Z := 2 ^ w - 1 - x.
Definition CH (w x y z : Z) : Z := Z.lxor (Z.land x y) (Z.land (NOT w x) z).
Definition MAJ (x y z : Z) : Z := Z.lxor (Z.lxor (Z.land x y) (Z.land x z)) (Z.land y z).

(** ** MD5 *)
Inductive md5_fn := FF | GG | HH | II.
Inductive md5_reg := RA | RB | RC | RD.

Definition Md5Ops : list (md5_fn * md5_reg * md5_reg * md5_reg * md5_reg * nat * Z * Z) :=
  [ (FF, RA, RB, RC, RD, 0%nat, 7, 0xd76aa478);
    (FF, RD, RA, RB, RC, 1%nat, 12, 0xe8c7b756);
    (FF, RC, RD, RA, RB, 2%nat, 17, 0x242070db);
    (FF, RB, RC, RD, RA, 3%nat, 22, 0xc1bdceee);
    (FF, RA, RB, RC, RD, 4%nat, 7, 0xf57c0faf);
    (FF, RD, RA, RB, RC, 5%nat, 12, 0x4787c62a);
    (FF, RC, RD, RA, RB, 6%nat, 17, 0xa8304613);
    (FF, RB, RC, RD, RA, 7%nat, 22, 0xfd469501);
    (FF, RA, RB, RC, RD, 8%nat, 7, 0x698098d8);
    (FF, RD, RA, RB, RC, 9%nat, 12, 0x8b44f7af);
    (FF, RC, RD, RA, RB, 10%nat, 17, 0xffff5bb1);
    (FF, RB, RC, RD, RA, 11%nat, 22, 0x895cd7be);
    (FF, RA, RB, RC, RD, 12%nat, 7, 0x6b901122);
    (FF, RD, RA, RB, RC, 13%nat, 12, 0xfd987193);
    (FF, RC, RD, RA, RB, 14%nat, 17, 0xa679438e);
    (FF, RB, RC, RD, RA, 15%nat, 22, 0x49b40821);
    (GG, RA, RB, RC, RD, 1%nat, 5, 0xf61e2562);
    (GG, RD, RA, RB, RC, 6%nat, 9, 0xc040b340);
    (GG, RC, RD, RA, RB, 11%nat, 14, 0x265e5a51);
    (GG, RB, RC, RD, RA, 0%nat, 20, 0xe9b6c7aa);
    (GG, RA, RB, RC, RD, 5%nat, 5, 0xd62f105d);
    (GG, RD, RA, RB, RC, 10%nat, 9, 0x02441453);
    (GG, RC, RD, RA, RB, 15%nat, 14, 0xd8a1e681);
    (GG, RB, RC, RD, RA, 4%nat, 20, 0xe7d3fbc8);
    (GG, RA, RB, RC, RD, 9%nat, 5, 0x21e1cde6);
    (GG, RD, RA, RB, RC, 14%nat, 9, 0xc33707d6);
    (GG, RC, RD, RA, RB, 3%nat, 14, 0xf4d50d87);
    (GG, RB, RC, RD, RA, 8%nat, 20, 0x455a14ed);
    (GG, RA, RB, RC, RD, 13%nat, 5, 0xa9e3e905);
    (GG, RD, RA, RB, RC, 2%nat, 9, 0xfcefa3f8);
    (GG, RC, RD, RA, RB, 7%nat, 14, 0x676f02d9);
    (GG, RB, RC, RD, RA, 12%nat, 20, 0x8d2a4c8a);
    (HH, RA, RB, RC, RD, 5%nat, 4, 0xfffa3942);
    (HH, RD, RA, RB, RC, 8%nat, 11, 0x8771f681);
    (HH, RC, RD, RA, RB, 11%nat, 16, 0x6d9d6122);
    (HH, RB, RC, RD, RA, 14%nat, 23, 0xfde5380c);
    (HH, RA, RB, RC, RD, 1%nat, 4, 0xa4beea44);
    (HH, RD, RA, RB, RC, 4%nat, 11, 0x4bdecfa9);
    (HH, RC, RD, RA, RB, 7%nat, 16, 0xf6bb4b60);
    (HH, RB, RC, RD, RA, 10%nat, 23, 0xbebfbc70);
    (HH, RA, RB, RC, RD, 13%nat, 4, 0x289b7ec6);
    (HH, RD, RA, RB, RC, 0%nat, 11, 0xeaa127fa);
    (HH, RC, RD, RA, RB, 3%nat, 16, 0xd4ef3085);
    (HH, RB, RC, RD, RA, 6%nat, 23, 0x04881d05);
    (HH, RA, RB, RC, RD, 9%nat, 4, 0xd9d4d039);
    (HH, RD, RA, RB, RC, 12%nat, 11, 0xe6db99e5);
    (HH, RC, RD, RA, RB, 15%nat, 16, 0x1fa27cf8);
    (HH, RB, RC, RD, RA, 2%nat, 23, 0xc4ac5665);
    (II, RA, RB, RC, RD, 0%nat, 6, 0xf4292244);
    (II, RD, RA, RB, RC, 7%nat, 10, 0x432aff97);
    (II, RC, RD, RA, RB, 14%nat, 15, 0xab9423a7);
    (II, RB, RC, RD, RA, 5%nat, 21, 0xfc93a039);
    (II, RA, RB, RC, RD, 12%nat, 6, 0x655b59c3);
    (II, RD, RA, RB, RC, 3%nat, 10, 0x8f0ccc92);
    (II, RC, RD, RA, RB, 10%nat, 15, 0xffeff47d);
    (II, RB, RC, RD, RA, 1%nat, 21, 0x85845dd1);
    (II, RA, RB, RC, RD, 8%nat, 6, 0x6fa87e4f);
    (II, RD, RA, RB, RC, 15%nat, 10, 0xfe2ce6e0);
    (II, RC, RD, RA, RB, 6%nat, 15, 0xa3014314);
    (II, RB, RC, RD, RA, 13%nat, 21, 0x4e0811a1);
    (II, RA, RB, RC, RD, 4%nat, 6, 0xf7537e82);
    (II, RD, RA, RB, RC, 11%nat, 10, 0xbd3af235);
    (II, RC, RD, RA, RB, 2%nat, 15, 0x2ad7d2bb);
    (II, RB, RC, RD, RA, 9%nat, 21, 0xeb86d391) ].

Definition Md5F (f : md5_fn) (X Y Z' : Z) : Z :=
  match f with
  | FF => Z.lor (Z.land X Y) (Z.land (NOT 32 X) Z')
  | GG => Z.lor (Z.land X Z') (Z.land Y (NOT 32 Z'))
  | HH => Z.lxor (Z.lxor X Y) Z'
  | II => Z.lxor Y (Z.lor X (NOT 32 Z'))
  end.

Record md5_regs := { A5 : Z; B5 : Z; C5 : Z; D5 : Z }.

Definition get5 (r : md5_reg) (s : md5_regs) : Z :=
  match r with RA => s.(A5) | RB => s.(B5) | RC => s.(C5) | RD => s.(D5) end.
Definition set5 (r : md5_reg) (s : md5_regs) (x : Z) : md5_regs :=
  match r with
  | RA => {| A5 := x; B5 := s.(B5); C5 := s.(C5); D5 := s.(D5) |}
  | RB => {| A5 := s.(A5); B5 := x; C5 := s.(C5); D5 := s.(D5) |}
  | RC => {| A5 := s.(A5); B5 := s.(B5); C5 := x; D5 := s.(D5) |}
  | RD => {| A5 := s.(A5); B5 := s.(B5); C5 := s.(C5); D5 := x |}
  end.

(** One use of the macros [FF], [GG], [HH], [II] with its register names. *)
Definition Md5Op (M : list Z) (s : md5_regs)
    (op : md5_fn * md5_reg * md5_reg * md5_reg * md5_reg * nat * Z * Z) : md5_regs :=
  let '(f, a, b, c, d, m, r, t) := op in
  let x := wrap 32 (get5 a s + (Md5F f (get5 b s) (get5 c s) (get5 d s) + (M !!! m) + t)) in
  set5 a s (wrap 32 (get5 b s + ROTLEFT 32 x r)).

Definition WordLE (Block : list Z) (i : nat) : Z :=
  wrap 32 ((Block !!! (4 * i)%nat) + Z.shiftl (Block !!! (4 * i + 1)%nat) 8
           + Z.shiftl (Block !!! (4 * i + 2)%nat) 16 + Z.shiftl (Block !!! (4 * i + 3)%nat) 24).

Definition Md5Transform (St Block : list Z) : list Z :=
  let M := WordLE Block <$> seq 0 16 in
  let s := foldl (Md5Op M) {| A5 := St !!! 0%nat; B5 := St !!! 1%nat; C5 := St !!! 2%nat; D5 := St !!! 3%nat |} Md5Ops in
  [ (St !!! 0%nat) +[32] s.(A5); (St !!! 1%nat) +[32] s.(B5);
    (St !!! 2%nat) +[32] s.(C5); (St !!! 3%nat) +[32] s.(D5) ].

(** [Init] with the uninitialised content of the block. *)
Definition Init (H0 Junk : list Z) : hash_context := {| Data := Junk; DataLen := 0; BitLen := 0; State := H0 |}.

(** The fuel of the updates: a 64-bit index counts below the length of the
    input, and a 32-bit one below 2^32. *)
Definition UpdateFuel64 : positive := 2 ^ 65.
Definition UpdateFuel32 : positive := 2 ^ 33.

Definition MD5_H0 : list Z := [0x67452301; 0xefcdab89; 0x98badcfe; 0x10325476].
Definition Md5Init (Junk : list Z) : hash_context := Init MD5_H0 Junk.
Definition Md5Update (Ctx : hash_context) (Input : list Z) (Len : Z) : outcome hash_context :=
  UpdateLoop Md5Transform 64 UpdateFuel64 Ctx Input Len.
Definition Md5Final (Ctx : hash_context) (Hash : list Z) : outcome (list Z) :=
  Ctx ← FinalBlocks Md5Transform StoreLengthLE Ctx;
  StoreDigest 4 (fun Index => Index * 8) Ctx.(State) Hash.
Definition Md5 (Junk Hash Input : list Z) (Len : Z) : outcome (list Z) :=
  Ctx ← Md5Update (Md5Init Junk) Input Len; Md5Final Ctx Hash.

(** ** SHA-1 *)
Definition WordBE (Block : list Z) (i : nat) : Z :=
  wrap 32 (Z.shiftl (Block !!! (4 * i)%nat) 24 + Z.shiftl (Block !!! (4 * i + 1)%nat) 16
           + Z.shiftl (Block !!! (4 * i + 2)%nat) 8 + (Block !!! (4 * i + 3)%nat)).

Definition SHA1_K : list Z := [0x5a827999; 0x6ed9eba1; 0x8f1bbcdc; 0xca62c1d6].

Definition Sha1Expand (M : list Z) (i : nat) : list Z :=
  let x := Z.lxor (Z.lxor (Z.lxor (M !!! (i - 3)%nat) (M !!! (i - 8)%nat)) (M !!! (i - 14)%nat)) (M !!! (i - 16)%nat) in
  M ++ [Z.lor (wrap 32 (Z.shiftl x 1)) (Z.shiftr x 31)].

Record sha1_regs := { A1 : Z; B1 : Z; C1 : Z; D1 : Z; E1 : Z }.

Definition Sha1Round (M : list Z) (s : sha1_regs) (i : nat) : sha1_regs :=
  let f :=
    if decide (i < 20)%nat then Z.lxor (Z.land s.(B1) s.(C1)) (Z.land (NOT 32 s.(B1)) s.(D1))
    else if decide (i < 40)%nat then Z.lxor (Z.lxor s.(B1) s.(C1)) s.(D1)
    else if decide (i < 60)%nat then
      Z.lxor (Z.lxor (Z.land s.(B1) s.(C1)) (Z.land s.(B1) s.(D1))) (Z.land s.(C1) s.(D1))
    else Z.lxor (Z.lxor s.(B1) s.(C1)) s.(D1) in
  let T := wrap 32 (ROTLEFT 32 s.(A1) 5 + f + s.(E1) + (SHA1_K !!! (i / 20)%nat) + (M !!! i)) in
  {| A1 := T; B1 := s.(A1); C1 := ROTLEFT 32 s.(B1) 30; D1 := s.(C1); E1 := s.(D1) |}.

Definition Sha1Transform (St Block : list Z) : list Z :=
  let M := foldl Sha1Expand (WordBE Block <$> seq 0 16) (seq 16 64) in
  let s := foldl (Sha1Round M)
    {| A1 := St !!! 0%nat; B1 := St !!! 1%nat; C1 := St !!! 2%nat; D1 := St !!! 3%nat; E1 := St !!! 4%nat |} (seq 0 80) in
  [ (St !!! 0%nat) +[32] s.(A1); (St !!! 1%nat) +[32] s.(B1); (St !!! 2%nat) +[32] s.(C1);
    (St !!! 3%nat) +[32] s.(D1); (St !!! 4%nat) +[32] s.(E1) ].

Definition SHA1_H0 : list Z := [0x67452301; 0xefcdab89; 0x98badcfe; 0x10325476; 0xc3d2e1f0].
Definition Sha1Init (Junk : list Z) : hash_context := Init SHA1_H0 Junk.
Definition Sha1Update (Ctx : hash_context) (Input : list Z) (Len : Z) : outcome hash_context :=
  UpdateLoop Sha1Transform 64 UpdateFuel64 Ctx Input Len.
Definition Sha1Final (Ctx : hash_context) (Hash : list Z) : outcome (list Z) :=
  Ctx ← FinalBlocks Sha1Transform StoreLengthBE Ctx;
  StoreDigest 5 (fun Index => 24 - Index * 8) Ctx.(State) Hash.
Definition Sha1 (Junk Hash Input : list Z) (Len : Z) : outcome (list Z) :=
  Ctx ← Sha1Update (Sha1Init Junk) Input Len; Sha1Final Ctx Hash.

(** ** SHA-256 *)
Definition SHA256_EP0 (x : Z) : Z := Z.lxor (Z.lxor (ROTRIGHT 32 x 2) (ROTRIGHT 32 x 13)) (ROTRIGHT 32 x 22).
Definition SHA256_EP1 (x : Z) : Z := Z.lxor (Z.lxor (ROTRIGHT 32 x 6) (ROTRIGHT 32 x 11)) (ROTRIGHT 32 x 25).
Definition SHA256_SIG0 (x : Z) : Z := Z.lxor (Z.lxor (ROTRIGHT 32 x 7) (ROTRIGHT 32 x 18)) (SHFR x 3).
Definition SHA256_SIG1 (x : Z) : Z := Z.lxor (Z.lxor (ROTRIGHT 32 x 17) (ROTRIGHT 32 x 19)) (SHFR x 10).

Definition SHA256_K : list Z :=
  [ 0x428A2F98; 0x71374491; 0xB5C0FBCF; 0xE9B5DBA5; 0x3956C25B; 0x59F111F1; 0x923F82A4; 0xAB1C5ED5;
    0xD807AA98; 0x12835B01; 0x243185BE; 0x550C7DC3; 0x72BE5D74; 0x80DEB1FE; 0x9BDC06A7; 0xC19BF174;
    0xE49B69C1; 0xEFBE4786; 0x0FC19DC6; 0x240CA1CC; 0x2DE92C6F; 0x4A7484AA; 0x5CB0A9DC; 0x76F988DA;
    0x983E5152; 0xA831C66D; 0xB00327C8; 0xBF597FC7; 0xC6E00BF3; 0xD5A79147; 0x06CA6351; 0x14292967;
    0x27B70A85; 0x2E1B2138; 0x4D2C6DFC; 0x53380D13; 0x650A7354; 0x766A0ABB; 0x81C2C92E; 0x92722C85;
    0xA2BFE8A1; 0xA81A664B; 0xC24B8B70; 0xC76C51A3; 0xD192E819; 0xD6990624; 0xF40E3585; 0x106AA070;
    0x19A4C116; 0x1E376C08; 0x2748774C; 0x34B0BCB5; 0x391C0CB3; 0x4ED8AA4A; 0x5B9CCA4F; 0x682E6FF3;
    0x748F82EE; 0x78A5636F; 0x84C87814; 0x8CC70208; 0x90BEFFFA; 0xA4506CEB; 0xBEF9A3F7; 0xC67178F2 ].

Definition SHA256_H0 : list Z :=
  [ 0x6A09E667; 0xBB67AE85; 0x3C6EF372; 0xA54FF53A; 0x510E527F; 0x9B05688C; 0x1F83D9AB; 0x5BE0CD19 ].

Definition WordBE256 (Block : list Z) (i : nat) : Z :=
  Z.lor (Z.lor (Z.lor (wrap 32 (Z.shiftl (Block !!! (4 * i)%nat) 24)) (wrap 32 (Z.shiftl (Block !!! (4 * i + 1)%nat) 16)))
    (wrap 32 (Z.shiftl (Block !!! (4 * i + 2)%nat) 8))) (Block !!! (4 * i + 3)%nat).

(** [M[i] = ...] in the array of 64 words. *)
Definition Sha256Expand (M : list Z) (i : nat) : list Z :=
  <[i := wrap 32 (SHA256_SIG1 (M !!! (i - 2)%nat) + (M !!! (i - 7)%nat)
                  + SHA256_SIG0 (M !!! (i - 15)%nat) + (M !!! (i - 16)%nat))]> M.

Record sha2_regs := { rA : Z; rB : Z; rC : Z; rD : Z; rE : Z; rF : Z; rG : Z; rH : Z }.

Definition Sha256Round (M : list Z) (s : sha2_regs) (i : nat) : sha2_regs :=
  let T1 := wrap 32 (s.(rH) + SHA256_EP1 s.(rE) + CH 32 s.(rE) s.(rF) s.(rG) + (SHA256_K !!! i) + (M !!! i)) in
  let T2 := wrap 32 (SHA256_EP0 s.(rA) + MAJ s.(rA) s.(rB) s.(rC)) in
  {| rH := s.(rG); rG := s.(rF); rF := s.(rE); rE := s.(rD) +[32] T1;
     rD := s.(rC); rC := s.(rB); rB := s.(rA); rA := T1 +[32] T2 |}.

Definition load_regs (St : list Z) : sha2_regs := {|
  rA := St !!! 0%nat; rB := St !!! 1%nat; rC := St !!! 2%nat; rD := St !!! 3%nat;
  rE := St !!! 4%nat; rF := St !!! 5%nat; rG := St !!! 6%nat; rH := St !!! 7%nat |}.

(** [MJunk] is the uninitialised array [M]. *)
Definition Sha256Transform (MJunk : list Z) (St Block : list Z) : list Z :=
  let M := foldl (fun M i => <[i := WordBE256 Block i]> M) MJunk (seq 0 16) in
  let M := foldl Sha256Expand M (seq 16 48) in
  let s := foldl (Sha256Round M) (load_regs St) (seq 0 64) in
  [ (St !!! 0%nat) +[32] s.(rA); (St !!! 1%nat) +[32] s.(rB); (St !!! 2%nat) +[32] s.(rC); (St !!! 3%nat) +[32] s.(rD);
    (St !!! 4%nat) +[32] s.(rE); (St !!! 5%nat) +[32] s.(rF); (St !!! 6%nat) +[32] s.(rG); (St !!! 7%nat) +[32] s.(rH) ].

Definition Sha256Init (Junk : list Z) : hash_context := Init SHA256_H0 Junk.
(** The index of the loop is an UINT32, the length an UINTN. *)
Definition Sha256Update (MJunk : list Z) (Ctx : hash_context) (Input : list Z) (Len : Z) : outcome hash_context :=
  UpdateLoop (Sha256Transform MJunk) 32 UpdateFuel32 Ctx Input Len.
Definition Sha256Final (MJunk : list Z) (Ctx : hash_context) (Hash : list Z) : outcome (list Z) :=
  Ctx ← FinalBlocks (Sha256Transform MJunk) StoreLengthBE Ctx;
  StoreDigest 8 (fun Index => 24 - Index * 8) Ctx.(State) Hash.
Definition Sha256 (MJunk Junk Hash Input : list Z) (Len : Z) : outcome (list Z) :=
  Ctx ← Sha256Update MJunk (Sha256Init Junk) Input Len; Sha256Final MJunk Ctx Hash.

(** The digests of the three letters [abc]. *)
Example md5_abc : Md5 (replicate 64 7) (replicate 16 0) [97; 98; 99] 3 =
  Ret [0x90; 0x01; 0x50; 0x98; 0x3c; 0xd2; 0x4f; 0xb0; 0xd6; 0x96; 0x3f; 0x7d; 0x28; 0xe1; 0x7f; 0x72].
Proof. vm_compute. reflexivity. Qed.
Example sha1_abc : Sha1 (replicate 64 7) (replicate 20 0) [97; 98; 99] 3 =
  Ret [0xa9; 0x99; 0x3e; 0x36; 0x47; 0x06; 0x81; 0x6a; 0xba; 0x3e; 0x25; 0x71; 0x78; 0x50; 0xc2; 0x6c; 0x9c; 0xd0; 0xd8; 0x9d].
Proof. vm_compute. reflexivity. Qed.
Example sha256_abc : Sha256 (replicate 64 5) (replicate 64 7) (replicate 32 0) [97; 98; 99] 3 =
  Ret [0xba; 0x78; 0x16; 0xbf; 0x8f; 0x01; 0xcf; 0xea; 0x41; 0x41; 0x40; 0xde; 0x5d; 0xae; 0x22; 0x23;
       0xb0; 0x03; 0x61; 0xa3; 0x96; 0x17; 0x7a; 0x9c; 0xb4; 0x10; 0xff; 0x61; 0xf2; 0x00; 0x15; 0xad].
Proof. vm_compute. reflexivity. Qed.

(** ** Reference: compression of a padded message *)

(** The first [n] blocks of [sz] cells. *)
Fixpoint blocks (sz n : nat) (l : list Z) : list (list Z) :=
  match n with O => [] | S n => take sz l :: blocks sz n (drop sz l) end.

Definition compress (f : list Z -> list Z -> list Z) (sz : nat) (St l : list Z) : list Z :=
  foldl f St (blocks sz (length l / sz) l).

(** A one bit, zero bits up to 8 bytes before the end of a block, the length. *)
Definition pad64 (store : Z -> list Z) (msg : list Z) : list Z :=
  msg ++ [0x80] ++ replicate (Z.to_nat ((55 - Z.of_nat (length msg)) mod 64)) 0
      ++ store (wrap 64 (8 * Z.of_nat (length msg))).

Lemma blocks_app sz n m l1 l2 :
  length l1 = (sz * n)%nat -> blocks sz (n + m) (l1 ++ l2) = blocks sz n l1 ++ blocks sz m l2.
Proof.
  revert l1. induction n as [|n IH]; intros l1 Hl; simpl.
  - assert (l1 = []) as -> by (apply length_zero_iff_nil; lia). done.
  - rewrite take_app_le, drop_app_le by lia. f_equal. apply IH. rewrite length_drop. lia.
Qed.

Lemma compress_app f sz St l1 l2 n :
  (0 < sz)%nat -> length l1 = (sz * n)%nat -> compress f sz St (l1 ++ l2) = compress f sz (compress f sz St l1) l2.
Proof.
  intros Hs Hl. unfold compress. rewrite length_app, Hl.
  replace (sz * n + length l2)%nat with (n * sz + length l2)%nat by lia.
  rewrite Nat.div_add_l by lia. replace (sz * n)%nat with (n * sz)%nat by lia. rewrite Nat.div_mul by lia.
  rewrite blocks_app by done. apply foldl_app.
Qed.

Lemma compress_one f sz St l : (0 < sz)%nat -> length l = sz -> compress f sz St l = f St l.
Proof.
  intros Hs Hl. unfold compress. rewrite Hl, Nat.div_same by lia. simpl. by rewrite take_ge by lia.
Qed.

Lemma compress_nil f sz St : compress f sz St [] = St.
Proof. unfold compress. simpl. by destruct sz. Qed.

(** ** The streaming scheme is the compression of the padded message *)
Section StreamProofs.
Variable Transform : list Z -> list Z -> list Z.
Variable StoreLength : Z -> list Z.
Variable H0 : list Z.
Hypothesis HStore : forall x, length (StoreLength x) = 8%nat.

(** A context that has taken in [msg]: whole blocks are compressed, the rest is
    at the start of the block. *)
Definition represents (Ctx : hash_context) (msg : list Z) : Prop :=
  exists full tail junk n, msg = full ++ tail /\ length full = (64 * n)%nat
    /\ (length tail < 64)%nat /\ Ctx.(Data) = tail ++ junk /\ length Ctx.(Data) = 64%nat
    /\ Ctx.(DataLen) = Z.of_nat (length tail)
    /\ Ctx.(BitLen) = wrap 64 (8 * Z.of_nat (length full))
    /\ Ctx.(State) = compress Transform 64 H0 full.

Lemma represents_init Junk : length Junk = 64%nat -> represents (Init H0 Junk) [].
Proof. intros HJ. exists [], [], Junk, 0%nat. rewrite compress_nil. split_and!; simpl; done || lia. Qed.

Lemma wrap64_add a b : wrap 64 (wrap 64 a + b) = wrap 64 (a + b).
Proof. unfold wrap. by rewrite Zplus_mod_idemp_l. Qed.

Lemma wr_tail (tail junk : list Z) x b :
  wr (tail ++ x :: junk) (Z.of_nat (length tail)) b = Ret ((tail ++ [b]) ++ junk).
Proof.
  rewrite wr_in by (rewrite length_app; simpl; lia). f_equal. rewrite Nat2Z.id.
  rewrite insert_app_r_alt, Nat.sub_diag by lia. simpl. by rewrite <- app_assoc.
Qed.

Lemma UpdateByte_spec Ctx msg b :
  represents Ctx msg -> exists Ctx', UpdateByte Transform Ctx b = Ret Ctx' /\ represents Ctx' (msg ++ [b]).
Proof.
  intros (full & tail & junk & n & -> & Hf & Ht & HD & HL & HN & HB & HS).
  assert (exists x junk', junk = x :: junk') as (x & junk' & ->).
  { destruct junk; [|eauto]. rewrite HD, app_nil_r in HL. lia. }
  unfold UpdateByte. rewrite HN, HD, wr_tail. cbn [mbind outcome_bind].
  rewrite HD, length_app in HL. simpl in HL. rewrite wrap_small by lia. case_decide as H64.
  - assert (junk' = []) as -> by (apply length_zero_iff_nil; lia). rewrite app_nil_r.
    eexists. split; [done|]. exists (full ++ tail ++ [b]), [], (tail ++ [b]), (S n). simpl.
    rewrite !length_app. simpl. split_and!; try done; try lia; [by rewrite app_nil_r, app_assoc| |].
    + rewrite HB, wrap64_add. f_equal. lia.
    + rewrite HS, (compress_app _ _ _ _ _ n) by (done || lia).
      rewrite (compress_one _ _ _ (tail ++ [b])) by (rewrite ?length_app; simpl; lia). done.
  - eexists. split; [done|]. exists full, (tail ++ [b]), junk', n. simpl. rewrite !length_app. simpl.
    split_and!; try done; try lia. by rewrite app_assoc.
Qed.

(** The update loop takes in the first [Len] bytes of the input, as long as its
    index can count to [Len]. *)
Lemma UpdateLoop_spec iw fuel Ctx msg Input Len :
  represents Ctx msg -> 0 <= Len <= Z.of_nat (length Input) -> 0 <= iw -> Len < 2 ^ iw -> Len < Zpos fuel ->
  exists Ctx', UpdateLoop Transform iw fuel Ctx Input Len = Ret Ctx'
    /\ represents Ctx' (msg ++ take (Z.to_nat Len) Input).
Proof.
  intros HC HL Hiw Hlt Hf. unfold UpdateLoop.
  oc_while_bin (fun s : Z * hash_context => 0 <= s.1 <= Len /\ represents s.2 (msg ++ take (Z.to_nat s.1) Input))
    (fun s : Z * hash_context => Len - s.1)
    (fun Ctx' => represents Ctx' (msg ++ take (Z.to_nat Len) Input)) as r Hr.
  - intros [i C] [Hi _]. simpl in *. lia.
  - intros [i C] [Hi HR]. simpl in Hi, HR. unfold UpdateBody. case_decide as Hc.
    + destruct (lookup_lt_is_Some_2 Input (Z.to_nat i)) as [b Hb]; [lia|].
      rewrite (rd_lookup _ _ b) by (done || lia). cbn [mbind outcome_bind].
      destruct (UpdateByte_spec C _ b HR) as (C' & -> & HC'). cbn [mbind outcome_bind].
      eexists. split; [done|]. simpl. rewrite wrap_small by lia. split; [split; [lia|]|lia].
      replace (Z.to_nat (i + 1)) with (S (Z.to_nat i)) by lia.
      by rewrite (take_S_r _ _ b), app_assoc by done.
    + eexists. split; [done|]. by replace Len with i by lia.
  - simpl. split; [lia|]. by rewrite app_nil_r.
  - simpl. lia.
  - eauto.
Qed.

(** With an index that cannot count to the length, the loop never ends. *)
Lemma UpdateLoop_forever iw fuel Ctx msg Input Len :
  represents Ctx msg -> Len <= Z.of_nat (length Input) -> 0 <= iw -> 2 ^ iw <= Len ->
  UpdateLoop Transform iw fuel Ctx Input Len = Fault OutOfFuel.
Proof.
  intros HC HL Hiw Hge. unfold UpdateLoop.
  apply (while_bin_forever _ (fun s : Z * hash_context => 0 <= s.1 < 2 ^ iw /\ exists msg, represents s.2 msg)).
  - intros [i C] [Hi [m HR]]. simpl in Hi, HR. unfold UpdateBody. rewrite decide_True by lia.
    destruct (lookup_lt_is_Some_2 Input (Z.to_nat i)) as [b Hb]; [lia|].
    rewrite (rd_lookup _ _ b) by (done || lia). cbn [mbind outcome_bind].
    destruct (UpdateByte_spec C _ b HR) as (C' & -> & HC'). cbn [mbind outcome_bind].
    eexists. split; [done|]. simpl. split; [by apply wrap_range|eauto].
  - simpl. split; [|eauto]. pose proof (Z.pow_pos_nonneg 2 iw). lia.
Qed.

(** Zeroing the cells after a prefix. *)
Lemma ZeroMem_tail (l1 l2 l3 : list Z) off n :
  off = Z.of_nat (length l1) -> n = Z.of_nat (length l2) ->
  ZeroMem (l1 ++ l2 ++ l3) off n = Ret (l1 ++ replicate (length l2) 0 ++ l3).
Proof.
  intros -> ->. rewrite ZeroMem_in by (rewrite ?length_app; lia). f_equal. rewrite !Nat2Z.id.
  apply list_eq. intros i. rewrite lookup_inserts by (rewrite length_replicate, !length_app; lia).
  rewrite length_replicate. rewrite !lookup_app, !length_replicate.
  repeat case_match; simplify_eq; try done; rewrite ?lookup_replicate_2 by lia; try done;
    repeat match goal with H : _ !! _ = Some _ |- _ => apply lookup_lt_Some in H
           | H : _ !! _ = None |- _ => apply lookup_ge_None in H end;
    autorewrite with oc_len in *; try lia.
Qed.

Lemma wr_slice_tail (l1 l2 xs : list Z) off :
  off = Z.of_nat (length l1) -> length l2 = length xs -> wr_slice (l1 ++ l2) off xs = Ret (l1 ++ xs).
Proof.
  intros -> Hl. rewrite wr_slice_in by (rewrite ?length_app; lia). f_equal. rewrite Nat2Z.id.
  apply list_eq. intros i. rewrite lookup_inserts by (rewrite length_app; lia).
  destruct (decide (i < length l1)%nat).
  - rewrite decide_False by lia. by rewrite !lookup_app_l by lia.
  - rewrite !lookup_app_r by lia. destruct (decide (i < length l1 + length xs)%nat).
    + by rewrite decide_True by lia.
    + rewrite decide_False by lia. rewrite !(proj2 (lookup_ge_None _ _)) by lia. done.
Qed.

Lemma FinalBlocks_spec Ctx msg :
  represents Ctx msg ->
  exists Ctx', FinalBlocks Transform StoreLength Ctx = Ret Ctx'
    /\ Ctx'.(State) = compress Transform 64 H0 (pad64 StoreLength msg).
Proof using HStore.
  intros (full & tail & junk & n & -> & Hf & Ht & HD & HL & HN & HB & HS).
  assert (exists x junk', junk = x :: junk') as (x & junk' & ->).
  { destruct junk; [|eauto]. rewrite HD, app_nil_r in HL. lia. }
  rewrite HD, length_app in HL. simpl in HL.
  unfold FinalBlocks. rewrite HN, HD, wr_tail, HB. cbn [mbind outcome_bind]. cbv zeta.
  rewrite wrap64_add.
  replace (8 * Z.of_nat (length full) + Z.of_nat (length tail) * 8)
    with (8 * Z.of_nat (length (full ++ tail))) by (rewrite length_app; lia).
  set (bits := wrap 64 (8 * Z.of_nat (length (full ++ tail)))).
  assert (length (tail ++ [128]) = S (length tail)) as HT1 by (rewrite length_app; simpl; lia).
  destruct (decide (Z.of_nat (length tail) < 56)) as [H56|H56].
  - assert (exists j1 j2, junk' = j1 ++ j2 /\ length j1 = (55 - length tail)%nat /\ length j2 = 8%nat)
      as (j1 & j2 & -> & Hj1 & Hj2).
    { exists (take (55 - length tail) junk'), (drop (55 - length tail) junk').
      rewrite take_drop, length_take, length_drop. split; [done|lia]. }
    rewrite ZeroMem_tail by lia. cbn [mbind outcome_bind]. rewrite app_assoc.
    rewrite wr_slice_tail by (rewrite ?length_app, ?length_replicate, ?HStore; simpl; lia).
    cbn [mbind outcome_bind]. eexists. split; [done|]. simpl. rewrite HS.
    unfold pad64. fold bits. rewrite length_app, Hf.
    replace (Z.to_nat ((55 - Z.of_nat (64 * n + length tail)) mod 64)) with (length j1).
    2: { rewrite Hj1. replace (55 - Z.of_nat (64 * n + length tail)) with (55 - Z.of_nat (length tail) + (- Z.of_nat n) * 64) by lia.
         rewrite Z_mod_plus_full. rewrite Z.mod_small by lia. lia. }
    rewrite <- !app_assoc. rewrite (compress_app _ _ _ full _ n) by (done || lia).
    set (blk := tail ++ _). rewrite (compress_one _ _ _ blk); [done|lia|].
    subst blk. rewrite !length_app, length_replicate, HStore. simpl. lia.
  - rewrite <- (app_nil_r junk'). rewrite ZeroMem_tail by lia. cbn [mbind outcome_bind]. rewrite app_nil_r.
    set (b1 := (tail ++ [128]) ++ replicate (length junk') 0).
    assert (length b1 = 64%nat) as Hb1 by (subst b1; rewrite length_app, length_replicate; lia).
    assert (ZeroMem b1 0 56 = Ret (replicate 56 0 ++ drop 56 b1)) as ->.
    { pose proof (ZeroMem_tail [] (take 56 b1) (drop 56 b1) 0 56) as HZ. simpl app in HZ.
      rewrite take_drop, length_take, Hb1 in HZ. by apply HZ. }
    cbn [mbind outcome_bind].
    rewrite wr_slice_tail by (rewrite ?length_replicate, ?length_drop, ?HStore; lia).
    cbn [mbind outcome_bind]. eexists. split; [done|]. simpl State. rewrite HS.
    unfold pad64. fold bits. rewrite length_app, Hf.
    replace (Z.to_nat ((55 - Z.of_nat (64 * n + length tail)) mod 64)) with (length junk' + 56)%nat.
    2: { replace (55 - Z.of_nat (64 * n + length tail)) with (119 - Z.of_nat (length tail) + (- Z.of_nat n - 1) * 64) by lia.
         rewrite Z_mod_plus_full. rewrite Z.mod_small by lia. lia. }
    rewrite replicate_add.
    replace ((full ++ tail) ++ [128] ++ (replicate (length junk') 0 ++ replicate 56 0) ++ StoreLength bits)
      with (full ++ b1 ++ replicate 56 0 ++ StoreLength bits) by (subst b1; by rewrite <- !app_assoc).
    rewrite (compress_app _ _ _ full _ n) by (done || lia).
    rewrite (compress_app _ _ _ b1 _ 1) by (done || lia).
    rewrite (compress_one _ _ _ b1) by (done || lia).
    rewrite (compress_one _ _ _ (replicate 56 0 ++ _)); [done|lia|].
    rewrite length_app, length_replicate, HStore. done.
Qed.

End StreamProofs.

(** ** The output of the digest *)
Definition word_bytes (Shift : Z -> Z) (s : Z) : list Z :=
  (fun i => Z.land (Z.shiftr s (Shift i)) 0xFF) <$> [0; 1; 2; 3].

Lemma word_bytes_lookup Shift (St : list Z) p :
  (St ≫= word_bytes Shift) !! p =
  s ← St !! (p / 4)%nat; Some (Z.land (Z.shiftr s (Shift (Z.of_nat (p mod 4)))) 0xFF).
Proof.
  revert p. induction St as [|x St IH]; intros p; [done|]. rewrite bind_cons.
  destruct (decide (p < 4)%nat) as [Hp|Hp].
  - do 4 (destruct p as [|p]; [done|]). lia.
  - assert (exists q, p = (q + 1 * 4)%nat) as [q ->] by (exists (p - 4)%nat; lia).
    rewrite lookup_app_r by (simpl; lia). change (length (word_bytes Shift x)) with 4%nat.
    rewrite Nat.div_add, Nat.Div0.mod_add by lia. replace (q + 1 * 4 - 4)%nat with q by lia. rewrite IH.
    by replace (q / 4 + 1)%nat with (S (q / 4)) by lia.
Qed.

Lemma word_bytes_length Shift (St : list Z) : length (St ≫= word_bytes Shift) = (4 * length St)%nat.
Proof. induction St as [|x St IH]; [done|]. rewrite bind_cons, length_app, IH. simpl. lia. Qed.

(** Byte [p] of the buffer once the bytes selected by [done] are written. *)
Definition stored (Shift : Z -> Z) (St Hash : list Z) (written : nat -> Prop) `{forall p, Decision (written p)} (H : list Z) : Prop :=
  length H = length Hash /\
  forall p, H !! p = if decide ((p < 4 * length St)%nat /\ written p) then (St ≫= word_bytes Shift) !! p else Hash !! p.

Lemma StoreDigest_spec Shift St Hash :
  (4 * length St <= length Hash)%nat ->
  StoreDigest (length St) Shift St Hash = Ret (list_inserts 0 (St ≫= word_bytes Shift) Hash).
Proof.
  intros HL. unfold StoreDigest.
  oc_for (fun i H => stored Shift St Hash (fun p => (p mod 4 < Z.to_nat i)%nat) H) as r Hr.
  - split; [done|]. intros p. rewrite decide_False; [done|]. simpl. lia.
  - intros i H Hi HH.
    oc_for (fun j H => stored Shift St Hash
       (fun p => (p mod 4 < Z.to_nat i)%nat \/ (p mod 4 = Z.to_nat i /\ p / 4 < Z.to_nat j)%nat) H) as r' Hr'.
    + destruct HH as [H1 H2]. split; [done|]. intros p. rewrite H2. apply decide_ext. simpl. lia.
    + intros j H' Hj [H1 H2]. destruct (lookup_lt_is_Some_2 St (Z.to_nat j)) as [s Hs]; [lia|].
      rewrite (rd_lookup _ _ s) by (done || lia). cbn [mbind outcome_bind].
      rewrite wr_in by lia. eexists. split; [done|]. split; [by rewrite length_insert|]. intros p.
      assert (Z.to_nat (i + 4 * j) = (4 * Z.to_nat j + Z.to_nat i)%nat) as HP by lia. rewrite HP.
      destruct (decide (p = 4 * Z.to_nat j + Z.to_nat i)%nat) as [->|Hne].
      * rewrite list_lookup_insert_eq by lia. rewrite word_bytes_lookup.
        replace ((4 * Z.to_nat j + Z.to_nat i) / 4)%nat with (Z.to_nat j) by (apply (Nat.div_unique _ 4 _ (Z.to_nat i)); lia).
        replace ((4 * Z.to_nat j + Z.to_nat i) mod 4)%nat with (Z.to_nat i) by (apply (Nat.mod_unique _ 4 (Z.to_nat j)); lia).
        rewrite decide_True by lia. rewrite Hs. simpl. by rewrite Z2Nat.id by lia.
      * rewrite list_lookup_insert_ne by done. rewrite H2. apply decide_ext.
        pose proof (Nat.div_mod p 4). lia.
    + eexists. split; [done|]. destruct Hr' as [H1 H2]. split; [done|]. intros p. rewrite H2.
      destruct (decide (p < 4 * length St)%nat).
      * apply decide_ext. assert (p / 4 < length St)%nat by (apply Nat.Div0.div_lt_upper_bound; lia). lia.
      * rewrite !decide_False by lia. done.
  - destruct Hr as [H1 H2]. f_equal. apply list_eq. intros p. rewrite H2.
    rewrite lookup_inserts by (rewrite word_bytes_length; lia). rewrite word_bytes_length, Nat.sub_0_r.
    apply decide_ext. pose proof (Nat.mod_upper_bound p 4). lia.
Qed.

(** ** FIPS 180-4

    The compression functions of the SHA-2 family, with words of [fw] bits, as
    the standard writes them: rotations by division, the message schedule as a
    list that grows, the rounds on the finished schedule. *)
Record sha2_family := {
  fw : Z;
  fSigma0 : Z * Z * Z; fSigma1 : Z * Z * Z;
  fsigma0 : Z * Z * Z; fsigma1 : Z * Z * Z;
  fK : list Z
}.

Definition be_word (l : list Z) : Z := foldl (fun a b => a * 2 ^ 8 + b) 0 l.

Section Fips.
Variable f : sha2_family.

Definition rotr (n x : Z) : Z := x / 2 ^ n + (x mod 2 ^ n) * 2 ^ (f.(fw) - n).
Definition Sigma (r : Z * Z * Z) (x : Z) : Z :=
  let '(a, b, c) := r in Z.lxor (Z.lxor (rotr a x) (rotr b x)) (rotr c x).
Definition sigma (r : Z * Z * Z) (x : Z) : Z :=
  let '(a, b, c) := r in Z.lxor (Z.lxor (rotr a x) (rotr b x)) (x / 2 ^ c).

Definition next_word (W : list Z) (t : nat) : Z :=
  wrap f.(fw) (sigma f.(fsigma1) (W !!! (t - 2)%nat) + (W !!! (t - 7)%nat)
               + sigma f.(fsigma0) (W !!! (t - 15)%nat) + (W !!! (t - 16)%nat)).
Definition schedule (words : list Z) (n : nat) : list Z :=
  foldl (fun W t => W ++ [next_word W t]) words (seq 16 n).

Definition fips_round (W : list Z) (s : sha2_regs) (t : nat) : sha2_regs :=
  let T1 := s.(rH) + Sigma f.(fSigma1) s.(rE) + CH f.(fw) s.(rE) s.(rF) s.(rG) + (f.(fK) !!! t) + (W !!! t) in
  let T2 := Sigma f.(fSigma0) s.(rA) + MAJ s.(rA) s.(rB) s.(rC) in
  {| rA := wrap f.(fw) (T1 + T2); rB := s.(rA); rC := s.(rB); rD := s.(rC);
     rE := wrap f.(fw) (s.(rD) + T1); rF := s.(rE); rG := s.(rF); rH := s.(rG) |}.

Definition regs_list (s : sha2_regs) : list Z :=
  [s.(rA); s.(rB); s.(rC); s.(rD); s.(rE); s.(rF); s.(rG); s.(rH)].

Definition fips_words (block : list Z) : list Z :=
  let n := Z.to_nat (f.(fw) / 8) in (fun i => be_word (take n (drop (i * n) block))) <$> seq 0 16.

Definition fips_compress (St block : list Z) : list Z :=
  let W := schedule (fips_words block) (length f.(fK) - 16) in
  let s := foldl (fips_round W) (load_regs St) (seq 0 (length f.(fK))) in
  zip_with (fun x y => x +[f.(fw)] y) St (regs_list s).

(** *** Lemmas *)
Hypothesis Hw : 0 < f.(fw).

Lemma ROTRIGHT_rotr n x : 0 <= n <= f.(fw) -> in_width f.(fw) x -> ROTRIGHT f.(fw) x n = rotr n x.
Proof using Hw.
  intros Hn [Hx1 Hx2]. unfold ROTRIGHT, rotr, wrap. rewrite Z.shiftr_div_pow2, Z.shiftl_mul_pow2 by lia.
  assert (x * 2 ^ (f.(fw) - n) mod 2 ^ f.(fw) = (x mod 2 ^ n) * 2 ^ (f.(fw) - n)) as ->.
  { replace (2 ^ f.(fw)) with (2 ^ n * 2 ^ (f.(fw) - n)) by (rewrite <- Z.pow_add_r by lia; f_equal; lia).
    apply Z.mul_mod_distr_r; apply Z.pow_nonzero; lia. }
  rewrite Z.lor_comm, lor_disjoint; [lia|lia|]. split; [apply Z.div_pos; lia|].
  apply Z.div_lt_upper_bound; [lia|]. rewrite <- Z.pow_add_r by lia. by replace (n + (f.(fw) - n)) with f.(fw) by lia.
Qed.

(** The schedule has the words of the block as its start, and all its words in range. *)
Lemma schedule_S words n :
  schedule words (S n) = schedule words n ++ [next_word (schedule words n) (16 + n)].
Proof. unfold schedule. by rewrite seq_S, foldl_app. Qed.

Lemma schedule_length words n : length words = 16%nat -> length (schedule words n) = (16 + n)%nat.
Proof.
  intros Hl. induction n as [|n IH]; [done|]. rewrite schedule_S, length_app, IH. simpl. lia.
Qed.

Lemma schedule_range words n : Forall (in_width f.(fw)) words -> Forall (in_width f.(fw)) (schedule words n).
Proof using Hw.
  intros Hr. induction n as [|n IH]; [done|]. rewrite schedule_S. apply Forall_app. split; [done|].
  apply Forall_singleton. apply wrap_in_width. lia.
Qed.

Lemma in_width_total (l : list Z) i : Forall (in_width f.(fw)) l -> in_width f.(fw) (l !!! i).
Proof using Hw.
  intros Hl. destruct (l !! i) as [x|] eqn:E.
  - rewrite (list_lookup_total_correct _ _ _ E). by eapply Forall_lookup_1.
  - rewrite list_lookup_total_alt, E. simpl. split; [done|]. apply Z.pow_gt_1; lia.
Qed.

Definition regs_ok (s : sha2_regs) : Prop := Forall (in_width f.(fw)) (regs_list s).

Lemma fips_round_ok W s t : regs_ok s -> regs_ok (fips_round W s t).
Proof using Hw.
  unfold regs_ok, regs_list. rewrite !Forall_cons. intros (? & ? & ? & ? & ? & ? & ? & ? & _).
  simpl. split_and!; try done; apply wrap_in_width; lia.
Qed.

Lemma load_regs_ok St : Forall (in_width f.(fw)) St -> regs_ok (load_regs St).
Proof using Hw. intros H. unfold regs_ok, regs_list, load_regs. simpl. repeat constructor; by apply in_width_total. Qed.

(** A code round that does what the standard says, on registers in range. *)
Lemma rounds_eq (code : sha2_regs -> nat -> sha2_regs) W n : forall s,
  (forall s t, regs_ok s -> (t < n)%nat -> code s t = fips_round W s t) ->
  regs_ok s -> foldl code s (seq 0 n) = foldl (fips_round W) s (seq 0 n) /\ regs_ok (foldl (fips_round W) s (seq 0 n)).
Proof using Hw.
  intros s Hc Hs. induction n as [|n IH]; [done|].
  destruct IH as [E Hok]. { intros s' t Hs' Ht. apply Hc; [done|lia]. }
  rewrite seq_S, !foldl_app, E. simpl. split; [apply Hc; [done|lia]|by apply fips_round_ok].
Qed.

End Fips.

(** *** The constants: fractional parts of the roots of the first primes *)
Definition primes : list Z :=
  filter (fun p => Forall (fun d => p mod d ≠ 0) (Z.of_nat <$> seq 2 (Z.to_nat (Z.sqrt p) - 1))) (Z.of_nat <$> seq 2 408).

(** The integer cube root below [2^n]. *)
Fixpoint cube_root (n : nat) (x acc : Z) : Z :=
  match n with
  | O => acc
  | S n => let acc' := acc + 2 ^ Z.of_nat n in
      cube_root n x (if decide (acc' ^ 3 <= x) then acc' else acc)
  end.

Definition cube_frac (bits p : Z) : Z := wrap bits (cube_root (Z.to_nat bits + 3) (p * 2 ^ (3 * bits)) 0).
Definition square_frac (bits p : Z) : Z := wrap bits (Z.sqrt (p * 2 ^ (2 * bits))).

Definition fips256 : sha2_family := {|
  fw := 32;
  fSigma0 := (2, 13, 22); fSigma1 := (6, 11, 25); fsigma0 := (7, 18, 3); fsigma1 := (17, 19, 10);
  fK := cube_frac 32 <$> take 64 primes
|}.

Lemma SHA256_constants :
  SHA256_K = fK fips256 /\ SHA256_H0 = square_frac 32 <$> take 8 primes.
Proof. vm_compute. done. Qed.

(** *** SHA-256 computes the standard's compression function *)

Lemma EP0_Sigma x : in_width 32 x -> SHA256_EP0 x = Sigma fips256 (2, 13, 22) x.
Proof. intros Hx. unfold SHA256_EP0, Sigma. change 32 with (fw fips256). by rewrite !ROTRIGHT_rotr by (done || simpl; lia). Qed.
Lemma EP1_Sigma x : in_width 32 x -> SHA256_EP1 x = Sigma fips256 (6, 11, 25) x.
Proof. intros Hx. unfold SHA256_EP1, Sigma. change 32 with (fw fips256). by rewrite !ROTRIGHT_rotr by (done || simpl; lia). Qed.
Lemma SIG0_sigma x : in_width 32 x -> SHA256_SIG0 x = sigma fips256 (7, 18, 3) x.
Proof.
  intros Hx. unfold SHA256_SIG0, sigma, SHFR. change 32 with (fw fips256).
  rewrite !ROTRIGHT_rotr by (done || simpl; lia). by rewrite Z.shiftr_div_pow2 by lia.
Qed.
Lemma SIG1_sigma x : in_width 32 x -> SHA256_SIG1 x = sigma fips256 (17, 19, 10) x.
Proof.
  intros Hx. unfold SHA256_SIG1, sigma, SHFR. change 32 with (fw fips256).
  rewrite !ROTRIGHT_rotr by (done || simpl; lia). by rewrite Z.shiftr_div_pow2 by lia.
Qed.

Lemma byte_total (l : list Z) i : Forall is_byte l -> is_byte (l !!! i).
Proof.
  intros Hl. destruct (l !! i) as [x|] eqn:E.
  - rewrite (list_lookup_total_correct _ _ _ E). by eapply Forall_lookup_1.
  - rewrite list_lookup_total_alt, E. done.
Qed.

Lemma drop_total (l : list Z) i : (i < length l)%nat -> drop i l = (l !!! i) :: drop (S i) l.
Proof. intros H. apply drop_S. by apply list_lookup_lookup_total_lt. Qed.

Lemma shift_or x y n : 0 <= n -> 0 <= y < 2 ^ n -> Z.lor (Z.shiftl x n) y = x * 2 ^ n + y.
Proof. intros. rewrite Z.shiftl_mul_pow2 by done. by apply lor_disjoint. Qed.

(** Four bytes packed with shifts and unions. *)
Lemma pack4 a b c d : is_byte a -> is_byte b -> is_byte c -> is_byte d ->
  Z.lor (Z.lor (Z.lor (wrap 32 (Z.shiftl a 24)) (wrap 32 (Z.shiftl b 16))) (wrap 32 (Z.shiftl c 8))) d
  = be_word [a; b; c; d].
Proof.
  intros [Ha1 Ha2] [Hb1 Hb2] [Hc1 Hc2] [Hd1 Hd2]. unfold be_word. simpl.
  rewrite !wrap_small by (rewrite Z.shiftl_mul_pow2 by lia; lia).
  rewrite <- !Z.lor_assoc. rewrite (shift_or c d 8) by lia.
  rewrite (shift_or b _ 16) by lia. rewrite (shift_or a _ 24) by lia. lia.
Qed.

Lemma WordBE256_fips Block i :
  length Block = 64%nat -> Forall is_byte Block -> (i < 16)%nat ->
  WordBE256 Block i = be_word (take 4 (drop (i * 4) Block)).
Proof.
  intros HL HB Hi. rewrite (drop_total Block (i * 4)), (drop_total Block (S (i * 4))), (drop_total Block (S (S (i * 4)))),
    (drop_total Block (S (S (S (i * 4))))) by lia. simpl take. rewrite <- pack4 by (by apply byte_total).
  unfold WordBE256. replace (4 * i)%nat with (i * 4)%nat by lia.
  by rewrite !Nat.add_succ_r, Nat.add_0_r.
Qed.

(** An array that is filled in order. *)
Lemma insert_next (l1 l2 : list Z) x y : <[length l1 := x]> (l1 ++ y :: l2) = (l1 ++ [x]) ++ l2.
Proof. rewrite insert_app_r_alt by lia. rewrite Nat.sub_diag. simpl. by rewrite <- app_assoc. Qed.

Lemma load_words (g : nat -> Z) n (junk : list Z) :
  (n <= length junk)%nat -> foldl (fun M i => <[i := g i]> M) junk (seq 0 n) = (g <$> seq 0 n) ++ drop n junk.
Proof.
  induction n as [|n IH]; intros Hn; [done|]. rewrite seq_S, foldl_app, IH by lia. simpl.
  rewrite (drop_total junk n) by lia. replace n with (length (g <$> seq 0 n)) at 1 by (by rewrite length_fmap, length_seq).
  rewrite insert_next. by rewrite fmap_app.
Qed.

Lemma expand_fips words junk n :
  length words = 16%nat -> Forall (in_width 32) words -> (n <= length junk)%nat ->
  foldl Sha256Expand (words ++ junk) (seq 16 n) = schedule fips256 words n ++ drop n junk.
Proof.
  intros Hl Hr. induction n as [|n IH]; intros Hn; [done|]. rewrite schedule_S, seq_S, foldl_app, IH by lia. simpl.
  pose proof (schedule_length fips256 words n Hl) as HL.
  pose proof (schedule_range fips256 ltac:(done) words n Hr) as HR.
  set (W := schedule fips256 words n) in *. rewrite (drop_total junk n) by lia. unfold Sha256Expand.
  rewrite !(lookup_total_app_l W) by lia. unfold next_word.
  rewrite SIG1_sigma, SIG0_sigma by (by apply (in_width_total fips256)).
  assert (forall x y l2, <[(16 + n)%nat := x]> (W ++ y :: l2) = (W ++ [x]) ++ l2) as HI
    by (intros; rewrite <- HL; apply insert_next).
  apply HI.
Qed.

Lemma be_word4_range a b c d : is_byte a -> is_byte b -> is_byte c -> is_byte d -> in_width 32 (be_word [a; b; c; d]).
Proof. intros [??] [??] [??] [??]. unfold be_word, in_width. simpl. lia. Qed.

Lemma add_words_ok w (l k : list Z) :
  0 < w -> length (zip_with (fun x y => x +[w] y) l k) = Nat.min (length l) (length k)
  /\ Forall (in_width w) (zip_with (fun x y => x +[w] y) l k).
Proof.
  intros Hw. split; [apply length_zip_with|]. revert k. induction l as [|x l IH]; intros [|y k]; simpl; try done.
  apply Forall_cons_2; [apply wrap_in_width; lia|apply IH].
Qed.

Lemma Sha256Transform_fips MJunk St Block :
  length MJunk = 64%nat -> length Block = 64%nat -> Forall is_byte Block ->
  length St = 8%nat -> Forall (in_width 32) St ->
  Sha256Transform MJunk St Block = fips_compress fips256 St Block
  /\ length (fips_compress fips256 St Block) = 8%nat /\ Forall (in_width 32) (fips_compress fips256 St Block).
Proof.
  intros HJ HL HB HS Hr. unfold Sha256Transform, fips_compress.
  change (length (fK fips256)) with 64%nat. change (64 - 16)%nat with 48%nat.
  assert ((WordBE256 Block <$> seq 0 16) = fips_words fips256 Block) as HW.
  { apply list_fmap_ext. intros i x Hx. apply lookup_seq in Hx as [-> Hx]. by apply WordBE256_fips. }
  assert (Forall (in_width 32) (fips_words fips256 Block)) as HWr.
  { rewrite <- HW. apply Forall_fmap, Forall_forall. intros i Hi%elem_of_seq. simpl. rewrite WordBE256_fips by (done || lia).
    rewrite (drop_total Block (i * 4)), (drop_total Block (S (i * 4))), (drop_total Block (S (S (i * 4)))),
      (drop_total Block (S (S (S (i * 4))))) by lia. apply be_word4_range; by apply byte_total. }
  rewrite load_words, HW by lia. rewrite expand_fips by (done || rewrite ?length_drop; lia).
  rewrite drop_drop, drop_ge by lia. rewrite app_nil_r.
  set (W := schedule _ _ _).
  destruct (rounds_eq fips256 ltac:(done) (Sha256Round W) W 64 (load_regs St)) as [-> Hok].
  - intros s t Hs Ht. unfold regs_ok, regs_list in Hs. rewrite !Forall_cons in Hs.
    destruct Hs as (HA & _ & _ & _ & HE & _). unfold Sha256Round, fips_round. rewrite (proj1 SHA256_constants).
    rewrite EP0_Sigma, EP1_Sigma by done. cbv zeta. f_equal; unfold wrap; [by rewrite <- Z.add_mod by lia|].
    by rewrite Zplus_mod_idemp_r.
  - by apply load_regs_ok.
  - destruct (add_words_ok 32 St (regs_list (foldl (fips_round fips256 W) (load_regs St) (seq 0 64)))) as [E1 E2]; [done|].
    rewrite HS in E1. split; [|by split]. clear E1 E2. set (regs := foldl _ _ _). clearbody regs.
    do 8 (destruct St as [|? St]; [done|]). by destruct St.
Qed.

(** ** The digests of a message *)
Definition LEShift (i : Z) : Z := i * 8.
Definition BEShift (i : Z) : Z := 24 - i * 8.

Definition md5_digest (msg : list Z) : list Z :=
  compress Md5Transform 64 MD5_H0 (pad64 StoreLengthLE msg) ≫= word_bytes LEShift.
Definition sha1_digest (msg : list Z) : list Z :=
  compress Sha1Transform 64 SHA1_H0 (pad64 StoreLengthBE msg) ≫= word_bytes BEShift.
Definition sha256_digest (msg : list Z) : list Z :=
  compress (fips_compress fips256) 64 (square_frac 32 <$> take 8 primes) (pad64 StoreLengthBE msg)
  ≫= word_bytes BEShift.

(** Several updates in a row. *)
Fixpoint updates (Update : hash_context -> list Z -> Z -> outcome hash_context) (Ctx : hash_context)
    (chunks : list (list Z)) : outcome hash_context :=
  match chunks with
  | [] => Ret Ctx
  | c :: chunks => Ctx ← Update Ctx c (Z.of_nat (length c)); updates Update Ctx chunks
  end.

Lemma compress_ext (f g : list Z -> list Z -> list Z) sz (I : list Z -> Prop) n : forall St l,
  (0 < sz)%nat -> length l = (sz * n)%nat -> Forall is_byte l -> I St ->
  (forall St b, I St -> length b = sz -> Forall is_byte b -> f St b = g St b /\ I (g St b)) ->
  compress f sz St l = compress g sz St l /\ I (compress g sz St l).
Proof.
  intros St l Hs Hl Hb HI Hfg. unfold compress. replace (length l / sz)%nat with n.
  2: { rewrite Hl, Nat.mul_comm. by rewrite Nat.div_mul by lia. }
  revert St l Hl Hb HI. induction n as [|n IH]; intros St l Hl Hb HI; simpl; [done|].
  destruct (Hfg St (take sz l) HI) as [-> HI']; [rewrite length_take; lia|by apply Forall_take|].
  apply IH; [rewrite length_drop; lia|by apply Forall_drop|done].
Qed.

Lemma StoreLengthBE_length x : length (StoreLengthBE x) = 8%nat.
Proof. done. Qed.
Lemma StoreLengthLE_length x : length (StoreLengthLE x) = 8%nat.
Proof. done. Qed.

Lemma pad64_length store msg : (forall x, length (store x) = 8%nat) -> exists n, length (pad64 store msg) = (64 * n)%nat.
Proof.
  intros Hs. unfold pad64. rewrite !length_app, length_replicate, Hs. simpl length.
  exists (Z.to_nat ((Z.of_nat (length msg) + 1 + (55 - Z.of_nat (length msg)) mod 64 + 8) / 64)).
  pose proof (Z.mod_pos_bound (55 - Z.of_nat (length msg)) 64). pose proof (Z.div_mod (55 - Z.of_nat (length msg)) 64).
  assert ((Z.of_nat (length msg) + 1 + (55 - Z.of_nat (length msg)) mod 64 + 8) = (1 - (55 - Z.of_nat (length msg)) / 64) * 64) as -> by lia.
  rewrite Z.div_mul by lia. lia.
Qed.

Lemma pad64_bytes msg : Forall is_byte msg -> Forall is_byte (pad64 StoreLengthBE msg).
Proof.
  intros H. unfold pad64. repeat (apply Forall_app; split); [done|by apply Forall_singleton| |].
  - apply Forall_replicate. done.
  - unfold StoreLengthBE. apply Forall_fmap, Forall_forall. intros i _. apply wrap_in_width. lia.
Qed.

(** The compressed state of one of the digests has its number of words. *)
Lemma compress_length (f : list Z -> list Z -> list Z) sz k St l :
  length St = k -> (forall St b, length (f St b) = k) -> length (compress f sz St l) = k.
Proof.
  intros HS Hf. unfold compress. generalize (blocks sz (length l / sz) l). intros bs. revert St HS.
  induction bs as [|b bs IH]; intros St HS; simpl; [done|]. by apply IH.
Qed.

Section Whole.
Variables (Transform : list Z -> list Z -> list Z) (store : Z -> list Z) (H0 : list Z) (iw : Z) (fuel : positive).
Hypothesis Hstore : forall x, length (store x) = 8%nat.
Hypothesis Hiw : 0 <= iw.
Hypothesis Hfuel : 2 ^ iw < Zpos fuel.

Lemma updates_spec chunks : forall Ctx msg,
  represents Transform H0 Ctx msg -> Forall (fun c => Z.of_nat (length c) < 2 ^ iw) chunks ->
  exists Ctx', updates (UpdateLoop Transform iw fuel) Ctx chunks = Ret Ctx'
    /\ represents Transform H0 Ctx' (msg ++ concat chunks).
Proof using Hiw Hfuel.
  induction chunks as [|c chunks IH]; intros Ctx msg HC Hc; simpl.
  { exists Ctx. by rewrite app_nil_r. }
  apply Forall_cons in Hc as [Hc Hcs].
  destruct (UpdateLoop_spec Transform H0 iw fuel Ctx msg c (Z.of_nat (length c)) HC) as (C1 & -> & H1); [lia..|].
  cbn [mbind outcome_bind]. rewrite Nat2Z.id, firstn_all in H1. destruct (IH C1 _ H1 Hcs) as (C2 & E & H2).
  exists C2. split; [done|]. by rewrite <- app_assoc in H2.
Qed.

(** Any updates, then the final call: the compression of the padded message. *)
Lemma digest_spec Words Shift chunks Junk Hash :
  length Junk = 64%nat -> Forall (fun c => Z.of_nat (length c) < 2 ^ iw) chunks ->
  let St := compress Transform 64 H0 (pad64 store (concat chunks)) in
  length St = Words -> (4 * Words <= length Hash)%nat ->
  exists Ctx, updates (UpdateLoop Transform iw fuel) (Init H0 Junk) chunks = Ret Ctx /\
    (Ctx ← FinalBlocks Transform store Ctx; StoreDigest Words Shift Ctx.(State) Hash)
    = Ret (list_inserts 0 (St ≫= word_bytes Shift) Hash).
Proof using Hstore Hiw Hfuel.
  intros HJ Hc St HS HH.
  destruct (updates_spec chunks _ [] (represents_init Transform H0 Junk HJ) Hc) as (Ctx & E & HR).
  exists Ctx. split; [done|]. simpl app in HR.
  destruct (FinalBlocks_spec Transform store H0 Hstore Ctx _ HR) as (C' & -> & EC). cbn [mbind outcome_bind].
  rewrite EC. fold St. rewrite <- HS. apply StoreDigest_spec. by rewrite HS.
Qed.

End Whole.

(** All three digests over any sequence of updates. *)
Lemma Streaming_spec chunks Junk Hash MJunk :
  length Junk = 64%nat -> length MJunk = 64%nat -> (32 <= length Hash)%nat ->
  Forall (Forall is_byte) chunks -> Forall (fun c => Z.of_nat (length c) < 2 ^ 32) chunks ->
  (exists Ctx, updates Md5Update (Md5Init Junk) chunks = Ret Ctx
     /\ Md5Final Ctx Hash = Ret (list_inserts 0 (md5_digest (concat chunks)) Hash))
  /\ (exists Ctx, updates Sha1Update (Sha1Init Junk) chunks = Ret Ctx
     /\ Sha1Final Ctx Hash = Ret (list_inserts 0 (sha1_digest (concat chunks)) Hash))
  /\ (exists Ctx, updates (Sha256Update MJunk) (Sha256Init Junk) chunks = Ret Ctx
     /\ Sha256Final MJunk Ctx Hash = Ret (list_inserts 0 (sha256_digest (concat chunks)) Hash)).
Proof.
  intros HJ HM HH HB H32.
  assert (Forall (fun c : list Z => Z.of_nat (length c) < 2 ^ 64) chunks) as H64
    by (eapply Forall_impl; [exact H32|]; simpl; lia).
  split_and!.
  - apply (digest_spec Md5Transform StoreLengthLE MD5_H0 64 UpdateFuel64); try done; [|lia]. by apply compress_length.
  - apply (digest_spec Sha1Transform StoreLengthBE SHA1_H0 64 UpdateFuel64); try done; [|lia]. by apply compress_length.
  - destruct (pad64_length StoreLengthBE (concat chunks) StoreLengthBE_length) as [n Hn].
    destruct (compress_ext (Sha256Transform MJunk) (fips_compress fips256) 64
      (fun St => length St = 8%nat /\ Forall (in_width 32) St) n SHA256_H0 (pad64 StoreLengthBE (concat chunks)))
      as [E [HL _]]; try done; [lia|by apply pad64_bytes, Forall_concat|..].
    + split; [done|]. by apply (bool_decide_unpack _).
    + intros St b [H1 H2] Hl Hb. by apply Sha256Transform_fips.
    + unfold sha256_digest. rewrite <- (proj2 SHA256_constants), <- E.
      apply (digest_spec (Sha256Transform MJunk) StoreLengthBE SHA256_H0 32 UpdateFuel32); try done. by rewrite E.
Qed.

(** ** Properties *)



(** [Sha256Update] returns exactly for lengths below 2^32: its loop index is
    an UINT32 that is compared with an UINTN, so it wraps before it reaches a
    larger length and the loop runs forever. *)
Theorem Sha256Update_terminates MJunk Ctx msg Input Len :
  represents (Sha256Transform MJunk) SHA256_H0 Ctx msg -> 0 <= Len <= Z.of_nat (length Input) ->
  (Len < 2 ^ 32 -> exists Ctx', Sha256Update MJunk Ctx Input Len = Ret Ctx'
     /\ represents (Sha256Transform MJunk) SHA256_H0 Ctx' (msg ++ take (Z.to_nat Len) Input))
  /\ (2 ^ 32 <= Len -> forall fuel, UpdateLoop (Sha256Transform MJunk) 32 fuel Ctx Input Len = Fault OutOfFuel).
Proof.
  intros HC HL. split; intros Hlt.
  - apply (UpdateLoop_spec _ _ 32 UpdateFuel32); try done. unfold UpdateFuel32. lia.
  - intros fuel. eapply (UpdateLoop_forever _ SHA256_H0); try done. lia.
Qed.

Lemma Sha256Update_terminates_witness :
  exists Ctx', Sha256Update (replicate 64 5) (Sha256Init (replicate 64 7)) [97; 98; 99] 2 = Ret Ctx'
    /\ represents (Sha256Transform (replicate 64 5)) SHA256_H0 Ctx' [97; 98].
Proof.
  refine (proj1 (Sha256Update_terminates (replicate 64 5) (Sha256Init (replicate 64 7)) [] [97; 98; 99] 2 _ _) _).
  - by apply represents_init.
  - simpl. lia.
  - lia.
Defined.

End Digest.
