(* ===== verification/Sha512.v ===== *)
(** * SHA-512, SHA-384 and the password hash

    The SHA-384/512 part of Library/OcCryptoLib/Sha2.c, PasswordHash.c and the
    comparison of SecureMem.c. The update functions work on whole blocks of 128
    bytes, with a buffer for the rest; they are proved to compute the compression
    of the padded message with the compression function of FIPS 180-4 (Digest.v).
    The assembly transform (X64/Sha512Avx.nasm) is a parameter with the law that
    it computes the same compression. *)
From S2P Require Import Prelude Digest.

Module Sha512.
Import Digest.

(** ** Constants and macros *)
Definition SHA512_BLOCK_SIZE : Z := 128.
Definition SHA512_DIGEST_SIZE : Z := 64.

Definition SHA512_K : list Z :=
  [ 0x428a2f98d728ae22; 0x7137449123ef65cd; 0xb5c0fbcfec4d3b2f; 0xe9b5dba58189dbbc;
    0x3956c25bf348b538; 0x59f111f1b605d019; 0x923f82a4af194f9b; 0xab1c5ed5da6d8118;
    0xd807aa98a3030242; 0x12835b0145706fbe; 0x243185be4ee4b28c; 0x550c7dc3d5ffb4e2;
    0x72be5d74f27b896f; 0x80deb1fe3b1696b1; 0x9bdc06a725c71235; 0xc19bf174cf692694;
    0xe49b69c19ef14ad2; 0xefbe4786384f25e3; 0x0fc19dc68b8cd5b5; 0x240ca1cc77ac9c65;
    0x2de92c6f592b0275; 0x4a7484aa6ea6e483; 0x5cb0a9dcbd41fbd4; 0x76f988da831153b5;
    0x983e5152ee66dfab; 0xa831c66d2db43210; 0xb00327c898fb213f; 0xbf597fc7beef0ee4;
    0xc6e00bf33da88fc2; 0xd5a79147930aa725; 0x06ca6351e003826f; 0x142929670a0e6e70;
    0x27b70a8546d22ffc; 0x2e1b21385c26c926; 0x4d2c6dfc5ac42aed; 0x53380d139d95b3df;
    0x650a73548baf63de; 0x766a0abb3c77b2a8; 0x81c2c92e47edaee6; 0x92722c851482353b;
    0xa2bfe8a14cf10364; 0xa81a664bbc423001; 0xc24b8b70d0f89791; 0xc76c51a30654be30;
    0xd192e819d6ef5218; 0xd69906245565a910; 0xf40e35855771202a; 0x106aa07032bbd1b8;
    0x19a4c116b8d2d0c8; 0x1e376c085141ab53; 0x2748774cdf8eeb99; 0x34b0bcb5e19b48a8;
    0x391c0cb3c5c95a63; 0x4ed8aa4ae3418acb; 0x5b9cca4f7763e373; 0x682e6ff3d6b2b8a3;
    0x748f82ee5defb2fc; 0x78a5636f43172f60; 0x84c87814a1f0ab72; 0x8cc702081a6439ec;
    0x90befffa23631e28; 0xa4506cebde82bde9; 0xbef9a3f7b2c67915; 0xc67178f2e372532b;
    0xca273eceea26619c; 0xd186b8c721c0c207; 0xeada7dd6cde0eb1e; 0xf57d4f7fee6ed178;
    0x06f067aa72176fba; 0x0a637dc5a2c898a6; 0x113f9804bef90dae; 0x1b710b35131c471b;
    0x28db77f523047d84; 0x32caab7b40c72493; 0x3c9ebe0a15c9bebc; 0x431d67c49c100d4c;
    0x4cc5d4becb3e42b6; 0x597f299cfc657e2a; 0x5fcb6fab3ad6faec; 0x6c44198c4a475817 ].

Definition SHA512_H0 : list Z :=
  [ 0x6a09e667f3bcc908; 0xbb67ae8584caa73b; 0x3c6ef372fe94f82b; 0xa54ff53a5f1d36f1;
    0x510e527fade682d1; 0x9b05688c2b3e6c1f; 0x1f83d9abfb41bd6b; 0x5be0cd19137e2179 ].

Definition SHA384_H0 : list Z :=
  [ 0xcbbb9d5dc1059ed8; 0x629a292a367cd507; 0x9159015a3070dd17; 0x152fecd8f70e5939;
    0x67332667ffc00b31; 0x8eb44a8768581511; 0xdb0c2e0d64f98fa7; 0x47b5481dbefa4fa4 ].

Definition SHA512_EP0 (x : Z) : Z := Z.lxor (Z.lxor (ROTRIGHT 64 x 28) (ROTRIGHT 64 x 34)) (ROTRIGHT 64 x 39).
Definition SHA512_EP1 (x : Z) : Z := Z.lxor (Z.lxor (ROTRIGHT 64 x 14) (ROTRIGHT 64 x 18)) (ROTRIGHT 64 x 41).
Definition SHA512_SIG0 (x : Z) : Z := Z.lxor (Z.lxor (ROTRIGHT 64 x 1) (ROTRIGHT 64 x 8)) (SHFR x 7).
Definition SHA512_SIG1 (x : Z) : Z := Z.lxor (Z.lxor (ROTRIGHT 64 x 19) (ROTRIGHT 64 x 61)) (SHFR x 6).

(** [PACK64 (&Block[i << 3], &W[i])]. *)
Definition PACK64 (Block : list Z) (i : nat) : Z :=
  let b k := Block !!! (8 * i + k)%nat in
  let sh k n := wrap 64 (Z.shiftl (b k) n) in
  Z.lor (Z.lor (Z.lor (Z.lor (Z.lor (Z.lor (Z.lor (b 7%nat) (sh 6%nat 8)) (sh 5%nat 16)) (sh 4%nat 24)) (sh 3%nat 32))
    (sh 2%nat 40)) (sh 1%nat 48)) (sh 0%nat 56).

(** The bytes that [UNPACK64] stores. *)
Definition UNPACK64 (x : Z) : list Z :=
  (fun i => wrap 8 (Z.shiftr x (56 - 8 * Z.of_nat i))) <$> seq 0 8.

(** ** The transform *)

(** [SHA512_SCR (Index)]. *)
Definition SHA512_SCR (W : list Z) (i : nat) : list Z :=
  <[i := wrap 64 (SHA512_SIG1 (W !!! (i - 2)%nat) + (W !!! (i - 7)%nat)
                  + SHA512_SIG0 (W !!! (i - 15)%nat) + (W !!! (i - 16)%nat))]> W.

(** One round; the message schedule is prepared on the fly. *)
Definition Sha512Round (St : list Z * sha2_regs) (i : nat) : list Z * sha2_regs :=
  let '(W, s) := St in
  let W := if decide (16 <= i)%nat then SHA512_SCR W i else W in
  let T1 := wrap 64 (s.(rH) + SHA512_EP1 s.(rE) + CH 64 s.(rE) s.(rF) s.(rG) + (SHA512_K !!! i) + (W !!! i)) in
  let T2 := wrap 64 (SHA512_EP0 s.(rA) + MAJ s.(rA) s.(rB) s.(rC)) in
  (W, {| rH := s.(rG); rG := s.(rF); rF := s.(rE); rE := s.(rD) +[64] T1;
         rD := s.(rC); rC := s.(rB); rB := s.(rA); rA := T1 +[64] T2 |}).

(** The body of the loop over the blocks; [WJunk] is the array [W] before. *)
Definition Sha512Block (WJunk St SubBlock : list Z) : list Z :=
  let W := foldl (fun W i => <[i := PACK64 SubBlock i]> W) WJunk (seq 0 16) in
  let '(_, s) := foldl Sha512Round (W, load_regs St) (seq 0 80) in
  [ (St !!! 0%nat) +[64] s.(rA); (St !!! 1%nat) +[64] s.(rB); (St !!! 2%nat) +[64] s.(rC); (St !!! 3%nat) +[64] s.(rD);
    (St !!! 4%nat) +[64] s.(rE); (St !!! 5%nat) +[64] s.(rF); (St !!! 6%nat) +[64] s.(rG); (St !!! 7%nat) +[64] s.(rH) ].

Definition Sha512Transform (WJunk St Input : list Z) (Off BlockNb : Z) : outcome (list Z) :=
  for_ (Z.to_nat BlockNb) 0 (fun Index1 St =>
    SubBlock ← rd_slice Input (Off + Z.shiftl Index1 7) 128;
    Ret (Sha512Block WJunk St SubBlock)) St.

(** The accelerated transform of the assembly sources: its state after the
    blocks at an offset of a buffer. *)
Class Sha512Accel : Type := {
  mIsAccelEnabled : bool;
  Sha512TransformAccel : list Z -> list Z -> Z -> Z -> list Z
}.

(** ** Contexts *)
Record SHA512_CONTEXT := {
  TotalLength : Z;
  Length : Z;
  Block : list Z;
  State : list Z
}.

Section Model.
Context {Acc : Sha512Accel}.
Variable WJunk : list Z.

Definition RunTransform (St Input : list Z) (Off BlockNb : Z) : outcome (list Z) :=
  if mIsAccelEnabled then Ret (Sha512TransformAccel St Input Off BlockNb)
  else Sha512Transform WJunk St Input Off BlockNb.

Definition InitContext (H0 : list Z) (Ctx : SHA512_CONTEXT) : SHA512_CONTEXT :=
  {| TotalLength := 0; Length := 0; Block := Ctx.(Block); State := H0 |}.
Definition Sha512Init : SHA512_CONTEXT -> SHA512_CONTEXT := InitContext SHA512_H0.
Definition Sha384Init : SHA512_CONTEXT -> SHA512_CONTEXT := InitContext SHA384_H0.

(** The text of [Sha512Update] and [Sha384Update]. *)
Definition UpdateBlocks (Ctx : SHA512_CONTEXT) (Input : list Z) (Len : Z) : outcome SHA512_CONTEXT :=
  let TmpLen := SHA512_BLOCK_SIZE -[64] Ctx.(Length) in
  let RemLen := if decide (Len < TmpLen) then Len else TmpLen in
  Block' ← CopyMem Ctx.(Block) Ctx.(Length) Input 0 RemLen;
  if decide (Ctx.(Length) +[64] Len < SHA512_BLOCK_SIZE) then
    Ret {| TotalLength := Ctx.(TotalLength); Length := Ctx.(Length) +[64] Len; Block := Block'; State := Ctx.(State) |}
  else
    let NewLen := Len -[64] RemLen in
    let BlockNb := NewLen / SHA512_BLOCK_SIZE in
    St ← RunTransform Ctx.(State) Block' 0 1;
    St ← RunTransform St Input RemLen BlockNb;
    let RemLen' := NewLen mod SHA512_BLOCK_SIZE in
    Block' ← CopyMem Block' 0 Input (RemLen + Z.shiftl BlockNb 7) RemLen';
    Ret {| TotalLength := Ctx.(TotalLength) +[64] wrap 64 (Z.shiftl (BlockNb + 1) 7);
           Length := RemLen'; Block := Block'; State := St |}.
Definition Sha512Update := UpdateBlocks.
Definition Sha384Update := UpdateBlocks.

(** The text of [Sha512Final] and [Sha384Final] for [Words] words of output. *)
Definition FinalWords (Words : nat) (Ctx : SHA512_CONTEXT) (Hash : list Z) : outcome (SHA512_CONTEXT * list Z) :=
  let BlockNb := (if decide (SHA512_BLOCK_SIZE - 17 < Ctx.(Length) mod SHA512_BLOCK_SIZE) then 1 else 0) + 1 in
  let LenB := wrap 64 (Z.shiftl (Ctx.(TotalLength) +[64] Ctx.(Length)) 3) in
  let PmLen := Z.shiftl BlockNb 7 in
  Block' ← ZeroMem Ctx.(Block) Ctx.(Length) (PmLen - Ctx.(Length));
  Block' ← wr Block' Ctx.(Length) 0x80;
  Block' ← wr_slice Block' (PmLen - 8) (UNPACK64 LenB);
  St ← RunTransform Ctx.(State) Block' 0 BlockNb;
  Hash ← for_ Words 0 (fun i Hash => s ← rd St i; wr_slice Hash (Z.shiftl i 3) (UNPACK64 s)) Hash;
  Ret ({| TotalLength := Ctx.(TotalLength); Length := Ctx.(Length); Block := Block'; State := St |}, Hash).
Definition Sha512Final := FinalWords 8.
Definition Sha384Final := FinalWords 6.

Definition Sha512 (Junk : SHA512_CONTEXT) (Hash Input : list Z) (Len : Z) : outcome (list Z) :=
  Ctx ← Sha512Update (Sha512Init Junk) Input Len; snd <$> Sha512Final Ctx Hash.
Definition Sha384 (Junk : SHA512_CONTEXT) (Hash Input : list Z) (Len : Z) : outcome (list Z) :=
  Ctx ← Sha384Update (Sha384Init Junk) Input Len; snd <$> Sha384Final Ctx Hash.

(** ** Password hash *)

(** One pass over the hash (if any), the password and the salt. *)
Definition HashPass (Ctx : SHA512_CONTEXT) (Prefix : option (list Z)) (Password : list Z) (PasswordSize : Z)
    (Salt : list Z) (SaltSize : Z) (Hash : list Z) : outcome (SHA512_CONTEXT * list Z) :=
  let Ctx := Sha512Init Ctx in
  Ctx ← (match Prefix with None => Ret Ctx | Some h => Sha512Update Ctx h SHA512_DIGEST_SIZE end);
  Ctx ← Sha512Update Ctx Password PasswordSize;
  Ctx ← Sha512Update Ctx Salt SaltSize;
  Sha512Final Ctx Hash.

Definition HashRounds (n : nat) (Ctx : SHA512_CONTEXT) (Password : list Z) (PasswordSize : Z)
    (Salt : list Z) (SaltSize : Z) (Hash : list Z) : outcome (list Z) :=
  s ← HashPass Ctx None Password PasswordSize Salt SaltSize Hash;
  snd <$> for_ n 0 (fun _ s => HashPass s.1 (Some s.2) Password PasswordSize Salt SaltSize s.2) s.

(** The number of iterations; opaque, so that no tactic runs them. *)
Definition HashIterations : nat := Z.to_nat 5000000.
#[global] Opaque HashIterations.

Definition OcHashPasswordSha512 (Junk : SHA512_CONTEXT) (Password : list Z) (PasswordSize : Z)
    (Salt : list Z) (SaltSize : Z) (Hash : list Z) : outcome (list Z) :=
  HashRounds HashIterations Junk Password PasswordSize Salt SaltSize Hash.

(** [SecureCompareMem], without the checks of the addresses. *)
Definition SecureCompareMem (Dst Src : list Z) (Len : Z) : outcome Z :=
  XorDiff ← for_ (Z.to_nat Len) 0 (fun i XorDiff =>
    d ← rd Dst i; s ← rd Src i; Ret (Z.lor XorDiff (wrap 8 (Z.land (Z.lxor d s) 0xFF)))) 0;
  Ret (Z.land 1 (Z.shiftr (XorDiff -[32] 1) 8) - 1).

Definition OcVerifyPasswordSha512 (Junk : SHA512_CONTEXT) (VerifyHash : list Z) (Password : list Z) (PasswordSize : Z)
    (Salt : list Z) (SaltSize : Z) (RefHash : list Z) : outcome bool :=
  VerifyHash ← OcHashPasswordSha512 Junk Password PasswordSize Salt SaltSize VerifyHash;
  r ← SecureCompareMem RefHash VerifyHash SHA512_DIGEST_SIZE;
  Ret (bool_decide (r = 0)).

End Model.

(** No acceleration, as Sha512AccelDummy.c sets it. *)
Definition NoAccel : Sha512Accel := {| mIsAccelEnabled := false; Sha512TransformAccel St _ _ _ := St |}.

Definition JunkContext : SHA512_CONTEXT :=
  {| TotalLength := 3; Length := 5; Block := replicate 256 7; State := replicate 8 1 |}.

(** The digests of the three letters [abc] (their first bytes). *)
Example sha512_abc : take 8 <$> Sha512 (Acc := NoAccel) (replicate 80 5) JunkContext (replicate 64 0) [97; 98; 99] 3 =
  Ret [0xdd; 0xaf; 0x35; 0xa1; 0x93; 0x61; 0x7a; 0xba].
Proof. vm_compute. reflexivity. Qed.
Example sha384_abc : take 8 <$> Sha384 (Acc := NoAccel) (replicate 80 5) JunkContext (replicate 48 0) [97; 98; 99] 3 =
  Ret [0xcb; 0x00; 0x75; 0x3f; 0x45; 0xa3; 0x5e; 0x8b].
Proof. vm_compute. reflexivity. Qed.

(** ** Reference *)
Definition fips512 : sha2_family := {|
  fw := 64;
  fSigma0 := (28, 34, 39); fSigma1 := (14, 18, 41); fsigma0 := (1, 8, 7); fsigma1 := (19, 61, 6);
  fK := cube_frac 64 <$> primes
|}.

Lemma SHA512_constants :
  SHA512_K = fK fips512 /\ SHA512_H0 = square_frac 64 <$> take 8 primes
  /\ SHA384_H0 = square_frac 64 <$> take 8 (drop 8 primes).
Proof. vm_compute. done. Qed.

(** The 128-bit length of the standard. *)
Definition StoreLength128 (x : Z) : list Z :=
  (fun i => wrap 8 (Z.shiftr x (120 - 8 * Z.of_nat i))) <$> seq 0 16.

Definition pad128 (msg : list Z) : list Z :=
  msg ++ [0x80] ++ replicate (Z.to_nat ((111 - Z.of_nat (length msg)) mod 128)) 0
      ++ StoreLength128 (8 * Z.of_nat (length msg)).

Definition sha512_state (H0 msg : list Z) : list Z := compress (fips_compress fips512) 128 H0 (pad128 msg).
Definition sha512_digest (msg : list Z) : list Z :=
  sha512_state (square_frac 64 <$> take 8 primes) msg ≫= UNPACK64.
Definition sha384_digest (msg : list Z) : list Z :=
  take 6 (sha512_state (square_frac 64 <$> take 8 (drop 8 primes)) msg) ≫= UNPACK64.

(** ** The transform computes the standard's compression function *)
Lemma EP0_Sigma512 x : in_width 64 x -> SHA512_EP0 x = Sigma fips512 (28, 34, 39) x.
Proof. intros Hx. unfold SHA512_EP0, Sigma. change 64 with (fw fips512). by rewrite !ROTRIGHT_rotr by (done || simpl; lia). Qed.
Lemma EP1_Sigma512 x : in_width 64 x -> SHA512_EP1 x = Sigma fips512 (14, 18, 41) x.
Proof. intros Hx. unfold SHA512_EP1, Sigma. change 64 with (fw fips512). by rewrite !ROTRIGHT_rotr by (done || simpl; lia). Qed.
Lemma SIG0_sigma512 x : in_width 64 x -> SHA512_SIG0 x = sigma fips512 (1, 8, 7) x.
Proof.
  intros Hx. unfold SHA512_SIG0, sigma, SHFR. change 64 with (fw fips512).
  rewrite !ROTRIGHT_rotr by (done || simpl; lia). by rewrite Z.shiftr_div_pow2 by lia.
Qed.
Lemma SIG1_sigma512 x : in_width 64 x -> SHA512_SIG1 x = sigma fips512 (19, 61, 6) x.
Proof.
  intros Hx. unfold SHA512_SIG1, sigma, SHFR. change 64 with (fw fips512).
  rewrite !ROTRIGHT_rotr by (done || simpl; lia). by rewrite Z.shiftr_div_pow2 by lia.
Qed.

Lemma or_shift x y n : 0 <= n -> 0 <= y < 2 ^ n -> Z.lor y (Z.shiftl x n) = x * 2 ^ n + y.
Proof. intros. rewrite Z.lor_comm. by apply shift_or. Qed.

Lemma pack8 a b c d e f g h :
  is_byte a -> is_byte b -> is_byte c -> is_byte d -> is_byte e -> is_byte f -> is_byte g -> is_byte h ->
  Z.lor (Z.lor (Z.lor (Z.lor (Z.lor (Z.lor (Z.lor h (wrap 64 (Z.shiftl g 8))) (wrap 64 (Z.shiftl f 16)))
    (wrap 64 (Z.shiftl e 24))) (wrap 64 (Z.shiftl d 32))) (wrap 64 (Z.shiftl c 40))) (wrap 64 (Z.shiftl b 48)))
    (wrap 64 (Z.shiftl a 56)) = be_word [a; b; c; d; e; f; g; h].
Proof.
  intros [??] [??] [??] [??] [??] [??] [??] [??]. unfold be_word. simpl.
  rewrite !wrap_small by (rewrite Z.shiftl_mul_pow2 by lia; lia).
  rewrite (or_shift g h 8) by lia. rewrite (or_shift f _ 16) by lia. rewrite (or_shift e _ 24) by lia.
  rewrite (or_shift d _ 32) by lia. rewrite (or_shift c _ 40) by lia. rewrite (or_shift b _ 48) by lia.
  rewrite (or_shift a _ 56) by lia. lia.
Qed.

(** Eight cells in a row. *)
Lemma take8_total (l : list Z) i : (i + 8 <= length l)%nat ->
  take 8 (drop i l) = [l !!! i; l !!! (i + 1)%nat; l !!! (i + 2)%nat; l !!! (i + 3)%nat;
                       l !!! (i + 4)%nat; l !!! (i + 5)%nat; l !!! (i + 6)%nat; l !!! (i + 7)%nat].
Proof.
  intros H. rewrite !Nat.add_succ_r, Nat.add_0_r.
  do 8 (rewrite drop_total by lia; rewrite firstn_cons; f_equal; try apply reflexivity).
Qed.

Lemma PACK64_fips SubBlock i :
  length SubBlock = 128%nat -> Forall is_byte SubBlock -> (i < 16)%nat ->
  PACK64 SubBlock i = be_word (take 8 (drop (i * 8) SubBlock)) /\ in_width 64 (PACK64 SubBlock i).
Proof.
  intros HL HB Hi. assert (PACK64 SubBlock i = be_word (take 8 (drop (i * 8) SubBlock))) as E.
  { rewrite take8_total by lia. rewrite <- pack8 by (by apply byte_total).
    unfold PACK64. replace (8 * i)%nat with (i * 8)%nat by lia. by rewrite !Nat.add_0_r. }
  split; [done|]. rewrite E, take8_total by lia. unfold be_word, in_width. simpl.
  pose proof (fun j => byte_total SubBlock j HB) as HX. unfold is_byte, in_width in HX.
  pose proof (HX (i * 8)%nat). pose proof (HX (i * 8 + 1)%nat). pose proof (HX (i * 8 + 2)%nat). pose proof (HX (i * 8 + 3)%nat).
  pose proof (HX (i * 8 + 4)%nat). pose proof (HX (i * 8 + 5)%nat). pose proof (HX (i * 8 + 6)%nat). pose proof (HX (i * 8 + 7)%nat).
  lia.
Qed.

Lemma schedule_prefix f words n m :
  (n <= m)%nat -> exists rest, schedule f words m = schedule f words n ++ rest.
Proof.
  induction 1 as [|m _ [rest IH]]; [exists []; by rewrite app_nil_r|].
  rewrite schedule_S, IH. eexists. by rewrite <- app_assoc.
Qed.

(** A started schedule agrees with the finished one. *)
Lemma schedule_at f words n m t (junk : list Z) :
  length words = 16%nat -> (n <= m)%nat -> (t < 16 + n)%nat ->
  (schedule f words n ++ junk) !!! t = schedule f words m !!! t.
Proof.
  intros Hl Hn Ht. destruct (schedule_prefix f words n m Hn) as [rest ->].
  pose proof (schedule_length f words n Hl). by rewrite !lookup_total_app_l by lia.
Qed.

Lemma SCR_fips words junk n x :
  length words = 16%nat -> Forall (in_width 64) words ->
  SHA512_SCR (schedule fips512 words n ++ x :: junk) (16 + n) = schedule fips512 words (S n) ++ junk.
Proof.
  intros Hl Hr. rewrite schedule_S. pose proof (schedule_length fips512 words n Hl) as HL.
  pose proof (schedule_range fips512 ltac:(done) words n Hr) as HR.
  set (W := schedule fips512 words n) in *. unfold SHA512_SCR.
  rewrite !(lookup_total_app_l W) by lia. unfold next_word.
  rewrite SIG1_sigma512, SIG0_sigma512 by (by apply (in_width_total fips512)).
  assert (forall x y l2, <[(16 + n)%nat := x]> (W ++ y :: l2) = (W ++ [x]) ++ l2) as HI
    by (intros; rewrite <- HL; apply insert_next).
  apply HI.
Qed.

Lemma Round_fips words WJunk s n :
  length words = 16%nat -> Forall (in_width 64) words -> length WJunk = 80%nat -> (n < 80)%nat -> regs_ok fips512 s ->
  Sha512Round (schedule fips512 words (n - 16) ++ drop (n `max` 16) WJunk, s) n
  = (schedule fips512 words (S n - 16) ++ drop (S n `max` 16) WJunk, fips_round fips512 (schedule fips512 words 64) s n).
Proof.
  intros Hl Hr HJ Hn Hs. unfold Sha512Round.
  assert ((if decide (16 <= n)%nat then SHA512_SCR (schedule fips512 words (n - 16) ++ drop (n `max` 16) WJunk) n
           else schedule fips512 words (n - 16) ++ drop (n `max` 16) WJunk)
          = schedule fips512 words (S n - 16) ++ drop (S n `max` 16) WJunk) as ->.
  { case_decide.
    - rewrite !Nat.max_l by lia. rewrite (drop_total WJunk n) by lia.
      replace n with (16 + (n - 16))%nat at 4 by lia. rewrite SCR_fips by done.
      by replace (S n - 16)%nat with (S (n - 16)) by lia.
    - rewrite !Nat.max_r by lia. by replace (S n - 16)%nat with (n - 16)%nat by lia. }
  f_equal. rewrite (schedule_at _ _ _ 64) by (done || lia).
  unfold regs_ok, regs_list in Hs. rewrite !Forall_cons in Hs. destruct Hs as (HA & _ & _ & _ & HE & _).
  unfold fips_round. rewrite (proj1 SHA512_constants). rewrite EP0_Sigma512, EP1_Sigma512 by done. cbv zeta.
  f_equal; unfold wrap; [by rewrite <- Z.add_mod by lia|by rewrite Zplus_mod_idemp_r].
Qed.

Lemma Sha512Block_fips WJunk St SubBlock :
  length WJunk = 80%nat -> length SubBlock = 128%nat -> Forall is_byte SubBlock ->
  length St = 8%nat -> Forall (in_width 64) St ->
  Sha512Block WJunk St SubBlock = fips_compress fips512 St SubBlock.
Proof.
  intros HJ HL HB HS Hr. unfold Sha512Block, fips_compress.
  change (length (fK fips512)) with 80%nat. change (80 - 16)%nat with 64%nat.
  assert ((PACK64 SubBlock <$> seq 0 16) = fips_words fips512 SubBlock) as HW.
  { apply list_fmap_ext. intros i x Hx. apply lookup_seq in Hx as [-> Hx]. by apply PACK64_fips. }
  assert (Forall (in_width 64) (fips_words fips512 SubBlock)) as HWr.
  { rewrite <- HW. apply Forall_fmap, Forall_forall. intros i Hi%elem_of_seq. simpl. apply PACK64_fips; done || lia. }
  rewrite load_words, HW by lia. set (words := fips_words fips512 SubBlock) in *.
  assert (forall n, (n <= 80)%nat ->
    foldl Sha512Round (words ++ drop 16 WJunk, load_regs St) (seq 0 n)
    = (schedule fips512 words (n - 16) ++ drop (n `max` 16) WJunk,
       foldl (fips_round fips512 (schedule fips512 words 64)) (load_regs St) (seq 0 n))
    /\ regs_ok fips512 (foldl (fips_round fips512 (schedule fips512 words 64)) (load_regs St) (seq 0 n))) as H.
  { induction n as [|n IH]; intros Hn; [split; [done|by apply load_regs_ok]|].
    destruct IH as [E Hok]; [lia|]. rewrite seq_S, !foldl_app, E. simpl foldl.
    split; [by apply Round_fips|by apply fips_round_ok]. }
  destruct (H 80%nat) as [-> _]; [done|]. clear H. set (regs := foldl _ _ _). clearbody regs.
  do 8 (destruct St as [|? St]; [done|]). by destruct St.
Qed.

Definition state_ok (St : list Z) : Prop := length St = 8%nat /\ Forall (in_width 64) St.

Lemma fips_state_ok St b : state_ok St -> state_ok (fips_compress fips512 St b).
Proof.
  intros [HS _]. unfold fips_compress. change (fw fips512) with 64.
  set (regs := regs_list _). assert (length regs = 8%nat) as HR by done. clearbody regs.
  destruct (add_words_ok 64 St regs) as [E1 E2]; [done|]. split; [|exact E2]. by rewrite E1, HS, HR.
Qed.

Lemma compress_state_ok sz St l : state_ok St -> state_ok (compress (fips_compress fips512) sz St l).
Proof.
  unfold compress. generalize (blocks sz (length l / sz) l). intros bs. revert St.
  induction bs as [|b bs IH]; intros St HS; simpl; [done|]. by apply IH, fips_state_ok.
Qed.

(** ** Lemmas on buffers *)
Lemma inserts_after (l1 l2 xs : list Z) :
  (length xs <= length l2)%nat -> list_inserts (length l1) xs (l1 ++ l2) = l1 ++ xs ++ drop (length xs) l2.
Proof.
  intros H. apply list_eq. intros i. rewrite lookup_inserts by (rewrite length_app; lia).
  destruct (decide (i < length l1)%nat).
  - rewrite decide_False by lia. by rewrite !lookup_app_l by lia.
  - rewrite !(lookup_app_r l1) by lia. destruct (decide (i - length l1 < length xs)%nat).
    + rewrite decide_True by lia. by rewrite lookup_app_l by lia.
    + rewrite decide_False by lia. rewrite lookup_app_r by lia. rewrite lookup_drop. f_equal. lia.
Qed.

Lemma inserts_here (l xs : list Z) :
  (length xs <= length l)%nat -> list_inserts 0 xs l = xs ++ drop (length xs) l.
Proof. intros H. exact (inserts_after [] l xs H). Qed.

Lemma wr_slice_after (l1 l2 xs : list Z) off :
  off = Z.of_nat (length l1) -> (length xs <= length l2)%nat ->
  wr_slice (l1 ++ l2) off xs = Ret (l1 ++ xs ++ drop (length xs) l2).
Proof.
  intros -> H. rewrite wr_slice_in by (rewrite ?length_app; lia). by rewrite Nat2Z.id, inserts_after.
Qed.

Lemma slice_app (l : list Z) off n m :
  0 <= off -> 0 <= n -> 0 <= m -> slice l off (n + m) = slice l off n ++ slice l (off + n) m.
Proof.
  intros. unfold slice. rewrite Z2Nat.inj_add by lia. rewrite <- take_take_drop. f_equal.
  rewrite drop_drop, <- Z2Nat.inj_add by lia. done.
Qed.

Lemma slice_0 (l : list Z) n : slice l 0 n = take (Z.to_nat n) l.
Proof. done. Qed.

Lemma slice_head (l1 l2 : list Z) n : n = Z.of_nat (length l1) -> slice (l1 ++ l2) 0 n = l1.
Proof. intros ->. rewrite slice_0, Nat2Z.id. apply take_app_length. Qed.

(** ** The transforms on runs of blocks *)
Abbreviation sha := (compress (fips_compress fips512) 128).

Class Sha512AccelLaws (Acc : Sha512Accel) : Prop :=
  accel_law St Input Off BlockNb :
    mIsAccelEnabled = true -> state_ok St -> 0 <= Off -> 0 <= BlockNb ->
    Off + 128 * BlockNb <= Z.of_nat (length Input) -> Forall is_byte (slice Input Off (128 * BlockNb)) ->
    Sha512TransformAccel St Input Off BlockNb = sha St (slice Input Off (128 * BlockNb)).

#[export] Instance no_accel_laws : Sha512AccelLaws NoAccel.
Proof. by intros ?. Qed.

Section Streaming.
Context {Acc : Sha512Accel} {HAcc : Sha512AccelLaws Acc}.
Variable WJunk : list Z.
Hypothesis HW : length WJunk = 80%nat.

Lemma Transform_spec St Input Off BlockNb :
  state_ok St -> 0 <= Off -> 0 <= BlockNb -> Off + 128 * BlockNb <= Z.of_nat (length Input) ->
  Forall is_byte (slice Input Off (128 * BlockNb)) ->
  Sha512Transform WJunk St Input Off BlockNb = Ret (sha St (slice Input Off (128 * BlockNb))).
Proof using HW.
  intros HS Ho Hb Hl HB. unfold Sha512Transform.
  oc_for (fun j St' => St' = sha St (slice Input Off (128 * j))) as r Hr.
  - unfold slice. simpl. by rewrite compress_nil.
  - intros j St' Hj ->. rewrite Z.shiftl_mul_pow2 by lia. rewrite rd_slice_in by lia. cbn [mbind outcome_bind].
    eexists. split; [done|]. change (2 ^ 7) with 128.
    assert (slice Input Off (128 * BlockNb) = slice Input Off (128 * j) ++ slice Input (Off + j * 128) 128
              ++ slice Input (Off + j * 128 + 128) (128 * (BlockNb - j - 1))) as E.
    { replace (128 * BlockNb) with (128 * j + (128 + 128 * (BlockNb - j - 1))) by lia.
      rewrite (slice_app _ _ (128 * j)) by lia. replace (Off + 128 * j) with (Off + j * 128) by lia.
      by rewrite (slice_app _ _ 128) by lia. }
    rewrite E in HB. apply Forall_app in HB as [_ [HB _]%Forall_app].
    replace (128 * (j + 1)) with (128 * j + 128) by lia. rewrite (slice_app _ _ (128 * j)) by lia.
    replace (Off + 128 * j) with (Off + j * 128) by lia.
    rewrite (compress_app _ _ _ _ _ (Z.to_nat j)) by (rewrite ?slice_length; lia).
    rewrite (compress_one _ _ _ (slice Input (Off + j * 128) 128)) by (rewrite ?slice_length; lia).
    apply Sha512Block_fips; try done; [rewrite slice_length; lia|apply compress_state_ok, HS..].
  - rewrite Hr. by replace (0 + Z.of_nat (Z.to_nat BlockNb)) with BlockNb by lia.
Qed.

Lemma Run_spec St Input Off BlockNb :
  state_ok St -> 0 <= Off -> 0 <= BlockNb -> Off + 128 * BlockNb <= Z.of_nat (length Input) ->
  Forall is_byte (slice Input Off (128 * BlockNb)) ->
  RunTransform WJunk St Input Off BlockNb = Ret (sha St (slice Input Off (128 * BlockNb))).
Proof using HW HAcc.
  intros. unfold RunTransform. destruct mIsAccelEnabled eqn:E; [by rewrite accel_law|by apply Transform_spec].
Qed.

(** ** The streaming scheme *)
Variable H0 : list Z.
Hypothesis HH0 : state_ok H0.

(** A context that has taken in [msg]. *)
Definition represents (Ctx : SHA512_CONTEXT) (msg : list Z) : Prop :=
  exists full tail junk n, msg = full ++ tail /\ length full = (128 * n)%nat /\ (length tail < 128)%nat
    /\ Ctx.(Block) = tail ++ junk /\ length Ctx.(Block) = 256%nat
    /\ Ctx.(Length) = Z.of_nat (length tail) /\ Ctx.(TotalLength) = Z.of_nat (length full)
    /\ Ctx.(State) = sha H0 full /\ Forall is_byte msg.

Lemma represents_init512 Ctx : length Ctx.(Block) = 256%nat -> represents (InitContext H0 Ctx) [].
Proof using. clear HW HH0.
  intros HB. exists [], [], Ctx.(Block), 0%nat. simpl. rewrite compress_nil. split_and!; done || lia.
Qed.

Lemma UpdateBlocks_spec Ctx msg Input Len :
  represents Ctx msg -> 0 <= Len <= Z.of_nat (length Input) ->
  Z.of_nat (length msg) + Len < 2 ^ 61 -> Forall is_byte (take (Z.to_nat Len) Input) ->
  exists Ctx', UpdateBlocks WJunk Ctx Input Len = Ret Ctx' /\ represents Ctx' (msg ++ take (Z.to_nat Len) Input).
Proof using HW HAcc HH0.
  intros (full & tail & junk & n & -> & Hf & Ht & HB & HBl & HL & HT & HS & Hm) HLen Hbound Hby.
  rewrite length_app in Hbound. pose proof HBl as Hjunk. rewrite HB, length_app in Hjunk.
  unfold UpdateBlocks, SHA512_BLOCK_SIZE. rewrite HL, HT, HS, HB.
  rewrite (wrap_small 64 (128 - Z.of_nat (length tail))) by lia.
  rewrite (wrap_small 64 (Z.of_nat (length tail) + Len)) by lia.
  destruct (decide (Z.of_nat (length tail) + Len < 128)) as [Hs|Hs].
  - rewrite (decide_True (P := Len < _)) by lia. rewrite CopyMem_in by (rewrite ?length_app; lia).
    cbn [mbind outcome_bind]. rewrite slice_0, Nat2Z.id.
    rewrite inserts_after by (rewrite length_take; lia).
    eexists. split; [done|].
    exists full, (tail ++ take (Z.to_nat Len) Input), (drop (length (take (Z.to_nat Len) Input)) junk), n. simpl.
    rewrite !length_app, length_take, length_drop. split_and!; try done; try lia; [by rewrite app_assoc|by rewrite app_assoc|].
    apply Forall_app. done.
  - rewrite (decide_False (P := Len < _)) by lia. set (R := 128 - Z.of_nat (length tail)).
    assert (0 < R <= 128 /\ R <= Len) as HR by lia.
    rewrite CopyMem_in by (rewrite ?length_app; lia). cbn [mbind outcome_bind]. rewrite slice_0, Nat2Z.id.
    rewrite inserts_after by (rewrite length_take; lia).
    set (x := take (Z.to_nat R) Input). assert (length x = Z.to_nat R) as Hx by (subst x; rewrite length_take; lia).
    rewrite (wrap_small 64 (Len - R)) by lia. set (NL := Len - R). set (B := NL / 128).
    pose proof (Z.div_mod NL 128 ltac:(lia)) as Hdm. pose proof (Z.mod_pos_bound NL 128 ltac:(lia)) as Hmod.
    assert (0 <= B) as HB0 by (apply Z.div_pos; lia). fold B in Hdm.
    assert (take (Z.to_nat Len) Input = x ++ slice Input R (128 * B) ++ slice Input (R + 128 * B) (NL mod 128)) as EI.
    { rewrite <- !slice_0. subst x. rewrite <- !slice_0. replace Len with (R + (128 * B + NL mod 128)) by lia.
      by rewrite !slice_app by lia. }
    rewrite EI in Hby. apply Forall_app in Hby as [HB1 [HB2 HB3]%Forall_app]. apply Forall_app in Hm as [Hm1 Hm2].
    assert (slice (tail ++ x ++ drop (length x) junk) 0 (128 * 1) = tail ++ x) as E1.
    { rewrite app_assoc. apply slice_head. rewrite length_app, Hx. lia. }
    rewrite Run_spec; [|by apply compress_state_ok|lia|lia|rewrite !length_app, length_drop; lia|rewrite E1; by apply Forall_app].
    cbn [mbind outcome_bind]. rewrite E1.
    rewrite Run_spec; [|by repeat apply compress_state_ok|lia..|done]. cbn [mbind outcome_bind].
    rewrite !Z.shiftl_mul_pow2 by lia. change (2 ^ 7) with 128. rewrite (Z.mul_comm B 128).
    rewrite CopyMem_in by (rewrite ?length_app, ?length_drop; lia). cbn [mbind outcome_bind].
    set (y := slice Input (R + 128 * B) (NL mod 128)) in *.
    assert (Z.of_nat (length y) = NL mod 128) as Hy by (subst y; rewrite slice_length; lia).
    change (Z.to_nat 0) with 0%nat. rewrite inserts_here by (rewrite !length_app, length_drop; lia).
    eexists. split; [done|].
    exists (full ++ (tail ++ x) ++ slice Input R (128 * B)), y, (drop (length y) (tail ++ x ++ drop (length x) junk)), (n + 1 + Z.to_nat B)%nat.
    cbn [TotalLength Length Block State]. rewrite EI. rewrite !length_app, !length_drop, !length_app, length_drop.
    rewrite slice_length by lia. split_and!; try lia; try done.
    + by rewrite <- !app_assoc.
    + rewrite (wrap_small 64 ((B + 1) * 128)) by lia. rewrite wrap_small by lia. lia.
    + rewrite (compress_app _ _ _ full _ n) by (done || lia).
      rewrite (compress_app _ _ _ (tail ++ x) _ 1) by (rewrite ?length_app; lia). done.
    + rewrite <- !app_assoc. repeat (apply Forall_app; split); done.
Qed.

Lemma StoreLength128_small x : 0 <= x < 2 ^ 64 -> StoreLength128 x = replicate 8 0 ++ UNPACK64 x.
Proof using. clear HW HH0.
  intros Hx. unfold StoreLength128, UNPACK64. change (seq 0 16) with (seq 0 8 ++ seq 8 8). rewrite fmap_app. f_equal.
  apply list_eq. intros i. rewrite list_lookup_fmap. destruct (decide (i < 8)%nat) as [Hi|Hi].
  - rewrite lookup_seq_lt, lookup_replicate_2 by lia. simpl. f_equal.
    rewrite Z.shiftr_div_pow2 by lia. rewrite Z.div_small; [done|].
    pose proof (Z.pow_le_mono_r 2 64 (120 - 8 * Z.of_nat i)). lia.
  - rewrite lookup_seq_ge by lia. symmetry. apply lookup_ge_None. rewrite length_replicate. lia.
Qed.

(** The output loop. *)
Lemma StoreWords_spec Words St Hash :
  (Words <= length St)%nat -> (8 * Words <= length Hash)%nat ->
  for_ Words 0 (fun i Hash => s ← rd St i; wr_slice Hash (Z.shiftl i 3) (UNPACK64 s)) Hash
  = Ret (list_inserts 0 (take Words St ≫= UNPACK64) Hash).
Proof using. clear HW HH0.
  intros HS HH. assert (forall l : list Z, length (l ≫= UNPACK64) = (8 * length l)%nat) as Hlen.
  { induction l as [|a l IH]; [done|]. rewrite bind_cons, length_app, IH. simpl. lia. }
  oc_for (fun j H => H = list_inserts 0 (take (Z.to_nat j) St ≫= UNPACK64) Hash) as r Hr.
  - done.
  - intros j H Hj ->. destruct (lookup_lt_is_Some_2 St (Z.to_nat j)) as [s Hs]; [lia|].
    rewrite (rd_lookup _ _ s) by (done || lia). cbn [mbind outcome_bind].
    rewrite Z.shiftl_mul_pow2 by lia. change (2 ^ 3) with 8.
    assert (length (take (Z.to_nat j) St ≫= UNPACK64) = (8 * Z.to_nat j)%nat) as HLj by (rewrite Hlen, length_take; lia).
    rewrite inserts_here by lia.
    rewrite wr_slice_after by (rewrite ?length_drop; change (length (UNPACK64 s)) with 8%nat; lia).
    eexists. split; [done|]. replace (Z.to_nat (j + 1)) with (S (Z.to_nat j)) by lia.
    rewrite (take_S_r _ _ s) by done. rewrite bind_app, bind_cons. change ([] ≫= UNPACK64) with (@nil Z). rewrite app_nil_r.
    rewrite inserts_here by (rewrite length_app, HLj; change (length (UNPACK64 s)) with 8%nat; lia).
    rewrite <- app_assoc, length_app, drop_drop. done.
  - rewrite Hr. by rewrite Z.add_0_l, Nat2Z.id.
Qed.

(** The blocks that the final call compresses after the whole ones. *)
Lemma FinalWords_spec Words Ctx msg Hash :
  represents Ctx msg -> Z.of_nat (length msg) < 2 ^ 61 -> (Words <= 8)%nat -> (8 * Words <= length Hash)%nat ->
  exists Ctx', FinalWords WJunk Words Ctx Hash
      = Ret (Ctx', list_inserts 0 (take Words (sha512_state H0 msg) ≫= UNPACK64) Hash)
    /\ length Ctx'.(Block) = 256%nat.
Proof using HW HAcc HH0.
  intros (full & tail & junk & n & -> & Hf & Ht & HB & HBl & HL & HT & HS & Hm) Hbound HWd HH.
  rewrite HB, length_app in HBl. unfold FinalWords, SHA512_BLOCK_SIZE. rewrite HL, HT, HS, HB.
  rewrite length_app in Hbound. rewrite Z.mod_small by lia. cbv zeta.
  set (Nb := (if decide (128 - 17 < Z.of_nat (length tail)) then 1 else 0) + 1).
  assert (Nb = 1 /\ Z.of_nat (length tail) <= 111 \/ Nb = 2 /\ 111 < Z.of_nat (length tail)) as HNb
    by (subst Nb; case_decide; lia).
  rewrite !Z.shiftl_mul_pow2 by lia. change (2 ^ 7) with 128. change (2 ^ 3) with 8.
  rewrite (wrap_small 64 (Z.of_nat (length full) + Z.of_nat (length tail))) by lia. rewrite (wrap_small 64 (_ * 8)) by lia.
  replace ((Z.of_nat (length full) + Z.of_nat (length tail)) * 8) with (8 * Z.of_nat (length (full ++ tail)))
    by (rewrite length_app; lia).
  set (bits := 8 * Z.of_nat (length (full ++ tail))).
  set (k := Z.to_nat (Nb * 128 - Z.of_nat (length tail) - 9)).
  assert (exists j1 j2, junk = j1 ++ j2 /\ length j1 = (k + 9)%nat) as (j1 & j2 & -> & Hj1).
  { exists (take (k + 9) junk), (drop (k + 9) junk). rewrite take_drop, length_take. split; [done|lia]. }
  rewrite length_app in HBl. rewrite ZeroMem_tail by lia. cbn [mbind outcome_bind].
  rewrite Hj1. replace (k + 9)%nat with (S (k + 8)) by lia. simpl replicate. rewrite <- app_comm_cons, wr_tail. cbn [mbind outcome_bind].
  rewrite replicate_add, <- (app_assoc (replicate k 0)), (app_assoc (tail ++ [128])).
  rewrite wr_slice_after by (rewrite ?length_app, ?length_replicate; change (length (UNPACK64 bits)) with 8%nat; simpl; lia).
  cbn [mbind outcome_bind]. change (length (UNPACK64 bits)) with 8%nat. rewrite drop_app_length' by (by rewrite length_replicate).
  set (last := ((tail ++ [128]) ++ replicate k 0) ++ UNPACK64 bits).
  assert (Z.of_nat (length last) = 128 * Nb) as Hlast.
  { subst last. rewrite !length_app, length_replicate. change (length (UNPACK64 bits)) with 8%nat. simpl. lia. }
  rewrite app_assoc. fold last. apply Forall_app in Hm as [Hm1 Hm2].
  rewrite Run_spec; [|by apply compress_state_ok|lia|lia|rewrite length_app; lia|].
  2: { rewrite slice_head by done. subst last. repeat (apply Forall_app; split); try done.
       - by apply Forall_singleton.
       - by apply Forall_replicate.
       - apply Forall_fmap, Forall_forall. intros i _. apply wrap_in_width. lia. }
  rewrite slice_head by done. cbn [mbind outcome_bind].
  assert (sha (sha H0 full) last = sha512_state H0 (full ++ tail)) as EQ.
  { unfold sha512_state, pad128. fold bits. rewrite StoreLength128_small by (subst bits; rewrite length_app; lia).
    rewrite <- (compress_app _ _ _ full _ n) by (done || lia). f_equal. subst last.
    rewrite (app_assoc (replicate _ 0)), <- replicate_add.
    replace (Z.to_nat ((111 - Z.of_nat (length (full ++ tail))) mod 128) + 8)%nat with k; [by rewrite <- !app_assoc|].
    rewrite length_app, Hf, Nat2Z.inj_add.
    replace (111 - (Z.of_nat (128 * n) + Z.of_nat (length tail)))
      with (111 - Z.of_nat (length tail) + (Nb - 1) * 128 + (- Z.of_nat n - (Nb - 1)) * 128) by lia.
    rewrite Z_mod_plus_full. rewrite Z.mod_small by lia. lia. }
  rewrite EQ. rewrite StoreWords_spec; [|unfold sha512_state; rewrite (proj1 (compress_state_ok 128 H0 (pad128 (full ++ tail)) HH0)); lia|done].
  cbn [mbind outcome_bind]. eexists. split; [done|]. simpl. rewrite length_app. lia.
Qed.

End Streaming.

(** Several updates in a row. *)
Fixpoint updates {Acc : Sha512Accel} (WJunk : list Z) (Ctx : SHA512_CONTEXT) (chunks : list (list Z)) : outcome SHA512_CONTEXT :=
  match chunks with
  | [] => Ret Ctx
  | c :: chunks => Ctx ← UpdateBlocks WJunk Ctx c (Z.of_nat (length c)); updates WJunk Ctx chunks
  end.

Lemma H0_ok : state_ok SHA512_H0 /\ state_ok SHA384_H0.
Proof. split; (split; [done|]); by apply (bool_decide_unpack _). Qed.

Lemma unpack_length (l : list Z) : length (l ≫= UNPACK64) = (8 * length l)%nat.
Proof. induction l as [|a l IH]; [done|]. rewrite bind_cons, length_app, IH. simpl. lia. Qed.

Lemma unpack_bytes (l : list Z) : Forall is_byte (l ≫= UNPACK64).
Proof.
  induction l as [|a l IH]; [apply Forall_nil_2|]. rewrite bind_cons. apply Forall_app. split; [|done].
  apply Forall_fmap, Forall_forall. intros i _. apply wrap_in_width. lia.
Qed.

Lemma sha512_digest_spec msg :
  sha512_digest msg = take 8 (sha512_state SHA512_H0 msg) ≫= UNPACK64
  /\ length (sha512_digest msg) = 64%nat /\ Forall is_byte (sha512_digest msg).
Proof.
  unfold sha512_digest. rewrite <- (proj1 (proj2 SHA512_constants)).
  pose proof (compress_state_ok 128 SHA512_H0 (pad128 msg) (proj1 H0_ok)) as [HL _].
  fold (sha512_state SHA512_H0 msg) in HL. split; [by rewrite take_ge by lia|].
  split; [by rewrite unpack_length, HL|apply unpack_bytes].
Qed.

Section Hashes.
Context {Acc : Sha512Accel} {HAcc : Sha512AccelLaws Acc}.
Variable WJunk : list Z.
Hypothesis HW : length WJunk = 80%nat.

Lemma updates_spec512 H0 chunks : forall Ctx msg,
  state_ok H0 -> represents H0 Ctx msg -> Forall (Forall is_byte) chunks ->
  Z.of_nat (length (msg ++ concat chunks)) < 2 ^ 61 ->
  exists Ctx', updates WJunk Ctx chunks = Ret Ctx' /\ represents H0 Ctx' (msg ++ concat chunks).
Proof using HW HAcc.
  induction chunks as [|c chunks IH]; intros Ctx msg H0ok HC HB HL; simpl.
  { exists Ctx. by rewrite app_nil_r. }
  apply Forall_cons in HB as [HB HBs]. simpl in HL. rewrite !length_app in HL.
  destruct (UpdateBlocks_spec WJunk HW H0 H0ok Ctx msg c (Z.of_nat (length c)) HC) as (C1 & -> & H1);
    [lia|lia|by rewrite Nat2Z.id, firstn_all|].
  cbn [mbind outcome_bind]. rewrite Nat2Z.id, firstn_all in H1.
  destruct (IH C1 _ H0ok H1 HBs) as (C2 & E & H2); [rewrite !length_app; lia|].
  exists C2. split; [done|]. by rewrite <- app_assoc in H2.
Qed.

(** One pass of the password hash. *)
Lemma HashPass_spec Ctx Prefix Password Salt Hash :
  length Ctx.(Block) = 256%nat -> length Hash = 64%nat ->
  Forall is_byte (default [] Prefix) -> Forall is_byte Password -> Forall is_byte Salt ->
  (forall h, Prefix = Some h -> length h = 64%nat) ->
  Z.of_nat (length Password) < 2 ^ 32 -> Z.of_nat (length Salt) < 2 ^ 32 ->
  exists Ctx', HashPass WJunk Ctx Prefix Password (Z.of_nat (length Password)) Salt (Z.of_nat (length Salt)) Hash
      = Ret (Ctx', sha512_digest (default [] Prefix ++ Password ++ Salt)) /\ length Ctx'.(Block) = 256%nat.
Proof using HW HAcc.
  intros HC HH HB1 HB2 HB3 HP HL1 HL2. unfold HashPass.
  set (msg0 := default [] Prefix) in *.
  assert (length msg0 <= 64)%nat as Hmsg0 by (subst msg0; destruct Prefix; simpl; [rewrite (HP _ eq_refl)|]; lia).
  assert (exists C0, match Prefix with None => Ret (Sha512Init Ctx)
            | Some h => Sha512Update WJunk (Sha512Init Ctx) h SHA512_DIGEST_SIZE end = Ret C0
          /\ represents SHA512_H0 C0 msg0) as (C0 & -> & H0).
  { pose proof (represents_init512 SHA512_H0 Ctx HC) as HR. destruct Prefix as [h|]; [|eauto].
    specialize (HP h eq_refl). subst msg0. simpl in *.
    destruct (UpdateBlocks_spec WJunk HW SHA512_H0 (proj1 H0_ok) _ [] h 64 HR) as (C0 & E & H);
      [lia|simpl; lia|by rewrite take_ge by lia|].
    exists C0. split; [done|]. by rewrite take_ge in H by lia. }
  cbn [mbind outcome_bind]. unfold Sha512Update, Sha512Final.
  destruct (UpdateBlocks_spec WJunk HW SHA512_H0 (proj1 H0_ok) C0 msg0 Password (Z.of_nat (length Password)) H0)
    as (C1 & -> & H1); [lia|lia|by rewrite Nat2Z.id, firstn_all|].
  cbn [mbind outcome_bind]. rewrite Nat2Z.id, firstn_all in H1.
  destruct (UpdateBlocks_spec WJunk HW SHA512_H0 (proj1 H0_ok) C1 _ Salt (Z.of_nat (length Salt)) H1)
    as (C2 & -> & H2); [lia|rewrite length_app; lia|by rewrite Nat2Z.id, firstn_all|].
  cbn [mbind outcome_bind]. rewrite Nat2Z.id, firstn_all, <- app_assoc in H2.
  destruct (FinalWords_spec WJunk HW SHA512_H0 (proj1 H0_ok) 8 C2 _ Hash H2) as (C3 & -> & H3);
    [rewrite !length_app; lia|lia|lia|].
  exists C3. split; [|done]. destruct (sha512_digest_spec (msg0 ++ Password ++ Salt)) as (E & HL & _).
  rewrite <- E, inserts_all by lia. done.
Qed.

(** The iterated hash of a password. *)
Definition password_digest (n : nat) (Password Salt : list Z) : list Z :=
  Nat.iter n (fun h => sha512_digest (h ++ Password ++ Salt)) (sha512_digest (Password ++ Salt)).

Lemma password_digest_ok n Password Salt :
  length (password_digest n Password Salt) = 64%nat /\ Forall is_byte (password_digest n Password Salt).
Proof. unfold password_digest. destruct n; simpl; apply sha512_digest_spec. Qed.

Lemma HashRounds_spec n Ctx Password Salt Hash :
  length Ctx.(Block) = 256%nat -> length Hash = 64%nat -> Forall is_byte Password -> Forall is_byte Salt ->
  Z.of_nat (length Password) < 2 ^ 32 -> Z.of_nat (length Salt) < 2 ^ 32 ->
  HashRounds WJunk n Ctx Password (Z.of_nat (length Password)) Salt (Z.of_nat (length Salt)) Hash
  = Ret (password_digest n Password Salt).
Proof using HW HAcc.
  intros HC HH HB2 HB3 HL1 HL2. unfold HashRounds.
  destruct (HashPass_spec Ctx None Password Salt Hash) as (C1 & -> & H1); try done.
  cbn [mbind outcome_bind].
  oc_for (fun j (s : SHA512_CONTEXT * list Z) =>
      length s.1.(Block) = 256%nat /\ s.2 = password_digest (Z.to_nat j) Password Salt) as r Hr.
  - done.
  - intros j [C h] Hj [HCb Eh]. simpl in HCb, Eh. subst h. cbn [fst snd].
    destruct (password_digest_ok (Z.to_nat j) Password Salt) as [E1 E2].
    destruct (HashPass_spec C (Some (password_digest (Z.to_nat j) Password Salt)) Password Salt
                (password_digest (Z.to_nat j) Password Salt)) as (C2 & -> & H2); try done.
    { by intros h [= <-]. }
    eexists. split; [done|]. split; [done|]. replace (Z.to_nat (j + 1)) with (S (Z.to_nat j)) by lia. done.
  - destruct Hr as [_ Hr]. rewrite Z.add_0_l, Nat2Z.id in Hr. destruct r as [C h]. simpl in *. by subst.
Qed.

End Hashes.

(** ** The comparison *)
Lemma lxor_byte d s : is_byte d -> is_byte s ->
  wrap 8 (Z.land (Z.lxor d s) 0xFF) = Z.lxor d s /\ 0 <= Z.lxor d s < 256.
Proof.
  intros [Hd1 Hd2] [Hs1 Hs2].
  assert (0 <= Z.lxor d s < 2 ^ 8) as Hr.
  { split; [by apply Z.lxor_nonneg|]. destruct (decide (Z.lxor d s = 0)) as [->|Hne]; [done|].
    assert (0 < Z.lxor d s) by (pose proof (proj2 (Z.lxor_nonneg d s)); lia).
    apply Z.log2_lt_pow2; [done|]. eapply Z.le_lt_trans; [by apply Z.log2_lxor|].
    apply Z.max_lub_lt; (destruct (decide (d = 0)) as [->|]; destruct (decide (s = 0)) as [->|]; try done; apply Z.log2_lt_pow2; lia). }
  split; [|done]. change 0xFF with (Z.ones 8). rewrite Z.land_ones by lia. unfold wrap. by rewrite Z.mod_mod, Z.mod_small by lia.
Qed.

Lemma lor_is_byte x y : 0 <= x < 256 -> 0 <= y < 256 -> 0 <= Z.lor x y < 256.
Proof.
  intros Hx Hy. split; [apply Z.lor_nonneg; lia|]. change 256 with (2 ^ 8).
  destruct (decide (Z.lor x y = 0)) as [->|Hne]; [done|].
  assert (0 <= Z.lor x y) by (apply Z.lor_nonneg; lia). apply Z.log2_lt_pow2; [lia|].
  rewrite Z.log2_lor by lia. apply Z.max_lub_lt;
    (destruct (decide (x = 0)) as [->|]; destruct (decide (y = 0)) as [->|]; try done; apply Z.log2_lt_pow2; lia).
Qed.

Lemma SecureCompareMem_spec Dst Src Len :
  0 <= Len <= Z.of_nat (length Dst) -> Len <= Z.of_nat (length Src) -> Forall is_byte Dst -> Forall is_byte Src ->
  SecureCompareMem Dst Src Len
  = Ret (if decide (take (Z.to_nat Len) Dst = take (Z.to_nat Len) Src) then 0 else -1).
Proof.
  intros HD HS HBd HBs. unfold SecureCompareMem.
  oc_for (fun j x => 0 <= x < 256 /\ (x = 0 <-> take (Z.to_nat j) Dst = take (Z.to_nat j) Src)) as r Hr.
  - simpl. split; [lia|done].
  - intros j x Hj [Hx HE].
    destruct (lookup_lt_is_Some_2 Dst (Z.to_nat j)) as [d Hd]; [lia|].
    destruct (lookup_lt_is_Some_2 Src (Z.to_nat j)) as [s Hs]; [lia|].
    rewrite (rd_lookup Dst j d) by (done || lia). cbn [mbind outcome_bind]. rewrite (rd_lookup Src j s) by (done || lia). cbn [mbind outcome_bind].
    destruct (lxor_byte d s) as [-> Hr]; [exact (Forall_lookup_1 _ _ _ _ HBd Hd)|exact (Forall_lookup_1 _ _ _ _ HBs Hs)|].
    eexists. split; [done|]. split; [by apply lor_is_byte|].
    rewrite Z.lor_eq_0_iff, Z.lxor_eq_0_iff, HE.
    replace (Z.to_nat (j + 1)) with (S (Z.to_nat j)) by lia.
    rewrite (take_S_r Dst _ d), (take_S_r Src _ s) by done. split.
    + by intros [-> ->].
    + intros H. apply app_inj_tail in H. tauto.
  - destruct Hr as [Hx HE]. replace (0 + Z.of_nat (Z.to_nat Len)) with Len in HE by lia.
    cbn [mbind outcome_bind]. f_equal. case_decide as Hc.
    + apply HE in Hc as ->. done.
    + assert (0 < r) by (destruct (decide (r = 0)); [tauto|lia]).
      rewrite wrap_small by lia. rewrite Z.shiftr_div_pow2, Z.div_small by lia. done.
Qed.

(** Both digests over any sequence of updates. *)
Lemma Blocks_streaming_spec (Acc : Sha512Accel) (HAcc : Sha512AccelLaws Acc) WJunk Junk chunks Hash :
  length WJunk = 80%nat -> length Junk.(Block) = 256%nat -> (64 <= length Hash)%nat ->
  Forall (Forall is_byte) chunks -> Z.of_nat (length (concat chunks)) < 2 ^ 61 ->
  (exists Ctx Ctx', updates WJunk (Sha512Init Junk) chunks = Ret Ctx
     /\ Sha512Final WJunk Ctx Hash = Ret (Ctx', list_inserts 0 (sha512_digest (concat chunks)) Hash))
  /\ (exists Ctx Ctx', updates WJunk (Sha384Init Junk) chunks = Ret Ctx
     /\ Sha384Final WJunk Ctx Hash = Ret (Ctx', list_inserts 0 (sha384_digest (concat chunks)) Hash)).
Proof.
  intros HW HJ HH HB HL. destruct H0_ok as [K1 K2]. split.
  - destruct (updates_spec512 WJunk HW SHA512_H0 chunks _ [] K1 (represents_init512 SHA512_H0 Junk HJ) HB HL) as (Ctx & E & HR).
    destruct (FinalWords_spec WJunk HW SHA512_H0 K1 8 Ctx _ Hash HR) as (Ctx' & E' & _); [done|lia..|].
    exists Ctx, Ctx'. split; [done|]. rewrite (proj1 (sha512_digest_spec _)). exact E'.
  - destruct (updates_spec512 WJunk HW SHA384_H0 chunks _ [] K2 (represents_init512 SHA384_H0 Junk HJ) HB HL) as (Ctx & E & HR).
    destruct (FinalWords_spec WJunk HW SHA384_H0 K2 6 Ctx _ Hash HR) as (Ctx' & E' & _); [done|lia..|].
    exists Ctx, Ctx'. split; [done|]. unfold sha384_digest. rewrite <- (proj2 (proj2 SHA512_constants)). exact E'.
Qed.

(** ** Properties *)

(** C10: SHA-512 and SHA-384 over any sequence of updates of messages below 2^61
    bytes, with or without the accelerated transform: every call returns, and the
    final call stores the FIPS 180-4 digest of the concatenated chunks and
    touches nothing else of the buffer. *)
Theorem Sha512_streaming (Acc : Sha512Accel) (HAcc : Sha512AccelLaws Acc) WJunk Junk chunks Hash :
  length WJunk = 80%nat -> length Junk.(Block) = 256%nat -> (64 <= length Hash)%nat ->
  Forall (Forall is_byte) chunks -> Z.of_nat (length (concat chunks)) < 2 ^ 61 ->
  (exists Ctx Ctx', updates WJunk (Sha512Init Junk) chunks = Ret Ctx
     /\ Sha512Final WJunk Ctx Hash = Ret (Ctx', list_inserts 0 (sha512_digest (concat chunks)) Hash))
  /\ (exists Ctx Ctx', updates WJunk (Sha384Init Junk) chunks = Ret Ctx
     /\ Sha384Final WJunk Ctx Hash = Ret (Ctx', list_inserts 0 (sha384_digest (concat chunks)) Hash)).
Proof. intros. by apply (Blocks_streaming_spec Acc HAcc). Qed.

Lemma Sha512_streaming_witness :
  exists Ctx Ctx', updates (Acc := NoAccel) (replicate 80 5) (Sha512Init JunkContext) [[97]; []; [98; 99]] = Ret Ctx
    /\ Sha512Final (Acc := NoAccel) (replicate 80 5) Ctx (replicate 65 1) = Ret (Ctx', sha512_digest [97; 98; 99] ++ [1]).
Proof.
  destruct (Sha512_streaming NoAccel _ (replicate 80 5) JunkContext [[97]; []; [98; 99]] (replicate 65 1))
    as [(Ctx & Ctx' & E & F) _]; try (by apply (bool_decide_unpack _)).
  exists Ctx, Ctx'. split; [exact E|]. rewrite F. vm_compute. reflexivity.
Defined.

(** [OcVerifyPasswordSha512] always returns, and accepts exactly when the
    first 64 bytes of the reference hash are the password hash: SHA-512 of
    password and salt, then five million times SHA-512 of the previous hash,
    password and salt. *)
Theorem Password_verifies (Acc : Sha512Accel) (HAcc : Sha512AccelLaws Acc) WJunk Junk VerifyHash Password Salt RefHash :
  length WJunk = 80%nat -> length Junk.(Block) = 256%nat -> length VerifyHash = 64%nat ->
  Forall is_byte Password -> Forall is_byte Salt -> Forall is_byte RefHash -> (64 <= length RefHash)%nat ->
  Z.of_nat (length Password) < 2 ^ 32 -> Z.of_nat (length Salt) < 2 ^ 32 ->
  exists b, OcVerifyPasswordSha512 WJunk Junk VerifyHash Password (Z.of_nat (length Password)) Salt
              (Z.of_nat (length Salt)) RefHash = Ret b
    /\ (b = true <-> take 64 RefHash = password_digest HashIterations Password Salt).
Proof.
  intros HW HJ HV HB1 HB2 HB3 HR HL1 HL2. unfold OcVerifyPasswordSha512, OcHashPasswordSha512.
  generalize HashIterations. intros n. rewrite HashRounds_spec by done. cbn [mbind outcome_bind].
  destruct (password_digest_ok n Password Salt) as [E1 E2]. unfold SHA512_DIGEST_SIZE.
  rewrite SecureCompareMem_spec by (done || lia). cbn [mbind outcome_bind].
  change (Z.to_nat 64) with 64%nat. rewrite (take_ge (password_digest n Password Salt)) by lia.
  eexists. split; [done|]. rewrite bool_decide_eq_true. by case_decide.
Qed.

Lemma Password_verifies_witness :
  exists b, OcVerifyPasswordSha512 (Acc := NoAccel) (replicate 80 5) JunkContext (replicate 64 0) [112; 119] 2 [1; 2; 3] 3
              (replicate 64 0) = Ret b
    /\ (b = true <-> replicate 64 0 = password_digest HashIterations [112; 119] [1; 2; 3]).
Proof.
  apply (Password_verifies NoAccel _ (replicate 80 5) JunkContext (replicate 64 0) [112; 119] [1; 2; 3] (replicate 64 0)
    eq_refl eq_refl eq_refl); try (by apply (bool_decide_unpack _)); lia.
Defined.

End Sha512.
