(* ===== verification/ChaCha.v ===== *)
(** * ChaCha20

    Library/OcCryptoLib/ChaCha.c: the set-up of a context and the stream cipher
    on a buffer, in place or between two buffers. Memory is a map from buffers to
    bytes and a pointer is a buffer with an offset, so that the aliasing of the
    source and the destination, and the pointers that the code redirects to its
    temporary block, are those of the source. *)
From stdpp Require Import gmap.
From S2P Require Import Prelude.

Module ChaCha.

(** ** Memory *)
Abbreviation memory := (gmap nat (list Z)).
Definition pointer : Type := nat * Z.

Definition load (m : memory) (p : pointer) (n : Z) : outcome (list Z) :=
  match m !! p.1 with Some b => rd_slice b p.2 n | None => Fault OutOfBounds end.
Definition store (m : memory) (p : pointer) (xs : list Z) : outcome memory :=
  match m !! p.1 with
  | Some b => b ← wr_slice b p.2 xs; Ret (<[p.1 := b]> m)
  | None => Fault OutOfBounds
  end.
Definition advance (p : pointer) (n : Z) : pointer := (p.1, p.2 + n).

(** ** Words *)
Definition PLUS (v w : Z) : Z := wrap 32 (v + w).
Definition ROTATE (v c : Z) : Z := Z.lor (wrap 32 (Z.shiftl v c)) (Z.shiftr v (32 - c)).
Definition PLUSONE (v : Z) : Z := PLUS v 1.

(** [LOAD32_LE] and [STORE32_LE] of word [i] of a block. *)
Definition LOAD32_LE (b : list Z) (i : nat) : Z := le_value 8 (take 4 (drop (4 * i) b)).
Definition STORE32_LE (x : Z) : list Z := (fun i => wrap 8 (Z.shiftr x (8 * Z.of_nat i))) <$> seq 0 4.

(** [QUARTERROUND (Xa, Xb, Xc, Xd)]. *)
Definition QUARTERROUND (X : list Z) (a b c d : nat) : list Z :=
  let X := <[a := PLUS (X !!! a) (X !!! b)]> X in
  let X := <[d := ROTATE (Z.lxor (X !!! d) (X !!! a)) 16]> X in
  let X := <[c := PLUS (X !!! c) (X !!! d)]> X in
  let X := <[b := ROTATE (Z.lxor (X !!! b) (X !!! c)) 12]> X in
  let X := <[a := PLUS (X !!! a) (X !!! b)]> X in
  let X := <[d := ROTATE (Z.lxor (X !!! d) (X !!! a)) 8]> X in
  let X := <[c := PLUS (X !!! c) (X !!! d)]> X in
  <[b := ROTATE (Z.lxor (X !!! b) (X !!! c)) 7]> X.

(** The body of the loop over the rounds. *)
Definition DoubleRound (X : list Z) : list Z :=
  let X := QUARTERROUND X 0 4 8 12 in
  let X := QUARTERROUND X 1 5 9 13 in
  let X := QUARTERROUND X 2 6 10 14 in
  let X := QUARTERROUND X 3 7 11 15 in
  let X := QUARTERROUND X 0 5 10 15 in
  let X := QUARTERROUND X 1 6 11 12 in
  let X := QUARTERROUND X 2 7 8 13 in
  QUARTERROUND X 3 4 9 14.

(** [for (Index = 20; Index > 0; Index -= 2)]. *)
Definition Rounds (X : list Z) : outcome (list Z) :=
  while_ 11 (fun '(Index, X) =>
    if decide (Index > 0) then Ret (inl (Index - 2, DoubleRound X)) else Ret (inr X)) (20, X).

(** ** The context *)
Record CHACHA_CONTEXT := { Input : list Z }.

Definition ChaChaInitCtx (Key Iv : list Z) (Counter : Z) : outcome CHACHA_CONTEXT :=
  Key ← rd_slice Key 0 32;
  Iv ← rd_slice Iv 0 12;
  Ret {| Input := [0x61707865; 0x3320646e; 0x79622d32; 0x6b206574]
                  ++ (LOAD32_LE Key <$> seq 0 8) ++ [Counter] ++ (LOAD32_LE Iv <$> seq 0 3) |}.

(** ** The cipher *)
Section Crypt.
(** The buffer of the temporary block. *)
Variable Tmp : nat.

(** The state of the loop: memory, the working copy [J0 .. J15] of the input,
    the pointers and the remaining length. *)
Record crypt_state := {
  Mem : memory;
  J : list Z;
  Source : pointer;
  Destination : pointer;
  Len : Z
}.

Definition CryptStep (s : crypt_state) : outcome (crypt_state + (memory * list Z)) :=
  '(m, Source, Ctarget, Destination) ←
    (if decide (s.(Len) < 64) then
       bytes ← load s.(Mem) s.(Source) s.(Len);
       m ← store s.(Mem) (Tmp, 0) bytes;
       m ← store m (Tmp, s.(Len)) (replicate (Z.to_nat (64 - s.(Len))) 0);
       Ret (m, (Tmp, 0), s.(Destination), (Tmp, 0))
     else Ret (s.(Mem), s.(Source), s.(Destination), s.(Destination)));
  X ← Rounds s.(J);
  let X := zip_with PLUS X s.(J) in
  bytes ← load m Source 64;
  let X := zip_with Z.lxor X (LOAD32_LE bytes <$> seq 0 16) in
  let J12 := PLUSONE (s.(J) !!! 12%nat) in
  let J' := <[12%nat := J12]> s.(J) in
  let J' := if decide (J12 = 0) then <[13%nat := PLUSONE (J' !!! 13%nat)]> J' else J' in
  m ← store m Destination (X ≫= STORE32_LE);
  if decide (s.(Len) <= 64) then
    m ← (if decide (s.(Len) < 64) then
           bytes ← load m Destination s.(Len); store m Ctarget bytes
         else Ret m);
    Ret (inr (m, J'))
  else
    Ret (inl {| Mem := m; J := J'; Source := advance Source 64; Destination := advance Destination 64;
                Len := s.(Len) - 64 |}).

(** The fuel: an iteration for every 64 bytes, and one for the rest. *)
Definition ChaChaCryptBuffer (m : memory) (Context : CHACHA_CONTEXT) (Src Dst : pointer) (Length : Z)
  : outcome (memory * CHACHA_CONTEXT) :=
  if decide (Length = 0) then Ret (m, Context)
  else
    '(m, J') ← while_ (S (Z.to_nat (Length / 64))) CryptStep
      {| Mem := m; J := Context.(Input); Source := Src; Destination := Dst; Len := Length |};
    Ret (m, {| Input := <[13%nat := J' !!! 13%nat]> (<[12%nat := J' !!! 12%nat]> Context.(Input)) |}).

End Crypt.

(** ** Reference: the key stream *)
Definition block_of (J : list Z) : list Z :=
  zip_with PLUS (Nat.iter 10 DoubleRound J) J ≫= STORE32_LE.

Definition next_counter (J : list Z) : list Z :=
  let J12 := PLUSONE (J !!! 12%nat) in
  let J' := <[12%nat := J12]> J in
  if decide (J12 = 0) then <[13%nat := PLUSONE (J' !!! 13%nat)]> J' else J'.

Fixpoint keystream (n : nat) (J : list Z) : list Z :=
  match n with O => [] | S n => block_of J ++ keystream n (next_counter J) end.

Definition chacha_xor (J xs : list Z) : list Z :=
  zip_with Z.lxor xs (keystream (S (length xs / 64)) J).

(** The block of section 2.3.2 of RFC 8439. *)
Definition rfc_context : outcome CHACHA_CONTEXT :=
  ChaChaInitCtx (Z.of_nat <$> seq 0 32) [0; 0; 0; 9; 0; 0; 0; 0x4a; 0; 0; 0; 0] 1.

Example rfc8439_block :
  (C ← rfc_context; Ret (take 16 (block_of C.(Input))))
  = Ret [0x10; 0xf1; 0xe7; 0xe4; 0xd1; 0x3b; 0x59; 0x15; 0x50; 0x0f; 0xdd; 0x1f; 0xa3; 0x20; 0x71; 0xc4].
Proof. vm_compute. reflexivity. Qed.

(** ** Lemmas on words and bytes *)
Lemma store_load b0 b1 b2 b3 : is_byte b0 -> is_byte b1 -> is_byte b2 -> is_byte b3 ->
  STORE32_LE (le_value 8 [b0; b1; b2; b3]) = [b0; b1; b2; b3].
Proof.
  unfold is_byte, in_width. intros H0 H1 H2 H3. unfold STORE32_LE, wrap. simpl.
  rewrite !Z.shiftr_div_pow2 by lia.
  repeat f_equal; Z.div_mod_to_equations; lia.
Qed.

Lemma store_lxor x b0 b1 b2 b3 : is_byte b0 -> is_byte b1 -> is_byte b2 -> is_byte b3 ->
  STORE32_LE (Z.lxor x (le_value 8 [b0; b1; b2; b3])) = zip_with Z.lxor (STORE32_LE x) [b0; b1; b2; b3].
Proof.
  intros H0 H1 H2 H3. rewrite <- (store_load b0 b1 b2 b3 H0 H1 H2 H3) at 2.
  unfold STORE32_LE. simpl. by rewrite !Z.shiftr_lxor, !wrap8_lxor.
Qed.

Lemma xor_words X : forall bytes, length bytes = (4 * length X)%nat -> Forall is_byte bytes ->
  zip_with Z.lxor X (LOAD32_LE bytes <$> seq 0 (length X)) ≫= STORE32_LE
  = zip_with Z.lxor bytes (X ≫= STORE32_LE).
Proof.
  induction X as [|x X IH]; intros bytes HL HB.
  { simpl in HL. by assert (bytes = []) as -> by (apply length_zero_iff_nil; lia). }
  do 4 (destruct bytes as [|? bytes]; [simpl in HL; lia|]; apply Forall_cons in HB as [? HB]).
  change (seq 0 (length (x :: X))) with (0%nat :: seq 1 (length X)). rewrite <- fmap_S_seq. rewrite fmap_cons.
  cbn [zip_with]. rewrite !bind_cons. rewrite <- list_fmap_compose.
  assert ((LOAD32_LE (z :: z0 :: z1 :: z2 :: bytes) ∘ S <$> seq 0 (length X)) = (LOAD32_LE bytes <$> seq 0 (length X))) as ->.
  { apply list_fmap_ext. intros i k _. unfold compose, LOAD32_LE. by replace (4 * S k)%nat with (S (S (S (S (4 * k))))) by lia. }
  rewrite IH by (done || simpl in HL; lia). unfold LOAD32_LE at 1.
  change (take 4 (drop (4 * 0) (z :: z0 :: z1 :: z2 :: bytes))) with [z; z0; z1; z2].
  rewrite store_lxor by done. simpl. by rewrite !(Z.lxor_comm (wrap 8 _)).
Qed.

Lemma QUARTERROUND_length X a b c d : length (QUARTERROUND X a b c d) = length X.
Proof. unfold QUARTERROUND. by rewrite !length_insert. Qed.

Lemma DoubleRound_length X : length (DoubleRound X) = length X.
Proof. unfold DoubleRound. cbv zeta. by rewrite !QUARTERROUND_length. Qed.

#[local] Opaque DoubleRound.

Lemma iter_length n X : length (Nat.iter n DoubleRound X) = length X.
Proof.
  induction n as [|n IH]; [done|]. change (Nat.iter (S n) DoubleRound X) with (DoubleRound (Nat.iter n DoubleRound X)).
  by rewrite DoubleRound_length.
Qed.

Lemma Rounds_spec X : Rounds X = Ret (Nat.iter 10 DoubleRound X).
Proof. unfold Rounds. generalize DoubleRound. intros f. vm_compute. reflexivity. Qed.

#[local] Opaque Rounds.

Lemma words_length (X : list Z) : length (X ≫= STORE32_LE) = (4 * length X)%nat.
Proof. induction X as [|x X IH]; [done|]. rewrite bind_cons, length_app, IH. simpl. lia. Qed.

Lemma block_length J : length J = 16%nat -> length (block_of J) = 64%nat.
Proof. intros H. unfold block_of. rewrite words_length, length_zip_with, iter_length. lia. Qed.

Lemma next_counter_length J : length (next_counter J) = length J.
Proof. unfold next_counter. case_decide; by rewrite !length_insert. Qed.

(** One block of the key stream on 64 bytes. *)
Lemma xor_block J bytes : length J = 16%nat -> length bytes = 64%nat -> Forall is_byte bytes ->
  zip_with Z.lxor (zip_with PLUS (Nat.iter 10 DoubleRound J) J) (LOAD32_LE bytes <$> seq 0 16) ≫= STORE32_LE
  = zip_with Z.lxor bytes (block_of J).
Proof.
  intros HJ HL HB. assert (length (zip_with PLUS (Nat.iter 10 DoubleRound J) J) = 16%nat) as HX
    by (rewrite length_zip_with, iter_length; lia).
  rewrite <- HX at 1. apply xor_words; [lia|done].
Qed.

Lemma chacha_xor_block J x1 x2 : length J = 16%nat -> length x1 = 64%nat ->
  chacha_xor J (x1 ++ x2) = zip_with Z.lxor x1 (block_of J) ++ chacha_xor (next_counter J) x2.
Proof.
  intros HJ HL. unfold chacha_xor. rewrite length_app, HL.
  replace (64 + length x2)%nat with (1 * 64 + length x2)%nat by lia. rewrite Nat.div_add_l by lia.
  change (1 + length x2 / 64)%nat with (S (length x2 / 64)).
  rewrite <- zip_with_app by (by rewrite HL, block_length). done.
Qed.

Lemma chacha_xor_full J x : length J = 16%nat -> length x = 64%nat ->
  chacha_xor J x = zip_with Z.lxor x (block_of J).
Proof.
  intros HJ HL. rewrite <- (app_nil_r x) at 1. rewrite chacha_xor_block by done. apply app_nil_r.
Qed.

(** The rounds of a block and what they do to 64 bytes; the number of rounds
    is hidden from here on. *)
Lemma rounds_block J : length J = 16%nat ->
  exists R, Rounds J = Ret R /\ forall bytes, length bytes = 64%nat -> Forall is_byte bytes ->
    zip_with Z.lxor (zip_with PLUS R J) (LOAD32_LE bytes <$> seq 0 16) ≫= STORE32_LE = chacha_xor J bytes.
Proof.
  intros HJ. exists (Nat.iter 10 DoubleRound J). split; [apply Rounds_spec|].
  intros bytes HL HB. rewrite chacha_xor_full by done. by apply xor_block.
Qed.

Lemma chacha_xor_short J x : length J = 16%nat -> (length x < 64)%nat -> chacha_xor J x = zip_with Z.lxor x (block_of J).
Proof.
  intros HJ HL. unfold chacha_xor. rewrite Nat.div_small by done. simpl. by rewrite app_nil_r.
Qed.

Lemma keystream_length n : forall J, length J = 16%nat -> length (keystream n J) = (64 * n)%nat.
Proof.
  induction n as [|n IH]; intros J HJ; [done|]. simpl. rewrite length_app, block_length, IH by (by rewrite ?next_counter_length). lia.
Qed.

Lemma chacha_xor_length J x : length J = 16%nat -> length (chacha_xor J x) = length x.
Proof.
  intros HJ. unfold chacha_xor. rewrite length_zip_with, keystream_length by done.
  pose proof (Nat.div_mod (length x) 64). pose proof (Nat.mod_upper_bound (length x) 64). lia.
Qed.

(** Applying the key stream twice gives the bytes back. *)
Lemma chacha_xor_twice J x : length J = 16%nat -> chacha_xor J (chacha_xor J x) = x.
Proof.
  intros HJ. pose proof (chacha_xor_length J x HJ) as HL. unfold chacha_xor at 1. rewrite HL. unfold chacha_xor.
  assert (length x <= length (keystream (S (length x / 64)) J))%nat as HK.
  { rewrite keystream_length by done. pose proof (Nat.div_mod (length x) 64). pose proof (Nat.mod_upper_bound (length x) 64). lia. }
  revert HK. generalize (keystream (S (length x / 64)) J). clear. induction x as [|a x IH]; intros [|k ks] HK; simpl in *; try done; [lia|].
  rewrite Z.lxor_assoc, Z.lxor_nilpotent, Z.lxor_0_r. f_equal. apply IH. lia.
Qed.

Lemma keystream_bytes n : forall J, Forall is_byte (keystream n J).
Proof.
  induction n as [|n IH]; intros J; simpl; [done|]. apply Forall_app. split; [|done].
  unfold block_of. generalize (zip_with PLUS (Nat.iter 10 DoubleRound J) J). intros X.
  induction X as [|x X IHX]; [done|]. rewrite bind_cons. apply Forall_app. split; [|done].
  apply Forall_fmap, Forall_forall. intros i _. apply wrap_in_width. lia.
Qed.

Lemma chacha_xor_bytes J x : Forall is_byte x -> Forall is_byte (chacha_xor J x).
Proof. intros H. apply lxor_bytes; [done|apply keystream_bytes]. Qed.

(** Only the two counter words of the input ever change. *)
Lemma next_counter_other J i : i ≠ 12%nat -> i ≠ 13%nat -> next_counter J !! i = J !! i.
Proof. intros. unfold next_counter. case_decide; by rewrite ?list_lookup_insert_ne by done. Qed.

Lemma counters_only J k : length J = 16%nat ->
  Nat.iter k next_counter J
  = <[13%nat := Nat.iter k next_counter J !!! 13%nat]> (<[12%nat := Nat.iter k next_counter J !!! 12%nat]> J).
Proof.
  intros HJ. assert (length (Nat.iter k next_counter J) = 16%nat) as HL.
  { induction k as [|k IH]; [done|]. simpl. by rewrite next_counter_length. }
  apply list_eq. intros i. destruct (decide (i = 13%nat)) as [->|H13].
  { rewrite list_lookup_insert_eq by (rewrite length_insert; lia). apply list_lookup_lookup_total_lt. lia. }
  rewrite list_lookup_insert_ne by done. destruct (decide (i = 12%nat)) as [->|H12].
  { rewrite list_lookup_insert_eq by lia. apply list_lookup_lookup_total_lt. lia. }
  rewrite list_lookup_insert_ne by done. clear HL. induction k as [|k IH]; [done|]. simpl. by rewrite next_counter_other.
Qed.

(** ** Lemmas on the buffers *)
Lemma load_at m l b off n :
  m !! l = Some b -> 0 <= off -> 0 <= n -> off + n <= Z.of_nat (length b) ->
  load m (l, off) n = Ret (slice b off n).
Proof. intros Hm H1 H2 H3. unfold load. simpl. rewrite Hm. by apply rd_slice_in. Qed.

Lemma store_at m l b off xs :
  m !! l = Some b -> 0 <= off -> off + Z.of_nat (length xs) <= Z.of_nat (length b) ->
  store m (l, off) xs = Ret (<[l := list_inserts (Z.to_nat off) xs b]> m).
Proof. intros Hm H1 H2. unfold store. simpl. rewrite Hm, wr_slice_in by lia. done. Qed.

(** ** The loop *)
Section Loop.
Variables (Tmp sl dl : nat).
Hypothesis HTs : Tmp ≠ sl.
Hypothesis HTd : Tmp ≠ dl.

(** The buffers of a call: [L] bytes at [so] of [sb] and at [d] of [db], which
    are one buffer (at the same offset) or two. *)
Record buffers (m : memory) (sb db : list Z) (so d L : Z) : Prop := {
  b_src : m !! sl = Some sb;
  b_dst : m !! dl = Some db;
  b_tmp : exists t, m !! Tmp = Some t /\ length t = 64%nat;
  b_so : 0 <= so /\ so + L <= Z.of_nat (length sb);
  b_do : 0 <= d /\ d + L <= Z.of_nat (length db);
  b_alias : sl = dl -> so = d;
  b_bytes : Forall is_byte (slice sb so L)
}.

Lemma full_step m sb db so d L J :
  buffers m sb db so d L -> 64 <= L -> length J = 16%nat ->
  let m' := <[dl := list_inserts (Z.to_nat d) (chacha_xor J (slice sb so 64)) db]> m in
  CryptStep Tmp {| Mem := m; J := J; Source := (sl, so); Destination := (dl, d); Len := L |}
  = Ret (if decide (L <= 64) then inr (m', next_counter J)
         else inl {| Mem := m'; J := next_counter J; Source := (sl, so + 64); Destination := (dl, d + 64); Len := L - 64 |}).
Proof using HTs HTd.
  intros [Hs Hd _ [Hso Hso'] [Hdo Hdo'] _ Hb] HL HJ m'. unfold CryptStep. cbn [Mem ChaCha.J Source Destination Len].
  destruct (rounds_block J HJ) as (R & -> & HR).
  rewrite (decide_False (P := L < 64)) by lia. cbn [mbind outcome_bind].
  rewrite (load_at m sl sb) by (done || lia). cbn [mbind outcome_bind].
  assert (length (slice sb so 64) = 64%nat) as Hlen by (rewrite slice_length; lia).
  assert (Forall is_byte (slice sb so 64)) as Hb64.
  { replace L with (64 + (L - 64)) in Hb by lia. unfold slice in *. rewrite Z2Nat.inj_add in Hb by lia.
    rewrite <- take_take_drop in Hb. by apply Forall_app in Hb as [Hb _]. }
  rewrite HR by done. unfold m'.
  rewrite (store_at m dl db) by (rewrite ?chacha_xor_length; done || lia). cbn [mbind outcome_bind].
  destruct (decide (L <= 64)); [|done]. by rewrite (decide_False (P := L < 64)) by lia.
Qed.

Lemma short_step m sb db so d L J :
  buffers m sb db so d L -> 0 < L < 64 -> length J = 16%nat ->
  exists m', CryptStep Tmp {| Mem := m; J := J; Source := (sl, so); Destination := (dl, d); Len := L |}
      = Ret (inr (m', next_counter J))
    /\ m' !! dl = Some (list_inserts (Z.to_nat d) (chacha_xor J (slice sb so L)) db)
    /\ (forall l, l ≠ dl -> l ≠ Tmp -> m' !! l = m !! l)
    /\ exists t, m' !! Tmp = Some t /\ length t = 64%nat.
Proof using HTs HTd.
  intros [Hs Hd (t & Ht & Hlt) [Hso Hso'] [Hdo Hdo'] _ Hb] HL HJ. unfold CryptStep. cbn [Mem ChaCha.J Source Destination Len].
  destruct (rounds_block J HJ) as (R & -> & HR).
  rewrite (decide_True (P := L < 64)) by lia. rewrite (load_at m sl sb) by (done || lia). cbn [mbind outcome_bind].
  set (x := slice sb so L) in *. assert (Z.of_nat (length x) = L) as Hx by (subst x; rewrite slice_length; lia).
  rewrite (store_at m Tmp t) by (done || lia). cbn [mbind outcome_bind].
  rewrite (store_at _ Tmp (list_inserts (Z.to_nat 0) x t)); [|by rewrite lookup_insert_eq|lia|rewrite length_inserts, length_replicate; lia].
  rewrite insert_insert_eq. cbn [mbind outcome_bind]. change (Z.to_nat 0) with 0%nat.
  replace (Z.to_nat L) with (0 + length x)%nat by lia. set (z := replicate (Z.to_nat (64 - L)) 0).
  assert (Z.of_nat (length z) = 64 - L) as Hz by (subst z; rewrite length_replicate; lia).
  rewrite inserts_inserts by lia. rewrite inserts_all by (rewrite length_app; lia).
  rewrite (load_at _ Tmp (x ++ z)) by (rewrite ?lookup_insert_eq, ?length_app; done || lia). cbn [mbind outcome_bind].
  assert (slice (x ++ z) 0 64 = x ++ z) as ->.
  { unfold slice. change (Z.to_nat 0) with 0%nat. rewrite drop_0, take_ge; [done|]. rewrite length_app. lia. }
  assert (Forall is_byte (x ++ z)) as Hbz.
  { apply Forall_app. split; [done|]. by apply Forall_replicate. }
  rewrite HR by (rewrite ?length_app; done || lia). clear R HR.
  assert (length (x ++ z) = 64%nat) as Hxz by (rewrite length_app; lia).
  assert (take (length x) (chacha_xor J (x ++ z)) = chacha_xor J x) as Hpre.
  { rewrite chacha_xor_full, chacha_xor_short by (done || lia).
    rewrite zip_with_app_l, take_app_length' by (rewrite length_zip_with, length_take, block_length by done; lia).
    apply zip_with_take_r. }
  set (y := chacha_xor J (x ++ z)) in *.
  assert (length y = 64%nat) as Hy by (subst y; by rewrite chacha_xor_length). clearbody y.
  rewrite (store_at _ Tmp (x ++ z)) by (rewrite ?lookup_insert_eq, ?length_app; done || lia). cbn [mbind outcome_bind].
  rewrite (decide_True (P := L <= 64)), (decide_True (P := L < 64)) by lia. rewrite insert_insert_eq.
  change (Z.to_nat 0) with 0%nat. rewrite inserts_all by (rewrite length_app; lia).
  rewrite (load_at _ Tmp y) by (rewrite ?lookup_insert_eq; done || lia). cbn [mbind outcome_bind].
  assert (slice y 0 L = chacha_xor J x) as ->.
  { unfold slice. change (Z.to_nat 0) with 0%nat. rewrite drop_0. by replace (Z.to_nat L) with (length x) by lia. }
  rewrite (store_at _ dl db); [|rewrite lookup_insert_ne by done; done|lia|rewrite chacha_xor_length by done; lia].
  cbn [mbind outcome_bind]. eexists. split; [done|]. split; [by rewrite lookup_insert_eq|].
  split; [intros l Hl1 Hl2; by rewrite !lookup_insert_ne by done|].
  eexists. split; [rewrite lookup_insert_ne by done; apply lookup_insert_eq|done].
Qed.

(** After a full block the rest of the call has its buffers. *)
Lemma buffers_next m sb db so d L J :
  buffers m sb db so d L -> 64 < L -> length J = 16%nat ->
  let db' := list_inserts (Z.to_nat d) (chacha_xor J (slice sb so 64)) db in
  exists sb', buffers (<[dl := db']> m) sb' db' (so + 64) (d + 64) (L - 64)
    /\ slice sb' (so + 64) (L - 64) = slice sb (so + 64) (L - 64).
Proof using HTs HTd.
  intros [Hs Hd (t & Ht & Hlt) [Hso Hso'] [Hdo Hdo'] Ha Hb] HL HJ db'.
  assert (length (chacha_xor J (slice sb so 64)) = 64%nat) as Hx by (rewrite chacha_xor_length, slice_length by (done || lia); lia).
  assert (exists sb', <[dl := db']> m !! sl = Some sb' /\ length sb' = length sb
          /\ slice sb' (so + 64) (L - 64) = slice sb (so + 64) (L - 64)) as (sb' & Hs' & Hls & Hsl).
  { destruct (decide (sl = dl)) as [E|E].
    - exists db'. rewrite E, lookup_insert_eq. rewrite E, Hd in Hs. injection Hs as <-. split; [done|].
      split; [apply length_inserts|]. rewrite (Ha E). apply slice_inserts_after; lia.
    - exists sb. by rewrite lookup_insert_ne by done. }
  exists sb'. split; [|done]. constructor.
  - done.
  - by rewrite lookup_insert_eq.
  - exists t. by rewrite lookup_insert_ne by done.
  - lia.
  - subst db'. rewrite length_inserts. lia.
  - intros E. rewrite (Ha E). done.
  - rewrite Hsl. unfold slice in Hb |- *. replace L with (64 + (L - 64)) in Hb by lia. rewrite Z2Nat.inj_add in Hb by lia.
    rewrite <- take_take_drop in Hb. apply Forall_app in Hb as [_ Hb]. rewrite drop_drop in Hb.
    by rewrite Z2Nat.inj_add by lia.
Qed.

Definition blocks_of (L : Z) : nat := Z.to_nat ((L + 63) / 64).

Lemma crypt_loop n : forall m sb db so d L J,
  buffers m sb db so d L -> 0 < L -> (Z.to_nat (L / 64) < n)%nat -> length J = 16%nat ->
  exists m', while_ n (CryptStep Tmp) {| Mem := m; J := J; Source := (sl, so); Destination := (dl, d); Len := L |}
      = Ret (m', Nat.iter (blocks_of L) next_counter J)
    /\ m' !! dl = Some (list_inserts (Z.to_nat d) (chacha_xor J (slice sb so L)) db)
    /\ (forall l, l ≠ dl -> l ≠ Tmp -> m' !! l = m !! l)
    /\ exists t, m' !! Tmp = Some t /\ length t = 64%nat.
Proof using HTs HTd.
  induction n as [|n IH]; intros m sb db so d L J HB HL Hn HJ; [lia|]. rewrite while_S.
  destruct (decide (L < 64)) as [H64|H64].
  { destruct (short_step m sb db so d L J HB) as (m' & -> & H1 & H2); [lia|done|].
    cbn [mbind outcome_bind]. exists m'. split; [|done].
    assert (blocks_of L = 1%nat) as -> by (unfold blocks_of; replace ((L + 63) / 64) with 1; [done|]; apply Z.div_unique with (L - 1); lia).
    done. }
  rewrite (full_step m sb db so d L J HB) by (done || lia). cbn [mbind outcome_bind].
  set (db' := list_inserts (Z.to_nat d) (chacha_xor J (slice sb so 64)) db).
  destruct (decide (L <= 64)) as [H65|H65]; cbn [mbind outcome_bind].
  { assert (L = 64) as -> by lia. eexists. split; [done|]. split; [by rewrite lookup_insert_eq|].
    split; [intros l Hl _; by rewrite lookup_insert_ne by done|].
    destruct HB as [_ _ (t & Ht & Hlt) _ _ _ _]. exists t. by rewrite lookup_insert_ne by done. }
  destruct (buffers_next m sb db so d L J HB) as (sb' & HB' & HS); [lia|done|]. fold db' in HB'.
  destruct (IH _ sb' db' (so + 64) (d + 64) (L - 64) (next_counter J) HB') as (m' & -> & H1 & H2 & HT); [lia| |by rewrite next_counter_length|].
  { replace (L / 64) with ((L - 64) / 64 + 1) in Hn by (rewrite <- Z.div_add by lia; f_equal; lia).
    pose proof (Z.div_pos (L - 64) 64). lia. }
  exists m'. split; [|split; [|split; [|done]]].
  - do 2 f_equal. replace (blocks_of L) with (S (blocks_of (L - 64))).
    2: { unfold blocks_of. replace ((L + 63) / 64) with ((L - 64 + 63) / 64 + 1) by (rewrite <- Z.div_add by lia; f_equal; lia).
         pose proof (Z.div_pos (L - 64 + 63) 64). lia. }
    by rewrite Nat.iter_succ_r.
  - rewrite H1, HS. destruct HB as [_ _ _ [Hso Hso'] [Hdo Hdo'] _ _]. f_equal. subst db'.
    assert (length (slice sb so 64) = 64%nat) as Hl64 by (rewrite slice_length; lia).
    replace (Z.to_nat (d + 64)) with (Z.to_nat d + length (chacha_xor J (slice sb so 64)))%nat by (rewrite chacha_xor_length, Hl64 by done; lia).
    rewrite inserts_inserts by (rewrite !chacha_xor_length, Hl64, slice_length by (rewrite ?next_counter_length; done || lia); lia).
    f_equal. replace (slice sb so L) with (slice sb so 64 ++ slice sb (so + 64) (L - 64)).
    2: { unfold slice. replace L with (64 + (L - 64)) at 2 by lia. rewrite (Z2Nat.inj_add 64), <- take_take_drop by lia.
         f_equal. rewrite drop_drop. by rewrite <- Z2Nat.inj_add by lia. }
    rewrite chacha_xor_block by done. f_equal. by apply chacha_xor_full.
  - intros l Hl1 Hl2. rewrite H2 by done. by rewrite lookup_insert_ne by done.
Qed.

Lemma Crypt_spec m sb db so d L C :
  buffers m sb db so d L -> 0 <= L -> length C.(Input) = 16%nat ->
  exists m' C', ChaChaCryptBuffer Tmp m C (sl, so) (dl, d) L = Ret (m', C')
    /\ m' !! dl = Some (list_inserts (Z.to_nat d) (chacha_xor C.(Input) (slice sb so L)) db)
    /\ (forall l, l ≠ dl -> l ≠ Tmp -> m' !! l = m !! l)
    /\ (exists t, m' !! Tmp = Some t /\ length t = 64%nat)
    /\ C'.(Input) = Nat.iter (blocks_of L) next_counter C.(Input).
Proof using HTs HTd.
  intros HB HL HJ. unfold ChaChaCryptBuffer. case_decide as H0.
  - subst L. exists m, C. destruct HB. done.
  - destruct (crypt_loop (S (Z.to_nat (L / 64))) m sb db so d L C.(Input) HB) as (m' & -> & H1 & H2 & H3); [lia|lia|done|].
    cbn [mbind outcome_bind]. eexists m', _. split; [done|]. split; [done|]. split; [done|]. split; [done|]. cbn [Input].
    symmetry. by apply counters_only.
Qed.

End Loop.

Lemma ChaChaInit_length Key Iv Counter C : ChaChaInitCtx Key Iv Counter = Ret C -> length C.(Input) = 16%nat.
Proof. unfold ChaChaInitCtx. intros H. oc_inv_bind. by injection H as <-. Qed.

(** ** Properties *)

(** C25: [ChaChaCryptBuffer] returns for every length and writes to the
    destination the source bytes combined with the key stream of the context,
    in place or between two buffers, and nothing else; the context advances by
    one counter step per started block of 64 bytes. *)
Theorem Crypt_keystream Tmp sl dl m sb db so d L C :
  Tmp ≠ sl -> Tmp ≠ dl -> buffers Tmp sl dl m sb db so d L -> 0 <= L -> length C.(Input) = 16%nat ->
  exists m' C', ChaChaCryptBuffer Tmp m C (sl, so) (dl, d) L = Ret (m', C')
    /\ m' !! dl = Some (list_inserts (Z.to_nat d) (chacha_xor C.(Input) (slice sb so L)) db)
    /\ (forall l, l ≠ dl -> l ≠ Tmp -> m' !! l = m !! l)
    /\ C'.(Input) = Nat.iter (blocks_of L) next_counter C.(Input).
Proof.
  intros H1 H2 HB HL HJ. destruct (Crypt_spec Tmp sl dl H1 H2 m sb db so d L C HB HL HJ) as (m' & C' & E & Hd & Hf & _ & HI).
  by exists m', C'.
Qed.

(** The RFC 8439 context of above and a memory with the text and the temporary. *)
Definition demo_context : CHACHA_CONTEXT := match rfc_context with Ret C => C | Fault _ => {| Input := [] |} end.
Definition demo_memory : memory := <[1%nat := [104; 101; 108; 108; 111; 33]]> (<[0%nat := replicate 64 9]> ∅).

Lemma demo_buffers : buffers 0 1 1 demo_memory [104; 101; 108; 108; 111; 33] [104; 101; 108; 108; 111; 33] 0 0 5.
Proof.
  constructor; try done.
  - by exists (replicate 64 9).
  - by apply (bool_decide_unpack _).
Qed.

Lemma Crypt_keystream_witness :
  exists m' C', ChaChaCryptBuffer 0 demo_memory demo_context (1%nat, 0) (1%nat, 0) 5 = Ret (m', C')
    /\ m' !! 1%nat = Some [120; 148; 139; 136; 190; 33].
Proof.
  destruct (Crypt_keystream 0 1 1 demo_memory [104; 101; 108; 108; 111; 33] [104; 101; 108; 108; 111; 33] 0 0 5 demo_context)
    as (m' & C' & E & H & _); try lia; [apply demo_buffers|reflexivity|].
  exists m', C'. split; [exact E|]. rewrite H. vm_compute. reflexivity.
Defined.

(** Encrypting a buffer in place and decrypting it with a context of the same
    key, nonce and counter restores every byte of the buffer. *)
Theorem Crypt_roundtrip Tmp l m b off L Key Iv Counter C :
  Tmp ≠ l -> m !! l = Some b -> (exists t, m !! Tmp = Some t /\ length t = 64%nat) ->
  0 <= off -> 0 <= L -> off + L <= Z.of_nat (length b) -> Forall is_byte b ->
  ChaChaInitCtx Key Iv Counter = Ret C ->
  exists m1 C1 m2 C2,
    ChaChaCryptBuffer Tmp m C (l, off) (l, off) L = Ret (m1, C1)
    /\ ChaChaCryptBuffer Tmp m1 C (l, off) (l, off) L = Ret (m2, C2)
    /\ m2 !! l = Some b /\ forall l', l' ≠ l -> l' ≠ Tmp -> m2 !! l' = m !! l'.
Proof.
  intros HT Hl Ht Hoff HL Hlen HB HC. pose proof (ChaChaInit_length _ _ _ _ HC) as HJ.
  assert (Forall is_byte (slice b off L)) as HBs by (unfold slice; by apply Forall_take, Forall_drop).
  set (x := slice b off L) in *. assert (Z.of_nat (length x) = L) as Hx by (subst x; rewrite slice_length; lia).
  destruct (Crypt_spec Tmp l l HT HT m b b off off L C) as (m1 & C1 & E1 & H1 & F1 & T1 & _); [by constructor|done|done|].
  fold x in H1. set (b1 := list_inserts _ _ _) in H1.
  assert (slice b1 off L = chacha_xor C.(Input) x) as Hs1.
  { rewrite <- Hx at 1. rewrite <- (chacha_xor_length C.(Input) x) by done.
    apply slice_inserts_same; rewrite ?chacha_xor_length; done || lia. }
  assert (length b1 = length b) as Hb1 by apply length_inserts.
  destruct (Crypt_spec Tmp l l HT HT m1 b1 b1 off off L C) as (m2 & C2 & E2 & H2 & F2 & _); [|done|done|].
  { constructor; try done; [lia|lia|]. rewrite Hs1. by apply chacha_xor_bytes. }
  exists m1, C1, m2, C2. split; [done|]. split; [done|]. split.
  - rewrite H2, Hs1, chacha_xor_twice by done. f_equal. apply list_eq. intros i.
    rewrite lookup_inserts by lia. case_decide as Hi.
    + subst x. rewrite lookup_slice by lia. f_equal. lia.
    + subst b1. rewrite lookup_inserts by (rewrite chacha_xor_length by done; lia).
      rewrite chacha_xor_length by done. by rewrite decide_False by lia.
  - intros l' Hl1 Hl2. rewrite F2, F1 by done. done.
Qed.

Lemma Crypt_roundtrip_witness :
  exists m1 C1 m2 C2,
    ChaChaCryptBuffer 0 demo_memory demo_context (1%nat, 1) (1%nat, 1) 4 = Ret (m1, C1)
    /\ ChaChaCryptBuffer 0 m1 demo_context (1%nat, 1) (1%nat, 1) 4 = Ret (m2, C2)
    /\ m2 !! 1%nat = Some [104; 101; 108; 108; 111; 33].
Proof.
  destruct (Crypt_roundtrip 0 1 demo_memory [104; 101; 108; 108; 111; 33] 1 4 (Z.of_nat <$> seq 0 32)
      [0; 0; 0; 9; 0; 0; 0; 0x4a; 0; 0; 0; 0] 1 demo_context) as (m1 & C1 & m2 & C2 & E1 & E2 & H & _);
    try lia; try reflexivity.
  - by exists (replicate 64 9).
  - simpl. lia.
  - by apply (bool_decide_unpack _).
  - exists m1, C1, m2, C2. split; [exact E1|]. split; [exact E2|exact H].
Defined.

End ChaCha.
