(* ===== verification/Sha2.v ===== *)
(** * The SHA-2 functions as the interface of the RSA verification

    [ShaLib] of Rsa.v asks for the digests of three hash functions. This file
    instantiates it with the digests of Digest.v and Sha512.v, discharges its laws
    and shows that the one-shot functions [Sha256], [Sha384] and [Sha512] of
    Library/OcCryptoLib/Sha2.c compute these digests, so that the theorems of
    Rsa.v hold for the library's own hashes. *)
From stdpp Require Import gmap.
From S2P Require Import Prelude Digest Sha512 WordMemory BigNumPrimitives BigNumMod BigNumMontgomery Rsa.

Module Sha2.

Lemma sha256_digest_length msg : length (Digest.sha256_digest msg) = 32%nat.
Proof.
  unfold Digest.sha256_digest. rewrite Digest.word_bytes_length, <- (proj2 Digest.SHA256_constants).
  assert (length (Digest.compress (Digest.fips_compress Digest.fips256) 64 Digest.SHA256_H0
            (Digest.pad64 Digest.StoreLengthBE msg)) = 8%nat) as ->; [|done].
  unfold Digest.compress. generalize (Digest.blocks 64 (length (Digest.pad64 Digest.StoreLengthBE msg) / 64)
    (Digest.pad64 Digest.StoreLengthBE msg)). intros bs.
  assert (length Digest.SHA256_H0 = 8%nat) as HL by done. revert HL. generalize Digest.SHA256_H0.
  induction bs as [|b bs IH]; intros St HL; [done|]. simpl. apply IH.
  unfold Digest.fips_compress. rewrite length_zip_with. generalize (Digest.load_regs St). intros regs.
  rewrite HL. done.
Qed.

Lemma sha384_digest_length msg : length (Sha512.sha384_digest msg) = 48%nat.
Proof.
  unfold Sha512.sha384_digest. rewrite <- (proj2 (proj2 Sha512.SHA512_constants)).
  pose proof (Sha512.compress_state_ok 128 Sha512.SHA384_H0 (Sha512.pad128 msg) (proj2 Sha512.H0_ok)) as [HL _].
  fold (Sha512.sha512_state Sha512.SHA384_H0 msg) in HL. rewrite Sha512.unpack_length, length_take, HL. done.
Qed.

#[export] Instance sha2_lib : Rsa.ShaLib := {|
  Rsa.Sha256 := Digest.sha256_digest;
  Rsa.Sha384 := Sha512.sha384_digest;
  Rsa.Sha512 := Sha512.sha512_digest
|}.

#[export] Instance sha2_laws : Rsa.ShaLaws sha2_lib.
Proof.
  constructor; simpl; intros d; [apply sha256_digest_length|apply sha384_digest_length|].
  by destruct (Sha512.sha512_digest_spec d) as (_ & ? & _).
Qed.

Lemma sha2_lib_sha256 Input : Rsa.Sha256 Input = Digest.sha256_digest Input.
Proof. reflexivity. Qed.
Lemma sha2_lib_sha384 Input : Rsa.Sha384 Input = Sha512.sha384_digest Input.
Proof. reflexivity. Qed.
Lemma sha2_lib_sha512 Input : Rsa.Sha512 Input = Sha512.sha512_digest Input.
Proof. reflexivity. Qed.

#[local] Opaque Digest.Sha256Update Digest.Sha256Final Digest.Sha256Init Digest.sha256_digest
  Sha512.UpdateBlocks Sha512.Sha512Init Sha512.Sha384Init Sha512.Sha512Final Sha512.Sha384Final
  Sha512.sha512_digest Sha512.sha384_digest.

(** The one-shot functions compute the digests of the interface. *)
Lemma Sha256_computes MJunk Junk Hash Input :
  length MJunk = 64%nat -> length Junk = 64%nat -> length Hash = 32%nat -> Forall is_byte Input ->
  Z.of_nat (length Input) < 2 ^ 32 ->
  Digest.Sha256 MJunk Junk Hash Input (Z.of_nat (length Input)) = Ret (Rsa.Sha256 Input).
Proof.
  intros HM HJ HH HB HL. destruct (Digest.Streaming_spec [Input] Junk Hash MJunk HJ HM) as (_ & _ & Ctx & E & F);
    [lia|by apply Forall_singleton|by apply Forall_singleton|].
  unfold Digest.Sha256. cbn [Digest.updates] in E. revert E. destruct (Digest.Sha256Update _ _ _ _) as [C|e]; [|discriminate].
  cbn [mbind outcome_bind]. intros [= ->]. rewrite F. cbn [concat]. rewrite app_nil_r.
  rewrite inserts_all; [f_equal; symmetry; apply sha2_lib_sha256|]. rewrite sha256_digest_length, HH. reflexivity.
Qed.

Section Sha512_lengths.
Context (Acc : Sha512.Sha512Accel) (HAcc : Sha512.Sha512AccelLaws Acc) (WJunk : list Z) (Junk : Sha512.SHA512_CONTEXT).
Context (HW : length WJunk = 80%nat) (HJ : length Junk.(Sha512.Block) = 256%nat).

Lemma Sha512_computes Hash Input :
  length Hash = 64%nat -> Forall is_byte Input -> Z.of_nat (length Input) < 2 ^ 61 ->
  Sha512.Sha512 WJunk Junk Hash Input (Z.of_nat (length Input)) = Ret (Rsa.Sha512 Input).
Proof using HW HJ HAcc.
  intros HH HB HL.
  destruct (Sha512.Blocks_streaming_spec Acc HAcc WJunk Junk [Input] Hash HW HJ) as [(Ctx & Ctx' & E & F) _];
    [lia|by apply Forall_singleton|by cbn [concat]; rewrite app_nil_r|].
  unfold Sha512.Sha512, Sha512.Sha512Update. cbn [Sha512.updates] in E. revert E.
  destruct (Sha512.UpdateBlocks _ _ _ _) as [C|e]; [|discriminate].
  cbn [mbind outcome_bind]. intros [= ->]. rewrite F. cbn [concat fmap outcome_fmap snd]. rewrite app_nil_r.
  rewrite inserts_all; [f_equal; symmetry; apply sha2_lib_sha512|]. destruct (Sha512.sha512_digest_spec Input) as (_ & HD & _). rewrite HD, HH. reflexivity.
Qed.

Lemma Sha384_computes Hash Input :
  (64 <= length Hash)%nat -> Forall is_byte Input -> Z.of_nat (length Input) < 2 ^ 61 ->
  Sha512.Sha384 WJunk Junk Hash Input (Z.of_nat (length Input)) = Ret (list_inserts 0 (Rsa.Sha384 Input) Hash).
Proof using HW HJ HAcc.
  intros HH HB HL.
  destruct (Sha512.Blocks_streaming_spec Acc HAcc WJunk Junk [Input] Hash HW HJ HH) as [_ (Ctx & Ctx' & E & F)];
    [by apply Forall_singleton|by cbn [concat]; rewrite app_nil_r|].
  unfold Sha512.Sha384, Sha512.Sha384Update. cbn [Sha512.updates] in E. revert E.
  destruct (Sha512.UpdateBlocks _ _ _ _) as [C|e]; [|discriminate].
  cbn [mbind outcome_bind]. intros [= ->]. rewrite F. cbn [concat fmap outcome_fmap snd]. rewrite app_nil_r. by rewrite <- sha2_lib_sha384.
Qed.
End Sha512_lengths.

End Sha2.
