(* ===== verification/Aes.v ===== *)
(** * AES in CBC and CTR mode

    Library/OcCryptoLib/Aes.c: key expansion, the cipher and its inverse on a state
    in place, and the two modes of operation. The key size is a configuration of
    the build (CONFIG_AES_KEY_SIZE), here the class [AesConfig]. The second half
    states the cipher of FIPS 197 (the field GF(2^8), the S-box as inverse and
    affine map, the state transformations and the key schedule by their formulas)
    and the two modes of NIST SP 800-38A, and proves that the code computes them. *)
From Stdlib Require Import Btauto.
From S2P Require Import Prelude.

Module Aes.

(** ** Configuration *)
Class AesConfig : Type := { CONFIG_AES_KEY_SIZE : Z }.
Class AesConfigOk (Cfg : AesConfig) : Prop := {
  key_size_ok : CONFIG_AES_KEY_SIZE = 16 \/ CONFIG_AES_KEY_SIZE = 24 \/ CONFIG_AES_KEY_SIZE = 32
}.

Definition AES_BLOCK_SIZE : Z := 16.
Definition Nb : Z := 4.
Definition Nk `{AesConfig} : Z :=
  if decide (CONFIG_AES_KEY_SIZE = 32) then 8 else if decide (CONFIG_AES_KEY_SIZE = 24) then 6 else 4.
Definition Nr `{AesConfig} : Z :=
  if decide (CONFIG_AES_KEY_SIZE = 32) then 14 else if decide (CONFIG_AES_KEY_SIZE = 24) then 12 else 10.
Definition AES_KEY_EXP_SIZE `{AesConfig} : Z :=
  if decide (CONFIG_AES_KEY_SIZE = 32) then 240 else if decide (CONFIG_AES_KEY_SIZE = 24) then 208 else 176.

(** ** Tables *)
Definition Sbox : list Z :=
  [ 0x63; 0x7c; 0x77; 0x7b; 0xf2; 0x6b; 0x6f; 0xc5; 0x30; 0x01; 0x67; 0x2b; 0xfe; 0xd7; 0xab; 0x76;
    0xca; 0x82; 0xc9; 0x7d; 0xfa; 0x59; 0x47; 0xf0; 0xad; 0xd4; 0xa2; 0xaf; 0x9c; 0xa4; 0x72; 0xc0;
    0xb7; 0xfd; 0x93; 0x26; 0x36; 0x3f; 0xf7; 0xcc; 0x34; 0xa5; 0xe5; 0xf1; 0x71; 0xd8; 0x31; 0x15;
    0x04; 0xc7; 0x23; 0xc3; 0x18; 0x96; 0x05; 0x9a; 0x07; 0x12; 0x80; 0xe2; 0xeb; 0x27; 0xb2; 0x75;
    0x09; 0x83; 0x2c; 0x1a; 0x1b; 0x6e; 0x5a; 0xa0; 0x52; 0x3b; 0xd6; 0xb3; 0x29; 0xe3; 0x2f; 0x84;
    0x53; 0xd1; 0x00; 0xed; 0x20; 0xfc; 0xb1; 0x5b; 0x6a; 0xcb; 0xbe; 0x39; 0x4a; 0x4c; 0x58; 0xcf;
    0xd0; 0xef; 0xaa; 0xfb; 0x43; 0x4d; 0x33; 0x85; 0x45; 0xf9; 0x02; 0x7f; 0x50; 0x3c; 0x9f; 0xa8;
    0x51; 0xa3; 0x40; 0x8f; 0x92; 0x9d; 0x38; 0xf5; 0xbc; 0xb6; 0xda; 0x21; 0x10; 0xff; 0xf3; 0xd2;
    0xcd; 0x0c; 0x13; 0xec; 0x5f; 0x97; 0x44; 0x17; 0xc4; 0xa7; 0x7e; 0x3d; 0x64; 0x5d; 0x19; 0x73;
    0x60; 0x81; 0x4f; 0xdc; 0x22; 0x2a; 0x90; 0x88; 0x46; 0xee; 0xb8; 0x14; 0xde; 0x5e; 0x0b; 0xdb;
    0xe0; 0x32; 0x3a; 0x0a; 0x49; 0x06; 0x24; 0x5c; 0xc2; 0xd3; 0xac; 0x62; 0x91; 0x95; 0xe4; 0x79;
    0xe7; 0xc8; 0x37; 0x6d; 0x8d; 0xd5; 0x4e; 0xa9; 0x6c; 0x56; 0xf4; 0xea; 0x65; 0x7a; 0xae; 0x08;
    0xba; 0x78; 0x25; 0x2e; 0x1c; 0xa6; 0xb4; 0xc6; 0xe8; 0xdd; 0x74; 0x1f; 0x4b; 0xbd; 0x8b; 0x8a;
    0x70; 0x3e; 0xb5; 0x66; 0x48; 0x03; 0xf6; 0x0e; 0x61; 0x35; 0x57; 0xb9; 0x86; 0xc1; 0x1d; 0x9e;
    0xe1; 0xf8; 0x98; 0x11; 0x69; 0xd9; 0x8e; 0x94; 0x9b; 0x1e; 0x87; 0xe9; 0xce; 0x55; 0x28; 0xdf;
    0x8c; 0xa1; 0x89; 0x0d; 0xbf; 0xe6; 0x42; 0x68; 0x41; 0x99; 0x2d; 0x0f; 0xb0; 0x54; 0xbb; 0x16 ].

Definition RsBox : list Z :=
  [ 0x52; 0x09; 0x6a; 0xd5; 0x30; 0x36; 0xa5; 0x38; 0xbf; 0x40; 0xa3; 0x9e; 0x81; 0xf3; 0xd7; 0xfb;
    0x7c; 0xe3; 0x39; 0x82; 0x9b; 0x2f; 0xff; 0x87; 0x34; 0x8e; 0x43; 0x44; 0xc4; 0xde; 0xe9; 0xcb;
    0x54; 0x7b; 0x94; 0x32; 0xa6; 0xc2; 0x23; 0x3d; 0xee; 0x4c; 0x95; 0x0b; 0x42; 0xfa; 0xc3; 0x4e;
    0x08; 0x2e; 0xa1; 0x66; 0x28; 0xd9; 0x24; 0xb2; 0x76; 0x5b; 0xa2; 0x49; 0x6d; 0x8b; 0xd1; 0x25;
    0x72; 0xf8; 0xf6; 0x64; 0x86; 0x68; 0x98; 0x16; 0xd4; 0xa4; 0x5c; 0xcc; 0x5d; 0x65; 0xb6; 0x92;
    0x6c; 0x70; 0x48; 0x50; 0xfd; 0xed; 0xb9; 0xda; 0x5e; 0x15; 0x46; 0x57; 0xa7; 0x8d; 0x9d; 0x84;
    0x90; 0xd8; 0xab; 0x00; 0x8c; 0xbc; 0xd3; 0x0a; 0xf7; 0xe4; 0x58; 0x05; 0xb8; 0xb3; 0x45; 0x06;
    0xd0; 0x2c; 0x1e; 0x8f; 0xca; 0x3f; 0x0f; 0x02; 0xc1; 0xaf; 0xbd; 0x03; 0x01; 0x13; 0x8a; 0x6b;
    0x3a; 0x91; 0x11; 0x41; 0x4f; 0x67; 0xdc; 0xea; 0x97; 0xf2; 0xcf; 0xce; 0xf0; 0xb4; 0xe6; 0x73;
    0x96; 0xac; 0x74; 0x22; 0xe7; 0xad; 0x35; 0x85; 0xe2; 0xf9; 0x37; 0xe8; 0x1c; 0x75; 0xdf; 0x6e;
    0x47; 0xf1; 0x1a; 0x71; 0x1d; 0x29; 0xc5; 0x89; 0x6f; 0xb7; 0x62; 0x0e; 0xaa; 0x18; 0xbe; 0x1b;
    0xfc; 0x56; 0x3e; 0x4b; 0xc6; 0xd2; 0x79; 0x20; 0x9a; 0xdb; 0xc0; 0xfe; 0x78; 0xcd; 0x5a; 0xf4;
    0x1f; 0xdd; 0xa8; 0x33; 0x88; 0x07; 0xc7; 0x31; 0xb1; 0x12; 0x10; 0x59; 0x27; 0x80; 0xec; 0x5f;
    0x60; 0x51; 0x7f; 0xa9; 0x19; 0xb5; 0x4a; 0x0d; 0x2d; 0xe5; 0x7a; 0x9f; 0x93; 0xc9; 0x9c; 0xef;
    0xa0; 0xe0; 0x3b; 0x4d; 0xae; 0x2a; 0xf5; 0xb0; 0xc8; 0xeb; 0xbb; 0x3c; 0x83; 0x53; 0x99; 0x61;
    0x17; 0x2b; 0x04; 0x7e; 0xba; 0x77; 0xd6; 0x26; 0xe1; 0x69; 0x14; 0x63; 0x55; 0x21; 0x0c; 0x7d ].

Definition Rcon : list Z := [0x8d; 0x01; 0x02; 0x04; 0x08; 0x10; 0x20; 0x40; 0x80; 0x1b; 0x36].

(** An index of type UINT8 is inside the 256 entries. *)
Definition GetSboxValue (num : Z) : Z := Sbox !!! Z.to_nat num.
Definition GetSBoxInvert (num : Z) : Z := RsBox !!! Z.to_nat num.

(** ** Key expansion *)
Section Key.
Context `{AesConfig}.

(** A word of the key is copied. *)
Definition CopyKeyWord (Key : list Z) (Index : Z) (RoundKey : list Z) : outcome (list Z) :=
  for_ 4 0 (fun i RoundKey => k ← rd Key (Index * 4 + i); wr RoundKey (Index * 4 + i) k) RoundKey.

(** The four bytes [TempA] from those of the previous word. *)
Definition TransformWord (Index : Z) (TempA : list Z) : outcome (list Z) :=
  TempA ←
    (if decide (Index mod Nk = 0) then
       let K := TempA !!! 0%nat in
       let TempA := <[0%nat := TempA !!! 1%nat]> TempA in
       let TempA := <[1%nat := TempA !!! 2%nat]> TempA in
       let TempA := <[2%nat := TempA !!! 3%nat]> TempA in
       let TempA := <[3%nat := K]> TempA in
       let TempA := GetSboxValue <$> TempA in
       c ← rd Rcon (Index / Nk);
       Ret (<[0%nat := Z.lxor (TempA !!! 0%nat) c]> TempA)
     else Ret TempA);
  Ret (if decide (CONFIG_AES_KEY_SIZE = 32 /\ Index mod Nk = 4) then GetSboxValue <$> TempA else TempA).

Definition ExpandWord (Index : Z) (RoundKey : list Z) : outcome (list Z) :=
  TempA ← rd_slice RoundKey ((Index - 1) * 4) 4;
  TempA ← TransformWord Index TempA;
  let J := Index * 4 in
  let K := (Index - Nk) * 4 in
  for_ 4 0 (fun i RoundKey =>
    k ← rd RoundKey (K + i);
    t ← rd TempA i;
    wr RoundKey (J + i) (Z.lxor k t)) RoundKey.

Definition KeyExpansion (RoundKey Key : list Z) : outcome (list Z) :=
  RoundKey ← for_ (Z.to_nat Nk) 0 (CopyKeyWord Key) RoundKey;
  for_ (Z.to_nat (Nb * (Nr + 1) - Nk)) Nk ExpandWord RoundKey.

End Key.

(** ** Context *)
Record AES_CONTEXT := { RoundKey : list Z; Iv : list Z }.

Definition AesInitCtxIv `{AesConfig} (Context : AES_CONTEXT) (Key Iv' : list Z) : outcome AES_CONTEXT :=
  RoundKey' ← KeyExpansion Context.(RoundKey) Key;
  Iv'' ← CopyMem Context.(Iv) 0 Iv' 0 AES_BLOCK_SIZE;
  Ret {| RoundKey := RoundKey'; Iv := Iv'' |}.

Definition AesSetCtxIv (Context : AES_CONTEXT) (Iv' : list Z) : outcome AES_CONTEXT :=
  Iv'' ← CopyMem Context.(Iv) 0 Iv' 0 AES_BLOCK_SIZE;
  Ret {| RoundKey := Context.(RoundKey); Iv := Iv'' |}.

(** ** The state: cell [[i][j]] is element [4 * i + j] *)
Definition cell (i j : nat) : nat := 4 * i + j.

Definition AddRoundKey (Round : Z) (St RoundKey : list Z) : outcome (list Z) :=
  for_ 4 0 (fun I St =>
    for_ 4 0 (fun J St =>
      k ← rd RoundKey (Round * Nb * 4 + I * Nb + J);
      s ← rd St (4 * I + J);
      wr St (4 * I + J) (Z.lxor s k)) St) St.

(** A loop over [I] and [J] that replaces the cells [[J][I]]. *)
Definition MapCells (f : Z -> Z) (St : list Z) : list Z :=
  foldl (fun St I => foldl (fun St J => <[cell J I := f (St !!! cell J I)]> St) St (seq 0 4)) St (seq 0 4).

Definition SubBytes : list Z -> list Z := MapCells GetSboxValue.
Definition InvSubBytes : list Z -> list Z := MapCells GetSBoxInvert.

(** [St[a] = St[b]] for cells. *)
Definition Move (a b : nat * nat) (St : list Z) : list Z :=
  <[cell a.1 a.2 := St !!! cell b.1 b.2]> St.

Definition ShiftRows (St : list Z) : list Z :=
  let Temp := St !!! cell 0 1 in
  let St := Move (0, 1)%nat (1, 1)%nat St in
  let St := Move (1, 1)%nat (2, 1)%nat St in
  let St := Move (2, 1)%nat (3, 1)%nat St in
  let St := <[cell 3 1 := Temp]> St in
  let Temp := St !!! cell 0 2 in
  let St := Move (0, 2)%nat (2, 2)%nat St in
  let St := <[cell 2 2 := Temp]> St in
  let Temp := St !!! cell 1 2 in
  let St := Move (1, 2)%nat (3, 2)%nat St in
  let St := <[cell 3 2 := Temp]> St in
  let Temp := St !!! cell 0 3 in
  let St := Move (0, 3)%nat (3, 3)%nat St in
  let St := Move (3, 3)%nat (2, 3)%nat St in
  let St := Move (2, 3)%nat (1, 3)%nat St in
  <[cell 1 3 := Temp]> St.

Definition InvShiftRows (St : list Z) : list Z :=
  let Temp := St !!! cell 3 1 in
  let St := Move (3, 1)%nat (2, 1)%nat St in
  let St := Move (2, 1)%nat (1, 1)%nat St in
  let St := Move (1, 1)%nat (0, 1)%nat St in
  let St := <[cell 0 1 := Temp]> St in
  let Temp := St !!! cell 0 2 in
  let St := Move (0, 2)%nat (2, 2)%nat St in
  let St := <[cell 2 2 := Temp]> St in
  let Temp := St !!! cell 1 2 in
  let St := Move (1, 2)%nat (3, 2)%nat St in
  let St := <[cell 3 2 := Temp]> St in
  let Temp := St !!! cell 0 3 in
  let St := Move (0, 3)%nat (1, 3)%nat St in
  let St := Move (1, 3)%nat (2, 3)%nat St in
  let St := Move (2, 3)%nat (3, 3)%nat St in
  <[cell 3 3 := Temp]> St.

Definition XTime (X : Z) : Z :=
  wrap 8 (Z.lxor (Z.shiftl X 1) (Z.land (Z.shiftr X 7) 1 * 0x1b)).

(** The loop body of [MixColumns] for column [I]. *)
Definition MixColumn (St : list Z) (I : nat) : list Z :=
  let T := St !!! cell I 0 in
  let Tmp := Z.lxor (Z.lxor (Z.lxor (St !!! cell I 0) (St !!! cell I 1)) (St !!! cell I 2)) (St !!! cell I 3) in
  let Tm := XTime (Z.lxor (St !!! cell I 0) (St !!! cell I 1)) in
  let St := <[cell I 0 := Z.lxor (St !!! cell I 0) (Z.lxor Tm Tmp)]> St in
  let Tm := XTime (Z.lxor (St !!! cell I 1) (St !!! cell I 2)) in
  let St := <[cell I 1 := Z.lxor (St !!! cell I 1) (Z.lxor Tm Tmp)]> St in
  let Tm := XTime (Z.lxor (St !!! cell I 2) (St !!! cell I 3)) in
  let St := <[cell I 2 := Z.lxor (St !!! cell I 2) (Z.lxor Tm Tmp)]> St in
  let Tm := XTime (Z.lxor (St !!! cell I 3) T) in
  <[cell I 3 := Z.lxor (St !!! cell I 3) (Z.lxor Tm Tmp)]> St.

Definition MixColumns (St : list Z) : list Z := foldl MixColumn St (seq 0 4).

Definition Multiply (x y : Z) : Z :=
  Z.lxor (Z.lxor (Z.lxor (Z.lxor
    (Z.land y 1 * x)
    (Z.land (Z.shiftr y 1) 1 * XTime x))
    (Z.land (Z.shiftr y 2) 1 * XTime (XTime x)))
    (Z.land (Z.shiftr y 3) 1 * XTime (XTime (XTime x))))
    (Z.land (Z.shiftr y 4) 1 * XTime (XTime (XTime (XTime x)))).

(** A row of the product in [InvMixColumns]. *)
Definition MultiplyRow (A B C D a b c d : Z) : Z :=
  wrap 8 (Z.lxor (Z.lxor (Z.lxor (Multiply A a) (Multiply B b)) (Multiply C c)) (Multiply D d)).

Definition InvMixColumn (St : list Z) (I : nat) : list Z :=
  let A := St !!! cell I 0 in
  let B := St !!! cell I 1 in
  let C := St !!! cell I 2 in
  let D := St !!! cell I 3 in
  let St := <[cell I 0 := MultiplyRow A B C D 0x0e 0x0b 0x0d 0x09]> St in
  let St := <[cell I 1 := MultiplyRow A B C D 0x09 0x0e 0x0b 0x0d]> St in
  let St := <[cell I 2 := MultiplyRow A B C D 0x0d 0x09 0x0e 0x0b]> St in
  <[cell I 3 := MultiplyRow A B C D 0x0b 0x0d 0x09 0x0e]> St.

Definition InvMixColumns (St : list Z) : list Z := foldl InvMixColumn St (seq 0 4).

(** ** The cipher and its inverse *)
Section Modes.
Context `{AesConfig}.

Definition Cipher (St RoundKey : list Z) : outcome (list Z) :=
  St ← AddRoundKey 0 St RoundKey;
  St ← for_ (Z.to_nat (Nr - 1)) 1 (fun Round St =>
    AddRoundKey Round (MixColumns (ShiftRows (SubBytes St))) RoundKey) St;
  AddRoundKey Nr (ShiftRows (SubBytes St)) RoundKey.

(** [for (Round = Nr - 1; Round > 0; --Round)]. *)
Definition InvRounds (RoundKey : list Z) (s : Z * list Z) : outcome (Z * list Z + list Z) :=
  let '(Round, St) := s in
  if decide (0 < Round) then
    St ← AddRoundKey Round (InvSubBytes (InvShiftRows St)) RoundKey;
    Ret (inl (Round - 1, InvMixColumns St))
  else Ret (inr St).

Definition InvCipher (St RoundKey : list Z) : outcome (list Z) :=
  St ← AddRoundKey Nr St RoundKey;
  St ← while_ (Z.to_nat Nr) (InvRounds RoundKey) (Nr - 1, St);
  AddRoundKey 0 (InvSubBytes (InvShiftRows St)) RoundKey.

(** A transformation of the block at [Off] of [Data] in place. *)
Definition InPlace (f : list Z -> outcome (list Z)) (Data : list Z) (Off : Z) : outcome (list Z) :=
  St ← rd_slice Data Off AES_BLOCK_SIZE; St ← f St; wr_slice Data Off St.

(** ** CBC

    [Buf] is the block at [Off] of [Data]; the IV is read through a pointer, into
    the context ([None]) or to an offset of the same data ([Some]). *)
Definition ReadIv (ContextIv : list Z) (IvAt : option Z) (Data : list Z) (I : Z) : outcome Z :=
  match IvAt with None => rd ContextIv I | Some o => rd Data (o + I) end.

Definition XorWithIv (ContextIv : list Z) (IvAt : option Z) (Data : list Z) (Off : Z) : outcome (list Z) :=
  for_ (Z.to_nat AES_BLOCK_SIZE) 0 (fun I Data =>
    b ← rd Data (Off + I);
    v ← ReadIv ContextIv IvAt Data I;
    wr Data (Off + I) (Z.lxor b v)) Data.

(** The state is [I], the data, the data pointer and the IV pointer. *)
Definition CbcEncryptStep (Context : AES_CONTEXT) (Len : Z) (s : Z * list Z * Z * option Z)
  : outcome (Z * list Z * Z * option Z + list Z * option Z) :=
  let '(Ix, Data, Off, IvAt) := s in
  if decide (Ix < Len) then
    Data ← XorWithIv Context.(Iv) IvAt Data Off;
    Data ← InPlace (fun St => Cipher St Context.(RoundKey)) Data Off;
    Ret (inl (Ix +[32] AES_BLOCK_SIZE, Data, Off + AES_BLOCK_SIZE, Some Off))
  else Ret (inr (Data, IvAt)).

(** The fuel of the block loops: one iteration for every started block and the
    final test. *)
Definition block_fuel (Len : Z) : nat := S (Z.to_nat ((Len + 15) / 16)).

Definition AesCbcEncryptBuffer (Context : AES_CONTEXT) (Data : list Z) (Len : Z) : outcome (AES_CONTEXT * list Z) :=
  '(Data, IvAt) ← while_ (block_fuel Len) (CbcEncryptStep Context Len) (0, Data, 0, None);
  Iv' ← match IvAt with
        | None => CopyMem Context.(Iv) 0 Context.(Iv) 0 AES_BLOCK_SIZE
        | Some o => CopyMem Context.(Iv) 0 Data o AES_BLOCK_SIZE
        end;
  Ret ({| RoundKey := Context.(RoundKey); Iv := Iv' |}, Data).

Definition CbcDecryptStep (Len : Z) (s : Z * AES_CONTEXT * list Z * Z)
  : outcome (Z * AES_CONTEXT * list Z * Z + AES_CONTEXT * list Z) :=
  let '(Ix, Context, Data, Off) := s in
  if decide (Ix < Len) then
    StoreNextIv ← rd_slice Data Off AES_BLOCK_SIZE;
    Data ← InPlace (fun St => InvCipher St Context.(RoundKey)) Data Off;
    Data ← XorWithIv Context.(Iv) None Data Off;
    Iv' ← CopyMem Context.(Iv) 0 StoreNextIv 0 AES_BLOCK_SIZE;
    Ret (inl (Ix +[32] AES_BLOCK_SIZE, {| RoundKey := Context.(RoundKey); Iv := Iv' |}, Data, Off + AES_BLOCK_SIZE))
  else Ret (inr (Context, Data)).

Definition AesCbcDecryptBuffer (Context : AES_CONTEXT) (Data : list Z) (Len : Z) : outcome (AES_CONTEXT * list Z) :=
  while_ (block_fuel Len) (CbcDecryptStep Len) (0, Context, Data, 0).

(** ** CTR *)

(** [for (Bi = AES_BLOCK_SIZE - 1; Bi >= 0; --Bi)]. *)
Definition IncrementStep (s : Z * list Z) : outcome (Z * list Z + list Z) :=
  let '(Bi, Iv) := s in
  if decide (0 <= Bi) then
    x ← rd Iv Bi;
    if decide (x = 255) then Iv ← wr Iv Bi 0; Ret (inl (Bi - 1, Iv))
    else Iv ← wr Iv Bi (x +[8] 1); Ret (inr Iv)
  else Ret (inr Iv).

Definition IncrementIv (Iv : list Z) : outcome (list Z) := while_ 17 IncrementStep (AES_BLOCK_SIZE - 1, Iv).

(** The state is [I], [Bi], the IV of the context, the buffer and the data. *)
Definition CtrStep (RoundKey : list Z) (Len : Z) (s : Z * Z * list Z * list Z * list Z)
  : outcome (Z * Z * list Z * list Z * list Z + list Z * list Z) :=
  let '(Ix, Bi, Iv, Buffer, Data) := s in
  if decide (Ix < Len) then
    '(Bi, Iv, Buffer) ←
      (if decide (Bi = AES_BLOCK_SIZE) then
         Buffer ← CopyMem Buffer 0 Iv 0 AES_BLOCK_SIZE;
         Buffer ← Cipher Buffer RoundKey;
         Iv ← IncrementIv Iv;
         Ret (0, Iv, Buffer)
       else Ret (Bi, Iv, Buffer));
    d ← rd Data Ix;
    b ← rd Buffer Bi;
    Data ← wr Data Ix (Z.lxor d b);
    Ret (inl (Ix +[32] 1, Bi + 1, Iv, Buffer, Data))
  else Ret (inr (Iv, Data)).

(** [Buffer] is the content of the uninitialised array on the stack. *)
Definition AesCtrXcryptBuffer (Buffer : list Z) (Context : AES_CONTEXT) (Data : list Z) (Len : Z)
  : outcome (AES_CONTEXT * list Z) :=
  '(Iv', Data) ← while_ (S (Z.to_nat Len)) (CtrStep Context.(RoundKey) Len)
    (0, AES_BLOCK_SIZE, Context.(Iv), Buffer, Data);
  Ret ({| RoundKey := Context.(RoundKey); Iv := Iv' |}, Data).

End Modes.

Definition aes128 : AesConfig := {| CONFIG_AES_KEY_SIZE := 16 |}.
Definition aes192 : AesConfig := {| CONFIG_AES_KEY_SIZE := 24 |}.
Definition aes256 : AesConfig := {| CONFIG_AES_KEY_SIZE := 32 |}.
#[export] Instance aes128_ok : AesConfigOk aes128. Proof. constructor. by left. Qed.
#[export] Instance aes192_ok : AesConfigOk aes192. Proof. constructor. by right; left. Qed.
#[export] Instance aes256_ok : AesConfigOk aes256. Proof. constructor. by right; right. Qed.

Definition zero_context (Cfg : AesConfig) : AES_CONTEXT :=
  {| RoundKey := replicate (Z.to_nat AES_KEY_EXP_SIZE) 0; Iv := replicate 16 0 |}.

(** The example vectors of appendix C of FIPS 197, for the three key sizes. *)
Definition fips_vector (Cfg : AesConfig) : outcome (list Z) :=
  C ← AesInitCtxIv (zero_context Cfg) (Z.of_nat <$> seq 0 32) (replicate 16 0);
  Cipher ((fun i => 0x11 * Z.of_nat i) <$> seq 0 16) C.(RoundKey).

Example fips_vectors :
  fips_vector aes128 = Ret [0x69; 0xc4; 0xe0; 0xd8; 0x6a; 0x7b; 0x04; 0x30; 0xd8; 0xcd; 0xb7; 0x80; 0x70; 0xb4; 0xc5; 0x5a]
  /\ fips_vector aes192 = Ret [0xdd; 0xa9; 0x7c; 0xa4; 0x86; 0x4c; 0xdf; 0xe0; 0x6e; 0xaf; 0x70; 0xa0; 0xec; 0x0d; 0x71; 0x91]
  /\ fips_vector aes256 = Ret [0x8e; 0xa2; 0xb7; 0xca; 0x51; 0x67; 0x45; 0xbf; 0xea; 0xfc; 0x49; 0x90; 0x4b; 0x49; 0x60; 0x89].
Proof. by vm_compute. Qed.

(** ** FIPS 197

    The field: polynomials over GF(2) modulo x^8 + x^4 + x^3 + x + 1. *)
Definition clmul (a b : Z) : Z :=
  foldl (fun acc i => if Z.testbit b i then Z.lxor acc (Z.shiftl a i) else acc) 0 [0; 1; 2; 3; 4; 5; 6; 7].
Definition gf_reduce (p : Z) : Z :=
  foldl (fun p i => if Z.testbit p i then Z.lxor p (Z.shiftl 0x11b (i - 8)) else p) p [14; 13; 12; 11; 10; 9; 8].
Definition gf_mul (a b : Z) : Z := gf_reduce (clmul a b).

Definition all_bytes : list Z := Z.of_nat <$> seq 0 256.

(** The inverse (0 for 0) and the affine map of the S-box. *)
Definition gf_inv (x : Z) : Z := default 0 (List.find (fun y => gf_mul x y =? 1) all_bytes).
Definition affine (b : Z) : Z :=
  foldl (fun acc i =>
    Z.lor acc (Z.shiftl (Z.b2z (xorb (Z.testbit 0x63 i)
      (foldl (fun t j => xorb t (Z.testbit b ((i + j) mod 8))) false [0; 4; 5; 6; 7]))) i)) 0 [0; 1; 2; 3; 4; 5; 6; 7].
Definition fips_sbox (x : Z) : Z := affine (gf_inv x).

(** The transformations of the state, by their formulas. *)
Definition fips_sub (St : list Z) : list Z := fips_sbox <$> St.
Definition fips_shift (St : list Z) : list Z :=
  (fun k => St !!! (4 * ((k / 4 + k mod 4) mod 4) + k mod 4)%nat) <$> seq 0 16.
Definition mix_coefficient (r j : nat) : Z := [2; 3; 1; 1] !!! ((j + 4 - r) mod 4)%nat.
Definition fips_mix (St : list Z) : list Z :=
  (fun k => foldl (fun acc j => Z.lxor acc (gf_mul (mix_coefficient (k mod 4) j) (St !!! (4 * (k / 4) + j)%nat)))
    0 (seq 0 4)) <$> seq 0 16.
Definition fips_add : list Z -> list Z -> list Z := zip_with Z.lxor.

(** The key schedule, as a list of words. *)
Definition fips_rcon (i : nat) : Z := Nat.iter (i - 1) (gf_mul 2) 1.
Definition fips_transform (nk i : nat) (t : list Z) : list Z :=
  if decide (i mod nk = 0)%nat then zip_with Z.lxor (fips_sbox <$> (drop 1 t ++ take 1 t)) [fips_rcon (i / nk); 0; 0; 0]
  else if decide (6 < nk /\ i mod nk = 4)%nat then fips_sbox <$> t else t.
Definition fips_next (nk : nat) (W : list (list Z)) (i : nat) : list Z :=
  zip_with Z.lxor (W !!! (i - nk)%nat) (fips_transform nk i (W !!! (i - 1)%nat)).
Fixpoint fips_words (nk n : nat) (key : list Z) : list (list Z) :=
  match n with
  | O => (fun i => take 4 (drop (4 * i) key)) <$> seq 0 nk
  | S n => let W := fips_words nk n key in W ++ [fips_next nk W (nk + n)]
  end.
Definition fips_schedule (nk nr : nat) (key : list Z) : list (list Z) := fips_words nk (4 * (nr + 1) - nk) key.
Definition round_key (W : list (list Z)) (r : nat) : list Z := concat (take 4 (drop (4 * r) W)).

(** The state after round [r], and the cipher. *)
Fixpoint fips_state (W : list (list Z)) (r : nat) (block : list Z) : list Z :=
  match r with
  | O => fips_add block (round_key W 0)
  | S r' => fips_add (fips_mix (fips_shift (fips_sub (fips_state W r' block)))) (round_key W r)
  end.
Definition fips_cipher (W : list (list Z)) (nr : nat) (block : list Z) : list Z :=
  fips_add (fips_shift (fips_sub (fips_state W (nr - 1) block))) (round_key W nr).

(** ** Lemmas on the field *)
Lemma byte_check (P : Z -> bool) : forallb P all_bytes = true -> forall x, is_byte x -> P x = true.
Proof.
  intros H x Hx. rewrite forallb_forall in H. apply H. unfold all_bytes. unfold is_byte, in_width in Hx.
  rewrite <- (Z2Nat.id x) by lia. apply in_map, in_seq. lia.
Qed.

(** Two functions agree on every byte, by evaluation. *)
Ltac check_bytes :=
  intros; apply Z.eqb_eq;
  match goal with
  | Hx : is_byte ?x |- ?b = true => pattern x in |- *; revert x Hx; apply byte_check; vm_compute; reflexivity
  end.

Lemma Sbox_fips x : is_byte x -> GetSboxValue x = fips_sbox x.
Proof. check_bytes. Qed.

Lemma RsBox_Sbox x : is_byte x -> GetSBoxInvert (GetSboxValue x) = x.
Proof. check_bytes. Qed.

Lemma gf_mul_2 x : is_byte x -> gf_mul 2 x = XTime x.
Proof. check_bytes. Qed.
Lemma gf_mul_3 x : is_byte x -> gf_mul 3 x = Z.lxor (XTime x) x.
Proof. check_bytes. Qed.
Lemma gf_mul_1 x : is_byte x -> gf_mul 1 x = x.
Proof. check_bytes. Qed.

Lemma XTime_byte x : is_byte (XTime x).
Proof. apply wrap_in_width. lia. Qed.

Lemma GetSboxValue_byte x : is_byte (GetSboxValue x).
Proof.
  unfold GetSboxValue. assert (Forall is_byte Sbox) as H by (apply (bool_decide_unpack _); by vm_compute).
  destruct (Sbox !! Z.to_nat x) as [y|] eqn:E.
  - rewrite (list_lookup_total_correct _ _ _ E). exact (Forall_lookup_1 _ _ _ _ H E).
  - rewrite (list_lookup_total_alt Sbox), E. simpl. unfold is_byte, in_width. simpl. lia.
Qed.

Lemma XTime_lxor x y : is_byte x -> is_byte y -> XTime (Z.lxor x y) = Z.lxor (XTime x) (XTime y).
Proof.
  intros Hx Hy. apply Z.eqb_eq. revert y Hy. apply byte_check. revert x Hx.
  apply (byte_check (fun x => forallb (fun y => XTime (Z.lxor x y) =? Z.lxor (XTime x) (XTime y)) all_bytes)).
  vm_compute. reflexivity.
Qed.

Lemma lxor_is_byte x y : is_byte x -> is_byte y -> is_byte (Z.lxor x y).
Proof.
  intros Hx Hy. pose proof (lxor_bytes [x] [y]) as H. simpl in H.
  apply Forall_cons_1 in H; [by destruct H|by apply Forall_singleton|by apply Forall_singleton].
Qed.

(** Equations between sums in the field. *)
Ltac xor_solve := apply Z.bits_inj'; intros ? ?; rewrite ?Z.lxor_spec, ?Z.bits_0; btauto.

(** ** Lemmas on the state *)

(** A list of sixteen cells, written out. *)
Ltac cells St HL :=
  do 16 (destruct St as [|? St]; [discriminate HL|]); destruct St; [clear HL|discriminate HL].

Lemma MapCells_fmap f St : length St = 16%nat -> MapCells f St = f <$> St.
Proof. intros HL. cells St HL. reflexivity. Qed.

Lemma SubBytes_fips St : length St = 16%nat -> Forall is_byte St -> SubBytes St = fips_sub St.
Proof.
  intros HL HB. unfold SubBytes. rewrite MapCells_fmap by done. apply list_fmap_ext. intros i x Hx.
  apply Sbox_fips. exact (Forall_lookup_1 _ _ _ _ HB Hx).
Qed.

Lemma InvSubBytes_SubBytes St : length St = 16%nat -> Forall is_byte St -> InvSubBytes (SubBytes St) = St.
Proof.
  intros HL HB. unfold InvSubBytes, SubBytes. rewrite (MapCells_fmap GetSboxValue) by done.
  rewrite MapCells_fmap by (by rewrite length_fmap). rewrite <- list_fmap_compose. rewrite <- (list_fmap_id St) at 2.
  apply list_fmap_ext. intros i x Hx. apply RsBox_Sbox. exact (Forall_lookup_1 _ _ _ _ HB Hx).
Qed.

Lemma ShiftRows_fips St : length St = 16%nat -> ShiftRows St = fips_shift St.
Proof. intros HL. cells St HL. reflexivity. Qed.

Lemma InvShiftRows_ShiftRows St : length St = 16%nat -> InvShiftRows (ShiftRows St) = St.
Proof. intros HL. cells St HL. reflexivity. Qed.

(** One column of the mixed state, and of the inverse. *)
Definition mix_cell (a b Tmp : Z) : Z -> Z := fun x => Z.lxor x (Z.lxor (XTime (Z.lxor a b)) Tmp).
Definition mix_col (a b c d : Z) : list Z :=
  let Tmp := Z.lxor (Z.lxor (Z.lxor a b) c) d in
  [mix_cell a b Tmp a; mix_cell b c Tmp b; mix_cell c d Tmp c; mix_cell d a Tmp d].
Definition inv_col (A B C D : Z) : list Z :=
  [MultiplyRow A B C D 0x0e 0x0b 0x0d 0x09; MultiplyRow A B C D 0x09 0x0e 0x0b 0x0d;
   MultiplyRow A B C D 0x0d 0x09 0x0e 0x0b; MultiplyRow A B C D 0x0b 0x0d 0x09 0x0e].

Lemma MixColumns_cols s0 s1 s2 s3 s4 s5 s6 s7 s8 s9 s10 s11 s12 s13 s14 s15 :
  MixColumns [s0; s1; s2; s3; s4; s5; s6; s7; s8; s9; s10; s11; s12; s13; s14; s15]
  = mix_col s0 s1 s2 s3 ++ mix_col s4 s5 s6 s7 ++ mix_col s8 s9 s10 s11 ++ mix_col s12 s13 s14 s15.
Proof. reflexivity. Qed.

Lemma InvMixColumns_cols s0 s1 s2 s3 s4 s5 s6 s7 s8 s9 s10 s11 s12 s13 s14 s15 :
  InvMixColumns [s0; s1; s2; s3; s4; s5; s6; s7; s8; s9; s10; s11; s12; s13; s14; s15]
  = inv_col s0 s1 s2 s3 ++ inv_col s4 s5 s6 s7 ++ inv_col s8 s9 s10 s11 ++ inv_col s12 s13 s14 s15.
Proof. reflexivity. Qed.

Lemma mix_cell_fips a b c d Tmp :
  is_byte a -> is_byte b -> is_byte c -> is_byte d -> Tmp = Z.lxor (Z.lxor (Z.lxor a b) c) d ->
  mix_cell a b Tmp a = Z.lxor (Z.lxor (Z.lxor (gf_mul 2 a) (gf_mul 3 b)) (gf_mul 1 c)) (gf_mul 1 d).
Proof.
  intros Ha Hb Hc Hd ->. rewrite gf_mul_2, gf_mul_3, !gf_mul_1 by done. unfold mix_cell. rewrite XTime_lxor by done. xor_solve.
Qed.

Lemma mix_col_fips a b c d :
  is_byte a -> is_byte b -> is_byte c -> is_byte d ->
  mix_col a b c d =
  (fun r => foldl (fun acc j => Z.lxor acc (gf_mul (mix_coefficient r j) ([a; b; c; d] !!! j))) 0 (seq 0 4)) <$> seq 0 4.
Proof.
  intros Ha Hb Hc Hd. cbn [seq fmap list_fmap foldl lookup_total list_lookup_total].
  repeat match goal with |- context [mix_coefficient ?r ?j] =>
    let v := eval vm_compute in (mix_coefficient r j) in change (mix_coefficient r j) with v end.
  rewrite !Z.lxor_0_l. unfold mix_col.
  rewrite (mix_cell_fips a b c d), (mix_cell_fips b c d a), (mix_cell_fips c d a b), (mix_cell_fips d a b c) by (done || xor_solve).
  repeat (apply (f_equal2 (@cons Z)); [xor_solve|]). reflexivity.
Qed.

Lemma MixColumns_fips St : length St = 16%nat -> Forall is_byte St -> MixColumns St = fips_mix St.
Proof.
  intros HL HB. cells St HL. repeat (apply Forall_cons in HB as [? HB]).
  rewrite MixColumns_cols, !mix_col_fips by done. unfold fips_mix. generalize gf_mul. intros mul. vm_compute. reflexivity.
Qed.

(** The products with the constants of the inverse matrix. *)
Ltac expand_product x :=
  unfold Multiply;
  generalize (XTime (XTime (XTime (XTime x)))), (XTime (XTime (XTime x))), (XTime (XTime x)), (XTime x);
  intros; cbn - [Z.lxor Z.mul]; rewrite !Z.mul_0_l, !Z.mul_1_l; xor_solve.

Lemma Multiply_09 x : Multiply x 0x09 = Z.lxor x (XTime (XTime (XTime x))).
Proof. expand_product x. Qed.
Lemma Multiply_0b x : Multiply x 0x0b = Z.lxor (Z.lxor x (XTime x)) (XTime (XTime (XTime x))).
Proof. expand_product x. Qed.
Lemma Multiply_0d x : Multiply x 0x0d = Z.lxor (Z.lxor x (XTime (XTime x))) (XTime (XTime (XTime x))).
Proof. expand_product x. Qed.
Lemma Multiply_0e x : Multiply x 0x0e = Z.lxor (Z.lxor (XTime x) (XTime (XTime x))) (XTime (XTime (XTime x))).
Proof. expand_product x. Qed.

#[local] Hint Resolve lxor_is_byte XTime_byte : oc.

Lemma inv_mix_col a b c d :
  is_byte a -> is_byte b -> is_byte c -> is_byte d ->
  match mix_col a b c d with [A; B; C; D] => inv_col A B C D = [a; b; c; d] | _ => False end.
Proof.
  intros Ha Hb Hc Hd. unfold mix_col, inv_col, MultiplyRow, mix_cell.
  rewrite ?Multiply_09, ?Multiply_0b, ?Multiply_0d, ?Multiply_0e.
  rewrite !XTime_lxor by auto 12 with oc.
  assert (forall x y, is_byte y -> x = y -> wrap 8 x = y) as K by (intros ? ? ? ->; by apply wrap_small).
  repeat (apply (f_equal2 (@cons Z)); [apply K; [done|xor_solve]|]). reflexivity.
Qed.

Lemma InvMixColumns_MixColumns St : length St = 16%nat -> Forall is_byte St -> InvMixColumns (MixColumns St) = St.
Proof.
  intros HL HB. cells St HL. repeat (apply Forall_cons in HB as [? HB]). rewrite MixColumns_cols.
  repeat match goal with |- context [mix_col ?a ?b ?c ?d] =>
    let H := fresh in pose proof (inv_mix_col a b c d) as H; destruct (mix_col a b c d) as [|? [|? [|? [|? [|]]]]];
    try (exfalso; apply H; done) end.
  cbn [app]. rewrite InvMixColumns_cols. by repeat match goal with H : _ -> _ -> _ -> _ -> _ = _ |- _ => rewrite H by done; clear H end.
Qed.

(** ** Lengths and bytes of the states *)
Definition block_ok (St : list Z) : Prop := length St = 16%nat /\ Forall is_byte St.

Lemma fips_add_ok St K : block_ok St -> block_ok K -> block_ok (fips_add St K).
Proof.
  intros [H1 H2] [H3 H4]. split; [unfold fips_add; rewrite length_zip_with; lia|by apply lxor_bytes].
Qed.

Lemma fips_add_twice St K : length St = 16%nat -> length K = 16%nat -> fips_add (fips_add St K) K = St.
Proof.
  unfold fips_add. intros H1 H2. assert (length St = length K) as E by lia. clear H1 H2. revert K E.
  induction St as [|a St IH]; intros [|k K] E; simpl in *; try done.
  rewrite Z.lxor_assoc, Z.lxor_nilpotent, Z.lxor_0_r. f_equal. apply IH. lia.
Qed.

Lemma SubBytes_ok St : block_ok St -> block_ok (SubBytes St).
Proof.
  intros [H1 H2]. unfold SubBytes. rewrite MapCells_fmap by done. split; [by rewrite length_fmap|].
  apply Forall_fmap, Forall_forall. intros x _. apply GetSboxValue_byte.
Qed.

Lemma ShiftRows_ok St : block_ok St -> block_ok (ShiftRows St).
Proof.
  intros [HL HB]. cells St HL. split; [reflexivity|]. repeat (apply Forall_cons in HB as [? HB]).
  cbn. repeat (apply Forall_cons; split; [assumption|]). done.
Qed.

Lemma mix_col_bytes a b c d : is_byte a -> is_byte b -> is_byte c -> is_byte d -> Forall is_byte (mix_col a b c d).
Proof.
  intros Ha Hb Hc Hd. unfold mix_col, mix_cell. repeat (apply Forall_cons; split; [auto 12 with oc|]). done.
Qed.

Lemma MixColumns_ok St : block_ok St -> block_ok (MixColumns St).
Proof.
  intros [HL HB]. cells St HL. repeat (apply Forall_cons in HB as [? HB]). rewrite MixColumns_cols.
  split; [reflexivity|]. rewrite !Forall_app. auto using mix_col_bytes.
Qed.

#[local] Hint Resolve fips_add_ok SubBytes_ok ShiftRows_ok MixColumns_ok : oc.

(** ** Round keys *)
Section Rounds.
Context {Cfg : AesConfig} {HCfg : AesConfigOk Cfg}.

Lemma config_bounds : Nk = CONFIG_AES_KEY_SIZE / 4 /\ Nr = Nk + 6 /\ AES_KEY_EXP_SIZE = 16 * (Nr + 1)
  /\ (Nk = 4 \/ Nk = 6 \/ Nk = 8) /\ CONFIG_AES_KEY_SIZE = 4 * Nk.
Proof. unfold Nk, Nr, AES_KEY_EXP_SIZE. destruct key_size_ok as [->|[->| ->]]; vm_compute; auto 12. Qed.

Definition key_at (RK : list Z) (r : Z) : list Z := slice RK (16 * r) 16.

Lemma key_at_ok RK r :
  Z.of_nat (length RK) = AES_KEY_EXP_SIZE -> Forall is_byte RK -> 0 <= r <= Nr -> block_ok (key_at RK r).
Proof using HCfg.
  intros HL HB Hr. destruct config_bounds as (_ & _ & HE & _). split.
  - unfold key_at. rewrite slice_length; lia.
  - by apply Forall_take, Forall_drop.
Qed.

Lemma AddRoundKey_spec r St RK :
  Z.of_nat (length RK) = AES_KEY_EXP_SIZE -> 0 <= r <= Nr -> length St = 16%nat ->
  AddRoundKey r St RK = Ret (fips_add St (key_at RK r)).
Proof using HCfg.
  intros HL Hr HS. destruct config_bounds as (_ & _ & HE & _).
  assert (length (key_at RK r) = 16%nat) as HK by (unfold key_at; rewrite slice_length; lia).
  set (ys := fips_add St (key_at RK r)).
  assert (length ys = 16%nat) as HY by (subst ys; unfold fips_add; rewrite length_zip_with; lia).
  unfold AddRoundKey.
  destruct (for_total (fun I St0 => for_ 4 0 (fun J St0 =>
      k ← rd RK (r * Nb * 4 + I * Nb + J); s ← rd St0 (4 * I + J); wr St0 (4 * I + J) (Z.lxor s k)) St0)
    (fun I s => 0 <= I <= 4 /\ s = list_inserts 0 (take (Z.to_nat (4 * I)) ys) St) 4 0 St) as (s & E & _ & Hs).
  - done.
  - intros I s HI [_ ->]. set (xs := take 4 (drop (Z.to_nat (4 * I)) ys)).
    assert (length xs = 4%nat) as HX by (subst xs; rewrite length_take, length_drop; lia).
    eexists. split.
    + cbv beta. change 4%nat with (Nat.add 4 0) at 1. replace (4 + 0)%nat with (length xs) by lia.
      apply (for_fill _ (4 * I)); [lia|rewrite length_inserts; lia|]. intros i x Hx.
      assert (i < 4)%nat as Hi by (apply lookup_lt_Some in Hx; lia).
      subst xs. rewrite lookup_take_lt, lookup_drop in Hx by lia. subst ys. unfold fips_add in Hx.
      apply lookup_zip_with_Some in Hx as (a & b & -> & Ha & Hb). unfold key_at in Hb.
      rewrite lookup_slice in Hb by lia.
      rewrite (rd_lookup RK _ b); [|unfold Nb; lia|unfold Nb; rewrite <- Hb; f_equal; lia]. cbv zeta. cbn [mbind outcome_bind].
      erewrite rd_lookup; [reflexivity|lia|].
      rewrite lookup_inserts by (rewrite length_inserts, !length_take, ?length_drop; lia).
      rewrite !length_take, length_drop. rewrite decide_False by lia.
      rewrite lookup_inserts by (rewrite length_take; lia). rewrite length_take, decide_False by lia.
      rewrite <- Ha. f_equal. lia.
    + split; [lia|]. replace (Z.to_nat (4 * (I + 1))) with (Z.to_nat (4 * I) + 4)%nat by lia.
      rewrite <- take_take_drop. fold xs. rewrite <- inserts_inserts by (rewrite length_take; lia).
      f_equal. rewrite length_take. lia.
  - rewrite E. do 2 f_equal. rewrite Hs. rewrite firstn_all2 by lia. by apply inserts_all; lia.
Qed.

(** The state after round [r], by the functions of the code. *)
Fixpoint state_at (RK : list Z) (r : nat) (block : list Z) : list Z :=
  match r with
  | O => fips_add block (key_at RK 0)
  | S r' => fips_add (MixColumns (ShiftRows (SubBytes (state_at RK r' block)))) (key_at RK (Z.of_nat r))
  end.

Context (RK : list Z) (HL : Z.of_nat (length RK) = AES_KEY_EXP_SIZE) (HB : Forall is_byte RK).

Lemma state_at_ok r block : Z.of_nat r <= Nr -> block_ok block -> block_ok (state_at RK r block).
Proof using HL HB HCfg.
  intros Hr Hb. induction r as [|r IH]; cbn [state_at].
  - apply fips_add_ok; [done|]. apply key_at_ok; try done; lia.
  - apply fips_add_ok; [|apply key_at_ok; try done; lia]. auto with oc lia.
Qed.

Lemma Cipher_run block : block_ok block ->
  Cipher block RK = Ret (fips_add (ShiftRows (SubBytes (state_at RK (Z.to_nat (Nr - 1)) block))) (key_at RK Nr)).
Proof using HL HB HCfg.
  intros Hb. destruct config_bounds as (_ & HN & _ & HK & _). unfold Cipher.
  rewrite AddRoundKey_spec by (done || lia || apply Hb). cbn [mbind outcome_bind].
  destruct (for_total (fun Round St => AddRoundKey Round (MixColumns (ShiftRows (SubBytes St))) RK)
    (fun r s => 1 <= r <= Nr /\ s = state_at RK (Z.to_nat (r - 1)) block) (Z.to_nat (Nr - 1)) 1 (fips_add block (key_at RK 0)))
    as (s & -> & _ & ->).
  - split; [lia|done].
  - intros r s Hr [_ ->]. assert (block_ok (state_at RK (Z.to_nat (r - 1)) block)) as Hs by (apply state_at_ok; [lia|done]).
    eexists. split.
    { apply AddRoundKey_spec; [done|lia|]. by apply MixColumns_ok, ShiftRows_ok, SubBytes_ok. }
    split; [lia|]. replace (Z.to_nat (r + 1 - 1)) with (S (Z.to_nat (r - 1))) by lia. cbn [state_at].
    do 2 f_equal. lia.
  - cbn [mbind outcome_bind]. replace (1 + Z.of_nat (Z.to_nat (Nr - 1)) - 1) with (Nr - 1) by lia.
    apply AddRoundKey_spec; [done|lia|]. apply ShiftRows_ok, SubBytes_ok, state_at_ok; [lia|done].
Qed.

(** The inverse cipher undoes the cipher. *)
Lemma InvCipher_Cipher block : block_ok block ->
  exists c, Cipher block RK = Ret c /\ block_ok c /\ InvCipher c RK = Ret block.
Proof using HL HB HCfg.
  intros Hb. destruct config_bounds as (_ & HN & _ & HK & _). eexists. split; [by apply Cipher_run|].
  assert (forall r, Z.of_nat r < Nr -> block_ok (state_at RK r block)) as Hst by (intros; apply state_at_ok; [lia|done]).
  set (x r := ShiftRows (SubBytes (state_at RK r block))).
  assert (forall r, Z.of_nat r < Nr -> block_ok (x r)) as Hx by (intros r Hr; apply ShiftRows_ok, SubBytes_ok, Hst; done).
  assert (forall r, Z.of_nat r < Nr -> InvSubBytes (InvShiftRows (x r)) = state_at RK r block) as Hinv.
  { intros r Hr. unfold x. destruct (Hst r Hr) as [K1 K2]. rewrite InvShiftRows_ShiftRows by (by apply SubBytes_ok).
    by apply InvSubBytes_SubBytes. }
  fold (x (Z.to_nat (Nr - 1))). assert (block_ok (key_at RK Nr)) as HKN by (apply key_at_ok; try done; lia).
  split; [apply fips_add_ok; [apply Hx; lia|done]|].
  unfold InvCipher. rewrite AddRoundKey_spec; [|done|lia|]. 2: { apply fips_add_ok; [apply Hx; lia|done]. }
  cbn [mbind outcome_bind]. rewrite fips_add_twice by (apply Hx || apply HKN; lia).
  oc_while (fun s : Z * list Z => 0 <= s.1 < Nr /\ s.2 = x (Z.to_nat s.1)) (fun s : Z * list Z => Z.to_nat s.1)
    (fun St => St = x 0%nat) as St HSt.
  - intros [r St] [Hr HS]. cbn [fst snd] in Hr, HS. subst St. unfold InvRounds. case_decide as H0.
    + assert (state_at RK (Z.to_nat r) block = fips_add (MixColumns (x (Z.to_nat (r - 1)))) (key_at RK r)) as Es.
      { replace (Z.to_nat r) with (S (Z.to_nat (r - 1))) by lia. cbn [state_at]. unfold x. do 2 f_equal. lia. }
      assert (block_ok (MixColumns (x (Z.to_nat (r - 1))))) as Hm by (apply MixColumns_ok, Hx; lia).
      assert (block_ok (key_at RK r)) as Hk by (apply key_at_ok; try done; lia).
      rewrite Hinv by lia. rewrite Es. rewrite AddRoundKey_spec by (done || lia || by apply fips_add_ok).
      cbn [mbind outcome_bind]. eexists. split; [done|]. cbn [fst snd]. split; [split; [lia|]|lia].
      rewrite fips_add_twice by (apply Hm || apply Hk). apply InvMixColumns_MixColumns; apply Hx; lia.
    + eexists. split; [reflexivity|]. cbv beta iota. f_equal. lia.
  - cbn [fst snd]. split; [lia|done].
  - cbn [fst]. lia.
  - cbn [mbind outcome_bind]. rewrite HSt, Hinv by lia. rewrite AddRoundKey_spec by (done || lia || apply Hst; lia).
    cbn [state_at]. rewrite fips_add_twice; [done|apply Hb|]. apply key_at_ok; try done; lia.
Qed.

End Rounds.

(** ** Key expansion *)
Section Schedule.
Context {Cfg : AesConfig} {HCfg : AesConfigOk Cfg}.

Abbreviation nk := (Z.to_nat Nk).
Abbreviation nr := (Z.to_nat Nr).

Lemma Rcon_fips i : (1 <= i <= 10)%nat -> rd Rcon (Z.of_nat i) = Ret (fips_rcon i).
Proof. intros Hi. do 11 (destruct i as [|i]; [try lia; vm_compute; reflexivity|]). lia. Qed.

Lemma fmap_sbox t : Forall is_byte t -> GetSboxValue <$> t = fips_sbox <$> t.
Proof.
  intros HB. apply list_fmap_ext. intros i x Hx. apply Sbox_fips. exact (Forall_lookup_1 _ _ _ _ HB Hx).
Qed.

Lemma TransformWord_spec i t :
  (nk <= i)%nat -> Z.of_nat i < 4 * (Nr + 1) -> length t = 4%nat -> Forall is_byte t ->
  TransformWord (Z.of_nat i) t = Ret (fips_transform nk i t).
Proof using HCfg.
  intros Hi Hi2 Ht HB. destruct config_bounds as (_ & HN & _ & HK & HC). unfold TransformWord, fips_transform.
  assert (Z.of_nat i mod Nk = Z.of_nat (i mod nk)) as Em by (rewrite Nat2Z.inj_mod, Z2Nat.id by lia; done).
  assert (Z.of_nat i / Nk = Z.of_nat (i / nk)) as Ed by (rewrite Nat2Z.inj_div, Z2Nat.id by lia; done).
  rewrite Em, Ed, HC. destruct (decide (i mod nk = 0)%nat) as [H0|H0].
  - rewrite decide_True by lia. rewrite Rcon_fips.
    2: { split; [apply Nat.div_le_lower_bound; lia|]. apply Nat.lt_succ_r, Nat.Div0.div_lt_upper_bound; lia. }
    cbn [mbind outcome_bind]. rewrite decide_False by lia.
    destruct t as [|t0 [|t1 [|t2 [|t3 [|]]]]]; try discriminate Ht. f_equal.
    generalize (fips_rcon (i / nk)). intros c.
    change (<[0%nat := Z.lxor (GetSboxValue t1) c]> (GetSboxValue <$> [t1; t2; t3; t0])
      = zip_with Z.lxor (fips_sbox <$> [t1; t2; t3; t0]) [c; 0; 0; 0]).
    rewrite <- fmap_sbox. 2: { repeat (apply Forall_cons in HB as [? HB]). repeat (apply Forall_cons; split; [done|]). done. }
    generalize GetSboxValue. intros f. cbn. by rewrite !Z.lxor_0_r.
  - rewrite decide_False by lia. cbn [mbind outcome_bind]. destruct (decide (6 < nk /\ i mod nk = 4)%nat).
    + rewrite decide_True by lia. by rewrite fmap_sbox.
    + rewrite decide_False by lia. done.
Qed.

Lemma Rcon_bytes : Forall is_byte Rcon.
Proof. apply (bool_decide_unpack _). by vm_compute. Qed.

Lemma TransformWord_ok i t T :
  TransformWord i t = Ret T -> length t = 4%nat -> Forall is_byte t -> length T = 4%nat /\ Forall is_byte T.
Proof using.
  intros E Ht HB. unfold TransformWord in E.
  assert (forall l, Forall is_byte (GetSboxValue <$> l)) as HS
    by (intros l; apply Forall_fmap, Forall_forall; intros x _; apply GetSboxValue_byte).
  assert (forall l : list Z, length (GetSboxValue <$> l) = length l) as HSl by (intros; apply length_fmap).
  apply bind_Ret in E as (u & Eu & [= <-]).
  assert (length u = 4%nat /\ Forall is_byte u) as [Hu1 Hu2].
  { case_decide; [|by injection Eu as <-]. apply bind_Ret in Eu as (c & Ec & [= <-]). apply rd_Ret in Ec as [_ Ec].
    assert (is_byte c) as Hc by exact (Forall_lookup_1 _ _ _ _ Rcon_bytes Ec).
    rewrite length_insert, HSl, !length_insert. split; [done|]. apply Forall_insert; [apply HS|].
    apply lxor_is_byte; [|done]. apply (Forall_lookup_total_1 is_byte _ 0); [apply HS|]. rewrite HSl, !length_insert. lia. }
  clear Eu. case_decide; [|done]. split; [by rewrite HSl|apply HS].
Qed.

(** The words [W] are in place at the front of the round key. *)
Definition words_in (W : list (list Z)) (RK : list Z) : Prop :=
  forall i w, W !! i = Some w -> slice RK (4 * Z.of_nat i) 4 = w /\ length w = 4%nat /\ Forall is_byte w.

Lemma fips_words_length n key : length (fips_words nk n key) = (nk + n)%nat.
Proof using. induction n as [|n IH]; cbn [fips_words]; [by rewrite length_fmap, length_seq, Nat.add_0_r|]. rewrite length_app, IH. simpl. lia. Qed.

Lemma CopyKey_spec (Key RK : list Z) :
  Z.of_nat (length RK) = AES_KEY_EXP_SIZE -> CONFIG_AES_KEY_SIZE <= Z.of_nat (length Key) ->
  for_ nk 0 (CopyKeyWord Key) RK = Ret (list_inserts 0 (take (4 * nk) Key) RK).
Proof using HCfg.
  intros HL HKey. destruct config_bounds as (_ & HN & HE & HK & HC).
  destruct (for_total (CopyKeyWord Key) (fun I s => 0 <= I <= Nk /\ s = list_inserts 0 (take (Z.to_nat (4 * I)) Key) RK) nk 0 RK)
    as (s & -> & _ & ->).
  - split; [lia|]. done.
  - intros I s HI [_ ->]. set (xs := take 4 (drop (Z.to_nat (4 * I)) Key)).
    assert (length xs = 4%nat) as HX by (subst xs; rewrite length_take, length_drop; lia).
    eexists. split.
    + unfold CopyKeyWord. change 4%nat with (Nat.add 4 0) at 1. replace (4 + 0)%nat with (length xs) by lia.
      apply (for_fill _ (4 * I)); [lia|rewrite length_inserts; lia|]. intros i x Hx.
      assert (i < 4)%nat as Hi by (apply lookup_lt_Some in Hx; lia).
      subst xs. rewrite lookup_take_lt, lookup_drop in Hx by lia. cbv zeta. replace (I * 4) with (4 * I) by lia.
      erewrite rd_lookup; [reflexivity|lia|]. rewrite <- Hx. f_equal. lia.
    + split; [lia|]. replace (Z.to_nat (4 * (I + 1))) with (Z.to_nat (4 * I) + 4)%nat by lia.
      rewrite <- take_take_drop. fold xs. rewrite <- inserts_inserts by (rewrite length_take; lia).
      f_equal. rewrite length_take. lia.
  - do 4 f_equal. lia.
Qed.

Lemma ExpandWord_spec key n RK :
  Z.of_nat (length RK) = AES_KEY_EXP_SIZE -> Z.of_nat (nk + n) < 4 * (Nr + 1) ->
  words_in (fips_words nk n key) RK ->
  exists RK', ExpandWord (Z.of_nat (nk + n)) RK = Ret RK' /\ length RK' = length RK
    /\ words_in (fips_words nk (S n) key) RK'.
Proof using HCfg.
  intros HL Hn HW. destruct config_bounds as (_ & HN & HE & HK & HC).
  pose proof (fips_words_length n key) as HWl. set (W := fips_words nk n key) in *.
  destruct (lookup_lt_is_Some_2 W (nk + n - 1)) as [t Ht]; [lia|].
  destruct (lookup_lt_is_Some_2 W n) as [u Hu]; [lia|].
  destruct (HW _ _ Ht) as (Ht1 & Ht2 & Ht3). destruct (HW _ _ Hu) as (Hu1 & Hu2 & Hu3).
  unfold ExpandWord. rewrite rd_slice_in by lia.
  replace (slice RK ((Z.of_nat (nk + n) - 1) * 4) 4) with t by (rewrite <- Ht1; f_equal; lia).
  cbn [mbind outcome_bind]. rewrite TransformWord_spec by (done || lia). cbn [mbind outcome_bind].
  set (T := fips_transform nk (nk + n) t). set (w := zip_with Z.lxor u T).
  assert (fips_next nk W (nk + n) = w) as Ew.
  { unfold fips_next, w, T. rewrite (list_lookup_total_correct _ _ _ Ht).
    replace (nk + n - nk)%nat with n by lia. by rewrite (list_lookup_total_correct _ _ _ Hu). }
  assert (length T = 4%nat /\ Forall is_byte T) as [HT1 HT2].
  { assert (nk <= nk + n)%nat as Hle by lia.
    exact (TransformWord_ok _ _ _ (TransformWord_spec (nk + n) t Hle Hn Ht2 Ht3) Ht2 Ht3). }
  assert (length w = 4%nat) as Hwl by (subst w; rewrite length_zip_with; lia).
  assert (Forall is_byte w) as Hwb by (by apply lxor_bytes).
  exists (list_inserts (Z.to_nat (4 * Z.of_nat (nk + n))) w RK). split; [|split].
  - change 4%nat with (Nat.add 4 0) at 1. replace (4 + 0)%nat with (length w) by lia.
    apply (for_fill _ (4 * Z.of_nat (nk + n))); [lia|lia|]. intros i x Hx. cbv zeta.
    pose proof (lookup_lt_Some _ _ _ Hx) as Hi. unfold w in Hx. apply lookup_zip_with_Some in Hx as (a & b & -> & Ha & Hb).
    rewrite (rd_lookup (list_inserts _ _ _) _ a).
    + cbn [mbind outcome_bind]. rewrite (rd_nat T i b) by done. cbn [mbind outcome_bind].
      by replace (Z.of_nat (nk + n) * 4) with (4 * Z.of_nat (nk + n)) by lia.
    + lia.
    + rewrite lookup_inserts by (rewrite length_take; lia). rewrite length_take, decide_False by lia.
      rewrite <- Hu1 in Ha. rewrite lookup_slice in Ha by lia. rewrite <- Ha. f_equal. lia.
  - by rewrite length_inserts.
  - intros i v Hv. cbn [fips_words] in Hv. fold W in Hv. destruct (decide (i < length W)%nat) as [H1|H1].
    + rewrite lookup_app_l in Hv by done. destruct (HW _ _ Hv) as (E & ? & ?). split; [|done]. rewrite <- E.
      apply slice_ext; [lia..|]. intros j Hj. rewrite lookup_inserts by lia. by rewrite decide_False by lia.
    + apply lookup_app_Some in Hv as [Hv|[_ Hv]]; [apply lookup_lt_Some in Hv; lia|].
      apply list_lookup_singleton_Some in Hv as [Hv <-]. assert (i = nk + n)%nat as -> by lia. rewrite Ew. split; [|done].
      pose proof (slice_inserts_same RK w (4 * Z.of_nat (nk + n))) as K. rewrite Hwl in K. apply K; lia.
Qed.

Lemma KeyExpansion_spec (Key RK : list Z) :
  Z.of_nat (length RK) = AES_KEY_EXP_SIZE -> CONFIG_AES_KEY_SIZE <= Z.of_nat (length Key) -> Forall is_byte Key ->
  exists RK', KeyExpansion RK Key = Ret RK' /\ length RK' = length RK /\ words_in (fips_schedule nk nr Key) RK'.
Proof using HCfg.
  intros HL HKey HB. destruct config_bounds as (_ & HN & HE & HK & HC). unfold KeyExpansion.
  rewrite CopyKey_spec by done. cbn [mbind outcome_bind]. set (RK0 := list_inserts _ _ _).
  destruct (for_total ExpandWord (fun I s => Nk <= I <= 4 * (Nr + 1) /\ length s = length RK
      /\ words_in (fips_words nk (Z.to_nat (I - Nk)) Key) s) (Z.to_nat (Nb * (Nr + 1) - Nk)) Nk RK0) as (s & -> & _ & H1 & H2).
  - split; [unfold Nb; lia|]. split; [by apply length_inserts|]. rewrite Z.sub_diag. intros i w Hw. cbn [fips_words Z.to_nat] in Hw.
    apply list_lookup_fmap_Some in Hw as (k & -> & Hk). apply lookup_seq in Hk as [-> Hi]. cbn [Nat.add].
    split; [|split; [rewrite length_take, length_drop; lia|by apply Forall_take, Forall_drop]].
    unfold slice. replace (Z.to_nat (4 * Z.of_nat i)) with (4 * i)%nat by lia.
    apply list_eq. intros j. destruct (decide (j < 4)%nat).
    + rewrite !lookup_take_lt, !lookup_drop by lia. unfold RK0. rewrite lookup_inserts by (rewrite length_take; lia).
      rewrite length_take, decide_True by lia. rewrite lookup_take_lt by lia. f_equal. lia.
    + by rewrite !lookup_take_ge by lia.
  - intros I s HI (H1 & H2 & H3). destruct (ExpandWord_spec Key (Z.to_nat (I - Nk)) s) as (s' & E & L & W); [lia|unfold Nb in *; lia|done|].
    replace (Z.of_nat (nk + Z.to_nat (I - Nk))) with I in E by lia. exists s'. split; [done|]. split; [unfold Nb in *; lia|].
    split; [lia|]. by replace (Z.to_nat (I + 1 - Nk)) with (S (Z.to_nat (I - Nk))) by lia.
  - exists s. split; [done|]. split; [done|]. unfold fips_schedule.
    replace (4 * (nr + 1) - nk)%nat with (Z.to_nat (Nk + Z.of_nat (Z.to_nat (Nb * (Nr + 1) - Nk)) - Nk)) by (unfold Nb; lia). done.
Qed.

(** The round keys of the expanded key are those of the schedule. *)
Lemma round_keys W RK r :
  words_in W RK -> Z.of_nat (length RK) = AES_KEY_EXP_SIZE -> (4 * r + 4 <= length W)%nat -> Z.of_nat r <= Nr ->
  key_at RK (Z.of_nat r) = round_key W r.
Proof using HCfg.
  intros HW HL Hr HrN. destruct config_bounds as (_ & HN & HE & _). unfold key_at, round_key.
  destruct (lookup_lt_is_Some_2 W (4 * r)) as [w0 H0]; [lia|]. destruct (lookup_lt_is_Some_2 W (S (4 * r))) as [w1 H1]; [lia|].
  destruct (lookup_lt_is_Some_2 W (S (S (4 * r)))) as [w2 H2]; [lia|]. destruct (lookup_lt_is_Some_2 W (S (S (S (4 * r))))) as [w3 H3]; [lia|].
  rewrite (drop_S _ _ _ H0), (drop_S _ _ _ H1), (drop_S _ _ _ H2), (drop_S _ _ _ H3). cbn [take concat].
  rewrite take_0. cbn [concat].
  destruct (HW _ _ H0) as (E0 & _), (HW _ _ H1) as (E1 & _), (HW _ _ H2) as (E2 & _), (HW _ _ H3) as (E3 & _).
  rewrite <- E0, <- E1, <- E2, <- E3, app_nil_r. unfold slice.
  replace (Z.to_nat (16 * Z.of_nat r)) with (Z.to_nat (4 * Z.of_nat (4 * r))) by lia.
  replace (Z.to_nat (4 * Z.of_nat (S (4 * r)))) with (Z.to_nat (4 * Z.of_nat (4 * r)) + 4)%nat by lia.
  replace (Z.to_nat (4 * Z.of_nat (S (S (4 * r))))) with (Z.to_nat (4 * Z.of_nat (4 * r)) + 4 + 4)%nat by lia.
  replace (Z.to_nat (4 * Z.of_nat (S (S (S (4 * r)))))) with (Z.to_nat (4 * Z.of_nat (4 * r)) + 4 + 4 + 4)%nat by lia.
  rewrite <- !drop_drop. generalize (drop (Z.to_nat (4 * Z.of_nat (4 * r))) RK). intros l.
  change (Z.to_nat 16) with (4 + (4 + (4 + 4)))%nat. change (Z.to_nat 4) with 4%nat. by rewrite <- !take_take_drop.
Qed.

Lemma words_bytes W RK :
  words_in W RK -> Z.of_nat (length RK) = AES_KEY_EXP_SIZE -> length W = (4 * (nr + 1))%nat -> Forall is_byte RK.
Proof using HCfg.
  intros HW HL HWl. destruct config_bounds as (_ & HN & HE & HK & _). apply Forall_lookup. intros i x Hx.
  pose proof (lookup_lt_Some _ _ _ Hx) as Hi.
  destruct (lookup_lt_is_Some_2 W (i / 4)) as [w Hw]; [apply Nat.Div0.div_lt_upper_bound; lia|].
  destruct (HW _ _ Hw) as (E & _ & B). apply (Forall_lookup_1 _ _ (i mod 4)%nat x B).
  rewrite <- E, lookup_slice by (pose proof (Nat.mod_upper_bound i 4); lia). rewrite <- Hx. f_equal.
  pose proof (Nat.div_mod i 4). lia.
Qed.

(** What an expanded key promises to the modes: the cipher of FIPS 197, and
    that the inverse cipher undoes it. *)
Record expanded (Key RK : list Z) : Prop := {
  ex_length : Z.of_nat (length RK) = AES_KEY_EXP_SIZE;
  ex_bytes : Forall is_byte RK;
  ex_cipher block : block_ok block -> Cipher block RK = Ret (fips_cipher (fips_schedule nk nr Key) nr block);
  ex_ok block : block_ok block -> block_ok (fips_cipher (fips_schedule nk nr Key) nr block);
  ex_inverse block : block_ok block -> InvCipher (fips_cipher (fips_schedule nk nr Key) nr block) RK = Ret block
}.

Lemma KeyExpansion_expanded (Key RK : list Z) :
  Z.of_nat (length RK) = AES_KEY_EXP_SIZE -> CONFIG_AES_KEY_SIZE <= Z.of_nat (length Key) -> Forall is_byte Key ->
  exists RK', KeyExpansion RK Key = Ret RK' /\ expanded Key RK'.
Proof using HCfg.
  intros HL HKey HBK. destruct config_bounds as (_ & HN & HE & HK & _).
  destruct (KeyExpansion_spec Key RK HL HKey HBK) as (RK' & E & HL' & HW). exists RK'. split; [done|].
  assert (Z.of_nat (length RK') = AES_KEY_EXP_SIZE) as HLr by lia.
  assert (length (fips_schedule nk nr Key) = 4 * (nr + 1))%nat as HWl by (unfold fips_schedule; rewrite fips_words_length; lia).
  pose proof (words_bytes _ _ HW HLr HWl) as HB.
  remember (fips_schedule nk nr Key) as W eqn:EW.
  assert (forall r, Z.of_nat r <= Nr -> key_at RK' (Z.of_nat r) = round_key W r) as Hkeys by (intros; apply round_keys; done || lia).
  assert (forall block r, block_ok block -> Z.of_nat r < Nr -> state_at RK' r block = fips_state W r block) as Hst.
  { intros block r Hb Hr. induction r as [|r IH]; cbn [state_at fips_state].
    - by rewrite <- Hkeys by lia.
    - rewrite Hkeys by lia. assert (block_ok (state_at RK' r block)) as Hok by (apply state_at_ok; done || lia).
      rewrite <- IH by lia. destruct Hok as [O1 O2].
      pose proof (SubBytes_ok _ (conj O1 O2)) as [P1 P2]. pose proof (ShiftRows_ok _ (conj P1 P2)) as [Q1 Q2].
      by rewrite MixColumns_fips, ShiftRows_fips, SubBytes_fips. }
  assert (forall block, block_ok block -> Cipher block RK' = Ret (fips_cipher W nr block)) as Hc.
  { intros block Hb. rewrite Cipher_run by done. unfold fips_cipher.
    assert (block_ok (state_at RK' (Z.to_nat (Nr - 1)) block)) as [O1 O2] by (apply state_at_ok; done || lia).
    replace (nr - 1)%nat with (Z.to_nat (Nr - 1)) by lia. rewrite <- Hst by (done || lia).
    rewrite <- Hkeys by lia. rewrite Z2Nat.id by lia.
    pose proof (SubBytes_ok _ (conj O1 O2)) as [P1 P2]. by rewrite ShiftRows_fips, SubBytes_fips. }
  assert (forall block, block_ok block -> block_ok (fips_cipher W nr block) /\ InvCipher (fips_cipher W nr block) RK' = Ret block) as Hi.
  { intros block Hb. destruct (InvCipher_Cipher RK' HLr HB block Hb) as (c & Ec & Hok & Hinv).
    rewrite Hc in Ec by done. injection Ec as <-. done. }
  constructor; [done|done|..]; intros block Hb; rewrite <- EW; [by apply Hc|by apply Hi..].
Qed.

End Schedule.

(** ** Modes of operation (NIST SP 800-38A) *)
Fixpoint cbc_encrypt (E : list Z -> list Z) (n : nat) (iv xs : list Z) : list Z :=
  match n with
  | O => []
  | S n => let c := E (fips_add (take 16 xs) iv) in c ++ cbc_encrypt E n c (drop 16 xs)
  end.

(** The chaining value after [n] blocks: the last block of the ciphertext. *)
Fixpoint cbc_iv (E : list Z -> list Z) (n : nat) (iv xs : list Z) : list Z :=
  match n with O => iv | S n => cbc_iv E n (E (fips_add (take 16 xs) iv)) (drop 16 xs) end.

(** The [k]-th counter block: the 128-bit big-endian number [iv + k]. *)
Fixpoint le_digits (n : nat) (v : Z) : list Z :=
  match n with O => [] | S n => v mod 256 :: le_digits n (v / 256) end.
Definition ctr_block (iv : list Z) (k : Z) : list Z := rev (le_digits 16 (le_value 8 (rev iv) + k)).

(** The key stream, by position. *)
Definition ctr_stream (E : list Z -> list Z) (iv : list Z) (i : nat) : Z :=
  E (ctr_block iv (Z.of_nat (i / 16))) !!! (i mod 16)%nat.
Definition ctr_xor (E : list Z -> list Z) (iv : list Z) (n : nat) (Data : list Z) : list Z :=
  imap (fun i d => if decide (i < n)%nat then Z.lxor d (ctr_stream E iv i) else d) Data.

Definition blocks_of (Len : Z) : nat := Z.to_nat ((Len + 15) / 16).

Lemma inserts_middle (pre b c post : list Z) :
  length c = length b -> list_inserts (length pre) c (pre ++ b ++ post) = pre ++ c ++ post.
Proof.
  intros H. apply list_eq. intros i. rewrite lookup_inserts by (rewrite !length_app; lia).
  case_decide as Hi.
  - rewrite lookup_app_r, lookup_app_l by lia. done.
  - destruct (decide (i < length pre)%nat); [by rewrite !lookup_app_l by lia|].
    rewrite !(lookup_app_r pre), !lookup_app_r by lia. by rewrite H.
Qed.

Lemma slice_middle (pre b post : list Z) :
  slice (pre ++ b ++ post) (Z.of_nat (length pre)) (Z.of_nat (length b)) = b.
Proof. unfold slice. by rewrite !Nat2Z.id, drop_app_length, take_app_length. Qed.

Lemma InPlace_spec (f : list Z -> outcome (list Z)) pre b c post :
  length b = 16%nat -> length c = 16%nat -> f b = Ret c ->
  InPlace f (pre ++ b ++ post) (Z.of_nat (length pre)) = Ret (pre ++ c ++ post).
Proof.
  intros Hb Hc Hf. unfold InPlace, AES_BLOCK_SIZE. rewrite rd_slice_in by (rewrite ?length_app; lia).
  cbn [mbind outcome_bind]. replace 16 with (Z.of_nat (length b)) by lia. rewrite slice_middle, Hf. cbn [mbind outcome_bind].
  rewrite wr_slice_in by (rewrite ?length_app; lia). by rewrite Nat2Z.id, inserts_middle by lia.
Qed.

(** The IV pointer denotes the block [iv], in the context or in the part of
    the data that is done. *)
Definition iv_at (ContextIv : list Z) (IvAt : option Z) (pre iv : list Z) : Prop :=
  length iv = 16%nat /\
  match IvAt with
  | None => ContextIv = iv
  | Some o => 0 <= o /\ o + 16 <= Z.of_nat (length pre) /\ slice pre o 16 = iv
  end.

Lemma XorWithIv_spec ContextIv IvAt pre b post iv :
  length b = 16%nat -> iv_at ContextIv IvAt pre iv ->
  XorWithIv ContextIv IvAt (pre ++ b ++ post) (Z.of_nat (length pre)) = Ret (pre ++ fips_add b iv ++ post).
Proof.
  intros Hb [Hl Hiv]. set (xs := fips_add b iv).
  assert (length xs = 16%nat) as HX by (subst xs; unfold fips_add; rewrite length_zip_with; lia).
  unfold XorWithIv. replace (Z.to_nat AES_BLOCK_SIZE) with (length xs) by (rewrite HX; done).
  rewrite (for_fill _ (Z.of_nat (length pre)) xs); [by rewrite Nat2Z.id, inserts_middle by lia|lia|rewrite !length_app; lia|].
  intros i x Hx. cbv zeta. rewrite Nat2Z.id. pose proof (lookup_lt_Some _ _ _ Hx) as Hi.
  unfold xs, fips_add in Hx. apply lookup_zip_with_Some in Hx as (a & v & -> & Ha & Hv). fold (fips_add b iv). fold xs.
  set (l := list_inserts (length pre) (take i xs) (pre ++ b ++ post)).
  rewrite (rd_lookup l _ a); [|lia|].
  2: { subst l. rewrite lookup_inserts by (rewrite length_take, !length_app; lia). rewrite length_take, decide_False by lia.
       rewrite lookup_app_r, lookup_app_l by lia. rewrite <- Ha. f_equal. lia. }
  cbn [mbind outcome_bind]. assert (ReadIv ContextIv IvAt l (Z.of_nat i) = Ret v) as ->; [|done].
  unfold ReadIv. destruct IvAt as [o|]; [|subst ContextIv; by apply rd_nat].
  destruct Hiv as (Ho & Hle & E). apply rd_lookup; [lia|]. subst l.
  rewrite lookup_inserts by (rewrite length_take, !length_app; lia). rewrite decide_False by lia.
  rewrite lookup_app_l by lia. rewrite <- Hv, <- E, lookup_slice by lia. f_equal. lia.
Qed.

Section ModeProofs.
Context {Cfg : AesConfig} {HCfg : AesConfigOk Cfg}.
Context (Key : list Z) (C : AES_CONTEXT) (HX : expanded Key C.(RoundKey)).

Abbreviation E := (fips_cipher (fips_schedule (Z.to_nat Nk) (Z.to_nat Nr) Key) (Z.to_nat Nr)).

(** A further block: what the loops of both directions do with it. *)
Lemma blocks_split n (xs : list Z) :
  length xs = (16 * S n)%nat -> Forall is_byte xs ->
  exists b xs', xs = b ++ xs' /\ block_ok b /\ length xs' = (16 * n)%nat /\ Forall is_byte xs'.
Proof using.
  intros HL HB. exists (take 16 xs), (drop 16 xs). split; [by rewrite take_drop|].
  split; [split; [rewrite length_take; lia|by apply Forall_take]|].
  split; [rewrite length_drop; lia|by apply Forall_drop].
Qed.

Lemma cbc_unfold n iv b xs : length b = 16%nat ->
  cbc_encrypt E (S n) iv (b ++ xs) = E (fips_add b iv) ++ cbc_encrypt E n (E (fips_add b iv)) xs
  /\ cbc_iv E (S n) iv (b ++ xs) = cbc_iv E n (E (fips_add b iv)) xs.
Proof using.
  intros Hb. cbn [cbc_encrypt cbc_iv]. by rewrite take_app_length', drop_app_length' by done.
Qed.

Lemma E_ok b iv : block_ok b -> block_ok iv -> block_ok (E (fips_add b iv)).
Proof using HX. intros Hb Hiv. apply (ex_ok _ _ HX). by apply fips_add_ok. Qed.

Lemma cbc_lengths n : forall iv xs, length xs = (16 * n)%nat -> Forall is_byte xs -> block_ok iv ->
  length (cbc_encrypt E n iv xs) = (16 * n)%nat /\ block_ok (cbc_iv E n iv xs).
Proof using HX.
  induction n as [|n IH]; intros iv xs HL HB Hiv; [done|].
  destruct (blocks_split n xs HL HB) as (b & xs' & -> & Hb & HL' & HB').
  destruct (cbc_unfold n iv b xs' (proj1 Hb)) as [-> ->]. pose proof (E_ok b iv Hb Hiv) as Hc.
  destruct (IH (E (fips_add b iv)) xs' HL' HB' Hc) as [H1 H2]. split; [|done]. rewrite length_app, H1, (proj1 Hc). lia.
Qed.

Lemma encrypt_step Len pre b rest iv IvAt :
  block_ok b -> block_ok iv -> iv_at C.(Iv) IvAt pre iv -> Z.of_nat (length pre) < Len -> Len <= 2 ^ 32 - 16 ->
  let c := E (fips_add b iv) in
  CbcEncryptStep C Len (Z.of_nat (length pre), pre ++ b ++ rest, Z.of_nat (length pre), IvAt)
  = Ret (inl (Z.of_nat (length (pre ++ c)), pre ++ c ++ rest, Z.of_nat (length (pre ++ c)), Some (Z.of_nat (length pre)))).
Proof using HX.
  intros Hb Hiv Hat HLen H32 c. pose proof (E_ok b iv Hb Hiv) as Hc. fold c in Hc.
  assert (block_ok (fips_add b iv)) as Hbi by (by apply fips_add_ok).
  unfold CbcEncryptStep. rewrite decide_True by lia.
  rewrite (XorWithIv_spec _ _ pre b rest iv) by (apply Hb || done). cbn [mbind outcome_bind].
  rewrite (InPlace_spec _ pre (fips_add b iv) c rest) by (apply Hbi || apply Hc || by apply (ex_cipher _ _ HX)).
  cbn [mbind outcome_bind]. unfold AES_BLOCK_SIZE. rewrite wrap_small by lia.
  by replace (Z.of_nat (length (pre ++ c))) with (Z.of_nat (length pre) + 16) by (rewrite length_app, (proj1 Hc); lia).
Qed.

Lemma encrypt_loop Len n : forall pre xs post iv IvAt fuel,
  length xs = (16 * n)%nat -> (n < fuel)%nat -> Forall is_byte xs -> block_ok iv -> iv_at C.(Iv) IvAt pre iv ->
  Len <= Z.of_nat (length pre) + 16 * Z.of_nat n < Len + 16 -> Len <= 2 ^ 32 - 16 ->
  exists IvAt', while_ fuel (CbcEncryptStep C Len) (Z.of_nat (length pre), pre ++ xs ++ post, Z.of_nat (length pre), IvAt)
      = Ret (pre ++ cbc_encrypt E n iv xs ++ post, IvAt')
    /\ iv_at C.(Iv) IvAt' (pre ++ cbc_encrypt E n iv xs) (cbc_iv E n iv xs).
Proof using HX.
  induction n as [|n IH]; intros pre xs post iv IvAt fuel HL Hf HB Hiv Hat HLen H32; (destruct fuel as [|fuel]; [lia|]); rewrite while_S.
  { destruct xs; [|simpl in HL; lia]. unfold CbcEncryptStep. cbv beta iota. rewrite decide_False by lia. cbn [mbind outcome_bind cbc_encrypt cbc_iv].
    exists IvAt. rewrite app_nil_r. done. }
  destruct (blocks_split n xs HL HB) as (b & xs' & -> & Hb & HL' & HB').
  destruct (cbc_unfold n iv b xs' (proj1 Hb)) as [-> ->]. pose proof (E_ok b iv Hb Hiv) as Hc.
  set (c := E (fips_add b iv)) in *.
  rewrite <- !app_assoc, (encrypt_step Len pre b (xs' ++ post) iv IvAt) by (done || lia).
  cbn [mbind outcome_bind]. fold c.
  rewrite !(app_assoc pre c). apply IH; try done; [lia| |rewrite length_app, (proj1 Hc); lia].
  split; [apply Hc|]. split; [lia|]. split; [rewrite length_app, (proj1 Hc); lia|].
  pose proof (slice_middle pre c []) as K. by rewrite app_nil_r, (proj1 Hc) in K.
Qed.

(** [AesCbcEncryptBuffer] encrypts every started block. *)
Lemma CbcEncrypt_spec xs post Len :
  length xs = (16 * blocks_of Len)%nat -> Forall is_byte xs -> block_ok C.(Iv) -> 0 <= Len <= 2 ^ 32 - 16 ->
  exists C', AesCbcEncryptBuffer C (xs ++ post) Len = Ret (C', cbc_encrypt E (blocks_of Len) C.(Iv) xs ++ post)
    /\ C'.(RoundKey) = C.(RoundKey) /\ C'.(Iv) = cbc_iv E (blocks_of Len) C.(Iv) xs.
Proof using HX.
  intros HL HB Hiv HLen. unfold AesCbcEncryptBuffer.
  pose proof (Z.div_mod (Len + 15) 16 ltac:(lia)). pose proof (Z.mod_pos_bound (Len + 15) 16 ltac:(lia)).
  pose proof (Z.div_pos (Len + 15) 16).
  destruct (encrypt_loop Len (blocks_of Len) [] xs post C.(Iv) None (block_fuel Len)) as (IvAt' & R & Hat); try done;
    [unfold blocks_of, block_fuel; lia|split; [apply Hiv|done]|unfold blocks_of; cbn [length]; lia|lia|].
  change (Z.of_nat (length (@nil Z))) with 0 in R. cbn [app] in R, Hat. rewrite R. cbn [mbind outcome_bind].
  destruct (cbc_lengths (blocks_of Len) C.(Iv) xs HL HB Hiv) as [HLc [HLi _]].
  set (iv' := cbc_iv _ _ _ _) in *. set (cs := cbc_encrypt _ _ _ _) in *. destruct Hiv as [Hiv _].
  assert (match IvAt' with
          | None => CopyMem C.(Iv) 0 C.(Iv) 0 AES_BLOCK_SIZE
          | Some o => CopyMem C.(Iv) 0 (cs ++ post) o AES_BLOCK_SIZE end = Ret iv') as ->.
  { unfold AES_BLOCK_SIZE. destruct Hat as [_ Hat]. destruct IvAt' as [o|].
    - destruct Hat as (H3 & H4 & H5). rewrite CopyMem_in by (rewrite ?length_app; lia). change (Z.to_nat 0) with 0%nat. f_equal.
      replace (slice (cs ++ post) o 16) with iv'; [apply inserts_all; lia|]. rewrite <- H5. apply slice_ext; [lia..|].
      intros i Hi. by rewrite lookup_app_l by lia.
    - rewrite CopyMem_in by lia. change (Z.to_nat 0) with 0%nat. rewrite Hat. f_equal. unfold slice. change (Z.to_nat 0) with 0%nat.
      rewrite drop_0, firstn_all2 by lia. apply inserts_all. done. }
  cbn [mbind outcome_bind]. by eexists.
Qed.

Lemma decrypt_step Len pre b rest C1 :
  C1.(RoundKey) = C.(RoundKey) -> block_ok b -> block_ok C1.(Iv) -> Z.of_nat (length pre) < Len -> Len <= 2 ^ 32 - 16 ->
  let c := E (fips_add b C1.(Iv)) in
  CbcDecryptStep Len (Z.of_nat (length pre), C1, pre ++ c ++ rest, Z.of_nat (length pre))
  = Ret (inl (Z.of_nat (length (pre ++ b)), {| RoundKey := C.(RoundKey); Iv := c |}, pre ++ b ++ rest,
              Z.of_nat (length (pre ++ b)))).
Proof using HX.
  intros HR Hb Hiv HLen H32 c. pose proof (E_ok b C1.(Iv) Hb Hiv) as Hc. fold c in Hc.
  assert (block_ok (fips_add b C1.(Iv))) as Hbi by (by apply fips_add_ok).
  unfold CbcDecryptStep. rewrite decide_True by lia. unfold AES_BLOCK_SIZE.
  rewrite rd_slice_in by (rewrite ?length_app, ?(proj1 Hc); lia). cbn [mbind outcome_bind].
  pose proof (slice_middle pre c rest) as Hsl. rewrite (proj1 Hc) in Hsl. change (Z.of_nat 16) with 16 in Hsl. rewrite Hsl.
  rewrite HR. rewrite (InPlace_spec _ pre c (fips_add b C1.(Iv)) rest) by (apply Hbi || apply Hc || by apply (ex_inverse _ _ HX)).
  cbn [mbind outcome_bind]. rewrite (XorWithIv_spec C1.(Iv) None pre _ rest C1.(Iv)) by (apply Hbi || (split; [apply Hiv|done])).
  cbn [mbind outcome_bind]. rewrite fips_add_twice by (apply Hb || apply Hiv).
  rewrite CopyMem_in by (rewrite ?(proj1 Hc), ?(proj1 Hiv); lia). cbn [mbind outcome_bind]. rewrite wrap_small by lia.
  replace (list_inserts (Z.to_nat 0) (slice c 0 16) C1.(Iv)) with c.
  2: { unfold slice. change (Z.to_nat 0) with 0%nat. rewrite drop_0, firstn_all2 by (rewrite (proj1 Hc); done).
       symmetry. apply inserts_all. rewrite (proj1 Hc), (proj1 Hiv). done. }
  by replace (Z.of_nat (length (pre ++ b))) with (Z.of_nat (length pre) + 16) by (rewrite length_app, (proj1 Hb); lia).
Qed.

Lemma decrypt_loop Len n : forall pre xs post C1 fuel,
  C1.(RoundKey) = C.(RoundKey) ->
  length xs = (16 * n)%nat -> (n < fuel)%nat -> Forall is_byte xs -> block_ok C1.(Iv) ->
  Len <= Z.of_nat (length pre) + 16 * Z.of_nat n < Len + 16 -> Len <= 2 ^ 32 - 16 ->
  exists C2, while_ fuel (CbcDecryptStep Len)
      (Z.of_nat (length pre), C1, pre ++ cbc_encrypt E n C1.(Iv) xs ++ post, Z.of_nat (length pre))
      = Ret (C2, pre ++ xs ++ post)
    /\ C2.(RoundKey) = C.(RoundKey) /\ C2.(Iv) = cbc_iv E n C1.(Iv) xs.
Proof using HX.
  induction n as [|n IH]; intros pre xs post C1 fuel HR HL Hf HB Hiv HLen H32; (destruct fuel as [|fuel]; [lia|]); rewrite while_S.
  { destruct xs; [|simpl in HL; lia]. unfold CbcDecryptStep. cbv beta iota. rewrite decide_False by lia. cbn [mbind outcome_bind cbc_encrypt cbc_iv].
    by exists C1. }
  destruct (blocks_split n xs HL HB) as (b & xs' & -> & Hb & HL' & HB').
  destruct (cbc_unfold n C1.(Iv) b xs' (proj1 Hb)) as [-> ->]. pose proof (E_ok b C1.(Iv) Hb Hiv) as Hc.
  set (c := E (fips_add b C1.(Iv))) in *.
  rewrite <- !app_assoc, (decrypt_step Len pre b (cbc_encrypt E n c xs' ++ post) C1) by (done || lia).
  cbn [mbind outcome_bind]. fold c. rewrite !(app_assoc pre b).
  destruct (IH (pre ++ b) xs' post {| RoundKey := C.(RoundKey); Iv := c |} fuel) as (C2 & R & H1 & H2);
    [done|done|lia|done|done|rewrite length_app, (proj1 Hb); lia|done|]. cbn [Iv] in R, H2. exists C2. by rewrite R.
Qed.

Lemma CbcDecrypt_spec xs post Len C1 :
  C1.(RoundKey) = C.(RoundKey) -> length xs = (16 * blocks_of Len)%nat -> Forall is_byte xs -> block_ok C1.(Iv) ->
  0 <= Len <= 2 ^ 32 - 16 ->
  exists C2, AesCbcDecryptBuffer C1 (cbc_encrypt E (blocks_of Len) C1.(Iv) xs ++ post) Len = Ret (C2, xs ++ post)
    /\ C2.(RoundKey) = C.(RoundKey) /\ C2.(Iv) = cbc_iv E (blocks_of Len) C1.(Iv) xs.
Proof using HX.
  intros HR HL HB Hiv HLen. unfold AesCbcDecryptBuffer.
  pose proof (Z.div_mod (Len + 15) 16 ltac:(lia)). pose proof (Z.mod_pos_bound (Len + 15) 16 ltac:(lia)).
  pose proof (Z.div_pos (Len + 15) 16).
  apply (decrypt_loop Len (blocks_of Len) [] xs post C1 (block_fuel Len)); try done;
    [unfold blocks_of, block_fuel; lia|unfold blocks_of; cbn [length]; lia|lia].
Qed.

(** ** CTR *)
Lemma le_digits_length n : forall v, length (le_digits n v) = n.
Proof using. induction n as [|n IH]; intros v; cbn; [done|by rewrite IH]. Qed.

Lemma le_digits_bytes n : forall v, Forall is_byte (le_digits n v).
Proof using. induction n as [|n IH]; intros v; cbn; [done|]. constructor; [apply Z.mod_pos_bound; lia|done]. Qed.

Lemma le_digits_value l : Forall is_byte l -> le_digits (length l) (le_value 8 l) = l.
Proof using.
  induction 1 as [|b l Hb Hl IH]; [done|]. cbn [length le_digits le_value]. unfold is_byte, in_width in Hb.
  change (2 ^ 8) with 256 in *. rewrite (Z.mul_comm 256), Z_mod_plus_full, Z.mod_small, Z.div_add, Z.div_small, Z.add_0_l, IH by lia. done.
Qed.

(** Adding one to a number, digit by digit. *)
Fixpoint increment (l : list Z) : list Z :=
  match l with [] => [] | x :: l => if decide (x = 255) then 0 :: increment l else (x + 1) :: l end.

Lemma le_digits_succ n : forall v, le_digits n (v + 1) = increment (le_digits n v).
Proof using.
  induction n as [|n IH]; intros v; [done|]. cbn [le_digits increment].
  pose proof (Z.div_mod v 256 ltac:(lia)) as D. pose proof (Z.mod_pos_bound v 256 ltac:(lia)) as M. case_decide as H.
  - rewrite <- IH. assert (v + 1 = (v / 256 + 1) * 256) as -> by lia. by rewrite Z_mod_mult, Z.div_mul by lia.
  - assert (v + 1 = v / 256 * 256 + (v mod 256 + 1)) as K by lia. set (q := v / 256) in *. set (r := v mod 256) in *.
    rewrite K. rewrite Z.add_comm, Z_mod_plus_full, Z.mod_small, Z.div_add, Z.div_small by lia. f_equal; f_equal; lia.
Qed.

Lemma increment_run pre : forall post fuel, Forall is_byte pre -> (length pre < fuel)%nat ->
  while_ fuel IncrementStep (Z.of_nat (length pre) - 1, pre ++ post) = Ret (rev (increment (rev pre)) ++ post).
Proof using.
  induction pre as [|x pre IH] using rev_ind; intros post fuel HB Hf; (destruct fuel as [|fuel]; [lia|]).
  { apply while_inr. unfold IncrementStep. by rewrite decide_False by (cbn; lia). }
  rewrite length_app in *. cbn [length] in *. apply Forall_app in HB as [HB Hx]. apply Forall_cons in Hx as [Hx _].
  unfold is_byte, in_width in Hx. rewrite rev_unit. cbn [increment]. rewrite <- app_assoc. cbn [app].
  assert (forall y, wr (pre ++ x :: post) (Z.of_nat (length pre + 1) - 1) y = Ret (pre ++ y :: post)) as Hw.
  { intros y. rewrite wr_in by (rewrite length_app; cbn; lia). f_equal.
    replace (Z.to_nat _) with (length pre + 0)%nat by lia. by rewrite insert_app_r. }
  assert (IncrementStep (Z.of_nat (length pre + 1) - 1, pre ++ x :: post)
    = Ret (if decide (x = 255) then inl (Z.of_nat (length pre) - 1, pre ++ 0 :: post) else inr (pre ++ (x + 1) :: post))) as HS.
  { unfold IncrementStep. rewrite decide_True by lia. rewrite (rd_lookup _ _ x); [|lia|apply list_lookup_middle; lia].
    cbn [mbind outcome_bind]. case_decide; rewrite Hw; cbn [mbind outcome_bind]; [|by rewrite wrap_small by lia].
    do 3 f_equal. lia. }
  case_decide as H.
  - rewrite (while_inl _ _ _ _ HS), IH by (done || lia). cbn [rev]. by rewrite <- app_assoc.
  - rewrite (while_inr _ _ _ _ HS). cbn [rev]. by rewrite rev_involutive, <- app_assoc.
Qed.

Lemma IncrementIv_spec iv k : IncrementIv (ctr_block iv k) = Ret (ctr_block iv (k + 1)).
Proof using.
  unfold IncrementIv, ctr_block. rewrite Z.add_assoc, le_digits_succ. set (l := le_digits 16 _).
  assert (length (rev l) = 16%nat) as HL by (rewrite length_rev; apply le_digits_length).
  pose proof (increment_run (rev l) [] 17) as K. rewrite HL, rev_involutive, !app_nil_r in K. apply K; [|lia].
  apply Forall_rev, le_digits_bytes.
Qed.

Lemma ctr_block_ok iv k : block_ok (ctr_block iv k).
Proof using. split; unfold ctr_block; [rewrite length_rev; apply le_digits_length|apply Forall_rev, le_digits_bytes]. Qed.

Lemma ctr_block_0 iv : block_ok iv -> ctr_block iv 0 = iv.
Proof using.
  intros [HL HB]. unfold ctr_block. rewrite Z.add_0_r. rewrite <- HL, <- (length_rev iv), le_digits_value by (by apply Forall_rev).
  apply rev_involutive.
Qed.

(** The state of the loop at byte [Ix]. *)
Record ctr_inv (iv D : list Z) (Len : Z) (s : Z * Z * list Z * list Z * list Z) : Prop := {
  ci_I : 0 <= s.1.1.1.1 <= Len;
  ci_Iv : s.1.1.2 = ctr_block iv ((s.1.1.1.1 + 15) / 16);
  ci_Buffer : length s.1.2 = 16%nat;
  ci_Bi : if decide (s.1.1.1.1 mod 16 = 0) then s.1.1.1.2 = 16
          else s.1.1.1.2 = s.1.1.1.1 mod 16 /\ s.1.2 = E (ctr_block iv (s.1.1.1.1 / 16));
  ci_Data : s.2 = ctr_xor E iv (Z.to_nat s.1.1.1.1) D
}.

Lemma ctr_xor_step iv D i d :
  D !! i = Some d -> <[i := Z.lxor d (ctr_stream E iv i)]> (ctr_xor E iv i D) = ctr_xor E iv (S i) D.
Proof using.
  intros Hd. pose proof (lookup_lt_Some _ _ _ Hd) as Hi. apply list_eq. intros j. unfold ctr_xor. destruct (decide (j = i)) as [->|Hj].
  - rewrite list_lookup_insert_eq by (by rewrite length_imap). rewrite list_lookup_imap, Hd. cbn. by rewrite decide_True by lia.
  - rewrite list_lookup_insert_ne by done. rewrite !list_lookup_imap. destruct (D !! j); cbn; [|done].
    repeat case_decide; done || lia.
Qed.

Lemma ctr_step iv D Len s :
  block_ok iv -> Len <= Z.of_nat (length D) -> Len < 2 ^ 32 -> ctr_inv iv D Len s ->
  exists x, CtrStep C.(RoundKey) Len s = Ret x /\
  match x with
  | inl s' => ctr_inv iv D Len s' /\ s'.1.1.1.1 = s.1.1.1.1 + 1 /\ s.1.1.1.1 < Len
  | inr r => r = (ctr_block iv ((Len + 15) / 16), ctr_xor E iv (Z.to_nat Len) D)
  end.
Proof using HX.
  intros Hiv HLD H32. destruct s as [[[[Ix Bi] Iv'] Buffer] Data]. intros [H1 H2 H3 H4 H5]. cbn [fst snd] in *. subst Iv' Data.
  unfold CtrStep. destruct (decide (Ix < Len)) as [HI|HI]; [|assert (Ix = Len) as -> by lia; by eexists].
  pose proof (Z.div_mod Ix 16 ltac:(lia)) as D1. pose proof (Z.mod_pos_bound Ix 16 ltac:(lia)) as M1.
  assert (exists Bi' Buffer',
      (if decide (Bi = AES_BLOCK_SIZE) then
         Buffer ← CopyMem Buffer 0 (ctr_block iv ((Ix + 15) / 16)) 0 AES_BLOCK_SIZE;
         Buffer ← Cipher Buffer C.(RoundKey);
         Iv ← IncrementIv (ctr_block iv ((Ix + 15) / 16));
         Ret (0, Iv, Buffer)
       else Ret (Bi, ctr_block iv ((Ix + 15) / 16), Buffer)) = Ret (Bi', ctr_block iv ((Ix + 1 + 15) / 16), Buffer')
      /\ Bi' = Ix mod 16 /\ Buffer' = E (ctr_block iv (Ix / 16))) as (Bi' & Buffer' & -> & HBi & HBuf).
  { unfold AES_BLOCK_SIZE. destruct (decide (Bi = 16)) as [H0|H0].
    - subst Bi. assert (Ix mod 16 = 0) as Em by (destruct (decide (Ix mod 16 = 0)); [done|lia]). clear H4.
      assert ((Ix + 15) / 16 = Ix / 16) as -> by (symmetry; apply Z.div_unique with (Ix mod 16 + 15); lia).
      pose proof (ctr_block_ok iv (Ix / 16)) as Hb. rewrite CopyMem_in by (rewrite ?(proj1 Hb), ?H3; lia). cbn [mbind outcome_bind].
      replace (list_inserts (Z.to_nat 0) _ Buffer) with (ctr_block iv (Ix / 16)).
      2: { unfold slice. change (Z.to_nat 0) with 0%nat. rewrite drop_0, firstn_all2 by (rewrite (proj1 Hb); done).
           symmetry. apply inserts_all. by rewrite (proj1 Hb), H3. }
      rewrite (ex_cipher _ _ HX) by done. cbn [mbind outcome_bind]. rewrite IncrementIv_spec. cbn [mbind outcome_bind].
      assert ((Ix + 1 + 15) / 16 = Ix / 16 + 1) as -> by (replace (Ix + 1 + 15) with (Ix + 1 * 16) by lia; by rewrite Z.div_add by lia).
      do 2 eexists. split; [done|]. split; [lia|done].
    - destruct (decide (Ix mod 16 = 0)); [done|]. destruct H4 as [-> ->]. 
      assert ((Ix + 15) / 16 = Ix / 16 + 1) as -> by (symmetry; apply (Z.div_unique _ _ _ (Ix mod 16 - 1)); lia).
      assert ((Ix + 1 + 15) / 16 = Ix / 16 + 1) as -> by (symmetry; apply (Z.div_unique _ _ _ (Ix mod 16)); lia).
      do 2 eexists. done. }
  cbn [mbind outcome_bind]. subst Bi' Buffer'.
  destruct (lookup_lt_is_Some_2 D (Z.to_nat Ix)) as [d Hd]; [lia|].
  rewrite (rd_lookup _ Ix d); [|lia|unfold ctr_xor; rewrite list_lookup_imap, Hd; cbn; by rewrite decide_False by lia].
  cbn [mbind outcome_bind]. pose proof (ex_ok _ _ HX _ (ctr_block_ok iv (Ix / 16))) as HE.
  assert (E (ctr_block iv (Ix / 16)) !! Z.to_nat (Ix mod 16) = Some (ctr_stream E iv (Z.to_nat Ix))) as Hks.
  { unfold ctr_stream. rewrite Nat2Z.inj_div, Z2Nat.id by lia. change (Z.of_nat 16) with 16.
    rewrite Z2Nat.inj_mod by lia. change (Z.to_nat 16) with 16%nat. apply list_lookup_lookup_total_lt. rewrite (proj1 HE).
    apply Nat.mod_upper_bound. lia. }
  rewrite (rd_lookup _ _ _ (proj1 M1) Hks). cbn [mbind outcome_bind].
  rewrite wr_in by (unfold ctr_xor; rewrite length_imap; lia). cbn [mbind outcome_bind].
  eexists. split; [done|]. rewrite (wrap_small 32 (Ix + 1)) by lia. cbn [fst snd].
  split; [|lia]. constructor; cbn [fst snd]; [lia|done|apply HE| |].
  - destruct (decide (Ix mod 16 = 15)) as [H15|H15].
    + replace (Ix + 1) with ((Ix / 16 + 1) * 16) by lia. rewrite Z_mod_mult, decide_True by done. lia.
    + assert ((Ix + 1) mod 16 = Ix mod 16 + 1) as Em by (symmetry; apply (Z.mod_unique _ _ (Ix / 16)); lia).
      assert ((Ix + 1) / 16 = Ix / 16) as -> by (symmetry; apply (Z.div_unique _ _ _ (Ix mod 16 + 1)); lia).
      rewrite Em, decide_False by lia. done.
  - replace (Z.to_nat (Ix + 1)) with (S (Z.to_nat Ix)) by lia. by apply ctr_xor_step.
Qed.

Lemma Ctr_spec Buffer C1 Data Len :
  C1.(RoundKey) = C.(RoundKey) -> length Buffer = 16%nat -> block_ok C1.(Iv) -> 0 <= Len < 2 ^ 32 -> Len <= Z.of_nat (length Data) ->
  AesCtrXcryptBuffer Buffer C1 Data Len
  = Ret ({| RoundKey := C.(RoundKey); Iv := ctr_block C1.(Iv) ((Len + 15) / 16) |}, ctr_xor E C1.(Iv) (Z.to_nat Len) Data).
Proof using HX.
  intros HR HBuf Hiv HLen HD. unfold AesCtrXcryptBuffer. rewrite HR.
  oc_while (ctr_inv C1.(Iv) Data Len) (fun s : Z * Z * list Z * list Z * list Z => Z.to_nat (Len - s.1.1.1.1))
    (fun r => r = (ctr_block C1.(Iv) ((Len + 15) / 16), ctr_xor E C1.(Iv) (Z.to_nat Len) Data)) as r Hr.
  - intros s Hs. destruct (ctr_step C1.(Iv) Data Len s Hiv HD ltac:(lia) Hs) as (x & Ex & Hx). exists x. split; [done|].
    destruct x as [s'|r]; [|done]. destruct Hx as (? & Hm & ?). split; [done|]. destruct Hs as [? _ _ _ _]. lia.
  - constructor; cbn [fst snd]; [lia| |done|done|].
    + change ((0 + 15) / 16) with 0. by rewrite ctr_block_0.
    + apply list_eq. intros i. unfold ctr_xor. rewrite list_lookup_imap. destruct (Data !! i); cbn; [|done]. by rewrite decide_False by lia.
  - cbn [fst snd]. lia.
  - subst r. done.
Qed.

Lemma ctr_xor_twice iv n Data : ctr_xor E iv n (ctr_xor E iv n Data) = Data.
Proof using.
  apply list_eq. intros i. unfold ctr_xor. rewrite !list_lookup_imap. destruct (Data !! i); cbn; [|done].
  case_decide; [|done]. by rewrite Z.lxor_assoc, Z.lxor_nilpotent, Z.lxor_0_r.
Qed.

End ModeProofs.

(** ** Set-up *)
Lemma AesInit_spec {Cfg : AesConfig} `{!AesConfigOk Cfg} Context Key Iv0 :
  Z.of_nat (length Context.(RoundKey)) = AES_KEY_EXP_SIZE -> length Context.(Iv) = 16%nat ->
  CONFIG_AES_KEY_SIZE <= Z.of_nat (length Key) -> Forall is_byte Key -> block_ok Iv0 ->
  exists C, AesInitCtxIv Context Key Iv0 = Ret C /\ expanded Key C.(RoundKey) /\ C.(Iv) = Iv0.
Proof.
  intros HR HI HK HB [HV _]. destruct (KeyExpansion_expanded Key Context.(RoundKey) HR HK HB) as (RK & E & HX).
  unfold AesInitCtxIv, AES_BLOCK_SIZE. rewrite E. cbn [mbind outcome_bind]. rewrite CopyMem_in by lia. cbn [mbind outcome_bind].
  eexists. split; [done|]. split; [done|]. cbn [Iv]. unfold slice. change (Z.to_nat 0) with 0%nat.
  rewrite drop_0, firstn_all2 by lia. apply inserts_all. lia.
Qed.

Lemma AesSetIv_spec Context Iv0 : length Context.(Iv) = 16%nat -> length Iv0 = 16%nat ->
  AesSetCtxIv Context Iv0 = Ret {| RoundKey := Context.(RoundKey); Iv := Iv0 |}.
Proof.
  intros HI HV. unfold AesSetCtxIv, AES_BLOCK_SIZE. rewrite CopyMem_in by lia. cbn [mbind outcome_bind].
  unfold slice. change (Z.to_nat 0) with 0%nat. rewrite drop_0, firstn_all2, inserts_all by lia. done.
Qed.

(** ** Properties *)
Definition aes_encrypt `{AesConfig} (Key : list Z) : list Z -> list Z :=
  fips_cipher (fips_schedule (Z.to_nat Nk) (Z.to_nat Nr) Key) (Z.to_nat Nr).

(** C11: for each of the three key sizes, setting up a context and encrypting with
    [AesCbcEncryptBuffer] stays inside the key, the round keys and the data and
    yields the CBC mode of SP 800-38A over the cipher of FIPS 197, for every
    started block of the data; the context keeps the chaining value. *)
Theorem Cbc_encrypts {Cfg : AesConfig} `{!AesConfigOk Cfg} Context Key Iv0 xs post Len :
  Z.of_nat (length Context.(RoundKey)) = AES_KEY_EXP_SIZE -> length Context.(Iv) = 16%nat ->
  CONFIG_AES_KEY_SIZE <= Z.of_nat (length Key) -> Forall is_byte Key -> block_ok Iv0 ->
  0 <= Len <= 2 ^ 32 - 16 -> length xs = (16 * blocks_of Len)%nat -> Forall is_byte xs ->
  exists C C', AesInitCtxIv Context Key Iv0 = Ret C
    /\ AesCbcEncryptBuffer C (xs ++ post) Len = Ret (C', cbc_encrypt (aes_encrypt Key) (blocks_of Len) Iv0 xs ++ post)
    /\ C'.(RoundKey) = C.(RoundKey) /\ C'.(Iv) = cbc_iv (aes_encrypt Key) (blocks_of Len) Iv0 xs.
Proof.
  intros HR HI HK HBK HV HLen HL HB. destruct (AesInit_spec Context Key Iv0 HR HI HK HBK HV) as (C & E & HX & <-).
  destruct (CbcEncrypt_spec Key C HX xs post Len HL HB HV HLen) as (C' & R & ?). by exists C, C'.
Qed.

Lemma Cbc_encrypts_witness :
  exists C C', @AesInitCtxIv aes192 (zero_context aes192) (replicate 24 7) (replicate 16 1) = Ret C
    /\ @AesCbcEncryptBuffer aes192 C (replicate 16 3 ++ replicate 16 4 ++ [5]) 20 = Ret (C', cbc_encrypt (@aes_encrypt aes192 (replicate 24 7)) 2 (replicate 16 1) (replicate 16 3 ++ replicate 16 4) ++ [5]).
Proof.
  destruct (@Cbc_encrypts aes192 aes192_ok (zero_context aes192) (replicate 24 7) (replicate 16 1)
    (replicate 16 3 ++ replicate 16 4) [5] 20) as (C & C' & E1 & E2 & _);
    [reflexivity|reflexivity|discriminate| |split; [reflexivity|]|split; discriminate|reflexivity| |].
  1-3: by apply (bool_decide_unpack _).
  exists C, C'. split; [exact E1|exact E2].
Defined.

(** Decrypting with the IV that was used to encrypt gives the data back: in CBC
    mode through the inverse cipher, in CTR mode through the same function; the
    context of both ends at the same chaining value. *)
Theorem Aes_roundtrip {Cfg : AesConfig} `{!AesConfigOk Cfg} Context Key Iv0 xs post Len Buffer :
  Z.of_nat (length Context.(RoundKey)) = AES_KEY_EXP_SIZE -> length Context.(Iv) = 16%nat -> length Buffer = 16%nat ->
  CONFIG_AES_KEY_SIZE <= Z.of_nat (length Key) -> Forall is_byte Key -> block_ok Iv0 ->
  0 <= Len <= 2 ^ 32 - 16 -> length xs = (16 * blocks_of Len)%nat -> Forall is_byte xs ->
  exists C, AesInitCtxIv Context Key Iv0 = Ret C
    /\ (exists C1 cs C2, AesCbcEncryptBuffer C (xs ++ post) Len = Ret (C1, cs)
        /\ (C1 ← AesSetCtxIv C1 Iv0; AesCbcDecryptBuffer C1 cs Len) = Ret (C2, xs ++ post) /\ C2 = C1)
    /\ (exists C1 cs, AesCtrXcryptBuffer Buffer C (xs ++ post) Len = Ret (C1, cs)
        /\ (C1 ← AesSetCtxIv C1 Iv0; AesCtrXcryptBuffer Buffer C1 cs Len) = Ret (C1, xs ++ post)).
Proof.
  intros HR HI HBuf HK HBK HV HLen HL HB. destruct (AesInit_spec Context Key Iv0 HR HI HK HBK HV) as (C & E & HX & HCI).
  exists C. split; [done|]. rewrite <- HCI in HV. split.
  - destruct (CbcEncrypt_spec Key C HX xs post Len HL HB HV HLen) as ([RK1 iv1] & R & HR1 & HI1). cbn [RoundKey Iv] in *. subst RK1.
    destruct (CbcDecrypt_spec Key C HX xs post Len C eq_refl HL HB HV HLen) as ([RK2 iv2] & R2 & HR2 & HI2). cbn [RoundKey Iv] in *.
    do 3 eexists. split; [exact R|]. rewrite AesSetIv_spec; [|rewrite HI1; by apply (cbc_lengths Key C HX)|by rewrite <- HCI; apply HV].
    cbn [mbind outcome_bind RoundKey]. destruct C as [RK iv]. cbn [RoundKey Iv] in *. subst iv. split; [exact R2|]. by rewrite HR2, HI1, HI2.
  - assert (Len <= Z.of_nat (length (xs ++ post))) as HLx.
    { rewrite length_app, HL. unfold blocks_of. pose proof (Z.div_mod (Len + 15) 16 ltac:(lia)).
      pose proof (Z.mod_pos_bound (Len + 15) 16 ltac:(lia)). pose proof (Z.div_pos (Len + 15) 16). lia. }
    do 2 eexists. split; [apply (Ctr_spec Key C HX); done || lia|].
    rewrite AesSetIv_spec; [|apply ctr_block_ok|by rewrite <- HCI; apply HV]. cbn [mbind outcome_bind RoundKey].
    rewrite (Ctr_spec Key C HX) by (cbn [RoundKey Iv]; unfold ctr_xor; rewrite ?length_imap, <- ?HCI; done || lia).
    cbn [Iv]. rewrite <- HCI. by rewrite ctr_xor_twice.
Qed.

Lemma Aes_roundtrip_witness :
  exists C, @AesInitCtxIv aes256 (zero_context aes256) (replicate 32 7) (replicate 16 1) = Ret C
    /\ exists C1 cs C2, @AesCbcEncryptBuffer aes256 C (replicate 16 3 ++ [5]) 16 = Ret (C1, cs)
        /\ (C1 ← AesSetCtxIv C1 (replicate 16 1); @AesCbcDecryptBuffer aes256 C1 cs 16) = Ret (C2, replicate 16 3 ++ [5]).
Proof.
  destruct (@Aes_roundtrip aes256 aes256_ok (zero_context aes256) (replicate 32 7) (replicate 16 1) (replicate 16 3) [5] 16 (replicate 16 9))
    as (C & E1 & (C1 & cs & C2 & E2 & E3 & _) & _);
    [reflexivity|reflexivity|reflexivity|discriminate| |split; [reflexivity|]|split; discriminate|reflexivity| |].
  1-3: by apply (bool_decide_unpack _).
  exists C. split; [exact E1|]. exists C1, cs, C2. split; [exact E2|exact E3].
Defined.

(** [AesCtrXcryptBuffer] combines exactly the first [Len] bytes with the key
    stream, byte [i] with byte [i mod 16] of the encrypted 128-bit counter
    [Iv + i / 16], and leaves the counter advanced by every started block. *)
Theorem Ctr_keystream {Cfg : AesConfig} `{!AesConfigOk Cfg} Context Key Iv0 Buffer Data Len :
  Z.of_nat (length Context.(RoundKey)) = AES_KEY_EXP_SIZE -> length Context.(Iv) = 16%nat -> length Buffer = 16%nat ->
  CONFIG_AES_KEY_SIZE <= Z.of_nat (length Key) -> Forall is_byte Key -> block_ok Iv0 ->
  0 <= Len < 2 ^ 32 -> Len <= Z.of_nat (length Data) ->
  exists C C', AesInitCtxIv Context Key Iv0 = Ret C
    /\ AesCtrXcryptBuffer Buffer C Data Len = Ret (C', ctr_xor (aes_encrypt Key) Iv0 (Z.to_nat Len) Data)
    /\ C'.(RoundKey) = C.(RoundKey) /\ C'.(Iv) = ctr_block Iv0 ((Len + 15) / 16).
Proof.
  intros HR HI HBuf HK HBK HV HLen HL. destruct (AesInit_spec Context Key Iv0 HR HI HK HBK HV) as (C & E & HX & <-).
  eexists C, _. split; [done|]. split; [by apply (Ctr_spec Key C HX)|]. done.
Qed.

Lemma Ctr_keystream_witness :
  exists C C', @AesInitCtxIv aes128 (zero_context aes128) (replicate 16 7) (replicate 16 255) = Ret C
    /\ @AesCtrXcryptBuffer aes128 (replicate 16 9) C (replicate 40 3) 17
       = Ret (C', ctr_xor (@aes_encrypt aes128 (replicate 16 7)) (replicate 16 255) 17 (replicate 40 3))
    /\ C'.(Iv) = replicate 15 0 ++ [1].
Proof.
  destruct (@Ctr_keystream aes128 aes128_ok (zero_context aes128) (replicate 16 7) (replicate 16 255) (replicate 16 9) (replicate 40 3) 17)
    as (C & C' & E1 & E2 & _ & E3);
    [reflexivity|reflexivity|reflexivity|discriminate| |split; [reflexivity|]|split; [discriminate|reflexivity]|discriminate|].
  1-2: by apply (bool_decide_unpack _).
  exists C, C'. split; [exact E1|]. split; [exact E2|]. rewrite E3. vm_compute. reflexivity.
Defined.

End Aes.
