(* ===== verification/Umm.v ===== *)
(** * The heap allocator: [Library/OcMemoryLib/UmmMalloc.c]

    The heap is an array of 16-byte blocks: two 32-bit words of header (the index
    of the next and of the previous block of the chain, with a flag for free
    blocks in the top bit) and two words of body, which in a free block are the
    links of the free list and in a used one the first bytes of user data. The
    model is the list of the 32-bit words of the heap; a pointer is an address.
    The abstract heap is the list of its segments with their lengths ([chain])
    and the order of the free list ([ring]). *)
From S2P Require Import Prelude.

Module Umm.

(** ** Model *)

Definition UMM_FREELIST_MASK : Z := 0x80000000.
Definition UMM_BLOCKNO_MASK : Z := 0x7FFFFFFF.

(** The sizes of a block and of its body, in bytes. *)
Definition sizeof_umm_block : Z := 16.
Definition sizeof_body : Z := 8.

(** The fields of an [umm_block], and the word of a field of block [b]. *)
Inductive field : Set := header_next | header_prev | free_next | free_prev.

Definition offset (f : field) : Z :=
  match f with header_next => 0 | header_prev => 1 | free_next => 2 | free_prev => 3 end.

Definition at_field (f : field) (b : Z) : Z := 4 * b + offset f.

Abbreviation UMM_NBLOCK := (at_field header_next).
Abbreviation UMM_PBLOCK := (at_field header_prev).
Abbreviation UMM_NFREE := (at_field free_next).
Abbreviation UMM_PFREE := (at_field free_prev).

(** [memory] is the memory at [default_umm_heap], which is also [umm_heap]. *)
Record umm_state : Set := Umm {
  default_umm_heap : Z;
  default_umm_heap_size : Z;
  memory : list Z;
  umm_numblocks : Z
}.

Definition with_memory (s : umm_state) (h : list Z) : umm_state :=
  Umm s.(default_umm_heap) s.(default_umm_heap_size) h s.(umm_numblocks).

(** [&UMM_DATA (b)] *)
Definition UMM_DATA (s : umm_state) (b : Z) : Z := s.(default_umm_heap) + b * sizeof_umm_block + 8.

Definition umm_blocks (size : Z) : Z :=
  if decide (size <= sizeof_body) then 1
  else 2 + (size - (1 + sizeof_body)) / sizeof_umm_block.

Definition umm_split_block (h : list Z) (c blocks new_freemask : Z) : outcome (list Z) :=
  let c' := c +[32] blocks in
  n ← rd h (UMM_NBLOCK c);
  h ← wr h (UMM_NBLOCK c') (Z.lor (Z.land n UMM_BLOCKNO_MASK) new_freemask);
  h ← wr h (UMM_PBLOCK c') c;
  n ← rd h (UMM_NBLOCK c);
  h ← wr h (UMM_PBLOCK (Z.land n UMM_BLOCKNO_MASK)) c';
  wr h (UMM_NBLOCK c) c'.

Definition umm_disconnect_from_free_list (h : list Z) (c : Z) : outcome (list Z) :=
  p ← rd h (UMM_PFREE c);
  n ← rd h (UMM_NFREE c);
  h ← wr h (UMM_NFREE p) n;
  n ← rd h (UMM_NFREE c);
  p ← rd h (UMM_PFREE c);
  h ← wr h (UMM_PFREE n) p;
  b ← rd h (UMM_NBLOCK c);
  wr h (UMM_NBLOCK c) (Z.land b (MAX_UINT32 - UMM_FREELIST_MASK)).

Definition umm_assimilate_up (h : list Z) (c : Z) : outcome (list Z) :=
  n ← rd h (UMM_NBLOCK c);
  nn ← rd h (UMM_NBLOCK n);
  if decide (Z.land nn UMM_FREELIST_MASK <> 0) then
    h ← umm_disconnect_from_free_list h n;
    n ← rd h (UMM_NBLOCK c);
    nn ← rd h (UMM_NBLOCK n);
    h ← wr h (UMM_PBLOCK (Z.land nn UMM_BLOCKNO_MASK)) c;
    n ← rd h (UMM_NBLOCK c);
    nn ← rd h (UMM_NBLOCK n);
    wr h (UMM_NBLOCK c) (Z.land nn UMM_BLOCKNO_MASK)
  else Ret h.

Definition umm_assimilate_down (h : list Z) (c freemask : Z) : outcome (list Z * Z) :=
  p ← rd h (UMM_PBLOCK c);
  n ← rd h (UMM_NBLOCK c);
  h ← wr h (UMM_NBLOCK p) (Z.lor n freemask);
  n ← rd h (UMM_NBLOCK c);
  p ← rd h (UMM_PBLOCK c);
  h ← wr h (UMM_PBLOCK n) p;
  p ← rd h (UMM_PBLOCK c);
  Ret (h, p).

Definition umm_init (s : umm_state) : outcome umm_state :=
  let umm_numblocks := s.(default_umm_heap_size) / sizeof_umm_block in
  let block_last := umm_numblocks -[32] 1 in
  let h := s.(memory) in
  h ← wr h (UMM_NBLOCK 0) 1;
  h ← wr h (UMM_NFREE 0) 1;
  h ← wr h (UMM_PFREE 0) 1;
  h ← wr h (UMM_NBLOCK 1) (Z.lor block_last UMM_FREELIST_MASK);
  h ← wr h (UMM_NFREE 1) 0;
  h ← wr h (UMM_PBLOCK 1) 0;
  h ← wr h (UMM_PFREE 1) 0;
  h ← wr h (UMM_NBLOCK block_last) 0;
  h ← wr h (UMM_PBLOCK block_last) 1;
  Ret (Umm s.(default_umm_heap) s.(default_umm_heap_size) h umm_numblocks).

Definition UmmInitialized (s : umm_state) : bool := bool_decide (s.(default_umm_heap) <> 0).

(** [words] is the memory at [heap]. *)
Definition UmmSetHeap (s : umm_state) (heap : Z) (words : list Z) (size : Z) : outcome umm_state :=
  umm_init (Umm heap size words s.(umm_numblocks)).

(** The block goes to the head of the free list. *)
Definition LinkFree (h : list Z) (c : Z) : outcome (list Z) :=
  n ← rd h (UMM_NFREE 0);
  h ← wr h (UMM_PFREE n) c;
  n ← rd h (UMM_NFREE 0);
  h ← wr h (UMM_NFREE c) n;
  h ← wr h (UMM_PFREE c) 0;
  h ← wr h (UMM_NFREE 0) c;
  b ← rd h (UMM_NBLOCK c);
  wr h (UMM_NBLOCK c) (Z.lor b UMM_FREELIST_MASK).

Definition UmmFree (s : umm_state) (ptr : Z) : outcome (umm_state * bool) :=
  if negb (UmmInitialized s) then Ret (s, false) else
  if decide (ptr = 0) then Ret (s, false) else
  if decide (ptr < s.(default_umm_heap) \/ s.(default_umm_heap) + s.(default_umm_heap_size) <= ptr) then Ret (s, false) else
  let c := wrap 32 ((ptr - s.(default_umm_heap)) / sizeof_umm_block) in
  h ← umm_assimilate_up s.(memory) c;
  p ← rd h (UMM_PBLOCK c);
  b ← rd h (UMM_NBLOCK p);
  if decide (Z.land b UMM_FREELIST_MASK <> 0) then
    '(h, _) ← umm_assimilate_down h c UMM_FREELIST_MASK;
    Ret (with_memory s h, true)
  else
    h ← LinkFree h c;
    Ret (with_memory s h, true).

(** The scan of the free list, [UMM_BEST_FIT]. *)
Record scan : Set := Scan { cf : Z; bestBlock : Z; bestSize : Z; blockSize : Z }.

Definition ScanStep (h : list Z) (blocks : Z) (s : scan) : outcome (scan + scan) :=
  if decide (s.(cf) <> 0) then
    b ← rd h (UMM_NBLOCK s.(cf));
    let blockSize := Z.land b UMM_BLOCKNO_MASK -[32] s.(cf) in
    let '(bestBlock, bestSize) :=
      if decide (blocks <= blockSize /\ blockSize < s.(bestSize)) then (s.(cf), blockSize)
      else (s.(bestBlock), s.(bestSize)) in
    n ← rd h (UMM_NFREE s.(cf));
    Ret (inl (Scan n bestBlock bestSize blockSize))
  else Ret (inr s).

(** The rest of a free block that is larger than the request becomes a free block
    in its place. *)
Definition TakeFront (h : list Z) (cf blocks : Z) : outcome (list Z) :=
  h ← umm_split_block h cf blocks UMM_FREELIST_MASK;
  p ← rd h (UMM_PFREE cf);
  h ← wr h (UMM_NFREE p) (cf +[32] blocks);
  p ← rd h (UMM_PFREE cf);
  h ← wr h (UMM_PFREE (cf +[32] blocks)) p;
  n ← rd h (UMM_NFREE cf);
  h ← wr h (UMM_PFREE n) (cf +[32] blocks);
  n ← rd h (UMM_NFREE cf);
  wr h (UMM_NFREE (cf +[32] blocks)) n.

Definition UmmMalloc (s : umm_state) (size : Z) : outcome (umm_state * Z) :=
  if negb (UmmInitialized s) then Ret (s, 0) else
  if decide (size = 0) then Ret (s, 0) else
  let h := s.(memory) in
  let blocks := umm_blocks size in
  n ← rd h (UMM_NFREE 0);
  t ← while_ (S (length h)) (ScanStep h blocks) (Scan n n 0x7FFFFFFF 0);
  let '(cf, blockSize) := if decide (t.(bestSize) <> 0x7FFFFFFF) then (t.(bestBlock), t.(bestSize)) else (t.(cf), t.(blockSize)) in
  b ← rd h (UMM_NBLOCK cf);
  if decide (Z.land b UMM_BLOCKNO_MASK <> 0 /\ blocks <= blockSize) then
    h ← (if decide (blockSize = blocks) then umm_disconnect_from_free_list h cf else TakeFront h cf blocks);
    Ret (with_memory s h, UMM_DATA s cf)
  else Ret (s, 0).

(** ** Specification *)

(** A segment: its length in blocks, and whether it is free. *)
Abbreviation segment := (Z * bool)%type.

(** The segments of the chain with their first blocks; the first one starts at [s]. *)
Fixpoint segs (s : Z) (l : list segment) : list (Z * Z * bool) :=
  match l with
  | [] => []
  | (n, f) :: l => (s, n, f) :: segs (s + n) l
  end.

Definition total (l : list segment) : Z := foldr (fun x a => x.1 + a) 0 l.

Definition free_starts (s : Z) (l : list segment) : list Z :=
  omap (fun x => if x.2 : bool then Some x.1.1 else None) (segs s l).

Definition flag (f : bool) : Z := if f then UMM_FREELIST_MASK else 0.

(** Word [i] of the heap. *)
Definition wd (h : list Z) (i : Z) : Z := h !!! Z.to_nat i.

(** The chain of the segments [l] from block [s], after a segment that starts at
    [p], up to block [s'], which the last segment [p'] precedes. *)
Fixpoint chain (h : list Z) (p s : Z) (l : list segment) (p' s' : Z) : Prop :=
  match l with
  | [] => p' = p /\ s' = s
  | (n, f) :: l =>
      1 <= n /\ wd h (UMM_NBLOCK s) = s + n + flag f /\ wd h (UMM_PBLOCK s) = p /\ chain h s (s + n) l p' s'
  end.

(** The free list from block [a] through [l] to [b], linked in both directions. *)
Fixpoint ring (h : list Z) (a : Z) (l : list Z) (b : Z) : Prop :=
  match l with
  | [] => wd h (UMM_NFREE a) = b /\ wd h (UMM_PFREE b) = a
  | x :: l => wd h (UMM_NFREE a) = x /\ wd h (UMM_PFREE x) = a /\ ring h x l b
  end.

(** The representation of a heap of [N] blocks with the segments [l] and the free
    list [fl]: blocks [0] and [N - 1] are sentinels. *)
Record heap_ok (h : list Z) (N : Z) (l : list segment) (fl : list Z) : Prop := HeapOk {
  ok_blocks : 3 <= N <= 2 ^ 28;
  ok_length : 4 * N <= Z.of_nat (length h);
  ok_first : wd h (UMM_NBLOCK 0) = 1;
  ok_chain : exists p, chain h 0 1 l p (N - 1) /\ wd h (UMM_PBLOCK (N - 1)) = p;
  ok_last : wd h (UMM_NBLOCK (N - 1)) = 0;
  ok_ring : ring h 0 fl 0;
  ok_free : fl ≡ₚ free_starts 1 l
}.

(** No two neighbours are free. *)
Fixpoint separated (l : list segment) : Prop :=
  match l with
  | (_, f) :: (((_, g) :: _) as t) => (f && g = false) /\ separated t
  | _ => True
  end.

(** Word [j] belongs to the data of a used segment. *)
Definition used_in (s0 : Z) (l : list segment) (j : Z) : Prop :=
  exists s n, (s, n, false) ∈ segs s0 l /\ 4 * s + 2 <= j < 4 * (s + n).
Definition used_word (l : list segment) (j : Z) : Prop := used_in 1 l j.

(** What is used before and after is unchanged. *)
Definition keeps (l l' : list segment) (h h' : list Z) : Prop :=
  length h' = length h /\ forall j, used_word l j -> used_word l' j -> wd h' j = wd h j.

(** What [UmmFree] makes of the chain: the segment grows over a free successor
    and is absorbed by a free predecessor. *)
Definition absorb (n : Z) (l : list segment) : Z * list segment :=
  match l with (m, true) :: l => (n + m, l) | _ => (n, l) end.

Definition free_segment (l1 : list segment) (n : Z) (l2 : list segment) : list segment :=
  let '(n, l2) := absorb n l2 in
  match rev l1 with
  | (m, true) :: r => rev r ++ (m + n, true) :: l2
  | _ => l1 ++ (n, true) :: l2
  end.

(** What [UmmMalloc] makes of a free segment of [n] blocks. *)
Definition taken (k n : Z) : list segment := if decide (n = k) then [(k, false)] else [(k, false); (n - k, true)].

(** ** Words and flags *)
Definition upd (h : list Z) (i x : Z) : list Z := <[Z.to_nat i := x]> h.

Lemma rd_wd h i : 0 <= i < Z.of_nat (length h) -> rd h i = Ret (wd h i).
Proof.
  intros Hi. apply rd_lookup; [lia|]. unfold wd. apply list_lookup_lookup_total_lt. lia.
Qed.

Lemma wr_upd h i x : 0 <= i < Z.of_nat (length h) -> wr h i x = Ret (upd h i x).
Proof. apply wr_in. Qed.

Lemma length_upd h i x : length (upd h i x) = length h.
Proof. apply length_insert. Qed.

Lemma wd_upd h i x j : 0 <= i < Z.of_nat (length h) -> 0 <= j ->
  wd (upd h i x) j = if decide (j = i) then x else wd h j.
Proof.
  intros Hi Hj. unfold wd, upd. case_decide as E.
  - subst. apply list_lookup_total_insert_eq. lia.
  - apply list_lookup_total_insert_ne. lia.
Qed.

Definition same_field (f g : field) : bool :=
  match f, g with
  | header_next, header_next | header_prev, header_prev | free_next, free_next | free_prev, free_prev => true
  | _, _ => false
  end.

(** A field after a write to a field. *)
Lemma wd_field h f a x g b : 0 <= a -> 4 * a + 3 < Z.of_nat (length h) -> 0 <= b ->
  wd (upd h (at_field f a) x) (at_field g b) =
  if same_field f g then (if decide (b = a) then x else wd h (at_field g b)) else wd h (at_field g b).
Proof.
  intros Ha Hl Hb. assert (0 <= offset f <= 3) by (destruct f; cbn; lia). assert (0 <= offset g) by (destruct g; cbn; lia).
  rewrite wd_upd by (unfold at_field; lia). unfold at_field. destruct (same_field f g) eqn:E.
  - destruct f, g; try done; cbn; repeat case_decide; lia || done.
  - rewrite decide_False; [done|]. destruct f, g; try done; cbn; lia.
Qed.

Lemma lor_flag x : 0 <= x < 2 ^ 31 -> Z.lor x UMM_FREELIST_MASK = x + UMM_FREELIST_MASK.
Proof.
  intros Hx. change UMM_FREELIST_MASK with (1 * 2 ^ 31). rewrite Z.lor_comm, lor_disjoint by lia. lia.
Qed.

Lemma land_blockno x f : 0 <= x < 2 ^ 31 -> Z.land (x + flag f) UMM_BLOCKNO_MASK = x.
Proof.
  intros Hx. change UMM_BLOCKNO_MASK with (Z.ones 31). rewrite Z.land_ones by lia.
  destruct f; cbn [flag]; [|rewrite Z.add_0_r; by apply Z.mod_small].
  change UMM_FREELIST_MASK with (1 * 2 ^ 31). rewrite Z.mod_add by lia. by apply Z.mod_small.
Qed.

Lemma land_unflag x f : 0 <= x < 2 ^ 31 -> Z.land (x + flag f) (MAX_UINT32 - UMM_FREELIST_MASK) = x.
Proof. exact (land_blockno x f). Qed.

Lemma land_flag x f : 0 <= x < 2 ^ 31 -> Z.land (x + flag f) UMM_FREELIST_MASK = flag f.
Proof.
  intros Hx. change UMM_FREELIST_MASK with (2 ^ 31). apply Z.bits_inj'. intros k Hk.
  rewrite Z.land_spec, Z.pow2_bits_eqb by lia.
  destruct (Z.eqb_spec 31 k) as [<-|Hne]; destruct f; cbn [flag]; change UMM_FREELIST_MASK with (2 ^ 31).
  - rewrite Z.pow2_bits_true by lia. rewrite Z.add_comm. replace (2 ^ 31 + x) with (1 * 2 ^ 31 + x) by lia.
    rewrite <- lor_disjoint by lia. by rewrite Z.lor_spec, Z.mul_1_l, Z.pow2_bits_true.
  - rewrite Z.add_0_r, Z.testbit_0_l. destruct (decide (x = 0)) as [->|]; [done|].
    rewrite Z.bits_above_log2; [done|lia|]. apply Z.log2_lt_pow2; lia.
  - rewrite Z.pow2_bits_false by lia. by rewrite andb_false_r.
  - by rewrite Z.testbit_0_l, andb_false_r.
Qed.

(** ** The chain *)
Lemma total_app l1 l2 : total (l1 ++ l2) = total l1 + total l2.
Proof. unfold total. induction l1 as [|x l1 IH]; cbn [app foldr]; [done|]. rewrite IH. lia. Qed.

Lemma total_cons n f l : total ((n, f) :: l) = n + total l.
Proof. done. Qed.

Lemma segs_app s l1 l2 : segs s (l1 ++ l2) = segs s l1 ++ segs (s + total l1) l2.
Proof.
  revert s. induction l1 as [|[n f] l1 IH]; intros s; cbn [app segs].
  - by rewrite Z.add_0_r.
  - rewrite IH. do 2 f_equal. rewrite total_cons. f_equal. lia.
Qed.

Lemma free_starts_app s l1 l2 : free_starts s (l1 ++ l2) = free_starts s l1 ++ free_starts (s + total l1) l2.
Proof. unfold free_starts. by rewrite segs_app, omap_app. Qed.

Lemma free_starts_cons s n f l :
  free_starts s ((n, f) :: l) = (if f : bool then [s] else []) ++ free_starts (s + n) l.
Proof. by destruct f. Qed.

(** Every segment has at least one block. *)
Definition sized (l : list segment) : Prop := Forall (fun x => 1 <= x.1) l.

Lemma sized_total l : sized l -> 0 <= total l.
Proof. induction 1 as [|[n f] l H Hl IH]; [done|]. rewrite total_cons. cbn in H. lia. Qed.

Lemma segs_range s l b n f : sized l -> (b, n, f) ∈ segs s l -> s <= b /\ 1 <= n /\ b + n <= s + total l.
Proof.
  intros Hl. revert s. induction Hl as [|[m g] l Hm Hl IH]; intros s; cbn [segs]; [by rewrite elem_of_nil|].
  pose proof (sized_total _ Hl). rewrite total_cons. cbn in Hm. rewrite elem_of_cons. intros [[= -> -> ->]|H1].
  - lia.
  - specialize (IH _ H1). lia.
Qed.

Lemma segs_disjoint s l b n f b' n' f' :
  sized l -> (b, n, f) ∈ segs s l -> (b', n', f') ∈ segs s l ->
  b + n <= b' \/ b' + n' <= b \/ (b, n, f) = (b', n', f').
Proof.
  intros Hl. revert s. induction Hl as [|[m g] l Hm Hl IH]; intros s; cbn [segs]; [by rewrite elem_of_nil|].
  rewrite !elem_of_cons. intros [[= -> -> ->]|H1] [[= -> -> ->]|H2]; [by auto| | |by eauto].
  - apply segs_range in H2; [lia|done].
  - apply segs_range in H1; [lia|done].
Qed.

Lemma elem_of_free_starts s l b : b ∈ free_starts s l <-> exists n, (b, n, true) ∈ segs s l.
Proof.
  unfold free_starts. rewrite list_elem_of_omap. split.
  - intros ([[c n] f] & H & Hf). destruct f; [|done]. cbn in Hf. injection Hf as ->. eauto.
  - intros [n H]. exists (b, n, true). by split.
Qed.

Lemma free_starts_range s l b : sized l -> b ∈ free_starts s l -> s <= b < s + total l.
Proof. intros Hl [n H]%elem_of_free_starts. apply segs_range in H; [lia|done]. Qed.

Lemma free_starts_NoDup s l : sized l -> NoDup (free_starts s l).
Proof.
  intros Hl. revert s. induction Hl as [|[n f] l Hn Hl IH]; intros s; [constructor|]. rewrite free_starts_cons.
  destruct f; cbn [app]; [|apply IH]. constructor; [|apply IH]. intros H. apply free_starts_range in H; [cbn in Hn; lia|done].
Qed.

Lemma chain_app h p s l1 l2 p' s' :
  chain h p s (l1 ++ l2) p' s' <-> exists q t, chain h p s l1 q t /\ chain h q t l2 p' s'.
Proof.
  revert p s. induction l1 as [|[n f] l1 IH]; intros p s; cbn [app chain].
  - split; [intros H; by exists p, s|]. by intros (q & t & (-> & ->) & ?).
  - setoid_rewrite IH. split.
    + intros (H1 & H2 & H3 & q & t & H4 & H5). exists q, t. tauto.
    + intros (q & t & (H1 & H2 & H3 & H4) & H5). split; [done|]. split; [done|]. split; [done|]. by exists q, t.
Qed.

Lemma chain_end h p s l p' s' : chain h p s l p' s' -> sized l /\ s' = s + total l.
Proof.
  revert p s. induction l as [|[n f] l IH]; intros p s; cbn [chain].
  - intros (-> & ->). split; [constructor|]. cbn. lia.
  - intros (H1 & _ & _ & H2). destruct (IH _ _ H2) as [H3 ->]. split; [by constructor|]. rewrite total_cons. lia.
Qed.

Lemma chain_frame h h' p s l p' s' :
  (forall b n f, (b, n, f) ∈ segs s l -> wd h' (UMM_NBLOCK b) = wd h (UMM_NBLOCK b) /\ wd h' (UMM_PBLOCK b) = wd h (UMM_PBLOCK b)) ->
  chain h p s l p' s' -> chain h' p s l p' s'.
Proof.
  revert p s. induction l as [|[n f] l IH]; intros p s HF; cbn [chain]; [done|]. intros (H1 & H2 & H3 & H4).
  cbn [segs] in HF. destruct (HF s n f) as [-> ->]; [left|]. repeat (split; [done|]). apply IH; [|done].
  intros b m g Hb. apply (HF b m g). by right.
Qed.

(** The same for a range of blocks. *)
Lemma chain_range h h' p s l p' s' :
  (forall b, s <= b < s + total l -> wd h' (UMM_NBLOCK b) = wd h (UMM_NBLOCK b) /\ wd h' (UMM_PBLOCK b) = wd h (UMM_PBLOCK b)) ->
  chain h p s l p' s' -> chain h' p s l p' s'.
Proof.
  intros HF Hc. pose proof (chain_end _ _ _ _ _ _ Hc) as [Hl _]. revert Hc. apply chain_frame.
  intros b n f Hb. apply HF. apply segs_range in Hb; [lia|done].
Qed.

(** A new predecessor of the first segment. *)
Lemma chain_reprev h h' p p' s l q e :
  chain h p s l q e -> wd h (UMM_PBLOCK e) = q -> wd h' (UMM_PBLOCK s) = p' ->
  (forall b, s <= b < e -> wd h' (UMM_NBLOCK b) = wd h (UMM_NBLOCK b)) ->
  (forall b, s < b <= e -> wd h' (UMM_PBLOCK b) = wd h (UMM_PBLOCK b)) ->
  exists q', chain h' p' s l q' e /\ wd h' (UMM_PBLOCK e) = q'.
Proof.
  intros Hc Hq Hp HN HP. pose proof (chain_end _ _ _ _ _ _ Hc) as [Hl He]. destruct l as [|[n f] l]; cbn [chain] in *.
  - destruct Hc as [_ ->]. by exists p'.
  - destruct Hc as (H1 & H2 & H3 & H4). pose proof (chain_end _ _ _ _ _ _ H4) as [Hl' He']. pose proof (sized_total _ Hl').
    exists q. split; [|by rewrite (HP e) by lia]. rewrite (HN s) by lia. repeat (split; [done|]).
    revert H4. apply chain_range. intros b Hb. split; [apply HN|apply HP]; lia.
Qed.

(** ** The free list *)
Lemma ring_app h a l1 x l2 b : ring h a (l1 ++ x :: l2) b <-> ring h a l1 x /\ ring h x l2 b.
Proof. revert a. induction l1 as [|y l1 IH]; intros a; cbn [app ring]; [tauto|]. rewrite IH. tauto. Qed.

(** The last node before the end. *)
Fixpoint lst (a : Z) (l : list Z) : Z := match l with [] => a | x :: l => lst x l end.

Lemma lst_elem a l : lst a l ∈ a :: l.
Proof. revert a. induction l as [|x l IH]; intros a; cbn [lst]; [by left|right; apply IH]. Qed.

Lemma ring_head h a l b : ring h a l b -> wd h (UMM_NFREE a) = List.hd b l.
Proof. destruct l; cbn [ring List.hd]; tauto. Qed.

Lemma ring_last h a l b : ring h a l b -> wd h (UMM_PFREE b) = lst a l.
Proof. revert a. induction l as [|x l IH]; intros a; cbn [ring lst]; [tauto|]. intros (_ & _ & H). by apply IH. Qed.

(** The list is determined by the next-links of its nodes and the previous-links
    of the nodes behind them; another end may be attached. *)
Lemma ring_retarget h h' a l b b' :
  NoDup (a :: l) ->
  (forall x, x ∈ a :: l -> x <> lst a l -> wd h' (UMM_NFREE x) = wd h (UMM_NFREE x)) ->
  (forall x, x ∈ l -> wd h' (UMM_PFREE x) = wd h (UMM_PFREE x)) ->
  wd h' (UMM_NFREE (lst a l)) = b' -> wd h' (UMM_PFREE b') = lst a l ->
  ring h a l b -> ring h' a l b'.
Proof.
  revert a. induction l as [|x l IH]; intros a HN HF HP H1 H2; cbn [ring lst] in *; [tauto|]. intros (R1 & R2 & R3).
  apply NoDup_cons in HN as [Ha HN]. split; [|split].
  - rewrite HF; [done|by left|]. intros E. apply Ha. rewrite E. apply lst_elem.
  - rewrite HP; [done|by left].
  - apply IH; try done; intros y Hy.
    + intros Hne. apply HF; [by right|done].
    + apply HP. by right.
Qed.

(** Another start may be attached. *)
Lemma ring_restart h h' a a' l b :
  (forall x, x ∈ l -> wd h' (UMM_NFREE x) = wd h (UMM_NFREE x)) ->
  (forall x, x ∈ List.tl (l ++ [b]) -> wd h' (UMM_PFREE x) = wd h (UMM_PFREE x)) ->
  wd h' (UMM_NFREE a') = List.hd b l -> wd h' (UMM_PFREE (List.hd b l)) = a' ->
  ring h a l b -> ring h' a' l b.
Proof.
  revert a a'. induction l as [|x l IH]; intros a a' HF HP H1 H2; cbn [ring List.hd] in *; [tauto|]. intros (R1 & R2 & R3).
  split; [done|]. split; [done|]. pose proof (ring_head _ _ _ _ R3) as E1. apply (IH x x); try done.
  - intros y Hy. apply HF. by right.
  - intros y Hy. apply HP. cbn. destruct l as [|z l]; cbn in *; [by apply elem_of_nil in Hy|by right].
  - rewrite HF; [done|by left].
  - assert (List.hd b l ∈ l ++ [b]) as Hin by (destruct l; left). cbn in HP. rewrite HP by done.
    destruct l as [|z l]; cbn in *; tauto.
Qed.

Lemma ring_frame h h' a l b :
  (forall x, x ∈ a :: l -> wd h' (UMM_NFREE x) = wd h (UMM_NFREE x)) ->
  (forall x, x ∈ l ++ [b] -> wd h' (UMM_PFREE x) = wd h (UMM_PFREE x)) ->
  ring h a l b -> ring h' a l b.
Proof.
  intros HF HP HR. pose proof (ring_head _ _ _ _ HR) as E. apply (ring_restart h h' a a); try done.
  - intros x Hx. apply HF. by right.
  - intros x Hx. apply HP. destruct l; [by apply elem_of_nil in Hx|by right].
  - rewrite HF; [done|left].
  - rewrite HP; [destruct l; cbn in *; tauto|]. destruct l; left.
Qed.

(** Removing a node, and replacing it by another one. *)
Lemma ring_remove h h' f1 c f2 :
  NoDup (0 :: f1 ++ c :: f2) -> ring h 0 (f1 ++ c :: f2) 0 ->
  wd h' (UMM_NFREE (lst 0 f1)) = List.hd 0 f2 -> wd h' (UMM_PFREE (List.hd 0 f2)) = lst 0 f1 ->
  (forall x, x ∈ 0 :: f1 ++ c :: f2 -> x <> lst 0 f1 -> wd h' (UMM_NFREE x) = wd h (UMM_NFREE x)) ->
  (forall x, x ∈ 0 :: f1 ++ c :: f2 -> x <> List.hd 0 f2 -> wd h' (UMM_PFREE x) = wd h (UMM_PFREE x)) ->
  ring h' 0 (f1 ++ f2) 0.
Proof.
  intros HN [R1 R2]%ring_app E1 E2 HF HP. assert (NoDup (0 :: f1)) as HN1.
  { change (0 :: f1 ++ c :: f2) with ((0 :: f1) ++ c :: f2) in HN. by apply NoDup_app in HN as (? & _). }
  destruct f2 as [|b f2]; cbn [List.hd] in *.
  - rewrite app_nil_r. apply (ring_retarget h h' 0 f1 c 0); try done.
    + intros x Hx. apply HF. set_solver.
    + intros x Hx. apply HP; [set_solver|]. intros ->. apply NoDup_cons in HN1 as [HN1 _]. done.
  - apply ring_app. assert (forall x, x ∈ 0 :: f1 ++ [c] -> x ∉ b :: f2) as HD.
    { replace (0 :: f1 ++ c :: b :: f2) with ((0 :: f1 ++ [c]) ++ b :: f2) in HN by (cbn; by rewrite <- app_assoc).
      by apply NoDup_app in HN as (_ & ? & _). }
    assert (NoDup (b :: f2)) as HN2.
    { replace (0 :: f1 ++ c :: b :: f2) with ((0 :: f1 ++ [c]) ++ b :: f2) in HN by (cbn; by rewrite <- app_assoc).
      by apply NoDup_app in HN as (_ & _ & ?). }
    split.
    + apply (ring_retarget h h' 0 f1 c b); try done.
      * intros x Hx. apply HF. set_solver.
      * intros x Hx. apply HP; [set_solver|]. intros ->. apply (HD b); set_solver.
    + destruct R2 as (_ & _ & R2). revert R2. apply ring_frame.
      * intros x Hx. apply HF; [set_solver|]. intros ->. apply (HD (lst 0 f1)); [|done]. pose proof (lst_elem 0 f1). set_solver.
      * intros x Hx. apply HP; [set_solver|]. intros ->. apply elem_of_app in Hx as [Hx|Hx].
        -- by apply NoDup_cons in HN2 as [? _].
        -- apply list_elem_of_singleton in Hx as ->. apply (HD 0); set_solver.
Qed.

Lemma ring_replace h h' f1 c c' f2 :
  NoDup (0 :: f1 ++ c :: f2) -> ring h 0 (f1 ++ c :: f2) 0 ->
  wd h' (UMM_NFREE (lst 0 f1)) = c' -> wd h' (UMM_PFREE c') = lst 0 f1 ->
  wd h' (UMM_NFREE c') = List.hd 0 f2 -> wd h' (UMM_PFREE (List.hd 0 f2)) = c' ->
  (forall x, x ∈ 0 :: f1 ++ c :: f2 -> x <> lst 0 f1 -> wd h' (UMM_NFREE x) = wd h (UMM_NFREE x)) ->
  (forall x, x ∈ 0 :: f1 ++ c :: f2 -> x <> List.hd 0 f2 -> wd h' (UMM_PFREE x) = wd h (UMM_PFREE x)) ->
  ring h' 0 (f1 ++ c' :: f2) 0.
Proof.
  intros HN [R1 R2]%ring_app E1 E2 E3 E4 HF HP. apply ring_app.
  replace (0 :: f1 ++ c :: f2) with ((0 :: f1 ++ [c]) ++ f2) in HN by (cbn; by rewrite <- app_assoc).
  apply NoDup_app in HN as (HN1 & HD & HN2).
  assert (NoDup (0 :: f1)) as HN0 by (change (0 :: f1 ++ [c]) with ((0 :: f1) ++ [c]) in HN1; by apply NoDup_app in HN1 as (? & _)).
  split.
  - apply (ring_retarget h h' 0 f1 c c'); try done.
    + intros x Hx. apply HF. set_solver.
    + intros x Hx. apply HP; [set_solver|]. intros E. apply NoDup_cons in HN0 as [HN0 _].
      destruct f2 as [|b f2]; cbn in E; [congruence|]. apply (HD x); [set_solver|]. subst. by left.
  - apply (ring_restart h h' c c'); try done.
    + intros x Hx. apply HF; [set_solver|]. intros ->. apply (HD (lst 0 f1)); [|done]. pose proof (lst_elem 0 f1). set_solver.
    + intros x Hx. apply HP; [destruct f2; set_solver|]. intros E. destruct f2 as [|b f2]; [by apply elem_of_nil in Hx|]. cbn in Hx, E. subst b.
      apply NoDup_cons in HN2 as [HN2 _]. apply elem_of_app in Hx as [Hx|Hx%list_elem_of_singleton]; [done|].
      subst x. apply (HD 0); [by left|by left].
Qed.

(** ** Facts of a well-formed heap *)
Ltac in_heap := rewrite ?length_upd; unfold at_field; cbn [offset]; lia.
(** Evaluates accesses inside the heap, and words of an updated heap. *)
Ltac accesses := repeat (first [rewrite rd_wd by in_heap | rewrite wr_upd by in_heap]; cbn [mbind outcome_bind]).
Ltac wds := rewrite ?wd_field by (rewrite ?length_upd; lia); cbn [same_field]; repeat case_decide; try (done || (cbn [flag]; lia)).

Lemma used_free l b : sized l -> b = 0 \/ b ∈ free_starts 1 l -> ~ used_word l (UMM_NFREE b) /\ ~ used_word l (UMM_PFREE b).
Proof.
  intros Hl Hb. unfold at_field. cbn [offset].
  assert (forall s n, (s, n, false) ∈ segs 1 l -> 1 <= s /\ 1 <= n /\ (b < s \/ s + n <= b)) as H.
  { intros s n Hs. pose proof (segs_range _ _ _ _ _ Hl Hs). destruct Hb as [->|[m Hm]%elem_of_free_starts]; [lia|].
    destruct (segs_disjoint _ _ _ _ _ _ _ _ Hl Hs Hm) as [H1|[H1|[=]]]; pose proof (segs_range _ _ _ _ _ Hl Hm); lia. }
  split; intros (s & n & Hs & Hj); specialize (H s n Hs); lia.
Qed.

Lemma used_header l b :
  sized l -> b = 0 \/ (exists n f, (b, n, f) ∈ segs 1 l) \/ b = 1 + total l -> ~ used_word l (UMM_NBLOCK b) /\ ~ used_word l (UMM_PBLOCK b).
Proof.
  intros Hl Hb. unfold at_field. cbn [offset].
  assert (forall s n, (s, n, false) ∈ segs 1 l -> 1 <= s /\ 1 <= n /\ (b <= s \/ s + n <= b)) as H.
  { intros s n Hs. pose proof (segs_range _ _ _ _ _ Hl Hs). destruct Hb as [->|[(m & f & Hm)| ->]]; [lia| |lia].
    destruct (segs_disjoint _ _ _ _ _ _ _ _ Hl Hs Hm) as [H1|[H1|[= <- <- <-]]]; pose proof (segs_range _ _ _ _ _ Hl Hm); lia. }
  split; intros (s & n & Hs & Hj); specialize (H s n Hs); lia.
Qed.

Lemma used_nonneg l j : sized l -> used_word l j -> 0 <= j.
Proof. intros Hl (s & n & Hs & Hj). pose proof (segs_range _ _ _ _ _ Hl Hs). lia. Qed.

Lemma used_start l1 n f l2 :
  sized (l1 ++ (n, f) :: l2) ->
  ~ used_word (l1 ++ (n, f) :: l2) (UMM_NBLOCK (1 + total l1)) /\ ~ used_word (l1 ++ (n, f) :: l2) (UMM_PBLOCK (1 + total l1)).
Proof.
  intros HS. apply used_header; [done|]. right. left. exists n, f. rewrite segs_app. apply elem_of_app. right. by left.
Qed.

Lemma used_end l1 n f l2 :
  sized (l1 ++ (n, f) :: l2) ->
  ~ used_word (l1 ++ (n, f) :: l2) (UMM_NBLOCK (1 + total l1 + n)) /\ ~ used_word (l1 ++ (n, f) :: l2) (UMM_PBLOCK (1 + total l1 + n)).
Proof.
  intros HS. destruct l2 as [|[m g] l2].
  - apply used_header; [done|]. right. right. rewrite total_app. cbn. lia.
  - replace (1 + total l1 + n) with (1 + total (l1 ++ [(n, f)])) by (rewrite total_app; cbn; lia).
    replace (l1 ++ (n, f) :: (m, g) :: l2) with ((l1 ++ [(n, f)]) ++ (m, g) :: l2) in * by (by rewrite <- app_assoc). by apply used_start.
Qed.

Lemma used_inside l1 n l2 x g :
  sized (l1 ++ (n, true) :: l2) -> 1 + total l1 <= x < 1 + total l1 + n -> ~ used_word (l1 ++ (n, true) :: l2) (at_field g x).
Proof.
  intros HS Hx (s & m & Hs & Hj). pose proof (segs_range _ _ _ _ _ HS Hs). assert (0 <= offset g <= 3) by (destruct g; cbn; lia).
  assert ((1 + total l1, n, true) ∈ segs 1 (l1 ++ (n, true) :: l2)) as Hm by (rewrite segs_app; apply elem_of_app; right; by left).
  unfold at_field in Hj. destruct (segs_disjoint _ _ _ _ _ _ _ _ HS Hs Hm) as [?|[?|[=]]]; lia.
Qed.

(** Words by block and field. *)
Lemma keeps_fields l l' h h' :
  sized l -> length h' = length h ->
  (forall x, 0 <= x -> used_word l (UMM_NBLOCK x) -> wd h' (UMM_NBLOCK x) = wd h (UMM_NBLOCK x)) ->
  (forall x, 0 <= x -> used_word l (UMM_PBLOCK x) -> wd h' (UMM_PBLOCK x) = wd h (UMM_PBLOCK x)) ->
  (forall x, 0 <= x -> used_word l (UMM_NFREE x) -> used_word l' (UMM_NFREE x) -> wd h' (UMM_NFREE x) = wd h (UMM_NFREE x)) ->
  (forall x, 0 <= x -> used_word l (UMM_PFREE x) -> used_word l' (UMM_PFREE x) -> wd h' (UMM_PFREE x) = wd h (UMM_PFREE x)) ->
  keeps l l' h h'.
Proof.
  intros HS HL H1 H2 H3 H4. split; [done|]. intros j Hj Hj'. pose proof (used_nonneg _ _ HS Hj).
  pose proof (Z.div_mod j 4 ltac:(lia)). pose proof (Z.mod_pos_bound j 4 ltac:(lia)).
  assert (0 <= j / 4) by (apply Z.div_pos; lia).
  assert (exists f, j = at_field f (j / 4)) as [f E].
  { unfold at_field. assert (j mod 4 = 0 \/ j mod 4 = 1 \/ j mod 4 = 2 \/ j mod 4 = 3) as [?|[?|[?|?]]] by lia;
      [exists header_next|exists header_prev|exists free_next|exists free_prev]; cbn; lia. }
  rewrite E in Hj, Hj' |- *. destruct f; eauto.
Qed.

Section Facts.
Context (h : list Z) (N : Z) (l : list segment) (fl : list Z) (H : heap_ok h N l fl).

Lemma heap_sized : sized l /\ 1 + total l = N - 1.
Proof using H. destruct (ok_chain _ _ _ _ H) as (p & Hc & _). apply chain_end in Hc as [? ?]. split; [done|lia]. Qed.

Lemma free_NoDup : NoDup (0 :: fl).
Proof using H.
  destruct heap_sized as [Hs _]. rewrite (ok_free _ _ _ _ H). constructor; [|by apply free_starts_NoDup].
  intros H0. apply free_starts_range in H0; [lia|done].
Qed.

Lemma free_elem b : b ∈ 0 :: fl -> b = 0 \/ b ∈ free_starts 1 l.
Proof using H. rewrite elem_of_cons. intros [->|Hb]; [by left|right]. by rewrite <- (ok_free _ _ _ _ H). Qed.

Lemma free_range b : b ∈ 0 :: fl -> 0 <= b < N - 1.
Proof using H.
  destruct heap_sized as [Hs He]. pose proof (ok_blocks _ _ _ _ H). intros [->|Hb]%free_elem; [lia|].
  apply free_starts_range in Hb; [lia|done].
Qed.

(** The neighbours of a free block in the free list. *)
Lemma free_links c : c ∈ fl -> exists f1 f2, fl = f1 ++ c :: f2
  /\ wd h (UMM_PFREE c) = lst 0 f1 /\ wd h (UMM_NFREE c) = List.hd 0 f2
  /\ lst 0 f1 ∈ 0 :: fl /\ List.hd 0 f2 ∈ 0 :: fl /\ lst 0 f1 <> c /\ List.hd 0 f2 <> c.
Proof using H.
  intros (f1 & f2 & E)%list_elem_of_split. exists f1, f2. pose proof (ok_ring _ _ _ _ H) as R. pose proof free_NoDup as HN.
  rewrite E in R, HN |- *. apply ring_app in R as [R1 R2]. pose proof (lst_elem 0 f1) as He. split; [done|]. split; [by eapply ring_last|]. split; [by eapply ring_head|].
  assert (forall x, x ∈ 0 :: f1 -> x <> c) as HL.
  { intros x Hx ->. change (0 :: f1 ++ c :: f2) with ((0 :: f1) ++ c :: f2) in HN.
    apply NoDup_app in HN as (_ & HN & _). apply (HN c Hx). by left. }
  split; [|split; [|split]].
  - apply elem_of_cons in He as [->|He]; [by left|right]. apply elem_of_app. by left.
  - destruct f2 as [|x f2]; [by left|right]. apply elem_of_app. right. right. by left.
  - by apply HL.
  - destruct f2 as [|x f2]; [apply HL; by left|]. cbn. intros ->.
    change (0 :: f1 ++ c :: c :: f2) with ((0 :: f1) ++ c :: c :: f2) in HN.
    apply NoDup_app in HN as (_ & _ & HN). apply NoDup_cons in HN as [HN _]. apply HN. by left.
Qed.

End Facts.

(** The chain around a segment. *)
Lemma heap_at h N l1 n f l2 fl :
  heap_ok h N (l1 ++ (n, f) :: l2) fl ->
  let c := 1 + total l1 in
  exists p q, chain h 0 1 l1 p c /\ wd h (UMM_NBLOCK c) = c + n + flag f /\ wd h (UMM_PBLOCK c) = p
  /\ chain h c (c + n) l2 q (N - 1) /\ wd h (UMM_PBLOCK (N - 1)) = q
  /\ 1 <= n /\ 1 <= c /\ c + n + total l2 = N - 1 /\ 0 <= total l2 /\ sized l1 /\ sized l2.
Proof.
  intros H c. destruct (ok_chain _ _ _ _ H) as (q & Hc & Hq). apply chain_app in Hc as (p & t & C1 & C2).
  pose proof (chain_end _ _ _ _ _ _ C1) as [S1 ->]. cbn [chain] in C2. destruct C2 as (Hn & C2 & C3 & C4).
  pose proof (chain_end _ _ _ _ _ _ C4) as [S2 E]. pose proof (sized_total _ S1). pose proof (sized_total _ S2).
  exists p, q. unfold c. repeat (split; [done || lia|]). done.
Qed.

(** ** The operations *)

Lemma free_without l1 n l2 fl f1 f2 :
  fl ≡ₚ free_starts 1 (l1 ++ (n, true) :: l2) -> fl = f1 ++ (1 + total l1) :: f2 ->
  f1 ++ f2 ≡ₚ free_starts 1 l1 ++ free_starts (1 + total l1 + n) l2.
Proof.
  intros HP ->. rewrite free_starts_app, free_starts_cons in HP. cbn [app] in HP.
  by apply Permutation_app_inv in HP.
Qed.

(** An allocation of a whole free segment. *)
Lemma disconnect_ok h N l1 n l2 fl :
  heap_ok h N (l1 ++ (n, true) :: l2) fl ->
  let c := 1 + total l1 in
  exists h' f1 f2, fl = f1 ++ c :: f2 /\ umm_disconnect_from_free_list h c = Ret h'
  /\ heap_ok h' N (l1 ++ (n, false) :: l2) (f1 ++ f2)
  /\ keeps (l1 ++ (n, true) :: l2) (l1 ++ (n, false) :: l2) h h'.
Proof.
  intros H c. destruct (heap_at _ _ _ _ _ _ _ H) as (p & q & C1 & C2 & C3 & C4 & C5 & Hn & Hc & He & H2 & S1 & S2). fold c in C1, C2, C3, C4, He, Hc.
  pose proof (ok_blocks _ _ _ _ H) as HN. pose proof (ok_length _ _ _ _ H) as HL. pose proof (heap_sized _ _ _ _ H) as [HS _].
  assert (c ∈ fl) as Hcf.
  { rewrite (ok_free _ _ _ _ H), free_starts_app, free_starts_cons. apply elem_of_app. right. by left. }
  destruct (free_links _ _ _ _ H c Hcf) as (f1 & f2 & E & P1 & P2 & P3 & P4 & P5 & P6).
  pose proof (free_range _ _ _ _ H _ P3). pose proof (free_range _ _ _ _ H _ P4).
  pose proof (free_elem _ _ _ _ H _ P3) as F3. pose proof (free_elem _ _ _ _ H _ P4) as F4.
  set (a := lst 0 f1) in *. set (b := List.hd 0 f2) in *.
  exists (upd (upd (upd h (UMM_NFREE a) b) (UMM_PFREE b) a) (UMM_NBLOCK c) (c + n)), f1, f2. split; [done|]. split; [|split].
  - unfold umm_disconnect_from_free_list. accesses. rewrite P1, P2. accesses.
    assert (wd (upd h (UMM_NFREE a) b) (UMM_NFREE c) = b) as -> by wds.
    assert (wd (upd h (UMM_NFREE a) b) (UMM_PFREE c) = a) as -> by wds.
    accesses.
    assert (wd (upd (upd h (UMM_NFREE a) b) (UMM_PFREE b) a) (UMM_NBLOCK c) = c + n + flag true) as -> by wds.
    by rewrite land_unflag by lia.
  - constructor; rewrite ?length_upd; [done|done| | | | |].
    + rewrite <- (ok_first _ _ _ _ H). wds.
    + exists q. split; [|wds]. apply chain_app. exists p, c. split; [|cbn [chain]; repeat (split; [done || wds|])].
      * revert C1. apply chain_range. intros x Hx. split; wds.
      * revert C4. apply chain_range. intros x Hx. split; wds.
    + rewrite <- (ok_last _ _ _ _ H). wds.
    + pose proof (ok_ring _ _ _ _ H) as HR. pose proof (free_NoDup _ _ _ _ H) as HD. rewrite E in HR, HD.
      apply (ring_remove h _ _ c); fold a b; [done|done|wds|wds| |]; rewrite <- E; intros x Hx Hne;
        pose proof (free_range _ _ _ _ H _ Hx); wds.
    + rewrite free_starts_app, free_starts_cons. cbn [app]. apply (free_without l1 n l2 fl); [apply (ok_free _ _ _ _ H)|done].
  - destruct (used_free _ _ HS F3), (used_free _ _ HS F4), (used_start _ _ _ _ HS) as [? ?].
    apply keeps_fields; [done|by rewrite !length_upd|..]; intros x Hx U; wds; by subst.
Qed.

(** The first blocks of a free block outside of a segment. *)
Lemma free_outside l1 n f l2 x :
  sized (l1 ++ (n, f) :: l2) -> x = 0 \/ x ∈ free_starts 1 (l1 ++ (n, f) :: l2) -> x <= 1 + total l1 \/ 1 + total l1 + n <= x.
Proof.
  intros HS. pose proof HS as [HS1 HS2]%Forall_app. apply Forall_cons in HS2 as [Hn HS2]. cbn in Hn. pose proof (sized_total _ HS1).
  intros [->|[m Hm]%elem_of_free_starts]; [lia|].
  assert ((1 + total l1, n, f) ∈ segs 1 (l1 ++ (n, f) :: l2)) as Hs by (rewrite segs_app; apply elem_of_app; right; by left).
  pose proof (segs_range _ _ _ _ _ HS Hm). destruct (segs_disjoint _ _ _ _ _ _ _ _ HS Hs Hm) as [?|[?|[=]]]; lia.
Qed.

Lemma TakeFront_run h c n m a b :
  wd h (UMM_NBLOCK c) = c + n + flag true -> wd h (UMM_PFREE c) = a -> wd h (UMM_NFREE c) = b ->
  0 <= a -> 0 <= b -> 0 <= c -> 1 <= m < n -> c + n < 2 ^ 31 -> 4 * (c + n) + 3 < Z.of_nat (length h) ->
  4 * a + 3 < Z.of_nat (length h) -> 4 * b + 3 < Z.of_nat (length h) -> a <> c -> b <> c -> a <> c + m -> b <> c + m ->
  exists h', TakeFront h c m = Ret h' /\ length h' = length h
    /\ (forall x, 0 <= x -> wd h' (UMM_NBLOCK x) = if decide (x = c) then c + m else if decide (x = c + m) then c + n + flag true else wd h (UMM_NBLOCK x))
    /\ (forall x, 0 <= x -> wd h' (UMM_PBLOCK x) = if decide (x = c + n) then c + m else if decide (x = c + m) then c else wd h (UMM_PBLOCK x))
    /\ (forall x, 0 <= x -> wd h' (UMM_NFREE x) = if decide (x = c + m) then b else if decide (x = a) then c + m else wd h (UMM_NFREE x))
    /\ (forall x, 0 <= x -> wd h' (UMM_PFREE x) = if decide (x = b) then c + m else if decide (x = c + m) then a else wd h (UMM_PFREE x)).
Proof.
  intros C2 P1 P2 Ha Hb Hc Hm H31 HL HLa HLb N1 N2 N3 N4.
  set (h1 := upd (upd h (UMM_NBLOCK (c + m)) (c + n + flag true)) (UMM_PBLOCK (c + m)) c).
  set (h2 := upd (upd h1 (UMM_PBLOCK (c + n)) (c + m)) (UMM_NBLOCK c) (c + m)).
  set (h3 := upd (upd (upd (upd h2 (UMM_NFREE a) (c + m)) (UMM_PFREE (c + m)) a) (UMM_PFREE b) (c + m)) (UMM_NFREE (c + m)) b).
  assert (length h1 = length h) as L1 by (unfold h1; by rewrite !length_upd).
  assert (length h2 = length h) as L2 by (unfold h2; by rewrite !length_upd).
  exists h3. split; [|split; [unfold h3; by rewrite !length_upd|]].
  - unfold TakeFront, umm_split_block. rewrite !(wrap_small 32 (c + m)) by lia. accesses. rewrite C2, land_blockno, lor_flag by lia. accesses.
    change (c + n + UMM_FREELIST_MASK) with (c + n + flag true). fold h1.
    assert (wd h1 (UMM_NBLOCK c) = c + n + flag true) as -> by (unfold h1; wds). rewrite land_blockno by lia. accesses. fold h2. accesses.
    assert (wd h2 (UMM_PFREE c) = a) as -> by (unfold h2, h1; wds). accesses.
    assert (wd h2 (UMM_NFREE c) = b) as E2 by (unfold h2, h1; wds).
    assert (wd (upd h2 (UMM_NFREE a) (c + m)) (UMM_PFREE c) = a) as -> by (unfold h2, h1; wds). accesses.
    assert (wd (upd (upd h2 (UMM_NFREE a) (c + m)) (UMM_PFREE (c + m)) a) (UMM_NFREE c) = b) as -> by wds. accesses.
    assert (wd (upd (upd (upd h2 (UMM_NFREE a) (c + m)) (UMM_PFREE (c + m)) a) (UMM_PFREE b) (c + m)) (UMM_NFREE c) = b) as -> by wds.
    by accesses.
  - unfold h3, h2, h1. repeat split; intros x Hx; wds.
Qed.

(** An allocation of the front of a free segment. *)
Lemma TakeFront_ok h N l1 n l2 fl m :
  heap_ok h N (l1 ++ (n, true) :: l2) fl -> 1 <= m < n ->
  let c := 1 + total l1 in
  exists h' f1 f2, fl = f1 ++ c :: f2 /\ TakeFront h c m = Ret h'
  /\ heap_ok h' N (l1 ++ (m, false) :: (n - m, true) :: l2) (f1 ++ (c + m) :: f2)
  /\ keeps (l1 ++ (n, true) :: l2) (l1 ++ (m, false) :: (n - m, true) :: l2) h h'.
Proof.
  intros H Hm c. destruct (heap_at _ _ _ _ _ _ _ H) as (p & q & C1 & C2 & C3 & C4 & C5 & Hn & Hc & He & H2 & S1 & S2). fold c in C1, C2, C3, C4, He, Hc.
  pose proof (ok_blocks _ _ _ _ H) as HN. pose proof (ok_length _ _ _ _ H) as HL. pose proof (heap_sized _ _ _ _ H) as [HS _].
  assert (c ∈ fl) as Hcf.
  { rewrite (ok_free _ _ _ _ H), free_starts_app, free_starts_cons. apply elem_of_app. right. by left. }
  destruct (free_links _ _ _ _ H c Hcf) as (f1 & f2 & E & P1 & P2 & P3 & P4 & P5 & P6).
  pose proof (free_range _ _ _ _ H _ P3). pose proof (free_range _ _ _ _ H _ P4).
  pose proof (free_elem _ _ _ _ H _ P3) as F3. pose proof (free_elem _ _ _ _ H _ P4) as F4.
  pose proof (free_outside _ _ _ _ _ HS F3) as O3. pose proof (free_outside _ _ _ _ _ HS F4) as O4. fold c in O3, O4.
  destruct (TakeFront_run h c n m (lst 0 f1) (List.hd 0 f2) C2 P1 P2) as (h' & ER & EL & WN & WP & WF & WQ); [lia..|].
  exists h', f1, f2. split; [done|]. split; [done|]. split.
  - constructor; rewrite ?EL; [done|done| | | | |].
    + rewrite WN, !decide_False by lia. apply (ok_first _ _ _ _ H).
    + destruct (chain_reprev h h' c (c + m) (c + n) l2 q (N - 1)) as (q' & K1 & K2); try done.
      { rewrite WP by lia. by rewrite decide_True. }
      { intros x Hx. rewrite WN by lia. by rewrite !decide_False by lia. }
      { intros x Hx. rewrite WP by lia. by rewrite !decide_False by lia. }
      exists q'. split; [|done]. apply chain_app. exists p, c. split; [|cbn [chain]].
      * revert C1. apply chain_range. intros x Hx. rewrite WN, WP by lia. by rewrite !decide_False by lia.
      * rewrite !WN, !WP by lia. repeat case_decide; try lia. cbn [flag]. replace (c + m + (n - m)) with (c + n) by lia.
        repeat split; (done || lia).
    + rewrite WN, !decide_False by lia. apply (ok_last _ _ _ _ H).
    + pose proof (ok_ring _ _ _ _ H) as HR. pose proof (free_NoDup _ _ _ _ H) as HD. rewrite E in HR, HD.
      apply (ring_replace h _ _ c); try done; [rewrite ?WF, ?WQ by lia; repeat case_decide; (done || lia)..| |]; rewrite <- E; intros x Hx Hne;
        pose proof (free_range _ _ _ _ H _ Hx); pose proof (free_outside _ _ _ _ _ HS (free_elem _ _ _ _ H _ Hx));
        rewrite ?WF, ?WQ by lia; by rewrite !decide_False by lia.
    + rewrite free_starts_app, !free_starts_cons. cbn [app]. fold c. rewrite <- !Permutation_middle. constructor.
      replace (c + m + (n - m)) with (c + n) by lia. apply (free_without l1 n l2 fl); [apply (ok_free _ _ _ _ H)|done].
  - destruct (used_free _ _ HS F3), (used_free _ _ HS F4), (used_start _ _ _ _ HS), (used_end _ _ _ _ HS).
    apply keeps_fields; [done|done|..]; intros x Hx U; rewrite ?WN, ?WP, ?WF, ?WQ by lia.
    all: repeat case_decide; try done; subst; try done; exfalso; revert U; apply used_inside; (done || lia).
Qed.

(** Two neighbours become one segment; the second one is used. *)
Lemma merge_ok h h' N l1 n f m l3 fl :
  heap_ok h N (l1 ++ (n, f) :: (m, false) :: l3) fl ->
  let c := 1 + total l1 in
  length h' = length h ->
  (forall x, 0 <= x -> wd h' (UMM_NBLOCK x) = if decide (x = c) then c + n + m + flag f else wd h (UMM_NBLOCK x)) ->
  (forall x, 0 <= x -> wd h' (UMM_PBLOCK x) = if decide (x = c + n + m) then c else wd h (UMM_PBLOCK x)) ->
  (forall x, 0 <= x -> wd h' (UMM_NFREE x) = wd h (UMM_NFREE x) /\ wd h' (UMM_PFREE x) = wd h (UMM_PFREE x)) ->
  heap_ok h' N (l1 ++ (n + m, f) :: l3) fl
  /\ keeps (l1 ++ (n, f) :: (m, false) :: l3) (l1 ++ (n + m, f) :: l3) h h'.
Proof.
  intros H c EL WN WP WF. destruct (heap_at _ _ _ _ _ _ _ H) as (p & q & C1 & C2 & C3 & C4 & C5 & Hn & Hc & He & H2 & S1 & S2).
  fold c in C1, C2, C3, C4, He, Hc. cbn [chain] in C4. destruct C4 as (Hm & D2 & D3 & D4).
  pose proof (chain_end _ _ _ _ _ _ D4) as [S3 E3]. pose proof (sized_total _ S3). rewrite total_cons in He.
  pose proof (ok_blocks _ _ _ _ H) as HN. pose proof (heap_sized _ _ _ _ H) as [HS _]. split.
  - constructor; rewrite ?EL; [done|apply (ok_length _ _ _ _ H)| | | | |].
    + rewrite WN, decide_False by lia. apply (ok_first _ _ _ _ H).
    + destruct (chain_reprev h h' (c + n) c (c + n + m) l3 q (N - 1)) as (q' & K1 & K2); try done.
      { rewrite WP by lia. by rewrite decide_True. }
      { intros x Hx. rewrite WN by lia. by rewrite decide_False by lia. }
      { intros x Hx. rewrite WP by lia. by rewrite decide_False by lia. }
      exists q'. split; [|done]. apply chain_app. exists p, c. split; [|cbn [chain]].
      * revert C1. apply chain_range. intros x Hx. rewrite WN, WP by lia. by rewrite !decide_False by lia.
      * rewrite WN, WP by lia. rewrite decide_True, decide_False by lia. replace (c + (n + m)) with (c + n + m) by lia.
        repeat split; (done || lia).
    + rewrite WN, decide_False by lia. apply (ok_last _ _ _ _ H).
    + apply (ring_frame h); [| |apply (ok_ring _ _ _ _ H)]; intros x Hx; apply WF.
      * apply (free_range _ _ _ _ H) in Hx. lia.
      * assert (x ∈ 0 :: fl) as Hx' by set_solver. apply (free_range _ _ _ _ H) in Hx'. lia.
    + rewrite (ok_free _ _ _ _ H), !free_starts_app, !free_starts_cons. cbn [app]. by replace (1 + total l1 + n + m) with (1 + total l1 + (n + m)) by lia.
  - destruct (used_start _ _ _ _ HS). pose proof HS as HS'.
    replace (l1 ++ (n, f) :: (m, false) :: l3) with ((l1 ++ [(n, f)]) ++ (m, false) :: l3) in HS' by (by rewrite <- app_assoc).
    destruct (used_end _ _ _ _ HS') as [_ U]. rewrite <- app_assoc, total_app in U. cbn [app] in U.
    replace (1 + (total l1 + total [(n, f)]) + m) with (c + n + m) in U by (unfold c; cbn; lia).
    apply keeps_fields; [done|done|..]; intros x Hx U'; rewrite ?WN, ?WP by lia; try (intros _; by apply WF);
      case_decide; subst; done.
Qed.

(** A used segment becomes free, at the head of the free list. *)
Lemma link_ok h h' N l1 n l2 fl :
  heap_ok h N (l1 ++ (n, false) :: l2) fl ->
  let c := 1 + total l1 in
  length h' = length h ->
  (forall x, 0 <= x -> wd h' (UMM_NBLOCK x) = if decide (x = c) then c + n + flag true else wd h (UMM_NBLOCK x)) ->
  (forall x, 0 <= x -> wd h' (UMM_PBLOCK x) = wd h (UMM_PBLOCK x)) ->
  (forall x, 0 <= x -> wd h' (UMM_NFREE x) = if decide (x = 0) then c else if decide (x = c) then List.hd 0 fl else wd h (UMM_NFREE x)) ->
  (forall x, 0 <= x -> wd h' (UMM_PFREE x) = if decide (x = c) then 0 else if decide (x = List.hd 0 fl) then c else wd h (UMM_PFREE x)) ->
  heap_ok h' N (l1 ++ (n, true) :: l2) (c :: fl)
  /\ keeps (l1 ++ (n, false) :: l2) (l1 ++ (n, true) :: l2) h h'.
Proof.
  intros H c EL WN WP WF WQ. destruct (heap_at _ _ _ _ _ _ _ H) as (p & q & C1 & C2 & C3 & C4 & C5 & Hn & Hc & He & H2 & S1 & S2).
  fold c in C1, C2, C3, C4, He, Hc.
  pose proof (ok_blocks _ _ _ _ H) as HN. pose proof (heap_sized _ _ _ _ H) as [HS _].
  assert (sized (l1 ++ (n, true) :: l2)) as HS' by (apply Forall_app; split; [done|by constructor]).
  assert (List.hd 0 fl ∈ 0 :: fl) as Hhd by (destruct fl; [left|right; left]).
  pose proof (free_elem _ _ _ _ H _ Hhd) as F4. pose proof (free_range _ _ _ _ H _ Hhd).
  assert (c ∉ fl) as Hcf.
  { intros Hc'. assert (c ∈ 0 :: fl) as Hc'' by (by right). apply (free_elem _ _ _ _ H) in Hc'' as [?|Hf]; [lia|].
    apply elem_of_free_starts in Hf as [k Hk].
    assert ((c, n, false) ∈ segs 1 (l1 ++ (n, false) :: l2)) as Hs by (rewrite segs_app; apply elem_of_app; right; by left).
    pose proof (segs_range _ _ _ _ _ HS Hk). destruct (segs_disjoint _ _ _ _ _ _ _ _ HS Hs Hk) as [?|[?|[=]]]; lia. }
  split.
  - constructor; rewrite ?EL; [done|apply (ok_length _ _ _ _ H)| | | | |].
    + rewrite WN, decide_False by lia. apply (ok_first _ _ _ _ H).
    + exists q. rewrite WP by lia. split; [|done]. apply chain_app. exists p, c. split; [|cbn [chain]].
      * revert C1. apply chain_range. intros x Hx. rewrite WN, WP by lia. by rewrite !decide_False by lia.
      * rewrite WN, WP by lia. rewrite decide_True by done. repeat (split; [done|]).
        revert C4. apply chain_range. intros x Hx. rewrite WN, WP by lia. by rewrite decide_False by lia.
    + rewrite WN, decide_False by lia. apply (ok_last _ _ _ _ H).
    + cbn [ring]. rewrite WF, WQ by lia. rewrite !decide_True by done. split; [done|]. split; [done|].
      pose proof (free_NoDup _ _ _ _ H) as HD. apply NoDup_cons in HD as [HD0 HD].
      apply (ring_restart h _ 0); [| | | |apply (ok_ring _ _ _ _ H)].
      * intros x Hx. assert (0 <= x) by (apply (free_range _ _ _ _ H x); by right). rewrite WF, !decide_False; try done; by intros ->.
      * intros x Hx. assert (x ∈ 0 :: fl) as Hx' by (destruct fl; set_solver). pose proof (free_range _ _ _ _ H _ Hx').
        rewrite WQ, !decide_False; try lia.
        -- intros ->. destruct fl as [|y fl]; [by apply elem_of_nil in Hx|]. cbn in Hx. apply NoDup_cons in HD as [HD _]. set_solver.
        -- intros ->. apply elem_of_cons in Hx' as [?|?]; [lia|done].
      * rewrite WF, decide_False, decide_True by lia. done.
      * rewrite WQ by lia. rewrite decide_False, decide_True; [done..|]. intros E. rewrite E in Hhd. apply elem_of_cons in Hhd as [?|?]; [lia|done].
    + rewrite (ok_free _ _ _ _ H), !free_starts_app, !free_starts_cons. cbn [app]. by rewrite <- Permutation_middle.
  - destruct (used_free _ _ HS F4), (used_start _ _ _ _ HS).
    destruct (used_free _ 0 HS (or_introl eq_refl)).
    apply keeps_fields; [done|done|..]; intros x Hx U; rewrite ?WN, ?WP, ?WF, ?WQ by lia; try done; repeat case_decide; subst; try done.
    all: intros U'; exfalso; revert U'; apply used_inside; (done || lia).
Qed.

Lemma used_in_app s l1 l2 j : used_in s (l1 ++ l2) j <-> used_in s l1 j \/ used_in (s + total l1) l2 j.
Proof.
  unfold used_in. rewrite segs_app. split.
  - intros (b & n & [Hb|Hb]%elem_of_app & Hj); [left|right]; by exists b, n.
  - intros [(b & n & Hb & Hj)|(b & n & Hb & Hj)]; exists b, n; (split; [apply elem_of_app; by (left + right)|done]).
Qed.

Lemma used_in_cons s n f l j : used_in s ((n, f) :: l) j <-> (f = false /\ 4 * s + 2 <= j < 4 * (s + n)) \/ used_in (s + n) l j.
Proof.
  unfold used_in. cbn [segs]. split.
  - intros (b & m & [[= -> -> ->]|Hb]%elem_of_cons & Hj); [by left|right]. by exists b, m.
  - intros [[-> Hj]|(b & m & Hb & Hj)]; [exists s, n|exists b, m]; (split; [|done]); [by left|by right].
Qed.

Lemma keeps_trans l l' l'' h h' h'' :
  keeps l l' h h' -> keeps l' l'' h' h'' -> (forall j, used_word l j -> used_word l'' j -> used_word l' j) -> keeps l l'' h h''.
Proof. intros [L1 K1] [L2 K2] H. split; [lia|]. intros j U U''. rewrite K2, K1; auto. Qed.

Lemma keeps_refl l h : keeps l l h h.
Proof. done. Qed.

Lemma absorb_total n l2 : let '(n', l2') := absorb n l2 in n' + total l2' = n + total l2.
Proof. destruct l2 as [|[m []] l2]; cbn [absorb]; rewrite ?total_cons; lia. Qed.

(** The data of the other segments. *)
Lemma used_flip l1 n l2 j : used_word (l1 ++ (n, true) :: l2) j -> used_word (l1 ++ (n, false) :: l2) j.
Proof. unfold used_word. rewrite !used_in_app, !used_in_cons. intuition congruence. Qed.

Lemma used_join l1 m n l2 j : used_word (l1 ++ (m + n, true) :: l2) j -> used_word (l1 ++ (m, true) :: (n, false) :: l2) j.
Proof.
  unfold used_word. rewrite !used_in_app, !used_in_cons. replace (1 + total l1 + (m + n)) with (1 + total l1 + m + n) by lia.
  intuition congruence.
Qed.

(** The start of the segment before a segment. *)
Lemma chain_pred h l1 p c : chain h 0 1 l1 p c ->
  (l1 = [] /\ p = 0) \/ exists l0 m f, l1 = l0 ++ [(m, f)] /\ p = 1 + total l0 /\ wd h (UMM_NBLOCK p) = c + flag f.
Proof.
  induction l1 as [|[m f] l0 _] using rev_ind; [intros (-> & _); by left|]. intros (q & t & C1 & C2)%chain_app. right.
  pose proof (chain_end _ _ _ _ _ _ C1) as [_ ->]. cbn [chain] in C2. destruct C2 as (_ & C2 & _ & -> & ->). by exists l0, m, f.
Qed.

(** [umm_assimilate_up] *)
Lemma up_ok h N l1 n l2 fl :
  heap_ok h N (l1 ++ (n, false) :: l2) fl ->
  exists h' fl', umm_assimilate_up h (1 + total l1) = Ret h'
  /\ heap_ok h' N (l1 ++ ((absorb n l2).1, false) :: (absorb n l2).2) fl'
  /\ keeps (l1 ++ (n, false) :: l2) (l1 ++ ((absorb n l2).1, false) :: (absorb n l2).2) h h'.
Proof.
  intros H. destruct (heap_at _ _ _ _ _ _ _ H) as (p & q & C1 & C2 & C3 & C4 & C5 & Hn & Hc & He & H2 & S1 & S2).
  pose proof (ok_blocks _ _ _ _ H) as HN. pose proof (ok_length _ _ _ _ H) as HL. set (c := 1 + total l1) in *.
  unfold umm_assimilate_up. accesses. rewrite C2. cbn [flag]. rewrite Z.add_0_r. accesses.
  destruct l2 as [|[m f] l3].
  - cbn [absorb fst snd]. destruct C4 as [_ E]. rewrite <- E, (ok_last _ _ _ _ H). cbn. by exists h, fl.
  - cbn [chain] in C4. destruct C4 as (Hm & D2 & D3 & D4). rewrite total_cons in He.
    pose proof (sized_total l3 ltac:(by inversion S2)) as H3. rewrite D2, land_flag by lia. destruct f; cbn [flag absorb fst snd].
    2: { by exists h, fl. }
    rewrite decide_True by done.
    replace (l1 ++ (n, false) :: (m, true) :: l3) with ((l1 ++ [(n, false)]) ++ (m, true) :: l3) in H by (by rewrite <- app_assoc).
    destruct (disconnect_ok _ _ _ _ _ _ H) as (h1 & f1 & f2 & E1 & ER & HK & [EL KK]).
    assert (1 + total (l1 ++ [(n, false)]) = c + n) as Ec by (rewrite total_app; unfold c; cbn; lia). rewrite Ec in ER.
    rewrite <- !app_assoc in HK, KK. cbn [app] in HK, KK.
    rewrite ER. cbn [mbind outcome_bind].
    destruct (heap_at _ _ _ _ _ _ _ HK) as (p' & q' & _ & C2' & _ & C4' & _). fold c in C2', C4'. cbn [chain] in C4'. destruct C4' as (_ & D2' & _).
    cbn [flag] in C2', D2'. rewrite Z.add_0_r in C2', D2'. accesses. rewrite C2'. accesses. rewrite D2'. 
    pose proof (land_blockno (c + n + m) false ltac:(lia)) as EB. cbn [flag] in EB. rewrite Z.add_0_r in EB. rewrite EB. accesses.
    set (h2 := upd h1 (UMM_PBLOCK (c + n + m)) c). assert (length h2 = length h1) as L2 by apply length_upd.
    assert (wd h2 (UMM_NBLOCK c) = c + n) as -> by (unfold h2; wds). accesses.
    assert (wd h2 (UMM_NBLOCK (c + n)) = c + n + m) as -> by (unfold h2; wds). rewrite EB. accesses.
    destruct (merge_ok h1 (upd h2 (UMM_NBLOCK c) (c + n + m)) N l1 n false m l3 (f1 ++ f2) HK) as [HM KM]; fold c.
    { by rewrite length_upd. }
    1, 2: intros x Hx; unfold h2; wds.
    { intros x Hx. unfold h2. split; wds. }
    eexists _, _. split; [done|]. split; [done|].
    apply (keeps_trans _ (l1 ++ (n, false) :: (m, false) :: l3) _ _ h1); [split; [exact EL|]|done|].
    { intros j Hj Hj'. apply KK; [done|by rewrite <- app_assoc]. }
    intros j. unfold used_word. rewrite !used_in_app, !used_in_cons. tauto.
Qed.

Lemma LinkFree_ok h N l1 n l2 fl :
  heap_ok h N (l1 ++ (n, false) :: l2) fl ->
  exists h', LinkFree h (1 + total l1) = Ret h' /\ heap_ok h' N (l1 ++ (n, true) :: l2) (1 + total l1 :: fl)
  /\ keeps (l1 ++ (n, false) :: l2) (l1 ++ (n, true) :: l2) h h'.
Proof.
  intros H. destruct (heap_at _ _ _ _ _ _ _ H) as (p & q & C1 & C2 & C3 & C4 & C5 & Hn & Hc & He & H2 & S1 & S2).
  pose proof (ok_blocks _ _ _ _ H) as HN. pose proof (ok_length _ _ _ _ H) as HL. set (c := 1 + total l1) in *.
  assert (List.hd 0 fl ∈ 0 :: fl) as Hhd by (destruct fl; [left|right; left]). pose proof (free_range _ _ _ _ H _ Hhd) as HR.
  pose proof (ring_head _ _ _ _ (ok_ring _ _ _ _ H)) as E0. set (x := List.hd 0 fl) in *. cbn [flag] in C2. rewrite Z.add_0_r in C2.
  set (h4 := upd (upd (upd (upd h (UMM_PFREE x) c) (UMM_NFREE c) x) (UMM_PFREE c) 0) (UMM_NFREE 0) c).
  assert (length h4 = length h) as L4 by (unfold h4; by rewrite !length_upd).
  destruct (link_ok h (upd h4 (UMM_NBLOCK c) (c + n + flag true)) N l1 n l2 fl H) as [HH HK]; fold c x.
  1: by rewrite length_upd.
  1-4: intros y Hy; unfold h4; wds.
  eexists. split; [|by split]. unfold LinkFree. accesses. rewrite E0. accesses.
  assert (wd (upd h (UMM_PFREE x) c) (UMM_NFREE 0) = x) as -> by wds. accesses. fold h4.
  assert (wd h4 (UMM_NBLOCK c) = c + n) as -> by (unfold h4; wds). rewrite lor_flag by lia. by accesses.
Qed.

(** [umm_assimilate_down] into a free predecessor. *)
Lemma down_ok h N l0 m n l2 fl :
  heap_ok h N (l0 ++ (m, true) :: (n, false) :: l2) fl ->
  exists h', umm_assimilate_down h (1 + total l0 + m) UMM_FREELIST_MASK = Ret (h', 1 + total l0)
  /\ heap_ok h' N (l0 ++ (m + n, true) :: l2) fl
  /\ keeps (l0 ++ (m, true) :: (n, false) :: l2) (l0 ++ (m + n, true) :: l2) h h'.
Proof.
  intros H. destruct (heap_at _ _ _ _ _ _ _ H) as (p & q & C1 & C2 & C3 & C4 & C5 & Hm & Hc & He & H2 & S1 & S2).
  pose proof (ok_blocks _ _ _ _ H) as HN. pose proof (ok_length _ _ _ _ H) as HL. set (c := 1 + total l0) in *.
  cbn [chain] in C4. destruct C4 as (Hn & D2 & D3 & D4). rewrite total_cons in He. pose proof (chain_end _ _ _ _ _ _ D4) as [S3 _].
  pose proof (sized_total _ S3). cbn [flag] in D2. rewrite Z.add_0_r in D2.
  set (h1 := upd h (UMM_NBLOCK c) (c + m + n + flag true)). assert (length h1 = length h) as L1 by apply length_upd.
  destruct (merge_ok h (upd h1 (UMM_PBLOCK (c + m + n)) c) N l0 m true n l2 fl H) as [HM KM]; fold c.
  { by rewrite length_upd. }
  1, 2: intros x Hx; unfold h1; wds.
  { intros x Hx. unfold h1. split; wds. }
  eexists. split; [|by split]. unfold umm_assimilate_down. accesses. rewrite D3. accesses. rewrite D2, lor_flag by lia.
  accesses. change (c + m + n + UMM_FREELIST_MASK) with (c + m + n + flag true). fold h1.
  assert (wd h1 (UMM_NBLOCK (c + m)) = c + m + n) as -> by (unfold h1; wds).
  assert (wd h1 (UMM_PBLOCK (c + m)) = c) as -> by (unfold h1; wds). accesses.
  assert (wd (upd h1 (UMM_PBLOCK (c + m + n)) c) (UMM_PBLOCK (c + m)) = c) as -> by (unfold h1; wds). done.
Qed.

(** The state of the allocator, as [UmmSetHeap] leaves it. *)
Record state_ok (s : umm_state) (l : list segment) (fl : list Z) : Prop := StateOk {
  ok_heap : heap_ok s.(memory) s.(umm_numblocks) l fl;
  ok_separated : separated l;
  ok_address : 0 < s.(default_umm_heap);
  ok_size : 16 * s.(umm_numblocks) <= s.(default_umm_heap_size)
}.

Lemma separated_app l1 l2 :
  separated (l1 ++ l2) <-> separated l1 /\ separated l2
    /\ (forall n f l1' m g l2', l1 = l1' ++ [(n, f)] -> l2 = (m, g) :: l2' -> f && g = false).
Proof.
  induction l1 as [|[n f] l1 IH]; cbn [app].
  - split; [|tauto]. intros H. split; [done|]. split; [done|]. intros n f [|? ?] m g l2' [=].
  - destruct l1 as [|[m g] l1]; cbn [app] in *.
    + destruct l2 as [|[k e] l2]; cbn [separated].
      * split; [|tauto]. intros _. split; [done|]. split; [done|]. intros ? ? ? ? ? ? _ [=].
      * split.
        -- intros [H1 H2]. split; [done|]. split; [done|]. intros a b [|? [|? ?]] c d w [=] [=]; by subst.
        -- intros (_ & H2 & H3). split; [by apply (H3 n f [] k e l2)|done].
    + cbn [separated]. cbn [separated] in IH. rewrite IH. split.
      * intros (H1 & H2 & H3 & H4). split; [done|]. split; [done|]. intros a b [|x l] c d l' E1 E2; [done|].
        cbn [app] in E1. injection E1 as _ E1. by apply (H4 a b l c d l').
      * intros ((H1 & H2) & H3 & H4). split; [done|]. split; [done|]. split; [done|].
        intros a b l c d l' E1 E2. apply (H4 a b ((n, f) :: l) c d l'); [cbn [app]; by rewrite E1|done].
Qed.

Lemma separated_free l1 n l2 : separated (l1 ++ (n, false) :: l2) -> separated (free_segment l1 n l2).
Proof.
  intros (H1 & H2 & _)%separated_app.
  assert (forall k, separated ((k, true) :: (absorb n l2).2) /\ (absorb n l2).1 = (absorb n l2).1) as HA.
  { intros k. split; [|done]. destruct l2 as [|[m []] l2]; cbn [absorb snd]; [done| |done].
    destruct l2 as [|[e g] l2]; [done|]. cbn [separated] in *. destruct g; [by destruct H2 as (_ & ? & _)|]. cbn. tauto. }
  unfold free_segment. destruct (absorb n l2) as [n' l2'] eqn:E. cbn [snd] in HA.
  destruct (rev l1) as [|[m []] r] eqn:ER; apply (f_equal (@rev _)) in ER; rewrite rev_involutive in ER; subst l1.
  - apply HA.
  - cbn [rev] in H1. apply separated_app in H1 as (H1 & _ & H3). apply separated_app. split; [done|]. split; [apply HA|].
    intros a b l c d l' E1 [= <- <- <-]. pose proof (H3 a b l m true [] E1 eq_refl) as Hb. by destruct b.
  - cbn [rev] in *. apply separated_app. split; [done|]. split; [apply HA|].
    intros a b l c d l' E1 [= <- <- <-]. apply app_inj_tail in E1 as [_ [= <- <-]]. done.
Qed.

(** [UmmFree] of the address of a used segment. *)
Lemma UmmFree_ok s l1 n l2 fl :
  state_ok s (l1 ++ (n, false) :: l2) fl ->
  exists h' fl', UmmFree s (UMM_DATA s (1 + total l1)) = Ret (with_memory s h', true)
  /\ state_ok (with_memory s h') (free_segment l1 n l2) fl'
  /\ keeps (l1 ++ (n, false) :: l2) (free_segment l1 n l2) s.(memory) h'.
Proof.
  intros [H HSep HA HSz]. destruct (heap_at _ _ _ _ _ _ _ H) as (p0 & q0 & _ & _ & _ & _ & _ & Hn0 & Hc & He & H2 & _).
  pose proof (ok_blocks _ _ _ _ H) as HN. set (c := 1 + total l1) in *.
  assert (forall h' fl', heap_ok h' (umm_numblocks s) (free_segment l1 n l2) fl' -> state_ok (with_memory s h') (free_segment l1 n l2) fl') as HW.
  { intros h' fl' HH. constructor; [done|by apply separated_free|done|done]. }
  unfold UmmFree, UmmInitialized, UMM_DATA, sizeof_umm_block. rewrite bool_decide_eq_true_2 by lia. cbn [negb].
  rewrite decide_False by lia. rewrite decide_False by lia.
  replace (default_umm_heap s + c * 16 + 8 - default_umm_heap s) with (8 + c * 16) by lia. rewrite Z.div_add by lia.
  change (8 / 16) with 0. rewrite Z.add_0_l, (wrap_small 32 c) by lia.
  destruct (up_ok _ _ _ _ _ _ H) as (h1 & fl1 & ER & H1 & K1). fold c in ER. rewrite ER. cbn [mbind outcome_bind].
  pose proof (absorb_total n l2) as EA. unfold free_segment in *. destruct (absorb n l2) as [n1 l3]. cbn [fst snd] in *.
  destruct (heap_at _ _ _ _ _ _ _ H1) as (p & q & C1 & C2 & C3 & C4 & C5 & Hn & _ & He1 & H3 & S1 & S3). fold c in C1, C2, C3, C4, He1.
  pose proof (ok_length _ _ _ _ H1) as HL. cbn [flag] in C2. rewrite Z.add_0_r in C2.
  accesses. rewrite C3.
  destruct (chain_pred _ _ _ _ C1) as [[-> ->]|(l0 & m & f & -> & -> & D)].
  - cbn [rev app] in *. rewrite (rd_wd h1) by in_heap. rewrite (ok_first _ _ _ _ H1). cbn [mbind outcome_bind].
    rewrite decide_False by (intros []; done).
    destruct (LinkFree_ok h1 _ [] n1 l3 fl1 H1) as (h2 & E2 & H4 & K2). fold c in E2, H4. rewrite E2. cbn [mbind outcome_bind].
    exists h2, (c :: fl1). split; [done|]. split; [by apply HW|].
    apply (keeps_trans _ _ _ _ _ _ K1 K2). intros j _. apply (used_flip []).
  - pose proof (chain_end _ _ _ _ _ _ C1) as [S0 Ec]. apply Forall_app in S0 as [S0 Sm]. pose proof (sized_total _ S0).
    apply Forall_cons in Sm as [Hm _]. cbn in Hm.
    assert (c = 1 + total l0 + m) as Ec' by (unfold c; rewrite total_app; cbn; lia).
    rewrite rev_app_distr in *. cbn [rev app] in *. accesses. rewrite D, land_flag by lia.
    destruct f; cbn [flag].
    + rewrite decide_True by done. rewrite <- app_assoc in H1. cbn [app] in H1.
      destruct (down_ok _ _ _ _ _ _ _ H1) as (h2 & E2 & H4 & K2). rewrite Ec', E2. cbn [mbind outcome_bind].
      rewrite rev_involutive in *. exists h2, fl1. split; [done|]. split; [by apply HW|].
      assert (forall x, (l0 ++ [(m, true)]) ++ x = l0 ++ (m, true) :: x) as EA' by (intros x; by rewrite <- app_assoc).
      rewrite EA'. do 2 rewrite EA' in K1. apply (keeps_trans _ _ _ _ _ _ K1 K2). intros j _. apply used_join.
    + rewrite decide_False by (intros []; done).
      destruct (LinkFree_ok _ _ _ _ _ _ H1) as (h2 & E2 & H4 & K2). fold c in E2, H4. rewrite E2. cbn [mbind outcome_bind].
      exists h2, (c :: fl1). split; [done|]. split; [by apply HW|].
      apply (keeps_trans _ _ _ _ _ _ K1 K2). intros j _. apply used_flip.
Qed.

(** ** Allocation *)

Lemma segs_split s l b n f : (b, n, f) ∈ segs s l -> exists l1 l2, l = l1 ++ (n, f) :: l2 /\ b = s + total l1.
Proof.
  revert s. induction l as [|[m g] l IH]; intros s; cbn [segs]; [by rewrite elem_of_nil|].
  intros [[= -> -> ->]|H]%elem_of_cons; [exists [], l; split; [done|cbn; lia]|].
  destruct (IH _ H) as (l1 & l2 & -> & ->). exists ((m, g) :: l1), l2. split; [done|]. rewrite total_cons. lia.
Qed.

Lemma segs_mid s l1 n f l2 : (s + total l1, n, f) ∈ segs s (l1 ++ (n, f) :: l2).
Proof. rewrite segs_app. apply elem_of_app. right. by left. Qed.

Lemma free_length s l : sized l -> Z.of_nat (length (free_starts s l)) <= total l.
Proof.
  intros Hl. revert s. induction Hl as [|[n f] l Hn Hl IH]; intros s; [done|]. rewrite free_starts_cons, length_app, total_cons.
  specialize (IH (s + n)). cbn in Hn. destruct f; cbn [length]; lia.
Qed.

Section Scan.
Context (h : list Z) (N : Z) (l : list segment) (fl : list Z) (H : heap_ok h N l fl) (blocks : Z) (Hb : 1 <= blocks).

(** What the scan knows of the part [f1] of the free list. *)
Definition scanned (f1 : list Z) (s : scan) : Prop :=
  (s.(bestSize) = 0x7FFFFFFF /\ s.(blockSize) < blocks
     /\ forall b n, b ∈ f1 -> (b, n, true) ∈ segs 1 l -> n < blocks)
  \/ (s.(bestSize) <> 0x7FFFFFFF /\ (s.(bestBlock), s.(bestSize), true) ∈ segs 1 l /\ blocks <= s.(bestSize)
     /\ forall b n, b ∈ f1 -> (b, n, true) ∈ segs 1 l -> blocks <= n -> s.(bestSize) <= n).

Lemma seg_words b n f : (b, n, f) ∈ segs 1 l ->
  wd h (UMM_NBLOCK b) = b + n + flag f /\ 1 <= b /\ 1 <= n /\ b + n < N.
Proof using H.
  intros (l1 & l2 & -> & ->)%segs_split. destruct (heap_at _ _ _ _ _ _ _ H) as (p & q & _ & C2 & _ & _ & _ & Hn & Hc & He & H2 & _).
  split; [done|]. lia.
Qed.

Lemma ScanStep_ok f1 b f2 s :
  fl = f1 ++ b :: f2 -> s.(cf) = b -> scanned f1 s ->
  exists s', ScanStep h blocks s = Ret (inl s') /\ s'.(cf) = List.hd 0 f2 /\ scanned (f1 ++ [b]) s'.
Proof using H Hb.
  intros E Ec HI. assert (b ∈ fl) as Hbf by (rewrite E; apply elem_of_app; right; by left).
  pose proof Hbf as Hbs. rewrite (ok_free _ _ _ _ H) in Hbs. apply elem_of_free_starts in Hbs as [n Hs].
  destruct (seg_words _ _ _ Hs) as (W & Hb1 & Hn1 & HbN).
  pose proof (ok_ring _ _ _ _ H) as HR. rewrite E in HR. apply ring_app in HR as [_ HR]. apply ring_head in HR.
  pose proof (ok_blocks _ _ _ _ H) as HN. pose proof (ok_length _ _ _ _ H) as HL. destruct (heap_sized _ _ _ _ H) as [HS _].
  assert (forall b' n', b' ∈ f1 ++ [b] -> (b', n', true) ∈ segs 1 l -> b' ∈ f1 \/ n' = n) as Hu.
  { intros b' n' [?| ->%list_elem_of_singleton]%elem_of_app Hs'; [by left|right].
    destruct (segs_disjoint _ _ _ _ _ _ _ _ HS Hs Hs') as [?|[?|[= ->]]]; [..|done]; destruct (seg_words _ _ _ Hs'); lia. }
  unfold ScanStep. rewrite Ec, decide_True by lia. accesses. rewrite W, land_blockno by lia. rewrite wrap_small by lia.
  replace (b + n - b) with n by lia. unfold scanned in *.
  destruct (decide (blocks <= n /\ n < bestSize s)) as [[Hf1 Hf2]|Hf]; accesses; rewrite HR; (eexists; split; [done|]; split; [done|]); cbn.
  - right. split; [lia|]. split; [done|]. split; [done|]. intros b' n' Hb' Hs'. destruct (Hu _ _ Hb' Hs') as [?| ->]; [|done].
    intros Hle. destruct HI as [(_ & _ & HI)|(_ & _ & _ & HI)]; [specialize (HI b' n' ltac:(done) Hs')|specialize (HI b' n' ltac:(done) Hs' Hle)]; lia.
  - destruct HI as [(E1 & E2 & HI)|(E1 & E2 & E3 & HI)]; [left|right].
    + assert (n < blocks) by lia. split; [done|]. split; [done|]. intros b' n' Hb' Hs'. destruct (Hu _ _ Hb' Hs') as [?| ->]; [by eapply HI|done].
    + split; [done|]. split; [done|]. split; [done|]. intros b' n' Hb' Hs' Hle. destruct (Hu _ _ Hb' Hs') as [?| ->]; [by eapply HI|lia].
Qed.

Lemma scan_loop : forall f2 f1 s fuel,
  fl = f1 ++ f2 -> s.(cf) = List.hd 0 f2 -> scanned f1 s -> (length f2 < fuel)%nat ->
  exists r, while_ fuel (ScanStep h blocks) s = Ret r /\ r.(cf) = 0 /\ scanned fl r.
Proof using H Hb.
  induction f2 as [|b f2 IH]; intros f1 s fuel E Ec HI Hf; (destruct fuel as [|fuel]; [cbn in Hf; lia|]).
  - exists s. rewrite app_nil_r in E. subst f1. split; [|done]. apply while_inr. unfold ScanStep. cbn in Ec. by rewrite decide_False by lia.
  - destruct (ScanStep_ok f1 b f2 s E Ec HI) as (s' & ES & E' & HI'). rewrite (while_inl _ _ _ _ ES).
    apply (IH (f1 ++ [b])); [by rewrite <- app_assoc|done|done|]. cbn in Hf. lia.
Qed.

End Scan.

(** The number of blocks is the least one whose data area holds the request. *)
Lemma umm_blocks_spec size : 0 < size ->
  let k := umm_blocks size in 1 <= k /\ size <= 16 * k - 8 /\ (1 < k -> 16 * (k - 1) - 8 < size).
Proof.
  intros Hs. unfold umm_blocks, sizeof_body, sizeof_umm_block. case_decide as Hd; cbv zeta; [lia|].
  pose proof (Z.div_mod (size - (1 + 8)) 16 ltac:(lia)). pose proof (Z.mod_pos_bound (size - (1 + 8)) 16 ltac:(lia)).
  assert (0 <= (size - (1 + 8)) / 16) by (apply Z.div_pos; lia). lia.
Qed.

Lemma separated_taken l1 k n l2 : separated (l1 ++ (n, true) :: l2) -> separated (l1 ++ taken k n ++ l2).
Proof.
  intros (H1 & H2 & H3)%separated_app. apply separated_app. split; [done|]. unfold taken.
  case_decide; cbn [app]; (split; [|intros a b w c d w' _ [= <- <- <-]; apply andb_false_r]).
  - destruct l2 as [|[m g] l2]; [done|]. cbn [separated] in *. tauto.
  - split; [done|]. destruct l2 as [|[m g] l2]; [done|]. cbn [separated] in *. tauto.
Qed.

(** Allocation in the segment that the scan chose. *)
Lemma take_ok h N l1 n l2 fl k :
  heap_ok h N (l1 ++ (n, true) :: l2) fl -> 1 <= k <= n ->
  exists h' fl', (if decide (n = k) then umm_disconnect_from_free_list h (1 + total l1) else TakeFront h (1 + total l1) k) = Ret h'
  /\ heap_ok h' N (l1 ++ taken k n ++ l2) fl' /\ keeps (l1 ++ (n, true) :: l2) (l1 ++ taken k n ++ l2) h h'.
Proof.
  intros H Hk. unfold taken. case_decide as E; cbn [app].
  - subst k. destruct (disconnect_ok _ _ _ _ _ _ H) as (h' & f1 & f2 & _ & ER & HH & HK). eauto.
  - destruct (TakeFront_ok _ _ _ _ _ _ k H) as (h' & f1 & f2 & _ & ER & HH & HK); [lia|]. eauto.
Qed.

Lemma UmmMalloc_ok s l fl size :
  state_ok s l fl -> 0 < size ->
  let k := umm_blocks size in
  (exists l1 n l2 h' fl', l = l1 ++ (n, true) :: l2 /\ k <= n
     /\ (forall b m, (b, m, true) ∈ segs 1 l -> k <= m -> n <= m)
     /\ UmmMalloc s size = Ret (with_memory s h', UMM_DATA s (1 + total l1))
     /\ state_ok (with_memory s h') (l1 ++ taken k n ++ l2) fl'
     /\ keeps l (l1 ++ taken k n ++ l2) s.(memory) h')
  \/ ((forall b m, (b, m, true) ∈ segs 1 l -> m < k) /\ UmmMalloc s size = Ret (s, 0)).
Proof.
  intros [H HSep HA HSz] Hsize k. destruct (umm_blocks_spec size Hsize) as (Hk & _). fold k in Hk.
  pose proof (ok_blocks _ _ _ _ H) as HN. pose proof (ok_length _ _ _ _ H) as HL. destruct (heap_sized _ _ _ _ H) as [HS Htot].
  unfold UmmMalloc, UmmInitialized. rewrite bool_decide_eq_true_2 by lia. cbn [negb]. rewrite decide_False by lia. fold k.
  accesses. rewrite (ring_head _ _ _ _ (ok_ring _ _ _ _ H)).
  destruct (scan_loop _ _ _ _ H k Hk fl [] (Scan (List.hd 0 fl) (List.hd 0 fl) 0x7FFFFFFF 0) (S (length s.(memory))))
    as (r & -> & Ecf & HI); [done|done| | |].
  { left. split; [done|]. split; [cbn; lia|]. intros b m Hb. by apply elem_of_nil in Hb. }
  { pose proof (free_length 1 l HS). rewrite (ok_free _ _ _ _ H). lia. }
  assert (forall b m, (b, m, true) ∈ segs 1 l -> b ∈ fl) as Hfl.
  { intros b m Hb. rewrite (ok_free _ _ _ _ H). apply elem_of_free_starts. eauto. }
  cbn [mbind outcome_bind]. destruct HI as [(E1 & E2 & HI)|(E1 & Hs & E3 & HI)].
  - right. split; [intros b m Hb; exact (HI b m (Hfl b m Hb) Hb)|].
    rewrite E1, decide_False by (intros Hx; by apply Hx). rewrite Ecf. accesses. rewrite decide_False; [done|]. lia.
  - left. rewrite decide_True by done. destruct (segs_split _ _ _ _ _ Hs) as (l1 & l2 & El & Eb). rewrite Eb.
    destruct (seg_words _ _ _ _ H _ _ _ Hs) as (W & W1 & W2 & W3). rewrite Eb in W, W1, W3.
    accesses. rewrite W, land_blockno by lia. rewrite decide_True by lia.
    rewrite El in H. destruct (take_ok _ _ _ _ _ _ k H) as (h' & fl' & ER & HH & HK); [lia|]. rewrite ER. cbn [mbind outcome_bind].
    exists l1, r.(bestSize), l2, h', fl'. split; [done|]. split; [done|]. split; [intros b m Hb Hm; by apply (HI b m (Hfl b m Hb) Hb)|].
    split; [done|]. split; [|by rewrite El]. constructor; [done| |done|done]. apply separated_taken. by rewrite <- El.
Qed.

(** ** Initialisation *)
Lemma UmmSetHeap_ok s heap words size :
  0 < heap -> 48 <= size < 2 ^ 32 -> size <= 4 * Z.of_nat (length words) ->
  exists s', UmmSetHeap s heap words size = Ret s' /\ state_ok s' [(size / 16 - 2, true)] [1]
    /\ s'.(default_umm_heap) = heap /\ s'.(default_umm_heap_size) = size /\ s'.(umm_numblocks) = size / 16
    /\ length s'.(memory) = length words.
Proof.
  intros Hh Hs Hw. pose proof (Z.div_mod size 16 ltac:(lia)) as Hd. pose proof (Z.mod_pos_bound size 16 ltac:(lia)) as Hm.
  assert (3 <= size / 16) by (apply Z.div_le_lower_bound; lia). assert (size / 16 < 2 ^ 28) by (apply Z.div_lt_upper_bound; lia).
  set (N := size / 16) in *. unfold UmmSetHeap, umm_init. cbn [default_umm_heap_size memory default_umm_heap umm_numblocks]. 
  change (size / sizeof_umm_block) with N. rewrite (wrap_small 32 (N - 1)) by lia.
  rewrite (lor_flag (N - 1)) by lia. change (N - 1 + UMM_FREELIST_MASK) with (N - 1 + flag true). accesses.
  eexists. split; [done|]. split; [|cbn; by rewrite !length_upd].
  constructor; cbn [default_umm_heap_size memory default_umm_heap umm_numblocks]; [|done|done|lia].
  constructor; rewrite ?length_upd; [lia|lia|wds| |wds| |].
  - exists 1. split; [|wds]. cbn [chain]. split; [lia|]. split; [wds|]. split; [wds|]. lia.
  - cbn [ring]. repeat split; wds.
  - by rewrite free_starts_cons.
Qed.

(** ** Clients of the allocator *)

(** The states that clients reach, with the live allocations: they ask for
    memory, free what they were given, and write to it. *)
Inductive reach : umm_state -> list (Z * Z) -> Prop :=
| reach_set s0 heap words size s :
    0 < heap -> 48 <= size < 2 ^ 32 -> size <= 4 * Z.of_nat (length words) ->
    UmmSetHeap s0 heap words size = Ret s -> reach s []
| reach_malloc s live size s' p :
    reach s live -> 0 <= size < 2 ^ 32 -> UmmMalloc s size = Ret (s', p) ->
    reach s' (if decide (p = 0) then live else (p, size) :: live)
| reach_free s live p size live' s' r :
    reach s (live ++ (p, size) :: live') -> UmmFree s p = Ret (s', r) -> reach s' (live ++ live')
| reach_store s live p size i x h :
    reach s live -> (p, size) ∈ live -> 0 <= i -> 4 * i < size ->
    wr s.(memory) ((p - s.(default_umm_heap)) / 4 + i) x = Ret h -> reach (with_memory s h) live.

(** The words of an allocation of [size] bytes at [p]. *)
Definition data (s : umm_state) (p size : Z) : list Z :=
  slice s.(memory) ((p - s.(default_umm_heap)) / 4) ((size + 3) / 4).

(** The used segments with their lengths. *)
Definition used_segs (s : Z) (l : list segment) : list (Z * Z) :=
  omap (fun x => if x.2 : bool then None else Some x.1) (segs s l).

(** The live allocations are the used segments. *)
Definition live_ok (s : umm_state) (l : list segment) (live : list (Z * Z)) : Prop :=
  exists us, us ≡ₚ used_segs 1 l
  /\ Forall2 (fun a u => a.1 = UMM_DATA s u.1 /\ 0 < a.2 <= 16 * u.2 - 8) live us.

Lemma used_segs_app s l1 l2 : used_segs s (l1 ++ l2) = used_segs s l1 ++ used_segs (s + total l1) l2.
Proof. unfold used_segs. by rewrite segs_app, omap_app. Qed.

Lemma used_segs_cons s n f l : used_segs s ((n, f) :: l) = (if f : bool then [] else [(s, n)]) ++ used_segs (s + n) l.
Proof. by destruct f. Qed.

Lemma elem_of_used_segs s l b n : (b, n) ∈ used_segs s l <-> (b, n, false) ∈ segs s l.
Proof.
  unfold used_segs. rewrite list_elem_of_omap. split.
  - intros ([[c m] f] & H & Hf). destruct f; [done|]. cbn in Hf. by injection Hf as -> ->.
  - intros H. by exists (b, n, false).
Qed.

Lemma used_segs_NoDup s l : sized l -> NoDup (used_segs s l).
Proof.
  intros Hl. revert s. induction Hl as [|[n f] l Hn Hl IH]; intros s; [constructor|]. rewrite used_segs_cons. cbn in Hn.
  destruct f; cbn [app]; [apply IH|]. constructor; [|apply IH]. rewrite elem_of_used_segs. intros H. apply segs_range in H; [lia|done].
Qed.

Lemma used_segs_free l1 n l2 : used_segs 1 (l1 ++ (n, false) :: l2) ≡ₚ (1 + total l1, n) :: used_segs 1 (free_segment l1 n l2).
Proof.
  rewrite used_segs_app, used_segs_cons. cbn [app]. rewrite <- Permutation_middle. constructor.
  assert (used_segs (1 + total l1 + n) l2 = used_segs (1 + total l1 + (absorb n l2).1) (absorb n l2).2) as ->.
  { destruct l2 as [|[m []] l2]; cbn [absorb fst snd]; [done| |done]. rewrite used_segs_cons. cbn [app]. f_equal. lia. }
  unfold free_segment. destruct (absorb n l2) as [k l3]. cbn [fst snd].
  destruct (rev l1) as [|[m []] r] eqn:ER; apply (f_equal (@rev _)) in ER; rewrite rev_involutive in ER; subst l1.
  - done.
  - cbn [rev]. rewrite !used_segs_app, !used_segs_cons, total_app. cbn [app]. rewrite app_nil_r.
    replace (1 + (total (rev r) + total [(m, true)]) + k) with (1 + total (rev r) + (m + k)) by (cbn; lia). done.
  - by rewrite used_segs_app, used_segs_cons.
Qed.

Lemma used_segs_taken l1 k n l2 :
  used_segs 1 (l1 ++ taken k n ++ l2) ≡ₚ (1 + total l1, k) :: used_segs 1 (l1 ++ (n, true) :: l2).
Proof.
  rewrite !used_segs_app, used_segs_cons. cbn [app]. rewrite Permutation_middle. f_equiv. unfold taken.
  assert (forall b, used_segs b [] = []) as E0 by done.
  case_decide as E; rewrite !used_segs_cons, E0; cbn [app].
  - subst. by replace (1 + total l1 + total [(k, false)]) with (1 + total l1 + k) by (cbn; lia).
  - by replace (1 + total l1 + total [(k, false); (n - k, true)]) with (1 + total l1 + n) by (cbn; lia).
Qed.

(** The data of a segment that is used before and after. *)
Lemma data_kept s h' l l' u n size :
  keeps l l' s.(memory) h' -> sized l -> (u, n, false) ∈ segs 1 l -> (u, n, false) ∈ segs 1 l' -> 0 < size <= 16 * n - 8 ->
  data (with_memory s h') (UMM_DATA s u) size = data s (UMM_DATA s u) size.
Proof.
  intros [HL HK] HS H1 H2 Hn. pose proof (segs_range _ _ _ _ _ HS H1). unfold data, UMM_DATA, sizeof_umm_block. cbn [with_memory default_umm_heap memory].
  replace (default_umm_heap s + u * 16 + 8 - default_umm_heap s) with ((4 * u + 2) * 4) by lia. rewrite Z.div_mul by lia.
  assert (0 <= (size + 3) / 4 <= 4 * n - 2).
  { split; [apply Z.div_pos; lia|]. apply Z.lt_succ_r, Z.div_lt_upper_bound; lia. }
  apply slice_ext; [lia..|]. intros i Hi. replace (Z.to_nat (4 * u + 2) + i)%nat with (Z.to_nat (4 * u + 2 + Z.of_nat i)) by lia.
  specialize (HK (4 * u + 2 + Z.of_nat i)). unfold wd in HK.
  destruct (decide (Z.to_nat (4 * u + 2 + Z.of_nat i) < length s.(memory))%nat).
  - rewrite !list_lookup_lookup_total_lt by lia. f_equal. apply HK; exists u, n; (split; [done|lia]).
  - by rewrite !(proj2 (lookup_ge_None _ _)) by lia.
Qed.

(** A client write to the data of a used segment. *)
Lemma store_ok h N l fl j x :
  heap_ok h N l fl -> used_word l j -> j < Z.of_nat (length h) -> heap_ok (upd h j x) N l fl.
Proof.
  intros H Hj HL. destruct (heap_sized _ _ _ _ H) as [HS Ht]. pose proof (used_nonneg _ _ HS Hj). pose proof (ok_blocks _ _ _ _ H).
  assert (forall f b, 0 <= b -> ~ used_word l (at_field f b) -> wd (upd h j x) (at_field f b) = wd h (at_field f b)) as HF.
  { intros f b Hb Hu. assert (0 <= offset f) by (destruct f; cbn; lia). rewrite wd_upd by (unfold at_field; lia).
    rewrite decide_False; [done|]. by intros <-. }
  assert (forall b, b = 0 \/ b = N - 1 -> ~ used_word l (UMM_NBLOCK b) /\ ~ used_word l (UMM_PBLOCK b)) as HE.
  { intros b Hb. apply used_header; [done|]. destruct Hb as [->| ->]; [by left|right; right; lia]. }
  constructor; rewrite ?length_upd; [done|apply (ok_length _ _ _ _ H)| | | | |apply (ok_free _ _ _ _ H)].
  - rewrite HF; [apply (ok_first _ _ _ _ H)|done|apply HE; by left].
  - destruct (ok_chain _ _ _ _ H) as (p & Hc & Hp). exists p. split.
    + revert Hc. apply chain_frame. intros b n f Hb. pose proof (segs_range _ _ _ _ _ HS Hb).
      destruct (used_header l b HS) as [U1 U2]; [right; left; by exists n, f|]. split; apply HF; (done || lia).
    + rewrite HF; [done|lia|apply HE; by right].
  - rewrite HF; [apply (ok_last _ _ _ _ H)|lia|apply HE; by right].
  - apply (ring_frame h); [| |apply (ok_ring _ _ _ _ H)]; intros b Hb.
    + pose proof (free_range _ _ _ _ H _ Hb). destruct (used_free l b HS (free_elem _ _ _ _ H _ Hb)). apply HF; (done || lia).
    + assert (b ∈ 0 :: fl) as Hb' by set_solver. pose proof (free_range _ _ _ _ H _ Hb').
      destruct (used_free l b HS (free_elem _ _ _ _ H _ Hb')). apply HF; (done || lia).
Qed.

(** The used segment behind a live allocation. *)
Lemma live_segment s l live p size live' :
  live_ok s l (live ++ (p, size) :: live') ->
  exists l1 n l2, l = l1 ++ (n, false) :: l2 /\ p = UMM_DATA s (1 + total l1) /\ 0 < size <= 16 * n - 8
  /\ live_ok s (free_segment l1 n l2) (live ++ live')
  /\ forall q qs, (q, qs) ∈ live ++ live' -> exists u m, (u, m) ∈ used_segs 1 (free_segment l1 n l2) /\ (u, m, false) ∈ segs 1 l
       /\ q = UMM_DATA s u /\ 0 < qs <= 16 * m - 8.
Proof.
  intros (us & HP & HF). apply Forall2_app_inv_l in HF as (u1 & u2 & F1 & F2 & ->).
  inversion F2 as [|? [u n] ? u2' [E Hn] F2']; subst. cbn in E, Hn. assert ((u, n, false) ∈ segs 1 l) as Hs.
  { apply elem_of_used_segs. rewrite <- HP. apply elem_of_app. right. by left. }
  destruct (segs_split _ _ _ _ _ Hs) as (l1 & l2 & -> & ->). exists l1, n, l2. split; [done|]. split; [done|]. split; [done|].
  rewrite used_segs_free in HP. rewrite <- Permutation_middle in HP. apply Permutation_cons_inv in HP.
  split; [exists (u1 ++ u2'); split; [done|by apply Forall2_app]|]. intros q qs Hq.
  assert (Forall2 (fun a u => a.1 = UMM_DATA s u.1 /\ 0 < a.2 <= 16 * u.2 - 8) (live ++ live') (u1 ++ u2')) as F3 by (by apply Forall2_app).
  apply list_elem_of_lookup in Hq as [i Hi]. destruct (Forall2_lookup_l _ _ _ _ _ F3 Hi) as ([v m] & Hv & E1 & E2). cbn in E1, E2.
  assert ((v, m) ∈ used_segs 1 (free_segment l1 n l2)) as Hv' by (rewrite <- HP; by eapply list_elem_of_lookup_2).
  exists v, m. split; [done|]. split; [|done]. apply elem_of_used_segs. rewrite used_segs_free. by right.
Qed.

Lemma reach_inv s live : reach s live -> exists l fl, state_ok s l fl /\ live_ok s l live.
Proof.
  induction 1 as [s0 heap words size s H1 H2 H3 H4|s live size s' p _ (l & fl & Hok & Hl) Hsz E|
    s live p size live' s' r _ (l & fl & Hok & Hl) E|s live p size i x h _ (l & fl & Hok & Hl) Hp Hi1 Hi2 E].
  - destruct (UmmSetHeap_ok s0 heap words size H1 H2 H3) as (s' & E & Hok & _). rewrite E in H4. injection H4 as ->.
    eexists _, _. split; [done|]. exists []. split; [done|constructor].
  - destruct (decide (size = 0)) as [->|Hs].
    { unfold UmmMalloc in E. destruct (negb (UmmInitialized s)); [|rewrite decide_True in E by done]; injection E as <- <-; rewrite decide_True by done; eauto. }
    destruct (UmmMalloc_ok s l fl size Hok ltac:(lia)) as [(l1 & n & l2 & h' & fl' & -> & Hk & Hbest & E' & Hok' & _)|[_ E']];
      rewrite E' in E; injection E as <- <-; [|rewrite decide_True by done; eauto].
    pose proof (ok_address _ _ _ Hok). destruct (heap_at _ _ _ _ _ _ _ (ok_heap _ _ _ Hok)) as (_ & _ & _ & _ & _ & _ & _ & _ & Hc & _).
    rewrite decide_False by (unfold UMM_DATA, sizeof_umm_block; lia). eexists _, fl'. split; [done|]. destruct Hl as (us & HP & HF).
    exists ((1 + total l1, umm_blocks size) :: us). split; [by rewrite used_segs_taken, HP|]. constructor; [|done].
    destruct (umm_blocks_spec size ltac:(lia)) as (K1 & K2 & _). cbn. split; [done|lia].
  - destruct (live_segment _ _ _ _ _ _ Hl) as (l1 & n & l2 & -> & -> & Hn & Hl' & _).
    destruct (UmmFree_ok s l1 n l2 fl Hok) as (h' & fl' & E' & Hok' & _). rewrite E' in E. injection E as <- <-. eauto.
  - exists l, fl. split; [|exact Hl]. apply list_elem_of_split in Hp as (v1 & v2 & ->).
    destruct (live_segment _ _ _ _ _ _ Hl) as (l1 & n & l2 & -> & -> & Hn & _). destruct Hok as [H HS HA Hz].
    unfold wr in E. case_decide as Hr; [|done]. injection E as <-.
    constructor; [|done|done|done]. apply (store_ok _ _ _ _ _ x H); [|lia].
    exists (1 + total l1), n. split; [apply segs_mid|]. unfold UMM_DATA, sizeof_umm_block.
    replace (default_umm_heap s + (1 + total l1) * 16 + 8 - default_umm_heap s) with ((4 * (1 + total l1) + 2) * 4) by lia.
    rewrite Z.div_mul by lia. lia.
Qed.

(** Without a used segment there is one free segment. *)
Lemma all_free s l : separated l -> sized l -> used_segs s l = [] -> l = [] \/ l = [(total l, true)].
Proof.
  intros HS Hl. destruct l as [|[n f] l]; [by left|]. rewrite used_segs_cons. destruct f; [|done]. cbn [app]. intros E. right.
  destruct l as [|[m g] l]; [by rewrite total_cons, Z.add_0_r|]. exfalso. rewrite used_segs_cons in E. destruct g; [|done]. by destruct HS.
Qed.

(** The allocations with their segments, in the order of [live]. *)
Lemma live_lookup s l live i p size :
  live_ok s l live -> live !! i = Some (p, size) ->
  exists us u n, Forall2 (fun a u => a.1 = UMM_DATA s u.1 /\ 0 < a.2 <= 16 * u.2 - 8) live us /\ us ≡ₚ used_segs 1 l
  /\ us !! i = Some (u, n) /\ (u, n, false) ∈ segs 1 l /\ p = UMM_DATA s u /\ 0 < size <= 16 * n - 8.
Proof.
  intros (us & HP & HF) Hi. destruct (Forall2_lookup_l _ _ _ _ _ HF Hi) as ([u n] & Hu & E1 & E2). exists us, u, n.
  repeat (split; [done|]). split; [|done]. apply elem_of_used_segs. rewrite <- HP. by eapply list_elem_of_lookup_2.
Qed.


(** [UmmMalloc] takes the first blocks of a smallest free segment that holds
    the request, and returns NULL only when there is none. The new segment has room
    for the request and no block more than needed; the rest stays free, and no word
    of a segment that was in use changes. *)
Theorem Malloc_best_fit s l fl size :
  state_ok s l fl -> 0 < size ->
  (exists l1 n l2 k h' fl', l = l1 ++ (n, true) :: l2 /\ UmmMalloc s size = Ret (with_memory s h', UMM_DATA s (1 + total l1))
     /\ state_ok (with_memory s h') (l1 ++ taken k n ++ l2) fl' /\ keeps l (l1 ++ taken k n ++ l2) s.(memory) h'
     /\ 1 <= k <= n /\ size <= 16 * k - 8 /\ (1 < k -> 16 * (k - 1) - 8 < size)
     /\ forall b m, (b, m, true) ∈ segs 1 l -> size <= 16 * m - 8 -> n <= m)
  \/ (UmmMalloc s size = Ret (s, 0) /\ forall b m, (b, m, true) ∈ segs 1 l -> 16 * m - 8 < size).
Proof.
  intros Hok Hs. destruct (umm_blocks_spec size Hs) as (K1 & K2 & K3).
  destruct (UmmMalloc_ok s l fl size Hok Hs) as [(l1 & n & l2 & h' & fl' & -> & Hk & Hbest & E & Hok' & HK)|[Hnone E]].
  - left. exists l1, n, l2, (umm_blocks size), h', fl'. repeat (split; [done || lia|]). intros b m Hb Hm. apply (Hbest b m Hb).
    destruct (heap_sized _ _ _ _ (ok_heap _ _ _ Hok)) as [HS _]. pose proof (segs_range _ _ _ _ _ HS Hb). lia.
  - right. split; [done|]. intros b m Hb. specialize (Hnone b m Hb).
    destruct (heap_sized _ _ _ _ (ok_heap _ _ _ Hok)) as [HS _]. pose proof (segs_range _ _ _ _ _ HS Hb). lia.
Qed.

(** Freeing an allocation at once restores the segments of the heap: the
    remainder that was split off is joined again. *)
Theorem Malloc_Free_roundtrip s l fl size s' p :
  state_ok s l fl -> 0 < size -> UmmMalloc s size = Ret (s', p) -> p <> 0 ->
  exists s'' fl'', UmmFree s' p = Ret (s'', true) /\ state_ok s'' l fl''.
Proof.
  intros Hok Hs E Hp. destruct (UmmMalloc_ok s l fl size Hok Hs) as [(l1 & n & l2 & h' & fl' & -> & Hk & _ & E' & Hok' & _)|[_ E']];
    rewrite E' in E; injection E as <- <-; [|done].
  pose proof (ok_separated _ _ _ Hok) as (_ & H2 & H3)%separated_app. unfold taken in Hok'.
  assert (forall l2', l1 ++ (if decide (n = umm_blocks size) then [(umm_blocks size, false)] else [(umm_blocks size, false); (n - umm_blocks size, true)]) ++ l2
      = l1 ++ (umm_blocks size, false) :: l2' -> absorb (umm_blocks size) l2' = (n, l2) ->
      exists s'' fl'', UmmFree (with_memory s h') (UMM_DATA s (1 + total l1)) = Ret (s'', true) /\ state_ok s'' (l1 ++ (n, true) :: l2) fl'') as HF.
  { intros l2' E EA. rewrite E in Hok'. destruct (UmmFree_ok _ _ _ _ _ Hok') as (h2 & fl2 & E2 & Hok2 & _). eexists _, fl2. split; [exact E2|].
    unfold free_segment in Hok2. rewrite EA in Hok2. destruct (rev l1) as [|[m []] r] eqn:ER; [exact Hok2| |exact Hok2].
    apply (f_equal (@rev _)) in ER. rewrite rev_involutive in ER. by specialize (H3 m true (rev r) n true l2 ER eq_refl). }
  case_decide as Hn; cbn [app] in HF.
  - apply (HF l2); [done|]. rewrite <- Hn. destruct l2 as [|[m []] l2]; [done| |done]. by destruct H2.
  - apply (HF ((n - umm_blocks size, true) :: l2)); [done|]. cbn [absorb]. f_equal. lia.
Qed.

(** ** Concrete runs *)
Definition result {A} (d : A) (o : outcome A) : A := match o with Ret a => a | Fault _ => d end.

(** A heap of 16 blocks at address 4096, and two allocations from it. *)
Definition no_heap : umm_state := Umm 0 0 [] 0.
Definition demo0 : umm_state := result no_heap (UmmSetHeap no_heap 4096 (replicate 64 0) 256).
Definition demo1 : umm_state := (result (no_heap, 0) (UmmMalloc demo0 8)).1.
Definition demo2 : umm_state := (result (no_heap, 0) (UmmMalloc demo1 20)).1.

Lemma demo0_ok : state_ok demo0 [(14, true)] [1].
Proof.
  destruct (UmmSetHeap_ok no_heap 4096 (replicate 64 0) 256) as (s & E & H & _); [lia|lia|vm_compute; discriminate|].
  unfold demo0. rewrite E. exact H.
Qed.

Lemma demo2_reached : reach demo2 [(4136, 20); (4120, 8)].
Proof.
  apply (reach_malloc demo1 [(4120, 8)] 20 demo2 4136); [|lia|by vm_compute].
  apply (reach_malloc demo0 [] 8 demo1 4120); [|lia|by vm_compute].
  apply (reach_set no_heap 4096 (replicate 64 0) 256); [lia|lia|vm_compute; discriminate|by vm_compute].
Qed.


Lemma Malloc_best_fit_witness : exists h fl, UmmMalloc demo0 20 = Ret (with_memory demo0 h, 4120) /\ state_ok (with_memory demo0 h) [(2, false); (12, true)] fl.
Proof.
  destruct (Malloc_best_fit demo0 [(14, true)] [1] 20 demo0_ok ltac:(lia)) as [(l1 & n & l2 & k & h & fl & El & E & Hok & _ & K1 & K2 & K3 & _)|[E _]].
  - destruct l1 as [|x l1]; [|destruct l1; discriminate El]. injection El as <- <-. assert (k = 2) as -> by lia. exists h, fl. split; [exact E|exact Hok].
  - vm_compute in E. discriminate E.
Defined.

Lemma Malloc_Free_roundtrip_witness : exists s fl, UmmFree demo1 4120 = Ret (s, true) /\ state_ok s [(14, true)] fl.
Proof.
  apply (Malloc_Free_roundtrip demo0 [(14, true)] [1] 8 demo1 4120 demo0_ok); [lia|by vm_compute|lia].
Defined.

(** A heap of one block is overrun by its initialisation, and one of two blocks
    hands out the head of the free list. *)
Lemma tiny_heaps :
  UmmSetHeap no_heap 4096 (replicate 4 0) 16 = Fault OutOfBounds
  /\ (s ← UmmSetHeap no_heap 4096 (replicate 8 0) 32; '(_, p) ← UmmMalloc s 8; Ret p) = Ret (4096 + 8).
Proof. split; by vm_compute. Qed.

End Umm.
