(* ===== verification/VirtualMemory.v ===== *)
(** * Page tables: [Library/OcMemoryLib/VirtualMemory.c]

    The walk through the four levels of the page table, the mapping of virtual
    pages with the splitting of large pages, and the page attribute bits. Memory
    is a map from addresses to 64-bit words (page tables are accessed at their
    physical address); a NULL pointer is [0]. The local variables [VAStart] and
    [VAEnd], which the code computes and never reads, are left out. The
    specification is the address translation of the processor ([walk]). *)
From stdpp Require Import gmap strings.
From S2P Require Import Prelude MemoryMap MemoryQuery.

Module VirtualMemory.
Import MemoryMap MemoryQuery.

(** ** Model *)

Abbreviation pmem := (gmap Z Z).

Definition EFI_NO_MAPPING : Z := EFIERR 17.

Definition rd64 (m : pmem) (a : Z) : outcome Z :=
  match m !! a with Some x => Ret x | None => Fault OutOfBounds end.
Definition wr64 (m : pmem) (a x : Z) : outcome pmem :=
  match m !! a with Some _ => Ret (<[a := x]> m) | None => Fault OutOfBounds end.

(** A bit field of [n] bits at bit [lo]. *)
Definition get_field (x lo n : Z) : Z := Z.land (Z.shiftr x lo) (Z.ones n).
Definition set_field (x lo n v : Z) : Z :=
  Z.lor (Z.ldiff x (Z.shiftl (Z.ones n) lo)) (Z.shiftl (Z.land v (Z.ones n)) lo).

(** [PAGE_MAP_AND_DIRECTORY_POINTER], and the fields that the entries of pages share with it. *)
Definition Present (e : Z) : Z := get_field e 0 1.
Definition MustBeZero (e : Z) : Z := get_field e 7 2.
Definition PageTableBaseAddress (e : Z) : Z := get_field e 12 40.
Definition set_Present (e v : Z) : Z := set_field e 0 1 v.
Definition set_ReadWrite (e v : Z) : Z := set_field e 1 1 v.
(** [PAGE_TABLE_1G_ENTRY] and [PAGE_TABLE_2M_ENTRY]. *)
Definition set_MustBe1 (e v : Z) : Z := set_field e 7 1 v.

(** [VIRTUAL_ADDR] *)
Definition PML4Offset (va : Z) : Z := get_field va 39 9.
Definition PDPOffset (va : Z) : Z := get_field va 30 9.
Definition PDOffset (va : Z) : Z := get_field va 21 9.
Definition PTOffset (va : Z) : Z := get_field va 12 9.

Definition CR0_WP : Z := 0x10000.
Definition CR3_ADDR_MASK : Z := 0x000FFFFFFFFFF000.
Definition CR3_FLAG_PWT : Z := 0x8.
Definition CR3_FLAG_PCD : Z := 0x10.
Definition PAGING_4K_ADDRESS_MASK_64 : Z := 0x000FFFFFFFFFF000.
Definition PAGING_2M_ADDRESS_MASK_64 : Z := 0x000FFFFFFFE00000.
Definition PAGING_1G_ADDRESS_MASK_64 : Z := 0x000FFFFFC0000000.
Definition SIZE_4KB : Z := 0x1000.
Definition SIZE_2MB : Z := 0x200000.
Definition SIZE_1GB : Z := 0x40000000.

Definition MtrrTypeStrings : list string := ["UC"; "WC"; "Reserved"; "Reserved"; "WT"; "WP"; "WB"]%string.
Definition PatTypeStrings : list string := ["UC"; "WC"; "Reserved"; "Reserved"; "WT"; "WP"; "WB"; "UC-"]%string.

Definition OcGetMtrrTypeString (MtrrType : Z) : outcome string :=
  if decide (Z.of_nat (length MtrrTypeStrings) <= MtrrType) then Ret "Invalid"%string else rd MtrrTypeStrings MtrrType.

Definition OcGetPatTypeString (PatType : Z) : outcome string :=
  if decide (Z.of_nat (length PatTypeStrings) <= PatType) then Ret "Invalid"%string else rd PatTypeStrings PatType.

(** [Edx] is the value of CPUID (1).EDX. *)
Definition OcIsPatSupported (Edx : Z) : bool := bool_decide (get_field Edx 16 1 <> 0).

(** Memory and the control registers. *)
Record machine : Type := Machine { Memory : pmem; Cr0 : Z; Cr3 : Z }.
Definition with_mem (s : machine) (m : pmem) : machine := Machine m s.(Cr0) s.(Cr3).

(** The page table and the flags. *)
Definition OcGetCurrentPageTable (s : machine) : Z * Z :=
  (Z.land s.(Cr3) CR3_ADDR_MASK, Z.land s.(Cr3) (Z.lor CR3_FLAG_PWT CR3_FLAG_PCD)).

Definition DisablePageTableWriteProtection (s : machine) : machine * bool :=
  if decide (Z.land s.(Cr0) CR0_WP <> 0) then (Machine s.(Memory) (Z.ldiff s.(Cr0) CR0_WP) s.(Cr3), true) else (s, false).

Definition EnablePageTableWriteProtection (s : machine) : machine :=
  Machine s.(Memory) (Z.lor s.(Cr0) CR0_WP) s.(Cr3).

(** ** Lookup *)

(** [*PhysicalAddr], [*Level] and [*Bits]. *)
Record table_info : Set := TableInfo { PhysicalAddr : Z; Level : Z; Bits : Z }.

(** [PAT_INDEX]: the bits WriteThrough, CacheDisabled and PAT; an entry keeps the
    first two at bits 3 and 4 and the third one at bit [pat]. *)
Definition SetPatBits (e PatIndex pat : Z) : Z :=
  let e := set_field e 3 1 (get_field PatIndex 0 1) in
  let e := set_field e 4 1 (get_field PatIndex 1 1) in
  set_field e pat 1 (get_field PatIndex 2 1).
Definition GetPatBits (PatIndex e pat : Z) : Z :=
  let PatIndex := set_field PatIndex 0 1 (get_field e 3 1) in
  let PatIndex := set_field PatIndex 1 1 (get_field e 4 1) in
  set_field PatIndex 2 1 (get_field e pat 1).

(** The information of the entry at [a], which maps a page at level [level] with
    the address [mask] and [bits] bits of offset. *)
Definition LeafInfo (m : pmem) (a level mask bits pat VA : Z) (PatIndex : option Z) (SetPat : bool)
  : outcome (pmem * EFI_STATUS * option table_info * option Z) :=
  e ← rd64 m a;
  let Addr := Z.land e mask +[64] get_field VA 0 bits in
  '(m, PatIndex) ← (match PatIndex with
     | Some p =>
         if SetPat then m ← wr64 m a (SetPatBits e p pat); Ret (m, Some p)
         else Ret (m, Some (GetPatBits p e pat))
     | None => Ret (m, None)
     end);
  e ← rd64 m a;
  Ret (m, EFI_SUCCESS, Some (TableInfo Addr level e), PatIndex).

(** The optional outputs are all asked for; [PatIndex = None] is the NULL pointer. *)
Definition OcGetSetPageTableInfoForAddress (s : machine) (PageTable VA : Z) (PatIndex : option Z) (SetPat : bool)
  : outcome (pmem * EFI_STATUS * option table_info * option Z) :=
  let m := s.(Memory) in
  let PatIndex := match PatIndex with Some p => Some (if SetPat then p else 0) | None => None end in
  let PageTable := if decide (PageTable = 0) then (OcGetCurrentPageTable s).1 else PageTable in
  let PML4 := PageTable + 8 * PML4Offset VA in
  e ← rd64 m PML4;
  if decide (Present e = 0) then Ret (m, EFI_NO_MAPPING, None, PatIndex) else
  let PDPE := Z.land e PAGING_4K_ADDRESS_MASK_64 + 8 * PDPOffset VA in
  e ← rd64 m PDPE;
  if decide (Present e = 0) then Ret (m, EFI_NO_MAPPING, None, PatIndex) else
  if decide (Z.land (MustBeZero e) 1 <> 0) then LeafInfo m PDPE 1 PAGING_1G_ADDRESS_MASK_64 30 12 VA PatIndex SetPat else
  let PDE := Z.land e PAGING_4K_ADDRESS_MASK_64 + 8 * PDOffset VA in
  e ← rd64 m PDE;
  if decide (Present e = 0) then Ret (m, EFI_NO_MAPPING, None, PatIndex) else
  if decide (Z.land (MustBeZero e) 1 <> 0) then LeafInfo m PDE 2 PAGING_2M_ADDRESS_MASK_64 21 12 VA PatIndex SetPat else
  let PTE4K := Z.land e PAGING_4K_ADDRESS_MASK_64 + 8 * PTOffset VA in
  e ← rd64 m PTE4K;
  if decide (Present e = 0) then Ret (m, EFI_NO_MAPPING, None, PatIndex) else
  LeafInfo m PTE4K 4 PAGING_4K_ADDRESS_MASK_64 12 7 VA PatIndex SetPat.

Definition OcGetPhysicalAddress (s : machine) (PageTable VirtualAddr : Z) : outcome (EFI_STATUS * option Z) :=
  '(_, Status, i, _) ← OcGetSetPageTableInfoForAddress s PageTable VirtualAddr None false;
  Ret (Status, match i with Some i => Some i.(PhysicalAddr) | None => None end).

(** One turn of the loop; the state is the machine and [VirtualAddr]. *)
Definition PatStep (PageTable EndAddr PatIndex : Z) (st : machine * Z) : outcome (machine * Z + machine * EFI_STATUS) :=
  let '(s, VirtualAddr) := st in
  '(m, Status, i, _) ← OcGetSetPageTableInfoForAddress s PageTable VirtualAddr (Some PatIndex) true;
  let s := with_mem s m in
  match i with
  | None => Ret (inr (s, Status))
  | Some i =>
      if EFI_ERROR Status then Ret (inr (s, Status)) else
      if decide (VirtualAddr <> i.(PhysicalAddr)) then Ret (inr (s, EFI_UNSUPPORTED)) else
      let next := if decide (i.(Level) = 1) then Some SIZE_1GB else if decide (i.(Level) = 2) then Some SIZE_2MB
                  else if decide (i.(Level) = 4) then Some SIZE_4KB else None in
      match next with
      | None => Ret (inr (s, EFI_UNSUPPORTED))
      | Some size =>
          let VirtualAddr := VirtualAddr +[64] size in
          if decide (VirtualAddr < EndAddr) then Ret (inl (s, VirtualAddr)) else Ret (inr (s, EFI_SUCCESS))
      end
  end.

(** [fuel] bounds the turns of the loop. *)
Definition OcSetPatIndexForAddressRange (fuel : nat) (s : machine) (PageTable VirtualAddr Length PatIndex : Z)
  : outcome (machine * EFI_STATUS) :=
  let '(overflow, EndAddr) := overflow_add 64 VirtualAddr Length in
  if (overflow : bool) then Ret (s, EFI_INVALID_PARAMETER)
  else while_ fuel (PatStep PageTable EndAddr PatIndex) (s, VirtualAddr).

(** The memory type range registers of MtrrLib. *)
Class Mtrr : Type := {
  MtrrState : Type;
  IsMtrrSupported : MtrrState -> bool;
  MtrrGetMemoryAttribute : MtrrState -> Z -> Z;
  MtrrSetMemoryAttribute : MtrrState -> Z -> Z -> Z -> EFI_STATUS * MtrrState
}.

(** The source does not bound the search for the end of the range. *)
Definition OcModifyMtrrRange `{Mtrr} (fuel : nat) (t : MtrrState) (Address MtrrType : Z)
  : outcome (MtrrState * EFI_STATUS * Z) :=
  if negb (IsMtrrSupported t) then Ret (t, EFI_UNSUPPORTED, 0) else
  let OriginalMtrrType := MtrrGetMemoryAttribute t Address in
  Walker ← while_ fuel (fun Walker =>
    let Walker := Walker +[64] SIZE_2MB in
    if decide (OriginalMtrrType = MtrrGetMemoryAttribute t Walker) then Ret (inl Walker) else Ret (inr Walker)) Address;
  let '(Status, t) := MtrrSetMemoryAttribute t Address (Walker -[64] Address) MtrrType in
  Ret (t, Status, Walker -[64] Address).

(** ** Mapping *)

(** [OC_VMEM_CONTEXT] *)
Record vm_context : Set := VmContext { MemoryPool : Z; FreePages : Z }.

Definition VmAllocateMemoryPool `{Firmware} (fuel : nat) (fw : Fw) (Context : vm_context) (NumPages : Z)
  : outcome (Fw * vm_context * EFI_STATUS) :=
  '(fw, Status, Addr) ← OcAllocatePagesFromTop None EfiBootServicesData fuel fw NumPages BASE_4GB;
  Ret (fw, if EFI_ERROR Status then Context else VmContext Addr NumPages, Status).

Definition VmAllocatePages (Context : vm_context) (NumPages : Z) : vm_context * Z :=
  if decide (NumPages <= Context.(FreePages)) then
    (VmContext (Context.(MemoryPool) + EFI_PAGES_TO_SIZE NumPages) (Context.(FreePages) - NumPages), Context.(MemoryPool))
  else (Context, 0).

Definition ZeroPage (m : pmem) (p : Z) : outcome pmem := for_ 512 0 (fun Index m => wr64 m (p + 8 * Index) 0) m.

(** The entries of a new table at [p]: pages from [Start] on, [size] bytes apart. *)
Definition FillTable (m : pmem) (p Start size mask : Z) (large : bool) : outcome pmem :=
  r ← for_ 512 0 (fun Index (st : pmem * Z) =>
    let '(m, Start) := st in
    let e := set_Present (set_ReadWrite (Z.land Start mask) 1) 1 in
    m ← wr64 m (p + 8 * Index) (if large then set_MustBe1 e 1 else e);
    Ret (m, Start +[64] size)) (m, Start);
  Ret r.1.

(** The entry that points to the table at [p]. *)
Definition TableEntry (p : Z) : Z := set_Present (set_ReadWrite (Z.land p PAGING_4K_ADDRESS_MASK_64) 1) 1.

(** The three levels above the page; [None] is the return of EFI_NO_MAPPING. *)
Definition EnsurePDPT (Context : vm_context) (m : pmem) (PML4 : Z) : outcome (vm_context * option pmem) :=
  e ← rd64 m PML4;
  if decide (Present e = 0) then
    let '(Context, PDPE) := VmAllocatePages Context 1 in
    if decide (PDPE = 0) then Ret (Context, None) else
    m ← ZeroPage m PDPE;
    m ← FillTable m PDPE 0 SIZE_1GB PAGING_1G_ADDRESS_MASK_64 true;
    m ← wr64 m PML4 (TableEntry PDPE);
    Ret (Context, Some m)
  else Ret (Context, Some m).

Definition EnsurePD (Context : vm_context) (m : pmem) (PDPE : Z) : outcome (vm_context * option pmem) :=
  e ← rd64 m PDPE;
  if decide (Present e = 0 \/ Z.land (MustBeZero e) 1 <> 0) then
    let '(Context, PDE) := VmAllocatePages Context 1 in
    if decide (PDE = 0) then Ret (Context, None) else
    m ← ZeroPage m PDE;
    m ← (if decide (Z.land (MustBeZero e) 1 <> 0)
         then FillTable m PDE (Z.land e PAGING_1G_ADDRESS_MASK_64) SIZE_2MB PAGING_2M_ADDRESS_MASK_64 true else Ret m);
    m ← wr64 m PDPE (TableEntry PDE);
    Ret (Context, Some m)
  else Ret (Context, Some m).

Definition EnsurePT (Context : vm_context) (m : pmem) (PDE : Z) : outcome (vm_context * option pmem) :=
  e ← rd64 m PDE;
  if decide (Present e = 0 \/ Z.land (MustBeZero e) 1 <> 0) then
    let '(Context, PTE4K) := VmAllocatePages Context 1 in
    if decide (PTE4K = 0) then Ret (Context, None) else
    m ← ZeroPage m PTE4K;
    m ← (if decide (Z.land (MustBeZero e) 1 <> 0)
         then FillTable m PTE4K (Z.land e PAGING_2M_ADDRESS_MASK_64) SIZE_4KB PAGING_4K_ADDRESS_MASK_64 false else Ret m);
    m ← wr64 m PDE (TableEntry PTE4K);
    Ret (Context, Some m)
  else Ret (Context, Some m).

(** A PML4 entry that shares the table of the first entry is cleared. *)
Definition ClearAlias (m : pmem) (PageTable PML4 : Z) : outcome pmem :=
  if decide (PML4 = PageTable) then Ret m else
  e ← rd64 m PML4;
  if decide (Present e = 0) then Ret m else
  e0 ← rd64 m PageTable;
  if decide (PageTableBaseAddress e0 = PageTableBaseAddress e) then wr64 m PML4 0 else Ret m.

Definition MapPage (Context : vm_context) (m : pmem) (PageTable VA PhysicalAddr : Z) : outcome (vm_context * pmem * EFI_STATUS) :=
  let PML4 := PageTable + 8 * PML4Offset VA in
  m0 ← ClearAlias m PageTable PML4;
  '(Context, r) ← EnsurePDPT Context m0 PML4;
  match r with None => Ret (Context, m0, EFI_NO_MAPPING) | Some m1 =>
  e ← rd64 m1 PML4;
  let PDPE := Z.land e PAGING_4K_ADDRESS_MASK_64 + 8 * PDPOffset VA in
  '(Context, r) ← EnsurePD Context m1 PDPE;
  match r with None => Ret (Context, m1, EFI_NO_MAPPING) | Some m2 =>
  e ← rd64 m2 PDPE;
  let PDE := Z.land e PAGING_4K_ADDRESS_MASK_64 + 8 * PDOffset VA in
  '(Context, r) ← EnsurePT Context m2 PDE;
  match r with None => Ret (Context, m2, EFI_NO_MAPPING) | Some m3 =>
  e ← rd64 m3 PDE;
  let PTE4K := Z.land e PAGING_4K_ADDRESS_MASK_64 + 8 * PTOffset VA in
  m4 ← wr64 m3 PTE4K (TableEntry PhysicalAddr);
  Ret (Context, m4, EFI_SUCCESS)
  end end end.

Definition VmMapVirtualPage (Context : vm_context) (s : machine) (PageTable VirtualAddr PhysicalAddr : Z)
  : outcome (vm_context * machine * EFI_STATUS) :=
  let PageTable := if decide (PageTable = 0) then (OcGetCurrentPageTable s).1 else PageTable in
  let '(s, WriteProtected) := DisablePageTableWriteProtection s in
  '(Context, m, Status) ← MapPage Context s.(Memory) PageTable VirtualAddr PhysicalAddr;
  let s := with_mem s m in
  Ret (Context, if WriteProtected : bool then EnablePageTableWriteProtection s else s, Status).

(** The loop of [VmMapVirtualPages], [n] turns at most. *)
Fixpoint MapPages (n : nat) (Context : vm_context) (s : machine) (PageTable VirtualAddr PhysicalAddr : Z)
  : outcome (vm_context * machine * EFI_STATUS) :=
  match n with
  | O => Ret (Context, s, EFI_SUCCESS)
  | S n =>
      '(Context, s, Status) ← VmMapVirtualPage Context s PageTable VirtualAddr PhysicalAddr;
      if EFI_ERROR Status then Ret (Context, s, Status)
      else MapPages n Context s PageTable (VirtualAddr +[64] SIZE_4KB) (PhysicalAddr +[64] SIZE_4KB)
  end.

Definition VmMapVirtualPages (Context : vm_context) (s : machine) (PageTable VirtualAddr NumPages PhysicalAddr : Z)
  : outcome (vm_context * machine * EFI_STATUS) :=
  let PageTable := if decide (PageTable = 0) then (OcGetCurrentPageTable s).1 else PageTable in
  MapPages (Z.to_nat NumPages) Context s PageTable VirtualAddr PhysicalAddr.

(** CR3 is written with its own value. *)
Definition VmFlushCaches (s : machine) : machine := Machine s.(Memory) s.(Cr0) s.(Cr3).

(** ** Specification: the address translation of the processor

    Levels are numbered from the page table (0) to the PML4 table (3). *)

Definition page_shift (k : nat) : Z := 12 + 9 * Z.of_nat k.
Definition index (k : nat) (va : Z) : Z := (va / 2 ^ page_shift k) mod 512.

(** The address bits of an entry that maps a page of level [k]. *)
Definition page_mask (k : nat) : Z := Z.shiftl (Z.ones (52 - page_shift k)) (page_shift k).

Definition present (e : Z) : bool := Z.testbit e 0.
(** The page size bit is defined at levels 1 and 2. *)
Definition large (k : nat) (e : Z) : bool :=
  match k with 1%nat | 2%nat => Z.testbit e 7 | _ => false end.
Definition table_of (e : Z) : Z := Z.land e (page_mask 0).

#[global] Arguments present : simpl never.
#[global] Arguments page_mask : simpl never.
#[global] Arguments page_shift : simpl never.
#[global] Arguments index : simpl never.
#[global] Arguments table_of : simpl never.

(** The walk from the table at [t] of level [k]: the level, the address and the
    content of the entry that maps [va]. *)
Fixpoint walk (k : nat) (m : pmem) (t va : Z) : outcome (option (nat * Z * Z)) :=
  let a := t + 8 * index k va in
  e ← rd64 m a;
  if negb (present e) then Ret None else
  match k with
  | O => Ret (Some (O, a, e))
  | S k' => if large k e then Ret (Some (k, a, e)) else walk k' m (table_of e) va
  end.

Definition page_address (k : nat) (e va : Z) : Z := Z.land e (page_mask k) + va mod 2 ^ page_shift k.

Definition translate (m : pmem) (root va : Z) : outcome (option Z) :=
  r ← walk 3 m root va;
  match r with
  | Some (k, _, e) => Ret (Some (page_address k e va))
  | None => Ret None
  end.

(** The table of level [3 - d] on the walk for [va]. *)
Fixpoint table_at (d : nat) (m : pmem) (root va : Z) : option Z :=
  match d with
  | O => Some root
  | S d =>
      t ← table_at d m root va;
      e ← m !! (t + 8 * index (3 - d) va);
      if present e && negb (large (3 - d) e) then Some (table_of e) else None
  end.

(** The same entries of the first [d] levels. *)
Definition agree (d : nat) (va va' : Z) : Prop := forall j, (j < d)%nat -> index (3 - j) va = index (3 - j) va'.

(** A page table in memory: all tables have their 512 entries, and no table is
    shared by two entries. *)
Record tree (m : pmem) (root : Z) : Prop := Tree {
  tree_root : (4096 | root);
  tree_entries : forall d va t i, (d <= 3)%nat -> table_at d m root va = Some t -> 0 <= i < 512 -> is_Some (m !! (t + 8 * i));
  tree_unshared : forall d d' va va' t, (d <= 3)%nat -> (d' <= 3)%nat ->
    table_at d m root va = Some t -> table_at d' m root va' = Some t -> d = d' /\ agree d va va'
}.

(** The entry at [t], if it is there, does not point to a table. *)
Definition no_table (k : nat) (e : Z) : Prop := present e = false \/ large k e = true.

(** ** Bit fields *)
Lemma get_field_bit x lo n k : 0 <= lo -> 0 <= n -> 0 <= k ->
  Z.testbit (get_field x lo n) k = bool_decide (k < n) && Z.testbit x (k + lo).
Proof.
  intros Hlo Hn Hk. unfold get_field. rewrite Z.land_spec, Z.shiftr_spec by done. case_bool_decide.
  - rewrite Z.ones_spec_low by lia. by rewrite andb_true_r.
  - rewrite Z.ones_spec_high by lia. by rewrite andb_false_r.
Qed.

Lemma set_field_bit x lo n v k : 0 <= lo -> 0 <= n -> 0 <= k ->
  Z.testbit (set_field x lo n v) k = if decide (lo <= k < lo + n) then Z.testbit v (k - lo) else Z.testbit x k.
Proof.
  intros Hlo Hn Hk. unfold set_field. rewrite Z.lor_spec, Z.ldiff_spec, !Z.shiftl_spec by done. case_decide as H.
  - rewrite Z.land_spec, Z.ones_spec_low by lia. by rewrite andb_false_r, andb_true_r.
  - destruct (decide (k < lo)).
    + rewrite !(Z.testbit_neg_r _ (k - lo)) by lia. by rewrite andb_true_r, orb_false_r.
    + rewrite Z.land_spec, Z.ones_spec_high by lia. by rewrite andb_true_r, andb_false_r, orb_false_r.
Qed.

Lemma get_field_mod x lo n : 0 <= lo -> 0 <= n -> get_field x lo n = (x / 2 ^ lo) mod 2 ^ n.
Proof. intros. unfold get_field. by rewrite Z.shiftr_div_pow2, Z.land_ones. Qed.

Lemma bit_field x lo : 0 <= lo -> get_field x lo 1 = Z.b2z (Z.testbit x lo).
Proof.
  intros Hlo. apply Z.bits_inj'. intros k Hk. rewrite get_field_bit by lia. case_bool_decide as H.
  - replace k with 0 by lia. rewrite Z.add_0_l, Z.b2z_bit0. done.
  - destruct (Z.testbit x lo); cbn [Z.b2z]; [|by rewrite Z.testbit_0_l].
    change 1 with (2 ^ 0). by rewrite Z.pow2_bits_false by lia.
Qed.

Lemma page_mask_bit k n : (k <= 3)%nat -> 0 <= n -> Z.testbit (page_mask k) n = bool_decide (page_shift k <= n < 52).
Proof.
  intros Hk Hn. unfold page_mask, page_shift. rewrite Z.shiftl_spec by done.
  case_bool_decide as H.
  - apply Z.ones_spec_low. lia.
  - destruct (decide (n < 12 + 9 * Z.of_nat k)); [by apply Z.testbit_neg_r; lia|]. apply Z.ones_spec_high. lia.
Qed.

Lemma page_masks :
  PAGING_4K_ADDRESS_MASK_64 = page_mask 0 /\ PAGING_2M_ADDRESS_MASK_64 = page_mask 1
  /\ PAGING_1G_ADDRESS_MASK_64 = page_mask 2 /\ CR3_ADDR_MASK = page_mask 0.
Proof. by vm_compute. Qed.

(** The masked address in arithmetic. *)
Lemma masked k x : (k <= 3)%nat -> Z.land x (page_mask k) = (x mod 2 ^ 52) / 2 ^ page_shift k * 2 ^ page_shift k.
Proof.
  intros Hk. assert (0 <= page_shift k <= 39) as Hs by (unfold page_shift; lia). apply Z.bits_inj'. intros n Hn.
  rewrite Z.land_spec, page_mask_bit by done.
  rewrite <- Z.shiftr_div_pow2, <- Z.shiftl_mul_pow2 by lia. rewrite Z.shiftl_spec by done.
  case_bool_decide as H.
  - rewrite Z.shiftr_spec by lia. rewrite Z.mod_pow2_bits_low by lia. rewrite andb_true_r. f_equal. lia.
  - rewrite andb_false_r. destruct (decide (n < page_shift k)); [by rewrite Z.testbit_neg_r by lia|].
    rewrite Z.shiftr_spec by lia. by rewrite Z.mod_pow2_bits_high by lia.
Qed.

Lemma masked_range k x : (k <= 3)%nat -> 0 <= Z.land x (page_mask k) <= 2 ^ 52 - 2 ^ page_shift k.
Proof.
  intros Hk. assert (0 <= page_shift k <= 39) as Hs by (unfold page_shift; lia). rewrite masked by done.
  pose proof (Z.mod_pos_bound x (2 ^ 52) ltac:(lia)). set (y := x mod 2 ^ 52) in *.
  assert (0 < 2 ^ page_shift k) as Hp by (apply Z.pow_pos_nonneg; lia).
  assert (2 ^ 52 = 2 ^ (52 - page_shift k) * 2 ^ page_shift k) as E by (rewrite <- Z.pow_add_r by lia; f_equal; lia).
  assert (0 <= y / 2 ^ page_shift k < 2 ^ (52 - page_shift k)).
  { split; [apply Z.div_pos; lia|apply Z.div_lt_upper_bound; [done|]]. lia. }
  nia.
Qed.

Lemma masked_id k x : (k <= 3)%nat -> 0 <= x < 2 ^ 52 -> (2 ^ page_shift k | x) -> Z.land x (page_mask k) = x.
Proof.
  intros Hk Hx [y ->]. rewrite masked by done. rewrite (Z.mod_small _ (2 ^ 52)) by done. rewrite Z.div_mul; [done|].
  apply Z.pow_nonzero; unfold page_shift; lia.
Qed.

Lemma masked_divide k x : (k <= 3)%nat -> (2 ^ page_shift k | Z.land x (page_mask k)).
Proof. intros Hk. rewrite masked by done. by exists ((x mod 2 ^ 52) / 2 ^ page_shift k). Qed.

(** A field below the address does not change it. *)
Lemma masked_set k x lo v : (k <= 3)%nat -> 0 <= lo < page_shift k -> Z.land (set_field x lo 1 v) (page_mask k) = Z.land x (page_mask k).
Proof.
  intros Hk Hlo. apply Z.bits_inj'. intros n Hn. rewrite !Z.land_spec, page_mask_bit by done. case_bool_decide; [|by rewrite !andb_false_r].
  rewrite set_field_bit by lia. by rewrite decide_False by lia.
Qed.

Lemma masked_twice x k : (k <= 3)%nat -> Z.land (Z.land x (page_mask k)) (page_mask k) = Z.land x (page_mask k).
Proof. intros Hk. by rewrite <- Z.land_assoc, Z.land_diag. Qed.

Lemma Present_spec e : (Present e = 0 <-> present e = false).
Proof. unfold Present, present. rewrite bit_field by lia. by destruct (Z.testbit e 0). Qed.

Lemma MustBeZero_spec e : (Z.land (MustBeZero e) 1 <> 0 <-> Z.testbit e 7 = true).
Proof.
  assert (Z.land (MustBeZero e) 1 = get_field e 7 1) as ->.
  { apply Z.bits_inj'. intros n Hn. rewrite Z.land_spec. unfold MustBeZero. rewrite !get_field_bit by lia.
    change 1 with (Z.ones 1) at 1. rewrite Z.testbit_ones_nonneg by lia. repeat case_bool_decide; destruct (Z.ltb_spec n 1); try lia; cbn; by rewrite ?andb_true_r, ?andb_false_r. }
  rewrite bit_field by lia. by destruct (Z.testbit e 7).
Qed.

Lemma offsets va :
  PML4Offset va = index 3 va /\ PDPOffset va = index 2 va /\ PDOffset va = index 1 va /\ PTOffset va = index 0 va.
Proof. unfold PML4Offset, PDPOffset, PDOffset, PTOffset, index. rewrite !get_field_mod by lia. done. Qed.

(** ** Walks *)
Lemma index_range k va : 0 <= index k va < 512.
Proof. apply Z.mod_pos_bound. lia. Qed.

Lemma index_page k va va' : (k <= 3)%nat -> va / 4096 = va' / 4096 -> index k va = index k va'.
Proof.
  intros Hk E. unfold index, page_shift. rewrite Z.pow_add_r by lia. change (2 ^ 12) with 4096.
  rewrite <- !Z.div_div by (try apply Z.pow_pos_nonneg; lia). by rewrite E.
Qed.

Lemma agree_S d va va' : agree (S d) va va' <-> agree d va va' /\ index (3 - d) va = index (3 - d) va'.
Proof.
  unfold agree. split.
  - intros H. split; [intros j Hj; apply H; lia|apply H; lia].
  - intros [H1 H2] j Hj. destruct (decide (j = d)) as [->|]; [done|apply H1; lia].
Qed.

#[export] Instance agree_dec d va va' : Decision (agree d va va').
Proof.
  induction d as [|d IH]; [left; intros j Hj; lia|].
  destruct IH as [H|H]; [destruct (decide (index (3 - d) va = index (3 - d) va')) as [E|E]|].
  - left. by apply agree_S.
  - right. rewrite agree_S. tauto.
  - right. rewrite agree_S. tauto.
Defined.

#[export] Instance agree_equivalence d : Equivalence (agree d).
Proof.
  split.
  - by intros x j Hj.
  - intros x y H j Hj. symmetry. by apply H.
  - intros x y z H1 H2 j Hj. rewrite H1 by done. by apply H2.
Qed.

Lemma agree_le d d' va va' : (d' <= d)%nat -> agree d va va' -> agree d' va va'.
Proof. intros Hd H j Hj. apply H. lia. Qed.

Lemma table_at_agree d m root va va' : agree d va va' -> table_at d m root va = table_at d m root va'.
Proof.
  induction d as [|d IH]; [done|]. rewrite agree_S. intros [H1 H2]. cbn [table_at]. rewrite (IH H1). by rewrite H2.
Qed.

Lemma table_at_S d m root va t : table_at (S d) m root va = Some t ->
  exists t0 e, table_at d m root va = Some t0 /\ m !! (t0 + 8 * index (3 - d) va) = Some e
    /\ present e = true /\ large (3 - d) e = false /\ t = table_of e.
Proof.
  cbn [table_at]. destruct (table_at d m root va) as [t0|]; cbn; [|done]. destruct (m !! _) as [e|] eqn:E; cbn; [|done].
  destruct (present e) eqn:E1, (large (3 - d) e) eqn:E2; cbn; try done. intros [= <-]. eauto 10.
Qed.

Lemma table_at_next d m root va t e :
  table_at d m root va = Some t -> m !! (t + 8 * index (3 - d) va) = Some e ->
  table_at (S d) m root va = if present e && negb (large (3 - d) e) then Some (table_of e) else None.
Proof. intros H1 H2. cbn [table_at]. rewrite H1. unfold mbind, option_bind. by rewrite H2. Qed.

Lemma table_aligned d m root va t : (4096 | root) -> table_at d m root va = Some t -> (4096 | t).
Proof.
  intros Hr. destruct d as [|d]; [by intros [= <-]|]. intros (t0 & e & _ & _ & _ & _ & ->)%table_at_S.
  change 4096 with (2 ^ page_shift 0). apply masked_divide. lia.
Qed.

Lemma slot_inj t t' i i' : (4096 | t) -> (4096 | t') -> 0 <= i < 512 -> 0 <= i' < 512 -> t + 8 * i = t' + 8 * i' -> t = t' /\ i = i'.
Proof. intros [x ->] [y ->] Hi Hi' H. lia. Qed.

(** The walk reads the tables of [table_at] only. *)
Lemma walk_ext m m' root va : forall k t, (k <= 3)%nat ->
  table_at (3 - k) m root va = Some t ->
  (forall d t', (3 - k <= d <= 3)%nat -> table_at d m root va = Some t' -> m' !! (t' + 8 * index (3 - d) va) = m !! (t' + 8 * index (3 - d) va)) ->
  walk k m' t va = walk k m t va.
Proof.
  induction k as [|k IH]; intros t Hk Ht HE; cbn [walk]; unfold rd64.
  - specialize (HE 3%nat t ltac:(lia) Ht). change (3 - 3)%nat with 0%nat in HE. by rewrite HE.
  - pose proof (HE (3 - S k)%nat t ltac:(lia) Ht) as E. replace (3 - (3 - S k))%nat with (S k) in E by lia. rewrite E.
    destruct (m !! (t + 8 * index (S k) va)) as [e|] eqn:Em; cbn [mbind outcome_bind]; [|done].
    destruct (present e) eqn:E1; cbn [negb]; [|done]. destruct (large (S k) e) eqn:E2; [done|].
    apply IH; [lia| |].
    + replace (3 - k)%nat with (S (3 - S k)) by lia. rewrite (table_at_next _ _ _ _ t e); [|done|].
      all: replace (3 - (3 - S k))%nat with (S k) by lia; by rewrite ?E1, ?E2.
    + intros d t' Hd. apply HE. lia.
Qed.

(** The walk ends at an entry of a table of [table_at]. *)
Lemma walk_end m root va : forall k t j a e, (k <= 3)%nat -> table_at (3 - k) m root va = Some t -> walk k m t va = Ret (Some (j, a, e)) ->
  (j <= k)%nat /\ (exists t', table_at (3 - j) m root va = Some t' /\ a = t' + 8 * index j va)
  /\ m !! a = Some e /\ present e = true /\ (j = 0%nat \/ large j e = true).
Proof.
  induction k as [|k IH]; intros t j a e Hk Ht; cbn [walk]; unfold rd64; (destruct (m !! _) as [e'|] eqn:Em; cbn [mbind outcome_bind]; [|done]);
    (destruct (present e') eqn:E1; cbn [negb]; [|done]).
  - intros [= <- <- <-]. repeat split; eauto.
  - destruct (large (S k) e') eqn:E2; [intros [= <- <- <-]; repeat split; eauto|].
    intros H. destruct (IH (table_of e') j a e) as (H1 & H2 & H3); [lia| |done|split; [lia|by split]].
    replace (3 - k)%nat with (S (3 - S k)) by lia. rewrite (table_at_next _ _ _ _ t e'); [|done|];
      replace (3 - (3 - S k))%nat with (S k) by lia; by rewrite ?E1, ?E2.
Qed.

Lemma translate_ext m m' root va :
  (forall d t, (d <= 3)%nat -> table_at d m root va = Some t -> m' !! (t + 8 * index (3 - d) va) = m !! (t + 8 * index (3 - d) va)) ->
  translate m' root va = translate m root va.
Proof.
  intros H. unfold translate. rewrite (walk_ext m m' root va 3 root); [done|lia|done|]. intros d t Hd. apply H. lia.
Qed.

(** The walk goes through the tables of [table_at]. *)
Lemma walk_at d m root va t : (d <= 3)%nat -> table_at d m root va = Some t -> walk 3 m root va = walk (3 - d) m t va.
Proof.
  revert t. induction d as [|d IH]; intros t Hd; [by cbn [table_at]; intros [= <-]|].
  intros (t0 & e & H0 & He & E1 & E2 & ->)%table_at_S. rewrite (IH t0) by (done || lia).
  replace (3 - d)%nat with (S (3 - S d)) in * by lia. cbn [walk]. unfold rd64. rewrite He. cbn [mbind outcome_bind]. by rewrite E1, E2.
Qed.

Lemma translate_at d m root va t e : (d <= 3)%nat -> table_at d m root va = Some t -> m !! (t + 8 * index (3 - d) va) = Some e ->
  present e && negb (large (3 - d) e) = false \/ d = 3%nat ->
  translate m root va = Ret (if present e then Some (page_address (3 - d) e va) else None).
Proof.
  intros Hd Ht He Hn. unfold translate. rewrite (walk_at d m root va t) by done.
  destruct (3 - d)%nat as [|k] eqn:Ek; cbn [walk]; unfold rd64; rewrite He; cbn [mbind outcome_bind]; destruct (present e) eqn:E1; cbn [negb mbind outcome_bind]; try done.
  destruct Hn as [Hn| ->]; [|done]. cbn [andb] in Hn. destruct (large (S k) e) eqn:E2; [done|]. discriminate.
Qed.

(** ** The lookup is the walk *)
Definition level_number (k : nat) : Z := match k with O => 4 | 1%nat => 2 | _ => 1 end.
Definition pat_bit (k : nat) : Z := match k with O => 7 | _ => 12 end.

(** The page table in use: the argument, or CR3. *)
Definition page_table (s : machine) (PageTable : Z) : Z :=
  if decide (PageTable = 0) then Z.land s.(Cr3) (page_mask 0) else PageTable.

Lemma GetSet_spec s PageTable va PatIndex SetPat :
  let root := page_table s PageTable in
  let p := match PatIndex with Some p => Some (if SetPat : bool then p else 0) | None => None end in
  OcGetSetPageTableInfoForAddress s PageTable va PatIndex SetPat =
  (r ← walk 3 s.(Memory) root va;
   match r with
   | None => Ret (s.(Memory), EFI_NO_MAPPING, None, p)
   | Some (k, a, _) => LeafInfo s.(Memory) a (level_number k) (page_mask k) (page_shift k) (pat_bit k) va p SetPat
   end).
Proof.
  intros root p. unfold OcGetSetPageTableInfoForAddress, OcGetCurrentPageTable. fold p.
  destruct (offsets va) as (-> & -> & -> & ->). destruct page_masks as (-> & -> & -> & ->). cbn [fst]. fold (page_table s PageTable). fold root.
  assert (forall e, (if decide (Present e = 0) then true else false) = negb (present e)) as HP.
  { intros e. pose proof (Present_spec e) as HS. case_decide; destruct (present e); try done; exfalso; intuition congruence. }
  assert (forall e, (if decide (Z.land (MustBeZero e) 1 <> 0) then true else false) = Z.testbit e 7) as HL.
  { intros e. pose proof (MustBeZero_spec e) as HS. case_decide; destruct (Z.testbit e 7); try done; exfalso; intuition congruence. }
  cbn [walk]. unfold table_of.
  destruct (rd64 (Memory s) (root + 8 * index 3 va)) as [e3|] eqn:R3; cbn [mbind outcome_bind]; [|done].
  specialize (HP e3) as P3. destruct (decide (Present e3 = 0)), (present e3); try done; cbn [negb large].
  destruct (rd64 (Memory s) (Z.land e3 (page_mask 0) + 8 * index 2 va)) as [e2|] eqn:R2; cbn [mbind outcome_bind]; [|done].
  specialize (HP e2) as P2. destruct (decide (Present e2 = 0)), (present e2); try done; cbn [negb large].
  specialize (HL e2) as L2. destruct (decide (Z.land (MustBeZero e2) 1 <> 0)), (Z.testbit e2 7); try done.
  destruct (rd64 (Memory s) (Z.land e2 (page_mask 0) + 8 * index 1 va)) as [e1|] eqn:R1; cbn [mbind outcome_bind]; [|done].
  specialize (HP e1) as P1. destruct (decide (Present e1 = 0)), (present e1); try done; cbn [negb large].
  specialize (HL e1) as L1. destruct (decide (Z.land (MustBeZero e1) 1 <> 0)), (Z.testbit e1 7); try done.
  destruct (rd64 (Memory s) (Z.land e1 (page_mask 0) + 8 * index 0 va)) as [e0|] eqn:R0; cbn [mbind outcome_bind]; [|done].
  specialize (HP e0) as P0. destruct (decide (Present e0 = 0)), (present e0); try done.
Qed.

(** ** New tables *)
Definition in_page (p a : Z) : Prop := exists i, 0 <= i < 512 /\ a = p + 8 * i.
Definition page_at (m : pmem) (p : Z) : Prop := forall i, 0 <= i < 512 -> is_Some (m !! (p + 8 * i)).

#[export] Instance in_page_dec p a : Decision (in_page p a).
Proof.
  destruct (decide (0 <= (a - p) / 8 < 512 /\ a = p + 8 * ((a - p) / 8))) as [H|H].
  - left. by exists ((a - p) / 8).
  - right. intros (i & Hi & ->). apply H. replace (p + 8 * i - p) with (i * 8) by lia. rewrite Z.div_mul by lia. lia.
Defined.

(** A page with the entries [E]. *)
Definition filled (m m' : pmem) (p : Z) (E : Z -> Z) : Prop :=
  (forall i, 0 <= i < 512 -> m' !! (p + 8 * i) = Some (E i)) /\ (forall a, ~ in_page p a -> m' !! a = m !! a).

Lemma wr64_in m a x : is_Some (m !! a) -> wr64 m a x = Ret (<[a := x]> m).
Proof. intros [y H]. unfold wr64. by rewrite H. Qed.

Lemma fill_step m0 m p E i x : 0 <= i < 512 -> page_at m0 p ->
  (forall j, 0 <= j < i -> m !! (p + 8 * j) = Some (E j)) -> (forall a, ~ (exists j, 0 <= j < i /\ a = p + 8 * j) -> m !! a = m0 !! a) ->
  x = E i ->
  wr64 m (p + 8 * i) x = Ret (<[p + 8 * i := x]> m)
  /\ (forall j, 0 <= j < i + 1 -> <[p + 8 * i := x]> m !! (p + 8 * j) = Some (E j))
  /\ (forall a, ~ (exists j, 0 <= j < i + 1 /\ a = p + 8 * j) -> <[p + 8 * i := x]> m !! a = m0 !! a).
Proof.
  intros Hi Hp H1 H2 ->. split; [|split].
  - apply wr64_in. rewrite H2 by (intros (j & Hj & E'); lia). by apply Hp.
  - intros j Hj. destruct (decide (j = i)) as [->|]; [apply lookup_insert_eq|]. rewrite lookup_insert_ne by lia. apply H1. lia.
  - intros a Ha. rewrite lookup_insert_ne.
    + apply H2. intros (j & Hj & ->). apply Ha. exists j. lia.
    + intros <-. apply Ha. exists i. lia.
Qed.

Lemma ZeroPage_spec m p : page_at m p -> exists m', ZeroPage m p = Ret m' /\ filled m m' p (fun _ => 0).
Proof.
  intros Hp. unfold ZeroPage.
  destruct (for_total (fun Index m => wr64 m (p + 8 * Index) 0)
    (fun i m' => (forall j, 0 <= j < i -> m' !! (p + 8 * j) = Some 0) /\ (forall a, ~ (exists j, 0 <= j < i /\ a = p + 8 * j) -> m' !! a = m !! a)) 512 0 m)
    as (m' & E & H1 & H2).
  - split; [intros j Hj; lia|done].
  - intros i s Hi [H1 H2]. destruct (fill_step m s p (fun _ => 0) i 0) as (E & H3 & H4); try done; by eexists.
  - exists m'. split; [exact E|]. split; [intros i Hi; apply H1; lia|intros a Ha; apply H2; exact Ha].
Qed.

(** The entries of [FillTable]. *)
Definition page_entry (large : bool) (mask S : Z) : Z :=
  let e := set_Present (set_ReadWrite (Z.land S mask) 1) 1 in if large then set_MustBe1 e 1 else e.

Lemma FillTable_spec m p Start size mask b :
  page_at m p -> 0 <= Start -> 0 <= size -> Start + 512 * size < 2 ^ 64 ->
  exists m', FillTable m p Start size mask b = Ret m' /\ filled m m' p (fun i => page_entry b mask (Start + size * i)).
Proof.
  intros Hp HS Hz H64. unfold FillTable.
  match goal with |- context [for_ 512 0 ?b _] => set (body := b) end.
  destruct (for_total body
    (fun i st => ((forall j, 0 <= j < i -> st.1 !! (p + 8 * j) = Some (page_entry b mask (Start + size * j)))
       /\ (forall a, ~ (exists j, 0 <= j < i /\ a = p + 8 * j) -> st.1 !! a = m !! a)) /\ st.2 = Start + size * i) 512 0 (m, Start))
    as ([m' S'] & E & [H1 H2] & _).
  - cbn. split; [split; [intros j Hj; lia|done]|lia].
  - intros i [s S'] Hi [[H1 H2] HS']. cbn in H1, H2, HS'. subst S'.
    destruct (fill_step m s p (fun j => page_entry b mask (Start + size * j)) i (page_entry b mask (Start + size * i))) as (E & H3 & H4); try done.
    unfold body. fold (page_entry b mask (Start + size * i)). rewrite E. cbn [mbind outcome_bind]. eexists. split; [done|]. cbn. split; [done|].
    rewrite wrap_small by nia. lia.
  - rewrite E. exists m'. split; [done|]. split; [intros i Hi; apply H1; lia|intros a Ha; apply H2; exact Ha].
Qed.

Lemma set_field_bit1 e lo v n : 0 <= lo -> 0 <= n -> Z.testbit (set_field e lo 1 v) n = if decide (n = lo) then Z.testbit v 0 else Z.testbit e n.
Proof. intros Hlo Hn. rewrite set_field_bit by lia. repeat case_decide; try lia; [|done]. subst. f_equal. lia. Qed.

Lemma page_entry_spec k S : (k <= 2)%nat -> 0 <= S < 2 ^ 52 -> (2 ^ page_shift k | S) ->
  let e := page_entry (bool_decide (k <> 0%nat)) (page_mask k) S in
  present e = true /\ (k <> 0%nat -> large k e = true) /\ Z.land e (page_mask k) = S.
Proof.
  intros Hk HS Hd e. assert (12 <= page_shift k) by (unfold page_shift; lia). unfold e, page_entry, set_MustBe1, set_Present, set_ReadWrite, present.
  split; [|split].
  - case_bool_decide; rewrite ?set_field_bit1 by lia; done.
  - intros Hk0. rewrite bool_decide_eq_true_2 by done. destruct k as [|[|[|k]]]; try lia; cbn [large]; by rewrite !set_field_bit1 by lia.
  - case_bool_decide; rewrite !masked_set by lia; rewrite masked_twice by lia; apply masked_id; (done || lia).
Qed.

Lemma TableEntry_spec p : 0 <= p < 2 ^ 52 -> (4096 | p) ->
  present (TableEntry p) = true /\ (forall k, large k (TableEntry p) = false) /\ table_of (TableEntry p) = p /\ PageTableBaseAddress (TableEntry p) = p / 4096.
Proof.
  intros Hp Hd. destruct page_masks as (EM & _). unfold TableEntry, set_Present, set_ReadWrite, present, table_of. rewrite EM.
  rewrite (masked_id 0 p) by (done || lia). assert (forall n, 0 <= n < 12 -> Z.testbit p n = false) as Hlow.
  { intros n Hn. destruct Hd as [q ->]. change 4096 with (2 ^ 12). apply Z.mul_pow2_bits_low. lia. }
  split; [by rewrite set_field_bit1 by lia|]. split; [|split].
  - intros k. assert (Z.testbit (set_field (set_field p 1 1 1) 0 1 1) 7 = false) as HB by (rewrite !set_field_bit1 by lia; apply Hlow; lia).
    by destruct k as [|[|[|k]]].
  - rewrite !masked_set by (unfold page_shift; lia). by apply masked_id; [lia| |].
  - unfold PageTableBaseAddress. apply Z.bits_inj'. intros n Hn. rewrite get_field_bit by lia. change 4096 with (2 ^ 12).
    rewrite <- Z.shiftr_div_pow2 by lia. rewrite Z.shiftr_spec by done. rewrite !set_field_bit1 by lia. rewrite !decide_False by lia.
    case_bool_decide; [done|]. cbn. destruct (decide (p = 0)) as [->|]; [by rewrite Z.testbit_0_l|]. symmetry. apply Z.bits_above_log2; [lia|].
    apply Z.log2_lt_pow2; [lia|]. apply Z.lt_le_trans with (2 ^ 52); [lia|]. apply Z.pow_le_mono_r; lia.
Qed.

(** ** A new table in the tree *)

Definition fresh (m : pmem) (root p : Z) : Prop := forall d va, (d <= 3)%nat -> table_at d m root va <> Some p.

(** [m'] is [m] with the page at [p] filled and the entry [a] replaced by [e']. *)
Record plugged (m m' : pmem) (a p e' : Z) : Prop := Plugged {
  plug_entry : m' !! a = Some e';
  plug_page : page_at m' p;
  plug_rest : forall x, ~ in_page p x -> x <> a -> m' !! x = m !! x
}.

Section Plug.
Context (m m' : pmem) (root : Z) (d : nat) (va t e e' p : Z).
Context (HT : tree m root) (Hd : (d <= 2)%nat) (Ht : table_at d m root va = Some t).
Context (He : m !! (t + 8 * index (3 - d) va) = Some e) (Hno : present e && negb (large (3 - d) e) = false).
Context (Hp : (4096 | p)) (Hf : fresh m root p) (HP : plugged m m' (t + 8 * index (3 - d) va) p e').
Context (He' : present e' && negb (large (3 - d) e') = true) (Hto : table_of e' = p).
Context (Hleaf : (d < 2)%nat -> forall i x, 0 <= i < 512 -> m' !! (p + 8 * i) = Some x -> present x && negb (large (2 - d) x) = false).

(** The entries of the old tables. *)
Lemma plug_same d' va' t' i : (d' <= 3)%nat -> table_at d' m root va' = Some t' -> 0 <= i < 512 ->
  (d' = d -> agree d va va' -> i <> index (3 - d) va) -> m' !! (t' + 8 * i) = m !! (t' + 8 * i).
Proof using HT Hd Ht Hp Hf HP He Hno He' Hleaf.
  intros Hd' Ht' Hi Hne. pose proof (tree_root _ _ HT) as Hr. apply (plug_rest _ _ _ _ _ HP).
  - intros (j & Hj & E). destruct (slot_inj t' p i j) as [-> _]; try done; [by eapply table_aligned|]. by apply (Hf d' va').
  - intros E. destruct (slot_inj t' t i (index (3 - d) va)) as [-> Ei]; try done; [by eapply table_aligned|by eapply table_aligned|apply index_range|].
    destruct (tree_unshared _ _ HT d d' va va' t ltac:(lia) Hd' Ht Ht') as [-> Ha]. by apply Hne.
Qed.

Lemma plug_tables d' va' : (d' <= 3)%nat ->
  table_at d' m' root va' =
  if decide (agree (S d) va va' /\ (d < d')%nat) then (if decide (d' = S d) then Some p else None) else table_at d' m root va'.
Proof using All.
  induction d' as [|d' IH]; intros Hd'; [by rewrite decide_False by lia|].
  specialize (IH ltac:(lia)). assert (agree (S d) va va' -> table_at d m root va' = Some t) as Hta.
  { intros Ha. rewrite <- (table_at_agree d m root va va'); [done|]. apply (agree_le (S d)); [lia|done]. }
  destruct (decide (agree (S d) va va')) as [Ha|Ha].
  - destruct (decide (d' < d)%nat) as [Hlt|Hlt].
    + rewrite decide_False in IH by (intros [_ ?]; lia). rewrite decide_False by (intros [_ ?]; lia). cbn [table_at]. rewrite IH. destruct (table_at d' m root va') as [t'|] eqn:E; [|done].
      unfold mbind, option_bind. rewrite (plug_same d' va' t'); [done|lia|done|apply index_range|lia].
    + destruct (decide (d' = d)) as [->|Hne].
      * rewrite decide_False in IH by (intros [_ ?]; lia). rewrite (Hta Ha) in IH. rewrite decide_True by (split; [done|lia]). rewrite decide_True by done.
        apply agree_S in Ha as [_ Hi]. pose proof (plug_entry _ _ _ _ _ HP) as E. rewrite Hi in E.
        rewrite (table_at_next _ _ _ _ t e') by done. by rewrite He', Hto.
      * rewrite decide_True in IH by (split; [done|lia]). rewrite decide_True by (split; [done|lia]). rewrite (decide_False (P := S d' = S d)) by lia.
        case_decide as E.
        -- subst d'. destruct (plug_page _ _ _ _ _ HP (index (3 - S d) va') (index_range _ _)) as [x Hx].
           rewrite (table_at_next _ _ _ _ p x) by done. replace (3 - S d)%nat with (2 - d)%nat in * by lia.
           by rewrite (Hleaf ltac:(lia) (index (2 - d) va') x (index_range _ _) Hx).
        -- cbn [table_at]. by rewrite IH.
  - rewrite decide_False in IH by tauto. rewrite decide_False by tauto. cbn [table_at]. rewrite IH. destruct (table_at d' m root va') as [t'|] eqn:E; [|done].
    unfold mbind, option_bind. rewrite (plug_same d' va' t'); [done|lia|done|apply index_range|].
    intros -> Hag Hi. apply Ha, agree_S. split; [done|by symmetry].
Qed.

(** Below the replaced entry there was no table. *)
Lemma plug_below d' va' : (d < d')%nat -> agree (S d) va va' -> table_at d' m root va' = None.
Proof using Ht He Hno Hleaf Hd.
  intros Hdd Ha. induction d' as [|d' IH]; [lia|]. destruct (decide (d' = d)) as [->|Hne].
  - apply agree_S in Ha as [Ha Hi]. rewrite (table_at_next _ _ _ _ t e).
    + by rewrite Hno.
    + by rewrite <- (table_at_agree d m root va va').
    + by rewrite <- Hi.
  - cbn [table_at]. by rewrite IH by lia.
Qed.

Lemma plug_tree : tree m' root.
Proof using All.
  constructor; [apply (tree_root _ _ HT)| |].
  - intros d' va' t' i Hd' Ht' Hi. rewrite plug_tables in Ht' by done. case_decide as H.
    + case_decide; [|done]. injection Ht' as <-. by apply (plug_page _ _ _ _ _ HP).
    + destruct (decide (d' = d /\ agree d va va' /\ i = index (3 - d) va)) as [(-> & Ha & ->)|Hne].
      * rewrite <- (table_at_agree d m root va va'), Ht in Ht' by done. injection Ht' as <-. rewrite (plug_entry _ _ _ _ _ HP). by eexists.
      * rewrite (plug_same d' va' t') by (done || tauto). by apply (tree_entries _ _ HT d' va').
  - intros d1 d2 v1 v2 x H1 H2 E1 E2. rewrite plug_tables in E1, E2 by done.
    destruct (decide (agree (S d) va v1 /\ (d < d1)%nat)) as [[A1 L1]|N1], (decide (agree (S d) va v2 /\ (d < d2)%nat)) as [[A2 L2]|N2].
    + destruct (decide (d1 = S d)); [|done]. destruct (decide (d2 = S d)); [|done]. subst. split; [done|]. by transitivity va.
    + destruct (decide (d1 = S d)); [|done]. injection E1 as <-. by apply Hf in E2.
    + destruct (decide (d2 = S d)); [|done]. injection E2 as <-. by apply Hf in E1.
    + by apply (tree_unshared _ _ HT d1 d2 v1 v2 x).
Qed.

(** Addresses whose walk does not use the replaced entry. *)
Lemma plug_elsewhere va' : ~ agree (S d) va va' -> translate m' root va' = translate m root va'.
Proof using All.
  intros Ha. apply translate_ext. intros d' t' Hd' Ht'. apply (plug_same d' va' t'); try done; [apply index_range|].
  intros -> Hag Hi. apply Ha, agree_S. split; [done|by symmetry].
Qed.

(** Addresses whose walk uses it. *)
Lemma plug_there va' i x :
  agree (S d) va va' -> i = index (2 - d) va' -> m' !! (p + 8 * i) = Some x ->
  translate m' root va' = Ret (if present x then Some (page_address (2 - d) x va') else None)
  /\ translate m root va' = Ret (if present e then Some (page_address (3 - d) e va') else None).
Proof using All.
  intros Ha -> Hx. split.
  - replace (2 - d)%nat with (3 - S d)%nat in Hx |- * by lia. apply (translate_at (S d) m' root va' p); [lia| |done|].
    + rewrite plug_tables by lia. rewrite decide_True by (split; [done|lia]). by rewrite decide_True.
    + destruct (decide (d = 2%nat)) as [E|]; [by right; rewrite E|left]. replace (3 - S d)%nat with (2 - d)%nat in Hx |- * by lia.
      apply (Hleaf ltac:(lia) (index (2 - d) va') x); [apply index_range|done].
  - pose proof Ha as Ha'. apply agree_S in Ha' as [H1 H2]. apply (translate_at d m root va' t); [lia| |by rewrite <- H2|by left].
    by rewrite <- (table_at_agree d m root va va').
Qed.

End Plug.

(** ** The pool and the state of a mapping *)

Definition pool_page (ctx : vm_context) (i : Z) : Z := ctx.(MemoryPool) + 4096 * i.

(** The free pages of the pool are memory that no entry points to. *)
Record pool_ok (m : pmem) (root : Z) (ctx : vm_context) : Prop := PoolOk {
  pool_aligned : (4096 | ctx.(MemoryPool));
  pool_range : 0 < ctx.(MemoryPool) /\ 0 <= ctx.(FreePages) /\ pool_page ctx ctx.(FreePages) <= 2 ^ 52;
  pool_memory : forall i, 0 <= i < ctx.(FreePages) -> page_at m (pool_page ctx i);
  pool_fresh : forall i, 0 <= i < ctx.(FreePages) -> fresh m root (pool_page ctx i)
}.

(** The page size bit is clear in the entries that are not present. *)
Definition tidy (m : pmem) (root : Z) : Prop := forall d va t e, (d <= 2)%nat -> table_at d m root va = Some t ->
  m !! (t + 8 * index (3 - d) va) = Some e -> present e = false -> Z.testbit e 7 = false.

Record vm_ok (m : pmem) (root : Z) (ctx : vm_context) : Prop := VmOk {
  ok_tree : tree m root;
  ok_tidy : tidy m root;
  ok_pool : pool_ok m root ctx
}.

(** A new table is in place of the entry [e] on the walk for [va]; [E] are its entries. *)
Lemma plug_new m m1 root ctx d va t e E :
  vm_ok m root ctx -> 0 < ctx.(FreePages) -> (d <= 2)%nat -> table_at d m root va = Some t ->
  m !! (t + 8 * index (3 - d) va) = Some e -> present e && negb (large (3 - d) e) = false ->
  (forall i, 0 <= i < 512 -> (d < 2)%nat -> present (E i) && negb (large (2 - d) (E i)) = false /\ (present (E i) = false -> Z.testbit (E i) 7 = false)) ->
  filled m m1 ctx.(MemoryPool) E ->
  let m' := <[t + 8 * index (3 - d) va := TableEntry ctx.(MemoryPool)]> m1 in
  wr64 m1 (t + 8 * index (3 - d) va) (TableEntry ctx.(MemoryPool)) = Ret m'
  /\ vm_ok m' root (VmContext (ctx.(MemoryPool) + 4096) (ctx.(FreePages) - 1))
  /\ table_at (S d) m' root va = Some ctx.(MemoryPool) /\ (forall j, (j <= d)%nat -> table_at j m' root va = table_at j m root va)
  /\ (forall va', is_Some (table_at 1 m root va') -> is_Some (table_at 1 m' root va'))
  /\ (forall va', ~ agree (S d) va va' -> translate m' root va' = translate m root va')
  /\ (forall va', agree (S d) va va' ->
       translate m' root va' = Ret (if present (E (index (2 - d) va')) then Some (page_address (2 - d) (E (index (2 - d) va')) va') else None)
       /\ translate m root va' = Ret (if present e then Some (page_address (3 - d) e va') else None)).
Proof.
  intros [HT HY [Hal (Hpos & _ & Hmax) Hmem Hfr]] Hfree Hd Ht He Hno HE [Hin Hout] m'. unfold pool_page in *. set (p := ctx.(MemoryPool)) in *.
  set (a := t + 8 * index (3 - d) va) in *.
  assert (4096 | t) as Hat by (eapply table_aligned; [apply (tree_root _ _ HT)|done]).
  assert (fresh m root p) as Hf by (specialize (Hfr 0); rewrite Z.mul_0_r, Z.add_0_r in Hfr; apply Hfr; lia).
  assert (~ in_page p a) as Hap.
  { intros (j & Hj & Ej). destruct (slot_inj t p (index (3 - d) va) j) as [-> _]; try done; [apply index_range|]. by apply (Hf d va); [lia|]. }
  destruct (TableEntry_spec p) as (P1 & P2 & P3 & _); [lia|done|].
  assert (forall i, 0 <= i < 512 -> m' !! (p + 8 * i) = Some (E i)) as Hin'.
  { intros i Hi. unfold m'. rewrite lookup_insert_ne; [by apply Hin|]. intros Ea. apply Hap. by exists i. }
  assert (plugged m m' a p (TableEntry p)) as HP.
  { constructor; [apply lookup_insert_eq|intros i Hi; rewrite Hin' by done; by eexists|].
    intros x Hx1 Hx2. unfold m'. rewrite lookup_insert_ne by done. by apply Hout. }
  assert (present (TableEntry p) && negb (large (3 - d) (TableEntry p)) = true) as He' by by rewrite P1, P2.
  assert ((d < 2)%nat -> forall i x, 0 <= i < 512 -> m' !! (p + 8 * i) = Some x -> present x && negb (large (2 - d) x) = false) as Hl.
  { intros Hd2 i x Hi. rewrite Hin' by done. intros [= <-]. by apply HE. }
  pose proof (plug_tables m m' root d va t e (TableEntry p) p HT Hd Ht He Hno Hal Hf HP He' P3 Hl) as HTb.
  assert (forall x, is_Some (m !! x) -> is_Some (m' !! x)) as Hdom.
  { intros x Hx. destruct (decide (x = a)) as [->|Hxa]; [rewrite (plug_entry _ _ _ _ _ HP); by eexists|].
    destruct (decide (in_page p x)) as [(i & Hi & ->)|Hx']; [rewrite Hin' by done; by eexists|].
    by rewrite (plug_rest _ _ _ _ _ HP). }
  split; [|split; [split|split; [|split; [|split; [|split]]]]].
  - apply wr64_in. rewrite Hout by done. by eexists.
  - by apply (plug_tree m m' root d va t e (TableEntry p) p).
  - intros d' va' t' x Hd' Ht' Hx. rewrite HTb in Ht' by lia. case_decide as C.
    + case_decide; [|done]. injection Ht' as <-. subst d'. rewrite Hin' in Hx by apply index_range. injection Hx as <-. apply HE; [apply index_range|lia].
    + destruct (decide (t' + 8 * index (3 - d') va' = a)) as [Ea|Ea].
      * rewrite Ea, (plug_entry _ _ _ _ _ HP) in Hx. injection Hx as <-. by rewrite P1.
      * rewrite (plug_rest _ _ _ _ _ HP) in Hx; [by apply (HY d' va' t' x)| |done].
        intros (j & Hj & Ej). destruct (slot_inj t' p (index (3 - d') va') j) as [-> _]; try done;
          [by eapply table_aligned; [apply (tree_root _ _ HT)|]|apply index_range|]. by apply (Hf d' va'); [lia|].
  - assert (forall i, p + 4096 + 4096 * i = p + 4096 * (i + 1)) as Epage by (intros i; lia).
    constructor; unfold pool_page; cbn [MemoryPool FreePages].
    + by apply Z.divide_add_r; [|exists 1].
    + lia.
    + intros i Hi. rewrite Epage. intros j Hj. apply Hdom, Hmem; lia.
    + intros i Hi d' va' Hd' Ht'. rewrite Epage in Ht'. rewrite HTb in Ht' by done. case_decide; [case_decide; [|done]; injection Ht'; lia|].
      by apply (Hfr (i + 1) ltac:(lia) d' va').
  - rewrite HTb by lia. rewrite decide_True by (split; [done|lia]). by rewrite decide_True.
  - intros j Hj. rewrite HTb by lia. by rewrite decide_False by (intros [_ ?]; lia).
  - intros va' Hs. rewrite HTb by lia. case_decide as C; [|done]. rewrite decide_True by lia. by eexists.
  - intros va' Ha. by apply (plug_elsewhere m m' root d va t e (TableEntry p) p).
  - intros va' Ha. by apply (plug_there m m' root d va t e (TableEntry p) p HT Hd Ht He Hno Hal Hf HP He' P3 Hl va' _ _ Ha eq_refl), Hin', index_range.
Qed.

Lemma filled_page m m' p E : filled m m' p E -> page_at m' p.
Proof. intros [H _] i Hi. rewrite H by done. by eexists. Qed.

Lemma filled_trans m m1 m2 p E1 E2 : filled m m1 p E1 -> filled m1 m2 p E2 -> filled m m2 p E2.
Proof. intros [_ H1] [H2 H3]. split; [done|]. intros a Ha. by rewrite H3, H1. Qed.

Lemma page_shift_S k : page_shift (S k) = page_shift k + 9.
Proof. unfold page_shift. lia. Qed.

(** The offset in a page of level [S k] is the index of level [k] and the offset below. *)
Lemma offset_split k va : va mod 2 ^ page_shift (S k) = 2 ^ page_shift k * index k va + va mod 2 ^ page_shift k.
Proof.
  assert (0 <= page_shift k) by (unfold page_shift; lia). rewrite page_shift_S, Z.pow_add_r by lia.
  assert (2 ^ page_shift k <> 0) by (apply Z.pow_nonzero; lia). rewrite Z.rem_mul_r by lia. unfold index. change (2 ^ 9) with 512. lia.
Qed.

(** The entries of a split page map what the page mapped. *)
Lemma split_address k S va : (k <= 2)%nat -> 0 <= S -> S + 2 ^ page_shift (Datatypes.S k) <= 2 ^ 52 -> (2 ^ page_shift k | S) ->
  page_address k (page_entry (bool_decide (k <> 0%nat)) (page_mask k) (S + 2 ^ page_shift k * index k va)) va = S + va mod 2 ^ page_shift (Datatypes.S k).
Proof.
  intros Hk HS Hmax Hd. pose proof (index_range k va) as Hi. assert (0 < 2 ^ page_shift k) as Hpos by (apply Z.pow_pos_nonneg; unfold page_shift; lia).
  rewrite page_shift_S, Z.pow_add_r in Hmax by (unfold page_shift; lia). change (2 ^ 9) with 512 in Hmax.
  destruct (page_entry_spec k (S + 2 ^ page_shift k * index k va)) as (_ & _ & E); [done|nia|by apply Z.divide_add_r; [|apply Z.divide_factor_l]|].
  unfold page_address. rewrite E, offset_split. lia.
Qed.

Lemma VmAllocatePages_spec m root ctx : pool_ok m root ctx ->
  VmAllocatePages ctx 1 =
  if decide (0 < ctx.(FreePages)) then (VmContext (ctx.(MemoryPool) + 4096) (ctx.(FreePages) - 1), ctx.(MemoryPool)) else (ctx, 0).
Proof. intros [_ (_ & H & _) _ _]. unfold VmAllocatePages. change (EFI_PAGES_TO_SIZE 1) with 4096. repeat case_decide; (done || lia). Qed.

(** The entry of the PML4 table for [va] is not present. *)
Definition absent (m : pmem) (root va : Z) : bool :=
  match m !! (root + 8 * index 3 va) with Some e => negb (present e) | None => false end.

(** What is known of one level after it was ensured. *)
Record ensured (m m' : pmem) (root va : Z) (d : nat) (ctx ctx' : vm_context) : Prop := Ensured {
  ensured_ok : vm_ok m' root ctx';
  ensured_above : forall j, (j < d)%nat -> table_at j m' root va = table_at j m root va;
  ensured_first : forall va', is_Some (table_at 1 m root va') -> is_Some (table_at 1 m' root va');
  ensured_table : is_Some (table_at d m' root va);
  ensured_free : ctx.(FreePages) - 1 <= ctx'.(FreePages) <= ctx.(FreePages)
}.

Lemma first_page m root ctx : pool_ok m root ctx -> 0 < ctx.(FreePages) -> page_at m ctx.(MemoryPool).
Proof. intros H Hf. pose proof (pool_memory _ _ _ H 0 ltac:(lia)) as HP. unfold pool_page in HP. by rewrite Z.mul_0_r, Z.add_0_r in HP. Qed.

Lemma EnsurePDPT_spec m root ctx va : vm_ok m root ctx ->
  exists ctx' r, EnsurePDPT ctx m (root + 8 * index 3 va) = Ret (ctx', r) /\
  match r with
  | None => ctx' = ctx /\ ctx.(FreePages) = 0
  | Some m' => ensured m m' root va 1 ctx ctx' /\
      forall va', translate m' root va' = if absent m root va && bool_decide (agree 1 va va') then Ret (Some (va' mod 2 ^ 39)) else translate m root va'
  end.
Proof.
  intros Hok. pose proof Hok as [HT _ HPool]. pose proof (pool_range _ _ _ HPool) as (Hpos & Hf0 & _).
  destruct (tree_entries _ _ HT 0 va root (index 3 va) ltac:(lia) eq_refl (index_range _ _)) as [e He].
  unfold EnsurePDPT, rd64, absent. rewrite He. cbn [mbind outcome_bind]. pose proof (Present_spec e) as HS.
  destruct (decide (Present e = 0)) as [HP|HP].
  - apply HS in HP. rewrite HP. rewrite (VmAllocatePages_spec m root) by done. destruct (decide (0 < FreePages ctx)) as [Hf|Hf].
    + rewrite decide_False by lia. pose proof (first_page _ _ _ HPool Hf) as Hpg.
      destruct (ZeroPage_spec m (MemoryPool ctx) Hpg) as (m0 & E0 & F0). rewrite E0. cbn [mbind outcome_bind].
      destruct (FillTable_spec m0 (MemoryPool ctx) 0 SIZE_1GB PAGING_1G_ADDRESS_MASK_64 true) as (m1 & E1 & F1); [by eapply filled_page|done..|].
      rewrite E1. cbn [mbind outcome_bind]. pose proof (filled_trans _ _ _ _ _ _ F0 F1) as F. destruct page_masks as (_ & _ & EM & _). rewrite EM in F.
      assert (forall v, page_entry true (page_mask 2) (0 + SIZE_1GB * index 2 v) = page_entry (bool_decide (2 <> 0)%nat) (page_mask 2) (0 + 2 ^ page_shift 2 * index 2 v)) as Eent by done.
      destruct (plug_new m m1 root ctx 0 va root e (fun i => page_entry true (page_mask 2) (0 + SIZE_1GB * i)) Hok Hf ltac:(lia) eq_refl He ltac:(by rewrite HP))
        as (W & Hok' & Ht' & Hab & Hfi & N & A); [|exact F|].
      * intros i Hi _. change SIZE_1GB with (2 ^ page_shift 2). assert (2 ^ page_shift 2 = 2 ^ 30) as E30 by done.
        destruct (page_entry_spec 2 (0 + 2 ^ page_shift 2 * i)) as (P1 & P2 & _); [lia|lia|by apply Z.divide_add_r; [apply Z.divide_0_r|apply Z.divide_factor_l]|].
        rewrite bool_decide_eq_true_2 in P1, P2 by done. change (2 - 0)%nat with 2%nat. by rewrite P1, P2.
      * change (3 - 0)%nat with 3%nat in W, Hok', Ht', Hab, Hfi, N, A. rewrite W. cbn [mbind outcome_bind]. eexists _, (Some _). split; [done|].
        split; [constructor; [done|intros j Hj; apply Hab; lia|done|by exists (MemoryPool ctx)|cbn [FreePages]; clear - Hf; lia]|]. intros va'. cbn [negb andb].
        destruct (bool_decide_reflect (agree 1 va va')) as [Ha|Ha]; [|by apply N].
        destruct (A va' Ha) as [-> _]. change (2 - 0)%nat with 2%nat. pose proof (index_range 2 va') as Hi2. rewrite Eent.
        destruct (page_entry_spec 2 (0 + 2 ^ page_shift 2 * index 2 va')) as (P1 & _ & _);
          [lia|change (2 ^ page_shift 2) with (2 ^ 30); lia|by apply Z.divide_add_r; [apply Z.divide_0_r|apply Z.divide_factor_l]|].
        rewrite P1. rewrite split_address; [done|lia|lia|done|by apply Z.divide_0_r].
    + rewrite decide_True by done. eexists _, None. split; [done|]. split; [done|lia].
  - assert (present e = true) as HP' by (destruct (present e); [done|exfalso; tauto]). rewrite HP'. eexists _, (Some _). split; [done|].
    split; [|done]. constructor; [done|done|done| |lia]. rewrite (table_at_next 0 m root va root e) by done. rewrite HP'. cbn. by eexists.
Qed.

(** [EnsurePD] and [EnsurePT] are the same function at the levels 1 and 0. *)
Definition EnsureTable (k : nat) (ctx : vm_context) (m : pmem) (a : Z) : outcome (vm_context * option pmem) :=
  e ← rd64 m a;
  if decide (Present e = 0 \/ Z.land (MustBeZero e) 1 <> 0) then
    let '(ctx, p) := VmAllocatePages ctx 1 in
    if decide (p = 0) then Ret (ctx, None) else
    m ← ZeroPage m p;
    m ← (if decide (Z.land (MustBeZero e) 1 <> 0)
         then FillTable m p (Z.land e (page_mask (S k))) (2 ^ page_shift k) (page_mask k) (bool_decide (k <> 0%nat)) else Ret m);
    m ← wr64 m a (TableEntry p);
    Ret (ctx, Some m)
  else Ret (ctx, Some m).

Lemma EnsurePD_table ctx m a : EnsurePD ctx m a = EnsureTable 1 ctx m a.
Proof.
  unfold EnsurePD, EnsureTable. destruct page_masks as (_ & -> & -> & _). change (2 ^ page_shift 1) with SIZE_2MB. done.
Qed.
Lemma EnsurePT_table ctx m a : EnsurePT ctx m a = EnsureTable 0 ctx m a.
Proof.
  unfold EnsurePT, EnsureTable. destruct page_masks as (-> & -> & _ & _). change (2 ^ page_shift 0) with SIZE_4KB. done.
Qed.

(** The new table before it is linked: the pages of the large page, or no page.
    An entry of a page with the large bit that is not present is filled as well. *)
Lemma split_filled k m p e : (k <= 1)%nat -> page_at m p ->
  exists m1 E, (m ← ZeroPage m p;
    (if decide (Z.land (MustBeZero e) 1 <> 0)
     then FillTable m p (Z.land e (page_mask (S k))) (2 ^ page_shift k) (page_mask k) (bool_decide (k <> 0%nat)) else Ret m)) = Ret m1
  /\ filled m m1 p E
  /\ E = (fun i => if Z.testbit e 7 then page_entry (bool_decide (k <> 0%nat)) (page_mask k) (Z.land e (page_mask (S k)) + 2 ^ page_shift k * i) else 0).
Proof.
  intros Hk Hp. destruct (ZeroPage_spec m p Hp) as (m0 & E0 & F0). rewrite E0. cbn [mbind outcome_bind].
  pose proof (MustBeZero_spec e) as HS. destruct (decide (Z.land (MustBeZero e) 1 <> 0)) as [H|H].
  - apply HS in H. pose proof (masked_range (S k) e ltac:(lia)) as HR. rewrite page_shift_S, Z.pow_add_r in HR by (unfold page_shift; lia). change (2 ^ 9) with 512 in HR.
    assert (0 < 2 ^ page_shift k) by (apply Z.pow_pos_nonneg; unfold page_shift; lia).
    destruct (FillTable_spec m0 p (Z.land e (page_mask (S k))) (2 ^ page_shift k) (page_mask k) (bool_decide (k <> 0%nat))) as (m1 & -> & F1);
      [by eapply filled_page|lia|lia|lia|].
    eexists _, _. split; [done|]. split; [|done]. rewrite H. by eapply filled_trans.
  - eexists _, _. split; [done|]. split; [|done]. destruct (Z.testbit e 7); [tauto|done].
Qed.

Lemma EnsureTable_spec k m root ctx va t : (k <= 1)%nat -> vm_ok m root ctx -> table_at (2 - k) m root va = Some t ->
  exists ctx' r, EnsureTable k ctx m (t + 8 * index (S k) va) = Ret (ctx', r) /\
  match r with
  | None => ctx' = ctx /\ ctx.(FreePages) = 0
  | Some m' => ensured m m' root va (3 - k) ctx ctx' /\ forall va', translate m' root va' = translate m root va'
  end.
Proof.
  intros Hk Hok Ht. pose proof Hok as [HT HY HPool]. pose proof (pool_range _ _ _ HPool) as (Hpos & Hf0 & _).
  assert (3 - (2 - k) = S k)%nat as E3 by lia. assert (S (2 - k) = 3 - k)%nat as E3' by lia. assert (2 - (2 - k) = k)%nat as E2 by lia.
  destruct (tree_entries _ _ HT (2 - k) va t (index (S k) va) ltac:(lia) Ht (index_range _ _)) as [e He].
  unfold EnsureTable, rd64. rewrite He. cbn [mbind outcome_bind]. pose proof (Present_spec e) as HS. pose proof (MustBeZero_spec e) as HM.
  assert (large (S k) e = Z.testbit e 7) as EL by (destruct k as [|[|k]]; [done..|lia]).
  destruct (decide (Present e = 0 \/ Z.land (MustBeZero e) 1 <> 0)) as [HC|HC].
  - assert (present e && negb (large (3 - (2 - k)) e) = false) as Hno.
    { rewrite E3, EL. destruct (present e), (Z.testbit e 7); intuition congruence. }
    rewrite (VmAllocatePages_spec m root) by done. destruct (decide (0 < FreePages ctx)) as [Hf|Hf]; [|eexists _, None; split; [done|split; [done|lia]]].
    rewrite decide_False by lia. destruct (split_filled k m (MemoryPool ctx) e Hk (first_page _ _ _ HPool Hf)) as (m1 & E & EQ & F & EE).
    assert (present e = false -> Z.testbit e 7 = false) as Hty.
    { apply (HY (2 - k)%nat va t e); [lia|done|by rewrite E3]. }
    pose proof (masked_divide (S k) e ltac:(lia)) as HD. pose proof (masked_range (S k) e ltac:(lia)) as HR.
    set (S0 := Z.land e (page_mask (S k))) in *. assert (0 < 2 ^ page_shift k) as Hps by (apply Z.pow_pos_nonneg; unfold page_shift; lia).
    assert (2 ^ page_shift (S k) = 2 ^ page_shift k * 512) as Esz by (rewrite page_shift_S, Z.pow_add_r by (unfold page_shift; lia); done).
    assert (2 ^ page_shift k | S0) as HD' by (rewrite Esz in HD; destruct HD as [q Hq]; exists (q * 512); lia).
    destruct (plug_new m m1 root ctx (2 - k) va t e E Hok Hf ltac:(lia) Ht ltac:(by rewrite E3) Hno) as (W & Hok' & Ht' & Hab & Hfi & N & A); [|done|].
    + intros i Hi Hk'. rewrite E2, EE. cbn beta. destruct (Z.testbit e 7) eqn:E7; [|by destruct k as [|[|k]]].
      destruct (page_entry_spec k (S0 + 2 ^ page_shift k * i)) as (P1 & P2 & _); [lia|nia|by apply Z.divide_add_r; [|apply Z.divide_factor_l]|].
      rewrite P1, P2 by lia. done.
    + rewrite E3 in W, Hok', Ht', Hab, Hfi, N, A. rewrite E3' in Ht', N, A. rewrite E2 in A. subst E.
      match goal with |- context [ZeroPage m ?p] => destruct (ZeroPage m p) as [mz|] eqn:EZ end; cbn [mbind outcome_bind] in EQ |- *; [|done]. rewrite EQ.
      cbn [mbind outcome_bind]. rewrite W. cbn [mbind outcome_bind]. eexists _, (Some _). split; [done|].
      split; [constructor; [done|intros j Hj; apply Hab; lia|done|by exists (MemoryPool ctx)|cbn [FreePages]; lia]|].
      intros va'. destruct (decide (agree (3 - k) va va')) as [Ha|Ha]; [|by apply N]. destruct (A va' Ha) as [-> ->]. f_equal.
      destruct (Z.testbit e 7) eqn:E7.
      * assert (present e = true) as -> by (destruct (present e); [done|by specialize (Hty eq_refl)]). pose proof (index_range k va') as Hi.
        destruct (page_entry_spec k (S0 + 2 ^ page_shift k * index k va')) as (P1 & _ & _); [lia|nia|by apply Z.divide_add_r; [|apply Z.divide_factor_l]|].
        rewrite P1. f_equal. rewrite split_address; [done|lia|lia|lia|done].
      * assert (present e = false) as ->; [|done]. rewrite E3, EL in Hno. by destruct (present e).
  - assert (present e = true /\ Z.testbit e 7 = false) as [P1 P2] by (destruct (present e), (Z.testbit e 7); intuition congruence).
    eexists _, (Some _). split; [done|]. split; [|done]. constructor; [done|done|done| |lia]. rewrite <- E3'.
    rewrite (table_at_next (2 - k) m root va t e); [|done|by rewrite E3]. rewrite E3, EL, P1, P2. cbn. by eexists.
Qed.

(** ** The entry of the page *)

Lemma TableEntry_page pa va : present (TableEntry pa) = true /\ page_address 0 (TableEntry pa) va = Z.land pa (page_mask 0) + va mod 4096.
Proof.
  destruct page_masks as (EM & _). unfold TableEntry, set_Present, set_ReadWrite, present, page_address. rewrite EM. split.
  - by rewrite set_field_bit1 by lia.
  - rewrite !masked_set by (unfold page_shift; lia). by rewrite masked_twice by lia.
Qed.

Lemma slot_unique m root d d' va va' t t' : tree m root -> (d <= 3)%nat -> (d' <= 3)%nat ->
  table_at d m root va = Some t -> table_at d' m root va' = Some t' -> t' + 8 * index (3 - d') va' = t + 8 * index (3 - d) va ->
  d' = d /\ agree (S d) va va'.
Proof.
  intros HT Hd Hd' Ht Ht' E. pose proof (tree_root _ _ HT) as Hr.
  destruct (slot_inj t' t (index (3 - d') va') (index (3 - d) va)) as [-> Ei]; try done;
    [by eapply table_aligned|by eapply table_aligned|apply index_range|apply index_range|].
  destruct (tree_unshared _ _ HT d d' va va' t Hd Hd' Ht Ht') as [<- Ha]. split; [done|]. by apply agree_S.
Qed.

(** A new entry for a page. *)
Section Leaf.
Context (m : pmem) (root : Z) (d : nat) (va t e e' : Z).
Context (HT : tree m root) (Hd : (d <= 3)%nat) (Ht : table_at d m root va = Some t) (He : m !! (t + 8 * index (3 - d) va) = Some e).
Context (Hleaf : d = 3%nat \/ (no_table (3 - d) e /\ no_table (3 - d) e')) (He' : present e' = true).

Lemma no_table_andb k x : no_table k x -> present x && negb (large k x) = false.
Proof using. intros [H|H]; rewrite H; [done|by rewrite andb_false_r]. Qed.

Lemma leaf_tables d' va' : (d' <= 3)%nat -> table_at d' (<[t + 8 * index (3 - d) va := e']> m) root va' = table_at d' m root va'.
Proof using All.
  induction d' as [|d' IH]; intros Hd'; [done|]. cbn [table_at]. rewrite IH by lia. destruct (table_at d' m root va') as [t'|] eqn:E; [|done].
  unfold mbind, option_bind. destruct (decide (t' + 8 * index (3 - d') va' = t + 8 * index (3 - d) va)) as [Ea|Ea]; [|by rewrite lookup_insert_ne].
  destruct (slot_unique m root d d' va va' t t') as [-> Ha]; try done; [lia|]. rewrite Ea, lookup_insert_eq, He.
  destruct Hleaf as [H|[H1 H2]]; [lia|]. by rewrite !no_table_andb.
Qed.

Lemma leaf_tree : tree (<[t + 8 * index (3 - d) va := e']> m) root.
Proof using All.
  constructor; [apply (tree_root _ _ HT)| |].
  - intros d' va' t' i Hd' Ht' Hi. rewrite leaf_tables in Ht' by done. apply lookup_insert_is_Some.
    destruct (decide (t + 8 * index (3 - d) va = t' + 8 * i)); [by left|right]. split; [done|]. by apply (tree_entries _ _ HT d' va').
  - intros d1 d2 v1 v2 x H1 H2 E1 E2. rewrite leaf_tables in E1, E2 by done. by apply (tree_unshared _ _ HT d1 d2 v1 v2 x).
Qed.

Lemma leaf_walk va' : walk 3 (<[t + 8 * index (3 - d) va := e']> m) root va' =
  if decide (agree (S d) va va') then Ret (Some ((3 - d)%nat, t + 8 * index (3 - d) va, e')) else walk 3 m root va'.
Proof using All.
  destruct (decide (agree (S d) va va')) as [Ha|Ha].
  - apply agree_S in Ha as [H1 H2]. rewrite (walk_at d _ root va' t); [|done|].
    + destruct (3 - d)%nat as [|k] eqn:Ek; cbn [walk]; unfold rd64; rewrite <- H2, lookup_insert_eq; cbn [mbind outcome_bind]; rewrite He'; cbn [negb]; [done|].
      destruct Hleaf as [H|[_ [H|H]]]; [lia|congruence|by rewrite H].
    + rewrite leaf_tables by done. by rewrite <- (table_at_agree d m root va va').
  - apply (walk_ext m _ root va' 3 root); [lia|done|]. intros d' t' Hd' Ht'. rewrite lookup_insert_ne; [done|]. intros Ea.
    destruct (slot_unique m root d d' va va' t t') as [_ Ha']; (done || lia).
Qed.

Lemma leaf_translate va' : translate (<[t + 8 * index (3 - d) va := e']> m) root va' =
  if decide (agree (S d) va va') then Ret (Some (page_address (3 - d) e' va')) else translate m root va'.
Proof using All. unfold translate. rewrite leaf_walk. by case_decide. Qed.

End Leaf.

Lemma write_leaf m root ctx va t pa : vm_ok m root ctx -> table_at 3 m root va = Some t ->
  let m' := <[t + 8 * index 0 va := TableEntry pa]> m in
  wr64 m (t + 8 * index 0 va) (TableEntry pa) = Ret m' /\ vm_ok m' root ctx
  /\ (forall d va', (d <= 3)%nat -> table_at d m' root va' = table_at d m root va')
  /\ forall va', translate m' root va' =
       if decide (agree 4 va va') then Ret (Some (Z.land pa (page_mask 0) + va' mod 4096)) else translate m root va'.
Proof.
  intros [HT HY HPool] Ht m'. pose proof (tree_root _ _ HT) as Hr. set (a := t + 8 * index 0 va) in *.
  destruct (tree_entries _ _ HT 3 va t (index 0 va) ltac:(lia) Ht (index_range _ _)) as [x0 Hx0]. destruct (TableEntry_page pa 0) as [P1 _].
  pose proof (leaf_tables m root 3 va t x0 (TableEntry pa) HT ltac:(lia) Ht Hx0 ltac:(by left) P1) as HTb. change (3 - 3)%nat with 0%nat in HTb. fold a m' in HTb.
  assert (forall x, is_Some (m !! x) -> is_Some (m' !! x)) as Hdom by (intros x Hx; apply lookup_insert_is_Some; destruct (decide (a = x)); auto).
  split; [apply wr64_in; by eexists|]. split; [constructor|split; [exact HTb|]].
  - by apply (leaf_tree m root 3 va t x0 (TableEntry pa) HT ltac:(lia) Ht Hx0 ltac:(by left) P1).
  - intros d' va' t' e Hd' Ht' He. rewrite HTb in Ht' by lia. unfold m' in He. rewrite lookup_insert_ne in He; [by apply (HY d' va' t' e)|].
    intros Ea. destruct (slot_unique m root 3 d' va va' t t') as [-> _]; try done; lia.
  - destruct HPool as [P2 P3 P4 P5]. constructor; [done|done| |].
    + intros i Hi j Hj. by apply Hdom, P4.
    + intros i Hi d' va' Hd'. rewrite HTb by done. by apply P5.
  - intros va'. destruct (TableEntry_page pa va') as [_ P2]. rewrite <- P2.
    by apply (leaf_translate m root 3 va t x0 (TableEntry pa) HT ltac:(lia) Ht Hx0 ltac:(by left) P1).
Qed.

(** ** Mapping a page *)

(** The translation after the table of the first level was ensured. *)
Definition opened (m : pmem) (root va va' : Z) : outcome (option Z) :=
  if absent m root va && bool_decide (agree 1 va va') then Ret (Some (va' mod 2 ^ 39)) else translate m root va'.

Lemma table_entry m root d va t t' : table_at d m root va = Some t -> table_at (S d) m root va = Some t' ->
  exists e, rd64 m (t + 8 * index (3 - d) va) = Ret e /\ Z.land e (page_mask 0) = t'.
Proof.
  intros Ht (t0 & e & H0 & He & _ & _ & ->)%table_at_S. rewrite Ht in H0. injection H0 as <-.
  exists e. unfold rd64. by rewrite He.
Qed.

(** What a mapping of [va] does to the translations: on success, and when the pool is exhausted. *)
Definition mapped (m0 m' : pmem) (root va pa : Z) : Prop := forall va',
  translate m' root va' = if decide (agree 4 va va') then Ret (Some (Z.land pa (page_mask 0) + va' mod 4096)) else opened m0 root va va'.
Definition unmapped (m0 m' : pmem) (root va : Z) : Prop :=
  (forall va', translate m' root va' = translate m0 root va') \/ (forall va', translate m' root va' = opened m0 root va va').

Lemma MapPage_spec m m0 root ctx va pa :
  ClearAlias m root (root + 8 * index 3 va) = Ret m0 -> vm_ok m0 root ctx ->
  exists ctx' m' Status, MapPage ctx m root va pa = Ret (ctx', m', Status)
  /\ vm_ok m' root ctx' /\ ctx.(FreePages) - 3 <= ctx'.(FreePages) <= ctx.(FreePages)
  /\ (forall va', is_Some (table_at 1 m0 root va') -> is_Some (table_at 1 m' root va'))
  /\ (Status = EFI_SUCCESS /\ is_Some (table_at 1 m' root va) /\ mapped m0 m' root va pa
      \/ Status = EFI_NO_MAPPING /\ ctx.(FreePages) <= 2 /\ unmapped m0 m' root va).
Proof.
  intros HA Hok. unfold MapPage. destruct (offsets va) as (-> & -> & -> & ->). destruct page_masks as (-> & _). rewrite HA. cbn [mbind outcome_bind].
  destruct (EnsurePDPT_spec m0 root ctx va Hok) as (c1 & r1 & -> & H1). cbn [mbind outcome_bind]. destruct r1 as [m1|].
  2: { destruct H1 as [-> Hf]. eexists _, _, _. split; [done|]. split; [done|]. split; [lia|]. split; [done|]. right. split; [done|]. split; [lia|]. by left. }
  destruct H1 as [[Hok1 Hab1 Hfi1 [t1 Ht1] Hf1] HT1].
  destruct (table_entry m1 root 0 va root t1 eq_refl Ht1) as (e1 & R1 & T1). change (3 - 0)%nat with 3%nat in R1.
  rewrite R1. cbn [mbind outcome_bind]. rewrite T1, EnsurePD_table.
  destruct (EnsureTable_spec 1 m1 root c1 va t1 ltac:(lia) Hok1 Ht1) as (c2 & r2 & -> & H2). cbn [mbind outcome_bind]. destruct r2 as [m2|].
  2: { destruct H2 as [-> Hf]. eexists _, _, _. split; [done|]. split; [done|]. split; [lia|]. split; [done|]. right. split; [done|]. split; [lia|]. by right. }
  destruct H2 as [[Hok2 Hab2 Hfi2 [t2 Ht2] Hf2] HT2]. change (3 - 1)%nat with 2%nat in *. pose proof Ht1 as Ht1'. rewrite <- (Hab2 1%nat) in Ht1' by lia.
  destruct (table_entry m2 root 1 va t1 t2 Ht1' Ht2) as (e2 & R2 & T2). change (3 - 1)%nat with 2%nat in R2.
  rewrite R2. cbn [mbind outcome_bind]. rewrite T2, EnsurePT_table.
  destruct (EnsureTable_spec 0 m2 root c2 va t2 ltac:(lia) Hok2 Ht2) as (c3 & r3 & -> & H3). cbn [mbind outcome_bind]. destruct r3 as [m3|].
  2: { destruct H3 as [-> Hf]. eexists _, _, _. split; [done|]. split; [done|]. split; [lia|]. split; [auto|]. right. split; [done|]. split; [lia|].
       right. intros va'. by rewrite HT2. }
  destruct H3 as [[Hok3 Hab3 Hfi3 [t3 Ht3] Hf3] HT3]. change (3 - 0)%nat with 3%nat in *. rewrite <- (Hab3 2%nat) in Ht2 by lia.
  destruct (table_entry m3 root 2 va t2 t3 Ht2 Ht3) as (e3 & R3 & T3). change (3 - 2)%nat with 1%nat in R3.
  rewrite R3. cbn [mbind outcome_bind]. rewrite T3.
  destruct (write_leaf m3 root c3 va t3 pa Hok3 Ht3) as (W & Hok4 & HTb & HT4). rewrite W. cbn [mbind outcome_bind].
  eexists _, _, _. split; [done|]. split; [done|]. split; [lia|]. split; [intros va' Hs; rewrite HTb by lia; auto|]. left. split; [done|].
  split; [rewrite HTb by lia; apply Hfi3, Hfi2; by eexists|]. intros va'. rewrite HT4. case_decide; [done|]. by rewrite HT3, HT2.
Qed.

(** ** The lookup of an address *)

Lemma LeafInfo_get m a e k va p : (k <= 3)%nat -> m !! a = Some e ->
  LeafInfo m a (level_number k) (page_mask k) (page_shift k) (pat_bit k) va p false
  = Ret (m, EFI_SUCCESS, Some (TableInfo (page_address k e va) (level_number k) e), match p with Some p => Some (GetPatBits p e (pat_bit k)) | None => None end).
Proof.
  intros Hk He. unfold LeafInfo, rd64. rewrite He. cbn [mbind outcome_bind]. assert (0 <= page_shift k <= 39) as Hs by (unfold page_shift; lia).
  assert (Z.land e (page_mask k) +[64] get_field va 0 (page_shift k) = page_address k e va) as ->.
  { rewrite get_field_mod by lia. rewrite Z.pow_0_r, Z.div_1_r. pose proof (masked_range k e Hk).
    assert (0 < 2 ^ page_shift k) by (apply Z.pow_pos_nonneg; lia). pose proof (Z.mod_pos_bound va (2 ^ page_shift k) ltac:(done)).
    unfold page_address. apply wrap_small. lia. }
  destruct p as [p|]; cbn [mbind outcome_bind]; by rewrite He.
Qed.

Lemma OcGetPhysicalAddress_translates s PageTable va :
  OcGetPhysicalAddress s PageTable va =
  (r ← translate s.(Memory) (page_table s PageTable) va;
   Ret (match r with Some pa => (EFI_SUCCESS, Some pa) | None => (EFI_NO_MAPPING, None) end)).
Proof.
  unfold OcGetPhysicalAddress, translate. rewrite GetSet_spec. set (root := page_table s PageTable).
  destruct (walk 3 (Memory s) root va) as [[[[k a] e]|]|f] eqn:EW; cbn [mbind outcome_bind]; [|done..].
  destruct (walk_end _ root _ 3 root k a e ltac:(lia) eq_refl EW) as (Hk & _ & He & _). by rewrite (LeafInfo_get _ _ e) by done.
Qed.

(** ** The page attribute index *)

Lemma SetPatBits_bit e p pat n : (pat = 7 \/ pat = 12) -> 0 <= n ->
  Z.testbit (SetPatBits e p pat) n = if decide (n = 3) then Z.testbit p 0 else if decide (n = 4) then Z.testbit p 1
    else if decide (n = pat) then Z.testbit p 2 else Z.testbit e n.
Proof.
  intros Hpat Hn. unfold SetPatBits. rewrite !set_field_bit1 by lia. rewrite !get_field_bit by lia. 
  repeat case_decide; try lia; by rewrite ?bool_decide_eq_true_2 by lia.
Qed.

Lemma GetPatBits_set e p q pat : (pat = 7 \/ pat = 12) -> 0 <= q < 8 -> GetPatBits q (SetPatBits e p pat) pat = p mod 8.
Proof.
  intros Hpat Hq. apply Z.bits_inj'. intros n Hn. unfold GetPatBits. rewrite !set_field_bit1 by lia. rewrite !get_field_bit by lia.
  rewrite !SetPatBits_bit by lia. rewrite !bool_decide_eq_true_2 by lia. change 8 with (2 ^ 3). cbn [andb].
  destruct (decide (n < 3)) as [H3|H3].
  - rewrite Z.mod_pow2_bits_low by lia. assert (n = 0 \/ n = 1 \/ n = 2) as [->|[->| ->]] by lia; repeat case_decide; (done || lia).
  - rewrite Z.mod_pow2_bits_high by lia. rewrite !decide_False by lia. destruct (decide (q = 0)) as [->|]; [apply Z.testbit_0_l|].
    apply Z.bits_above_log2; [lia|]. apply Z.log2_lt_pow2; [lia|]. apply Z.lt_le_trans with (2 ^ 3); [lia|]. apply Z.pow_le_mono_r; lia.
Qed.

(** ** Mapping on the machine *)

(** The control registers after the write protection was off: as before. *)
Definition same_control (s s' : machine) : Prop := s'.(Cr0) = s.(Cr0) /\ s'.(Cr3) = s.(Cr3).

Lemma write_protection (s : machine) m :
  let '(s1, w) := DisablePageTableWriteProtection s in
  s1.(Memory) = s.(Memory) /\ exists s', (if w : bool then EnablePageTableWriteProtection (with_mem s1 m) else with_mem s1 m) = s' /\ s'.(Memory) = m /\ same_control s s'.
Proof.
  unfold DisablePageTableWriteProtection. case_decide as H; (split; [done|]); eexists; (split; [done|]); (split; [done|]); split; try done.
  cbn. apply Z.bits_inj'. intros n Hn. change CR0_WP with (2 ^ 16) in *. rewrite Z.lor_spec, Z.ldiff_spec, Z.pow2_bits_eqb by lia.
  destruct (Z.eqb_spec 16 n) as [<-|]; [|by rewrite andb_true_r, orb_false_r]. rewrite orb_true_r. symmetry.
  destruct (Z.testbit (Cr0 s) 16) eqn:E; [done|]. exfalso. apply H. apply Z.bits_inj'. intros n Hn'. rewrite Z.land_spec, Z.pow2_bits_eqb, Z.testbit_0_l by lia.
  destruct (Z.eqb_spec 16 n) as [<-|]; [by rewrite E|by rewrite andb_false_r].
Qed.

Lemma VmMapVirtualPage_step s m0 ctx PageTable va pa (root := page_table s PageTable) :
  ClearAlias s.(Memory) root (root + 8 * index 3 va) = Ret m0 -> vm_ok m0 root ctx ->
  exists ctx' s' Status, VmMapVirtualPage ctx s PageTable va pa = Ret (ctx', s', Status)
  /\ same_control s s' /\ vm_ok s'.(Memory) root ctx' /\ ctx.(FreePages) - 3 <= ctx'.(FreePages) <= ctx.(FreePages)
  /\ (forall va', is_Some (table_at 1 m0 root va') -> is_Some (table_at 1 s'.(Memory) root va'))
  /\ (Status = EFI_SUCCESS /\ is_Some (table_at 1 s'.(Memory) root va) /\ mapped m0 s'.(Memory) root va pa
      \/ Status = EFI_NO_MAPPING /\ ctx.(FreePages) <= 2 /\ unmapped m0 s'.(Memory) root va).
Proof.
  intros HA Hok. destruct (MapPage_spec s.(Memory) m0 root ctx va pa HA Hok) as (c & m' & Status & E & H).
  unfold VmMapVirtualPage, OcGetCurrentPageTable. destruct page_masks as (_ & _ & _ & ->). cbn [fst]. fold (page_table s PageTable). fold root.
  pose proof (write_protection s m') as HW. destruct (DisablePageTableWriteProtection s) as [s1 w]. destruct HW as (Em & s' & Es & Em' & HC).
  rewrite Em, E. cbn [mbind outcome_bind]. rewrite Es. rewrite <- Em' in H. eexists _, _, _. split; [done|]. split; [done|]. exact H.
Qed.

(** An entry that is present points to a table, and no other entry does. *)
Lemma absent_table m root va : tree m root -> absent m root va = false <-> is_Some (table_at 1 m root va).
Proof.
  intros HT. destruct (tree_entries _ _ HT 0 va root (index 3 va) ltac:(lia) eq_refl (index_range _ _)) as [e He].
  unfold absent. rewrite He. rewrite (table_at_next 0 m root va root e) by done. cbn [large Nat.sub negb]. rewrite andb_true_r.
  destruct (present e); cbn; split; intros H; try discriminate H; done.
Qed.

Lemma absent_translate m root va va' : tree m root -> absent m root va = true -> agree 1 va va' -> translate m root va' = Ret None.
Proof.
  intros HT Ha Hag. unfold absent in Ha. destruct (m !! (root + 8 * index 3 va)) as [e|] eqn:He; [|done]. apply agree_S in Hag as [_ Hi].
  rewrite (translate_at 0 m root va' root e); [by destruct (present e)|lia|done|by rewrite <- Hi|left; by destruct (present e)].
Qed.

Lemma base_table e e' : PageTableBaseAddress e = PageTableBaseAddress e' -> table_of e = table_of e'.
Proof.
  intros E. apply Z.bits_inj'. intros n Hn. unfold table_of. rewrite !Z.land_spec, !page_mask_bit by lia. change (page_shift 0) with 12.
  case_bool_decide as H; [|by rewrite !andb_false_r]. apply (f_equal (fun x => Z.testbit x (n - 12))) in E. unfold PageTableBaseAddress in E.
  rewrite !get_field_bit in E by lia. rewrite bool_decide_eq_true_2 in E by lia. by rewrite !Z.sub_add in E; cbn [andb] in E; rewrite E.
Qed.

Lemma ClearAlias_id m root va : tree m root -> is_Some (table_at 1 m root 0) -> ClearAlias m root (root + 8 * index 3 va) = Ret m.
Proof.
  intros HT [t0 Ht0]. unfold ClearAlias. case_decide as H; [done|].
  destruct (tree_entries _ _ HT 0 va root (index 3 va) ltac:(lia) eq_refl (index_range _ _)) as [e He].
  unfold rd64. rewrite He. cbn [mbind outcome_bind]. pose proof (Present_spec e) as HS. case_decide as HP; [done|].
  assert (present e = true) as P by (destruct (present e); [done|exfalso; tauto]).
  destruct (table_at_S _ _ _ _ _ Ht0) as (r0 & e0 & [= <-] & He0 & _ & _ & ->). change (index (3 - 0) 0) with 0 in He0. rewrite Z.mul_0_r, Z.add_0_r in He0.
  rewrite He0. cbn [mbind outcome_bind]. case_decide as HB; [|done]. exfalso. apply base_table in HB.
  assert (table_at 1 m root va = Some (table_of e)) as Ht by (rewrite (table_at_next 0 m root va root e) by done; cbn [large Nat.sub]; by rewrite P).
  rewrite HB in Ht0. destruct (tree_unshared _ _ HT 1 1 va 0 (table_of e) ltac:(lia) ltac:(lia) Ht Ht0) as [_ Ha].
  apply agree_S in Ha as [_ Hi]. change (3 - 0)%nat with 3%nat in Hi. change (index 3 0) with 0 in Hi. apply H. rewrite Hi. lia.
Qed.

(** ** Shared tables *)

(** The PML4 entry for [va] is another one than the first and points to its table. *)
Definition aliased (m : pmem) (root va : Z) : bool :=
  match m !! root, m !! (root + 8 * index 3 va) with
  | Some e0, Some e => bool_decide (index 3 va <> 0) && present e && bool_decide (table_of e0 = table_of e)
  | _, _ => false
  end.

(** The page tables without that entry. *)
Definition unaliased (m : pmem) (root va : Z) : pmem := if aliased m root va then <[root + 8 * index 3 va := 0]> m else m.

(** What a mapping of [va] does to the translations of the memory that it was given, on
    success: those of the page change, a region without a PML4 table of its own becomes
    the identity to the addresses below 512 GB, and all others are as before. *)
Definition remapped (m m' : pmem) (root va pa : Z) : Prop := forall va',
  translate m' root va' =
    if decide (agree 4 va va') then Ret (Some (Z.land pa (page_mask 0) + va' mod 4096))
    else if decide (agree 1 va va' /\ (absent m root va = true \/ aliased m root va = true)) then Ret (Some (va' mod 2 ^ 39))
    else translate m root va'.

(** On failure: the translations are as before, except in a region without a table of its
    own, which is not present if its entry shared the first table, or has become the identity. *)
Definition not_remapped (m m' : pmem) (root va : Z) : Prop :=
  (forall va', translate m' root va' = if decide (agree 1 va va' /\ aliased m root va = true) then Ret None else translate m root va')
  \/ forall va', translate m' root va' =
       if decide (agree 1 va va' /\ (absent m root va = true \/ aliased m root va = true)) then Ret (Some (va' mod 2 ^ 39)) else translate m root va'.

Lemma entry_table_base e e' : table_of e = table_of e' -> PageTableBaseAddress e = PageTableBaseAddress e'.
Proof.
  intros E. apply Z.bits_inj'. intros n Hn. unfold PageTableBaseAddress. rewrite !get_field_bit by lia. case_bool_decide as H; [|done].
  apply (f_equal (fun x => Z.testbit x (n + 12))) in E. unfold table_of in E. rewrite !Z.land_spec, !page_mask_bit in E by lia.
  change (page_shift 0) with 12 in E. by rewrite bool_decide_eq_true_2, !andb_true_r in E by lia.
Qed.

Lemma unaliased_entries m root va : tree (unaliased m root va) root -> is_Some (m !! root) /\ is_Some (m !! (root + 8 * index 3 va)).
Proof.
  intros HT. assert (forall i, 0 <= i < 512 -> is_Some (m !! (root + 8 * i))) as HE; [|split; [|apply HE, index_range]; rewrite <- (Z.add_0_r root); apply (HE 0); lia].
  intros i Hi. pose proof (tree_entries _ _ HT 0 va root i ltac:(lia) eq_refl Hi) as K. unfold unaliased in K. destruct (aliased m root va) eqn:EA; [|done].
  destruct (decide (root + 8 * index 3 va = root + 8 * i)) as [<-|Hne]; [|by rewrite lookup_insert_ne in K].
  unfold aliased in EA. destruct (m !! root); [|done]. by destruct (m !! (root + 8 * index 3 va)).
Qed.

Lemma ClearAlias_spec m root va : tree (unaliased m root va) root -> ClearAlias m root (root + 8 * index 3 va) = Ret (unaliased m root va).
Proof.
  intros HT. destruct (unaliased_entries m root va HT) as [[e0 H0] [e He]]. unfold ClearAlias, unaliased, aliased. rewrite H0, He.
  pose proof (index_range 3 va). case_decide as HI; [by rewrite bool_decide_false by lia|]. rewrite bool_decide_true by lia.
  unfold rd64. rewrite He. cbn [mbind outcome_bind andb]. pose proof (Present_spec e) as HP. case_decide as HN; [by rewrite (proj1 HP HN)|].
  destruct (present e); [|exfalso; tauto]. rewrite H0. cbn [mbind outcome_bind andb].
  case_decide as HB; [apply base_table in HB; rewrite bool_decide_true by done; by apply wr64_in|]. rewrite bool_decide_false; [done|]. by intros ?%entry_table_base.
Qed.

Lemma unaliased_translate m root va va' : tree (unaliased m root va) root ->
  translate (unaliased m root va) root va' = if decide (agree 1 va va' /\ aliased m root va = true) then Ret None else translate m root va'.
Proof.
  intros HT. unfold unaliased in *. destruct (aliased m root va) eqn:EA; [|by rewrite decide_False by by intros [_ ?]].
  set (m0 := <[root + 8 * index 3 va := 0]> m) in *. destruct (decide (agree 1 va va' /\ true = true)) as [[Ha _]|Hna].
  - apply absent_translate with va; [done| |done]. unfold absent, m0. by rewrite lookup_insert_eq.
  - symmetry. apply translate_ext. intros d t Hd Ht. unfold m0. rewrite lookup_insert_ne; [done|]. intros E.
    destruct (slot_unique m0 root 0 d va va' root t HT ltac:(lia) Hd eq_refl Ht (eq_sym E)) as [-> Ha]. by apply Hna.
Qed.

Lemma opened_unaliased m root va va' : tree (unaliased m root va) root ->
  opened (unaliased m root va) root va va' =
    if decide (agree 1 va va' /\ (absent m root va = true \/ aliased m root va = true)) then Ret (Some (va' mod 2 ^ 39)) else translate m root va'.
Proof.
  intros HT. unfold opened. rewrite (unaliased_translate _ _ _ _ HT).
  assert (absent (unaliased m root va) root va = true <-> absent m root va = true \/ aliased m root va = true) as Hiff.
  { unfold unaliased. destruct (aliased m root va); [|by split; [left|intros [?|?]]]. unfold absent at 1. rewrite lookup_insert_eq. by split; [right|]. }
  destruct (absent (unaliased m root va) root va); [|rewrite (decide_False (P := _ /\ (_ \/ _)))].
  - cbn [andb]. case_bool_decide as Ha; [rewrite decide_True; [done|]; split; [done|by apply (proj1 Hiff)]|]. rewrite !decide_False; [done|by intros [? _]..].
  - by rewrite decide_False by (intros [_ K]; by discriminate (proj2 Hiff (or_intror K))).
  - intros [_ K]. by discriminate (proj2 Hiff K).
Qed.

(** ** A range of pages *)

Lemma agree_mod va va' : 0 <= va -> 0 <= va' -> agree 4 va va' -> (va / 4096) mod 2 ^ 36 = (va' / 4096) mod 2 ^ 36.
Proof.
  intros H1 H2 Ha. pose proof (Ha 0%nat ltac:(lia)) as I3. pose proof (Ha 1%nat ltac:(lia)) as I2. pose proof (Ha 2%nat ltac:(lia)) as I1. pose proof (Ha 3%nat ltac:(lia)) as I0.
  cbn [Nat.sub] in *. assert (forall x, 0 <= x -> (x / 4096) mod 2 ^ 36 = index 0 x + 512 * (index 1 x + 512 * (index 2 x + 512 * index 3 x))) as E.
  { intros x Hx. unfold index. change (page_shift 0) with 12. change (page_shift 1) with 21. change (page_shift 2) with 30. change (page_shift 3) with 39.
    change (2 ^ 12) with 4096. replace (2 ^ 21) with (4096 * 512) by done. replace (2 ^ 30) with (4096 * 512 * 512) by done. replace (2 ^ 39) with (4096 * 512 * 512 * 512) by done.
    rewrite <- !Z.div_div by lia. set (y := x / 4096). change (2 ^ 36) with (512 * (512 * (512 * 512))). by rewrite !Z.rem_mul_r by lia. }
  rewrite !E by done. by rewrite I0, I1, I2, I3.
Qed.

(** The pages of the range from [va] on are those of [pa]; other addresses keep
    their translation, except that a PML4 entry that was absent maps its whole
    region to the addresses below 512 GB. *)
Record mapped_range (m m' : pmem) (root va pa n : Z) : Prop := MappedRange {
  range_inside : forall i v, 0 <= i < n -> 0 <= v -> agree 4 (va + 4096 * i) v -> translate m' root v = Ret (Some (Z.land (pa + 4096 * i) (page_mask 0) + v mod 4096));
  range_outside : forall v, (forall i, 0 <= i < n -> ~ agree 4 (va + 4096 * i) v) ->
    translate m' root v = translate m root v \/ (absent m root v = true /\ translate m' root v = Ret (Some (v mod 2 ^ 39)))
}.

Lemma MapPages_spec n : forall ctx s PageTable va pa (root := page_table s PageTable),
  vm_ok s.(Memory) root ctx -> is_Some (table_at 1 s.(Memory) root 0) ->
  0 <= va -> va + 4096 * Z.of_nat n <= 2 ^ 48 -> 0 <= pa -> pa + 4096 * Z.of_nat n <= 2 ^ 52 ->
  exists ctx' s' Status, MapPages n ctx s PageTable va pa = Ret (ctx', s', Status)
  /\ same_control s s' /\ vm_ok s'.(Memory) root ctx' /\ is_Some (table_at 1 s'.(Memory) root 0)
  /\ (3 * Z.of_nat n <= ctx.(FreePages) -> Status = EFI_SUCCESS)
  /\ (Status = EFI_SUCCESS /\ mapped_range s.(Memory) s'.(Memory) root va pa (Z.of_nat n) \/ Status = EFI_NO_MAPPING).
Proof.
  induction n as [|n IH]; intros ctx s PageTable va pa root Hok H0 Hva Hvn Hpa Hpn; cbn [MapPages].
  { eexists _, _, _. split; [done|]. repeat (split; [done|]). left. split; [done|]. split; [intros i v Hi; lia|by left]. }
  pose proof (ClearAlias_id _ _ va (ok_tree _ _ _ Hok) H0) as HA.
  destruct (VmMapVirtualPage_step s _ ctx PageTable va pa HA Hok) as (c1 & s1 & St & -> & [HC0 HC3] & Hok1 & Hf & Hfi & HS). cbn [mbind outcome_bind].
  fold root in Hok1, Hfi, HS. assert (page_table s1 PageTable = root) as Er by (unfold page_table; rewrite HC3; done).
  destruct HS as [(-> & Hs1 & HM)|(-> & Hf2 & _)].
  2: { change (EFI_ERROR EFI_NO_MAPPING) with true. cbn iota. eexists _, _, _. split; [done|]. split; [done|]. split; [done|]. split; [auto|]. split; [lia|by right]. }
  change (EFI_ERROR EFI_SUCCESS) with false. cbn iota. change SIZE_4KB with 4096. rewrite !wrap_small by lia.
  destruct (IH c1 s1 PageTable (va + 4096) (pa + 4096)) as (c2 & s2 & St & -> & [HD0 HD3] & Hok2 & Hfi2 & Hlive & HS); rewrite ?Er; [done|auto|lia..|].
  rewrite Er in Hok2, Hfi2, HS. eexists _, _, _. split; [done|]. split; [split; congruence|]. split; [done|]. split; [done|]. split; [lia|].
  destruct HS as [(-> & [Hin Hout])|HS]; [left; split; [done|]|by right].
  assert (forall v, absent (Memory s1) root v = true -> absent (Memory s) root v = true) as Habs.
  { intros v Hv. destruct (absent (Memory s) root v) eqn:E; [done|]. apply (absent_table _ _ _ (ok_tree _ _ _ Hok)), Hfi, (absent_table _ _ _ (ok_tree _ _ _ Hok1)) in E. congruence. }
  split.
  - intros i v Hi Hv Ha. destruct (decide (i = 0)) as [->|Hi0].
    + rewrite Z.mul_0_r, Z.add_0_r in *. destruct (Hout v) as [->|[Hab _]].
      * intros i Hi' Ha'. rewrite <- Ha in Ha'. apply agree_mod in Ha'; [|lia..].
        replace (va + 4096 + 4096 * i) with (va + (i + 1) * 4096) in Ha' by lia. rewrite Z.div_add in Ha' by lia.
        assert (0 <= va / 4096) by (apply Z.div_pos; lia). assert (va / 4096 + (i + 1) < 2 ^ 36) by (pose proof (Z.mul_div_le va 4096 ltac:(lia)); lia).
        rewrite !Z.mod_small in Ha' by lia. lia.
      * rewrite HM. by rewrite decide_True.
      * exfalso. assert (absent (Memory s1) root va = false) as F by by apply (absent_table _ _ _ (ok_tree _ _ _ Hok1)).
        unfold absent in Hab, F. apply (agree_le 4 1) in Ha; [|lia]. apply agree_S in Ha as [_ Ha]. change (3 - 0)%nat with 3%nat in Ha. rewrite <- Ha in Hab. congruence.
    + replace (pa + 4096 * i) with (pa + 4096 + 4096 * (i - 1)) by lia. apply Hin; [lia|done|]. by replace (va + 4096 + 4096 * (i - 1)) with (va + 4096 * i) by lia.
  - intros v Hv. assert (~ agree 4 va v) as Hn by (intros Ha; apply (Hv 0 ltac:(lia)); by replace (va + 4096 * 0) with va by lia).
    pose proof (HM v) as HMv. rewrite decide_False in HMv by done. unfold opened in HMv.
    destruct (Hout v) as [E|[E1 E2]].
    + intros i Hi. replace (va + 4096 + 4096 * i) with (va + 4096 * (i + 1)) by lia. apply Hv. lia.
    + rewrite E, HMv. destruct (absent (Memory s) root va) eqn:Eab; cbn [andb]; [|by left].
      destruct (bool_decide_reflect (agree 1 va v)) as [Ha|Ha]; [right|by left]. split; [|done].
      unfold absent in Eab |- *. apply agree_S in Ha as [_ Ha]. change (3 - 0)%nat with 3%nat in Ha. by rewrite <- Ha.
    + right. split; [by apply Habs|done].
Qed.

(** The attribute bits do not take part in the translation. *)
Lemma SetPatBits_leaf k e p (e' := SetPatBits e p (pat_bit k)) : (k <= 3)%nat -> present e = true -> (k = 0%nat \/ large k e = true) ->
  present e' = true /\ (k = 0%nat \/ large k e' = true) /\ forall v, page_address k e' v = page_address k e v.
Proof.
  intros Hk HP Hl. assert (pat_bit k = 7 \/ pat_bit k = 12) as Hpat by (destruct k; auto). split; [|split].
  - unfold present, e'. rewrite SetPatBits_bit by (done || lia). repeat case_decide; (done || lia).
  - destruct Hl as [Hl|Hl]; [by left|right].
    destruct k as [|[|[|k]]]; try done; cbn [large] in *; unfold e'; rewrite SetPatBits_bit by (done || lia); cbn [pat_bit]; repeat case_decide; (done || lia).
  - intros v. unfold page_address. f_equal. apply Z.bits_inj'. intros n Hn. rewrite !Z.land_spec, page_mask_bit by done.
    case_bool_decide as B; [|by rewrite !andb_false_r]. unfold e'. rewrite SetPatBits_bit by done. unfold page_shift in B.
    destruct k as [|k]; cbn [pat_bit]; repeat case_decide; (done || lia).
Qed.

(** A new entry for the page of [va], at any level. *)
Lemma leaf_change m root k va t e e' (a := t + 8 * index k va) : tree m root -> (k <= 3)%nat -> table_at (3 - k) m root va = Some t ->
  m !! a = Some e -> present e = true -> (k = 0%nat \/ large k e = true) ->
  present e' = true -> (k = 0%nat \/ large k e' = true) -> (forall v, page_address k e' v = page_address k e v) ->
  tree (<[a := e']> m) root
  /\ (forall v, walk 3 (<[a := e']> m) root v = if decide (agree (4 - k) va v) then Ret (Some (k, a, e')) else walk 3 m root v)
  /\ forall v, translate (<[a := e']> m) root v = translate m root v.
Proof.
  intros HT Hk Ht He HP Hl HP' Hl' HPA. set (d := (3 - k)%nat) in *. assert (3 - d = k)%nat as Ek by lia.
  assert (d = 3%nat \/ (no_table (3 - d) e /\ no_table (3 - d) e')) as Hleaf.
  { rewrite Ek. unfold no_table. destruct Hl as [->|Hl]; [by left|]. destruct Hl' as [->|Hl']; [by left|]. right; auto. }
  assert (present e && negb (large (3 - d) e) = false \/ d = 3%nat) as Hno by (destruct Hleaf as [H|[H _]]; [by right|left; by apply no_table_andb]).
  assert (m !! (t + 8 * index (3 - d) va) = Some e) as He2 by by rewrite Ek. pose proof (leaf_tables m root d va t e e' HT ltac:(lia) Ht He2 Hleaf HP') as HTb.
  pose proof (leaf_translate m root d va t e e' HT ltac:(lia) Ht He2 Hleaf HP') as HTt.
  pose proof (leaf_tree m root d va t e e' HT ltac:(lia) Ht He2 Hleaf HP') as HTree. rewrite Ek in HTb, HTt, HTree. fold a in HTb, HTt, HTree.
  pose proof (leaf_walk m root d va t e e' HT ltac:(lia) Ht He2 Hleaf HP') as HW. rewrite Ek in HW. fold a in HW.
  split; [done|]. split.
  - intros v. replace (4 - k)%nat with (S d) by lia. apply HW.
  - intros v. rewrite HTt. case_decide as Ha; [|done]. apply agree_S in Ha as [H1 H2].
    rewrite (translate_at d m root v t e); [|lia| |by rewrite <- H2|done].
    + rewrite HP, Ek. by rewrite <- HPA.
    + by rewrite <- (table_at_agree d m root va v).
Qed.

(** The page of [va] with a new attribute index. *)
Lemma SetPat_spec s PageTable va k a e p (root := page_table s PageTable) (e' := SetPatBits e p (pat_bit k)) (m' := <[a := e']> s.(Memory)) :
  tree s.(Memory) root -> walk 3 s.(Memory) root va = Ret (Some (k, a, e)) ->
  OcGetSetPageTableInfoForAddress s PageTable va (Some p) true
  = Ret (m', EFI_SUCCESS, Some (TableInfo (page_address k e va) (level_number k) e'), Some p)
  /\ tree m' root /\ (forall v, walk 3 m' root v = if decide (agree (4 - k) va v) then Ret (Some (k, a, e')) else walk 3 s.(Memory) root v) /\ page_address k e' va = page_address k e va
  /\ forall va', translate m' root va' = translate s.(Memory) root va'.
Proof.
  intros HT EW. rewrite GetSet_spec. fold root. rewrite EW. cbn [mbind outcome_bind].
  destruct (walk_end _ root _ 3 root k a e ltac:(lia) eq_refl EW) as (Hk & (t & Ht & Ea) & He & HP & Hl).
  destruct (SetPatBits_leaf k e p Hk HP Hl) as (HP' & Hl' & HPA). fold e' in HP', Hl', HPA. pose proof He as He2. rewrite Ea in He2.
  destruct (leaf_change s.(Memory) root k va t e e' HT Hk Ht He2 HP Hl HP' Hl' HPA) as (HTree & EW' & HTt). rewrite <- Ea in HTree, EW', HTt. fold m' in HTree, EW', HTt.
  split; [|done]. pose proof (LeafInfo_get s.(Memory) a e k va (Some p) Hk He) as EG. unfold LeafInfo, rd64, wr64 in *. rewrite He in EG |- *. cbn [mbind outcome_bind] in *.
  fold e' m'. rewrite He in EG. cbn [mbind outcome_bind] in EG. injection EG as EG. rewrite EG.
  assert (m' !! a = Some e') as EM by apply lookup_insert_eq. by rewrite EM.
Qed.

Lemma tree_walk m root va : tree m root -> exists r, walk 3 m root va = Ret r.
Proof.
  intros HT. assert (forall k t, (k <= 3)%nat -> table_at (3 - k) m root va = Some t -> exists r, walk k m t va = Ret r) as H; [|by apply (H 3%nat root)].
  induction k as [|k IH]; intros t Hk Ht.
  - destruct (tree_entries _ _ HT (3 - 0) va t (index 0 va) ltac:(lia) Ht (index_range _ _)) as [e He].
    cbn [walk]. unfold rd64. rewrite He. cbn [mbind outcome_bind]. destruct (present e); by eexists.
  - destruct (tree_entries _ _ HT (3 - S k) va t (index (S k) va) ltac:(lia) Ht (index_range _ _)) as [e He].
    cbn [walk]. unfold rd64. rewrite He. cbn [mbind outcome_bind]. destruct (present e) eqn:P; [|by eexists]. destruct (large (S k) e) eqn:L; [by eexists|].
    cbn [negb]. apply IH; [lia|]. replace (3 - k)%nat with (S (3 - S k)) by lia. rewrite (table_at_next _ m root va t e); [|done|];
      replace (3 - (3 - S k))%nat with (S k) by lia; by rewrite ?P, ?L.
Qed.

(** ** A range of pages of any size *)

Lemma agree_quotient k x v : (k <= 3)%nat -> x / 2 ^ page_shift k = v / 2 ^ page_shift k -> agree (4 - k) x v.
Proof.
  intros Hk E j Hj. unfold index. replace (page_shift (3 - j)) with (page_shift k + 9 * Z.of_nat (3 - j - k)) by (unfold page_shift; lia).
  rewrite Z.pow_add_r by (unfold page_shift; lia). rewrite <- !Z.div_div by (try apply Z.pow_nonzero; try apply Z.pow_pos_nonneg; unfold page_shift; lia). by rewrite E.
Qed.

Lemma page_quotient x v s : (s | x) -> x <= v < x + s -> v / s = x / s.
Proof.
  intros [q ->] Hv. assert (0 < s) by lia. rewrite Z.div_mul by lia. symmetry. apply Z.div_unique with (v - q * s); lia.
Qed.

(** The addresses of a page have the same entry. *)
Lemma walk_agree m root x v k a e : walk 3 m root x = Ret (Some (k, a, e)) -> agree (4 - k) x v -> walk 3 m root v = Ret (Some (k, a, e)).
Proof.
  intros EW Ha. destruct (walk_end m root x 3 root k a e ltac:(lia) eq_refl EW) as (Hk & (t & Ht & ->) & He & HP & Hl).
  replace (4 - k)%nat with (S (3 - k)) in Ha by lia. apply agree_S in Ha as [H1 H2]. replace (3 - (3 - k))%nat with k in H2 by lia.
  rewrite (walk_at (3 - k) m root v t); [|lia|by rewrite <- (table_at_agree _ m root x v)]. replace (3 - (3 - k))%nat with k by lia.
  destruct k as [|k]; cbn [walk]; unfold rd64; rewrite <- H2, He; cbn [mbind outcome_bind]; rewrite HP; cbn [negb]; [done|]. destruct Hl as [?|Hl]; [done|]. by rewrite Hl.
Qed.

(** The start of the page that maps [x]. *)
Definition page_start (m : pmem) (root x : Z) : Prop := forall k a e, walk 3 m root x = Ret (Some (k, a, e)) -> (2 ^ page_shift k | x).

(** The page after a page starts where that one ends. *)
Lemma next_page_start m root x k a e : walk 3 m root x = Ret (Some (k, a, e)) -> (2 ^ page_shift k | x) -> page_start m root (x + 2 ^ page_shift k).
Proof.
  intros EW Hd k' a' e' EW'. set (y := x + 2 ^ page_shift k) in *. destruct (walk_end m root x 3 root k a e ltac:(lia) eq_refl EW) as (Hk & _).
  destruct (walk_end m root y 3 root k' a' e' ltac:(lia) eq_refl EW') as (Hk' & _).
  assert (0 < 2 ^ page_shift k) as Hp by (apply Z.pow_pos_nonneg; unfold page_shift; lia). assert (0 < 2 ^ page_shift k') as Hp' by (apply Z.pow_pos_nonneg; unfold page_shift; lia).
  destruct (Znumtheory.Zdivide_dec (2 ^ page_shift k') y) as [|Hn]; [done|exfalso].
  assert (walk 3 m root (y - 1) = Ret (Some (k, a, e))) as E1.
  { apply (walk_agree m root x); [done|]. apply agree_quotient; [done|]. symmetry. apply page_quotient; [done|lia]. }
  assert (walk 3 m root (y - 1) = Ret (Some (k', a', e'))) as E2.
  { apply (walk_agree m root y); [done|]. apply agree_quotient; [done|]. set (s := 2 ^ page_shift k') in *.
    assert (y mod s <> 0) as Hm by (intros E; apply Hn; by apply Z.mod_divide; [lia|]). pose proof (Z.mod_pos_bound y s ltac:(lia)). pose proof (Z.div_mod y s ltac:(lia)).
    apply Z.div_unique with (y mod s - 1); lia. }
  rewrite E1 in E2. injection E2 as <- <- <-. apply Hn. apply Z.divide_add_r; [done|]. apply Z.divide_refl.
Qed.

(** The attribute index of an address. *)
Definition pat_of (m : pmem) (root v : Z) : outcome (option Z) :=
  r ← walk 3 m root v; Ret (match r with Some (k, _, e) => Some (GetPatBits 0 e (pat_bit k)) | None => None end).

Lemma pat_of_set m root v k a e p : walk 3 m root v = Ret (Some (k, a, SetPatBits e p (pat_bit k))) -> pat_of m root v = Ret (Some (p mod 8)).
Proof. intros EW. unfold pat_of. rewrite EW. cbn [mbind outcome_bind]. rewrite GetPatBits_set; [done|destruct k; auto|done]. Qed.

(** The state of [OcSetPatIndexForAddressRange] after the addresses from [va] to [cur]. *)
Record pat_inv (s0 s : machine) (root va cur p : Z) : Prop := PatInv {
  pat_control : same_control s0 s;
  pat_tree : tree s.(Memory) root;
  pat_translate : forall v, translate s.(Memory) root v = translate s0.(Memory) root v;
  pat_done : page_start s0.(Memory) root va -> forall v, va <= v < cur -> pat_of s.(Memory) root v = Ret (Some (p mod 8))
}.

(** One page of the range. *)
Lemma PatStep_page s0 s PageTable va cur p k a e (root := page_table s0 PageTable) :
  pat_inv s0 s root va cur p -> page_table s PageTable = root -> walk 3 s.(Memory) root cur = Ret (Some (k, a, e)) ->
  (page_start s0.(Memory) root va -> page_start s.(Memory) root cur) ->
  exists m' i, OcGetSetPageTableInfoForAddress s PageTable cur (Some p) true = Ret (m', EFI_SUCCESS, Some i, Some p)
  /\ i.(PhysicalAddr) = page_address k e cur /\ i.(Level) = level_number k /\ (k <= 2)%nat
  /\ pat_inv s0 (with_mem s m') root va (cur + 2 ^ page_shift k) p
  /\ (page_start s0.(Memory) root va -> page_start m' root (cur + 2 ^ page_shift k)).
Proof.
  intros [HC HT HTr Hdone] Er EW Hst. destruct (SetPat_spec s PageTable cur k a e p) as (E & HT' & EW' & _ & HTr'); rewrite ?Er; try done.
  rewrite Er in HT', EW', HTr'. set (e' := SetPatBits e p (pat_bit k)) in *. set (m' := <[a := e']> (Memory s)) in *.
  destruct (walk_end _ root cur 3 root k a e ltac:(lia) eq_refl EW) as (Hk & _ & _ & _ & Hl).
  eexists m', _. split; [exact E|]. split; [done|]. split; [done|]. split; [destruct Hl as [->|Hl]; [lia|destruct k as [|[|[|k]]]; (done || lia)]|].
  assert (walk 3 m' root cur = Ret (Some (k, a, e'))) as EWc by (rewrite EW'; by rewrite decide_True by reflexivity). split.
  - constructor; [done|done| |].
    + intros v. cbn [with_mem Memory]. by rewrite HTr', HTr.
    + intros Hps v Hv. cbn [with_mem Memory]. destruct (decide (agree (4 - k) cur v)) as [Ha|Ha].
      * apply (pat_of_set m' root v k a e). rewrite EW'. by rewrite decide_True.
      * destruct (decide (v < cur)) as [Hlt|Hge].
        -- unfold pat_of. rewrite EW'. rewrite decide_False by done. apply Hdone; [done|lia].
        -- exfalso. apply Ha, agree_quotient; [done|]. symmetry. apply page_quotient; [by apply (Hst Hps k a e)|lia].
  - intros Hps. apply (next_page_start m' root cur k a e'); [done|]. by apply (Hst Hps k a e).
Qed.

Lemma pat_inv_le s0 s root va cur cur' p : cur' <= cur -> pat_inv s0 s root va cur p -> pat_inv s0 s root va cur' p.
Proof. intros Hle [H1 H2 H3 H4]. constructor; [done..|]. intros Hps v Hv. apply H4; [done|lia]. Qed.

Lemma level_size k : (k <= 2)%nat -> 
  (if decide (level_number k = 1) then Some SIZE_1GB else if decide (level_number k = 2) then Some SIZE_2MB
   else if decide (level_number k = 4) then Some SIZE_4KB else None) = Some (2 ^ page_shift k)
  /\ 4096 <= 2 ^ page_shift k <= SIZE_1GB.
Proof. intros Hk. destruct k as [|[|[|k]]]; [by vm_compute..|lia]. Qed.

Definition range_done (s0 : machine) (root va End p : Z) (r : machine * EFI_STATUS) : Prop :=
  r.2 = EFI_SUCCESS /\ pat_inv s0 r.1 root va End p \/ (r.2 = EFI_NO_MAPPING \/ r.2 = EFI_UNSUPPORTED) /\ exists cur, pat_inv s0 r.1 root va cur p.

Record range_inv (s0 : machine) (PageTable root va End p : Z) (st : machine * Z) : Prop := RangeInv {
  range_pat : pat_inv s0 st.1 root va st.2 p;
  range_root : page_table st.1 PageTable = root;
  range_start : page_start s0.(Memory) root va -> page_start st.1.(Memory) root st.2;
  range_cur : 0 <= va <= st.2 /\ st.2 <= End < 2 ^ 64 - SIZE_1GB
}.

Lemma PatStep_total s0 PageTable va End p st (root := page_table s0 PageTable) : range_inv s0 PageTable root va End p st ->
  exists x, PatStep PageTable End p st = Ret x /\
  match x with
  | inl st' => range_inv s0 PageTable root va End p st' /\ (Z.to_nat ((End - st'.2) / 4096) < Z.to_nat ((End - st.2) / 4096))%nat
  | inr r => range_done s0 root va End p r
  end.
Proof.
  destruct st as [s cur]. intros [Hinv Er Hst Hcur]. cbn [fst snd] in *. unfold PatStep.
  destruct (tree_walk _ _ cur (pat_tree _ _ _ _ _ _ Hinv)) as [[[[k a] e]|] EW].
  - destruct (PatStep_page s0 s PageTable va cur p k a e Hinv Er EW Hst) as (m' & i & -> & Hpa & Hlv & Hk & Hinv' & Hst').
    cbn [mbind outcome_bind]. change (EFI_ERROR EFI_SUCCESS) with false. cbn iota. rewrite Hpa, Hlv. destruct (level_size k Hk) as [-> Hsz]. unfold SIZE_1GB in *.
    case_decide; [eexists; split; [done|]; right; split; [by right|by eexists]|].
    rewrite wrap_small by lia. case_decide as Hend; (eexists; split; [done|]).
    + split; [constructor; [done|done|done|]|]; cbn [snd fst]; unfold SIZE_1GB; [lia|].
      assert ((End - (cur + 2 ^ page_shift k)) / 4096 <= (End - cur - 4096) / 4096) by (apply Z.div_le_mono; lia).
      replace (End - cur - 4096) with (End - cur + (-1) * 4096) in * by lia. rewrite Z.div_add in * by lia.
      assert (0 <= (End - (cur + 2 ^ page_shift k)) / 4096) by (apply Z.div_pos; lia). lia.
    + left. split; [done|]. apply (pat_inv_le _ _ _ _ (cur + 2 ^ page_shift k)); [lia|done].
  - rewrite GetSet_spec, Er, EW. cbn [mbind outcome_bind]. eexists. split; [done|]. right. split; [by left|]. exists cur.
    destruct Hinv. by constructor.
Qed.

Lemma PatRange_spec fuel s0 PageTable va Length p (root := page_table s0 PageTable) :
  tree s0.(Memory) root -> 0 <= va -> 0 <= Length -> va + Length < 2 ^ 64 - SIZE_1GB -> Length / 4096 < Z.of_nat fuel ->
  exists r, OcSetPatIndexForAddressRange fuel s0 PageTable va Length p = Ret r /\ range_done s0 root va (va + Length) p r.
Proof.
  intros HT Hva HL Hmax Hfuel. unfold OcSetPatIndexForAddressRange, overflow_add.
  rewrite wrap_small by (unfold SIZE_1GB in *; lia). rewrite bool_decide_eq_false_2 by (unfold SIZE_1GB in *; lia). set (End := va + Length) in *.
  apply (while_total (PatStep PageTable End p) (range_inv s0 PageTable root va End p) (fun st => Z.to_nat ((End - st.2) / 4096))).
  - apply PatStep_total.
  - constructor; cbn [fst snd]; [|done|done|lia]. constructor; [done|done|done|]. intros _ v Hv. lia.
  - cbn [snd]. replace (End - va) with Length by lia. pose proof (Z.div_pos Length 4096 HL ltac:(lia)). lia.
Qed.

(** ** Concrete page tables *)

(** [n] words of zeros from [a] on. *)
Definition zeros (a n : Z) : pmem := list_to_map ((fun i => (a + 8 * i, 0)) <$> seqZ 0 n).

Lemma zeros_at a n i : 0 <= i < n -> zeros a n !! (a + 8 * i) = Some 0.
Proof.
  intros Hi. apply elem_of_list_to_map_1.
  - rewrite <- list_fmap_compose. apply NoDup_fmap_2_strong; [|apply NoDup_seqZ]. intros x y _ _. cbn. lia.
  - apply list_elem_of_fmap. exists i. split; [done|]. apply elem_of_seqZ. lia.
Qed.

Lemma zeros_0 a n x y : zeros a n !! x = Some y -> y = 0.
Proof. intros (i & [= _ ->] & _)%elem_of_list_to_map_2%list_elem_of_fmap. done. Qed.

(** An empty page table at 4096 and a pool of [n] pages after it. *)
Definition empty_tables (n : Z) : pmem := zeros 4096 (512 * (n + 1)).

Lemma empty_ok n : 0 <= n <= 1000 -> vm_ok (empty_tables n) 4096 (VmContext 8192 n).
Proof.
  intros Hn. assert (forall d va t, table_at d (empty_tables n) 4096 va = Some t -> d = 0%nat /\ t = 4096) as HT.
  { intros [|d] va t; [by intros [= <-]|]. intros (t0 & e & _ & ->%zeros_0 & H & _)%table_at_S. done. }
  assert (forall i, 0 <= i < 512 * (n + 1) -> is_Some (empty_tables n !! (4096 + 8 * i))) as HZ by (intros i Hi; unfold empty_tables; rewrite zeros_at by done; by eexists).
  constructor; [constructor| |constructor; unfold pool_page; cbn [MemoryPool FreePages]].
  - done.
  - intros d va t i _ [-> ->]%HT Hi. apply HZ. lia.
  - intros d d' va va' t _ _ [-> _]%HT [-> _]%HT. split; [done|]. intros j Hj. lia.
  - by intros d va t e _ _ ->%zeros_0.
  - by exists 2.
  - lia.
  - intros i Hi j Hj. replace (8192 + 4096 * i + 8 * j) with (4096 + 8 * (512 * (i + 1) + j)) by lia. apply HZ. lia.
  - intros i Hi d va _ [_ E]%HT. lia.
Qed.

(** The page at [p] with the entries [E]. *)
Definition with_page (m : pmem) (p : Z) (E : Z -> Z) : pmem := list_to_map ((fun i => (p + 8 * i, E i)) <$> seqZ 0 512) ∪ m.

Lemma with_page_filled m p E : filled m (with_page m p E) p E.
Proof.
  split.
  - intros i Hi. apply lookup_union_Some_l. apply elem_of_list_to_map_1.
    + rewrite <- list_fmap_compose. apply NoDup_fmap_2_strong; [|apply NoDup_seqZ]. intros x y _ _. cbn. lia.
    + apply list_elem_of_fmap. exists i. split; [done|]. apply elem_of_seqZ. lia.
  - intros a Ha. apply lookup_union_r. apply not_elem_of_list_to_map_1. intros Hin. apply Ha. rewrite <- list_fmap_compose in Hin.
    apply list_elem_of_fmap in Hin as (i & -> & Hi). apply elem_of_seqZ in Hi. exists i. cbn. split; [lia|done].
Qed.

(** With a table for the first PML4 entry, of 1 GB pages or empty; the pool has [n] pages left. *)
Definition first_tables (n : Z) (E : Z -> Z) : pmem := <[4096 := TableEntry 8192]> (with_page (empty_tables (n + 1)) 8192 E).
Definition large_pages (i : Z) : Z := page_entry true (page_mask 2) (SIZE_1GB * i).

Lemma first_ok n E : 0 <= n <= 999 -> (forall i, 0 <= i < 512 -> E i = 0 \/ present (E i) = true /\ large 2 (E i) = true) ->
  vm_ok (first_tables n E) 4096 (VmContext 12288 n) /\ is_Some (table_at 1 (first_tables n E) 4096 0)
  /\ translate (first_tables n E) 4096 0 = Ret (if present (E 0) then Some (page_address 2 (E 0) 0) else None).
Proof.
  intros Hn HE. pose proof (empty_ok (n + 1) ltac:(lia)) as H0.
  destruct (plug_new (empty_tables (n + 1)) (with_page (empty_tables (n + 1)) 8192 E) 4096 (VmContext 8192 (n + 1)) 0 0 4096 0 E H0)
    as (_ & Hok & Ht & _ & _ & _ & HA); try done.
  - cbn. lia.
  - lia.
  - unfold empty_tables. apply (zeros_at 4096 _ 0). lia.
  - intros i Hi _. change (2 - 0)%nat with 2%nat. destruct (HE i Hi) as [->|[-> ->]]; by vm_compute.
  - apply with_page_filled.
  - cbn [MemoryPool FreePages] in Hok, Ht, HA. replace (n + 1 - 1) with n in Hok by lia. change (4096 + 8 * index (3 - 0) 0) with 4096 in Hok, Ht, HA.
    split; [exact Hok|]. split; [by exists 8192|]. exact (proj1 (HA 0 ltac:(reflexivity))).
Qed.

Lemma large_ok n : 0 <= n <= 999 -> vm_ok (first_tables n large_pages) 4096 (VmContext 12288 n) /\ translate (first_tables n large_pages) 4096 0 = Ret (Some 0).
Proof.
  intros Hn. destruct (first_ok n large_pages Hn) as (H1 & _ & H3); [|by split].
  intros i Hi. right. destruct (page_entry_spec 2 (SIZE_1GB * i)) as (P1 & P2 & _); [lia|unfold SIZE_1GB; lia|apply Z.divide_factor_l|].
  split; [exact P1|]. by apply P2.
Qed.

Lemma large_tables_ok : tree (first_tables 0 large_pages) 4096 /\ translate (first_tables 0 large_pages) 4096 0 = Ret (Some 0).
Proof. destruct (large_ok 0) as [H1 H2]; [lia|]. split; [apply (ok_tree _ _ _ H1)|exact H2]. Qed.

(** ** Properties *)

(** [OcGetPhysicalAddress] (and the walk of [OcGetSetPageTableInfoForAddress]
    under it) is the address translation of the processor: the four levels are
    read at the indices of the address, the walk stops at the first entry that is
    not present or maps a page of 1 GB, 2 MB or 4 KB, and the result is the address
    of the page plus the offset in it, or EFI_NO_MAPPING. *)
Theorem OcGetPhysicalAddress_is_walk s PageTable va :
  OcGetPhysicalAddress s PageTable va =
  (r ← translate s.(Memory) (page_table s PageTable) va;
   Ret (match r with Some pa => (EFI_SUCCESS, Some pa) | None => (EFI_NO_MAPPING, None) end)).
Proof. apply OcGetPhysicalAddress_translates. Qed.


(** The second PML4 entry shares the table of the first one, which has pages of 1 GB. *)
Definition shared_tables : pmem := <[4104 := TableEntry 8192]> (first_tables 3 large_pages).

Lemma first_entry n E i : 0 <= n <= 999 -> 0 <= i < 512 -> first_tables n E !! (4096 + 8 * i) = Some (if decide (i = 0) then TableEntry 8192 else 0).
Proof.
  intros Hn Hi. unfold first_tables. case_decide as H; [subst i; by rewrite lookup_insert_eq|]. rewrite lookup_insert_ne by lia.
  rewrite (proj2 (with_page_filled _ _ _)); [unfold empty_tables; apply zeros_at; lia|]. intros (j & Hj & E'). lia.
Qed.

Lemma shared_unaliased : aliased shared_tables 4096 (2 ^ 39) = true /\ unaliased shared_tables 4096 (2 ^ 39) = first_tables 3 large_pages.
Proof.
  assert (aliased shared_tables 4096 (2 ^ 39) = true) as H.
  { unfold aliased, shared_tables. change (4096 + 8 * index 3 (2 ^ 39)) with 4104. rewrite lookup_insert_eq, lookup_insert_ne by lia.
    pose proof (first_entry 3 large_pages 0 ltac:(lia) ltac:(lia)) as E. change (4096 + 8 * 0) with 4096 in E. rewrite E. by vm_compute. }
  split; [done|]. unfold unaliased. rewrite H. unfold shared_tables. change (4096 + 8 * index 3 (2 ^ 39)) with 4104.
  rewrite insert_insert_eq. apply insert_id. pose proof (first_entry 3 large_pages 1 ltac:(lia) ltac:(lia)) as E. exact E.
Qed.


(** [VmMapVirtualPages] maps a range: with the first PML4 entry in use, it
    succeeds when the pool has three pages for each page of the range, and fails
    only with EFI_NO_MAPPING; on success every page of the range translates to the
    corresponding page from [PhysicalAddr] on, and all other addresses keep their
    translation (but for the regions of absent PML4 entries). *)
Theorem VmMapVirtualPages_maps ctx s PageTable va n pa :
  let root := page_table s PageTable in
  vm_ok s.(Memory) root ctx -> is_Some (table_at 1 s.(Memory) root 0) ->
  0 <= va -> 0 <= n -> va + 4096 * n <= 2 ^ 48 -> 0 <= pa -> pa + 4096 * n <= 2 ^ 52 ->
  exists ctx' s' Status, VmMapVirtualPages ctx s PageTable va n pa = Ret (ctx', s', Status)
  /\ same_control s s' /\ vm_ok s'.(Memory) root ctx' /\ (3 * n <= ctx.(FreePages) -> Status = EFI_SUCCESS)
  /\ (Status = EFI_SUCCESS /\ mapped_range s.(Memory) s'.(Memory) root va pa n \/ Status = EFI_NO_MAPPING).
Proof.
  intros root Hok H0 Hva Hn Hvn Hpa Hpn. unfold VmMapVirtualPages, OcGetCurrentPageTable. destruct page_masks as (_ & _ & _ & ->). cbn [fst].
  fold (page_table s PageTable). fold root.
  assert (page_table s root = root) as Er by (unfold root, page_table; repeat case_decide; congruence).
  destruct (MapPages_spec (Z.to_nat n) ctx s root va pa) as (c & s' & St & E & HC & Hok' & _ & HL & HS); rewrite ?Er, ?Z2Nat.id by done; try done.
  rewrite Er, Z2Nat.id in * by done. eexists _, _, _. by repeat (split; [done|]).
Qed.

Lemma VmMapVirtualPages_maps_witness :
  let s := Machine (first_tables 6 (fun _ => 0)) 0 0 in
  exists ctx' s' Status, VmMapVirtualPages (VmContext 12288 6) s 4096 0x1FF000 2 0x5000 = Ret (ctx', s', Status)
  /\ same_control s s' /\ vm_ok s'.(Memory) 4096 ctx' /\ (3 * 2 <= 6 -> Status = EFI_SUCCESS)
  /\ (Status = EFI_SUCCESS /\ mapped_range (first_tables 6 (fun _ => 0)) s'.(Memory) 4096 0x1FF000 0x5000 2 \/ Status = EFI_NO_MAPPING).
Proof.
  intros s. destruct (first_ok 6 (fun _ => 0)) as (H1 & H2 & _); [lia|intros i _; by left|].
  apply (VmMapVirtualPages_maps (VmContext 12288 6) s 4096 0x1FF000 2 0x5000); (exact H1 || exact H2 || lia).
Defined.

(** setting the page attribute index of an address and reading it back
    returns the index modulo 8, for pages of every size; no translation changes. *)
Theorem pat_index_roundtrip s PageTable va pa p q :
  let root := page_table s PageTable in
  tree s.(Memory) root -> translate s.(Memory) root va = Ret (Some pa) ->
  exists m' i, OcGetSetPageTableInfoForAddress s PageTable va (Some p) true = Ret (m', EFI_SUCCESS, Some i, Some p)
  /\ OcGetSetPageTableInfoForAddress (with_mem s m') PageTable va (Some q) false = Ret (m', EFI_SUCCESS, Some i, Some (p mod 8))
  /\ i.(PhysicalAddr) = pa /\ tree m' root /\ forall va', translate m' root va' = translate s.(Memory) root va'.
Proof.
  intros root HT HTr. unfold translate in HTr.
  destruct (walk 3 (Memory s) root va) as [[[[k a] e]|]|f] eqn:EW; cbn [mbind outcome_bind] in HTr |- *; [|done..]. injection HTr as <-.
  destruct (SetPat_spec s PageTable va k a e p HT EW) as (-> & HTree & EW' & HPA & HTt). eexists _, _. split; [done|].
  rewrite GetSet_spec. change (page_table (with_mem s ?m) PageTable) with root. cbn [with_mem Memory PhysicalAddr].
  split; [|done]. fold root in EW'. specialize (EW' va). rewrite decide_True in EW' by reflexivity. rewrite EW'. cbn [mbind outcome_bind].
  destruct (walk_end _ root _ 3 root k a _ ltac:(lia) eq_refl EW') as (Hk & _ & He & _). rewrite (LeafInfo_get _ _ _ _ _ _ Hk He), HPA.
  rewrite GetPatBits_set by (done || destruct k; auto). done.
Qed.

Lemma pat_index_roundtrip_witness :
  let s := Machine (first_tables 0 large_pages) 0 0 in
  exists m' i, OcGetSetPageTableInfoForAddress s 4096 0 (Some 9) true = Ret (m', EFI_SUCCESS, Some i, Some 9)
  /\ OcGetSetPageTableInfoForAddress (with_mem s m') 4096 0 (Some 0) false = Ret (m', EFI_SUCCESS, Some i, Some (9 mod 8))
  /\ i.(PhysicalAddr) = 0 /\ tree m' 4096 /\ forall va', translate m' 4096 va' = translate s.(Memory) 4096 va'.
Proof.
  intros s. destruct large_tables_ok as [H1 H3]. apply (pat_index_roundtrip s 4096 0 0 9 0); [exact H1|exact H3].
Defined.

(** [OcSetPatIndexForAddressRange] on a range that does not reach the last
    gigabyte of the address space ends after at most one turn for each 4 KB and
    never faults; it changes no translation, whatever the page sizes. When it
    reports success and the range starts at the start of a page, every address of
    the range has the attribute index set; otherwise the result is EFI_NO_MAPPING or
    EFI_UNSUPPORTED and a first part of the range has it. *)
Theorem OcSetPatIndexForAddressRange_sets fuel s PageTable va Length p :
  let root := page_table s PageTable in
  tree s.(Memory) root -> 0 <= va -> 0 <= Length -> va + Length < 2 ^ 64 - SIZE_1GB -> Length / 4096 < Z.of_nat fuel ->
  exists s' Status, OcSetPatIndexForAddressRange fuel s PageTable va Length p = Ret (s', Status)
  /\ same_control s s' /\ tree s'.(Memory) root /\ (forall v, translate s'.(Memory) root v = translate s.(Memory) root v)
  /\ (Status = EFI_SUCCESS /\ (page_start s.(Memory) root va -> forall v, va <= v < va + Length -> pat_of s'.(Memory) root v = Ret (Some (p mod 8)))
      \/ Status = EFI_NO_MAPPING \/ Status = EFI_UNSUPPORTED).
Proof.
  intros root HT Hva HL Hmax Hf. destruct (PatRange_spec fuel s PageTable va Length p HT Hva HL Hmax Hf) as ([s' St] & E & HD). fold root in HD.
  exists s', St. split; [done|]. destruct HD as [[HS [H1 H2 H3 H4]]|[HS [cur [H1 H2 H3 _]]]]; cbn [fst snd] in *; (split; [done|]); (split; [done|]); (split; [done|]); [left|right]; auto.
Qed.

Lemma OcSetPatIndexForAddressRange_sets_witness :
  let s := Machine (first_tables 0 large_pages) 0 0 in
  exists s' Status, OcSetPatIndexForAddressRange (Z.to_nat 600000) s 4096 0 0x80000000 1 = Ret (s', Status)
  /\ same_control s s' /\ tree s'.(Memory) 4096 /\ (forall v, translate s'.(Memory) 4096 v = translate s.(Memory) 4096 v)
  /\ (Status = EFI_SUCCESS /\ (page_start s.(Memory) 4096 0 -> forall v, 0 <= v < 0 + 0x80000000 -> pat_of s'.(Memory) 4096 v = Ret (Some (1 mod 8)))
      \/ Status = EFI_NO_MAPPING \/ Status = EFI_UNSUPPORTED).
Proof.
  intros s. destruct large_tables_ok as [H _].
  apply (OcSetPatIndexForAddressRange_sets (Z.to_nat 600000) s 4096 0 0x80000000 1); [exact H|done|done|done|].
  rewrite Z2Nat.id by lia. reflexivity.
Defined.

(** ** Behaviours at the edges *)

(** A small identity map with pages of 2 MB. *)
Definition small_map : pmem :=
  list_to_map [(0x1000, TableEntry 0x2000); (0x2000, TableEntry 0x3000); (0x3000, page_entry true (page_mask 1) 0); (0x3008, page_entry true (page_mask 1) SIZE_2MB)].

(** The cursor is not aligned to the page it has left: a range that starts inside
    a large page can miss its last page, with success. *)
Lemma unaligned_range_skips_page :
  exists s', OcSetPatIndexForAddressRange 10 (Machine small_map 0 0) 0x1000 0x1FF000 0x2000 1 = Ret (s', EFI_SUCCESS)
  /\ pat_of s'.(Memory) 0x1000 0x1FF000 = Ret (Some 1) /\ pat_of s'.(Memory) 0x1000 0x200000 = Ret (Some 0).
Proof. eexists. split; [by vm_compute|]. by vm_compute. Qed.

(** An entry that is not present but has the page size bit is split into pages that are present. *)
Lemma absent_large_entry_is_mapped m p a e : (4096 | p) -> 0 < p < 2 ^ 52 -> page_at m p -> ~ in_page p a -> m !! a = Some e ->
  present e = false -> Z.testbit e 7 = true ->
  exists ctx' m', EnsurePT (VmContext p 1) m a = Ret (ctx', Some m') /\ forall i, 0 <= i < 512 -> exists x, m' !! (p + 8 * i) = Some x /\ present x = true.
Proof.
  intros Hd Hp Hpg Ha He HP HL. rewrite EnsurePT_table. unfold EnsureTable, rd64. rewrite He. cbn [mbind outcome_bind].
  rewrite decide_True by (left; by apply Present_spec). unfold VmAllocatePages. cbn [FreePages MemoryPool]. rewrite decide_True by lia. rewrite decide_False by lia.
  destruct (split_filled 0 m p e ltac:(lia) Hpg) as (m1 & E & EQ & [F1 F2] & ->). rewrite HL in F1.
  destruct (ZeroPage m p) as [mz|] eqn:EZ; cbn [mbind outcome_bind] in EQ |- *; [|done]. rewrite EQ. cbn [mbind outcome_bind].
  rewrite wr64_in by (rewrite F2 by done; by eexists). cbn [mbind outcome_bind]. eexists _, _. split; [done|]. intros i Hi.
  assert (a <> p + 8 * i) by (intros ->; apply Ha; by exists i). rewrite lookup_insert_ne, F1 by done. eexists. split; [done|].
  rewrite bool_decide_eq_false_2 by lia. unfold page_entry, set_Present, present. cbv zeta iota. by rewrite set_field_bit1 by lia.
Qed.

End VirtualMemory.
