(* ===== verification/RamDisk.v ===== *)
(** * RAM disks: [Library/OcAppleRamDiskLib/OcAppleRamDiskLib.c]

    A RAM disk is a table of extents in memory pages that are taken from the
    firmware, the biggest free area first. The theorems show that the disk is one
    flat byte array to its readers and writers, and that allocation and release
    balance. Memory is the list of its bytes from address 0 on; the page of the
    extent table is a record of its own (the pages of the extents are never that
    page, which the theorem on the allocation states). The SHA-256 digest that
    debug builds print is left out. *)
From stdpp Require Import sorting gmap.
From S2P Require Import Prelude MemoryMap MemoryAttributes MemoryQuery.

Module RamDisk.
Import MemoryMap MemoryAttributes MemoryQuery.

(** ** Data *)

Definition APPLE_RAM_DISK_EXTENT_SIGNATURE : Z := 0x544E5458444D4152.
Definition APPLE_RAM_DISK_EXTENT_VERSION : Z := 0x10000.
Definition APPLE_RAM_DISK_MAX_EXTENTS : Z := 0xFE.
Definition EFI_PAGE_SIZE : Z := 0x1000.
Definition BASE_4MB : Z := 0x400000.
Definition BASE_8EB : Z := 2 ^ 63.

Record APPLE_RAM_DISK_EXTENT : Set := Extent { Start : Z; Length : Z }.
Record APPLE_RAM_DISK_EXTENT_TABLE : Set := ExtentTable {
  Signature : Z; Version : Z; ExtentCount : Z; Extents : list APPLE_RAM_DISK_EXTENT; Reserved : Z; Signature2 : Z
}.

#[export] Instance extent_inhabited : Inhabited APPLE_RAM_DISK_EXTENT := populate (Extent 0 0).

(** The file protocol: [Read] returns the bytes that it stored. *)
Class FileProtocol : Type := {
  FileState : Type;
  SetPosition : FileState -> Z -> EFI_STATUS * FileState;
  Read : FileState -> Z -> EFI_STATUS * list Z * FileState
}.

(** ** Model *)
Section Model.
(** Whether ASSERTs are compiled in. *)
Context (debug : bool).
Let ASSERT (b : bool) : outcome unit := MemoryAttributes.ASSERT debug b.

Definition INTERNAL_ASSERT_EXTENT_TABLE_VALID (t : APPLE_RAM_DISK_EXTENT_TABLE) : outcome unit :=
  ASSERT (bool_decide (t.(Signature) = APPLE_RAM_DISK_EXTENT_SIGNATURE));;
  ASSERT (bool_decide (t.(Version) = APPLE_RAM_DISK_EXTENT_VERSION));;
  ASSERT (bool_decide (t.(Reserved) = 0));;
  ASSERT (bool_decide (t.(Signature2) = APPLE_RAM_DISK_EXTENT_SIGNATURE));;
  ASSERT (bool_decide (0 < t.(ExtentCount)));;
  ASSERT (bool_decide (t.(ExtentCount) <= APPLE_RAM_DISK_MAX_EXTENTS)).

(** A table in a page of zeros. *)
Definition NewTable : APPLE_RAM_DISK_EXTENT_TABLE :=
  ExtentTable APPLE_RAM_DISK_EXTENT_SIGNATURE APPLE_RAM_DISK_EXTENT_VERSION 0
    (replicate (Z.to_nat APPLE_RAM_DISK_MAX_EXTENTS) (Extent 0 0)) 0 APPLE_RAM_DISK_EXTENT_SIGNATURE.

Definition AppendExtent (t : APPLE_RAM_DISK_EXTENT_TABLE) (e : APPLE_RAM_DISK_EXTENT) : outcome APPLE_RAM_DISK_EXTENT_TABLE :=
  Extents ← wr t.(Extents) t.(ExtentCount) e;
  Ret (ExtentTable t.(Signature) t.(Version) (t.(ExtentCount) +[32] 1) Extents t.(Reserved) t.(Signature2)).

(** The pointer to the table, with the table. *)
Definition table_ptr : Type := option (Z * APPLE_RAM_DISK_EXTENT_TABLE).

Definition InternalAddAllocatedArea (m : list Z) (tbl : table_ptr) (AllocatedArea AllocatedAreaSize : Z) : outcome (list Z * table_ptr) :=
  ASSERT (bool_decide (AllocatedArea +[64] AllocatedAreaSize -[64] 1 <= MAX_UINT64));;
  ASSERT (bool_decide (EFI_PAGE_SIZE <= AllocatedAreaSize));;
  m ← ZeroMem m AllocatedArea (EFI_PAGES_TO_SIZE (EFI_SIZE_TO_PAGES AllocatedAreaSize));
  let '(p, t, AllocatedArea, AllocatedAreaSize) :=
    match tbl with
    | None => (AllocatedArea, NewTable, AllocatedArea +[64] EFI_PAGE_SIZE, AllocatedAreaSize -[64] EFI_PAGE_SIZE)
    | Some (p, t) => (p, t, AllocatedArea, AllocatedAreaSize)
    end in
  if decide (tbl = None /\ AllocatedAreaSize = 0) then Ret (m, Some (p, t)) else
  t ← AppendExtent t (Extent AllocatedArea AllocatedAreaSize);
  Ret (m, Some (p, t)).

(** One descriptor of the search; the state is the offset of [EntryWalker], that
    of [BiggestEntry] and [BiggestSize]. *)
Definition BiggestStep (BaseAddress TopAddress DescriptorSize MapSize : Z) (Map : list slot) (s : Z * option Z * Z)
  : outcome (Z * option Z * Z + option Z * Z) :=
  let '(EntryWalker, BiggestEntry, BiggestSize) := s in
  if decide (EntryWalker < MapSize) then
    d ← rd_desc DescriptorSize Map EntryWalker;
    let next := NEXT_MEMORY_DESCRIPTOR EntryWalker DescriptorSize in
    if decide (Type_ d <> EfiConventionalMemory \/ PhysicalStart d < BaseAddress \/ TopAddress <= PhysicalStart d)
    then Ret (inl (next, BiggestEntry, BiggestSize)) else
    let UsedSize := EFI_PAGES_TO_SIZE (NumberOfPages d) in
    let UsedSize := if decide (TopAddress < PhysicalStart d +[64] UsedSize) then TopAddress -[64] PhysicalStart d else UsedSize in
    if decide (BiggestEntry = None \/ BiggestSize < UsedSize) then Ret (inl (next, Some EntryWalker, UsedSize))
    else Ret (inl (next, BiggestEntry, BiggestSize))
  else Ret (inr (BiggestEntry, BiggestSize)).

Context `{Firmware}.

(** Whether the table takes another extent. *)
Definition HasRoom (tbl : table_ptr) : bool :=
  match tbl with None => true | Some (_, t) => bool_decide (t.(ExtentCount) < APPLE_RAM_DISK_MAX_EXTENTS) end.

(** The state of the allocation: the firmware, memory, the map, [RemainingSize]
    and [*ExtentTable]. *)
Record alloc_state : Type := AllocState {
  fw_ : Fw; bytes : list Z; Map : list slot; Remaining : Z; Tbl : table_ptr
}.

(** One turn of the loop. *)
Definition AllocateStep (BaseAddress TopAddress MemoryType DescriptorSize MapSize : Z) (s : alloc_state) : outcome (alloc_state + alloc_state) :=
  if decide (0 < s.(Remaining) /\ HasRoom s.(Tbl) = true) then
    '(BiggestEntry, BiggestSize) ← while_ (S (length s.(Map))) (BiggestStep BaseAddress TopAddress DescriptorSize MapSize s.(Map)) (0, None, 0);
    match BiggestEntry with
    | None => Ret (inr s)
    | Some BiggestEntry =>
        if decide (BiggestSize = 0) then Ret (inr s) else
        let FinalUsedSize := Z.min BiggestSize s.(Remaining) in
        d ← rd_desc DescriptorSize s.(Map) BiggestEntry;
        let AllocatedArea := PhysicalStart d in
        let '(Status, fw) := AllocateAddress s.(fw_) MemoryType (EFI_SIZE_TO_PAGES FinalUsedSize) AllocatedArea in
        if EFI_ERROR Status then Ret (inr (AllocState fw s.(bytes) s.(Map) s.(Remaining) s.(Tbl))) else
        '(m, tbl) ← InternalAddAllocatedArea s.(bytes) s.(Tbl) AllocatedArea FinalUsedSize;
        let d := set_PhysicalStart d (PhysicalStart d +[64] EFI_SIZE_TO_PAGES FinalUsedSize) in
        let d := set_NumberOfPages d (NumberOfPages d -[64] EFI_SIZE_TO_PAGES FinalUsedSize) in
        Map ← wr_desc DescriptorSize s.(Map) BiggestEntry d;
        Ret (inl (AllocState fw m Map (s.(Remaining) -[64] FinalUsedSize) tbl))
    end
  else Ret (inr s).

(** Every turn but the first one adds an extent. *)
Definition InternalAllocateRemainingSize (BaseAddress TopAddress MemoryType DescriptorSize MapSize : Z) (s : alloc_state) : outcome alloc_state :=
  ASSERT (bool_decide (BaseAddress = EFI_PAGES_TO_SIZE (EFI_SIZE_TO_PAGES BaseAddress)));;
  ASSERT (bool_decide (TopAddress = EFI_PAGES_TO_SIZE (EFI_SIZE_TO_PAGES TopAddress)));;
  while_ (S (S (Z.to_nat APPLE_RAM_DISK_MAX_EXTENTS))) (AllocateStep BaseAddress TopAddress MemoryType DescriptorSize MapSize) s.

(** The table at [p] is passed by its pointer. *)
Definition OcAppleRamDiskFree (fw : Fw) (p : Z) (t : APPLE_RAM_DISK_EXTENT_TABLE) : outcome Fw :=
  INTERNAL_ASSERT_EXTENT_TABLE_VALID t;;
  e0 ← rd t.(Extents) 0;
  ASSERT (bool_decide (e0.(Start) <= MAX_UINT64));;
  ASSERT (bool_decide (e0.(Length) <= MAX_UINT64));;
  fw ← for_ (Z.to_nat (t.(ExtentCount) - 1)) 1 (fun Index fw =>
    e ← rd t.(Extents) Index;
    ASSERT (bool_decide (e.(Start) <= MAX_UINT64));;
    ASSERT (bool_decide (e.(Length) <= MAX_UINT64));;
    Ret (FreePages fw e.(Start) (EFI_SIZE_TO_PAGES e.(Length)))) fw;
  Ret (FreePages fw p (EFI_SIZE_TO_PAGES e0.(Length) +[64] 1)).

(** The buffer of the memory map is not released. *)
Definition InternalAppleRamDiskAllocate (s : Fw * list Z) (Size MemoryType : Z) (PreferHighMem : bool) : outcome (Fw * list Z * table_ptr) :=
  let '(fw, m) := s in
  '(fw, map) ← OcGetCurrentMemoryMap [] false fw;
  match map with
  | None => Ret (fw, m, None)
  | Some map =>
      let '(Result, RemainingSize) := overflow_add 64 Size EFI_PAGE_SIZE in
      if (Result : bool) then Ret (fw, m, None) else
      let i := map.(Info) in
      let s := AllocState fw m i.(Content) RemainingSize None in
      s ← (if PreferHighMem
           then InternalAllocateRemainingSize BASE_4GB BASE_8EB MemoryType i.(DescriptorSize) i.(MemoryMapSize) s else Ret s);
      s ← InternalAllocateRemainingSize 0 BASE_8EB MemoryType i.(DescriptorSize) i.(MemoryMapSize) s;
      match s.(Tbl) with
      | Some (p, t) =>
          if decide (0 < s.(Remaining)) then fw ← OcAppleRamDiskFree s.(fw_) p t; Ret (fw, s.(bytes), None)
          else Ret (s.(fw_), s.(bytes), s.(Tbl))
      | None => Ret (s.(fw_), s.(bytes), None)
      end
  end.

Definition OcAppleRamDiskAllocate (s : Fw * list Z) (Size MemoryType : Z) : outcome (Fw * list Z * table_ptr) :=
  '(s, tbl) ← InternalAppleRamDiskAllocate s Size MemoryType true;
  match tbl with
  | None => InternalAppleRamDiskAllocate s Size MemoryType false
  | Some _ => Ret (s, tbl)
  end.

(** The walk over the extents, for reading and writing: [copy] moves the given
    number of bytes between the buffer offset and the address. The state is
    [Index], [CurrentOffset], [Offset], [Size], the offset [BufferBytes] and the
    memory or buffer that is written. *)
Definition TransferStep {St} (copy : Z -> Z -> Z -> St -> outcome St) (t : APPLE_RAM_DISK_EXTENT_TABLE) (s : Z * Z * Z * Z * Z * St)
  : outcome (Z * Z * Z * Z * Z * St + bool * St) :=
  let '(Index, CurrentOffset, Offset, Size, BufferBytes, st) := s in
  if decide (Index < t.(ExtentCount)) then
    Extent ← rd t.(Extents) Index;
    ASSERT (bool_decide (Extent.(Start) <= MAX_UINT64));;
    ASSERT (bool_decide (Extent.(Length) <= MAX_UINT64));;
    if decide (CurrentOffset <= Offset /\ Offset -[64] CurrentOffset < Extent.(Length)) then
      let LocalOffset := Offset -[64] CurrentOffset in
      let LocalSize := Z.min (Extent.(Length) -[64] LocalOffset) Size in
      st ← copy BufferBytes (Extent.(Start) +[64] LocalOffset) LocalSize st;
      let Size := Size -[64] LocalSize in
      if decide (Size = 0) then Ret (inr (true, st))
      else Ret (inl (Index +[32] 1, CurrentOffset +[64] Extent.(Length), Offset +[64] LocalSize, Size, BufferBytes + LocalSize, st))
    else Ret (inl (Index +[32] 1, CurrentOffset +[64] Extent.(Length), Offset, Size, BufferBytes, st))
  else Ret (inr (false, st)).

Definition Transfer {St} (copy : Z -> Z -> Z -> St -> outcome St) (t : APPLE_RAM_DISK_EXTENT_TABLE) (Offset Size : Z) (st : St) : outcome (bool * St) :=
  INTERNAL_ASSERT_EXTENT_TABLE_VALID t;;
  ASSERT (bool_decide (0 < Size));;
  while_ (S (Z.to_nat t.(ExtentCount))) (TransferStep copy t) (0, 0, Offset, Size, 0, st).

Definition OcAppleRamDiskRead (m : list Z) (t : APPLE_RAM_DISK_EXTENT_TABLE) (Offset Size : Z) (Buffer : list Z) : outcome (bool * list Z) :=
  Transfer (fun o a n Buffer => CopyMem Buffer o m a n) t Offset Size Buffer.

Definition OcAppleRamDiskWrite (m : list Z) (t : APPLE_RAM_DISK_EXTENT_TABLE) (Offset Size : Z) (Buffer : list Z) : outcome (bool * list Z) :=
  Transfer (fun o a n m => CopyMem m a Buffer o n) t Offset Size m.

Context `{FileProtocol}.

(** The state of the loading: the file, memory, [FilePosition] and [FileSize];
    loops end with [false] for the return of FALSE. *)
Definition load_state : Type := FileState * list Z * Z * Z.

(** One turn of the inner loop, with [ExtentBuffer] and [ExtentSize]. The bytes go
    through a temporary buffer. *)
Definition LoadStep (s : load_state * Z * Z) : outcome (load_state * Z * Z + load_state * bool) :=
  let '(f, m, FilePosition, FileSize, ExtentBuffer, ExtentSize) := s in
  if decide (0 < FileSize /\ 0 < ExtentSize) then
    let '(Status, f) := SetPosition f FilePosition in
    if EFI_ERROR Status then Ret (inr (f, m, FilePosition, FileSize, false)) else
    let RequestedSize := Z.min (Z.min BASE_4MB FileSize) ExtentSize in
    let '(Status, data, f) := Read f RequestedSize in
    let ReadSize := Z.of_nat (length data) in
    if decide (EFI_ERROR Status = true \/ RequestedSize <> ReadSize) then Ret (inr (f, m, FilePosition, FileSize, false)) else
    m ← wr_slice m ExtentBuffer data;
    Ret (inl (f, m, FilePosition +[64] ReadSize, FileSize -[64] ReadSize, ExtentBuffer +[64] ReadSize, ExtentSize -[64] ReadSize))
  else Ret (inr (f, m, FilePosition, FileSize, true)).

(** One extent. *)
Definition LoadExtent (t : APPLE_RAM_DISK_EXTENT_TABLE) (s : Z * load_state) : outcome (Z * load_state + load_state * bool) :=
  let '(Index, (f, m, FilePosition, FileSize)) := s in
  if decide (Index < t.(ExtentCount) /\ 0 < FileSize) then
    e ← rd t.(Extents) Index;
    ASSERT (bool_decide (e.(Start) <= MAX_UINT64));;
    ASSERT (bool_decide (e.(Length) <= MAX_UINT64));;
    '(s, Loaded) ← while_ (S (S (Z.to_nat (e.(Length) / BASE_4MB)))) LoadStep (f, m, FilePosition, FileSize, e.(Start), e.(Length));
    Ret (if Loaded : bool then inl (Index +[32] 1, s) else inr (s, false))
  else Ret (inr (f, m, FilePosition, FileSize, true)).

(** The firmware, the file, memory and the result. *)
Definition OcAppleRamDiskLoadFile (fw : Fw) (m : list Z) (t : APPLE_RAM_DISK_EXTENT_TABLE) (f : FileState) (FileSize : Z)
  : outcome (Fw * FileState * list Z * bool) :=
  INTERNAL_ASSERT_EXTENT_TABLE_VALID t;;
  ASSERT (bool_decide (0 < FileSize));;
  match AllocatePool fw BASE_4MB with
  | None => Ret (fw, f, m, false)
  | Some (TmpBuffer, fw) =>
      '(s, Loaded) ← while_ (S (Z.to_nat t.(ExtentCount))) (LoadExtent t) (0, (f, m, 0, FileSize));
      let '(f, m, _, FileSize) := s in
      Ret (FreePool fw TmpBuffer, f, m, (Loaded : bool) && bool_decide (FileSize = 0))
  end.

End Model.

(** ** Specification: a flat byte array *)

Definition used (t : APPLE_RAM_DISK_EXTENT_TABLE) : list APPLE_RAM_DISK_EXTENT := take (Z.to_nat t.(ExtentCount)) t.(Extents).
Definition content (m : list Z) (e : APPLE_RAM_DISK_EXTENT) : list Z := slice m e.(Start) e.(Length).
Definition contents (m : list Z) (es : list APPLE_RAM_DISK_EXTENT) : list Z := concat (content m <$> es).
Definition flat (m : list Z) (t : APPLE_RAM_DISK_EXTENT_TABLE) : list Z := contents m (used t).
Definition total (es : list APPLE_RAM_DISK_EXTENT) : Z := foldr (fun e a => e.(Length) + a) 0 es.

Definition apart (e e' : APPLE_RAM_DISK_EXTENT) : Prop := e.(Start) + e.(Length) <= e'.(Start) \/ e'.(Start) + e'.(Length) <= e.(Start).
Definition in_extent (e : APPLE_RAM_DISK_EXTENT) (a : Z) : Prop := e.(Start) <= a < e.(Start) + e.(Length).

Record extents_ok (m : list Z) (es : list APPLE_RAM_DISK_EXTENT) : Prop := ExtentsOk {
  ok_memory : Z.of_nat (length m) < 2 ^ 64;
  ok_inside : Forall (fun e => 0 <= e.(Start) /\ 0 <= e.(Length) /\ e.(Start) + e.(Length) <= Z.of_nat (length m)) es;
  ok_apart : StronglySorted apart es
}.

(** A valid table whose extents are memory, without overlap. *)
Record disk_ok (m : list Z) (t : APPLE_RAM_DISK_EXTENT_TABLE) : Prop := DiskOk {
  ok_fields : t.(Signature) = APPLE_RAM_DISK_EXTENT_SIGNATURE /\ t.(Version) = APPLE_RAM_DISK_EXTENT_VERSION
    /\ t.(Reserved) = 0 /\ t.(Signature2) = APPLE_RAM_DISK_EXTENT_SIGNATURE;
  ok_count : 0 < t.(ExtentCount) <= APPLE_RAM_DISK_MAX_EXTENTS;
  ok_length : length t.(Extents) = Z.to_nat APPLE_RAM_DISK_MAX_EXTENTS;
  ok_extents : extents_ok m (used t);
  ok_total : total (used t) < 2 ^ 64
}.

(** ** Lemmas *)

Lemma extents_cons m e es : extents_ok m (e :: es) ->
  (0 <= e.(Start) /\ 0 <= e.(Length) /\ e.(Start) + e.(Length) <= Z.of_nat (length m) /\ Z.of_nat (length m) < 2 ^ 64)
  /\ Forall (apart e) es /\ extents_ok m es.
Proof.
  intros [H1 H2 H3]. apply Forall_cons in H2 as [(A1 & A2 & A3) H2]. apply StronglySorted_inv in H3 as [H3 H4]. by repeat split.
Qed.

Lemma content_length m es e : extents_ok m (e :: es) -> Z.of_nat (length (content m e)) = e.(Length).
Proof. intros [(H1 & H2 & H3 & _) _]%extents_cons. unfold content. rewrite slice_length by lia. lia. Qed.

Lemma total_nonneg m es : extents_ok m es -> 0 <= total es.
Proof. induction es as [|e es IH]; [done|]. intros [(_ & H & _) [_ H2]]%extents_cons. change (total (e :: es)) with (e.(Length) + total es). specialize (IH H2). lia. Qed.

Lemma contents_length m es : extents_ok m es -> Z.of_nat (length (contents m es)) = total es.
Proof.
  induction es as [|e es IH]; [done|]. intros H. pose proof H as [_ [_ H2]]%extents_cons. specialize (IH H2).
  unfold contents in *. cbn [fmap list_fmap concat total foldr]. rewrite length_app, Nat2Z.inj_add, (content_length m es e H), IH. done.
Qed.

Lemma extent_apart_sym e e' : apart e e' -> apart e' e.
Proof. unfold apart. tauto. Qed.

(** Memory that agrees on the extents. *)
Lemma content_ext m m' e : 0 <= e.(Start) -> 0 <= e.(Length) -> (forall a, in_extent e a -> m' !! Z.to_nat a = m !! Z.to_nat a) -> content m' e = content m e.
Proof.
  intros H1 H2 H. unfold content. apply slice_ext; [done..|]. intros i Hi.
  replace (Z.to_nat (Start e) + i)%nat with (Z.to_nat (Start e + Z.of_nat i)) by lia. apply H. unfold in_extent. lia.
Qed.

Lemma contents_ext m m' es : extents_ok m es -> (forall e a, e ∈ es -> in_extent e a -> m' !! Z.to_nat a = m !! Z.to_nat a) -> contents m' es = contents m es.
Proof.
  induction es as [|e es IH]; [done|]. intros [(H1 & H2 & _) [_ H3]]%extents_cons H. unfold contents in *. cbn [fmap list_fmap concat].
  rewrite (content_ext m m' e) by (try done; intros a; apply H; by left). rewrite IH; [done|done|]. intros e' a He'. apply H. by right.
Qed.

Lemma slice_add (l : list Z) o a b : 0 <= o -> 0 <= a -> 0 <= b -> slice l o (a + b) = slice l o a ++ slice l (o + a) b.
Proof.
  intros. unfold slice. rewrite (Z2Nat.inj_add o a), (Z2Nat.inj_add a b) by lia. rewrite <- drop_drop. symmetry. apply take_take_drop.
Qed.

Lemma slice_slice (l : list Z) o n o' n' : 0 <= o -> 0 <= o' -> 0 <= n' -> o' + n' <= n -> slice (slice l o n) o' n' = slice l (o + o') n'.
Proof.
  intros. unfold slice. apply list_eq. intros i. destruct (decide (i < Z.to_nat n')%nat).
  - rewrite !lookup_take_lt, !lookup_drop by lia. rewrite lookup_take_lt, lookup_drop by lia. f_equal. lia.
  - by rewrite !lookup_take_ge by lia.
Qed.

(** Slices of the content of [e :: es]. *)
Lemma contents_cons m e es : contents m (e :: es) = content m e ++ contents m es.
Proof. done. Qed.

Lemma slice_app_first (c d : list Z) o n : 0 <= o -> 0 <= n -> o + n <= Z.of_nat (length c) -> slice (c ++ d) o n = slice c o n.
Proof. intros. unfold slice. rewrite drop_app_le by lia. apply take_app_le. rewrite length_drop. lia. Qed.

Lemma slice_app_second (c d : list Z) o n : Z.of_nat (length c) <= o -> slice (c ++ d) o n = slice d (o - Z.of_nat (length c)) n.
Proof. intros. unfold slice. rewrite drop_app_ge by lia. do 2 f_equal. lia. Qed.

Lemma slice_app_both (c d : list Z) o n : 0 <= o <= Z.of_nat (length c) -> Z.of_nat (length c) - o <= n ->
  slice (c ++ d) o n = slice c o (Z.of_nat (length c) - o) ++ slice d 0 (n - (Z.of_nat (length c) - o)).
Proof.
  intros H1 H2. replace n with ((Z.of_nat (length c) - o) + (n - (Z.of_nat (length c) - o))) at 1 by lia. rewrite slice_add by lia.
  rewrite slice_app_first by lia. f_equal. rewrite slice_app_second by lia. f_equal. lia.
Qed.

(** ** The walk over the extents *)

Lemma assert_holds debug b : b = true -> MemoryAttributes.ASSERT debug b = Ret tt.
Proof. intros ->. by destruct debug. Qed.

Lemma used_lookup t i e : 0 <= i -> used t !! Z.to_nat i = Some e -> i < t.(ExtentCount) /\ rd t.(Extents) i = Ret e.
Proof.
  intros Hi H. apply lookup_take_Some in H as [H1 H2]. split; [lia|]. unfold rd. rewrite decide_True by done. by rewrite H1.
Qed.

Lemma extents_end t i : length t.(Extents) = Z.to_nat APPLE_RAM_DISK_MAX_EXTENTS -> 0 <= t.(ExtentCount) <= APPLE_RAM_DISK_MAX_EXTENTS ->
  0 <= i -> drop (Z.to_nat i) (used t) = [] -> t.(ExtentCount) <= i.
Proof.
  intros HL HC Hi H. apply (f_equal length) in H. unfold used in H. rewrite length_drop, length_take in H. cbn in H. lia.
Qed.

Lemma TransferStep_spec {St} debug (copy : Z -> Z -> Z -> St -> outcome St) m t es Index Cur Off Sz pos st e :
  t.(ExtentCount) <= APPLE_RAM_DISK_MAX_EXTENTS -> 0 <= Index -> drop (Z.to_nat Index) (used t) = e :: es -> extents_ok m (e :: es) ->
  0 <= Cur <= Off -> Off + Sz < 2 ^ 64 -> 0 <= Sz -> Cur + total (e :: es) < 2 ^ 64 ->
  TransferStep debug copy t (Index, Cur, Off, Sz, pos, st) =
  if decide (Off - Cur < e.(Length)) then
    let n := Z.min (e.(Length) - (Off - Cur)) Sz in
    st ← copy pos (e.(Start) + (Off - Cur)) n st;
    Ret (if decide (Sz = n) then inr (true, st) else inl (Index + 1, Cur + e.(Length), Off + n, Sz - n, pos + n, st))
  else Ret (inl (Index + 1, Cur + e.(Length), Off, Sz, pos, st)).
Proof.
  intros HC HI Hdrop Hok HCur HOff HSz Htot. pose proof Hok as [(H1 & H2 & H3 & H4) [_ Hok2]]%extents_cons.
  pose proof (total_nonneg m es Hok2) as Hn. change (total (e :: es)) with (e.(Length) + total es) in Htot.
  assert (used t !! Z.to_nat Index = Some e) as Hl by (apply (f_equal (fun l => l !! 0%nat)) in Hdrop; rewrite lookup_drop, Nat.add_0_r in Hdrop; done).
  destruct (used_lookup t Index e HI Hl) as [HI2 Hrd]. unfold TransferStep. rewrite decide_True by done. rewrite Hrd. cbn [mbind outcome_bind].
  unfold MAX_UINT64, APPLE_RAM_DISK_MAX_EXTENTS in *. rewrite !assert_holds by (apply bool_decide_eq_true_2; lia). cbn [mbind outcome_bind].
  rewrite (wrap_small 64 (Off - Cur)) by lia. rewrite (wrap_small 32 (Index + 1)) by lia. rewrite (wrap_small 64 (Cur + Length e)) by lia.
  destruct (decide (Off - Cur < Length e)) as [Hin|Hin]; [|by rewrite decide_False by tauto]. rewrite decide_True by lia. cbv zeta.
  rewrite (wrap_small 64 (Length e - (Off - Cur))) by lia. rewrite (wrap_small 64 (Start e + (Off - Cur))) by lia.
  set (n := Z.min (Length e - (Off - Cur)) Sz). destruct (copy pos (Start e + (Off - Cur)) n st) as [st'|]; cbn [mbind outcome_bind]; [|done].
  rewrite (wrap_small 64 (Sz - n)) by lia. rewrite (wrap_small 64 (Off + n)) by lia.
  destruct (decide (Sz - n = 0)), (decide (Sz = n)); (done || lia).
Qed.

Lemma drop_next {A} (l : list A) i x l' : 0 <= i -> drop (Z.to_nat i) l = x :: l' -> drop (Z.to_nat (i + 1)) l = l'.
Proof. intros Hi H. replace (Z.to_nat (i + 1)) with (Z.to_nat i + 1)%nat by lia. by rewrite <- drop_drop, H. Qed.

(** A read of nothing succeeds on the disk and fails at its end. *)
Lemma read_walk_any debug m t : length t.(Extents) = Z.to_nat APPLE_RAM_DISK_MAX_EXTENTS -> 0 <= t.(ExtentCount) <= APPLE_RAM_DISK_MAX_EXTENTS ->
  forall es fuel Index Cur Off Sz pos B, 0 <= Index -> drop (Z.to_nat Index) (used t) = es -> extents_ok m es ->
  0 <= Cur <= Off -> Off + Sz < 2 ^ 64 -> 0 <= Sz -> Cur + total es < 2 ^ 64 -> 0 <= pos -> pos + Sz <= Z.of_nat (length B) -> (length es < fuel)%nat ->
  while_ fuel (TransferStep debug (fun o a n B => CopyMem B o m a n) t) (Index, Cur, Off, Sz, pos, B)
  = Ret (bool_decide (Off - Cur + Z.max 1 Sz <= total es), list_inserts (Z.to_nat pos) (slice (contents m es) (Off - Cur) Sz) B).
Proof.
  intros HL HC. induction es as [|e es IH]; intros fuel Index Cur Off Sz pos B HI Hdrop Hok HCur HOff HSz Htot Hpos HB Hfuel;
    (destruct fuel as [|fuel]; [cbn in Hfuel; lia|]); rewrite while_S.
  - pose proof (extents_end t Index HL HC HI Hdrop). cbn [TransferStep]. rewrite decide_False by lia. cbn [mbind outcome_bind]. cbn [total foldr].
    rewrite bool_decide_eq_false_2 by lia. unfold slice, contents. cbn. by rewrite drop_nil, take_nil.
  - rewrite (TransferStep_spec debug _ m t es Index Cur Off Sz pos B e) by (done || lia). pose proof Hok as [(H1 & H2 & H3 & H4) [_ Hok2]]%extents_cons.
    pose proof (total_nonneg m es Hok2) as Hn. change (total (e :: es)) with (e.(Length) + total es) in *. pose proof (content_length m es e Hok) as Hlen.
    pose proof (drop_next _ _ _ _ HI Hdrop) as Hdrop2. rewrite contents_cons. cbn [length] in Hfuel. case_decide as Hin.
    + cbv zeta. set (n := Z.min (Length e - (Off - Cur)) Sz) in *. rewrite CopyMem_in by lia. cbn [mbind outcome_bind].
      assert (slice m (Start e + (Off - Cur)) n = slice (content m e) (Off - Cur) n) as Esl by (unfold content; rewrite slice_slice by lia; done).
      rewrite Esl. case_decide as Hn2.
      * rewrite bool_decide_eq_true_2 by lia. do 3 f_equal. rewrite slice_app_first by lia. by rewrite Hn2.
      * rewrite IH by (done || lia || (rewrite length_inserts; lia)). rewrite slice_app_both by lia. rewrite Hlen.
        replace (Off + n - (Cur + Length e)) with 0 by lia. replace (Sz - n) with (Sz - (Length e - (Off - Cur))) by lia. replace (Length e - (Off - Cur)) with n by lia.
        f_equal. f_equal; [apply bool_decide_ext; lia|].
        assert (length (slice (content m e) (Off - Cur) n) = Z.to_nat n) as Hsl by (apply slice_length; lia).
        assert (length (slice (contents m es) 0 (Sz - n)) <= Z.to_nat (Sz - n))%nat as Hs2 by (unfold slice; rewrite length_take; lia).
        replace (Z.to_nat (pos + n)) with (Z.to_nat pos + length (slice (content m e) (Off - Cur) n))%nat by lia. apply inserts_inserts. lia.
    + cbn [mbind outcome_bind]. rewrite IH by (done || lia). rewrite slice_app_second by lia. rewrite Hlen.
      replace (Off - (Cur + Length e)) with (Off - Cur - Length e) by lia. f_equal. f_equal. apply bool_decide_ext. lia.
Qed.

Lemma read_walk debug m t : length t.(Extents) = Z.to_nat APPLE_RAM_DISK_MAX_EXTENTS -> 0 <= t.(ExtentCount) <= APPLE_RAM_DISK_MAX_EXTENTS ->
  forall es fuel Index Cur Off Sz pos B, 0 <= Index -> drop (Z.to_nat Index) (used t) = es -> extents_ok m es ->
  0 <= Cur <= Off -> Off + Sz < 2 ^ 64 -> 0 < Sz -> Cur + total es < 2 ^ 64 -> 0 <= pos -> pos + Sz <= Z.of_nat (length B) -> (length es < fuel)%nat ->
  while_ fuel (TransferStep debug (fun o a n B => CopyMem B o m a n) t) (Index, Cur, Off, Sz, pos, B)
  = Ret (bool_decide (Off - Cur + Sz <= total es), list_inserts (Z.to_nat pos) (slice (contents m es) (Off - Cur) Sz) B).
Proof.
  intros HL HC es fuel Index Cur Off Sz pos B H1 H2 H3 H4 H5 H6 H7 H8 H9 H10.
  rewrite (read_walk_any debug m t HL HC es) by (done || lia). by rewrite Z.max_r by lia.
Qed.

Lemma valid_table debug t m : disk_ok m t -> INTERNAL_ASSERT_EXTENT_TABLE_VALID debug t = Ret tt.
Proof.
  intros [(H1 & H2 & H3 & H4) [H5 H6] _ _ _]. unfold INTERNAL_ASSERT_EXTENT_TABLE_VALID.
  by rewrite !assert_holds by (apply bool_decide_eq_true_2; done).
Qed.

Lemma used_length m t : disk_ok m t -> Z.of_nat (length (used t)) = t.(ExtentCount).
Proof. intros [_ H2 H3 _ _]. unfold used. rewrite length_take, H3. lia. Qed.

(** A read of any size; one of size 0 stops a debug build. *)
Lemma Read_any debug m t Offset Size Buffer : disk_ok m t -> 0 <= Offset -> 0 <= Size -> (debug = true -> 0 < Size) ->
  Offset + Size < 2 ^ 64 -> Size <= Z.of_nat (length Buffer) ->
  OcAppleRamDiskRead debug m t Offset Size Buffer
  = Ret (bool_decide (Offset + Z.max 1 Size <= Z.of_nat (length (flat m t))), list_inserts 0 (slice (flat m t) Offset Size) Buffer).
Proof.
  intros HD HO HS Hd Hmax HB. pose proof HD as [_ H2 H3 H4 H5]. unfold OcAppleRamDiskRead, Transfer.
  rewrite (valid_table _ _ _ HD). cbn [mbind outcome_bind].
  assert (MemoryAttributes.ASSERT debug (bool_decide (0 < Size)) = Ret tt) as ->.
  { destruct debug; [|done]. rewrite bool_decide_eq_true_2 by auto. done. }
  cbn [mbind outcome_bind].
  rewrite (read_walk_any debug m t H3 ltac:(lia) (used t)) by (try done; try lia; pose proof (used_length _ _ HD); lia).
  unfold flat. rewrite (contents_length m _ H4), !Z.sub_0_r. done.
Qed.

(** Writes into a concatenation. *)
Lemma inserts_app_first (x c d : list Z) o : (o + length x <= length c)%nat -> list_inserts o x (c ++ d) = list_inserts o x c ++ d.
Proof.
  intros H. apply list_eq. intros i. rewrite lookup_inserts by (rewrite length_app; lia). destruct (decide (i < length c)%nat) as [Hi|Hi].
  - rewrite !lookup_app_l by (rewrite ?length_inserts; lia). by rewrite lookup_inserts by lia.
  - rewrite !lookup_app_r by (rewrite ?length_inserts; lia). rewrite length_inserts. by rewrite decide_False by lia.
Qed.

Lemma inserts_app_second (x c d : list Z) o : (length c <= o)%nat -> (o + length x <= length c + length d)%nat ->
  list_inserts o x (c ++ d) = c ++ list_inserts (o - length c) x d.
Proof.
  intros H1 H2. apply list_eq. intros i. rewrite lookup_inserts by (rewrite length_app; lia). destruct (decide (i < length c)%nat) as [Hi|Hi].
  - rewrite decide_False by lia. by rewrite !lookup_app_l by lia.
  - rewrite !lookup_app_r by lia. rewrite lookup_inserts by lia. repeat case_decide; try lia; [|done]. f_equal. lia.
Qed.

Lemma inserts_app_both (x y c d : list Z) o : (o + length x = length c)%nat -> (length y <= length d)%nat ->
  list_inserts o (x ++ y) (c ++ d) = list_inserts o x c ++ list_inserts 0 y d.
Proof.
  intros H1 H2. rewrite <- inserts_inserts by (rewrite length_app; lia). rewrite inserts_app_first by lia.
  rewrite inserts_app_second by (rewrite ?length_inserts; lia). do 2 f_equal. rewrite length_inserts. lia.
Qed.

(** A write inside one extent. *)
Lemma write_extent m e es o xs (m1 := list_inserts (Z.to_nat (e.(Start) + o)) xs m) :
  extents_ok m (e :: es) -> 0 <= o -> o + Z.of_nat (length xs) <= e.(Length) ->
  content m1 e = list_inserts (Z.to_nat o) xs (content m e) /\ contents m1 es = contents m es /\ length m1 = length m /\ extents_ok m1 (e :: es)
  /\ forall a, 0 <= a -> ~ in_extent e a -> m1 !! Z.to_nat a = m !! Z.to_nat a.
Proof.
  intros Hok Ho Hx. pose proof Hok as [(H1 & H2 & H3 & H4) [H5 H6]]%extents_cons. pose proof (content_length m es e Hok) as Hlen.
  assert (forall a, 0 <= a -> ~ in_extent e a -> m1 !! Z.to_nat a = m !! Z.to_nat a) as Hframe.
  { intros a Ha Hn. unfold m1, in_extent in *. rewrite lookup_inserts by lia. by rewrite decide_False by lia. }
  assert (length m1 = length m) as Hm by apply length_inserts.
  split; [|split; [|split; [done|split; [|done]]]].
  - apply list_eq. intros i. rewrite lookup_inserts by lia. unfold content. destruct (decide (i < Z.to_nat (Length e))%nat) as [Hi|Hi].
    + rewrite !lookup_slice by lia. unfold m1. rewrite lookup_inserts by lia. repeat case_decide; try lia; [|done]. f_equal. lia.
    + rewrite decide_False by lia. rewrite !(proj2 (lookup_ge_None _ _)); [done| |]; rewrite slice_length; lia.
  - apply contents_ext; [done|]. intros e' a He' Ha. rewrite Forall_forall in H5. specialize (H5 e' He').
    destruct H6 as [_ Hin _]. rewrite Forall_forall in Hin. specialize (Hin e' He'). apply Hframe; unfold in_extent, apart in *; lia.
  - destruct Hok. constructor; by rewrite ?Hm.
Qed.

Lemma apart_outside e es a : Forall (apart e) es -> in_extent e a -> forall e', e' ∈ es -> ~ in_extent e' a.
Proof. intros H Ha e' He'. rewrite Forall_forall in H. specialize (H e' He'). unfold apart, in_extent in *. lia. Qed.

(** What a write of [n] bytes at [o] does to the contents of [es]. *)
Record written (m m' : list Z) (es : list APPLE_RAM_DISK_EXTENT) (o : Z) (xs : list Z) : Prop := Written {
  written_length : length m' = length m;
  written_contents : contents m' es = list_inserts (Z.to_nat o) xs (contents m es);
  written_frame : forall a, 0 <= a -> (forall e, e ∈ es -> ~ in_extent e a) -> m' !! Z.to_nat a = m !! Z.to_nat a
}.

(** The rest of a write after its part in the first extent. *)
Lemma written_cons m m1 m' e es o x y : extents_ok m (e :: es) -> 0 <= o -> o + Z.of_nat (length x) = e.(Length) -> Z.of_nat (length y) <= total es ->
  m1 = list_inserts (Z.to_nat (e.(Start) + o)) x m -> written m1 m' es 0 y -> written m m' (e :: es) o (x ++ y).
Proof.
  intros Hok Ho Hx Hy -> [H1 H2 H3]. pose proof Hok as [(B1 & B2 & _) [Hap Hok2]]%extents_cons.
  destruct (write_extent m e es o x Hok Ho ltac:(lia)) as (E1 & E2 & E3 & _ & E5). pose proof (content_length m es e Hok) as Hlen.
  pose proof (contents_length m es Hok2) as Hlen2. constructor; [congruence| |].
  - rewrite !contents_cons. rewrite inserts_app_both by lia. rewrite H2, E2. rewrite <- E1. f_equal.
    apply content_ext; [done|done|]. intros a Ha. apply H3; [unfold in_extent in Ha; lia|]. by apply apart_outside with (e := e).
  - intros a Ha Hn. rewrite H3; [|done|intros e' He'; apply Hn; by right]. apply E5; [done|]. apply Hn. by left.
Qed.

Lemma written_skip m m' e es o x : extents_ok m (e :: es) -> e.(Length) <= o -> o - e.(Length) + Z.of_nat (length x) <= total es \/ x = [] ->
  written m m' es (o - e.(Length)) x -> written m m' (e :: es) o x.
Proof.
  intros Hok Ho Hx [H1 H2 H3]. pose proof Hok as [(B1 & B2 & _) [Hap Hok2]]%extents_cons. pose proof (content_length m es e Hok) as Hlen.
  pose proof (contents_length m es Hok2) as Hlen2. constructor; [done| |].
  - rewrite !contents_cons, H2. rewrite (content_ext m m' e); [|done|done|].
    + destruct Hx as [Hx| ->]; [|done]. rewrite inserts_app_second by lia. do 2 f_equal. lia.
    + intros a Ha. apply H3; [unfold in_extent in Ha; lia|]. by apply apart_outside with (e := e).
  - intros a Ha Hn. apply H3; [done|]. intros e' He'. apply Hn. by right.
Qed.

Lemma written_one m e es o x : extents_ok m (e :: es) -> 0 <= o -> o + Z.of_nat (length x) <= e.(Length) ->
  written m (list_inserts (Z.to_nat (e.(Start) + o)) x m) (e :: es) o x.
Proof.
  intros Hok Ho Hx. destruct (write_extent m e es o x Hok Ho Hx) as (E1 & E2 & E3 & _ & E5). pose proof (content_length m es e Hok) as Hlen.
  constructor; [done| |].
  - rewrite !contents_cons, E1, E2. by rewrite inserts_app_first by lia.
  - intros a Ha Hn. apply E5; [done|]. apply Hn. by left.
Qed.

Lemma write_walk debug t Buffer : length t.(Extents) = Z.to_nat APPLE_RAM_DISK_MAX_EXTENTS -> 0 <= t.(ExtentCount) <= APPLE_RAM_DISK_MAX_EXTENTS ->
  forall es fuel Index Cur Off Sz pos m, 0 <= Index -> drop (Z.to_nat Index) (used t) = es -> extents_ok m es ->
  0 <= Cur <= Off -> Off + Sz < 2 ^ 64 -> 0 < Sz -> Cur + total es < 2 ^ 64 -> 0 <= pos -> pos + Sz <= Z.of_nat (length Buffer) -> (length es < fuel)%nat ->
  exists m', while_ fuel (TransferStep debug (fun o a n m => CopyMem m a Buffer o n) t) (Index, Cur, Off, Sz, pos, m)
  = Ret (bool_decide (Off - Cur + Sz <= total es), m')
  /\ written m m' es (Off - Cur) (slice Buffer pos (Z.min Sz (Z.max 0 (total es - (Off - Cur))))).
Proof.
  intros HL HC. induction es as [|e es IH]; intros fuel Index Cur Off Sz pos m HI Hdrop Hok HCur HOff HSz Htot Hpos HB Hfuel;
    (destruct fuel as [|fuel]; [cbn in Hfuel; lia|]); rewrite while_S.
  - pose proof (extents_end t Index HL HC HI Hdrop). cbn [TransferStep]. rewrite decide_False by lia. cbn [mbind outcome_bind]. cbn [total foldr].
    rewrite bool_decide_eq_false_2 by lia. eexists. split; [done|]. replace (Z.min Sz _) with 0 by lia. by constructor.
  - rewrite (TransferStep_spec debug _ m t es Index Cur Off Sz pos m e) by (done || lia). pose proof Hok as [(H1 & H2 & H3 & H4) [_ Hok2]]%extents_cons.
    pose proof (total_nonneg m es Hok2) as Hn. change (total (e :: es)) with (e.(Length) + total es) in *.
    pose proof (drop_next _ _ _ _ HI Hdrop) as Hdrop2. cbn [length] in Hfuel. case_decide as Hin.
    + cbv zeta. set (n := Z.min (Length e - (Off - Cur)) Sz) in *. rewrite CopyMem_in by lia. cbn [mbind outcome_bind].
      set (m1 := list_inserts _ _ m). assert (length (slice Buffer pos n) = Z.to_nat n) as Hsl by (apply slice_length; lia).
      case_decide as Hn2.
      * rewrite bool_decide_eq_true_2 by lia. eexists. split; [done|]. replace (Z.min Sz _) with n by lia. apply written_one; (done || lia).
      * destruct (write_extent m e es (Off - Cur) (slice Buffer pos n) Hok ltac:(lia) ltac:(lia)) as (_ & _ & E3 & E4 & _). fold m1 in E3, E4.
        apply extents_cons in E4 as [_ [_ Hok3]].
        destruct (IH fuel (Index + 1) (Cur + Length e) (Off + n) (Sz - n) (pos + n) m1) as (m' & -> & HW); [done || lia..|].
        exists m'. split; [do 2 f_equal; apply bool_decide_ext; lia|].
        replace (Off + n - (Cur + Length e)) with 0 in HW by lia.
        replace (Z.min Sz (Z.max 0 (Length e + total es - (Off - Cur)))) with (n + Z.min (Sz - n) (Z.max 0 (total es - 0))) by lia.
        rewrite slice_add by lia. apply written_cons with (m1 := m1); try done; [lia|lia|]. unfold slice. rewrite length_take. lia.
    + cbn [mbind outcome_bind]. destruct (IH fuel (Index + 1) (Cur + Length e) Off Sz pos m) as (m' & -> & HW); [done || lia..|].
      exists m'. split; [do 2 f_equal; apply bool_decide_ext; lia|].
      replace (Off - (Cur + Length e)) with (Off - Cur - Length e) in HW by lia.
      replace (total es - (Off - Cur - Length e)) with (Length e + total es - (Off - Cur)) in HW by lia.
      apply written_skip; [done|lia| |done].
      destruct (decide (Length e + total es <= Off - Cur)); [right; by replace (Z.min Sz _) with 0 by lia|left; unfold slice; rewrite length_take; lia].
Qed.

(** ** Loading a file *)

(** UEFI specification of the file protocol, for a file with the content [data]:
    the bytes that a read after [SetPosition] stores are those from that position on. *)
Class FileLaws (F : FileProtocol) (data : list Z) : Prop := {
  read_at f p St1 f1 n St2 bs f2 :
    SetPosition f p = (St1, f1) -> EFI_ERROR St1 = false -> Read f1 n = (St2, bs, f2) -> EFI_ERROR St2 = false -> 0 <= p ->
    bs = slice data p (Z.of_nat (length bs))
}.

Lemma extents_same m m' es : length m' = length m -> extents_ok m es -> extents_ok m' es.
Proof. intros E [H1 H2 H3]. constructor; by rewrite ?E. Qed.

Lemma written_refl m es o : written m m es o [].
Proof. by constructor. Qed.

Lemma written_app m m1 m' es o x y : extents_ok m es -> 0 <= o -> o + Z.of_nat (length x) + Z.of_nat (length y) <= total es ->
  written m m1 es o x -> written m1 m' es (o + Z.of_nat (length x)) y -> written m m' es o (x ++ y).
Proof.
  intros Hok Ho Hl [H1 H2 H3] [H4 H5 H6]. pose proof (contents_length m es Hok). constructor; [congruence| |].
  - rewrite H5, H2. replace (Z.to_nat (o + Z.of_nat (length x))) with (Z.to_nat o + length x)%nat by lia. apply inserts_inserts. lia.
  - intros a Ha Hn. rewrite H6, H3; done.
Qed.

Lemma written_seq m m1 m' e es x y : extents_ok m (e :: es) -> Z.of_nat (length x) = e.(Length) -> Z.of_nat (length y) <= total es ->
  written m m1 (e :: es) 0 x -> written m1 m' es 0 y -> written m m' (e :: es) 0 (x ++ y).
Proof.
  intros Hok Hx Hy [H1 H2 H3] [H4 H5 H6]. pose proof Hok as [(B1 & B2 & _) [Hap Hok2]]%extents_cons.
  pose proof (extents_same m m1 _ H1 Hok) as Hok1. pose proof (content_length m es e Hok) as Hlen. pose proof (content_length m1 es e Hok1) as Hlen1.
  pose proof (contents_length m es Hok2) as Hlen2. constructor; [congruence| |].
  - rewrite !contents_cons in *. rewrite inserts_app_first in H2 by lia. apply app_inj_1 in H2 as [E1 E2]; [|rewrite length_inserts; lia].
    rewrite H5, E2. rewrite inserts_app_both by lia. rewrite <- E1. f_equal.
    apply content_ext; [done|done|]. intros a Ha. apply H6; [unfold in_extent in Ha; lia|]. by apply apart_outside with (e := e).
  - intros a Ha Hn. rewrite H6; [|done|intros e' He'; apply Hn; by right]. by apply H3.
Qed.

(** [m'] is [m] outside of the extents. *)
Definition untouched (m m' : list Z) (es : list APPLE_RAM_DISK_EXTENT) : Prop :=
  length m' = length m /\ forall a, 0 <= a -> (forall e, e ∈ es -> ~ in_extent e a) -> m' !! Z.to_nat a = m !! Z.to_nat a.

Lemma written_untouched m m' es o x : written m m' es o x -> untouched m m' es.
Proof. by intros [H1 _ H3]. Qed.

Lemma untouched_trans m m1 m' es : untouched m m1 es -> untouched m1 m' es -> untouched m m' es.
Proof. intros [H1 H2] [H3 H4]. split; [congruence|]. intros a Ha Hn. rewrite H4, H2; done. Qed.

Lemma untouched_cons m m' e es : untouched m m' es -> untouched m m' (e :: es).
Proof. intros [H1 H2]. split; [done|]. intros a Ha Hn. apply H2; [done|]. intros e' He'. apply Hn. by right. Qed.

Section Load.
Context `{HF : FileProtocol} (data : list Z) `{!FileLaws HF data}.

Lemma load_extent m0 e es : extents_ok m0 (e :: es) -> forall fuel f m FP FS o,
  extents_ok m (e :: es) -> 0 <= o <= e.(Length) -> 0 <= FP -> 0 <= FS -> FP + FS < 2 ^ 64 -> (1 <= fuel)%nat ->
  (0 < FS -> o < e.(Length) -> (e.(Length) - o) / BASE_4MB + 1 < Z.of_nat fuel) ->
  exists f' m' FP' FS' ok, while_ fuel LoadStep (f, m, FP, FS, e.(Start) + o, e.(Length) - o) = Ret (f', m', FP', FS', ok)
  /\ untouched m m' (e :: es)
  /\ (ok = true -> exists xs, let k := Z.min FS (e.(Length) - o) in Z.of_nat (length xs) = k /\ xs = slice data FP k
       /\ FP' = FP + k /\ FS' = FS - k /\ written m m' (e :: es) o xs).
Proof using FileLaws0.
  intros _. induction fuel as [|fuel IH]; intros f m FP FS o Hok Ho HFP HFS Hmax Hf1 Hf2; [lia|]. rewrite while_S.
  pose proof Hok as [(B1 & B2 & B3 & B4) [Hap Hok2]]%extents_cons. cbn [LoadStep]. case_decide as Hgo.
  2: { cbn [mbind outcome_bind]. eexists _, _, _, _, _. split; [done|]. split; [done|]. intros _. exists []. replace (Z.min FS (Length e - o)) with 0 by lia.
       cbn. split; [done|]. split; [done|]. split; [lia|]. split; [lia|]. apply written_refl. }
  destruct (SetPosition f FP) as [St1 f1] eqn:E1. destruct (EFI_ERROR St1) eqn:EE1; [cbn [mbind outcome_bind]; eexists _, _, _, _, _; split; [done|]; split; [done|done]|].
  set (n := Z.min (Z.min BASE_4MB FS) (Length e - o)) in *. destruct (Read f1 n) as [[St2 bs] f2] eqn:E2.
  case_decide as Hbad; [cbn [mbind outcome_bind]; eexists _, _, _, _, _; split; [done|]; split; [done|done]|].
  assert (EFI_ERROR St2 = false /\ n = Z.of_nat (length bs)) as [EE2 Hn] by (destruct (EFI_ERROR St2); [tauto|split; [done|lia]]).
  pose proof (read_at f FP St1 f1 n St2 bs f2 E1 EE1 E2 EE2 HFP) as Hbs. rewrite <- Hn in *.
  unfold BASE_4MB in *. assert (0 < n <= Length e - o) as Hn2 by lia.
  rewrite wr_slice_in by lia. cbn [mbind outcome_bind]. set (m1 := list_inserts (Z.to_nat (Start e + o)) bs m).
  rewrite !wrap_small by lia. pose proof (written_one m e es o bs Hok ltac:(lia) ltac:(lia)) as HW1. fold m1 in HW1.
  pose proof (extents_same m m1 _ (written_length _ _ _ _ _ HW1) Hok) as Hok1.
  destruct (IH f2 m1 (FP + n) (FS - n) (o + n) Hok1) as (f' & m' & FP' & FS' & ok & EQ & HU & HS); [lia|lia|lia|lia| | |].
  - assert (0 <= (Length e - o) / 4194304) by (apply Z.div_pos; lia). lia.
  - intros H3 H4. assert (n = 4194304) as Hn3 by lia. rewrite Hn3. replace (Length e - (o + 4194304)) with (Length e - o + (-1) * 4194304) by lia.
    rewrite Z.div_add by lia. lia.
  - replace (Start e + o + n) with (Start e + (o + n)) by lia. replace (Length e - o - n) with (Length e - (o + n)) by lia. rewrite EQ.
    eexists _, _, _, _, _. split; [done|]. split; [eapply untouched_trans; [by eapply written_untouched|done]|].
    intros ->. destruct (HS eq_refl) as (xs & Hl & Hx & -> & -> & HW). pose proof (total_nonneg _ _ Hok2) as Htn. exists (bs ++ xs). cbv zeta.
    rewrite length_app, Nat2Z.inj_add, <- Hn, Hl. split; [lia|]. split; [|split; [lia|split; [lia|]]].
    + replace (Z.min FS (Length e - o)) with (n + Z.min (FS - n) (Length e - (o + n))) by lia. rewrite slice_add by lia. by rewrite <- Hbs, <- Hx.
    + apply written_app with (m1 := m1); [done|lia| |done|by rewrite <- Hn]. change (total (e :: es)) with (e.(Length) + total es). lia.
Qed.

Lemma load_walk debug t : length t.(Extents) = Z.to_nat APPLE_RAM_DISK_MAX_EXTENTS -> 0 <= t.(ExtentCount) <= APPLE_RAM_DISK_MAX_EXTENTS ->
  forall es fuel Index f m FP FS, 0 <= Index -> drop (Z.to_nat Index) (used t) = es -> extents_ok m es ->
  0 <= FP -> 0 <= FS -> FP + FS < 2 ^ 64 -> (length es < fuel)%nat ->
  exists f' m' FP' FS' ok, while_ fuel (LoadExtent debug t) (Index, (f, m, FP, FS)) = Ret (f', m', FP', FS', ok)
  /\ untouched m m' es
  /\ (ok = true -> exists xs, let k := Z.min FS (total es) in Z.of_nat (length xs) = k /\ xs = slice data FP k /\ FS' = FS - k /\ written m m' es 0 xs).
Proof using FileLaws0.
  intros HL HC. induction es as [|e es IH]; intros fuel Index f m FP FS HI Hdrop Hok HFP HFS Hmax Hfuel;
    (destruct fuel as [|fuel]; [cbn in Hfuel; lia|]); rewrite while_S.
  - pose proof (extents_end t Index HL HC HI Hdrop). cbn [LoadExtent]. rewrite decide_False by lia. cbn [mbind outcome_bind].
    eexists _, _, _, _, _. split; [done|]. split; [done|]. intros _. exists []. cbn [total foldr]. replace (Z.min FS 0) with 0 by lia. cbn.
    split; [done|]. split; [done|]. split; [lia|]. apply written_refl.
  - pose proof Hok as [(B1 & B2 & B3 & B4) [Hap Hok2]]%extents_cons. pose proof (total_nonneg m es Hok2) as Htn.
    change (total (e :: es)) with (e.(Length) + total es) in *. cbn [length] in Hfuel. cbn [LoadExtent].
    assert (used t !! Z.to_nat Index = Some e) as Hl by (apply (f_equal (fun l => l !! 0%nat)) in Hdrop; rewrite lookup_drop, Nat.add_0_r in Hdrop; done).
    destruct (used_lookup t Index e HI Hl) as [HI2 Hrd]. case_decide as Hgo.
    2: { cbn [mbind outcome_bind]. eexists _, _, _, _, _. split; [done|]. split; [done|]. intros _. exists []. replace (Z.min FS _) with 0 by lia. cbn.
         split; [done|]. split; [done|]. split; [lia|]. apply written_refl. }
    rewrite Hrd. cbn [mbind outcome_bind]. unfold MAX_UINT64, APPLE_RAM_DISK_MAX_EXTENTS in *. rewrite !assert_holds by (apply bool_decide_eq_true_2; lia). cbn [mbind outcome_bind].
    rewrite (wrap_small 32) by lia.
    destruct (load_extent m e es Hok (S (S (Z.to_nat (Length e / BASE_4MB)))) f m FP FS 0) as (f1 & m1 & FP1 & FS1 & ok & EQ & HU & HS); try done; [lia| |].
    + intros _ _. rewrite Z.sub_0_r. assert (0 <= Length e / BASE_4MB) by (apply Z.div_pos; unfold BASE_4MB; lia). lia.
    + rewrite Z.add_0_r, Z.sub_0_r in EQ. rewrite EQ. cbn [mbind outcome_bind]. destruct ok.
      2: { cbn. eexists _, _, _, _, _. split; [done|]. by split. }
      destruct (HS eq_refl) as (xs & Hlx & Hx & -> & -> & HW). rewrite Z.sub_0_r in *.
      pose proof (extents_same m m1 _ (written_length _ _ _ _ _ HW) Hok2) as Hok3.
      destruct (IH fuel (Index + 1) f1 m1 (FP + Z.min FS (Length e)) (FS - Z.min FS (Length e))) as (f2 & m2 & FP2 & FS2 & ok & EQ2 & HU2 & HS2);
        [lia|by apply drop_next with e|done|lia|lia|lia|lia|].
      cbn [mbind outcome_bind]. exists f2, m2, FP2, FS2, ok. split; [exact EQ2|]. split; [eapply untouched_trans; [done|by apply untouched_cons]|].
      intros ->. destruct (HS2 eq_refl) as (ys & Hly & Hy & -> & HW2). exists (xs ++ ys). cbv zeta. rewrite length_app, Nat2Z.inj_add, Hlx, Hly.
      split; [lia|]. split; [|split; [lia|]].
      * replace (Z.min FS (Length e + total es)) with (Z.min FS (Length e) + Z.min (FS - Z.min FS (Length e)) (total es)) by lia.
        rewrite slice_add by lia. by rewrite <- Hx, <- Hy.
      * destruct (decide (Length e <= FS)) as [Hle|Hle].
        -- apply written_seq with (m1 := m1); try done; lia.
        -- assert (ys = []) as -> by (destruct ys; [done|cbn in Hly; lia]). rewrite app_nil_r. destruct HW2 as [W1 W2 W3].
           destruct HW as [V1 V2 V3]. cbn in W2. pose proof (extents_same m m1 _ V1 Hok) as Hok4.
           assert (contents m2 (e :: es) = contents m1 (e :: es)) as EC.
           { rewrite !contents_cons, W2. f_equal. apply content_ext; [done|done|]. intros a Ha. apply W3; [unfold in_extent in Ha; lia|]. by apply apart_outside with (e := e). }
           constructor; [congruence|congruence|]. intros a Ha Hn. rewrite W3; [|done|intros e' He'; apply Hn; by right]. by apply V3.
Qed.

End Load.

(** ** Allocation *)

Definition page_bytes (n : Z) : Z := (n + (PAGE - 1)) / PAGE * PAGE.
(** The pages of an extent. *)
Definition pages_of_extent (e : APPLE_RAM_DISK_EXTENT) : APPLE_RAM_DISK_EXTENT := Extent e.(Start) (page_bytes e.(Length)).

(** UEFI specification of the page services: [owned] are the addresses in pages
    that were allocated and not freed. They are memory, an allocation takes pages
    that are not allocated, and pool memory does not change the others. *)
Class PageLaws (F : Firmware) : Type := {
  owned : Fw -> Z -> Prop;
  MemorySize : Z;
  MemorySize_64 : MemorySize < 2 ^ 64;
  owned_memory fw x : owned fw x -> 0 <= x < MemorySize;
  allocated fw ty n a St fw' : AllocateAddress fw ty n a = (St, fw') -> 0 < n -> (PAGE | a) ->
    if EFI_ERROR St then forall x, owned fw' x <-> owned fw x
    else (forall x, owned fw' x <-> owned fw x \/ a <= x < a + n * PAGE) /\ (forall x, a <= x < a + n * PAGE -> ~ owned fw x);
  freed fw a n x : (PAGE | a) -> 0 < n -> (forall y, a <= y < a + n * PAGE -> owned fw y) -> (owned (FreePages fw a n) x <-> owned fw x /\ ~ a <= x < a + n * PAGE);
  pool_allocated fw n b fw' x : AllocatePool fw n = Some (b, fw') -> (owned fw' x <-> owned fw x);
  pool_freed fw b x : owned (FreePool fw b) x <-> owned fw x
}.

(** The areas of a RAM disk: the page of the table and the pages of the extents. *)
Definition areas (p : Z) (t : APPLE_RAM_DISK_EXTENT_TABLE) : list APPLE_RAM_DISK_EXTENT := Extent p PAGE :: (pages_of_extent <$> used t).
Definition in_areas (p : Z) (t : APPLE_RAM_DISK_EXTENT_TABLE) (x : Z) : Prop := exists e, e ∈ areas p t /\ in_extent e x.

(** A table at [p] with [n] bytes of extents that was allocated after [fw0]. *)
Record allocated_disk `{PageLaws} (fw0 fw : Fw) (m : list Z) (p : Z) (t : APPLE_RAM_DISK_EXTENT_TABLE) (n : Z) : Prop := AllocatedDisk {
  ad_disk : disk_ok m t;
  ad_total : total (used t) = n;
  ad_apart : StronglySorted apart (areas p t);
  ad_first : exists e es, used t = e :: es /\ e.(Start) = p + PAGE;
  ad_owned : forall x, owned fw x <-> owned fw0 x \/ in_areas p t x;
  ad_new : forall x, in_areas p t x -> ~ owned fw0 x;
  ad_positive : Forall (fun e => 0 < e.(Length)) (used t);
  ad_aligned : (PAGE | p) /\ Forall (fun e => (PAGE | e.(Start))) (used t)
}.

Lemma page_bytes_ge n : 0 <= n -> n <= page_bytes n < n + PAGE.
Proof.
  intros Hn. unfold page_bytes, PAGE. pose proof (Z.div_mod (n + (2 ^ 12 - 1)) (2 ^ 12) ltac:(lia)). pose proof (Z.mod_pos_bound (n + (2 ^ 12 - 1)) (2 ^ 12) ltac:(lia)). lia.
Qed.

Lemma page_bytes_id n : 0 <= n -> (PAGE | n) -> page_bytes n = n.
Proof. intros Hn [q ->]. pose proof (page_bytes_ge (q * PAGE) Hn) as H. unfold page_bytes in *. unfold PAGE in *. nia. Qed.

Lemma size_pages n : 0 <= n < 2 ^ 64 - PAGE -> EFI_SIZE_TO_PAGES n * PAGE = page_bytes n.
Proof. intros Hn. unfold page_bytes. by rewrite to_pages. Qed.

Lemma pages_size n : 0 <= n < 2 ^ 64 - PAGE -> EFI_PAGES_TO_SIZE (EFI_SIZE_TO_PAGES n) = page_bytes n.
Proof.
  intros Hn. pose proof (page_bytes_ge n ltac:(lia)). rewrite size_pages_range; [by apply size_pages| |]; rewrite ?size_pages by done; [|lia].
  rewrite to_pages by done. apply Z.div_pos; unfold PAGE; lia.
Qed.

(** *** The search for the biggest entry *)

(** A free descriptor in the range. *)
Definition candidate (BaseAddress : Z) (d : EFI_MEMORY_DESCRIPTOR) : Prop := Type_ d = EfiConventionalMemory /\ BaseAddress <= PhysicalStart d.
#[export] Instance candidate_dec b d : Decision (candidate b d).
Proof. unfold candidate. apply _. Defined.

(** Descriptors below the top of the search. *)
Definition low_desc (d : EFI_MEMORY_DESCRIPTOR) : Prop := 0 <= PhysicalStart d /\ 0 <= NumberOfPages d /\ PhysicalStart d < BASE_8EB /\ desc_end d <= BASE_8EB.

Definition biggest_so_far (DS BaseAddress : Z) (Map : list slot) (k : nat) (o : option Z) (sz : Z) : Prop :=
  match o with
  | None => sz = 0 /\ forall j s, (j < k)%nat -> Map !! j = Some s -> ~ candidate BaseAddress (Desc s)
  | Some p => exists i s, (i < k)%nat /\ p = Z.of_nat i * DS /\ Map !! i = Some s /\ candidate BaseAddress (Desc s) /\ sz = NumberOfPages (Desc s) * PAGE
      /\ forall j s', (j < k)%nat -> Map !! j = Some s' -> candidate BaseAddress (Desc s') -> NumberOfPages (Desc s') * PAGE <= sz
  end.

Lemma Biggest_spec DS BaseAddress Map : 0 < DS -> Forall (fun s => low_desc (Desc s)) Map ->
  exists o sz, while_ (S (length Map)) (BiggestStep BaseAddress BASE_8EB DS (Z.of_nat (length Map) * DS) Map) (0, None, 0) = Ret (o, sz)
  /\ biggest_so_far DS BaseAddress Map (length Map) o sz.
Proof.
  intros HDS Hlow.
  destruct (while_total (BiggestStep BaseAddress BASE_8EB DS (Z.of_nat (length Map) * DS) Map)
    (fun s : Z * option Z * Z => exists k, (k <= length Map)%nat /\ s.1.1 = Z.of_nat k * DS /\ biggest_so_far DS BaseAddress Map k s.1.2 s.2)
    (fun s : Z * option Z * Z => Z.to_nat (Z.of_nat (length Map) - s.1.1 / DS))
    (fun r : option Z * Z => biggest_so_far DS BaseAddress Map (length Map) r.1 r.2)) with (fuel := S (length Map)) (s := (0, @None Z, 0)) as ([o sz] & E & HQ).
  - intros [[p o] sz] (k & Hk & Ep & Hb). cbn [fst snd] in *. subst p. unfold BiggestStep. destruct (decide (k = length Map)) as [->|Hne].
    { rewrite decide_False by lia. by eexists. }
    rewrite decide_True by nia. destruct (lookup_lt_is_Some_2 Map k) as [s Hs]; [lia|].
    rewrite (rd_desc_at _ HDS _ (Z.of_nat k) s) by (rewrite ?Nat2Z.id; done || lia). cbn [mbind outcome_bind].
    pose proof (Forall_lookup_1 _ _ _ _ Hlow Hs) as (L1 & L2 & L3 & L4). unfold desc_end, BASE_8EB in *. set (d := Desc s) in *.
    assert (forall o' sz', biggest_so_far DS BaseAddress Map (S k) o' sz' ->
      (exists k', (k' <= length Map)%nat /\ NEXT_MEMORY_DESCRIPTOR (Z.of_nat k * DS) DS = Z.of_nat k' * DS /\ biggest_so_far DS BaseAddress Map k' o' sz')
      /\ (Z.to_nat (Z.of_nat (length Map) - NEXT_MEMORY_DESCRIPTOR (Z.of_nat k * DS) DS / DS) < Z.to_nat (Z.of_nat (length Map) - Z.of_nat k * DS / DS))%nat) as Hnext.
    { intros o' sz' HB. unfold NEXT_MEMORY_DESCRIPTOR. replace (Z.of_nat k * DS + DS) with (Z.of_nat (S k) * DS) by lia. rewrite !Z.div_mul by lia.
      split; [exists (S k); split; [lia|done]|lia]. }
    assert (forall j s', (j < S k)%nat -> Map !! j = Some s' -> (j < k)%nat \/ s' = s) as Hj.
    { intros j s' Hj Hs'. destruct (decide (j = k)) as [->|]; [right; congruence|left; lia]. }
    destruct (decide (candidate BaseAddress d)) as [Hc|Hc].
    + destruct Hc as [C1 C2]. rewrite decide_False by lia. unfold PAGE in *. rewrite size_pages_range by (unfold PAGE; lia). unfold PAGE.
      rewrite (wrap_small 64 (PhysicalStart d + NumberOfPages d * 2 ^ 12)) by lia.
      rewrite !(decide_False (P := 2 ^ 63 < PhysicalStart d + NumberOfPages d * 2 ^ 12)) by lia.
      case_decide as Hbig; (eexists; split; [done|]); cbn [fst snd]; apply Hnext.
      * exists k, s. split; [lia|]. split; [done|]. split; [done|]. split; [done|]. split; [done|]. intros j s' Hj1 Hs' Hc'.
        destruct (Hj j s' Hj1 Hs') as [Hj2| ->]; [|done]. destruct o as [o|]; cbn in Hb.
        -- destruct Hb as (i & si & _ & _ & _ & _ & -> & Hmax). specialize (Hmax j s' Hj2 Hs' Hc'). unfold PAGE in *. destruct Hbig; [done|lia].
        -- by destruct (proj2 Hb j s' Hj2 Hs').
      * destruct o as [o|]; [|tauto]. destruct Hb as (i & si & Hi & Ho & Hsi & Hci & -> & Hmax). exists i, si. split; [lia|]. split; [done|]. split; [done|]. split; [done|].
        split; [done|]. intros j s' Hj1 Hs' Hc'. destruct (Hj j s' Hj1 Hs') as [Hj2| ->]; [by apply (Hmax j)|]. unfold PAGE in *. fold d. lia.
    + rewrite decide_True by (unfold candidate in Hc; lia). eexists. split; [done|]. cbn [fst snd]. apply Hnext.
      destruct o as [o|]; cbn in Hb |- *.
      * destruct Hb as (i & si & Hi & Ho & Hsi & Hci & -> & Hmax). exists i, si. split; [lia|]. repeat (split; [done|]).
        intros j s' Hj1 Hs' Hc'. destruct (Hj j s' Hj1 Hs') as [Hj2| ->]; [by apply (Hmax j)|done].
      * split; [tauto|]. intros j s' Hj1 Hs'. destruct (Hj j s' Hj1 Hs') as [Hj2| ->]; [by apply (proj2 Hb j)|done].
  - cbn. exists 0%nat. split; [lia|]. split; [done|]. split; [done|]. intros j s Hj. lia.
  - cbn. rewrite Z.div_0_l by lia. lia.
  - by exists o, sz.
Qed.

(** *** One allocation *)

Lemma apart_disjoint e e' : 0 < e.(Length) -> 0 < e'.(Length) -> (forall x, in_extent e x -> ~ in_extent e' x) -> apart e e'.
Proof.
  intros H1 H2 H. unfold apart, in_extent in *. destruct (decide (Start e <= Start e')).
  - left. destruct (decide (Start e + Length e <= Start e')); [done|]. exfalso. apply (H (Start e')); lia.
  - right. destruct (decide (Start e' + Length e' <= Start e)); [done|]. exfalso. apply (H (Start e)); lia.
Qed.

Lemma pages_positive e : 0 < e.(Length) -> 0 < (pages_of_extent e).(Length).
Proof. intros H. cbn. pose proof (page_bytes_ge (Length e) ltac:(lia)). lia. Qed.

Lemma sorted_snoc {A} (R : A -> A -> Prop) l x : StronglySorted R l -> Forall (fun y => R y x) l -> StronglySorted R (l ++ [x]).
Proof.
  induction 1 as [|y l Hl IH Hy]; intros HF; cbn [app]; [by repeat constructor|]. apply Forall_cons in HF as [H1 H2]. constructor; [by apply IH|].
  apply Forall_app. split; [done|]. by constructor.
Qed.

(** The extents are inside their pages. *)
Lemma areas_extents m p t : Z.of_nat (length m) < 2 ^ 64 -> Forall (fun e => 0 < e.(Length)) (used t) -> StronglySorted apart (areas p t) ->
  (forall x, in_areas p t x -> 0 <= x < Z.of_nat (length m)) -> extents_ok m (used t).
Proof.
  intros Hm Hpos [Hs _]%StronglySorted_inv Hin. constructor; [done| |].
  - apply Forall_forall. intros e He. rewrite Forall_forall in Hpos. specialize (Hpos e He). pose proof (page_bytes_ge (Length e) ltac:(lia)).
    assert (forall x, in_extent (pages_of_extent e) x -> 0 <= x < Z.of_nat (length m)) as Hx.
    { intros x Hx. apply Hin. exists (pages_of_extent e). split; [right; by apply list_elem_of_fmap_2|done]. }
    pose proof (Hx (Start e)) as X1. pose proof (Hx (Start e + Length e - 1)) as X2. unfold in_extent in *. cbn in *. lia.
  - clear Hin. induction (used t) as [|e es IH]; [constructor|]. apply Forall_cons in Hpos as [He Hpos]. cbn in Hs. apply StronglySorted_inv in Hs as [Hs1 Hs2].
    constructor; [by apply IH|]. rewrite Forall_forall in Hpos |- *. intros e' He'. specialize (Hpos e' He'). rewrite Forall_fmap, Forall_forall in Hs2.
    specialize (Hs2 e' He'). pose proof (page_bytes_ge (Length e) ltac:(lia)). pose proof (page_bytes_ge (Length e') ltac:(lia)). unfold apart in *. cbn in *. lia.
Qed.

Lemma extents_total_app es e : total (es ++ [e]) = total es + e.(Length).
Proof. induction es as [|e' es IH]; cbn [app]; [cbn; lia|]. change (Length e' + total (es ++ [e]) = Length e' + total es + Length e). lia. Qed.

(** The header of a table. *)
Definition table_ok (t : APPLE_RAM_DISK_EXTENT_TABLE) : Prop :=
  (t.(Signature) = APPLE_RAM_DISK_EXTENT_SIGNATURE /\ t.(Version) = APPLE_RAM_DISK_EXTENT_VERSION
   /\ t.(Reserved) = 0 /\ t.(Signature2) = APPLE_RAM_DISK_EXTENT_SIGNATURE)
  /\ 0 <= t.(ExtentCount) <= APPLE_RAM_DISK_MAX_EXTENTS /\ length t.(Extents) = Z.to_nat APPLE_RAM_DISK_MAX_EXTENTS.

Lemma NewTable_ok : table_ok NewTable.
Proof. by vm_compute. Qed.

Lemma AppendExtent_spec t e : table_ok t -> t.(ExtentCount) < APPLE_RAM_DISK_MAX_EXTENTS ->
  exists t', AppendExtent t e = Ret t' /\ table_ok t' /\ t'.(ExtentCount) = t.(ExtentCount) + 1 /\ used t' = used t ++ [e].
Proof.
  intros [Hf [Hc Hl]] Hlt. unfold AppendExtent, APPLE_RAM_DISK_MAX_EXTENTS in *. rewrite wr_in by lia. cbn [mbind outcome_bind]. rewrite wrap_small by lia.
  eexists. split; [done|]. split; [|split; [done|]].
  - split; [done|]. unfold APPLE_RAM_DISK_MAX_EXTENTS. cbn [ExtentCount Extents]. split; [lia|]. by rewrite length_insert.
  - unfold used. cbn [ExtentCount Extents]. replace (Z.to_nat (ExtentCount t + 1)) with (S (Z.to_nat (ExtentCount t))) by lia.
    rewrite (take_S_r _ _ e) by (apply list_lookup_insert_eq; lia). by rewrite take_insert_ge by lia.
Qed.

Section Alloc.
Context `{Firm : Firmware} `{HL : !PageLaws Firm}.

(** An extent of [n] bytes whose pages are new. *)
Definition new_pages (fw fw' : Fw) (a n : Z) : Prop :=
  (forall x, owned fw' x <-> owned fw x \/ a <= x < a + page_bytes n) /\ (forall x, a <= x < a + page_bytes n -> ~ owned fw x).

Lemma zero_area m fw fw' a n : Z.of_nat (length m) = MemorySize -> 0 < n < 2 ^ 64 - PAGE -> new_pages fw fw' a n ->
  exists m', ZeroMem m a (EFI_PAGES_TO_SIZE (EFI_SIZE_TO_PAGES n)) = Ret m' /\ length m' = length m /\ 0 <= a /\ a + page_bytes n <= MemorySize.
Proof using HL.
  intros Hm Hn [H1 H2]. rewrite pages_size by lia. pose proof (page_bytes_ge n ltac:(lia)) as Hp.
  assert (forall x, a <= x < a + page_bytes n -> 0 <= x < MemorySize) as Hx by (intros x Hx; apply (owned_memory fw'), H1; by right).
  pose proof (Hx a ltac:(lia)). pose proof (Hx (a + page_bytes n - 1) ltac:(lia)). rewrite ZeroMem_in by lia.
  eexists. split; [done|]. rewrite length_inserts. lia.
Qed.

Lemma add_first debug m fw0 fw fw' a n : Z.of_nat (length m) = MemorySize -> PAGE < n < 2 ^ 63 + 1 -> (forall x, owned fw x <-> owned fw0 x) -> new_pages fw fw' a n -> (PAGE | a) ->
  exists m' t, InternalAddAllocatedArea debug m None a n = Ret (m', Some (a, t)) /\ length m' = length m
  /\ table_ok t /\ t.(ExtentCount) = 1 /\ allocated_disk fw0 fw' m' a t (n - PAGE).
Proof using HL.
  intros Hm Hn Hown Hnew Hal. destruct (zero_area m fw fw' a n Hm ltac:(unfold PAGE in *; lia) Hnew) as (m' & E & Hl & Ha1 & Ha2). pose proof MemorySize_64 as H64.
  pose proof (page_bytes_ge n ltac:(unfold PAGE in *; lia)) as Hp. unfold InternalAddAllocatedArea.
  assert (0 <= wrap 64 (wrap 64 (a + n) - 1) < 2 ^ 64) as Hw by (apply wrap_range; lia). unfold MAX_UINT64, EFI_PAGE_SIZE, PAGE in *.
  rewrite !assert_holds by (apply bool_decide_eq_true_2; lia). cbn [mbind outcome_bind]. rewrite E. cbn [mbind outcome_bind].
  rewrite (wrap_small 64 (a + 4096)), (wrap_small 64 (n - 4096)) by lia. rewrite decide_False by (intros [_ ?]; lia).
  destruct (AppendExtent_spec NewTable (Extent (a + 4096) (n - 4096)) NewTable_ok ltac:(done)) as (t & -> & Ht & Hc & Hu). cbn [mbind outcome_bind].
  exists m', t. split; [done|]. split; [done|]. split; [done|]. split; [done|].
  change (used NewTable) with (@nil APPLE_RAM_DISK_EXTENT) in Hu. cbn [app] in Hu.
  assert (page_bytes (n - 4096) = page_bytes n - 4096) as Epb.
  { unfold page_bytes, PAGE. replace (n - 4096 + (2 ^ 12 - 1)) with (n + (2 ^ 12 - 1) + (-1) * 2 ^ 12) by lia. rewrite Z.div_add by lia. lia. }
  assert (forall x, in_areas a t x <-> a <= x < a + page_bytes n) as Hin.
  { intros x. unfold in_areas, areas. rewrite Hu. unfold pages_of_extent. cbn [fmap list_fmap Start Length]. rewrite Epb. split.
    - intros (e & He & Hx). rewrite !elem_of_cons in He. unfold in_extent, PAGE in *. destruct He as [->|[->|He]]; [cbn in *; lia|cbn in *; lia|by apply not_elem_of_nil in He].
    - intros Hx. destruct (decide (x < a + 4096)); [exists (Extent a PAGE); split; [left|unfold in_extent, PAGE; cbn; lia]|].
      exists (Extent (a + 4096) (page_bytes n - 4096)). split; [right; left|unfold in_extent; cbn; lia]. }
  assert (Forall (fun e => 0 < Length e) (used t)) as Hpos by (rewrite Hu; constructor; [cbn; lia|constructor]).
  assert (StronglySorted apart (areas a t)) as Hs.
  { unfold areas. rewrite Hu. cbn. constructor; [by repeat constructor|]. constructor; [|constructor]. unfold apart, PAGE. cbn. lia. }
  destruct Hnew as [N1 N2]. constructor; [|rewrite Hu; cbn [total foldr Length]; lia|done| | | |done|rewrite Hu; split; [done|]; constructor; [apply Z.divide_add_r; [done|by exists 1]|constructor]].
  - destruct Ht as [T1 [T2 T3]]. constructor; [done|by rewrite Hc|done| |rewrite Hu; cbn [total foldr Length]; lia].
    apply areas_extents with (p := a); [lia|done|done|]. intros x Hx%Hin. lia.
  - eexists _, []. split; [exact Hu|]. cbn [Start]. unfold PAGE. lia.
  - intros x. rewrite Hin, N1, Hown. done.
  - intros x Hx%Hin. rewrite <- Hown. by apply N2.
Qed.

Lemma add_next debug m fw0 fw fw' p t a n k : Z.of_nat (length m) = MemorySize -> 0 < n < 2 ^ 63 + 1 -> (debug = true -> PAGE <= n) -> 0 <= k -> k + n < 2 ^ 64 ->
  allocated_disk fw0 fw m p t k -> t.(ExtentCount) < APPLE_RAM_DISK_MAX_EXTENTS -> new_pages fw fw' a n -> (PAGE | a) ->
  exists m' t', InternalAddAllocatedArea debug m (Some (p, t)) a n = Ret (m', Some (p, t')) /\ length m' = length m
  /\ t'.(ExtentCount) = t.(ExtentCount) + 1 /\ allocated_disk fw0 fw' m' p t' (k + n).
Proof using HL.
  intros Hm Hn Hdbg Hk Hmax [D1 D2 D3 D4 D5 D6 D7 D8] Hct Hnew Hal. pose proof MemorySize_64 as H64.
  destruct (zero_area m fw fw' a n Hm ltac:(unfold PAGE in *; lia) Hnew) as (m' & E & Hl & Ha1 & Ha2). pose proof (page_bytes_ge n ltac:(lia)) as Hp.
  unfold InternalAddAllocatedArea. assert (0 <= wrap 64 (wrap 64 (a + n) - 1) < 2 ^ 64) as Hw by (apply wrap_range; lia).
  rewrite (assert_holds debug (bool_decide (_ <= MAX_UINT64))) by (apply bool_decide_eq_true_2; unfold MAX_UINT64; lia). cbn [mbind outcome_bind].
  assert (MemoryAttributes.ASSERT debug (bool_decide (EFI_PAGE_SIZE <= n)) = Ret tt) as ->.
  { destruct debug; [|done]. apply assert_holds, bool_decide_eq_true_2. by apply Hdbg. }
  cbn [mbind outcome_bind]. rewrite E. cbn [mbind outcome_bind]. rewrite decide_False by (intros [? _]; done).
  destruct D1 as [O1 O2 O3 O4 O5]. destruct (AppendExtent_spec t (Extent a n)) as (t' & -> & Ht & Hc & Hu); [split; [done|split; [lia|done]]|done|]. cbn [mbind outcome_bind].
  exists m', t'. split; [done|]. split; [done|]. split; [done|]. destruct Hnew as [N1 N2].
  assert (areas p t' = areas p t ++ [pages_of_extent (Extent a n)]) as Har by (unfold areas; rewrite Hu, fmap_app; done).
  assert (forall x, in_areas p t' x <-> in_areas p t x \/ a <= x < a + page_bytes n) as Hin.
  { intros x. unfold in_areas. rewrite Har. setoid_rewrite elem_of_app. split.
    - intros (e & [He|He%list_elem_of_singleton] & Hx); [left; by exists e|right]. subst e. done.
    - intros [(e & He & Hx)|Hx]; [exists e; split; [by left|done]|]. exists (pages_of_extent (Extent a n)). split; [right; by apply list_elem_of_singleton|done]. }
  assert (Forall (fun e => 0 < Length e) (used t')) as Hpos by (rewrite Hu; apply Forall_app; split; [done|repeat constructor; cbn; lia]).
  assert (StronglySorted apart (areas p t')) as Hs.
  { rewrite Har. apply sorted_snoc; [done|]. apply Forall_forall. intros e He. apply apart_disjoint.
    - unfold areas in He. apply elem_of_cons in He as [->|He]; [done|]. apply list_elem_of_fmap in He as (e' & -> & He'). apply pages_positive.
      rewrite Forall_forall in D7. by apply D7.
    - apply pages_positive. cbn. lia.
    - intros x Hx Hx'. apply (N2 x Hx'). apply D5. right. by exists e. }
  constructor.
  - destruct Ht as [T1 [T2 T3]]. constructor; [done|lia|done| |rewrite Hu, extents_total_app; cbn [Length]; lia].
    apply areas_extents with (p := p); [lia|done|done|]. intros x [Hx|Hx]%Hin; [|lia]. rewrite Hl, Hm. apply (owned_memory fw), D5. by right.
  - rewrite Hu, extents_total_app, D2. done.
  - done.
  - destruct D4 as (e & es & E1 & E2). exists e, (es ++ [Extent a n]). by rewrite Hu, E1.
  - intros x. rewrite Hin, N1, D5. tauto.
  - intros x [Hx|Hx]%Hin; [by apply D6|]. intros Ho. apply (N2 x Hx). apply D5. by left.
  - done.
  - rewrite Hu. split; [tauto|]. apply Forall_app. split; [tauto|]. by repeat constructor.
Qed.

(** *** The loop *)

(** The state of the allocation of [R0] bytes, table included. *)
Record alloc_inv (debug : bool) (fw0 : Fw) (Map0 : list slot) (R0 : Z) (s : alloc_state) : Prop := AllocInv {
  ai_map : Forall (fun x => low_desc (Desc x)) s.(Map);
  ai_length : length s.(Map) = length Map0;
  ai_memory : Z.of_nat (length s.(bytes)) = MemorySize;
  ai_remaining : 0 <= s.(Remaining) <= R0;
  ai_aligned : s.(Remaining) = 0 \/ Forall (fun x => NumberOfPages (Desc x) = 0 \/ (PAGE | PhysicalStart (Desc x))) s.(Map);
  ai_pages : debug = true -> (PAGE | s.(Remaining));
  ai_table : match s.(Tbl) with
             | None => s.(Remaining) = R0 /\ s.(Map) = Map0 /\ forall x, owned s.(fw_) x <-> owned fw0 x
             | Some (p, t) => allocated_disk fw0 s.(fw_) s.(bytes) p t (R0 - PAGE - s.(Remaining))
             end
}.

Definition room (tbl : table_ptr) : nat := match tbl with None => 255 | Some (_, t) => Z.to_nat (APPLE_RAM_DISK_MAX_EXTENTS - t.(ExtentCount)) end.

(** If there is a free area from the base on, the largest one has two pages or more. The
    table takes one page of the first area; [one_page_area_not_freed] shows what happens
    to an area of one page. *)
Definition roomy (BaseAddress : Z) (Map : list slot) : Prop :=
  Exists (fun s => candidate BaseAddress (Desc s) /\ 0 < NumberOfPages (Desc s)) Map ->
  Exists (fun s => candidate BaseAddress (Desc s) /\ 2 <= NumberOfPages (Desc s)) Map.

Lemma roomy_largest b Map i d : roomy b Map -> Map !! i = Some d -> candidate b (Desc d) -> 0 < NumberOfPages (Desc d) ->
  (forall j s, (j < length Map)%nat -> Map !! j = Some s -> candidate b (Desc s) -> NumberOfPages (Desc s) * PAGE <= NumberOfPages (Desc d) * PAGE) ->
  2 <= NumberOfPages (Desc d).
Proof.
  intros HM Hd Hc Hn Hbig. destruct (proj1 (Exists_exists _ _) (HM (proj2 (Exists_exists _ _) (ex_intro _ d (conj (list_elem_of_lookup_2 _ _ _ Hd) (conj Hc Hn)))))) as (s & Hs & Hcs & Hns).
  apply list_elem_of_lookup_1 in Hs as [j Hj]. specialize (Hbig j s (lookup_lt_Some _ _ _ Hj) Hj Hcs). unfold PAGE in *. lia.
Qed.

Lemma used_pages n N : 0 < n -> n <= N * PAGE -> N * PAGE < 2 ^ 64 - PAGE -> 1 <= EFI_SIZE_TO_PAGES n <= N.
Proof.
  intros Hn HN H64. unfold PAGE in *. rewrite to_pages by (unfold PAGE; lia). unfold PAGE. split.
  - apply Z.div_le_lower_bound; lia.
  - apply Z.lt_succ_r, Z.div_lt_upper_bound; lia.
Qed.

(** A descriptor after [n] of its pages were used: its start moves by [n] bytes. *)
Lemma low_desc_used d n : low_desc d -> 1 <= n <= NumberOfPages d ->
  let d1 := set_PhysicalStart d (PhysicalStart d +[64] n) in low_desc (set_NumberOfPages d1 (NumberOfPages d1 -[64] n)).
Proof.
  intros (L1 & L2 & L3 & L4) Hn d1. unfold low_desc, desc_end, BASE_8EB, PAGE in *. subst d1. cbn [set_PhysicalStart set_NumberOfPages PhysicalStart NumberOfPages].
  rewrite !wrap_small by lia. lia.
Qed.

Context (debug : bool) (fw0 : Fw) (Map0 : list slot) (R0 DS : Z).
Context (HR : PAGE < R0 < 2 ^ 64) (H2 : roomy 0 Map0 /\ roomy BASE_4GB Map0) (HDS : 0 < DS).

(** What one turn does to the table and the firmware. *)
Lemma add_area s Final a fw' : alloc_inv debug fw0 Map0 R0 s -> HasRoom s.(Tbl) = true -> 0 < Final <= s.(Remaining) -> Final < 2 ^ 63 + 1 ->
  (debug = true -> (PAGE | Final)) -> (s.(Tbl) = None -> PAGE < Final) -> new_pages s.(fw_) fw' a Final -> (PAGE | a) ->
  exists m' tbl', InternalAddAllocatedArea debug s.(bytes) s.(Tbl) a Final = Ret (m', tbl') /\ (room tbl' < room s.(Tbl))%nat
  /\ forall Map', Forall (fun x => low_desc (Desc x)) Map' -> length Map' = length s.(Map) ->
       s.(Remaining) - Final = 0 \/ Forall (fun x => NumberOfPages (Desc x) = 0 \/ (PAGE | PhysicalStart (Desc x))) Map' -> alloc_inv debug fw0 Map0 R0 (AllocState fw' m' Map' (s.(Remaining) - Final) tbl').
Proof using HR.
  intros [I1 I2 I3 I4 IA I5 I6] Hroom HF HF63 Hdbg Hfirst Hnew Hal. destruct (Tbl s) as [[p t]|] eqn:ET.
  - cbn [HasRoom] in Hroom. apply bool_decide_eq_true in Hroom. pose proof (total_nonneg _ _ (ok_extents _ _ (ad_disk _ _ _ _ _ _ I6))) as Htn. rewrite (ad_total _ _ _ _ _ _ I6) in Htn.
    destruct (add_next debug (bytes s) fw0 (fw_ s) fw' p t a Final (R0 - PAGE - Remaining s)) as (m' & t' & E & Hl & Hc & HD); try done; [lia| |unfold PAGE in *; lia|].
    + intros Hd. destruct (Hdbg Hd) as [q ->]. unfold PAGE in *. lia.
    + exists m', (Some (p, t')). split; [done|]. split; [cbn [room]; rewrite Hc; unfold APPLE_RAM_DISK_MAX_EXTENTS in *; lia|].
      intros Map' HM1 HM2 HM3. constructor; cbn [Map bytes Remaining Tbl fw_]; [done|congruence|congruence|lia|done| |].
      * intros Hd. apply Z.divide_sub_r; auto.
      * by replace (R0 - PAGE - (Remaining s - Final)) with (R0 - PAGE - Remaining s + Final) by lia.
  - destruct I6 as (E1 & E2 & E3). destruct (add_first debug (bytes s) fw0 (fw_ s) fw' a Final) as (m' & t & E & Hl & Ht & Hc & HD); try done; [specialize (Hfirst eq_refl); lia|].
    exists m', (Some (a, t)). split; [done|]. split; [cbn [room]; rewrite Hc; unfold APPLE_RAM_DISK_MAX_EXTENTS; lia|].
    intros Map' HM1 HM2 HM3. constructor; cbn [Map bytes Remaining Tbl fw_]; [done|congruence|congruence|lia|done| |].
    * intros Hd. apply Z.divide_sub_r; auto.
    * by replace (R0 - PAGE - (Remaining s - Final)) with (Final - PAGE) by lia.
Qed.

Lemma AllocateStep_spec BaseAddress MemoryType s : alloc_inv debug fw0 Map0 R0 s -> BaseAddress = 0 \/ BaseAddress = BASE_4GB ->
  exists x, AllocateStep debug BaseAddress BASE_8EB MemoryType DS (Z.of_nat (length Map0) * DS) s = Ret x /\
  match x with
  | inl s' => alloc_inv debug fw0 Map0 R0 s' /\ (room s'.(Tbl) < room s.(Tbl))%nat
  | inr s' => alloc_inv debug fw0 Map0 R0 s'
  end.
Proof using HR H2 HDS.
  intros Hinv HBA. pose proof Hinv as [I1 I2 I3 I4 IA I5 I6]. unfold AllocateStep. destruct (decide (0 < Remaining s /\ HasRoom (Tbl s) = true)) as [[Hrem Hroom]|]; [|by eexists].
  destruct (Biggest_spec DS BaseAddress (Map s) HDS I1) as (o & sz & E & HB). rewrite I2 in E. rewrite <- I2 in E at 1. rewrite E. cbn [mbind outcome_bind].
  destruct o as [q|]; [|by eexists]. destruct (decide (sz = 0)) as [|Hsz]; [by eexists|].
  destruct HB as (i & d & Hi & -> & Hd & [C1 C2] & -> & Hbig). pose proof (Forall_lookup_1 _ _ _ _ I1 Hd) as Hlow. pose proof Hlow as (L1 & L2 & L3 & L4).
  rewrite (rd_desc_at _ HDS _ (Z.of_nat i) d) by (rewrite ?Nat2Z.id; done || lia). cbn [mbind outcome_bind].
  set (Final := Z.min (NumberOfPages (Desc d) * PAGE) (Remaining s)) in *. set (n := EFI_SIZE_TO_PAGES Final) in *.
  unfold desc_end, BASE_8EB in *. assert (0 < Final) as HF by (unfold PAGE in *; lia).
  assert (1 <= n <= NumberOfPages (Desc d)) as Hn by (apply used_pages; unfold PAGE in *; lia).
  assert (n * PAGE = page_bytes Final) as Hnp by (apply size_pages; unfold PAGE in *; lia).
  destruct (AllocateAddress (fw_ s) MemoryType n (PhysicalStart (Desc d))) as [St fw'] eqn:EA. assert (PAGE | PhysicalStart (Desc d)) as Hal.
  { destruct IA as [IA|IA]; [lia|]. destruct (Forall_lookup_1 _ _ _ _ IA Hd) as [Hz|]; [|done]. rewrite Hz in Hsz. lia. }
  pose proof (allocated _ _ _ _ _ _ EA ltac:(lia) Hal) as HA.
  destruct (EFI_ERROR St) eqn:EE.
  - eexists. split; [done|]. constructor; try done. cbn [Tbl fw_ bytes Remaining Map]. destruct (Tbl s) as [[p t]|].
    + destruct I6 as [D1 D2 D3 D4 D5 D6 D7 D8]. constructor; try done. intros x. by rewrite HA.
    + destruct I6 as (E1 & E2 & E3). split; [done|]. split; [done|]. intros x. by rewrite HA.
  - assert (new_pages (fw_ s) fw' (PhysicalStart (Desc d)) Final) as Hnew by (unfold new_pages; by rewrite <- Hnp).
    destruct (add_area s Final (PhysicalStart (Desc d)) fw' Hinv Hroom) as (m' & tbl' & EI & Hr & Hnext); try done; [lia|unfold PAGE in *; lia| | |].
    + intros Hdb. unfold Final. destruct (Z.min_spec (NumberOfPages (Desc d) * PAGE) (Remaining s)) as [[_ ->]|[_ ->]]; [apply Z.divide_factor_r|auto].
    + intros ET. rewrite ET in I6. destruct I6 as (E1 & E2 & _). rewrite E2 in Hd, Hbig.
      assert (roomy BaseAddress Map0) as Hroomy by (destruct H2; by destruct HBA as [->| ->]).
      pose proof (roomy_largest BaseAddress Map0 i d Hroomy Hd (conj C1 C2) ltac:(unfold PAGE in *; lia) Hbig). unfold PAGE in *. lia.
    + rewrite EI. cbn [mbind outcome_bind]. rewrite (wr_desc_at _ HDS _ (Z.of_nat i) d) by (rewrite ?Nat2Z.id; done || lia). cbn [mbind outcome_bind].
      eexists. split; [done|]. cbn [Tbl]. split; [|done]. rewrite (wrap_small 64 (Remaining s - Final)) by lia. apply Hnext; [|apply length_insert|].
      { apply Forall_insert; [done|]. cbn [Desc]. by apply low_desc_used. }
      destruct IA as [IA|IA]; [lia|]. unfold Final at 1. destruct (decide (NumberOfPages (Desc d) * PAGE <= Remaining s)) as [Hle|Hgt]; [right|left; lia].
      apply Forall_insert; [done|]. left. cbn [Desc set_PhysicalStart set_NumberOfPages NumberOfPages].
      assert (n = NumberOfPages (Desc d)) as ->; [|by rewrite Z.sub_diag].
      rewrite page_bytes_id in Hnp by (unfold Final; rewrite ?Z.min_l by done; unfold PAGE in *; (lia || apply Z.divide_factor_r)). unfold Final in Hnp. rewrite Z.min_l in Hnp by done. unfold PAGE in *. lia.
Qed.

Lemma Allocate_loop BaseAddress MemoryType s : alloc_inv debug fw0 Map0 R0 s -> BaseAddress = 0 \/ BaseAddress = BASE_4GB ->
  exists s', InternalAllocateRemainingSize debug BaseAddress BASE_8EB MemoryType DS (Z.of_nat (length Map0) * DS) s = Ret s' /\ alloc_inv debug fw0 Map0 R0 s'.
Proof using HR H2 HDS.
  intros Hinv HB. unfold InternalAllocateRemainingSize. rewrite !assert_holds by (destruct HB as [->| ->]; reflexivity). cbn [mbind outcome_bind].
  apply (while_total _ (alloc_inv debug fw0 Map0 R0) (fun s => room s.(Tbl))); [intros t Ht; by apply AllocateStep_spec|done|].
  destruct (Tbl s) as [[p t]|] eqn:ET; cbn [room]; [|unfold APPLE_RAM_DISK_MAX_EXTENTS; lia]. pose proof (ai_table _ _ _ _ _ Hinv) as HT. rewrite ET in HT.
  pose proof (ok_count _ _ (ad_disk _ _ _ _ _ _ HT)). lia.
Qed.

End Alloc.

(** *** Release *)

Lemma apart_at l i j e e' : StronglySorted apart l -> i <> j -> l !! i = Some e -> l !! j = Some e' -> apart e e'.
Proof.
  revert i j. induction l as [|x l IH]; intros i j Hs Hne Hi Hj; [done|]. apply StronglySorted_inv in Hs as [H1 H2]. rewrite Forall_forall in H2.
  destruct i as [|i], j as [|j]; cbn in Hi, Hj; try done.
  - injection Hi as ->. apply H2. by eapply list_elem_of_lookup_2.
  - injection Hj as ->. apply extent_apart_sym, H2. by eapply list_elem_of_lookup_2.
  - apply (IH i j); auto.
Qed.

Lemma apart_no e e' x : apart e e' -> in_extent e x -> ~ in_extent e' x.
Proof. unfold apart, in_extent. lia. Qed.

Section Free.
Context `{Firm : Firmware} `{HL : !PageLaws Firm}.
Context (debug : bool) (fw0 fw : Fw) (m : list Z) (p : Z) (t : APPLE_RAM_DISK_EXTENT_TABLE) (n : Z) (HD : allocated_disk fw0 fw m p t n).

Lemma area_table : areas p t !! 0%nat = Some (Extent p PAGE).
Proof using. done. Qed.
Lemma area_extent i e : used t !! i = Some e -> areas p t !! S i = Some (pages_of_extent e).
Proof using. intros H. change (areas p t !! S i) with ((pages_of_extent <$> used t) !! i). by rewrite list_lookup_fmap, H. Qed.

Lemma extent_pages e : e ∈ used t -> 0 <= e.(Start) /\ 0 < e.(Length) < 2 ^ 63 -> forall x, in_extent (pages_of_extent e) x <-> e.(Start) <= x < e.(Start) + EFI_SIZE_TO_PAGES e.(Length) * PAGE.
Proof using. intros _ H x. rewrite size_pages by (unfold PAGE; lia). done. Qed.

Lemma extent_bounds e : e ∈ used t -> 0 <= e.(Start) /\ 0 < e.(Length) /\ e.(Start) + page_bytes e.(Length) <= MemorySize.
Proof using HD.
  intros He. destruct HD as [D1 D2 D3 D4 D5 D6 D7 D8]. rewrite Forall_forall in D7. specialize (D7 e He). pose proof (page_bytes_ge (Length e) ltac:(lia)) as Hp.
  assert (forall x, in_extent (pages_of_extent e) x -> 0 <= x < MemorySize) as Hx.
  { intros x Hx. apply (owned_memory fw), D5. right. exists (pages_of_extent e). split; [right; by apply list_elem_of_fmap_2|done]. }
  pose proof (Hx (Start e)) as X1. pose proof (Hx (Start e + page_bytes (Length e) - 1)) as X2. unfold in_extent in *. cbn in *. lia.
Qed.

(** The extents from the second to before the [j]-th are freed. *)
Definition freed_before (j : Z) (fw' : Fw) : Prop := forall x, owned fw' x <->
  owned fw x /\ forall i e, 1 <= Z.of_nat i < j -> used t !! i = Some e -> ~ in_extent (pages_of_extent e) x.

Lemma free_extent j e fw' (Hsmall : MemorySize < 2 ^ 64 - PAGE) : 1 <= j -> used t !! Z.to_nat j = Some e -> freed_before j fw' ->
  freed_before (j + 1) (FreePages fw' e.(Start) (EFI_SIZE_TO_PAGES e.(Length))).
Proof using HD.
  intros Hj He Hfr. pose proof HD as [D1 D2 D3 D4 D5 D6 D7 [D8 D9]]. assert (e ∈ used t) as Hin by (by eapply list_elem_of_lookup_2).
  destruct (extent_bounds e Hin) as (B1 & B2 & B3). pose proof (page_bytes_ge (Length e) ltac:(lia)) as Hp.
  assert (EFI_SIZE_TO_PAGES (Length e) * PAGE = page_bytes (Length e)) as EP by (apply size_pages; lia).
  intros x. rewrite freed.
  - rewrite (Hfr x), EP. split.
    + intros [[H1 H2] H3]. split; [done|]. intros i e' Hi He' Hx. destruct (decide (Z.of_nat i < j)); [apply (H2 i e'); (done || lia)|].
      assert (i = Z.to_nat j) as -> by lia. rewrite He in He'. injection He' as <-. by apply H3.
    + intros [H1 H2]. split; [split; [done|]|].
      * intros i e' Hi. apply H2. lia.
      * apply (H2 (Z.to_nat j) e); [lia|done].
  - rewrite Forall_forall in D9. by apply D9.
  - unfold PAGE in *. lia.
  - rewrite EP. intros y Hy. apply Hfr. split.
    + apply D5. right. exists (pages_of_extent e). split; [right; by apply list_elem_of_fmap_2|done].
    + intros i e' Hi He' Hx. eapply (apart_no (pages_of_extent e') (pages_of_extent e) y); [|exact Hx|exact Hy].
      apply (apart_at (areas p t) (S i) (S (Z.to_nat j))); [done|lia|by apply area_extent|by apply area_extent].
Qed.

Lemma Free_spec (Hsmall : MemorySize < 2 ^ 64 - PAGE) :
  exists fw', OcAppleRamDiskFree debug fw p t = Ret fw' /\ forall x, owned fw' x <-> owned fw0 x.
Proof using HD.
  pose proof HD as [D1 D2 D3 (e0 & es & D4 & D4') D5 D6 D7 [D8 D9]]. unfold OcAppleRamDiskFree. rewrite (valid_table debug t m D1). cbn [mbind outcome_bind].
  assert (forall i e, used t !! i = Some e -> rd (Extents t) (Z.of_nat i) = Ret e /\ e ∈ used t) as Hrd.
  { intros i e He. split; [|by eapply list_elem_of_lookup_2]. rewrite <- (Nat2Z.id i) in He. by apply used_lookup in He as [_ ?]; [|lia]. }
  assert (used t !! 0%nat = Some e0) as H0 by by rewrite D4. destruct (Hrd 0%nat e0 H0) as [R0 I0]. change (Z.of_nat 0) with 0 in R0. rewrite R0. cbn [mbind outcome_bind].
  assert (forall e, e ∈ used t -> MemoryAttributes.ASSERT debug (bool_decide (Start e <= MAX_UINT64)) = Ret tt /\ MemoryAttributes.ASSERT debug (bool_decide (Length e <= MAX_UINT64)) = Ret tt) as HA.
  { intros e He. destruct (extent_bounds e He) as (B1 & B2 & B3). pose proof (page_bytes_ge (Length e) ltac:(lia)). unfold MAX_UINT64, PAGE in *.
    split; apply assert_holds, bool_decide_eq_true_2; lia. }
  destruct (HA e0 I0) as [-> ->]. cbn [mbind outcome_bind]. pose proof (ok_count _ _ D1) as Hcount. pose proof (used_length m t D1) as Hul.
  match goal with |- context [for_ ?k 1 ?b fw] => set (body := b); destruct (for_total body freed_before k 1 fw) as (fw1 & E & Hfr) end.
  - intros x. split; [intros H; split; [done|intros i e Hi; lia]|tauto].
  - intros j fw' Hj Hfr. destruct (lookup_lt_is_Some_2 (used t) (Z.to_nat j)) as [e He]; [lia|]. destruct (Hrd _ e He) as [Re Ie]. rewrite Z2Nat.id in Re by lia.
    unfold body. rewrite Re. cbn [mbind outcome_bind]. destruct (HA e Ie) as [-> ->]. cbn [mbind outcome_bind]. eexists. split; [done|]. apply free_extent; (done || lia).
  - rewrite E. cbn [mbind outcome_bind]. eexists. split; [done|]. replace (1 + Z.of_nat (Z.to_nat (ExtentCount t - 1))) with (ExtentCount t) in Hfr by lia.
    destruct (extent_bounds e0 I0) as (B1 & B2 & B3). pose proof (page_bytes_ge (Length e0) ltac:(lia)) as Hp.
    assert ((EFI_SIZE_TO_PAGES (Length e0) +[64] 1) * PAGE = PAGE + page_bytes (Length e0)) as EP.
    { rewrite <- size_pages by lia. rewrite wrap_small; [lia|]. rewrite to_pages by lia. unfold PAGE in *. split; [pose proof (Z.div_pos (Length e0 + (2 ^ 12 - 1)) (2 ^ 12)); lia|].
      assert ((Length e0 + (2 ^ 12 - 1)) / 2 ^ 12 < 2 ^ 63) by (apply Z.div_lt_upper_bound; lia). lia. }
    assert (forall x, p <= x < p + (PAGE + page_bytes (Length e0)) <-> in_extent (Extent p PAGE) x \/ in_extent (pages_of_extent e0) x) as Hfirst.
    { intros x. unfold in_extent. cbn. unfold PAGE in *. lia. }
    assert (forall x, in_areas p t x <-> in_extent (Extent p PAGE) x \/ exists i e, used t !! i = Some e /\ in_extent (pages_of_extent e) x) as Hareas.
    { intros x. unfold in_areas, areas. setoid_rewrite elem_of_cons. split.
      - intros (e & [->|He] & Hx); [by left|right]. apply list_elem_of_fmap in He as (e' & -> & He'). apply list_elem_of_lookup_1 in He' as [i Hi]. by exists i, e'.
      - intros [Hx|(i & e & Hi & Hx)]; [eexists; split; [by left|done]|]. exists (pages_of_extent e). split; [right|done]. apply list_elem_of_fmap_2. by eapply list_elem_of_lookup_2. }
    intros x. rewrite freed; rewrite ?EP.
    + rewrite Hfirst, (Hfr x), D5, Hareas. split.
      * intros [[[H|[H|(i & e & Hi & Hx)]] H2] H3]; [done|tauto|exfalso]. destruct (decide (i = 0%nat)) as [->|]; [rewrite H0 in Hi; injection Hi as <-; tauto|].
        apply (H2 i e); [|done|done]. apply lookup_lt_Some in Hi. lia.
      * intros H. pose proof (fun Hx => D6 x Hx H) as Hnot. rewrite Hareas in Hnot. split; [split; [by left|]|].
        -- intros i e _ Hi Hx. apply Hnot. right. by exists i, e.
        -- intros [Hx|Hx]; apply Hnot; [by left|right]. by exists 0%nat, e0.
    + done.
    + unfold PAGE in *. lia.
    + intros y Hy%Hfirst. apply Hfr. split.
      * apply D5. right. apply Hareas. destruct Hy; [by left|right]. by exists 0%nat, e0.
      * intros i e Hi He Hx. pose proof (area_extent i e He) as A1. destruct Hy as [Hy|Hy].
        -- eapply (apart_no (pages_of_extent e) (Extent p PAGE)); [|exact Hx|exact Hy]. apply (apart_at (areas p t) (S i) 0%nat); (done || lia).
        -- eapply (apart_no (pages_of_extent e) (pages_of_extent e0)); [|exact Hx|exact Hy]. apply (apart_at (areas p t) (S i) 1%nat); [done|lia|done|by apply area_extent].
Qed.

End Free.

(** *** The whole allocation *)

(** The maps of the firmware: areas of whole pages below 8 EB, and the largest free area,
    above 4 GB and in all, has two pages or more. *)
Definition maps_ok (F : Firmware) : Prop := forall fw n St i, GetMemoryMap fw n true = (St, i) -> EFI_ERROR St = false ->
  Forall (fun x => low_desc (Desc x) /\ (PAGE | PhysicalStart (Desc x))) i.(Content) /\ roomy 0 i.(Content) /\ roomy BASE_4GB i.(Content).

Section Whole.
Context `{Firm : Firmware} `{HFL : !FirmwareLaws Firm} `{HL : !PageLaws Firm}.

Lemma CurrentMap_owned fw : exists fw' r, OcGetCurrentMemoryMap [] false fw = Ret (fw', r) /\ (forall x, owned fw' x <-> owned fw x)
  /\ match r with None => True | Some m => exists fw1 n St, GetMemoryMap fw1 n true = (St, m.(Info)) /\ EFI_ERROR St = false end.
Proof using Firm HL.
  unfold OcGetCurrentMemoryMap. destruct (GetMemoryMap fw 0 false) as [St i]. case_decide; [by eexists _, _|]. cbn [mbind outcome_bind].
  destruct (overflow_add _ _ _) as [[] Size]; [by eexists _, _|]. destruct (AllocatePool fw Size) as [[b fw1]|] eqn:EA; [|by eexists _, _].
  destruct (GetMemoryMap fw1 Size true) as [St1 i1] eqn:EG. destruct (EFI_ERROR St1) eqn:EE.
  - eexists _, _. split; [done|]. split; [|done]. intros x. rewrite pool_freed. by eapply pool_allocated.
  - eexists _, _. split; [done|]. split; [intros x; by eapply pool_allocated|]. by exists fw1, Size, St1.
Qed.

Lemma allocated_disk_ext fw0 fw1 fw m p t n : (forall x, owned fw0 x <-> owned fw1 x) -> allocated_disk fw0 fw m p t n -> allocated_disk fw1 fw m p t n.
Proof using. intros H [D1 D2 D3 D4 D5 D6 D7 D8]. constructor; try done; [intros x; by rewrite D5, H|intros x Hx; rewrite <- H; by apply D6]. Qed.

(** What an allocation returns. *)
Definition allocation (fw : Fw) (m : list Z) (Size : Z) (fw' : Fw) (m' : list Z) (tbl : table_ptr) : Prop :=
  length m' = length m /\ match tbl with
  | None => forall x, owned fw' x <-> owned fw x
  | Some (p, t) => allocated_disk fw fw' m' p t Size
  end.

Context (debug : bool) (Hmaps : maps_ok Firm) (Hsmall : MemorySize < 2 ^ 64 - PAGE).

Lemma Allocate_pass fw m Size ty prefer : Z.of_nat (length m) = MemorySize -> 0 < Size < 2 ^ 64 -> (debug = true -> (PAGE | Size)) ->
  exists fw' m' tbl, InternalAppleRamDiskAllocate debug (fw, m) Size ty prefer = Ret (fw', m', tbl) /\ allocation fw m Size fw' m' tbl.
Proof using HFL HL Hmaps Hsmall.
  intros Hm HS Hdbg. unfold InternalAppleRamDiskAllocate. destruct (CurrentMap_owned fw) as (fw1 & r & -> & Hown & Hr). cbn [mbind outcome_bind].
  destruct r as [mp|]; [|by eexists _, _, _]. destruct Hr as (fwx & nx & St & EG & EE). destruct (Hmaps _ _ _ _ EG EE) as [[Hlow Hal]%Forall_and Htwo].
  destruct (map_returned _ _ _ _ EG EE) as [(HDS & Hsize & _ & _) _]. unfold overflow_add, EFI_PAGE_SIZE.
  destruct (bool_decide_reflect (2 ^ 64 <= Size + 4096)) as [|Hov]; [by eexists _, _, _|]. rewrite wrap_small by lia. set (i := Info mp) in *. rewrite Hsize.
  assert (alloc_inv debug fw1 (Content i) (Size + 4096) (AllocState fw1 m (Content i) (Size + 4096) None)) as Hinv.
  { constructor; cbn; try done; [lia|right; eapply Forall_impl; [exact Hal|]; intros ? ?; by right|]. intros Hd. apply Z.divide_add_r; [auto|by exists 1]. }
  assert (exists s, (if prefer then InternalAllocateRemainingSize debug BASE_4GB BASE_8EB ty (DescriptorSize i) (Z.of_nat (length (Content i)) * DescriptorSize i)
            (AllocState fw1 m (Content i) (Size + 4096) None) else Ret (AllocState fw1 m (Content i) (Size + 4096) None)) = Ret s
          /\ alloc_inv debug fw1 (Content i) (Size + 4096) s) as (s1 & -> & Hinv1).
  { destruct prefer; [|by eexists]. apply Allocate_loop; [unfold PAGE; lia|done|done|done|by right]. }
  cbn [mbind outcome_bind].
  destruct (Allocate_loop debug fw1 (Content i) (Size + 4096) (DescriptorSize i) ltac:(unfold PAGE; lia) Htwo HDS 0 ty s1 Hinv1 ltac:(by left)) as (s2 & -> & [J1 J2 J3 J4 JA J5 J6]).
  cbn [mbind outcome_bind]. destruct (Tbl s2) as [[p t]|].
  - case_decide as Hrem.
    + destruct (Free_spec debug fw1 (fw_ s2) (bytes s2) p t _ J6 Hsmall) as (fw3 & -> & Hfree). cbn [mbind outcome_bind]. eexists _, _, _. split; [done|].
      split; [lia|]. intros x. by rewrite Hfree, Hown.
    + eexists _, _, _. split; [done|]. split; [lia|]. apply (allocated_disk_ext fw1 fw); [done|].
      by replace (Size + 4096 - PAGE - Remaining s2) with Size in J6 by (unfold PAGE; lia).
  - eexists _, _, _. split; [done|]. split; [lia|]. destruct J6 as (_ & _ & J6). intros x. by rewrite J6, Hown.
Qed.

Lemma Allocate_spec fw m Size ty : Z.of_nat (length m) = MemorySize -> 0 < Size < 2 ^ 64 -> (debug = true -> (PAGE | Size)) ->
  exists fw' m' tbl, OcAppleRamDiskAllocate debug (fw, m) Size ty = Ret (fw', m', tbl) /\ allocation fw m Size fw' m' tbl.
Proof using HFL HL Hmaps Hsmall.
  intros Hm HS Hdbg. unfold OcAppleRamDiskAllocate. destruct (Allocate_pass fw m Size ty true Hm HS Hdbg) as (fw1 & m1 & tbl & -> & [Hl Ht]). cbn [mbind outcome_bind].
  destruct tbl as [[p t]|]; [by eexists _, _, _|].
  destruct (Allocate_pass fw1 m1 Size ty false ltac:(congruence) HS Hdbg) as (fw2 & m2 & tbl & -> & [Hl2 Ht2]). eexists _, _, _. split; [done|]. split; [congruence|].
  destruct tbl as [[p t]|]; [by apply (allocated_disk_ext fw1 fw)|]. intros x. by rewrite Ht2, Ht.
Qed.

End Whole.

(** ** A concrete firmware, disk and file *)

(** The allocated pages, in four pages of memory; the free area is the second and
    the third page. *)
Definition small_size : Z := 4 * PAGE.
Definition small_map : map_info := MapInfo 40 40 0 1 [Slot (MemDesc EfiConventionalMemory PAGE 0 2 0xF) []].

#[local] Instance small_firmware : Firmware := {|
  Fw := list Z;
  GetMemoryMap fw n buffer := if buffer && bool_decide (40 <= n) then (EFI_SUCCESS, small_map) else (EFI_BUFFER_TOO_SMALL, small_map);
  AllocatePool fw n := Some (0x10, fw);
  FreePool fw b := fw;
  AllocateAddress fw ty n a :=
    if decide (0 <= a /\ a + n * PAGE <= small_size /\ Forall (fun q => q ∉ fw) (seqZ (a / PAGE) n)) then (EFI_SUCCESS, seqZ (a / PAGE) n ++ fw) else (EFI_NOT_FOUND, fw);
  FreePages fw a n := List.filter (fun q => negb (bool_decide (a / PAGE <= q < a / PAGE + n))) fw
|}.

Lemma page_range a n x : (PAGE | a) -> (a / PAGE <= x / PAGE < a / PAGE + n <-> a <= x < a + n * PAGE).
Proof.
  intros [q ->]. unfold PAGE. rewrite Z.div_mul by lia. pose proof (Z.div_mod x (2 ^ 12) ltac:(lia)). pose proof (Z.mod_pos_bound x (2 ^ 12) ltac:(lia)). lia.
Qed.

#[local] Instance small_laws : FirmwareLaws small_firmware.
Proof.
  constructor.
  - intros fw n St i. cbn. case_bool_decide as E; intros [= <- <-]; [|done]. intros _. split; [|done]. split; [done|]. split; [done|]. split; [done|].
    repeat constructor; done.
  - intros fw St i. cbn. by intros [= <- _].
Qed.

#[local] Instance small_pages : PageLaws small_firmware.
Proof.
  refine {| owned := fun (fw : @Fw small_firmware) x => 0 <= x < small_size /\ x / PAGE ∈ (fw : list Z); MemorySize := small_size |}; try done.
  - by intros fw x [H _].
  - intros fw ty n a St fw' E Hn Hal. cbn in E. case_decide as HD; injection E as <- <-; [|done]. destruct HD as (H1 & H2 & H3). cbn [EFI_ERROR]. change (EFI_ERROR EFI_SUCCESS) with false. cbn iota. split.
    + intros x. rewrite elem_of_app, elem_of_seqZ, (page_range a n x Hal). split; [tauto|]. intros [?|?]; [tauto|]. split; [lia|tauto].
    + intros x Hx [_ H]. rewrite Forall_forall in H3. apply (H3 (x / PAGE)); [|done]. apply elem_of_seqZ. by apply page_range.
  - intros fw a n x Hal Hn _. cbn. rewrite <- (page_range a n x Hal). rewrite !list_elem_of_In, List.filter_In, negb_true_iff, bool_decide_eq_false. tauto.
  - by intros fw n b fw' x [= _ <-].
Defined.

Lemma small_maps : maps_ok small_firmware.
Proof.
  intros fw n St i. cbn. case_bool_decide; intros [= <- <-] HE; [|done]. split; [|split].
  - constructor; [|constructor]. split; [|by exists 1]. split; [done|]. done.
  - intros _. left. by repeat split.
  - intros H1. apply Exists_exists in H1 as (x & ->%list_elem_of_singleton & [_ H1] & _). by cbn in H1.
Qed.

(** The allocation of one page, for any memory. *)
Definition small_state (m : list Z) : @alloc_state small_firmware := @AllocState small_firmware [] m small_map.(Content) 8192 None.
Definition small_table : APPLE_RAM_DISK_EXTENT_TABLE :=
  match AppendExtent NewTable (Extent 8192 4096) with Ret t => t | Fault _ => NewTable end.

Lemma small_high m : @InternalAllocateRemainingSize false small_firmware BASE_4GB BASE_8EB EfiLoaderData 40 40 (small_state m) = Ret (small_state m).
Proof.
  unfold InternalAllocateRemainingSize. cbn [MemoryAttributes.ASSERT mbind outcome_bind]. apply while_inr. unfold AllocateStep. rewrite decide_True by done.
  replace (while_ _ (BiggestStep _ _ _ _ _) _) with (@Ret (option Z * Z) (None, 0)) by (vm_compute; reflexivity). done.
Qed.

Lemma small_low m : length m = Z.to_nat small_size ->
  exists m1 s, @InternalAllocateRemainingSize false small_firmware 0 BASE_8EB EfiLoaderData 40 40 (small_state m)
  = Ret (@AllocState small_firmware [1; 2] m1 s 0 (Some (PAGE, small_table))).
Proof.
  intros Hm. unfold InternalAllocateRemainingSize. cbn [MemoryAttributes.ASSERT mbind outcome_bind].
  set (m1 := list_inserts (Z.to_nat PAGE) (replicate (Z.to_nat 8192) 0) m).
  assert (ZeroMem m PAGE 8192 = Ret m1) as EZ by (apply ZeroMem_in; rewrite ?Hm; done).
  eexists m1, _. rewrite (while_inl _ _ _ (@AllocState small_firmware [1; 2] m1 [Slot (MemDesc EfiConventionalMemory 4098 0 0 0xF) []] 0 (Some (PAGE, small_table)))).
  - apply while_inr. unfold AllocateStep. by rewrite decide_False by (cbn; lia).
  - unfold AllocateStep. rewrite decide_True by done.
    replace (while_ _ (BiggestStep _ _ _ _ _) _) with (@Ret (option Z * Z) (Some 0, 8192)) by (vm_compute; reflexivity). cbn [mbind outcome_bind].
    rewrite decide_False by done. replace (rd_desc _ _ 0) with (Ret (MemDesc EfiConventionalMemory PAGE 0 2 0xF)) by (vm_compute; reflexivity). cbn [mbind outcome_bind].
    change (Z.min 8192 (Remaining (small_state m))) with 8192. change (EFI_SIZE_TO_PAGES 8192) with 2. cbn [PhysicalStart].
    replace (AllocateAddress (fw_ (small_state m)) EfiLoaderData 2 PAGE) with (EFI_SUCCESS, [1; 2]) by (vm_compute; reflexivity).
    change (EFI_ERROR EFI_SUCCESS) with false. cbn iota. unfold InternalAddAllocatedArea. cbn [MemoryAttributes.ASSERT mbind outcome_bind Tbl small_state bytes].
    change (EFI_PAGES_TO_SIZE (EFI_SIZE_TO_PAGES 8192)) with 8192. rewrite EZ. cbn [mbind outcome_bind]. rewrite decide_False by (intros [_ H]; vm_compute in H; discriminate).
    replace (AppendExtent NewTable _) with (Ret small_table) by (vm_compute; reflexivity). cbn [mbind outcome_bind]. reflexivity.
Qed.

Lemma small_allocation m : length m = Z.to_nat small_size ->
  exists m1, @OcAppleRamDiskAllocate false small_firmware ([], m) PAGE EfiLoaderData = Ret ([1; 2], m1, Some (PAGE, small_table)).
Proof.
  intros Hm. destruct (small_low m Hm) as (m1 & s & E). exists m1. unfold OcAppleRamDiskAllocate, InternalAppleRamDiskAllocate.
  set (mp := OcGetCurrentMemoryMap _ _ _). assert (mp = Ret ([], Some (CurrentMap 0x10 small_map 1064))) as -> by (vm_compute; reflexivity).
  cbn [mbind outcome_bind]. change (overflow_add 64 PAGE EFI_PAGE_SIZE) with (false, 8192). cbn iota. fold (small_state m).
  change (DescriptorSize (Info (CurrentMap 0x10 small_map 1064))) with 40. change (MemoryMapSize (Info (CurrentMap 0x10 small_map 1064))) with 40.
  change (@AllocState small_firmware [] m (Content (Info (CurrentMap 0x10 small_map 1064))) 8192 None) with (small_state m).
  rewrite small_high. cbn [mbind outcome_bind]. rewrite E. cbn [mbind outcome_bind]. reflexivity.
Qed.

(** A disk of ten bytes in two extents. *)
Definition ten_table : APPLE_RAM_DISK_EXTENT_TABLE :=
  ExtentTable APPLE_RAM_DISK_EXTENT_SIGNATURE APPLE_RAM_DISK_EXTENT_VERSION 2
    (Extent 16 4 :: Extent 2 6 :: replicate 252 (Extent 0 0)) 0 APPLE_RAM_DISK_EXTENT_SIGNATURE.
Definition ten_memory : list Z := seqZ 0 32.

Lemma ten_ok : disk_ok ten_memory ten_table.
Proof.
  constructor; [done|done|done| |done]. change (used ten_table) with [Extent 16 4; Extent 2 6]. constructor; [done| |].
  - repeat constructor; done.
  - constructor; [by repeat constructor|]. constructor; [|constructor]. right. cbn. lia.
Qed.

(** A file in memory. *)
#[local] Instance memory_file (data : list Z) : FileProtocol := {|
  FileState := Z;
  SetPosition f p := (EFI_SUCCESS, p);
  Read f n := (EFI_SUCCESS, slice data f n, f + n)
|}.

#[local] Instance memory_file_laws data : FileLaws (memory_file data) data.
Proof.
  constructor. intros f p St1 f1 n St2 bs f2. cbn. intros [= <- <-] _ [= <- <- <-] _ Hp. unfold slice. rewrite !length_take, length_drop, Nat2Z.id.
  destruct (decide (Z.to_nat n <= length data - Z.to_nat p)%nat); [by rewrite Nat.min_l by lia|]. rewrite Nat.min_r by lia.
  by rewrite !take_ge by (rewrite length_drop; lia).
Qed.

(** ** Properties *)

(** C18: a RAM disk is a flat byte array to [OcAppleRamDiskRead]: the bytes from
    [Offset] on of the concatenated extents are stored in the buffer, across any
    number of extents; the result is TRUE exactly when all [Size] bytes are on the
    disk, otherwise the bytes up to the end of the disk are stored. The walk ends
    and stays in bounds. *)
Theorem Read_flat debug m t Offset Size Buffer :
  disk_ok m t -> 0 <= Offset -> 0 < Size -> Offset + Size < 2 ^ 64 -> Size <= Z.of_nat (length Buffer) ->
  OcAppleRamDiskRead debug m t Offset Size Buffer
  = Ret (bool_decide (Offset + Size <= Z.of_nat (length (flat m t))), list_inserts 0 (slice (flat m t) Offset Size) Buffer).
Proof.
  intros HD HO HS Hmax HB. pose proof HD as [_ H2 H3 H4 H5]. unfold OcAppleRamDiskRead, Transfer. rewrite (valid_table debug t m HD). cbn [mbind outcome_bind].
  rewrite assert_holds by (by apply bool_decide_eq_true_2). cbn [mbind outcome_bind].
  rewrite (read_walk debug m t H3 ltac:(lia) (used t)) by (try done; try lia; pose proof (used_length m t HD); lia).
  unfold flat. rewrite (contents_length m _ H4), !Z.sub_0_r. done.
Qed.

Lemma Read_flat_witness : OcAppleRamDiskRead true ten_memory ten_table 2 5 (replicate 6 0) = Ret (true, [18; 19; 2; 3; 4; 0]).
Proof. rewrite (Read_flat true ten_memory ten_table 2 5 (replicate 6 0)); [reflexivity|exact ten_ok|lia..|cbn; lia]. Defined.

(** [OcAppleRamDiskWrite] writes the flat byte array: the contents become the
    old ones with the bytes of the buffer at [Offset] (those up to the end of the
    disk, when the result is FALSE), and no memory outside of the extents changes. *)
Theorem Write_flat debug m t Offset Size Buffer :
  disk_ok m t -> 0 <= Offset -> 0 < Size -> Offset + Size < 2 ^ 64 -> Size <= Z.of_nat (length Buffer) ->
  let n := Z.of_nat (length (flat m t)) in
  exists m', OcAppleRamDiskWrite debug m t Offset Size Buffer = Ret (bool_decide (Offset + Size <= n), m')
  /\ flat m' t = list_inserts (Z.to_nat Offset) (slice Buffer 0 (Z.min Size (Z.max 0 (n - Offset)))) (flat m t)
  /\ length m' = length m /\ forall a, 0 <= a -> (forall e, e ∈ used t -> ~ in_extent e a) -> m' !! Z.to_nat a = m !! Z.to_nat a.
Proof.
  intros HD HO HS Hmax HB n. pose proof HD as [_ H2 H3 H4 H5]. unfold OcAppleRamDiskWrite, Transfer. rewrite (valid_table debug t m HD). cbn [mbind outcome_bind].
  rewrite assert_holds by (by apply bool_decide_eq_true_2). cbn [mbind outcome_bind].
  destruct (write_walk debug t Buffer H3 ltac:(lia) (used t) (S (Z.to_nat (ExtentCount t))) 0 0 Offset Size 0 m) as (m' & -> & [W1 W2 W3]);
    [done|done|done|lia|lia|lia|lia|lia|lia|pose proof (used_length m t HD); lia|].
  unfold n, flat. rewrite (contents_length m _ H4). rewrite !Z.sub_0_r in *. by exists m'.
Qed.

Lemma Write_flat_witness : exists m', OcAppleRamDiskWrite true ten_memory ten_table 2 5 [50; 51; 52; 53; 54] = Ret (true, m')
  /\ flat m' ten_table = [16; 17; 50; 51; 52; 53; 54; 5; 6; 7].
Proof.
  destruct (Write_flat true ten_memory ten_table 2 5 [50; 51; 52; 53; 54]) as (m' & E & H & _); [exact ten_ok|lia..|cbn; lia|].
  exists m'. split; [exact E|exact H].
Defined.

(** when [OcAppleRamDiskLoadFile] returns TRUE, the RAM disk begins with the
    [FileSize] bytes of the file, whatever the sizes of the extents and however the
    4 MB pieces fall on them; the disk was large enough, and no memory outside of
    the extents has changed. The loops always end, also when the file fails. *)
Theorem LoadFile_loads {Firm : Firmware} {HF : FileProtocol} debug data fw m t f FileSize :
  FileLaws HF data -> disk_ok m t -> 0 < FileSize < 2 ^ 64 ->
  exists fw' f' m' b, OcAppleRamDiskLoadFile debug fw m t f FileSize = Ret (fw', f', m', b)
  /\ length m' = length m /\ (forall a, 0 <= a -> (forall e, e ∈ used t -> ~ in_extent e a) -> m' !! Z.to_nat a = m !! Z.to_nat a)
  /\ (b = true -> FileSize <= Z.of_nat (length (flat m t)) /\ slice (flat m' t) 0 FileSize = slice data 0 FileSize
       /\ Z.of_nat (length (slice data 0 FileSize)) = FileSize).
Proof.
  intros HFL HD HS. pose proof HD as [_ H2 H3 H4 H5]. unfold OcAppleRamDiskLoadFile. rewrite (valid_table debug t m HD). cbn [mbind outcome_bind].
  rewrite assert_holds by (apply bool_decide_eq_true_2; lia). cbn [mbind outcome_bind]. destruct (AllocatePool fw BASE_4MB) as [[b fw1]|]; [|eexists _, _, _, _; split; [done|]; done].
  destruct (load_walk data debug t H3 ltac:(lia) (used t) (S (Z.to_nat (ExtentCount t))) 0 f m 0 FileSize) as (f1 & m1 & FP1 & FS1 & ok & E & [U1 U2] & HS1);
    [done|done|done|lia|lia|lia|pose proof (used_length m t HD); lia|].
  match goal with |- context [while_ ?a ?b ?c] => replace (while_ a b c) with (@Ret (load_state * bool) (f1, m1, FP1, FS1, ok)) by (symmetry; exact E) end.
  cbn [mbind outcome_bind]. eexists _, _, _, _. split; [done|]. split; [done|]. split; [done|]. intros [-> Hz%bool_decide_eq_true]%andb_true_iff.
  destruct (HS1 eq_refl) as (xs & Hl & Hx & Hfs & [W1 W2 W3]). cbv zeta in *. pose proof (contents_length m _ H4) as Hcl. unfold flat.
  assert (Z.min FileSize (total (used t)) = FileSize) as Em by lia. rewrite Em in *. split; [lia|]. split; [|by rewrite <- Hx].
  rewrite W2. change (Z.to_nat 0) with 0%nat. rewrite <- Hx. rewrite <- Hl at 1. apply (slice_inserts_same _ xs 0); lia.
Qed.

Lemma LoadFile_loads_witness : let data := [1; 2; 3; 4; 5; 6; 7] in
  exists fw' f' m' b, @OcAppleRamDiskLoadFile true small_firmware (memory_file data) [] ten_memory ten_table 0 7 = Ret (fw', f', m', b)
  /\ b = true /\ slice (flat m' ten_table) 0 7 = data.
Proof.
  intros data. destruct (@LoadFile_loads small_firmware (memory_file data) true data [] ten_memory ten_table 0 7 (memory_file_laws data) ten_ok) as (fw' & f' & m' & b & E & _ & _ & H); [lia|].
  exists fw', f', m', b. split; [exact E|]. vm_compute in E. injection E as <- <- <- <-. split; [reflexivity|]. exact (proj1 (proj2 (H eq_refl))).
Defined.



(** [OcAppleRamDiskFree] of a RAM disk that was allocated gives back exactly
    its pages: afterwards the same pages are allocated as before the allocation. *)
Theorem Allocate_Free_roundtrip {Firm : Firmware} {HFL : FirmwareLaws Firm} {HL : PageLaws Firm} debug fw m Size ty fw1 m1 p t :
  maps_ok Firm -> MemorySize < 2 ^ 64 - PAGE -> Z.of_nat (length m) = MemorySize -> 0 < Size < 2 ^ 64 -> (debug = true -> (PAGE | Size)) ->
  OcAppleRamDiskAllocate debug (fw, m) Size ty = Ret (fw1, m1, Some (p, t)) ->
  exists fw2, OcAppleRamDiskFree debug fw1 p t = Ret fw2 /\ forall x, owned fw2 x <-> owned fw x.
Proof.
  intros Hmaps Hsmall Hm HS Hdbg EA. destruct (Allocate_spec debug Hmaps Hsmall fw m Size ty Hm HS Hdbg) as (fw' & m' & tbl & E & Hl & Ht).
  rewrite E in EA. injection EA as -> -> ->. by apply (Free_spec debug fw fw1 m1 p t Size).
Qed.

Lemma Allocate_Free_roundtrip_witness : exists m1 fw2,
  @OcAppleRamDiskAllocate false small_firmware ([], replicate (Z.to_nat small_size) 0) PAGE EfiLoaderData = Ret ([1; 2], m1, Some (PAGE, small_table))
  /\ @OcAppleRamDiskFree false small_firmware [1; 2] PAGE small_table = Ret fw2 /\ forall x, owned fw2 x <-> owned ([] : @Fw small_firmware) x.
Proof.
  assert (length (replicate (Z.to_nat small_size) 0) = Z.to_nat small_size) as Hm by apply length_replicate.
  destruct (small_allocation _ Hm) as (m1 & E). exists m1.
  destruct (@Allocate_Free_roundtrip small_firmware small_laws small_pages false [] (replicate (Z.to_nat small_size) 0) PAGE EfiLoaderData [1; 2] m1 PAGE small_table) as (fw2 & E2 & H);
    [exact small_maps|reflexivity|rewrite Hm; reflexivity|split; reflexivity|discriminate|exact E|].
  exists fw2. split; [exact E|]. split; [exact E2|exact H].
Defined.

(** ** Behaviours at the edges *)

(** When the first area has one page, it holds only the table, and the first extent
    is an area of its own. [OcAppleRamDiskFree] then frees the page behind the
    table and leaves the pages of the first extent allocated. *)
Lemma one_page_area_not_freed :
  exists t, AppendExtent NewTable (Extent 12288 4096) = Ret t
  /\ @OcAppleRamDiskFree true small_firmware [1; 3] PAGE t = Ret [3].
Proof. eexists. split; [reflexivity|]. vm_compute. reflexivity. Qed.

(** A rest of less than a page stops a debug build: the area of an extent has to
    have the size of a page or more. *)
Lemma small_rest_asserts m tbl : InternalAddAllocatedArea true m tbl PAGE 1000 = Fault AssertFailed.
Proof. reflexivity. Qed.

End RamDisk.
