(* ===== verification/Chunklist.v ===== *)
(** * Chunk lists: [Library/OcAppleChunklistLib/OcAppleChunklistLib.c]

    A chunk list holds the SHA-256 checksums of the successive chunks of a disk
    image and an RSA signature. The theorems state which buffers are accepted,
    that the data check compares every chunk of the RAM disk, and what the
    signature check of [InternalGetDiskImageBootFile]
    (Library/OcBootManagementLib/DmgBootSupport.c) makes of it. Memory is that of
    the RAM disk; keys and the RSA scratch buffer live in the word memory of Rsa.v. *)
From stdpp Require Import gmap.
From S2P Require Import Prelude WordMemory BigNumPrimitives BigNumMod BigNumMontgomery Rsa MemoryMap MemoryAttributes Digest Sha512 Sha2 RamDisk.

Module Chunklist.

(** ** Data *)

Definition APPLE_CHUNKLIST_MAGIC : Z := 0x4C4B4E43.
Definition APPLE_CHUNKLIST_FILE_VERSION_10 : Z := 1.
Definition APPLE_CHUNKLIST_CHUNK_METHOD_10 : Z := 1.
Definition APPLE_CHUNKLIST_SIG_METHOD_10 : Z := 1.
Definition SHA256_DIGEST_SIZE : Z := 32.

(** The packed structures, by their sizes. *)
Definition sizeof_HEADER : Z := 36.
Definition sizeof_CHUNK : Z := 36.
Definition sizeof_SIG : Z := 256.

Record APPLE_CHUNKLIST_HEADER : Set := Header {
  Magic : Z; Length : Z; FileVersion : Z; ChunkMethod : Z; SigMethod : Z; HdrChunkCount : Z; ChunkOffset : Z; SigOffset : Z
}.
Record APPLE_CHUNKLIST_CHUNK : Set := Chunk { ChunkLength : Z; Checksum : list Z }.
Record OC_APPLE_CHUNKLIST_CONTEXT : Set := Context_ { ChunkCount : Z; Chunks : Z; Signature : Z; Hash : list Z }.

Inductive OC_DMG_LOADING_SUPPORT : Set := OcDmgLoadingDisabled | OcDmgLoadingAnyImage | OcDmgLoadingAppleSigned.
#[export] Instance dmg_loading_dec : EqDecision OC_DMG_LOADING_SUPPORT.
Proof. solve_decision. Defined.

(** ** Model *)
Section Model.
(** Whether ASSERTs and debug code are compiled in, and the content of the
    uninitialised variables of the hash function. *)
Context (debug : bool) (MJunk Junk : list Z).
Let ASSERT (b : bool) : outcome unit := MemoryAttributes.ASSERT debug b.

(** The [n]-byte field at [a]. *)
Definition Field (m : list Z) (a n : Z) : outcome Z := l ← rd_slice m a n; Ret (le_value 8 l).

Definition ReadHeader (m : list Z) (p : Z) : outcome APPLE_CHUNKLIST_HEADER :=
  Magic ← Field m p 4;
  Length ← Field m (p + 4) 4;
  FileVersion ← Field m (p + 8) 1;
  ChunkMethod ← Field m (p + 9) 1;
  SigMethod ← Field m (p + 10) 1;
  ChunkCount ← Field m (p + 12) 8;
  ChunkOffset ← Field m (p + 20) 8;
  SigOffset ← Field m (p + 28) 8;
  Ret (Header Magic Length FileVersion ChunkMethod SigMethod ChunkCount ChunkOffset SigOffset).

Definition ReadChunk (m : list Z) (p : Z) : outcome APPLE_CHUNKLIST_CHUNK :=
  Length ← Field m p 4;
  Checksum ← rd_slice m (p + 4) SHA256_DIGEST_SIZE;
  Ret (Chunk Length Checksum).

Definition set_Chunks (c : OC_APPLE_CHUNKLIST_CONTEXT) (x : Z) := Context_ c.(ChunkCount) x c.(Signature) c.(Hash).
Definition set_Signature (c : OC_APPLE_CHUNKLIST_CONTEXT) (x : Z) := Context_ c.(ChunkCount) c.(Chunks) x c.(Hash).
Definition set_ChunkCount (c : OC_APPLE_CHUNKLIST_CONTEXT) (x : Z) := Context_ x c.(Chunks) c.(Signature) c.(Hash).
Definition set_Hash (c : OC_APPLE_CHUNKLIST_CONTEXT) (x : list Z) := Context_ c.(ChunkCount) c.(Chunks) c.(Signature) x.

(** [BaseOverflowMulAddUN]: [a * b + c]. *)
Definition overflow_mul_add (a b c : Z) : bool * Z :=
  let '(o1, r) := overflow_mul 64 a b in let '(o2, r) := overflow_add 64 r c in (o1 || o2, r).

(** The loop that reverses the signature. *)
Definition SwapSignature (m : list Z) (Signature : Z) : outcome (list Z) :=
  let SigLength := sizeof_SIG in
  for_ (Z.to_nat (SigLength / 2)) 0 (fun Index m =>
    SwapValue ← rd m (Signature + Index);
    x ← rd m (Signature + (SigLength - Index - 1));
    m ← wr m (Signature + Index) x;
    wr m (Signature + (SigLength - Index - 1)) SwapValue) m.

(** Memory, [*Context] and the result. *)
Definition OcAppleChunklistInitializeContext (m : list Z) (Context : OC_APPLE_CHUNKLIST_CONTEXT) (Buffer BufferSize : Z)
  : outcome (list Z * OC_APPLE_CHUNKLIST_CONTEXT * bool) :=
  ASSERT (bool_decide (Buffer <> 0));;
  ASSERT (bool_decide (0 < BufferSize));;
  if decide (BufferSize < sizeof_HEADER) then Ret (m, Context, false) else
  h ← ReadHeader m Buffer;
  if decide (h.(Magic) <> APPLE_CHUNKLIST_MAGIC \/ h.(Length) <> sizeof_HEADER \/ h.(FileVersion) <> APPLE_CHUNKLIST_FILE_VERSION_10
    \/ h.(ChunkMethod) <> APPLE_CHUNKLIST_CHUNK_METHOD_10 \/ h.(SigMethod) <> APPLE_CHUNKLIST_SIG_METHOD_10)
  then Ret (m, Context, false) else
  let '(Overflow, p) := overflow_add 64 Buffer h.(ChunkOffset) in
  let Context := set_Chunks Context p in
  if (Overflow : bool) then Ret (m, Context, false) else
  let '(Overflow, p) := overflow_add 64 Buffer h.(SigOffset) in
  let Context := set_Signature Context p in
  if (Overflow : bool) then Ret (m, Context, false) else
  if decide (MAX_UINT64 < h.(HdrChunkCount)) then Ret (m, Context, false) else
  let Context := set_ChunkCount Context h.(HdrChunkCount) in
  let '(Overflow, DataEnd) := overflow_mul_add sizeof_CHUNK Context.(ChunkCount) Context.(Chunks) in
  if decide (Overflow = true \/ Buffer +[64] BufferSize < DataEnd) then Ret (m, Context, false) else
  let '(Overflow, DataEnd) := overflow_add 64 sizeof_SIG Context.(Signature) in
  if decide (Overflow = true \/ DataEnd <> Buffer +[64] BufferSize) then Ret (m, Context, false) else
  Data ← rd_slice m Buffer h.(SigOffset);
  Digest ← Digest.Sha256 MJunk Junk Context.(Hash) Data h.(SigOffset);
  m ← SwapSignature m Context.(Signature);
  Ret (m, set_Hash Context Digest, true).

(** The largest chunk. *)
Definition MaxLength (m : list Z) (Context : OC_APPLE_CHUNKLIST_CONTEXT) : outcome Z :=
  for_ (Z.to_nat Context.(ChunkCount)) 0 (fun Index ChunkDataSize =>
    Length ← Field m (Context.(Chunks) +[64] sizeof_CHUNK * Index) 4;
    Ret (if decide (ChunkDataSize < Length) then Length else ChunkDataSize)) 0.

(** One turn of the loop; the state is [Index], [CurrentOffset], the buffer
    [ChunkData] and [ChunkHash]. *)
Definition VerifyStep (m : list Z) (Context : OC_APPLE_CHUNKLIST_CONTEXT) (t : RamDisk.APPLE_RAM_DISK_EXTENT_TABLE)
  (s : Z * Z * list Z * list Z) : outcome (Z * Z * list Z * list Z + bool) :=
  let '(Index, CurrentOffset, ChunkData, ChunkHash) := s in
  if decide (Index < Context.(ChunkCount)) then
    CurrentChunk ← ReadChunk m (Context.(Chunks) +[64] sizeof_CHUNK * Index);
    '(Result, ChunkData) ← RamDisk.OcAppleRamDiskRead debug m t CurrentOffset CurrentChunk.(ChunkLength) ChunkData;
    if negb Result then Ret (inr false) else
    Data ← rd_slice ChunkData 0 CurrentChunk.(ChunkLength);
    ChunkHash ← Digest.Sha256 MJunk Junk ChunkHash Data CurrentChunk.(ChunkLength);
    c ← Rsa.CompareMem ChunkHash 0 CurrentChunk.(Checksum) SHA256_DIGEST_SIZE;
    if decide (c <> 0) then Ret (inr false) else
    Ret (inl (Index +[64] 1, CurrentOffset +[64] CurrentChunk.(ChunkLength), ChunkData, ChunkHash))
  else Ret (inr true).

Context `{MemoryPool}.

(** [ChunkHash] starts with arbitrary content. *)
Definition OcAppleChunklistVerifyData (m : list Z) (Context : OC_APPLE_CHUNKLIST_CONTEXT) (t : RamDisk.APPLE_RAM_DISK_EXTENT_TABLE)
  (ChunkHash : list Z) : outcome bool :=
  ASSERT (bool_decide (Context.(Chunks) <> 0));;
  ASSERT (bool_decide (Context.(Signature) = 0));;
  ChunkDataSize ← MaxLength m Context;
  match AllocatePool ChunkDataSize with
  | None => Ret false
  | Some ChunkData => while_ (S (Z.to_nat Context.(ChunkCount))) (VerifyStep m Context t) (0, 0, ChunkData, ChunkHash)
  end.

Context {Build : BnBuild} {Swap : SwapBytesLib} {Pcd : CryptoPcd} {Pool : WordPool}.

(** The word memory, [*Context] and the result. *)
Definition OcAppleChunklistVerifySignature (m : list Z) (wm : mem) (Context : OC_APPLE_CHUNKLIST_CONTEXT) (PublicKey : Rsa.OC_RSA_PUBLIC_KEY)
  : outcome (mem * OC_APPLE_CHUNKLIST_CONTEXT * bool) :=
  ASSERT (bool_decide (Context.(Signature) <> 0));;
  Sig ← rd_slice m Context.(Signature) sizeof_SIG;
  '(wm, Result) ← Rsa.RsaVerifySigHashFromKeyDynalloc wm PublicKey Sig sizeof_SIG Context.(Hash) SHA256_DIGEST_SIZE Rsa.OcSigHashTypeSha256;
  Ret (wm, if debug && Result then set_Signature Context 0 else Context, Result).

(** The check of a disk image before it is installed (lines 131-180): the buffer
    of the chunk list, if there is one, the two keys of [PkDataBase] and the
    uninitialised [ChunklistContext]. *)
Definition VerifyDiskImage (m : list Z) (wm : mem) (DmgLoading : OC_DMG_LOADING_SUPPORT) (t : RamDisk.APPLE_RAM_DISK_EXTENT_TABLE)
  (Chunklist : option (Z * Z)) (Key0 Key1 : Rsa.OC_RSA_PUBLIC_KEY) (ChunklistContext : OC_APPLE_CHUNKLIST_CONTEXT) (ChunkHash : list Z)
  : outcome (list Z * mem * bool) :=
  if decide (DmgLoading = OcDmgLoadingAppleSigned) then
    match Chunklist with
    | None => Ret (m, wm, false)
    | Some (ChunklistBuffer, ChunklistBufferSize) =>
        ASSERT (bool_decide (0 < ChunklistBufferSize));;
        '(m, Context, Result) ← OcAppleChunklistInitializeContext m ChunklistContext ChunklistBuffer ChunklistBufferSize;
        if negb Result then Ret (m, wm, false) else
        '(wm, Context, Result) ← OcAppleChunklistVerifySignature m wm Context Key0;
        '(wm, Context, Result) ← (if (Result : bool) then Ret (wm, Context, Result) else OcAppleChunklistVerifySignature m wm Context Key1);
        if negb Result then Ret (m, wm, false) else
        Result ← OcAppleChunklistVerifyData m Context t ChunkHash;
        Ret (m, wm, Result)
    end
  else Ret (m, wm, true).

End Model.

(** ** Specification *)

Definition field (m : list Z) (a n : Z) : Z := le_value 8 (slice m a n).
Definition header_at (m : list Z) (p : Z) : APPLE_CHUNKLIST_HEADER :=
  Header (field m p 4) (field m (p + 4) 4) (field m (p + 8) 1) (field m (p + 9) 1) (field m (p + 10) 1)
    (field m (p + 12) 8) (field m (p + 20) 8) (field m (p + 28) 8).
Definition chunk_at (m : list Z) (p : Z) : APPLE_CHUNKLIST_CHUNK := Chunk (field m p 4) (slice m (p + 4) SHA256_DIGEST_SIZE).
Definition chunks_at (m : list Z) (p n : Z) : list APPLE_CHUNKLIST_CHUNK := (fun i => chunk_at m (p + sizeof_CHUNK * i)) <$> seqZ 0 n.

(** A chunk list of [n] bytes: the fixed fields of the header, the chunk table
    inside of it, and the signature at its end. *)
Definition well_formed (h : APPLE_CHUNKLIST_HEADER) (n : Z) : Prop :=
  h.(Magic) = APPLE_CHUNKLIST_MAGIC /\ h.(Length) = sizeof_HEADER /\ h.(FileVersion) = 1 /\ h.(ChunkMethod) = 1 /\ h.(SigMethod) = 1
  /\ h.(ChunkOffset) + sizeof_CHUNK * h.(HdrChunkCount) <= n /\ h.(SigOffset) + sizeof_SIG = n.
#[export] Instance well_formed_dec h n : Decision (well_formed h n).
Proof. unfold well_formed. apply _. Defined.

(** The successive chunks of a disk from an offset on. *)
Fixpoint matches (disk : list Z) (Offset : Z) (l : list APPLE_CHUNKLIST_CHUNK) : Prop :=
  match l with
  | [] => True
  | c :: l => Offset + Z.max 1 c.(ChunkLength) <= Z.of_nat (length disk)
      /\ Digest.sha256_digest (slice disk Offset c.(ChunkLength)) = c.(Checksum) /\ matches disk (Offset + c.(ChunkLength)) l
  end.
#[export] Instance matches_dec disk : forall Offset l, Decision (matches disk Offset l).
Proof. intros Offset l. revert Offset. induction l; intros Offset; simpl; apply _. Defined.

(** ** Lemmas *)

Lemma le_value_range l : Forall is_byte l -> 0 <= le_value 8 l < 2 ^ (8 * Z.of_nat (length l)).
Proof.
  induction 1 as [|b l Hb Hl IH]; [done|]. cbn [le_value length]. unfold is_byte, in_width in Hb.
  replace (8 * Z.of_nat (S (length l))) with (8 + 8 * Z.of_nat (length l)) by lia. rewrite Z.pow_add_r by lia. nia.
Qed.

Lemma slice_bytes l o n : Forall is_byte l -> Forall is_byte (slice l o n).
Proof. intros H. unfold slice. by apply Forall_take, Forall_drop. Qed.

Lemma field_range m a n : Forall is_byte m -> 0 <= a -> 0 <= n -> a + n <= Z.of_nat (length m) -> 0 <= field m a n < 2 ^ (8 * n).
Proof.
  intros Hm Ha Hn H. pose proof (le_value_range _ (slice_bytes m a n Hm)) as Hr. rewrite slice_length in Hr by lia.
  by rewrite Z2Nat.id in Hr by done.
Qed.

Lemma Field_in m a n : 0 <= a -> 0 <= n -> a + n <= Z.of_nat (length m) -> Field m a n = Ret (field m a n).
Proof. intros Ha Hn H. unfold Field. by rewrite rd_slice_in by lia. Qed.

Lemma ReadHeader_in m p : 0 <= p -> p + sizeof_HEADER <= Z.of_nat (length m) -> ReadHeader m p = Ret (header_at m p).
Proof. unfold sizeof_HEADER. intros Hp H. unfold ReadHeader. by rewrite !Field_in by lia. Qed.

Lemma ReadChunk_in m p : 0 <= p -> p + sizeof_CHUNK <= Z.of_nat (length m) -> ReadChunk m p = Ret (chunk_at m p).
Proof.
  unfold sizeof_CHUNK. intros Hp H. unfold ReadChunk, SHA256_DIGEST_SIZE. rewrite Field_in by lia. cbn [mbind outcome_bind].
  by rewrite rd_slice_in by lia.
Qed.

(** *** The reversed signature *)

(** The bytes after [j] turns of the loop. *)
Definition swapped (m m' : list Z) (p j : Z) : Prop :=
  length m' = length m /\ forall k, 0 <= k -> m' !! Z.to_nat k =
    m !! Z.to_nat (if decide (p <= k < p + j \/ p + sizeof_SIG - j <= k < p + sizeof_SIG) then 2 * p + sizeof_SIG - 1 - k else k).

Lemma wr_lookup {A} (l : list A) i x : 0 <= i < Z.of_nat (length l) ->
  wr l i x = Ret (<[Z.to_nat i := x]> l) /\ forall k, 0 <= k -> <[Z.to_nat i := x]> l !! Z.to_nat k = if decide (k = i) then Some x else l !! Z.to_nat k.
Proof.
  intros Hi. split; [by apply wr_in|]. intros k Hk. case_decide as E; [subst k; apply list_lookup_insert_eq; lia|]. apply list_lookup_insert_ne. lia.
Qed.

Lemma swap_turn m m' p j : 0 <= p -> p + sizeof_SIG <= Z.of_nat (length m) -> 0 <= j < 128 -> swapped m m' p j ->
  exists m'', (SwapValue ← rd m' (p + j); x ← rd m' (p + (sizeof_SIG - j - 1)); m ← wr m' (p + j) x; wr m (p + (sizeof_SIG - j - 1)) SwapValue) = Ret m''
    /\ swapped m m'' p (j + 1).
Proof.
  unfold sizeof_SIG. intros Hp Hm Hj (HL & HS). unfold sizeof_SIG in HS.
  destruct (lookup_lt_is_Some_2 m (Z.to_nat (p + j))) as [a Ha]; [lia|]. destruct (lookup_lt_is_Some_2 m (Z.to_nat (p + (256 - j - 1)))) as [b Hb]; [lia|].
  assert (m' !! Z.to_nat (p + j) = Some a) as Ha' by (rewrite HS by lia; rewrite decide_False by lia; done).
  assert (m' !! Z.to_nat (p + (256 - j - 1)) = Some b) as Hb' by (rewrite HS by lia; rewrite decide_False by lia; done).
  rewrite (rd_lookup m' (p + j) a), (rd_lookup m' (p + (256 - j - 1)) b) by (done || lia). cbn [mbind outcome_bind].
  destruct (wr_lookup m' (p + j) b ltac:(lia)) as [-> L1]. cbn [mbind outcome_bind]. set (m1 := <[Z.to_nat (p + j) := b]> m') in *.
  assert (length m1 = length m') as HL1 by apply length_insert.
  destruct (wr_lookup m1 (p + (256 - j - 1)) a ltac:(lia)) as [-> L2]. eexists. split; [done|]. split; [rewrite length_insert; lia|].
  intros k Hk. rewrite L2, L1, HS by lia. unfold sizeof_SIG. destruct (decide (k = p + (256 - j - 1))) as [->|].
  - rewrite decide_True by lia. rewrite <- Ha. f_equal. lia.
  - destruct (decide (k = p + j)) as [->|].
    + rewrite decide_True by lia. rewrite <- Hb. f_equal. lia.
    + f_equal. f_equal. repeat case_decide; lia.
Qed.

Lemma SwapSignature_spec m p : 0 <= p -> p + sizeof_SIG <= Z.of_nat (length m) ->
  SwapSignature m p = Ret (list_inserts (Z.to_nat p) (rev (slice m p sizeof_SIG)) m).
Proof.
  intros Hp Hm. unfold SwapSignature. change (Z.to_nat (sizeof_SIG / 2)) with 128%nat.
  oc_for (fun j m' => swapped m m' p j) as m' Hm'.
  - split; [done|]. intros k Hk. by rewrite decide_False by (unfold sizeof_SIG; lia).
  - intros j m' Hj Hs. apply swap_turn; (done || lia).
  - change (0 + Z.of_nat 128) with 128 in Hm'. unfold swapped in Hm'. destruct Hm' as [HL HS]. f_equal. unfold sizeof_SIG in *.
    assert (length (slice m p 256) = 256%nat) as Hs by (rewrite slice_length by lia; done).
    apply list_eq. intros i. rewrite lookup_inserts by (rewrite length_rev; lia). rewrite length_rev, Hs.
    specialize (HS (Z.of_nat i) ltac:(lia)). rewrite Nat2Z.id in HS. rewrite HS. case_decide as E.
    + rewrite decide_True by lia. rewrite rev_alt. fold (@reverse Z (slice m p 256)). rewrite reverse_lookup by lia. rewrite Hs, lookup_slice by lia. f_equal. lia.
    + rewrite decide_False by lia. by rewrite Nat2Z.id.
Qed.

(** *** Initialisation *)

Section Init.
Context (debug : bool) (MJunk Junk : list Z) (m : list Z) (Buffer BufferSize : Z).
Context (HM : length MJunk = 64%nat) (HJ : length Junk = 64%nat) (Hm : Forall is_byte m) (Hmax : Z.of_nat (length m) < 2 ^ 64).
Context (HB : 0 < Buffer) (HN : 0 < BufferSize < 2 ^ 32) (Hin : Buffer + BufferSize <= Z.of_nat (length m)).

Context (h : APPLE_CHUNKLIST_HEADER) (Hh : h = header_at m Buffer).

(** The context of an accepted chunk list, and memory with the reversed signature. *)
Definition accepted : OC_APPLE_CHUNKLIST_CONTEXT :=
  Context_ h.(HdrChunkCount) (Buffer + h.(ChunkOffset)) (Buffer + h.(SigOffset)) (Digest.sha256_digest (slice m Buffer h.(SigOffset))).
Definition swapped_memory : list Z :=
  list_inserts (Z.to_nat (Buffer + h.(SigOffset))) (rev (slice m (Buffer + h.(SigOffset)) sizeof_SIG)) m.

Lemma header_ranges : sizeof_HEADER <= BufferSize -> 0 <= h.(HdrChunkCount) < 2 ^ 64 /\ 0 <= h.(ChunkOffset) < 2 ^ 64 /\ 0 <= h.(SigOffset) < 2 ^ 64.
Proof using All.
  unfold sizeof_HEADER. intros Hs. rewrite Hh. unfold header_at. cbn [HdrChunkCount ChunkOffset SigOffset].
  split_and!; apply (field_range m _ 8 Hm); lia.
Qed.

Lemma InitializeContext_spec ctx : length ctx.(Hash) = 32%nat ->
  exists m' ctx', OcAppleChunklistInitializeContext debug MJunk Junk m ctx Buffer BufferSize = Ret (m', ctx', bool_decide (well_formed h BufferSize))
  /\ (well_formed h BufferSize -> ctx' = accepted /\ m' = swapped_memory) /\ (~ well_formed h BufferSize -> m' = m).
Proof using All.
  intros HH. unfold OcAppleChunklistInitializeContext. rewrite !RamDisk.assert_holds by (apply bool_decide_eq_true_2; lia). cbn [mbind outcome_bind].
  assert (forall m' ctx', ~ well_formed h BufferSize -> exists m'' ctx'', Ret (m, ctx', false) = Ret (m'', ctx'', bool_decide (well_formed h BufferSize))
    /\ (well_formed h BufferSize -> ctx'' = accepted /\ m'' = m') /\ (~ well_formed h BufferSize -> m'' = m)) as Hreject.
  { intros m' ctx' Hn. exists m, ctx'. by rewrite bool_decide_eq_false_2 by done. }
  destruct (decide (BufferSize < sizeof_HEADER)) as [Hs|Hs].
  { apply Hreject. intros (_ & _ & _ & _ & _ & H1 & H2). unfold sizeof_SIG, sizeof_HEADER in *. 
    assert (0 <= SigOffset h); [|lia]. rewrite Hh. unfold header_at. cbn [SigOffset].
    unfold field. apply le_value_range. by apply slice_bytes. }
  destruct header_ranges as (R1 & R2 & R3); [unfold sizeof_HEADER in *; lia|].
  rewrite ReadHeader_in by (unfold sizeof_HEADER in *; lia). rewrite <- Hh. cbn [mbind outcome_bind].
  unfold APPLE_CHUNKLIST_FILE_VERSION_10, APPLE_CHUNKLIST_CHUNK_METHOD_10, APPLE_CHUNKLIST_SIG_METHOD_10.
  destruct (decide (Magic h <> APPLE_CHUNKLIST_MAGIC \/ _)) as [Hf|Hf]; [apply Hreject; unfold well_formed; tauto|].
  unfold overflow_add at 1. cbv zeta. destruct (bool_decide_reflect (2 ^ 64 <= Buffer + ChunkOffset h)) as [O1|O1].
  { apply Hreject. intros (_ & _ & _ & _ & _ & H1 & H2). unfold sizeof_SIG, sizeof_CHUNK in *. lia. }
  unfold overflow_add at 1. destruct (bool_decide_reflect (2 ^ 64 <= Buffer + SigOffset h)) as [O2|O2].
  { apply Hreject. intros (_ & _ & _ & _ & _ & H1 & H2). unfold sizeof_SIG in *. lia. }
  unfold MAX_UINT64. rewrite decide_False by lia. cbn [set_ChunkCount set_Signature set_Chunks ChunkCount Chunks Signature Hash].
  rewrite (wrap_small 64 (Buffer + ChunkOffset h)), (wrap_small 64 (Buffer + SigOffset h)), (wrap_small 64 (Buffer + BufferSize)) by lia.
  unfold overflow_mul_add, overflow_mul, overflow_add. cbv zeta.
  destruct (decide (bool_decide (2 ^ 64 <= sizeof_CHUNK * HdrChunkCount h) || _ = true \/ _)) as [O3|O3].
  { apply Hreject. intros (_ & _ & _ & _ & _ & H1 & H2). unfold sizeof_SIG, sizeof_CHUNK in *.
    rewrite (wrap_small 64 (36 * _)), wrap_small, orb_true_iff, !bool_decide_eq_true in O3 by lia. lia. }
  assert (2 ^ 64 > sizeof_CHUNK * HdrChunkCount h /\ 2 ^ 64 > sizeof_CHUNK * HdrChunkCount h + (Buffer + ChunkOffset h)) as [O4 O5].
  { apply Decidable.not_or in O3 as [O3 _]. rewrite orb_true_iff, !bool_decide_eq_true in O3. unfold sizeof_CHUNK in *.
    rewrite (wrap_small 64 (36 * _)) in O3 by lia. lia. }
  unfold sizeof_CHUNK in *. rewrite (wrap_small 64 (36 * _)), (wrap_small 64 (36 * _ + _)) in O3 by lia. apply Decidable.not_or in O3 as [_ O3].
  destruct (decide (bool_decide (2 ^ 64 <= sizeof_SIG + _) = true \/ _)) as [O6|O6].
  { apply Hreject. intros (_ & _ & _ & _ & _ & H1 & H2). unfold sizeof_SIG in *. rewrite wrap_small, bool_decide_eq_true in O6 by lia. lia. }
  apply Decidable.not_or in O6 as [O6 O7]. rewrite bool_decide_eq_true in O6. unfold sizeof_SIG in O6, O7. rewrite wrap_small in O7 by lia.
  assert (well_formed h BufferSize) as Hwf.
  { clear - Hf O3 O7. unfold well_formed, sizeof_SIG, sizeof_CHUNK.
    destruct h as [x1 x2 x3 x4 x5 x6 x7 x8]. cbn in *. unfold sizeof_HEADER in *. lia. }
  rewrite rd_slice_in by lia. rewrite bind_ret. cbv beta.
  assert (Z.of_nat (length (slice m Buffer (SigOffset h))) = SigOffset h) as HL by (rewrite slice_length by lia; lia).
  pose proof (Sha2.Sha256_computes MJunk Junk (Hash ctx) (slice m Buffer (SigOffset h)) HM HJ HH (slice_bytes _ _ _ Hm) ltac:(lia)) as HS.
  rewrite HL in HS. rewrite HS, bind_ret. cbv beta.
  rewrite SwapSignature_spec by (unfold sizeof_SIG; lia). rewrite bind_ret. cbv beta. eexists _, _. rewrite bool_decide_eq_true_2 by done.
  split; [done|]. split; [|tauto]. intros _. split; [|done]. unfold accepted, set_Hash. by rewrite Sha2.sha2_lib_sha256.
Qed.
End Init.

(** *** The data check *)

Lemma chunks_at_snoc m p n : 0 <= n -> chunks_at m p (n + 1) = chunks_at m p n ++ [chunk_at m (p + sizeof_CHUNK * n)].
Proof. intros Hn. unfold chunks_at. rewrite seqZ_app by lia. by rewrite fmap_app. Qed.

Lemma chunks_at_lookup m p n i : 0 <= i < n -> chunks_at m p n !! Z.to_nat i = Some (chunk_at m (p + sizeof_CHUNK * i)).
Proof. intros Hi. unfold chunks_at. rewrite list_lookup_fmap, lookup_seqZ_lt by lia. cbn [fmap option_fmap option_map]. by rewrite Z.add_0_l, Z2Nat.id by lia. Qed.

Lemma chunks_at_length m p n : 0 <= n -> length (chunks_at m p n) = Z.to_nat n.
Proof. intros. unfold chunks_at. by rewrite length_fmap, length_seqZ. Qed.

Lemma max_length_le l : forall a c, c ∈ l \/ ChunkLength c <= a -> ChunkLength c <= foldl (fun a c => Z.max a c.(ChunkLength)) a l.
Proof.
  induction l as [|d l IH]; intros a c [H|H]; [by apply elem_of_nil in H|done| |]; cbn [foldl]; apply IH; [|right; lia].
  apply elem_of_cons in H as [->|H]; [right; lia|by left].
Qed.

(** The table of the context inside memory. *)
Definition table_in (m : list Z) (ctx : OC_APPLE_CHUNKLIST_CONTEXT) : Prop :=
  0 < ctx.(Chunks) /\ 0 <= ctx.(ChunkCount) /\ ctx.(Chunks) + sizeof_CHUNK * ctx.(ChunkCount) <= Z.of_nat (length m) < 2 ^ 64.
Definition table (m : list Z) (ctx : OC_APPLE_CHUNKLIST_CONTEXT) : list APPLE_CHUNKLIST_CHUNK := chunks_at m ctx.(Chunks) ctx.(ChunkCount).
Definition max_length (l : list APPLE_CHUNKLIST_CHUNK) : Z := foldl (fun a c => Z.max a c.(ChunkLength)) 0 l.

Lemma MaxLength_spec m ctx : table_in m ctx -> MaxLength m ctx = Ret (max_length (table m ctx)).
Proof.
  unfold table_in, sizeof_CHUNK. intros (HP & HC & Hin & Hm). unfold MaxLength, table, sizeof_CHUNK.
  oc_for (fun j a => a = max_length (chunks_at m ctx.(Chunks) j)) as a Ha.
  - done.
  - intros j a Hj ->. rewrite wrap_small by lia. rewrite Field_in by lia. cbn [mbind outcome_bind]. eexists. split; [done|].
    rewrite chunks_at_snoc by lia. unfold max_length. rewrite foldl_app. unfold sizeof_CHUNK. cbn [foldl chunk_at ChunkLength]. case_decide; lia.
  - f_equal. rewrite Ha. f_equal. f_equal. lia.
Qed.

Section Data.
Context (debug : bool) (MJunk Junk : list Z) (m : list Z) (ctx : OC_APPLE_CHUNKLIST_CONTEXT) (t : RamDisk.APPLE_RAM_DISK_EXTENT_TABLE).
Context (HM : length MJunk = 64%nat) (HJ : length Junk = 64%nat) (Hm : Forall is_byte m) (HD : RamDisk.disk_ok m t).
Context (Htot : RamDisk.total (RamDisk.used t) + 2 ^ 32 < 2 ^ 64) (HT : table_in m ctx).
Context (Hpos : debug = true -> Forall (fun c => 0 < c.(ChunkLength)) (table m ctx)).

Lemma flat_bytes : Forall is_byte (RamDisk.flat m t).
Proof using All.
  unfold RamDisk.flat, RamDisk.contents. apply Forall_concat, Forall_fmap, Forall_true. intros e. by apply slice_bytes.
Qed.

Lemma flat_length : Z.of_nat (length (RamDisk.flat m t)) = RamDisk.total (RamDisk.used t).
Proof using All. destruct HD. by apply RamDisk.contents_length. Qed.

Lemma VerifyStep_spec Index Off B ChunkHash (c := chunk_at m (ctx.(Chunks) + sizeof_CHUNK * Index)) :
  0 <= Index < ctx.(ChunkCount) -> 0 <= Off <= Z.of_nat (length (RamDisk.flat m t)) -> max_length (table m ctx) <= Z.of_nat (length B) ->
  length ChunkHash = 32%nat ->
  exists B' H', length B' = length B /\ length H' = 32%nat /\ VerifyStep debug MJunk Junk m ctx t (Index, Off, B, ChunkHash)
  = Ret (if decide (Off + Z.max 1 c.(ChunkLength) <= Z.of_nat (length (RamDisk.flat m t))
            /\ Digest.sha256_digest (slice (RamDisk.flat m t) Off c.(ChunkLength)) = c.(Checksum))
         then inl (Index + 1, Off + c.(ChunkLength), B', H') else inr false).
Proof using All.
  intros HI HO HB HH. pose proof HT as (H1 & H2 & H3 & H4). unfold sizeof_CHUNK in *. pose proof flat_length as HF.
  assert (c ∈ table m ctx) as Hc by (apply list_elem_of_lookup; exists (Z.to_nat Index); by apply chunks_at_lookup).
  assert (0 <= c.(ChunkLength) < 2 ^ 32) as Hlen by (apply (field_range m _ 4 Hm); unfold sizeof_CHUNK in *; lia).
  assert (c.(ChunkLength) <= Z.of_nat (length B)) as HcB by (pose proof (max_length_le (table m ctx) 0 c (or_introl Hc)); unfold max_length in *; lia).
  assert (debug = true -> 0 < c.(ChunkLength)) as Hd by (intros E; specialize (Hpos E); rewrite Forall_forall in Hpos; auto).
  unfold VerifyStep. rewrite decide_True by lia. unfold sizeof_CHUNK. rewrite (wrap_small 64 (Chunks ctx + _)) by lia.
  rewrite ReadChunk_in by (unfold sizeof_CHUNK; lia). rewrite bind_ret. cbv beta. fold c.
  rewrite RamDisk.Read_any by (done || lia). rewrite bind_ret. cbv beta iota. set (D := slice (RamDisk.flat m t) Off c.(ChunkLength)).
  destruct (bool_decide_reflect (Off + Z.max 1 (ChunkLength c) <= Z.of_nat (length (RamDisk.flat m t)))) as [Hin|Hout]; cbn [negb].
  2: { exists B, ChunkHash. split; [done|]. split; [done|]. by rewrite decide_False by tauto. }
  assert (Z.of_nat (length D) = c.(ChunkLength)) as HL by (unfold D; rewrite slice_length by lia; lia).
  rewrite rd_slice_in by (rewrite ?length_inserts; lia). rewrite bind_ret. cbv beta.
  assert (slice (list_inserts 0 D B) 0 (ChunkLength c) = D) as -> by (rewrite <- HL; apply (slice_inserts_same B D 0); lia).
  pose proof (Sha2.Sha256_computes MJunk Junk ChunkHash D HM HJ HH (slice_bytes _ _ _ flat_bytes) ltac:(lia)) as HS.
  rewrite HL, Sha2.sha2_lib_sha256 in HS. rewrite HS, bind_ret. cbv beta.
  assert (length (Checksum c) = 32%nat) as HCs by (unfold c, chunk_at; cbn [Checksum]; apply slice_length; unfold SHA256_DIGEST_SIZE; lia).
  pose proof (Sha2.sha256_digest_length D) as HDl. exists (list_inserts 0 D B), (Digest.sha256_digest D).
  split; [apply length_inserts|]. split; [done|].
  destruct (Rsa.CompareMem_spec (Digest.sha256_digest D) 0 (Checksum c)) as (r & E & Hr); [done|lia|].
  assert (slice (Digest.sha256_digest D) 0 (Z.of_nat (length (Checksum c))) = Digest.sha256_digest D) as Hs.
  { rewrite HCs, <- HDl. apply Rsa.slice_all. }
  rewrite Hs in Hr. rewrite HCs in E. change (Z.of_nat 32) with SHA256_DIGEST_SIZE in E. rewrite E, bind_ret. cbv beta.
  destruct (decide (r <> 0)) as [Hr0|Hr0]; [by rewrite decide_False by tauto|]. rewrite decide_True by (split; [done|apply Hr; lia]).
  rewrite !wrap_small by lia. done.
Qed.
Lemma VerifyLoop_spec : forall l fuel Index Off B ChunkHash, 0 <= Index <= ctx.(ChunkCount) -> drop (Z.to_nat Index) (table m ctx) = l ->
  0 <= Off <= Z.of_nat (length (RamDisk.flat m t)) -> max_length (table m ctx) <= Z.of_nat (length B) -> length ChunkHash = 32%nat -> (length l < fuel)%nat ->
  while_ fuel (VerifyStep debug MJunk Junk m ctx t) (Index, Off, B, ChunkHash) = Ret (bool_decide (matches (RamDisk.flat m t) Off l)).
Proof using All.
  pose proof HT as (H1 & H2 & H3 & H4). pose proof (chunks_at_length m ctx.(Chunks) ctx.(ChunkCount) H2) as HL. fold (table m ctx) in HL.
  induction l as [|c l IH]; intros fuel Index Off B ChunkHash HI Hl HO HB HH Hf; (destruct fuel as [|fuel]; [cbn in Hf; lia|]); rewrite while_S.
  - apply (f_equal length) in Hl. rewrite length_drop in Hl. cbn in Hl. unfold VerifyStep. rewrite decide_False by lia. done.
  - assert (table m ctx !! Z.to_nat Index = Some c) as Hc by (apply (f_equal (fun l => l !! 0%nat)) in Hl; rewrite lookup_drop, Nat.add_0_r in Hl; done).
    assert (Index < ctx.(ChunkCount)) as HI2 by (apply lookup_lt_Some in Hc; lia).
    assert (c = chunk_at m (ctx.(Chunks) + sizeof_CHUNK * Index)) as Ec.
    { unfold table in Hc. rewrite chunks_at_lookup in Hc by lia. congruence. }
    destruct (VerifyStep_spec Index Off B ChunkHash) as (B' & H' & HB' & HH' & E); [lia|done|done|done|]. rewrite E, bind_ret. cbv beta.
    rewrite <- Ec. cbn [matches]. destruct (decide (_ <= _ /\ _ = Checksum c)) as [Hm1|Hm1].
    + rewrite IH; [|lia|exact (RamDisk.drop_next _ _ _ _ (proj1 HI) Hl)| |lia|done|cbn in Hf; lia].
      * f_equal. apply bool_decide_ext. tauto.
      * assert (0 <= c.(ChunkLength)); [|lia]. rewrite Ec. apply (field_range m _ 4 Hm); unfold sizeof_CHUNK in *; lia.
    + by rewrite bool_decide_eq_false_2 by tauto.
Qed.
End Data.

(** The disk is the concatenation of the chunks and of anything after them. *)
Definition chunk_of (seg : list Z) (c : APPLE_CHUNKLIST_CHUNK) : Prop :=
  Z.of_nat (length seg) = c.(ChunkLength) /\ Digest.sha256_digest seg = c.(Checksum).
Definition composed (disk : list Z) (l : list APPLE_CHUNKLIST_CHUNK) : Prop :=
  exists segments rest, disk = concat segments ++ rest /\ Forall2 chunk_of segments l.

Lemma matches_composed disk : forall l Offset, Forall (fun c => 0 <= c.(ChunkLength)) l -> 0 <= Offset <= Z.of_nat (length disk) ->
  matches disk Offset l -> composed (drop (Z.to_nat Offset) disk) l.
Proof.
  induction l as [|c l IH]; intros Offset Hp HO; cbn [matches].
  - intros _. exists [], (drop (Z.to_nat Offset) disk). by split.
  - apply Forall_cons in Hp as [Hc Hp]. intros (H1 & H2 & H3). apply IH in H3 as (segs & rest & E & HF); [|done|lia].
    exists (slice disk Offset (ChunkLength c) :: segs), rest. split.
    + cbn [concat]. rewrite <- app_assoc, <- E. unfold slice. rewrite Z2Nat.inj_add, <- drop_drop by lia. symmetry. apply take_drop.
    + constructor; [|done]. split; [|done]. rewrite slice_length by lia. lia.
Qed.

Lemma composed_matches disk : forall l Offset, Forall (fun c => 0 < c.(ChunkLength)) l -> 0 <= Offset <= Z.of_nat (length disk) ->
  composed (drop (Z.to_nat Offset) disk) l -> matches disk Offset l.
Proof.
  induction l as [|c l IH]; intros Offset Hp HO; cbn [matches]; [done|]. apply Forall_cons in Hp as [Hc Hp].
  intros (segs & rest & E & HF). apply Forall2_cons_inv_r in HF as (seg & segs' & [H1 H2] & HF & ->). cbn [concat] in E. rewrite <- app_assoc in E.
  assert (Offset + ChunkLength c <= Z.of_nat (length disk)) as Hle.
  { apply (f_equal length) in E. rewrite length_drop, length_app in E. lia. }
  split; [lia|]. split.
  - unfold slice. rewrite E. replace (Z.to_nat (ChunkLength c)) with (length seg) by lia. by rewrite take_app_length.
  - apply IH; [done|lia|]. exists segs', rest. split; [|done]. rewrite Z2Nat.inj_add, <- drop_drop by lia. rewrite E.
    replace (Z.to_nat (ChunkLength c)) with (length seg) by lia. apply drop_app_length.
Qed.

Lemma chunks_lengths m p n : Forall is_byte m -> 0 <= p -> 0 <= n -> p + sizeof_CHUNK * n <= Z.of_nat (length m) ->
  Forall (fun c => 0 <= c.(ChunkLength)) (chunks_at m p n).
Proof.
  unfold sizeof_CHUNK. intros Hm Hp Hn Hin. apply Forall_fmap, Forall_forall. intros i Hi%elem_of_seqZ. unfold sizeof_CHUNK.
  apply (field_range m _ 4 Hm); lia.
Qed.

Lemma table_lengths m ctx : Forall is_byte m -> table_in m ctx -> Forall (fun c => 0 <= c.(ChunkLength)) (table m ctx).
Proof. intros Hm (H1 & H2 & H3 & H4). apply chunks_lengths; (done || lia). Qed.

(** More data after the chunks. *)
Lemma matches_app disk extra l : forall Offset, Forall (fun c => 0 <= c.(ChunkLength)) l -> 0 <= Offset ->
  matches disk Offset l -> matches (disk ++ extra) Offset l.
Proof.
  induction l as [|c l IH]; intros Offset Hp HO; cbn [matches]; [done|]. apply Forall_cons in Hp as [Hc Hp]. intros (H1 & H2 & H3).
  rewrite length_app. split; [lia|]. split; [|apply IH; (done || lia)]. by rewrite RamDisk.slice_app_first by lia.
Qed.

Lemma VerifyData_spec {P : MemoryPool} {HP : MemoryPoolLaws P} debug MJunk Junk m ctx t ChunkHash :
  length MJunk = 64%nat -> length Junk = 64%nat -> length ChunkHash = 32%nat -> Forall is_byte m -> RamDisk.disk_ok m t ->
  RamDisk.total (RamDisk.used t) + 2 ^ 32 < 2 ^ 64 -> table_in m ctx ->
  (debug = true -> ctx.(Signature) = 0 /\ Forall (fun c => 0 < c.(ChunkLength)) (table m ctx)) ->
  OcAppleChunklistVerifyData debug MJunk Junk m ctx t ChunkHash
  = Ret (match AllocatePool (max_length (table m ctx)) with None => false | Some _ => bool_decide (matches (RamDisk.flat m t) 0 (table m ctx)) end).
Proof.
  intros HM HJ HH Hm HD Htot HT Hd. pose proof HT as (H1 & H2 & H3 & H4). unfold OcAppleChunklistVerifyData.
  rewrite (RamDisk.assert_holds debug (bool_decide (Chunks ctx <> 0))) by (apply bool_decide_eq_true_2; lia). rewrite bind_ret.
  assert (MemoryAttributes.ASSERT debug (bool_decide (Signature ctx = 0)) = Ret tt) as ->.
  { destruct debug; [|done]. by rewrite bool_decide_eq_true_2 by (by apply Hd). }
  rewrite bind_ret, MaxLength_spec, bind_ret by done. destruct (AllocatePool (max_length (table m ctx))) as [B|] eqn:EB; [|done].
  apply AllocatePool_length in EB. apply VerifyLoop_spec; try done; [by apply Hd| |lia|].
  - lia.
  - unfold table. rewrite chunks_at_length by done. lia.
Qed.

(** *** The signature check *)
Section Key.
Context {Build : BnBuild} {HB : BnBuildOk Build} {Swap : SwapBytesLib} {HSwap : Rsa.SwapBytesLaws Swap} {Pcd : CryptoPcd}.
Abbreviation w := BigNum.OC_BN_WORD_NUM_BITS.

(** The number of words of the modulus. *)
Definition key_words (Key : Rsa.OC_RSA_PUBLIC_KEY) : Z := Rsa.NumQwords Key * (8 / OC_BN_WORD_SIZE).
Definition modulus (wm : mem) (Key : Rsa.OC_RSA_PUBLIC_KEY) : Z := value w wm (Rsa.KeyData Key) (key_words Key).

(** A key that is prepared as the Montgomery arithmetic needs it, with a modulus
    of full size. *)
Record key_ok (wm : mem) (Key : Rsa.OC_RSA_PUBLIC_KEY) : Prop := KeyOk {
  key_modulus : Montgomery.modulus_ok (Rsa.KeyData Key) (key_words Key) (wrap w (Rsa.KeyN0Inv Key)) wm;
  key_size : key_words Key <= Montgomery.OC_BN_MAX_LEN;
  key_rsqr : buffer w wm (Rsa.KeyData Key +ₗ key_words Key) (key_words Key);
  key_rsqr_value : Montgomery.cong (modulus wm Key) (value w wm (Rsa.KeyData Key +ₗ key_words Key) (key_words Key))
    (2 ^ (w * key_words Key) * 2 ^ (w * key_words Key));
  key_full : 2 ^ (w * key_words Key) <= 2 * modulus wm Key
}.

(** The key verifies the signature of the hash. *)
Definition signed (wm : mem) (Key : Rsa.OC_RSA_PUBLIC_KEY) (Sig Hash : list Z) : bool :=
  Rsa.verdict (key_words Key) (modulus wm Key) 65537 Sig Hash Rsa.OcSigHashTypeSha256.

Context {Pool : WordPool} (HPool : Rsa.pool_ok).

Lemma FromKeyDynalloc_spec wm Key Sig Hash : key_ok wm Key -> Forall is_byte Sig -> length Sig = 256%nat -> length Hash = 32%nat ->
  Rsa.RsaVerifySigHashFromKeyDynalloc wm Key Sig sizeof_SIG Hash SHA256_DIGEST_SIZE Rsa.OcSigHashTypeSha256
  = Ret (wm, match AllocateWords wm (Rsa.RSA_SCRATCH_BUFFER_SIZE (wrap w (Rsa.NumQwords Key * 8))) with
             | None => false | Some _ => signed wm Key Sig Hash end).
Proof using HB HSwap HPool.
  intros [HM Hsz HR HRv Hfull] Hbytes HS HH. pose proof HM as (Hn & HN & Hi). pose proof BigNum.pow_w_min as HW. pose proof HB as HB'. unfold BnBuildOk in HB'.
  unfold Rsa.RsaVerifySigHashFromKeyDynalloc. cbv zeta. destruct (AllocateWords _ _) as [[wm1 Scratch]|] eqn:EA; [|done].
  assert (0 < Rsa.NumQwords Key < 2 ^ 16) as HQ by (unfold key_words in Hn; destruct HB' as [E|E]; rewrite E in Hn; [change (8 / 4) with 2 in Hn|change (8 / 8) with 1 in Hn]; lia).
  rewrite wrap_small in EA by lia. apply HPool in EA.
  assert (Rsa.RSA_SCRATCH_BUFFER_SIZE (Rsa.NumQwords Key * 8) / OC_BN_WORD_SIZE = 3 * key_words Key) as Ewords.
  { unfold Rsa.RSA_SCRATCH_BUFFER_SIZE, key_words. destruct HB' as [E|E]; rewrite E; [change (8 / 4) with 2|change (8 / 8) with 1].
    - replace (Rsa.NumQwords Key * 8 * 3) with (3 * (Rsa.NumQwords Key * 2) * 4) by ring. apply Z.div_mul. lia.
    - replace (Rsa.NumQwords Key * 8 * 3) with (3 * (Rsa.NumQwords Key * 1) * 8) by ring. apply Z.div_mul. lia. }
  rewrite wrap_small by lia. rewrite Ewords in *. pose proof EA as (HSb & HSu & _).
  pose proof (Rsa.fresh_apart wm wm1 Scratch _ _ _ EA HN ltac:(lia) ltac:(lia)) as A1.
  pose proof (Rsa.fresh_apart wm wm1 Scratch _ _ _ EA HR ltac:(lia) ltac:(lia)) as A2.
  unfold Rsa.RsaVerifySigHashFromKey. rewrite !BigNum.ASSERT_true by (apply bool_decide_eq_true_2; done). rewrite !bind_ret.
  fold (key_words Key). rewrite (wrap_small 16) by lia.
  pose proof (unchanged_value w wm wm1 Scratch (3 * key_words Key) (Rsa.KeyData Key) (key_words Key) HSu A1) as EN.
  pose proof (unchanged_value w wm wm1 Scratch (3 * key_words Key) (Rsa.KeyData Key +ₗ key_words Key) (key_words Key) HSu A2) as ER.
  destruct (Rsa.HashFromProcessed_spec wm1 (Rsa.KeyData Key) (key_words Key) (wrap w (Rsa.KeyN0Inv Key)) (Rsa.KeyData Key +ₗ key_words Key)
    Sig Hash Rsa.OcSigHashTypeSha256 Scratch) as (wm2 & E & Hu).
  - split; [done|]. split; [exact (unchanged_buffer w wm wm1 Scratch _ _ _ HSu A1 HN)|].
    rewrite (word_frame wm wm1 (Rsa.KeyData Key) (Rsa.KeyData Key) 0); [done|]. apply HSu, (in_range_apart Scratch (3 * key_words Key) (Rsa.KeyData Key) (key_words Key)); [done|lia].
  - done.
  - exact (unchanged_buffer w wm wm1 Scratch _ _ _ HSu A2 HR).
  - rewrite EN, ER. exact HRv.
  - done.
  - done.
  - done.
  - done.
  - by intros ->.
  - by rewrite HH.
  - rewrite EN. by right.
  - rewrite HS, HH in E. change (Z.of_nat 256) with sizeof_SIG in E. change (Z.of_nat 32) with SHA256_DIGEST_SIZE in E. rewrite E, bind_ret. cbv beta iota.
    rewrite (Rsa.FreeWords_fresh wm wm1 wm2 Scratch _ EA Hu). unfold signed, modulus. by rewrite EN.
Qed.
Lemma VerifySignature_spec debug m wm ctx Key : key_ok wm Key -> Forall is_byte m -> 0 < ctx.(Signature) ->
  ctx.(Signature) + sizeof_SIG <= Z.of_nat (length m) -> length ctx.(Hash) = 32%nat ->
  exists b ctx', OcAppleChunklistVerifySignature debug m wm ctx Key = Ret (wm, ctx', b)
  /\ b = match AllocateWords wm (Rsa.RSA_SCRATCH_BUFFER_SIZE (wrap w (Rsa.NumQwords Key * 8))) with
         | None => false | Some _ => signed wm Key (slice m ctx.(Signature) sizeof_SIG) ctx.(Hash) end
  /\ ctx' = if debug && b then set_Signature ctx 0 else ctx.
Proof using HB HSwap HPool.
  intros HK Hm H1 H2 HH. unfold OcAppleChunklistVerifySignature. rewrite RamDisk.assert_holds by (apply bool_decide_eq_true_2; lia). rewrite bind_ret.
  unfold sizeof_SIG in H2. rewrite rd_slice_in by (unfold sizeof_SIG; lia). rewrite bind_ret. cbv beta.
  rewrite FromKeyDynalloc_spec; [|done|by apply slice_bytes|apply slice_length; unfold sizeof_SIG; lia|done]. rewrite bind_ret. cbv beta iota.
  eexists _, _. split; [reflexivity|done].
Qed.
End Key.

Lemma inserts_bytes (l x : list Z) o : Forall is_byte l -> Forall is_byte x -> (o + length x <= length l)%nat -> Forall is_byte (list_inserts o x l).
Proof.
  intros Hl Hx Ho. apply Forall_lookup. intros i b. rewrite lookup_inserts by done. case_decide; intros Hi.
  - by apply (Forall_lookup_1 _ _ _ _ Hx Hi).
  - by apply (Forall_lookup_1 _ _ _ _ Hl Hi).
Qed.

(** *** The check of an image *)

(** The buffer of the chunk list is apart from the disk. *)
Definition buffer_apart (p n : Z) (t : RamDisk.APPLE_RAM_DISK_EXTENT_TABLE) : Prop :=
  Forall (fun e => RamDisk.apart (RamDisk.Extent p n) e) (RamDisk.used t).

Lemma header_offsets m p : Forall is_byte m -> 0 <= HdrChunkCount (header_at m p) /\ 0 <= ChunkOffset (header_at m p) /\ 0 <= SigOffset (header_at m p).
Proof. intros Hm. split_and!; by apply le_value_range, slice_bytes. Qed.

Lemma swapped_flat m p n t : RamDisk.disk_ok m t -> buffer_apart p n t -> 0 < p -> p + n <= Z.of_nat (length m) ->
  0 <= SigOffset (header_at m p) -> SigOffset (header_at m p) + sizeof_SIG <= n ->
  let m' := swapped_memory m p (header_at m p) in
  RamDisk.disk_ok m' t /\ RamDisk.flat m' t = RamDisk.flat m t /\ length m' = length m
  /\ slice m' (p + SigOffset (header_at m p)) sizeof_SIG = rev (slice m (p + SigOffset (header_at m p)) sizeof_SIG)
  /\ (Forall is_byte m -> Forall is_byte m').
Proof.
  intros HD Hap Hp Hin H0 H1 m'. set (o := p + SigOffset (header_at m p)) in *. unfold sizeof_SIG in H1.
  assert (length (rev (slice m o sizeof_SIG)) = 256%nat) as HL by (rewrite length_rev, slice_length by (unfold o, sizeof_SIG; lia); done).
  assert (length m' = length m) as Hlen by apply length_inserts. split_and!; [|..|done| |].
  - destruct HD as [A B C D E]. constructor; try done. by apply (RamDisk.extents_same m).
  - destruct HD as [A B C D E]. apply RamDisk.contents_ext; [done|]. intros e a He Ha. unfold m', swapped_memory. fold o.
    rewrite lookup_inserts by (unfold o in *; lia). rewrite decide_False; [done|]. unfold buffer_apart in Hap. rewrite Forall_forall in Hap.
    specialize (Hap e He). destruct D as [_ D _]. rewrite Forall_forall in D. specialize (D e He).
    unfold RamDisk.apart, RamDisk.in_extent in *. cbn [RamDisk.Start RamDisk.Length] in Hap. unfold o in *. lia.
  - pose proof (slice_inserts_same m (rev (slice m o sizeof_SIG)) o) as HX. rewrite HL in HX. apply HX; unfold o; lia.
  - intros Hm. unfold m', swapped_memory. fold o. apply inserts_bytes; [done|by apply Forall_rev, slice_bytes|]. rewrite HL. unfold o. lia.
Qed.

Section Image.
Context {Build : BnBuild} {HB : BnBuildOk Build} {Swap : SwapBytesLib} {HSwap : Rsa.SwapBytesLaws Swap} {Pcd : CryptoPcd}.
Context {Pool : WordPool} (HPool : Rsa.pool_ok) {P : MemoryPool} {HP : MemoryPoolLaws P}.
Context (debug : bool) (MJunk Junk ChunkHash m : list Z) (wm : mem) (p n : Z) (t : RamDisk.APPLE_RAM_DISK_EXTENT_TABLE).
Context (Key0 Key1 : Rsa.OC_RSA_PUBLIC_KEY) (HK0 : key_ok wm Key0) (HK1 : key_ok wm Key1).
Context (HM : length MJunk = 64%nat) (HJ : length Junk = 64%nat) (HH : length ChunkHash = 32%nat) (Hm : Forall is_byte m).
Context (Hmax : Z.of_nat (length m) < 2 ^ 64) (Hp : 0 < p) (Hn : 0 < n < 2 ^ 32) (Hin : p + n <= Z.of_nat (length m)).
Context (HD : RamDisk.disk_ok m t) (Htot : RamDisk.total (RamDisk.used t) + 2 ^ 32 < 2 ^ 64) (Hap : buffer_apart p n t).

(** What is signed, the signature, and the chunks that are checked. *)
Definition signed_part : list Z := slice m p (SigOffset (header_at m p)).
Definition signature : list Z := rev (slice m (p + SigOffset (header_at m p)) sizeof_SIG).
Definition checked : list APPLE_CHUNKLIST_CHUNK :=
  table (swapped_memory m p (header_at m p)) (accepted m p (header_at m p)).

Context (Hpos : debug = true -> Forall (fun c => 0 < c.(ChunkLength)) checked).

(** The verdict when no allocation fails. *)
Definition genuine : Prop :=
  well_formed (header_at m p) n /\ (signed wm Key0 signature (Digest.sha256_digest signed_part) = true
    \/ signed wm Key1 signature (Digest.sha256_digest signed_part) = true) /\ matches (RamDisk.flat m t) 0 checked.

Definition no_failure : Prop := (forall wm size, AllocateWords wm size <> None) /\ (forall size, AllocatePool size <> None).

Lemma VerifyData_accepted ctx : ctx.(Chunks) = p + ChunkOffset (header_at m p) -> ctx.(ChunkCount) = HdrChunkCount (header_at m p) ->
  (debug = true -> ctx.(Signature) = 0) -> well_formed (header_at m p) n ->
  exists b, OcAppleChunklistVerifyData debug MJunk Junk (swapped_memory m p (header_at m p)) ctx t ChunkHash = Ret b
  /\ (b = true -> matches (RamDisk.flat m t) 0 checked) /\ (no_failure -> matches (RamDisk.flat m t) 0 checked -> b = true).
Proof using All.
  intros E1 E2 Hs Hwf. pose proof Hwf as (_ & _ & _ & _ & _ & W1 & W2). set (h := header_at m p) in *. unfold sizeof_SIG in W2.
  assert (0 <= HdrChunkCount h < 2 ^ 64 /\ 0 <= ChunkOffset h < 2 ^ 64 /\ 0 <= SigOffset h < 2 ^ 64) as (R1 & R2 & R3).
  { apply (header_ranges debug MJunk Junk m p n); try done; unfold sizeof_HEADER; assert (0 <= SigOffset h); [|lia].
    apply le_value_range. by apply slice_bytes. }
  destruct (swapped_flat m p n t HD Hap Hp Hin) as (HD' & EF & EL & ES & Hm'); [fold h; lia|fold h; unfold sizeof_SIG; lia|]. fold h in HD', EF, EL, ES, Hm'.
  assert (table (swapped_memory m p h) ctx = checked) as ET by (unfold checked, table; fold h; by rewrite E1, E2).
  rewrite VerifyData_spec; try done; [|by apply Hm'| |].
  - eexists. split; [done|]. rewrite ET, EF. destruct (AllocatePool (max_length checked)) eqn:EA; [|by split; [|intros [_ HA]; specialize (HA (max_length checked)) ]].
    by rewrite bool_decide_eq_true.
  - unfold table_in. rewrite E1, E2, EL. unfold sizeof_CHUNK in *. lia.
  - intros Ed. rewrite ET. auto.
Qed.

Lemma checked_lengths : well_formed (header_at m p) n -> Forall (fun c => 0 <= c.(ChunkLength)) checked.
Proof using Hm Hp Hin HD Hap.
  clear - Hm Hp Hin HD Hap. intros (_ & _ & _ & _ & _ & W1 & W2). destruct (header_offsets m p Hm) as (R1 & R2 & R3). unfold sizeof_SIG in *.
  destruct (swapped_flat m p n t HD Hap Hp Hin R3) as (_ & _ & EL & _ & Hm'); [unfold sizeof_SIG; lia|].
  unfold checked, table, accepted. cbn [Chunks ChunkCount]. apply chunks_lengths; [by apply Hm'|lia|lia|rewrite EL; lia].
Qed.

Lemma VerifyDiskImage_spec ctx : length ctx.(Hash) = 32%nat ->
  exists m' b, VerifyDiskImage debug MJunk Junk m wm OcDmgLoadingAppleSigned t (Some (p, n)) Key0 Key1 ctx ChunkHash = Ret (m', wm, b)
  /\ (b = true -> genuine) /\ (no_failure -> genuine -> b = true)
  /\ m' = if decide (well_formed (header_at m p) n) then swapped_memory m p (header_at m p) else m.
Proof using All.
  intros HC. unfold VerifyDiskImage. rewrite decide_True by done. rewrite RamDisk.assert_holds by (apply bool_decide_eq_true_2; lia). rewrite bind_ret.
  destruct (InitializeContext_spec debug MJunk Junk m p n HM HJ Hm Hmax Hp Hn Hin (header_at m p) eq_refl ctx HC) as (m1 & ctx1 & E & Hyes & Hno).
  rewrite E, bind_ret. cbv beta iota. destruct (bool_decide_reflect (well_formed (header_at m p) n)) as [Hwf|Hwf]; cbn [negb].
  2: { exists m1, false. rewrite decide_False by done. split; [done|]. unfold genuine. split; [done|]. split; [tauto|auto]. }
  destruct (Hyes Hwf) as [-> ->]. clear E Hyes Hno. pose proof Hwf as (_ & _ & _ & _ & _ & W1 & W2).
  assert (0 <= SigOffset (header_at m p)) as W3 by (apply le_value_range; by apply slice_bytes).
  destruct (swapped_flat m p n t HD Hap Hp Hin W3 ltac:(lia)) as (HD' & EF & EL & ES & Hm'). specialize (Hm' Hm). unfold sizeof_SIG in W2.
  set (m1 := swapped_memory m p (header_at m p)) in *. set (ctx1 := accepted m p (header_at m p)).
  assert (length (Hash ctx1) = 32%nat) as HC1 by apply Sha2.sha256_digest_length.
  assert (0 < Signature ctx1) as HS1 by (change (Signature ctx1) with (p + SigOffset (header_at m p)); lia).
  assert (Signature ctx1 + sizeof_SIG <= Z.of_nat (length m1)) as HS2 by (change (Signature ctx1) with (p + SigOffset (header_at m p)); unfold sizeof_SIG; lia).
  destruct (VerifySignature_spec HPool debug m1 wm ctx1 Key0 HK0 Hm' HS1 HS2 HC1) as (b0 & c0 & -> & Eb0 & Ec0). rewrite bind_ret. cbv beta iota.
  destruct (VerifySignature_spec HPool debug m1 wm ctx1 Key1 HK1 Hm' HS1 HS2 HC1) as (b1 & c1 & E1 & Eb1 & Ec1).
  change (slice m1 (Signature ctx1) sizeof_SIG) with (slice m1 (p + SigOffset (header_at m p)) sizeof_SIG) in Eb0, Eb1. rewrite ES in Eb0, Eb1.
  change (Hash ctx1) with (Digest.sha256_digest signed_part) in Eb0, Eb1. fold signature in Eb0, Eb1. rewrite (decide_True (P := well_formed _ _)) by done.
  assert (forall b c, (b = b0 /\ c = c0 /\ b0 = true) \/ (b = b1 /\ c = c1 /\ b0 = false) -> exists m' b',
    (if negb b then Ret (m1, wm, false) else Result ← OcAppleChunklistVerifyData debug MJunk Junk m1 c t ChunkHash; Ret (m1, wm, Result)) = Ret (m', wm, b')
    /\ (b' = true -> genuine) /\ (no_failure -> genuine -> b' = true) /\ m' = m1) as Hrest.
  { intros b c Hbc. destruct b; cbn [negb].
    - destruct (VerifyData_accepted c) as (b' & E' & Hs & Hcm); [destruct Hbc as [(_ & -> & _)|(_ & -> & _)]; rewrite ?Ec0, ?Ec1; destruct (debug && b0), (debug && b1); reflexivity..| | |].
      + intros ->. destruct Hbc as [(<- & -> & _)|(<- & -> & _)]; by rewrite ?Ec0, ?Ec1.
      + done.
      + exists m1, b'. fold m1 in E'. rewrite E', bind_ret. split; [done|]. unfold genuine. split; [|split; [tauto|done]]. intros Hb. split; [done|]. split; [|by apply Hs].
        destruct Hbc as [(Hb0 & _)|(Hb1 & _)]; [left; rewrite <- Hb0 in Eb0; clear Eb1|right; rewrite <- Hb1 in Eb1; clear Eb0];
          destruct (AllocateWords _ _); (done || congruence).
    - exists m1, false. split; [done|]. split; [done|]. split; [|done]. intros [HA _] (_ & Hsig & _).
      destruct Hbc as [(Hb & _ & Hb0)|(Hb1 & _ & Hb0)]; [congruence|]. rewrite Hb0 in Eb0. rewrite <- Hb1 in Eb1.
      pose proof (HA wm (Rsa.RSA_SCRATCH_BUFFER_SIZE (wrap BigNum.OC_BN_WORD_NUM_BITS (Rsa.NumQwords Key0 * 8)))).
      pose proof (HA wm (Rsa.RSA_SCRATCH_BUFFER_SIZE (wrap BigNum.OC_BN_WORD_NUM_BITS (Rsa.NumQwords Key1 * 8)))).
      destruct (AllocateWords wm (Rsa.RSA_SCRATCH_BUFFER_SIZE (wrap _ (Rsa.NumQwords Key0 * 8)))); [|done].
      destruct (AllocateWords wm (Rsa.RSA_SCRATCH_BUFFER_SIZE (wrap _ (Rsa.NumQwords Key1 * 8)))); [|done]. destruct Hsig; congruence. }
  destruct b0; [rewrite bind_ret|].
  - apply (Hrest true c0). by left.
  - assert (c0 = ctx1) as -> by (rewrite Ec0; by rewrite andb_false_r). rewrite E1, bind_ret. apply (Hrest b1 c1). by right.
Qed.
End Image.

(** ** Sample data *)

(** A disk of ten bytes in two extents, and a chunk list at address 64 whose two
    chunks are its first seven bytes. *)
Definition sample_chunks : list Z :=
  [4; 0; 0; 0] ++ [160; 2; 145; 232; 34; 157; 25; 24; 21; 242; 203; 210; 170; 73; 211; 183; 131; 88; 93; 234; 232; 1; 44; 165; 148; 31; 1; 28; 235; 158; 177; 25]
  ++ [3; 0; 0; 0] ++ [31; 82; 143; 253; 40; 149; 99; 76; 23; 101; 55; 192; 85; 218; 165; 192; 151; 27; 121; 21; 81; 153; 153; 51; 122; 14; 53; 84; 16; 216; 253; 152].
Definition sample_list : list Z :=
  [0x43; 0x4E; 0x4B; 0x4C; 36; 0; 0; 0; 1; 1; 1; 0; 2; 0; 0; 0; 0; 0; 0; 0; 36; 0; 0; 0; 0; 0; 0; 0; 108; 0; 0; 0; 0; 0; 0; 0]
  ++ sample_chunks ++ replicate 128 3 ++ replicate 128 5.
Definition sample_memory : list Z := seqZ 0 64 ++ sample_list.
Definition sample_context : OC_APPLE_CHUNKLIST_CONTEXT := Context_ 0 0 0 (replicate 32 0).

Lemma sample_bytes : Forall is_byte sample_memory.
Proof. apply (bool_decide_unpack _). vm_compute. exact I. Qed.

Lemma sample_disk : RamDisk.disk_ok sample_memory RamDisk.ten_table.
Proof.
  destruct RamDisk.ten_ok as [A B C [D1 D2 D3] E]. constructor; try done. constructor; [done| |done].
  eapply Forall_impl; [exact D2|]. intros e (H1 & H2 & H3). split; [done|]. split; [done|].
  change (Z.of_nat (length RamDisk.ten_memory)) with 32 in H3. change (Z.of_nat (length sample_memory)) with 428. lia.
Qed.

(** The list is accepted; the data pass, and fail with another byte on the disk. *)
Example sample_accepted : (r ← OcAppleChunklistInitializeContext false (replicate 64 0) (replicate 64 0) sample_memory sample_context 64 364; Ret r.2) = Ret true.
Proof. vm_compute. reflexivity. Qed.
Example sample_verified :
  @OcAppleChunklistVerifyData true (replicate 64 0) (replicate 64 0) (pool_filled 7) sample_memory (Context_ 2 100 0 []) RamDisk.ten_table (replicate 32 0) = Ret true
  /\ @OcAppleChunklistVerifyData true (replicate 64 0) (replicate 64 0) (pool_filled 7) (<[3%nat := 9]> sample_memory) (Context_ 2 100 0 []) RamDisk.ten_table (replicate 32 0)
     = Ret false.
Proof. vm_compute. split; reflexivity. Qed.

Definition sample_N : Z := 19307167557963541945771647859064356151712708627722868303276162897666068986731684516387534968316787739041595576275435746921803383658974665880030243322961929483577491721263478839972688479708016631049299799094354042573318734609611838037193235942569000046600920359913947878154326841781843275846506164660780099138364643795238417211833441752489032311424504058733118667526671600003576147921821710628559569302873790931693268493600617574627739511549309473517681744604169588552860257573673692342967463576193933632862867056944895447310940341602601024619585656868646408496023111492644154408024498198697885470526465487082042602553.
Definition sample_key : Rsa.OC_RSA_PUBLIC_KEY := Rsa.RsaKey 32 17281621448539702775 (1, 0).
Definition sample_words : mem := alloc (1, 0) (Rsa.digits 64 32 sample_N ++ Rsa.digits 64 32 (2 ^ 4096 mod sample_N)) ∅.

Lemma sample_key_ok : @key_ok (BigNum.build64 true) sample_words sample_key.
Proof.
  constructor.
  - split; [done|]. split; [apply BigNum.buffer_checked; vm_compute; reflexivity|]. split; [vm_compute; split; congruence|]. apply Z.mod_divide; vm_compute; congruence.
  - vm_compute. congruence.
  - apply BigNum.buffer_checked. vm_compute. reflexivity.
  - apply Z.mod_divide; vm_compute; congruence.
  - vm_compute. congruence.
Qed.

(** ** Properties *)

(** [OcAppleChunklistInitializeContext] returns in bounds for every buffer, and
    accepts exactly the well-formed ones: the header of version 1.0, the chunk table
    inside the buffer, and the signature as its last 256 bytes. The context of an
    accepted list holds the table, the signature and the SHA-256 digest of everything
    before the signature, and the signature is reversed in place; a rejected buffer
    is unchanged. *)
Theorem InitializeContext_accepts debug MJunk Junk m p n ctx :
  length MJunk = 64%nat -> length Junk = 64%nat -> length ctx.(Hash) = 32%nat -> Forall is_byte m -> Z.of_nat (length m) < 2 ^ 64 ->
  0 < p -> 0 < n < 2 ^ 32 -> p + n <= Z.of_nat (length m) ->
  let h := header_at m p in
  exists m' ctx', OcAppleChunklistInitializeContext debug MJunk Junk m ctx p n = Ret (m', ctx', bool_decide (well_formed h n))
  /\ (well_formed h n ->
      ctx' = Context_ h.(HdrChunkCount) (p + h.(ChunkOffset)) (p + h.(SigOffset)) (Digest.sha256_digest (slice m p h.(SigOffset)))
      /\ m' = list_inserts (Z.to_nat (p + h.(SigOffset))) (rev (slice m (p + h.(SigOffset)) 256)) m)
  /\ (~ well_formed h n -> m' = m).
Proof.
  intros HM HJ HC Hm Hmax Hp Hn Hin h.
  exact (InitializeContext_spec debug MJunk Junk m p n HM HJ Hm Hmax Hp Hn Hin h eq_refl ctx HC).
Qed.

Lemma InitializeContext_accepts_witness :
  exists m' ctx', OcAppleChunklistInitializeContext true (replicate 64 0) (replicate 64 0) sample_memory sample_context 64 364 = Ret (m', ctx', true)
  /\ ctx'.(ChunkCount) = 2 /\ ctx'.(Chunks) = 100 /\ ctx'.(Signature) = 172 /\ slice m' 172 256 = replicate 128 5 ++ replicate 128 3.
Proof.
  destruct (InitializeContext_accepts true (replicate 64 0) (replicate 64 0) sample_memory 64 364 sample_context) as (m' & ctx' & E & H & _);
    [done|done|done|exact sample_bytes|vm_compute; reflexivity|lia|lia|vm_compute; congruence|].
  assert (well_formed (header_at sample_memory 64) 364) as Hwf by (apply (bool_decide_unpack _); vm_compute; exact I).
  destruct (H Hwf) as [H1 H2]. exists m', ctx'. rewrite E, bool_decide_eq_true_2 by exact Hwf. split; [done|]. rewrite H1, H2.
  split_and!; vm_compute; reflexivity.
Defined.

(** C20: [OcAppleChunklistVerifyData] returns TRUE only when the disk is the
    concatenation of chunks with the lengths and SHA-256 checksums of the table,
    followed by any rest; and when the pool does not fail and no chunk is empty it
    returns TRUE for every such disk. The loop ends, and every read stays in the
    buffer of the longest chunk. *)
Theorem VerifyData_composed {P : MemoryPool} {HP : MemoryPoolLaws P} debug MJunk Junk m ctx t ChunkHash :
  length MJunk = 64%nat -> length Junk = 64%nat -> length ChunkHash = 32%nat -> Forall is_byte m -> RamDisk.disk_ok m t ->
  RamDisk.total (RamDisk.used t) + 2 ^ 32 < 2 ^ 64 -> table_in m ctx ->
  (debug = true -> ctx.(Signature) = 0 /\ Forall (fun c => 0 < c.(ChunkLength)) (table m ctx)) ->
  exists b, OcAppleChunklistVerifyData debug MJunk Junk m ctx t ChunkHash = Ret b
  /\ (b = true -> composed (RamDisk.flat m t) (table m ctx))
  /\ ((forall size, AllocatePool size <> None) -> Forall (fun c => 0 < c.(ChunkLength)) (table m ctx) ->
      composed (RamDisk.flat m t) (table m ctx) -> b = true).
Proof.
  intros HM HJ HH Hm HD Htot HT Hd. eexists. split; [by apply VerifyData_spec|]. split.
  - destruct (AllocatePool _); [|done]. intros H%bool_decide_eq_true. apply matches_composed in H; [done|by apply table_lengths|lia].
  - intros HA Hp H. specialize (HA (max_length (table m ctx))). destruct (AllocatePool _); [|done]. apply bool_decide_eq_true_2.
    apply composed_matches; [done|lia|exact H].
Qed.

Lemma VerifyData_composed_witness :
  exists b, @OcAppleChunklistVerifyData true (replicate 64 0) (replicate 64 0) (pool_filled 7) sample_memory (Context_ 2 100 0 []) RamDisk.ten_table (replicate 32 0) = Ret b
  /\ (b = true -> composed [16; 17; 18; 19; 2; 3; 4; 5; 6; 7] (table sample_memory (Context_ 2 100 0 []))).
Proof.
  destruct (@VerifyData_composed (pool_filled 7) _ true (replicate 64 0) (replicate 64 0) sample_memory (Context_ 2 100 0 []) RamDisk.ten_table (replicate 32 0))
    as (b & E & H & _); [done|done|done|exact sample_bytes|exact sample_disk|vm_compute; reflexivity|
      unfold table_in; split_and!; vm_compute; (reflexivity || congruence)|intros _; split; [done|]; apply (bool_decide_unpack _); vm_compute; exact I|].
  exists b. split; [exact E|]. exact H.
Defined.

(** C2: a signed disk image is accepted only when it is genuine: the chunk list is
    well formed, one of the two keys verifies its signature over everything before
    the signature, and the disk starts with the chunks of the table; and when no
    allocation fails every such image with chunks that are not empty is accepted.
    All scratch memory is released, and the memory of a list that is not well formed
    is unchanged. *)
Theorem DiskImage_genuine (Build : BnBuild) (HB : BnBuildOk Build) (Swap : SwapBytesLib) (HSwap : Rsa.SwapBytesLaws Swap) (Pcd : CryptoPcd)
    (Pool : WordPool) (HPool : Rsa.pool_ok) (P : MemoryPool) (HP : MemoryPoolLaws P) debug MJunk Junk ChunkHash m wm p n t Key0 Key1 ctx :
  key_ok wm Key0 -> key_ok wm Key1 -> length MJunk = 64%nat -> length Junk = 64%nat -> length ChunkHash = 32%nat -> length ctx.(Hash) = 32%nat ->
  Forall is_byte m -> Z.of_nat (length m) < 2 ^ 64 -> 0 < p -> 0 < n < 2 ^ 32 -> p + n <= Z.of_nat (length m) ->
  RamDisk.disk_ok m t -> RamDisk.total (RamDisk.used t) + 2 ^ 32 < 2 ^ 64 -> buffer_apart p n t ->
  (debug = true -> Forall (fun c => 0 < c.(ChunkLength)) (checked m p)) ->
  let genuine := well_formed (header_at m p) n
    /\ (signed wm Key0 (signature m p) (Digest.sha256_digest (signed_part m p)) = true
        \/ signed wm Key1 (signature m p) (Digest.sha256_digest (signed_part m p)) = true)
    /\ composed (RamDisk.flat m t) (checked m p) in
  exists m' b, VerifyDiskImage debug MJunk Junk m wm OcDmgLoadingAppleSigned t (Some (p, n)) Key0 Key1 ctx ChunkHash = Ret (m', wm, b)
  /\ (b = true -> genuine)
  /\ ((forall wm size, AllocateWords wm size <> None) -> (forall size, AllocatePool size <> None) ->
      Forall (fun c => 0 < c.(ChunkLength)) (checked m p) -> genuine -> b = true)
  /\ (~ well_formed (header_at m p) n -> m' = m).
Proof.
  intros HK0 HK1 HM HJ HH HC Hm Hmax Hp Hn Hin HD Htot Hap Hpos genuine.
  destruct (VerifyDiskImage_spec HPool debug MJunk Junk ChunkHash m wm p n t Key0 Key1 HK0 HK1 HM HJ HH Hm Hmax Hp Hn Hin HD Htot Hap Hpos ctx HC)
    as (m' & b & E & Hs & Hc & Em'). exists m', b. split; [exact E|]. split_and!.
  - intros Hb. destruct (Hs Hb) as (Hwf & Hsig & Hma). split; [done|]. split; [done|].
    apply matches_composed in Hma; [done| |lia]. by apply checked_lengths with (n := n) (t := t).
  - intros HA1 HA2 Hpos' (Hwf & Hsig & Hco). apply Hc; [done|]. split; [done|]. split; [done|]. apply composed_matches; [done|lia|done].
  - intros Hwf. by rewrite Em', decide_False.
Qed.

Lemma DiskImage_genuine_witness :
  exists m' b, @VerifyDiskImage true (replicate 64 0) (replicate 64 0) (pool_filled 7) (BigNum.build64 true) Rsa.swap_rev Rsa.pcd512 (Rsa.fresh_pool 8)
    sample_memory sample_words OcDmgLoadingAppleSigned RamDisk.ten_table (Some (64, 364)) sample_key sample_key sample_context (replicate 32 0) = Ret (m', sample_words, b).
Proof.
  destruct (DiskImage_genuine (BigNum.build64 true) (BigNum.build64_ok true) Rsa.swap_rev Rsa.swap_rev_laws Rsa.pcd512 (Rsa.fresh_pool 8) (Rsa.fresh_pool_ok true) (pool_filled 7) _ true
    (replicate 64 0) (replicate 64 0) (replicate 32 0) sample_memory sample_words 64 364 RamDisk.ten_table sample_key sample_key sample_context)
    as (m' & b & E & _); [exact sample_key_ok|exact sample_key_ok|done|done|done|done|exact sample_bytes|vm_compute; reflexivity|lia|lia|vm_compute; congruence|
      exact sample_disk|vm_compute; reflexivity|apply Forall_cons; split; [right; vm_compute; congruence|apply Forall_singleton; right; vm_compute; congruence]|intros _; apply (bool_decide_unpack _); vm_compute; exact I|].
  exists m', b. exact E.
Defined.

(** ** Edges *)

(** Data after the last chunk are not checked: an image stays accepted whatever is
    appended to it, although the trailer that describes it is read from its end. *)
Lemma appended_data_accepted {P : MemoryPool} {HP : MemoryPoolLaws P} MJunk Junk m ctx t t' ChunkHash extra :
  length MJunk = 64%nat -> length Junk = 64%nat -> length ChunkHash = 32%nat -> Forall is_byte m -> RamDisk.disk_ok m t -> RamDisk.disk_ok m t' ->
  RamDisk.total (RamDisk.used t') + 2 ^ 32 < 2 ^ 64 -> table_in m ctx -> RamDisk.flat m t' = RamDisk.flat m t ++ extra ->
  OcAppleChunklistVerifyData false MJunk Junk m ctx t ChunkHash = Ret true -> OcAppleChunklistVerifyData false MJunk Junk m ctx t' ChunkHash = Ret true.
Proof.
  intros HM HJ HH Hm HD HD' Htot HT E.
  assert (RamDisk.total (RamDisk.used t) <= RamDisk.total (RamDisk.used t')) as Hle.
  { rewrite <- (RamDisk.contents_length m _ (RamDisk.ok_extents _ _ HD)), <- (RamDisk.contents_length m _ (RamDisk.ok_extents _ _ HD')).
    fold (RamDisk.flat m t) (RamDisk.flat m t'). rewrite E, length_app. lia. }
  rewrite !VerifyData_spec; try done; [|lia]. destruct (AllocatePool _); [|done]. intros [= H%bool_decide_eq_true]. f_equal. apply bool_decide_eq_true_2.
  rewrite E. apply matches_app; [by apply table_lengths|lia|done].
Qed.

(** An empty chunk stops a debug build. *)
Lemma empty_chunk_asserts MJunk Junk m ctx t ChunkHash B Index Off : 0 <= Index < ctx.(ChunkCount) -> table_in m ctx -> RamDisk.disk_ok m t ->
  field m (ctx.(Chunks) + sizeof_CHUNK * Index) 4 = 0 ->
  VerifyStep true MJunk Junk m ctx t (Index, Off, B, ChunkHash) = Fault AssertFailed.
Proof.
  intros HI (H1 & H2 & H3 & H4) HD HL. unfold sizeof_CHUNK in *. unfold VerifyStep. rewrite decide_True by lia. unfold sizeof_CHUNK.
  rewrite (wrap_small 64 (Chunks ctx + _)) by lia. rewrite ReadChunk_in by (unfold sizeof_CHUNK; lia). rewrite bind_ret. cbv beta.
  unfold RamDisk.OcAppleRamDiskRead, RamDisk.Transfer. rewrite (RamDisk.valid_table _ _ _ HD), bind_ret. cbn [chunk_at ChunkLength]. rewrite HL. reflexivity.
Qed.

End Chunklist.
