(* ===== verification/DiskImage.v ===== *)
(** * Disk images: [Library/OcAppleDiskImageLib]

    The block table of an image is byte-swapped and validated once, and sectors are
    read through it from the RAM disk: zero, raw and zlib-compressed chunks. The
    theorems show that validation accepts exactly the consistent tables, and that
    the image is one flat array of bytes to its readers. The vendored zlib is the
    interface [Zlib]; the property list that holds the blocks is not modelled. *)
From stdpp Require Import gmap.
From S2P Require Import Prelude BigNumPrimitives Rsa MemoryMap MemoryAttributes RamDisk.

(** [DecompressZLIB] of the vendored zlib: the decompressed bytes for a
    destination of the given size, and none on failure. *)
Class Zlib : Type := { Inflate : Z -> list Z -> list Z }.
Class ZlibLaws (L : Zlib) : Prop := { Inflate_fits n Src : 0 <= n -> Z.of_nat (length (Inflate n Src)) <= n }.

Module DiskImage.

(** ** Data *)

Definition APPLE_DISK_IMAGE_CHECKSUM_SIZE : Z := 32.
Definition APPLE_DISK_IMAGE_SECTOR_SIZE : Z := 512.
Definition APPLE_DISK_IMAGE_CHUNK_TYPE_ZERO : Z := 0.
Definition APPLE_DISK_IMAGE_CHUNK_TYPE_RAW : Z := 1.
Definition APPLE_DISK_IMAGE_CHUNK_TYPE_IGNORE : Z := 2.
Definition APPLE_DISK_IMAGE_CHUNK_TYPE_ZLIB : Z := 0x80000005.

Record APPLE_DISK_IMAGE_CHECKSUM : Set := ImageChecksum { SumType : Z; SumSize : Z; SumData : list Z }.
Record APPLE_DISK_IMAGE_CHUNK : Set := ImageChunk {
  Type_ : Z; Comment : Z; SectorNumber : Z; SectorCount : Z; CompressedOffset : Z; CompressedLength : Z
}.
Record APPLE_DISK_IMAGE_BLOCK_DATA : Set := MkBlock {
  BlkVersion : Z; BlkSectorNumber : Z; BlkSectorCount : Z; DataOffset : Z; BuffersNeeded : Z; BlockDescriptors : Z;
  Checksum : APPLE_DISK_IMAGE_CHECKSUM; ChunkCount : Z; Chunks : list APPLE_DISK_IMAGE_CHUNK
}.
(** [BlockCount] is the number of [Blocks]. *)
Record OC_APPLE_DISK_IMAGE_CONTEXT : Set := ImageContext {
  ExtentTable : RamDisk.APPLE_RAM_DISK_EXTENT_TABLE; ImgSectorCount : Z; Blocks : list APPLE_DISK_IMAGE_BLOCK_DATA
}.

(** The sizes of the packed structures. *)
Definition sizeof_BLOCK_DATA : Z := 204.
Definition sizeof_CHUNK : Z := 40.

Definition EFI_BAD_BUFFER_SIZE : Z := EFIERR 4.
Definition EFI_DEVICE_ERROR : Z := EFIERR 7.
Definition OC_APPLE_DISK_IMAGE_MOUNTED_DATA_SIGNATURE : Z := 0x49676D44.

(** ** Model *)
Section Model.
Context (debug : bool).
Let ASSERT (b : bool) : outcome unit := MemoryAttributes.ASSERT debug b.

Section Swap.
Context {Swap : SwapBytesLib}.

Definition SwapChunk (c : APPLE_DISK_IMAGE_CHUNK) : APPLE_DISK_IMAGE_CHUNK :=
  ImageChunk (SwapBytes32 c.(Type_)) (SwapBytes32 c.(Comment)) (SwapBytes64 c.(SectorNumber)) (SwapBytes64 c.(SectorCount))
    (SwapBytes64 c.(CompressedOffset)) (SwapBytes64 c.(CompressedLength)).

(** The loop over the chunks. *)
Definition SwapChunkStep (Count BlockSectorTop MaxOffset : Z) (s : Z * list APPLE_DISK_IMAGE_CHUNK)
  : outcome (Z * list APPLE_DISK_IMAGE_CHUNK + list APPLE_DISK_IMAGE_CHUNK * bool) :=
  let '(Index, Chunks) := s in
  if decide (Index < Count) then
    c ← rd Chunks Index;
    let c := SwapChunk c in
    Chunks ← wr Chunks Index c;
    let '(Result, ChunkSectorTop) := overflow_add 64 c.(SectorNumber) c.(SectorCount) in
    if decide (Result = true \/ BlockSectorTop < ChunkSectorTop) then Ret (inr (Chunks, false)) else
    let '(Result, OffsetTop) := overflow_add 64 c.(CompressedOffset) c.(CompressedLength) in
    if decide (Result = true \/ MaxOffset < OffsetTop) then Ret (inr (Chunks, false)) else
    Ret (inl (Index +[32] 1, Chunks))
  else Ret (inr (Chunks, true)).

Definition set_Chunks (b : APPLE_DISK_IMAGE_BLOCK_DATA) (l : list APPLE_DISK_IMAGE_CHUNK) :=
  MkBlock b.(BlkVersion) b.(BlkSectorNumber) b.(BlkSectorCount) b.(DataOffset) b.(BuffersNeeded) b.(BlockDescriptors) b.(Checksum) b.(ChunkCount) l.
Definition set_ChunkCount (b : APPLE_DISK_IMAGE_BLOCK_DATA) (n : Z) :=
  MkBlock b.(BlkVersion) b.(BlkSectorNumber) b.(BlkSectorCount) b.(DataOffset) b.(BuffersNeeded) b.(BlockDescriptors) b.(Checksum) n b.(Chunks).

(** The fields of a block between the size check and the checksum data. *)
Definition SwapFields (b : APPLE_DISK_IMAGE_BLOCK_DATA) : APPLE_DISK_IMAGE_BLOCK_DATA :=
  MkBlock (SwapBytes32 b.(BlkVersion)) (SwapBytes64 b.(BlkSectorNumber)) (SwapBytes64 b.(BlkSectorCount)) (SwapBytes64 b.(DataOffset))
    (SwapBytes32 b.(BuffersNeeded)) (SwapBytes32 b.(BlockDescriptors))
    (ImageChecksum (SwapBytes32 b.(Checksum).(SumType)) (SwapBytes32 b.(Checksum).(SumSize)) b.(Checksum).(SumData)) b.(ChunkCount) b.(Chunks).

Definition SwapSumData (b : APPLE_DISK_IMAGE_BLOCK_DATA) : outcome APPLE_DISK_IMAGE_BLOCK_DATA :=
  Data ← for_ (Z.to_nat APPLE_DISK_IMAGE_CHECKSUM_SIZE) 0 (fun Index Data => x ← rd Data Index; wr Data Index (SwapBytes32 x)) b.(Checksum).(SumData);
  Ret (MkBlock b.(BlkVersion) b.(BlkSectorNumber) b.(BlkSectorCount) b.(DataOffset) b.(BuffersNeeded) b.(BlockDescriptors)
    (ImageChecksum b.(Checksum).(SumType) b.(Checksum).(SumSize) Data) b.(ChunkCount) b.(Chunks)).

(** [*BlockData] and the result. *)
Definition InternalSwapBlockData (b : APPLE_DISK_IMAGE_BLOCK_DATA) (MaxSize Sectors DataForkOffset DataForkSize : Z)
  : outcome (APPLE_DISK_IMAGE_BLOCK_DATA * bool) :=
  ASSERT (bool_decide (sizeof_BLOCK_DATA <= MaxSize));;
  let b := set_ChunkCount b (SwapBytes32 b.(ChunkCount)) in
  let '(Result, ChunksSize) := overflow_mul 32 b.(ChunkCount) sizeof_CHUNK in
  if decide (Result = true \/ MaxSize -[64] sizeof_BLOCK_DATA < ChunksSize) then Ret (b, false) else
  let MaxOffset := DataForkOffset +[64] DataForkSize in
  let b := SwapFields b in
  if decide (DataForkOffset < b.(DataOffset) \/ APPLE_DISK_IMAGE_CHECKSUM_SIZE * 4 * 8 < b.(Checksum).(SumSize) \/ MaxOffset < b.(DataOffset))
  then Ret (b, false) else
  let '(Result, BlockSectorTop) := overflow_add 64 b.(BlkSectorNumber) b.(BlkSectorCount) in
  if decide (Result = true \/ Sectors < BlockSectorTop) then Ret (b, false) else
  b ← SwapSumData b;
  '(Chunks, Result) ← while_ (S (Z.to_nat b.(ChunkCount))) (SwapChunkStep b.(ChunkCount) BlockSectorTop MaxOffset) (0, b.(Chunks));
  Ret (set_Chunks b Chunks, Result).
End Swap.

Definition DMG_SECTOR_START_ABS (b : APPLE_DISK_IMAGE_BLOCK_DATA) (c : APPLE_DISK_IMAGE_CHUNK) : Z :=
  b.(BlkSectorNumber) +[64] c.(SectorNumber).

(** The loop over the chunks of a block. *)
Definition FindChunkStep (b : APPLE_DISK_IMAGE_BLOCK_DATA) (Lba ChunkIndex : Z) : outcome (Z + option APPLE_DISK_IMAGE_CHUNK) :=
  if decide (ChunkIndex < b.(ChunkCount)) then
    c ← rd b.(Chunks) ChunkIndex;
    if decide (DMG_SECTOR_START_ABS b c <= Lba /\ Lba < DMG_SECTOR_START_ABS b c +[64] c.(SectorCount)) then Ret (inr (Some c))
    else Ret (inl (ChunkIndex +[32] 1))
  else Ret (inr None).

Definition FindBlockStep (Blocks : list APPLE_DISK_IMAGE_BLOCK_DATA) (Lba BlockIndex : Z)
  : outcome (Z + option (APPLE_DISK_IMAGE_BLOCK_DATA * APPLE_DISK_IMAGE_CHUNK)) :=
  if decide (BlockIndex < Z.of_nat (length Blocks)) then
    b ← rd Blocks BlockIndex;
    if decide (b.(BlkSectorNumber) <= Lba /\ Lba < b.(BlkSectorNumber) +[64] b.(BlkSectorCount)) then
      r ← while_ (S (Z.to_nat b.(ChunkCount))) (FindChunkStep b Lba) 0;
      Ret (match r with Some c => inr (Some (b, c)) | None => inl (BlockIndex +[32] 1) end)
    else Ret (inl (BlockIndex +[32] 1))
  else Ret (inr None).

Definition InternalGetBlockChunk (Context : OC_APPLE_DISK_IMAGE_CONTEXT) (Lba : Z)
  : outcome (option (APPLE_DISK_IMAGE_BLOCK_DATA * APPLE_DISK_IMAGE_CHUNK)) :=
  while_ (S (length Context.(Blocks))) (FindBlockStep Context.(Blocks) Lba) 0.

Context `{MemoryPool} `{Zlib}.

(** [OcAppleRamDiskRead] to the offset [pos] of a buffer. *)
Definition ReadTo (m : list Z) (t : RamDisk.APPLE_RAM_DISK_EXTENT_TABLE) (Offset Size : Z) (Buffer : list Z) (pos : Z) : outcome (bool * list Z) :=
  Tail ← rd_slice Buffer pos (Z.of_nat (length Buffer) - pos);
  '(Result, Tail) ← RamDisk.OcAppleRamDiskRead debug m t Offset Size Tail;
  Ret (Result, take (Z.to_nat pos) Buffer ++ Tail).

(** The switch over the type of the chunk: the result and the buffer. *)
Definition CopyChunk (m : list Z) (t : RamDisk.APPLE_RAM_DISK_EXTENT_TABLE) (Chunk : APPLE_DISK_IMAGE_CHUNK)
  (ChunkTotalLength ChunkOffset BufferChunkSize : Z) (Buffer : list Z) (BufferCurrent : Z) : outcome (bool * list Z) :=
  if decide (Chunk.(Type_) = APPLE_DISK_IMAGE_CHUNK_TYPE_ZERO \/ Chunk.(Type_) = APPLE_DISK_IMAGE_CHUNK_TYPE_IGNORE) then
    Buffer ← ZeroMem Buffer BufferCurrent BufferChunkSize; Ret (true, Buffer)
  else if decide (Chunk.(Type_) = APPLE_DISK_IMAGE_CHUNK_TYPE_RAW) then
    ReadTo m t (Chunk.(CompressedOffset) +[64] ChunkOffset) BufferChunkSize Buffer BufferCurrent
  else if decide (Chunk.(Type_) = APPLE_DISK_IMAGE_CHUNK_TYPE_ZLIB) then
    match AllocatePool (ChunkTotalLength +[64] Chunk.(CompressedLength)) with
    | None => Ret (false, Buffer)
    | Some ChunkData =>
        '(Result, ChunkData) ← ReadTo m t Chunk.(CompressedOffset) Chunk.(CompressedLength) ChunkData ChunkTotalLength;
        if negb Result then Ret (false, Buffer) else
        ChunkDataCompressed ← rd_slice ChunkData ChunkTotalLength Chunk.(CompressedLength);
        let Out := Inflate ChunkTotalLength ChunkDataCompressed in
        ChunkData ← wr_slice ChunkData 0 Out;
        let OutSize := Z.of_nat (length Out) in
        if decide (OutSize <> ChunkTotalLength) then Ret (false, Buffer) else
        Buffer ← CopyMem Buffer BufferCurrent ChunkData ChunkOffset BufferChunkSize;
        Ret (true, Buffer)
    end
  else Ret (false, Buffer).

(** One turn of the loop; the state is [LbaCurrent], [RemainingBufferSize], the
    offset [BufferCurrent] and the buffer. *)
Definition ReadStep (m : list Z) (Context : OC_APPLE_DISK_IMAGE_CONTEXT) (s : Z * Z * Z * list Z) : outcome (Z * Z * Z * list Z + bool * list Z) :=
  let '(LbaCurrent, RemainingBufferSize, BufferCurrent, Buffer) := s in
  if decide (0 < RemainingBufferSize) then
    r ← InternalGetBlockChunk Context LbaCurrent;
    match r with
    | None => Ret (inr (false, Buffer))
    | Some (BlockData, Chunk) =>
        let LbaOffset := LbaCurrent -[64] DMG_SECTOR_START_ABS BlockData Chunk in
        let LbaLength := Chunk.(SectorCount) -[64] LbaOffset in
        let '(Result, ChunkOffset) := overflow_mul 64 LbaOffset APPLE_DISK_IMAGE_SECTOR_SIZE in
        if (Result : bool) then Ret (inr (false, Buffer)) else
        let '(Result, ChunkTotalLength) := overflow_mul 64 Chunk.(SectorCount) APPLE_DISK_IMAGE_SECTOR_SIZE in
        if (Result : bool) then Ret (inr (false, Buffer)) else
        let ChunkLength := ChunkTotalLength -[64] ChunkOffset in
        let BufferChunkSize := Z.min RemainingBufferSize ChunkLength in
        '(Result, Buffer) ← CopyChunk m Context.(ExtentTable) Chunk ChunkTotalLength ChunkOffset BufferChunkSize Buffer BufferCurrent;
        if negb Result then Ret (inr (false, Buffer)) else
        Ret (inl (LbaCurrent +[64] LbaLength, RemainingBufferSize -[64] BufferChunkSize, BufferCurrent + BufferChunkSize, Buffer))
    end
  else Ret (inr (true, Buffer)).

(** The result and the buffer; every turn fills at least one byte. *)
Definition OcAppleDiskImageRead (m : list Z) (Context : OC_APPLE_DISK_IMAGE_CONTEXT) (Lba BufferSize : Z) (Buffer : list Z) : outcome (bool * list Z) :=
  ASSERT (bool_decide (Lba < Context.(ImgSectorCount)));;
  while_ (S (Z.to_nat BufferSize)) (ReadStep m Context) (Lba, BufferSize, 0, Buffer).

(** The mounted image: its signature and context. Null pointers are [None]. *)
Definition DiskImageBlockIoReadBlocks (m : list Z) (This : option (Z * OC_APPLE_DISK_IMAGE_CONTEXT)) (Lba BufferSize : Z) (Buffer : option (list Z))
  : outcome (EFI_STATUS * option (list Z)) :=
  match This, Buffer with
  | Some (Signature, Context), Some Bytes =>
      if decide (BufferSize mod APPLE_DISK_IMAGE_SECTOR_SIZE <> 0) then Ret (EFI_BAD_BUFFER_SIZE, Buffer) else
      if decide (Signature = 0) then Ret (EFI_UNSUPPORTED, Buffer) else
      ASSERT (bool_decide (Signature = OC_APPLE_DISK_IMAGE_MOUNTED_DATA_SIGNATURE));;
      if decide (Context.(ImgSectorCount) <= Lba) then Ret (EFI_INVALID_PARAMETER, Buffer) else
      '(Result, Bytes) ← OcAppleDiskImageRead m Context Lba BufferSize Bytes;
      Ret (if (Result : bool) then EFI_SUCCESS else EFI_DEVICE_ERROR, Some Bytes)
  | _, _ => Ret (EFI_INVALID_PARAMETER, Buffer)
  end.

End Model.

(** ** Specification *)

(** What the table says in host byte order. *)
Definition swapped_block {Swap : SwapBytesLib} (b : APPLE_DISK_IMAGE_BLOCK_DATA) : APPLE_DISK_IMAGE_BLOCK_DATA :=
  let n := Z.to_nat (SwapBytes32 b.(ChunkCount)) in
  MkBlock (SwapBytes32 b.(BlkVersion)) (SwapBytes64 b.(BlkSectorNumber)) (SwapBytes64 b.(BlkSectorCount)) (SwapBytes64 b.(DataOffset))
    (SwapBytes32 b.(BuffersNeeded)) (SwapBytes32 b.(BlockDescriptors))
    (ImageChecksum (SwapBytes32 b.(Checksum).(SumType)) (SwapBytes32 b.(Checksum).(SumSize)) (SwapBytes32 <$> b.(Checksum).(SumData)))
    (SwapBytes32 b.(ChunkCount)) ((SwapChunk <$> take n b.(Chunks)) ++ drop n b.(Chunks)).

(** A chunk whose sectors end before [Top] and whose data end before [MaxOffset]. *)
Definition valid_chunk (Top MaxOffset : Z) (c : APPLE_DISK_IMAGE_CHUNK) : Prop :=
  c.(SectorNumber) + c.(SectorCount) <= Top /\ c.(CompressedOffset) + c.(CompressedLength) <= MaxOffset.
#[export] Instance valid_chunk_dec Top MaxOffset c : Decision (valid_chunk Top MaxOffset c).
Proof. unfold valid_chunk. apply _. Defined.

Definition used_chunks (b : APPLE_DISK_IMAGE_BLOCK_DATA) : list APPLE_DISK_IMAGE_CHUNK := take (Z.to_nat b.(ChunkCount)) b.(Chunks).

Definition valid_block (b : APPLE_DISK_IMAGE_BLOCK_DATA) (MaxSize Sectors DataForkOffset DataForkSize : Z) : Prop :=
  let MaxOffset := DataForkOffset + DataForkSize in
  sizeof_BLOCK_DATA + b.(ChunkCount) * sizeof_CHUNK <= MaxSize /\ b.(DataOffset) <= DataForkOffset /\ b.(Checksum).(SumSize) <= 1024
  /\ b.(BlkSectorNumber) + b.(BlkSectorCount) <= Sectors
  /\ Forall (valid_chunk (b.(BlkSectorNumber) + b.(BlkSectorCount)) MaxOffset) (used_chunks b).
#[export] Instance valid_block_dec b MaxSize Sectors DataForkOffset DataForkSize : Decision (valid_block b MaxSize Sectors DataForkOffset DataForkSize).
Proof. unfold valid_block. apply _. Defined.

(** A consistent table: the block lies on the disk, every chunk lies in its block, from
    whose first sector its own sectors count, and its data lie in the data fork. *)
Definition consistent_block (b : APPLE_DISK_IMAGE_BLOCK_DATA) (MaxSize Sectors DataForkOffset DataForkSize : Z) : Prop :=
  sizeof_BLOCK_DATA + b.(ChunkCount) * sizeof_CHUNK <= MaxSize /\ b.(DataOffset) <= DataForkOffset /\ b.(Checksum).(SumSize) <= 1024
  /\ b.(BlkSectorNumber) + b.(BlkSectorCount) <= Sectors
  /\ Forall (valid_chunk b.(BlkSectorCount) (DataForkOffset + DataForkSize)) (used_chunks b).

(** Fields that fit their types. *)
Definition chunk_fields (c : APPLE_DISK_IMAGE_CHUNK) : Prop :=
  in_width 32 c.(Type_) /\ in_width 64 c.(SectorNumber) /\ in_width 64 c.(SectorCount) /\ in_width 64 c.(CompressedOffset) /\ in_width 64 c.(CompressedLength).
Definition block_fields (b : APPLE_DISK_IMAGE_BLOCK_DATA) : Prop :=
  in_width 64 b.(BlkSectorNumber) /\ in_width 64 b.(BlkSectorCount) /\ in_width 64 b.(DataOffset) /\ in_width 32 b.(ChunkCount)
  /\ in_width 32 b.(Checksum).(SumSize) /\ length b.(Checksum).(SumData) = 32%nat /\ Forall chunk_fields b.(Chunks).

(** ** Lemmas *)
Section Swapping.
Context {Swap : SwapBytesLib} {HSwap : Rsa.SwapBytesLaws Swap}.

Lemma swap64_range x : in_width 64 x -> in_width 64 (SwapBytes64 x).
Proof using HSwap. intros H. by apply Rsa.SwapBytes64_law in H as [H _]. Qed.
Lemma swap32_range x : in_width 32 x -> in_width 32 (SwapBytes32 x).
Proof using HSwap. intros H. by apply Rsa.SwapBytes32_law in H as [H _]. Qed.

Lemma SwapChunk_fields c : chunk_fields c -> chunk_fields (SwapChunk c).
Proof using HSwap. intros (H1 & H2 & H3 & H4 & H5). split_and!; try apply swap64_range; try apply swap32_range; done. Qed.

Lemma SwapChunks_spec Top MaxOffset Count : in_width 64 Top -> in_width 64 MaxOffset -> Count < 2 ^ 32 ->
  forall l done_ rest fuel, Forall chunk_fields l -> Count = Z.of_nat (length done_ + length l) -> (length l < fuel)%nat ->
  exists Chunks', while_ fuel (SwapChunkStep Count Top MaxOffset) (Z.of_nat (length done_), done_ ++ l ++ rest)
    = Ret (Chunks', bool_decide (Forall (valid_chunk Top MaxOffset) (SwapChunk <$> l)))
  /\ (Forall (valid_chunk Top MaxOffset) (SwapChunk <$> l) -> Chunks' = done_ ++ (SwapChunk <$> l) ++ rest).
Proof using HSwap.
  unfold in_width. intros HT HM HC. induction l as [|c l IH]; intros done_ rest fuel Hl E Hf; (destruct fuel as [|fuel]; [cbn in Hf; lia|]); rewrite while_S;
    cbn [SwapChunkStep]; cbn [length] in E, Hf.
  - rewrite decide_False by lia. eexists. split; [done|done].
  - apply Forall_cons in Hl as [Hc Hl]. destruct (SwapChunk_fields c Hc) as (_ & B1 & B2 & B3 & B4). unfold in_width in *.
    rewrite decide_True by lia. rewrite (rd_nat _ _ c) by (by rewrite lookup_app_r, Nat.sub_diag by lia). rewrite bind_ret. cbv beta zeta.
    rewrite wr_in by (rewrite !length_app; cbn [length]; lia). rewrite bind_ret. cbv beta.
    rewrite Nat2Z.id, insert_app_r_alt, Nat.sub_diag by lia. cbn [app]. change (<[0%nat:=SwapChunk c]> (c :: l ++ rest)) with (SwapChunk c :: l ++ rest).
    unfold overflow_add. cbv zeta. rewrite fmap_cons. destruct (decide (valid_chunk Top MaxOffset (SwapChunk c))) as [[V1 V2]|Hv].
    + rewrite (wrap_small 64 (SectorNumber _ + _)), (wrap_small 64 (CompressedOffset _ + _)), (wrap_small 32 (Z.of_nat _ + 1)) by lia.
      rewrite decide_False by (rewrite bool_decide_eq_true; lia). rewrite decide_False by (rewrite bool_decide_eq_true; lia).
      rewrite bind_ret. cbv beta iota.
      destruct (IH (done_ ++ [SwapChunk c]) rest fuel Hl) as (Ch & E2 & H2); [rewrite length_app; cbn; lia|lia|].
      rewrite length_app in E2. cbn [length] in E2. rewrite <- app_assoc in E2. cbn [app] in E2. replace (Z.of_nat (length done_) + 1) with (Z.of_nat (length done_ + 1)) by lia.
      exists Ch. split; [rewrite E2; f_equal; f_equal; apply bool_decide_ext; rewrite Forall_cons; unfold valid_chunk in *; tauto|].
      intros HF%Forall_cons. rewrite H2 by tauto. by rewrite <- app_assoc.
    + exists (done_ ++ SwapChunk c :: l ++ rest). rewrite (bool_decide_eq_false_2 (Forall _ _)) by (rewrite Forall_cons; tauto). split; [|rewrite Forall_cons; tauto]. unfold valid_chunk in Hv.
      destruct (decide (bool_decide (2 ^ 64 <= SectorNumber _ + _) = true \/ _)) as [D1|D1]; [rewrite bind_ret; reflexivity|]. apply Decidable.not_or in D1 as [D1 D2].
      rewrite bool_decide_eq_true in D1. rewrite wrap_small in D2 by lia.
      rewrite decide_True; [done|]. rewrite bool_decide_eq_true.
      destruct (decide (2 ^ 64 <= CompressedOffset (SwapChunk c) + CompressedLength (SwapChunk c))); [by left|right]. rewrite wrap_small by lia. lia.
Qed.
Lemma SwapSumData_spec b : length b.(Checksum).(SumData) = 32%nat ->
  SwapSumData b = Ret (MkBlock b.(BlkVersion) b.(BlkSectorNumber) b.(BlkSectorCount) b.(DataOffset) b.(BuffersNeeded) b.(BlockDescriptors)
    (ImageChecksum b.(Checksum).(SumType) b.(Checksum).(SumSize) (SwapBytes32 <$> b.(Checksum).(SumData))) b.(ChunkCount) b.(Chunks)).
Proof using.
  intros HL. unfold SwapSumData. set (D := SumData (Checksum b)) in *. set (xs := SwapBytes32 <$> D).
  assert (length xs = 32%nat) as Hxs by (unfold xs; by rewrite length_fmap). change (Z.to_nat APPLE_DISK_IMAGE_CHECKSUM_SIZE) with 32%nat. rewrite <- Hxs.
  rewrite (for_fill _ 0 xs D); [rewrite bind_ret; cbv beta; rewrite inserts_all by (by rewrite Hxs); reflexivity|lia|lia|].
  intros i x Hx. cbv zeta. unfold xs in Hx. rewrite list_lookup_fmap in Hx. destruct (D !! i) as [y|] eqn:Hy; [|done]. injection Hx as <-.
  pose proof (lookup_lt_Some _ _ _ Hy) as Hi. rewrite (rd_nat _ i y), bind_ret; [by rewrite Z.add_0_l|].
  rewrite lookup_inserts by (rewrite length_take; lia). rewrite decide_False by (rewrite length_take; lia). done.
Qed.

Lemma SwapBlockData_spec debug b MaxSize Sectors DataForkOffset DataForkSize :
  block_fields b -> sizeof_BLOCK_DATA <= MaxSize < 2 ^ 32 -> MaxSize <= sizeof_BLOCK_DATA + Z.of_nat (length b.(Chunks)) * sizeof_CHUNK + (sizeof_CHUNK - 1) ->
  0 <= Sectors < 2 ^ 64 -> 0 <= DataForkOffset -> 0 <= DataForkSize -> DataForkOffset + DataForkSize < 2 ^ 64 ->
  exists b', InternalSwapBlockData debug b MaxSize Sectors DataForkOffset DataForkSize
    = Ret (b', bool_decide (valid_block (swapped_block b) MaxSize Sectors DataForkOffset DataForkSize))
  /\ (valid_block (swapped_block b) MaxSize Sectors DataForkOffset DataForkSize -> b' = swapped_block b).
Proof using HSwap.
  intros (F1 & F2 & F3 & F4 & F5 & F6 & F7) HM HL HS H0 H1 H2. unfold InternalSwapBlockData.
  apply swap64_range in F1, F2, F3. apply swap32_range in F4, F5. unfold in_width in *.
  rewrite RamDisk.assert_holds by (apply bool_decide_eq_true_2; lia). rewrite bind_ret. cbn [set_ChunkCount ChunkCount]. set (n := SwapBytes32 (ChunkCount b)) in *.
  set (V := valid_block (swapped_block b) MaxSize Sectors DataForkOffset DataForkSize). unfold sizeof_BLOCK_DATA, sizeof_CHUNK in *.
  assert (forall b', ~ V -> exists b'', Ret (b', false) = Ret (b'', bool_decide V) /\ (V -> b'' = swapped_block b)) as Hno.
  { intros b' Hn. exists b'. by rewrite bool_decide_eq_false_2. }
  unfold overflow_mul. cbv zeta. rewrite (wrap_small 64 (MaxSize - 204)) by lia.
  destruct (decide (bool_decide (2 ^ 32 <= n * 40) = true \/ _)) as [D1|D1].
  { apply Hno. intros (V1 & _). cbn [swapped_block ChunkCount] in V1. fold n in V1. unfold sizeof_BLOCK_DATA, sizeof_CHUNK in V1.
    rewrite bool_decide_eq_true, wrap_small in D1 by lia. lia. }
  apply Decidable.not_or in D1 as [D1 D2]. rewrite bool_decide_eq_true in D1. rewrite wrap_small in D2 by lia.
  rewrite (wrap_small 64 (DataForkOffset + _)) by lia. cbn [SwapFields set_ChunkCount DataOffset Checksum SumSize BlkSectorNumber BlkSectorCount].
  change (APPLE_DISK_IMAGE_CHECKSUM_SIZE * 4 * 8) with 1024. destruct (decide (DataForkOffset < _ \/ _)) as [D3|D3].
  { apply Hno. intros (_ & V1 & V2 & _). cbn [swapped_block DataOffset Checksum SumSize] in V1, V2. lia. }
  unfold overflow_add. cbv zeta. destruct (decide (bool_decide (2 ^ 64 <= SwapBytes64 (BlkSectorNumber b) + _) = true \/ _)) as [D4|D4].
  { apply Hno. intros (_ & _ & _ & V1 & _). cbn [swapped_block BlkSectorNumber BlkSectorCount] in V1. rewrite bool_decide_eq_true, wrap_small in D4 by lia. lia. }
  apply Decidable.not_or in D4 as [D4 D5]. rewrite bool_decide_eq_true in D4. rewrite wrap_small in D5 |- * by lia.
  rewrite SwapSumData_spec by done. rewrite bind_ret. cbn [SwapFields set_ChunkCount Chunks ChunkCount Checksum SumType SumSize SumData]. fold n.
  assert (in_width 64 (SwapBytes64 (BlkSectorNumber b) + SwapBytes64 (BlkSectorCount b))) as W1 by (unfold in_width; lia).
  assert (in_width 64 (DataForkOffset + DataForkSize)) as W2 by (unfold in_width; lia).
  destruct (SwapChunks_spec (SwapBytes64 (BlkSectorNumber b) + SwapBytes64 (BlkSectorCount b)) (DataForkOffset + DataForkSize) n W1 W2 (proj2 F4)
    (take (Z.to_nat n) (Chunks b)) [] (drop (Z.to_nat n) (Chunks b)) (S (Z.to_nat n))) as (Ch & E & HCh).
  { by apply Forall_take. } { cbn [length]. rewrite length_take. lia. } { rewrite length_take. lia. }
  cbn [length app] in E, HCh. rewrite take_drop in E. change (Z.of_nat 0) with 0 in E. rewrite E, bind_ret. cbv beta iota.
  assert (V <-> Forall (valid_chunk (SwapBytes64 (BlkSectorNumber b) + SwapBytes64 (BlkSectorCount b)) (DataForkOffset + DataForkSize)) (SwapChunk <$> take (Z.to_nat n) (Chunks b))) as HV.
  { unfold V, valid_block, used_chunks, swapped_block. cbn [DataOffset Checksum SumSize BlkSectorNumber BlkSectorCount ChunkCount Chunks]. fold n.
    assert (take (Z.to_nat n) ((SwapChunk <$> take (Z.to_nat n) (Chunks b)) ++ drop (Z.to_nat n) (Chunks b)) = SwapChunk <$> take (Z.to_nat n) (Chunks b)) as ->.
    { apply take_app_length'. rewrite length_fmap, length_take. lia. }
    split; [tauto|]. intros HF. unfold sizeof_BLOCK_DATA, sizeof_CHUNK. split_and!; try lia. exact HF. }
  eexists. split; [f_equal; f_equal; apply bool_decide_ext; by rewrite HV|]. intros Hv. rewrite HCh by (by apply HV). reflexivity.
Qed.
End Swapping.

(** ** Specification of the reader: a flat array of bytes *)

Definition in_chunk (b : APPLE_DISK_IMAGE_BLOCK_DATA) (c : APPLE_DISK_IMAGE_CHUNK) (Lba : Z) : Prop :=
  b.(BlkSectorNumber) + c.(SectorNumber) <= Lba < b.(BlkSectorNumber) + c.(SectorNumber) + c.(SectorCount).
#[export] Instance in_chunk_dec b c Lba : Decision (in_chunk b c Lba).
Proof. unfold in_chunk. apply _. Defined.

Fixpoint find_chunk (b : APPLE_DISK_IMAGE_BLOCK_DATA) (Lba : Z) (l : list APPLE_DISK_IMAGE_CHUNK) : option APPLE_DISK_IMAGE_CHUNK :=
  match l with [] => None | c :: l => if decide (in_chunk b c Lba) then Some c else find_chunk b Lba l end.

(** The first chunk that holds a sector. *)
Fixpoint locate (Blocks : list APPLE_DISK_IMAGE_BLOCK_DATA) (Lba : Z) : option (APPLE_DISK_IMAGE_BLOCK_DATA * APPLE_DISK_IMAGE_CHUNK) :=
  match Blocks with
  | [] => None
  | b :: Blocks =>
      match (if decide (b.(BlkSectorNumber) <= Lba < b.(BlkSectorNumber) + b.(BlkSectorCount)) then find_chunk b Lba (used_chunks b) else None) with
      | Some c => Some (b, c)
      | None => locate Blocks Lba
      end
  end.

Section Content.
Context `{Zlib} (m : list Z) (t : RamDisk.APPLE_RAM_DISK_EXTENT_TABLE).

(** Byte [k] of the decompressed chunk, when it can be read. *)
Definition chunk_byte (c : APPLE_DISK_IMAGE_CHUNK) (k : Z) : option Z :=
  let flat := RamDisk.flat m t in
  if decide (c.(Type_) = APPLE_DISK_IMAGE_CHUNK_TYPE_ZERO \/ c.(Type_) = APPLE_DISK_IMAGE_CHUNK_TYPE_IGNORE) then Some 0
  else if decide (c.(Type_) = APPLE_DISK_IMAGE_CHUNK_TYPE_RAW) then flat !! Z.to_nat (c.(CompressedOffset) + k)
  else if decide (c.(Type_) = APPLE_DISK_IMAGE_CHUNK_TYPE_ZLIB) then
    let Out := Inflate (c.(SectorCount) * 512) (slice flat c.(CompressedOffset) c.(CompressedLength)) in
    if decide (c.(CompressedOffset) + Z.max 1 c.(CompressedLength) <= Z.of_nat (length flat) /\ Z.of_nat (length Out) = c.(SectorCount) * 512)
    then Out !! Z.to_nat k else None
  else None.

(** Byte [a] of the image. *)
Definition image_byte (Blocks : list APPLE_DISK_IMAGE_BLOCK_DATA) (a : Z) : option Z :=
  match locate Blocks (a / 512) with
  | Some (b, c) => chunk_byte c (a - (b.(BlkSectorNumber) + c.(SectorNumber)) * 512)
  | None => None
  end.
End Content.

(** A chunk table as [InternalSwapBlockData] accepts it, for an image of [Sectors]
    sectors with data before [MaxOffset]. *)
Definition table_chunk (debug : bool) (Top MaxOffset : Z) (c : APPLE_DISK_IMAGE_CHUNK) : Prop :=
  0 <= c.(SectorNumber) /\ 0 <= c.(SectorCount) /\ 0 <= c.(CompressedOffset) /\ 0 <= c.(CompressedLength) /\ valid_chunk Top MaxOffset c
  /\ (debug = true -> c.(Type_) = APPLE_DISK_IMAGE_CHUNK_TYPE_ZLIB -> 0 < c.(CompressedLength)).
Definition table_block (debug : bool) (Sectors MaxOffset : Z) (b : APPLE_DISK_IMAGE_BLOCK_DATA) : Prop :=
  0 <= b.(BlkSectorNumber) /\ 0 <= b.(BlkSectorCount) /\ b.(BlkSectorNumber) + b.(BlkSectorCount) <= Sectors
  /\ 0 <= b.(ChunkCount) <= Z.of_nat (length b.(Chunks)) /\ b.(ChunkCount) < 2 ^ 32
  /\ Forall (table_chunk debug (b.(BlkSectorNumber) + b.(BlkSectorCount)) MaxOffset) (used_chunks b).
Record image_ok (debug : bool) (MaxOffset : Z) (Context : OC_APPLE_DISK_IMAGE_CONTEXT) : Prop := ImageOk {
  img_size : Context.(ImgSectorCount) * 512 + MaxOffset < 2 ^ 64;
  img_offset : 0 <= MaxOffset;
  img_count : Z.of_nat (length Context.(Blocks)) < 2 ^ 32;
  img_blocks : Forall (table_block debug Context.(ImgSectorCount) MaxOffset) Context.(Blocks)
}.

(** ** Reading *)

Lemma find_chunk_sound b Lba l c : find_chunk b Lba l = Some c -> c ∈ l /\ in_chunk b c Lba.
Proof.
  induction l as [|d l IH]; cbn [find_chunk]; [done|]. case_decide as Hd; [intros [= ->]; by split; [left|]|]. intros H. destruct (IH H). by split; [right|].
Qed.

Lemma locate_sound Blocks Lba b c : locate Blocks Lba = Some (b, c) -> b ∈ Blocks /\ c ∈ used_chunks b /\ in_chunk b c Lba.
Proof.
  induction Blocks as [|d l IH]; cbn [locate]; [done|]. destruct (decide (_ <= Lba < _)).
  - destruct (find_chunk d Lba (used_chunks d)) as [c'|] eqn:E.
    + intros [= -> ->]. apply find_chunk_sound in E as [E1 E2]. by split; [left|].
    + intros H. destruct (IH H) as (? & ? & ?). by split; [right|].
  - intros H. destruct (IH H) as (? & ? & ?). by split; [right|].
Qed.

(** Every chunk lies in its block, and no two chunks overlap. *)
Definition separate (Blocks : list APPLE_DISK_IMAGE_BLOCK_DATA) : Prop :=
  (forall b c Lba, b ∈ Blocks -> c ∈ used_chunks b -> in_chunk b c Lba -> b.(BlkSectorNumber) <= Lba < b.(BlkSectorNumber) + b.(BlkSectorCount))
  /\ (forall b c b' c' Lba, b ∈ Blocks -> c ∈ used_chunks b -> b' ∈ Blocks -> c' ∈ used_chunks b' -> in_chunk b c Lba -> in_chunk b' c' Lba -> b = b' /\ c = c').

Lemma find_chunk_complete b Lba l c : c ∈ l -> in_chunk b c Lba -> is_Some (find_chunk b Lba l).
Proof.
  induction l as [|d l IH]; [by intros H%elem_of_nil|]. intros H Hin. cbn [find_chunk]. case_decide as Hd; [eauto|].
  apply elem_of_cons in H as [->|H]; [done|auto].
Qed.

Lemma locate_complete Blocks Lba b c : b ∈ Blocks -> c ∈ used_chunks b -> in_chunk b c Lba -> b.(BlkSectorNumber) <= Lba < b.(BlkSectorNumber) + b.(BlkSectorCount) ->
  is_Some (locate Blocks Lba).
Proof.
  induction Blocks as [|d l IH]; [by intros H%elem_of_nil|]. intros H Hc Hin Hb. cbn [locate]. apply elem_of_cons in H as [->|H].
  - rewrite decide_True by done. destruct (find_chunk_complete d Lba (used_chunks d) c Hc Hin) as [x ->]. eauto.
  - destruct (IH H Hc Hin Hb) as [[b' c'] ->]. destruct (if decide _ then _ else _); eauto.
Qed.

Lemma locate_separate Blocks b c Lba : separate Blocks -> b ∈ Blocks -> c ∈ used_chunks b -> in_chunk b c Lba -> locate Blocks Lba = Some (b, c).
Proof.
  intros [H1 H2] Hb Hc Hin. destruct (locate_complete Blocks Lba b c Hb Hc Hin (H1 b c Lba Hb Hc Hin)) as [[b' c'] E]. rewrite E.
  apply locate_sound in E as (Hb' & Hc' & Hin'). by destruct (H2 b c b' c' Lba) as [-> ->].
Qed.

Section Reader.
Context (debug : bool) (MaxOffset : Z) (Context : OC_APPLE_DISK_IMAGE_CONTEXT) (HI : image_ok debug MaxOffset Context).

Lemma FindChunk_spec b Lba : b ∈ Context.(Blocks) -> forall l i fuel, drop (Z.to_nat i) (used_chunks b) = l -> 0 <= i <= b.(ChunkCount) -> (length l < fuel)%nat ->
  while_ fuel (FindChunkStep b Lba) i = Ret (find_chunk b Lba l).
Proof using HI.
  intros Hb. destruct HI as [I1 I2 I3 I4]. rewrite Forall_forall in I4. destruct (I4 b Hb) as (B1 & B2 & B3 & B4 & B5 & B6).
  assert (length (used_chunks b) = Z.to_nat b.(ChunkCount)) as HL by (unfold used_chunks; rewrite length_take; lia).
  induction l as [|c l IH]; intros i fuel Hl Hi Hf; (destruct fuel as [|fuel]; [cbn in Hf; lia|]); rewrite while_S; unfold FindChunkStep at 2.
  - apply (f_equal length) in Hl. rewrite length_drop in Hl. cbn in Hl. rewrite decide_False by lia. done.
  - assert (used_chunks b !! Z.to_nat i = Some c) as Hc by (apply (f_equal (fun l => l !! 0%nat)) in Hl; rewrite lookup_drop, Nat.add_0_r in Hl; done).
    assert (i < b.(ChunkCount)) as Hi2 by (apply lookup_lt_Some in Hc; lia). rewrite decide_True by done.
    assert (table_chunk debug (b.(BlkSectorNumber) + b.(BlkSectorCount)) MaxOffset c) as (C1 & C2 & C3 & C4 & [C5 C6] & _).
    { rewrite Forall_forall in B6. apply B6. apply list_elem_of_lookup. eauto. }
    assert (Chunks b !! Z.to_nat i = Some c) as Hc2 by (by apply lookup_take_Some in Hc as [Hc _]).
    rewrite (rd_lookup _ _ c) by (done || lia). rewrite bind_ret. cbv beta.
    unfold DMG_SECTOR_START_ABS. rewrite (wrap_small 64 (BlkSectorNumber b + SectorNumber c)), (wrap_small 64 (_ + SectorCount c)) by lia.
    cbn [find_chunk]. unfold in_chunk. case_decide as D1; case_decide as D2; try lia; rewrite bind_ret; [done|].
    rewrite wrap_small by lia. apply IH; [|lia|cbn in Hf; lia]. exact (RamDisk.drop_next _ _ _ _ (proj1 Hi) Hl).
Qed.

Lemma GetBlockChunk_spec Lba : InternalGetBlockChunk Context Lba = Ret (locate Context.(Blocks) Lba).
Proof using HI.
  destruct HI as [I1 I2 I3 I4]. unfold InternalGetBlockChunk.
  assert (forall l i fuel, drop (Z.to_nat i) Context.(Blocks) = l -> 0 <= i <= Z.of_nat (length Context.(Blocks)) -> (length l < fuel)%nat ->
    while_ fuel (FindBlockStep Context.(Blocks) Lba) i = Ret (locate l Lba)) as Hloop; [|apply Hloop; (done || lia)].
  induction l as [|b l IH]; intros i fuel Hl Hi Hf; (destruct fuel as [|fuel]; [cbn in Hf; lia|]); rewrite while_S; unfold FindBlockStep at 2.
  - apply (f_equal length) in Hl. rewrite length_drop in Hl. cbn in Hl. rewrite decide_False by lia. done.
  - assert (Context.(Blocks) !! Z.to_nat i = Some b) as Hb by (apply (f_equal (fun l => l !! 0%nat)) in Hl; rewrite lookup_drop, Nat.add_0_r in Hl; done).
    assert (i < Z.of_nat (length Context.(Blocks))) as Hi2 by (apply lookup_lt_Some in Hb; lia). rewrite decide_True by done.
    assert (b ∈ Context.(Blocks)) as Hin by (apply list_elem_of_lookup; eauto).
    rewrite Forall_forall in I4. destruct (I4 b Hin) as (B1 & B2 & B3 & B4 & B5 & _).
    rewrite (rd_lookup _ _ b) by (done || lia). rewrite bind_ret. cbv beta. rewrite (wrap_small 64 (_ + BlkSectorCount b)) by lia. cbn [locate].
    assert (while_ fuel (FindBlockStep Context.(Blocks) Lba) (i +[32] 1) = Ret (locate l Lba)) as Hnext.
    { rewrite wrap_small by lia. apply IH; [exact (RamDisk.drop_next _ _ _ _ (proj1 Hi) Hl)|lia|cbn in Hf; lia]. }
    case_decide as D1; [|by rewrite bind_ret].
    rewrite (FindChunk_spec b Lba Hin (used_chunks b) 0); [|done|lia|unfold used_chunks; rewrite length_take; lia]. rewrite !bind_ret. cbv beta.
    by destruct (find_chunk b Lba (used_chunks b)).
Qed.
Context `{P : MemoryPool} {HP : MemoryPoolLaws P} `{L : Zlib} {HL : ZlibLaws L}.
Context (m : list Z) (HD : RamDisk.disk_ok m Context.(ExtentTable)).
Abbreviation t := Context.(ExtentTable).
Abbreviation flat := (RamDisk.flat m t).

Lemma ReadTo_spec Offset Size Buffer pos : 0 <= Offset -> 0 <= Size -> (debug = true -> 0 < Size) -> Offset + Size < 2 ^ 64 ->
  0 <= pos -> pos + Size <= Z.of_nat (length Buffer) ->
  ReadTo debug m t Offset Size Buffer pos
  = Ret (bool_decide (Offset + Z.max 1 Size <= Z.of_nat (length flat)), list_inserts (Z.to_nat pos) (slice flat Offset Size) Buffer).
Proof using HD.
  intros H1 H2 H3 H4 H5 H6. unfold ReadTo. rewrite rd_slice_in by lia. rewrite bind_ret. cbv beta.
  assert (slice Buffer pos (Z.of_nat (length Buffer) - pos) = drop (Z.to_nat pos) Buffer) as -> by (unfold slice; apply take_ge; rewrite length_drop; lia).
  rewrite RamDisk.Read_any by (done || (rewrite length_drop; lia)). rewrite bind_ret. cbv beta iota. f_equal. f_equal.
  assert (length (slice flat Offset Size) <= Z.to_nat Size)%nat by (unfold slice; rewrite length_take; lia).
  pose proof (RamDisk.inserts_app_second (slice flat Offset Size) (take (Z.to_nat pos) Buffer) (drop (Z.to_nat pos) Buffer) (Z.to_nat pos)) as E.
  rewrite take_drop, length_take, length_drop in E. rewrite E by lia. f_equal. f_equal. lia.
Qed.

Lemma lookup_slice_Z (l : list Z) o n k : 0 <= o -> 0 <= k < n -> slice l o n !! Z.to_nat k = l !! Z.to_nat (o + k).
Proof using. intros. rewrite lookup_slice by lia. f_equal. lia. Qed.

(** The result of a turn: the bytes [ChunkOffset], ... of the chunk are in the buffer. *)
Definition copied (c : APPLE_DISK_IMAGE_CHUNK) (ChunkOffset n pos : Z) (Buffer : list Z) (r : bool * list Z) : Prop :=
  length r.2 = length Buffer
  /\ (r.1 = true -> exists xs, length xs = Z.to_nat n /\ r.2 = list_inserts (Z.to_nat pos) xs Buffer
      /\ forall k, 0 <= k < n -> xs !! Z.to_nat k = chunk_byte m t c (ChunkOffset + k))
  /\ ((forall size, AllocatePool size <> None) -> (forall k, 0 <= k < n -> is_Some (chunk_byte m t c (ChunkOffset + k))) -> r.1 = true).

Lemma copied_false c ChunkOffset n pos Buffer : 0 < n ->
  ((forall size, AllocatePool size <> None) -> (forall k, 0 <= k < n -> is_Some (chunk_byte m t c (ChunkOffset + k))) -> False) ->
  copied c ChunkOffset n pos Buffer (false, Buffer).
Proof using. intros Hn H. split; [done|]. split; [done|]. intros H1 H2. destruct (H H1 H2). Qed.

Lemma CopyZlib_spec c ChunkOffset n pos Buffer : c.(Type_) = APPLE_DISK_IMAGE_CHUNK_TYPE_ZLIB ->
  0 <= c.(CompressedOffset) -> 0 <= c.(CompressedLength) -> (debug = true -> 0 < c.(CompressedLength)) -> 0 <= c.(SectorCount) ->
  c.(SectorCount) * 512 + c.(CompressedOffset) + c.(CompressedLength) < 2 ^ 64 ->
  0 <= ChunkOffset -> 0 < n -> ChunkOffset + n <= c.(SectorCount) * 512 -> 0 <= pos -> pos + n <= Z.of_nat (length Buffer) ->
  exists r, CopyChunk debug m t c (c.(SectorCount) * 512) ChunkOffset n Buffer pos = Ret r /\ copied c ChunkOffset n pos Buffer r.
Proof using HD HP HL.
  intros HT C1 C2 C3 C4 C5 H1 H2 H3 H4 H5. unfold CopyChunk. set (N := SectorCount c * 512) in *. rewrite HT.
  rewrite decide_False by (intros [E|E]; discriminate E). rewrite decide_False by discriminate. rewrite decide_True by done. rewrite (wrap_small 64 (N + _)) by lia.
  set (Out := Inflate N (slice flat (CompressedOffset c) (CompressedLength c))).
  assert (forall k, chunk_byte m t c k = if decide (CompressedOffset c + Z.max 1 (CompressedLength c) <= Z.of_nat (length flat) /\ Z.of_nat (length Out) = N)
    then Out !! Z.to_nat k else None) as HB.
  { intros k. unfold chunk_byte. rewrite HT. rewrite decide_False by (intros [E|E]; discriminate E). rewrite decide_False by discriminate. by rewrite decide_True by done. }
  assert (~ (CompressedOffset c + Z.max 1 (CompressedLength c) <= Z.of_nat (length flat) /\ Z.of_nat (length Out) = N) -> copied c ChunkOffset n pos Buffer (false, Buffer)) as Hfail.
  { intros Hn. apply copied_false; [done|]. intros _ Hb. destruct (Hb 0 ltac:(lia)) as [x Hx]. rewrite HB, decide_False in Hx; done. }
  destruct (AllocatePool (N + CompressedLength c)) as [D|] eqn:EA.
  2: { eexists. split; [done|]. apply copied_false; [done|]. intros HA. by destruct (HA _ EA). }
  apply AllocatePool_length in EA. rewrite ReadTo_spec by (done || lia). rewrite bind_ret. cbv beta iota.
  destruct (bool_decide_reflect (CompressedOffset c + Z.max 1 (CompressedLength c) <= Z.of_nat (length flat))) as [Hr|Hr]; cbn [negb].
  2: { eexists. split; [done|]. apply Hfail. tauto. }
  set (S0 := slice flat (CompressedOffset c) (CompressedLength c)) in *.
  assert (Z.of_nat (length S0) = CompressedLength c) as HS by (unfold S0; rewrite slice_length by lia; lia).
  rewrite rd_slice_in by (rewrite ?length_inserts; lia). rewrite bind_ret. cbv beta zeta.
  assert (slice (list_inserts (Z.to_nat N) S0 D) N (CompressedLength c) = S0) as -> by (rewrite <- HS at 1; apply slice_inserts_same; lia).
  fold Out. pose proof (Inflate_fits N S0 ltac:(lia)) as Hfit. fold Out in Hfit.
  rewrite wr_slice_in by (rewrite ?length_inserts; lia). rewrite bind_ret. cbv beta.
  destruct (decide (Z.of_nat (length Out) <> N)) as [Ho|Ho]; [eexists; split; [done|]; apply Hfail; tauto|].
  rewrite CopyMem_in by (rewrite ?length_inserts; lia). rewrite bind_ret. cbv beta. eexists. split; [reflexivity|].
  set (D' := list_inserts _ Out _). assert (slice D' ChunkOffset n = slice Out ChunkOffset n) as ->.
  { apply slice_ext; [lia..|]. intros i Hi. unfold D'. rewrite lookup_inserts by (rewrite ?length_inserts; lia). rewrite decide_True by lia. f_equal. lia. }
  split; [apply length_inserts|]. split; [|done]. intros _. exists (slice Out ChunkOffset n). split; [apply slice_length; lia|]. split; [done|].
  intros k Hk. rewrite HB, decide_True by (split; [done|lia]). apply lookup_slice_Z; lia.
Qed.

Lemma CopyChunk_spec c ChunkOffset n pos Buffer Top :
  table_chunk debug Top MaxOffset c -> Top <= Context.(ImgSectorCount) ->
  0 <= ChunkOffset -> 0 < n -> ChunkOffset + n <= c.(SectorCount) * 512 -> 0 <= pos -> pos + n <= Z.of_nat (length Buffer) ->
  exists r, CopyChunk debug m t c (c.(SectorCount) * 512) ChunkOffset n Buffer pos = Ret r /\ copied c ChunkOffset n pos Buffer r.
Proof using HI HD HP HL.
  intros (C1 & C2 & C3 & C4 & [C5 C6] & C7) HTop H1 H2 H3 H4 H5. destruct HI as [I1 I2 _ _].
  destruct (decide (Type_ c = APPLE_DISK_IMAGE_CHUNK_TYPE_ZLIB)) as [HT|HT]; [apply CopyZlib_spec; (done || lia || auto)|]. unfold CopyChunk.
  destruct (decide (Type_ c = APPLE_DISK_IMAGE_CHUNK_TYPE_ZERO \/ Type_ c = APPLE_DISK_IMAGE_CHUNK_TYPE_IGNORE)) as [HZ|HZ].
  - rewrite ZeroMem_in by lia. rewrite bind_ret. cbv beta. eexists. split; [reflexivity|]. split; [apply length_inserts|]. split; [|done]. intros _.
    exists (replicate (Z.to_nat n) 0). split; [apply length_replicate|]. split; [done|]. intros k Hk. unfold chunk_byte. rewrite decide_True by done.
    apply lookup_replicate_2. lia.
  - destruct (decide (Type_ c = APPLE_DISK_IMAGE_CHUNK_TYPE_RAW)) as [HR|HR].
    + rewrite (wrap_small 64 (CompressedOffset c + _)) by lia. rewrite ReadTo_spec by (done || lia). eexists. split; [reflexivity|].
      assert (forall k, chunk_byte m t c (ChunkOffset + k) = flat !! Z.to_nat (CompressedOffset c + ChunkOffset + k)) as HB.
      { intros k. unfold chunk_byte. rewrite decide_False by done. rewrite decide_True by done. do 2 f_equal. lia. }
      split; [apply length_inserts|]. cbn [fst snd]. rewrite bool_decide_eq_true. split.
      * intros Hr. exists (slice flat (CompressedOffset c + ChunkOffset) n). split; [apply slice_length; lia|]. split; [done|].
        intros k Hk. rewrite HB. apply lookup_slice_Z; lia.
      * intros _ Hb. destruct (Hb (n - 1) ltac:(lia)) as [x Hx]. rewrite HB in Hx. apply lookup_lt_Some in Hx. lia.
    + rewrite decide_False by done. eexists. split; [done|]. apply copied_false; [done|]. intros _ Hb. destruct (Hb 0 ltac:(lia)) as [x Hx].
      unfold chunk_byte in Hx. by rewrite !decide_False in Hx.
Qed.
(** *** The loop *)
Section Loop.
Context (Lba BufferSize : Z) (Buffer0 : list Z) (HLba : 0 <= Lba) (HN : 0 <= BufferSize < 2 ^ 64) (HB0 : BufferSize <= Z.of_nat (length Buffer0)).

(** The buffer begins with the first [n] bytes from [Lba] on. *)
Definition filled (n : Z) (Buffer : list Z) : Prop :=
  exists xs, length xs = Z.to_nat n /\ Buffer = list_inserts 0 xs Buffer0
  /\ forall k, 0 <= k < n -> xs !! Z.to_nat k = image_byte m t Context.(Blocks) (Lba * 512 + k).

Definition reading (s : Z * Z * Z * list Z) : Prop :=
  let '(LbaCurrent, Remaining, pos, Buffer) := s in
  0 <= Remaining /\ 0 <= pos /\ pos + Remaining = BufferSize /\ filled pos Buffer /\ (0 < Remaining -> LbaCurrent * 512 = Lba * 512 + pos).

Definition read_done (r : bool * list Z) : Prop :=
  length r.2 = length Buffer0 /\ (r.1 = true -> filled BufferSize r.2)
  /\ ((forall size, AllocatePool size <> None) -> (forall k, 0 <= k < BufferSize -> is_Some (image_byte m t Context.(Blocks) (Lba * 512 + k))) -> r.1 = true).

Lemma filled_length n B : filled n B -> length B = length Buffer0.
Proof using. intros (xs & _ & -> & _). apply length_inserts. Qed.

Lemma filled_app n k B xs : 0 <= n -> 0 <= k -> n + k <= BufferSize -> filled n B -> length xs = Z.to_nat k ->
  (forall i, 0 <= i < k -> xs !! Z.to_nat i = image_byte m t Context.(Blocks) (Lba * 512 + (n + i))) -> filled (n + k) (list_inserts (Z.to_nat n) xs B).
Proof using HB0.
  intros Hn Hk Hnk (ys & Hy & -> & Hys) Hx Hxs. exists (ys ++ xs). split; [rewrite length_app; lia|]. split.
  - rewrite <- Hy. apply (inserts_inserts Buffer0 ys xs 0). lia.
  - intros i Hi. destruct (decide (i < n)).
    + rewrite lookup_app_l by lia. apply Hys. lia.
    + rewrite lookup_app_r by lia. replace (Z.to_nat i - length ys)%nat with (Z.to_nat (i - n)) by lia. rewrite Hxs by lia. f_equal. lia.
Qed.

Context (HS : separate Context.(Blocks)).

Lemma chunk_at_byte Cur b c off k : locate Context.(Blocks) Cur = Some (b, c) ->
  off = (Cur - (b.(BlkSectorNumber) + c.(SectorNumber))) * 512 -> 0 <= k -> off + k < c.(SectorCount) * 512 ->
  image_byte m t Context.(Blocks) (Cur * 512 + k) = chunk_byte m t c (off + k).
Proof using All.
  intros HLoc -> Hk Hlt. apply locate_sound in HLoc as (Hb & Hc & Hin). unfold image_byte.
  assert (Cur <= (Cur * 512 + k) / 512 < b.(BlkSectorNumber) + c.(SectorNumber) + c.(SectorCount)) as HQ.
  { unfold in_chunk in Hin. split; [apply Z.div_le_lower_bound; lia|apply Z.div_lt_upper_bound; lia]. }
  rewrite (locate_separate Context.(Blocks) b c) by (done || (unfold in_chunk in *; lia)). f_equal. lia.
Qed.

Lemma ReadStep_spec s : reading s -> exists x, ReadStep debug m Context s = Ret x
  /\ match x with inl s' => reading s' /\ (Z.to_nat s'.1.1.2 < Z.to_nat s.1.1.2)%nat | inr r => read_done r end.
Proof using All.
  destruct s as [[[Cur Rem] pos] B]. intros (R1 & R2 & R3 & R4 & R5). cbn [ReadStep fst snd]. case_decide as HR.
  2: { eexists. split; [done|]. split; [exact (filled_length _ _ R4)|]. cbn [fst snd]. split; [|done]. intros _. by replace BufferSize with pos by lia. }
  specialize (R5 HR). rewrite GetBlockChunk_spec, bind_ret. cbv beta. destruct HI as [I1 I2 I3 I4].
  destruct (locate (Blocks Context) Cur) as [[b c]|] eqn:HLoc.
  2: { eexists. split; [done|]. split; [exact (filled_length _ _ R4)|]. cbn [fst snd]. split; [done|]. intros _ Hb. destruct (Hb pos ltac:(lia)) as [x Hx].
       unfold image_byte in Hx. rewrite <- R5 in Hx. rewrite Z.div_mul in Hx by lia. by rewrite HLoc in Hx. }
  pose proof (locate_sound _ _ _ _ HLoc) as (Hb & Hc & Hin). rewrite Forall_forall in I4. destruct (I4 b Hb) as (B1 & B2 & B3 & B4 & B5 & B6).
  rewrite Forall_forall in B6. pose proof (B6 c Hc) as HTC. pose proof HTC as (C1 & C2 & C3 & C4 & [C5 C6] & C7). unfold in_chunk in Hin.
  unfold DMG_SECTOR_START_ABS. rewrite (wrap_small 64 (BlkSectorNumber b + SectorNumber c)) by lia. cbv zeta. rewrite (wrap_small 64 (Cur - _)) by lia.
  set (o := Cur - (BlkSectorNumber b + SectorNumber c)) in *. rewrite (wrap_small 64 (SectorCount c - o)) by lia. unfold overflow_mul, APPLE_DISK_IMAGE_SECTOR_SIZE.
  rewrite (bool_decide_eq_false_2 (2 ^ 64 <= o * 512)) by lia. rewrite (bool_decide_eq_false_2 (2 ^ 64 <= SectorCount c * 512)) by lia.
  rewrite (wrap_small 64 (o * 512)), (wrap_small 64 (SectorCount c * 512)) by lia. rewrite (wrap_small 64 (_ - o * 512)) by lia.
  set (n := Z.min Rem (SectorCount c * 512 - o * 512)).
  pose proof (filled_length _ _ R4) as HBl.
  destruct (CopyChunk_spec c (o * 512) n pos B (BlkSectorNumber b + BlkSectorCount b) HTC B3) as ([ok B'] & E & Hl & Hyes & Hno); [lia..|].
  cbn [fst snd] in Hl, Hyes, Hno. rewrite E, bind_ret. cbv beta iota.
  assert (forall k, 0 <= k < n -> image_byte m t (Blocks Context) (Lba * 512 + (pos + k)) = chunk_byte m t c (o * 512 + k)) as Hbytes.
  { intros k Hk. rewrite <- (chunk_at_byte Cur b c (o * 512) k) by (done || lia). f_equal. lia. }
  destruct ok; cbn [negb].
  - eexists. split; [done|]. cbn [fst snd]. rewrite (wrap_small 64 (Cur + _)), (wrap_small 64 (Rem - n)) by lia. split; [|lia].
    split; [lia|]. split; [lia|]. split; [lia|]. split; [|lia]. destruct (Hyes eq_refl) as (xs & Hx & -> & Hxs).
    apply filled_app; (done || lia || idtac). intros i Hi. rewrite Hbytes, Hxs by lia. done.
  - eexists. split; [done|]. split; [cbn [snd]; lia|]. cbn [fst snd]. split; [done|]. intros HA Hall. apply Hno; [done|]. intros k Hk. rewrite <- Hbytes by done. apply Hall. lia.
Qed.

Lemma Read_image_spec : (debug = true -> Lba < Context.(ImgSectorCount)) ->
  exists r, OcAppleDiskImageRead debug m Context Lba BufferSize Buffer0 = Ret r /\ read_done r.
Proof using All.
  intros Hd. unfold OcAppleDiskImageRead.
  assert (MemoryAttributes.ASSERT debug (bool_decide (Lba < ImgSectorCount Context)) = Ret tt) as ->.
  { destruct debug; [|done]. by rewrite bool_decide_eq_true_2 by auto. }
  rewrite bind_ret. apply (while_total _ reading (fun s => Z.to_nat s.1.1.2) read_done); [exact ReadStep_spec| |cbn; lia].
  split; [lia|]. split; [lia|]. split; [lia|]. split; [|lia]. exists []. split; [done|]. split; [done|]. intros k Hk. lia.
Qed.
End Loop.
End Reader.

(** A table in host byte order that was accepted is one the reader can use. *)
Lemma block_table_valid {Swap : SwapBytesLib} {HSwap : Rsa.SwapBytesLaws Swap} b MaxSize Sectors DataForkOffset DataForkSize :
  block_fields b -> MaxSize <= sizeof_BLOCK_DATA + Z.of_nat (length b.(Chunks)) * sizeof_CHUNK + (sizeof_CHUNK - 1) ->
  valid_block (swapped_block b) MaxSize Sectors DataForkOffset DataForkSize ->
  table_block false Sectors (DataForkOffset + DataForkSize) (swapped_block b).
Proof.
  intros (F1 & F2 & F3 & F4 & F5 & F6 & F7) HL (V1 & V2 & V3 & V4 & V5). apply swap64_range in F1, F2. apply swap32_range in F4. unfold in_width in *.
  cbn [swapped_block BlkSectorNumber BlkSectorCount ChunkCount] in *. unfold sizeof_BLOCK_DATA, sizeof_CHUNK in *.
  assert (length (Chunks (swapped_block b)) = length (Chunks b)) as HC.
  { cbn [swapped_block Chunks]. rewrite length_app, length_fmap, <- length_app. by rewrite take_drop. }
  split; [exact (proj1 F1)|]. split; [exact (proj1 F2)|]. split; [done|]. split; [rewrite HC; cbn [swapped_block ChunkCount]; lia|]. split; [cbn [swapped_block ChunkCount]; lia|].
  assert (Forall chunk_fields (used_chunks (swapped_block b))) as HF.
  { unfold used_chunks. cbn [swapped_block Chunks ChunkCount]. apply Forall_take, Forall_app. split; [|by apply Forall_drop].
    apply Forall_fmap. eapply Forall_impl; [exact (Forall_take _ _ _ F7)|]. intros c. apply SwapChunk_fields. }
  rewrite Forall_forall in HF, V5 |- *. intros c Hc. destruct (HF c Hc) as (_ & [G1 _] & [G2 _] & [G3 _] & [G4 _]).
  repeat split; [done..|exact (proj1 (V5 c Hc))|exact (proj2 (V5 c Hc))|discriminate].
Qed.

Lemma consistent_valid b MaxSize Sectors DataForkOffset DataForkSize : 0 <= b.(BlkSectorNumber) ->
  consistent_block b MaxSize Sectors DataForkOffset DataForkSize -> valid_block b MaxSize Sectors DataForkOffset DataForkSize.
Proof.
  intros H0 (C1 & C2 & C3 & C4 & C5). do 4 (split; [done|]). eapply Forall_impl; [exact C5|]. intros c [V1 V2]. split; [lia|done].
Qed.

Lemma consistent_at_start b MaxSize Sectors DataForkOffset DataForkSize : b.(BlkSectorNumber) = 0 ->
  valid_block b MaxSize Sectors DataForkOffset DataForkSize -> consistent_block b MaxSize Sectors DataForkOffset DataForkSize.
Proof.
  intros H0 (C1 & C2 & C3 & C4 & C5). do 4 (split; [done|]). eapply Forall_impl; [exact C5|]. intros c [V1 V2]. split; [lia|done].
Qed.

(** ** Sample data *)

(** An image of three sectors: zeros, a stored sector, and a compressed one. *)
Definition sample_table : RamDisk.APPLE_RAM_DISK_EXTENT_TABLE :=
  RamDisk.ExtentTable RamDisk.APPLE_RAM_DISK_EXTENT_SIGNATURE RamDisk.APPLE_RAM_DISK_EXTENT_VERSION 1
    (RamDisk.Extent 0 520 :: replicate 253 (RamDisk.Extent 0 0)) 0 RamDisk.APPLE_RAM_DISK_EXTENT_SIGNATURE.
Definition sample_image_memory : list Z := replicate 512 1 ++ replicate 8 2.
Definition sample_chunks : list APPLE_DISK_IMAGE_CHUNK :=
  [ImageChunk 0 0 0 1 0 0; ImageChunk 1 0 1 1 0 512; ImageChunk APPLE_DISK_IMAGE_CHUNK_TYPE_ZLIB 0 2 1 512 8].
Definition sample_block : APPLE_DISK_IMAGE_BLOCK_DATA := MkBlock 1 0 3 0 0 0 (ImageChecksum 2 32 (replicate 32 0)) 3 sample_chunks.
Definition sample_image : OC_APPLE_DISK_IMAGE_CONTEXT := ImageContext sample_table 3 [sample_block].

(** A decompressor that repeats the first byte of its input. *)
#[local] Instance repeat_zlib : Zlib := {| Inflate n Src := match Src with [] => [] | x :: _ => replicate (Z.to_nat n) x end |}.
#[local] Instance repeat_zlib_laws : ZlibLaws repeat_zlib.
Proof. constructor. intros n [|x Src] Hn; cbn; [lia|]. rewrite length_replicate. lia. Qed.

Lemma sample_table_ok : RamDisk.disk_ok sample_image_memory sample_table.
Proof.
  constructor; [done|done|done| |done]. change (RamDisk.used sample_table) with [RamDisk.Extent 0 520]. constructor; [done| |].
  - repeat constructor; done.
  - by repeat constructor.
Qed.

Lemma sample_image_ok debug : image_ok debug 520 sample_image.
Proof. constructor; [done..|]. repeat constructor; done. Qed.

Lemma sample_separate : separate [sample_block].
Proof.
  assert (forall b, b ∈ [sample_block] -> b = sample_block) as H1 by (intros b Hb; by apply list_elem_of_singleton in Hb).
  assert (forall c, c ∈ used_chunks sample_block -> exists i, 0 <= i < 3 /\ sample_chunks !! Z.to_nat i = Some c /\ forall L, in_chunk sample_block c L -> L = i) as H2.
  { intros c Hc. change (used_chunks sample_block) with sample_chunks in Hc.
    repeat (apply elem_of_cons in Hc as [->|Hc]); [exists 0|exists 1|exists 2|by apply elem_of_nil in Hc];
      (split; [lia|]; split; [done|]; unfold in_chunk; cbn; intros L; lia). }
  split.
  - intros b c Lba Hb%H1 Hc Hin. subst b. destruct (H2 c Hc) as (i & Hi & _ & HL). apply HL in Hin as ->. cbn. lia.
  - intros b c b' c' Lba Hb%H1 Hc Hb'%H1 Hc' Hin Hin'. subst b b'. destruct (H2 c Hc) as (i & _ & Ei & HL). destruct (H2 c' Hc') as (j & _ & Ej & HL').
    split; [done|]. rewrite (HL _ Hin) in Hin'. apply HL' in Hin' as ->. congruence.
Qed.

Example sample_read :
  OcAppleDiskImageRead true sample_image_memory sample_image 0 1536 (replicate 1536 9) (H := pool_filled 7) = Ret (true, replicate 512 0 ++ replicate 512 1 ++ replicate 512 2).
Proof. vm_compute. reflexivity. Qed.

(** ** Properties *)

(** C28: [InternalSwapBlockData] returns in bounds for any bytes, and accepts exactly the
    tables whose chunks fit into the data, whose block ends on the disk, and whose chunks
    end before the end of the data fork and, although their sectors count from the block,
    before the sector of the disk at which the block ends. Every consistent table is
    accepted; for a block at the start of the disk no other one is, but
    [chunk_beyond_block] is an inconsistent table that is. An accepted table is the given
    one in host byte order, every field and every chunk swapped once. *)
Theorem SwapBlockData_validates (Swap : SwapBytesLib) (HSwap : Rsa.SwapBytesLaws Swap) debug b MaxSize Sectors DataForkOffset DataForkSize :
  block_fields b -> sizeof_BLOCK_DATA <= MaxSize < 2 ^ 32 -> MaxSize <= sizeof_BLOCK_DATA + Z.of_nat (length b.(Chunks)) * sizeof_CHUNK + (sizeof_CHUNK - 1) ->
  0 <= Sectors < 2 ^ 64 -> 0 <= DataForkOffset -> 0 <= DataForkSize -> DataForkOffset + DataForkSize < 2 ^ 64 ->
  let valid := valid_block (swapped_block b) MaxSize Sectors DataForkOffset DataForkSize in
  let consistent := consistent_block (swapped_block b) MaxSize Sectors DataForkOffset DataForkSize in
  exists b', InternalSwapBlockData debug b MaxSize Sectors DataForkOffset DataForkSize = Ret (b', bool_decide valid)
  /\ (valid -> b' = swapped_block b /\ table_block false Sectors (DataForkOffset + DataForkSize) b')
  /\ (consistent -> valid) /\ (SwapBytes64 b.(BlkSectorNumber) = 0 -> valid -> consistent).
Proof.
  intros HF HM HL HS H0 H1 H2 valid. destruct (SwapBlockData_spec debug b MaxSize Sectors DataForkOffset DataForkSize HF HM HL HS H0 H1 H2) as (b' & E & Hv).
  exists b'. split; [exact E|]. split; [intros V; rewrite (Hv V); split; [done|by apply (block_table_valid b MaxSize)]|].
  split; [|intros H0'; apply consistent_at_start; exact H0']. apply consistent_valid. destruct HF as (F1 & _). apply swap64_range in F1 as [F1 _]. exact F1.
Qed.

Lemma SwapBlockData_validates_witness :
  let raw := @swapped_block Rsa.swap_rev sample_block in
  exists b', @InternalSwapBlockData true Rsa.swap_rev (set_Chunks (set_ChunkCount raw 0x3000000) (@SwapChunk Rsa.swap_rev <$> sample_chunks)) 324 3 0 520 = Ret (b', true)
  /\ b' = sample_block.
Proof.
  intros raw. set (b := set_Chunks (set_ChunkCount raw 0x3000000) (@SwapChunk Rsa.swap_rev <$> sample_chunks)).
  destruct (SwapBlockData_validates Rsa.swap_rev Rsa.swap_rev_laws true b 324 3 0 520) as (b' & E & H & H' & _);
    [repeat constructor; vm_compute; congruence|vm_compute; split; congruence|vm_compute; congruence|lia..|].
  assert (valid_block (@swapped_block Rsa.swap_rev b) 324 3 0 520) as V by (apply H'; repeat split; try (vm_compute; congruence); apply (bool_decide_unpack _); vm_compute; exact I).
  exists b'. rewrite E, bool_decide_eq_true_2 by exact V. split; [done|]. destruct (H V) as [-> _]. vm_compute. reflexivity.
Defined.

(** C19: the block device of a mounted image is a flat array of bytes, if the chunks lie in
    their blocks and do not overlap, the size of the image and the end of its data add up to
    less than 2^64, and in a debug build no compressed chunk is empty. (The validation of
    the tables does not ensure this: see [chunk_beyond_block], [huge_block_valid].)
    [DiskImageBlockIoReadBlocks] with any arguments returns in bounds; on success the
    buffer begins with the bytes of the decompressed image from the sector on, and
    nothing else of it changed; and a read of whole sectors on the image succeeds
    when all of its bytes can be decompressed and the pool does not fail. *)
Theorem ReadBlocks_flat (P : MemoryPool) (HP : MemoryPoolLaws P) (L : Zlib) (HL : ZlibLaws L) debug MaxOffset m Context Lba BufferSize Buffer :
  image_ok debug MaxOffset Context -> separate Context.(Blocks) -> RamDisk.disk_ok m Context.(ExtentTable) ->
  0 <= Lba -> 0 <= BufferSize < 2 ^ 64 -> BufferSize <= Z.of_nat (length Buffer) ->
  let byte k := image_byte m Context.(ExtentTable) Context.(Blocks) (Lba * 512 + k) in
  exists Status Buffer', DiskImageBlockIoReadBlocks debug m (Some (OC_APPLE_DISK_IMAGE_MOUNTED_DATA_SIGNATURE, Context)) Lba BufferSize (Some Buffer) = Ret (Status, Some Buffer')
  /\ length Buffer' = length Buffer
  /\ (Status = EFI_SUCCESS -> BufferSize mod 512 = 0 /\ Lba < Context.(ImgSectorCount)
      /\ forall i, 0 <= i -> Buffer' !! Z.to_nat i = if decide (i < BufferSize) then byte i else Buffer !! Z.to_nat i)
  /\ (BufferSize mod 512 = 0 -> Lba < Context.(ImgSectorCount) -> (forall size, AllocatePool size <> None) ->
      (forall k, 0 <= k < BufferSize -> is_Some (byte k)) -> Status = EFI_SUCCESS).
Proof.
  intros HI HS HD HLba HN HB byte. unfold DiskImageBlockIoReadBlocks. change APPLE_DISK_IMAGE_SECTOR_SIZE with 512.
  destruct (decide (BufferSize mod 512 <> 0)); [by exists EFI_BAD_BUFFER_SIZE, Buffer|]. rewrite decide_False by discriminate.
  rewrite RamDisk.assert_holds, bind_ret by done.
  destruct (decide (ImgSectorCount Context <= Lba)) as [Hl|Hl]; [exists EFI_INVALID_PARAMETER, Buffer; split_and!; [done..|discriminate|lia]|].
  destruct (Read_image_spec debug MaxOffset Context HI m HD Lba BufferSize Buffer HLba HN HB HS) as ([ok B'] & E & R1 & R2 & R3); [lia|].
  cbn [fst snd] in R1, R2, R3. rewrite E, bind_ret. cbv beta iota. eexists _, B'. split; [reflexivity|]. split; [done|]. destruct ok; split; try done.
  - intros _. split; [lia|]. split; [lia|]. destruct (R2 eq_refl) as (xs & Hx & -> & Hxs). intros i Hi. rewrite lookup_inserts by lia.
    case_decide as D1; case_decide as D2; try lia; [|done]. unfold byte. rewrite <- (Hxs i) by lia. f_equal. lia.
  - intros _ _ HA Hall. by discriminate (R3 HA Hall).
Qed.

Lemma ReadBlocks_flat_witness :
  exists Status Buffer', @DiskImageBlockIoReadBlocks true (pool_filled 7) repeat_zlib sample_image_memory
      (Some (OC_APPLE_DISK_IMAGE_MOUNTED_DATA_SIGNATURE, sample_image)) 1 1024 (Some (replicate 1500 9)) = Ret (Status, Some Buffer')
  /\ (Status = EFI_SUCCESS -> Buffer' !! Z.to_nat 600 = Some 2 /\ Buffer' !! Z.to_nat 1300 = Some 9).
Proof.
  destruct (ReadBlocks_flat (pool_filled 7) _ repeat_zlib _ true 520 sample_image_memory sample_image 1 1024 (replicate 1500 9))
    as (Status & B' & E & _ & H & _); [apply sample_image_ok|exact sample_separate|exact sample_table_ok|lia|lia|vm_compute; congruence|].
  exists Status, B'. split; [exact E|]. intros Hs. destruct (H Hs) as (_ & _ & Hi). split; rewrite Hi by lia; reflexivity.
Defined.

(** ** Edges *)

(** The size of the buffer for a compressed chunk is a sum that can overflow for a
    table that was accepted: the data are then read to an address outside of it. *)
Lemma compressed_size_overflows {P : MemoryPool} {HP : MemoryPoolLaws P} `{Zlib} debug m t c ChunkOffset n Buffer pos Data :
  c.(Type_) = APPLE_DISK_IMAGE_CHUNK_TYPE_ZLIB -> c.(SectorCount) * 512 < 2 ^ 64 -> 0 <= c.(CompressedLength) < 2 ^ 64 ->
  2 ^ 64 <= c.(SectorCount) * 512 + c.(CompressedLength) -> AllocatePool (c.(SectorCount) * 512 +[64] c.(CompressedLength)) = Some Data ->
  CopyChunk debug m t c (c.(SectorCount) * 512) ChunkOffset n Buffer pos = Fault OutOfBounds.
Proof.
  intros HT H1 H2 H3 EA. unfold CopyChunk. rewrite HT, EA. rewrite decide_False by (intros [E|E]; discriminate E). rewrite decide_False by discriminate.
  rewrite decide_True by done. apply AllocatePool_length in EA. unfold ReadTo. rewrite wrap_over in EA by lia.
  unfold rd_slice. rewrite decide_False by lia. done.
Qed.

Definition huge_block : APPLE_DISK_IMAGE_BLOCK_DATA :=
  MkBlock 1 0 (2 ^ 55 - 1) 0 0 0 (ImageChecksum 2 32 (replicate 32 0)) 1 [ImageChunk APPLE_DISK_IMAGE_CHUNK_TYPE_ZLIB 0 0 (2 ^ 55 - 1) 0 1024].
Example huge_block_valid : valid_block huge_block 244 (2 ^ 55 - 1) 0 4096.
Proof. apply (bool_decide_unpack _). vm_compute. exact I. Qed.

(** The end of a chunk, which counts from its block, is compared with the end of the
    block on the disk: a chunk that reaches over the end of its block is accepted. *)
Definition long_chunk : APPLE_DISK_IMAGE_BLOCK_DATA := MkBlock 1 100 10 0 0 0 (ImageChecksum 2 32 (replicate 32 0)) 1 [ImageChunk 0 0 0 50 0 0].
Example chunk_beyond_block : valid_block long_chunk 244 200 0 4096 /\ ~ consistent_block long_chunk 244 200 0 4096.
Proof.
  split; [apply (bool_decide_unpack _); vm_compute; exact I|]. intros (_ & _ & _ & _ & H). apply Forall_inv in H as [H _]. by vm_compute in H.
Qed.

End DiskImage.
