(* ===== verification/Xml.v ===== *)
(** * XML documents: [Library/OcXmlLib/OcXmlLib.c]

    The parser that reads property lists in place: it cuts the caller's buffer into
    strings by storing terminators, and builds nodes that point into it. Nodes,
    lists of children, reference tables and documents are blocks of the pool; the
    state is one map of blocks per type, and a block that is not live cannot be
    accessed or released. A new block gets the number of its request as address,
    so a dangling pointer never comes to life again. Whether a request is met is
    the pool's choice, request by request. The functions of BaseLib on strings are
    an interface; output of parser errors is left out. *)
From Stdlib Require Import Ascii String.
From stdpp Require Import gmap.
From S2P Require Import Prelude.

Module Xml.

(** ** Data *)

Definition XML_PARSER_NEST_LEVEL : Z := 32.
Definition XML_PARSER_NODE_COUNT : Z := 32768.
Definition XML_PARSER_MAX_REFERENCE_COUNT : Z := 32 * 1024.
Definition XML_PARSER_MAX_SIZE : Z := 32 * 1024 * 1024.
Definition XML_EXPORT_MIN_ALLOCATION_SIZE : Z := 4096.

(** The bytes of a string literal. *)
Definition str (s : string) : list Z := (fun a => Z.of_N (N_of_ascii a)) <$> list_ascii_of_string s.

Definition LT : Z := 60.
Definition GT : Z := 62.
Definition SLASH : Z := 47.
Definition BANG : Z := 33.
Definition QUERY : Z := 63.
Definition DASH : Z := 45.
Definition QUOTE : Z := 34.

(** A string: an offset in the buffer of the document, or a string of the caller. *)
Inductive chars : Set := At (Offset : Z) | Text (s : list Z).

Record XML_NODE : Set := Node {
  Name : chars; Attributes : option chars; Content : option chars; Real : option Z; Children : option Z
}.

(** [NodeCount] is the number of entries stored. *)
Record XML_NODE_LIST : Set := List_ { AllocCount : Z; NodeList : list Z }.
Definition NodeCount (l : XML_NODE_LIST) : Z := Z.of_nat (length l.(NodeList)).

Record XML_REFLIST : Set := RefList_ { RefCount : Z; RefAllocCount : Z; RefList : option Z }.

(** The buffer is the caller's. *)
Record XML_DOCUMENT : Set := Document { DocBuffer : list Z; DocLength : Z; Root : Z; References : XML_REFLIST }.

Record XML_PARSER : Set := Parser { Buffer : list Z; Position : Z; Length : Z; Level : Z }.

(** The live blocks, and the number of requests so far. *)
Record heap : Set := Heap {
  Nodes : gmap Z XML_NODE; Lists : gmap Z XML_NODE_LIST; RefLists : gmap Z (list (option Z)); Documents : gmap Z XML_DOCUMENT;
  Requests : Z
}.

Definition sizeof_XML_NODE : Z := 40.
Definition sizeof_XML_NODE_LIST : Z := 8.
Definition sizeof_XML_DOCUMENT : Z := 40.
Definition sizeof_pointer : Z := 8.

#[export] Instance chars_eq_dec : EqDecision chars.
Proof. solve_decision. Defined.
#[export] Instance node_eq_dec : EqDecision XML_NODE.
Proof. solve_decision. Defined.
#[export] Instance node_list_eq_dec : EqDecision XML_NODE_LIST.
Proof. solve_decision. Defined.

(** ** Interfaces *)

(** The pool: whether the request of the given number and size is met, and the
    bytes of the new block. *)
Class XmlPool : Type := { Allocate : Z -> Z -> option (list Z) }.
Class XmlPoolLaws (P : XmlPool) : Prop := {
  Allocate_length k n b : 0 <= n -> Allocate k n = Some b -> Z.of_nat (length b) = n
}.

(** Functions of BaseLib on terminated strings, given as their bytes. *)
Class AsciiLib : Type := {
  AsciiStrCmp : list Z -> list Z -> Z;
  AsciiStrnCmp : list Z -> list Z -> Z -> Z;
  AsciiStrStr : list Z -> list Z -> option Z;
  AsciiStrDecimalToUint64 : list Z -> Z;
  AsciiStrHexToUint64 : list Z -> Z
}.
Class AsciiLibLaws (A : AsciiLib) : Prop := {
  AsciiStrCmp_eq s t : AsciiStrCmp s t = 0 <-> s = t;
  AsciiStrnCmp_eq s t n : 0 <= n -> AsciiStrnCmp s t n = 0 <-> take (Z.to_nat n) s = take (Z.to_nat n) t;
  AsciiStrStr_inside s t o : AsciiStrStr s t = Some o -> 0 <= o /\ o + Z.of_nat (length t) <= Z.of_nat (length s)
}.

(** ** Memory *)

Definition deref {A} (m : gmap Z A) (p : Z) : outcome A :=
  match m !! p with Some x => Ret x | None => Fault OutOfBounds end.

(** [FreePool] *)
Definition release {A} (m : gmap Z A) (p : Z) : outcome (gmap Z A) :=
  match m !! p with Some _ => Ret (delete p m) | None => Fault OutOfBounds end.

Definition set_Nodes (h : heap) N : heap := Heap N h.(Lists) h.(RefLists) h.(Documents) h.(Requests).
Definition set_Lists (h : heap) L : heap := Heap h.(Nodes) L h.(RefLists) h.(Documents) h.(Requests).
Definition set_RefLists (h : heap) R : heap := Heap h.(Nodes) h.(Lists) R h.(Documents) h.(Requests).
Definition set_Documents (h : heap) D : heap := Heap h.(Nodes) h.(Lists) h.(RefLists) D h.(Requests).
Definition tick (h : heap) : heap := Heap h.(Nodes) h.(Lists) h.(RefLists) h.(Documents) (h.(Requests) + 1).

Definition set_Content (n : XML_NODE) (c : option chars) : XML_NODE := Node n.(Name) n.(Attributes) c n.(Real) n.(Children).
Definition set_Children (n : XML_NODE) (l : option Z) : XML_NODE := Node n.(Name) n.(Attributes) n.(Content) n.(Real) l.

(** The bytes before the first terminator. *)
Fixpoint until_nul (l : list Z) : option (list Z) :=
  match l with [] => None | c :: l => if decide (c = 0) then Some [] else (cons c) <$> until_nul l end.

(** The bytes of the string at [o], all of it inside the buffer. *)
Definition c_string (b : list Z) (o : Z) : outcome (list Z) :=
  if decide (0 <= o) then
    match until_nul (drop (Z.to_nat o) b) with Some s => Ret s | None => Fault OutOfBounds end
  else Fault OutOfBounds.

Definition AsciiStr (b : list Z) (c : chars) : outcome (list Z) :=
  match c with At o => c_string b o | Text s => Ret s end.

Definition IsAsciiSpace (Char : Z) : bool :=
  bool_decide (Char = 32) || bool_decide (Char = 9) || bool_decide (Char = 11) || bool_decide (Char = 12)
  || bool_decide (Char = 13) || bool_decide (Char = 10).

(** ** Reading of characters *)

Definition set_Position (P : XML_PARSER) (p : Z) : XML_PARSER := Parser P.(Buffer) p P.(Length) P.(Level).
Definition set_Buffer (P : XML_PARSER) (b : list Z) : XML_PARSER := Parser b P.(Position) P.(Length) P.(Level).
Definition set_Level (P : XML_PARSER) (l : Z) : XML_PARSER := Parser P.(Buffer) P.(Position) P.(Length) l.

Definition XmlParserPeek (P : XML_PARSER) (N : Z) : outcome Z :=
  let '(Overflow, Pos) := overflow_add 32 P.(Position) N in
  if decide (Overflow = false /\ Pos < P.(Length)) then rd P.(Buffer) Pos else Ret 0.

Definition XmlParserConsume (P : XML_PARSER) (N : Z) : XML_PARSER :=
  let '(Overflow, Pos) := overflow_add 32 P.(Position) N in
  if decide (Overflow = true \/ P.(Length) < Pos) then set_Position P P.(Length) else set_Position P Pos.

(** The fuel of the loops of the parser: a turn for every byte, and one more. *)
Definition bytes_fuel (P : XML_PARSER) : nat := S (Z.to_nat P.(Length)).

Definition SkipWhitespaceStep (P : XML_PARSER) : outcome (XML_PARSER + XML_PARSER) :=
  if decide (P.(Position) < P.(Length)) then
    c ← rd P.(Buffer) P.(Position);
    Ret (if IsAsciiSpace c then inl (set_Position P (P.(Position) +[32] 1)) else inr P)
  else Ret (inr P).

Definition XmlSkipWhitespace (P : XML_PARSER) : outcome XML_PARSER := while_ (bytes_fuel P) SkipWhitespaceStep P.

(** ** Tags *)

(** One turn of the scan of a tag: [Current], [Length] and [NameLength]; [false] for
    the return of NULL. *)
Definition TagEndStep (Start : Z) (s : XML_PARSER * Z * Z * Z)
  : outcome (XML_PARSER * Z * Z * Z + XML_PARSER * Z * Z * Z * bool) :=
  let '(P, Current, Len, NameLength) := s in
  if decide (Start +[32] Len < P.(Length)) then
    if decide (Current = SLASH \/ Current = GT) then Ret (inr (s, true)) else
    let IsEnd := bool_decide (NameLength = 0) && IsAsciiSpace Current in
    let NameLength := if IsEnd then Len else NameLength in
    if decide (IsEnd = true /\ NameLength = 0) then Ret (inr (P, Current, Len, NameLength, false)) else
    let P := XmlParserConsume P 1 in
    Current ← XmlParserPeek P 0;
    Ret (inl (P, Current, Len +[32] 1, NameLength))
  else Ret (inr (s, true)).

(** The state is [*Attributes] and [AttributeStart]. *)
Definition SkipAttributeSpace (P : XML_PARSER) (Len : Z) (s : Z * Z) : outcome (Z * Z + Z) :=
  let '(a, AttributeStart) := s in
  if decide (AttributeStart < Len) then
    c ← rd P.(Buffer) a;
    Ret (if IsAsciiSpace c then inl (a + 1, AttributeStart +[32] 1) else inr a)
  else Ret (inr a).

(** The optional results [*SelfClosing] and [*Attributes]; [None] for NULL
    arguments. *)
Definition tag_out : Type := option bool * option (option Z).

Definition XmlParseTagEnd (P : XML_PARSER) (out : tag_out) : outcome (XML_PARSER * tag_out * option Z) :=
  let '(SelfClosing, Attrs) := out in
  Current ← XmlParserPeek P 0;
  let Start := P.(Position) in
  '(P, Current, Len, NameLength, Found) ← while_ (bytes_fuel P) (TagEndStep Start) (P, Current, 0, 0);
  if negb Found then Ret (P, out, None) else
  '(P, Attrs, NameLength) ←
    (if decide (NameLength <> 0) then
       match Attrs with
       | Some _ =>
           if decide (Current = SLASH \/ Current = GT) then
             a ← while_ (bytes_fuel P) (SkipAttributeSpace P Len) (Start + NameLength, NameLength);
             b ← wr P.(Buffer) (Start +[32] Len) 0;
             Ret (set_Buffer P b, Some (Some a), NameLength)
           else Ret (P, Attrs, NameLength)
       | None => Ret (P, Attrs, NameLength)
       end
     else Ret (P, Attrs, Len));
  let tail (P : XML_PARSER) (SelfClosing : option bool) (Current : Z) : outcome (XML_PARSER * tag_out * option Z) :=
    if decide (Current <> GT) then Ret (P, (SelfClosing, Attrs), None) else
    let P := XmlParserConsume P 1 in
    b ← wr P.(Buffer) (Start +[32] NameLength) 0;
    Ret (set_Buffer P b, (SelfClosing, Attrs), Some Start) in
  if decide (Current = SLASH) then
    match SelfClosing with
    | None => Ret (P, (SelfClosing, Attrs), None)
    | Some _ =>
        let P := XmlParserConsume P 1 in
        Current ← XmlParserPeek P 0;
        tail P (Some true) Current
    end
  else tail P SelfClosing Current.

(** One byte of a control sequence. *)
Definition SkipControl (IsComment : bool) (P : XML_PARSER) : outcome (XML_PARSER + XML_PARSER) :=
  if decide (P.(Position) < P.(Length)) then
    c0 ← XmlParserPeek P 0;
    if IsComment then
      c1 ← XmlParserPeek P 1;
      c2 ← XmlParserPeek P 2;
      Ret (if decide (c0 = DASH /\ c1 = DASH /\ c2 = GT) then inr (XmlParserConsume P 3) else inl (XmlParserConsume P 1))
    else Ret (if decide (c0 = GT) then inr (XmlParserConsume P 1) else inl (XmlParserConsume P 1))
  else Ret (inr P).

(** One turn of the outer loop; [false] for the return of NULL. *)
Definition TagOpenStep (P : XML_PARSER) : outcome (XML_PARSER + XML_PARSER * bool) :=
  P ← XmlSkipWhitespace P;
  c ← XmlParserPeek P 0;
  if decide (c <> LT) then Ret (inr (P, false)) else
  let P := XmlParserConsume P 1 in
  Current ← XmlParserPeek P 0;
  if decide (Current = SLASH) then Ret (inr (P, false)) else
  if decide (Current <> QUERY /\ Current <> BANG) then Ret (inr (P, true)) else
  '(P, IsComment) ←
    (if decide (Current = BANG) then
       let P := XmlParserConsume P 1 in
       Current ← XmlParserPeek P 0;
       Next ← XmlParserPeek P 1;
       Ret (if decide (Current = DASH /\ Next = DASH) then (XmlParserConsume P 2, true) else (P, false))
     else Ret (P, false));
  P ← while_ (bytes_fuel P) (SkipControl IsComment) P;
  Ret (if decide (P.(Position) < P.(Length)) then inl P else inr (P, true)).

Definition XmlParseTagOpen (P : XML_PARSER) (out : tag_out) : outcome (XML_PARSER * tag_out * option Z) :=
  '(P, Found) ← while_ (bytes_fuel P) TagOpenStep P;
  if (Found : bool) then XmlParseTagEnd P out else Ret (P, out, None).

Definition XmlParseTagClose (P : XML_PARSER) (Unprefixed : bool) : outcome (XML_PARSER * option Z) :=
  P ← XmlSkipWhitespace P;
  c0 ← XmlParserPeek P 0;
  let name (P : XML_PARSER) : outcome (XML_PARSER * option Z) :=
    '(P, _, Tag) ← XmlParseTagEnd P (None, None); Ret (P, Tag) in
  if Unprefixed then
    if decide (c0 <> SLASH) then Ret (P, None) else name (XmlParserConsume P 1)
  else
    if decide (c0 <> LT) then Ret (P, None) else
    c1 ← XmlParserPeek P 1;
    if decide (c1 <> SLASH) then Ret (P, None) else name (XmlParserConsume P 2).

Definition ContentStep (Start : Z) (s : XML_PARSER * Z) : outcome (XML_PARSER * Z + XML_PARSER * Z) :=
  let '(P, Len) := s in
  if decide (Start +[64] Len < P.(Length)) then
    Current ← XmlParserPeek P 0;
    Ret (if decide (Current = LT) then inr s else inl (XmlParserConsume P 1, Len +[64] 1))
  else Ret (inr s).

Definition TrimStep (P : XML_PARSER) (Start : Z) (Len : Z) : outcome (Z + Z) :=
  if decide (0 < Len) then
    c ← rd P.(Buffer) (Start +[64] Len -[64] 1);
    Ret (if IsAsciiSpace c then inl (Len -[64] 1) else inr Len)
  else Ret (inr Len).

Definition XmlParseContent (P : XML_PARSER) : outcome (XML_PARSER * option Z) :=
  P ← XmlSkipWhitespace P;
  let Start := P.(Position) in
  '(P, Len) ← while_ (bytes_fuel P) (ContentStep Start) (P, 0);
  c ← XmlParserPeek P 0;
  if decide (c <> LT) then Ret (P, None) else
  Len ← while_ (bytes_fuel P) (TrimStep P Start) Len;
  b ← wr P.(Buffer) (Start +[64] Len) 0;
  Ret (XmlParserConsume (set_Buffer P b) 1, Some Start).


(** ** Nodes *)
Section Model.
Context `{XmlPool, AsciiLib}.

Definition XmlParseAttributeNumber (Attrs Argument : list Z) (ArgumentLength : Z) : outcome (option Z) :=
  match AsciiStrStr Attrs Argument with
  | None => Ret None
  | Some o =>
      ArgumentStart ← rd_slice Attrs (o + ArgumentLength) (Z.of_nat (length Attrs) - (o + ArgumentLength));
      match AsciiStrStr ArgumentStart [QUOTE] with
      | None => Ret None
      | Some Number =>
          if decide (16 - 1 < Number) then Ret None else
          NumberStr ← rd_slice ArgumentStart 0 Number;
          Ret (Some (wrap 32 (AsciiStrDecimalToUint64 NumberStr)))
      end
  end.

(** The address of the new node. *)
Definition XmlNodeCreate (h : heap) (n : XML_NODE) : heap * option Z :=
  match Allocate h.(Requests) sizeof_XML_NODE with
  | None => (tick h, None)
  | Some _ => (tick (set_Nodes h (<[h.(Requests) := n]> h.(Nodes))), Some h.(Requests))
  end.

Definition XmlNodeChildPush (h : heap) (p Child : Z) : outcome (heap * bool) :=
  n ← deref h.(Nodes) p;
  c ← (match n.(Children) with None => Ret (List_ 1 []) | Some l => deref h.(Lists) l end);
  match n.(Children) with
  | Some l =>
      if decide (NodeCount c < XML_PARSER_NODE_COUNT /\ NodeCount c < c.(AllocCount))
      then Ret (Some (set_Lists h (<[l := List_ c.(AllocCount) (c.(NodeList) ++ [Child])]> h.(Lists)))) else Ret None
  | None => Ret None
  end ≫= fun pushed =>
  match pushed with
  | Some h => Ret (h, true)
  | None =>
      if decide (XML_PARSER_NODE_COUNT - 1 <= NodeCount c) then Ret (h, false) else
      let NewCount := c.(AllocCount) *[32] 3 in
      match Allocate h.(Requests) (sizeof_XML_NODE_LIST + sizeof_pointer * NewCount) with
      | None => Ret (tick h, false)
      | Some _ =>
          let NewList := h.(Requests) in
          L ← (match n.(Children) with None => Ret h.(Lists) | Some l => release h.(Lists) l end);
          let L := <[NewList := List_ NewCount (c.(NodeList) ++ [Child])]> L in
          let N := <[p := set_Children n (Some NewList)]> h.(Nodes) in
          Ret (tick (set_Nodes (set_Lists h L) N), true)
      end
  end.

(** A larger table; [NewReferences] starts with NULL entries. *)
Definition GrowReferences (h : heap) (R : XML_REFLIST) (NewCount : Z) : outcome (gmap Z (list (option Z)) * list (option Z)) :=
  let NewReferences := replicate (Z.to_nat NewCount) None in
  match R.(RefList) with
  | None => Ret (h.(RefLists), NewReferences)
  | Some r =>
      old ← deref h.(RefLists) r;
      cells ← CopyMem NewReferences 0 old 0 R.(RefCount);
      M ← release h.(RefLists) r;
      Ret (M, cells)
  end.

(** The first part of [XmlPushReference]: room for the number. *)
Definition ReserveReference (h : heap) (R : XML_REFLIST) (ReferenceNumber : Z) : outcome (heap * XML_REFLIST * bool) :=
  if decide (R.(RefAllocCount) <= ReferenceNumber) then
    let '(o1, Sum) := overflow_add 32 ReferenceNumber 1 in
    let '(o2, NewCount) := overflow_mul 32 Sum 2 in
    if (o1 || o2 : bool) then Ret (h, R, false) else
    match Allocate h.(Requests) (NewCount *[64] sizeof_pointer) with
    | None => Ret (tick h, R, false)
    | Some _ =>
        '(M, cells) ← GrowReferences h R NewCount;
        Ret (tick (set_RefLists h (<[h.(Requests) := cells]> M)), RefList_ R.(RefCount) NewCount (Some h.(Requests)), true)
    end
  else Ret (h, R, true).

Definition XmlPushReference (h : heap) (R : XML_REFLIST) (p ReferenceNumber : Z) : outcome (heap * XML_REFLIST * bool) :=
  if decide (XML_PARSER_MAX_REFERENCE_COUNT <= ReferenceNumber) then Ret (h, R, false) else
  '(h, R, Room) ← ReserveReference h R ReferenceNumber;
  if negb Room then Ret (h, R, false) else
  match R.(RefList) with
  | None => Fault OutOfBounds
  | Some r =>
      cells ← deref h.(RefLists) r;
      cells ← wr cells ReferenceNumber (Some p);
      let Count := if decide (R.(RefCount) <= ReferenceNumber) then ReferenceNumber +[32] 1 else R.(RefCount) in
      Ret (set_RefLists h (<[r := cells]> h.(RefLists)), RefList_ Count R.(RefAllocCount) R.(RefList), true)
  end.

Definition IDREF : list Z := str "IDREF=" ++ [QUOTE].
Definition ID : list Z := str "ID=" ++ [QUOTE].

(** Strings of a node under construction are in the buffer [b]. *)
Definition XmlNodeReal (h : heap) (b : list Z) (R : option XML_REFLIST) (Attrs : option chars) : outcome (option Z) :=
  match R, Attrs with
  | Some R, Some Attrs =>
      s ← AsciiStr b Attrs;
      Number ← XmlParseAttributeNumber s IDREF (Z.of_nat (length IDREF));
      match Number with
      | None => Ret None
      | Some Number =>
          if decide (R.(RefCount) <= Number) then Ret None else
          match R.(RefList) with
          | None => Fault OutOfBounds
          | Some r => cells ← deref h.(RefLists) r; rd cells Number
          end
      end
  | _, _ => Ret None
  end.

(** The release of a node and of all below; the fuel is the depth. *)
Fixpoint NodeFree (fuel : nat) (h : heap) (p : Z) : outcome heap :=
  match fuel with
  | O => Fault OutOfFuel
  | S fuel =>
      n ← deref h.(Nodes) p;
      h ← (match n.(Children) with
           | None => Ret h
           | Some l =>
               c ← deref h.(Lists) l;
               h ← for_ (length c.(NodeList)) 0 (fun Index h =>
                 c ← deref h.(Lists) l;
                 Child ← rd c.(NodeList) Index;
                 NodeFree fuel h Child) h;
               L ← release h.(Lists) l;
               Ret (set_Lists h L)
           end);
      N ← release h.(Nodes) p;
      Ret (set_Nodes h N)
  end.

(** A tree is not deeper than there are nodes. *)
Definition XmlNodeFree (h : heap) (p : Z) : outcome heap := NodeFree (S (size h.(Nodes))) h p.

Definition XmlFreeRefs (h : heap) (R : XML_REFLIST) : outcome (heap * XML_REFLIST) :=
  match R.(RefList) with
  | None => Ret (h, R)
  | Some r => M ← release h.(RefLists) r; Ret (set_RefLists h M, RefList_ R.(RefCount) R.(RefAllocCount) None)
  end.

(** ** The parser of nodes

    The state is the parser, the references (unless they are NULL) and memory. *)
Record parse : Set := Parse { Psr : XML_PARSER; Refs : option XML_REFLIST; Mem : heap }.

Definition set_Psr (s : parse) (P : XML_PARSER) : parse := Parse P s.(Refs) s.(Mem).
Definition set_Mem (s : parse) (h : heap) : parse := Parse s.(Psr) s.(Refs) h.

(** [XmlNodeFree (Node)] and the return of NULL. *)
Definition Discard (s : parse) (p : Z) : outcome (parse * option Z) :=
  h ← XmlNodeFree s.(Mem) p; Ret (set_Mem s h, None).

(** The number of an ID attribute, where there are references and attributes. *)
Definition OwnReference (s : parse) (Attrs : option chars) : outcome (option Z) :=
  match s.(Refs), Attrs with
  | Some _, Some a => t ← AsciiStr s.(Psr).(Buffer) a; XmlParseAttributeNumber t ID (Z.of_nat (length ID))
  | _, _ => Ret None
  end.

(** One turn of the loop over the children of [p]; the state has [HasChildren],
    the result [HasChildren] and [Unprefixed], or nothing for the return of NULL. *)
Definition ChildStep (ParseNode : parse -> outcome (parse * option Z)) (p : Z) (st : parse * bool)
  : outcome (parse * bool + parse * option (bool * bool)) :=
  let '(s, HasChildren) := st in
  c ← XmlParserPeek s.(Psr) 1;
  if decide (c = SLASH) then Ret (inr (s, Some (HasChildren, false))) else
  '(s, Child) ← ParseNode s;
  match Child with
  | None =>
      c ← XmlParserPeek s.(Psr) 0;
      if decide (c = SLASH) then Ret (inr (s, Some (HasChildren, true))) else
      h ← XmlNodeFree s.(Mem) p;
      Ret (inr (set_Mem s h, None))
  | Some Child =>
      '(h, Pushed) ← XmlNodeChildPush s.(Mem) p Child;
      if (Pushed : bool) then Ret (inl (set_Mem s h, true)) else
      h ← XmlNodeFree h p;
      h ← XmlNodeFree h Child;
      Ret (inr (set_Mem s h, None))
  end.

(** What follows the open tag of [p]: content or children. The result is
    [Unprefixed] and the reference number, or nothing for the return of NULL. *)
Definition ParseBody (ParseNode : parse -> outcome (parse * option Z)) (p : Z) (Attrs : option chars) (s : parse)
  : outcome (parse * option (bool * option Z)) :=
  c ← XmlParserPeek s.(Psr) 0;
  if decide (c <> LT) then
    '(P, Start) ← XmlParseContent s.(Psr);
    n ← deref s.(Mem).(Nodes) p;
    let s := Parse P s.(Refs) (set_Nodes s.(Mem) (<[p := set_Content n (At <$> Start)]> s.(Mem).(Nodes))) in
    match Start with
    | None => h ← XmlNodeFree s.(Mem) p; Ret (set_Mem s h, None)
    | Some _ => Number ← OwnReference s Attrs; Ret (s, Some (true, Number))
    end
  else
    let P := set_Level s.(Psr) (s.(Psr).(Level) +[32] 1) in
    let s := set_Psr s P in
    if decide (XML_PARSER_NEST_LEVEL < P.(Level)) then h ← XmlNodeFree s.(Mem) p; Ret (set_Mem s h, None) else
    '(s, Done) ← while_ (bytes_fuel P) (ChildStep ParseNode p) (s, false);
    match Done with
    | None => Ret (s, None)
    | Some (HasChildren, Unprefixed) =>
        let s := set_Psr s (set_Level s.(Psr) (s.(Psr).(Level) -[32] 1)) in
        Number ← (if (HasChildren : bool) then Ret None else OwnReference s Attrs);
        Ret (s, Some (Unprefixed, Number))
    end.

(** The close tag, and the reference. *)
Definition ParseClose (p TagOpen : Z) (Unprefixed : bool) (Number : option Z) (s : parse) : outcome (parse * option Z) :=
  '(P, TagClose) ← XmlParseTagClose s.(Psr) Unprefixed;
  let s := set_Psr s P in
  match TagClose with
  | None => Discard s p
  | Some TagClose =>
      o ← c_string P.(Buffer) TagOpen;
      c ← c_string P.(Buffer) TagClose;
      if decide (AsciiStrCmp o c <> 0) then Discard s p else
      match Number, s.(Refs) with
      | Some Number, Some R =>
          '(h, R, Pushed) ← XmlPushReference s.(Mem) R p Number;
          let s := Parse P (Some R) h in
          if (Pushed : bool) then Ret (s, Some p) else Discard s p
      | _, _ => Ret (s, Some p)
      end
  end.

(** The fuel bounds the depth of the recursion. *)
Fixpoint XmlParseNode (depth : nat) (s : parse) : outcome (parse * option Z) :=
  match depth with
  | O => Fault OutOfFuel
  | S depth =>
      '(P, out, TagOpen) ← XmlParseTagOpen s.(Psr) (Some false, Some None);
      let s := set_Psr s P in
      match TagOpen with
      | None => Ret (s, None)
      | Some TagOpen =>
          let Attrs := At <$> (default None out.2) in
          P ← XmlSkipWhitespace P;
          let s := set_Psr s P in
          Target ← XmlNodeReal s.(Mem) P.(Buffer) s.(Refs) Attrs;
          let '(h, Created) := XmlNodeCreate s.(Mem) (Node (At TagOpen) Attrs None Target None) in
          let s := set_Mem s h in
          match Created with
          | None => Ret (s, None)
          | Some p =>
              if default false out.1 then Ret (s, Some p) else
              '(s, Body) ← ParseBody (XmlParseNode depth) p Attrs s;
              match Body with
              | None => Ret (s, None)
              | Some (Unprefixed, Number) => ParseClose p TagOpen Unprefixed Number s
              end
          end
      end
  end.

(** Levels 0 to [XML_PARSER_NEST_LEVEL]. *)
Definition nest_fuel : nat := S (Z.to_nat XML_PARSER_NEST_LEVEL).

(** Memory, the buffer and the document. *)
Definition XmlDocumentParse (h : heap) (Buffer : list Z) (Length : Z) (WithRefs : bool) : outcome (heap * list Z * option Z) :=
  let P := Parser Buffer 0 Length 0 in
  let R := RefList_ 0 0 None in
  if decide (Length = 0 \/ XML_PARSER_MAX_SIZE < Length) then Ret (h, Buffer, None) else
  '(s, Root) ← XmlParseNode nest_fuel (Parse P (if WithRefs then Some R else None) h);
  let R := default R s.(Refs) in
  let b := s.(Psr).(Xml.Buffer) in
  match Root with
  | None => Ret (s.(Mem), b, None)
  | Some Root =>
      match Allocate s.(Mem).(Requests) sizeof_XML_DOCUMENT with
      | None =>
          h ← XmlNodeFree (tick s.(Mem)) Root;
          '(h, _) ← XmlFreeRefs h R;
          Ret (h, b, None)
      | Some _ =>
          let p := s.(Mem).(Requests) in
          Ret (tick (set_Documents s.(Mem) (<[p := Document b Length Root R]> s.(Mem).(Documents))), b, Some p)
      end
  end.

Definition XmlDocumentFree (h : heap) (Document : Z) : outcome heap :=
  d ← deref h.(Documents) Document;
  h ← XmlNodeFree h d.(Root);
  '(h, R) ← XmlFreeRefs h d.(References);
  D ← release h.(Documents) Document;
  Ret (set_Documents h D).

(** ** Export

    The state is [*Buffer], [*AllocSize] and [*CurrentSize]; the number of requests
    is passed along. *)
Record export : Set := Export { Out : list Z; AllocSize : Z; CurrentSize : Z; Asked : Z }.

Definition XmlBufferAppend (e : export) (Data : list Z) (DataLength : Z) : outcome export :=
  r ← (if decide (e.(AllocSize) -[32] e.(CurrentSize) <= DataLength) then
         let NewSize := if decide (DataLength +[32] 1 <= XML_EXPORT_MIN_ALLOCATION_SIZE)
                        then e.(AllocSize) +[32] XML_EXPORT_MIN_ALLOCATION_SIZE
                        else e.(AllocSize) +[32] (DataLength +[32] 1) in
         match Allocate e.(Asked) NewSize with
         | None => Ret (inl (Export e.(Out) e.(AllocSize) e.(CurrentSize) (e.(Asked) + 1)))
         | Some NewBuffer =>
             NewBuffer ← CopyMem NewBuffer 0 e.(Out) 0 e.(CurrentSize);
             Ret (inr (Export NewBuffer NewSize e.(CurrentSize) (e.(Asked) + 1)))
         end
       else Ret (inr e));
  match r with
  | inl e => Ret e
  | inr e =>
      b ← CopyMem e.(Out) e.(CurrentSize) Data 0 DataLength;
      Ret (Export b e.(AllocSize) (e.(CurrentSize) +[32] DataLength) e.(Asked))
  end.

(** Appending a whole string. *)
Definition AppendAll (e : export) (s : list Z) : outcome export := XmlBufferAppend e s (wrap 32 (Z.of_nat (length s))).

(** The strings of the nodes are in the buffer [b]; the fuel is the depth. *)
Fixpoint NodeExport (fuel : nat) (h : heap) (b : list Z) (p : Z) (e : export) (Skip : Z) : outcome export :=
  match fuel with
  | O => Fault OutOfFuel
  | S fuel =>
      n ← deref h.(Nodes) p;
      let children (Skip : Z) (e : export) : outcome export :=
        match n.(Children) with
        | None => Ret e
        | Some l =>
            c ← deref h.(Lists) l;
            for_ (length c.(NodeList)) 0 (fun Index e => Child ← rd c.(NodeList) Index; NodeExport fuel h b Child e Skip) e
        end in
      if decide (Skip <> 0) then children (Skip - 1) e else
      name ← AsciiStr b n.(Name);
      e ← AppendAll e (str "<");
      e ← AppendAll e name;
      e ← (match n.(Attributes) with
           | None => Ret e
           | Some a => e ← AppendAll e (str " "); s ← AsciiStr b a; AppendAll e s
           end);
      match n.(Children), n.(Content) with
      | None, None => AppendAll e (str "/>")
      | l, t =>
          e ← AppendAll e (str ">");
          e ← (match l, t with
               | None, Some t => s ← AsciiStr b t; AppendAll e s
               | _, _ => children 0 e
               end);
          e ← AppendAll e (str "</");
          e ← AppendAll e name;
          AppendAll e (str ">")
      end
  end.

Definition XmlNodeExportRecursive (h : heap) (b : list Z) (p : Z) (e : export) (Skip : Z) : outcome export :=
  NodeExport (S (size h.(Nodes))) h b p e Skip.

Definition XML_PLIST_HEADER : list Z :=
  let q := [QUOTE] in
  str "<?xml version=" ++ q ++ str "1.0" ++ q ++ str " encoding=" ++ q ++ str "UTF-8" ++ q ++ str "?><!DOCTYPE plist PUBLIC " ++ q
  ++ str "-//Apple//DTD PLIST 1.0//EN" ++ q ++ str " " ++ q ++ str "http://www.apple.com/DTDs/PropertyList-1.0.dtd" ++ q ++ str ">".

(** The requests afterwards, and the new buffer with [*Length]. *)
Definition XmlDocumentExport (h : heap) (Document Skip : Z) (PrependPlistInfo : bool) : outcome (Z * option (list Z * Z)) :=
  d ← deref h.(Documents) Document;
  let Size := d.(DocLength) +[32] 1 in
  match Allocate h.(Requests) Size with
  | None => Ret (h.(Requests) + 1, None)
  | Some Buffer =>
      e ← XmlNodeExportRecursive h d.(DocBuffer) d.(Root) (Export Buffer Size 0 (h.(Requests) + 1)) Skip;
      r ← (if PrependPlistInfo then
             let '(Overflow, NewSize) := overflow_add 32 e.(CurrentSize) (Z.of_nat (length XML_PLIST_HEADER) + 1) in
             if (Overflow : bool) then Ret (e.(Asked), None) else
             match Allocate e.(Asked) NewSize with
             | None => Ret (e.(Asked) + 1, None)
             | Some NewBuffer =>
                 NewBuffer ← wr_slice NewBuffer 0 XML_PLIST_HEADER;
                 NewBuffer ← CopyMem NewBuffer (Z.of_nat (length XML_PLIST_HEADER)) e.(Out) 0 e.(CurrentSize);
                 Ret (e.(Asked) + 1, Some (NewBuffer, NewSize -[32] 1))
             end
           else Ret (e.(Asked), Some (e.(Out), e.(CurrentSize))));
      match r with
      | (k, None) => Ret (k, None)
      | (k, Some (b, Size)) => b ← wr b Size 0; Ret (k, Some (b, Size))
      end
  end.

(** ** Access and changes *)

Definition XmlDocumentRoot (h : heap) (Document : Z) : outcome Z := Root <$> deref h.(Documents) Document.

Definition XmlNodeName (h : heap) (p : Z) : outcome chars := Name <$> deref h.(Nodes) p.

Definition XmlNodeContent (h : heap) (p : Z) : outcome (option chars) :=
  n ← deref h.(Nodes) p;
  match n.(Real) with Some r => Content <$> deref h.(Nodes) r | None => Ret n.(Content) end.

(** The pointer [Node->Real] may be [p] itself, so the node is read again. *)
Definition XmlNodeChangeContent (h : heap) (p : Z) (Text : chars) : outcome heap :=
  n ← deref h.(Nodes) p;
  h ← (match n.(Real) with
       | Some r => m ← deref h.(Nodes) r; Ret (set_Nodes h (<[r := set_Content m (Some Text)]> h.(Nodes)))
       | None => Ret h
       end);
  n ← deref h.(Nodes) p;
  Ret (set_Nodes h (<[p := set_Content n (Some Text)]> h.(Nodes))).

Definition XmlNodeChildren (h : heap) (p : Z) : outcome Z :=
  n ← deref h.(Nodes) p;
  match n.(Children) with Some l => NodeCount <$> deref h.(Lists) l | None => Ret 0 end.

(** Without children the list is a NULL pointer. *)
Definition XmlNodeChild (h : heap) (p Child : Z) : outcome Z :=
  n ← deref h.(Nodes) p;
  match n.(Children) with Some l => c ← deref h.(Lists) l; rd c.(NodeList) Child | None => Fault OutOfBounds end.

(** One child in the search for [ChildName]; [None] for two matches. *)
Definition EasyChildStep (h : heap) (b : list Z) (p : Z) (ChildName : list Z) (Index : Z) (Next : option (option Z)) : outcome (option (option Z)) :=
  match Next with
  | None => Ret None
  | Some Next =>
      Child ← XmlNodeChild h p Index;
      c ← XmlNodeName h Child;
      s ← AsciiStr b c;
      Ret (if decide (AsciiStrCmp s ChildName <> 0) then match Next with None => Some (Some Child) | Some _ => None end else Some Next)
  end.

(** The variable arguments are a list of names. *)
Fixpoint XmlEasyChild (h : heap) (b : list Z) (p : Z) (ChildNames : list (list Z)) : outcome (option Z) :=
  match ChildNames with
  | [] => Ret (Some p)
  | ChildName :: ChildNames =>
      n ← XmlNodeChildren h p;
      Next ← for_ (Z.to_nat n) 0 (EasyChildStep h b p ChildName) (Some None);
      match Next with
      | Some (Some Next) => XmlEasyChild h b Next ChildNames
      | _ => Ret None
      end
  end.

Definition XmlNodeAppend (h : heap) (p : Z) (Name : chars) (Attrs Text : option chars) : outcome (heap * option Z) :=
  let '(h, Created) := XmlNodeCreate h (Node Name Attrs Text None None) in
  match Created with
  | None => Ret (h, None)
  | Some NewNode =>
      '(h, Pushed) ← XmlNodeChildPush h p NewNode;
      if (Pushed : bool) then Ret (h, Some NewNode) else
      h ← XmlNodeFree h NewNode;
      Ret (h, None)
  end.

Definition XmlNodePrepend (h : heap) (p : Z) (Name Attrs Text : chars) : outcome (heap * option Z) :=
  '(h, NewNode) ← XmlNodeAppend h p Name (Some Attrs) (Some Text);
  match NewNode with
  | None => Ret (h, None)
  | Some NewNode =>
      n ← deref h.(Nodes) p;
      match n.(Children) with
      | None => Fault OutOfBounds
      | Some l =>
          c ← deref h.(Lists) l;
          L ← CopyMem c.(NodeList) 1 c.(NodeList) 0 (NodeCount c -[32] 1);
          L ← wr L 0 NewNode;
          Ret (set_Lists h (<[l := List_ c.(AllocCount) L]> h.(Lists)), Some NewNode)
      end
  end.

Definition XmlNodeRemoveByIndex (h : heap) (p Index : Z) : outcome heap :=
  n ← deref h.(Nodes) p;
  match n.(Children) with
  | None => Fault AssertFailed
  | Some l =>
      c ← deref h.(Lists) l;
      assert (bool_decide (Index < NodeCount c));;
      Child ← rd c.(NodeList) Index;
      h ← XmlNodeFree h Child;
      c ← deref h.(Lists) l;
      L ← CopyMem c.(NodeList) Index c.(NodeList) (Index + 1) (NodeCount c -[32] 1 -[32] Index);
      Ret (set_Lists h (<[l := List_ c.(AllocCount) (take (length L - 1) L)]> h.(Lists)))
  end.

(** One turn of the search, which compares whole nodes. *)
Definition RemoveStep (h : heap) (c : XML_NODE_LIST) (ChildNode : XML_NODE) (Index : Z) : outcome (Z + Z) :=
  Child ← rd c.(NodeList) Index;
  n ← deref h.(Nodes) Child;
  Ret (if decide (n <> ChildNode) then inl (Index +[32] 1) else inr Index).

Definition XmlNodeRemove (h : heap) (p ChildNode : Z) : outcome heap :=
  n ← deref h.(Nodes) p;
  match n.(Children) with
  | None => Fault AssertFailed
  | Some l =>
      c ← deref h.(Lists) l;
      m ← deref h.(Nodes) ChildNode;
      Index ← while_ (S (length c.(NodeList))) (RemoveStep h c m) 0;
      assert (bool_decide (Index < NodeCount c));;
      XmlNodeRemoveByIndex h p Index
  end.

End Model.


(** ** The parser stays in its buffer

    [psr_ok]: a parser inside of its buffer. [calm]: what every reading of characters
    keeps: the position does not go back, the level stays, and bytes are only ever
    changed to terminators. *)
Record psr_ok (P : XML_PARSER) : Prop := PsrOk {
  ok_position : 0 <= P.(Position) <= P.(Length);
  ok_buffer : P.(Length) <= Z.of_nat (length P.(Buffer));
  ok_size : P.(Length) <= XML_PARSER_MAX_SIZE
}.

(** Later buffers: the size and the terminators stay. *)
Definition cut (b b' : list Z) : Prop := length b' = length b /\ forall i, b !! i = Some 0 -> b' !! i = Some 0.

Record forward (P P' : XML_PARSER) : Prop := Forward {
  fw_ok : psr_ok P'; fw_length : P'.(Length) = P.(Length); fw_position : P.(Position) <= P'.(Position); fw_cut : cut P.(Buffer) P'.(Buffer)
}.

Definition calm (P P' : XML_PARSER) : Prop := forward P P' /\ P'.(Level) = P.(Level).

(** The byte at an index, 0 at the end. *)
Definition look (P : XML_PARSER) (i : Z) : Z := if decide (i < P.(Length)) then default 0 (P.(Buffer) !! Z.to_nat i) else 0.

(** There is a terminator at or after [o]. *)
Definition terminated (b : list Z) (o : Z) : Prop := 0 <= o /\ exists z, o <= z /\ b !! Z.to_nat z = Some 0.

#[export] Instance cut_preorder : PreOrder cut.
Proof. split; [by split|]. intros a b c [A1 A2] [B1 B2]. split; [by rewrite B1|]. auto. Qed.

Lemma forward_refl P : psr_ok P -> forward P P.
Proof. intros H. split; [done..|lia|done]. Qed.
Lemma forward_trans P Q R : forward P Q -> forward Q R -> forward P R.
Proof. intros [A1 A2 A3 A4] [B1 B2 B3 B4]. split; [done|by rewrite B2|lia|by etrans]. Qed.
Lemma calm_refl P : psr_ok P -> calm P P.
Proof. split; [by apply forward_refl|done]. Qed.
Lemma calm_trans P Q R : calm P Q -> calm Q R -> calm P R.
Proof. intros [A1 A2] [B1 B2]. split; [by eapply forward_trans|by rewrite B2]. Qed.
Lemma calm_ok P Q : calm P Q -> psr_ok Q.
Proof. by intros [[]]. Qed.

Lemma terminated_cut b b' o : cut b b' -> terminated b o -> terminated b' o.
Proof. intros [_ H] (H0 & z & Hz & Hb). split; [done|]. exists z. auto. Qed.

Lemma terminated_string b o : terminated b o -> exists s, c_string b o = Ret s.
Proof.
  intros (H0 & z & Hz & Hb). unfold c_string. rewrite decide_True by done.
  assert (forall l, l !! (Z.to_nat (z - o)) = Some 0 -> exists s, until_nul l = Some s) as H.
  { generalize (Z.to_nat (z - o)). intros k. induction k as [|k IH]; intros [|c l]; try done; simpl.
    - intros [= ->]. eauto.
    - intros Hl. case_decide; [eauto|]. destruct (IH l Hl) as [s ->]. simpl. eauto. }
  destruct (H (drop (Z.to_nat o) b)) as [s ->]; [|eauto]. rewrite lookup_drop. rewrite <- Hb. f_equal. lia.
Qed.

(** *** The primitives, as equations *)
Lemma overflow_add_small a b : 0 <= a -> 0 <= b -> a + b < 2 ^ 32 -> overflow_add 32 a b = (false, a + b).
Proof. intros. unfold overflow_add. rewrite bool_decide_eq_false_2 by lia. by rewrite wrap_small by lia. Qed.

Lemma Peek_spec P N : psr_ok P -> 0 <= N <= 2 -> XmlParserPeek P N = Ret (look P (P.(Position) + N)).
Proof.
  intros [H1 H2 H3] HN. unfold XML_PARSER_MAX_SIZE in H3. unfold XmlParserPeek, look. rewrite overflow_add_small by lia.
  destruct (decide (P.(Position) + N < P.(Length))) as [Hd|Hd].
  - rewrite decide_True by done. destruct (lookup_lt_is_Some_2 P.(Buffer) (Z.to_nat (P.(Position) + N))) as [c Hc]; [lia|].
    rewrite Hc. simpl. apply rd_lookup; [lia|done].
  - by rewrite decide_False by tauto.
Qed.

Lemma Consume_spec P N : psr_ok P -> 0 <= N <= 3 -> XmlParserConsume P N = set_Position P (Z.min (P.(Position) + N) P.(Length)).
Proof.
  intros [H1 H2 H3] HN. unfold XML_PARSER_MAX_SIZE in H3. unfold XmlParserConsume. rewrite overflow_add_small by lia.
  case_decide as Hd; f_equal; lia.
Qed.

Lemma look_in P i : psr_ok P -> 0 <= i -> look P i <> 0 -> i < P.(Length).
Proof. unfold look. case_decide; done. Qed.

Lemma move_calm P p : psr_ok P -> P.(Position) <= p <= P.(Length) -> calm P (set_Position P p).
Proof. intros [H1 H2 H3] Hp. split; [|done]. split; [|done|simpl; lia|done]. split; simpl; lia. Qed.

(** Storing a terminator. *)
Lemma wr_nul_calm P i : psr_ok P -> 0 <= i < P.(Length) ->
  exists b, wr P.(Buffer) i 0 = Ret b /\ calm P (set_Buffer P b) /\ (forall o, 0 <= o <= i -> terminated b o).
Proof.
  intros HP Hi. pose proof HP as [H1 H2 H3]. rewrite wr_in by lia. eexists. split; [done|].
  assert (forall j, P.(Buffer) !! j = Some 0 -> <[Z.to_nat i := 0]> P.(Buffer) !! j = Some 0) as K.
  { intros j Hj. destruct (decide (j = Z.to_nat i)) as [->|]; [|by rewrite list_lookup_insert_ne].
    apply list_lookup_insert_eq. by eapply lookup_lt_Some. }
  split.
  - split; [|done]. split; [split; simpl; rewrite ?length_insert; lia|done|simpl; lia|]. split; [by cbn; rewrite length_insert|]. exact K.
  - intros o Ho. split; [lia|]. exists i. split; [lia|]. apply list_lookup_insert_eq. lia.
Qed.

Ltac psr := match goal with H : psr_ok _ |- _ => let A := fresh in let B := fresh in let C := fresh in
  pose proof H as [A B C]; unfold XML_PARSER_MAX_SIZE in C end.

Lemma SkipWhitespace_spec P : psr_ok P ->
  exists p, XmlSkipWhitespace P = Ret (set_Position P p) /\ P.(Position) <= p <= P.(Length) /\ IsAsciiSpace (look P p) = false.
Proof.
  intros HP. unfold XmlSkipWhitespace.
  oc_while (fun Q => exists p, Q = set_Position P p /\ P.(Position) <= p <= P.(Length)) (fun Q => Z.to_nat (P.(Length) - Q.(Position)))
    (fun Q => exists p, Q = set_Position P p /\ P.(Position) <= p <= P.(Length) /\ IsAsciiSpace (look P p) = false) as r Hr.
  - intros Q (p & -> & Hp). unfold SkipWhitespaceStep. cbn [Position Length Buffer set_Position]. psr.
    destruct (decide (p < P.(Length))).
    + destruct (lookup_lt_is_Some_2 P.(Buffer) (Z.to_nat p)) as [c Hc]; [lia|]. rewrite (rd_lookup _ _ c) by (done || lia). rewrite bind_ret. cbv beta.
      destruct (IsAsciiSpace c) eqn:Ec; eexists; (split; [done|]).
      * split; [|simpl; rewrite wrap_small; lia]. exists (p + 1). rewrite wrap_small by lia. split; [done|lia].
      * exists p. split; [done|]. split; [done|]. unfold look. rewrite decide_True by done. by rewrite Hc.
    + eexists. split; [done|]. exists p. split; [done|]. split; [done|]. unfold look. by rewrite decide_False.
  - exists P.(Position). psr. split; [by destruct P|lia].
  - unfold bytes_fuel. psr. lia.
  - destruct Hr as (p & -> & Hp). eauto.
Qed.

(** *** Tags *)

(** The scan stops at [Start + Len], with [Current] there. *)
Lemma TagEndLoop_spec P : psr_ok P ->
  exists Len NameLength Found,
    while_ (bytes_fuel P) (TagEndStep P.(Position)) (P, look P P.(Position), 0, 0)
      = Ret (set_Position P (P.(Position) + Len), look P (P.(Position) + Len), Len, NameLength, Found)
    /\ 0 <= NameLength <= Len /\ P.(Position) + Len <= P.(Length).
Proof.
  intros HP. pose proof HP as [H1 H2 H3]. unfold XML_PARSER_MAX_SIZE in H3. set (Start := P.(Position)) in *.
  oc_while (fun s => exists Len NameLength, s = (set_Position P (Start + Len), look P (Start + Len), Len, NameLength)
                     /\ 0 <= NameLength <= Len /\ Start + Len <= P.(Length))
    (fun s : XML_PARSER * Z * Z * Z => Z.to_nat (P.(Length) - s.1.1.1.(Position)))
    (fun r : XML_PARSER * Z * Z * Z * bool => exists Len NameLength Found, r = (set_Position P (Start + Len), look P (Start + Len), Len, NameLength, Found)
                     /\ 0 <= NameLength <= Len /\ Start + Len <= P.(Length)) as r Hr.
  - intros s (Len & NameLength & -> & Hn & Hl). unfold TagEndStep. cbn [Length set_Position fst].
    rewrite wrap_small by lia. destruct (decide (Start + Len < P.(Length))) as [Hd|Hd]; [|eexists; split; [done|]; by exists Len, NameLength, true].
    destruct (decide (look P (Start + Len) = SLASH \/ look P (Start + Len) = GT)); [eexists; split; [done|]; by exists Len, NameLength, true|].
    set (E := bool_decide (NameLength = 0) && IsAsciiSpace (look P (Start + Len))).
    set (NL := if E then Len else NameLength).
    assert (0 <= NL <= Len) as HNL by (unfold NL; destruct E; lia).
    destruct (decide (E = true /\ NL = 0)); [eexists; split; [done|]; by exists Len, NL, false|].
    assert (psr_ok (set_Position P (Start + Len))) as HQ by (split; cbn; unfold XML_PARSER_MAX_SIZE; lia).
    rewrite Consume_spec by (done || lia). cbn [Position Length set_Position Buffer Level].
    assert (psr_ok (set_Position P (Start + Len + 1))) as HQ' by (split; cbn; unfold XML_PARSER_MAX_SIZE; lia).
    replace (Z.min (Start + Len + 1) (Length P)) with (Start + Len + 1) by lia.
    change (set_Position (set_Position P (Start + Len)) (Start + Len + 1)) with (set_Position P (Start + Len + 1)).
    rewrite Peek_spec by (done || lia). cbn [Position set_Position]. rewrite bind_ret. cbv beta.
    eexists. split; [done|]. split; [|cbn; lia]. exists (Len + 1), NL. rewrite wrap_small by lia.
    change (look (set_Position P (Start + Len + 1))) with (look P). rewrite Z.add_0_r, <- Z.add_assoc. split; [done|lia].
  - exists 0, 0. rewrite Z.add_0_r. subst Start. split; [by destruct P|lia].
  - unfold bytes_fuel. cbn. lia.
  - destruct Hr as (Len & NL & F & -> & Hr). by exists Len, NL, F.
Qed.

Lemma SkipAttributeSpace_spec P Start Len NameLength : psr_ok P -> 0 <= Start -> 0 <= NameLength <= Len -> Start + Len <= P.(Length) ->
  exists a, while_ (bytes_fuel P) (SkipAttributeSpace P Len) (Start + NameLength, NameLength) = Ret a /\ Start + NameLength <= a <= Start + Len.
Proof.
  intros HP HS HN HL. pose proof HP as [H1 H2 H3]. unfold XML_PARSER_MAX_SIZE in H3.
  oc_while (fun s => exists k, s = (Start + k, k) /\ NameLength <= k <= Len) (fun s : Z * Z => Z.to_nat (Len - s.2))
    (fun a => Start + NameLength <= a <= Start + Len) as r Hr.
  - intros s (k & -> & Hk). unfold SkipAttributeSpace. cbn [snd].
    destruct (decide (k < Len)); [|eexists; split; [done|]; cbn; lia].
    destruct (lookup_lt_is_Some_2 P.(Buffer) (Z.to_nat (Start + k))) as [c Hc]; [lia|].
    rewrite (rd_lookup _ _ c) by (done || lia). rewrite bind_ret. cbv beta.
    destruct (IsAsciiSpace c); eexists; (split; [done|]); [|cbn; lia].
    rewrite wrap_small by lia. split; [|cbn; lia]. exists (k + 1). split; [by rewrite Z.add_assoc|lia].
  - exists NameLength. split; [done|lia].
  - unfold bytes_fuel. cbn. lia.
  - eauto.
Qed.

(** What a tag parser promises: the name and the attributes are terminated. *)
Definition tag_post (P : XML_PARSER) (Attrs0 : option (option Z)) (r : XML_PARSER * tag_out * option Z) : Prop :=
  let '(P', out, Tag) := r in
  calm P P' /\
  match Tag with
  | None => True
  | Some o => P.(Position) < P'.(Position) /\ terminated P'.(Buffer) o
              /\ (out.2 = Attrs0 \/ exists a, out.2 = Some (Some a) /\ terminated P'.(Buffer) a)
  end.

(** The end of a tag, from [Start + Len] on: [P'] is a parser there. *)
Lemma TagTail_spec P P' Start NameLength Current SelfClosing Attrs Attrs0 :
  psr_ok P -> calm P P' -> 0 <= Start -> 0 <= NameLength -> P.(Position) <= Start -> Start + NameLength <= P'.(Position) ->
  (Current = GT -> P'.(Position) < P'.(Length)) ->
  (Attrs = Attrs0 \/ exists a, Attrs = Some (Some a) /\ terminated P'.(Buffer) a) ->
  exists r, (if decide (Current <> GT) then Ret (P', (SelfClosing, Attrs), None) else
     b ← wr (XmlParserConsume P' 1).(Buffer) (Start +[32] NameLength) 0;
     Ret (set_Buffer (XmlParserConsume P' 1) b, (SelfClosing, Attrs), Some Start)) = Ret r /\ tag_post P Attrs0 r.
Proof.
  intros HP HC H1 H2 H3 H4 Hin HA. pose proof (calm_ok _ _ HC) as HP'. pose proof HP' as [K1 K2 K3]. unfold XML_PARSER_MAX_SIZE in K3.
  destruct (decide (Current <> GT)) as [Hd|Hd]; [by eexists; split|]. apply dec_stable in Hd.
  specialize (Hin Hd).
  rewrite Consume_spec by (done || lia). replace (Z.min (Position P' + 1) (Length P')) with (P'.(Position) + 1) by lia.
  cbn [Buffer set_Position]. rewrite wrap_small by lia.
  destruct (wr_nul_calm (set_Position P' (P'.(Position) + 1)) (Start + NameLength)) as (b & E & Hb & Ht); [split; cbn; unfold XML_PARSER_MAX_SIZE; lia|cbn; lia|].
  cbn [Buffer set_Position] in E. rewrite E. eexists. split; [done|]. cbn [tag_post].
  assert (calm P' (set_Buffer (set_Position P' (Position P' + 1)) b)) as HC'.
  { eapply calm_trans; [|exact Hb]. apply move_calm; [done|lia]. }
  split; [by eapply calm_trans|]. split; [|split].
  - cbn. destruct HC as [[_ _ ? _] _]. lia.
  - apply Ht. lia.
  - destruct HA as [->|(a & -> & Ha)]; [by left|right]. exists a. split; [done|]. eapply terminated_cut; [|exact Ha]. apply Hb.
Qed.

Lemma TagEnd_spec P SelfClosing Attrs : psr_ok P ->
  exists r, XmlParseTagEnd P (SelfClosing, Attrs) = Ret r /\ tag_post P Attrs r.
Proof.
  intros HP. unfold XmlParseTagEnd. rewrite Peek_spec by (done || lia). rewrite bind_ret. cbv beta. rewrite Z.add_0_r.
  destruct (TagEndLoop_spec P HP) as (Len & NameLength & Found & -> & Hn & Hl). rewrite bind_ret. cbv beta iota.
  pose proof HP as [H1 H2 H3]. unfold XML_PARSER_MAX_SIZE in H3. set (Start := P.(Position)) in *.
  set (Q := set_Position P (Start + Len)). assert (calm P Q) as HQ by (apply move_calm; [done|lia]). pose proof (calm_ok _ _ HQ) as HQ'.
  destruct Found; cbn [negb]; [|by eexists; split].
  change (look P) with (look Q). set (Cur := look Q (Start + Len)).
  assert (exists Q' A NL,
    (if decide (NameLength <> 0)
     then match Attrs with
          | Some _ =>
              if decide (Cur = SLASH \/ Cur = GT)
              then a ← while_ (bytes_fuel Q) (SkipAttributeSpace Q Len) (Start + NameLength, NameLength);
                   b ← wr (Buffer Q) (Start +[32] Len) 0; Ret (set_Buffer Q b, Some (Some a), NameLength)
              else Ret (Q, Attrs, NameLength)
          | None => Ret (Q, Attrs, NameLength)
          end
     else Ret (Q, Attrs, Len)) = Ret (Q', A, NL)
    /\ calm Q Q' /\ Position Q' = Start + Len /\ 0 <= NL <= Len /\ (Q' = Q \/ Cur = SLASH \/ Cur = GT)
    /\ (A = Attrs \/ exists a, A = Some (Some a) /\ terminated Q'.(Buffer) a)) as (Q' & A & NL & -> & C1 & C2 & C3 & C4 & C5).
  { destruct (decide (NameLength <> 0)) as [Hd|Hd].
    2: { exists Q, Attrs, Len. split; [done|]. split; [by apply calm_refl|]. split; [done|]. split; [lia|]. by split; left. }
    assert (exists Q' A NL, Ret (Q, Attrs, NameLength) = Ret (Q', A, NL) /\ calm Q Q' /\ Position Q' = Start + Len
      /\ 0 <= NL <= Len /\ (Q' = Q \/ Cur = SLASH \/ Cur = GT) /\ (A = Attrs \/ exists a, A = Some (Some a) /\ terminated Q'.(Buffer) a)) as Same.
    { exists Q, Attrs, NameLength. split; [done|]. split; [by apply calm_refl|]. split; [done|]. split; [done|]. by split; left. }
    destruct Attrs as [At0|] eqn:EA; [|exact Same]. destruct (decide (Cur = SLASH \/ Cur = GT)) as [HC|HC]; [|exact Same]. clear Same.
    assert (Start + Len < P.(Length)) as Hlt by (apply (look_in Q); [done|lia|unfold SLASH, GT in HC; fold Cur; lia]).
    destruct (SkipAttributeSpace_spec Q Start Len NameLength HQ') as (a & -> & Ha); [lia|lia|done|]. rewrite bind_ret. cbv beta.
    rewrite wrap_small by lia. destruct (wr_nul_calm Q (Start + Len) HQ') as (b & -> & Hb & Ht); [cbn; lia|].
    eexists _, _, _. split; [done|]. split; [exact Hb|]. split; [done|]. split; [lia|]. split; [by right|]. right. exists a. split; [done|]. apply Ht. lia. }
  rewrite bind_ret. cbv beta iota zeta. pose proof (calm_ok _ _ C1) as HQ2. pose proof (calm_trans _ _ _ HQ C1) as HPQ.
  pose proof HQ2 as [G1 G2 G3]. unfold XML_PARSER_MAX_SIZE in G3.
  destruct (decide (Cur = SLASH)) as [HS|HS].
  - destruct SelfClosing as [sc|]; [|by eexists; split].
    assert (Start + Len < Q.(Length)) as Hlt by (apply (look_in Q); [done|lia|fold Cur; by rewrite HS]).
    assert (Q'.(Length) = Q.(Length)) as EL by apply C1.
    rewrite Consume_spec by (done || lia). rewrite C2. replace (Z.min (Start + Len + 1) (Length Q')) with (Start + Len + 1) by lia.
    assert (calm Q' (set_Position Q' (Start + Len + 1))) as C6 by (apply move_calm; [done|lia]). pose proof (calm_ok _ _ C6).
    rewrite Peek_spec by (done || lia). rewrite bind_ret. cbv beta. cbn [Position set_Position]. rewrite Z.add_0_r.
    apply (TagTail_spec P); [done|by eapply calm_trans|lia|lia|lia|cbn; lia| |exact C5].
    intros HG. change (Start + Len + 1 < Length (set_Position Q' (Start + Len + 1))). apply look_in; [done|lia|by rewrite HG].
  - apply (TagTail_spec P); [done|done|lia|lia|lia|lia| |exact C5].
    intros HG. rewrite C2. assert (Q'.(Length) = Q.(Length)) as -> by apply C1.
    apply (look_in Q); [done|lia|fold Cur; by rewrite HG].
Qed.


Ltac peek P n := rewrite (Peek_spec P n) by (done || lia); rewrite bind_ret; cbv beta.
Ltac psr_ok_tac := split; cbn; unfold XML_PARSER_MAX_SIZE; lia.

(** Moving forward, with the buffer as it is. *)
Definition moved (P P' : XML_PARSER) : Prop := exists p, P' = set_Position P p /\ P.(Position) <= p <= P.(Length).

Lemma moved_calm P P' : psr_ok P -> moved P P' -> calm P P'.
Proof. intros HP (p & -> & Hp). by apply move_calm. Qed.
Lemma moved_refl P : psr_ok P -> moved P P.
Proof. intros [H _ _]. exists P.(Position). split; [by destruct P|lia]. Qed.
Lemma moved_trans P Q R : moved P Q -> moved Q R -> moved P R.
Proof. intros (p & -> & Hp) (q & -> & Hq). exists q. cbn in *. split; [done|lia]. Qed.
Lemma Consume_moved P N : psr_ok P -> 0 <= N <= 3 -> moved P (XmlParserConsume P N).
Proof. intros HP HN. rewrite Consume_spec by done. pose proof HP as [H _ _]. eexists. split; [done|lia]. Qed.
Lemma SkipWhitespace_moved P : psr_ok P -> exists P', XmlSkipWhitespace P = Ret P' /\ moved P P'.
Proof. intros HP. destruct (SkipWhitespace_spec P HP) as (p & -> & Hp & _). eexists. split; [done|]. by exists p. Qed.
Lemma Consume_1_next P : psr_ok P -> P.(Position) < P.(Length) -> P.(Position) < (XmlParserConsume P 1).(Position).
Proof. intros HP Hp. rewrite Consume_spec by (done || lia). cbn. lia. Qed.

Lemma SkipControl_spec P IsComment : psr_ok P ->
  exists P', while_ (bytes_fuel P) (SkipControl IsComment) P = Ret P' /\ moved P P'.
Proof.
  intros HP. oc_while (moved P) (fun Q => Z.to_nat (P.(Length) - Q.(Position))) (moved P) as r Hr.
  - intros Q HQ. pose proof (calm_ok _ _ (moved_calm _ _ HP HQ)) as HQ'. unfold SkipControl.
    assert (Q.(Length) = P.(Length)) as EL by (by destruct HQ as (p & -> & _)).
    destruct (decide (Position Q < Length Q)) as [Hd|]; [|by eexists].
    assert (moved P (XmlParserConsume Q 1) /\ (Z.to_nat (P.(Length) - Position (XmlParserConsume Q 1)) < Z.to_nat (P.(Length) - Q.(Position)))%nat) as K.
    { split; [eapply moved_trans; [done|by apply Consume_moved]|]. pose proof (Consume_1_next Q HQ' Hd). lia. }
    peek Q 0. destruct IsComment.
    + peek Q 1. peek Q 2.
      case_decide; eexists; (split; [done|]); [|done]. eapply moved_trans; [done|by apply Consume_moved].
    + case_decide; eexists; (split; [done|]); [|done]. eapply moved_trans; [done|by apply Consume_moved].
  - by apply moved_refl.
  - unfold bytes_fuel. pose proof HP as [H _ _]. lia.
  - eauto.
Qed.

(** One turn of the outer loop advances. *)
Lemma TagOpenStep_spec P : psr_ok P ->
  exists x, TagOpenStep P = Ret x /\
    match x with inl Q => moved P Q /\ P.(Position) < Q.(Position) | inr (Q, _) => moved P Q end.
Proof.
  intros HP. unfold TagOpenStep. destruct (SkipWhitespace_moved P HP) as (Q & -> & HQ). rewrite bind_ret. cbv beta.
  pose proof (calm_ok _ _ (moved_calm _ _ HP HQ)) as HQ'. peek Q 0. rewrite Z.add_0_r.
  destruct (decide (look Q (Position Q) <> LT)) as [|Hlt]; [by eexists|]. apply dec_stable in Hlt.
  assert (Q.(Position) < Q.(Length)) as Hin by (pose proof HQ' as [? _ _]; apply look_in; [done|lia|by rewrite Hlt]).
  pose proof (Consume_1_next Q HQ' Hin) as Hn. pose proof (moved_trans _ _ _ HQ (Consume_moved Q 1 HQ' ltac:(lia))) as HR.
  set (R := XmlParserConsume Q 1) in *. pose proof (calm_ok _ _ (moved_calm _ _ HP HR)) as HR'.
  peek R 0. set (Cur := look R (Position R + 0)).
  destruct (decide (Cur = SLASH)); [by eexists|].
  destruct (decide (Cur <> QUERY /\ Cur <> BANG)); [by eexists|].
  assert (exists S IsComment, (if decide (Cur = BANG)
     then Current ← XmlParserPeek (XmlParserConsume R 1) 0; Next ← XmlParserPeek (XmlParserConsume R 1) 1;
          Ret (if decide (Current = DASH /\ Next = DASH) then (XmlParserConsume (XmlParserConsume R 1) 2, true) else (XmlParserConsume R 1, false))
     else Ret (R, false)) = Ret (S, IsComment) /\ moved R S) as (S & IsComment & -> & HS).
  { case_decide; [|eexists _, _; split; [done|by apply moved_refl]].
    pose proof (Consume_moved R 1 HR' ltac:(lia)) as HT. pose proof (calm_ok _ _ (moved_calm _ _ HR' HT)) as HT'.
    peek (XmlParserConsume R 1) 0. peek (XmlParserConsume R 1) 1.
    case_decide; eexists _, _; (split; [done|]); [|done]. eapply moved_trans; [done|]. apply Consume_moved; [done|lia]. }
  rewrite bind_ret. cbv beta iota. pose proof (calm_ok _ _ (moved_calm _ _ HR' HS)) as HS'.
  destruct (SkipControl_spec S IsComment HS') as (T & -> & HT). rewrite bind_ret. cbv beta.
  assert (moved R T) as HRT by by eapply moved_trans. assert (moved P T) as HPT by by eapply moved_trans.
  case_decide; eexists; (split; [done|]); [|done]. split; [done|].
  destruct HQ as (q & -> & Hq), HRT as (t & -> & Ht). cbn in *. lia.
Qed.

Lemma TagOpen_spec P SelfClosing Attrs : psr_ok P ->
  exists r, XmlParseTagOpen P (SelfClosing, Attrs) = Ret r /\ tag_post P Attrs r.
Proof.
  intros HP. unfold XmlParseTagOpen.
  oc_while (moved P) (fun Q => Z.to_nat (P.(Length) - Q.(Position))) (fun r : XML_PARSER * bool => moved P r.1) as r Hr.
  - intros Q HQ. pose proof (calm_ok _ _ (moved_calm _ _ HP HQ)) as HQ'. destruct (TagOpenStep_spec Q HQ') as (x & -> & Hx).
    eexists. split; [done|]. destruct x as [R|[R f]]; [|by eapply moved_trans]. destruct Hx as [Hx Hx'].
    split; [by eapply moved_trans|]. destruct HQ as (q & -> & Hq), Hx as (t & -> & Ht). cbn in *. lia.
  - by apply moved_refl.
  - unfold bytes_fuel. pose proof HP as [H _ _]. lia.
  - destruct r as [Q f]. rewrite bind_ret. cbv beta iota. cbn [fst] in Hr. pose proof (moved_calm _ _ HP Hr) as HC.
    destruct f; [|by eexists]. destruct (TagEnd_spec Q SelfClosing Attrs (calm_ok _ _ HC)) as (r & -> & Hp). eexists. split; [done|].
    destruct r as [[P' o] Tag]. cbn [tag_post] in *. destruct Hp as [Hp HT]. split; [by eapply calm_trans|].
    destruct Tag; [|done]. destruct HT as [HT ?]. split; [|done]. destruct Hr as (q & -> & Hq). cbn in HT. lia.
Qed.

Lemma TagClose_spec P Unprefixed : psr_ok P ->
  exists P' Tag, XmlParseTagClose P Unprefixed = Ret (P', Tag) /\ calm P P' /\
    match Tag with None => True | Some o => terminated P'.(Buffer) o end.
Proof.
  intros HP. unfold XmlParseTagClose. destruct (SkipWhitespace_moved P HP) as (Q & -> & HQ). rewrite bind_ret. cbv beta.
  pose proof (moved_calm _ _ HP HQ) as HC. pose proof (calm_ok _ _ HC) as HQ'. peek Q 0. cbv zeta.
  assert (forall N, 0 <= N <= 3 -> exists P' Tag, ('(P, _, Tag) ← XmlParseTagEnd (XmlParserConsume Q N) (None, None); Ret (P, Tag)) = Ret (P', Tag)
    /\ calm P P' /\ match Tag with None => True | Some o => terminated P'.(Buffer) o end) as K.
  { intros N HN. pose proof (moved_calm _ _ HQ' (Consume_moved Q N HQ' HN)) as HC2.
    destruct (TagEnd_spec (XmlParserConsume Q N) None None (calm_ok _ _ HC2)) as ([[P' o] Tag] & -> & Hp). rewrite bind_ret. cbv beta iota.
    eexists _, _. split; [done|]. destruct Hp as [Hp HT]. split; [by do 2 (eapply calm_trans; [eassumption|])|]. destruct Tag; [|done]. apply HT. }
  destruct Unprefixed.
  - case_decide; [by eexists _, _|]. apply K. lia.
  - case_decide; [by eexists _, _|]. peek Q 1. case_decide; [by eexists _, _|]. apply K. lia.
Qed.

Lemma ContentLoop_spec P : psr_ok P ->
  exists Len, while_ (bytes_fuel P) (ContentStep P.(Position)) (P, 0) = Ret (set_Position P (P.(Position) + Len), Len)
    /\ 0 <= Len /\ P.(Position) + Len <= P.(Length).
Proof.
  intros HP. pose proof HP as [H1 H2 H3]. unfold XML_PARSER_MAX_SIZE in H3. set (Start := P.(Position)) in *.
  oc_while (fun s => exists Len, s = (set_Position P (Start + Len), Len) /\ 0 <= Len /\ Start + Len <= P.(Length))
    (fun s : XML_PARSER * Z => Z.to_nat (P.(Length) - Start - s.2))
    (fun s => exists Len, s = (set_Position P (Start + Len), Len) /\ 0 <= Len /\ Start + Len <= P.(Length)) as r Hr.
  - intros s (Len & -> & Hn & Hl). unfold ContentStep. cbn [Length set_Position snd].
    rewrite wrap_small by lia. destruct (decide (Start + Len < P.(Length))) as [Hd|Hd]; [|eexists; split; [done|]; by exists Len].
    assert (psr_ok (set_Position P (Start + Len))) as HQ by psr_ok_tac. peek (set_Position P (Start + Len)) 0.
    case_decide; [eexists; split; [done|]; by exists Len|]. eexists. split; [done|].
    rewrite Consume_spec by (done || lia). cbn [Position Length set_Position Buffer Level].
    rewrite wrap_small by lia. split; [|cbn; lia]. exists (Len + 1).
    replace (Z.min (Start + Len + 1) (Length P)) with (Start + (Len + 1)) by lia. split; [done|lia].
  - exists 0. rewrite Z.add_0_r. subst Start. split; [by destruct P|lia].
  - unfold bytes_fuel. cbn. lia.
  - destruct Hr as (Len & -> & Hr). by exists Len.
Qed.

Lemma TrimLoop_spec P Start Len : psr_ok P -> 0 <= Start -> 0 <= Len -> Start + Len <= P.(Length) ->
  exists Len', while_ (bytes_fuel P) (TrimStep P Start) Len = Ret Len' /\ 0 <= Len' <= Len.
Proof.
  intros HP HS HL HE. pose proof HP as [H1 H2 H3]. unfold XML_PARSER_MAX_SIZE in H3.
  oc_while (fun n => 0 <= n <= Len) (fun n => Z.to_nat n) (fun n => 0 <= n <= Len) as r Hr.
  - intros n Hn. unfold TrimStep. case_decide; [|by eexists]. rewrite !(wrap_small 64) by (rewrite ?(wrap_small 64); lia).
    destruct (lookup_lt_is_Some_2 P.(Buffer) (Z.to_nat (Start + n - 1))) as [c Hc]; [lia|].
    rewrite (rd_lookup _ _ c) by (done || lia). rewrite bind_ret. cbv beta. destruct (IsAsciiSpace c); eexists; (split; [done|cbn; lia]).
  - lia.
  - unfold bytes_fuel. lia.
  - eauto.
Qed.

Lemma Content_spec P : psr_ok P ->
  exists P' r, XmlParseContent P = Ret (P', r) /\ calm P P' /\ match r with None => True | Some o => terminated P'.(Buffer) o end.
Proof.
  intros HP. unfold XmlParseContent. destruct (SkipWhitespace_moved P HP) as (Q & -> & HQ). rewrite bind_ret. cbv beta.
  pose proof (moved_calm _ _ HP HQ) as HC. pose proof (calm_ok _ _ HC) as HQ'. pose proof HQ' as [H1 H2 H3]. unfold XML_PARSER_MAX_SIZE in H3.
  destruct (ContentLoop_spec Q HQ') as (Len & -> & HL1 & HL2). rewrite bind_ret. cbv beta iota.
  set (Start := Position Q) in *. set (R := set_Position Q (Start + Len)).
  assert (calm Q R) as HR by (apply move_calm; [done|unfold Start in *; lia]). pose proof (calm_ok _ _ HR) as HR'.
  peek R 0. change (Position R) with (Start + Len). rewrite Z.add_0_r.
  destruct (decide (look R (Start + Len) <> LT)) as [|HL]; [eexists _, _; split; [done|]; split; [by eapply calm_trans|done]|]. apply dec_stable in HL.
  assert (Start + Len < R.(Length)) as Hin by (apply look_in; [done|lia|by rewrite HL]).
  destruct (TrimLoop_spec R Start Len HR') as (Len' & -> & HLen); [lia|lia|cbn; lia|]. rewrite bind_ret. cbv beta.
  rewrite wrap_small by (cbn in *; lia). destruct (wr_nul_calm R (Start + Len') HR') as (b & -> & Hb & Ht); [lia|]. rewrite bind_ret. cbv beta.
  pose proof (calm_ok _ _ Hb) as HB. rewrite Consume_spec by (done || lia). eexists _, _. split; [done|].
  split; [do 3 (eapply calm_trans; [eassumption|]); apply move_calm; [done|cbn; lia]|]. cbn. apply Ht. lia.
Qed.

(** ** Trees in memory

    [owned p x N L]: the blocks [N] and [L] are exactly those of the tree [x] at [p].
    A list fits its allocation and the limit on children. *)
Inductive xnode : Set := XNode (n : XML_NODE) (kids : list xnode).

Definition list_ok (ac : Z) (ps : list Z) : Prop :=
  0 < ac /\ Z.of_nat (length ps) <= ac /\ Z.of_nat (length ps) <= XML_PARSER_NODE_COUNT /\ ac < 2 ^ 20.

Inductive owned : Z -> xnode -> gmap Z XML_NODE -> gmap Z XML_NODE_LIST -> Prop :=
| owned_leaf p n : n.(Children) = None -> owned p (XNode n []) {[p := n]} ∅
| owned_node p n l ac ps kids N L : n.(Children) = Some l -> list_ok ac ps -> owned_kids ps kids N L -> N !! p = None -> L !! l = None ->
    owned p (XNode n kids) (<[p := n]> N) (<[l := List_ ac ps]> L)
with owned_kids : list Z -> list xnode -> gmap Z XML_NODE -> gmap Z XML_NODE_LIST -> Prop :=
| kids_nil : owned_kids [] [] ∅ ∅
| kids_cons p ps x xs N1 L1 N2 L2 : owned p x N1 L1 -> owned_kids ps xs N2 L2 -> N1 ##ₘ N2 -> L1 ##ₘ L2 ->
    owned_kids (p :: ps) (x :: xs) (N1 ∪ N2) (L1 ∪ L2).

Scheme owned_mind := Minimality for owned Sort Prop
  with kids_mind := Minimality for owned_kids Sort Prop.
Combined Scheme owned_mutind from owned_mind, kids_mind.

(** The tree [x] at [p] on top of the blocks [N0] and [L0]. *)
Definition holds (h : heap) (N0 : gmap Z XML_NODE) (L0 : gmap Z XML_NODE_LIST) (p : Z) (x : xnode) : Prop :=
  exists N L, owned p x N L /\ N ##ₘ N0 /\ L ##ₘ L0 /\ h.(Nodes) = N ∪ N0 /\ h.(Lists) = L ∪ L0.

(** The addresses of later requests are free. *)
Definition fresh (h : heap) : Prop := forall k, h.(Requests) <= k ->
  h.(Nodes) !! k = None /\ h.(Lists) !! k = None /\ h.(RefLists) !! k = None /\ h.(Documents) !! k = None.

(** The heap with other nodes and lists. *)
Definition rest (h : heap) (N : gmap Z XML_NODE) (L : gmap Z XML_NODE_LIST) : heap := Heap N L h.(RefLists) h.(Documents) h.(Requests).

Lemma owned_root p x N L : owned p x N L -> exists n kids, x = XNode n kids /\ N !! p = Some n.
Proof. destruct 1; eexists _, _; (split; [done|]); by simplify_map_eq. Qed.

Lemma owned_kids_length ps xs N L : owned_kids ps xs N L -> length ps = length xs.
Proof. induction 1 as [|?????????? IH]; simpl; [done|]. by rewrite IH. Qed.

(** *** Release *)
Definition free_spec (p : Z) (N : gmap Z XML_NODE) (L : gmap Z XML_NODE_LIST) : Prop := forall fuel h N0 L0,
  (size N <= fuel)%nat -> N ##ₘ N0 -> L ##ₘ L0 -> h.(Nodes) = N ∪ N0 -> h.(Lists) = L ∪ L0 -> NodeFree fuel h p = Ret (rest h N0 L0).

Definition free_kids_spec (ps : list Z) (N : gmap Z XML_NODE) (L : gmap Z XML_NODE_LIST) : Prop := forall fuel h N0 L0 l ac qs,
  (size N <= fuel)%nat -> N ##ₘ N0 -> L ##ₘ L0 -> h.(Nodes) = N ∪ N0 -> h.(Lists) = L ∪ L0 -> L0 !! l = Some (List_ ac (qs ++ ps)) ->
  for_ (length ps) (Z.of_nat (length qs)) (fun Index h => c ← deref h.(Lists) l; Child ← rd c.(NodeList) Index; NodeFree fuel h Child) h
    = Ret (rest h N0 L0).

Lemma for_S {St} n i (body : Z -> St -> outcome St) s : for_ (S n) i body s = (s' ← body i s; for_ n (i + 1) body s').
Proof. done. Qed.
Lemma deref_some {A} (m : gmap Z A) p x : m !! p = Some x -> deref m p = Ret x.
Proof. intros E. unfold deref. by rewrite E. Qed.
Lemma release_some {A} (m : gmap Z A) p x : m !! p = Some x -> release m p = Ret (delete p m).
Proof. intros E. unfold release. by rewrite E. Qed.
Lemma rest_same h : rest h h.(Nodes) h.(Lists) = h.
Proof. by destruct h. Qed.
Lemma delete_top {A} (m m0 : gmap Z A) p x : m !! p = None -> <[p := x]> m ##ₘ m0 -> delete p (<[p := x]> m0) = m0.
Proof. intros _ H. apply delete_insert_id. by apply map_disjoint_insert_l in H as [? _]. Qed.

Lemma free_owned :
  (forall p x N L, owned p x N L -> free_spec p N L) /\ (forall ps xs N L, owned_kids ps xs N L -> free_kids_spec ps N L).
Proof.
  apply owned_mutind.
  - intros p n HC fuel h N0 L0 Hf HN HL EN EL. rewrite map_size_singleton in Hf. destruct fuel as [|fuel]; [lia|].
    cbn [NodeFree]. apply map_disjoint_singleton_l in HN.
    rewrite EN, <- insert_union_singleton_l. rewrite (deref_some _ p n) by by simplify_map_eq. rewrite bind_ret. cbv beta.
    rewrite HC, bind_ret. cbv beta. rewrite EN, <- insert_union_singleton_l. rewrite (release_some _ p n) by by simplify_map_eq.
    rewrite bind_ret. cbv beta. rewrite delete_insert_id by done. rewrite (left_id_L _ _ L0) in EL. unfold rest, set_Nodes. by rewrite EL.
  - intros p n l ac ps kids N L HC Hok Hk IH Hp Hl fuel h N0 L0 Hf HN HL EN EL. rewrite map_size_insert_None in Hf by done.
    destruct fuel as [|fuel]; [lia|]. apply map_disjoint_insert_l in HN as [HN1 HN2]. apply map_disjoint_insert_l in HL as [HL1 HL2].
    rewrite <- insert_union_l in EN. rewrite <- insert_union_l in EL.
    cbn [NodeFree]. rewrite (deref_some _ p n) by (rewrite EN; by simplify_map_eq). rewrite bind_ret. cbv beta. rewrite HC.
    rewrite (deref_some _ l (List_ ac ps)) by (rewrite EL; by simplify_map_eq). rewrite bind_ret. cbv beta. cbn [NodeList].
    change 0 with (Z.of_nat (length (@nil Z))).
    rewrite (IH fuel h (<[p := n]> N0) (<[l := List_ ac ps]> L0) l ac []).
    + rewrite bind_ret. cbv beta. cbn [Lists rest]. rewrite (release_some _ l (List_ ac ps)) by by simplify_map_eq.
      rewrite !bind_ret. cbv beta. cbn [Nodes set_Lists rest]. rewrite (release_some _ p n) by by simplify_map_eq. rewrite bind_ret. cbv beta.
      rewrite !delete_insert_id by done. done.
    + lia.
    + apply map_disjoint_insert_r. done.
    + apply map_disjoint_insert_r. done.
    + rewrite EN. by rewrite insert_union_r.
    + rewrite EL. by rewrite insert_union_r.
    + by simplify_map_eq.
  - intros fuel h N0 L0 l ac qs Hf _ _ EN EL _. rewrite (left_id_L ∅ _) in EN. rewrite (left_id_L ∅ _) in EL. rewrite <- EN, <- EL, rest_same. done.
  - intros p ps x xs N1 L1 N2 L2 Hx IH1 Hk IH2 HN HL fuel h N0 L0 l ac qs Hf HN0 HL0 EN EL El.
    rewrite map_size_disj_union in Hf by done.
    apply map_disjoint_union_l in HN0 as [A1 A2]. apply map_disjoint_union_l in HL0 as [B1 B2].
    rewrite <- (assoc_L (∪)) in EN. rewrite <- (assoc_L (∪)) in EL. cbn [length]. rewrite for_S.
    pose proof (map_disjoint_Some_r _ _ _ _ B1 El) as D1. pose proof (map_disjoint_Some_r _ _ _ _ B2 El) as D2.
    rewrite (deref_some _ l (List_ ac (qs ++ p :: ps))).
    2: { rewrite EL. by rewrite !lookup_union_r. }
    rewrite bind_ret. cbv beta. cbn [NodeList]. rewrite (rd_nat _ _ p) by by rewrite list_lookup_middle. rewrite bind_ret. cbv beta.
    rewrite (IH1 fuel h (N2 ∪ N0) (L2 ∪ L0)); [|lia|by apply map_disjoint_union_r|by apply map_disjoint_union_r|done|done].
    rewrite bind_ret. cbv beta. replace (Z.of_nat (length qs) + 1) with (Z.of_nat (length (qs ++ [p]))) by (rewrite length_app; simpl; lia).
    rewrite (IH2 fuel (rest h (N2 ∪ N0) (L2 ∪ L0)) N0 L0 l ac (qs ++ [p])); try done; [lia|]. by rewrite <- app_assoc.
Qed.

Lemma XmlNodeFree_holds h N0 L0 p x : holds h N0 L0 p x -> XmlNodeFree h p = Ret (rest h N0 L0).
Proof.
  intros (N & L & Ho & HN & HL & EN & EL). unfold XmlNodeFree. apply (proj1 free_owned _ _ _ _ Ho); try done.
  rewrite EN, map_size_disj_union by done. lia.
Qed.

(** *** Nodes with their children *)
Lemma owned_inv p n kids N L : owned p (XNode n kids) N L ->
  exists ps Nk Lk, owned_kids ps kids Nk Lk /\ Nk !! p = None /\ N = <[p := n]> Nk /\
  match n.(Children) with
  | None => ps = [] /\ kids = [] /\ Nk = ∅ /\ Lk = ∅ /\ L = ∅
  | Some l => exists ac, list_ok ac ps /\ Lk !! l = None /\ L = <[l := List_ ac ps]> Lk
  end.
Proof.
  inversion 1 as [? ? HC|? ? l ac ps ? Nk Lk HC Hok Hk Hp Hl]; subst.
  - exists [], ∅, ∅. rewrite HC. split; [constructor|]. by repeat split.
  - exists ps, Nk, Lk. rewrite HC. split; [done|]. split; [done|]. split; [done|]. by exists ac.
Qed.

Lemma owned_kids_snoc ps xs N L c y Nc Lc : owned_kids ps xs N L -> owned c y Nc Lc -> N ##ₘ Nc -> L ##ₘ Lc ->
  owned_kids (ps ++ [c]) (xs ++ [y]) (N ∪ Nc) (L ∪ Lc).
Proof.
  intros Hk Hc. induction Hk as [|p ps x xs N1 L1 N2 L2 H1 H2 IH HN HL]; intros DN DL; cbn [app].
  - rewrite <- (right_id_L ∅ (∪) Nc), <- (right_id_L ∅ (∪) Lc), !(left_id_L ∅ (∪)).
    apply kids_cons; [done|constructor|apply map_disjoint_empty_r|apply map_disjoint_empty_r].
  - apply map_disjoint_union_l in DN as [DN1 DN2]. apply map_disjoint_union_l in DL as [DL1 DL2].
    rewrite <- !(assoc_L (∪)). apply kids_cons; [done|by apply IH|by apply map_disjoint_union_r|by apply map_disjoint_union_r].
Qed.

(** The blocks on top come below those of the tree under them. *)
Lemma top_swap {A} (M Mk M0 : gmap Z A) : Mk ##ₘ M -> Mk ∪ (M ∪ M0) = (M ∪ Mk) ∪ M0.
Proof. intros H. rewrite (assoc_L (∪)). by rewrite (map_union_comm Mk M). Qed.

Lemma insert_top {A} (M M0 : gmap Z A) k x y : <[k := y]> (<[k := x]> M ∪ M0) = <[k := y]> M ∪ M0.
Proof. by rewrite <- !insert_union_l, insert_insert_eq. Qed.

Lemma delete_top_insert {A} (M M0 : gmap Z A) k x : M !! k = None -> M0 !! k = None -> delete k (<[k := x]> M ∪ M0) = M ∪ M0.
Proof. intros H H0. rewrite <- insert_union_l, delete_insert_id; [done|]. by apply lookup_union_None_2. Qed.

Section Heap.
Context `{HPool : XmlPool}.

(** Every request is met. *)
Definition all_met : Prop := forall k n, Allocate k n <> None.

Lemma fresh_tick h : fresh h -> fresh (tick h).
Proof. intros H k Hk. apply H. cbn in Hk. lia. Qed.

Lemma NodeCreate_spec h n : fresh h -> n.(Children) = None ->
  exists h' r, XmlNodeCreate h n = (h', r) /\ fresh h' /\ h'.(RefLists) = h.(RefLists) /\ h'.(Documents) = h.(Documents) /\
  match r with
  | None => h'.(Nodes) = h.(Nodes) /\ h'.(Lists) = h.(Lists) /\ ~ all_met
  | Some p => holds h' h.(Nodes) h.(Lists) p (XNode n [])
  end.
Proof.
  intros HF HC. unfold XmlNodeCreate. destruct (Allocate _ _) eqn:EA; eexists _, _; (split; [done|]).
  2: { split; [by apply fresh_tick|]. do 4 (split; [done|]). intros HM. by destruct (HM _ _ EA). }
  destruct (HF h.(Requests) ltac:(lia)) as (F1 & F2 & F3 & F4).
  split; [|split; [done|split; [done|]]].
  - intros k Hk. cbn in Hk |- *. rewrite lookup_insert_ne by lia. apply HF. lia.
  - exists {[h.(Requests) := n]}, ∅. split; [by apply owned_leaf|]. split; [by apply map_disjoint_singleton_l|].
    split; [apply map_disjoint_empty_l|]. split; [by cbn; rewrite insert_union_singleton_l|]. cbn. by rewrite (left_id_L ∅ (∪)).
Qed.

(** The blocks of [p] and of the new child [c], as those of [p] with one child more. *)
Lemma push_open h1 h2 N0 L0 p n kids c y :
  holds h1 N0 L0 p (XNode n kids) -> holds h2 h1.(Nodes) h1.(Lists) c y ->
  exists ps Nk Lk, owned_kids (ps ++ [c]) (kids ++ [y]) Nk Lk /\ Nk ##ₘ N0 /\ Nk !! p = None /\ N0 !! p = None
    /\ h2.(Nodes) = <[p := n]> Nk ∪ N0 /\ Lk ##ₘ L0 /\
  match n.(Children) with
  | None => ps = [] /\ h2.(Lists) = Lk ∪ L0
  | Some l => exists ac, list_ok ac ps /\ Lk !! l = None /\ L0 !! l = None /\ h2.(Lists) = <[l := List_ ac ps]> Lk ∪ L0
  end.
Proof.
  intros (N & L & Ho & HN & HL & EN1 & EL1) (Nc & Lc & Hc & HNc & HLc & EN2 & EL2).
  destruct (owned_inv _ _ _ _ _ Ho) as (ps & Nk & Lk & Hk & Hp & -> & HM). rewrite EN1 in HNc, EN2. rewrite EL1 in HLc, EL2.
  apply map_disjoint_union_r in HNc as [DN1 DN2]. apply map_disjoint_union_r in HLc as [DL1 DL2].
  rewrite top_swap in EN2 by done. rewrite top_swap in EL2 by done.
  apply map_disjoint_insert_l in HN as [HN1 HN2]. apply map_disjoint_insert_r in DN1 as [DN1 DN3].
  rewrite <- (insert_union_l Nk Nc) in EN2.
  assert (Lk ##ₘ Lc /\ Lk ##ₘ L0) as [DL3 DL4].
  { destruct (Children n); [|by destruct HM as (_ & _ & _ & -> & _); split; apply map_disjoint_empty_l].
    destruct HM as (ac & _ & _ & ->). apply map_disjoint_insert_l in HL as [_ ?]. apply map_disjoint_insert_r in DL1 as [_ ?]. done. }
  exists ps, (Nk ∪ Nc), (Lk ∪ Lc). split; [by apply owned_kids_snoc|]. split; [by apply map_disjoint_union_l|].
  split; [by apply lookup_union_None_2|]. split; [done|]. split; [done|]. split; [by apply map_disjoint_union_l|].
  destruct (Children n) as [l|].
  - destruct HM as (ac & Hok & Hl & ->). apply map_disjoint_insert_l in HL as [HL1 _]. apply map_disjoint_insert_r in DL1 as [DL1 _].
    exists ac. split; [done|]. split; [by apply lookup_union_None_2|]. split; [done|]. by rewrite EL2, <- insert_union_l.
  - by destruct HM as (-> & _ & _ & -> & ->).
Qed.

(** A new list of children. *)
Lemma push_new h N0 L0 p n ps xs Nk Lk ac L :
  fresh h -> owned_kids ps xs Nk Lk -> Nk ##ₘ N0 -> Nk !! p = None -> N0 !! p = None -> h.(Nodes) = <[p := n]> Nk ∪ N0 -> Lk ##ₘ L0 ->
  L = Lk ∪ L0 -> (forall k, h.(Requests) <= k -> L !! k = None) -> list_ok ac ps ->
  let r := h.(Requests) in
  let h' := tick (set_Nodes (set_Lists h (<[r := List_ ac ps]> L)) (<[p := set_Children n (Some r)]> h.(Nodes))) in
  fresh h' /\ holds h' N0 L0 p (XNode (set_Children n (Some r)) xs).
Proof.
  intros HF Hk DN Hp Hp0 EN DL -> HL Hok r h'. split.
  - intros k Hk'. cbn in Hk' |- *. destruct (HF k ltac:(lia)) as (K1 & K2 & K3 & K4). rewrite lookup_insert_ne.
    + split; [done|]. rewrite lookup_insert_ne by lia. split; [apply HL; lia|done].
    + intros <-. rewrite EN, <- insert_union_l, lookup_insert_eq in K1. done.
  - pose proof (HL r ltac:(lia)) as Hr. apply lookup_union_None_1 in Hr as [Hr1 Hr2].
    exists (<[p := set_Children n (Some r)]> Nk), (<[r := List_ ac ps]> Lk). split; [by apply owned_node|].
    split; [by apply map_disjoint_insert_l|]. split; [by apply map_disjoint_insert_l|]. cbn. split; [by rewrite EN, insert_top|by rewrite insert_union_l].
Qed.

(** The tree [y] at [c] comes to the children of [p], or stays where it is. *)
Lemma ChildPush_spec h1 h2 N0 L0 p n kids c y :
  holds h1 N0 L0 p (XNode n kids) -> holds h2 h1.(Nodes) h1.(Lists) c y -> fresh h2 ->
  exists h3 Pushed, XmlNodeChildPush h2 p c = Ret (h3, Pushed) /\ fresh h3 /\ h3.(RefLists) = h2.(RefLists) /\ h3.(Documents) = h2.(Documents) /\
  if (Pushed : bool) then exists l, holds h3 N0 L0 p (XNode (set_Children n l) (kids ++ [y]))
  else h3.(Nodes) = h2.(Nodes) /\ h3.(Lists) = h2.(Lists) /\ (all_met -> XML_PARSER_NODE_COUNT - 1 <= Z.of_nat (length kids)).
Proof.
  intros H1 H2 HF. destruct (push_open _ _ _ _ _ _ _ _ _ H1 H2) as (ps & Nk & Lk & Hk & DN & Hp & Hp0 & EN & DL & HM).
  unfold XmlNodeChildPush. rewrite (deref_some _ p n) by (rewrite EN, <- insert_union_l; by apply lookup_insert_eq). rewrite bind_ret. cbv beta.
  assert (forall k size, Allocate k size = None -> exists h3, Ret (tick h2, false) = Ret (h3, false) /\ fresh h3 /\ h3.(RefLists) = h2.(RefLists)
    /\ h3.(Documents) = h2.(Documents) /\ h3.(Nodes) = h2.(Nodes) /\ h3.(Lists) = h2.(Lists)
    /\ (all_met -> XML_PARSER_NODE_COUNT - 1 <= Z.of_nat (length kids))) as Stay.
  { intros k size EA. exists (tick h2). split; [done|]. split; [by apply fresh_tick|]. do 4 (split; [done|]). intros Hmet. by destruct (Hmet _ _ EA). }
  assert (length ps = length kids) as Hps by (pose proof (owned_kids_length _ _ _ _ Hk) as E; rewrite !length_app in E; cbn in E; lia).
  destruct (Children n) as [l|] eqn:EC.
  - destruct HM as (ac & (Hac1 & Hac2 & Hac3 & Hac4) & Hl & Hl0 & EL).
    assert (h2.(Lists) !! l = Some (List_ ac ps)) as El by (rewrite EL, <- insert_union_l; by apply lookup_insert_eq).
    rewrite (deref_some _ l _ El), bind_ret. cbv beta. unfold NodeCount. cbn [NodeList AllocCount].
    destruct (decide (Z.of_nat (length ps) < XML_PARSER_NODE_COUNT /\ Z.of_nat (length ps) < ac)) as [Hroom|Hroom]; rewrite bind_ret; cbv beta iota.
    + eexists _, true. split; [done|]. split; [|split; [done|split; [done|]]].
      * intros k Hk'. cbn in Hk' |- *. destruct (HF k Hk') as (K1 & K2 & K3 & K4). rewrite lookup_insert_ne; [done|]. intros <-. by rewrite El in K2.
      * exists (Some l). exists (<[p := n]> Nk), (<[l := List_ ac (ps ++ [c])]> Lk).
        replace (set_Children n (Some l)) with n by (unfold set_Children; rewrite <- EC; by destruct n).
        split; [apply owned_node; try done; unfold list_ok; rewrite length_app; cbn; unfold XML_PARSER_NODE_COUNT in *; lia|].
        split; [by apply map_disjoint_insert_l|]. split; [by apply map_disjoint_insert_l|]. split; [done|]. cbn. by rewrite EL, insert_top.
    + destruct (decide (XML_PARSER_NODE_COUNT - 1 <= Z.of_nat (length ps))); [by exists h2, false; do 6 (split; [done|]); rewrite <- Hps|].
      destruct (Allocate _ _) eqn:EA; [|destruct (Stay _ _ EA) as (h3 & E3 & Stay'); by exists h3, false]. rewrite (release_some _ l _ El), bind_ret. cbv beta.
      eexists _, true. split; [done|].
      unfold XML_PARSER_NODE_COUNT in *.
      destruct (push_new h2 N0 L0 p n (ps ++ [c]) (kids ++ [y]) Nk Lk (ac *[32] 3) (delete l h2.(Lists))) as [HF3 HH]; try done.
      * by rewrite EL, delete_top_insert.
      * intros k Hk'. apply lookup_delete_None. right. by apply HF.
      * unfold list_ok, XML_PARSER_NODE_COUNT. rewrite length_app. cbn. rewrite wrap_small by lia. lia.
      * split; [exact HF3|]. split; [done|]. split; [done|]. by exists (Some (Requests h2)).
  - destruct HM as (-> & EL). rewrite !bind_ret. cbv beta iota. unfold NodeCount. cbn [NodeList AllocCount length app].
    destruct (decide (XML_PARSER_NODE_COUNT - 1 <= Z.of_nat 0)); [done|]. destruct (Allocate _ _) eqn:EA; [|destruct (Stay _ _ EA) as (h3 & E3 & Stay'); by exists h3, false].
    eexists _, true. split; [done|].
    destruct (push_new h2 N0 L0 p n [c] (kids ++ [y]) Nk Lk (1 *[32] 3) h2.(Lists)) as [HF3 HH]; try done.
    + intros k Hk'. by apply HF.
    + split; [exact HF3|]. split; [done|]. split; [done|]. by exists (Some (Requests h2)).
Qed.

End Heap.

(** ** References

    The table of references, if there is one, is one block on top of [M0]. *)
Definition table_ok (h : heap) (M0 : gmap Z (list (option Z))) (R : XML_REFLIST) : Prop :=
  0 <= R.(RefCount) <= R.(RefAllocCount) /\ R.(RefAllocCount) <= 2 * XML_PARSER_MAX_REFERENCE_COUNT /\
  match R.(RefList) with
  | None => R.(RefAllocCount) = 0 /\ h.(RefLists) = M0
  | Some r => M0 !! r = None /\ exists cells, Z.of_nat (length cells) = R.(RefAllocCount) /\ h.(RefLists) = <[r := cells]> M0
  end.

Definition refs_ok (h : heap) (M0 : gmap Z (list (option Z))) (R : option XML_REFLIST) : Prop :=
  match R with None => h.(RefLists) = M0 | Some R => table_ok h M0 R end.

Definition attrs_ok (b : list Z) (a : option chars) : Prop :=
  match a with Some (At o) => terminated b o | _ => True end.

Section Reference_table.
Context `{HPool : XmlPool} `{HLib : AsciiLib} {HLaws : AsciiLibLaws HLib}.

Lemma AttributeNumber_spec s Argument :
  exists r, XmlParseAttributeNumber s Argument (Z.of_nat (length Argument)) = Ret r /\ forall n, r = Some n -> 0 <= n < 2 ^ 32.
Proof.
  unfold XmlParseAttributeNumber. destruct (AsciiStrStr s Argument) as [o|] eqn:E; [|by eexists].
  apply AsciiStrStr_inside in E as [E1 E2]. rewrite rd_slice_in by lia. rewrite bind_ret. cbv beta.
  set (t := slice _ _ _). destruct (AsciiStrStr t [QUOTE]) as [k|] eqn:E; [|by eexists]. apply AsciiStrStr_inside in E as [E3 E4].
  case_decide; [by eexists|]. rewrite rd_slice_in by (cbn in E4; lia). eexists. split; [done|]. intros n [= <-]. apply wrap_range. lia.
Qed.

Lemma attrs_string b a : attrs_ok b (Some a) -> exists s, AsciiStr b a = Ret s.
Proof. destruct a; cbn; [apply terminated_string|eauto]. Qed.

Lemma OwnReference_spec s a : attrs_ok s.(Psr).(Buffer) a ->
  exists r, OwnReference s a = Ret r /\ forall n, r = Some n -> 0 <= n /\ s.(Refs) <> None.
Proof.
  intros Ha. unfold OwnReference. destruct (Refs s); [|by eexists]. destruct a as [a|]; [|by eexists].
  destruct (attrs_string _ _ Ha) as [t ->]. rewrite bind_ret. cbv beta. destruct (AttributeNumber_spec t ID) as (r & -> & Hr).
  eexists. split; [done|]. intros n Hn. split; [by apply Hr|done].
Qed.

Lemma NodeReal_spec h M0 b R a : refs_ok h M0 R -> attrs_ok b a -> exists r, XmlNodeReal h b R a = Ret r.
Proof.
  intros HR Ha. unfold XmlNodeReal. destruct R as [R|]; [|eauto]. destruct a as [a|]; [|eauto].
  destruct (attrs_string _ _ Ha) as [t ->]. rewrite bind_ret. cbv beta. destruct (AttributeNumber_spec t IDREF) as (r & -> & Hr).
  rewrite bind_ret. cbv beta. destruct r as [n|]; [|eauto]. specialize (Hr n eq_refl). case_decide as Hd; [eauto|].
  destruct HR as (H1 & H2 & HM). destruct (RefList R) as [r|]; [|lia]. destruct HM as (_ & cells & HL & ->).
  rewrite (deref_some _ r cells) by by simplify_map_eq. rewrite bind_ret. cbv beta.
  destruct (lookup_lt_is_Some_2 cells (Z.to_nat n)) as [c Hc]; [lia|]. rewrite (rd_lookup _ _ c) by (done || lia). eauto.
Qed.

(** A fresh heap whose table is replaced by another one. *)
Lemma fresh_RefLists h M0 M k cells : fresh h -> (forall j, h.(Requests) <= j -> M0 !! j = None) -> M = <[k := cells]> M0 -> k < h.(Requests) ->
  fresh (set_RefLists h M).
Proof.
  intros HF H0 -> Hk j Hj. cbn in Hj |- *. destruct (HF j Hj) as (K1 & K2 & K3 & K4). repeat split; try done. rewrite lookup_insert_ne by lia. auto.
Qed.

Lemma table_base h M0 R : fresh h -> table_ok h M0 R -> forall j, h.(Requests) <= j -> M0 !! j = None.
Proof.
  intros HF (_ & _ & HM) j Hj. destruct (HF j Hj) as (_ & _ & K & _). destruct (RefList R) as [r|]; [|by destruct HM as [_ <-]].
  destruct HM as (_ & old & _ & EM). rewrite EM in K. by apply lookup_insert_None in K as [? _].
Qed.

Lemma GrowReferences_spec h M0 R NewCount : table_ok h M0 R -> R.(RefCount) <= NewCount ->
  exists cells, GrowReferences h R NewCount = Ret (M0, cells) /\ Z.of_nat (length cells) = NewCount.
Proof.
  intros (H1 & H2 & HM) Hn. unfold GrowReferences. destruct (RefList R) as [r|].
  - destruct HM as (Hr & old & Ho & EM). rewrite EM. rewrite (deref_some _ r old) by by simplify_map_eq. rewrite bind_ret. cbv beta.
    rewrite CopyMem_in by (rewrite ?length_replicate; lia). rewrite bind_ret. cbv beta.
    rewrite (release_some _ r old) by by simplify_map_eq. rewrite bind_ret. cbv beta. rewrite delete_insert_id by done. eexists. split; [done|].
    rewrite length_inserts, length_replicate. lia.
  - destruct HM as (_ & ->). eexists. split; [done|]. rewrite length_replicate. lia.
Qed.

Lemma ReserveReference_spec h M0 R n : fresh h -> table_ok h M0 R -> 0 <= n < XML_PARSER_MAX_REFERENCE_COUNT ->
  exists h' R' Room, ReserveReference h R n = Ret (h', R', Room) /\ fresh h' /\ table_ok h' M0 R' /\ (Room = true -> n < RefAllocCount R')
    /\ h'.(Nodes) = h.(Nodes) /\ h'.(Lists) = h.(Lists) /\ h'.(Documents) = h.(Documents).
Proof.
  intros HF HT Hn. unfold XML_PARSER_MAX_REFERENCE_COUNT in Hn. unfold ReserveReference.
  case_decide as Hd; [|exists h, R, true; split; [done|]; do 2 (split; [done|]); by split; [intros _; lia|]].
  rewrite overflow_add_small by lia. unfold overflow_mul. rewrite bool_decide_eq_false_2 by lia. rewrite (wrap_small 32 ((n + 1) * 2)) by lia. cbn [orb].
  pose proof (table_base _ _ _ HF HT) as H0.
  destruct (Allocate _ _); [|by exists (tick h), R, false; split; [done|]; split; [by apply fresh_tick|]].
  destruct (GrowReferences_spec h M0 R ((n + 1) * 2) HT) as (cells & -> & Hc); [destruct HT as [? _]; lia|]. rewrite bind_ret. cbv beta iota.
  eexists _, _, true. split; [done|]. split; [|split; [|split; [cbn; lia|done]]].
  - intros k Hk. cbn in Hk |- *. destruct (HF k ltac:(lia)) as (K1 & K2 & K3 & K4). repeat split; try done. rewrite lookup_insert_ne by lia. apply H0. lia.
  - destruct HT as [? _]. split; [cbn; lia|]. split; [cbn; unfold XML_PARSER_MAX_REFERENCE_COUNT; lia|]. cbn. split; [apply H0; lia|]. by exists cells.
Qed.

Lemma PushReference_spec h M0 R p n : fresh h -> table_ok h M0 R -> 0 <= n ->
  exists h' R' Pushed, XmlPushReference h R p n = Ret (h', R', Pushed) /\ fresh h' /\ table_ok h' M0 R'
    /\ h'.(Nodes) = h.(Nodes) /\ h'.(Lists) = h.(Lists) /\ h'.(Documents) = h.(Documents).
Proof.
  intros HF HT Hn. unfold XmlPushReference. case_decide as Hmax; [by eexists _, _, _|]. unfold XML_PARSER_MAX_REFERENCE_COUNT in Hmax.
  destruct (ReserveReference_spec h M0 R n HF HT) as (h' & R' & Room & -> & HF' & HT' & HR & HN & HL & HD); [unfold XML_PARSER_MAX_REFERENCE_COUNT; lia|].
  rewrite bind_ret. cbv beta iota. destruct Room; cbn [negb]; [|by eexists _, _, _]. specialize (HR eq_refl).
  pose proof (table_base _ _ _ HF' HT') as H0. destruct HT' as (H1 & H2 & HM). destruct (RefList R') as [r|] eqn:ER; [|lia]. destruct HM as (Hr & cells & Hc & EM).
  rewrite (deref_some _ r cells) by (rewrite EM; by simplify_map_eq). rewrite bind_ret. cbv beta. rewrite wr_in by lia. rewrite bind_ret. cbv beta zeta.
  eexists _, _, _. split; [done|]. rewrite EM, insert_insert_eq. split; [|split; [|done]].
  - eapply fresh_RefLists; [done|exact H0|done|]. destruct (decide (r < Requests h')); [done|].
    destruct (HF' r ltac:(lia)) as (_ & _ & K & _). rewrite EM in K. by simplify_map_eq.
  - unfold XML_PARSER_MAX_REFERENCE_COUNT in *. split; [cbn [RefCount RefAllocCount]; case_decide; rewrite ?(wrap_small 32 (n + 1)) by lia; lia|]. split; [exact H2|]. cbn.
    split; [done|]. exists (<[Z.to_nat n := Some p]> cells). by rewrite length_insert.
Qed.

End Reference_table.

(** ** The parser of nodes is safe *)

(** The strings of a node are terminated; without references there is no other
    content. *)
Definition node_ok (WithRefs : bool) (b : list Z) (n : XML_NODE) : Prop :=
  attrs_ok b (Some n.(Name)) /\ attrs_ok b n.(Attributes) /\ attrs_ok b n.(Content) /\ (WithRefs = false -> n.(Real) = None).

Fixpoint xnode_ind' (Q : xnode -> Prop) (f : forall n kids, Forall Q kids -> Q (XNode n kids)) (x : xnode) : Q x :=
  match x with
  | XNode n kids =>
      f n kids ((fix go l : Forall Q l :=
        match l with [] => Forall_nil_2 _ | k :: l => Forall_cons_2 _ _ _ (xnode_ind' Q f k) (go l) end) kids)
  end.

Inductive all_nodes (P : XML_NODE -> Prop) : xnode -> Prop :=
| all_node n kids : P n -> Forall (all_nodes P) kids -> all_nodes P (XNode n kids).

(** The depth below a node. *)
Fixpoint xheight (x : xnode) : Z :=
  match x with XNode _ kids => foldr (fun k => Z.max (1 + xheight k)) 0 kids end.

Definition kids_below (kids : list xnode) (h : Z) : Prop := Forall (fun k => 1 + xheight k <= h) kids.

(** The number of nodes. *)
Fixpoint xsize (x : xnode) : Z := match x with XNode _ kids => 1 + foldr (fun k => Z.add (xsize k)) 0 kids end.
Definition kids_size (kids : list xnode) : Z := foldr (fun k => Z.add (xsize k)) 0 kids.

Lemma kids_size_snoc kids x : kids_size (kids ++ [x]) = kids_size kids + xsize x.
Proof. unfold kids_size. induction kids as [|k kids IH]; cbn [app foldr]; [lia|]. rewrite IH. lia. Qed.

Lemma xheight_below n kids h : 0 <= h -> kids_below kids h -> xheight (XNode n kids) <= h.
Proof. intros H0 H. cbn [xheight]. induction H; cbn [foldr]; lia. Qed.

Lemma attrs_cut b b' a : cut b b' -> attrs_ok b a -> attrs_ok b' a.
Proof. destruct a as [[]|]; cbn; try done. apply terminated_cut. Qed.
Lemma strings_cut WithRefs b b' n : cut b b' -> node_ok WithRefs b n -> node_ok WithRefs b' n.
Proof. intros H (? & ? & ? & ?). split; [by eapply attrs_cut|]. split; [by eapply attrs_cut|]. split; [by eapply attrs_cut|done]. Qed.

Lemma all_nodes_impl (P Q : XML_NODE -> Prop) : (forall n, P n -> Q n) -> forall x, all_nodes P x -> all_nodes Q x.
Proof.
  intros H x. induction x as [n kids IH] using xnode_ind'. inversion 1 as [? ? Hn Hk]; subst. constructor; [by apply H|].
  apply (Forall_impl (fun k => (all_nodes P k -> all_nodes Q k) /\ all_nodes P k)); [by apply Forall_and|naive_solver].
Qed.

Lemma holds_ext h h' N0 L0 p x : h'.(Nodes) = h.(Nodes) -> h'.(Lists) = h.(Lists) -> holds h N0 L0 p x -> holds h' N0 L0 p x.
Proof. intros E1 E2 (N & L & H). exists N, L. by rewrite E1, E2. Qed.

(** The lower of two trees can be released first. *)
Lemma holds_swap h1 h2 N0 L0 p x c y : holds h1 N0 L0 p x -> holds h2 h1.(Nodes) h1.(Lists) c y ->
  exists N1 L1, holds h2 N1 L1 p x /\ forall h, h.(Nodes) = N1 -> h.(Lists) = L1 -> holds h N0 L0 c y.
Proof.
  intros (N & L & Ho & HN & HL & EN1 & EL1) (Nc & Lc & Hc & HNc & HLc & EN2 & EL2). rewrite EN1 in HNc, EN2. rewrite EL1 in HLc, EL2.
  apply map_disjoint_union_r in HNc as [DN1 DN2]. apply map_disjoint_union_r in HLc as [DL1 DL2].
  exists (Nc ∪ N0), (Lc ∪ L0). split.
  - exists N, L. split; [done|]. split; [by apply map_disjoint_union_r|]. split; [by apply map_disjoint_union_r|].
    rewrite (assoc_L (∪)), (assoc_L (∪)). rewrite EN2, EL2. by rewrite top_swap, top_swap.
  - intros h E1 E2. exists Nc, Lc. by rewrite E1, E2.
Qed.

Section Parse_node.
Context `{HPool : XmlPool} `{HLib : AsciiLib} {HLaws : AsciiLibLaws HLib}.
Context (WithRefs : bool) (M0 : gmap Z (list (option Z))).

(** What every part of the parser keeps. *)
Record kept (s s' : parse) : Prop := Kept {
  kept_psr : forward s.(Psr) s'.(Psr);
  kept_level : s.(Psr).(Level) <= s'.(Psr).(Level);
  kept_fresh : fresh s'.(Mem);
  kept_refs : refs_ok s'.(Mem) M0 s'.(Refs);
  kept_null : s'.(Refs) = None <-> s.(Refs) = None;
  kept_documents : s'.(Mem).(Documents) = s.(Mem).(Documents)
}.

Definition sound (s : parse) : Prop := psr_ok s.(Psr) /\ 0 <= s.(Psr).(Level) <= XML_PARSER_NEST_LEVEL /\ fresh s.(Mem) /\ refs_ok s.(Mem) M0 s.(Refs)
  /\ (WithRefs = false <-> s.(Refs) = None).

(** A failure at the nesting limit leaves the parser at the opening of a tag, which
    no caller takes for a close tag. *)
Definition level_post (s : parse) : Prop := s.(Psr).(Level) <= XML_PARSER_NEST_LEVEL \/ look s.(Psr) s.(Psr).(Position) = LT.

(** The tree at [p], whose open tag is behind the position [start]. *)
Definition tree_post (s' : parse) N0 L0 (p : Z) (n : XML_NODE) (kids : list xnode) (level start : Z) : Prop :=
  holds s'.(Mem) N0 L0 p (XNode n kids) /\ node_ok WithRefs s'.(Psr).(Buffer) n /\ Forall (all_nodes (node_ok WithRefs s'.(Psr).(Buffer))) kids
  /\ kids_below kids (XML_PARSER_NEST_LEVEL - level) /\ 1 + kids_size kids <= s'.(Psr).(Position) - start.

Definition gone (s' : parse) (N0 : gmap Z XML_NODE) (L0 : gmap Z XML_NODE_LIST) : Prop :=
  s'.(Mem).(Nodes) = N0 /\ s'.(Mem).(Lists) = L0 /\ level_post s'.

Definition node_post (s s' : parse) (r : option Z) : Prop :=
  kept s s' /\
  match r with
  | None => gone s' s.(Mem).(Nodes) s.(Mem).(Lists)
  | Some p => s'.(Psr).(Level) <= XML_PARSER_NEST_LEVEL /\ s.(Psr).(Position) < s'.(Psr).(Position)
              /\ exists n kids, tree_post s' s.(Mem).(Nodes) s.(Mem).(Lists) p n kids s.(Psr).(Level) s.(Psr).(Position)
  end.

Definition node_parser (level : Z) (F : parse -> outcome (parse * option Z)) : Prop :=
  forall s, sound s -> level <= s.(Psr).(Level) -> exists s' r, F s = Ret (s', r) /\ node_post s s' r.

Lemma kept_refl s : sound s -> kept s s.
Proof. intros (H1 & H2 & H3 & H4 & H5). split; [by apply forward_refl|done..]. Qed.
Lemma kept_trans s t u : kept s t -> kept t u -> kept s u.
Proof. intros [A1 A2 A3 A4 A5 A6] [B1 B2 B3 B4 B5 B6]. split; [by eapply forward_trans|lia|done|done|tauto|by rewrite B6]. Qed.
Lemma kept_sound s t : sound s -> kept s t -> t.(Psr).(Level) <= XML_PARSER_NEST_LEVEL -> sound t.
Proof. intros (H1 & H2 & H3 & H4 & H5) [A1 A2 A3 A4 A5 A6] H. split; [apply A1|]. split; [lia|]. split; [done|]. split; [done|]. by rewrite H5. Qed.

(** Moving the parser. *)
Lemma kept_calm s P : sound s -> calm s.(Psr) P -> kept s (set_Psr s P) /\ sound (set_Psr s P).
Proof.
  intros Hs [H1 H2]. pose proof Hs as (K1 & K2 & K3 & K4 & K5). assert (kept s (set_Psr s P)) as HK by (split; cbn; [done|lia|done..]).
  split; [done|]. apply (kept_sound s); [done|done|cbn; lia].
Qed.

(** Releasing a node, with the return of NULL. *)
Lemma free_kept h0 N0 L0 p x : fresh h0 -> holds h0 N0 L0 p x ->
  exists h, XmlNodeFree h0 p = Ret h /\ h.(Nodes) = N0 /\ h.(Lists) = L0 /\ h.(RefLists) = h0.(RefLists) /\ h.(Documents) = h0.(Documents) /\ fresh h.
Proof.
  intros HF HH. exists (rest h0 N0 L0). rewrite (XmlNodeFree_holds _ _ _ _ _ HH). do 5 (split; [done|]).
  destruct HH as (N & L & _ & _ & _ & EN & EL). intros k Hk. destruct (HF k Hk) as (K1 & K2 & K3 & K4). rewrite EN in K1. rewrite EL in K2.
  apply lookup_union_None_1 in K1 as [_ K1]. by apply lookup_union_None_1 in K2 as [_ K2].
Qed.

Lemma refs_RefLists h h' R : h'.(RefLists) = h.(RefLists) -> refs_ok h M0 R -> refs_ok h' M0 R.
Proof. intros E. unfold refs_ok, table_ok. by rewrite E. Qed.

Lemma Discard_spec s N0 L0 p x : sound s -> holds s.(Mem) N0 L0 p x ->
  exists s', Discard s p = Ret (s', None) /\ kept s s' /\ gone s' N0 L0.
Proof.
  intros Hs HH. pose proof Hs as (K1 & K2 & K3 & K4 & K5). destruct (free_kept _ N0 L0 p x K3 HH) as (h & E & EN & EL & ER & ED & HF).
  unfold Discard. rewrite E, bind_ret. cbv beta. eexists. split; [done|]. split.
  - split; cbn [Psr Mem Refs set_Mem]; [by apply forward_refl|lia|done|by eapply refs_RefLists|done|done].
  - split; [done|]. split; [done|]. left. apply K2.
Qed.

Lemma tree_cut s s' N0 L0 p n kids level start : s'.(Mem).(Nodes) = s.(Mem).(Nodes) -> s'.(Mem).(Lists) = s.(Mem).(Lists) ->
  forward s.(Psr) s'.(Psr) -> tree_post s N0 L0 p n kids level start -> tree_post s' N0 L0 p n kids level start.
Proof.
  intros E1 E2 [_ _ HP HC] (H1 & H2 & H3 & H4 & H5). split; [by eapply holds_ext|]. split; [by eapply strings_cut|]. split; [|split; [done|lia]].
  eapply Forall_impl; [exact H3|]. intros x Hx. eapply all_nodes_impl; [|exact Hx]. intros m. by apply strings_cut.
Qed.

(** With other memory, in which the table of references is the same. *)
Lemma kept_mem s s' h : kept s s' -> fresh h -> h.(RefLists) = s'.(Mem).(RefLists) -> h.(Documents) = s'.(Mem).(Documents) -> kept s (set_Mem s' h).
Proof. intros [A1 A2 A3 A4 A5 A6] HF ER ED. split; cbn [Psr Mem Refs set_Mem]; [done..|by eapply refs_RefLists|done|by rewrite ED]. Qed.

(** A step of the loop over the children; [s] is the state at its start. *)
Definition loop_inv (s : parse) N0 L0 (p start : Z) (s1 : parse) : Prop :=
  kept s s1 /\ s1.(Psr).(Level) <= XML_PARSER_NEST_LEVEL /\ exists n kids, tree_post s1 N0 L0 p n kids (s.(Psr).(Level) - 1) start.

Lemma ChildStep_pushed s s1 s2 N0 L0 p start n kids c nc kc :
  sound s1 -> kept s s1 -> tree_post s1 N0 L0 p n kids (s.(Psr).(Level) - 1) start ->
  node_post s1 s2 (Some c) -> tree_post s2 s1.(Mem).(Nodes) s1.(Mem).(Lists) c nc kc s1.(Psr).(Level) s1.(Psr).(Position) ->
  exists h Pushed, XmlNodeChildPush s2.(Mem) p c = Ret (h, Pushed) /\
  if (Pushed : bool) then loop_inv s N0 L0 p start (set_Mem s2 h)
  else exists h1 h2, XmlNodeFree h p = Ret h1 /\ XmlNodeFree h1 c = Ret h2 /\ kept s (set_Mem s2 h2) /\ gone (set_Mem s2 h2) N0 L0.
Proof.
  intros Hs1 HK (T1 & T2 & T3 & T4 & T5) [HK2 (HL2 & HP2 & _)] (U1 & U2 & U3 & U4 & U5).
  pose proof (kept_trans _ _ _ HK HK2) as HK3. pose proof HK2 as [A1 A2 A3 A4 A5 A6].
  destruct (ChildPush_spec _ _ _ _ _ _ _ _ _ T1 U1 A3) as (h & Pushed & E & HF & ER & ED & HP). exists h, Pushed. split; [done|].
  destruct Pushed.
  - destruct HP as (l & HP). split; [by apply kept_mem|]. split; [done|]. exists (set_Children n l), (kids ++ [XNode nc kc]).
    pose proof (strings_cut _ _ _ _ (fw_cut _ _ A1) T2) as S2. split; [done|]. split; [exact S2|]. split.
    + apply Forall_app. split; [|apply Forall_singleton; by constructor]. eapply Forall_impl; [exact T3|]. intros x Hx. eapply all_nodes_impl; [|exact Hx].
      intros m. apply strings_cut. apply A1.
    + split; [|rewrite kids_size_snoc; change (xsize (XNode nc kc)) with (1 + kids_size kc); cbn [Psr set_Mem]; lia]. apply Forall_app. split; [done|]. constructor; [|done].
      pose proof (xheight_below nc kc (XML_PARSER_NEST_LEVEL - s1.(Psr).(Level))) as HH. destruct HK as [_ ? _ _ _ _]. specialize (HH ltac:(lia) U4). lia.
  - destruct HP as (EN & EL & _). pose proof (holds_ext _ h _ _ _ _ EN EL U1) as U1'.
    destruct (holds_swap _ _ _ _ _ _ _ _ T1 U1') as (N1 & L1 & W1 & W2).
    destruct (free_kept h N1 L1 p _ HF W1) as (h1 & E1 & EN1 & EL1 & ER1 & ED1 & HF1).
    destruct (free_kept h1 N0 L0 c _ HF1 (W2 h1 EN1 EL1)) as (h2 & E2 & EN2 & EL2 & ER2 & ED2 & HF2).
    exists h1, h2. do 2 (split; [done|]). split; [apply kept_mem; [done|done|by rewrite ER2, ER1|by rewrite ED2, ED1]|].
    split; [done|]. split; [done|]. left. exact HL2.
Qed.

Lemma ChildStep_spec F s N0 L0 p start s1 hc : node_parser s.(Psr).(Level) F -> sound s -> loop_inv s N0 L0 p start s1 ->
  exists x, ChildStep F p (s1, hc) = Ret x /\
  match x with
  | inl (s2, _) => loop_inv s N0 L0 p start s2 /\ s1.(Psr).(Position) < s2.(Psr).(Position)
  | inr (s2, Some _) => loop_inv s N0 L0 p start s2
  | inr (s2, None) => kept s s2 /\ gone s2 N0 L0
  end.
Proof.
  intros HR Hs HI. pose proof HI as (HK & HL & n & kids & HT). pose proof (kept_sound _ _ Hs HK HL) as Hs1. pose proof Hs1 as (P1 & _).
  unfold ChildStep. peek (Psr s1) 1. case_decide; [by eexists|].
  destruct (HR s1 Hs1) as (s2 & r & -> & HP); [apply HK|]. rewrite bind_ret. cbv beta iota. pose proof HP as [HK2 HM].
  assert (psr_ok s2.(Psr)) as P2 by apply HK2. destruct r as [c|].
  - destruct HM as (HL2 & HP2 & nc & kc & HU). destruct (ChildStep_pushed _ _ _ _ _ _ _ _ _ _ _ _ Hs1 HK HT HP HU) as (h & Pushed & -> & HQ).
    rewrite bind_ret. cbv beta iota. destruct Pushed; [by eexists|]. destruct HQ as (h1 & h2 & E1 & E2 & HQ).
    rewrite E1, bind_ret. cbv beta. rewrite E2, bind_ret. cbv beta. by eexists.
  - destruct HM as (EN & EL & HLP). peek (Psr s2) 0. rewrite Z.add_0_r. case_decide as HS.
    + eexists. split; [done|]. cbn. split; [by eapply kept_trans|]. split; [destruct HLP as [|HLP]; [done|]; by rewrite HS in HLP|].
      exists n, kids. eapply tree_cut; [exact EN|exact EL|apply (kept_psr _ _ HK2)|exact HT].
    + destruct HT as (T1 & _). pose proof (holds_ext _ s2.(Mem) _ _ _ _ EN EL T1) as T1'.
      destruct (free_kept _ N0 L0 p _ (kept_fresh _ _ HK2) T1') as (h & E & EN' & EL' & ER & ED & HF). rewrite E, bind_ret. cbv beta.
      eexists. split; [done|]. split; [|done]. apply kept_mem; [by eapply kept_trans|done..].
Qed.

Lemma ChildLoop_spec F s N0 L0 p start n : node_parser s.(Psr).(Level) F -> sound s -> tree_post s N0 L0 p n [] (s.(Psr).(Level) - 1) start ->
  exists s' r, while_ (bytes_fuel s.(Psr)) (ChildStep F p) (s, false) = Ret (s', r) /\
  match r with Some _ => loop_inv s N0 L0 p start s' | None => kept s s' /\ gone s' N0 L0 end.
Proof.
  intros HR Hs HT. pose proof Hs as (P1 & P2 & P3 & P4 & P5).
  oc_while (fun st : parse * bool => loop_inv s N0 L0 p start st.1) (fun st : parse * bool => Z.to_nat (s.(Psr).(Length) - st.1.(Psr).(Position)))
    (fun r : parse * option (bool * bool) => match r.2 with Some _ => loop_inv s N0 L0 p start r.1 | None => kept s r.1 /\ gone r.1 N0 L0 end) as r Hr.
  - intros [s1 hc] HI. destruct (ChildStep_spec F s N0 L0 p start s1 hc HR Hs HI) as (x & -> & Hx). eexists. split; [done|].
    destruct x as [[s2 hc']|[s2 [[]|]]]; [|done..]. destruct Hx as [Hx Hp]. split; [done|]. cbn. destruct Hx as ([[[? ? ?] EL ? ?] ? ? ? ? ?] & _). lia.
  - split; [by apply kept_refl|]. split; [apply P2|]. by exists n, [].
  - unfold bytes_fuel. cbn. destruct P1 as [? _ _]. lia.
  - destruct r as [s' r]. exists s', r. split; [done|exact Hr].
Qed.

Lemma holds_root h N0 L0 p n kids : holds h N0 L0 p (XNode n kids) -> h.(Nodes) !! p = Some n.
Proof.
  intros (N & L & Ho & _ & _ & EN & _). rewrite EN. destruct (owned_root _ _ _ _ Ho) as (n' & k' & [= <- <-] & E).
  by apply lookup_union_Some_l.
Qed.

Lemma holds_update h N0 L0 p n n' : n.(Children) = None -> n'.(Children) = None -> holds h N0 L0 p (XNode n []) ->
  holds (set_Nodes h (<[p := n']> h.(Nodes))) N0 L0 p (XNode n' []).
Proof.
  intros HC HC' (N & L & Ho & HN & HL & EN & EL). destruct (owned_inv _ _ _ _ _ Ho) as (ps & Nk & Lk & _ & _ & -> & HM).
  rewrite HC in HM. destruct HM as (_ & _ & -> & _ & ->). rewrite insert_empty in *. exists {[p := n']}, ∅. split; [by apply owned_leaf|].
  split; [by apply map_disjoint_singleton_l; apply map_disjoint_singleton_l in HN|]. split; [done|]. split; [|done].
  cbn. rewrite EN. rewrite <- !insert_empty. by rewrite insert_top.
Qed.

(** The number of a reference comes with a table. *)
Definition number_ok (s : parse) (Number : option Z) : Prop := forall k, Number = Some k -> 0 <= k /\ s.(Refs) <> None.

Lemma Content_body_spec p start Attrs s N0 L0 n P r :
  sound s -> tree_post s N0 L0 p n [] s.(Psr).(Level) start -> n.(Children) = None -> attrs_ok s.(Psr).(Buffer) Attrs ->
  calm s.(Psr) P -> match r with None => True | Some o => terminated P.(Buffer) o end ->
  let s' := Parse P s.(Refs) (set_Nodes s.(Mem) (<[p := set_Content n (At <$> r)]> s.(Mem).(Nodes))) in
  kept s s' /\ sound s' /\ tree_post s' N0 L0 p (set_Content n (At <$> r)) [] s.(Psr).(Level) start.
Proof.
  intros Hs (T1 & T2 & _ & _ & T5) HC HA HP Hr s'. pose proof Hs as (P1 & P2 & P3 & P4 & P5). destruct HP as [HP1 HP2].
  pose proof (holds_root _ _ _ _ _ _ T1) as ER.
  assert (kept s s') as HK.
  { split; cbn [Psr Mem Refs s']; [done|lia| |done|done|done]. intros k Hk. cbn in Hk |- *. destruct (P3 k Hk) as (K1 & K2 & K3 & K4).
    rewrite lookup_insert_ne; [done|]. intros <-. by rewrite ER in K1. }
  split; [done|]. split; [apply (kept_sound s); [done|done|cbn; lia]|].
  split; [by apply (holds_update _ _ _ _ n)|]. split; [|split; [constructor|split; [constructor|destruct HP1 as [_ _ ? _]; cbn [Psr s']; lia]]].
  destruct (strings_cut _ _ _ _ (fw_cut _ _ HP1) T2) as (A1 & A2 & A3 & A4). split; [done|]. split; [done|]. split; [by destruct r|done].
Qed.

Lemma ParseBody_spec F p start Attrs s N0 L0 n :
  node_parser (s.(Psr).(Level) + 1) F -> sound s -> tree_post s N0 L0 p n [] s.(Psr).(Level) start -> n.(Children) = None -> attrs_ok s.(Psr).(Buffer) Attrs ->
  exists s' r, ParseBody F p Attrs s = Ret (s', r) /\ kept s s' /\
  match r with
  | None => gone s' N0 L0
  | Some (_, Number) => s'.(Psr).(Level) <= XML_PARSER_NEST_LEVEL /\ number_ok s' Number /\ exists n' kids, tree_post s' N0 L0 p n' kids s.(Psr).(Level) start
  end.
Proof.
  intros HR Hs HT HC HA. pose proof Hs as (P1 & P2 & P3 & P4 & P5). unfold XML_PARSER_NEST_LEVEL in P2.
  unfold ParseBody. peek (Psr s) 0. rewrite Z.add_0_r. destruct (decide (look (Psr s) (Position (Psr s)) <> LT)) as [Hlt|Hlt].
  - destruct (Content_spec _ P1) as (P & r & -> & HP & Hr). rewrite bind_ret. cbv beta iota.
    destruct (Content_body_spec p start Attrs s N0 L0 n P r Hs HT HC HA HP Hr) as (HK & Hs' & HT').
    rewrite (deref_some _ p n) by (destruct HT as [T1 _]; by eapply holds_root). rewrite bind_ret. cbv beta zeta.
    set (s' := Parse P _ _) in *. destruct r as [o|].
    + destruct (OwnReference_spec s' Attrs) as (k & -> & Hk); [eapply attrs_cut; [|exact HA]; apply HK|]. rewrite bind_ret. cbv beta.
      eexists _, _. split; [done|]. split; [done|]. split; [apply Hs'|]. split; [exact Hk|]. by eexists _, _.
    + destruct HT' as (T1 & _). destruct (free_kept s'.(Mem) N0 L0 p _ (kept_fresh _ _ HK) T1) as (h & -> & EN & EL & ER & ED & HF). rewrite bind_ret. cbv beta.
      eexists _, _. split; [done|]. split; [by apply kept_mem|]. split; [done|]. split; [done|]. left. apply Hs'.
  - apply dec_stable in Hlt. set (P := set_Level _ _). set (s1 := set_Psr s P).
    assert (kept s s1) as HK by (split; cbn; [split; [by destruct P1|done|cbn; lia|done]|rewrite wrap_small by lia; lia|done..]).
    cbv zeta. destruct (decide (XML_PARSER_NEST_LEVEL < Level P)) as [Hd|Hd].
    + destruct HT as (T1 & _). destruct (free_kept s1.(Mem) N0 L0 p _ P3 T1) as (h & E & EN & EL & ER & ED & HF). rewrite E, bind_ret. cbv beta.
      eexists _, _. split; [done|]. split; [by apply kept_mem|]. split; [done|]. split; [done|]. right. exact Hlt.
    + apply Z.nlt_ge in Hd. pose proof (kept_sound _ _ Hs HK Hd) as Hs1.
      assert (s1.(Psr).(Level) = s.(Psr).(Level) + 1) as EL1 by (cbn; rewrite wrap_small by lia; done).
      change (bytes_fuel P) with (bytes_fuel (Psr s1)).
      destruct (ChildLoop_spec F s1 N0 L0 p start n) as (s' & r & -> & Hr); [by rewrite EL1|done|by rewrite EL1, Z.add_simpl_r|].
      rewrite bind_ret. cbv beta iota. destruct r as [[hc un]|]; [|eexists _, _; split; [done|]; split; [by eapply kept_trans; [|apply Hr]|apply Hr]].
      destruct Hr as (HK' & HL' & n' & kids & HT'). rewrite EL1, Z.add_simpl_r in HT'. pose proof (kept_trans _ _ _ HK HK') as HK2.
      pose proof HK' as [A1 A2 A3 A4 A5 A6]. rewrite EL1 in A2. unfold XML_PARSER_NEST_LEVEL in HL'.
      set (s2 := set_Psr s' _). assert (s2.(Psr).(Level) = s'.(Psr).(Level) - 1) as EL2 by (cbn; rewrite wrap_small by lia; done).
      assert (kept s s2) as HK3.
      { destruct HK2 as [[[B1 B2 B2'] B3 B4 B5] B6 B7 B8 B9 B10]. split; [by split; [split|..]|rewrite EL2; lia|done..]. }
      assert (exists k, (if hc then Ret None else OwnReference s2 Attrs) = Ret k /\ number_ok s2 k) as (k & -> & Hk).
      { destruct hc; [by eexists|]. apply OwnReference_spec. eapply attrs_cut; [|exact HA]. apply HK3. }
      rewrite bind_ret. cbv beta. eexists _, _. split; [done|]. split; [done|]. split; [rewrite EL2; unfold XML_PARSER_NEST_LEVEL; lia|]. split; [done|].
      by exists n', kids.
Qed.

Lemma ParseClose_spec p start o Unprefixed Number s N0 L0 n kids level :
  sound s -> tree_post s N0 L0 p n kids level start -> terminated s.(Psr).(Buffer) o -> number_ok s Number ->
  exists s' r, ParseClose p o Unprefixed Number s = Ret (s', r) /\ kept s s' /\
  match r with None => gone s' N0 L0 | Some q => q = p /\ s'.(Psr).(Level) <= XML_PARSER_NEST_LEVEL /\ tree_post s' N0 L0 p n kids level start end.
Proof.
  intros Hs HT Ho HN. pose proof Hs as (P1 & P2 & P3 & P4 & P5). unfold ParseClose.
  destruct (TagClose_spec _ Unprefixed P1) as (P & Tag & -> & HP & HTag). rewrite bind_ret. cbv beta iota zeta.
  destruct (kept_calm s P Hs HP) as [HK Hs1]. set (s1 := set_Psr s P) in *.
  pose proof (tree_cut s s1 _ _ _ _ _ _ _ eq_refl eq_refl (kept_psr _ _ HK) HT) as HT1. pose proof HT1 as (T1 & _).
  assert (forall s2, sound s2 -> kept s s2 -> holds s2.(Mem) N0 L0 p (XNode n kids) ->
    exists s' r, Discard s2 p = Ret (s', r) /\ kept s s' /\
    match r with None => gone s' N0 L0 | Some q => q = p /\ s'.(Psr).(Level) <= XML_PARSER_NEST_LEVEL /\ tree_post s' N0 L0 p n kids level start end) as HD.
  { intros s2 Hs2 HK2 T2. destruct (Discard_spec s2 N0 L0 p _ Hs2 T2) as (s' & -> & HK' & HG). eexists _, None. split; [done|].
    split; [by eapply kept_trans|done]. }
  destruct Tag as [c|]; [|by apply HD].
  destruct (terminated_string P.(Buffer) o) as [t1 ->]; [eapply terminated_cut; [|exact Ho]; apply HP|].
  destruct (terminated_string _ _ HTag) as [t2 ->]. rewrite !bind_ret. cbv beta. case_decide; [by apply HD|].
  assert (exists s' r, Ret (s1, Some p) = Ret (s', r) /\ kept s s' /\
    match r with None => gone s' N0 L0 | Some q => q = p /\ s'.(Psr).(Level) <= XML_PARSER_NEST_LEVEL /\ tree_post s' N0 L0 p n kids level start end) as HS.
  { eexists _, (Some p). split; [done|]. split; [done|]. split; [done|]. split; [apply Hs1|done]. }
  destruct Number as [k|]; [|exact HS]. destruct (Refs s1) as [R|] eqn:ER; [|exact HS]. destruct (HN k eq_refl) as [Hk _].
  pose proof (kept_refs _ _ HK) as HR. rewrite ER in HR.
  destruct (PushReference_spec s1.(Mem) M0 R p k) as (h & R' & Pushed & -> & HF & HTb & EN & EL & ED); [apply HK|done|done|].
  rewrite bind_ret. cbv beta iota zeta. set (s2 := Parse _ _ _).
  assert (kept s s2) as HK2.
  { destruct HK as [B1 B2 B3 B4 B5 B6]. split; [done|done|done|done| |by rewrite <- B6]. split; [done|]. intros E. by rewrite (proj2 B5 E) in ER. }
  pose proof (kept_sound s s2 Hs HK2 ltac:(apply Hs1)) as Hs2. pose proof (tree_cut s1 s2 _ _ _ _ _ _ _ EN EL (forward_refl _ (calm_ok _ _ HP)) HT1) as HT2.
  destruct Pushed; [|apply HD; [done|done|by destruct HT2]].
  eexists _, (Some p). split; [done|]. split; [done|]. split; [done|]. split; [apply Hs2|done].
Qed.

Lemma XmlParseNode_spec depth : node_parser (XML_PARSER_NEST_LEVEL + 1 - Z.of_nat depth) (XmlParseNode depth).
Proof.
  induction depth as [|depth IH]; intros s Hs HL; [destruct Hs as (_ & ? & _); lia|]. pose proof Hs as (P1 & P2 & P3 & P4 & P5).
  cbn [XmlParseNode]. destruct (TagOpen_spec s.(Psr) (Some false) (Some None) P1) as ([[P out] Tag] & -> & HC & HTag).
  rewrite bind_ret. cbv beta iota zeta. destruct (kept_calm s P Hs HC) as [HK Hs1].
  destruct Tag as [o|]; [|by eexists _, None; split; [done|]; split; [done|]; split; [done|]; split; [done|]; left; apply Hs1].
  destruct HTag as (Hadv & Ho & Ha). set (Attrs := At <$> default None out.2).
  destruct (SkipWhitespace_moved P (calm_ok _ _ HC)) as (P' & -> & HM). rewrite bind_ret. cbv beta zeta.
  pose proof (moved_calm _ _ (calm_ok _ _ HC) HM) as HC'. pose proof (calm_trans _ _ _ HC HC') as HC2.
  destruct (kept_calm s P' Hs HC2) as [HK2 Hs2]. change (set_Psr (set_Psr s P) P') with (set_Psr s P').
  assert (attrs_ok P'.(Buffer) Attrs) as HA.
  { unfold Attrs. destruct Ha as [->|(a & -> & Ha)]; [done|]. cbn. eapply terminated_cut; [|exact Ha]. apply HC'. }
  assert (terminated P'.(Buffer) o) as Ho' by (eapply terminated_cut; [|exact Ho]; apply HC').
  destruct (NodeReal_spec s.(Mem) M0 P'.(Buffer) s.(Refs) Attrs P4 HA) as (Target & HReal). cbn [Mem Refs set_Psr]. rewrite HReal, bind_ret. cbv beta.
  set (n := Node (At o) Attrs None Target None).
  assert (node_ok WithRefs P'.(Buffer) n) as Hn.
  { split; [done|]. split; [done|]. split; [done|]. intros EW. apply P5 in EW. unfold XmlNodeReal in HReal. rewrite EW in HReal. by injection HReal as <-. }
  destruct (NodeCreate_spec s.(Mem) n P3 eq_refl) as (h & r & -> & HF & ER & ED & Hr). cbv beta iota.
  set (s3 := set_Mem (set_Psr s P') h). assert (kept s s3) as HK3 by by apply kept_mem.
  assert (sound s3) as Hs3 by (apply (kept_sound s); [done|done|apply Hs2]).
  assert (s3.(Psr).(Level) = s.(Psr).(Level)) as EL3 by apply HC2.
  assert (s.(Psr).(Position) < s3.(Psr).(Position)) as Hadv3 by (destruct HC' as [[_ _ ? _] _]; cbn; lia).
  destruct r as [p|]; [|destruct Hr as (EN & EL & _); eexists _, None; split; [done|]; split; [done|]; split; [done|]; split; [done|]; left; apply Hs3].
  assert (tree_post s3 s.(Mem).(Nodes) s.(Mem).(Lists) p n [] s.(Psr).(Level) s.(Psr).(Position)) as HT
    by (split; [done|]; split; [exact Hn|]; split; [constructor|]; split; [constructor|cbn [kids_size foldr]; lia]).
  destruct (default false out.1).
  { eexists _, (Some p). split; [done|]. split; [done|]. split; [apply Hs3|]. split; [done|]. by exists n, []. }
  destruct (ParseBody_spec (XmlParseNode depth) p s.(Psr).(Position) Attrs s3 s.(Mem).(Nodes) s.(Mem).(Lists) n) as (s4 & Body & -> & HK4 & HB);
    [|done|by rewrite EL3|done|done|].
  { intros t Ht HLt. apply IH; [done|]. rewrite EL3 in HLt. lia. }
  rewrite bind_ret. cbv beta iota. pose proof (kept_trans _ _ _ HK3 HK4) as HK5. destruct Body as [[Unprefixed Number]|]; [|by eexists _, None].
  destruct HB as (HL4 & HN4 & n' & kids & HT4). rewrite EL3 in HT4. pose proof (kept_sound _ _ Hs HK5 HL4) as Hs4.
  destruct (ParseClose_spec p _ o Unprefixed Number s4 _ _ _ _ _ Hs4 HT4) as (s5 & r & -> & HK6 & HR); [eapply terminated_cut; [|exact Ho']; apply HK4|done|].
  pose proof (kept_trans _ _ _ HK5 HK6) as HK7. eexists _, _. split; [done|]. split; [done|]. destruct r as [q|]; [|done].
  destruct HR as (-> & HL5 & HT5). split; [done|]. split; [|by eexists _, _].
  destruct HK4 as [[_ _ ? _] _ _ _ _ _], HK6 as [[_ _ ? _] _ _ _ _ _]. lia.
Qed.

End Parse_node.

(** ** Documents *)

(** The blocks of [h] are those of [h0]. *)
Definition same_blocks (h0 h : heap) : Prop :=
  h.(Nodes) = h0.(Nodes) /\ h.(Lists) = h0.(Lists) /\ h.(RefLists) = h0.(RefLists) /\ h.(Documents) = h0.(Documents).

(** A document in memory: a tree of bounded depth and not more nodes than bytes,
    whose strings are terminated inside of the buffer. *)
Record document_ok (WithRefs : bool) (h : heap) (d : Z) (doc : XML_DOCUMENT) (x : xnode) : Prop := DocumentOk {
  doc_live : h.(Documents) !! d = Some doc;
  doc_tree : exists N0 L0, holds h N0 L0 doc.(Root) x;
  doc_strings : all_nodes (node_ok WithRefs doc.(DocBuffer)) x;
  doc_depth : xheight x <= XML_PARSER_NEST_LEVEL;
  doc_size : xsize x <= doc.(DocLength)
}.

Section Documents.
Context `{HPool : XmlPool} `{HLib : AsciiLib} {HLaws : AsciiLibLaws HLib}.

Lemma FreeRefs_spec h M0 R : table_ok h M0 R -> exists h' R', XmlFreeRefs h R = Ret (h', R')
  /\ h'.(Nodes) = h.(Nodes) /\ h'.(Lists) = h.(Lists) /\ h'.(RefLists) = M0 /\ h'.(Documents) = h.(Documents).
Proof.
  intros (_ & _ & HM). unfold XmlFreeRefs. destruct (RefList R) as [r|]; [|by eexists _, _; destruct HM].
  destruct HM as (Hr & cells & _ & EM). rewrite EM, (release_some _ r cells) by by simplify_map_eq. rewrite bind_ret. cbv beta.
  eexists _, _. split; [done|]. cbn. by rewrite delete_insert_id.
Qed.

(** With or without references, the table that the document gets. *)
Lemma default_table s M0 : refs_ok s.(Mem) M0 s.(Refs) -> table_ok s.(Mem) M0 (default (RefList_ 0 0 None) s.(Refs)).
Proof. destruct (Refs s); [done|]. intros H. cbn. split; [done|]. split; [done|]. by split. Qed.

Lemma table_RefLists h h' M0 R : h'.(RefLists) = h.(RefLists) -> table_ok h M0 R -> table_ok h' M0 R.
Proof. intros E. unfold table_ok. by rewrite E. Qed.

Lemma DocumentFree_spec WithRefs h d doc x N0 L0 M0 D0 :
  document_ok WithRefs h d doc x -> holds h N0 L0 doc.(Root) x -> fresh h -> table_ok h M0 doc.(References) ->
  h.(Documents) = <[d := doc]> D0 -> D0 !! d = None ->
  exists h', XmlDocumentFree h d = Ret h' /\ h'.(Nodes) = N0 /\ h'.(Lists) = L0 /\ h'.(RefLists) = M0 /\ h'.(Documents) = D0.
Proof.
  intros [H1 _ _ _ _] HH HF HT ED HD. unfold XmlDocumentFree. rewrite (deref_some _ d doc H1), bind_ret. cbv beta.
  destruct (free_kept h N0 L0 _ _ HF HH) as (h1 & -> & EN1 & EL1 & ER1 & ED1 & HF1). rewrite bind_ret. cbv beta.
  destruct (FreeRefs_spec h1 M0 _ (table_RefLists _ _ _ _ ER1 HT)) as (h2 & R' & -> & EN2 & EL2 & ER2 & ED2). rewrite bind_ret. cbv beta iota.
  rewrite (release_some _ d doc) by (by rewrite ED2, ED1). rewrite bind_ret. cbv beta. eexists. split; [done|]. cbn.
  split; [by rewrite EN2|]. split; [by rewrite EL2|]. split; [done|]. rewrite ED2, ED1, ED. by rewrite delete_insert_id.
Qed.

Lemma DocumentParse_spec h Buffer Length WithRefs :
  fresh h -> 0 <= Length <= Z.of_nat (length Buffer) ->
  exists h' b d, XmlDocumentParse h Buffer Length WithRefs = Ret (h', b, d) /\ cut Buffer b /\
  match d with
  | None => h'.(Nodes) = h.(Nodes) /\ h'.(Lists) = h.(Lists) /\ h'.(Documents) = h.(Documents) /\ (WithRefs = false -> same_blocks h h')
  | Some d => exists doc x, document_ok WithRefs h' d doc x /\ doc.(DocBuffer) = b /\ doc.(DocLength) = Length /\ fresh h'
                            /\ forall h1, same_blocks h' h1 -> fresh h1 -> exists h'', XmlDocumentFree h1 d = Ret h'' /\ same_blocks h h''
  end.
Proof.
  intros HF HL. unfold XmlDocumentParse. destruct (decide (Length = 0 \/ XML_PARSER_MAX_SIZE < Length)) as [Hd|Hd].
  { eexists _, _, _. split; [done|]. by split; [|do 3 (split; [done|])]. }
  cbv zeta. set (s := Parse _ _ _).
  assert (sound WithRefs h.(RefLists) s) as Hs.
  { split; [split; cbn; lia|]. split; [cbn; unfold XML_PARSER_NEST_LEVEL; lia|]. split; [done|]. destruct WithRefs; [|done].
    split; [|done]. split; [done|]. split; [done|]. by split. }
  destruct (XmlParseNode_spec WithRefs h.(RefLists) nest_fuel s Hs) as (s' & r & -> & HK & HR); [done|]. rewrite bind_ret. cbv beta iota zeta.
  pose proof HK as [A1 A2 A3 A4 A5 A6]. pose proof (default_table _ _ A4) as HT. set (R := default _ _) in *.
  destruct r as [p|].
  - destruct HR as (_ & _ & n & kids & T1 & T2 & T3 & T4 & T5). destruct (Allocate _ _).
    + destruct (A3 s'.(Mem).(Requests) ltac:(lia)) as (F1 & F2 & F3 & F4). set (d := Requests (Mem s')) in *. set (doc := Document _ _ _ _).
      set (h' := tick _). assert (document_ok WithRefs h' d doc (XNode n kids)) as HD.
      { split; [by cbn; rewrite lookup_insert_eq|exists h.(Nodes), h.(Lists); by eapply holds_ext; [..|exact T1]|by constructor| |].
        - apply xheight_below; [unfold XML_PARSER_NEST_LEVEL; lia|]. exact T4.
        - destruct A1 as [[HPos _ _] HLen _ _]. cbn [Psr s Position Xml.Length DocLength doc] in *. change (xsize (XNode n kids)) with (1 + kids_size kids). lia. }
      change (Documents (Mem s)) with (Documents h) in A6. rewrite A6 in F4.
      eexists _, _, _. split; [done|]. split; [apply A1|]. exists doc, (XNode n kids). do 3 (split; [done|]). split.
      { intros k Hk. cbn in Hk |- *. fold d in Hk. destruct (A3 k ltac:(fold d; lia)) as (K1 & K2 & K3 & K4). do 3 (split; [done|]). by rewrite lookup_insert_ne by lia. }
      intros h1 (S1 & S2 & S3 & S4) HF1. assert (holds h1 h.(Nodes) h.(Lists) p (XNode n kids)) as HH1 by (eapply holds_ext; [..|exact T1]; [by rewrite S1|by rewrite S2]).
      destruct (DocumentFree_spec WithRefs h1 d doc (XNode n kids) h.(Nodes) h.(Lists) h.(RefLists) h.(Documents)) as (h'' & E & E1 & E2 & E3 & E4);
        [|done|done|eapply table_RefLists; [|exact HT]; by rewrite S3|by rewrite S4; cbn; rewrite A6|exact F4|by exists h''].
      destruct HD as [D1 D2 D3 D4 D5]. split; [by rewrite S4|by exists h.(Nodes), h.(Lists)|done..].
    + destruct (free_kept (tick s'.(Mem)) h.(Nodes) h.(Lists) p (XNode n kids)) as (h1 & -> & EN1 & EL1 & ER1 & ED1 & _); [by apply fresh_tick|by eapply holds_ext; [..|exact T1]|].
      rewrite bind_ret. cbv beta. destruct (FreeRefs_spec h1 h.(RefLists) R) as (h2 & R' & -> & EN2 & EL2 & ER2 & ED2); [by eapply table_RefLists; [|exact HT]|].
      rewrite bind_ret. cbv beta iota. eexists _, _, _. split; [done|]. split; [apply A1|].
      assert (same_blocks h h2) as HS by (split; [by rewrite EN2|]; split; [by rewrite EL2|]; split; [done|]; by rewrite ED2, ED1).
      pose proof HS as (S1 & S2 & S3 & S4). done.
  - destruct HR as (EN & EL & _). eexists _, _, _. split; [done|]. split; [apply A1|]. split; [done|]. split; [done|]. split; [done|].
    intros ->. split; [done|]. split; [done|]. split; [|done]. destruct Hs as (_ & _ & _ & _ & Hnull). rewrite (proj2 A5 (proj1 Hnull eq_refl)) in A4. exact A4.
Qed.

(** C5: For any bytes and any pool, parsing returns and stays inside of the buffer. A
    document that it yields is well formed, and its release gives back every block;
    without a document nothing is left allocated, but for the table of references. *)
Theorem XmlDocumentParse_safe h Buffer Length WithRefs :
  fresh h -> 0 <= Length <= Z.of_nat (length Buffer) ->
  exists h' b d, XmlDocumentParse h Buffer Length WithRefs = Ret (h', b, d) /\ cut Buffer b /\
  match d with
  | None => h'.(Nodes) = h.(Nodes) /\ h'.(Lists) = h.(Lists) /\ h'.(Documents) = h.(Documents) /\ (WithRefs = false -> same_blocks h h')
  | Some d => exists doc x h'', document_ok WithRefs h' d doc x /\ doc.(DocBuffer) = b /\ doc.(DocLength) = Length
                              /\ XmlDocumentFree h' d = Ret h'' /\ same_blocks h h''
  end.
Proof.
  intros HF HL. destruct (DocumentParse_spec h Buffer Length WithRefs HF HL) as (h' & b & d & E & HC & HD). exists h', b, d. do 2 (split; [done|]).
  destruct d as [d|]; [|done]. destruct HD as (doc & x & D1 & D2 & D3 & D4 & D5). destruct (D5 h') as (h'' & E' & HS); [done|done|]. by exists doc, x, h''.
Qed.

End Documents.

(** ** Export: the tree in concrete syntax *)

(** Elements with their strings. *)
Inductive xml : Set := Elem (name : list Z) (attrs text : option (list Z)) (children : option (list xml)).

(** The text of an element; the first [Skip] levels are left out. *)
Fixpoint render (Skip : Z) (t : xml) : list Z :=
  match t with
  | Elem name attrs text children =>
      let inner (Skip : Z) := match children with Some ts => concat (map (render Skip) ts) | None => [] end in
      if decide (Skip <> 0) then inner (Skip - 1) else
      str "<" ++ name ++ match attrs with Some a => str " " ++ a | None => [] end ++
      match children, text with
      | Some _, _ => str ">" ++ inner 0 ++ str "</" ++ name ++ str ">"
      | None, Some s => str ">" ++ s ++ str "</" ++ name ++ str ">"
      | None, None => str "/>"
      end
  end.

Definition opt_string (b : list Z) (c : option chars) (s : option (list Z)) : Prop :=
  match c, s with Some c, Some s => AsciiStr b c = Ret s | None, None => True | _, _ => False end.

(** The element that a node stands for. *)
Inductive reads (b : list Z) : xnode -> xml -> Prop :=
| reads_leaf n name attrs text : AsciiStr b n.(Name) = Ret name -> opt_string b n.(Attributes) attrs -> opt_string b n.(Content) text ->
    n.(Children) = None -> reads b (XNode n []) (Elem name attrs text None)
| reads_kids n l kids name attrs text ts : AsciiStr b n.(Name) = Ret name -> opt_string b n.(Attributes) attrs -> opt_string b n.(Content) text ->
    n.(Children) = Some l -> Forall2 (reads b) kids ts -> reads b (XNode n kids) (Elem name attrs text (Some ts)).

(** Room for all sizes that a buffer can take. *)
Definition EXPORT_LIMIT : Z := 2 ^ 31 - 4096.

Record export_ok (e : export) (out : list Z) : Prop := ExportOk {
  ex_out : take (length out) e.(Out) = out;
  ex_current : e.(CurrentSize) = Z.of_nat (length out);
  ex_spare : e.(CurrentSize) < e.(AllocSize);
  ex_alloc : e.(AllocSize) = Z.of_nat (length e.(Out));
  ex_width : e.(AllocSize) < 2 ^ 32
}.

Lemma take_slice {A} (l : list A) n : take n l = slice l 0 (Z.of_nat n).
Proof. unfold slice. by rewrite Nat2Z.id. Qed.

(** Writing [data] behind [out]. *)
Lemma append_out {A} (b out data : list A) : (length out + length data <= length b)%nat -> take (length out) b = out ->
  take (length out + length data) (list_inserts (length out) data b) = out ++ data.
Proof.
  intros HL HT. apply list_eq. intros i. destruct (decide (i < length out + length data)%nat) as [Hi|Hi].
  - rewrite lookup_take_lt by done. rewrite lookup_inserts by done. destruct (decide (i < length out)%nat).
    + rewrite decide_False by lia. rewrite lookup_app_l by done. rewrite <- (lookup_take_lt b (length out)) by done. by rewrite HT.
    + rewrite decide_True by lia. by rewrite lookup_app_r by lia.
  - rewrite lookup_take_ge by lia. symmetry. apply lookup_ge_None. rewrite length_app. lia.
Qed.

Section Export.
Context `{HPool : XmlPool} {HPoolLaws : XmlPoolLaws HPool}.

(** The result of appending [data]: all of it, if every request is met. *)
Definition appended (e : export) (out data : list Z) (e' : export) : Prop :=
  exists out', export_ok e' out' /\ (length out' <= length out + length data)%nat /\ (all_met -> out' = out ++ data).

Lemma AppendAll_spec e out data : export_ok e out -> Z.of_nat (length out + length data) <= EXPORT_LIMIT ->
  exists e', AppendAll e data = Ret e' /\ appended e out data e'.
Proof.
  intros [H1 H2 H3 H4 H5] HL. unfold EXPORT_LIMIT in HL. unfold AppendAll, XmlBufferAppend. rewrite (wrap_small 32 (Z.of_nat (length data))) by lia.
  assert (forall b size k, Z.of_nat (length b) = size -> take (length out) b = out -> Z.of_nat (length out + length data) < size -> size < 2 ^ 32 ->
    exists e', (b' ← CopyMem b (CurrentSize e) data 0 (Z.of_nat (length data));
      Ret (Export b' size (CurrentSize e +[32] Z.of_nat (length data)) k)) = Ret e' /\ appended e out data e') as Write.
  { intros b size k Hb Ho Hs Hw. rewrite CopyMem_in by lia. rewrite bind_ret. cbv beta. rewrite H2, Nat2Z.id.
    rewrite <- take_slice, firstn_all. rewrite wrap_small by lia. eexists. split; [done|]. exists (out ++ data).
    split; [|split; [by rewrite length_app|done]]. split; cbn [Out AllocSize CurrentSize]; rewrite ?length_app, ?length_inserts; try lia. apply append_out; [lia|done]. }
  rewrite (wrap_small 32 (AllocSize e - CurrentSize e)) by lia. destruct (decide (AllocSize e - CurrentSize e <= Z.of_nat (length data))) as [Hd|Hd].
  - set (NewSize := if decide _ then _ else _).
    assert (Z.of_nat (length out + length data) < NewSize < 2 ^ 32 /\ CurrentSize e <= NewSize) as [HN HN'].
    { unfold NewSize, XML_EXPORT_MIN_ALLOCATION_SIZE. rewrite !(wrap_small 32 (Z.of_nat (length data) + 1)) by lia. case_decide; rewrite wrap_small by lia; lia. }
    cbv zeta. destruct (Allocate (Asked e) NewSize) as [b|] eqn:EA.
    + apply Allocate_length in EA; [|lia]. rewrite CopyMem_in by lia. rewrite !bind_ret. cbv beta iota. cbn [Out AllocSize CurrentSize Asked].
      apply Write; [by rewrite length_inserts| |lia|lia]. rewrite H2, <- take_slice, H1. change (Z.to_nat 0) with 0%nat.
      pose proof (append_out b [] out) as K. cbn [length app] in K. apply K; [lia|done].
    + rewrite !bind_ret. cbv beta iota. eexists. split; [done|]. exists out. split; [by split|]. split; [lia|]. intros HM. by destruct (HM (Asked e) NewSize).
  - rewrite bind_ret. cbv beta iota. apply Write; [done|done|lia|done].
Qed.

(** Appending one piece after the other. *)
Lemma appended_bind e out d1 d2 (f : export -> outcome export) m :
  (exists e1, m = Ret e1 /\ appended e out d1 e1) -> Z.of_nat (length out + length (d1 ++ d2)) <= EXPORT_LIMIT ->
  (forall e1 out1, export_ok e1 out1 -> Z.of_nat (length out1 + length d2) <= EXPORT_LIMIT -> exists e2, f e1 = Ret e2 /\ appended e1 out1 d2 e2) ->
  exists e2, (m ≫= f) = Ret e2 /\ appended e out (d1 ++ d2) e2.
Proof.
  intros (e1 & -> & out1 & H1 & H2 & H3) HL Hf. rewrite length_app in HL. destruct (Hf e1 out1 H1) as (e2 & E & out2 & K1 & K2 & K3); [lia|].
  rewrite bind_ret. exists e2. split; [done|]. exists out2. split; [done|]. rewrite length_app. split; [lia|].
  intros HM. rewrite (K3 HM), (H3 HM). by rewrite <- app_assoc.
Qed.

Lemma appended_none e out : export_ok e out -> exists e', Ret e = Ret e' /\ appended e out [] e'.
Proof. intros H. exists e. split; [done|]. exists out. split; [done|]. split; [lia|]. intros _. by rewrite app_nil_r. Qed.

Lemma append_then e out d1 d2 (f : export -> outcome export) :
  export_ok e out -> Z.of_nat (length out + length (d1 ++ d2)) <= EXPORT_LIMIT ->
  (forall e1 out1, export_ok e1 out1 -> Z.of_nat (length out1 + length d2) <= EXPORT_LIMIT -> exists e2, f e1 = Ret e2 /\ appended e1 out1 d2 e2) ->
  exists e2, (AppendAll e d1 ≫= f) = Ret e2 /\ appended e out (d1 ++ d2) e2.
Proof. intros He HL Hf. apply appended_bind; [|done|done]. apply AppendAll_spec; [done|]. rewrite length_app in HL. lia. Qed.

(** Everything but the children of an element; [inner] prints those. *)
Lemma export_element h b p n name attrs text (ts : option (list xml)) fuel e out inner :
  h.(Nodes) !! p = Some n -> AsciiStr b n.(Name) = Ret name -> opt_string b n.(Attributes) attrs -> opt_string b n.(Content) text ->
  export_ok e out -> Z.of_nat (length out + length (render 0 (Elem name attrs text ts))) <= EXPORT_LIMIT ->
  match n.(Children), ts with
  | None, None => True
  | Some l, Some ts => exists c, h.(Lists) !! l = Some c /\
      inner = (for_ (length c.(NodeList)) 0 (fun Index e => Child ← rd c.(NodeList) Index; NodeExport fuel h b Child e 0)) /\
      forall e out, export_ok e out -> Z.of_nat (length out + length (concat (map (render 0) ts))) <= EXPORT_LIMIT ->
        exists e', inner e = Ret e' /\ appended e out (concat (map (render 0) ts)) e'
  | _, _ => False
  end ->
  exists e', NodeExport (S fuel) h b p e 0 = Ret e' /\ appended e out (render 0 (Elem name attrs text ts)) e'.
Proof.
  intros Hp Hn Ha Ht He HL HC. cbn [NodeExport]. rewrite (deref_some _ p n Hp), bind_ret. cbv beta zeta. rewrite decide_False by tauto.
  rewrite Hn, bind_ret. cbv beta. cbn [render] in *. rewrite decide_False in * by tauto.
  apply append_then; [done..|]. clear e out He HL. intros e out He HL. apply append_then; [done..|]. clear e out He HL. intros e out He HL.
  apply appended_bind; [|done|].
  { destruct (Attributes n) as [a|], attrs as [s|]; try done; [|by apply appended_none]. rewrite length_app in HL.
    apply append_then; [done|lia|]. clear e out He HL. intros e out He HL. rewrite Ha, bind_ret. by apply AppendAll_spec. }
  clear e out He HL. intros e out He HL. destruct (Children n) as [l|], ts as [ts|]; try done.
  - destruct HC as (c & Hl & -> & Hi). apply append_then; [done..|]. clear e out He HL. intros e out He HL. rewrite (deref_some _ l c Hl), bind_ret. cbv beta.
    replace (match Content n with Some _ | _ => _ end) with (for_ (length c.(NodeList)) 0 (fun Index e => Child ← rd c.(NodeList) Index; NodeExport fuel h b Child e 0) e)
      by by destruct (Content n).
    apply appended_bind; [apply Hi; [done|]; rewrite length_app in HL; lia|done|].
    clear e out He HL. intros e out He HL. apply append_then; [done..|]. clear e out He HL. intros e out He HL. apply append_then; [done..|].
    clear e out He HL. intros e out He HL. by apply AppendAll_spec.
  - destruct (Content n) as [t|], text as [s|]; try done; [|by apply AppendAll_spec].
    apply append_then; [done..|]. clear e out He HL. intros e out He HL. rewrite Ht, bind_ret. cbv beta.
    apply append_then; [done..|]. clear e out He HL. intros e out He HL. apply append_then; [done..|]. clear e out He HL. intros e out He HL.
    apply append_then; [done..|]. clear e out He HL. intros e out He HL. by apply AppendAll_spec.
Qed.

Definition export_spec (h : heap) (b : list Z) (p : Z) (x : xnode) (N : gmap Z XML_NODE) (L : gmap Z XML_NODE_LIST) : Prop :=
  forall fuel Skip t e out, (size N <= fuel)%nat -> N ⊆ h.(Nodes) -> L ⊆ h.(Lists) -> reads b x t -> export_ok e out ->
    Z.of_nat (length out + length (render Skip t)) <= EXPORT_LIMIT ->
    exists e', NodeExport fuel h b p e Skip = Ret e' /\ appended e out (render Skip t) e'.

Definition export_kids_spec (h : heap) (b : list Z) (ps : list Z) (xs : list xnode) (N : gmap Z XML_NODE) (L : gmap Z XML_NODE_LIST) : Prop :=
  forall fuel Skip ts qs e out, (size N <= fuel)%nat -> N ⊆ h.(Nodes) -> L ⊆ h.(Lists) -> Forall2 (reads b) xs ts -> export_ok e out ->
    Z.of_nat (length out + length (concat (map (render Skip) ts))) <= EXPORT_LIMIT ->
    exists e', for_ (length ps) (Z.of_nat (length qs)) (fun Index e => Child ← rd (qs ++ ps) Index; NodeExport fuel h b Child e Skip) e = Ret e'
               /\ appended e out (concat (map (render Skip) ts)) e'.

Lemma export_owned h b : (forall p x N L, owned p x N L -> export_spec h b p x N L)
  /\ (forall ps xs N L, owned_kids ps xs N L -> export_kids_spec h b ps xs N L).
Proof.
  apply owned_mutind.
  - intros p n HC fuel Skip t e out Hf HN HL HR He Hlen. rewrite map_size_singleton in Hf. destruct fuel as [|fuel]; [lia|].
    assert (h.(Nodes) !! p = Some n) as Hp by (eapply lookup_weaken; [|exact HN]; by rewrite lookup_singleton_eq).
    inversion HR as [? name attrs text H1 H2 H3 _|? l]; subst; [|congruence]. destruct (decide (Skip = 0)) as [->|Hs].
    + apply (export_element h b p n name attrs text None fuel e out (fun e => Ret e)); try done. by rewrite HC.
    + cbn [NodeExport]. rewrite (deref_some _ p n Hp), bind_ret. cbv beta zeta. rewrite decide_True by done. rewrite HC.
      cbn [render]. rewrite decide_True by done. by apply appended_none.
  - intros p n l ac ps kids N L HC Hok Hk IH Hp Hl fuel Skip t e out Hf HN HL HR He Hlen. rewrite map_size_insert_None in Hf by done.
    destruct fuel as [|fuel]; [lia|].
    assert (h.(Nodes) !! p = Some n) as Hp' by (eapply lookup_weaken; [|exact HN]; by rewrite lookup_insert_eq).
    assert (h.(Lists) !! l = Some (List_ ac ps)) as Hl' by (eapply lookup_weaken; [|exact HL]; by rewrite lookup_insert_eq).
    assert (N ⊆ h.(Nodes)) as HN' by (etrans; [by apply insert_subseteq|exact HN]).
    assert (L ⊆ h.(Lists)) as HL' by (etrans; [by apply insert_subseteq|exact HL]).
    inversion HR as [? ? ? ? ? ? ? HC'|? l' ? name attrs text ts H1 H2 H3 H4 H5]; subst; [congruence|]. destruct (decide (Skip = 0)) as [->|Hs].
    + eapply (export_element h b p n name attrs text (Some ts) fuel e out); try done. rewrite HC. exists (List_ ac ps). split; [done|]. split; [reflexivity|].
      intros e1 out1 He1 Hlen1. cbn [NodeList]. apply (IH fuel 0 ts [] e1 out1); try done. lia.
    + cbn [NodeExport]. rewrite (deref_some _ p n Hp'), bind_ret. cbv beta zeta. rewrite decide_True by done. rewrite HC, (deref_some _ l _ Hl'), bind_ret.
      cbv beta. cbn [NodeList render] in *. rewrite decide_True in * by done. apply (IH fuel (Skip - 1) ts [] e out); try done. lia.
  - intros fuel Skip ts qs e out _ _ _ HR He _. apply Forall2_nil_inv_l in HR as ->. by apply appended_none.
  - intros p ps x xs N1 L1 N2 L2 Hx IH1 Hk IH2 DN DL fuel Skip ts qs e out Hf HN HL HR He Hlen.
    rewrite map_size_disj_union in Hf by done. apply Forall2_cons_inv_l in HR as (t & ts' & HRx & HRk & ->).
    cbn [length]. rewrite for_S. rewrite (rd_nat _ _ p) by by rewrite list_lookup_middle. rewrite bind_ret. cbv beta.
    cbn [map concat] in *. apply appended_bind; [|done|].
    + apply (IH1 fuel); try done; [lia|by etrans; [apply map_union_subseteq_l|]|by etrans; [apply map_union_subseteq_l|]|rewrite length_app in Hlen; lia].
    + clear e out He Hlen. intros e out He Hlen. replace (Z.of_nat (length qs) + 1) with (Z.of_nat (length (qs ++ [p]))) by (rewrite length_app; cbn; lia).
      replace (qs ++ p :: ps) with ((qs ++ [p]) ++ ps) by by rewrite <- app_assoc.
      apply (IH2 fuel); try done; [lia|by etrans; [by apply map_union_subseteq_r|]|by etrans; [by apply map_union_subseteq_r|]].
Qed.

Lemma Export_holds h N0 L0 b p x t Skip e out : holds h N0 L0 p x -> reads b x t -> export_ok e out ->
  Z.of_nat (length out + length (render Skip t)) <= EXPORT_LIMIT ->
  exists e', XmlNodeExportRecursive h b p e Skip = Ret e' /\ appended e out (render Skip t) e'.
Proof.
  intros (N & L & Ho & HN & HL & EN & EL) HR He Hlen. apply (proj1 (export_owned h b) p x N L Ho); try done.
  - rewrite EN, map_size_disj_union by done. lia.
  - rewrite EN. apply map_union_subseteq_l.
  - rewrite EL. apply map_union_subseteq_l.
Qed.

(** The result of an export: the terminated text of a length. *)
Definition exported (r : option (list Z * Z)) (text : list Z) : Prop :=
  match r with
  | Some (b, n) => 0 <= n < Z.of_nat (length b) /\ b !! Z.to_nat n = Some 0 /\ (all_met -> take (Z.to_nat n) b = text)
  | None => ~ all_met
  end.

Lemma exported_text b (out text : list Z) : (length out < length b)%nat -> take (length out) b = out -> (all_met -> out = text) ->
  exists b', wr b (Z.of_nat (length out)) 0 = Ret b' /\ exported (Some (b', Z.of_nat (length out))) text.
Proof.
  intros HL HT HM. rewrite wr_in by lia. rewrite Nat2Z.id. eexists. split; [done|]. cbn. rewrite length_insert, Nat2Z.id. split; [lia|].
  split; [by apply list_lookup_insert_eq|]. intros H. rewrite take_insert_ge by lia. rewrite HT. by apply HM.
Qed.

Lemma Export_doc h d doc N0 L0 x t Skip Prepend :
  h.(Documents) !! d = Some doc -> holds h N0 L0 doc.(Root) x -> reads doc.(DocBuffer) x t -> 0 <= doc.(DocLength) < 2 ^ 32 - 1 ->
  Z.of_nat (length (render Skip t)) <= EXPORT_LIMIT ->
  exists k r, XmlDocumentExport h d Skip Prepend = Ret (k, r)
    /\ exported r ((if Prepend then XML_PLIST_HEADER else []) ++ render Skip t).
Proof.
  intros HD HH HR HL Hlen. unfold XmlDocumentExport. rewrite (deref_some _ d doc HD), bind_ret. cbv beta zeta.
  rewrite (wrap_small 32 (DocLength doc + 1)) by lia. destruct (Allocate (Requests h) (DocLength doc + 1)) as [b|] eqn:EA.
  2: { eexists _, None. split; [done|]. intros HM. by destruct (HM _ _ EA). }
  apply Allocate_length in EA; [|lia].
  destruct (Export_holds h N0 L0 doc.(DocBuffer) doc.(Root) x t Skip (Export b (doc.(DocLength) + 1) 0 (Requests h + 1)) []) as (e & -> & out & [E1 E2 E3 E4 E5] & Ho & HM);
    [done|done|split; cbn; (done || lia)|cbn; lia|].
  rewrite bind_ret. cbv beta. cbn [length app] in Ho, HM. unfold EXPORT_LIMIT in Hlen. destruct Prepend.
  - assert (length XML_PLIST_HEADER = 140%nat) as EH by reflexivity. set (H := XML_PLIST_HEADER) in *.
    rewrite overflow_add_small by lia. cbv beta iota. destruct (Allocate (Asked e) (CurrentSize e + (Z.of_nat (length H) + 1))) as [b'|] eqn:EB.
    2: { rewrite bind_ret. eexists _, None. split; [done|]. intros HM'. by destruct (HM' _ _ EB). }
    apply Allocate_length in EB; [|lia]. rewrite wr_slice_in by lia. rewrite bind_ret. cbv beta. change (Z.to_nat 0) with 0%nat.
    rewrite CopyMem_in by (rewrite ?length_inserts; lia). rewrite !bind_ret. cbv beta iota.
    rewrite (wrap_small 32 (CurrentSize e + (Z.of_nat (length H) + 1) - 1)) by lia.
    rewrite E2, Nat2Z.id, <- take_slice, E1. replace (Z.of_nat (length out) + (Z.of_nat (length H) + 1) - 1) with (Z.of_nat (length (H ++ out))) by (rewrite length_app; lia).
    destruct (exported_text (list_inserts (length H) out (list_inserts 0 H b')) (H ++ out) (H ++ render Skip t)) as (b2 & -> & HX);
      [rewrite length_app, !length_inserts; lia| |by intros HM'; rewrite HM|by eexists _, _].
    rewrite length_app. apply append_out; [rewrite length_inserts; lia|]. pose proof (append_out b' [] H) as K. cbn [length app] in K. apply K; [lia|done].
  - rewrite bind_ret. cbv beta iota. rewrite E2. destruct (exported_text e.(Out) out (render Skip t)) as (b2 & -> & HX); [lia|done|done|by eexists _, _].
Qed.

(** C35: Exporting a document returns for any pool: a terminated buffer, or nothing. When
    every request is met, the buffer is the concrete syntax of the tree, after the
    header of property lists if that is wanted; a failed request for the text in
    between drops a part of it. *)
Theorem XmlDocumentExport_renders h d doc N0 L0 x t Skip Prepend :
  h.(Documents) !! d = Some doc -> holds h N0 L0 doc.(Root) x -> reads doc.(DocBuffer) x t -> 0 <= doc.(DocLength) < 2 ^ 32 - 1 ->
  Z.of_nat (length (render Skip t)) <= EXPORT_LIMIT ->
  exists k r, XmlDocumentExport h d Skip Prepend = Ret (k, r)
    /\ exported r ((if Prepend then XML_PLIST_HEADER else []) ++ render Skip t).
Proof. apply Export_doc. Qed.

End Export.

(** ** Concrete instances

    A pool that meets every request, and functions on strings that satisfy the
    documented behaviour. *)
Definition sample_pool : XmlPool := {| Allocate _ n := Some (replicate (Z.to_nat n) 0) |}.

Fixpoint find_from (s t : list Z) (o : Z) : option Z :=
  if decide (take (length t) s = t) then Some o else match s with [] => None | _ :: s => find_from s t (o + 1) end.

Definition decimal (s : list Z) : Z := foldl (fun a c => wrap 64 (10 * a + (c - 48))) 0 s.
Definition hex_digit (c : Z) : Z := if decide (c <= 57) then c - 48 else Z.lor c 32 - 87.
(** Leading zeros and the mark of the base are skipped. *)
Fixpoint skip_zeros (s : list Z) : list Z := match s with [] => [] | c :: s' => if decide (c = 48) then skip_zeros s' else s end.
Definition hexadecimal (s : list Z) : Z :=
  let s := match skip_zeros s with c :: s' => if decide (Z.lor c 32 = 120) then s' else c :: s' | [] => [] end in
  foldl (fun a c => wrap 64 (16 * a + hex_digit c)) 0 s.

(** The order of the first difference. *)
Fixpoint compare_strings (s t : list Z) : Z :=
  match s, t with
  | [], [] => 0
  | [], _ :: _ => -1
  | _ :: _, [] => 1
  | x :: s, y :: t => if decide (x = y) then compare_strings s t else x - y
  end.

Definition sample_lib : AsciiLib := {|
  AsciiStrCmp := compare_strings;
  AsciiStrnCmp s t n := if decide (take (Z.to_nat n) s = take (Z.to_nat n) t) then 0 else 1;
  AsciiStrStr s t := find_from s t 0;
  AsciiStrDecimalToUint64 := decimal;
  AsciiStrHexToUint64 := hexadecimal
|}.

Lemma find_from_inside s t : forall o r, find_from s t o = Some r -> o <= r /\ r + Z.of_nat (length t) <= o + Z.of_nat (length s).
Proof.
  induction s as [|c s IH]; intros o r; cbn [find_from length]; case_decide as E; try done.
  - intros [= <-]. apply (f_equal length) in E. rewrite length_take in E. cbn in E. lia.
  - intros [= <-]. apply (f_equal length) in E. rewrite length_take in E. cbn [length] in E. lia.
  - intros H%IH. lia.
Qed.

Lemma sample_pool_laws : XmlPoolLaws sample_pool.
Proof. split. intros k n b Hn [= <-]. rewrite length_replicate. lia. Qed.

Lemma compare_strings_eq s : forall t, compare_strings s t = 0 <-> s = t.
Proof. induction s as [|x s IH]; intros [|y t]; cbn; try done. case_decide as E; [subst; rewrite IH; split; [by intros ->|by intros [= ->]]|]. split; [lia|]. by intros [= -> _]. Qed.

Lemma sample_lib_laws : AsciiLibLaws sample_lib.
Proof.
  split.
  - exact compare_strings_eq.
  - intros s t n _. cbn. by case_decide.
  - intros s t o H%find_from_inside. lia.
Qed.

Definition sample_heap : heap := Heap ∅ ∅ ∅ ∅ 0.

Lemma sample_fresh : fresh sample_heap.
Proof. intros k _. done. Qed.

Definition sample_xml : list Z := str "<a><b c=d> hi </b></a>".

Lemma XmlDocumentParse_safe_witness :
  exists h' b d, @XmlDocumentParse sample_pool sample_lib sample_heap sample_xml 22 true = Ret (h', b, d) /\ cut sample_xml b /\
  match d with
  | None => h'.(Nodes) = sample_heap.(Nodes) /\ h'.(Lists) = sample_heap.(Lists) /\ h'.(Documents) = sample_heap.(Documents) /\ (true = false -> same_blocks sample_heap h')
  | Some d => exists doc x h'', document_ok true h' d doc x /\ doc.(DocBuffer) = b /\ doc.(DocLength) = 22
                              /\ @XmlDocumentFree h' d = Ret h'' /\ same_blocks sample_heap h''
  end.
Proof. apply (@XmlDocumentParse_safe sample_pool sample_lib sample_lib_laws sample_heap sample_xml 22 true sample_fresh). by vm_compute. Defined.

(** A document with the single element [<a/>]. *)
Definition small_node : XML_NODE := Node (Text (str "a")) None None None None.
Definition small_document : XML_DOCUMENT := Document [] 0 0 (RefList_ 0 0 None).
Definition small_heap : heap := Heap {[0 := small_node]} ∅ ∅ {[1 := small_document]} 2.

Lemma small_holds : holds small_heap ∅ ∅ 0 (XNode small_node []).
Proof. exists {[0 := small_node]}, ∅. split; [by constructor|]. do 2 (split; [apply map_disjoint_empty_r|]). by rewrite !map_union_empty. Qed.

Lemma XmlDocumentExport_renders_witness :
  small_heap.(Documents) !! 1 = Some small_document /\
  exists k r, @XmlDocumentExport sample_pool small_heap 1 0 true = Ret (k, r)
    /\ @exported sample_pool r (XML_PLIST_HEADER ++ render 0 (Elem (str "a") None None None)).
Proof.
  split; [done|].
  apply (@XmlDocumentExport_renders sample_pool sample_pool_laws small_heap 1 small_document ∅ ∅ (XNode small_node []) (Elem (str "a") None None None) 0 true);
    [done|exact small_holds|by constructor|by vm_compute|by vm_compute].
Defined.
End Xml.
