(* ===== verification/XmlSyntax.v ===== *)
(** * The documents that the XML parser reads

    A grammar of documents ([prints]): elements with attributes, text or children,
    white space, comments and control sequences. The theorems of this file show that
    [XmlDocumentParse] yields the element that was printed, and that parsing and
    export are inverse to each other. The parser changes the buffer that it reads,
    so the lemmas describe it by what is left of the position, with the terminators
    in it, and by the input on the right. *)
From Stdlib Require Import Ascii String.
From stdpp Require Import gmap.
From S2P Require Import Prelude Xml.

Module XmlSyntax.
Import Xml.

(** ** Grammar *)

Definition space (c : Z) : Prop := IsAsciiSpace c = true.
Definition tag_char (c : Z) : Prop := c <> SLASH /\ c <> GT /\ c <> 0.

Definition name_ok (name : list Z) : Prop :=
  Forall (fun c => tag_char c /\ IsAsciiSpace c = false) name /\
  match name with [] => False | c :: _ => c <> QUERY /\ c <> BANG end.

Definition starts_black (s : list Z) : Prop := match s with [] => True | c :: _ => IsAsciiSpace c = false end.

(** The name and the attributes of an open tag. *)
Inductive tag : list Z -> option (list Z) -> list Z -> Prop :=
| tag_plain name : name_ok name -> tag name None name
| tag_attributes name w0 w a : name_ok name -> Forall space (w0 :: w) -> Forall tag_char a -> starts_black a ->
    tag name (Some a) (name ++ w0 :: w ++ a).

Definition text_ok (s : list Z) : Prop :=
  Forall (fun c => c <> LT /\ c <> 0) s /\ s <> [] /\ starts_black s /\ starts_black (reverse s).

(** Comments and other control sequences; a comment ends at the first end mark. *)
Inductive control : list Z -> Prop :=
| control_comment body : (forall i, (i < length body)%nat -> take 3 (drop i (body ++ str "-->")) <> str "-->") ->
    control (str "<!--" ++ body ++ str "-->")
| control_declaration body : Forall (fun c => c <> GT) body -> take 2 body <> str "--" -> control (str "<!" ++ body ++ str ">")
| control_instruction body : Forall (fun c => c <> GT) body -> control (str "<?" ++ body ++ str ">").

(** What may stand before a tag. *)
Inductive gap : list Z -> Prop :=
| gap_space w : Forall space w -> gap w
| gap_control w c g : Forall space w -> control c -> gap g -> gap (w ++ c ++ g).

(** Children are absent when there are none. *)
Definition some_children (ts : list xml) : option (list xml) := match ts with [] => None | _ => Some ts end.

Inductive prints : xml -> list Z -> Prop :=
| prints_closed g name attrs t : gap g -> tag name attrs t -> prints (Elem name attrs None None) (g ++ str "<" ++ t ++ str "/>")
| prints_text g name attrs t w s w' w'' : gap g -> tag name attrs t -> Forall space w -> text_ok s -> Forall space w' -> Forall space w'' ->
    prints (Elem name attrs (Some s) None) (g ++ str "<" ++ t ++ str ">" ++ w ++ s ++ w' ++ str "</" ++ name ++ w'' ++ str ">")
| prints_children g name attrs t ts b g' w : gap g -> tag name attrs t -> prints_list ts b -> gap g' -> Forall space w ->
    prints (Elem name attrs None (some_children ts)) (g ++ str "<" ++ t ++ str ">" ++ b ++ g' ++ str "</" ++ name ++ w ++ str ">")
with prints_list : list xml -> list Z -> Prop :=
| prints_nil : prints_list [] []
| prints_cons t ts b b' : prints t b -> prints_list ts b' -> prints_list (t :: ts) (b ++ b').

Scheme prints_mind := Minimality for prints Sort Prop
  with prints_list_mind := Minimality for prints_list Sort Prop.
Combined Scheme prints_mutind from prints_mind, prints_list_mind.

(** The limits of the parser. *)
Fixpoint depth (t : xml) : Z :=
  match t with
  | Elem _ _ _ None => 0
  | Elem _ _ _ (Some ts) => foldr (fun k => Z.max (1 + depth k)) 0 ts
  end.

Inductive narrow : xml -> Prop :=
| narrow_leaf name attrs text : narrow (Elem name attrs text None)
| narrow_children name attrs text ts : Z.of_nat (length ts) < XML_PARSER_NODE_COUNT -> Forall narrow ts -> narrow (Elem name attrs text (Some ts)).

(** ** The parser between what it has read and what is to come *)

Definition zip (pre suf : list Z) (level : Z) : XML_PARSER :=
  Parser (pre ++ suf) (Z.of_nat (length pre)) (Z.of_nat (length (pre ++ suf))) level.

Definition fits (pre suf : list Z) : Prop := Z.of_nat (length (pre ++ suf)) <= XML_PARSER_MAX_SIZE.

Lemma fits_app pre x suf : fits pre (x ++ suf) <-> fits (pre ++ x) suf.
Proof. unfold fits. by rewrite app_assoc. Qed.

Lemma zip_ok pre suf l : fits pre suf -> psr_ok (zip pre suf l).
Proof. intros H. split; cbn; [rewrite length_app; lia|lia|exact H]. Qed.

Lemma zip_move pre x suf l : set_Position (zip pre (x ++ suf) l) (Z.of_nat (length pre + length x)) = zip (pre ++ x) suf l.
Proof. unfold zip, set_Position. cbn. rewrite <- app_assoc, (length_app pre x). done. Qed.

Lemma zip_peek pre suf l (k : nat) : fits pre suf -> (k <= 2)%nat -> XmlParserPeek (zip pre suf l) (Z.of_nat k) = Ret (default 0 (suf !! k)).
Proof.
  intros HF Hk. rewrite Peek_spec by (by apply zip_ok || lia). f_equal. unfold look. cbn. rewrite length_app.
  replace (Z.to_nat (Z.of_nat (length pre) + Z.of_nat k)) with (length pre + k)%nat by lia.
  case_decide; [|rewrite lookup_ge_None_2; [done|lia]]. rewrite lookup_app_r by lia. by replace (length pre + k - length pre)%nat with k by lia.
Qed.

Lemma zip_consume pre x suf l : fits pre (x ++ suf) -> (length x <= 3)%nat -> XmlParserConsume (zip pre (x ++ suf) l) (Z.of_nat (length x)) = zip (pre ++ x) suf l.
Proof.
  intros HF Hx. rewrite Consume_spec by (by apply zip_ok || lia). rewrite <- zip_move. f_equal. cbn. rewrite !length_app. lia.
Qed.

Lemma while_fuel {St R} (body : St -> outcome (St + R)) n : forall m s r, while_ n body s = Ret r -> (n <= m)%nat -> while_ m body s = Ret r.
Proof.
  induction n as [|n IH]; intros m s r; [done|]. destruct m as [|m]; [lia|]. rewrite !while_S. destruct (body s) as [[s'|r']|]; cbn; [|done..].
  intros H Hm. apply IH; [done|lia].
Qed.

(** *** White space *)
Lemma zip_skip pre w suf l : Forall space w -> starts_black suf -> fits pre (w ++ suf) ->
  XmlSkipWhitespace (zip pre (w ++ suf) l) = Ret (zip (pre ++ w) suf l).
Proof.
  intros Hw Hs HF. unfold XmlSkipWhitespace. apply (while_fuel _ (S (length w))); [|unfold bytes_fuel; cbn; rewrite !length_app; lia].
  revert pre HF. induction Hw as [|c w Hc Hw IH]; intros pre HF.
  - apply while_inr. rewrite app_nil_r. cbn [app]. unfold SkipWhitespaceStep. cbn [Position Length Buffer zip]. destruct suf as [|c suf].
    + rewrite decide_False; [done|]. rewrite app_nil_r. lia.
    + rewrite decide_True by (rewrite length_app; cbn; lia). rewrite (rd_nat _ _ c) by by rewrite list_lookup_middle. rewrite bind_ret. cbn in Hs. by rewrite Hs.
  - cbn [length]. rewrite (while_inl _ _ _ (zip (pre ++ [c]) (w ++ suf) l)).
    + rewrite IH by (unfold fits in *; by rewrite <- app_assoc). by rewrite <- app_assoc.
    + unfold SkipWhitespaceStep. cbn [Position Length Buffer zip app]. rewrite decide_True by (rewrite length_app; cbn; lia).
      rewrite (rd_nat _ _ c) by by rewrite list_lookup_middle. rewrite bind_ret. unfold space in Hc. rewrite Hc.
      rewrite wrap_small by (unfold fits, XML_PARSER_MAX_SIZE in HF; rewrite !length_app in HF; lia).
      pose proof (zip_move pre [c] (w ++ suf) l) as E. cbn [app length] in E. rewrite <- E. do 3 f_equal. lia.
Qed.


(** *** Tags *)
Definition next (suf : list Z) : Z := default 0 (suf !! 0%nat).

Lemma zip_peek_0 pre suf l : fits pre suf -> XmlParserPeek (zip pre suf l) 0 = Ret (next suf).
Proof. intros H. exact (zip_peek pre suf l 0 H ltac:(lia)). Qed.

Lemma zip_consume_1 pre c suf l : fits pre (c :: suf) -> XmlParserConsume (zip pre (c :: suf) l) 1 = zip (pre ++ [c]) suf l.
Proof. intros H. exact (zip_consume pre [c] suf l H ltac:(cbn; lia)). Qed.

Lemma fits_cons pre c suf : fits pre (c :: suf) <-> fits (pre ++ [c]) suf.
Proof. exact (fits_app pre [c] suf). Qed.

Lemma fits_small pre suf : fits pre suf -> Z.of_nat (length pre) + Z.of_nat (length suf) < 2 ^ 26.
Proof. unfold fits, XML_PARSER_MAX_SIZE. rewrite length_app. lia. Qed.

(** One byte of a tag. *)
Lemma TagEndStep_byte pre x c suf l NL : fits (pre ++ x) (c :: suf) -> c <> SLASH -> c <> GT ->
  let E := bool_decide (NL = 0) && IsAsciiSpace c in
  let NL' := if E then Z.of_nat (length x) else NL in
  ~ (E = true /\ NL' = 0) ->
  TagEndStep (Z.of_nat (length pre)) (zip (pre ++ x) (c :: suf) l, c, Z.of_nat (length x), NL)
    = Ret (inl (zip (pre ++ x ++ [c]) suf l, next suf, Z.of_nat (length (x ++ [c])), NL')).
Proof.
  intros HF H1 H2 E NL' HE. pose proof (fits_small _ _ HF) as HS. rewrite length_app in HS. cbn [length] in HS. unfold TagEndStep.
  rewrite wrap_small by lia. cbn [Length zip]. rewrite decide_True by (rewrite !length_app; cbn; lia). rewrite decide_False by tauto. fold E. fold NL'.
  rewrite decide_False by done. rewrite zip_consume_1 by done. apply fits_cons in HF. rewrite zip_peek_0 by done. rewrite bind_ret. cbv beta.
  rewrite wrap_small by lia. rewrite length_app, Nat2Z.inj_add. by rewrite <- app_assoc.
Qed.

Lemma scan_name pre y : forall x suf l n, Forall (fun c => tag_char c /\ IsAsciiSpace c = false) y -> fits (pre ++ x) (y ++ suf) ->
  while_ (length y + n) (TagEndStep (Z.of_nat (length pre))) (zip (pre ++ x) (y ++ suf) l, next (y ++ suf), Z.of_nat (length x), 0)
  = while_ n (TagEndStep (Z.of_nat (length pre))) (zip (pre ++ x ++ y) suf l, next suf, Z.of_nat (length (x ++ y)), 0).
Proof.
  induction y as [|c y IH]; intros x suf l n Hy HF; [by rewrite app_nil_r|]. apply Forall_cons in Hy as [[(T1 & T2 & T3) Hc] Hy].
  cbn [length app Nat.add] in *. change (next (c :: y ++ suf)) with c.
  rewrite (while_inl _ _ _ _ (TagEndStep_byte pre x c (y ++ suf) l 0 HF T1 T2 ltac:(rewrite Hc; intros [? _]; done))).
  rewrite Hc. cbn [bool_decide andb decide_rel]. rewrite andb_false_r. apply fits_cons in HF. rewrite <- app_assoc in HF. rewrite IH by done. by rewrite <- !app_assoc.
Qed.

Lemma scan_attributes pre y NL : NL <> 0 -> forall x suf l n, Forall tag_char y -> fits (pre ++ x) (y ++ suf) ->
  while_ (length y + n) (TagEndStep (Z.of_nat (length pre))) (zip (pre ++ x) (y ++ suf) l, next (y ++ suf), Z.of_nat (length x), NL)
  = while_ n (TagEndStep (Z.of_nat (length pre))) (zip (pre ++ x ++ y) suf l, next suf, Z.of_nat (length (x ++ y)), NL).
Proof.
  intros HN. induction y as [|c y IH]; intros x suf l n Hy HF; [by rewrite app_nil_r|]. apply Forall_cons in Hy as [(T1 & T2 & T3) Hy].
  cbn [length app Nat.add] in *. change (next (c :: y ++ suf)) with c.
  assert (bool_decide (NL = 0) = false) as EN by by apply bool_decide_eq_false_2.
  rewrite (while_inl _ _ _ _ (TagEndStep_byte pre x c (y ++ suf) l NL HF T1 T2 ltac:(rewrite EN; intros [? _]; done))).
  rewrite EN. cbn [andb]. apply fits_cons in HF. rewrite <- app_assoc in HF. rewrite IH by done. by rewrite <- !app_assoc.
Qed.

(** The scan of a whole tag stops at its end mark. *)
Lemma scan_end pre x c suf l NL n : fits (pre ++ x) (c :: suf) -> (c = SLASH \/ c = GT) ->
  while_ (S n) (TagEndStep (Z.of_nat (length pre))) (zip (pre ++ x) (c :: suf) l, c, Z.of_nat (length x), NL)
  = Ret (zip (pre ++ x) (c :: suf) l, c, Z.of_nat (length x), NL, true).
Proof.
  intros HF Hc. pose proof (fits_small _ _ HF) as HS. rewrite length_app in HS. cbn [length] in HS. apply while_inr. unfold TagEndStep.
  rewrite wrap_small by lia. cbn [Length zip]. rewrite decide_True by (rewrite !length_app; cbn; lia). by rewrite decide_True.
Qed.

Lemma scan_plain pre name c suf l n : name_ok name -> fits pre (name ++ c :: suf) -> (c = SLASH \/ c = GT) -> (length name < n)%nat ->
  while_ n (TagEndStep (Z.of_nat (length pre))) (zip pre (name ++ c :: suf) l, next (name ++ c :: suf), 0, 0)
  = Ret (zip (pre ++ name) (c :: suf) l, c, Z.of_nat (length name), 0, true).
Proof.
  intros [Hn _] HF Hc Hlen. apply (while_fuel _ (length name + 1)); [|lia]. pose proof (scan_name pre name [] (c :: suf) l 1 Hn) as E.
  rewrite !app_nil_r in E. cbn [app length] in E. change (Z.of_nat 0) with 0 in E. rewrite E by done. apply scan_end; [by apply fits_app|done].
Qed.

Lemma scan_spaced pre name w0 y c suf l n : name_ok name -> space w0 -> Forall tag_char (w0 :: y) -> fits pre ((name ++ w0 :: y) ++ c :: suf) ->
  (c = SLASH \/ c = GT) -> (length (name ++ w0 :: y) < n)%nat ->
  while_ n (TagEndStep (Z.of_nat (length pre))) (zip pre ((name ++ w0 :: y) ++ c :: suf) l, next ((name ++ w0 :: y) ++ c :: suf), 0, 0)
  = Ret (zip (pre ++ name ++ w0 :: y) (c :: suf) l, c, Z.of_nat (length (name ++ w0 :: y)), Z.of_nat (length name), true).
Proof.
  intros [Hn Hne] Hw Hy HF Hc Hlen. apply (while_fuel _ (length name + S (length y + 1))); [|rewrite length_app in Hlen; cbn in Hlen; lia].
  apply Forall_cons in Hy as [(T1 & T2 & T3) Hy]. rewrite <- app_assoc in *. cbn [app] in *.
  pose proof (scan_name pre name [] (w0 :: y ++ c :: suf) l (S (length y + 1)) Hn) as E. rewrite !app_nil_r in E. cbn [app length] in E. change (Z.of_nat 0) with 0 in E. rewrite E by done. clear E.
  assert (Z.of_nat (length name) <> 0) as HN by (destruct name; [done|cbn; lia]). apply fits_app in HF. unfold space in Hw.
  rewrite (while_inl _ _ _ _ (TagEndStep_byte pre name w0 (y ++ c :: suf) l 0 HF T1 T2 ltac:(rewrite Hw; intros [_ ?]; done))).
  rewrite Hw. cbn [bool_decide andb decide_rel]. apply fits_cons in HF. rewrite <- app_assoc in HF. rewrite scan_attributes by done.
  rewrite <- !app_assoc in *. cbn [app] in *. apply scan_end; [|done].
  rewrite fits_app in HF. by rewrite <- !app_assoc in HF.
Qed.

(** Terminators. *)
Lemma zip_wr pre x c y suf l :
  exists b, wr (zip (pre ++ x ++ c :: y) suf l).(Buffer) (Z.of_nat (length pre + length x)) 0 = Ret b
    /\ set_Buffer (zip (pre ++ x ++ c :: y) suf l) b = zip (pre ++ x ++ 0 :: y) suf l.
Proof.
  eexists. split; [apply wr_in; cbn; rewrite !length_app; cbn; lia|]. rewrite Nat2Z.id. unfold zip, set_Buffer. cbn.
  replace (pre ++ x ++ c :: y) with ((pre ++ x) ++ c :: y) by by rewrite <- app_assoc.
  replace (pre ++ x ++ 0 :: y) with ((pre ++ x) ++ 0 :: y) by by rewrite <- app_assoc.
  rewrite !length_app. cbn [length]. f_equal. rewrite insert_app_l by (rewrite !length_app; cbn; lia). f_equal.
  rewrite insert_app_r_alt by (rewrite length_app; lia). f_equal. rewrite length_app, Nat.sub_diag. done.
Qed.

Lemma until_nul_app s r : Forall (fun c => c <> 0) s -> until_nul (s ++ 0 :: r) = Some s.
Proof. induction 1 as [|c s Hc _ IH]; cbn; [done|]. rewrite decide_False by done. by rewrite IH. Qed.

Lemma c_string_at p s r : Forall (fun c => c <> 0) s -> c_string (p ++ s ++ 0 :: r) (Z.of_nat (length p)) = Ret s.
Proof. intros Hs. unfold c_string. rewrite decide_True by lia. rewrite Nat2Z.id, drop_app_length. by rewrite until_nul_app. Qed.

Lemma until_nul_more l r s : until_nul l = Some s -> until_nul (l ++ r) = Some s.
Proof.
  revert s. induction l as [|c l IH]; intros s; cbn; [done|]. case_decide; [done|]. destruct (until_nul l) as [t|]; [|done]. intros [= <-]. by rewrite (IH t).
Qed.

(** A string stays when the buffer goes on differently. *)
Lemma c_string_more b r o s : c_string b o = Ret s -> c_string (b ++ r) o = Ret s.
Proof.
  unfold c_string. case_decide; [|done]. destruct (until_nul (drop (Z.to_nat o) b)) as [t|] eqn:E; [|done]. intros [= <-].
  rewrite drop_app_le; [by rewrite (until_nul_more _ _ _ E)|]. destruct (decide (Z.to_nat o <= length b)%nat); [done|]. rewrite drop_ge in E by lia. done.
Qed.

Lemma skip_attributes P p w a r (k : nat) n : P.(Buffer) = p ++ w ++ a ++ r -> Forall space w -> starts_black a ->
  Z.of_nat (k + length w + length a) < 2 ^ 32 -> (length w < n)%nat ->
  while_ n (SkipAttributeSpace P (Z.of_nat (k + length w + length a))) (Z.of_nat (length p), Z.of_nat k) = Ret (Z.of_nat (length p + length w)).
Proof.
  intros HB Hw Ha HL Hn. apply (while_fuel _ (S (length w))); [|done]. clear n Hn. revert p k HB HL. induction Hw as [|c w Hc Hw IH]; intros p k HB HL.
  - cbn [length]. rewrite !Nat.add_0_r in *. apply while_inr. unfold SkipAttributeSpace. case_decide as Hd; [|done]. destruct a as [|c a]; [cbn in Hd; lia|].
    rewrite HB. cbn [app]. rewrite (rd_nat _ _ c) by by rewrite list_lookup_middle. rewrite bind_ret. cbn in Ha. by rewrite Ha.
  - cbn [length] in *. rewrite (while_inl _ _ _ (Z.of_nat (length (p ++ [c])), Z.of_nat (k + 1))).
    + replace (k + S (length w) + length a)%nat with ((k + 1) + length w + length a)%nat by lia. rewrite IH; [|by rewrite HB, <- app_assoc|lia].
      rewrite length_app. cbn [length]. do 2 f_equal. lia.
    + unfold SkipAttributeSpace. rewrite decide_True by lia. rewrite HB. cbn [app]. rewrite (rd_nat _ _ c) by by rewrite list_lookup_middle. rewrite bind_ret.
      unfold space in Hc. rewrite Hc. rewrite wrap_small by lia. rewrite length_app. cbn [length]. do 3 f_equal; lia.
Qed.

(** Side conditions of the scans. *)
Ltac side := first [done | by right | by left | unfold bytes_fuel; cbn; repeat progress (rewrite ?length_app; cbn); lia].

(** Lengths of concatenations. *)
Ltac flen := unfold fits in *; repeat progress (rewrite ?length_app in *; cbn [length app] in * ); lia.

(** Concatenations in normal form. *)
Ltac app_eq := repeat progress (rewrite <- ?app_assoc; cbn [app]).

(** The end of a tag: a name, and nothing or white space. *)
Lemma TagEnd_plain pre name suf l sc At0 : name_ok name -> fits pre (name ++ GT :: suf) ->
  XmlParseTagEnd (zip pre (name ++ GT :: suf) l) (sc, At0) = Ret (zip (pre ++ name ++ [0]) suf l, (sc, At0), Some (Z.of_nat (length pre))).
Proof.
  intros Hn HF. pose proof (fits_small _ _ HF) as HS. rewrite length_app in HS. cbn [length] in HS. unfold XmlParseTagEnd.
  rewrite zip_peek_0 by done. rewrite bind_ret. cbv beta. change (Position (zip pre (name ++ GT :: suf) l)) with (Z.of_nat (length pre)).
  rewrite scan_plain by side. rewrite bind_ret. cbv beta iota. cbn [negb].
  rewrite decide_False by tauto. rewrite bind_ret. cbv beta iota zeta. rewrite decide_False by done. rewrite decide_False by tauto.
  apply fits_app in HF. rewrite zip_consume_1 by done. rewrite wrap_small by lia. rewrite <- Nat2Z.inj_add, <- app_assoc.
  destruct (zip_wr pre name GT [] suf l) as (b & -> & E). rewrite bind_ret. cbv beta. by rewrite E.
Qed.

Lemma TagEnd_plain_closed pre name suf l At0 : name_ok name -> fits pre (name ++ SLASH :: GT :: suf) ->
  XmlParseTagEnd (zip pre (name ++ SLASH :: GT :: suf) l) (Some false, At0)
    = Ret (zip (pre ++ name ++ [0; GT]) suf l, (Some true, At0), Some (Z.of_nat (length pre))).
Proof.
  intros Hn HF. pose proof (fits_small _ _ HF) as HS. rewrite length_app in HS. cbn [length] in HS. unfold XmlParseTagEnd.
  rewrite zip_peek_0 by done. rewrite bind_ret. cbv beta. change (Position (zip pre (name ++ SLASH :: GT :: suf) l)) with (Z.of_nat (length pre)).
  rewrite scan_plain by side. rewrite bind_ret. cbv beta iota. cbn [negb].
  rewrite decide_False by tauto. rewrite bind_ret. cbv beta iota zeta. rewrite decide_True by done.
  apply fits_app in HF. rewrite zip_consume_1 by done. apply fits_cons in HF. rewrite zip_peek_0 by done. rewrite bind_ret. cbv beta.
  rewrite decide_False by tauto. rewrite zip_consume_1 by done. rewrite wrap_small by lia. rewrite <- Nat2Z.inj_add, <- !app_assoc.
  destruct (zip_wr pre name SLASH [GT] suf l) as (b & E1 & E2). cbn [app] in *. rewrite E1, bind_ret. cbv beta. by rewrite E2.
Qed.

Lemma space_cases c : space c -> c = 32 \/ 9 <= c <= 13.
Proof. unfold space, IsAsciiSpace. repeat case_bool_decide; cbn; (done || lia). Qed.
Lemma space_tag_char c : space c -> tag_char c.
Proof. intros H. apply space_cases in H. unfold tag_char, SLASH, GT. lia. Qed.
Lemma spaces_tag_chars w : Forall space w -> Forall tag_char w.
Proof. intros H. eapply Forall_impl; [exact H|]. apply space_tag_char. Qed.

Lemma zip_wr_next pre c suf l :
  exists b, wr (zip pre (c :: suf) l).(Buffer) (Z.of_nat (length pre)) 0 = Ret b /\ set_Buffer (zip pre (c :: suf) l) b = zip pre (0 :: suf) l.
Proof.
  eexists. split; [apply wr_in; cbn; rewrite !length_app; cbn; lia|]. rewrite Nat2Z.id. unfold zip, set_Buffer. cbn. rewrite !length_app. cbn [length].
  f_equal. rewrite insert_app_r_alt by lia. by rewrite Nat.sub_diag.
Qed.

Lemma fits_nul pre c suf : fits pre (c :: suf) -> fits pre (0 :: suf).
Proof. unfold fits. by rewrite !length_app. Qed.

(** The handling of attributes, up to the end mark. *)
Lemma TagEnd_attributes_found pre name w0 w a c suf l : Forall space (w0 :: w) -> starts_black a ->
  let x := name ++ w0 :: w ++ a in
  fits (pre ++ x) (c :: suf) ->
  let Q := zip (pre ++ x) (c :: suf) l in
  exists b, while_ (bytes_fuel Q) (SkipAttributeSpace Q (Z.of_nat (length x))) (Z.of_nat (length pre) + Z.of_nat (length name), Z.of_nat (length name))
      = Ret (Z.of_nat (length (pre ++ name ++ w0 :: w)))
    /\ wr Q.(Buffer) (Z.of_nat (length pre) +[32] Z.of_nat (length x)) 0 = Ret b /\ set_Buffer Q b = zip (pre ++ x) (0 :: suf) l.
Proof.
  intros Hw Ha x HF Q. pose proof (fits_small _ _ HF) as HS. rewrite length_app in HS. cbn [length] in HS.
  destruct (zip_wr_next (pre ++ x) c suf l) as (b & E1 & E2). exists b. split; [|split].
  - pose proof (skip_attributes Q (pre ++ name) (w0 :: w) a (c :: suf) (length name) (bytes_fuel Q)) as E.
    replace (length name + length (w0 :: w) + length a)%nat with (length x) in E by (unfold x; rewrite !length_app; cbn; rewrite length_app; lia).
    rewrite length_app, Nat2Z.inj_add in E. rewrite E; [| |done|done|lia|].
    + rewrite !length_app. do 2 f_equal. lia.
    + unfold Q, x. cbn [Buffer zip]. rewrite <- !app_assoc. cbn [app]. by rewrite <- app_assoc.
    + unfold bytes_fuel, Q, x. cbn. rewrite !length_app. cbn. rewrite length_app. lia.
  - rewrite wrap_small by lia. rewrite <- E1. f_equal. rewrite length_app. lia.
  - exact E2.
Qed.

Lemma tag_chars_spaced w0 w a : Forall space (w0 :: w) -> Forall tag_char a -> Forall tag_char (w0 :: w ++ a).
Proof. intros Hw Ha. change (w0 :: w ++ a) with ((w0 :: w) ++ a). apply Forall_app. split; [by apply spaces_tag_chars|done]. Qed.

Lemma TagEnd_attributes pre name w0 w a suf l sc : name_ok name -> Forall space (w0 :: w) -> Forall tag_char a -> starts_black a ->
  fits pre ((name ++ w0 :: w ++ a) ++ GT :: suf) ->
  XmlParseTagEnd (zip pre ((name ++ w0 :: w ++ a) ++ GT :: suf) l) (sc, Some None)
    = Ret (zip (pre ++ name ++ 0 :: w ++ a ++ [0]) suf l, (sc, Some (Some (Z.of_nat (length (pre ++ name ++ w0 :: w))))), Some (Z.of_nat (length pre))).
Proof.
  intros Hn Hw Ha Hb HF. pose proof (fits_small _ _ HF) as HS. rewrite length_app in HS. cbn [length] in HS. unfold XmlParseTagEnd.
  rewrite zip_peek_0 by done. rewrite bind_ret. cbv beta. change (Position (zip pre ((name ++ w0 :: w ++ a) ++ GT :: suf) l)) with (Z.of_nat (length pre)).
  pose proof (tag_chars_spaced _ _ _ Hw Ha) as Ht. apply Forall_cons in Hw as Hw'. destruct Hw' as [Hw0 _].
  rewrite scan_spaced by side. rewrite bind_ret. cbv beta iota. cbn [negb].
  assert (Z.of_nat (length name) <> 0) as HN by (destruct Hn as [_ Hn]; destruct name; [done|cbn; lia]). rewrite decide_True by done. rewrite decide_True by by right.
  apply fits_app in HF. destruct (TagEnd_attributes_found pre name w0 w a GT suf l Hw Hb HF) as (b & -> & Eb & EQ). rewrite bind_ret. cbv beta. rewrite Eb, bind_ret. cbv beta.
  rewrite bind_ret. cbv beta iota zeta. rewrite EQ. rewrite decide_False by done. rewrite decide_False by tauto. apply fits_nul in HF. rewrite zip_consume_1 by done.
  rewrite wrap_small by (rewrite length_app in HS; lia). rewrite <- Nat2Z.inj_add, <- !app_assoc. cbn [app]. rewrite <- app_assoc.
  destruct (zip_wr pre name w0 (w ++ a ++ [0]) suf l) as (b' & -> & E). rewrite bind_ret. cbv beta. by rewrite E.
Qed.

Lemma TagEnd_attributes_closed pre name w0 w a suf l : name_ok name -> Forall space (w0 :: w) -> Forall tag_char a -> starts_black a ->
  fits pre ((name ++ w0 :: w ++ a) ++ SLASH :: GT :: suf) ->
  XmlParseTagEnd (zip pre ((name ++ w0 :: w ++ a) ++ SLASH :: GT :: suf) l) (Some false, Some None)
    = Ret (zip (pre ++ name ++ 0 :: w ++ a ++ [0; GT]) suf l, (Some true, Some (Some (Z.of_nat (length (pre ++ name ++ w0 :: w))))), Some (Z.of_nat (length pre))).
Proof.
  intros Hn Hw Ha Hb HF. pose proof (fits_small _ _ HF) as HS. rewrite length_app in HS. cbn [length] in HS. unfold XmlParseTagEnd.
  rewrite zip_peek_0 by done. rewrite bind_ret. cbv beta. change (Position (zip pre ((name ++ w0 :: w ++ a) ++ SLASH :: GT :: suf) l)) with (Z.of_nat (length pre)).
  pose proof (tag_chars_spaced _ _ _ Hw Ha) as Ht. apply Forall_cons in Hw as Hw'. destruct Hw' as [Hw0 _].
  rewrite scan_spaced by side. rewrite bind_ret. cbv beta iota. cbn [negb].
  assert (Z.of_nat (length name) <> 0) as HN by (destruct Hn as [_ Hn]; destruct name; [done|cbn; lia]). rewrite decide_True by done. rewrite decide_True by by left.
  apply fits_app in HF. destruct (TagEnd_attributes_found pre name w0 w a SLASH (GT :: suf) l Hw Hb HF) as (b & -> & Eb & EQ). rewrite bind_ret. cbv beta. rewrite Eb, bind_ret. cbv beta.
  rewrite bind_ret. cbv beta iota zeta. rewrite EQ. rewrite decide_True by done. apply fits_nul in HF. rewrite zip_consume_1 by done.
  apply fits_cons in HF. rewrite zip_peek_0 by done. rewrite bind_ret. cbv beta. rewrite decide_False by tauto. rewrite zip_consume_1 by done.
  rewrite wrap_small by (rewrite length_app in HS; lia). rewrite <- Nat2Z.inj_add, <- !app_assoc. cbn [app]. rewrite <- !app_assoc.
  destruct (zip_wr pre name w0 (w ++ a ++ [0; GT]) suf l) as (b' & E1 & E2). cbn [app] in *. rewrite E1, bind_ret. cbv beta. by rewrite E2.
Qed.

(** White space in a close tag. *)
Lemma TagEnd_spaced pre name w0 w suf l : name_ok name -> Forall space (w0 :: w) -> fits pre ((name ++ w0 :: w) ++ GT :: suf) ->
  XmlParseTagEnd (zip pre ((name ++ w0 :: w) ++ GT :: suf) l) (None, None)
    = Ret (zip (pre ++ name ++ 0 :: w ++ [GT]) suf l, (None, None), Some (Z.of_nat (length pre))).
Proof.
  intros Hn Hw HF. pose proof (fits_small _ _ HF) as HS. rewrite length_app in HS. cbn [length] in HS. unfold XmlParseTagEnd.
  rewrite zip_peek_0 by done. rewrite bind_ret. cbv beta. change (Position (zip pre ((name ++ w0 :: w) ++ GT :: suf) l)) with (Z.of_nat (length pre)).
  pose proof (spaces_tag_chars _ Hw) as Ht. apply Forall_cons in Hw as Hw'. destruct Hw' as [Hw0 _].
  rewrite scan_spaced by side. rewrite bind_ret. cbv beta iota. cbn [negb].
  assert (Z.of_nat (length name) <> 0) as HN by (destruct Hn as [_ Hn]; destruct name; [done|cbn; lia]). rewrite decide_True by done.
  rewrite bind_ret. cbv beta iota zeta. rewrite decide_False by done. rewrite decide_False by tauto. apply fits_app in HF. rewrite zip_consume_1 by done.
  rewrite wrap_small by (rewrite length_app in HS; lia). rewrite <- Nat2Z.inj_add, <- !app_assoc. cbn [app].
  destruct (zip_wr pre name w0 (w ++ [GT]) suf l) as (b' & -> & E). rewrite bind_ret. cbv beta. by rewrite E.
Qed.

(** *** Control sequences and the beginning of a tag *)
Lemma zip_inside pre c suf l : (zip pre (c :: suf) l).(Position) < (zip pre (c :: suf) l).(Length).
Proof. cbn. rewrite length_app. cbn. lia. Qed.

Lemma skip_to_gt pre body suf l n : Forall (fun c => c <> GT) body -> fits pre (body ++ GT :: suf) -> (length body < n)%nat ->
  while_ n (SkipControl false) (zip pre (body ++ GT :: suf) l) = Ret (zip (pre ++ body ++ [GT]) suf l).
Proof.
  intros Hb HF Hn. apply (while_fuel _ (S (length body))); [|done]. clear n Hn. revert pre HF. induction Hb as [|c body Hc Hb IH]; intros pre HF; cbn [app length] in *.
  - apply while_inr. unfold SkipControl. rewrite decide_True by apply zip_inside. rewrite zip_peek_0 by done. rewrite bind_ret. cbv beta.
    by rewrite decide_True, zip_consume_1.
  - rewrite (while_inl _ _ _ (zip (pre ++ [c]) (body ++ GT :: suf) l)).
    + apply fits_cons in HF. rewrite IH by done. by rewrite <- app_assoc.
    + unfold SkipControl. rewrite decide_True by apply zip_inside. rewrite zip_peek_0 by done. rewrite bind_ret. cbv beta.
      by rewrite decide_False, zip_consume_1.
Qed.

Definition end_mark : list Z := [DASH; DASH; GT].

Lemma skip_comment pre body suf l n : (forall i, (i < length body)%nat -> take 3 (drop i (body ++ end_mark)) <> end_mark) ->
  fits pre (body ++ end_mark ++ suf) -> (length body < n)%nat ->
  while_ n (SkipControl true) (zip pre (body ++ end_mark ++ suf) l) = Ret (zip (pre ++ body ++ end_mark) suf l).
Proof.
  intros Hb HF Hn. apply (while_fuel _ (S (length body))); [|done]. clear n Hn. revert pre HF Hb. induction body as [|c body IH]; intros pre HF Hb; cbn [app length] in *.
  - apply while_inr. unfold SkipControl. rewrite decide_True by apply zip_inside. rewrite zip_peek_0 by done. rewrite bind_ret. cbv beta.
    change 1 with (Z.of_nat 1). change 2 with (Z.of_nat 2). rewrite !zip_peek by (done || lia). rewrite !bind_ret. cbv beta. cbn [lookup list_lookup end_mark app default option_map].
    rewrite decide_True by done. f_equal. f_equal. apply (zip_consume pre end_mark suf l HF). cbn. lia.
  - rewrite (while_inl _ _ _ (zip (pre ++ [c]) (body ++ end_mark ++ suf) l)).
    + apply fits_cons in HF. rewrite IH; [by rewrite <- app_assoc|done|]. intros i Hi. apply (Hb (S i)). lia.
    + unfold SkipControl. rewrite decide_True by apply zip_inside. rewrite zip_peek_0 by done. rewrite bind_ret. cbv beta.
      change 1 with (Z.of_nat 1) at 1. change 2 with (Z.of_nat 2) at 1. rewrite (zip_peek _ _ _ 1), (zip_peek _ _ _ 2) by (done || lia). rewrite !bind_ret. cbv beta.
      rewrite decide_False, zip_consume_1; [done|done|]. intros (E0 & E1 & E2). apply (Hb 0%nat); [lia|]. change (next (c :: body ++ end_mark ++ suf)) with c in E0. subst c.
      destruct body as [|c1 body]; [done|]. cbn in E1. subst c1. destruct body as [|c2 body]; [done|]. cbn in E2. by subst c2.
Qed.

(** The white space and the opening of a control sequence or tag. *)
Lemma TagOpenStep_open pre w c suf l : Forall space w -> fits pre (w ++ LT :: c :: suf) -> c <> SLASH ->
  let P := zip (pre ++ w ++ [LT]) (c :: suf) l in
  TagOpenStep (zip pre (w ++ LT :: c :: suf) l) =
    if decide (c <> QUERY /\ c <> BANG) then Ret (inr (P, true)) else
    '(P, IsComment) ←
      (if decide (c = BANG) then
         let P := XmlParserConsume P 1 in
         Current ← XmlParserPeek P 0;
         Next ← XmlParserPeek P 1;
         Ret (if decide (Current = DASH /\ Next = DASH) then (XmlParserConsume P 2, true) else (P, false))
       else Ret (P, false));
    P ← while_ (bytes_fuel P) (SkipControl IsComment) P;
    Ret (if decide (P.(Position) < P.(Length)) then inl P else inr (P, true)).
Proof.
  intros Hw HF Hc P. unfold TagOpenStep. rewrite zip_skip by done. rewrite bind_ret. cbv beta. apply fits_app in HF.
  rewrite zip_peek_0 by done. rewrite bind_ret. cbv beta. rewrite decide_False by (intros K; by apply K). rewrite zip_consume_1 by done.
  apply fits_cons in HF. rewrite zip_peek_0 by done. rewrite bind_ret. cbv beta. rewrite decide_False by done. by rewrite <- app_assoc.
Qed.

Lemma TagOpenStep_close pre w suf l : Forall space w -> fits pre (w ++ LT :: SLASH :: suf) ->
  TagOpenStep (zip pre (w ++ LT :: SLASH :: suf) l) = Ret (inr (zip (pre ++ w ++ [LT]) (SLASH :: suf) l, false)).
Proof.
  intros Hw HF. unfold TagOpenStep. rewrite zip_skip by done. rewrite bind_ret. cbv beta. apply fits_app in HF.
  rewrite zip_peek_0 by done. rewrite bind_ret. cbv beta. rewrite decide_False by (intros K; by apply K). rewrite zip_consume_1 by done.
  apply fits_cons in HF. rewrite zip_peek_0 by done. rewrite bind_ret. cbv beta. rewrite decide_True by done. by rewrite <- app_assoc.
Qed.

Lemma TagOpenStep_control pre w c d suf l : Forall space w -> control c -> fits pre (w ++ c ++ d :: suf) ->
  TagOpenStep (zip pre (w ++ c ++ d :: suf) l) = Ret (inl (zip (pre ++ w ++ c) (d :: suf) l)).
Proof.
  intros Hw Hc HF. destruct Hc as [body Hb|body Hb Hd|body Hb].
  - change (str "<!--") with [LT; BANG; DASH; DASH] in *. change (str "-->") with end_mark in *. cbn [app] in *. rewrite <- app_assoc in *.
    rewrite TagOpenStep_open by done. rewrite decide_False by (intros [_ ?]; done). rewrite decide_True by done. cbv zeta.
    apply fits_app, fits_cons in HF. rewrite <- app_assoc in HF. rewrite zip_consume_1 by done. apply fits_cons in HF.
    rewrite zip_peek_0 by done. rewrite bind_ret. cbv beta. change 1 with (Z.of_nat 1) at 1. rewrite (zip_peek _ _ _ 1) by (done || lia). rewrite bind_ret. cbv beta.
    rewrite decide_True by done. rewrite bind_ret. cbv beta iota.
    change 2 with (Z.of_nat (length [DASH; DASH])). change (DASH :: DASH :: body ++ end_mark ++ d :: suf) with ([DASH; DASH] ++ body ++ end_mark ++ d :: suf) in *.
    rewrite zip_consume by (done || cbn; lia). rewrite fits_app in HF. rewrite skip_comment by side.
    rewrite bind_ret. cbv beta. rewrite decide_True by apply zip_inside. by app_eq.
  - change (str "<!") with [LT; BANG] in *. change (str ">") with [GT] in *. cbn [app] in *. rewrite <- app_assoc in *. cbn [app] in *.
    rewrite TagOpenStep_open by done. rewrite decide_False by (intros [_ ?]; done). rewrite decide_True by done. cbv zeta.
    apply fits_app, fits_cons in HF. rewrite <- app_assoc in HF. rewrite zip_consume_1 by done. apply fits_cons in HF.
    rewrite zip_peek_0 by done. rewrite bind_ret. cbv beta. change 1 with (Z.of_nat 1) at 1. rewrite (zip_peek _ _ _ 1) by (done || lia). rewrite bind_ret. cbv beta.
    rewrite decide_False. 2: { intros [E0 E1]. apply Hd. destruct body as [|c0 [|c1 body]]; [done|done|]. cbn in E0, E1. by subst. }
    rewrite bind_ret. cbv beta iota. rewrite skip_to_gt by side.
    rewrite bind_ret. cbv beta. rewrite decide_True by apply zip_inside. by app_eq.
  - change (str "<?") with [LT; QUERY] in *. change (str ">") with [GT] in *. cbn [app] in *. rewrite <- app_assoc in *. cbn [app] in *.
    rewrite TagOpenStep_open by done. rewrite decide_False by (intros [? _]; done). rewrite decide_False by done. rewrite bind_ret. cbv beta iota zeta.
    apply fits_app, fits_cons in HF. rewrite <- app_assoc in HF.
    change (QUERY :: body ++ GT :: d :: suf) with ((QUERY :: body) ++ GT :: d :: suf) in *.
    rewrite skip_to_gt by (side || by constructor).
    rewrite bind_ret. cbv beta. rewrite decide_True by apply zip_inside. by app_eq.
Qed.

Lemma control_nonempty c : control c -> (0 < length c)%nat.
Proof. destruct 1; rewrite length_app; cbn; lia. Qed.

(** The outer loop goes over the gap to the next tag. *)
Lemma TagOpen_loop g c suf l : gap g -> c <> QUERY -> c <> BANG -> forall pre n, fits pre (g ++ LT :: c :: suf) -> (length g < n)%nat ->
  while_ n TagOpenStep (zip pre (g ++ LT :: c :: suf) l) = Ret (zip (pre ++ g ++ [LT]) (c :: suf) l, bool_decide (c <> SLASH)).
Proof.
  intros Hg Hq Hb. induction Hg as [w Hw|w k g Hw Hk Hg IH]; intros pre n HF Hn; (destruct n as [|n]; [lia|]).
  - apply while_inr. destruct (decide (c = SLASH)) as [->|Hs]; [by apply TagOpenStep_close|].
    rewrite TagOpenStep_open by done. rewrite decide_True by done. by rewrite bool_decide_eq_true_2.
  - pose proof (control_nonempty k Hk) as Hlen. rewrite !length_app in Hn. rewrite <- !app_assoc in *.
    assert (exists d r, g ++ LT :: c :: suf = d :: r) as (d & r & E) by (destruct g; eauto).
    rewrite (while_inl _ _ _ (zip (pre ++ w ++ k) (g ++ LT :: c :: suf) l)).
    + rewrite IH; [by app_eq| |lia]. rewrite fits_app, fits_app in HF. by rewrite <- app_assoc in HF.
    + rewrite E in *. by apply TagOpenStep_control.
Qed.

Lemma TagOpen_gap pre g c suf l out : gap g -> c <> QUERY -> c <> BANG -> fits pre (g ++ LT :: c :: suf) ->
  XmlParseTagOpen (zip pre (g ++ LT :: c :: suf) l) out =
    if decide (c = SLASH) then Ret (zip (pre ++ g ++ [LT]) (c :: suf) l, out, None) else XmlParseTagEnd (zip (pre ++ g ++ [LT]) (c :: suf) l) out.
Proof.
  intros Hg Hq Hb HF. unfold XmlParseTagOpen. rewrite TagOpen_loop by side. rewrite bind_ret. cbv beta iota.
  case_decide as Hs; [by rewrite bool_decide_eq_false_2 by tauto|by rewrite bool_decide_eq_true_2].
Qed.

(** Names, attributes and the strings they become. *)
Lemma name_chars name : name_ok name -> Forall (fun c => c <> 0) name.
Proof. intros [H _]. eapply Forall_impl; [exact H|]. intros c [(_ & _ & ?) _]. done. Qed.
Lemma attribute_chars a : Forall tag_char a -> Forall (fun c => c <> 0) a.
Proof. intros H. eapply Forall_impl; [exact H|]. intros c (_ & _ & ?). done. Qed.

Lemma tag_head name attrs t : tag name attrs t -> exists c r, t = c :: r /\ c <> QUERY /\ c <> BANG /\ c <> SLASH.
Proof.
  intros Ht. assert (exists c r, name = c :: r /\ c <> QUERY /\ c <> BANG /\ c <> SLASH) as (c & r & E & H).
  { assert (name_ok name) as [Hn Hh] by by destruct Ht. destruct name as [|c r]; [done|]. apply Forall_cons in Hn as [[[? _] _] _]. exists c, r. tauto. }
  destruct Ht; subst; by eexists _, _.
Qed.

Lemma TagOpen_gap_tag pre g name attrs t suf l out : gap g -> tag name attrs t -> fits pre (g ++ LT :: t ++ suf) ->
  XmlParseTagOpen (zip pre (g ++ LT :: t ++ suf) l) out = XmlParseTagEnd (zip (pre ++ g ++ [LT]) (t ++ suf) l) out
  /\ fits (pre ++ g ++ [LT]) (t ++ suf).
Proof.
  intros Hg Ht HF. split; [|by rewrite fits_app, fits_cons, <- app_assoc in HF].
  destruct (tag_head _ _ _ Ht) as (c & r & -> & H1 & H2 & H3). cbn [app] in *. rewrite TagOpen_gap by done. by rewrite decide_False.
Qed.

(** What an open tag leaves: [out] for its bytes, with the name at [o]. *)
Definition opened (pre out : list Z) (o : Z) (a : option Z) (name : list Z) (attrs : option (list Z)) : Prop :=
  c_string (pre ++ out) o = Ret name /\ opt_string (pre ++ out) (At <$> a) attrs.

Lemma TagOpen_tag pre g name attrs t suf l : gap g -> tag name attrs t -> fits pre (g ++ LT :: t ++ GT :: suf) ->
  exists out a o, XmlParseTagOpen (zip pre (g ++ LT :: t ++ GT :: suf) l) (Some false, Some None) = Ret (zip (pre ++ out) suf l, (Some false, Some a), Some o)
    /\ length out = length (g ++ LT :: t ++ [GT]) /\ opened pre out o a name attrs.
Proof.
  intros Hg Ht HF. destruct (TagOpen_gap_tag pre g name attrs t (GT :: suf) l (Some false, Some None) Hg Ht HF) as [-> HF']. clear HF. rename HF' into HF. set (pre' := pre ++ g ++ [LT]) in *.
  destruct Ht as [name Hn|name w0 w a Hn Hw Ha Hb].
  - rewrite TagEnd_plain by done. exists (g ++ LT :: name ++ [0]), None, (Z.of_nat (length pre')). split; [unfold pre'; by app_eq|].
    split; [rewrite !length_app; cbn; rewrite !length_app; done|]. split; [|done].
    replace (pre ++ g ++ LT :: name ++ [0]) with (pre' ++ name ++ [0]) by (unfold pre'; by app_eq). apply c_string_at. by apply name_chars.
  - rewrite TagEnd_attributes by done. exists (g ++ LT :: name ++ 0 :: w ++ a ++ [0]), (Some (Z.of_nat (length (pre' ++ name ++ w0 :: w)))), (Z.of_nat (length pre')).
    split; [unfold pre'; by app_eq|]. split; [repeat progress (rewrite ?length_app; cbn); lia|]. split.
    + replace (pre ++ g ++ LT :: name ++ 0 :: w ++ a ++ [0]) with (pre' ++ name ++ 0 :: w ++ a ++ [0]) by (unfold pre'; by app_eq).
      apply c_string_at. by apply name_chars.
    + cbn. replace (pre ++ g ++ LT :: name ++ 0 :: w ++ a ++ [0]) with ((pre' ++ name ++ 0 :: w) ++ a ++ [0]) by (unfold pre'; by app_eq).
      replace (length (pre' ++ name ++ w0 :: w)) with (length (pre' ++ name ++ 0 :: w)) by (rewrite !length_app; done).
      apply c_string_at. by apply attribute_chars.
Qed.

Lemma TagOpen_closed pre g name attrs t suf l : gap g -> tag name attrs t -> fits pre (g ++ LT :: t ++ SLASH :: GT :: suf) ->
  exists out a o, XmlParseTagOpen (zip pre (g ++ LT :: t ++ SLASH :: GT :: suf) l) (Some false, Some None) = Ret (zip (pre ++ out) suf l, (Some true, Some a), Some o)
    /\ length out = length (g ++ LT :: t ++ [SLASH; GT]) /\ opened pre out o a name attrs.
Proof.
  intros Hg Ht HF. destruct (TagOpen_gap_tag pre g name attrs t (SLASH :: GT :: suf) l (Some false, Some None) Hg Ht HF) as [-> HF']. clear HF. rename HF' into HF. set (pre' := pre ++ g ++ [LT]) in *.
  destruct Ht as [name Hn|name w0 w a Hn Hw Ha Hb].
  - rewrite TagEnd_plain_closed by done. exists (g ++ LT :: name ++ [0; GT]), None, (Z.of_nat (length pre')). split; [unfold pre'; by app_eq|].
    split; [rewrite !length_app; cbn; rewrite !length_app; done|]. split; [|done].
    replace (pre ++ g ++ LT :: name ++ [0; GT]) with (pre' ++ name ++ [0; GT]) by (unfold pre'; by app_eq). apply c_string_at. by apply name_chars.
  - rewrite TagEnd_attributes_closed by done. exists (g ++ LT :: name ++ 0 :: w ++ a ++ [0; GT]), (Some (Z.of_nat (length (pre' ++ name ++ w0 :: w)))), (Z.of_nat (length pre')).
    split; [unfold pre'; by app_eq|]. split; [repeat progress (rewrite ?length_app; cbn); lia|]. split.
    + replace (pre ++ g ++ LT :: name ++ 0 :: w ++ a ++ [0; GT]) with (pre' ++ name ++ 0 :: w ++ a ++ [0; GT]) by (unfold pre'; by app_eq).
      apply c_string_at. by apply name_chars.
    + cbn. replace (pre ++ g ++ LT :: name ++ 0 :: w ++ a ++ [0; GT]) with ((pre' ++ name ++ 0 :: w) ++ a ++ [0; GT]) by (unfold pre'; by app_eq).
      replace (length (pre' ++ name ++ w0 :: w)) with (length (pre' ++ name ++ 0 :: w)) by (rewrite !length_app; done).
      apply c_string_at. by apply attribute_chars.
Qed.

(** The rest of a close tag, from its name on. *)
Lemma TagEnd_close pre name w suf l : name_ok name -> Forall space w -> fits pre (name ++ w ++ GT :: suf) ->
  exists out, XmlParseTagEnd (zip pre (name ++ w ++ GT :: suf) l) (None, None) = Ret (zip (pre ++ out) suf l, (None, None), Some (Z.of_nat (length pre)))
    /\ length out = length (name ++ w ++ [GT]) /\ c_string (pre ++ out) (Z.of_nat (length pre)) = Ret name.
Proof.
  intros Hn Hw HF. destruct w as [|w0 w].
  - cbn [app] in *. rewrite TagEnd_plain by done. eexists. split; [done|]. split; [by rewrite !length_app|]. apply c_string_at. by apply name_chars.
  - rewrite app_assoc in *. rewrite TagEnd_spaced by done. eexists. split; [done|]. split; [repeat progress (rewrite ?length_app; cbn); lia|].
    apply c_string_at. by apply name_chars.
Qed.

Definition close_prefix (Unprefixed : bool) : list Z := if Unprefixed then [SLASH] else [LT; SLASH].

Lemma TagClose_close pre Unprefixed name w suf l : name_ok name -> Forall space w -> fits pre (close_prefix Unprefixed ++ name ++ w ++ GT :: suf) ->
  exists out o, XmlParseTagClose (zip pre (close_prefix Unprefixed ++ name ++ w ++ GT :: suf) l) Unprefixed = Ret (zip (pre ++ out) suf l, Some o)
    /\ length out = length (close_prefix Unprefixed ++ name ++ w ++ [GT]) /\ c_string (pre ++ out) o = Ret name.
Proof.
  intros Hn Hw HF. unfold XmlParseTagClose.
  pose proof (zip_skip pre [] (close_prefix Unprefixed ++ name ++ w ++ GT :: suf) l) as E. cbn [app] in E. rewrite E by (done || by destruct Unprefixed).
  clear E. rewrite bind_ret. cbv beta. rewrite app_nil_r, zip_peek_0 by done. rewrite bind_ret. cbv beta zeta.
  pose proof HF as HF'. rewrite fits_app in HF'. destruct (TagEnd_close _ name w suf l Hn Hw HF') as (out & E & HL & HS).
  exists (close_prefix Unprefixed ++ out), (Z.of_nat (length (pre ++ close_prefix Unprefixed))).
  split; [|split; [rewrite length_app, HL; by rewrite (length_app (close_prefix _))|by rewrite app_assoc]]. destruct Unprefixed; cbn [close_prefix] in *.
  - rewrite decide_False by (intros K; by apply K). change 1 with (Z.of_nat (length [SLASH])). rewrite zip_consume by (done || cbn; lia).
    rewrite E, bind_ret. cbv beta iota. by rewrite <- app_assoc.
  - rewrite decide_False by (intros K; by apply K). change 1 with (Z.of_nat 1) at 1. rewrite zip_peek by (done || lia). rewrite bind_ret. cbv beta.
    rewrite decide_False by (intros K; by apply K). change 2 with (Z.of_nat (length [LT; SLASH])). rewrite zip_consume by (done || cbn; lia).
    rewrite E, bind_ret. cbv beta iota. by rewrite <- app_assoc.
Qed.

(** *** Text *)
Lemma scan_text pre y : forall x suf l n, Forall (fun c => c <> LT) y -> fits (pre ++ x) (y ++ LT :: suf) -> (length y < n)%nat ->
  while_ n (ContentStep (Z.of_nat (length pre))) (zip (pre ++ x) (y ++ LT :: suf) l, Z.of_nat (length x))
  = Ret (zip (pre ++ x ++ y) (LT :: suf) l, Z.of_nat (length (x ++ y))).
Proof.
  induction y as [|c y IH]; intros x suf l n Hy HF Hn; (destruct n as [|n]; [cbn in Hn; lia|]); pose proof (fits_small _ _ HF) as HS; rewrite length_app in HS; cbn [length app] in *.
  - apply while_inr. rewrite !app_nil_r. unfold ContentStep. cbn [Length zip]. rewrite wrap_small by lia.
    rewrite decide_True by (rewrite !length_app; cbn; lia). rewrite zip_peek_0 by done. rewrite bind_ret. cbv beta. by rewrite decide_True.
  - apply Forall_cons in Hy as [Hc Hy]. rewrite (while_inl _ _ _ (zip (pre ++ x ++ [c]) (y ++ LT :: suf) l, Z.of_nat (length (x ++ [c])))).
    + rewrite IH; [by rewrite <- !app_assoc|done|by rewrite fits_cons, <- app_assoc in HF|lia].
    + unfold ContentStep. cbn [Length zip]. rewrite !(wrap_small 64) by lia. rewrite decide_True by (rewrite !length_app; cbn; lia).
      rewrite zip_peek_0 by done. rewrite bind_ret. cbv beta. rewrite decide_False by done. rewrite zip_consume_1 by done.
      rewrite <- app_assoc, length_app. cbn [length]. do 3 f_equal. lia.
Qed.

Lemma trim_text P pre s w r n : P.(Buffer) = pre ++ s ++ w ++ r -> Forall space w -> s <> [] -> starts_black (reverse s) ->
  Z.of_nat (length pre + length s + length w) < 2 ^ 32 -> (length w < n)%nat ->
  while_ n (TrimStep P (Z.of_nat (length pre))) (Z.of_nat (length (s ++ w))) = Ret (Z.of_nat (length s)).
Proof.
  intros HB Hw Hs Hl HS Hn. revert r n HB Hn HS. induction w as [|c w IH] using rev_ind; intros r n HB Hn HS; (destruct n as [|n]; [lia|]).
  - rewrite app_nil_r. apply while_inr. destruct s as [|c s _] using rev_ind; [done|]. rewrite reverse_snoc in Hl. cbn in Hl. unfold TrimStep.
    rewrite length_app in *. cbn [length app] in *. rewrite decide_True by lia. rewrite !(wrap_small 64) by (rewrite ?(wrap_small 64); lia).
    replace (Z.of_nat (length pre) + Z.of_nat (length s + 1) - 1) with (Z.of_nat (length (pre ++ s))) by (rewrite length_app; lia).
    rewrite (rd_nat _ _ c); [rewrite bind_ret; by rewrite Hl|]. rewrite HB, <- app_assoc, app_assoc. cbn [app]. by rewrite list_lookup_middle.
  - apply Forall_app in Hw as [Hw Hc]. rewrite Forall_singleton in Hc. rewrite !length_app in *. cbn [length] in *.
    rewrite (while_inl _ _ _ (Z.of_nat (length s + length w))).
    + apply (IH Hw ([c] ++ r)); [by rewrite HB; app_eq|lia|lia].
    + unfold TrimStep. rewrite decide_True by lia. rewrite !(wrap_small 64) by (rewrite ?(wrap_small 64); lia).
      replace (Z.of_nat (length pre) + Z.of_nat (length s + (length w + 1)) - 1) with (Z.of_nat (length (pre ++ s ++ w))) by (rewrite !length_app; lia).
      rewrite (rd_nat _ _ c). { rewrite bind_ret. cbv beta. unfold space in Hc. rewrite Hc. do 2 f_equal. lia. }
      rewrite HB. replace (pre ++ s ++ (w ++ [c]) ++ r) with ((pre ++ s ++ w) ++ c :: r) by (by app_eq). by rewrite list_lookup_middle.
Qed.

Lemma spaces_no_lt w : Forall space w -> Forall (fun c => c <> LT) w.
Proof. intros H. eapply Forall_impl; [exact H|]. intros c Hc. apply space_cases in Hc. unfold LT. lia. Qed.

Lemma Content_text pre s w suf l : text_ok s -> Forall space w -> fits pre (s ++ w ++ LT :: suf) ->
  exists out, XmlParseContent (zip pre (s ++ w ++ LT :: suf) l) = Ret (zip (pre ++ out) suf l, Some (Z.of_nat (length pre)))
    /\ length out = length (s ++ w ++ [LT]) /\ c_string (pre ++ out) (Z.of_nat (length pre)) = Ret s.
Proof.
  intros (Hs & Hne & Hb & He) Hw HF. pose proof (fits_small _ _ HF) as HS. rewrite !length_app in HS. cbn [length] in HS. unfold XmlParseContent.
  assert (Forall (fun c => c <> LT) (s ++ w)) as Hsw.
  { apply Forall_app. split; [|by apply spaces_no_lt]. eapply Forall_impl; [exact Hs|]. by intros c [? _]. }
  assert (Forall (fun c => c <> 0) s) as H0 by (eapply Forall_impl; [exact Hs|]; by intros c [_ ?]).
  pose proof (zip_skip pre [] (s ++ w ++ LT :: suf) l) as E. cbn [app] in E. rewrite E by (done || by destruct s). clear E.
  rewrite bind_ret. cbv beta. rewrite app_nil_r. change (Position (zip pre (s ++ w ++ LT :: suf) l)) with (Z.of_nat (length pre)).
  rewrite app_assoc in *. pose proof (scan_text pre (s ++ w) [] suf l (bytes_fuel (zip pre ((s ++ w) ++ LT :: suf) l)) Hsw) as E.
  rewrite !app_nil_r in E. cbn [app length] in E. change (Z.of_nat 0) with 0 in E. rewrite E by side. clear E. rewrite bind_ret. cbv beta iota.
  rewrite fits_app in HF. rewrite zip_peek_0 by done. rewrite bind_ret. cbv beta. rewrite decide_False by (intros K; by apply K).
  rewrite (trim_text _ pre s w (LT :: suf)) by (try done; try (cbn; by rewrite <- !app_assoc); try lia; side). rewrite bind_ret. cbv beta.
  rewrite wrap_small by lia. rewrite <- Nat2Z.inj_add. destruct w as [|w0 w].
  - rewrite app_nil_r in *. destruct (zip_wr_next (pre ++ s) LT suf l) as (b & E1 & E2). rewrite length_app in E1. rewrite E1, bind_ret. cbv beta.
    rewrite E2. apply fits_nul in HF. rewrite zip_consume_1 by done. exists (s ++ [0]). split; [by app_eq|]. split; [rewrite !length_app; done|].
    by apply c_string_at.
  - destruct (zip_wr pre s w0 w (LT :: suf) l) as (b & E1 & E2). rewrite E1, bind_ret. cbv beta. rewrite E2.
    rewrite zip_consume_1 by (flen).
    exists (s ++ 0 :: w ++ [LT]). split; [by app_eq|]. split; [repeat progress (rewrite ?length_app; cbn); lia|]. by apply c_string_at.
Qed.

(** ** White space in front

    The parser skips white space early, after each tag; what is left is still a gap,
    and still prints the same element. *)
Lemma space_split (s : list Z) : exists w r, s = w ++ r /\ Forall space w /\ starts_black r.
Proof.
  induction s as [|c s (w & r & -> & Hw & Hr)]; [by exists [], []|]. destruct (IsAsciiSpace c) eqn:Hc.
  - exists (c :: w), r. split; [done|]. split; [by constructor|done].
  - by exists [], (c :: w ++ r).
Qed.

Lemma control_head c : control c -> exists d r, c = LT :: d :: r /\ (d = BANG \/ d = QUERY).
Proof. destruct 1; eexists _, _; (split; [reflexivity|]); cbn; unfold BANG, QUERY; tauto. Qed.

Lemma lt_black : IsAsciiSpace LT = false.
Proof. done. Qed.

(** White space before something black. *)
Lemma spaces_prefix w w1 c r r1 : Forall space w -> Forall space w1 -> IsAsciiSpace c = false -> w ++ r = w1 ++ c :: r1 ->
  exists w', w1 = w ++ w' /\ r = w' ++ c :: r1.
Proof.
  intros Hw. revert w1. induction Hw as [|a w Ha Hw IH]; intros w1 Hw1 Hc E; [by exists w1|]. destruct w1 as [|b w1]; cbn in E.
  - injection E as -> _. unfold space in Ha. congruence.
  - injection E as -> E. apply Forall_cons in Hw1 as [_ Hw1]. destruct (IH w1 Hw1 Hc E) as (w' & -> & ->). by exists w'.
Qed.

Lemma gap_trim g suf w r : gap g -> Forall space w -> g ++ LT :: suf = w ++ r -> exists g', g = w ++ g' /\ gap g' /\ r = g' ++ LT :: suf.
Proof.
  intros Hg Hw E. destruct Hg as [w1 Hw1|w1 c g Hw1 Hc Hg].
  - destruct (spaces_prefix w w1 LT r suf) as (w' & -> & ->); [done..|]. apply Forall_app in Hw1 as [_ Hw']. exists w'. split; [done|]. split; [by apply gap_space|done].
  - destruct (control_head c Hc) as (d & k & Ec & _). rewrite <- !app_assoc in E. rewrite Ec in E. cbn [app] in E.
    destruct (spaces_prefix w w1 LT r (d :: k ++ g ++ LT :: suf)) as (w' & -> & ->); [done..|]. apply Forall_app in Hw1 as [_ Hw'].
    exists (w' ++ c ++ g). split; [by rewrite <- !app_assoc|]. split; [by apply gap_control|]. rewrite Ec. by app_eq.
Qed.

(** A gap is over at once, or its second byte does not close a tag. *)
Lemma gap_second g suf : gap g -> g <> [] -> default 0 ((g ++ LT :: suf) !! 1%nat) <> SLASH.
Proof.
  intros Hg Hne. destruct Hg as [w Hw|w c g Hw Hc Hg].
  - destruct w as [|a [|b w]]; [done|done|]. apply Forall_cons in Hw as [_ Hw]. apply Forall_cons in Hw as [Hb _]. cbn. apply space_tag_char in Hb as [? _]. done.
  - destruct (control_head c Hc) as (d & k & -> & Hd). destruct w as [|a [|b w]]; cbn.
    + destruct Hd as [->| ->]; done.
    + done.
    + apply Forall_cons in Hw as [_ Hw]. apply Forall_cons in Hw as [Hb _]. apply space_tag_char in Hb as [? _]. done.
Qed.

Lemma gap_next g suf : gap g -> starts_black (g ++ LT :: suf) -> next (g ++ LT :: suf) = LT.
Proof.
  intros Hg Hb. destruct Hg as [w Hw|w c g Hw Hc Hg].
  - destruct w as [|a w]; [done|]. apply Forall_cons in Hw as [Ha _]. cbn in Hb. unfold space in Ha. congruence.
  - destruct w as [|a w]; [by destruct (control_head c Hc) as (d & k & -> & _)|]. apply Forall_cons in Hw as [Ha _]. cbn in Hb. unfold space in Ha. congruence.
Qed.

(** An element starts with a gap, an opening and something else than a slash. *)
Lemma prints_head t s : prints t s -> exists g c r, gap g /\ s = g ++ LT :: c :: r /\ c <> SLASH.
Proof.
  destruct 1 as [g ? ? tg Hg Ht|g ? ? tg ? ? ? ? Hg Ht|g ? ? tg ? ? ? ? Hg Ht]; destruct (tag_head _ _ _ Ht) as (c & r & -> & _ & _ & ?);
    eexists g, c, _; (split; [done|]); (split; [reflexivity|done]).
Qed.

Lemma prints_trim t s suf w r : prints t s -> Forall space w -> s ++ suf = w ++ r -> exists s', prints t s' /\ s = w ++ s' /\ r = s' ++ suf.
Proof.
  intros Hp Hw E.
  assert (forall g k, s = g ++ LT :: k -> gap g -> exists g', g = w ++ g' /\ gap g' /\ r = g' ++ LT :: k ++ suf) as K.
  { intros g k -> Hg. rewrite <- app_assoc in E. cbn [app] in E. exact (gap_trim g (k ++ suf) w r Hg Hw E). }
  destruct Hp as [g name attrs tg Hg Ht|g name attrs tg w1 s1 w' w'' Hg Ht H1 H2 H3 H4|g name attrs tg ts b g2 w1 Hg Ht Hl Hg2 Hw1].
  - destruct (K g _ eq_refl Hg) as (g' & -> & Hg' & ->). eexists. split; [by apply (prints_closed g')|]. split; [by rewrite <- app_assoc|by app_eq].
  - destruct (K g _ eq_refl Hg) as (g' & -> & Hg' & ->). eexists. split; [by apply (prints_text g' name attrs tg w1 s1 w' w'')|]. split; [by rewrite <- app_assoc|by app_eq].
  - destruct (K g _ eq_refl Hg) as (g' & -> & Hg' & ->). eexists. split; [by apply (prints_children g' name attrs tg ts b g2 w1)|]. split; [by rewrite <- app_assoc|by app_eq].
Qed.

(** ** Parsing what was printed *)

Lemma opt_string_more b r c s : opt_string b c s -> opt_string (b ++ r) c s.
Proof. destruct c as [[]|], s; cbn; try done. apply c_string_more. Qed.

Lemma reads_more b r : forall x t, reads b x t -> reads (b ++ r) x t.
Proof.
  intros x. induction x as [n kids IH] using xnode_ind'. intros t.
  assert (forall c s, AsciiStr b c = Ret s -> AsciiStr (b ++ r) c = Ret s) as HS by (intros [] ?; cbn; [apply c_string_more|done]).
  inversion 1 as [? ? ? ? H1 H2 H3 H4|? l ? ? ? ? ts H1 H2 H3 H4 H5]; subst.
  - constructor; eauto using opt_string_more.
  - econstructor; eauto using opt_string_more. clear H. induction H5; [constructor|]. apply Forall_cons in IH as [IH1 IH2]. constructor; auto.
Qed.

Section Round_trip.
Context `{HPool : XmlPool} {HPoolLaws : XmlPoolLaws HPool} `{HLib : AsciiLib} {HLaws : AsciiLibLaws HLib}.

(** The parser reads the element [t] from the input [s]; white space after it may
    be gone too. *)
Definition parses (t : xml) (s : list Z) : Prop := forall dep pre rest l h,
  fresh h -> fits pre (s ++ rest) -> 0 <= l -> depth t + l < XML_PARSER_NEST_LEVEL -> narrow t -> XML_PARSER_NEST_LEVEL + 1 <= l + Z.of_nat dep ->
  exists out w rest' h' p x, XmlParseNode dep (Parse (zip pre (s ++ rest) l) None h) = Ret (Parse (zip (pre ++ out) rest' l) None h', Some p)
    /\ rest = w ++ rest' /\ Forall space w /\ length out = length (s ++ w) /\ fresh h' /\ holds h' h.(Nodes) h.(Lists) p x /\ reads (pre ++ out) x t.

Definition trimmed_parses (t : xml) (s : list Z) : Prop := prints t s /\ forall w s', s = w ++ s' -> Forall space w -> parses t s'.

(** Without an element there is the close tag of the parent. *)
Lemma ParseNode_close dep pre g suf l h : gap g -> fits pre (g ++ LT :: SLASH :: suf) ->
  XmlParseNode (S dep) (Parse (zip pre (g ++ LT :: SLASH :: suf) l) None h) = Ret (Parse (zip (pre ++ g ++ [LT]) (SLASH :: suf) l) None h, None).
Proof.
  intros Hg HF. cbn [XmlParseNode]. cbn [Psr]. rewrite TagOpen_gap by done. rewrite decide_True by done. rewrite bind_ret. done.
Qed.

Lemma child_loop dep p nd N0 L0 l rest : all_met -> 0 <= l <= XML_PARSER_NEST_LEVEL -> XML_PARSER_NEST_LEVEL + 1 <= l + Z.of_nat dep ->
  forall ts ss, Forall2 trimmed_parses ts ss -> forall g n pre r w h kids lst0 hc, gap g -> Forall space w ->
  concat ss ++ g ++ LT :: SLASH :: rest = w ++ r -> fresh h -> holds h N0 L0 p (XNode (set_Children nd lst0) kids) -> fits pre r ->
  Z.of_nat (length kids + length ts) < XML_PARSER_NODE_COUNT -> Forall (fun t => depth t + l < XML_PARSER_NEST_LEVEL /\ narrow t) ts -> (length ts < n)%nat ->
  exists out un hc' h' lst xs,
    while_ n (ChildStep (XmlParseNode dep) p) (Parse (zip pre r l) None h, hc)
      = Ret (Parse (zip (pre ++ out) (close_prefix un ++ rest) l) None h', Some (hc', un))
    /\ length (out ++ close_prefix un ++ rest) = length r /\ fresh h' /\ holds h' N0 L0 p (XNode (set_Children nd lst) (kids ++ xs))
    /\ Forall2 (reads (pre ++ out)) xs ts /\ (ts = [] -> lst = lst0).
Proof.
  intros Hmet Hl Hdep ts ss HP. induction HP as [|t s ts ss [Hpr HPt] HPs IH]; intros g n pre r w h kids lst0 hc Hg Hw E HF HH HFit Hcount Hts Hn;
    (destruct n as [|n]; [lia|]); (destruct dep as [|dep]; [lia|]).
  - destruct (gap_trim g _ w r Hg Hw E) as (g' & -> & Hg' & ->). destruct (decide (g' = [])) as [->|Hne].
    + exists [], false, hc, h, lst0, []. rewrite !app_nil_r. split; [|done]. apply while_inr. unfold ChildStep. cbn [Psr].
      change 1 with (Z.of_nat 1) at 1. rewrite zip_peek by (done || lia). rewrite bind_ret. cbv beta. by rewrite decide_True.
    + exists (g' ++ [LT]), true, hc, h, lst0, []. rewrite app_nil_r. split; [|split; [by app_eq|done]]. apply while_inr. unfold ChildStep. cbn [Psr].
      change 1 with (Z.of_nat 1) at 1. rewrite zip_peek by (done || lia). rewrite bind_ret. cbv beta. rewrite decide_False by by apply gap_second.
      rewrite ParseNode_close by done. rewrite bind_ret. cbv beta iota. cbn [Psr]. rewrite fits_app, fits_cons, <- app_assoc in HFit.
      rewrite zip_peek_0 by done. rewrite bind_ret. cbv beta. by rewrite decide_True.
  - cbn [concat] in E. rewrite <- app_assoc in E. destruct (prints_trim t s _ w r Hpr Hw E) as (s' & Hpr' & -> & ->).
    apply Forall_cons in Hts as [[Hd Hnar] Hts].
    destruct (HPt w s' eq_refl Hw (S dep) pre _ l h HF HFit ltac:(lia) Hd Hnar Hdep) as (out & w2 & rest' & h2 & c & x & EN & Er & Hw2 & Hout & HF2 & HH2 & HR).
    destruct (ChildPush_spec h h2 N0 L0 p _ kids c x HH HH2 HF2) as (h3 & Pushed & EP & HF3 & _ & _ & HPush). cbn [length] in Hcount.
    destruct Pushed; [|destruct HPush as (_ & _ & HPush); specialize (HPush Hmet); lia]. destruct HPush as (lst1 & HH3).
    assert (fits (pre ++ out) rest') as HFit'.
    { unfold fits in *. rewrite Er in HFit. rewrite !length_app in *. lia. }
    destruct (IH g n (pre ++ out) rest' w2 h3 (kids ++ [x]) lst1 true) as (out2 & un & hc' & h' & lst & xs & EW & HL & HF' & HH' & HR' & _); try done;
      [rewrite length_app; cbn; lia|cbn in Hn; lia|].
    exists (out ++ out2), un, hc', h', lst, (x :: xs). split; [|split; [|split; [done|split]]].
    + rewrite (while_inl _ _ _ (Parse (zip (pre ++ out) rest' l) None h3, true)); [by rewrite EW, app_assoc|].
      unfold ChildStep. cbn [Psr]. change 1 with (Z.of_nat 1) at 1. rewrite zip_peek by (done || lia). rewrite bind_ret. cbv beta.
      rewrite decide_False.
      * rewrite EN, bind_ret. cbv beta iota. cbn [Mem]. rewrite EP, bind_ret. cbv beta iota. done.
      * destruct (prints_head _ _ Hpr') as (g2 & c2 & r2 & Hg2 & -> & Hc2). rewrite <- app_assoc. cbn [app].
        destruct (decide (g2 = [])) as [->|]; [done|by apply gap_second].
    + rewrite Er, <- app_assoc, !length_app in *. lia.
    + by rewrite <- app_assoc in HH'.
    + split; [|done]. rewrite app_assoc. constructor; [by apply reads_more|done].
Qed.

(** The node of an open tag. *)
Lemma Create_met h n : all_met -> fresh h -> n.(Children) = None ->
  exists h' p, XmlNodeCreate h n = (h', Some p) /\ fresh h' /\ holds h' h.(Nodes) h.(Lists) p (XNode n []).
Proof.
  intros Hmet HF HC. destruct (NodeCreate_spec h n HF HC) as (h' & r & E & HF' & _ & _ & Hr). destruct r as [p|]; [|by destruct Hr as (_ & _ & Hr)].
  by exists h', p.
Qed.

Lemma ParseNode_closed dep pre g name attrs tg w r l h : all_met -> fresh h -> gap g -> tag name attrs tg -> Forall space w -> starts_black r ->
  fits pre (g ++ LT :: tg ++ SLASH :: GT :: w ++ r) ->
  exists out h' p x, XmlParseNode (S dep) (Parse (zip pre (g ++ LT :: tg ++ SLASH :: GT :: w ++ r) l) None h) = Ret (Parse (zip (pre ++ out) r l) None h', Some p)
    /\ length out = length (g ++ LT :: tg ++ SLASH :: GT :: w) /\ fresh h' /\ holds h' h.(Nodes) h.(Lists) p x /\ reads (pre ++ out) x (Elem name attrs None None).
Proof.
  intros Hmet HF Hg Ht Hw Hr HFit. destruct (TagOpen_closed pre g name attrs tg (w ++ r) l Hg Ht HFit) as (out & a & o & E & HL & Hn & Ha).
  set (n := Node (At o) (At <$> a) None None None). destruct (Create_met h n Hmet HF eq_refl) as (h' & p & EC & HF' & HH).
  assert (fits (pre ++ out) (w ++ r)) as HFit2.
  { flen. }
  exists (out ++ w), h', p, (XNode n []). split; [|split; [flen|split; [done|split; [done|]]]].
  - cbn [XmlParseNode]. cbn [Psr]. rewrite E, bind_ret. cbv beta iota zeta. cbn [snd fst]. change (default None (Some a)) with a. rewrite zip_skip by done. rewrite bind_ret. cbv beta zeta.
    cbn [Mem Refs set_Psr XmlNodeReal]. rewrite bind_ret. cbv beta. fold n. rewrite EC. cbv beta iota. by rewrite app_assoc.
  - rewrite app_assoc. apply reads_more. by constructor.
Qed.

Lemma ParseNode_open dep pre g name attrs tg w r l h : all_met -> fresh h -> gap g -> tag name attrs tg -> Forall space w -> starts_black r ->
  fits pre (g ++ LT :: tg ++ GT :: w ++ r) ->
  exists out a o h' p, let n := Node (At o) (At <$> a) None None None in
    XmlParseNode (S dep) (Parse (zip pre (g ++ LT :: tg ++ GT :: w ++ r) l) None h)
      = ('(s, Body) ← ParseBody (XmlParseNode dep) p (At <$> a) (Parse (zip (pre ++ out ++ w) r l) None h');
         match Body with None => Ret (s, None) | Some (Unprefixed, Number) => ParseClose p o Unprefixed Number s end)
    /\ length out = length (g ++ LT :: tg ++ [GT]) /\ fresh h' /\ holds h' h.(Nodes) h.(Lists) p (XNode n []) /\ opened pre out o a name attrs
    /\ fits (pre ++ out ++ w) r.
Proof.
  intros Hmet HF Hg Ht Hw Hr HFit. destruct (TagOpen_tag pre g name attrs tg (w ++ r) l Hg Ht HFit) as (out & a & o & E & HL & HO).
  set (n := Node (At o) (At <$> a) None None None). destruct (Create_met h n Hmet HF eq_refl) as (h' & p & EC & HF' & HH).
  assert (fits (pre ++ out) (w ++ r)) as HFit2.
  { flen. }
  exists out, a, o, h', p. split; [|do 4 (split; [done|]); by rewrite fits_app, <- app_assoc in HFit2].
  cbn [XmlParseNode]. cbn [Psr]. rewrite E, bind_ret. cbv beta iota zeta. cbn [snd fst]. change (default None (Some a)) with a. rewrite zip_skip by done. rewrite bind_ret. cbv beta zeta.
  cbn [Mem Refs set_Psr XmlNodeReal]. rewrite bind_ret. cbv beta. fold n. rewrite EC. cbv beta iota. by rewrite <- app_assoc.
Qed.

Lemma ParseClose_zip p o un name w pre rest l h : name_ok name -> Forall space w -> c_string pre o = Ret name ->
  fits pre (close_prefix un ++ name ++ w ++ GT :: rest) ->
  exists out, ParseClose p o un None (Parse (zip pre (close_prefix un ++ name ++ w ++ GT :: rest) l) None h) = Ret (Parse (zip (pre ++ out) rest l) None h, Some p)
    /\ length out = length (close_prefix un ++ name ++ w ++ [GT]).
Proof.
  intros Hn Hw Ho HF. destruct (TagClose_close pre un name w rest l Hn Hw HF) as (out & o2 & E & HL & Hs). exists out. split; [|done].
  unfold ParseClose. cbn [Psr]. rewrite E, bind_ret. cbv beta iota zeta. cbn [Buffer zip]. rewrite (c_string_more _ rest _ _ (c_string_more _ out _ _ Ho)), bind_ret. cbv beta.
  rewrite (c_string_more _ rest _ _ Hs), bind_ret. cbv beta. rewrite decide_False; [done|]. intros K. apply K. by apply AsciiStrCmp_eq.
Qed.

Lemma tag_name name attrs tg : tag name attrs tg -> name_ok name.
Proof. by destruct 1. Qed.

(** An element with text. *)
Lemma parses_text g name attrs tg w s w' w'' : all_met -> gap g -> tag name attrs tg -> Forall space w -> text_ok s -> Forall space w' -> Forall space w'' ->
  parses (Elem name attrs (Some s) None) (g ++ str "<" ++ tg ++ str ">" ++ w ++ s ++ w' ++ str "</" ++ name ++ w'' ++ str ">").
Proof.
  intros Hmet Hg Ht Hw Hs Hw' Hw'' dep pre rest l h HF HFit Hl Hd Hnar Hdep. destruct dep as [|dep]; [cbn in Hd; lia|].
  change (str "<") with [LT] in *. change (str ">") with [GT] in *. change (str "</") with [LT; SLASH] in *.
  set (r := s ++ w' ++ LT :: SLASH :: name ++ w'' ++ GT :: rest).
  assert ((g ++ [LT] ++ tg ++ [GT] ++ w ++ s ++ w' ++ [LT; SLASH] ++ name ++ w'' ++ [GT]) ++ rest = g ++ LT :: tg ++ GT :: w ++ r) as E0 by (unfold r; by app_eq).
  rewrite E0 in *. pose proof Hs as (Hs1 & Hs2 & Hs3 & Hs4).
  destruct (ParseNode_open dep pre g name attrs tg w r l h Hmet HF Hg Ht Hw) as (out & a & o & h1 & p & EN & HL & HF1 & HH1 & [HO1 HO2] & HFit1); [by destruct s|done|].
  destruct (Content_text (pre ++ out ++ w) s w' (SLASH :: name ++ w'' ++ GT :: rest) l Hs Hw' HFit1) as (out2 & EC & HL2 & HS2).
  set (n := Node (At o) (At <$> a) None None None) in *. set (o2 := Z.of_nat (length (pre ++ out ++ w))) in *. set (n' := set_Content n (Some (At o2))).
  pose proof (holds_update _ _ _ _ n n' eq_refl eq_refl HH1) as HH2. set (h2 := set_Nodes h1 _) in *.
  assert (fits ((pre ++ out ++ w) ++ out2) (close_prefix true ++ name ++ w'' ++ GT :: rest)) as HFit2.
  { unfold fits, r in *. cbn [close_prefix]. flen. }
  assert (c_string ((pre ++ out ++ w) ++ out2) o = Ret name) as HO3 by (rewrite app_assoc; by do 2 apply c_string_more).
  destruct (ParseClose_zip p o true name w'' _ rest l h2 (tag_name _ _ _ Ht) Hw'' HO3 HFit2) as (out3 & EP & HL3).
  exists (out ++ w ++ out2 ++ out3), [], rest, h2, p, (XNode n' []). split; [|split; [done|split; [constructor|split; [|split; [|split; [done|]]]]]].
  - rewrite EN. unfold ParseBody. cbn [Psr]. rewrite zip_peek_0 by done. rewrite bind_ret. cbv beta. rewrite decide_True.
    2: { unfold r. destruct s as [|c s]; [done|]. apply Forall_cons in Hs1 as [[? _] _]. done. }
    unfold r. rewrite EC, bind_ret. cbv beta iota. cbn [Mem]. rewrite (deref_some _ p n) by by eapply holds_root. rewrite bind_ret. cbv beta zeta.
    cbn [OwnReference Refs]. rewrite bind_ret. cbv beta. rewrite bind_ret. cbv beta iota.
    change (SLASH :: name ++ w'' ++ GT :: rest) with (close_prefix true ++ name ++ w'' ++ GT :: rest).
    change (set_Nodes h1 (<[p := set_Content n (At <$> Some o2)]> (Nodes h1))) with h2. rewrite EP. by rewrite <- !app_assoc.
  - rewrite app_nil_r. unfold r in *. cbn [close_prefix] in *. flen.
  - intros k Hk. cbn in Hk |- *. destruct (HF1 k Hk) as (K1 & K2 & K3 & K4). rewrite lookup_insert_ne; [done|]. intros <-. by rewrite (holds_root _ _ _ _ _ _ HH1) in K1.
  - replace (pre ++ out ++ w ++ out2 ++ out3) with (((pre ++ out ++ w) ++ out2) ++ out3) by by rewrite <- !app_assoc. apply reads_more.
    constructor; [exact HO3| |exact HS2|done]. cbn [Attributes n' n set_Content]. rewrite app_assoc. by do 2 apply opt_string_more.
Qed.

Lemma depth_nonneg t : 0 <= depth t.
Proof. destruct t as [? ? ? [ts|]]; cbn; [|lia]. induction ts; cbn; lia. Qed.

Lemma depth_children name attrs text ts k : Forall (fun t => 1 + depth t <= k) ts <-> depth (Elem name attrs text (Some ts)) <= k \/ ts = [].
Proof.
  cbn. induction ts as [|t ts IH]; cbn; [split; [by right|constructor]|]. rewrite Forall_cons, IH. pose proof (depth_nonneg t).
  split; [intros [? [?| ->]]; cbn; left; lia|intros [?|]; [split; [lia|left; lia]|done]].
Qed.

(** What follows an open tag with children starts with a tag. *)
Lemma children_next ts ss g suf w r : Forall2 trimmed_parses ts ss -> gap g -> Forall space w -> starts_black r ->
  concat ss ++ g ++ LT :: suf = w ++ r -> next r = LT.
Proof.
  intros HP Hg Hw Hr E. destruct HP as [|t s ts ss [Hpr _] _].
  - destruct (gap_trim g _ w r Hg Hw E) as (g' & _ & Hg' & ->). by apply gap_next.
  - cbn [concat] in E. rewrite <- app_assoc in E. destruct (prints_trim t s _ w r Hpr Hw E) as (s' & Hpr' & _ & ->).
    destruct (prints_head _ _ Hpr') as (g2 & c & k & Hg2 & -> & _). rewrite <- app_assoc in *. by apply gap_next.
Qed.

Lemma children_length ts ss : Forall2 trimmed_parses ts ss -> (length ts <= length (concat ss))%nat.
Proof.
  induction 1 as [|t s ts ss [Hpr _] _ IH]; [done|]. cbn. rewrite length_app. destruct (prints_head _ _ Hpr) as (g & c & r & _ & -> & _).
  rewrite length_app. cbn. lia.
Qed.

(** The loop over the children, as part of the body. *)
Lemma ParseBody_children dep p n N0 L0 a ts ss g rest w r pre l h : all_met -> 0 <= l -> l < XML_PARSER_NEST_LEVEL ->
  XML_PARSER_NEST_LEVEL <= l + Z.of_nat dep -> Forall2 trimmed_parses ts ss -> gap g -> Forall space w -> starts_black r ->
  concat ss ++ g ++ LT :: SLASH :: rest = w ++ r -> fresh h -> holds h N0 L0 p (XNode n []) -> fits (pre ++ w) r ->
  Z.of_nat (length ts) < XML_PARSER_NODE_COUNT -> Forall (fun t => depth t + (l + 1) < XML_PARSER_NEST_LEVEL /\ narrow t) ts ->
  exists out un h' lst xs,
    ParseBody (XmlParseNode dep) p a (Parse (zip (pre ++ w) r l) None h) = Ret (Parse (zip ((pre ++ w) ++ out) (close_prefix un ++ rest) l) None h', Some (un, None))
    /\ length (out ++ close_prefix un ++ rest) = length r /\ fresh h' /\ holds h' N0 L0 p (XNode (set_Children n lst) xs)
    /\ Forall2 (reads ((pre ++ w) ++ out)) xs ts /\ (ts = [] -> lst = n.(Children)).
Proof.
  intros Hmet Hl0 Hl Hdep HP Hg Hw Hr E HF HH HFit Hcount Hts. unfold XML_PARSER_NEST_LEVEL in *.
  destruct (child_loop dep p n N0 L0 (l + 1) rest Hmet ltac:(unfold XML_PARSER_NEST_LEVEL; lia) ltac:(unfold XML_PARSER_NEST_LEVEL; lia) ts ss HP g
    (bytes_fuel (zip (pre ++ w) r (l + 1))) (pre ++ w) r w h [] n.(Children) false Hg Hw E HF) as (out & un & hc & h' & lst & xs & EW & HL & HF' & HH' & HR & HC); [|done|done|done| |].
  { by replace (set_Children n n.(Children)) with n by by destruct n. }
  { pose proof (children_length _ _ HP). apply (f_equal length) in E. unfold bytes_fuel. cbn [Length zip]. flen. }
  exists out, un, h', lst, xs. split; [|done]. unfold ParseBody. cbn [Psr]. rewrite zip_peek_0 by done. rewrite bind_ret. cbv beta.
  rewrite decide_False by (intros K; apply K; by eapply children_next). cbv zeta. cbn [Level set_Level]. change (Level (zip (pre ++ w) r l)) with l.
  rewrite (wrap_small 32 (l + 1)) by lia. rewrite decide_False by (unfold XML_PARSER_NEST_LEVEL; lia).
  change (set_Psr (Parse (zip (pre ++ w) r l) None h) (set_Level (zip (pre ++ w) r l) (l + 1))) with (Parse (zip (pre ++ w) r (l + 1)) None h).
  change (bytes_fuel (set_Level (zip (pre ++ w) r l) (l + 1))) with (bytes_fuel (zip (pre ++ w) r (l + 1))). rewrite EW, bind_ret. cbv beta iota zeta.
  change (Level (Psr (Parse (zip ((pre ++ w) ++ out) (close_prefix un ++ rest) (l + 1)) None h'))) with (l + 1).
  rewrite (wrap_small 32 (l + 1 - 1)) by lia. rewrite Z.add_simpl_r. cbn [OwnReference Refs set_Psr]. by destruct hc; rewrite bind_ret.
Qed.

Lemma parses_children g name attrs tg ts ss g' w : all_met -> gap g -> tag name attrs tg -> Forall2 trimmed_parses ts ss -> gap g' -> Forall space w ->
  parses (Elem name attrs None (some_children ts)) (g ++ str "<" ++ tg ++ str ">" ++ concat ss ++ g' ++ str "</" ++ name ++ w ++ str ">").
Proof.
  intros Hmet Hg Ht HP Hg' Hw dep pre rest l h HF HFit Hl Hd Hnar Hdep. pose proof (depth_nonneg (Elem name attrs None (some_children ts))) as Hd0.
  destruct dep as [|dep]; [lia|]. change (str "<") with [LT] in *. change (str ">") with [GT] in *. change (str "</") with [LT; SLASH] in *.
  set (rest0 := name ++ w ++ GT :: rest). destruct (space_split (concat ss ++ g' ++ LT :: SLASH :: rest0)) as (w0 & r & E & Hw0 & Hr).
  assert ((g ++ [LT] ++ tg ++ [GT] ++ concat ss ++ g' ++ [LT; SLASH] ++ name ++ w ++ [GT]) ++ rest = g ++ LT :: tg ++ GT :: w0 ++ r) as E0.
  { rewrite <- E. unfold rest0. by app_eq. }
  rewrite E0 in *. destruct (ParseNode_open dep pre g name attrs tg w0 r l h Hmet HF Hg Ht Hw0 Hr HFit) as (out & a & o & h1 & p & EN & HL & HF1 & HH1 & [HO1 HO2] & HFit1).
  set (n := Node (At o) (At <$> a) None None None) in *. rewrite app_assoc in HFit1.
  assert (Forall (fun t => depth t + (l + 1) < XML_PARSER_NEST_LEVEL /\ narrow t) ts /\ Z.of_nat (length ts) < XML_PARSER_NODE_COUNT) as [Hts Hcount].
  { destruct ts as [|t ts]; [split; [constructor|done]|]. cbn [some_children] in *. inversion Hnar; subst. split; [|done]. apply Forall_and. split; [|done].
    eapply Forall_impl; [apply (depth_children name attrs None (t :: ts) (XML_PARSER_NEST_LEVEL - l - 1)); left; lia|]. cbn. intros k ?. lia. }
  destruct (ParseBody_children dep p n h.(Nodes) h.(Lists) (At <$> a) ts ss g' rest0 w0 r (pre ++ out) l h1) as (out2 & un & h2 & lst & xs & EB & HL2 & HF2 & HH2 & HR & HC); try done; [lia..|].
  assert (c_string (((pre ++ out) ++ w0) ++ out2) o = Ret name) as HO3 by by do 2 apply c_string_more.
  assert (fits (((pre ++ out) ++ w0) ++ out2) (close_prefix un ++ name ++ w ++ GT :: rest)) as HFit2 by (unfold rest0 in *; flen).
  destruct (ParseClose_zip p o un name w _ rest l h2 (tag_name _ _ _ Ht) Hw HO3 HFit2) as (out3 & EP & HL3).
  exists (out ++ w0 ++ out2 ++ out3), [], rest, h2, p, (XNode (set_Children n lst) xs). split; [|split; [done|split; [constructor|split; [|split; [done|split; [done|]]]]]].
  - rewrite EN, app_assoc, EB, bind_ret. cbv beta iota. unfold rest0. rewrite EP. by rewrite <- !app_assoc.
  - rewrite app_nil_r. apply (f_equal length) in E0, E. unfold rest0 in *. flen.
  - replace (pre ++ out ++ w0 ++ out2 ++ out3) with ((((pre ++ out) ++ w0) ++ out2) ++ out3) by by rewrite <- !app_assoc. apply reads_more.
    assert (opt_string (((pre ++ out) ++ w0) ++ out2) (At <$> a) attrs) as HA by by do 2 apply opt_string_more.
    destruct ts as [|t ts].
    + apply Forall2_nil_inv_r in HR as ->. rewrite (HC eq_refl). by constructor.
    + cbn [some_children]. destruct HH2 as (N & L & Ho & _). destruct (owned_inv _ _ _ _ _ Ho) as (ps & Nk & Lk & _ & _ & _ & HM).
      destruct (Children (set_Children n lst)) as [l'|] eqn:EC; [by econstructor|]. destruct HM as (_ & -> & _). by apply Forall2_nil_inv_l in HR.
Qed.

Lemma parses_closed g name attrs tg : all_met -> gap g -> tag name attrs tg -> parses (Elem name attrs None None) (g ++ str "<" ++ tg ++ str "/>").
Proof.
  intros Hmet Hg Ht dep pre rest l h HF HFit Hl Hd Hnar Hdep. destruct dep as [|dep]; [cbn in Hd; lia|].
  change (str "<") with [LT] in *. change (str "/>") with [SLASH; GT] in *. destruct (space_split rest) as (w & r & -> & Hw & Hr).
  assert ((g ++ [LT] ++ tg ++ [SLASH; GT]) ++ w ++ r = g ++ LT :: tg ++ SLASH :: GT :: w ++ r) as E0 by by app_eq. rewrite E0 in *.
  destruct (ParseNode_closed dep pre g name attrs tg w r l h Hmet HF Hg Ht Hw Hr HFit) as (out & h' & p & x & E & HL & HF' & HH & HR).
  exists out, w, r, h', p, x. split; [done|]. split; [done|]. split; [done|]. split; [flen|]. done.
Qed.

(** Whatever is printed is read. *)
Lemma prints_parses : all_met -> (forall t s, prints t s -> trimmed_parses t s)
  /\ (forall ts b, prints_list ts b -> exists ss, b = concat ss /\ Forall2 trimmed_parses ts ss).
Proof.
  intros Hmet. apply prints_mutind.
  - intros g name attrs tg Hg Ht. split; [by constructor|]. intros w s' E Hw. destruct (gap_trim g _ w s' Hg Hw E) as (g' & _ & Hg' & ->).
    by apply parses_closed.
  - intros g name attrs tg w1 s1 w' w'' Hg Ht H1 H2 H3 H4. split; [by constructor|]. intros w s' E Hw.
    destruct (gap_trim g _ w s' Hg Hw E) as (g' & _ & Hg' & ->). by apply parses_text.
  - intros g name attrs tg ts b g2 w1 Hg Ht Hl (ss & -> & HP) Hg2 Hw1. split; [by constructor|]. intros w s' E Hw.
    destruct (gap_trim g _ w s' Hg Hw E) as (g' & _ & Hg' & ->). by apply parses_children.
  - exists []. by split.
  - intros t ts b b' _ HP _ (ss & -> & HPs). exists (b :: ss). split; [done|by constructor].
Qed.

(** ** Documents *)

(** The document [d] stands for the element [t]. *)
Definition document_of (h : heap) (d : Z) (b : list Z) (t : xml) : Prop :=
  exists doc N0 L0 x, h.(Documents) !! d = Some doc /\ doc.(DocBuffer) = b /\ doc.(DocLength) = Z.of_nat (length b)
    /\ holds h N0 L0 doc.(Root) x /\ reads b x t.

Lemma parse_document h t s rest : all_met -> fresh h -> prints t s -> depth t < XML_PARSER_NEST_LEVEL -> narrow t ->
  Z.of_nat (length (s ++ rest)) <= XML_PARSER_MAX_SIZE ->
  exists h' b d, XmlDocumentParse h (s ++ rest) (Z.of_nat (length (s ++ rest))) false = Ret (h', b, Some d)
    /\ length b = length (s ++ rest) /\ fresh h' /\ document_of h' d b t.
Proof.
  intros Hmet HF Hp Hd Hn Hsize. destruct (proj1 (prints_parses Hmet) t s Hp) as [_ HP].
  destruct (HP [] s eq_refl (Forall_nil_2 _) nest_fuel [] rest 0 h) as (out & w & rest' & h' & p & x & E & Er & Hw & HL & HF' & HH & HR);
    [done|done|done|lia|done|done|].
  unfold XmlDocumentParse. rewrite decide_False.
  2: { intros [K|K]; [|lia]. destruct (prints_head _ _ Hp) as (g & c & r & _ & -> & _). rewrite !length_app in K. cbn in K. lia. }
  change (Parser (s ++ rest) 0 (Z.of_nat (length (s ++ rest))) 0) with (zip [] (s ++ rest) 0). cbv zeta. rewrite E, bind_ret. cbv beta iota zeta.
  cbn [Mem Refs Psr default Xml.Buffer zip app]. destruct (Allocate _ _) as [bl|] eqn:EA; [|by destruct (Hmet _ _ EA)].
  assert (length (out ++ rest') = length (s ++ rest)) as HLb by (rewrite Er, !length_app in *; lia).
  eexists _, _, _. split; [done|]. split; [done|]. split.
  - intros k Hk. cbn in Hk |- *. destruct (HF' k ltac:(lia)) as (K1 & K2 & K3 & K4). do 3 (split; [done|]). by rewrite lookup_insert_ne by lia.
  - eexists _, h.(Nodes), h.(Lists), x. split; [by cbn; rewrite lookup_insert_eq|]. split; [done|]. split; [by cbn; rewrite HLb|].
    split; [by eapply holds_ext; [..|exact HH]|]. by apply (reads_more out rest').
Qed.

(** What an export of the document [d] yields, in front of a byte that is there for
    the terminator. *)
Lemma export_document h d b t Prepend : all_met -> document_of h d b t -> Z.of_nat (length b) < 2 ^ 32 - 1 -> Z.of_nat (length (render 0 t)) <= EXPORT_LIMIT ->
  exists k text n, XmlDocumentExport h d 0 Prepend = Ret (k, Some (text, n)) /\ n = Z.of_nat (length ((if Prepend then XML_PLIST_HEADER else []) ++ render 0 t))
    /\ take (Z.to_nat n) text = (if Prepend then XML_PLIST_HEADER else []) ++ render 0 t.
Proof.
  intros Hmet (doc & N0 & L0 & x & Hdoc & Hb & Hlen & HH & HR) Hsize Hlimit. rewrite <- Hb in HR.
  destruct (Export_doc h d doc N0 L0 x t 0 Prepend Hdoc HH HR) as (k & r & E & HX); [rewrite Hlen; lia|done|].
  destruct r as [[text n]|]; [|done]. destruct HX as (Hn & _ & HX). specialize (HX Hmet). exists k, text, n. split; [done|]. split; [|done].
  rewrite <- HX, length_take. lia.
Qed.

End Round_trip.

(** ** The canonical form

    [render] prints the element, not longer than any other print of it. *)
Definition attributes_text (attrs : option (list Z)) : list Z := match attrs with Some a => str " " ++ a | None => [] end.

Lemma tag_canonical name attrs tg : tag name attrs tg -> tag name attrs (name ++ attributes_text attrs) /\ (length (name ++ attributes_text attrs) <= length tg)%nat.
Proof.
  destruct 1 as [name Hn|name w0 w a Hn Hw Ha Hb]; cbn [attributes_text]; [rewrite app_nil_r; split; [by constructor|lia]|].
  change (str " ") with [32]. split; [apply (tag_attributes name 32 [] a); [done|by repeat constructor|done|done]|rewrite !length_app; cbn; rewrite length_app; lia].
Qed.

Lemma prints_render :
  (forall t s, prints t s -> (forall g, gap g -> prints t (g ++ render 0 t)) /\ (length (render 0 t) <= length s)%nat)
  /\ (forall ts b, prints_list ts b -> prints_list ts (concat (map (render 0) ts)) /\ (length (concat (map (render 0) ts)) <= length b)%nat).
Proof.
  apply prints_mutind.
  - intros g name attrs tg _ Ht. destruct (tag_canonical _ _ _ Ht) as [Ht' HL]. split.
    + intros g' Hg'. pose proof (prints_closed g' _ _ _ Hg' Ht') as K. cbn [render]. rewrite decide_False by tauto. fold (attributes_text attrs). by rewrite <- app_assoc in K.
    + cbn [render]. rewrite decide_False by tauto. fold (attributes_text attrs). flen.
  - intros g name attrs tg w s w' w'' _ Ht H1 H2 H3 H4. destruct (tag_canonical _ _ _ Ht) as [Ht' HL]. split.
    + intros g' Hg'. pose proof (prints_text g' _ _ _ [] s [] [] Hg' Ht' (Forall_nil_2 _) H2 (Forall_nil_2 _) (Forall_nil_2 _)) as K. cbn [app] in K.
      cbn [render]. rewrite decide_False by tauto. fold (attributes_text attrs). by rewrite <- app_assoc in K.
    + cbn [render]. rewrite decide_False by tauto. fold (attributes_text attrs). flen.
  - intros g name attrs tg ts b g2 w _ Ht _ [HP HL2] _ _. destruct (tag_canonical _ _ _ Ht) as [Ht' HL]. destruct ts as [|t ts]; cbn [some_children].
    + split.
      * intros g' Hg'. pose proof (prints_closed g' _ _ _ Hg' Ht') as K. cbn [render]. rewrite decide_False by tauto. fold (attributes_text attrs). by rewrite <- app_assoc in K.
      * cbn [render]. rewrite decide_False by tauto. fold (attributes_text attrs). change (str "/>") with [SLASH; GT]. change (str "</") with [LT; SLASH]. change (str "<") with [LT].
        change (str ">") with [GT]. flen.
    + split.
      * intros g' Hg'. pose proof (prints_children g' _ _ _ (t :: ts) _ [] [] Hg' Ht' HP (gap_space [] (Forall_nil_2 _)) (Forall_nil_2 _)) as K.
        cbn [app some_children] in K. cbn [render]. rewrite decide_False by tauto. fold (attributes_text attrs). by rewrite <- app_assoc in K.
      * cbn [render]. rewrite decide_False by tauto. fold (attributes_text attrs). flen.
  - split; [constructor|done].
  - intros t ts b b' _ [HP HL] _ [HPs HL2]. cbn [map concat]. split; [|rewrite !length_app; lia]. constructor; [|done].
    exact (HP [] (gap_space [] (Forall_nil_2 _))).
Qed.

(** The header of property lists may stand before a document. *)
Lemma header_gap : gap XML_PLIST_HEADER.
Proof.
  set (v := [120; 109; 108; 32; 118; 101; 114; 115; 105; 111; 110; 61; 34; 49; 46; 48; 34; 32; 101; 110; 99; 111; 100; 105; 110; 103; 61; 34; 85; 84; 70; 45; 56; 34; 63]).
  set (k := drop 2 (take 101 (drop 38 XML_PLIST_HEADER))).
  replace XML_PLIST_HEADER with ([] ++ (str "<?" ++ v ++ str ">") ++ [] ++ (str "<!" ++ k ++ str ">") ++ []) by reflexivity.
  apply gap_control; [constructor|apply control_instruction; by apply (bool_decide_unpack _)|].
  apply gap_control; [constructor|apply control_declaration; by apply (bool_decide_unpack _)|by apply gap_space].
Qed.

(** ** Round trips *)
Section Properties.
Context `{HPool : XmlPool} {HPoolLaws : XmlPoolLaws HPool} `{HLib : AsciiLib} {HLaws : AsciiLibLaws HLib}.

(** C34: When every request for memory is met, parsing any print of an element, whatever
    follows it, yields a document that stands for that element. *)
Theorem XmlDocumentParse_prints h t s rest : all_met -> fresh h -> prints t s -> depth t < XML_PARSER_NEST_LEVEL -> narrow t ->
  Z.of_nat (length (s ++ rest)) <= XML_PARSER_MAX_SIZE ->
  exists h' b d, XmlDocumentParse h (s ++ rest) (Z.of_nat (length (s ++ rest))) false = Ret (h', b, Some d)
    /\ length b = length (s ++ rest) /\ fresh h' /\ document_of h' d b t.
Proof. apply parse_document. Qed.

(** C6: when every request for memory is met, the document that is parsed (without
    references) from any print of an element within the limits of the parser, with room
    for the header below its limit of size, is exported in its canonical form, after the
    header of property lists if that is wanted; parsing the export yields the same
    element. Texts outside of the grammar can yield documents for which this fails, see
    [nul_text_not_reproduced]. *)
Theorem XmlExport_roundtrip h t s Prepend : all_met -> fresh h -> prints t s -> depth t < XML_PARSER_NEST_LEVEL -> narrow t ->
  Z.of_nat (length s) <= XML_PARSER_MAX_SIZE - 140 ->
  exists h' b d k text n, XmlDocumentParse h s (Z.of_nat (length s)) false = Ret (h', b, Some d)
    /\ XmlDocumentExport h' d 0 Prepend = Ret (k, Some (text, n))
    /\ take (Z.to_nat n) text = (if Prepend then XML_PLIST_HEADER else []) ++ render 0 t
    /\ forall g, fresh g -> exists g' c e, XmlDocumentParse g (take (Z.to_nat n) text) n false = Ret (g', c, Some e) /\ document_of g' e c t.
Proof.
  intros Hmet HF Hp Hd Hn Hs. destruct (proj1 prints_render t s Hp) as [Hprint Hrender]. set (hd := if Prepend then XML_PLIST_HEADER else []).
  assert (gap hd /\ Z.of_nat (length hd) <= 140) as [Hgap Hhd].
  { subst hd. destruct Prepend; [split; [apply header_gap|by vm_compute]|split; [apply gap_space; constructor|by cbn]]. }
  destruct (parse_document h t s [] Hmet HF Hp Hd Hn) as (h' & b & d & E & Hb & _ & HD); [rewrite app_nil_r; unfold XML_PARSER_MAX_SIZE in *; lia|].
  rewrite app_nil_r in E, Hb. unfold XML_PARSER_MAX_SIZE in Hs.
  destruct (export_document h' d b t Prepend Hmet HD) as (k & text & n & EX & Hlen & Htext); [rewrite Hb; lia|unfold EXPORT_LIMIT; lia|].
  exists h', b, d, k, text, n. do 3 (split; [done|]). intros g HG. rewrite Htext, Hlen. fold hd.
  destruct (parse_document g t (hd ++ render 0 t) [] Hmet HG (Hprint hd Hgap) Hd Hn) as (g' & c & e & EP & _ & _ & HE);
    [rewrite app_nil_r, length_app; unfold XML_PARSER_MAX_SIZE; lia|]. rewrite app_nil_r in EP. by exists g', c, e.
Qed.
End Properties.

(** ** Concrete documents *)

Definition sample_tree : xml := Elem (str "a") None None (Some [Elem (str "b") (Some (str "c=d")) (Some (str "hi")) None]).

Lemma sample_met : @all_met sample_pool.
Proof. by intros k n. Qed.

Lemma sample_prints : prints sample_tree sample_xml.
Proof.
  assert (prints (Elem (str "b") (Some (str "c=d")) (Some (str "hi")) None) (str "<b c=d> hi </b>")) as Hb.
  { apply (prints_text [] (str "b") (Some (str "c=d")) (str "b c=d") (str " ") (str "hi") (str " ") []).
    - by apply gap_space.
    - apply (tag_attributes (str "b") 32 [] (str "c=d")); by apply (bool_decide_unpack _).
    - by apply (bool_decide_unpack _).
    - by apply (bool_decide_unpack _).
    - by apply (bool_decide_unpack _).
    - constructor. }
  pose proof (prints_cons _ [] _ [] Hb prints_nil) as HL.
  refine (prints_children [] (str "a") None (str "a") _ _ [] [] _ _ HL _ _); [by apply gap_space|constructor; by apply (bool_decide_unpack _)|by apply gap_space|constructor].
Qed.

Lemma sample_narrow : narrow sample_tree.
Proof. repeat constructor. Qed.

Lemma XmlDocumentParse_prints_witness :
  exists h' b d, @XmlDocumentParse sample_pool sample_lib sample_heap (sample_xml ++ str "..") (Z.of_nat (length (sample_xml ++ str ".."))) false = Ret (h', b, Some d)
    /\ length b = length (sample_xml ++ str "..") /\ fresh h' /\ document_of h' d b sample_tree.
Proof.
  apply (@XmlDocumentParse_prints sample_pool sample_lib sample_lib_laws sample_heap sample_tree sample_xml (str "..") sample_met sample_fresh sample_prints);
    [reflexivity|apply sample_narrow|by vm_compute].
Defined.

Lemma XmlExport_roundtrip_witness :
  exists h' b d k text n, @XmlDocumentParse sample_pool sample_lib sample_heap sample_xml (Z.of_nat (length sample_xml)) false = Ret (h', b, Some d)
    /\ @XmlDocumentExport sample_pool h' d 0 true = Ret (k, Some (text, n))
    /\ take (Z.to_nat n) text = XML_PLIST_HEADER ++ render 0 sample_tree
    /\ forall g, fresh g -> exists g' c e, @XmlDocumentParse sample_pool sample_lib g (take (Z.to_nat n) text) n false = Ret (g', c, Some e) /\ document_of g' e c sample_tree.
Proof.
  apply (@XmlExport_roundtrip sample_pool sample_pool_laws sample_lib sample_lib_laws sample_heap sample_tree sample_xml true sample_met sample_fresh sample_prints);
    [reflexivity|apply sample_narrow|by vm_compute].
Defined.

(** What the export renders, for the sample. *)
Example sample_canonical : render 0 sample_tree = str "<a><b c=d>hi</b></a>".
Proof. reflexivity. Qed.

(** ** Malformed input

    A parsed child that fails in front of a slash counts as the end of the children:
    the error is not reported, and the child is dropped. *)
Definition parse_and_export (s : list Z) : option (list Z) :=
  match @XmlDocumentParse sample_pool sample_lib sample_heap s (Z.of_nat (length s)) false with
  | Ret (h, _, Some d) =>
      match @XmlDocumentExport sample_pool h d 0 false with Ret (_, Some (text, n)) => Some (take (Z.to_nat n) text) | _ => None end
  | _ => None
  end.

Theorem malformed_child_dropped : parse_and_export (str "<a><b></b/a>") = Some (str "<a/>").
Proof. by vm_compute. Qed.

(** Text in front of a zero byte is cut there, and text that starts with one is an empty
    string, which is not the same as no text: the export of such a document is not
    reproduced by another parse and export. The grammar has no zero bytes. *)
Theorem nul_text_not_reproduced :
  parse_and_export (str "<a>" ++ [0] ++ str "b</a>") = Some (str "<a></a>") /\ parse_and_export (str "<a></a>") = Some (str "<a/>").
Proof. by vm_compute. Qed.

(** With references, the table may hold a node of the dropped part: a later node
    refers to a released one, and its content cannot be read. *)
Definition dangling_xml : list Z :=
  str "<r><p><d><x ID=" ++ [QUOTE] ++ str "1" ++ [QUOTE] ++ str ">t</x></d/p><y IDREF=" ++ [QUOTE] ++ str "1" ++ [QUOTE] ++ str "/></r>".

Theorem dangling_reference :
  match @XmlDocumentParse sample_pool sample_lib sample_heap dangling_xml (Z.of_nat (length dangling_xml)) true with
  | Ret (h, _, Some d) =>
      (root ← XmlDocumentRoot h d; y ← XmlNodeChild h root 1; n ← deref h.(Nodes) y;
       Ret (match n.(Real) with Some r => bool_decide (h.(Nodes) !! r = None) | None => false end, XmlNodeContent h y)) = Ret (true, Fault OutOfBounds)
  | _ => False
  end.
Proof. by vm_compute. Qed.
End XmlSyntax.
