(* ===== verification/Plist.v ===== *)
(** * Property lists: the second part of [Library/OcXmlLib/OcXmlLib.c]

    Typed access to the nodes of a document, and the unescaping of strings. A node
    that is not NULL is its address; a buffer of the caller is the list of its
    bytes, which a function returns as it leaves it. The functions of BaseLib that
    copy and decode strings are an interface. The theorems describe each function
    by the element that a node stands for. *)
From Stdlib Require Import Ascii String.
From stdpp Require Import gmap.
From S2P Require Import Prelude Xml.

Module Plist.
Import Xml.

(** ** Types of nodes *)

Inductive PLIST_NODE_TYPE : Set :=
| PLIST_NODE_TYPE_ANY | PLIST_NODE_TYPE_ARRAY | PLIST_NODE_TYPE_DICT | PLIST_NODE_TYPE_KEY | PLIST_NODE_TYPE_STRING
| PLIST_NODE_TYPE_DATA | PLIST_NODE_TYPE_DATE | PLIST_NODE_TYPE_TRUE | PLIST_NODE_TYPE_FALSE | PLIST_NODE_TYPE_REAL | PLIST_NODE_TYPE_INTEGER.

#[export] Instance node_type_eq_dec : EqDecision PLIST_NODE_TYPE.
Proof. solve_decision. Defined.

(** The name of [PLIST_NODE_TYPE_ANY] is NULL; it is never read. *)
Definition PlistNodeTypes (Type_ : PLIST_NODE_TYPE) : list Z :=
  match Type_ with
  | PLIST_NODE_TYPE_ANY => []
  | PLIST_NODE_TYPE_ARRAY => str "array"
  | PLIST_NODE_TYPE_DICT => str "dict"
  | PLIST_NODE_TYPE_KEY => str "key"
  | PLIST_NODE_TYPE_STRING => str "string"
  | PLIST_NODE_TYPE_DATA => str "data"
  | PLIST_NODE_TYPE_DATE => str "date"
  | PLIST_NODE_TYPE_TRUE => str "true"
  | PLIST_NODE_TYPE_FALSE => str "false"
  | PLIST_NODE_TYPE_REAL => str "real"
  | PLIST_NODE_TYPE_INTEGER => str "integer"
  end.

(** ** Interface

    [AsciiStrnCpyS DestMax Source Length]: what is written to the destination, or
    nothing for an error. [Base64Decode Source DestinationSize]: the status, the new
    size and what is written; [base64] is the meaning of encoded data. *)
Class CopyLib : Type := {
  AsciiStrnCpyS : Z -> list Z -> Z -> option (list Z);
  base64 : list Z -> option (list Z);
  Base64Decode : list Z -> Z -> Z * Z * list Z
}.
Definition ASCII_RSIZE_MAX : Z := 1000000.
Class CopyLibLaws (C : CopyLib) : Prop := {
  AsciiStrnCpyS_some m s n r : AsciiStrnCpyS m s n = Some r -> r = take (Z.to_nat n) s ++ [0] /\ Z.of_nat (length r) <= m;
  AsciiStrnCpyS_fits m s n : m <= ASCII_RSIZE_MAX -> 0 <= n <= ASCII_RSIZE_MAX -> Z.of_nat (length (take (Z.to_nat n) s)) < m -> AsciiStrnCpyS m s n <> None;
  base64_length s d : base64 s = Some d -> Z.of_nat (length d) <= Z.of_nat (length s);
  Base64Decode_confined s n : 0 <= n -> Z.of_nat (length (Base64Decode s n).2) <= n;
  Base64Decode_decodes s n d : base64 s = Some d -> Z.of_nat (length d) <= n -> Base64Decode s n = (EFI_SUCCESS, Z.of_nat (length d), d);
  Base64Decode_small s n d : base64 s = Some d -> n < Z.of_nat (length d) -> EFI_ERROR (Base64Decode s n).1.1 = true;
  Base64Decode_invalid s n : base64 s = None -> EFI_ERROR (Base64Decode s n).1.1 = true
}.

Section Model.
Context `{XmlPool, AsciiLib, CopyLib}.

(** ** Unescaping *)

(** The entities with their characters; the code tests them in this order. *)
Definition entities : list (list Z * Z) := [(str "apos;", 39); (str "quot;", 34); (str "amp;", 38); (str "lt;", 60); (str "gt;", 62)].
Definition AMPERSAND : Z := 38.

(** The first entity that [String] starts with. *)
Fixpoint MatchEntity (es : list (list Z * Z)) (String : list Z) : option (list Z * Z) :=
  match es with
  | [] => None
  | (name, c) :: es => if decide (AsciiStrnCmp String name (Z.of_nat (length name)) = 0) then Some (name, c) else MatchEntity es String
  end.

(** The state is the rest of the string, the buffer and the offset of [Pointer]. *)
Definition UnescapeStep (s : list Z * list Z * Z) : outcome (list Z * list Z * Z + list Z * Z) :=
  let '(Str, Buffer, Pointer) := s in
  match Str with
  | [] => Ret (inr (Buffer, Pointer))
  | c :: Str' =>
      match (if decide (c = AMPERSAND) then MatchEntity entities Str' else None) with
      | Some (name, d) => Buffer ← wr Buffer Pointer d; Ret (inl (drop (length name) Str', Buffer, Pointer + 1))
      | None => Buffer ← wr Buffer Pointer c; Ret (inl (Str', Buffer, Pointer + 1))
      end
  end.

(** The buffer for the [k]-th request. *)
Definition XmlUnescapeString (k : Z) (String : list Z) : outcome (option (list Z)) :=
  let StringSize := Z.of_nat (length String) + 1 in
  match Allocate k StringSize with
  | None => Ret None
  | Some Buffer =>
      '(Buffer, Pointer) ← while_ (S (length String)) UnescapeStep (String, Buffer, 0);
      Buffer ← wr Buffer Pointer 0;
      Ret (Some Buffer)
  end.

(** ** Access to nodes *)

Definition PlistDocumentRoot (h : heap) (Document : Z) : outcome (option Z) :=
  d ← deref h.(Documents) Document;
  let Node := d.(Root) in
  c ← XmlNodeName h Node;
  s ← AsciiStr d.(DocBuffer) c;
  if decide (AsciiStrCmp s (str "plist") <> 0) then Ret None else
  n ← XmlNodeChildren h Node;
  if decide (n <> 1) then Ret None else
  Child ← XmlNodeChild h Node 0;
  Ret (Some Child).

Definition PlistNodeCast (h : heap) (b : list Z) (Node : option Z) (Type_ : PLIST_NODE_TYPE) : outcome (option Z) :=
  match Node with
  | None => Ret None
  | Some p =>
      if decide (Type_ = PLIST_NODE_TYPE_ANY) then Ret Node else
      c ← XmlNodeName h p;
      s ← AsciiStr b c;
      if decide (AsciiStrCmp s (PlistNodeTypes Type_) <> 0) then Ret None else
      ChildrenNum ← XmlNodeChildren h p;
      let NoChildren := if decide (0 < ChildrenNum) then Ret None else Ret Node in
      match Type_ with
      | PLIST_NODE_TYPE_DICT => if decide (ChildrenNum mod 2 <> 0) then Ret None else Ret Node
      | PLIST_NODE_TYPE_ARRAY => Ret Node
      | PLIST_NODE_TYPE_KEY | PLIST_NODE_TYPE_INTEGER | PLIST_NODE_TYPE_REAL =>
          Content ← XmlNodeContent h p;
          match Content with None => Ret None | Some _ => NoChildren end
      | _ => NoChildren
      end
  end.

Definition PlistDictChildren (h : heap) (p : Z) : outcome Z := n ← XmlNodeChildren h p; Ret (n / 2).

(** The key, and the value if it is wanted. *)
Definition PlistDictChild (h : heap) (p Child : Z) (WantValue : bool) : outcome (Z * option Z) :=
  let Child := Child *[32] 2 in
  Value ← (if (WantValue : bool) then Value ← XmlNodeChild h p (Child +[32] 1); Ret (Some Value) else Ret None);
  Key ← XmlNodeChild h p Child;
  Ret (Key, Value).

(** The string of the content, if there is one. *)
Definition ReadContent (h : heap) (b : list Z) (p : Z) : outcome (option (list Z)) :=
  Content ← XmlNodeContent h p;
  match Content with Some c => s ← AsciiStr b c; Ret (Some s) | None => Ret None end.

Definition PlistKeyValue (h : heap) (b : list Z) (Node : option Z) : outcome (option (list Z)) :=
  Node ← PlistNodeCast h b Node PLIST_NODE_TYPE_KEY;
  match Node with None => Ret None | Some p => ReadContent h b p end.

(** [TRUE] or [FALSE], the memory at [Value], and [*Size]. *)
Definition StringContent (Content : option (list Z)) (Value : list Z) (Size : Z) : outcome (bool * list Z * Z) :=
  match Content with
  | None => Value ← wr Value 0 0; Ret (true, Value, 1)
  | Some s =>
      let Length := Z.of_nat (length s) in
      let Size := if decide (Length < Size) then wrap 32 (Length + 1) else Size in
      match AsciiStrnCpyS Size s Length with
      | Some r => Value ← wr_slice Value 0 r; Ret (true, Value, Size)
      | None => Ret (true, Value, Size)
      end
  end.

Definition PlistStringValue (h : heap) (b : list Z) (Node : option Z) (Value : list Z) (Size : Z) : outcome (bool * list Z * Z) :=
  Node ← PlistNodeCast h b Node PLIST_NODE_TYPE_STRING;
  match Node with
  | None => Ret (false, Value, Size)
  | Some p => Content ← ReadContent h b p; StringContent Content Value Size
  end.

(** Decoding into [Buffer]; without success [*Size] is [Failed]. *)
Definition DataContent (Content : option (list Z)) (Buffer : list Z) (Size Failed : Z) : outcome (bool * list Z * Z) :=
  match Content with
  | None => Ret (true, Buffer, 0)
  | Some s =>
      let '(Status, Length, Data) := Base64Decode s Size in
      Buffer ← wr_slice Buffer 0 Data;
      Ret (if decide (EFI_ERROR Status = false /\ wrap 32 Length = Length) then (true, Buffer, wrap 32 Length) else (false, Buffer, Failed))
  end.

Definition PlistDataValue (h : heap) (b : list Z) (Node : option Z) (Buffer : list Z) (Size : Z) : outcome (bool * list Z * Z) :=
  Node ← PlistNodeCast h b Node PLIST_NODE_TYPE_DATA;
  match Node with
  | None => Ret (false, Buffer, Size)
  | Some p => Content ← ReadContent h b p; DataContent Content Buffer Size 0
  end.

Definition PlistBooleanValue (h : heap) (b : list Z) (Node : option Z) (Value : list Z) : outcome (bool * list Z) :=
  True_ ← PlistNodeCast h b Node PLIST_NODE_TYPE_TRUE;
  match True_ with
  | Some _ => Value ← wr Value 0 1; Ret (true, Value)
  | None =>
      False_ ← PlistNodeCast h b Node PLIST_NODE_TYPE_FALSE;
      match False_ with Some _ => Value ← wr Value 0 0; Ret (true, Value) | None => Ret (false, Value) end
  end.

(** A pointer into a string. *)
Definition advance (c : chars) : chars := match c with At o => At (o + 1) | Text s => Text (drop 1 s) end.
Definition char_at (b : list Z) (c : chars) (i : Z) : outcome Z :=
  match c with At o => rd b (o + i) | Text s => rd (s ++ [0]) i end.

Definition SkipBlank (b : list Z) (TempStr : chars) : outcome (chars + chars) :=
  c ← char_at b TempStr 0;
  Ret (if decide (c = 32 \/ c = 9) then inl (advance TempStr) else inr TempStr).

(** The number that [TempStr] shows; the second character is read only if the first
    one is not a zero. *)
Definition ParseInteger (b : list Z) (TempStr : chars) (Hex : bool) : outcome Z :=
  s ← AsciiStr b TempStr;
  TempStr ← while_ (S (length s)) (SkipBlank b) TempStr;
  c ← char_at b TempStr 0;
  let Negate := bool_decide (c = 45) in
  let TempStr := if Negate then advance TempStr else TempStr in
  Hex ← (if (Hex : bool) then
           c0 ← char_at b TempStr 0;
           if decide (c0 <> 48) then c1 ← char_at b TempStr 1; Ret (bool_decide (c1 = 120)) else Ret true
         else Ret false);
  s ← AsciiStr b TempStr;
  let Temp := if (Hex : bool) then AsciiStrHexToUint64 s else AsciiStrDecimalToUint64 s in
  Ret (if Negate then 0 -[64] Temp else Temp).

(** The stores of the switch over [Size]. *)
Definition StoreInteger (Temp : Z) (Value : list Z) (Size : Z) : outcome (bool * list Z) :=
  if decide (Size ∈ [8; 4; 2; 1]) then Value ← wr_slice Value 0 (le_bytes (Z.to_nat Size) Temp); Ret (true, Value) else Ret (false, Value).

Definition PlistIntegerValue (h : heap) (b : list Z) (Node : option Z) (Value : list Z) (Size : Z) (Hex : bool) : outcome (bool * list Z) :=
  Node ← PlistNodeCast h b Node PLIST_NODE_TYPE_INTEGER;
  match Node with
  | None => Ret (false, Value)
  | Some p =>
      Content ← XmlNodeContent h p;
      match Content with None => Fault OutOfBounds | Some c => Temp ← ParseInteger b c Hex; StoreInteger Temp Value Size end
  end.

Definition MultiInteger (Content : option (list Z)) (Buffer : list Z) : outcome (bool * list Z * Z) :=
  match Content with
  | None => Fault OutOfBounds
  | Some s => Buffer ← wr_slice Buffer 0 (le_bytes 4 (wrap 32 (AsciiStrDecimalToUint64 s))); Ret (true, Buffer, 4)
  end.

Definition PlistMultiDataValue (h : heap) (b : list Z) (Node : option Z) (Buffer : list Z) (Size : Z) : outcome (bool * list Z * Z) :=
  Data ← PlistNodeCast h b Node PLIST_NODE_TYPE_DATA;
  match Data with
  | Some p => Content ← ReadContent h b p; DataContent Content Buffer Size Size
  | None =>
  String_ ← PlistNodeCast h b Node PLIST_NODE_TYPE_STRING;
  match String_ with
  | Some p => Content ← ReadContent h b p; StringContent Content Buffer Size
  | None =>
  Integer ← PlistNodeCast h b Node PLIST_NODE_TYPE_INTEGER;
  match Integer with
  | Some p => Content ← ReadContent h b p; MultiInteger Content Buffer
  | None =>
  True_ ← PlistNodeCast h b Node PLIST_NODE_TYPE_TRUE;
  match True_ with
  | Some _ => Buffer ← wr Buffer 0 1; Ret (true, Buffer, 1)
  | None =>
  False_ ← PlistNodeCast h b Node PLIST_NODE_TYPE_FALSE;
  match False_ with
  | Some _ => Buffer ← wr Buffer 0 0; Ret (true, Buffer, 1)
  | None => Ret (false, Buffer, Size)
  end end end end end.

(** [*Size], unless [FALSE] is returned. *)
Definition ContentLength (Content : option (list Z)) (Terminator : Z) : Z :=
  match Content with Some s => wrap 32 (Z.of_nat (length s) + Terminator) | None => 0 end.

Definition PlistStringSize (h : heap) (b : list Z) (Node : option Z) : outcome (option Z) :=
  Node ← PlistNodeCast h b Node PLIST_NODE_TYPE_STRING;
  match Node with None => Ret None | Some p => Content ← ReadContent h b p; Ret (Some (ContentLength Content 1)) end.

Definition PlistDataSize (h : heap) (b : list Z) (Node : option Z) : outcome (option Z) :=
  Node ← PlistNodeCast h b Node PLIST_NODE_TYPE_DATA;
  match Node with None => Ret None | Some p => Content ← ReadContent h b p; Ret (Some (ContentLength Content 0)) end.

Definition PlistMultiDataSize (h : heap) (b : list Z) (Node : option Z) : outcome (option Z) :=
  Data ← PlistNodeCast h b Node PLIST_NODE_TYPE_DATA;
  match Data with
  | Some p => Content ← ReadContent h b p; Ret (Some (ContentLength Content 0))
  | None =>
  String_ ← PlistNodeCast h b Node PLIST_NODE_TYPE_STRING;
  match String_ with
  | Some p => Content ← ReadContent h b p; Ret (Some (ContentLength Content 1))
  | None =>
  Integer ← PlistNodeCast h b Node PLIST_NODE_TYPE_INTEGER;
  match Integer with
  | Some _ => Ret (Some 4)
  | None =>
  True_ ← PlistNodeCast h b Node PLIST_NODE_TYPE_TRUE;
  match True_ with
  | Some _ => Ret (Some 1)
  | None =>
  False_ ← PlistNodeCast h b Node PLIST_NODE_TYPE_FALSE;
  match False_ with Some _ => Ret (Some 1) | None => Ret None end
  end end end end.

End Model.

(** ** Nodes and elements

    The node [p] of the document with the buffer [b] stands for an element; no node
    refers to another one, as in a document that was parsed without references. *)
Inductive stands (h : heap) (b : list Z) : Z -> xml -> Prop :=
| stands_leaf p n name attrs text : h.(Nodes) !! p = Some n -> n.(Real) = None -> AsciiStr b n.(Name) = Ret name ->
    opt_string b n.(Attributes) attrs -> opt_string b n.(Content) text -> n.(Children) = None -> stands h b p (Elem name attrs text None)
| stands_node p n l ac ps name attrs text ts : h.(Nodes) !! p = Some n -> n.(Real) = None -> AsciiStr b n.(Name) = Ret name ->
    opt_string b n.(Attributes) attrs -> opt_string b n.(Content) text -> n.(Children) = Some l ->
    h.(Lists) !! l = Some (List_ ac ps) -> Z.of_nat (length ps) <= XML_PARSER_NODE_COUNT -> Forall2 (stands h b) ps ts ->
    stands h b p (Elem name attrs text (Some ts)).

Definition tag_of (t : xml) : list Z := match t with Elem name _ _ _ => name end.
Definition text_of (t : xml) : option (list Z) := match t with Elem _ _ text _ => text end.
Definition kids (t : xml) : list xml := match t with Elem _ _ _ ts => default [] ts end.

Lemma stands_inv h b p t : stands h b p t -> exists n ps, h.(Nodes) !! p = Some n /\ n.(Real) = None /\ AsciiStr b n.(Name) = Ret (tag_of t)
  /\ opt_string b n.(Content) (text_of t) /\ Forall2 (stands h b) ps (kids t) /\ Z.of_nat (length (kids t)) <= XML_PARSER_NODE_COUNT
  /\ match n.(Children) with None => ps = [] | Some l => exists ac, h.(Lists) !! l = Some (List_ ac ps) end.
Proof.
  destruct 1 as [p n name attrs text H1 H2 H3 H4 H5 H6|p n l ac ps name attrs text ts H1 H2 H3 H4 H5 H6 H7 H8 H9].
  - exists n, []. rewrite H6. cbn. by split_and!.
  - exists n, ps. rewrite H6. cbn. rewrite <- (Forall2_length _ _ _ H9). split_and!; try done. by exists ac.
Qed.

(** Requests and documents do not matter. *)
Lemma stands_heap h h' b : h'.(Nodes) = h.(Nodes) -> h'.(Lists) = h.(Lists) -> forall p t, stands h b p t -> stands h' b p t.
Proof.
  intros EN EL. fix IH 3. intros p t H. destruct H as [p n name attrs text H1 H2 H3 H4 H5 H6|p n l ac ps name attrs text ts H1 H2 H3 H4 H5 H6 H7 H8 H9].
  - apply (stands_leaf h' b p n); by rewrite ?EN.
  - apply (stands_node h' b p n l ac ps); try (by rewrite ?EN, ?EL). clear - H9 IH. induction H9; constructor; [by apply IH|done].
Qed.

(** A tree in memory that [reads] relates to an element stands for it. *)
Definition stands_spec (h : heap) (b : list Z) (p : Z) (x : xnode) (N : gmap Z XML_NODE) (L : gmap Z XML_NODE_LIST) : Prop := forall t,
  N ⊆ h.(Nodes) -> L ⊆ h.(Lists) -> all_nodes (node_ok false b) x -> reads b x t -> stands h b p t.
Definition stands_kids_spec (h : heap) (b : list Z) (ps : list Z) (xs : list xnode) (N : gmap Z XML_NODE) (L : gmap Z XML_NODE_LIST) : Prop := forall ts,
  N ⊆ h.(Nodes) -> L ⊆ h.(Lists) -> Forall (all_nodes (node_ok false b)) xs -> Forall2 (reads b) xs ts -> Forall2 (stands h b) ps ts.

Lemma owned_stands h b : (forall p x N L, owned p x N L -> stands_spec h b p x N L) /\ (forall ps xs N L, owned_kids ps xs N L -> stands_kids_spec h b ps xs N L).
Proof.
  apply owned_mutind.
  - intros p n HC t HN _ HA HR. inversion HA as [? ? (_ & _ & _ & Hreal) _]; subst. inversion HR; subst; [|congruence].
    apply (stands_leaf h b p n); try done; [|by apply Hreal]. by apply map_singleton_subseteq_l.
  - intros p n l ac ps kids N L HC (_ & _ & Hcount & _) _ IH Hp Hl t HN HL HA HR. inversion HA as [? ? (_ & _ & _ & Hreal) Hkids]; subst.
    inversion HR; subst; [congruence|]. simplify_eq. eapply (stands_node h b p n); try done; [|by apply Hreal| |].
    + eapply lookup_weaken; [apply lookup_insert_eq|exact HN].
    + eapply lookup_weaken; [apply lookup_insert_eq|exact HL].
    + apply IH; [..|done|done]; etrans; [by apply insert_subseteq| |by apply insert_subseteq|]; done.
  - intros ts _ _ _ HR. inversion HR; subst. constructor.
  - intros p ps x xs N1 L1 N2 L2 _ IH1 _ IH2 HDN HDL ts HN HL HA HR. inversion HA; subst. inversion HR; subst. constructor.
    + apply IH1; try done; (etrans; [apply map_union_subseteq_l|done]).
    + apply IH2; try done; (etrans; [by apply map_union_subseteq_r|done]).
Qed.

(** Terminated strings can be read. *)
Lemma node_strings b n : node_ok false b n -> exists name attrs text, AsciiStr b n.(Name) = Ret name /\ opt_string b n.(Attributes) attrs /\ opt_string b n.(Content) text.
Proof.
  assert (forall c, attrs_ok b c -> exists s, opt_string b c s) as Hs.
  { intros [[o|s]|] H; [|by exists (Some s)|by exists None]. destruct (terminated_string b o H) as (s & E). by exists (Some s). }
  intros (H1 & H2 & H3 & _). destruct (Hs _ H1) as ([name|] & E1); [|done]. destruct (Hs _ H2) as (attrs & E2). destruct (Hs _ H3) as (text & E3).
  by exists name, attrs, text.
Qed.

Lemma owned_reads b : (forall p x N L, owned p x N L -> all_nodes (node_ok false b) x -> exists t, reads b x t)
  /\ (forall ps xs N L, owned_kids ps xs N L -> Forall (all_nodes (node_ok false b)) xs -> exists ts, Forall2 (reads b) xs ts).
Proof.
  apply owned_mutind.
  - intros p n HC HA. inversion HA as [? ? Hn _]; subst. destruct (node_strings _ _ Hn) as (name & attrs & text & H1 & H2 & H3).
    exists (Elem name attrs text None). by constructor.
  - intros p n l ac ps xs N L HC _ _ IH _ _ HA. inversion HA as [? ? Hn Hkids]; subst. destruct (node_strings _ _ Hn) as (name & attrs & text & H1 & H2 & H3).
    destruct (IH Hkids) as (ts & HR). exists (Elem name attrs text (Some ts)). by econstructor.
  - intros _. by exists [].
  - intros p ps x xs N1 L1 N2 L2 _ IH1 _ IH2 _ _ HA. inversion HA; subst. destruct IH1 as (t & Ht); [done|]. destruct IH2 as (ts & Hts); [done|].
    exists (t :: ts). by constructor.
Qed.

(** The root of a document that was parsed without references. *)
Lemma document_stands h d doc x : document_ok false h d doc x -> exists t, stands h doc.(DocBuffer) doc.(Root) t /\ reads doc.(DocBuffer) x t.
Proof.
  intros [_ (N0 & L0 & N & L & HO & HN & HL & EN & EL) HS _]. destruct (proj1 (owned_reads _) _ _ _ _ HO HS) as (t & HR). exists t. split; [|done].
  apply (proj1 (owned_stands h _) _ _ _ _ HO t); [..|done|done]; [rewrite EN|rewrite EL]; apply map_union_subseteq_l.
Qed.

(** ** Each function by the element *)
Section Specification.
Context `{HLib : AsciiLib} {HLaws : AsciiLibLaws HLib} `{HCopy : CopyLib} {HCopyLaws : CopyLibLaws HCopy}.

Lemma Name_stands h b p t : stands h b p t -> exists c, XmlNodeName h p = Ret c /\ AsciiStr b c = Ret (tag_of t).
Proof. intros (n & ps & H1 & _ & H2 & _)%stands_inv. exists n.(Name). unfold XmlNodeName. by rewrite (deref_some _ _ _ H1). Qed.

Lemma Content_stands h b p t : stands h b p t -> exists c, XmlNodeContent h p = Ret c /\ opt_string b c (text_of t).
Proof. intros (n & ps & H1 & HR & _ & H2 & _)%stands_inv. exists n.(Content). unfold XmlNodeContent. by rewrite (deref_some _ _ _ H1), bind_ret, HR. Qed.

Lemma ReadContent_stands h b p t : stands h b p t -> ReadContent h b p = Ret (text_of t).
Proof.
  intros HS. destruct (Content_stands _ _ _ _ HS) as (c & E & Hc). unfold ReadContent. rewrite E, bind_ret. cbv beta.
  destruct c as [c|], (text_of t) as [s|]; try done. cbn in Hc. by rewrite Hc.
Qed.

Lemma Children_stands h b p t : stands h b p t -> XmlNodeChildren h p = Ret (Z.of_nat (length (kids t))).
Proof.
  intros (n & ps & H1 & _ & _ & _ & HF & _ & HC)%stands_inv. unfold XmlNodeChildren. rewrite (deref_some _ _ _ H1), bind_ret. cbv beta.
  rewrite <- (Forall2_length _ _ _ HF). destruct n.(Children) as [l|]; [|by subst]. destruct HC as (ac & HC). by rewrite (deref_some _ _ _ HC).
Qed.

Lemma Child_stands h b p t i c : stands h b p t -> kids t !! i = Some c -> exists q, XmlNodeChild h p (Z.of_nat i) = Ret q /\ stands h b q c.
Proof.
  intros (n & ps & H1 & _ & _ & _ & HF & _ & HC)%stands_inv Hi. destruct (Forall2_lookup_r _ _ _ _ _ HF Hi) as (q & Hq & Hs). exists q. split; [|done].
  unfold XmlNodeChild. rewrite (deref_some _ _ _ H1), bind_ret. cbv beta. destruct n.(Children) as [l|]; [|by subst].
  destruct HC as (ac & HC). rewrite (deref_some _ _ _ HC), bind_ret. cbv beta. by apply rd_nat.
Qed.

(** What a cast guarantees. *)
Definition cast_ok (Type_ : PLIST_NODE_TYPE) (t : xml) : bool :=
  bool_decide (Type_ = PLIST_NODE_TYPE_ANY) || bool_decide (tag_of t = PlistNodeTypes Type_) &&
  match Type_ with
  | PLIST_NODE_TYPE_ANY | PLIST_NODE_TYPE_ARRAY => true
  | PLIST_NODE_TYPE_DICT => bool_decide (Z.of_nat (length (kids t)) mod 2 = 0)
  | PLIST_NODE_TYPE_KEY | PLIST_NODE_TYPE_INTEGER | PLIST_NODE_TYPE_REAL => bool_decide (text_of t <> None) && bool_decide (kids t = [])
  | _ => bool_decide (kids t = [])
  end.

Lemma Cast_stands h b p t Type_ : stands h b p t -> PlistNodeCast h b (Some p) Type_ = Ret (if cast_ok Type_ t then Some p else None).
Proof.
  intros HS. unfold PlistNodeCast, cast_ok. case_decide as E; [by rewrite bool_decide_true|]. rewrite (bool_decide_false _ E), orb_false_l.
  destruct (Name_stands _ _ _ _ HS) as (c & -> & Es). rewrite bind_ret, Es, bind_ret. cbv beta.
  destruct (decide (tag_of t = PlistNodeTypes Type_)) as [Et|Et].
  2: { rewrite decide_True by (by rewrite AsciiStrCmp_eq). by rewrite (bool_decide_false _ Et). }
  rewrite decide_False by (rewrite AsciiStrCmp_eq; tauto). rewrite (bool_decide_true _ Et), andb_true_l, (Children_stands _ _ _ _ HS), bind_ret. cbv beta zeta.
  assert ((if decide (0 < Z.of_nat (length (kids t))) then Ret None else Ret (Some p)) = Ret (if bool_decide (kids t = []) then Some p else None)) as EN.
  { destruct (kids t); [by rewrite decide_False|]. by rewrite decide_True by (cbn; lia). }
  assert ((Content ← XmlNodeContent h p; match Content with None => Ret None | Some _ => if decide (0 < Z.of_nat (length (kids t))) then Ret None else Ret (Some p) end)
    = Ret (if bool_decide (text_of t <> None) && bool_decide (kids t = []) then Some p else None)) as EC.
  { destruct (Content_stands _ _ _ _ HS) as (content' & -> & HC). rewrite bind_ret. cbv beta.
    by destruct content', (text_of t). }
  destruct Type_; rewrite ?EC, ?EN; try done. by destruct (decide (Z.of_nat (length (kids t)) mod 2 = 0)) as [K|K];
    [rewrite decide_False, bool_decide_true by tauto|rewrite decide_True, bool_decide_false by tauto].
Qed.

(** *** Dictionaries *)
Fixpoint pairs (ts : list xml) : list (xml * xml) := match ts with k :: v :: ts => (k, v) :: pairs ts | _ => [] end.
Definition entries (t : xml) : list (xml * xml) := pairs (kids t).

Lemma pairs_length ts : Z.of_nat (length (pairs ts)) = Z.of_nat (length ts) / 2.
Proof.
  revert ts. fix IH 1. intros [|k [|v ts]]; [done|done|]. cbn [pairs length]. rewrite !Nat2Z.inj_succ, IH.
  replace (Z.succ (Z.succ (Z.of_nat (length ts)))) with (Z.of_nat (length ts) + 1 * 2) by lia. rewrite Z.div_add; lia.
Qed.

Lemma pairs_lookup ts : forall i k v, pairs ts !! i = Some (k, v) -> ts !! (2 * i)%nat = Some k /\ ts !! (2 * i + 1)%nat = Some v.
Proof.
  revert ts. fix IH 1. intros [|k' [|v' ts]] i k v; [done|done|]. destruct i as [|i]; [by intros [= -> ->]|]. cbn [pairs]. intros H. cbn in H.
  destruct (IH ts i k v H). by replace (2 * S i)%nat with (S (S (2 * i))) by lia.
Qed.

Definition key_of (t : xml) : option (list Z) := if cast_ok PLIST_NODE_TYPE_KEY t then text_of t else None.

Lemma KeyValue_stands h b p t : stands h b p t -> PlistKeyValue h b (Some p) = Ret (key_of t).
Proof.
  intros HS. unfold PlistKeyValue, key_of. rewrite (Cast_stands _ _ _ _ _ HS), bind_ret. cbv beta. destruct (cast_ok _ t); [by apply ReadContent_stands|done].
Qed.

Lemma DictChildren_stands h b p t : stands h b p t -> PlistDictChildren h p = Ret (Z.of_nat (length (entries t))).
Proof. intros HS. unfold PlistDictChildren, entries. by rewrite (Children_stands _ _ _ _ HS), bind_ret, pairs_length. Qed.

Lemma DictChild_stands h b p t i k v WantValue : stands h b p t -> entries t !! i = Some (k, v) ->
  exists qk qv, PlistDictChild h p (Z.of_nat i) WantValue = Ret (qk, if WantValue then Some qv else None) /\ stands h b qk k /\ stands h b qv v.
Proof.
  intros HS Hi. destruct (pairs_lookup _ _ _ _ Hi) as [Hk Hv]. destruct (Child_stands _ _ _ _ _ _ HS Hk) as (qk & Ek & Sk). destruct (Child_stands _ _ _ _ _ _ HS Hv) as (qv & Ev & Sv).
  destruct (stands_inv _ _ _ _ HS) as (_ & _ & _ & _ & _ & _ & _ & Hcount & _). apply lookup_lt_Some in Hv. unfold XML_PARSER_NODE_COUNT in Hcount.
  exists qk, qv. split; [|done]. unfold PlistDictChild. rewrite (wrap_small 32 (Z.of_nat i * 2)) by lia. rewrite (wrap_small 32 (Z.of_nat i * 2 + 1)) by lia.
  replace (Z.of_nat i * 2 + 1) with (Z.of_nat (2 * i + 1)) by lia. replace (Z.of_nat i * 2) with (Z.of_nat (2 * i)) by lia.
  destruct WantValue; rewrite ?Ev, !bind_ret; cbv beta; by rewrite Ek, bind_ret.
Qed.

(** *** Strings and data *)
Definition string_value (t : xml) (V : list Z) (Size : Z) : outcome (bool * list Z * Z) :=
  if cast_ok PLIST_NODE_TYPE_STRING t then StringContent (text_of t) V Size else Ret (false, V, Size).
Definition data_value (t : xml) (V : list Z) (Size : Z) : outcome (bool * list Z * Z) :=
  if cast_ok PLIST_NODE_TYPE_DATA t then DataContent (text_of t) V Size 0 else Ret (false, V, Size).
Definition boolean_value (t : xml) (V : list Z) : outcome (bool * list Z) :=
  if cast_ok PLIST_NODE_TYPE_TRUE t then V ← wr V 0 1; Ret (true, V) else
  if cast_ok PLIST_NODE_TYPE_FALSE t then V ← wr V 0 0; Ret (true, V) else Ret (false, V).
Definition multi_value (t : xml) (V : list Z) (Size : Z) : outcome (bool * list Z * Z) :=
  if cast_ok PLIST_NODE_TYPE_DATA t then DataContent (text_of t) V Size Size else
  if cast_ok PLIST_NODE_TYPE_STRING t then StringContent (text_of t) V Size else
  if cast_ok PLIST_NODE_TYPE_INTEGER t then MultiInteger (text_of t) V else
  if cast_ok PLIST_NODE_TYPE_TRUE t then V ← wr V 0 1; Ret (true, V, 1) else
  if cast_ok PLIST_NODE_TYPE_FALSE t then V ← wr V 0 0; Ret (true, V, 1) else Ret (false, V, Size).

Definition string_size (t : xml) : option Z := if cast_ok PLIST_NODE_TYPE_STRING t then Some (ContentLength (text_of t) 1) else None.
Definition data_size (t : xml) : option Z := if cast_ok PLIST_NODE_TYPE_DATA t then Some (ContentLength (text_of t) 0) else None.
Definition multi_size (t : xml) : option Z :=
  if cast_ok PLIST_NODE_TYPE_DATA t then Some (ContentLength (text_of t) 0) else
  if cast_ok PLIST_NODE_TYPE_STRING t then Some (ContentLength (text_of t) 1) else
  if cast_ok PLIST_NODE_TYPE_INTEGER t then Some 4 else
  if cast_ok PLIST_NODE_TYPE_TRUE t || cast_ok PLIST_NODE_TYPE_FALSE t then Some 1 else None.

Ltac by_casts HS :=
  repeat first
  [ done
  | rewrite (ReadContent_stands _ _ _ _ HS), bind_ret; done
  | rewrite (Cast_stands _ _ _ _ _ HS), bind_ret; cbv beta;
    match type of HS with stands _ _ ?p _ => match goal with |- context [if cast_ok ?ty ?t then Some p else None] => destruct (cast_ok ty t); cbv iota end end ].

Lemma StringValue_stands h b p t V Size : stands h b p t -> PlistStringValue h b (Some p) V Size = string_value t V Size.
Proof. intros HS. unfold PlistStringValue, string_value. by_casts HS. Qed.
Lemma DataValue_stands h b p t V Size : stands h b p t -> PlistDataValue h b (Some p) V Size = data_value t V Size.
Proof. intros HS. unfold PlistDataValue, data_value. by_casts HS. Qed.
Lemma BooleanValue_stands h b p t V : stands h b p t -> PlistBooleanValue h b (Some p) V = boolean_value t V.
Proof. intros HS. unfold PlistBooleanValue, boolean_value. by_casts HS. Qed.
Lemma MultiDataValue_stands h b p t V Size : stands h b p t -> PlistMultiDataValue h b (Some p) V Size = multi_value t V Size.
Proof. intros HS. unfold PlistMultiDataValue, multi_value. by_casts HS. Qed.
Lemma StringSize_stands h b p t : stands h b p t -> PlistStringSize h b (Some p) = Ret (string_size t).
Proof. intros HS. unfold PlistStringSize, string_size. by_casts HS. Qed.
Lemma DataSize_stands h b p t : stands h b p t -> PlistDataSize h b (Some p) = Ret (data_size t).
Proof. intros HS. unfold PlistDataSize, data_size. by_casts HS. Qed.
Lemma MultiDataSize_stands h b p t : stands h b p t -> PlistMultiDataSize h b (Some p) = Ret (multi_size t).
Proof. intros HS. unfold PlistMultiDataSize, multi_size. by_casts HS. Qed.

(** *** Integers *)
Fixpoint skip_blanks (s : list Z) : list Z := match s with [] => [] | c :: s' => if decide (c = 32 \/ c = 9) then skip_blanks s' else s end.

(** The value of decimal digits behind blanks and a sign. *)
Definition integer_of (s : list Z) : Z :=
  match skip_blanks s with
  | [] => AsciiStrDecimalToUint64 []
  | c :: s' => if decide (c = 45) then 0 -[64] AsciiStrDecimalToUint64 s' else AsciiStrDecimalToUint64 (c :: s')
  end.

Lemma char_at_head b c s : AsciiStr b c = Ret s -> char_at b c 0 = Ret (default 0 (head s)).
Proof.
  destruct c as [o|t]; cbn; [|intros [= ->]; by destruct s]. unfold c_string. case_decide; [|done]. rewrite Z.add_0_r.
  destruct (drop (Z.to_nat o) b) as [|x r] eqn:E; [done|]. intros K.
  assert (rd b o = Ret x) as -> by (apply rd_lookup; [done|]; rewrite <- (Nat.add_0_r (Z.to_nat o)), <- lookup_drop; by rewrite E).
  cbn [until_nul] in K. case_decide; [by simplify_eq|]. destruct (until_nul r); by simplify_eq/=.
Qed.

Lemma advance_tail b c x s : AsciiStr b c = Ret (x :: s) -> AsciiStr b (advance c) = Ret s.
Proof.
  destruct c as [o|t]; cbn; [|by intros [= ->]]. unfold c_string. case_decide; [|done]. rewrite decide_True by lia.
  destruct (drop (Z.to_nat o) b) as [|y r] eqn:E; [done|]. replace (drop (Z.to_nat (o + 1)) b) with r.
  - cbn [until_nul]. case_decide; [done|]. destruct (until_nul r); by intros [= -> ->].
  - replace (Z.to_nat (o + 1)) with (Z.to_nat o + 1)%nat by lia. by rewrite <- drop_drop, E.
Qed.

Lemma SkipBlank_spec b : forall s c n, AsciiStr b c = Ret s -> (length s < n)%nat ->
  exists c', while_ n (SkipBlank b) c = Ret c' /\ AsciiStr b c' = Ret (skip_blanks s).
Proof.
  induction s as [|x s IH]; intros c n Hc Hn; destruct n as [|n]; try (cbn in Hn; lia).
  - exists c. rewrite (while_inr _ _ _ c); [done|]. unfold SkipBlank. by rewrite (char_at_head _ _ _ Hc), bind_ret.
  - assert (SkipBlank b c = Ret (if decide (x = 32 \/ x = 9) then inl (advance c) else inr c)) as E by by (unfold SkipBlank; rewrite (char_at_head _ _ _ Hc), bind_ret).
    cbn [skip_blanks]. case_decide as Hx; [|by exists c; rewrite (while_inr _ _ _ c)].
    rewrite (while_inl _ _ _ (advance c)) by done. apply IH; [by eapply advance_tail|cbn in Hn; lia].
Qed.

Lemma ParseInteger_spec b c s : AsciiStr b c = Ret s -> ParseInteger b c false = Ret (integer_of s).
Proof.
  intros Hc. unfold ParseInteger, integer_of. rewrite Hc, bind_ret. cbv beta. destruct (SkipBlank_spec b s c (S (length s)) Hc) as (c' & -> & Hc'); [lia|].
  rewrite bind_ret. cbv beta. rewrite (char_at_head _ _ _ Hc'), bind_ret. cbv beta zeta. destruct (skip_blanks s) as [|x r].
  - cbn [head default]. rewrite bool_decide_false by done. by rewrite bind_ret, Hc', bind_ret.
  - cbn [head default]. change (id x) with x. case_decide as Hx.
    + rewrite bool_decide_true by done. by rewrite bind_ret, (advance_tail _ _ _ _ Hc'), bind_ret.
    + rewrite bool_decide_false by done. by rewrite bind_ret, Hc', bind_ret.
Qed.

Definition integer_value (t : xml) (V : list Z) (Size : Z) : outcome (bool * list Z) :=
  if cast_ok PLIST_NODE_TYPE_INTEGER t then StoreInteger (integer_of (default [] (text_of t))) V Size else Ret (false, V).

Lemma IntegerValue_stands h b p t V Size : stands h b p t -> PlistIntegerValue h b (Some p) V Size false = integer_value t V Size.
Proof.
  intros HS. unfold PlistIntegerValue, integer_value. rewrite (Cast_stands _ _ _ _ _ HS), bind_ret. cbv beta. destruct (cast_ok _ t) eqn:EC; [|done].
  destruct (Content_stands _ _ _ _ HS) as (c & -> & Hc). rewrite bind_ret. cbv beta. unfold cast_ok in EC. cbn in EC.
  destruct (text_of t) as [s|]; [|by rewrite andb_false_r in EC]. destruct c as [c|]; [|done]. by rewrite (ParseInteger_spec _ _ _ Hc), bind_ret.
Qed.
End Specification.

(** ** Unescaping and its inverse *)

(** The five predefined entities of XML 1.0 (section 4.6) with their characters. *)
Inductive predefined : list Z -> list Z -> Prop :=
| predefined_amp : predefined (str "&amp;") (str "&")
| predefined_lt : predefined (str "&lt;") (str "<")
| predefined_gt : predefined (str "&gt;") (str ">")
| predefined_apos : predefined (str "&apos;") (str "'")
| predefined_quot : predefined (str "&quot;") [34].

(** [spells r s]: the text [r] of a document stands for the string [s]. Every character
    stands for itself but an ampersand that starts a predefined entity. *)
Inductive spells : list Z -> list Z -> Prop :=
| spells_end : spells [] []
| spells_entity e c r s : predefined e c -> spells r s -> spells (e ++ r) (c ++ s)
| spells_char c r s : (forall e d, predefined e d -> take (length e) (c :: r) <> e) -> spells r s -> spells (c :: r) (c :: s).

(** The text in which every special character is written as its entity. *)
Definition escape_char (c : Z) : list Z :=
  if decide (c = 38) then str "&amp;" else if decide (c = 60) then str "&lt;" else if decide (c = 62) then str "&gt;" else
  if decide (c = 39) then str "&apos;" else if decide (c = 34) then str "&quot;" else [c].
Definition escape (s : list Z) : list Z := s ≫= escape_char.

(** The first entity at the start of a string. *)
Definition starts_with (s : list Z) (e : list Z * Z) : Prop := take (length e.1) s = e.1.
#[export] Instance starts_with_dec s e : Decision (starts_with s e).
Proof. unfold starts_with. apply _. Defined.
Definition entity_of (s : list Z) : option (list Z * Z) := snd <$> list_find (starts_with s) entities.

(** What a string with entities stands for. *)
Inductive unescaped : list Z -> list Z -> Prop :=
| unescaped_end : unescaped [] []
| unescaped_entity name d r s : entity_of r = Some (name, d) -> unescaped (drop (length name) r) s -> unescaped (AMPERSAND :: r) (d :: s)
| unescaped_char c r s : c <> AMPERSAND \/ entity_of r = None -> unescaped r s -> unescaped (c :: r) (c :: s).

Lemma unescaped_length r s : unescaped r s -> (length s <= length r)%nat.
Proof. induction 1; cbn; [done|rewrite length_drop in *|]; lia. Qed.

Lemma predefined_head e d : predefined e d -> head e = Some AMPERSAND.
Proof. by intros []. Qed.

Lemma escape_spells s : spells (escape s) s.
Proof.
  induction s as [|c s IH]; [constructor|]. change (escape (c :: s)) with (escape_char c ++ escape s). unfold escape_char.
  repeat (case_decide; [subst c; apply (spells_entity _ [_]); [constructor|exact IH]|]).
  cbn [app]. apply spells_char; [|exact IH]. intros e d Hp E. apply predefined_head in Hp. destruct e as [|x e]; [done|]. injection Hp as ->. by injection E as -> _.
Qed.

(** The entities that the code tests are the predefined ones. *)
Lemma entities_predefined i name d : entities !! i = Some (name, d) -> predefined (AMPERSAND :: name) [d].
Proof. intros E. by do 5 (destruct i as [|i]; [injection E as <- <-; constructor|]). Qed.

Lemma predefined_entity e c r : predefined e c -> exists name d, e = AMPERSAND :: name /\ c = [d] /\ entity_of (name ++ r) = Some (name, d).
Proof. by intros []; eexists _, _. Qed.

Lemma spells_unescaped r s : spells r s -> unescaped r s.
Proof.
  induction 1 as [|e c r s Hp _ IH|c r s Hc _ IH]; [constructor| |].
  - destruct (predefined_entity e c r Hp) as (name & d & -> & -> & E). change (unescaped (AMPERSAND :: (name ++ r)) (d :: s)). apply (unescaped_entity name d); [exact E|by rewrite drop_app_length].
  - apply unescaped_char; [|exact IH]. destruct (decide (c = AMPERSAND)) as [->|]; [right|by left].
    unfold entity_of. destruct (list_find _ _) as [[i [name d]]|] eqn:EL; [|done]. exfalso. apply list_find_Some in EL as (EL & HS & _).
    apply entities_predefined in EL. eapply Hc; [exact EL|]. cbn [length take]. by f_equal.
Qed.

(** Every text stands for a string. *)
Lemma spells_exists : forall n r, (length r <= n)%nat -> exists s, spells r s.
Proof.
  induction n as [|n IH]; intros [|c r] Hn; cbn in Hn; try lia; try (exists []; constructor).
  destruct (decide (c = AMPERSAND)) as [->|Hc]; [destruct (entity_of r) as [[name d]|] eqn:E|].
  - unfold entity_of in E. destruct (list_find _ _) as [[i e]|] eqn:EL; [|done]. injection E as ->. apply list_find_Some in EL as (EL & HS & _).
    destruct (IH (drop (length name) r)) as (s & Hs); [rewrite length_drop; lia|]. exists ([d] ++ s).
    pose proof (spells_entity _ _ _ _ (entities_predefined _ _ _ EL) Hs) as K. unfold starts_with in HS. cbn in HS.
    rewrite <- (take_drop (length name) r) at 1. by rewrite HS.
  - destruct (IH r) as (s & Hs); [lia|]. exists (AMPERSAND :: s). apply spells_char; [|done]. intros e d Hp HE.
    destruct (predefined_entity e d (drop (length e) (AMPERSAND :: r)) Hp) as (name & d' & -> & _ & K). cbn [length take drop] in HE, K. injection HE as HE.
    rewrite <- HE, take_drop in K at 1. congruence.
  - destruct (IH r) as (s & Hs); [lia|]. exists (c :: s). apply spells_char; [|done]. intros e d Hp HE. apply predefined_head in Hp.
    destruct e as [|x e]; [done|]. injection Hp as ->. by injection HE as -> _.
Qed.

Lemma entities_black : Forall (fun e => e.2 <> 0) entities.
Proof. by apply (bool_decide_unpack _). Qed.

Lemma unescaped_black r s : unescaped r s -> Forall (fun c => c <> 0) r -> Forall (fun c => c <> 0) s.
Proof.
  induction 1 as [|name d r s E _ IH|c r s _ _ IH]; intros HF; [done|..]; inversion HF as [|? ? H0 HF']; subst; constructor; auto using Forall_drop.
  unfold entity_of in E. destruct (list_find _ _) as [[i e]|] eqn:EL; [|done]. injection E as ->. apply list_find_Some in EL as (EL & _).
  exact (proj1 (Forall_lookup _ _) entities_black _ _ EL).
Qed.

Section Unescape.
Context `{HPool : XmlPool} {HPoolLaws : XmlPoolLaws HPool} `{HLib : AsciiLib} {HLaws : AsciiLibLaws HLib}.

Lemma MatchEntity_spec s : MatchEntity entities s = entity_of s.
Proof.
  unfold entity_of. generalize entities. intros es. induction es as [|[name d] es IH]; [done|]. cbn [MatchEntity list_find].
  assert (AsciiStrnCmp s name (Z.of_nat (length name)) = 0 <-> starts_with s (name, d)) as Hiff.
  { rewrite AsciiStrnCmp_eq by lia. unfold starts_with. cbn. by rewrite Nat2Z.id, (firstn_all name). }
  destruct (decide (starts_with s (name, d))) as [K|K]; [by rewrite decide_True by by apply Hiff|]. rewrite decide_False by by rewrite Hiff.
  rewrite IH. by destruct (list_find _ es) as [[i e]|].
Qed.

Lemma UnescapeLoop_spec r s : unescaped r s -> forall n out B, (length r < n)%nat -> take (length out) B = out -> (length out + length r < length B)%nat ->
  exists B', while_ n UnescapeStep (r, B, Z.of_nat (length out)) = Ret (B', Z.of_nat (length (out ++ s))) /\ length B' = length B /\ take (length (out ++ s)) B' = out ++ s.
Proof.
  assert (forall (out B : list Z) d, take (length out) B = out -> (length out < length B)%nat -> wr B (Z.of_nat (length out)) d = Ret (<[length out := d]> B)
    /\ take (length (out ++ [d])) (<[length out := d]> B) = out ++ [d]) as Hput.
  { intros out B d HT HL. rewrite wr_in by lia. rewrite Nat2Z.id. split; [done|]. rewrite length_app. cbn [length]. rewrite Nat.add_1_r.
    rewrite (take_S_r _ _ d) by by apply list_lookup_insert_eq. by rewrite take_insert_ge by lia; rewrite HT. }
  induction 1 as [|name d r s E _ IH|c r s Hc _ IH]; intros n out B Hn HT HL; destruct n as [|n]; try (cbn in Hn; lia).
  - exists B. rewrite app_nil_r. by rewrite (while_inr _ _ _ (B, Z.of_nat (length out))).
  - destruct (Hput out B d HT) as (E1 & E2); [cbn in HL; lia|].
    destruct (IH n (out ++ [d]) (<[length out := d]> B)) as (B' & EW & HB & HT'); [rewrite length_drop; cbn in Hn; lia|done|rewrite length_app, length_insert, length_drop; cbn in *; lia|].
    rewrite <- app_assoc in EW, HT'. rewrite length_insert in HB. exists B'. split; [|by split]. rewrite (while_inl _ _ _ (drop (length name) r, <[length out := d]> B, Z.of_nat (length (out ++ [d])))).
    + exact EW.
    + unfold UnescapeStep. rewrite decide_True, MatchEntity_spec, E by done. rewrite E1, bind_ret. cbv beta. do 3 f_equal. rewrite length_app. cbn. lia.
  - destruct (Hput out B c HT) as (E1 & E2); [cbn in HL; lia|].
    destruct (IH n (out ++ [c]) (<[length out := c]> B)) as (B' & EW & HB & HT'); [cbn in Hn; lia|done|rewrite length_app, length_insert; cbn in *; lia|].
    rewrite <- app_assoc in EW, HT'. rewrite length_insert in HB. exists B'. split; [|by split]. rewrite (while_inl _ _ _ (r, <[length out := c]> B, Z.of_nat (length (out ++ [c])))).
    + exact EW.
    + unfold UnescapeStep. assert ((if decide (c = AMPERSAND) then MatchEntity entities r else None) = None) as ->.
      { case_decide; [|done]. rewrite MatchEntity_spec. by destruct Hc. }
      rewrite E1, bind_ret. cbv beta. do 3 f_equal. rewrite length_app. cbn. lia.
Qed.

Lemma until_nul_terminated (B s : list Z) : Forall (fun c => c <> 0) s -> take (length s) B = s -> B !! length s = Some 0 -> until_nul B = Some s.
Proof.
  intros HF. revert B. induction HF as [|c s Hc _ IH]; intros B HT HB.
  - destruct B as [|x B]; [done|]. injection HB as ->. cbn. by rewrite decide_True.
  - destruct B as [|x B]; [done|]. cbn in HT, HB. injection HT as -> HT. cbn. rewrite decide_False by done. by rewrite (IH B).
Qed.

Lemma Unescape_spec k r s : Forall (fun c => c <> 0) r -> unescaped r s ->
  exists B, XmlUnescapeString k r = Ret B /\ match B with Some B => c_string B 0 = Ret s | None => Allocate k (Z.of_nat (length r) + 1) = None end.
Proof.
  intros HF HU. unfold XmlUnescapeString. destruct (Allocate k _) as [B|] eqn:EA; [|by exists None]. pose proof EA as HB. apply Allocate_length in HB; [|lia].
  destruct (UnescapeLoop_spec r s HU (S (length r)) [] B) as (B' & EW & HB' & HT); [lia|done|cbn; lia|]. cbn [app length] in EW, HT.
  change (Z.of_nat 0) with 0 in EW. rewrite EW, bind_ret. cbv beta iota. pose proof (unescaped_length _ _ HU). rewrite wr_in by lia. rewrite bind_ret. cbv beta.
  eexists. split; [done|]. cbv iota. unfold c_string. rewrite decide_True by lia. rewrite Nat2Z.id. change (Z.to_nat 0) with 0%nat. rewrite drop_0.
  assert (until_nul ( (<[length s := 0]> B')) = Some s) as ->; [|done].
  apply until_nul_terminated; [by eapply unescaped_black|by rewrite take_insert_ge by lia|apply list_lookup_insert_eq; lia].
Qed.
End Unescape.

(** ** Concrete instances: copying, and base 64 with its padding *)
Definition sextet (c : Z) : option Z :=
  if decide (65 <= c <= 90) then Some (c - 65) else if decide (97 <= c <= 122) then Some (c - 71) else if decide (48 <= c <= 57) then Some (c + 4) else
  if decide (c = 43) then Some 62 else if decide (c = 47) then Some 63 else None.
Definition PAD : Z := 61.

(** The bytes of a group of four characters. *)
Definition group (a b c d : Z) (last : bool) : option (list Z) :=
  x ← sextet a; y ← sextet b;
  if decide (last = true /\ c = PAD /\ d = PAD) then Some [x * 4 + y / 16] else
  z ← sextet c;
  if decide (last = true /\ d = PAD) then Some [x * 4 + y / 16; y mod 16 * 16 + z / 4] else
  w ← sextet d;
  Some [x * 4 + y / 16; y mod 16 * 16 + z / 4; z mod 4 * 64 + w].

Fixpoint decode64 (s : list Z) : option (list Z) :=
  match s with
  | [] => Some []
  | a :: b :: c :: d :: r => g ← group a b c d (match r with [] => true | _ => false end); t ← decode64 r; Some (g ++ t)
  | _ => None
  end.

Definition sample_copy : CopyLib := {|
  AsciiStrnCpyS m s n := if decide (Z.of_nat (length (take (Z.to_nat n) s)) < m) then Some (take (Z.to_nat n) s ++ [0]) else None;
  base64 := decode64;
  Base64Decode s n := match decode64 s with
    | Some d => if decide (Z.of_nat (length d) <= n) then (EFI_SUCCESS, Z.of_nat (length d), d) else (EFI_BUFFER_TOO_SMALL, Z.of_nat (length d), [])
    | None => (EFI_INVALID_PARAMETER, n, [])
    end
|}.

Lemma group_length a b c d last g : group a b c d last = Some g -> (length g <= 4)%nat.
Proof.
  unfold group. destruct (sextet a); [|done]. destruct (sextet b); [|done]. cbn. case_decide; [by intros [= <-]; cbn; lia|]. destruct (sextet c); [|done]. cbn.
  case_decide; [by intros [= <-]; cbn; lia|]. destruct (sextet d); [|done]. cbn. by intros [= <-]; cbn; lia.
Qed.

Lemma decode64_length : forall s d, decode64 s = Some d -> (length d <= length s)%nat.
Proof.
  fix IH 1. intros [|a [|b [|c [|e r]]]] d; try done; [by intros [= <-]|]. cbn [decode64]. destruct (group a b c e _) as [g|] eqn:EG; [|done]. cbn.
  destruct (decode64 r) as [t|] eqn:ET; [|done]. cbn. intros [= <-]. rewrite length_app. apply group_length in EG. specialize (IH r t ET). lia.
Qed.

Lemma sample_copy_laws : CopyLibLaws sample_copy.
Proof.
  split; cbn.
  - intros m s n r. case_decide; [|done]. intros [= <-]. split; [done|]. rewrite length_app. cbn. lia.
  - intros m s n _ _ H. by rewrite decide_True.
  - intros s d H%decode64_length. lia.
  - intros s n Hn. destruct (decode64 s) as [d|]; [case_decide|]; cbn; lia.
  - intros s n d -> H. by rewrite decide_True.
  - intros s n d -> H. by rewrite decide_False by lia.
  - intros s n ->. done.
Qed.

(** ** Properties *)
Section Properties.
Context `{HPool : XmlPool} {HPoolLaws : XmlPoolLaws HPool} `{HLib : AsciiLib} {HLaws : AsciiLibLaws HLib}.

(** C32: unescaping inverts escaping: for every text [r] without a zero,
    [XmlUnescapeString] returns the string that [r] stands for by the predefined entities
    of XML (an ampersand that starts none of them stands for itself), terminated, or NULL
    exactly if the pool does not meet the request; it never writes outside of the buffer.
    Every text stands for some string, and the escaped text of a string stands for it. *)
Theorem XmlUnescapeString_escape k r : Forall (fun c => c <> 0) r ->
  (exists s, spells r s)
  /\ (forall s, r = escape s -> spells r s)
  /\ forall s, spells r s -> exists B, XmlUnescapeString k r = Ret B /\
       match B with Some B => c_string B 0 = Ret s | None => Allocate k (Z.of_nat (length r) + 1) = None end.
Proof.
  intros HF. split; [by apply (spells_exists (length r))|]. split; [intros s ->; apply escape_spells|].
  intros s HS. apply Unescape_spec; [done|by apply spells_unescaped].
Qed.
End Properties.

Definition sample_text : list Z := str "'a'<b&&c>" ++ [34].

Lemma XmlUnescapeString_escape_witness :
  escape sample_text = str "&apos;a&apos;&lt;b&amp;&amp;c&gt;&quot;" /\
  exists B, @XmlUnescapeString sample_pool sample_lib 0 (escape sample_text) = Ret (Some B) /\ c_string B 0 = Ret sample_text.
Proof.
  split; [by vm_compute|].
  destruct (@XmlUnescapeString_escape sample_pool sample_pool_laws sample_lib sample_lib_laws 0 (escape sample_text)) as (_ & H1 & H2);
    [by apply (bool_decide_unpack _)|].
  destruct (H2 sample_text (H1 sample_text eq_refl)) as ([B|] & E & HB); [by exists B|done].
Defined.

(** ** Where the code does not do what it means to *)

(** The prefix of a hexadecimal number is tested with [&&] instead of [||], so that a
    number with a leading zero is read as a hexadecimal one. *)
Theorem leading_zero_is_hexadecimal : @ParseInteger sample_lib [] (Text (str "010")) true = Ret 16.
Proof. by vm_compute. Qed.

(** A string that does not fit is reported as stored. *)
Theorem long_string_not_stored : @StringContent sample_copy (Some (str "abc")) [7; 7] 2 = Ret (true, [7; 7], 2).
Proof. by vm_compute. Qed.

(** An integer takes four bytes, whatever the size of the buffer. *)
Theorem meta_integer_overruns : @MultiInteger sample_lib (Some (str "5")) [0; 0] = Fault OutOfBounds.
Proof. by vm_compute. Qed.

(** The size of an empty string is 0, and one byte is stored for it. *)
Definition empty_string : xml := Elem (str "string") None None None.
Theorem empty_string_size : string_size empty_string = Some 0 /\ @string_value sample_copy empty_string [] 0 = Fault OutOfBounds.
Proof. by vm_compute. Qed.
End Plist.
