(* ===== verification/Template.v ===== *)
(** * Blobs, arrays and maps: [Library/OcTemplateLib/OcTemplateLib.c]

    The objects of the configuration. A structure is the list of its fields with
    their names, which stand for their offsets; a block of the pool belongs to the
    one pointer that refers to it and is part of the object. The state counts the
    requests to the pool and the blocks that are live, so that a lost or twice
    released block shows. *)
From Stdlib Require Import String.
From stdpp Require Import list strings.
From S2P Require Import Prelude Xml.

Module Template.
Import Xml.

(** ** Data *)

(** [OC_BLOB]: what a blob is for its users is [Size] bytes at [OC_BLOB_GET]. *)
Record OC_BLOB : Set := Blob_ { Size : Z; MaxSize : Z; DynValue : option (list Z); Value : list Z }.

(** An object is memory without meaning for this library, a pointer with the
    destructor [OcFreePointer], a blob, an array or map, or a structure. The
    constructor of a type copies its initial object. *)
Inductive obj : Set :=
| Bytes (b : list Z)
| Pointer (Block : option (list Z))
| Blob (b : OC_BLOB)
| Entries (l : oc_list)
| Struct (Fields : list (string * obj))
(** [OC_ARRAY], and [OC_MAP] with the initial key; [Count] is the number of values. *)
with oc_list : Set := OcList (AllocCount : Z) (Construct : obj) (Values : option (list obj)) (KeyConstruct : option obj) (Keys : option (list obj)).

Definition AllocCount (l : oc_list) : Z := match l with OcList a _ _ _ _ => a end.
Definition Construct (l : oc_list) : obj := match l with OcList _ c _ _ _ => c end.
Definition Values (l : oc_list) : option (list obj) := match l with OcList _ _ v _ _ => v end.
Definition KeyConstruct (l : oc_list) : option obj := match l with OcList _ _ _ k _ => k end.
Definition Keys (l : oc_list) : option (list obj) := match l with OcList _ _ _ _ k => k end.
Definition Count (l : oc_list) : Z := Z.of_nat (length (default [] (Values l))).

(** The size of an object, as the compiler lays it out. *)
Class Layout : Type := { sizeof : obj -> Z }.

(** The number of requests so far, and the number of live blocks. *)
Record pool_state : Set := Pool { Asked : Z; Live : Z }.

Definition OC_BLOB_GET (b : OC_BLOB) : list Z := match b.(DynValue) with Some d => d | None => b.(Value) end.

Section Model.
Context `{XmlPool, Layout}.

Definition AllocatePool (s : pool_state) (n : Z) : pool_state * option (list Z) :=
  match Allocate s.(Asked) n with
  | Some b => (Pool (s.(Asked) + 1) (s.(Live) + 1), Some b)
  | None => (Pool (s.(Asked) + 1) s.(Live), None)
  end.

Definition FreePool (s : pool_state) : pool_state := Pool s.(Asked) (s.(Live) - 1).

(** ** Release *)

(** The field is NULL afterwards. *)
Definition OcFreePointer {A} (Field : option A) (s : pool_state) : option A * pool_state :=
  match Field with Some _ => (None, FreePool s) | None => (None, s) end.

Definition OcZeroField (Field : Z) : Z := 0.

(** The destructor of the type of an object. The values of a map and its keys are
    released one after the other in the source, which makes no difference. *)
Fixpoint Destruct (o : obj) (s : pool_state) : obj * pool_state :=
  match o with
  | Bytes b => (Bytes b, s)
  | Pointer Block => let '(Block, s) := OcFreePointer Block s in (Pointer Block, s)
  | Blob b => let '(d, s) := OcFreePointer b.(DynValue) s in (Blob (Blob_ (OcZeroField b.(Size)) (OcZeroField b.(MaxSize)) d b.(Value)), s)
  | Entries l => let '(l, s) := OcFreeList l s in (Entries l, s)
  | Struct Fields =>
      let '(Fields, s) := (fix go (fs : list (string * obj)) (s : pool_state) : list (string * obj) * pool_state :=
        match fs with
        | [] => ([], s)
        | (f, o) :: fs => let '(o, s) := Destruct o s in let '(fs, s) := go fs s in ((f, o) :: fs, s)
        end) Fields s in
      (Struct Fields, s)
  end
with OcFreeList (l : oc_list) (s : pool_state) : oc_list * pool_state :=
  match l with
  | OcList _ c vs kc ks =>
      let free := fix go (l : list obj) (s : pool_state) : pool_state :=
        match l with [] => s | o :: l => let '(_, s) := Destruct o s in go l (FreePool s) end in
      let s := match vs with Some l => free l s | None => s end in
      let s := match ks with Some l => free l s | None => s end in
      let '(vs, s) := OcFreePointer vs s in
      let '(ks, s) := OcFreePointer ks s in
      (OcList 0 c vs kc ks, s)
  end.

(** ** Allocation *)

(** The result is whether a pointer is returned, which is [OC_BLOB_GET] then. *)
Definition OcBlobAllocate (s : pool_state) (b : OC_BLOB) (n : Z) : outcome (pool_state * OC_BLOB * bool) :=
  if decide (n <= b.(MaxSize)) then
    let '(d, s) := OcFreePointer b.(DynValue) s in
    Ret (s, Blob_ n b.(MaxSize) d b.(Value), true)
  else if decide (b.(Size) < n) then
    let '(d, s) := OcFreePointer b.(DynValue) s in
    let '(s, NewValue) := AllocatePool s n in
    match NewValue with
    | None => Ret (s, Blob_ b.(Size) b.(MaxSize) d b.(Value), false)
    | Some NewValue =>
        NewValue ← CopyMem NewValue 0 b.(Value) 0 b.(MaxSize);
        Ret (s, Blob_ n b.(MaxSize) (Some NewValue) b.(Value), true)
    end
  else Ret (s, Blob_ n b.(MaxSize) b.(DynValue) b.(Value), bool_decide (b.(DynValue) <> None)).

(** Construction of a new object and its release by the destructor. *)
Definition Discard (o : obj) (s : pool_state) : pool_state := FreePool (Destruct o s).2.

(** The initial key, for a list with keys. *)
Definition NewKey (l : oc_list) (HasKey : bool) : outcome (option obj) :=
  if HasKey then match KeyConstruct l with Some k => Ret (Some k) | None => Fault OutOfBounds end else Ret None.

(** A request that may be left out. *)
Definition AllocateIf (s : pool_state) (k : option Z) : pool_state * bool :=
  match k with Some n => let '(s, b) := AllocatePool s n in (s, bool_decide (b <> None)) | None => (s, true) end.

(** Storing the key [k] behind [n] others. *)
Definition PushKey (ks : option (list obj)) (n : nat) (k : option obj) : outcome (option (list obj)) :=
  match k, ks with
  | None, _ => Ret ks
  | Some k, Some ks => if decide (length ks = n) then Ret (Some (ks ++ [k])) else Fault OutOfBounds
  | Some _, None => Fault OutOfBounds
  end.

(** The second part: larger arrays for [Count] entries and the new one. *)
Definition GrowList (s : pool_state) (l : oc_list) (Key : option obj) : outcome (pool_state * oc_list * bool) :=
  let '(OcList a c vs kc ks) := l in
  let a := (match vs with Some _ => a | None => 1 end) *[32] 2 in
  let '(s, NewValues) := AllocatePool s (sizeof_pointer * a) in
  match NewValues with
  | None => let s := Discard c s in Ret (match Key with Some k => Discard k s | None => s end, l, false)
  | Some _ =>
      let '(s, NewKeys) := AllocateIf s ((fun _ => sizeof_pointer * a) <$> Key) in
      if negb NewKeys then
        let s := FreePool (Discard c s) in Ret (match Key with Some k => Discard k s | None => s end, l, false)
      else
      let s := (OcFreePointer vs s).2 in
      let s := match Key with Some _ => (OcFreePointer ks s).2 | None => s end in
      let vs := default [] vs in
      if decide (Z.of_nat (length vs) < a) then
        ks ← PushKey (match Key with Some _ => Some (default [] ks) | None => ks end) (length vs) Key;
        Ret (s, OcList a c (Some (vs ++ [c])) kc ks, true)
      else Fault OutOfBounds
  end.

(** The new entry is the last one; its value and key are the initial ones. *)
Definition OcListEntryAllocate (s : pool_state) (l : oc_list) (HasKey : bool) : outcome (pool_state * oc_list * bool) :=
  let '(OcList a c vs kc ks) := l in
  Key ← NewKey l HasKey;
  let '(s, NewValue) := AllocatePool s (sizeof c) in
  if bool_decide (NewValue = None) then Ret (s, l, false) else
  let '(s, KeyMemory) := AllocateIf s (sizeof <$> Key) in
  if negb KeyMemory then Ret (FreePool s, l, false) else
  match vs with
  | Some vs =>
      if decide (Z.of_nat (length vs) < a) then
        ks ← PushKey ks (length vs) Key;
        Ret (s, OcList a c (Some (vs ++ [c])) kc ks, true)
      else GrowList s l Key
  | None => GrowList s l Key
  end.

End Model.

(** ** Types

    The type of an object: what writing to it does not change. *)
Inductive otype : Set := TBytes (n : nat) | TPointer | TBlob (n : nat) | TList (c : obj) (kc : option obj) | TStruct (fields : list (string * otype)).

Fixpoint typeof (o : obj) : otype :=
  match o with
  | Bytes b => TBytes (length b)
  | Pointer _ => TPointer
  | Blob b => TBlob (length b.(Value))
  | Entries l => TList (Construct l) (KeyConstruct l)
  | Struct fs => TStruct (map (fun '(f, o) => (f, typeof o)) fs)
  end.

(** ** Blocks *)
Definition one {A} (p : option A) : Z := match p with Some _ => 1 | None => 0 end.

(** The number of blocks of an object. *)
Fixpoint blocks (o : obj) : Z :=
  match o with
  | Bytes _ => 0
  | Pointer p => one p
  | Blob b => one b.(DynValue)
  | Entries l => list_blocks l
  | Struct fs => foldr (fun '(_, o) n => blocks o + n) 0 fs
  end
with list_blocks (l : oc_list) : Z :=
  match l with
  | OcList _ _ vs _ ks =>
      let entries (l : option (list obj)) := match l with Some l => 1 + foldr (fun o n => 1 + blocks o + n) 0 l | None => 0 end in
      entries vs + entries ks
  end.

(** ** Invariant *)

Definition blob_ok (b : OC_BLOB) : Prop :=
  b.(MaxSize) = Z.of_nat (length b.(Value)) /\ 0 < b.(MaxSize) < 2 ^ 32 /\ 0 <= b.(Size) < 2 ^ 32 /\
  match b.(DynValue) with Some d => b.(Size) <= Z.of_nat (length d) < 2 ^ 32 | None => True end.

(** What a user sees of a blob is all there; see [failed_blob_overruns]. *)
Definition readable (b : OC_BLOB) : Prop := b.(Size) <= Z.of_nat (length (OC_BLOB_GET b)).

Definition is_blob (o : obj) : Prop := match o with Blob _ => True | _ => False end.

Fixpoint obj_ok (o : obj) : Prop :=
  match o with
  | Bytes _ | Pointer _ => True
  | Blob b => blob_ok b
  | Entries l => oc_list_ok l
  | Struct fs => foldr (fun '(_, o) P => obj_ok o /\ P) True fs
  end
with oc_list_ok (l : oc_list) : Prop :=
  match l with
  | OcList a c vs kc ks =>
      obj_ok c /\ blocks c = 0 /\
      match vs with
      | Some vs => 0 < Z.of_nat (length vs) <= a /\ a <= 2 * Z.of_nat (length vs) /\ foldr (fun v P => (obj_ok v /\ typeof v = typeof c) /\ P) True vs
      | None => True
      end /\
      match kc with
      | Some k => obj_ok k /\ blocks k = 0 /\ is_blob k /\
                  match vs, ks with
                  | Some vs, Some ks => length ks = length vs /\ foldr (fun v P => (obj_ok v /\ typeof v = typeof k) /\ P) True ks
                  | None, None => True
                  | _, _ => False
                  end
      | None => ks = None
      end
  end.

Definition entry_blocks (l : option (list obj)) : Z := match l with Some l => 1 + foldr (fun o n => 1 + blocks o + n) 0 l | None => 0 end.
Definition all_of (t : obj) (l : list obj) : Prop := foldr (fun v P => (obj_ok v /\ typeof v = typeof t) /\ P) True l.

(** Induction over objects, through structures and lists. *)
Section Induction.
Context (P : obj -> Prop).
Context (HBytes : forall b, P (Bytes b)) (HPointer : forall b, P (Pointer b)) (HBlob : forall b, P (Blob b))
  (HEntries : forall a c vs kc ks, P c -> Forall P (default [] vs) -> Forall P (default [] ks) -> P (Entries (OcList a c vs kc ks)))
  (HStruct : forall fs, Forall (fun f => P f.2) fs -> P (Struct fs)).

Fixpoint obj_ind' (o : obj) : P o :=
  let go := fix go (l : list obj) : Forall P l := match l with [] => Forall_nil_2 _ | o :: l => Forall_cons_2 _ _ _ (obj_ind' o) (go l) end in
  match o with
  | Bytes b => HBytes b
  | Pointer b => HPointer b
  | Blob b => HBlob b
  | Entries (OcList a c vs kc ks) =>
      HEntries a c vs kc ks (obj_ind' c) (match vs with Some l => go l | None => Forall_nil_2 _ end) (match ks with Some l => go l | None => Forall_nil_2 _ end)
  | Struct fs =>
      HStruct fs ((fix gof (fs : list (string * obj)) : Forall (fun f => P f.2) fs :=
        match fs with [] => Forall_nil_2 _ | (f, o) :: fs => Forall_cons_2 _ (f, o) _ (obj_ind' o) (gof fs) end) fs)
  end.
End Induction.

Lemma blocks_nonneg o : 0 <= blocks o.
Proof.
  induction o as [b|b|b|a c vs kc ks _ IHv IHk|fs IH] using obj_ind'; cbn [blocks].
  - done.
  - by destruct b.
  - destruct (DynValue b); cbn; lia.
  - assert (forall l, Forall (fun o => 0 <= blocks o) (default [] l) -> 0 <= entry_blocks l) as H.
    { intros [l|] H; [|done]. cbn in H. unfold entry_blocks. assert (0 <= foldr (fun o n => 1 + blocks o + n) 0 l); [|lia]. induction H; cbn; lia. }
    cbn. fold (entry_blocks vs) (entry_blocks ks). specialize (H vs IHv) as H1. specialize (H ks IHk). lia.
  - induction IH as [|[f o] fs Ho _ IH]; cbn in *; lia.
Qed.

Lemma entry_blocks_snoc vs c : entry_blocks (Some (vs ++ [c])) = entry_blocks (Some vs) + 1 + blocks c.
Proof. unfold entry_blocks. rewrite foldr_app. cbn. induction vs as [|v vs IH]; cbn in *; lia. Qed.

Lemma entry_blocks_count vs : Z.of_nat (length (default [] vs)) <= entry_blocks vs.
Proof.
  destruct vs as [vs|]; [|done]. cbn. assert (Z.of_nat (length vs) <= foldr (fun o n => 1 + blocks o + n) 0 vs); [|lia].
  induction vs as [|v vs IH]; cbn; [done|]. pose proof (blocks_nonneg v). lia.
Qed.

Lemma all_of_snoc t vs v : all_of t vs -> obj_ok v -> typeof v = typeof t -> all_of t (vs ++ [v]).
Proof. unfold all_of. rewrite foldr_app. cbn. intros H Hv Ht. induction vs as [|w vs IH]; [done|]. destruct H as [H1 H2]. split; [exact H1|by apply IH]. Qed.

(** ** Releasing an object gives back its blocks *)
Lemma Destruct_spec o : forall s, exists o', Destruct o s = (o', Pool s.(Asked) (s.(Live) - blocks o)) /\ blocks o' = 0 /\ typeof o' = typeof o.
Proof.
  assert (forall A (p : option A) s, OcFreePointer p s = (None, Pool s.(Asked) (s.(Live) - one p))) as Hfree.
  { intros A [x|] [k n]; cbn; [done|]. by rewrite Z.sub_0_r. }
  induction o as [b|b|b|a c vs kc ks _ IHv IHk|fs IH] using obj_ind'; intros s.
  - exists (Bytes b). cbn. rewrite Z.sub_0_r. by destruct s.
  - exists (Pointer None). cbn [Destruct]. by rewrite Hfree.
  - exists (Blob (Blob_ 0 0 None b.(Value))). cbn [Destruct]. by rewrite Hfree.
  - exists (Entries (OcList 0 c None kc None)). cbn [Destruct OcFreeList]. set (free := fix go (l : list obj) (s : pool_state) : pool_state := match l with [] => s | _ => _ end).
    assert (forall l s, Forall (fun o => forall s, exists o', Destruct o s = (o', Pool s.(Asked) (s.(Live) - blocks o)) /\ blocks o' = 0 /\ typeof o' = typeof o) l ->
      free l s = Pool s.(Asked) (s.(Live) - foldr (fun o n => 1 + blocks o + n) 0 l)) as Hgo.
    { intros l t H. revert t. induction H as [|o l Ho _ IH]; intros [k n]; cbn; [by rewrite Z.sub_0_r|].
      destruct (Ho (Pool k n)) as (o' & -> & _). rewrite IH. cbn. f_equal. lia. }
    assert (forall l s, Forall (fun o => forall s, exists o', Destruct o s = (o', Pool s.(Asked) (s.(Live) - blocks o)) /\ blocks o' = 0 /\ typeof o' = typeof o) (default [] l) ->
      match l with Some l => free l s | None => s end = Pool s.(Asked) (s.(Live) - (entry_blocks l - one l))) as Hl.
    { intros [l|] [k n] H; [|cbn; by rewrite Z.sub_0_r]. rewrite Hgo by done. unfold entry_blocks, one. f_equal. cbn. lia. }
    rewrite (Hl vs s IHv), (Hl ks _ IHk), Hfree, Hfree. cbn [Asked Live]. split; [|done]. do 2 f_equal. cbn. fold (entry_blocks vs) (entry_blocks ks). lia.
  - cbn [Destruct]. set (go := fix go (fs : list (string * obj)) (s : pool_state) : list (string * obj) * pool_state := match fs with [] => _ | _ => _ end).
    assert (exists fs', go fs s = (fs', Pool s.(Asked) (s.(Live) - blocks (Struct fs))) /\ blocks (Struct fs') = 0 /\ typeof (Struct fs') = typeof (Struct fs)) as (fs' & E & H1 & H2).
    { revert s. induction IH as [|[f o] fs Ho _ IH]; intros s; [exists []; destruct s; cbn; by rewrite Z.sub_0_r|].
      destruct (Ho s) as (o' & E & H1 & H2). destruct (IH (Pool s.(Asked) (s.(Live) - blocks o))) as (fs' & E' & H3 & H4).
      exists ((f, o') :: fs'). cbn in E. cbn [go snd]. rewrite E. fold go. rewrite E'. split; [|split].
      - do 2 f_equal. cbn. lia.
      - cbn in *. lia.
      - cbn in *. injection H4 as ->. by rewrite H2. }
    rewrite E. by exists (Struct fs').
Qed.

Section Specification.
Context `{HPool : XmlPool} {HPoolLaws : XmlPoolLaws HPool} `{HLayout : Layout}.

Lemma AllocatePool_spec s n : exists s' r, AllocatePool s n = (s', r) /\ s'.(Asked) = s.(Asked) + 1 /\ s'.(Live) = s.(Live) + one r
  /\ (all_met -> r <> None) /\ forall b, r = Some b -> 0 <= n -> Z.of_nat (length b) = n.
Proof.
  unfold AllocatePool. destruct (Allocate s.(Asked) n) as [b|] eqn:E; eexists _, _; (split; [done|]); cbn; (split; [lia|]); (split; [lia|]); split; try done.
  - intros b' [= <-] Hn. by apply (Allocate_length _ _ _ Hn E).
  - intros HM. by destruct (HM _ _ E).
Qed.

Lemma AllocateIf_spec s k : exists s' r, AllocateIf s k = (s', r) /\ s.(Asked) <= s'.(Asked) /\ s'.(Live) = s.(Live) + (if r then one k else 0) /\ (all_met -> r = true).
Proof.
  destruct k as [n|]; cbn [AllocateIf]; [|eexists _, _; split; [done|]; cbn; lia].
  destruct (AllocatePool_spec s n) as (s' & r & -> & E1 & E2 & E3 & _). eexists _, _. split; [done|]. split; [lia|].
  destruct r as [b|]; cbn in *; (split; [lia|]); [done|]. intros H. by destruct (E3 H).
Qed.

Lemma OcFreePointer_spec {A} (p : option A) s : OcFreePointer p s = (None, Pool s.(Asked) (s.(Live) - one p)).
Proof. destruct p, s; cbn; [done|]. by rewrite Z.sub_0_r. Qed.

Lemma Discard_gives_back o s : Discard o s = Pool s.(Asked) (s.(Live) - blocks o - 1).
Proof. unfold Discard. destruct (Destruct_spec o s) as (o' & -> & _). done. Qed.

(** The blob has room for the bytes that were asked for, or nothing is returned; its
    blocks are accounted for. *)
Lemma BlobAllocate_spec s b n : blob_ok b -> 0 <= n < 2 ^ 32 ->
  exists s' b' r, OcBlobAllocate s b n = Ret (s', b', r) /\ blob_ok b' /\ b'.(Value) = b.(Value) /\ s.(Asked) <= s'.(Asked)
    /\ s'.(Live) - one b'.(DynValue) = s.(Live) - one b.(DynValue)
    /\ (r = true -> b'.(Size) = n /\ n <= Z.of_nat (length (OC_BLOB_GET b')) /\ (0 < length (OC_BLOB_GET b'))%nat)
    /\ (r = false -> b'.(DynValue) = None /\ (all_met -> ~ readable b)).
Proof.
  intros (H1 & H2 & H3 & H4) Hn. unfold OcBlobAllocate. destruct (decide (n <= b.(MaxSize))) as [Hmax|Hmax]; [|destruct (decide (b.(Size) < n)) as [Hsize|Hsize]].
  - rewrite OcFreePointer_spec. eexists _, _, _. split; [done|]. unfold blob_ok, OC_BLOB_GET. cbn. split_and!; try done; lia.
  - rewrite OcFreePointer_spec. destruct (AllocatePool_spec (Pool s.(Asked) (s.(Live) - one b.(DynValue))) n) as (s' & r & -> & E1 & E2 & E3 & E4). cbn in E1, E2.
    destruct r as [d|].
    + specialize (E4 d eq_refl ltac:(lia)). rewrite CopyMem_in by lia. rewrite bind_ret. cbv beta. eexists _, _, _. split; [done|].
      unfold blob_ok, OC_BLOB_GET. cbn in *. rewrite length_inserts. split_and!; try done; try lia. 
    + eexists _, _, _. split; [done|]. unfold blob_ok. cbn in *. split_and!; try done; try lia. intros _. split; [done|]. intros HM. by destruct (E3 HM).
  - eexists _, _, _. split; [done|]. unfold blob_ok, readable, OC_BLOB_GET. cbn. destruct b.(DynValue) as [d|] eqn:ED; cbn.
    + split_and!; try done; lia.
    + split_and!; try done; try lia. intros _. split; [done|lia].
Qed.

(** A list with one more entry. *)
Definition appended (l l' : oc_list) (HasKey : bool) : Prop :=
  let '(OcList _ c vs kc ks) := l in let '(OcList _ c' vs' kc' ks') := l' in
  c' = c /\ kc' = kc /\ vs' = Some (default [] vs ++ [c]) /\
  if HasKey then exists k, kc = Some k /\ ks' = Some (default [] ks ++ [k]) else ks' = ks.

(** An appended list keeps the invariant. *)
Lemma appended_ok a c vs kc ks a' l' HasKey : oc_list_ok (OcList a c vs kc ks) -> HasKey = bool_decide (kc <> None) ->
  appended (OcList a c vs kc ks) l' HasKey -> AllocCount l' = a' -> Z.of_nat (length (default [] vs)) < a' <= 2 * (Z.of_nat (length (default [] vs)) + 1) ->
  oc_list_ok l' /\ list_blocks l' = list_blocks (OcList a c vs kc ks) + (1 + if HasKey then 1 else 0) + (1 - one vs) + (if HasKey then 1 - one ks else 0).
Proof.
  destruct l' as [a'' c' vs' kc' ks']. intros (Hc & Hb & Hvs & Hkc) HK (-> & -> & -> & HA) <- Ha. cbn [AllocCount] in *.
  assert (all_of c (default [] vs)) as Hall by (destruct vs; [apply Hvs|done]).
  assert (forall l k, blocks k = 0 -> entry_blocks (Some (default [] l ++ [k])) = entry_blocks l + 1 + (1 - one l)) as Hcount.
  { intros l k Hk. rewrite entry_blocks_snoc, Hk. destruct l; cbn; lia. }
  change (list_blocks (OcList a c vs kc ks)) with (entry_blocks vs + entry_blocks ks).
  change (list_blocks (OcList a'' c (Some (default [] vs ++ [c])) kc ks')) with (entry_blocks (Some (default [] vs ++ [c])) + entry_blocks ks'). rewrite (Hcount vs c Hb).
  destruct kc as [k|].
  - rewrite bool_decide_true in HK by done. subst HasKey. destruct HA as (k' & [= <-] & ->). destruct Hkc as (Hk & Hbk & Hblob & Hks).
    rewrite (Hcount ks k Hbk). split; [|lia]. split; [done|]. split; [done|]. split; [rewrite length_app; cbn; split; [lia|split; [lia|by apply all_of_snoc]]|].
    split; [done|]. split; [done|]. split; [done|]. rewrite !length_app. destruct vs, ks as [ks|]; try done; cbn in Hks |- *.
    + destruct Hks as [-> Hks]. split; [done|]. by apply (all_of_snoc k).
  - rewrite bool_decide_false in HK by tauto. subst HasKey ks'. subst ks. split; [|cbn; lia]. split; [done|]. split; [done|].
    split; [rewrite length_app; cbn; split; [lia|split; [lia|by apply all_of_snoc]]|done].
Qed.

(** The effect of an allocation: the list with its new entry, or the list as it was
    because a request was not met; the blocks are accounted for. *)
Definition allocated (s : pool_state) (l : oc_list) (HasKey : bool) (r : outcome (pool_state * oc_list * bool)) : Prop :=
  exists s' l' b, r = Ret (s', l', b) /\ s.(Asked) <= s'.(Asked) /\ oc_list_ok l' /\ s'.(Live) - list_blocks l' = s.(Live) - list_blocks l
    /\ list_blocks l' <= list_blocks l + 4 /\ if (b : bool) then appended l l' HasKey else l' = l /\ ~ all_met.

Lemma GrowList_spec s a c vs kc ks HasKey Key : oc_list_ok (OcList a c vs kc ks) -> HasKey = bool_decide (kc <> None) ->
  Key = (if HasKey then kc else None) -> a = Z.of_nat (length (default [] vs)) \/ vs = None -> list_blocks (OcList a c vs kc ks) < 2 ^ 30 ->
  allocated (Pool s.(Asked) (s.(Live) - 1 - one Key)) (OcList a c vs kc ks) HasKey (GrowList s (OcList a c vs kc ks) Key).
Proof.
  intros Hok HK HKey Ha Hbound. pose proof Hok as (Hc & Hb & Hvs & Hkc). set (l := OcList a c vs kc ks) in *.
  set (a' := (match vs with Some _ => a | None => 1 end) *[32] 2). set (n := Z.of_nat (length (default [] vs))).
  assert (n < a' <= 2 * (n + 1)) as Ha'.
  { pose proof (entry_blocks_count vs) as H1. assert (0 <= entry_blocks ks) as H2 by (pose proof (entry_blocks_count ks); lia).
    change (list_blocks l) with (entry_blocks vs + entry_blocks ks) in Hbound. fold n in H1. subst a'. destruct vs as [vs|].
    - destruct Ha as [->|]; [|done]. cbn in *. fold n in Hvs |- *. rewrite wrap_small; lia.
    - subst n. cbn. rewrite wrap_small; lia. }
  assert (forall s', s.(Asked) <= s'.(Asked) -> s'.(Live) = s.(Live) - 1 - one Key -> ~ all_met -> allocated (Pool s.(Asked) (s.(Live) - 1 - one Key)) l HasKey (Ret (s', l, false))) as Hfail.
  { intros s' H1 H2 H3. exists s', l, false. cbn [Asked Live]. split_and!; try done; lia. }
  assert (forall k, Key = Some k -> blocks k = 0) as HKb.
  { intros k ->. destruct HasKey; [|done]. subst kc. apply Hkc. }
  unfold GrowList, l. cbv beta iota zeta. fold l a'. destruct (AllocatePool_spec s (sizeof_pointer * a')) as (s1 & r & -> & E1 & E2 & E3 & _).
  destruct r as [nv|]; cbn [one] in E2; [|].
  2: { rewrite Discard_gives_back, Hb. apply Hfail; [|destruct Key as [k|]; [rewrite Discard_gives_back, (HKb k eq_refl)|]; cbn; lia|by intros HM; destruct (E3 HM)].
       destruct Key as [k|]; [rewrite Discard_gives_back|]; cbn; lia. }
  destruct (AllocateIf_spec s1 ((fun _ => sizeof_pointer * a') <$> Key)) as (s2 & NewKeys & -> & E4 & E5 & E6).
  assert (one ((fun _ => sizeof_pointer * a') <$> Key) = one Key) as EK by by destruct Key. rewrite EK in E5. destruct NewKeys; cbn [negb].
  2: { rewrite Discard_gives_back, Hb. unfold FreePool. cbn [Asked Live]. apply Hfail; [|destruct Key as [k|]; [rewrite Discard_gives_back, (HKb k eq_refl)|]; cbn; lia|by intros HM; specialize (E6 HM)].
       destruct Key as [k|]; [rewrite Discard_gives_back|]; cbn; lia. }
  rewrite (OcFreePointer_spec vs), (OcFreePointer_spec ks). cbn [snd Asked Live]. fold n. rewrite decide_True by apply Ha'.
  assert (exists ks', PushKey (match Key with Some _ => Some (default [] ks) | None => ks end) (length (default [] vs)) Key = Ret ks' /\
    if HasKey then exists k, kc = Some k /\ ks' = Some (default [] ks ++ [k]) else ks' = ks) as (ks' & -> & Hks').
  { destruct HasKey; subst Key; [|by exists ks]. destruct kc as [k|]; [|by rewrite bool_decide_false in HK by tauto].
    exists (Some (default [] ks ++ [k])). split; [|by exists k]. cbn [PushKey]. rewrite decide_True; [done|]. destruct Hkc as (_ & _ & _ & Hkc).
    destruct vs, ks; try done. apply Hkc. }
  rewrite bind_ret. cbv beta. set (l' := OcList a' c _ kc ks'). set (s3 := match Key with Some _ => _ | None => _ end).
  assert (appended l l' HasKey) as HA by done. destruct (appended_ok a c vs kc ks a' l' HasKey Hok HK HA eq_refl Ha') as [Hok' Hblocks]. fold l in Hblocks.
  assert (s3.(Asked) = s2.(Asked) /\ s3.(Live) = s2.(Live) - one vs - (if HasKey then one ks else 0)) as [E7 E8].
  { subst s3 Key. destruct HasKey; [|by cbn; rewrite Z.sub_0_r]. destruct kc as [k|]; [done|by rewrite bool_decide_false in HK by tauto]. }
  assert (one Key = if HasKey then 1 else 0) as EK1.
  { subst Key. destruct HasKey; [|done]. destruct kc; [done|by rewrite bool_decide_false in HK by tauto]. }
  assert (0 <= one vs <= 1 /\ 0 <= one ks <= 1) as [? ?] by (destruct vs, ks; cbn; lia).
  exists s3, l', true. cbn [Asked Live]. split_and!; try done; destruct HasKey; lia.
Qed.

Lemma ListEntryAllocate_spec s l HasKey : oc_list_ok l -> HasKey = bool_decide (KeyConstruct l <> None) -> list_blocks l < 2 ^ 30 ->
  allocated s l HasKey (OcListEntryAllocate s l HasKey).
Proof.
  destruct l as [a c vs kc ks]. intros Hok HK Hbound. pose proof Hok as (Hc & Hb & Hvs & Hkc). set (l := OcList a c vs kc ks) in *. cbn in HK.
  assert (NewKey l HasKey = Ret (if HasKey then kc else None)) as EKey.
  { destruct HasKey; [|done]. cbn. destruct kc; [done|by rewrite bool_decide_false in HK by tauto]. }
  unfold OcListEntryAllocate, l. cbv beta iota zeta. fold l. rewrite EKey, bind_ret. cbv beta. set (Key := if HasKey then kc else None).
  assert (forall s', s.(Asked) <= s'.(Asked) -> s'.(Live) = s.(Live) -> ~ all_met -> allocated s l HasKey (Ret (s', l, false))) as Hfail.
  { intros s' H1 H2 H3. exists s', l, false. split_and!; try done; lia. }
  destruct (AllocatePool_spec s (sizeof c)) as (s1 & r & -> & E1 & E2 & E3 & _). destruct r as [nv|]; cbn [one] in E2.
  2: { rewrite bool_decide_true by done. apply Hfail; [lia|lia|by intros HM; destruct (E3 HM)]. }
  rewrite bool_decide_false by done. destruct (AllocateIf_spec s1 (sizeof <$> Key)) as (s2 & KeyMemory & -> & E4 & E5 & E6).
  assert (one (sizeof <$> Key) = one Key) as EK by by destruct Key. rewrite EK in E5. destruct KeyMemory; cbn [negb].
  2: { unfold FreePool. apply Hfail; cbn; [lia|lia|by intros HM; specialize (E6 HM)]. }
  assert (a = Z.of_nat (length (default [] vs)) \/ vs = None -> allocated s l HasKey (GrowList s2 l Key)) as Hgrow.
  { intros Ha. destruct (GrowList_spec s2 a c vs kc ks HasKey Key Hok HK eq_refl Ha Hbound) as (s' & l' & b & E & F1 & F2 & F3 & F4 & F5).
    exists s', l', b. cbn [Asked Live] in F1, F3. split; [done|]. split; [lia|]. split; [done|]. fold l in F3. split; [lia|]. by split. }
  destruct vs as [vs|]; [|by apply Hgrow; right]. case_decide as Hroom; [|by apply Hgrow; left; cbn in Hvs |- *; lia].
  assert (exists ks', PushKey ks (length vs) Key = Ret ks' /\ if HasKey then exists k, kc = Some k /\ ks' = Some (default [] ks ++ [k]) else ks' = ks) as (ks' & -> & Hks').
  { subst Key. destruct HasKey; [|by exists ks; destruct ks]. destruct kc as [k|]; [|by rewrite bool_decide_false in HK by tauto].
    exists (Some (default [] ks ++ [k])). split; [|by exists k]. destruct Hkc as (_ & _ & _ & Hkc). destruct ks as [ks|]; [|done]. cbn [PushKey default].
    by rewrite decide_True by apply Hkc. }
  rewrite bind_ret. cbv beta. set (l' := OcList a c _ kc ks'). assert (appended l l' HasKey) as HA by done.
  destruct (appended_ok a c (Some vs) kc ks a l' HasKey Hok HK HA eq_refl) as [Hok' Hblocks]; [cbn in Hvs |- *; lia|]. fold l in Hblocks.
  assert (one Key = if HasKey then 1 else 0) as EK1.
  { subst Key. destruct HasKey; [|done]. destruct kc; [done|by rewrite bool_decide_false in HK by tauto]. }
  assert (HasKey = true -> one ks = 1) as EK2.
  { intros ->. destruct kc as [k|]; [|by rewrite bool_decide_false in HK by tauto]. destruct Hkc as (_ & _ & _ & Hkc). by destruct ks. }
  exists s2, l', true. cbn [one] in Hblocks. split_and!; try done; destruct HasKey; try specialize (EK2 eq_refl); lia.
Qed.
End Specification.

(** ** Properties *)
Section Properties.
Context `{HPool : XmlPool} {HPoolLaws : XmlPoolLaws HPool} `{HLayout : Layout}.

(** C23: [OcListEntryAllocate] on a well-formed array or map with fewer than 2^30 blocks
    returns and keeps the invariant. With success the list has one more value, and one
    more key if it has keys, which are copies of the initial objects behind the old
    ones; without success it is as it was, which happens only if the pool does not meet
    a request. In both cases all blocks that were requested and not released belong to
    the list, so nothing is lost or released twice. *)
Theorem OcListEntryAllocate_appends s l HasKey : oc_list_ok l -> HasKey = bool_decide (KeyConstruct l <> None) -> list_blocks l < 2 ^ 30 ->
  exists s' l' r, OcListEntryAllocate s l HasKey = Ret (s', l', r) /\ oc_list_ok l' /\ s'.(Live) - list_blocks l' = s.(Live) - list_blocks l /\
  if (r : bool) then Values l' = Some (default [] (Values l) ++ [Construct l]) /\ Construct l' = Construct l /\ KeyConstruct l' = KeyConstruct l
                     /\ (HasKey = true -> Keys l' = (fun k => default [] (Keys l) ++ [k]) <$> KeyConstruct l)
  else l' = l /\ ~ all_met.
Proof.
  intros H1 H2 H3. destruct (ListEntryAllocate_spec s l HasKey H1 H2 H3) as (s' & l' & r & E & _ & Hok & HL & _ & HR). exists s', l', r. split; [done|]. split; [done|]. split; [done|].
  destruct r; [|done]. destruct l, l'. destruct HR as (-> & -> & -> & HK). do 3 (split; [done|]). intros ->. destruct HK as (k & -> & ->). done.
Qed.
End Properties.

Definition sample_layout : Layout := {| sizeof _ := 8 |}.
(** A map with one entry, which has room for no other. *)
Definition sample_blob : OC_BLOB := Blob_ 0 4 None [0; 0; 0; 0].
Definition sample_map : oc_list := OcList 1 (Bytes [0]) (Some [Bytes [7]]) (Some (Blob sample_blob)) (Some [Blob (Blob_ 2 4 None [97; 0; 0; 0])]).

Lemma sample_map_ok : oc_list_ok sample_map.
Proof. vm_compute. repeat split; intros; discriminate. Qed.

Lemma OcListEntryAllocate_appends_witness :
  exists s' l' r, @OcListEntryAllocate sample_pool sample_layout (Pool 0 4) sample_map true = Ret (s', l', r) /\ oc_list_ok l' /\ s'.(Live) - list_blocks l' = 4 - list_blocks sample_map /\
  if (r : bool) then Values l' = Some [Bytes [7]; Bytes [0]] /\ Construct l' = Bytes [0] /\ KeyConstruct l' = Some (Blob sample_blob)
                     /\ (true = true -> Keys l' = Some [Blob (Blob_ 2 4 None [97; 0; 0; 0]); Blob sample_blob])
  else l' = sample_map /\ ~ @all_met sample_pool.
Proof. by apply (@OcListEntryAllocate_appends sample_pool sample_pool_laws sample_layout (Pool 0 4) sample_map true sample_map_ok). Defined.

(** If a pool fails, a blob keeps the size of the block that it had and has lost: what
    [Size] says is not there any more. *)
Definition empty_pool : XmlPool := {| Allocate _ _ := None |}.
Theorem failed_blob_overruns :
  exists b, @OcBlobAllocate empty_pool (Pool 0 1) (Blob_ 100 64 (Some (replicate 100 1)) (replicate 64 0)) 200 = Ret (Pool 1 0, b, false) /\ b.(Size) = 100 /\ length (OC_BLOB_GET b) = 64%nat.
Proof. eexists. by vm_compute. Qed.
End Template.
