(* ===== verification/Serialize.v ===== *)
(** * Reading property lists by a schema: [Library/OcSerializeLib/OcSerializeLib.c]

    The merge of a dictionary into the objects of Template. An offset of a schema is
    the path of the names of fields; the function pointer [Apply] of a schema comes
    with the variant of [Info] that it reads, so both are one value. *)
From Stdlib Require Import Ascii String.
From stdpp Require Import gmap strings.
From S2P Require Import Prelude Xml Plist Template.

Module Serialize.
Import Xml Plist Template.

(** ** Data *)

Inductive OC_SCHEMA_VALUE_TYPE : Set :=
| OC_SCHEMA_VALUE_BOOLEAN | OC_SCHEMA_VALUE_INTEGER | OC_SCHEMA_VALUE_DATA | OC_SCHEMA_VALUE_STRING | OC_SCHEMA_VALUE_MDATA.
Inductive OC_SCHEMA_BLOB_TYPE : Set := OC_SCHEMA_BLOB_DATA | OC_SCHEMA_BLOB_STRING | OC_SCHEMA_BLOB_MDATA.

Definition path : Set := list string.

(** The name is NULL in the schema of an element. *)
Inductive OC_SCHEMA : Set := Schema (Name : option (list Z)) (Type_ : PLIST_NODE_TYPE) (Optional : bool) (Info : OC_SCHEMA_INFO)
with OC_SCHEMA_INFO : Set :=
| SchemaDict (Schema : list OC_SCHEMA)
| SchemaValue (Field : path) (FieldSize : Z) (Type_ : OC_SCHEMA_VALUE_TYPE)
| SchemaBlob (Field : path) (Type_ : OC_SCHEMA_BLOB_TYPE)
| SchemaMap (Field : path) (Schema : OC_SCHEMA)
| SchemaArray (Field : path) (Schema : OC_SCHEMA).

Definition SchemaName (s : OC_SCHEMA) : option (list Z) := match s with Schema n _ _ _ => n end.
Definition SchemaType (s : OC_SCHEMA) : PLIST_NODE_TYPE := match s with Schema _ t _ _ => t end.
Definition SchemaOptional (s : OC_SCHEMA) : bool := match s with Schema _ _ o _ => o end.
Definition SchemaInfo (s : OC_SCHEMA) : OC_SCHEMA_INFO := match s with Schema _ _ _ i => i end.

(** [OC_SCHEMA_FIELD], and a change of what is there. *)
Fixpoint field_at (fs : list (string * obj)) (f : string) : option obj :=
  match fs with [] => None | (g, o) :: fs => if decide (g = f) then Some o else field_at fs f end.
Fixpoint OC_SCHEMA_FIELD (o : obj) (Field : path) : outcome obj :=
  match Field with
  | [] => Ret o
  | f :: Field =>
      match o with
      | Struct fs => match field_at fs f with Some o => OC_SCHEMA_FIELD o Field | None => Fault OutOfBounds end
      | _ => Fault OutOfBounds
      end
  end.

Fixpoint put_at (fs : list (string * obj)) (f : string) (x : obj) : list (string * obj) :=
  match fs with [] => [] | (g, o) :: fs => if decide (g = f) then (g, x) :: fs else (g, o) :: put_at fs f x end.
Fixpoint put_field (o : obj) (Field : path) (x : obj) : obj :=
  match Field, o with
  | [], _ => x
  | f :: Field, Struct fs => match field_at fs f with Some o => Struct (put_at fs f (put_field o Field x)) | None => Struct fs end
  | _, o => o
  end.

(** The pool, and [*ErrorCount] unless it is NULL. *)
Record state : Set := State { PoolOf : pool_state; ErrorCount : option Z }.
Definition set_Pool (st : state) (p : pool_state) : state := State p st.(ErrorCount).
Definition CountError (st : state) : state := State st.(PoolOf) ((fun e => e +[32] 1) <$> st.(ErrorCount)).

(** The type of [Apply] without [Info]: the object, the node and the state. *)
Definition applier : Type := obj -> Z -> state -> outcome (obj * state).

(** Whether the code under DEBUG_CODE is there. *)
Class BuildFlags : Type := { DebugCode : bool }.

Section Lookup.
Context `{AsciiLib}.

(** ** Search for a key

    The state is [Start] and [End]; the result is the index of the entry. *)
Definition LookupStep (SortedList : list OC_SCHEMA) (Name : list Z) (s : Z * Z) : outcome (Z * Z + option Z) :=
  let '(Start, End) := s in
  if decide (Start <= End) then
    let Curr := (Start +[32] End) / 2 in
    entry ← rd SortedList Curr;
    match SchemaName entry with
    | None => Fault OutOfBounds
    | Some n =>
        let Cmp := AsciiStrCmp n Name in
        if decide (Cmp = 0) then Ret (inr (Some Curr))
        else if decide (Cmp < 0) then Ret (inl (Curr +[32] 1, End))
        else if decide (0 < Curr) then Ret (inl (Start, Curr -[32] 1))
        else Ret (inr None)
    end
  else Ret (inr None).

Definition LookupConfigSchema (SortedList : list OC_SCHEMA) (Size : Z) (Name : list Z) : outcome (option Z) :=
  if decide (Size = 0) then Ret None else
  while_ (S (length SortedList)) (LookupStep SortedList Name) (0, Size -[32] 1).

End Lookup.

Section Model.
Context `{XmlPool, AsciiLib, CopyLib, Layout, BuildFlags}.
(** The document: its nodes, which do not change, and its buffer. *)
Context (h : heap) (b : list Z).

Definition HASH : Z := 35.

(** ** Dictionaries *)

(** One entry; an entry of the schema comes with its [Apply]. *)
Definition DictStep (Dict : list (OC_SCHEMA * applier)) (Node Index : Z) (s : obj * state) : outcome (obj * state) :=
  let '(Serialized, st) := s in
  '(KeyNode, CurrentValue) ← PlistDictChild h Node Index true;
  CurrentKey ← PlistKeyValue h b (Some KeyNode);
  match CurrentKey with
  | None => Ret (Serialized, CountError st)
  | Some CurrentKey =>
      if decide (head CurrentKey = Some HASH) then Ret (Serialized, st) else
      NewSchema ← LookupConfigSchema (fst <$> Dict) (Z.of_nat (length Dict)) CurrentKey;
      match NewSchema with
      | None => Ret (Serialized, CountError st)
      | Some i =>
          '(sch, Apply) ← rd Dict i;
          CurrentValue ← PlistNodeCast h b CurrentValue (SchemaType sch);
          match CurrentValue with
          | None => Ret (Serialized, CountError st)
          | Some CurrentValue => Apply Serialized CurrentValue st
          end
      end
  end.

(** Whether an entry of the dictionary has the key [Name]; the state is the result so far. *)
Definition HasKeyStep (Node : Z) (Name : list Z) (Index : Z) (found : bool) : outcome bool :=
  if (found : bool) then Ret true else
  '(KeyNode, _) ← PlistDictChild h Node Index false;
  CurrentKey ← PlistKeyValue h b (Some KeyNode);
  Ret (match CurrentKey with Some k => bool_decide (AsciiStrCmp k Name = 0) | None => false end).

(** The check for one entry of the schema. *)
Definition MissingStep (Dict : list (OC_SCHEMA * applier)) (Node DictSize Index : Z) (st : state) : outcome state :=
  '(sch, _) ← rd Dict Index;
  if SchemaOptional sch then Ret st else
  match SchemaName sch with
  | None => Fault OutOfBounds
  | Some Name =>
      found ← for_ (Z.to_nat DictSize) 0 (HasKeyStep Node Name) false;
      Ret (if (found : bool) then st else CountError st)
  end.

Definition ParseSerializedDict (Dict : list (OC_SCHEMA * applier)) : applier := fun Serialized Node st =>
  DictSize ← PlistDictChildren h Node;
  '(Serialized, st) ← for_ (Z.to_nat DictSize) 0 (DictStep Dict Node) (Serialized, st);
  st ← (if DebugCode then for_ (length Dict) 0 (MissingStep Dict Node DictSize) st else Ret st);
  Ret (Serialized, st).

(** ** Values *)

Definition ReadValue (Type_ : OC_SCHEMA_VALUE_TYPE) (Node : Z) (V : list Z) (Size : Z) : outcome (bool * list Z) :=
  let sized (r : outcome (bool * list Z * Z)) := '(Result, V, _) ← r; Ret (Result, V) in
  match Type_ with
  | OC_SCHEMA_VALUE_BOOLEAN => PlistBooleanValue h b (Some Node) V
  | OC_SCHEMA_VALUE_INTEGER => PlistIntegerValue h b (Some Node) V Size false
  | OC_SCHEMA_VALUE_DATA => sized (PlistDataValue h b (Some Node) V Size)
  | OC_SCHEMA_VALUE_STRING => sized (PlistStringValue h b (Some Node) V Size)
  | OC_SCHEMA_VALUE_MDATA => sized (PlistMultiDataValue h b (Some Node) V Size)
  end.

Definition ParseSerializedValue (Field : path) (FieldSize : Z) (Type_ : OC_SCHEMA_VALUE_TYPE) : applier := fun Serialized Node st =>
  f ← OC_SCHEMA_FIELD Serialized Field;
  match f with
  | Bytes V =>
      '(Result, V) ← ReadValue Type_ Node V FieldSize;
      let Serialized := put_field Serialized Field (Bytes V) in
      Ret (Serialized, if (Result : bool) then st else CountError st)
  | _ => Fault OutOfBounds
  end.

(** ** Blobs *)

Definition SizeOfBlob (Type_ : OC_SCHEMA_BLOB_TYPE) (Node : Z) : outcome (option Z) :=
  match Type_ with
  | OC_SCHEMA_BLOB_DATA => PlistDataSize h b (Some Node)
  | OC_SCHEMA_BLOB_STRING => PlistStringSize h b (Some Node)
  | OC_SCHEMA_BLOB_MDATA => PlistMultiDataSize h b (Some Node)
  end.

Definition ReadBlob (Type_ : OC_SCHEMA_BLOB_TYPE) (Node : Z) (V : list Z) (Size : Z) : outcome (bool * list Z * Z) :=
  match Type_ with
  | OC_SCHEMA_BLOB_DATA => PlistDataValue h b (Some Node) V Size
  | OC_SCHEMA_BLOB_STRING => PlistStringValue h b (Some Node) V Size
  | OC_SCHEMA_BLOB_MDATA => PlistMultiDataValue h b (Some Node) V Size
  end.

(** Writing the memory of a blob and its size. *)
Definition StoreBlob (B : OC_BLOB) (V : list Z) (Size : Z) : OC_BLOB :=
  match B.(DynValue) with Some _ => Blob_ Size B.(MaxSize) (Some V) B.(Value) | None => Blob_ Size B.(MaxSize) None V end.

Definition ParseSerializedBlob (Field : path) (Type_ : OC_SCHEMA_BLOB_TYPE) : applier := fun Serialized Node st =>
  Size ← SizeOfBlob Type_ Node;
  match Size with
  | None => Ret (Serialized, CountError st)
  | Some Size =>
      f ← OC_SCHEMA_FIELD Serialized Field;
      match f with
      | Blob B =>
          '(p, B, BlobMemory) ← OcBlobAllocate st.(PoolOf) B Size;
          let st := set_Pool st p in
          if negb BlobMemory then Ret (put_field Serialized Field (Blob B), CountError st) else
          '(Result, V, BlobSize) ← ReadBlob Type_ Node (OC_BLOB_GET B) B.(Template.Size);
          let Serialized := put_field Serialized Field (Blob (StoreBlob B V BlobSize)) in
          Ret (Serialized, if (Result : bool) then st else CountError st)
      | _ => Fault OutOfBounds
      end
  end.

(** ** Maps and arrays *)

(** A new entry of the list at [Field], or nothing. *)
Definition NewEntry (Serialized : obj) (Field : path) (HasKey : bool) (st : state) : outcome (obj * state * bool) :=
  f ← OC_SCHEMA_FIELD Serialized Field;
  match f with
  | Entries l =>
      '(p, l, Success) ← OcListEntryAllocate st.(PoolOf) l HasKey;
      Ret (put_field Serialized Field (Entries l), set_Pool st p, Success)
  | _ => Fault OutOfBounds
  end.

(** A change of the last value or key of a list. *)
Definition replace_last (l : list obj) (x : obj) : list obj := <[pred (length l) := x]> l.
Definition set_last_value (l : oc_list) (x : obj) : oc_list :=
  match l with OcList a c vs kc ks => OcList a c ((fun vs => replace_last vs x) <$> vs) kc ks end.
Definition set_last_key (l : oc_list) (x : obj) : oc_list :=
  match l with OcList a c vs kc ks => OcList a c vs kc ((fun ks => replace_last ks x) <$> ks) end.

(** The key of the new entry. *)
Definition StoreKey (Serialized : obj) (Field : path) (CurrentKey : list Z) (st : state) : outcome (obj * state) :=
  f ← OC_SCHEMA_FIELD Serialized Field;
  match f with
  | Entries l =>
      match last (default [] (Keys l)) with
      | Some (Blob B) =>
          let CurrentKeyLen := wrap 32 (Z.of_nat (length CurrentKey) + 1) in
          '(p, B, NewKeyValue) ← OcBlobAllocate st.(PoolOf) B CurrentKeyLen;
          let st := set_Pool st p in
          if negb NewKeyValue then Ret (put_field Serialized Field (Entries (set_last_key l (Blob B))), CountError st) else
          V ← (match AsciiStrnCpyS CurrentKeyLen CurrentKey (CurrentKeyLen -[32] 1) with
               | Some r => wr_slice (OC_BLOB_GET B) 0 r
               | None => Ret (OC_BLOB_GET B)
               end);
          Ret (put_field Serialized Field (Entries (set_last_key l (Blob (StoreBlob B V B.(Template.Size))))), st)
      | _ => Fault OutOfBounds
      end
  | _ => Fault OutOfBounds
  end.

(** [Apply] on the new value. *)
Definition ApplyLast (Apply : obj -> state -> outcome (obj * state)) (Serialized : obj) (Field : path) (st : state) : outcome (obj * state) :=
  f ← OC_SCHEMA_FIELD Serialized Field;
  match f with
  | Entries l =>
      match last (default [] (Values l)) with
      | Some NewValue =>
          '(NewValue, st) ← Apply NewValue st;
          Ret (put_field Serialized Field (Entries (set_last_value l NewValue)), st)
      | None => Fault OutOfBounds
      end
  | _ => Fault OutOfBounds
  end.

Definition MapStep (Field : path) (sch : OC_SCHEMA) (Apply : applier) (Node Index : Z) (s : obj * state) : outcome (obj * state) :=
  let '(Serialized, st) := s in
  '(KeyNode, ChildNode) ← PlistDictChild h Node Index true;
  CurrentKey ← PlistKeyValue h b (Some KeyNode);
  let CurrentKeyLen := match CurrentKey with Some k => wrap 32 (Z.of_nat (length k) + 1) | None => 0 end in
  if decide (CurrentKeyLen = 0) then Ret (Serialized, CountError st) else
  let CurrentKey := default [] CurrentKey in
  if decide (head CurrentKey = Some HASH) then Ret (Serialized, st) else
  Cast ← PlistNodeCast h b ChildNode (SchemaType sch);
  match Cast with
  | None => Ret (Serialized, CountError st)
  | Some ChildNode =>
      '(Serialized, st, Success) ← NewEntry Serialized Field true st;
      if negb Success then Ret (Serialized, CountError st) else
      '(Serialized, st) ← StoreKey Serialized Field CurrentKey st;
      ApplyLast (fun v => Apply v ChildNode) Serialized Field st
  end.

Definition ParseSerializedMap (Field : path) (sch : OC_SCHEMA) (Apply : applier) : applier := fun Serialized Node st =>
  DictSize ← PlistDictChildren h Node;
  for_ (Z.to_nat DictSize) 0 (MapStep Field sch Apply Node) (Serialized, st).

Definition ArrayStep (Field : path) (sch : OC_SCHEMA) (Apply : applier) (Node Index : Z) (s : obj * state) : outcome (obj * state) :=
  let '(Serialized, st) := s in
  Child ← XmlNodeChild h Node Index;
  ChildNode ← PlistNodeCast h b (Some Child) (SchemaType sch);
  match ChildNode with
  | None => Ret (Serialized, CountError st)
  | Some ChildNode =>
      '(Serialized, st, Success) ← NewEntry Serialized Field false st;
      if negb Success then Ret (Serialized, CountError st) else
      ApplyLast (fun v => Apply v ChildNode) Serialized Field st
  end.

Definition ParseSerializedArray (Field : path) (sch : OC_SCHEMA) (Apply : applier) : applier := fun Serialized Node st =>
  ArraySize ← XmlNodeChildren h Node;
  for_ (Z.to_nat ArraySize) 0 (ArrayStep Field sch Apply Node) (Serialized, st).

(** [Apply] of a schema. *)
Fixpoint Apply (i : OC_SCHEMA_INFO) : applier :=
  match i with
  | SchemaDict l => ParseSerializedDict (map (fun s => match s with Schema n t o i => (Schema n t o i, Apply i) end) l)
  | SchemaValue Field FieldSize Type_ => ParseSerializedValue Field FieldSize Type_
  | SchemaBlob Field Type_ => ParseSerializedBlob Field Type_
  | SchemaMap Field s => ParseSerializedMap Field s (match s with Schema _ _ _ i => Apply i end)
  | SchemaArray Field s => ParseSerializedArray Field s (match s with Schema _ _ _ i => Apply i end)
  end.

End Model.

Section Document.
Context `{XmlPool, AsciiLib, CopyLib, Layout, BuildFlags}.

Definition set_Requests (h : heap) (n : Z) : heap := Heap h.(Nodes) h.(Lists) h.(RefLists) h.(Documents) n.

(** [Live] counts the blocks of the objects. The result is memory, the buffer, the
    object, the state and the return value. *)
Definition ParseSerialized (h : heap) (Serialized : obj) (RootSchema : OC_SCHEMA_INFO) (PlistBuffer : list Z) (PlistSize Live : Z) (Errors : option Z)
  : outcome (heap * list Z * obj * state * bool) :=
  '(h, b, Doc) ← XmlDocumentParse h PlistBuffer PlistSize false;
  let st := State (Pool h.(Requests) Live) Errors in
  match Doc with
  | None => Ret (h, b, Serialized, CountError st, false)
  | Some Doc =>
      Root ← PlistDocumentRoot h Doc;
      RootDict ← PlistNodeCast h b Root PLIST_NODE_TYPE_DICT;
      match RootDict with
      | None =>
          h ← XmlDocumentFree h Doc;
          Ret (h, b, Serialized, CountError st, false)
      | Some RootDict =>
          '(Serialized, st) ← Apply h b RootSchema Serialized RootDict st;
          h ← XmlDocumentFree (set_Requests h st.(PoolOf).(Asked)) Doc;
          Ret (h, b, Serialized, st, true)
      end
  end.

End Document.
End Serialize.
