(* ===== verification/SerializeSpec.v ===== *)
(** * What reading by a schema means

    The merge of an element into an object ([merge]), a function of elements instead
    of nodes in memory: entries are pairs of children, a key is looked up in the
    list of the schema. The code of Serialize is a refinement of it, provided that
    the tables of the schema are sorted; on objects of the type that the schema
    expects it always returns, and the blocks of the pool are accounted for. *)
From Stdlib Require Import Ascii String.
From stdpp Require Import gmap strings sorting.
From S2P Require Import Prelude Xml Plist Template Serialize.

Module SerializeSpec.
Import Xml Plist Template Serialize.

(** ** The order of keys *)
Fixpoint lex_lt (s t : list Z) : Prop :=
  match s, t with
  | [], [] => False
  | [], _ :: _ => True
  | _ :: _, [] => False
  | x :: s, y :: t => x < y \/ x = y /\ lex_lt s t
  end.

Lemma lex_irrefl s : ~ lex_lt s s.
Proof. induction s as [|x s IH]; cbn; [tauto|]. intros [H|[_ H]]; [lia|done]. Qed.

Lemma lex_trans s : forall t u, lex_lt s t -> lex_lt t u -> lex_lt s u.
Proof.
  induction s as [|x s IH]; intros [|y t] [|z u]; cbn; try done. intros [H|[-> H]] [K|[-> K]]; [left; lia|left; lia|left; lia|right; split; [done|by eapply IH]].
Qed.

#[export] Instance lex_dec s t : Decision (lex_lt s t).
Proof. revert t. induction s as [|x s IH]; intros [|y t]; cbn; [right; tauto|left; done|right; tauto|]. specialize (IH t). apply _. Defined.

Definition ascii (s : list Z) : Prop := Forall (fun c => 0 < c < 128) s.

(** Comparison of strings orders them as the documentation says. *)
Class AsciiOrder (A : AsciiLib) : Prop := { AsciiStrCmp_lt s t : ascii s -> ascii t -> AsciiStrCmp s t < 0 <-> lex_lt s t }.

(** Names of the entries of a table in ascending order. *)
Definition names (l : list OC_SCHEMA) : list (option (list Z)) := SchemaName <$> l.
Definition named (l : list OC_SCHEMA) (i : nat) (n : list Z) : Prop := SchemaName <$> l !! i = Some (Some n).
Definition all_named (l : list OC_SCHEMA) : Prop := Forall (fun s => SchemaName s <> None) l.
Definition name_lt (s t : OC_SCHEMA) : Prop :=
  match SchemaName s, SchemaName t with Some n, Some m => ascii n /\ ascii m /\ lex_lt n m | _, _ => False end.
Definition sorted (l : list OC_SCHEMA) : Prop := StronglySorted name_lt l /\ Forall (fun s => match SchemaName s with Some n => ascii n | None => False end) l.

Lemma sorted_lookup l : StronglySorted name_lt l -> forall i j s t, l !! i = Some s -> l !! j = Some t -> (i < j)%nat -> name_lt s t.
Proof.
  induction 1 as [|x l _ IH HF]; intros i j s t Hi Hj Hij; [done|]. destruct i as [|i], j as [|j]; try lia; cbn in Hi, Hj.
  - injection Hi as ->. by apply (proj1 (Forall_lookup _ _) HF j).
  - apply (IH i j); [done|done|lia].
Qed.

Section Lookup.
Context `{HLib : AsciiLib} {HLaws : AsciiLibLaws HLib} {HOrder : AsciiOrder HLib}.

(** The entry with the name is between [Start] and [End], if the table is sorted. *)
Definition between (l : list OC_SCHEMA) (Name : list Z) (Start End : Z) : Prop :=
  sorted l -> forall j, named l j Name -> Start <= Z.of_nat j <= End.

Lemma named_order l i j n m : sorted l -> named l i n -> named l j m -> ascii n /\ (lex_lt n m -> (i < j)%nat).
Proof.
  intros [HS HA] Hi Hj. unfold named in *. destruct (l !! i) as [s|] eqn:Ei; [|done]. destruct (l !! j) as [t|] eqn:Ej; [|done]. cbn in Hi, Hj. injection Hi as Hi. injection Hj as Hj.
  split; [pose proof (proj1 (Forall_lookup _ _) HA i s Ei) as K; cbn in K; by rewrite Hi in K|]. intros HL.
  destruct (Nat.lt_trichotomy i j) as [H|[->|H]]; [done|..].
  - simplify_eq. destruct (lex_irrefl _ HL).
  - pose proof (sorted_lookup l HS j i t s Ej Ei H) as K. unfold name_lt in K. rewrite Hi, Hj in K. destruct K as (_ & _ & K). destruct (lex_irrefl n). by eapply lex_trans.
Qed.

(** One comparison: a result, or half of the range. *)
Lemma LookupStep_spec l Name Start End : all_named l -> Z.of_nat (length l) < 2 ^ 31 -> 0 <= Start <= Z.of_nat (length l) -> 0 <= End < Z.of_nat (length l) ->
  between l Name Start End ->
  exists x, LookupStep l Name (Start, End) = Ret x /\
  match x with
  | inl (Start', End') => 0 <= Start' <= Z.of_nat (length l) /\ 0 <= End' < Z.of_nat (length l) /\ between l Name Start' End' /\ Start <= Start' /\ End' <= End
                          /\ End' - Start' < End - Start /\ Start <= End
  | inr (Some i) => 0 <= i /\ named l (Z.to_nat i) Name
  | inr None => sorted l -> forall j, ~ named l j Name
  end.
Proof.
  intros HN Hl HS HE HB. unfold LookupStep. case_decide as Hle; [|eexists; split; [done|]; intros Hs j Hj; specialize (HB Hs j Hj); lia].
  rewrite (wrap_small 32 (Start + End)) by lia. cbv zeta. set (Curr := (Start + End) / 2). assert (Start <= Curr <= End) as HC by (subst Curr; split; [apply Z.div_le_lower_bound|apply Z.div_le_upper_bound]; lia).
  destruct (lookup_lt_is_Some_2 l (Z.to_nat Curr)) as (e & Ee); [lia|]. rewrite (rd_lookup l Curr e) by (done || lia). rewrite bind_ret. cbv beta.
  destruct (SchemaName e) as [n|] eqn:En; [|by destruct (proj1 (Forall_lookup _ _) HN _ _ Ee)].
  assert (named l (Z.to_nat Curr) n) as Hn by (unfold named; rewrite Ee; cbn; by rewrite En).
  destruct (decide (AsciiStrCmp n Name = 0)) as [E0|E0].
  { eexists. split; [done|]. split; [lia|]. apply AsciiStrCmp_eq in E0. by subst. }
  assert (forall j, sorted l -> named l j Name -> j <> Z.to_nat Curr) as Hne.
  { intros j _ Hj ->. unfold named in *. rewrite Hn in Hj. injection Hj as ->. destruct E0. by apply AsciiStrCmp_eq. }
  destruct (decide (AsciiStrCmp n Name < 0)) as [Hlt|Hge].
  - eexists. split; [done|]. rewrite wrap_small by lia. split_and!; try lia. intros Hs j Hj. pose proof (HB Hs j Hj). pose proof (Hne j Hs Hj).
    destruct (named_order l _ _ _ _ Hs Hn Hj) as [An HO]. destruct (named_order l _ _ _ _ Hs Hj Hj) as [Am _]. apply AsciiStrCmp_lt in Hlt; [|done|done]. specialize (HO Hlt). lia.
  - assert (forall j, sorted l -> named l j Name -> (j < Z.to_nat Curr)%nat) as Hlow.
    { intros j Hs Hj. pose proof (Hne j Hs Hj). destruct (named_order l _ _ _ _ Hs Hn Hj) as [An _]. destruct (named_order l _ _ _ _ Hs Hj Hn) as [Am HO].
      destruct (Nat.lt_trichotomy j (Z.to_nat Curr)) as [K|[K|K]]; [done|done|]. destruct Hge. apply AsciiStrCmp_lt; [done..|].
      unfold named in Hn, Hj. destruct (l !! j) as [t|] eqn:Ej; [|done]. cbn in Hj. rewrite Ee in Hn. cbn in Hn. destruct Hs as [Hs _].
      pose proof (sorted_lookup l Hs _ _ _ _ Ee Ej K) as KO. unfold name_lt in KO. injection Hn as Hn. injection Hj as Hj. rewrite Hn, Hj in KO. apply KO. }
    destruct (decide (0 < Curr)) as [Hpos|Hzero].
    + eexists. split; [done|]. rewrite wrap_small by lia. split_and!; try lia. intros Hs j Hj. pose proof (HB Hs j Hj). specialize (Hlow j Hs Hj). lia.
    + eexists. split; [done|]. intros Hs j Hj. specialize (Hlow j Hs Hj). lia.
Qed.

Lemma Lookup_spec l Name : all_named l -> Z.of_nat (length l) < 2 ^ 31 ->
  exists r, LookupConfigSchema l (Z.of_nat (length l)) Name = Ret r /\
  match r with Some i => 0 <= i /\ named l (Z.to_nat i) Name | None => sorted l -> forall j, ~ named l j Name end.
Proof.
  intros HN Hl. unfold LookupConfigSchema. destruct (decide (Z.of_nat (length l) = 0)) as [E|E].
  { exists None. split; [done|]. intros _ j Hj. unfold named in Hj. apply (f_equal Z.to_nat) in E. rewrite Nat2Z.id in E. apply nil_length_inv in E. by subst. }
  rewrite wrap_small by lia.
  oc_while (fun s : Z * Z => 0 <= s.1 <= Z.of_nat (length l) /\ 0 <= s.2 < Z.of_nat (length l) /\ between l Name s.1 s.2 /\ s.2 - s.1 < Z.of_nat (length l))
    (fun s : Z * Z => Z.to_nat (s.2 + 1 - s.1))
    (fun r : option Z => match r with Some i => 0 <= i /\ named l (Z.to_nat i) Name | None => sorted l -> forall j, ~ named l j Name end) as r Hr.
  - intros [Start End] (H1 & H2 & H3 & H4). cbn [fst snd] in *. destruct (LookupStep_spec l Name Start End HN Hl H1 H2 H3) as (x & -> & Hx). eexists. split; [done|].
    destruct x as [[Start' End']|[i|]]; [|done..]. destruct Hx as (K1 & K2 & K3 & K4 & K5 & K6 & K7). cbn [fst snd]. split; [split_and!; try done; lia|lia].
  - cbn [fst snd]. split_and!; try lia. intros _ j Hj. unfold named in Hj. destruct (l !! j) eqn:Ej; [|done]. apply lookup_lt_Some in Ej. lia.
  - cbn [fst snd]. lia.
  - by exists r.
Qed.

(** In a sorted table the search is the one from the front. *)
Lemma Lookup_sorted l Name : sorted l -> Z.of_nat (length l) < 2 ^ 31 ->
  LookupConfigSchema l (Z.of_nat (length l)) Name = Ret ((fun p => Z.of_nat p.1) <$> list_find (fun s => SchemaName s = Some Name) l).
Proof.
  intros Hs Hl. assert (all_named l) as HN by (eapply Forall_impl; [apply Hs|]; intros s; cbn; by destruct (SchemaName s)).
  destruct (Lookup_spec l Name HN Hl) as (r & -> & Hr). f_equal. destruct (list_find _ l) as [[j s]|] eqn:EF.
  - apply list_find_Some in EF as (Ej & En & _). assert (named l j Name) as Hj by (unfold named; rewrite Ej; cbn; by rewrite En).
    destruct r as [i|]; [|by destruct (Hr Hs j)]. destruct Hr as [Hi Hn]. cbn. f_equal.
    destruct (Nat.lt_trichotomy (Z.to_nat i) j) as [K|[K|K]]; [|lia|].
    + unfold named in Hn. destruct (l !! Z.to_nat i) as [t|] eqn:Ei; [|done]. cbn in Hn. injection Hn as Hn.
      pose proof (sorted_lookup l (proj1 Hs) _ _ _ _ Ei Ej K) as KO. unfold name_lt in KO. rewrite Hn, En in KO. destruct (lex_irrefl Name). apply KO.
    + unfold named in Hn. destruct (l !! Z.to_nat i) as [t|] eqn:Ei; [|done]. cbn in Hn. injection Hn as Hn.
      pose proof (sorted_lookup l (proj1 Hs) _ _ _ _ Ej Ei K) as KO. unfold name_lt in KO. rewrite Hn, En in KO. destruct (lex_irrefl Name). apply KO.
  - destruct r as [i|]; [|done]. destruct Hr as [Hi Hn]. unfold named in Hn. destruct (l !! Z.to_nat i) as [t|] eqn:Ei; [|done]. cbn in Hn. injection Hn as Hn.
    apply list_find_None in EF. by destruct (proj1 (Forall_lookup _ _) EF _ _ Ei).
Qed.
End Lookup.

(** ** Merging an element into an object *)

(** A loop over a list. *)
Fixpoint fold_ {A St} (f : St -> A -> outcome St) (l : list A) (s : St) : outcome St :=
  match l with [] => Ret s | x :: l => s ← f s x; fold_ f l s end.

Lemma for_fold {A St} (f : St -> A -> outcome St) (body : Z -> St -> outcome St) l : forall i s,
  (forall j x s, l !! j = Some x -> body (i + Z.of_nat j) s = f s x) -> for_ (length l) i body s = fold_ f l s.
Proof.
  induction l as [|x l IH]; intros i s H; [done|]. cbn [length fold_]. rewrite for_S. rewrite <- (H 0%nat x s eq_refl), Z.add_0_r.
  destruct (body i s) as [s'|]; [|done]. rewrite !bind_ret. apply IH. intros j y t Hj. rewrite <- (H (S j) y t Hj). f_equal. lia.
Qed.

Section Merge.
Context `{HPool : XmlPool} {HPoolLaws : XmlPoolLaws HPool} `{HLib : AsciiLib} {HLaws : AsciiLibLaws HLib} `{HCopy : CopyLib} {HCopyLaws : CopyLibLaws HCopy}
  `{HLayout : Layout} `{HFlags : BuildFlags}.

Definition merger : Type := obj -> xml -> state -> outcome (obj * state).

Definition merge_entry (Dict : list (OC_SCHEMA * merger)) (s : obj * state) (e : xml * xml) : outcome (obj * state) :=
  let '(o, st) := s in
  match key_of e.1 with
  | None => Ret (o, CountError st)
  | Some k =>
      if decide (head k = Some HASH) then Ret (o, st) else
      match list_find (fun d : OC_SCHEMA * merger => SchemaName d.1 = Some k) Dict with
      | Some (_, (sch, merge)) => if cast_ok (SchemaType sch) e.2 then merge o e.2 st else Ret (o, CountError st)
      | None => Ret (o, CountError st)
      end
  end.

(** The entries of the schema that the dictionary lacks count as errors. *)
Definition has_key (t : xml) (n : list Z) : bool := existsb (fun e => bool_decide (key_of e.1 = Some n)) (entries t).
Definition count_missing (t : xml) (st : state) (s : OC_SCHEMA) : state :=
  if SchemaOptional s || has_key t (default [] (SchemaName s)) then st else CountError st.

Definition merge_dict (Dict : list (OC_SCHEMA * merger)) : merger := fun o t st =>
  '(o, st) ← fold_ (merge_entry Dict) (entries t) (o, st);
  Ret (o, if DebugCode then foldl (count_missing t) st (fst <$> Dict) else st).

Definition value_of (Type_ : OC_SCHEMA_VALUE_TYPE) (t : xml) (V : list Z) (Size : Z) : outcome (bool * list Z) :=
  let sized (r : outcome (bool * list Z * Z)) := '(Result, V, _) ← r; Ret (Result, V) in
  match Type_ with
  | OC_SCHEMA_VALUE_BOOLEAN => boolean_value t V
  | OC_SCHEMA_VALUE_INTEGER => integer_value t V Size
  | OC_SCHEMA_VALUE_DATA => sized (data_value t V Size)
  | OC_SCHEMA_VALUE_STRING => sized (string_value t V Size)
  | OC_SCHEMA_VALUE_MDATA => sized (multi_value t V Size)
  end.

Definition merge_value (Field : path) (FieldSize : Z) (Type_ : OC_SCHEMA_VALUE_TYPE) : merger := fun o t st =>
  f ← OC_SCHEMA_FIELD o Field;
  match f with
  | Bytes V => '(Result, V) ← value_of Type_ t V FieldSize; Ret (put_field o Field (Bytes V), if (Result : bool) then st else CountError st)
  | _ => Fault OutOfBounds
  end.

Definition blob_size (Type_ : OC_SCHEMA_BLOB_TYPE) (t : xml) : option Z :=
  match Type_ with OC_SCHEMA_BLOB_DATA => data_size t | OC_SCHEMA_BLOB_STRING => string_size t | OC_SCHEMA_BLOB_MDATA => multi_size t end.
Definition blob_value (Type_ : OC_SCHEMA_BLOB_TYPE) (t : xml) (V : list Z) (Size : Z) : outcome (bool * list Z * Z) :=
  match Type_ with OC_SCHEMA_BLOB_DATA => data_value t V Size | OC_SCHEMA_BLOB_STRING => string_value t V Size | OC_SCHEMA_BLOB_MDATA => multi_value t V Size end.

Definition merge_blob (Field : path) (Type_ : OC_SCHEMA_BLOB_TYPE) : merger := fun o t st =>
  match blob_size Type_ t with
  | None => Ret (o, CountError st)
  | Some Size =>
      f ← OC_SCHEMA_FIELD o Field;
      match f with
      | Blob B =>
          '(p, B, BlobMemory) ← OcBlobAllocate st.(PoolOf) B Size;
          if negb BlobMemory then Ret (put_field o Field (Blob B), CountError (set_Pool st p)) else
          '(Result, V, BlobSize) ← blob_value Type_ t (OC_BLOB_GET B) B.(Template.Size);
          Ret (put_field o Field (Blob (StoreBlob B V BlobSize)), if (Result : bool) then set_Pool st p else CountError (set_Pool st p))
      | _ => Fault OutOfBounds
      end
  end.

(** A new entry with the key, if there is one, and the element merged into it. *)
Definition push_entry (Field : path) (Key : option (list Z)) (merge : merger) (o : obj) (t : xml) (st : state) : outcome (obj * state) :=
  '(o, st, Success) ← NewEntry o Field (bool_decide (Key <> None)) st;
  if negb Success then Ret (o, CountError st) else
  '(o, st) ← (match Key with Some k => StoreKey o Field k st | None => Ret (o, st) end);
  ApplyLast (fun v => merge v t) o Field st.

Definition merge_map_entry (Field : path) (sch : OC_SCHEMA) (merge : merger) (s : obj * state) (e : xml * xml) : outcome (obj * state) :=
  let '(o, st) := s in
  match key_of e.1 with
  | None => Ret (o, CountError st)
  | Some k =>
      if decide (wrap 32 (Z.of_nat (length k) + 1) = 0) then Ret (o, CountError st) else
      if decide (head k = Some HASH) then Ret (o, st) else
      if cast_ok (SchemaType sch) e.2 then push_entry Field (Some k) merge o e.2 st else Ret (o, CountError st)
  end.
Definition merge_map (Field : path) (sch : OC_SCHEMA) (merge : merger) : merger := fun o t st => fold_ (merge_map_entry Field sch merge) (entries t) (o, st).

Definition merge_array_child (Field : path) (sch : OC_SCHEMA) (merge : merger) (s : obj * state) (t : xml) : outcome (obj * state) :=
  let '(o, st) := s in if cast_ok (SchemaType sch) t then push_entry Field None merge o t st else Ret (o, CountError st).
Definition merge_array (Field : path) (sch : OC_SCHEMA) (merge : merger) : merger := fun o t st => fold_ (merge_array_child Field sch merge) (kids t) (o, st).

Fixpoint merge (i : OC_SCHEMA_INFO) : merger :=
  match i with
  | SchemaDict l => merge_dict (map (fun s => match s with Schema n t o i => (Schema n t o i, merge i) end) l)
  | SchemaValue Field FieldSize Type_ => merge_value Field FieldSize Type_
  | SchemaBlob Field Type_ => merge_blob Field Type_
  | SchemaMap Field s => merge_map Field s (match s with Schema _ _ _ i => merge i end)
  | SchemaArray Field s => merge_array Field s (match s with Schema _ _ _ i => merge i end)
  end.
End Merge.

(** ** Schemas *)
Section Induction.
Context (P : OC_SCHEMA_INFO -> Prop).
Context (HDict : forall l, Forall (fun s => P (SchemaInfo s)) l -> P (SchemaDict l)) (HValue : forall f n t, P (SchemaValue f n t)) (HBlob : forall f t, P (SchemaBlob f t))
  (HMap : forall f s, P (SchemaInfo s) -> P (SchemaMap f s)) (HArray : forall f s, P (SchemaInfo s) -> P (SchemaArray f s)).

Fixpoint info_ind' (i : OC_SCHEMA_INFO) : P i :=
  match i with
  | SchemaDict l =>
      HDict l ((fix go (l : list OC_SCHEMA) : Forall (fun s => P (SchemaInfo s)) l :=
        match l with [] => Forall_nil_2 _ | Schema n t o i :: l => Forall_cons_2 _ (Schema n t o i) _ (info_ind' i) (go l) end) l)
  | SchemaValue f n t => HValue f n t
  | SchemaBlob f t => HBlob f t
  | SchemaMap f (Schema n t o i) => HMap f (Schema n t o i) (info_ind' i)
  | SchemaArray f (Schema n t o i) => HArray f (Schema n t o i) (info_ind' i)
  end.
End Induction.

(** All tables of a schema are sorted. *)
Fixpoint tables_ok (i : OC_SCHEMA_INFO) : Prop :=
  match i with
  | SchemaDict l => sorted l /\ Z.of_nat (length l) < 2 ^ 31 /\ foldr (fun s P => match s with Schema _ _ _ i => tables_ok i end /\ P) True l
  | SchemaMap _ (Schema _ _ _ i) | SchemaArray _ (Schema _ _ _ i) => tables_ok i
  | _ => True
  end.

(** A computation that finds out whether all tables are sorted. *)
#[export] Instance name_lt_dec s t : Decision (name_lt s t).
Proof. unfold name_lt. destruct (SchemaName s), (SchemaName t); try (right; tauto). unfold ascii. apply _. Defined.
#[export] Instance name_lt_trans : Transitive name_lt.
Proof.
  intros x y z. unfold name_lt. destruct (SchemaName x), (SchemaName y), (SchemaName z); try done. intros (A & B & C) (D & E & F). split; [done|]. split; [done|]. by eapply lex_trans.
Qed.

Definition ascii_name (s : OC_SCHEMA) : Prop := match SchemaName s with Some n => ascii n | None => False end.
#[export] Instance ascii_name_dec s : Decision (ascii_name s).
Proof. unfold ascii_name. destruct (SchemaName s); [unfold ascii; apply _|right; tauto]. Defined.

Fixpoint ascending (l : list OC_SCHEMA) : bool :=
  match l with s :: (t :: _) as r => bool_decide (name_lt s t) && ascending r | _ => true end.

Fixpoint tables_sorted (i : OC_SCHEMA_INFO) : bool :=
  match i with
  | SchemaDict l => ascending l && bool_decide (Forall ascii_name l) && bool_decide (Z.of_nat (length l) < 2 ^ 31) && forallb (fun s => match s with Schema _ _ _ i => tables_sorted i end) l
  | SchemaMap _ (Schema _ _ _ i) | SchemaArray _ (Schema _ _ _ i) => tables_sorted i
  | _ => true
  end.

Lemma ascending_sorted l : ascending l = true -> StronglySorted name_lt l.
Proof.
  intros H. apply Sorted_StronglySorted; [apply _|]. induction l as [|s [|t l] IH]; [constructor|constructor; constructor|].
  cbn [ascending] in H. apply andb_true_iff in H as [H1%bool_decide_eq_true H2]. constructor; [by apply IH|by constructor].
Qed.

Lemma tables_sorted_ok i : tables_sorted i = true -> tables_ok i.
Proof.
  induction i as [l IH|f n t|f t|f [N T o i] IH|f [N T o i] IH] using info_ind'; cbn [tables_sorted tables_ok]; try done.
  intros [[[H1 H2%bool_decide_eq_true]%andb_true_iff H3%bool_decide_eq_true]%andb_true_iff H4]%andb_true_iff. split; [split; [by apply ascending_sorted|exact H2]|]. split; [done|].
  clear - IH H4. induction IH as [|[N T o i] l Hi _ IHl]; [done|]. cbn in H4 |- *. apply andb_true_iff in H4 as [K1 K2]. split; [by apply Hi|by apply IHl].
Qed.

(** ** The code merges the element that its node stands for *)
Section Refinement.
Context `{HPool : XmlPool} {HPoolLaws : XmlPoolLaws HPool} `{HLib : AsciiLib} {HLaws : AsciiLibLaws HLib} {HOrder : AsciiOrder HLib}
  `{HCopy : CopyLib} {HCopyLaws : CopyLibLaws HCopy} `{HLayout : Layout} `{HFlags : BuildFlags}.
Context (h : heap) (b : list Z).

Definition refines (A : applier) (m : merger) : Prop := forall o p t st, stands h b p t -> A o p st = m o t st.

Lemma fold_pure {A St} (f : St -> A -> St) l s : fold_ (fun s x => Ret (f s x)) l s = Ret (foldl f s l).
Proof. revert s. induction l as [|x l IH]; intros s; [done|]. cbn [fold_ foldl]. by rewrite bind_ret, IH. Qed.

Lemma fold_fmap {A B St} (f : St -> B -> outcome St) (g : A -> B) l s : fold_ f (g <$> l) s = fold_ (fun s x => f s (g x)) l s.
Proof. revert s. induction l as [|x l IH]; intros s; [done|]. cbn. destruct (f s (g x)); [apply IH|done]. Qed.

(** The applied entry of a table and the merged one. *)
Definition same_entry (a : OC_SCHEMA * applier) (m : OC_SCHEMA * merger) : Prop := a.1 = m.1 /\ refines a.2 m.2.

Lemma DictStep_merges Dict DictM t p s i e : Forall2 same_entry Dict DictM -> sorted (fst <$> Dict) -> Z.of_nat (length Dict) < 2 ^ 31 ->
  stands h b p t -> entries t !! i = Some e -> DictStep h b Dict p (Z.of_nat i) s = merge_entry DictM s e.
Proof.
  destruct s as [o st], e as [k v]. intros HF HS Hl Hp Hi. unfold DictStep, merge_entry.
  destruct (DictChild_stands h b p t i k v true Hp Hi) as (qk & qv & -> & Hk & Hv). rewrite bind_ret. cbv beta iota.
  rewrite (KeyValue_stands _ _ _ _ Hk), bind_ret. cbn [fst snd]. destruct (key_of k) as [key|]; [|done]. case_decide; [done|].
  pose proof (Lookup_sorted (fst <$> Dict) key HS) as HL. rewrite length_fmap in HL. rewrite HL by done. clear HL. rewrite bind_ret. cbv beta.
  rewrite list_find_fmap. assert (forall P' (D : list (OC_SCHEMA * applier)) D' (H : forall d, Decision (P' d)), Forall2 same_entry D D' ->
    match list_find (fun d => P' d.1) D, list_find (fun d => P' d.1) D' with
    | Some (j, a), Some (j', m) => D !! j = Some a /\ same_entry a m | None, None => True | _, _ => False end) as HFind.
  { intros P' D D' ?. induction 1 as [|a m D D' Ham _ IH]; [done|]. cbn. rewrite (proj1 Ham). case_decide; [by split|].
    destruct (list_find _ D) as [[j x]|], (list_find _ D') as [[j' y]|]; try done. }
  specialize (HFind (fun s => SchemaName s = Some key) _ _ _ HF). cbv beta in HFind. unfold compose. cbn [fst].
  destruct (list_find _ Dict) as [[j [sch A]]|], (list_find _ DictM) as [[j' [sch' m]]|]; try done. destruct HFind as (Hj & E & HR). cbn in E, HR. subst sch'.
  change (_ <$> (_ <$> Some (j, (sch, A)))) with (Some (Z.of_nat j)). cbv iota. rewrite (rd_nat _ _ _ Hj), bind_ret. cbv beta iota. rewrite (Cast_stands _ _ _ _ _ Hv), bind_ret. cbv beta.
  destruct (cast_ok _ v); [by apply HR|done].
Qed.

Lemma HasKey_spec t p n found : stands h b p t ->
  for_ (Z.to_nat (Z.of_nat (length (entries t)))) 0 (HasKeyStep h b p n) found = Ret (found || has_key t n).
Proof.
  intros Hp. rewrite Nat2Z.id, (for_fold (fun (found : bool) e => Ret (found || bool_decide (key_of e.1 = Some n)))).
  - rewrite fold_pure. f_equal. unfold has_key. generalize (entries t). intros l. revert found.
    induction l as [|e l IH]; intros found; [by rewrite orb_false_r|]. cbn [foldl existsb]. by rewrite IH, orb_assoc.
  - intros i [k v] f Hi. unfold HasKeyStep. destruct f; [done|]. destruct (DictChild_stands h b p t i k v false Hp Hi) as (qk & qv & E & Hk & _).
    rewrite Z.add_0_l, E, bind_ret. cbv beta iota. rewrite (KeyValue_stands _ _ _ _ Hk), bind_ret. cbn [fst orb]. f_equal.
    destruct (key_of k) as [key|]; [|by rewrite bool_decide_false]. apply bool_decide_ext. rewrite AsciiStrCmp_eq. split; [by intros ->|by intros [= ->]].
Qed.

Lemma ParseSerializedDict_merges Dict DictM : Forall2 same_entry Dict DictM -> sorted (fst <$> Dict) -> Z.of_nat (length Dict) < 2 ^ 31 ->
  refines (ParseSerializedDict h b Dict) (merge_dict DictM).
Proof.
  intros HF HS Hl o p t st Hp. unfold ParseSerializedDict, merge_dict. rewrite (DictChildren_stands _ _ _ _ Hp), bind_ret. cbv beta.
  rewrite Nat2Z.id, (for_fold (merge_entry DictM)) by (intros i e s Hi; by apply (DictStep_merges Dict DictM t)).
  destruct (fold_ _ _ _) as [[o1 st1]|]; [|done]. rewrite !bind_ret. cbv beta iota.
  assert (fst <$> DictM = fst <$> Dict) as -> by (clear - HF; induction HF as [|a m D D' [E _] _ IH]; [done|]; cbn; by rewrite E, IH).
  destruct DebugCode; [|done]. rewrite (for_fold (fun st d => Ret (count_missing t st d.1))).
  - rewrite (fold_pure (fun st (d : OC_SCHEMA * applier) => count_missing t st d.1)), bind_ret. do 2 f_equal. clear. revert st1.
    induction Dict as [|d D IH]; intros st; [done|]. cbn. by rewrite IH.
  - intros j [sch A] s Hj. unfold MissingStep, count_missing. cbn [fst]. rewrite Z.add_0_l, (rd_nat _ _ _ Hj), bind_ret. cbv beta iota. destruct (SchemaOptional sch); [done|].
    destruct HS as [_ HS]. pose proof (proj1 (Forall_lookup _ _) HS j sch) as HN. rewrite list_lookup_fmap, Hj in HN. specialize (HN eq_refl). cbv beta in HN.
    destruct (SchemaName sch) as [n|]; [|done]. by rewrite (HasKey_spec t p n false Hp), bind_ret.
Qed.

Lemma ReadValue_merges p t T V n : stands h b p t -> ReadValue h b T p V n = value_of T t V n.
Proof.
  intros Hp. unfold ReadValue, value_of. cbv zeta. destruct T; [by apply BooleanValue_stands|by apply IntegerValue_stands|by rewrite (DataValue_stands _ _ _ _ _ _ Hp)
  |by rewrite (StringValue_stands _ _ _ _ _ _ Hp)|by rewrite (MultiDataValue_stands _ _ _ _ _ _ Hp)].
Qed.

Lemma ParseSerializedValue_merges F n T : refines (ParseSerializedValue h b F n T) (merge_value F n T).
Proof.
  intros o p t st Hp. unfold ParseSerializedValue, merge_value. destruct (OC_SCHEMA_FIELD o F) as [[V| | | |]|]; try done. rewrite !bind_ret. cbv beta iota.
  by rewrite (ReadValue_merges _ t).
Qed.

Lemma ParseSerializedBlob_merges F T : refines (ParseSerializedBlob h b F T) (merge_blob F T).
Proof.
  intros o p t st Hp. unfold ParseSerializedBlob, merge_blob.
  assert (SizeOfBlob h b T p = Ret (blob_size T t)) as -> by (destruct T; [by apply DataSize_stands|by apply StringSize_stands|by apply MultiDataSize_stands]).
  assert (forall V n, ReadBlob h b T p V n = blob_value T t V n) as HV by (intros V n; destruct T; [by apply DataValue_stands|by apply StringValue_stands|by apply MultiDataValue_stands]).
  rewrite bind_ret. cbv beta. destruct (blob_size T t) as [n|]; [|done]. destruct (OC_SCHEMA_FIELD o F) as [[| |B| |]|]; try done. rewrite !bind_ret. cbv beta iota.
  destruct (OcBlobAllocate _ B n) as [[[s B'] r]|]; [|done]. rewrite !bind_ret. cbv beta iota zeta. destruct r; [|done]. cbn [negb]. by rewrite HV.
Qed.

Lemma push_merges A m F HasKey K o p t st : refines A m -> stands h b p t -> HasKey = bool_decide (K <> None) ->
  ('(o, st, Success) ← NewEntry o F HasKey st;
   if negb Success then Ret (o, CountError st) else
   '(o, st) ← (match K with Some k => StoreKey o F k st | None => Ret (o, st) end);
   ApplyLast (fun v => A v p) o F st) = push_entry F K m o t st.
Proof.
  intros HR Hp ->. unfold push_entry. destruct (NewEntry _ _ _ _) as [[[o1 st1] r]|]; [|done]. rewrite !bind_ret. cbv beta iota. destruct r; [|done]. cbn [negb].
  destruct (match K with Some _ => _ | None => _ end) as [[o2 st2]|]; [|done]. rewrite !bind_ret. cbv beta iota. unfold ApplyLast.
  destruct (OC_SCHEMA_FIELD o2 F) as [[| | |l|]|]; try done. rewrite !bind_ret. cbv beta iota. destruct (last _) as [v|]; [|done]. by rewrite (HR v p t).
Qed.

Lemma ParseSerializedMap_merges F sch A m : refines A m -> refines (ParseSerializedMap h b F sch A) (merge_map F sch m).
Proof.
  intros HR o p t st Hp. unfold ParseSerializedMap, merge_map. rewrite (DictChildren_stands _ _ _ _ Hp), bind_ret. cbv beta. rewrite Nat2Z.id. apply for_fold.
  intros i [k v] [o1 st1] Hi. unfold MapStep, merge_map_entry. rewrite Z.add_0_l. destruct (DictChild_stands h b p t i k v true Hp Hi) as (qk & qv & -> & Hk & Hv).
  rewrite bind_ret. cbv beta iota. rewrite (KeyValue_stands _ _ _ _ Hk), bind_ret. cbn [fst snd]. cbv beta zeta. destruct (key_of k) as [key|]; [|done].
  change (default [] (Some key)) with key. case_decide; [done|]. case_decide; [done|]. rewrite (Cast_stands _ _ _ _ _ Hv), bind_ret. cbv beta. destruct (cast_ok _ v); [|done].
  by apply (push_merges A m F true (Some key)).
Qed.

Lemma ParseSerializedArray_merges F sch A m : refines A m -> refines (ParseSerializedArray h b F sch A) (merge_array F sch m).
Proof.
  intros HR o p t st Hp. unfold ParseSerializedArray, merge_array. rewrite (Children_stands _ _ _ _ Hp), bind_ret. cbv beta. rewrite Nat2Z.id. apply for_fold.
  intros i v [o1 st1] Hi. unfold ArrayStep, merge_array_child. rewrite Z.add_0_l. destruct (Child_stands h b p t i v Hp Hi) as (q & -> & Hv).
  rewrite bind_ret. cbv beta iota. rewrite (Cast_stands _ _ _ _ _ Hv), bind_ret. cbv beta. destruct (cast_ok _ v); [|done].
  rewrite <- (push_merges A m F false None o1 q v st1 HR Hv) by done. destruct (NewEntry _ _ _ _) as [[[o2 st2] r]|]; [|done].
  rewrite !bind_ret. cbv beta iota. destruct r; [|done]. by rewrite ?bind_ret.
Qed.

Lemma Apply_refines i : tables_ok i -> refines (Apply h b i) (merge i).
Proof.
  induction i as [l IH|f n T|f T|f [N T O i] IH|f [N T O i] IH] using info_ind'; cbn [Apply merge tables_ok].
  - intros (HS & Hl & HT). set (L := map _ l). assert (fst <$> L = l) as EL.
    { subst L. clear. induction l as [|[N T O i] l IH]; [done|]. cbn. by rewrite IH. }
    apply ParseSerializedDict_merges; [|by rewrite EL|subst L; by rewrite length_map]. subst L. clear - IH HT.
    induction IH as [|[N T O i] l Hi _ IHl]; [constructor|]. destruct HT as [HT1 HT2]. constructor; [|by apply IHl]. split; [done|]. by apply Hi.
  - intros _. apply ParseSerializedValue_merges.
  - intros _. apply ParseSerializedBlob_merges.
  - intros HT. apply ParseSerializedMap_merges. by apply IH.
  - intros HT. apply ParseSerializedArray_merges. by apply IH.
Qed.
End Refinement.

(** ** The concrete comparison *)
Lemma compare_strings_lt s : forall t, compare_strings s t < 0 <-> lex_lt s t.
Proof. induction s as [|x s IH]; intros [|y t]; cbn; try lia. case_decide as E; [subst; rewrite IH; split; [by right|by intros [?|[_ ?]]; [lia|]]|]. split; [left; lia|]. intros [?|[? _]]; [lia|done]. Qed.

Lemma sample_order : AsciiOrder sample_lib.
Proof. split. intros s t _ _. apply compare_strings_lt. Qed.

(** ** Properties *)
Section Properties.
Context `{HPool : XmlPool} {HPoolLaws : XmlPoolLaws HPool} `{HLib : AsciiLib} {HLaws : AsciiLibLaws HLib} {HOrder : AsciiOrder HLib}
  `{HCopy : CopyLib} {HCopyLaws : CopyLibLaws HCopy} `{HLayout : Layout} `{HFlags : BuildFlags}.

(** C22: on a table that is sorted by name and has fewer than 2^31 entries, the binary
    search of [LookupConfigSchema], with its unsigned 32-bit bounds, returns the index
    of the entry that a search from the front finds, and nothing if there is none; it
    never reads outside of the table. *)
Theorem LookupConfigSchema_sorted l Name : sorted l -> Z.of_nat (length l) < 2 ^ 31 ->
  LookupConfigSchema l (Z.of_nat (length l)) Name = Ret ((fun p => Z.of_nat p.1) <$> list_find (fun s => SchemaName s = Some Name) l).
Proof. apply Lookup_sorted. Qed.

(** C7: for a schema whose tables are sorted, [Apply] on a node in memory is the merge
    of the element that the node stands for: the walk over nodes, casts and keys
    refines a function of the element alone, with the same object, errors and requests
    to the pool. *)
Theorem Apply_merges h b i o p t st : tables_ok i -> stands h b p t -> Apply h b i o p st = merge i o t st.
Proof. intros HT HS. by apply Apply_refines. Qed.
End Properties.

Definition sample_table : list OC_SCHEMA :=
  (fun n => Schema (Some (str n)) PLIST_NODE_TYPE_ANY false (SchemaValue [n] 1 OC_SCHEMA_VALUE_BOOLEAN)) <$> ["Arch"; "Base"; "MLB"; "MaxKernel"; "Skip"]%string.

Lemma sample_table_sorted : sorted sample_table.
Proof.
  apply (tables_sorted_ok (SchemaDict sample_table)). by vm_compute.
Qed.

Lemma LookupConfigSchema_sorted_witness :
  sorted sample_table /\ @LookupConfigSchema sample_lib sample_table 5 (str "MaxKernel") = Ret (Some 3).
Proof. split; [exact sample_table_sorted|]. apply (@LookupConfigSchema_sorted sample_lib sample_lib_laws sample_order sample_table (str "MaxKernel") sample_table_sorted). by vm_compute. Defined.

(** The nodes of a dictionary with the entry MLB. *)
Definition leaf (name : list Z) (text : option chars) : XML_NODE := Node (Text name) None text None None.
Definition dict_heap : heap :=
  Heap {[0 := Node (Text (str "dict")) None None None (Some 5); 1 := leaf (str "key") (Some (Text (str "MLB"))); 2 := leaf (str "true") None]} {[5 := List_ 2 [1; 2]]} ∅ ∅ 6.
Definition dict_element : xml := Elem (str "dict") None None (Some [Elem (str "key") None (Some (str "MLB")) None; Elem (str "true") None None None]).
Definition sample_flags : BuildFlags := {| DebugCode := true |}.
Definition sample_object : obj := Struct ((fun n => (n, Bytes [0])) <$> ["Arch"; "Base"; "MLB"; "MaxKernel"; "Skip"]%string).

Lemma dict_stands : stands dict_heap [] 0 dict_element.
Proof.
  eapply (stands_node _ _ _ _ 5 2 [1; 2]); try done. repeat constructor; [eapply (stands_leaf _ _ 1)|eapply (stands_leaf _ _ 2)]; done.
Qed.

Lemma Apply_merges_witness :
  exists o, @Apply sample_pool sample_lib sample_copy sample_layout sample_flags dict_heap [] (SchemaDict sample_table) sample_object 0 (State (Pool 0 0) (Some 0))
    = Ret (o, State (Pool 0 0) (Some 4)) /\ OC_SCHEMA_FIELD o ["MLB"%string] = Ret (Bytes [1]).
Proof.
  rewrite (@Apply_merges sample_pool sample_lib sample_lib_laws sample_order sample_copy sample_layout sample_flags dict_heap [] (SchemaDict sample_table) sample_object 0 dict_element
    (State (Pool 0 0) (Some 0))); [eexists; split; vm_compute; reflexivity| |exact dict_stands].
  split; [exact sample_table_sorted|]. split; [by vm_compute|]. by repeat split.
Defined.
End SerializeSpec.
