(* ===== verification/SerializeFrame.v ===== *)
(** * What reading by a schema leaves alone

    The fields that an element writes ([writes]); every other field keeps its value,
    so a configuration has its initial value wherever the document has no entry. *)
From Stdlib Require Import Ascii String.
From stdpp Require Import gmap strings.
From S2P Require Import Prelude Xml Plist Template Serialize SerializeSpec.

Module SerializeFrame.
Import Xml Plist Template Serialize SerializeSpec.

(** ** Places that have nothing in common *)
Fixpoint apart (F G : path) : bool :=
  match F, G with
  | f :: F, g :: G => if decide (f = g) then apart F G else true
  | _, _ => false
  end.

Lemma put_at_other fs f g x : f <> g -> field_at (put_at fs f x) g = field_at fs g.
Proof.
  intros Hfg. induction fs as [|[k o] fs IH]; [done|]. cbn [put_at]. case_decide as E; cbn [field_at].
  - subst k. by rewrite !decide_False.
  - by rewrite IH.
Qed.

Lemma put_at_same fs f o x : field_at fs f = Some o -> field_at (put_at fs f x) f = Some x.
Proof. induction fs as [|[k o'] fs IH]; [done|]. cbn [put_at field_at]. case_decide as E; cbn [field_at]; [by rewrite decide_True|]. rewrite decide_False by done. exact IH. Qed.

Lemma put_field_other F : forall o G x, apart F G = true -> OC_SCHEMA_FIELD (put_field o F x) G = OC_SCHEMA_FIELD o G.
Proof.
  induction F as [|f F IH]; intros o [|g G] x HA; try done. cbn [apart] in HA. destruct o as [| | | |fs]; try done. cbn [put_field]. destruct (field_at fs f) as [o|] eqn:Ef; [|done].
  cbn [OC_SCHEMA_FIELD]. case_decide as E.
  - subst g. rewrite (put_at_same fs f o), Ef by done. by apply IH.
  - by rewrite put_at_other.
Qed.

(** The entry of a table with what belongs to its schema. *)
Lemma find_entry {X} (g : OC_SCHEMA_INFO -> X) key l :
  list_find (fun d : OC_SCHEMA * X => SchemaName d.1 = Some key) (map (fun s => match s with Schema n ty o i => (Schema n ty o i, g i) end) l)
  = (fun p => (p.1, (p.2, g (SchemaInfo p.2)))) <$> list_find (fun s => SchemaName s = Some key) l.
Proof. induction l as [|[n ty o i] l IH]; [done|]. cbn. case_decide; [done|]. rewrite IH. by destruct (list_find _ l) as [[? ?]|]. Qed.

(** ** The fields that an element writes *)
Section Writes.
Context `{HPool : XmlPool} `{HLib : AsciiLib} `{HCopy : CopyLib} `{HLayout : Layout} `{HFlags : BuildFlags}.

Definition entry_writes (Dict : list (OC_SCHEMA * (xml -> list path))) (e : xml * xml) : list path :=
  match key_of e.1 with
  | None => []
  | Some k =>
      match list_find (fun d : OC_SCHEMA * (xml -> list path) => SchemaName d.1 = Some k) Dict with
      | Some (_, (_, w)) => w e.2
      | None => []
      end
  end.

Fixpoint writes (i : OC_SCHEMA_INFO) (t : xml) : list path :=
  match i with
  | SchemaDict l => let D := map (fun s => match s with Schema n ty o i => (Schema n ty o i, writes i) end) l in entries t ≫= entry_writes D
  | SchemaValue F _ _ | SchemaBlob F _ | SchemaMap F _ | SchemaArray F _ => [F]
  end.

(** A step that keeps the field [G]. *)
Definition keeps (G : path) (o : obj) (r : outcome (obj * state)) : Prop := forall o' st', r = Ret (o', st') -> OC_SCHEMA_FIELD o' G = OC_SCHEMA_FIELD o G.

Lemma keeps_same G o st : keeps G o (Ret (o, st)).
Proof. by intros o' st' [= <- _]. Qed.

Lemma keeps_put G F o x st : apart F G = true -> keeps G o (Ret (put_field o F x, st)).
Proof. intros HA o' st' [= <- _]. by apply put_field_other. Qed.

Lemma keeps_bind G o r (k : obj * state -> outcome (obj * state)) : keeps G o r -> (forall o1 st1, r = Ret (o1, st1) -> keeps G o1 (k (o1, st1))) -> keeps G o (r ≫= k).
Proof. destruct r as [[o1 st1]|]; [|done]. intros H1 H2 o2 st2 E. rewrite (H2 o1 st1 eq_refl o2 st2 E). by eapply H1. Qed.

Lemma fold_keeps {A} G (f : obj * state -> A -> outcome (obj * state)) l : (forall x o st, x ∈ l -> keeps G o (f (o, st) x)) -> forall o st, keeps G o (fold_ f l (o, st)).
Proof.
  induction l as [|x l IH]; intros Hf o st; [apply keeps_same|]. cbn [fold_]. apply keeps_bind; [apply Hf; by left|].
  intros o1 st1 _. apply IH. intros y o2 st2 Hy. apply Hf. by right.
Qed.

Lemma push_keeps G F K m o t st : apart F G = true -> keeps G o (push_entry F K m o t st).
Proof.
  intros HA. unfold push_entry. destruct (NewEntry _ _ _ _) as [[[o1 st1] r]|] eqn:EN; [|done]. rewrite bind_ret. cbv beta iota.
  assert (OC_SCHEMA_FIELD o1 G = OC_SCHEMA_FIELD o G) as E1.
  { unfold NewEntry in EN. destruct (OC_SCHEMA_FIELD o F) as [[| | |l|]|]; try done. rewrite bind_ret in EN. cbv beta iota in EN.
    destruct (OcListEntryAllocate _ _ _) as [[[p l'] b]|]; [|done]. rewrite bind_ret in EN. injection EN as <- <- <-. by apply put_field_other. }
  destruct r; cbn [negb]; [|intros o' st' [= <- _]; exact E1].
  assert (forall k, keeps G o1 k -> keeps G o k) as Htrans by (intros k H o' st' E; by rewrite (H _ _ E)).
  apply Htrans. apply keeps_bind.
  - destruct K as [key|]; [|apply keeps_same]. unfold StoreKey. destruct (OC_SCHEMA_FIELD o1 F) as [[| | |l|]|]; try done. rewrite bind_ret. cbv beta iota.
    destruct (last _) as [[| |B| |]|]; try done. cbv zeta. destruct (OcBlobAllocate _ _ _) as [[[p B'] b]|]; [|done]. rewrite bind_ret. cbv beta iota.
    destruct b; cbn [negb]; [|by apply keeps_put]. destruct (match AsciiStrnCpyS _ _ _ with Some _ => _ | None => _ end) as [V|]; [|done]. rewrite bind_ret. by apply keeps_put.
  - intros o2 st2 _. unfold ApplyLast. destruct (OC_SCHEMA_FIELD o2 F) as [[| | |l|]|]; try done. rewrite bind_ret. cbv beta iota. destruct (last _) as [v|]; [|done].
    destruct (m v t st2) as [[v' st3]|]; [|done]. rewrite bind_ret. by apply keeps_put.
Qed.

Lemma merge_keeps i : forall G o t st, Forall (fun F => apart F G = true) (writes i t) -> keeps G o (merge i o t st).
Proof.
  induction i as [l IH|F n T|F T|F s IH|F s IH] using info_ind'; intros G o t st HW; cbn [merge writes] in *.
  - unfold merge_dict. destruct (fold_ _ _ _) as [[o1 st1]|] eqn:E; [|done]. rewrite bind_ret. intros o' st' [= <- _]. revert E. apply fold_keeps.
    intros [k v] o2 st2 He. unfold merge_entry. cbn [fst snd]. destruct (key_of k) as [key|] eqn:EK; [|apply keeps_same]. case_decide; [apply keeps_same|].
    destruct (list_find _ _) as [[j [sch m]]|] eqn:EL; [|apply keeps_same]. destruct (cast_ok _ v); [|apply keeps_same].
    pose proof (find_entry merge key l) as EM. rewrite EL in EM. destruct (list_find _ l) as [[j' s]|] eqn:ES; [|done]. cbn in EM. injection EM as -> -> ->.
    assert (s ∈ l) as Hs by (apply list_find_Some in ES as (ES & _); by eapply list_elem_of_lookup_2).
    rewrite Forall_forall in IH. apply (IH s Hs). apply Forall_forall. intros F HF. rewrite Forall_forall in HW. apply HW. apply list_elem_of_bind. exists (k, v). split; [|done].
    unfold entry_writes. cbn [fst snd]. by rewrite EK, (find_entry writes key l), ES.
  - rewrite Forall_singleton in HW. unfold merge_value. destruct (OC_SCHEMA_FIELD o F) as [[V| | | |]|]; try done. rewrite bind_ret. cbv beta iota.
    destruct (value_of _ _ _ _) as [[R V']|]; [|done]. rewrite bind_ret. cbv beta iota zeta. by apply keeps_put.
  - rewrite Forall_singleton in HW. unfold merge_blob. destruct (blob_size T t) as [n|]; [|apply keeps_same]. destruct (OC_SCHEMA_FIELD o F) as [[| |B| |]|]; try done. rewrite bind_ret. cbv beta iota.
    destruct (OcBlobAllocate _ _ _) as [[[p B'] b]|]; [|done]. rewrite bind_ret. cbv beta iota. destruct b; cbn [negb]; [|by apply keeps_put].
    destruct (blob_value _ _ _ _) as [[[R V'] S]|]; [|done]. rewrite bind_ret. by apply keeps_put.
  - rewrite Forall_singleton in HW. destruct s as [N ty op i]. unfold merge_map. apply fold_keeps. intros [k v] o2 st2 _. unfold merge_map_entry. cbn [fst snd].
    destruct (key_of k) as [key|]; [|apply keeps_same]. case_decide; [apply keeps_same|]. case_decide; [apply keeps_same|]. destruct (cast_ok _ v); [|apply keeps_same]. by apply push_keeps.
  - rewrite Forall_singleton in HW. destruct s as [N ty op i]. unfold merge_array. apply fold_keeps. intros v o2 st2 _. unfold merge_array_child. destruct (cast_ok _ v); [|apply keeps_same]. by apply push_keeps.
Qed.
End Writes.

(** ** Schemas whose keys share no memory *)
Fixpoint targets (i : OC_SCHEMA_INFO) : list path :=
  match i with
  | SchemaDict l => flat_map (fun s => match s with Schema _ _ _ i => targets i end) l
  | SchemaValue F _ _ | SchemaBlob F _ | SchemaMap F _ | SchemaArray F _ => [F]
  end.

Fixpoint pairwise_apart (l : list path) : bool :=
  match l with [] => true | F :: l => forallb (fun G => apart F G && apart G F) l && pairwise_apart l end.

(** The elements of maps and arrays included. *)
Fixpoint element_targets (i : OC_SCHEMA_INFO) : bool :=
  match i with
  | SchemaDict l => forallb (fun s => match s with Schema _ _ _ i => element_targets i end) l
  | SchemaValue _ _ _ | SchemaBlob _ _ => true
  | SchemaMap _ (Schema _ _ _ i) | SchemaArray _ (Schema _ _ _ i) => pairwise_apart (targets i) && element_targets i
  end.
Definition keys_apart (i : OC_SCHEMA_INFO) : bool := pairwise_apart (targets i) && element_targets i.
End SerializeFrame.
