(* ===== verification/SerializeSafety.v ===== *)
(** * Reading by a schema is safe

    A schema that fits the type of an object ([fits]) is merged into it without a
    fault, whatever the element, the pool and the counter of errors: the object keeps
    its type and its invariant, and every block that was allocated belongs to it. *)
From Stdlib Require Import Ascii String.
From stdpp Require Import gmap strings.
From S2P Require Import Prelude Xml Plist Template Serialize SerializeSpec.

Module SerializeSafety.
Import Xml Plist Template Serialize SerializeSpec.

(** ** Schemas and types *)
Fixpoint type_field (fs : list (string * otype)) (f : string) : option otype :=
  match fs with [] => None | (g, t) :: fs => if decide (g = f) then Some t else type_field fs f end.
Fixpoint type_at (t : otype) (F : path) : option otype :=
  match F with
  | [] => Some t
  | f :: F => match t with TStruct fs => match type_field fs f with Some t => type_at t F | None => None end | _ => None end
  end.

(** Room for what a value of [n] bytes can store in [k] bytes: an integer of MDATA
    takes four bytes and a string without content one, whatever the size. *)
Definition value_fits (T : OC_SCHEMA_VALUE_TYPE) (n : Z) (k : nat) : bool :=
  bool_decide (0 <= n < 2 ^ 32) && bool_decide (n <= Z.of_nat k) &&
  match T with
  | OC_SCHEMA_VALUE_BOOLEAN | OC_SCHEMA_VALUE_STRING => bool_decide (1 <= Z.of_nat k)
  | OC_SCHEMA_VALUE_MDATA => bool_decide (4 <= Z.of_nat k)
  | _ => true
  end.

Fixpoint fits (i : OC_SCHEMA_INFO) (t : otype) : bool :=
  match i with
  | SchemaDict l => forallb (fun s => match s with Schema _ _ _ i => fits i t end) l
  | SchemaValue F n T => match type_at t F with Some (TBytes k) => value_fits T n k | _ => false end
  | SchemaBlob F _ => match type_at t F with Some (TBlob _) => true | _ => false end
  | SchemaMap F (Schema _ _ _ i) => match type_at t F with Some (TList c (Some _)) => fits i (typeof c) | _ => false end
  | SchemaArray F (Schema _ _ _ i) => match type_at t F with Some (TList c None) => fits i (typeof c) | _ => false end
  end.

(** ** Fields *)
Lemma field_type fs f : type_field (map (fun '(f, o) => (f, typeof o)) fs) f = typeof <$> field_at fs f.
Proof. induction fs as [|[g o] fs IH]; [done|]. cbn [map type_field field_at]. case_decide; [done|exact IH]. Qed.

Lemma put_at_spec fs f x y : field_at fs f = Some x -> obj_ok (Struct fs) -> obj_ok x /\ blocks x <= blocks (Struct fs) /\
  field_at (put_at fs f y) f = Some y /\ (typeof y = typeof x -> typeof (Struct (put_at fs f y)) = typeof (Struct fs)) /\ (obj_ok y -> obj_ok (Struct (put_at fs f y)))
  /\ blocks (Struct (put_at fs f y)) = blocks (Struct fs) - blocks x + blocks y.
Proof.
  intros Hf Hok. assert (forall fs, 0 <= blocks (Struct fs)) as Hn by (intros fs'; apply (blocks_nonneg (Struct fs'))).
  induction fs as [|[g o] fs IH]; [done|]. cbn [field_at put_at] in *. destruct Hok as [Ho Hok]. specialize (Hn fs). case_decide as E.
  - injection Hf as ->. cbn in Hn |- *. rewrite decide_True by done. split_and!; try done; try lia. by intros ->.
  - specialize (IH Hf Hok) as (H1 & H2 & H3 & H4 & H5 & H6). cbn [field_at]. rewrite decide_False by done. pose proof (blocks_nonneg o) as Hb. cbn in *. split_and!; try done; try lia.
    + intros K. specialize (H4 K). injection H4 as H4. by rewrite H4.
    + intros K. by split; [|apply H5].
Qed.

(** Reading a field and replacing it by an object of the same type. *)
Lemma Field_spec F : forall o t, type_at (typeof o) F = Some t -> obj_ok o ->
  exists x, OC_SCHEMA_FIELD o F = Ret x /\ typeof x = t /\ obj_ok x /\ blocks x <= blocks o /\
  forall y, typeof y = t -> obj_ok y -> OC_SCHEMA_FIELD (put_field o F y) F = Ret y /\ typeof (put_field o F y) = typeof o /\ obj_ok (put_field o F y)
    /\ blocks (put_field o F y) = blocks o - blocks x + blocks y.
Proof.
  induction F as [|f F IH]; intros o t HT Hok.
  - injection HT as <-. exists o. cbn. split_and!; try done. intros y Hy Hyok. split_and!; try done. lia.
  - destruct o as [| | | |fs]; try done. cbn [type_at typeof OC_SCHEMA_FIELD put_field] in *. rewrite field_type in HT. destruct (field_at fs f) as [z|] eqn:Ef; [|done].
    destruct (put_at_spec fs f z z Ef Hok) as (Hz & Hbz & _). destruct (IH z t HT Hz) as (x & E1 & E2 & E3 & E4 & E5). exists x. split_and!; try done; [lia|].
    intros y Hy Hyok. destruct (E5 y Hy Hyok) as (G1 & G2 & G3 & G4). destruct (put_at_spec fs f z (put_field z F y) Ef Hok) as (_ & _ & P1 & P2 & P3 & P4).
    cbn [OC_SCHEMA_FIELD]. rewrite P1. split_and!; [done|by apply P2|by apply P3|lia].
Qed.

(** ** What reading stores *)
Section Contents.
Context `{HPool : XmlPool} {HPoolLaws : XmlPoolLaws HPool} `{HLib : AsciiLib} {HLaws : AsciiLibLaws HLib} `{HCopy : CopyLib} {HCopyLaws : CopyLibLaws HCopy}.

(** A reader of sized values stays inside of the buffer, with its size. *)
Definition confined (V : list Z) (r : outcome (bool * list Z * Z)) : Prop :=
  exists R V' S, r = Ret (R, V', S) /\ length V' = length V /\ 0 <= S <= Z.of_nat (length V).

Lemma put_front (V r : list Z) : (length r <= length V)%nat -> exists V', wr_slice V 0 r = Ret V' /\ length V' = length V.
Proof. intros H. rewrite wr_slice_in by lia. eexists. split; [done|]. apply length_inserts. Qed.

Lemma put_byte (V : list Z) x : (0 < length V)%nat -> exists V', wr V 0 x = Ret V' /\ length V' = length V.
Proof. intros H. rewrite wr_in by lia. eexists. split; [done|]. apply length_insert. Qed.

Lemma StringContent_confined c V n : 0 <= n <= Z.of_nat (length V) -> (0 < length V)%nat -> confined V (StringContent c V n).
Proof.
  intros Hn HV. unfold StringContent. destruct c as [s|].
  - cbv zeta. set (S := if decide _ then _ else _).
    assert (0 <= S <= Z.of_nat (length V)) as HS.
    { subst S. case_decide; [|lia]. pose proof (Z.mod_le (Z.of_nat (length s) + 1) (2 ^ 32) ltac:(lia) ltac:(lia)). pose proof (wrap_range 32 (Z.of_nat (length s) + 1) ltac:(lia)).
      unfold wrap in *. lia. }
    destruct (AsciiStrnCpyS S s _) as [r|] eqn:E; [|by eexists _, _, _].
    apply AsciiStrnCpyS_some in E as [_ E]. destruct (put_front V r) as (V' & -> & HV'); [lia|]. rewrite bind_ret. by eexists _, _, _.
  - destruct (put_byte V 0 HV) as (V' & -> & HV'). rewrite bind_ret. eexists _, _, _. split; [done|]. split; [done|]. lia.
Qed.

Lemma DataContent_confined c V n m : 0 <= n <= Z.of_nat (length V) -> 0 <= m <= Z.of_nat (length V) -> confined V (DataContent c V n m).
Proof.
  intros Hn Hm. unfold DataContent. destruct c as [s|]; [|eexists _, _, _; split; [done|]; split; [done|lia]].
  pose proof (Base64Decode_confined s n ltac:(lia)) as HC. destruct (Base64Decode s n) as [[st k] d] eqn:E. cbn [snd] in HC.
  destruct (put_front V d) as (V' & -> & HV'); [lia|]. rewrite bind_ret. cbv beta iota. case_decide as HD; [|by eexists _, _, _].
  eexists _, _, _. split; [done|]. split; [done|]. destruct HD as [HD HW]. rewrite HW. destruct (base64 s) as [d'|] eqn:EB.
  - destruct (decide (Z.of_nat (length d') <= n)) as [K|K].
    + rewrite (Base64Decode_decodes s n d' EB K) in E. injection E as <- <- <-. lia.
    + pose proof (Base64Decode_small s n d' EB ltac:(lia)) as KE. rewrite E in KE. cbn in KE. congruence.
  - pose proof (Base64Decode_invalid s n EB) as KE. rewrite E in KE. cbn in KE. congruence.
Qed.

Lemma Flag_confined V x : (0 < length V)%nat -> confined V (V ← wr V 0 x; Ret (true, V, 1)).
Proof. intros HV. destruct (put_byte V x HV) as (V' & -> & HV'). rewrite bind_ret. eexists _, _, _. split; [done|]. split; [done|lia]. Qed.

Lemma MultiInteger_confined t V : cast_ok PLIST_NODE_TYPE_INTEGER t = true -> (4 <= length V)%nat -> confined V (MultiInteger (text_of t) V).
Proof.
  intros HC HV. unfold MultiInteger. unfold cast_ok in HC. cbn in HC. destruct (text_of t) as [s|]; [|by rewrite andb_false_r in HC].
  destruct (put_front V (le_bytes 4 (wrap 32 (AsciiStrDecimalToUint64 s)))) as (V' & -> & HV'); [by rewrite length_le_bytes|].
  rewrite bind_ret. eexists _, _, _. split; [done|]. split; [done|lia].
Qed.

Lemma string_confined t V n : 0 <= n <= Z.of_nat (length V) -> (0 < length V)%nat -> confined V (string_value t V n).
Proof. intros H1 H2. unfold string_value. destruct (cast_ok _ t); [by apply StringContent_confined|by eexists _, _, _]. Qed.

Lemma data_confined t V n : 0 <= n <= Z.of_nat (length V) -> confined V (data_value t V n).
Proof. intros H1. unfold data_value. destruct (cast_ok _ t); [apply DataContent_confined; lia|by eexists _, _, _]. Qed.

(** The size is not read for an integer. *)
Lemma multi_confined t V n : 0 <= n <= Z.of_nat (length V) -> (0 < length V)%nat ->
  (4 <= length V)%nat \/ multi_size t = Some n -> confined V (multi_value t V n).
Proof.
  intros H1 H2 H3. unfold multi_value. unfold multi_size in H3. destruct (cast_ok PLIST_NODE_TYPE_DATA t); [by apply DataContent_confined|].
  destruct (cast_ok PLIST_NODE_TYPE_STRING t); [by apply StringContent_confined|].
  destruct (cast_ok PLIST_NODE_TYPE_INTEGER t) eqn:EC; [apply MultiInteger_confined; [done|]; destruct H3 as [?|[= <-]]; lia|].
  destruct (cast_ok PLIST_NODE_TYPE_TRUE t); [by apply Flag_confined|]. destruct (cast_ok PLIST_NODE_TYPE_FALSE t); [by apply Flag_confined|by eexists _, _, _].
Qed.

Lemma blob_confined T t V n : blob_size T t = Some n -> 0 <= n <= Z.of_nat (length V) -> (0 < length V)%nat -> confined V (blob_value T t V n).
Proof. intros HS Hn HV. destruct T; cbn in HS |- *; [by apply data_confined|by apply string_confined|apply multi_confined; auto]. Qed.

Lemma blob_size_range T t n : blob_size T t = Some n -> 0 <= n < 2 ^ 32.
Proof.
  assert (forall c k, 0 <= ContentLength c k < 2 ^ 32) as HC by (intros [s|] k; [apply wrap_range; lia|cbn; lia]).
  destruct T; cbn; unfold data_size, string_size, multi_size; repeat case_match; intros [= <-]; try apply HC; lia.
Qed.

Lemma value_confined T t V n : value_fits T n (length V) = true -> exists R V', value_of T t V n = Ret (R, V') /\ length V' = length V.
Proof.
  unfold value_fits. intros [[Hn%bool_decide_eq_true Hk%bool_decide_eq_true]%andb_true_iff HT]%andb_true_iff.
  assert (forall r, confined V r -> exists R V', ('(R, V, _) ← r; Ret (R, V)) = Ret (R, V') /\ length V' = length V) as Hs.
  { intros r (R & V' & S & -> & H & _). rewrite bind_ret. by exists R, V'. }
  unfold value_of. cbv zeta. destruct T.
  - apply bool_decide_eq_true in HT. unfold boolean_value. destruct (cast_ok PLIST_NODE_TYPE_TRUE t); [|destruct (cast_ok _ t); [|by exists false, V]].
    + destruct (put_byte V 1) as (V' & -> & HV); [lia|]. rewrite bind_ret. by exists true, V'.
    + destruct (put_byte V 0) as (V' & -> & HV); [lia|]. rewrite bind_ret. by exists true, V'.
  - unfold integer_value. destruct (cast_ok _ t); [|by exists false, V]. unfold StoreInteger. case_decide as HD; [|by exists false, V].
    destruct (put_front V (le_bytes (Z.to_nat n) (integer_of (default [] (text_of t))))) as (V' & -> & HV); [rewrite length_le_bytes; lia|]. rewrite bind_ret. by exists true, V'.
  - apply Hs, data_confined. lia.
  - apply bool_decide_eq_true in HT. apply Hs, string_confined; lia.
  - apply bool_decide_eq_true in HT. apply Hs, multi_confined; [lia|lia|left; lia].
Qed.
End Contents.

(** ** Accounting *)

(** From an object to one of the same type with at most [w] more blocks; the live
    blocks that do not belong to it are as many as before. *)
Record accounts (o : obj) (st : state) (w : Z) (o' : obj) (st' : state) : Prop := Accounts {
  acc_type : typeof o' = typeof o;
  acc_ok : obj_ok o';
  acc_asked : st.(PoolOf).(Template.Asked) <= st'.(PoolOf).(Template.Asked);
  acc_live : st'.(PoolOf).(Live) - blocks o' = st.(PoolOf).(Live) - blocks o;
  acc_blocks : blocks o' <= blocks o + w
}.
Definition accounted (o : obj) (st : state) (w : Z) (r : outcome (obj * state)) : Prop := exists o' st', r = Ret (o', st') /\ accounts o st w o' st'.

Lemma accounts_same o st st' w : obj_ok o -> st'.(PoolOf) = st.(PoolOf) -> 0 <= w -> accounts o st w o st'.
Proof. intros H E Hw. split; [done|done|by rewrite E|by rewrite E|lia]. Qed.

Lemma accounted_count o st w : obj_ok o -> 0 <= w -> accounted o st w (Ret (o, CountError st)).
Proof. intros H Hw. exists o, (CountError st). split; [done|]. by apply accounts_same. Qed.

Lemma accounted_same o st w : obj_ok o -> 0 <= w -> accounted o st w (Ret (o, st)).
Proof. intros H Hw. exists o, st. split; [done|]. by apply accounts_same. Qed.

Lemma accounts_trans o st w o1 st1 w1 o2 st2 : accounts o st w o1 st1 -> accounts o1 st1 w1 o2 st2 -> accounts o st (w + w1) o2 st2.
Proof. intros [A1 A2 A3 A4 A5] [B1 B2 B3 B4 B5]. split; [congruence|done|lia|lia|lia]. Qed.

Lemma accounts_weaken o st w w1 o1 st1 : accounts o st w o1 st1 -> w <= w1 -> accounts o st w1 o1 st1.
Proof. intros [A1 A2 A3 A4 A5] H. split; try done. lia. Qed.

Lemma accounts_count o st w o1 st1 (b : bool) : accounts o st w o1 st1 -> accounts o st w o1 (if b then st1 else CountError st1).
Proof. intros [A1 A2 A3 A4 A5]. by destruct b; split. Qed.

Lemma accounted_bind o st w w1 r (k : obj * state -> outcome (obj * state)) : accounted o st w r ->
  (forall o1 st1, accounts o st w o1 st1 -> accounted o1 st1 w1 (k (o1, st1))) -> accounted o st (w + w1) (r ≫= k).
Proof. intros (o1 & st1 & -> & H1) HK. rewrite bind_ret. destruct (HK o1 st1 H1) as (o2 & st2 & -> & H2). exists o2, st2. split; [done|]. by eapply accounts_trans. Qed.

(** A loop costs the sum of its steps. *)
Definition cost {A} (w : A -> Z) (l : list A) : Z := foldr (fun x n => w x + n) 0 l.

Lemma cost_nonneg {A} (w : A -> Z) l : (forall x, 0 <= w x) -> 0 <= cost w l.
Proof. intros H. induction l as [|x l IH]; cbn; [done|]. specialize (H x). fold (cost w l). lia. Qed.

Lemma fold_accounted {A} (f : obj * state -> A -> outcome (obj * state)) (w : A -> Z) t l : (forall x, 0 <= w x) ->
  (forall x o st, x ∈ l -> typeof o = t -> obj_ok o -> blocks o + w x < 2 ^ 30 -> accounted o st (w x) (f (o, st) x)) ->
  forall o st, typeof o = t -> obj_ok o -> blocks o + cost w l < 2 ^ 30 -> accounted o st (cost w l) (fold_ f l (o, st)).
Proof.
  intros Hw. induction l as [|x l IH]; intros Hf o st Ht Hok Hb; [by apply accounted_same|]. cbn [fold_ cost foldr] in *. fold (cost w l) in *.
  pose proof (cost_nonneg w l Hw). apply accounted_bind; [apply Hf; [by left|done|done|lia]|]. intros o1 st1 [A1 A2 A3 A4 A5].
  apply IH; [|congruence|done|lia]. intros y o2 st2 Hy. apply Hf. by right.
Qed.

(** A new object in a field. *)
Lemma accounts_put o st w F t x y st' : (forall y, typeof y = t -> obj_ok y -> OC_SCHEMA_FIELD (put_field o F y) F = Ret y /\ typeof (put_field o F y) = typeof o
    /\ obj_ok (put_field o F y) /\ blocks (put_field o F y) = blocks o - blocks x + blocks y) ->
  typeof x = t -> accounts x st w y st' -> accounts o st w (put_field o F y) st'.
Proof. intros HP Hx [A1 A2 A3 A4 A5]. destruct (HP y) as (_ & H1 & H2 & H3); [congruence|done|]. split; [done|done|done|lia|lia]. Qed.

(** *** Lists *)
Lemma replace_last_snoc (l : list obj) x y : replace_last (l ++ [x]) y = l ++ [y].
Proof. unfold replace_last. rewrite length_app. cbn. rewrite Nat.add_1_r. cbn. rewrite insert_app_r_alt, Nat.sub_diag by lia. done. Qed.

Lemma all_of_last c l x : all_of c (l ++ [x]) -> all_of c l /\ obj_ok x /\ typeof x = typeof c.
Proof. unfold all_of. induction l as [|v l IH]; cbn; [intros [[? ?] _]; by split_and!|]. intros [H1 H2]. destruct (IH H2) as (A & B & C). tauto. Qed.

Lemma last_value l : oc_list_ok l -> Values l <> None -> exists vs v, Values l = Some (vs ++ [v]) /\ last (default [] (Values l)) = Some v /\ obj_ok v
  /\ typeof v = typeof (Construct l) /\ blocks v <= list_blocks l /\
  forall v' st w st', accounts v st w v' st' -> accounts (Entries l) st w (Entries (set_last_value l v')) st'.
Proof.
  destruct l as [a c [vs|] kc ks]; [|done]. intros (Hc & Hb & (Hcount & Ha & Hall) & Hkc) _. cbn [Values default] in *.
  destruct vs as [|v vs _] using rev_ind; [cbn in Hcount; lia|]. destruct (all_of_last c vs v Hall) as (Hvs & Hv & Hvt). exists vs, v.
  assert (0 <= entry_blocks ks) as Hks by (pose proof (entry_blocks_count ks); lia). pose proof (entry_blocks_count (Some vs)) as Hevs.
  assert (forall v', list_blocks (OcList a c (Some (vs ++ [v'])) kc ks) = entry_blocks (Some vs) + 1 + blocks v' + entry_blocks ks) as EB.
  { intros v'. change (list_blocks _) with (entry_blocks (Some (vs ++ [v'])) + entry_blocks ks). by rewrite entry_blocks_snoc. }
  split; [done|]. split; [by apply last_snoc|]. split; [done|]. split; [done|]. split; [rewrite EB; lia|].
  intros v' st w st' [A1 A2 A3 A4 A5]. cbn [set_last_value fmap option_fmap option_map]. rewrite replace_last_snoc. split; cbn [typeof Construct KeyConstruct blocks]; rewrite ?EB; try done; try lia.
  change (oc_list_ok (OcList a c (Some (vs ++ [v'])) kc ks)). rewrite length_app in *. split; [done|]. split; [done|]. split.
  - split; [by rewrite length_app|]. split; [by rewrite length_app|]. apply all_of_snoc; [done|done|congruence].
  - destruct kc; [|done]. rewrite length_app in *. exact Hkc.
Qed.

Lemma last_key l k : oc_list_ok l -> Values l <> None -> KeyConstruct l = Some k -> exists B, last (default [] (Keys l)) = Some (Blob B) /\ blob_ok B /\
  forall B' st w st', accounts (Blob B) st w (Blob B') st' -> accounts (Entries l) st w (Entries (set_last_key l (Blob B'))) st' /\ Values (set_last_key l (Blob B')) <> None.
Proof.
  destruct l as [a c [vs|] kc ks]; [|done]. intros (Hc & Hb & (Hcount & Ha & Hall) & Hkc) _ [= ->]. cbn [Keys default] in *. destruct Hkc as (Hk & Hkb & Hblob & Hks).
  destruct ks as [ks|]; [|done]. destruct Hks as [Hlen Hks]. destruct ks as [|x ks _] using rev_ind; [cbn in Hlen; lia|].
  destruct (all_of_last k ks x Hks) as (Hks' & Hx & Hxt). destruct k as [| |K| |]; try done. destruct x as [| |B| |]; try done. exists B. split; [by apply last_snoc|]. split; [done|].
  intros B' st w st' [A1 A2 A3 A4 A5]. cbn [set_last_key fmap option_fmap option_map]. rewrite replace_last_snoc. split; [|done].
  assert (forall x, list_blocks (OcList a c (Some vs) (Some (Blob K)) (Some (ks ++ [x]))) = entry_blocks (Some vs) + (entry_blocks (Some ks) + 1 + blocks x)) as EB.
  { intros x. change (list_blocks _) with (entry_blocks (Some vs) + entry_blocks (Some (ks ++ [x]))). by rewrite entry_blocks_snoc. }
  split; cbn [typeof Construct KeyConstruct blocks]; rewrite ?EB; try done; try (cbn [blocks] in *; lia).
  change (oc_list_ok (OcList a c (Some vs) (Some (Blob K)) (Some (ks ++ [Blob B'])))). split; [done|]. split; [done|]. split; [done|]. split; [done|]. split; [done|]. split; [done|].
  rewrite length_app in *. split; [done|]. apply (all_of_snoc (Blob K)); [done|done|]. by rewrite A1.
Qed.

(** ** Merging *)

(** The number of elements. *)
Fixpoint weight (t : xml) : Z := match t with Elem _ _ _ ts => 1 + match ts with Some l => foldr (fun t n => weight t + n) 0 l | None => 0 end end.

Lemma weight_kids t : weight t = 1 + cost weight (kids t).
Proof. by destruct t as [name attrs text [ts|]]. Qed.

Lemma weight_pos t : 1 <= weight t.
Proof.
  revert t. fix IH 1. intros [name attrs text [ts|]]; cbn; [|done]. assert (0 <= foldr (fun t n => weight t + n) 0 ts); [|lia].
  induction ts as [|t ts IHts]; cbn; [done|]. specialize (IH t). lia.
Qed.

(** A bound of the blocks for an element and for the entries of a dictionary. *)
Definition budget (t : xml) : Z := 5 * weight t - 4.
Definition entry_budget (e : xml * xml) : Z := 5 * (weight e.1 + weight e.2) - 4.

Lemma budget_pos t : 1 <= budget t.
Proof. unfold budget. pose proof (weight_pos t). lia. Qed.

Lemma entries_budget t : cost entry_budget (entries t) <= budget t - 1.
Proof.
  unfold budget, entries. rewrite weight_kids. assert (cost entry_budget (pairs (kids t)) <= 5 * cost weight (kids t)); [|lia].
  generalize (kids t). fix IH 1. intros [|k [|v ts]]; [done|cbn; pose proof (weight_pos k); lia|]. specialize (IH ts). unfold cost in *. cbn in *.
  unfold entry_budget at 1. cbn. lia.
Qed.

Lemma kids_budget t : cost (fun t => 5 * weight t) (kids t) = budget t - 1.
Proof. unfold budget. rewrite weight_kids. assert (forall l, cost (fun t => 5 * weight t) l = 5 * cost weight l) as ->; [|lia]. intros l. unfold cost. induction l; cbn in *; lia. Qed.

Section Merging.
Context `{HPool : XmlPool} {HPoolLaws : XmlPoolLaws HPool} `{HLib : AsciiLib} {HLaws : AsciiLibLaws HLib} `{HCopy : CopyLib} {HCopyLaws : CopyLibLaws HCopy}
  `{HLayout : Layout} `{HFlags : BuildFlags}.

Lemma StoreBlob_ok B V n : blob_ok B -> length V = length (OC_BLOB_GET B) -> 0 <= n <= Z.of_nat (length V) ->
  blob_ok (StoreBlob B V n) /\ length (StoreBlob B V n).(Value) = length B.(Value) /\ one (StoreBlob B V n).(DynValue) = one B.(DynValue).
Proof.
  unfold blob_ok, StoreBlob, OC_BLOB_GET. destruct (DynValue B) as [d|]; cbn; intros (H1 & H2 & H3 & H4) HV Hn.
  - split_and!; try done; lia.
  - split_and!; try done; lia.
Qed.

(** A blob after an allocation and what was stored then. *)
Lemma blob_accounts B st s B' B'' : s.(Live) - one B'.(DynValue) = st.(PoolOf).(Live) - one B.(DynValue) -> st.(PoolOf).(Template.Asked) <= s.(Template.Asked) ->
  B'.(Value) = B.(Value) -> blob_ok B'' -> length B''.(Value) = length B'.(Value) -> one B''.(DynValue) = one B'.(DynValue) ->
  accounts (Blob B) st 1 (Blob B'') (set_Pool st s).
Proof.
  intros H1 H2 H3 H4 H5 H6. assert (0 <= one B.(DynValue) /\ one B''.(DynValue) <= 1) as HB by (destruct (DynValue B), (DynValue B''); cbn; lia).
  split; cbn; [by rewrite H5, H3|done|done|lia|lia].
Qed.

Lemma merge_blob_accounted F T o t st n : type_at (typeof o) F = Some (TBlob n) -> obj_ok o -> accounted o st 1 (merge_blob F T o t st).
Proof.
  intros HT Hok. unfold merge_blob. destruct (blob_size T t) as [k|] eqn:EK; [|by apply accounted_count].
  destruct (Field_spec F o _ HT Hok) as (x & -> & Ex & Hx & _ & HP). destruct x as [| |B| |]; try done. rewrite bind_ret. cbv beta iota.
  pose proof (blob_size_range _ _ _ EK). destruct (BlobAllocate_spec st.(PoolOf) B k Hx) as (s & B' & r & -> & H1 & H2 & H3 & H4 & H5 & H6); [done|].
  rewrite bind_ret. cbv beta iota. destruct r; cbn [negb].
  - destruct (H5 eq_refl) as (E1 & E2 & E3). destruct (blob_confined T t (OC_BLOB_GET B') k EK) as (R & V & S & E & HV & HS); [lia|done|]. rewrite E1, E, bind_ret. cbv beta iota zeta.
    rewrite <- HV in HS. destruct (StoreBlob_ok B' V S H1 HV HS) as (G1 & G2 & G3). eexists _, _. split; [done|]. apply accounts_count.
    apply (accounts_put o st 1 F (TBlob n) (Blob B)); [exact HP|exact Ex|]. by eapply blob_accounts.
  - eexists _, _. split; [done|]. apply (accounts_count _ _ _ _ _ false). apply (accounts_put o st 1 F (TBlob n) (Blob B)); [exact HP|exact Ex|]. by eapply blob_accounts.
Qed.

(** Field [F] holds the bytes: it consists of them, or it is a blob with them. *)
Definition holds (o : obj) (F : path) (w : list Z) : Prop :=
  OC_SCHEMA_FIELD o F = Ret (Bytes w) \/
  exists B, OC_SCHEMA_FIELD o F = Ret (Blob B) /\ B.(Template.Size) = Z.of_nat (length w) /\ take (length w) (OC_BLOB_GET B) = w.

Lemma take_front (V w V' : list Z) : wr_slice V 0 w = Ret V' -> (length w <= length V)%nat -> take (length w) V' = w.
Proof.
  intros E Hw. rewrite wr_slice_in in E by lia. injection E as <-. apply list_eq. intros i. destruct (decide (i < length w)%nat) as [Hi|Hi].
  - rewrite lookup_take_lt by done. rewrite lookup_inserts, decide_True; [by rewrite Nat.sub_0_r|lia|cbn; lia].
  - rewrite lookup_take_ge by lia. symmetry. apply lookup_ge_None_2. lia.
Qed.

(** What a reader of blobs stores is in the blob, if the pool meets all requests. *)
Lemma merge_blob_stores F T t o st B n w : all_met -> OC_SCHEMA_FIELD o F = Ret (Blob B) -> blob_ok B -> readable B -> blob_size T t = Some n ->
  (forall V, n <= Z.of_nat (length V) -> (0 < length V)%nat -> exists V', blob_value T t V n = Ret (true, V', Z.of_nat (length w)) /\ length V' = length V /\ take (length w) V' = w) ->
  exists B' st', merge_blob F T o t st = Ret (put_field o F (Blob B'), st') /\ blob_ok B' /\ length B'.(Value) = length B.(Value) /\ st'.(ErrorCount) = st.(ErrorCount) /\
    B'.(Template.Size) = Z.of_nat (length w) /\ take (length w) (OC_BLOB_GET B') = w.
Proof.
  intros Hmet E HB HR Hn HV. unfold merge_blob. rewrite Hn, E, bind_ret. cbv beta iota. pose proof (blob_size_range T t n Hn) as Hr.
  destruct (BlobAllocate_spec st.(PoolOf) B n HB Hr) as (q & B' & r & -> & H1 & H2 & H3 & H4 & H5 & H6). rewrite bind_ret. cbv beta iota.
  destruct r; [|by destruct (H6 eq_refl) as [_ []]]. cbn [negb]. destruct (H5 eq_refl) as (E1 & E2 & E3). rewrite E1.
  destruct (HV (OC_BLOB_GET B') E2 E3) as (V & -> & HL & HT). rewrite bind_ret. cbv beta iota zeta.
  assert (length w <= length V)%nat as Hw by (rewrite <- HT at 1; rewrite length_take; lia).
  destruct (StoreBlob_ok B' V (Z.of_nat (length w)) H1 HL) as (G1 & G2 & _); [lia|].
  exists (StoreBlob B' V (Z.of_nat (length w))). eexists. split; [done|]. split; [done|]. split; [by rewrite G2, H2|]. split; [done|]. unfold StoreBlob, OC_BLOB_GET. by destruct (DynValue B').
Qed.

(** Strings, with their terminator. *)
Lemma string_stores t V : cast_ok PLIST_NODE_TYPE_STRING t = true -> Z.of_nat (length (default [] (text_of t))) < ASCII_RSIZE_MAX ->
  ContentLength (text_of t) 1 <= Z.of_nat (length V) -> (0 < length V)%nat ->
  let w := default [] (text_of t) ++ [0] in
  exists V', string_value t V (ContentLength (text_of t) 1) = Ret (true, V', Z.of_nat (length w)) /\ length V' = length V /\ take (length w) V' = w.
Proof.
  intros HC Hs Hn HV. unfold string_value. rewrite HC. unfold StringContent, ContentLength, ASCII_RSIZE_MAX in *. destruct (text_of t) as [s|]; cbn [default] in *.
  - cbv zeta. unfold id in *. rewrite (wrap_small 32) in * by lia. rewrite decide_True by lia. rewrite length_app. cbn [length].
    destruct (AsciiStrnCpyS _ s _) as [r|] eqn:EA; [|by apply AsciiStrnCpyS_fits in EA; [..|rewrite Nat2Z.id, firstn_all; lia]; unfold ASCII_RSIZE_MAX; lia].
    apply AsciiStrnCpyS_some in EA as [-> _]. rewrite Nat2Z.id, firstn_all. destruct (put_front V (s ++ [0])) as (V' & EW & HL); [rewrite length_app; cbn; lia|].
    rewrite EW, bind_ret. exists V'. split; [do 2 f_equal; lia|]. split; [done|]. pose proof (take_front V (s ++ [0]) V' EW) as K. rewrite length_app in K. apply K. cbn. lia.
  - rewrite wr_in by lia. rewrite bind_ret. eexists. split; [done|]. split; [apply length_insert|]. destruct V; [cbn in HV; lia|done].
Qed.

(** Data, decoded. *)
Lemma data_stores t V n m d : match text_of t with Some s => base64 s = Some d | None => d = [] end -> 
  Z.of_nat (length d) <= n < 2 ^ 32 -> n <= Z.of_nat (length V) ->
  exists V', DataContent (text_of t) V n m = Ret (true, V', Z.of_nat (length d)) /\ length V' = length V /\ take (length d) V' = d.
Proof.
  intros Hd Hn HV. unfold DataContent. destruct (text_of t) as [s|]; [|subst d; by exists V].
  rewrite (Base64Decode_decodes s n d Hd) by lia. destruct (put_front V d) as (V' & EW & HL); [lia|]. rewrite EW, bind_ret. cbv beta. rewrite (wrap_small 32) by lia.
  rewrite decide_True by done. exists V'. split; [done|]. split; [done|]. apply (take_front V d V' EW). lia.
Qed.

Lemma merge_value_accounted F n T o t st k : type_at (typeof o) F = Some (TBytes k) -> value_fits T n k = true -> obj_ok o -> accounted o st 1 (merge_value F n T o t st).
Proof.
  intros HT Hfit Hok. unfold merge_value. destruct (Field_spec F o _ HT Hok) as (x & -> & Ex & Hx & _ & HP). destruct x as [V| | | |]; try done. injection Ex as <-.
  rewrite bind_ret. cbv beta iota. destruct (value_confined T t V n Hfit) as (R & V' & -> & HV). rewrite bind_ret. cbv beta iota zeta. eexists _, _. split; [done|].
  apply accounts_count. apply (accounts_put o st 1 F (TBytes (length V)) (Bytes V)); [exact HP|done|]. split; [by cbn; rewrite HV|done|done|done|done].
Qed.

(** A list with an entry. *)
Definition has_entry (o : obj) (F : path) : Prop := exists l, OC_SCHEMA_FIELD o F = Ret (Entries l) /\ Values l <> None.

Lemma list_field F o c kc : type_at (typeof o) F = Some (TList c kc) -> obj_ok o -> exists l, OC_SCHEMA_FIELD o F = Ret (Entries l) /\ Construct l = c /\ KeyConstruct l = kc
  /\ oc_list_ok l /\ list_blocks l <= blocks o /\ forall l' st w st', accounts (Entries l) st w (Entries l') st' ->
  OC_SCHEMA_FIELD (put_field o F (Entries l')) F = Ret (Entries l') /\ accounts o st w (put_field o F (Entries l')) st'.
Proof.
  intros HT Hok. destruct (Field_spec F o _ HT Hok) as (x & E & Ex & Hx & Hb & HP). destruct x as [| | |l|]; try done. injection Ex as Ec Ek. exists l. split_and!; try done.
  intros l' st w st' HA. assert (typeof (Entries l) = TList c kc) as ET by (cbn; by rewrite Ec, Ek). split; [|by eapply (accounts_put o st w F (TList c kc) (Entries l))].
  destruct HA as [A1 A2 _ _ _]. apply HP; [congruence|done].
Qed.

Lemma NewEntry_accounts F o st c kc : type_at (typeof o) F = Some (TList c kc) -> obj_ok o -> blocks o < 2 ^ 30 ->
  exists o' st' r, NewEntry o F (bool_decide (kc <> None)) st = Ret (o', st', r) /\ accounts o st 4 o' st' /\ (r = true -> has_entry o' F).
Proof.
  intros HT Hok Hb. destruct (list_field F o c kc HT Hok) as (l & E & Ec & Ek & Hl & Hlb & HP). unfold NewEntry. rewrite E, bind_ret. cbv beta iota.
  destruct (ListEntryAllocate_spec st.(PoolOf) l (bool_decide (kc <> None)) Hl) as (s & l' & r & -> & H1 & H2 & H3 & H4 & H5); [by rewrite Ek|lia|].
  rewrite bind_ret. cbv beta iota. assert (Construct l' = Construct l /\ KeyConstruct l' = KeyConstruct l /\ (r = true -> Values l' <> None)) as (C1 & C2 & C3).
  { destruct r; [|by destruct H5 as [-> _]]. destruct l, l'. destruct H5 as (-> & -> & -> & _). done. }
  destruct (HP l' st 4 (set_Pool st s)) as [HP1 HP2]; [split; cbn; [by rewrite C1, C2|done|done|lia|lia]|].
  eexists _, _, _. split; [done|]. split; [done|]. intros Hr. exists l'. split; [done|by apply C3].
Qed.

Lemma StoreKey_accounts F o st c k Key : type_at (typeof o) F = Some (TList c (Some k)) -> obj_ok o -> has_entry o F ->
  exists o' st', StoreKey o F Key st = Ret (o', st') /\ accounts o st 1 o' st' /\ has_entry o' F.
Proof.
  intros HT Hok (l & E & HV). destruct (list_field F o c _ HT Hok) as (l' & E' & Ec & Ek & Hl & _ & HP). rewrite E in E'. injection E' as <-. unfold StoreKey. rewrite E, bind_ret. cbv beta iota.
  destruct (last_key l k Hl HV Ek) as (B & -> & HB & HL). cbv zeta. set (n := wrap 32 (Z.of_nat (length Key) + 1)). assert (0 <= n < 2 ^ 32) as Hn by (apply wrap_range; lia).
  destruct (BlobAllocate_spec st.(PoolOf) B n HB Hn) as (s & B' & r & -> & H1 & H2 & H3 & H4 & H5 & H6). rewrite bind_ret. cbv beta iota. destruct r; cbn [negb].
  - destruct (H5 eq_refl) as (E1 & E2 & E3).
    assert (exists V, (match AsciiStrnCpyS n Key (n -[32] 1) with Some r => wr_slice (OC_BLOB_GET B') 0 r | None => Ret (OC_BLOB_GET B') end) = Ret V /\ length V = length (OC_BLOB_GET B')) as (V & -> & HVl).
    { destruct (AsciiStrnCpyS n Key _) as [x|] eqn:EA; [|by eexists]. apply AsciiStrnCpyS_some in EA as [_ EA]. apply put_front. lia. }
    rewrite bind_ret. cbv beta. destruct (StoreBlob_ok B' V B'.(Template.Size) H1 HVl) as (G1 & G2 & G3); [rewrite E1, HVl; lia|].
    destruct (HL (StoreBlob B' V B'.(Template.Size)) st 1 (set_Pool st s)) as [HA HV']; [by eapply blob_accounts|]. destruct (HP _ _ _ _ HA) as [HP1 HP2].
    eexists _, _. split; [done|]. split; [done|]. by eexists.
  - destruct (HL B' st 1 (set_Pool st s)) as [HA HV']; [by eapply blob_accounts|]. destruct (HP _ _ _ _ HA) as [HP1 HP2].
    eexists _, _. split; [done|]. split; [by apply (accounts_count _ _ _ _ _ false)|]. by eexists.
Qed.

Lemma ApplyLast_accounted F o st c kc w A : type_at (typeof o) F = Some (TList c kc) -> obj_ok o -> has_entry o F -> blocks o + w < 2 ^ 30 ->
  (forall v st, typeof v = typeof c -> obj_ok v -> blocks v + w < 2 ^ 30 -> accounted v st w (A v st)) -> accounted o st w (ApplyLast A o F st).
Proof.
  intros HT Hok (l & E & HV) Hb HA. destruct (list_field F o c _ HT Hok) as (l' & E' & Ec & Ek & Hl & Hlb & HP). rewrite E in E'. injection E' as <-. unfold ApplyLast.
  rewrite E, bind_ret. cbv beta iota. destruct (last_value l Hl HV) as (vs & v & _ & -> & Hv & Hvt & Hvb & HL).
  destruct (HA v st) as (v' & st' & -> & HAcc); [congruence|done|lia|]. rewrite bind_ret. cbv beta iota. eexists _, _. split; [done|]. apply HP. by apply HL.
Qed.

Lemma push_accounted F K m o t st c kc w : type_at (typeof o) F = Some (TList c kc) -> obj_ok o -> bool_decide (kc <> None) = bool_decide (K <> None) -> 0 <= w ->
  blocks o + ((if K then 5 else 4) + w) < 2 ^ 30 -> (forall v st, typeof v = typeof c -> obj_ok v -> blocks v + w < 2 ^ 30 -> accounted v st w (m v t st)) ->
  accounted o st ((if K then 5 else 4) + w) (push_entry F K m o t st).
Proof.
  intros HT Hok HK Hw Hb HA. unfold push_entry. rewrite <- HK. destruct (NewEntry_accounts F o st c kc HT Hok) as (o1 & st1 & r & -> & H1 & H2); [destruct K; lia|].
  rewrite bind_ret. cbv beta iota. pose proof H1 as [A1 A2 A3 A4 A5]. destruct r; cbn [negb].
  2: { eexists _, _. split; [done|]. apply (accounts_count _ _ _ _ _ false). eapply accounts_weaken; [done|]. destruct K; lia. }
  specialize (H2 eq_refl). destruct K as [key|].
  - destruct kc as [k|]; [|by rewrite bool_decide_false, bool_decide_true in HK by (tauto || done)].
    destruct (StoreKey_accounts F o1 st1 c k key) as (o2 & st2 & -> & H3 & H4); [congruence|done|done|]. rewrite bind_ret. cbv beta iota. pose proof H3 as [B1 B2 B3 B4 B5].
    destruct (ApplyLast_accounted F o2 st2 c (Some k) w (fun v => m v t)) as (o3 & st3 & -> & H5); [congruence|done|done|lia|done|]. eexists _, _. split; [done|].
    replace (5 + w) with ((4 + 1) + w) by lia. eapply accounts_trans; [|done]. by eapply accounts_trans.
  - rewrite bind_ret. cbv beta iota. destruct (ApplyLast_accounted F o1 st1 c kc w (fun v => m v t)) as (o3 & st3 & -> & H5); [congruence|done|done|lia|done|].
    eexists _, _. split; [done|]. by eapply accounts_trans.
Qed.

Lemma accounted_weaken o st w w1 r : accounted o st w r -> w <= w1 -> accounted o st w1 r.
Proof. intros (o' & st' & -> & H) Hw. exists o', st'. split; [done|]. by eapply accounts_weaken. Qed.

(** Every schema that fits. *)
Lemma merge_accounted i : forall o t st, fits i (typeof o) = true -> obj_ok o -> blocks o + budget t < 2 ^ 30 -> accounted o st (budget t) (merge i o t st).
Proof.
  induction i as [l IH|F n T|F T|F [N T O i] IH|F [N T O i] IH] using info_ind'; intros o t st HF Hok Hb; pose proof (budget_pos t) as Hpos; cbn [merge fits] in *.
  - unfold merge_dict. pose proof (entries_budget t) as HE. set (D := map _ l).
    assert (forall d, d ∈ D -> exists s, s ∈ l /\ d = (s, merge (SchemaInfo s))) as HD.
    { intros d (s & -> & Hs)%list_elem_of_fmap. exists s. split; [done|]. by destruct s. }
    assert (accounted o st (budget t - 1) (fold_ (merge_entry D) (entries t) (o, st))) as (o1 & st1 & -> & H1).
    { eapply accounted_weaken; [|exact HE]. eapply (fold_accounted _ entry_budget (typeof o)); [| |done|done|lia].
      - intros [k v]. unfold entry_budget. cbn. pose proof (weight_pos k). pose proof (weight_pos v). lia.
      - intros [k v] o2 st2 _ Ht2 Hok2 Hb2. unfold merge_entry. cbn [fst snd]. unfold entry_budget in Hb2 |- *. cbn [fst snd] in *. pose proof (weight_pos k). pose proof (weight_pos v).
        destruct (key_of k) as [key|]; [|by apply accounted_count; [|lia]]. case_decide; [by apply accounted_same; [|lia]|].
        destruct (list_find _ D) as [[j d]|] eqn:EL; [|by apply accounted_count; [|lia]]. apply list_find_Some in EL as (EL & _).
        destruct (HD d) as (s & Hs & ->); [by eapply list_elem_of_lookup_2|]. destruct (cast_ok _ v); [|by apply accounted_count; [|lia]].
        rewrite Forall_forall in IH. eapply accounted_weaken; [apply (IH s Hs)|unfold budget; lia]; [|done|unfold budget; lia].
        rewrite Ht2. pose proof (proj1 (List.forallb_forall _ _) HF s (proj1 (list_elem_of_In _ _) Hs)) as K. by destruct s. }
    rewrite bind_ret. cbv beta iota. eexists _, _. split; [done|]. apply (accounts_weaken _ _ (budget t - 1)); [|lia].
    destruct DebugCode; [|done]. clear - H1. revert st1 H1. induction (fst <$> D) as [|s L IHL]; intros st1 H1; [done|]. cbn [foldl]. apply IHL. unfold count_missing.
    by apply (accounts_count _ _ _ _ _ (_ || _)).
  - destruct (type_at _ F) as [[k| | | |]|] eqn:ET; try done. eapply accounted_weaken; [by eapply merge_value_accounted|done].
  - destruct (type_at _ F) as [[|  |k| |]|] eqn:ET; try done. eapply accounted_weaken; [by eapply merge_blob_accounted|done].
  - destruct (type_at _ F) as [[| | |c [kc|]|]|] eqn:ET; try done. unfold merge_map. pose proof (entries_budget t) as HE. apply (accounted_weaken _ _ (cost entry_budget (entries t))); [|lia].
    eapply (fold_accounted _ entry_budget (typeof o)); [| |done|done|lia].
    + intros [k v]. unfold entry_budget. cbn. pose proof (weight_pos k). pose proof (weight_pos v). lia.
    + intros [k v] o2 st2 _ Ht2 Hok2 Hb2. unfold merge_map_entry. cbn [fst snd]. unfold entry_budget in Hb2 |- *. cbn [fst snd] in *. pose proof (weight_pos k). pose proof (weight_pos v).
      destruct (key_of k) as [key|]; [|by apply accounted_count; [|lia]]. case_decide; [by apply accounted_count; [|lia]|]. case_decide; [by apply accounted_same; [|lia]|].
      destruct (cast_ok _ v); [|by apply accounted_count; [|lia]]. rewrite <- Ht2 in ET.
      eapply accounted_weaken; [apply (push_accounted F (Some key) _ o2 v st2 c (Some kc) (budget v) ET Hok2); [done|pose proof (budget_pos v); lia|cbv iota; unfold budget; lia|]|cbv iota; unfold budget; lia].
      intros x st3 Hx Hxok Hxb. cbn [SchemaInfo] in IH. apply IH; [by rewrite Hx|done|done].
  - destruct (type_at _ F) as [[| | |c [kc|]|]|] eqn:ET; try done. unfold merge_array. pose proof (kids_budget t) as HE. apply (accounted_weaken _ _ (cost (fun t => 5 * weight t) (kids t))); [|lia].
    eapply (fold_accounted _ (fun t => 5 * weight t) (typeof o)); [| |done|done|lia].
    + intros v. cbn. pose proof (weight_pos v). lia.
    + intros v o2 st2 _ Ht2 Hok2 Hb2. cbv beta in Hb2 |- *. unfold merge_array_child. pose proof (weight_pos v). destruct (cast_ok _ v); [|by apply accounted_count; [|lia]]. rewrite <- Ht2 in ET.
      eapply accounted_weaken; [apply (push_accounted F None _ o2 v st2 c None (budget v) ET Hok2); [done|pose proof (budget_pos v); lia|cbv iota; unfold budget; lia|]|cbv iota; unfold budget; lia].
      intros x st3 Hx Hxok Hxb. cbn [SchemaInfo] in IH. apply IH; [by rewrite Hx|done|done].
Qed.
End Merging.

(** ** Properties *)
Section Properties.
Context `{HPool : XmlPool} {HPoolLaws : XmlPoolLaws HPool} `{HLib : AsciiLib} {HLaws : AsciiLibLaws HLib} `{HCopy : CopyLib} {HCopyLaws : CopyLibLaws HCopy}.

(** C31: reading a string of fewer than 1000000 characters into a blob whose memory is
    all there, with a pool that meets every request, stores the string: the blob has the
    size of the string with its terminator, its memory (of its own or from the pool)
    starts with the string and a zero, and no error is counted. *)
Theorem ParseSerializedBlob_string h b p attrs s F o B st : all_met -> stands h b p (Elem (str "string") attrs (Some s) None) ->
  obj_ok o -> type_at (typeof o) F = Some (TBlob (length B.(Value))) -> OC_SCHEMA_FIELD o F = Ret (Blob B) -> readable B ->
  Z.of_nat (length s) < ASCII_RSIZE_MAX ->
  exists o' st' B', ParseSerializedBlob h b F OC_SCHEMA_BLOB_STRING o p st = Ret (o', st') /\ OC_SCHEMA_FIELD o' F = Ret (Blob B')
    /\ B'.(Template.Size) = Z.of_nat (length s) + 1 /\ take (S (length s)) (OC_BLOB_GET B') = s ++ [0] /\ st'.(ErrorCount) = st.(ErrorCount).
Proof.
  intros Hmet HS Hok HT E HR Hs. rewrite (ParseSerializedBlob_merges h b F _ o p _ st HS).
  destruct (Field_spec F o _ HT Hok) as (x & E' & Ex & Hx & _ & HP). rewrite E in E'. injection E' as <-.
  destruct (merge_blob_stores F OC_SCHEMA_BLOB_STRING (Elem (str "string") attrs (Some s) None) o st B _ (s ++ [0]) Hmet E Hx HR eq_refl) as (B' & st' & EM & HB & HV & HE & HSz & HTk).
  - intros V H1 H2. exact (string_stores (Elem (str "string") attrs (Some s) None) V eq_refl Hs H1 H2).
  - eexists _, _, B'. split; [exact EM|]. split; [apply HP; [cbn; by rewrite HV|done]|]. rewrite length_app in *. cbn in *. rewrite Nat.add_1_r in *. split; [lia|]. by split.
Qed.
End Properties.

Definition string_heap : heap := Heap {[0 := leaf (str "string") (Some (Text (str "hello")))]} ∅ ∅ ∅ 1.
Definition string_object : obj := Struct [("Path"%string, Blob sample_blob)].

Lemma string_stands : stands string_heap [] 0 (Elem (str "string") None (Some (str "hello")) None).
Proof. by eapply (stands_leaf _ _ 0). Qed.

Lemma ParseSerializedBlob_string_witness :
  exists o' st' B', @ParseSerializedBlob sample_pool sample_lib sample_copy string_heap [] ["Path"%string] OC_SCHEMA_BLOB_STRING string_object 0 (State (Pool 1 0) (Some 0)) = Ret (o', st')
    /\ OC_SCHEMA_FIELD o' ["Path"%string] = Ret (Blob B') /\ B'.(Template.Size) = 6 /\ take 6 (OC_BLOB_GET B') = str "hello" ++ [0] /\ st'.(ErrorCount) = Some 0.
Proof.
  apply (@ParseSerializedBlob_string sample_pool sample_pool_laws sample_lib sample_lib_laws sample_copy sample_copy_laws string_heap [] 0 None (str "hello") ["Path"%string] string_object sample_blob
    (State (Pool 1 0) (Some 0))); [by intros k n|exact string_stands| |reflexivity|reflexivity|by vm_compute|by vm_compute].
  vm_compute. repeat split; intros; discriminate.
Defined.
End SerializeSafety.
