(* ===== verification/SerializeStore.v ===== *)
(** * What reading by a schema stores

    The entry of a schema for a path of keys ([entry_at]), the element of a document
    for it ([element_at]) and the bytes that the element means for the entry
    ([meaning]). When an element is merged by a schema whose entries have the exact
    sizes of their fields ([exact]) and share no memory ([pairwise_apart]), the field
    of the entry holds these bytes afterwards. *)
From Stdlib Require Import Ascii String.
From stdpp Require Import gmap strings.
From S2P Require Import Prelude Xml Plist Template Serialize SerializeSpec SerializeFrame SerializeSafety.

Module SerializeStore.
Import Xml Plist Template Serialize SerializeSpec SerializeFrame SerializeSafety.

(** ** Paths of keys *)

(** A key that starts with a hash names no entry, it is a comment. *)
Fixpoint entry_at (i : OC_SCHEMA_INFO) (ks : list (list Z)) : option OC_SCHEMA_INFO :=
  match ks with
  | [] => Some i
  | k :: ks =>
      match i with
      | SchemaDict l =>
          if decide (head k = Some HASH) then None else
          match list_find (fun s => SchemaName s = Some k) l with Some (_, s) => entry_at (SchemaInfo s) ks | None => None end
      | _ => None
      end
  end.

(** The value of a key that a dictionary has exactly once. *)
Definition lookup_key (t : xml) (k : list Z) : option xml :=
  match filter (fun e => key_of e.1 = Some k) (entries t) with [(_, v)] => Some v | _ => None end.

Fixpoint element_at (t : xml) (ks : list (list Z)) : option xml :=
  match ks with
  | [] => Some t
  | k :: ks =>
      if cast_ok PLIST_NODE_TYPE_DICT t then
        match lookup_key t k with Some v => element_at v ks | None => None end
      else None
  end.

(** ** Meanings *)
Section Meaning.
Context `{HLib : AsciiLib} `{HCopy : CopyLib}.

Definition data_meaning (t : xml) : option (list Z) := match text_of t with Some s => base64 s | None => Some [] end.

(** The bytes that an element means: one byte for a boolean, an integer in all bytes of
    its field, data of exactly the size of a field of fixed size, or of any size for a
    blob, and a string with its terminator. *)
Definition meaning (i : OC_SCHEMA_INFO) (t : xml) : option (list Z) :=
  match i with
  | SchemaValue _ _ OC_SCHEMA_VALUE_BOOLEAN =>
      if cast_ok PLIST_NODE_TYPE_TRUE t then Some [1] else if cast_ok PLIST_NODE_TYPE_FALSE t then Some [0] else None
  | SchemaValue _ n OC_SCHEMA_VALUE_INTEGER =>
      if cast_ok PLIST_NODE_TYPE_INTEGER t then Some (le_bytes (Z.to_nat n) (integer_of (default [] (text_of t)))) else None
  | SchemaValue _ n (OC_SCHEMA_VALUE_DATA | OC_SCHEMA_VALUE_MDATA) =>
      if cast_ok PLIST_NODE_TYPE_DATA t then
        match data_meaning t with Some d => if decide (Z.of_nat (length d) = n) then Some d else None | None => None end
      else None
  | SchemaBlob _ OC_SCHEMA_BLOB_STRING =>
      if cast_ok PLIST_NODE_TYPE_STRING t && bool_decide (Z.of_nat (length (default [] (text_of t))) < ASCII_RSIZE_MAX)
      then Some (default [] (text_of t) ++ [0]) else None
  | SchemaBlob _ (OC_SCHEMA_BLOB_DATA | OC_SCHEMA_BLOB_MDATA) =>
      if cast_ok PLIST_NODE_TYPE_DATA t && bool_decide (Z.of_nat (length (default [] (text_of t))) < 2 ^ 32) then data_meaning t else None
  | _ => None
  end.
End Meaning.

(** The entries have the exact sizes of the fields of an object, one byte for a boolean
    and 1, 2, 4 or 8 bytes for an integer; the blobs of the object can be read. The
    lists of the object are empty, and the schema of their values fits in the same way. *)
Fixpoint exact (o : obj) (i : OC_SCHEMA_INFO) : bool :=
  match i with
  | SchemaDict l => forallb (fun s => match s with Schema _ _ _ i => exact o i end) l
  | SchemaValue F n T =>
      match OC_SCHEMA_FIELD o F with
      | Ret (Bytes V) =>
          bool_decide (n = Z.of_nat (length V)) && bool_decide (n < 2 ^ 32) &&
          match T with
          | OC_SCHEMA_VALUE_BOOLEAN => bool_decide (n = 1)
          | OC_SCHEMA_VALUE_INTEGER => bool_decide (n ∈ [8; 4; 2; 1])
          | _ => true
          end
      | _ => false
      end
  | SchemaBlob F _ => match OC_SCHEMA_FIELD o F with Ret (Blob B) => bool_decide (readable B) | _ => false end
  | SchemaMap F (Schema _ _ _ i) | SchemaArray F (Schema _ _ _ i) =>
      match OC_SCHEMA_FIELD o F with Ret (Entries (OcList _ c None _ None)) => exact c i | _ => false end
  end.

(** An entry for values takes any element, an entry for a dictionary or
    a map a dictionary, an entry for an array an array. *)
Definition node_type (s : OC_SCHEMA) : bool :=
  match SchemaInfo s with
  | SchemaDict _ => bool_decide (SchemaType s = PLIST_NODE_TYPE_DICT)
  | SchemaValue _ _ _ | SchemaBlob _ _ => bool_decide (SchemaType s = PLIST_NODE_TYPE_ANY)
  | SchemaMap _ _ => bool_decide (SchemaType s = PLIST_NODE_TYPE_DICT)
  | SchemaArray _ _ => bool_decide (SchemaType s = PLIST_NODE_TYPE_ARRAY)
  end.
Fixpoint node_types (i : OC_SCHEMA_INFO) : bool :=
  match i with
  | SchemaDict l => forallb (fun s => node_type s && match s with Schema _ _ _ i => node_types i end) l
  | SchemaValue _ _ _ | SchemaBlob _ _ => true
  | SchemaMap _ (Schema _ _ _ i) | SchemaArray _ (Schema _ _ _ i) => node_types i
  end.

(** The entry is one for the field: for its bytes, or for an array that the element is. *)
Definition is_value (i : OC_SCHEMA_INFO) (F : path) : Prop := match i with SchemaValue G _ _ | SchemaBlob G _ => G = F | _ => False end.
Definition reads_into (i : OC_SCHEMA_INFO) (F : path) (t : xml) : Prop :=
  is_value i F \/ exists s, i = SchemaArray F s /\ cast_ok PLIST_NODE_TYPE_ARRAY t = true.

(** ** Entries of a dictionary *)
Lemma filter_single {A} (P : A -> Prop) `{!forall x, Decision (P x)} (l : list A) x : filter P l = [x] ->
  exists pre post, l = pre ++ x :: post /\ P x /\ Forall (fun y => ~ P y) pre /\ Forall (fun y => ~ P y) post.
Proof.
  induction l as [|y l IH]; [done|]. rewrite filter_cons. case_decide as Hy.
  - intros [= -> E]. exists [], l. split; [done|]. split; [done|]. split; [constructor|]. apply Forall_forall. intros z Hz HP.
    assert (z ∈ filter P l) as K by (apply list_elem_of_filter; done). rewrite E in K. by apply not_elem_of_nil in K.
  - intros E. destruct (IH E) as (pre & post & -> & H1 & H2 & H3). exists (y :: pre), post. split; [done|]. split; [done|]. by split; [constructor|].
Qed.

Lemma lookup_key_some t k v : lookup_key t k = Some v ->
  exists pre e post, entries t = pre ++ (e, v) :: post /\ key_of e = Some k /\ Forall (fun e => key_of e.1 <> Some k) (pre ++ post).
Proof.
  unfold lookup_key. destruct (filter _ _) as [|[e v'] [|]] eqn:E; try done. intros [= ->]. apply filter_single in E as (pre & post & H1 & H2 & H3 & H4).
  exists pre, e, post. split; [done|]. split; [done|]. by apply Forall_app.
Qed.

Lemma fold_app {A St} (f : St -> A -> outcome St) l1 l2 s : fold_ f (l1 ++ l2) s = (s ← fold_ f l1 s; fold_ f l2 s).
Proof. revert s. induction l1 as [|x l1 IH]; intros s; cbn [fold_ app]; [by rewrite bind_ret|]. destruct (f s x) as [s'|]; [|done]. rewrite !bind_ret. apply IH. Qed.

(** ** Targets *)
Lemma pairwise_apart_app l1 l2 : pairwise_apart (l1 ++ l2) = true ->
  pairwise_apart l1 = true /\ pairwise_apart l2 = true /\ forall F G, F ∈ l1 -> G ∈ l2 -> apart F G = true /\ apart G F = true.
Proof.
  induction l1 as [|F l1 IH]; [intros H; split; [done|]; split; [done|]; intros F G HF; by apply not_elem_of_nil in HF|]. cbn. rewrite forallb_app. intros [[H1 H2]%andb_true_iff H3]%andb_true_iff. destruct (IH H3) as (K1 & K2 & K3).
  split; [by apply andb_true_iff|]. split; [done|]. intros F' G HF HG. apply elem_of_cons in HF as [->|HF]; [|by apply K3].
  apply andb_true_iff. apply (proj1 (forallb_forall _ _) H2). by apply list_elem_of_In.
Qed.

Lemma target_of s (l : list OC_SCHEMA) F : s ∈ l -> F ∈ targets (SchemaInfo s) -> F ∈ targets (SchemaDict l).
Proof. intros Hs HF. cbn. apply list_elem_of_In, in_flat_map. exists s. split; [by apply list_elem_of_In|]. destruct s. by apply list_elem_of_In. Qed.

Lemma targets_cons s l : targets (SchemaDict (s :: l)) = targets (SchemaInfo s) ++ targets (SchemaDict l).
Proof. by destruct s. Qed.

Lemma targets_at l i s : pairwise_apart (targets (SchemaDict l)) = true -> l !! i = Some s -> pairwise_apart (targets (SchemaInfo s)) = true.
Proof.
  revert i. induction l as [|x l IH]; intros i; [done|]. rewrite targets_cons. intros (H1 & H2 & _)%pairwise_apart_app. destruct i as [|i]; cbn; [by intros [= ->]|by apply IH].
Qed.

Lemma targets_apart l i j s s' F G : pairwise_apart (targets (SchemaDict l)) = true -> l !! i = Some s -> l !! j = Some s' -> i <> j ->
  F ∈ targets (SchemaInfo s) -> G ∈ targets (SchemaInfo s') -> apart F G = true.
Proof.
  revert i j. induction l as [|x l IH]; intros i j; [done|]. rewrite targets_cons. intros (H1 & H2 & H3)%pairwise_apart_app. destruct i as [|i], j as [|j]; cbn; intros Hi Hj Hij HF HG; try done.
  - injection Hi as ->. apply (H3 F G); [done|]. eapply target_of; [by eapply list_elem_of_lookup_2|done].
  - injection Hj as ->. apply (H3 G F); [done|]. eapply target_of; [by eapply list_elem_of_lookup_2|done].
  - apply (IH i j); try done. lia.
Qed.

(** ** What merging stores *)
Section Stores.
Context `{HPool : XmlPool} {HPoolLaws : XmlPoolLaws HPool} `{HLib : AsciiLib} {HLaws : AsciiLibLaws HLib} `{HCopy : CopyLib} {HCopyLaws : CopyLibLaws HCopy}
  `{HLayout : Layout} `{HFlags : BuildFlags}.

Lemma writes_targets i : forall t F, F ∈ writes i t -> F ∈ targets i.
Proof.
  induction i as [l IH|G n T|G T|G s IH|G s IH] using info_ind'; intros t F HF; [|exact HF..].
  cbn [writes] in HF. apply list_elem_of_bind in HF as ([k v] & HF & _). unfold entry_writes in HF. cbn [fst snd] in HF.
  destruct (key_of k) as [key|]; [|by apply not_elem_of_nil in HF]. rewrite (find_entry writes key l) in HF. destruct (list_find _ l) as [[j s]|] eqn:ES; [|by apply not_elem_of_nil in HF].
  apply list_find_Some in ES as (ES & _). apply list_elem_of_lookup_2 in ES. rewrite Forall_forall in IH. eapply target_of; [exact ES|]. eapply IH; [exact ES|exact HF].
Qed.

(** An entry of a dictionary with another key keeps a field. *)
Lemma other_entry_keeps l k j s F e o st : pairwise_apart (targets (SchemaDict l)) = true -> list_find (fun s => SchemaName s = Some k) l = Some (j, s) ->
  F ∈ targets (SchemaInfo s) -> key_of e.1 <> Some k ->
  keeps F o (merge_entry (map (fun s => match s with Schema n ty o i => (Schema n ty o i, merge i) end) l) (o, st) e).
Proof.
  intros HP (Hj & Hk & _)%list_find_Some HF He. unfold merge_entry. destruct (key_of e.1) as [key|]; [|apply keeps_same]. case_decide; [apply keeps_same|].
  rewrite (find_entry merge key l). destruct (list_find _ l) as [[j' s']|] eqn:ES; [|apply keeps_same]. cbn [fmap option_fmap option_map fst snd].
  destruct (cast_ok _ e.2); [|apply keeps_same]. apply list_find_Some in ES as (Hj' & Hk' & _).
  apply merge_keeps, Forall_forall. intros G HG%writes_targets. apply (targets_apart l j' j s' s G F); try done. intros ->. congruence.
Qed.

Lemma other_entries_keep l k j s F es o st : pairwise_apart (targets (SchemaDict l)) = true -> list_find (fun s => SchemaName s = Some k) l = Some (j, s) ->
  F ∈ targets (SchemaInfo s) -> Forall (fun e => key_of e.1 <> Some k) es ->
  keeps F o (fold_ (merge_entry (map (fun s => match s with Schema n ty o i => (Schema n ty o i, merge i) end) l)) es (o, st)).
Proof. intros HP HL HF He. apply fold_keeps. intros e o1 st1 Hin. eapply other_entry_keeps; try done. rewrite Forall_forall in He. by apply He. Qed.

Lemma entry_target i ks i' F v : entry_at i ks = Some i' -> reads_into i' F v -> F ∈ targets i.
Proof.
  revert i. induction ks as [|k ks IH]; intros i HE HF.
  - injection HE as ->. destruct HF as [HF|(s & -> & _)]; [destruct i'; try done; cbn in *; subst|]; by left.
  - cbn in HE. destruct i as [l| | | |]; try done. case_decide; [done|]. destruct (list_find _ l) as [[j s]|] eqn:EL; [|done]. apply list_find_Some in EL as (EL & _).
    eapply target_of; [by eapply list_elem_of_lookup_2|]. by apply IH.
Qed.

(** Merging reaches the entry with the element, and no other step changes its field. *)
Lemma merge_reaches ks : forall i c o st o' st' i' v F, entry_at i ks = Some i' -> reads_into i' F v -> element_at c ks = Some v ->
  pairwise_apart (targets i) = true -> node_types i = true -> merge i o c st = Ret (o', st') ->
  exists o1 st1 o2 st2, merge i' o1 v st1 = Ret (o2, st2) /\ OC_SCHEMA_FIELD o1 F = OC_SCHEMA_FIELD o F /\ OC_SCHEMA_FIELD o' F = OC_SCHEMA_FIELD o2 F.
Proof.
  induction ks as [|k ks IH]; intros i c o st o' st' i' v F HE HF HV HP HT HM.
  - injection HE as ->. injection HV as ->. by exists o, st, o', st'.
  - pose proof HE as HE'. cbn [entry_at element_at] in HE, HV. destruct i as [l| | | |]; try done. destruct (decide (head k = Some HASH)) as [|Hk]; [done|].
    destruct (list_find _ l) as [[j s]|] eqn:EL; [|done]. destruct (cast_ok PLIST_NODE_TYPE_DICT c) eqn:EC; [|done]. destruct (lookup_key c k) as [w|] eqn:EK; [|done].
    apply lookup_key_some in EK as (pre & e & post & EE & Ee & [Hpre Hpost]%Forall_app).
    pose proof (proj1 (list_find_Some _ _ _ _) EL) as (Ej & _). assert (s ∈ l) as Hs by by eapply list_elem_of_lookup_2.
    assert (node_type s = true /\ node_types (SchemaInfo s) = true) as [HN HT'].
    { cbn in HT. rewrite forallb_forall in HT. specialize (HT s (proj1 (list_elem_of_In _ _) Hs)). apply andb_true_iff in HT as [H1 H2]. split; [done|]. by destruct s. }
    assert (cast_ok (SchemaType s) w = true) as HC.
    { unfold node_type in HN. destruct ks as [|k2 ks].
      - injection HE as HE. injection HV as <-. rewrite HE in HN. destruct HF as [HF|(s' & -> & HF)]; [|apply bool_decide_eq_true in HN; by rewrite HN].
        destruct i'; try done; apply bool_decide_eq_true in HN; by rewrite HN.
      - cbn in HE, HV. destruct (SchemaInfo s); try done. apply bool_decide_eq_true in HN. rewrite HN. by destruct (cast_ok PLIST_NODE_TYPE_DICT w). }
    assert (F ∈ targets (SchemaInfo s)) as HFs by by eapply entry_target.
    cbn [merge] in HM. unfold merge_dict in HM. rewrite EE, fold_app in HM.
    destruct (fold_ _ pre (o, st)) as [[o1 st1]|] eqn:E1; [|done]. rewrite bind_ret in HM. cbn [fold_] in HM.
    assert (OC_SCHEMA_FIELD o1 F = OC_SCHEMA_FIELD o F) as K1 by (eapply other_entries_keep; [exact HP|exact EL|exact HFs|exact Hpre|exact E1]).
    destruct (merge_entry _ (o1, st1) (e, w)) as [[o2 st2]|] eqn:E2; [|done]. rewrite bind_ret in HM.
    destruct (fold_ _ post (o2, st2)) as [[o3 st3]|] eqn:E3; [|done]. rewrite bind_ret in HM. injection HM as <- _.
    assert (OC_SCHEMA_FIELD o3 F = OC_SCHEMA_FIELD o2 F) as K3 by (eapply other_entries_keep; [exact HP|exact EL|exact HFs|exact Hpost|exact E3]).
    unfold merge_entry in E2. cbn [fst snd] in E2. rewrite Ee in E2. rewrite decide_False in E2 by done. rewrite (find_entry merge k l), EL in E2. cbn [fmap option_fmap option_map fst snd] in E2.
    rewrite HC in E2. destruct (IH _ _ _ _ _ _ _ _ _ HE HF HV (targets_at l j s HP Ej) HT' E2) as (o4 & st4 & o5 & st5 & K4 & K5 & K6).
    exists o4, st4, o5, st5. split; [done|]. split; congruence.
Qed.

Lemma put_field_same F : forall o x y, OC_SCHEMA_FIELD o F = Ret x -> OC_SCHEMA_FIELD (put_field o F y) F = Ret y.
Proof.
  induction F as [|f F IH]; intros o x y; [done|]. cbn. destruct o as [| | | |fs]; try done. destruct (field_at fs f) as [z|] eqn:Ef; [|done]. intros E. cbn.
  rewrite (put_at_same fs f z) by done. by eapply IH.
Qed.

(** What holds of a schema and passes to the entries of dictionaries. *)
Lemma entry_inherits (P : OC_SCHEMA_INFO -> bool) ks : (forall l s, s ∈ l -> P (SchemaDict l) = true -> P (SchemaInfo s) = true) ->
  forall i i', P i = true -> entry_at i ks = Some i' -> P i' = true.
Proof.
  intros HP. induction ks as [|k ks IH]; intros i i' HE; [by intros [= <-]|]. cbn [entry_at]. destruct i as [l| | | |]; try done. case_decide; [done|].
  destruct (list_find _ l) as [[j s]|] eqn:EL; [|done]. apply list_find_Some in EL as (EL & _). apply IH. eapply HP; [by eapply list_elem_of_lookup_2|done].
Qed.

Lemma forallb_at {A} (f : A -> bool) l x : x ∈ l -> forallb f l = true -> f x = true.
Proof. intros Hx H. rewrite forallb_forall in H. by apply H, list_elem_of_In. Qed.

Lemma exact_inherits o l s : s ∈ l -> exact o (SchemaDict l) = true -> exact o (SchemaInfo s) = true.
Proof. intros Hs H. apply (forallb_at _ _ _ Hs) in H. by destruct s. Qed.
Lemma node_types_inherit l s : s ∈ l -> node_types (SchemaDict l) = true -> node_types (SchemaInfo s) = true.
Proof. intros Hs H. apply (forallb_at _ _ _ Hs), andb_true_iff in H as [_ H]. by destruct s. Qed.
Lemma element_targets_inherit l s : s ∈ l -> element_targets (SchemaDict l) = true -> element_targets (SchemaInfo s) = true.
Proof. intros Hs H. apply (forallb_at _ _ _ Hs) in H. by destruct s. Qed.
Lemma fits_inherit T l s : s ∈ l -> SerializeSafety.fits (SchemaDict l) T = true -> SerializeSafety.fits (SchemaInfo s) T = true.
Proof. intros Hs H. apply (forallb_at _ _ _ Hs) in H. by destruct s. Qed.

Lemma field_ok F : forall o x, obj_ok o -> OC_SCHEMA_FIELD o F = Ret x -> obj_ok x.
Proof.
  induction F as [|f F IH]; intros o x Hok; [by intros [= <-]|]. cbn [OC_SCHEMA_FIELD]. destruct o as [| | | |fs]; try done. destruct (field_at fs f) as [z|] eqn:Ef; [|done].
  apply IH. by apply (put_at_spec fs f z z Ef Hok).
Qed.

Lemma value_stores F n T t V w : n = Z.of_nat (length V) -> n < 2 ^ 32 ->
  match T with OC_SCHEMA_VALUE_BOOLEAN => n = 1 | OC_SCHEMA_VALUE_INTEGER => n ∈ [8; 4; 2; 1] | _ => True end ->
  meaning (SchemaValue F n T) t = Some w -> value_of T t V n = Ret (true, w).
Proof.
  intros Hn Hn2 HT. assert (forall d V' : list Z, length d = length V -> length V' = length V -> take (length d) V' = d -> V' = d) as Hall.
  { intros d V' H1 H2 H3. by rewrite <- H3, H1, <- H2, firstn_all. }
  destruct T; cbn [meaning value_of]; try done.
  - unfold boolean_value. destruct V as [|x [|]]; cbn in Hn; try lia. destruct (cast_ok PLIST_NODE_TYPE_TRUE t); [by intros [= <-]|]. destruct (cast_ok _ t); [by intros [= <-]|done].
  - unfold integer_value. destruct (cast_ok _ t); [|done]. intros [= <-]. unfold StoreInteger. rewrite decide_True by done.
    destruct (put_front V (le_bytes (Z.to_nat n) (integer_of (default [] (text_of t))))) as (V' & EW & HL); [rewrite length_le_bytes; lia|]. rewrite EW, bind_ret.
    rewrite (Hall (le_bytes (Z.to_nat n) (integer_of (default [] (text_of t)))) V'); [done|rewrite length_le_bytes; lia|done|]. apply (take_front V _ V' EW). rewrite length_le_bytes. lia.
  - destruct (cast_ok PLIST_NODE_TYPE_DATA t) eqn:EC; [|done]. destruct (data_meaning t) as [d|] eqn:ED; [|done]. case_decide as HL; [|done]. intros [= <-]. unfold data_value. rewrite EC.
    destruct (data_stores t V n 0 d) as (V' & -> & H1 & H2); [|lia|lia|rewrite bind_ret; by rewrite (Hall d V') by (done || lia)].
    unfold data_meaning in ED. destruct (text_of t); congruence.
  - destruct (cast_ok PLIST_NODE_TYPE_DATA t) eqn:EC; [|done]. destruct (data_meaning t) as [d|] eqn:ED; [|done]. case_decide as HL; [|done]. intros [= <-]. unfold multi_value. rewrite EC.
    destruct (data_stores t V n n d) as (V' & -> & H1 & H2); [|lia|lia|rewrite bind_ret; by rewrite (Hall d V') by (done || lia)].
    unfold data_meaning in ED. destruct (text_of t); congruence.
Qed.

Lemma blob_stores F T t w : meaning (SchemaBlob F T) t = Some w -> exists n, blob_size T t = Some n /\
  forall V, n <= Z.of_nat (length V) -> (0 < length V)%nat -> exists V', blob_value T t V n = Ret (true, V', Z.of_nat (length w)) /\ length V' = length V /\ take (length w) V' = w.
Proof.
  assert (forall m, cast_ok PLIST_NODE_TYPE_DATA t = true -> Z.of_nat (length (default [] (text_of t))) < 2 ^ 32 -> data_meaning t = Some w ->
    forall V, ContentLength (text_of t) 0 <= Z.of_nat (length V) -> exists V', DataContent (text_of t) V (ContentLength (text_of t) 0) m = Ret (true, V', Z.of_nat (length w)) /\ length V' = length V /\ take (length w) V' = w) as HD.
  { intros m HC Hs Hw V HV. unfold data_meaning in Hw. apply data_stores; [destruct (text_of t); congruence| |done]. unfold ContentLength in *. destruct (text_of t) as [s|]; cbn in Hs.
    - apply base64_length in Hw. change (id s) with s in *. rewrite wrap_small; lia.
    - injection Hw as <-. cbn. lia. }
  destruct T; cbn [meaning]; (case_match eqn:EA; [|discriminate]); apply andb_true_iff in EA as [EC Hs%bool_decide_eq_true]; intros Hw.
  - exists (ContentLength (text_of t) 0). unfold blob_size, data_size. rewrite EC. split; [done|]. intros V HV _. unfold blob_value, data_value. rewrite EC. by apply HD.
  - injection Hw as <-. exists (ContentLength (text_of t) 1). unfold blob_size, string_size. rewrite EC. split; [done|]. intros V H1 H2. by apply string_stores.
  - exists (ContentLength (text_of t) 0). unfold blob_size, multi_size. rewrite EC. split; [done|]. intros V HV _. unfold blob_value, multi_value. rewrite EC. by apply HD.
Qed.

(** The field of an entry holds what its element means, whatever else is merged. *)
Lemma merge_holds i c o st o' st' ks i' F v w : all_met -> obj_ok o -> pairwise_apart (targets i) = true -> node_types i = true -> exact o i = true ->
  entry_at i ks = Some i' -> is_value i' F -> element_at c ks = Some v -> meaning i' v = Some w -> merge i o c st = Ret (o', st') -> holds o' F w.
Proof.
  intros Hmet Hok HP HT HX HE HF HV HW HM. destruct (merge_reaches ks i c o st o' st' i' v F HE (or_introl HF) HV HP HT HM) as (o1 & st1 & o2 & st2 & K1 & K2 & K3).
  pose proof (entry_inherits (exact o) ks (exact_inherits o) i i' HX HE) as HX'. unfold holds. rewrite K3. destruct i' as [|G n T|G T| |]; try done; cbn in HF; subst G; cbn [merge exact] in K1, HX'; destruct (OC_SCHEMA_FIELD o F) as [x|] eqn:EF; try done.
  - destruct x as [V| | | |]; try done. apply andb_true_iff in HX' as [[H1%bool_decide_eq_true H2%bool_decide_eq_true]%andb_true_iff H3].
    unfold merge_value in K1. rewrite K2, bind_ret in K1. cbv beta iota in K1. rewrite (value_stores F n T v V w) in K1; [|done|done|by destruct T; try apply bool_decide_eq_true in H3|done].
    rewrite bind_ret in K1. injection K1 as <- _. left. by eapply put_field_same.
  - destruct x as [| |B| |]; try done. apply bool_decide_eq_true in HX'. destruct (blob_stores F T v w HW) as (n & Hn & HB).
    destruct (merge_blob_stores F T v o1 st1 B n w Hmet K2 (field_ok F o (Blob B) Hok EF) HX' Hn HB) as (B' & st3 & E & _ & _ & _ & H1 & H2). rewrite E in K1. injection K1 as <- _.
    right. exists B'. split; [by eapply put_field_same|done].
Qed.

(** *** Arrays *)
Lemma push_appends F m o t st l o' st' : all_met -> OC_SCHEMA_FIELD o F = Ret (Entries l) -> oc_list_ok l -> KeyConstruct l = None -> list_blocks l < 2 ^ 30 ->
  push_entry F None m o t st = Ret (o', st') ->
  exists l' v st1 st2, m (Construct l) t st1 = Ret (v, st2) /\ OC_SCHEMA_FIELD o' F = Ret (Entries (set_last_value l' v)) /\ oc_list_ok l' /\
    list_blocks l' <= list_blocks l + 4 /\ appended l l' false.
Proof.
  intros Hmet E Hok HK Hb. unfold push_entry, NewEntry. rewrite E, bind_ret. cbv beta iota. rewrite bool_decide_false by tauto.
  destruct (ListEntryAllocate_spec st.(PoolOf) l false Hok) as (p & l' & r & -> & _ & H2 & _ & H4 & H5); [by rewrite HK|done|]. rewrite bind_ret. cbv beta iota.
  destruct r; [|by destruct H5]. rewrite bind_ret. cbv beta iota. cbn [negb]. rewrite bind_ret. cbv beta iota. unfold ApplyLast.
  rewrite (put_field_same F o (Entries l)), bind_ret by done. cbv beta iota.
  assert (last (default [] (Values l')) = Some (Construct l)) as -> by (destruct l, l'; destruct H5 as (_ & _ & -> & _); apply last_snoc).
  destruct (m _ t _) as [[v st2]|] eqn:EM; [|done]. rewrite bind_ret. cbv beta iota. intros [= <- _]. exists l', v. eexists _, st2. split; [exact EM|].
  split; [|done]. eapply put_field_same. by eapply put_field_same.
Qed.

(** Every child of the right type becomes a value: a new object into which it is merged. *)
Lemma array_appends F s : all_met -> forall ts l o st o' st', OC_SCHEMA_FIELD o F = Ret (Entries l) -> oc_list_ok l -> KeyConstruct l = None ->
  SerializeSafety.fits (SchemaInfo s) (typeof (Construct l)) = true -> list_blocks l + cost (fun t => 5 * weight t) ts < 2 ^ 30 ->
  fold_ (merge_array_child F s (merge (SchemaInfo s))) ts (o, st) = Ret (o', st') ->
  exists l' vs, OC_SCHEMA_FIELD o' F = Ret (Entries l') /\ default [] (Values l') = default [] (Values l) ++ vs /\
    Forall2 (fun t v => exists st1 st2, merge (SchemaInfo s) (Construct l) t st1 = Ret (v, st2)) (filter (fun t => cast_ok (SchemaType s) t = true) ts) vs.
Proof.
  intros Hmet. induction ts as [|t ts IH]; intros l o st o' st' E Hok HK Hfit Hb HM.
  - injection HM as <- _. exists l, []. split; [done|]. rewrite app_nil_r. by split; [|constructor].
  - cbn [fold_ cost foldr] in *. fold (cost (fun t => 5 * weight t) ts) in *. pose proof (weight_pos t) as Hw. assert (0 <= cost (fun t => 5 * weight t) ts) as Hc by (apply cost_nonneg; intros x; pose proof (weight_pos x); lia).
    assert (0 <= list_blocks l) as Hl by apply (blocks_nonneg (Entries l)).
    assert (merge_array_child F s (merge (SchemaInfo s)) (o, st) t = if cast_ok (SchemaType s) t then push_entry F None (merge (SchemaInfo s)) o t st else Ret (o, CountError st)) as ES by done.
    rewrite ES in HM. clear ES. rewrite filter_cons. destruct (cast_ok (SchemaType s) t) eqn:EC.
    2: { rewrite bind_ret in HM. rewrite decide_False by done. by eapply IH; [..|exact HM]; try done; lia. }
    rewrite decide_True by done. destruct (push_entry _ _ _ _ _ _) as [[o1 st1]|] eqn:EP; [|done]. rewrite bind_ret in HM.
    destruct (push_appends F _ o t st l o1 st1 Hmet E Hok HK ltac:(lia) EP) as (l1 & v & st2 & st3 & EM & E1 & Hok1 & Hb1 & HA).
    assert (Construct l1 = Construct l /\ KeyConstruct l1 = None /\ Values l1 = Some (default [] (Values l) ++ [Construct l])) as (HC1 & HK1 & HV1).
    { destruct l, l1. cbn in *. destruct HA as (-> & -> & -> & _). done. }
    destruct (last_value l1 Hok1) as (vs1 & v1 & EV1 & _ & Hv1 & _ & Hvb & HL); [by rewrite HV1|]. rewrite HV1 in EV1. injection EV1 as EV1. apply app_inj_tail in EV1 as [<- <-].
    destruct (merge_accounted (SchemaInfo s) (Construct l) t st2 Hfit Hv1) as (v' & st3' & EM' & HAcc); [unfold budget; lia|]. rewrite EM in EM'. injection EM' as <- <-.
    specialize (HL v st2 (budget t) st3 HAcc). destruct HL as [L1 L2 _ _ L5]. cbn [typeof] in L1. injection L1 as L1 _.
    assert (Construct (set_last_value l1 v) = Construct l1 /\ KeyConstruct (set_last_value l1 v) = KeyConstruct l1 /\ default [] (Values (set_last_value l1 v)) = default [] (Values l) ++ [v]) as (C1 & C2 & C3).
    { destruct l1. cbn in HV1 |- *. rewrite HV1. cbn. by rewrite replace_last_snoc. }
    destruct (IH (set_last_value l1 v) o1 st1 o' st' E1) as (l' & vs & K1 & K2 & K3); [exact L2|by rewrite C2|by rewrite C1, HC1| |done|].
    { cbn [blocks] in L5. unfold budget in L5. lia. }
    exists l', (v :: vs). split; [done|]. rewrite K2, C3, <- app_assoc. split; [done|]. rewrite C1, HC1 in K3. constructor; [by exists st2, st3|done].
Qed.

Lemma cost_elem {A} (w : A -> Z) l x : (forall x, 0 <= w x) -> x ∈ l -> w x <= cost w l.
Proof.
  intros H. induction l as [|y l IH]; [by intros ?%not_elem_of_nil|]. unfold cost in *. cbn. fold (cost w l). pose proof (cost_nonneg w l H). unfold cost in *. pose proof (H y).
  intros [->|Hx]%elem_of_cons; [lia|]. specialize (IH Hx). lia.
Qed.

Lemma element_weight ks : forall c v, element_at c ks = Some v -> weight v <= weight c.
Proof.
  induction ks as [|k ks IH]; intros c v; [by intros [= ->]|]. cbn. destruct (cast_ok _ c); [|done]. destruct (lookup_key c k) as [w|] eqn:EK; [|done]. intros HV. specialize (IH w v HV).
  apply lookup_key_some in EK as (pre & e & post & EE & _). pose proof (entries_budget c) as HB. unfold budget in HB.
  assert (entry_budget (e, w) <= cost entry_budget (entries c)) as HE.
  { apply cost_elem; [intros [x y]; unfold entry_budget; cbn; pose proof (weight_pos x); pose proof (weight_pos y); lia|]. rewrite EE. apply elem_of_app. right. by left. }
  unfold entry_budget at 1 in HE. cbn [fst snd] in HE. pose proof (weight_pos e). lia.
Qed.

(** The values of the list are those of the children that have the type of the schema,
    in order, and each entry for a value holds what the child means for it. *)
Definition children_hold (o : obj) (F : path) (s : OC_SCHEMA) (a : xml) : Prop := exists l, OC_SCHEMA_FIELD o F = Ret (Entries l) /\
  Forall2 (fun t v => forall ks i G x w, entry_at (SchemaInfo s) ks = Some i -> is_value i G -> element_at t ks = Some x -> meaning i x = Some w -> holds v G w)
    (filter (fun t => cast_ok (SchemaType s) t = true) (kids a)) (default [] (Values l)).

(** The values of an array hold what the children of its element mean. *)
Lemma merge_array_holds i c o st o' st' ks F s a : all_met -> obj_ok o -> keys_apart i = true -> node_types i = true -> exact o i = true -> SerializeSafety.fits i (typeof o) = true ->
  5 * weight c < 2 ^ 30 -> entry_at i ks = Some (SchemaArray F s) -> element_at c ks = Some a -> cast_ok PLIST_NODE_TYPE_ARRAY a = true -> merge i o c st = Ret (o', st') ->
  children_hold o' F s a.
Proof.
  intros Hmet Hok [HP HET]%andb_true_iff HT HX Hfit Hw HE HV HC HM.
  destruct (merge_reaches ks i c o st o' st' _ a F HE (or_intror (ex_intro _ s (conj eq_refl HC))) HV HP HT HM) as (o1 & st1 & o2 & st2 & K1 & K2 & K3).
  pose proof (entry_inherits (exact o) ks (exact_inherits o) i _ HX HE) as HX'. pose proof (entry_inherits node_types ks node_types_inherit i _ HT HE) as HT'.
  pose proof (entry_inherits element_targets ks element_targets_inherit i _ HET HE) as HET'. pose proof (entry_inherits (fun i => SerializeSafety.fits i (typeof o)) ks (fits_inherit _) i _ Hfit HE) as Hfit'.
  pose proof (element_weight ks c a HV) as Hwa. destruct s as [N T O j]. cbn [exact node_types element_targets SerializeSafety.fits merge SchemaInfo SchemaType] in *. apply andb_true_iff in HET' as [HPj HETj].
  destruct (OC_SCHEMA_FIELD o F) as [x|] eqn:EF; [|done]. destruct x as [| | |l|]; try done. pose proof (field_ok F o _ Hok EF) as Hl. destruct l as [n con [vs|] kc [keys|]]; try done.
  destruct (type_at (typeof o) F) as [[| | |tc [kt|]|]|] eqn:ET; try done. destruct (Field_spec F o _ ET Hok) as (x & E' & Ex & _). rewrite EF in E'. injection E' as <-. cbn in Ex. injection Ex as <- ->.
  unfold merge_array in K1. destruct (array_appends F (Schema N T O j) Hmet (kids a) _ o1 st1 o2 st2 K2 Hl eq_refl Hfit') as (l' & vs & H1 & H2 & H3); [|exact K1|].
  { cbn [list_blocks]. pose proof (weight_kids a). rewrite kids_budget. unfold budget. lia. }
  cbn [Values default app] in H2. exists l'. split; [congruence|]. rewrite H2. eapply Forall2_impl; [exact H3|]. cbn [SchemaInfo Construct]. intros t v (st3 & st4 & EM) ks' i' G x w HE' HG HX1 HW.
  eapply (merge_holds j t con st3 v st4 ks' i' G x w Hmet); try done. by destruct Hl.
Qed.
End Stores.
End SerializeStore.
