(* ===== verification/ConfigDocument.v ===== *)
(** * Documents that are read by a schema

    [ParseSerialized] of [Library/OcSerializeLib/OcSerializeLib.c] from the text to the
    object: the parser of Xml and its grammar in XmlSyntax, the nodes of Plist and the
    merge of SerializeSpec with its safety in SerializeSafety. *)
From Stdlib Require Import Ascii String.
From stdpp Require Import gmap strings.
From S2P Require Import Prelude Xml XmlSyntax Plist Template Serialize SerializeSpec SerializeSafety.

Module ConfigDocument.
Import Xml XmlSyntax Plist Template Serialize SerializeSpec SerializeSafety.

(** ** Trees and elements *)
Lemma reads_weight b : forall x t, reads b x t -> weight t = xsize x.
Proof.
  fix IH 3. intros x t H. destruct H as [n name attrs text H1 H2 H3 H4|n l kids name attrs text ts H1 H2 H3 H4 H5]; [done|]. cbn. f_equal. clear - H5 IH.
  induction H5 as [|x t xs ts Hx _ IHx]; [done|]. cbn. by rewrite (IH x t Hx), IHx.
Qed.

Lemma opt_string_unique b c s s' : opt_string b c s -> opt_string b c s' -> s = s'.
Proof. destruct c, s, s'; cbn; intros H H'; try done. congruence. Qed.

(** Every element takes at least a character. *)
Lemma prints_weight : (forall t s, prints t s -> weight t <= Z.of_nat (length s)) /\ (forall ts s, prints_list ts s -> cost weight ts <= Z.of_nat (length s)).
Proof.
  apply prints_mutind; try done; intros; rewrite ?weight_kids; rewrite ?length_app; cbn [length str String.list_ascii_of_string map kids default]; unfold cost in *; cbn; try lia.
  destruct ts; cbn in *; lia.
Qed.

(** A node stands for one element. *)
Definition unique_spec (h : heap) (b : list Z) (p : Z) (x : xnode) (N : gmap Z XML_NODE) (L : gmap Z XML_NODE_LIST) : Prop := forall t t',
  N ⊆ h.(Nodes) -> L ⊆ h.(Lists) -> reads b x t -> stands h b p t' -> t' = t.
Definition unique_kids_spec (h : heap) (b : list Z) (ps : list Z) (xs : list xnode) (N : gmap Z XML_NODE) (L : gmap Z XML_NODE_LIST) : Prop := forall ts ts',
  N ⊆ h.(Nodes) -> L ⊆ h.(Lists) -> Forall2 (reads b) xs ts -> Forall2 (stands h b) ps ts' -> ts' = ts.

Lemma owned_unique h b : (forall p x N L, owned p x N L -> unique_spec h b p x N L) /\ (forall ps xs N L, owned_kids ps xs N L -> unique_kids_spec h b ps xs N L).
Proof.
  assert (forall p n name attrs text name' attrs' text', h.(Nodes) !! p = Some n -> AsciiStr b n.(Name) = Ret name -> opt_string b n.(Attributes) attrs -> opt_string b n.(Content) text ->
    AsciiStr b n.(Name) = Ret name' -> opt_string b n.(Attributes) attrs' -> opt_string b n.(Content) text' -> name' = name /\ attrs' = attrs /\ text' = text) as HU.
  { intros p n name attrs text name' attrs' text' _ H1 H2 H3 H4 H5 H6. split; [congruence|]. split; by eapply opt_string_unique. }
  apply owned_mutind.
  - intros p n HC t t' HN _ HR HS. assert (h.(Nodes) !! p = Some n) as Hp by by apply map_singleton_subseteq_l.
    inversion HS as [? n' name' attrs' text' K1 K2 K3 K4 K5 K6|? n' l' ac' ps' name' attrs' text' ts' K1 K2 K3 K4 K5 K6]; subst; rewrite Hp in K1; injection K1 as <-; [|congruence].
    inversion HR; subst; [|congruence]. edestruct (HU p n) as (-> & -> & ->); [..|reflexivity]; eassumption.
  - intros p n l ac ps kids N L HC _ _ IH HNp HLl t t' HN HL HR HS. assert (h.(Nodes) !! p = Some n) as Hp by (eapply lookup_weaken; [apply lookup_insert_eq|exact HN]).
    assert (h.(Lists) !! l = Some (List_ ac ps)) as Hl by (eapply lookup_weaken; [apply lookup_insert_eq|exact HL]).
    inversion HS as [? n' name' attrs' text' K1 K2 K3 K4 K5 K6|? n' l' ac' ps' name' attrs' text' ts' K1 K2 K3 K4 K5 K6 K7 K8 K9]; subst; rewrite Hp in K1; injection K1 as <-; [congruence|].
    inversion HR as [|? l2 ? name attrs text ts R1 R2 R3 R4 R5]; subst; [congruence|]. rewrite HC in K6. injection K6 as <-. rewrite Hl in K7. injection K7 as <- <-.
    destruct (HU p n name attrs text name' attrs' text') as (-> & -> & ->); try done.
    assert (ts' = ts) as ->; [|done]. eapply IH; [etrans; [by apply insert_subseteq|exact HN]|etrans; [by apply insert_subseteq|exact HL]|done|done].
  - intros ts ts' _ _ HR HS. inversion HR; subst. by inversion HS.
  - intros p ps x xs N1 L1 N2 L2 _ IH1 _ IH2 HDN HDL ts ts' HN HL HR HS. inversion HR; subst. inversion HS; subst. f_equal.
    + eapply IH1; [etrans; [apply map_union_subseteq_l|exact HN]|etrans; [apply map_union_subseteq_l|exact HL]|done|done].
    + eapply IH2; [etrans; [by apply map_union_subseteq_r|exact HN]|etrans; [by apply map_union_subseteq_r|exact HL]|done|done].
Qed.

(** Whatever memory holds it. *)
Lemma stands_unique h b : forall p t, stands h b p t -> forall t', stands h b p t' -> t' = t.
Proof.
  fix IH 3. intros p t H t' H'. destruct H as [p n name attrs text H1 H2 H3 H4 H5 H6|p n l ac ps name attrs text ts H1 H2 H3 H4 H5 H6 H7 H8 H9].
  - inversion H'; subst; simplify_eq. f_equal; [congruence|by eapply opt_string_unique..].
  - inversion H' as [|? n' l' ac' ps' name' attrs' text' ts' K1 K2 K3 K4 K5 K6 K7 K8 K9]; subst; simplify_eq. f_equal; [congruence|by eapply opt_string_unique..|]. f_equal.
    clear - H9 K9 IH. revert ts' K9. induction H9 as [|p t ps ts Ht _ IHts]; intros ts' K9; inversion K9; subst; [done|]. f_equal; [by eapply IH|by apply IHts].
Qed.

Section Documents.
Context `{HPool : XmlPool} {HPoolLaws : XmlPoolLaws HPool} `{HLib : AsciiLib} {HLaws : AsciiLibLaws HLib} {HOrder : AsciiOrder HLib}
  `{HCopy : CopyLib} {HCopyLaws : CopyLibLaws HCopy} `{HLayout : Layout} `{HFlags : BuildFlags}.

(** The dictionary of a property list. *)
Definition plist_dict (t : xml) : option xml :=
  if decide (tag_of t = str "plist") then match kids t with [c] => if cast_ok PLIST_NODE_TYPE_DICT c then Some c else None | _ => None end else None.

Lemma RootDict_spec h b d doc t : h.(Documents) !! d = Some doc -> doc.(DocBuffer) = b -> stands h b doc.(Root) t ->
  exists q, (Root ← PlistDocumentRoot h d; PlistNodeCast h b Root PLIST_NODE_TYPE_DICT) = Ret q /\
  match plist_dict t with Some c => exists p, q = Some p /\ stands h b p c | None => q = None end.
Proof.
  intros Hd Hb HS. unfold PlistDocumentRoot, plist_dict. rewrite (deref_some _ _ _ Hd), bind_ret. cbv beta zeta. rewrite Hb.
  destruct (Name_stands _ _ _ _ HS) as (c & -> & Ec). rewrite bind_ret, Ec, bind_ret. cbv beta. destruct (decide (tag_of t = str "plist")) as [Et|Et].
  2: { rewrite decide_True by (by rewrite AsciiStrCmp_eq). rewrite bind_ret. by exists None. }
  rewrite decide_False by (rewrite AsciiStrCmp_eq; tauto). rewrite (Children_stands _ _ _ _ HS), bind_ret. cbv beta. destruct (kids t) as [|k [|k' ks]] eqn:EK.
  - rewrite decide_True by done. rewrite bind_ret. by exists None.
  - rewrite decide_False by (cbn; lia). destruct (Child_stands h b _ t 0 k HS) as (q & E & Hq); [by rewrite EK|]. change (Z.of_nat 0) with 0 in E. rewrite E, !bind_ret.
    rewrite (Cast_stands _ _ _ _ _ Hq). destruct (cast_ok _ k); eexists; (split; [done|]); [by eexists|done].
  - rewrite decide_True by (cbn; lia). rewrite bind_ret. by exists None.
Qed.

Lemma same_blocks_Requests h n : same_blocks h (set_Requests h n).
Proof. done. Qed.

Lemma bind_assoc {A B C} (m : outcome A) (f : A -> outcome B) (g : B -> outcome C) : (x ← m; y ← f x; g y) = (y ← (x ← m; f x); g y).
Proof. by destruct m. Qed.

Lemma plist_dict_weight t c : plist_dict t = Some c -> weight c <= weight t.
Proof.
  unfold plist_dict. case_decide; [|done]. rewrite (weight_kids t). destruct (kids t) as [|k [|]]; try done. destruct (cast_ok _ k); [|done]. intros [= ->]. cbn. lia.
Qed.

(** What [ParseSerialized] does with a document. *)
Lemma Parsed_spec h1 b d doc x o i Live Errors h0 :
  document_ok false h1 d doc x -> doc.(DocBuffer) = b -> doc.(DocLength) <= XML_PARSER_MAX_SIZE -> fresh h1 ->
  (forall h2, same_blocks h1 h2 -> fresh h2 -> exists h3, XmlDocumentFree h2 d = Ret h3 /\ same_blocks h0 h3) ->
  tables_ok i -> SerializeSafety.fits i (typeof o) = true -> obj_ok o -> blocks o < 2 ^ 29 ->
  let st := State (Pool h1.(Requests) Live) Errors in
  exists t, stands h1 b doc.(Root) t /\ exists h' o' st',
  (Root ← PlistDocumentRoot h1 d;
   RootDict ← PlistNodeCast h1 b Root PLIST_NODE_TYPE_DICT;
   match RootDict with
   | None => h ← XmlDocumentFree h1 d; Ret (h, b, o, CountError st, false)
   | Some RootDict => '(o, st) ← Apply h1 b i o RootDict st; h ← XmlDocumentFree (set_Requests h1 st.(PoolOf).(Template.Asked)) d; Ret (h, b, o, st, true)
   end) = Ret (h', b, o', st', bool_decide (plist_dict t <> None)) /\ same_blocks h0 h' /\
  match plist_dict t with
  | Some c => merge i o c st = Ret (o', st') /\ accounts o st (5 * doc.(DocLength)) o' st'
  | None => o' = o /\ st' = CountError st
  end.
Proof.
  intros HD Hb HLen HF HFree HT Hfit Hok Hblocks st. destruct (document_stands h1 d doc x HD) as (t & HS & HR). rewrite Hb in HS, HR. exists t. split; [done|].
  pose proof HD as [H1 _ _ _ Hsize]. rewrite <- (reads_weight _ _ _ HR) in Hsize. rewrite bind_assoc. destruct (RootDict_spec h1 b d doc t H1 Hb HS) as (q & -> & Hq).
  rewrite bind_ret. cbv beta. destruct (plist_dict t) as [c|] eqn:EP.
  - destruct Hq as (p & -> & Hp). rewrite (Apply_refines h1 b i HT o p c st Hp).
    pose proof (plist_dict_weight t c EP) as Hw.
    unfold XML_PARSER_MAX_SIZE in HLen.
    destruct (merge_accounted i o c st Hfit Hok) as (o' & st' & E & HA); [unfold budget; lia|]. rewrite E, bind_ret. cbv beta iota.
    destruct (HFree (set_Requests h1 st'.(PoolOf).(Template.Asked))) as (h3 & -> & HS3); [done| |].
    { intros k Hk. apply HF. pose proof (acc_asked _ _ _ _ _ HA) as K. cbn in K, Hk. lia. }
    rewrite bind_ret. cbv beta. exists h3, o', st'. split; [by rewrite bool_decide_true|]. split; [done|]. split; [done|]. eapply accounts_weaken; [exact HA|unfold budget; lia].
  - subst q. destruct (HFree h1) as (h3 & -> & HS3); [done|done|]. rewrite bind_ret. cbv beta. exists h3, o, (CountError st). by rewrite bool_decide_false by tauto.
Qed.

(** Any text and any pool. *)
Lemma ParseSerialized_spec h o i Buffer n Live Errors : fresh h -> 0 <= n <= Z.of_nat (length Buffer) ->
  tables_ok i -> SerializeSafety.fits i (typeof o) = true -> obj_ok o -> blocks o < 2 ^ 29 ->
  exists h' b o' st' r, ParseSerialized h o i Buffer n Live Errors = Ret (h', b, o', st', r) /\ same_blocks h h' /\
    typeof o' = typeof o /\ obj_ok o' /\ st'.(PoolOf).(Template.Live) - blocks o' = Live - blocks o /\ blocks o' <= blocks o + 5 * XML_PARSER_MAX_SIZE /\ (r = false -> o' = o).
Proof.
  intros HF Hn HT Hfit Hok Hb. unfold ParseSerialized. assert (0 <= XML_PARSER_MAX_SIZE) as Hmax by done. destruct (decide (XML_PARSER_MAX_SIZE < n)) as [Hbig|Hsmall].
  { unfold XmlDocumentParse. rewrite decide_True by by right. rewrite bind_ret. cbv beta iota. eexists _, _, _, _, _. split; [done|]. cbn. split_and!; try done; lia. }
  destruct (DocumentParse_spec h Buffer n false HF Hn) as (h1 & b & d & -> & _ & HD). rewrite bind_ret. cbv beta iota zeta. destruct d as [d|].
  - destruct HD as (doc & x & HD & Hdoc & Hlen & HF1 & HFree). destruct (Parsed_spec h1 b d doc x o i Live Errors h HD Hdoc) as (t & _ & h' & o' & st' & -> & HS & HM); [lia|done..|].
    eexists _, _, _, _, _. split; [done|]. split; [done|]. destruct (plist_dict t).
    + destruct HM as [_ [A1 A2 A3 A4 A5]]. cbn in A4. split_and!; try done; lia.
    + destruct HM as [-> ->]. cbn. split_and!; try done; lia.
  - destruct HD as (_ & _ & _ & HS). eexists _, _, _, _, _. split; [done|]. cbn. split_and!; try done; try lia. by apply HS.
Qed.

(** A text that is not accepted counts one error. *)
Definition rejected (Live : Z) (Errors : option Z) (st : state) : Prop :=
  st.(PoolOf).(Template.Live) = Live /\ st.(ErrorCount) = (fun e => e +[32] 1) <$> Errors.

(** The element that a parsed document stands for. *)
Definition parsed_as (h : heap) (b : list Z) (d : Z) (t : xml) : Prop := exists doc, h.(Documents) !! d = Some doc /\ stands h b doc.(Root) t.

(** The document of the parser decides, for any text and any pool. *)
Lemma ParseSerialized_decides h o i Buffer n Live Errors : fresh h -> 0 <= n <= Z.of_nat (length Buffer) ->
  tables_ok i -> SerializeSafety.fits i (typeof o) = true -> obj_ok o -> blocks o < 2 ^ 29 ->
  exists h1 b d, XmlDocumentParse h Buffer n false = Ret (h1, b, d) /\
  exists h' b' o' st r, ParseSerialized h o i Buffer n Live Errors = Ret (h', b', o', st, r) /\ same_blocks h h' /\
  match d with
  | None => r = false /\ o' = o /\ rejected Live Errors st
  | Some d => exists t, parsed_as h1 b d t /\ r = bool_decide (plist_dict t <> None) /\ (plist_dict t = None -> o' = o /\ rejected Live Errors st)
  end.
Proof.
  intros HF Hn HT Hfit Hok Hb. unfold ParseSerialized. destruct (decide (XML_PARSER_MAX_SIZE < n)) as [Hbig|Hsmall].
  { unfold XmlDocumentParse. rewrite decide_True by by right. eexists h, Buffer, None. split; [done|]. rewrite bind_ret. cbv beta iota. by eexists _, _, _, _, _. }
  destruct (DocumentParse_spec h Buffer n false HF Hn) as (h1 & b & d & -> & _ & HD). exists h1, b, d. split; [done|]. rewrite bind_ret. cbv beta iota zeta. destruct d as [d|].
  - destruct HD as (doc & x & HD & Hdoc & Hlen & HF1 & HFree).
    destruct (Parsed_spec h1 b d doc x o i Live Errors h HD Hdoc) as (t & Ht & h' & o' & st' & -> & HS & HM); [lia|done..|]. eexists _, _, _, _, _. split; [done|]. split; [done|].
    exists t. split; [exists doc; by split; [apply (doc_live _ _ _ _ _ HD)|]|]. split; [done|]. intros E. rewrite E in HM. by destruct HM as [-> ->].
  - destruct HD as (_ & _ & _ & HS). eexists _, _, _, _, _. split; [done|]. split; [by apply HS|]. done.
Qed.

(** A text of the grammar: its dictionary is merged, and without one the text is
    rejected with an error. *)
Lemma ParseSerialized_prints h o i t s rest Live Errors : all_met -> fresh h -> prints t s -> depth t < XML_PARSER_NEST_LEVEL -> narrow t ->
  Z.of_nat (length (s ++ rest)) <= XML_PARSER_MAX_SIZE ->
  tables_ok i -> SerializeSafety.fits i (typeof o) = true -> obj_ok o -> blocks o < 2 ^ 29 ->
  exists h' b o' st' k, ParseSerialized h o i (s ++ rest) (Z.of_nat (length (s ++ rest))) Live Errors = Ret (h', b, o', st', bool_decide (plist_dict t <> None))
    /\ same_blocks h h' /\
    match plist_dict t with
    | Some c => merge i o c (State (Pool k Live) Errors) = Ret (o', st')
    | None => o' = o /\ st' = CountError (State (Pool k Live) Errors)
    end.
Proof.
  intros Hmet HF Hp Hdepth Hn Hsize HT Hfit Hok Hb. destruct (parse_document h t s rest Hmet HF Hp Hdepth Hn Hsize) as (h1 & b & d & E & Hlb & _ & HDO).
  destruct (DocumentParse_spec h (s ++ rest) (Z.of_nat (length (s ++ rest))) false HF) as (h1' & b' & d' & E' & _ & HD); [lia|]. rewrite E in E'. injection E' as <- <- <-.
  destruct HD as (doc & x & HD & Hdoc & Hlen & HF1 & HFree). unfold ParseSerialized. rewrite E, bind_ret. cbv beta iota zeta.
  destruct (Parsed_spec h1 b d doc x o i Live Errors h HD Hdoc) as (t' & Ht' & h' & o' & st' & -> & HS & HM); [lia|done..|].
  assert (t' = t) as ->.
  { destruct HDO as (doc' & N0 & L0 & y & K1 & K2 & K3 & (N & L & HO & HN & HL & EN & EL) & HR). pose proof (doc_live _ _ _ _ _ HD) as K. rewrite K1 in K. injection K as ->.
    apply (proj1 (owned_unique h1 b) _ _ _ _ HO t t'); [by rewrite EN; apply map_union_subseteq_l|by rewrite EL; apply map_union_subseteq_l|done|done]. }
  exists h', b, o', st', h1.(Requests). split; [done|]. split; [done|]. destruct (plist_dict t); [apply HM|done].
Qed.
End Documents.
End ConfigDocument.
