(* ===== verification/ConfigTypes.v ===== *)
(** * The configuration: [Include/Acidanthera/Library/OcConfigurationLib.h]

    The structures of the configuration with the values that their constructors give
    them. A field that is a number is its bytes, the lowest first. *)
From Stdlib Require Import String.
From stdpp Require Import list strings.
From S2P Require Import Prelude Xml Template.

Module ConfigTypes.
Import Xml Template.
#[local] Open Scope string_scope.

(** ** Types of fields *)
Definition number (n : nat) (x : Z) : obj := Bytes (le_bytes n x).
Definition BOOLEAN_ : Z -> obj := number 1.
Definition UINT8 : Z -> obj := number 1.
Definition INT8 : Z -> obj := number 1.
Definition UINT16 : Z -> obj := number 2.
Definition UINT32 : Z -> obj := number 4.
Definition UINT64 : Z -> obj := number 8.
Definition INT64 : Z -> obj := number 8.
(** An array with the initializer [{0}], by its size. *)
Definition Zeroes (n : nat) : obj := Bytes (replicate n 0%Z).

(** The blobs of [Include/Acidanthera/Library/OcTemplateLib.h]: 64 bytes of their own,
    the initial bytes and zeroes behind them. *)
Definition OC_BLOB_CONSTR (Constructor : list Z) (SizeConstructor : Z) : obj :=
  Blob (Blob_ SizeConstructor 64 None (Constructor ++ replicate (64 - List.length Constructor) 0%Z)).
Definition OC_STRING : obj := OC_BLOB_CONSTR [] 0.
Definition OC_DATA : obj := OC_BLOB_CONSTR [] 0.
Definition OC_STRING_CONSTR (s : string) : obj := OC_BLOB_CONSTR (str s ++ [0%Z]) (Z.of_nat (List.length (str s)) + 1).
Definition OC_EDATA_CONSTR : obj := OC_BLOB_CONSTR [] 0.
Definition OC_DATA_CONSTR (Constructor : list Z) : obj := OC_BLOB_CONSTR Constructor (Z.of_nat (List.length Constructor)).

(** Empty arrays and maps. *)
Definition OC_ARRAY (Type_ : obj) : obj := Entries (OcList 0 Type_ None None None).
Definition OC_MAP (KeyType Type_ : obj) : obj := Entries (OcList 0 Type_ None (Some KeyType) None).
Definition OC_ASSOC : obj := OC_MAP OC_STRING OC_DATA.

(** ** Constants *)
Definition bits (l : list Z) : Z := foldr (fun n => Z.lor (Z.shiftl 1 n)) 0%Z l.
(** The locks of file systems and devices, APFS, SATA, SASEX, SCSI, NVME and PCI. *)
Definition OC_SCAN_DEFAULT_POLICY : Z := bits [0%Z; 1%Z; 8%Z; 16%Z; 17%Z; 18%Z; 19%Z; 24%Z].
Definition OCS_EXPOSE_VERSION_VAR : Z := 2.
Definition OCS_EXPOSE_VERSION_UI : Z := 4.
Definition OCS_EXPOSE_VERSION : Z := Z.lor OCS_EXPOSE_VERSION_VAR OCS_EXPOSE_VERSION_UI.

(** ** Structures *)
Definition OC_ACPI_ADD_ENTRY : obj :=
  Struct [("Enabled", BOOLEAN_ 0); ("Comment", OC_STRING_CONSTR EmptyString); ("Path", OC_STRING_CONSTR EmptyString)].

Definition OC_ACPI_ADD_ARRAY : obj := OC_ARRAY OC_ACPI_ADD_ENTRY.

Definition OC_ACPI_DELETE_ENTRY : obj :=
  Struct [("All", BOOLEAN_ 0); ("Enabled", BOOLEAN_ 0); ("Comment", OC_STRING_CONSTR EmptyString);
    ("OemTableId", Zeroes 8); ("TableLength", UINT32 0); ("TableSignature", Zeroes 4)].

Definition OC_ACPI_DELETE_ARRAY : obj := OC_ARRAY OC_ACPI_DELETE_ENTRY.

Definition OC_ACPI_PATCH_ENTRY : obj :=
  Struct [("Count", UINT32 0); ("Enabled", BOOLEAN_ 0); ("Comment", OC_STRING_CONSTR EmptyString);
    ("Find", OC_EDATA_CONSTR); ("Base", OC_STRING_CONSTR EmptyString); ("BaseSkip", UINT32 0); ("Limit", UINT32 0);
    ("Mask", OC_EDATA_CONSTR); ("Replace", OC_EDATA_CONSTR); ("ReplaceMask", OC_EDATA_CONSTR);
    ("OemTableId", Zeroes 8); ("TableLength", UINT32 0); ("TableSignature", Zeroes 4); ("Skip", UINT32 0)].

Definition OC_ACPI_PATCH_ARRAY : obj := OC_ARRAY OC_ACPI_PATCH_ENTRY.

Definition OC_ACPI_QUIRKS : obj :=
  Struct [("FadtEnableReset", BOOLEAN_ 0); ("NormalizeHeaders", BOOLEAN_ 0); ("RebaseRegions", BOOLEAN_ 0);
    ("ResetHwSig", BOOLEAN_ 0); ("ResetLogoStatus", BOOLEAN_ 0); ("SyncTableIds", BOOLEAN_ 0)].

Definition OC_ACPI_CONFIG : obj :=
  Struct [("Add", OC_ACPI_ADD_ARRAY); ("Delete", OC_ACPI_DELETE_ARRAY); ("Patch", OC_ACPI_PATCH_ARRAY);
    ("Quirks", OC_ACPI_QUIRKS)].

Definition OC_BOOTER_WL_ENTRY : obj :=
  Struct [("Address", UINT64 0); ("Enabled", BOOLEAN_ 0); ("Comment", OC_STRING_CONSTR EmptyString)].

Definition OC_BOOTER_WL_ARRAY : obj := OC_ARRAY OC_BOOTER_WL_ENTRY.

Definition OC_BOOTER_PATCH_ENTRY : obj :=
  Struct [("Arch", OC_STRING_CONSTR "Any"); ("Comment", OC_STRING_CONSTR EmptyString); ("Count", UINT32 0);
    ("Enabled", BOOLEAN_ 0); ("Find", OC_EDATA_CONSTR); ("Identifier", OC_STRING_CONSTR "Any");
    ("Mask", OC_EDATA_CONSTR); ("Replace", OC_EDATA_CONSTR); ("ReplaceMask", OC_EDATA_CONSTR);
    ("Limit", UINT32 0); ("Skip", UINT32 0)].

Definition OC_BOOTER_PATCH_ARRAY : obj := OC_ARRAY OC_BOOTER_PATCH_ENTRY.

Definition OC_BOOTER_QUIRKS : obj :=
  Struct [("AllowRelocationBlock", BOOLEAN_ 0); ("AvoidRuntimeDefrag", BOOLEAN_ 0);
    ("ClearTaskSwitchBit", BOOLEAN_ 0); ("DevirtualiseMmio", BOOLEAN_ 0); ("DisableSingleUser", BOOLEAN_ 0);
    ("DisableVariableWrite", BOOLEAN_ 0); ("DiscardHibernateMap", BOOLEAN_ 0);
    ("EnableSafeModeSlide", BOOLEAN_ 0); ("EnableWriteUnprotector", BOOLEAN_ 0);
    ("FixupAppleEfiImages", BOOLEAN_ 0); ("ForceBooterSignature", BOOLEAN_ 0);
    ("ForceExitBootServices", BOOLEAN_ 0); ("ProtectMemoryRegions", BOOLEAN_ 0);
    ("ProtectSecureBoot", BOOLEAN_ 0); ("ProtectUefiServices", BOOLEAN_ 0);
    ("ProvideCustomSlide", BOOLEAN_ 0); ("ProvideMaxSlide", UINT8 0); ("RebuildAppleMemoryMap", BOOLEAN_ 0);
    ("ResizeAppleGpuBars", INT8 (- 1)); ("SetupVirtualMap", BOOLEAN_ 0); ("SignalAppleOS", BOOLEAN_ 0);
    ("SyncRuntimePermissions", BOOLEAN_ 0)].

Definition OC_BOOTER_CONFIG : obj :=
  Struct [("MmioWhitelist", OC_BOOTER_WL_ARRAY); ("Patch", OC_BOOTER_PATCH_ARRAY);
    ("Quirks", OC_BOOTER_QUIRKS)].

Definition OC_DEV_PROP_ADD_MAP : obj := OC_MAP OC_STRING OC_ASSOC.

Definition OC_DEV_PROP_DELETE_ENTRY : obj := OC_ARRAY OC_STRING.

Definition OC_DEV_PROP_DELETE_MAP : obj := OC_MAP OC_STRING OC_DEV_PROP_DELETE_ENTRY.

Definition OC_DEV_PROP_CONFIG : obj :=
  Struct [("Add", OC_DEV_PROP_ADD_MAP); ("Delete", OC_DEV_PROP_DELETE_MAP)].

Definition OC_KERNEL_ADD_ENTRY : obj :=
  Struct [("Enabled", BOOLEAN_ 0); ("Arch", OC_STRING_CONSTR "Any"); ("Comment", OC_STRING_CONSTR EmptyString);
    ("MaxKernel", OC_STRING_CONSTR EmptyString); ("MinKernel", OC_STRING_CONSTR EmptyString);
    ("Identifier", OC_STRING_CONSTR EmptyString); ("BundlePath", OC_STRING_CONSTR EmptyString);
    ("ExecutablePath", OC_STRING_CONSTR EmptyString); ("PlistPath", OC_STRING_CONSTR EmptyString); ("ImageData", Pointer None);
    ("ImageDataSize", UINT32 0); ("PlistData", Pointer None); ("PlistDataSize", UINT32 0)].

Definition OC_KERNEL_ADD_ARRAY : obj := OC_ARRAY OC_KERNEL_ADD_ENTRY.

Definition OC_KERNEL_BLOCK_ENTRY : obj :=
  Struct [("Enabled", BOOLEAN_ 0); ("Arch", OC_STRING_CONSTR "Any"); ("Comment", OC_STRING_CONSTR EmptyString);
    ("Identifier", OC_STRING_CONSTR EmptyString); ("MaxKernel", OC_STRING_CONSTR EmptyString);
    ("MinKernel", OC_STRING_CONSTR EmptyString); ("Strategy", OC_STRING_CONSTR "Disable")].

Definition OC_KERNEL_BLOCK_ARRAY : obj := OC_ARRAY OC_KERNEL_BLOCK_ENTRY.

Definition OC_KERNEL_EMULATE : obj :=
  Struct [("Cpuid1Data", Zeroes 16); ("Cpuid1Mask", Zeroes 16); ("DummyPowerManagement", BOOLEAN_ 0);
    ("MaxKernel", OC_STRING_CONSTR EmptyString); ("MinKernel", OC_STRING_CONSTR EmptyString)].

Definition OC_KERNEL_FORCE_ARRAY : obj := OC_ARRAY OC_KERNEL_ADD_ENTRY.

Definition OC_KERNEL_PATCH_ENTRY : obj :=
  Struct [("Arch", OC_STRING_CONSTR "Any"); ("Base", OC_STRING_CONSTR EmptyString); ("Comment", OC_STRING_CONSTR EmptyString);
    ("Count", UINT32 0); ("Enabled", BOOLEAN_ 0); ("Find", OC_EDATA_CONSTR);
    ("Identifier", OC_STRING_CONSTR EmptyString); ("Mask", OC_EDATA_CONSTR); ("MaxKernel", OC_STRING_CONSTR EmptyString);
    ("MinKernel", OC_STRING_CONSTR EmptyString); ("Replace", OC_EDATA_CONSTR); ("ReplaceMask", OC_EDATA_CONSTR);
    ("Limit", UINT32 0); ("Skip", UINT32 0)].

Definition OC_KERNEL_PATCH_ARRAY : obj := OC_ARRAY OC_KERNEL_PATCH_ENTRY.

Definition OC_KERNEL_QUIRKS : obj :=
  Struct [("SetApfsTrimTimeout", INT64 (- 1)); ("AppleCpuPmCfgLock", BOOLEAN_ 0);
    ("AppleXcpmCfgLock", BOOLEAN_ 0); ("AppleXcpmExtraMsrs", BOOLEAN_ 0);
    ("AppleXcpmForceBoost", BOOLEAN_ 0); ("CustomPciSerialDevice", BOOLEAN_ 0);
    ("CustomSmbiosGuid", BOOLEAN_ 0); ("DisableIoMapper", BOOLEAN_ 0);
    ("DisableIoMapperMapping", BOOLEAN_ 0); ("DisableLinkeditJettison", BOOLEAN_ 0);
    ("DisableRtcChecksum", BOOLEAN_ 0); ("ExtendBTFeatureFlags", BOOLEAN_ 0);
    ("ExternalDiskIcons", BOOLEAN_ 0); ("ForceAquantiaEthernet", BOOLEAN_ 0);
    ("ForceSecureBootScheme", BOOLEAN_ 0); ("IncreasePciBarSize", BOOLEAN_ 0);
    ("LapicKernelPanic", BOOLEAN_ 0); ("LegacyCommpage", BOOLEAN_ 0); ("PanicNoKextDump", BOOLEAN_ 0);
    ("PowerTimeoutKernelPanic", BOOLEAN_ 0); ("ProvideCurrentCpuInfo", BOOLEAN_ 0);
    ("ThirdPartyDrives", BOOLEAN_ 0); ("XhciPortLimit", BOOLEAN_ 0)].

Definition OC_KERNEL_SCHEME : obj :=
  Struct [("KernelArch", OC_STRING_CONSTR "Auto"); ("KernelCache", OC_STRING_CONSTR "Auto");
    ("CustomKernel", BOOLEAN_ 0); ("FuzzyMatch", BOOLEAN_ 0)].

Definition OC_KERNEL_CONFIG : obj :=
  Struct [("Add", OC_KERNEL_ADD_ARRAY); ("Block", OC_KERNEL_BLOCK_ARRAY); ("Emulate", OC_KERNEL_EMULATE);
    ("Force", OC_KERNEL_FORCE_ARRAY); ("Patch", OC_KERNEL_PATCH_ARRAY); ("Quirks", OC_KERNEL_QUIRKS);
    ("Scheme", OC_KERNEL_SCHEME)].

Definition OC_MISC_BLESS_ARRAY : obj := OC_ARRAY OC_STRING.

Definition OC_MISC_BOOT : obj :=
  Struct [("PickerMode", OC_STRING_CONSTR "Builtin"); ("HibernateMode", OC_STRING_CONSTR "None");
    ("InstanceIdentifier", OC_STRING_CONSTR EmptyString); ("LauncherOption", OC_STRING_CONSTR "Disabled");
    ("LauncherPath", OC_STRING_CONSTR "Default"); ("ConsoleAttributes", UINT32 0);
    ("PickerAttributes", UINT32 0); ("PickerVariant", OC_STRING_CONSTR "Auto"); ("TakeoffDelay", UINT32 0);
    ("Timeout", UINT32 0); ("PickerAudioAssist", BOOLEAN_ 0); ("HibernateSkipsPicker", BOOLEAN_ 0);
    ("HideAuxiliary", BOOLEAN_ 0); ("PollAppleHotKeys", BOOLEAN_ 0); ("ShowPicker", BOOLEAN_ 0)].

Definition OC_MISC_DEBUG : obj :=
  Struct [("DisplayLevel", UINT64 0); ("DisplayDelay", UINT32 0); ("Target", UINT32 0);
    ("AppleDebug", BOOLEAN_ 0); ("ApplePanic", BOOLEAN_ 0); ("DisableWatchDog", BOOLEAN_ 0);
    ("SysReport", BOOLEAN_ 0); ("LogModules", OC_STRING_CONSTR "*")].

Definition OC_MISC_SECURITY : obj :=
  Struct [("Vault", OC_STRING_CONSTR "Secure"); ("DmgLoading", OC_STRING_CONSTR "Signed");
    ("ScanPolicy", UINT32 OC_SCAN_DEFAULT_POLICY); ("ExposeSensitiveData", UINT32 OCS_EXPOSE_VERSION);
    ("AllowSetDefault", BOOLEAN_ 0); ("AuthRestart", BOOLEAN_ 0); ("BlacklistAppleUpdate", BOOLEAN_ 0);
    ("EnablePassword", BOOLEAN_ 0); ("PasswordHash", Zeroes 64); ("PasswordSalt", OC_EDATA_CONSTR);
    ("SecureBootModel", OC_STRING_CONSTR "Default"); ("ApECID", UINT64 0); ("HaltLevel", UINT64 2147483648)].

Definition OC_MISC_TOOLS_ENTRY : obj :=
  Struct [("Arguments", OC_STRING_CONSTR EmptyString); ("Comment", OC_STRING_CONSTR EmptyString);
    ("Flavour", OC_STRING_CONSTR "Auto"); ("Auxiliary", BOOLEAN_ 0); ("Enabled", BOOLEAN_ 0);
    ("FullNvramAccess", BOOLEAN_ 0); ("RealPath", BOOLEAN_ 0); ("TextMode", BOOLEAN_ 0);
    ("Name", OC_STRING_CONSTR EmptyString); ("Path", OC_STRING_CONSTR EmptyString)].

Definition OC_MISC_TOOLS_ARRAY : obj := OC_ARRAY OC_MISC_TOOLS_ENTRY.

Definition OC_MISC_SERIAL_CUSTOM : obj :=
  Struct [("BaudRate", UINT32 115200); ("ClockRate", UINT32 1843200); ("DetectCable", BOOLEAN_ 0);
    ("ExtendedTxFifoSize", UINT32 64); ("FifoControl", UINT8 7); ("LineControl", UINT8 3);
    ("PciDeviceInfo", OC_DATA_CONSTR [255]); ("RegisterAccessWidth", UINT8 8); ("RegisterBase", UINT64 1016);
    ("RegisterStride", UINT32 1); ("UseHardwareFlowControl", BOOLEAN_ 0); ("UseMmio", BOOLEAN_ 0)].

Definition OC_MISC_SERIAL : obj :=
  Struct [("Custom", OC_MISC_SERIAL_CUSTOM); ("Init", BOOLEAN_ 0); ("Override", BOOLEAN_ 0)].

Definition OC_MISC_CONFIG : obj :=
  Struct [("BlessOverride", OC_MISC_BLESS_ARRAY); ("Boot", OC_MISC_BOOT); ("Debug", OC_MISC_DEBUG);
    ("Security", OC_MISC_SECURITY); ("Serial", OC_MISC_SERIAL); ("Entries", OC_MISC_TOOLS_ARRAY);
    ("Tools", OC_MISC_TOOLS_ARRAY)].

Definition OC_NVRAM_ADD_MAP : obj := OC_MAP OC_STRING OC_ASSOC.

Definition OC_NVRAM_DELETE_ENTRY : obj := OC_ARRAY OC_STRING.

Definition OC_NVRAM_DELETE_MAP : obj := OC_MAP OC_STRING OC_NVRAM_DELETE_ENTRY.

Definition OC_NVRAM_LEGACY_ENTRY : obj := OC_ARRAY OC_STRING.

Definition OC_NVRAM_LEGACY_MAP : obj := OC_MAP OC_STRING OC_NVRAM_LEGACY_ENTRY.

Definition OC_NVRAM_CONFIG : obj :=
  Struct [("Add", OC_NVRAM_ADD_MAP); ("Delete", OC_NVRAM_DELETE_MAP); ("Legacy", OC_NVRAM_LEGACY_MAP);
    ("LegacyOverwrite", BOOLEAN_ 0); ("WriteFlash", BOOLEAN_ 0)].

Definition OC_PLATFORM_GENERIC_CONFIG : obj :=
  Struct [("SystemProductName", OC_STRING_CONSTR EmptyString); ("SystemSerialNumber", OC_STRING_CONSTR EmptyString);
    ("SystemUuid", OC_STRING_CONSTR EmptyString); ("Mlb", OC_STRING_CONSTR EmptyString);
    ("SystemMemoryStatus", OC_STRING_CONSTR "Auto"); ("ProcessorType", UINT16 0); ("Rom", Zeroes 6);
    ("SpoofVendor", BOOLEAN_ 0); ("AdviseFeatures", BOOLEAN_ 0); ("MaxBIOSVersion", BOOLEAN_ 0)].

Definition OC_PLATFORM_DATA_HUB_CONFIG : obj :=
  Struct [("PlatformName", OC_STRING_CONSTR EmptyString); ("SystemProductName", OC_STRING_CONSTR EmptyString);
    ("SystemSerialNumber", OC_STRING_CONSTR EmptyString); ("SystemUuid", OC_STRING_CONSTR EmptyString);
    ("BoardProduct", OC_STRING_CONSTR EmptyString); ("BoardRevision", Zeroes 1); ("StartupPowerEvents", UINT64 0);
    ("InitialTSC", UINT64 0); ("FSBFrequency", UINT64 0); ("ARTFrequency", UINT64 0);
    ("DevicePathsSupported", UINT32 0); ("SmcRevision", Zeroes 6); ("SmcBranch", Zeroes 8);
    ("SmcPlatform", Zeroes 8)].

Definition OC_PLATFORM_MEMORY_DEVICE_ENTRY : obj :=
  Struct [("Size", UINT32 0); ("Speed", UINT16 0); ("DeviceLocator", OC_STRING_CONSTR "Unknown");
    ("BankLocator", OC_STRING_CONSTR "Unknown"); ("Manufacturer", OC_STRING_CONSTR "Unknown");
    ("SerialNumber", OC_STRING_CONSTR "Unknown"); ("AssetTag", OC_STRING_CONSTR "Unknown");
    ("PartNumber", OC_STRING_CONSTR "Unknown")].

Definition OC_PLATFORM_MEMORY_DEVICES_ARRAY : obj := OC_ARRAY OC_PLATFORM_MEMORY_DEVICE_ENTRY.

Definition OC_PLATFORM_MEMORY_CONFIG : obj :=
  Struct [("FormFactor", UINT8 2); ("Type", UINT8 2); ("TypeDetail", UINT16 4); ("TotalWidth", UINT16 65535);
    ("DataWidth", UINT16 65535); ("ErrorCorrection", UINT8 3); ("MaxCapacity", UINT64 0);
    ("Devices", OC_PLATFORM_MEMORY_DEVICES_ARRAY)].

Definition OC_PLATFORM_NVRAM_CONFIG : obj :=
  Struct [("Bid", OC_STRING_CONSTR EmptyString); ("Mlb", OC_STRING_CONSTR EmptyString);
    ("SystemSerialNumber", OC_STRING_CONSTR EmptyString); ("SystemUuid", OC_STRING_CONSTR EmptyString); ("Rom", Zeroes 6);
    ("FirmwareFeatures", UINT64 0); ("FirmwareFeaturesMask", UINT64 0)].

Definition OC_PLATFORM_SMBIOS_CONFIG : obj :=
  Struct [("BIOSVendor", OC_STRING_CONSTR EmptyString); ("BIOSVersion", OC_STRING_CONSTR EmptyString);
    ("BIOSReleaseDate", OC_STRING_CONSTR EmptyString); ("SystemManufacturer", OC_STRING_CONSTR EmptyString);
    ("SystemProductName", OC_STRING_CONSTR EmptyString); ("SystemVersion", OC_STRING_CONSTR EmptyString);
    ("SystemSerialNumber", OC_STRING_CONSTR EmptyString); ("SystemUuid", OC_STRING_CONSTR EmptyString);
    ("SystemSKUNumber", OC_STRING_CONSTR EmptyString); ("SystemFamily", OC_STRING_CONSTR EmptyString);
    ("BoardManufacturer", OC_STRING_CONSTR EmptyString); ("BoardProduct", OC_STRING_CONSTR EmptyString);
    ("BoardVersion", OC_STRING_CONSTR EmptyString); ("BoardSerialNumber", OC_STRING_CONSTR EmptyString);
    ("BoardAssetTag", OC_STRING_CONSTR EmptyString); ("BoardType", UINT8 0);
    ("BoardLocationInChassis", OC_STRING_CONSTR EmptyString); ("ChassisManufacturer", OC_STRING_CONSTR EmptyString);
    ("ChassisType", UINT8 0); ("ChassisVersion", OC_STRING_CONSTR EmptyString);
    ("ChassisSerialNumber", OC_STRING_CONSTR EmptyString); ("ChassisAssetTag", OC_STRING_CONSTR EmptyString);
    ("PlatformFeature", UINT32 4294967295); ("FirmwareFeatures", UINT64 0);
    ("FirmwareFeaturesMask", UINT64 0); ("SmcVersion", Zeroes 16); ("ProcessorType", UINT16 0)].

Definition OC_PLATFORM_CONFIG : obj :=
  Struct [("Automatic", BOOLEAN_ 0); ("CustomMemory", BOOLEAN_ 0); ("UpdateDataHub", BOOLEAN_ 0);
    ("UpdateNvram", BOOLEAN_ 0); ("UpdateSmbios", BOOLEAN_ 0); ("UseRawUuidEncoding", BOOLEAN_ 0);
    ("UpdateSmbiosMode", OC_STRING_CONSTR "Create"); ("Generic", OC_PLATFORM_GENERIC_CONFIG);
    ("DataHub", OC_PLATFORM_DATA_HUB_CONFIG); ("Memory", OC_PLATFORM_MEMORY_CONFIG);
    ("Nvram", OC_PLATFORM_NVRAM_CONFIG); ("Smbios", OC_PLATFORM_SMBIOS_CONFIG)].

Definition OC_UEFI_UNLOAD_ARRAY : obj := OC_ARRAY OC_STRING.

Definition OC_UEFI_DRIVER_ENTRY : obj :=
  Struct [("Arguments", OC_STRING_CONSTR EmptyString); ("Comment", OC_STRING_CONSTR EmptyString); ("Enabled", BOOLEAN_ 0);
    ("HideVerbose", BOOLEAN_ 0); ("LoadEarly", BOOLEAN_ 0); ("Path", OC_STRING_CONSTR EmptyString)].

Definition OC_UEFI_DRIVER_ARRAY : obj := OC_ARRAY OC_UEFI_DRIVER_ENTRY.

Definition OC_UEFI_APFS : obj :=
  Struct [("MinVersion", UINT64 0); ("MinDate", UINT32 0); ("EnableJumpstart", BOOLEAN_ 0);
    ("GlobalConnect", BOOLEAN_ 0); ("HideVerbose", BOOLEAN_ 0); ("JumpstartHotPlug", BOOLEAN_ 0)].

Definition OC_UEFI_APPLEINPUT : obj :=
  Struct [("AppleEvent", OC_STRING_CONSTR "Auto"); ("CustomDelays", BOOLEAN_ 0);
    ("KeyInitialDelay", UINT16 50); ("KeySubsequentDelay", UINT16 5); ("GraphicsInputMirroring", BOOLEAN_ 0);
    ("PointerPollMin", UINT32 0); ("PointerPollMax", UINT32 0); ("PointerPollMask", UINT32 (- 1));
    ("PointerSpeedDiv", UINT16 1); ("PointerSpeedMul", UINT16 1); ("PointerDwellClickTimeout", UINT16 0);
    ("PointerDwellDoubleClickTimeout", UINT16 0); ("PointerDwellRadius", UINT16 0)].

Definition OC_UEFI_AUDIO : obj :=
  Struct [("AudioDevice", OC_STRING_CONSTR EmptyString); ("PlayChime", OC_STRING_CONSTR "Auto");
    ("SetupDelay", UINT32 0); ("AudioSupport", BOOLEAN_ 0); ("AudioOutMask", UINT64 MAX_UINT64);
    ("AudioCodec", UINT8 0); ("MaximumGain", INT8 (- 15)); ("MinimumAssistGain", INT8 (- 30));
    ("MinimumAudibleGain", INT8 (- 128)); ("ResetTrafficClass", BOOLEAN_ 0); ("DisconnectHda", BOOLEAN_ 0)].

Definition OC_UEFI_INPUT : obj :=
  Struct [("KeySupportMode", OC_STRING_CONSTR "Auto"); ("PointerSupportMode", OC_STRING_CONSTR EmptyString);
    ("TimerResolution", UINT32 0); ("KeyForgetThreshold", UINT8 0); ("KeySupport", BOOLEAN_ 0);
    ("KeyFiltering", BOOLEAN_ 0); ("KeySwap", BOOLEAN_ 0); ("PointerSupport", BOOLEAN_ 0)].

Definition OC_UEFI_OUTPUT : obj :=
  Struct [("ConsoleMode", OC_STRING_CONSTR EmptyString); ("ConsoleFont", OC_STRING_CONSTR EmptyString);
    ("Resolution", OC_STRING_CONSTR EmptyString); ("InitialMode", OC_STRING_CONSTR EmptyString);
    ("TextRenderer", OC_STRING_CONSTR EmptyString); ("GopPassThrough", OC_STRING_CONSTR "Disabled");
    ("IgnoreTextInGraphics", BOOLEAN_ 0); ("ClearScreenOnModeSwitch", BOOLEAN_ 0);
    ("ProvideConsoleGop", BOOLEAN_ 0); ("ReplaceTabWithSpace", BOOLEAN_ 0);
    ("ReconnectOnResChange", BOOLEAN_ 0); ("SanitiseClearScreen", BOOLEAN_ 0); ("UIScale", INT8 (- 1));
    ("UgaPassThrough", BOOLEAN_ 0); ("DirectGopRendering", BOOLEAN_ 0); ("ForceResolution", BOOLEAN_ 0);
    ("GopBurstMode", BOOLEAN_ 0); ("ReconnectGraphicsOnConnect", BOOLEAN_ 0)].

Definition OC_UEFI_PROTOCOL_OVERRIDES : obj :=
  Struct [("AppleAudio", BOOLEAN_ 0); ("AppleBootPolicy", BOOLEAN_ 0); ("AppleDebugLog", BOOLEAN_ 0);
    ("AppleEg2Info", BOOLEAN_ 0); ("AppleFramebufferInfo", BOOLEAN_ 0); ("AppleImageConversion", BOOLEAN_ 0);
    ("AppleImg4Verification", BOOLEAN_ 0); ("AppleKeyMap", BOOLEAN_ 0); ("AppleRtcRam", BOOLEAN_ 0);
    ("AppleSecureBoot", BOOLEAN_ 0); ("AppleSmcIo", BOOLEAN_ 0); ("AppleUserInterfaceTheme", BOOLEAN_ 0);
    ("DataHub", BOOLEAN_ 0); ("DeviceProperties", BOOLEAN_ 0); ("FirmwareVolume", BOOLEAN_ 0);
    ("HashServices", BOOLEAN_ 0); ("OSInfo", BOOLEAN_ 0); ("PciIo", BOOLEAN_ 0);
    ("UnicodeCollation", BOOLEAN_ 0)].

Definition OC_UEFI_QUIRKS : obj :=
  Struct [("ExitBootServicesDelay", UINT32 0); ("TscSyncTimeout", UINT32 0);
    ("ActivateHpetSupport", BOOLEAN_ 0); ("DisableSecurityPolicy", BOOLEAN_ 0);
    ("EnableVectorAcceleration", BOOLEAN_ 0); ("EnableVmx", BOOLEAN_ 0); ("ForgeUefiSupport", BOOLEAN_ 0);
    ("IgnoreInvalidFlexRatio", BOOLEAN_ 0); ("ResizeGpuBars", INT8 (- 1)); ("ResizeUsePciRbIo", BOOLEAN_ 0);
    ("ReleaseUsbOwnership", BOOLEAN_ 0); ("ReloadOptionRoms", BOOLEAN_ 0);
    ("RequestBootVarRouting", BOOLEAN_ 0); ("ShimRetainProtocol", BOOLEAN_ 0);
    ("UnblockFsConnect", BOOLEAN_ 0); ("ForceOcWriteFlash", BOOLEAN_ 0)].

Definition OC_UEFI_RSVD_ENTRY : obj :=
  Struct [("Address", UINT64 0); ("Size", UINT64 0); ("Enabled", BOOLEAN_ 0);
    ("Type", OC_STRING_CONSTR "Reserved"); ("Comment", OC_STRING_CONSTR EmptyString)].

Definition OC_UEFI_RSVD_ARRAY : obj := OC_ARRAY OC_UEFI_RSVD_ENTRY.

Definition OC_UEFI_CONFIG : obj :=
  Struct [("ConnectDrivers", BOOLEAN_ 0); ("Apfs", OC_UEFI_APFS); ("AppleInput", OC_UEFI_APPLEINPUT);
    ("Audio", OC_UEFI_AUDIO); ("Drivers", OC_UEFI_DRIVER_ARRAY); ("Input", OC_UEFI_INPUT);
    ("Output", OC_UEFI_OUTPUT); ("ProtocolOverrides", OC_UEFI_PROTOCOL_OVERRIDES);
    ("Quirks", OC_UEFI_QUIRKS); ("ReservedMemory", OC_UEFI_RSVD_ARRAY); ("Unload", OC_UEFI_UNLOAD_ARRAY)].

Definition OC_GLOBAL_CONFIG : obj :=
  Struct [("Acpi", OC_ACPI_CONFIG); ("Booter", OC_BOOTER_CONFIG); ("DeviceProperties", OC_DEV_PROP_CONFIG);
    ("Kernel", OC_KERNEL_CONFIG); ("Misc", OC_MISC_CONFIG); ("Nvram", OC_NVRAM_CONFIG);
    ("PlatformInfo", OC_PLATFORM_CONFIG); ("Uefi", OC_UEFI_CONFIG)].

End ConfigTypes.
