(* ===== verification/Configuration.v ===== *)
(** * The configuration of the boot loader: [Library/OcConfigurationLib/OcConfigurationLib.c]

    The schema of all tables, and reading a configuration. The theorems check that the
    tables are sorted, that the schema fits the structures in the exact sizes of their
    fields, and that no two keys share memory, so that what holds for all schemas in
    SerializeSafety, SerializeStore and ConfigDocument holds for the configuration. *)
From Stdlib Require Import Ascii String.
From stdpp Require Import gmap strings sorting.
From S2P Require Import Prelude Xml XmlSyntax Plist Template Serialize SerializeSpec SerializeFrame SerializeSafety SerializeStore ConfigDocument ConfigTypes.

Module Configuration.
Import Xml XmlSyntax Plist Template Serialize SerializeSpec SerializeFrame SerializeSafety SerializeStore ConfigDocument ConfigTypes.
#[local] Open Scope string_scope.

(** ** Declarations of schemas: [Include/Acidanthera/Library/OcSerializeLib.h] *)

(** The size of a field without pointers. *)
Definition sizeof_field (Type_ : obj) (Field : path) : Z :=
  match OC_SCHEMA_FIELD Type_ Field with Ret (Bytes b) => Z.of_nat (List.length b) | _ => 0 end.

Definition OC_SCHEMA_VALUE (Name : option string) (Offset : path) (n : Z) (SourceType : OC_SCHEMA_VALUE_TYPE) : OC_SCHEMA :=
  Schema (str <$> Name) PLIST_NODE_TYPE_ANY false (SchemaValue Offset n SourceType).
Definition OC_SCHEMA_BLOB (Name : option string) (Offset : path) (SourceType : OC_SCHEMA_BLOB_TYPE) : OC_SCHEMA :=
  Schema (str <$> Name) PLIST_NODE_TYPE_ANY false (SchemaBlob Offset SourceType).
Definition OC_SCHEMA_DICT (Name : option string) (l : list OC_SCHEMA) : OC_SCHEMA := Schema (str <$> Name) PLIST_NODE_TYPE_DICT false (SchemaDict l).
Definition OC_SCHEMA_DICT_OPT (Name : option string) (l : list OC_SCHEMA) : OC_SCHEMA := Schema (str <$> Name) PLIST_NODE_TYPE_DICT true (SchemaDict l).
Definition OC_SCHEMA_STRING (Name : option string) : OC_SCHEMA := OC_SCHEMA_BLOB Name [] OC_SCHEMA_BLOB_STRING.
Definition OC_SCHEMA_MDATA (Name : option string) : OC_SCHEMA := OC_SCHEMA_BLOB Name [] OC_SCHEMA_BLOB_MDATA.
Definition OC_SCHEMA_ARRAY (Name : option string) (ChildSchema : OC_SCHEMA) : OC_SCHEMA :=
  Schema (str <$> Name) PLIST_NODE_TYPE_ARRAY false (SchemaArray [] ChildSchema).
Definition OC_SCHEMA_MAP (Name : option string) (ChildSchema : OC_SCHEMA) : OC_SCHEMA :=
  Schema (str <$> Name) PLIST_NODE_TYPE_DICT false (SchemaMap [] ChildSchema).

Definition OC_SCHEMA_BOOLEAN_IN (Name : string) (Type_ : obj) (Field : path) : OC_SCHEMA :=
  OC_SCHEMA_VALUE (Some Name) Field (sizeof_field Type_ Field) OC_SCHEMA_VALUE_BOOLEAN.
Definition OC_SCHEMA_INTEGER_IN (Name : string) (Type_ : obj) (Field : path) : OC_SCHEMA :=
  OC_SCHEMA_VALUE (Some Name) Field (sizeof_field Type_ Field) OC_SCHEMA_VALUE_INTEGER.
Definition OC_SCHEMA_STRING_IN (Name : string) (Type_ : obj) (Field : path) : OC_SCHEMA := OC_SCHEMA_BLOB (Some Name) Field OC_SCHEMA_BLOB_STRING.
Definition OC_SCHEMA_DATA_IN (Name : string) (Type_ : obj) (Field : path) : OC_SCHEMA := OC_SCHEMA_BLOB (Some Name) Field OC_SCHEMA_BLOB_DATA.
Definition OC_SCHEMA_DATAF_IN (Name : string) (Type_ : obj) (Field : path) : OC_SCHEMA :=
  OC_SCHEMA_VALUE (Some Name) Field (sizeof_field Type_ Field) OC_SCHEMA_VALUE_DATA.
Definition OC_SCHEMA_MDATAF_IN (Name : string) (Type_ : obj) (Field : path) : OC_SCHEMA :=
  OC_SCHEMA_VALUE (Some Name) Field (sizeof_field Type_ Field) OC_SCHEMA_VALUE_MDATA.
Definition OC_SCHEMA_ARRAY_IN (Name : string) (Type_ : obj) (Field : path) (ChildSchema : OC_SCHEMA) : OC_SCHEMA :=
  Schema (Some (str Name)) PLIST_NODE_TYPE_ARRAY false (SchemaArray Field ChildSchema).
Definition OC_SCHEMA_MAP_IN (Name : string) (Type_ : obj) (Field : path) (ChildSchema : OC_SCHEMA) : OC_SCHEMA :=
  Schema (Some (str Name)) PLIST_NODE_TYPE_DICT false (SchemaMap Field ChildSchema).

(** ** The schema *)
Definition mAcpiAddSchemaEntry : list OC_SCHEMA := [
  OC_SCHEMA_STRING_IN "Comment" OC_ACPI_ADD_ENTRY ["Comment"];
  OC_SCHEMA_BOOLEAN_IN "Enabled" OC_ACPI_ADD_ENTRY ["Enabled"];
  OC_SCHEMA_STRING_IN "Path" OC_ACPI_ADD_ENTRY ["Path"]].

Definition mAcpiAddSchema : OC_SCHEMA := OC_SCHEMA_DICT None mAcpiAddSchemaEntry.

Definition mAcpiDeleteSchemaEntry : list OC_SCHEMA := [
  OC_SCHEMA_BOOLEAN_IN "All" OC_ACPI_DELETE_ENTRY ["All"];
  OC_SCHEMA_STRING_IN "Comment" OC_ACPI_DELETE_ENTRY ["Comment"];
  OC_SCHEMA_BOOLEAN_IN "Enabled" OC_ACPI_DELETE_ENTRY ["Enabled"];
  OC_SCHEMA_DATAF_IN "OemTableId" OC_ACPI_DELETE_ENTRY ["OemTableId"];
  OC_SCHEMA_INTEGER_IN "TableLength" OC_ACPI_DELETE_ENTRY ["TableLength"];
  OC_SCHEMA_DATAF_IN "TableSignature" OC_ACPI_DELETE_ENTRY ["TableSignature"]].

Definition mAcpiDeleteSchema : OC_SCHEMA := OC_SCHEMA_DICT None mAcpiDeleteSchemaEntry.

Definition mAcpiPatchSchemaEntry : list OC_SCHEMA := [
  OC_SCHEMA_STRING_IN "Base" OC_ACPI_PATCH_ENTRY ["Base"];
  OC_SCHEMA_INTEGER_IN "BaseSkip" OC_ACPI_PATCH_ENTRY ["BaseSkip"];
  OC_SCHEMA_STRING_IN "Comment" OC_ACPI_PATCH_ENTRY ["Comment"];
  OC_SCHEMA_INTEGER_IN "Count" OC_ACPI_PATCH_ENTRY ["Count"];
  OC_SCHEMA_BOOLEAN_IN "Enabled" OC_ACPI_PATCH_ENTRY ["Enabled"];
  OC_SCHEMA_DATA_IN "Find" OC_ACPI_PATCH_ENTRY ["Find"];
  OC_SCHEMA_INTEGER_IN "Limit" OC_ACPI_PATCH_ENTRY ["Limit"];
  OC_SCHEMA_DATA_IN "Mask" OC_ACPI_PATCH_ENTRY ["Mask"];
  OC_SCHEMA_DATAF_IN "OemTableId" OC_ACPI_PATCH_ENTRY ["OemTableId"];
  OC_SCHEMA_DATA_IN "Replace" OC_ACPI_PATCH_ENTRY ["Replace"];
  OC_SCHEMA_DATA_IN "ReplaceMask" OC_ACPI_PATCH_ENTRY ["ReplaceMask"];
  OC_SCHEMA_INTEGER_IN "Skip" OC_ACPI_PATCH_ENTRY ["Skip"];
  OC_SCHEMA_INTEGER_IN "TableLength" OC_ACPI_PATCH_ENTRY ["TableLength"];
  OC_SCHEMA_DATAF_IN "TableSignature" OC_ACPI_PATCH_ENTRY ["TableSignature"]].

Definition mAcpiPatchSchema : OC_SCHEMA := OC_SCHEMA_DICT None mAcpiPatchSchemaEntry.

Definition mAcpiQuirksSchema : list OC_SCHEMA := [
  OC_SCHEMA_BOOLEAN_IN "FadtEnableReset" OC_GLOBAL_CONFIG ["Acpi"; "Quirks"; "FadtEnableReset"];
  OC_SCHEMA_BOOLEAN_IN "NormalizeHeaders" OC_GLOBAL_CONFIG ["Acpi"; "Quirks"; "NormalizeHeaders"];
  OC_SCHEMA_BOOLEAN_IN "RebaseRegions" OC_GLOBAL_CONFIG ["Acpi"; "Quirks"; "RebaseRegions"];
  OC_SCHEMA_BOOLEAN_IN "ResetHwSig" OC_GLOBAL_CONFIG ["Acpi"; "Quirks"; "ResetHwSig"];
  OC_SCHEMA_BOOLEAN_IN "ResetLogoStatus" OC_GLOBAL_CONFIG ["Acpi"; "Quirks"; "ResetLogoStatus"];
  OC_SCHEMA_BOOLEAN_IN "SyncTableIds" OC_GLOBAL_CONFIG ["Acpi"; "Quirks"; "SyncTableIds"]].

Definition mAcpiConfigurationSchema : list OC_SCHEMA := [
  OC_SCHEMA_ARRAY_IN "Add" OC_GLOBAL_CONFIG ["Acpi"; "Add"] mAcpiAddSchema;
  OC_SCHEMA_ARRAY_IN "Delete" OC_GLOBAL_CONFIG ["Acpi"; "Delete"] mAcpiDeleteSchema;
  OC_SCHEMA_ARRAY_IN "Patch" OC_GLOBAL_CONFIG ["Acpi"; "Patch"] mAcpiPatchSchema;
  OC_SCHEMA_DICT (Some "Quirks") mAcpiQuirksSchema].

Definition mBooterWhitelistEntrySchema : list OC_SCHEMA := [
  OC_SCHEMA_INTEGER_IN "Address" OC_BOOTER_WL_ENTRY ["Address"];
  OC_SCHEMA_STRING_IN "Comment" OC_BOOTER_WL_ENTRY ["Comment"];
  OC_SCHEMA_BOOLEAN_IN "Enabled" OC_BOOTER_WL_ENTRY ["Enabled"]].

Definition mBooterWhitelistSchema : OC_SCHEMA := OC_SCHEMA_DICT None mBooterWhitelistEntrySchema.

Definition mBooterQuirksSchema : list OC_SCHEMA := [
  OC_SCHEMA_BOOLEAN_IN "AllowRelocationBlock" OC_GLOBAL_CONFIG ["Booter"; "Quirks"; "AllowRelocationBlock"];
  OC_SCHEMA_BOOLEAN_IN "AvoidRuntimeDefrag" OC_GLOBAL_CONFIG ["Booter"; "Quirks"; "AvoidRuntimeDefrag"];
  OC_SCHEMA_BOOLEAN_IN "ClearTaskSwitchBit" OC_GLOBAL_CONFIG ["Booter"; "Quirks"; "ClearTaskSwitchBit"];
  OC_SCHEMA_BOOLEAN_IN "DevirtualiseMmio" OC_GLOBAL_CONFIG ["Booter"; "Quirks"; "DevirtualiseMmio"];
  OC_SCHEMA_BOOLEAN_IN "DisableSingleUser" OC_GLOBAL_CONFIG ["Booter"; "Quirks"; "DisableSingleUser"];
  OC_SCHEMA_BOOLEAN_IN "DisableVariableWrite" OC_GLOBAL_CONFIG ["Booter"; "Quirks"; "DisableVariableWrite"];
  OC_SCHEMA_BOOLEAN_IN "DiscardHibernateMap" OC_GLOBAL_CONFIG ["Booter"; "Quirks"; "DiscardHibernateMap"];
  OC_SCHEMA_BOOLEAN_IN "EnableSafeModeSlide" OC_GLOBAL_CONFIG ["Booter"; "Quirks"; "EnableSafeModeSlide"];
  OC_SCHEMA_BOOLEAN_IN "EnableWriteUnprotector" OC_GLOBAL_CONFIG ["Booter"; "Quirks"; "EnableWriteUnprotector"];
  OC_SCHEMA_BOOLEAN_IN "FixupAppleEfiImages" OC_GLOBAL_CONFIG ["Booter"; "Quirks"; "FixupAppleEfiImages"];
  OC_SCHEMA_BOOLEAN_IN "ForceBooterSignature" OC_GLOBAL_CONFIG ["Booter"; "Quirks"; "ForceBooterSignature"];
  OC_SCHEMA_BOOLEAN_IN "ForceExitBootServices" OC_GLOBAL_CONFIG ["Booter"; "Quirks"; "ForceExitBootServices"];
  OC_SCHEMA_BOOLEAN_IN "ProtectMemoryRegions" OC_GLOBAL_CONFIG ["Booter"; "Quirks"; "ProtectMemoryRegions"];
  OC_SCHEMA_BOOLEAN_IN "ProtectSecureBoot" OC_GLOBAL_CONFIG ["Booter"; "Quirks"; "ProtectSecureBoot"];
  OC_SCHEMA_BOOLEAN_IN "ProtectUefiServices" OC_GLOBAL_CONFIG ["Booter"; "Quirks"; "ProtectUefiServices"];
  OC_SCHEMA_BOOLEAN_IN "ProvideCustomSlide" OC_GLOBAL_CONFIG ["Booter"; "Quirks"; "ProvideCustomSlide"];
  OC_SCHEMA_INTEGER_IN "ProvideMaxSlide" OC_GLOBAL_CONFIG ["Booter"; "Quirks"; "ProvideMaxSlide"];
  OC_SCHEMA_BOOLEAN_IN "RebuildAppleMemoryMap" OC_GLOBAL_CONFIG ["Booter"; "Quirks"; "RebuildAppleMemoryMap"];
  OC_SCHEMA_INTEGER_IN "ResizeAppleGpuBars" OC_GLOBAL_CONFIG ["Booter"; "Quirks"; "ResizeAppleGpuBars"];
  OC_SCHEMA_BOOLEAN_IN "SetupVirtualMap" OC_GLOBAL_CONFIG ["Booter"; "Quirks"; "SetupVirtualMap"];
  OC_SCHEMA_BOOLEAN_IN "SignalAppleOS" OC_GLOBAL_CONFIG ["Booter"; "Quirks"; "SignalAppleOS"];
  OC_SCHEMA_BOOLEAN_IN "SyncRuntimePermissions" OC_GLOBAL_CONFIG ["Booter"; "Quirks"; "SyncRuntimePermissions"]].

Definition mBooterPatchSchemaEntry : list OC_SCHEMA := [
  OC_SCHEMA_STRING_IN "Arch" OC_BOOTER_PATCH_ENTRY ["Arch"];
  OC_SCHEMA_STRING_IN "Comment" OC_BOOTER_PATCH_ENTRY ["Comment"];
  OC_SCHEMA_INTEGER_IN "Count" OC_BOOTER_PATCH_ENTRY ["Count"];
  OC_SCHEMA_BOOLEAN_IN "Enabled" OC_BOOTER_PATCH_ENTRY ["Enabled"];
  OC_SCHEMA_DATA_IN "Find" OC_BOOTER_PATCH_ENTRY ["Find"];
  OC_SCHEMA_STRING_IN "Identifier" OC_BOOTER_PATCH_ENTRY ["Identifier"];
  OC_SCHEMA_INTEGER_IN "Limit" OC_BOOTER_PATCH_ENTRY ["Limit"];
  OC_SCHEMA_DATA_IN "Mask" OC_BOOTER_PATCH_ENTRY ["Mask"];
  OC_SCHEMA_DATA_IN "Replace" OC_BOOTER_PATCH_ENTRY ["Replace"];
  OC_SCHEMA_DATA_IN "ReplaceMask" OC_BOOTER_PATCH_ENTRY ["ReplaceMask"];
  OC_SCHEMA_INTEGER_IN "Skip" OC_BOOTER_PATCH_ENTRY ["Skip"]].

Definition mBooterPatchSchema : OC_SCHEMA := OC_SCHEMA_DICT None mBooterPatchSchemaEntry.

Definition mBooterConfigurationSchema : list OC_SCHEMA := [
  OC_SCHEMA_ARRAY_IN "MmioWhitelist" OC_GLOBAL_CONFIG ["Booter"; "MmioWhitelist"] mBooterWhitelistSchema;
  OC_SCHEMA_ARRAY_IN "Patch" OC_GLOBAL_CONFIG ["Booter"; "Patch"] mBooterPatchSchema;
  OC_SCHEMA_DICT (Some "Quirks") mBooterQuirksSchema].

Definition mDevicePropertiesAddEntrySchema : OC_SCHEMA := OC_SCHEMA_MDATA None.

Definition mDevicePropertiesAddSchema : OC_SCHEMA := OC_SCHEMA_MAP None mDevicePropertiesAddEntrySchema.

Definition mDevicePropertiesDeleteEntrySchema : OC_SCHEMA := OC_SCHEMA_STRING None.

Definition mDevicePropertiesDeleteSchema : OC_SCHEMA := OC_SCHEMA_ARRAY None mDevicePropertiesDeleteEntrySchema.

Definition mDevicePropertiesSchema : list OC_SCHEMA := [
  OC_SCHEMA_MAP_IN "Add" OC_GLOBAL_CONFIG ["DeviceProperties"; "Add"] mDevicePropertiesAddSchema;
  OC_SCHEMA_MAP_IN "Delete" OC_GLOBAL_CONFIG ["DeviceProperties"; "Delete"] mDevicePropertiesDeleteSchema].

Definition mKernelAddSchemaEntry : list OC_SCHEMA := [
  OC_SCHEMA_STRING_IN "Arch" OC_KERNEL_ADD_ENTRY ["Arch"];
  OC_SCHEMA_STRING_IN "BundlePath" OC_KERNEL_ADD_ENTRY ["BundlePath"];
  OC_SCHEMA_STRING_IN "Comment" OC_KERNEL_ADD_ENTRY ["Comment"];
  OC_SCHEMA_BOOLEAN_IN "Enabled" OC_KERNEL_ADD_ENTRY ["Enabled"];
  OC_SCHEMA_STRING_IN "ExecutablePath" OC_KERNEL_ADD_ENTRY ["ExecutablePath"];
  OC_SCHEMA_STRING_IN "MaxKernel" OC_KERNEL_ADD_ENTRY ["MaxKernel"];
  OC_SCHEMA_STRING_IN "MinKernel" OC_KERNEL_ADD_ENTRY ["MinKernel"];
  OC_SCHEMA_STRING_IN "PlistPath" OC_KERNEL_ADD_ENTRY ["PlistPath"]].

Definition mKernelAddSchema : OC_SCHEMA := OC_SCHEMA_DICT None mKernelAddSchemaEntry.

Definition mKernelBlockSchemaEntry : list OC_SCHEMA := [
  OC_SCHEMA_STRING_IN "Arch" OC_KERNEL_BLOCK_ENTRY ["Arch"];
  OC_SCHEMA_STRING_IN "Comment" OC_KERNEL_BLOCK_ENTRY ["Comment"];
  OC_SCHEMA_BOOLEAN_IN "Enabled" OC_KERNEL_BLOCK_ENTRY ["Enabled"];
  OC_SCHEMA_STRING_IN "Identifier" OC_KERNEL_BLOCK_ENTRY ["Identifier"];
  OC_SCHEMA_STRING_IN "MaxKernel" OC_KERNEL_BLOCK_ENTRY ["MaxKernel"];
  OC_SCHEMA_STRING_IN "MinKernel" OC_KERNEL_BLOCK_ENTRY ["MinKernel"];
  OC_SCHEMA_STRING_IN "Strategy" OC_KERNEL_BLOCK_ENTRY ["Strategy"]].

Definition mKernelBlockSchema : OC_SCHEMA := OC_SCHEMA_DICT None mKernelBlockSchemaEntry.

Definition mKernelEmulateSchema : list OC_SCHEMA := [
  OC_SCHEMA_DATAF_IN "Cpuid1Data" OC_GLOBAL_CONFIG ["Kernel"; "Emulate"; "Cpuid1Data"];
  OC_SCHEMA_DATAF_IN "Cpuid1Mask" OC_GLOBAL_CONFIG ["Kernel"; "Emulate"; "Cpuid1Mask"];
  OC_SCHEMA_BOOLEAN_IN "DummyPowerManagement" OC_GLOBAL_CONFIG ["Kernel"; "Emulate"; "DummyPowerManagement"];
  OC_SCHEMA_STRING_IN "MaxKernel" OC_GLOBAL_CONFIG ["Kernel"; "Emulate"; "MaxKernel"];
  OC_SCHEMA_STRING_IN "MinKernel" OC_GLOBAL_CONFIG ["Kernel"; "Emulate"; "MinKernel"]].

Definition mKernelForceSchemaEntry : list OC_SCHEMA := [
  OC_SCHEMA_STRING_IN "Arch" OC_KERNEL_ADD_ENTRY ["Arch"];
  OC_SCHEMA_STRING_IN "BundlePath" OC_KERNEL_ADD_ENTRY ["BundlePath"];
  OC_SCHEMA_STRING_IN "Comment" OC_KERNEL_ADD_ENTRY ["Comment"];
  OC_SCHEMA_BOOLEAN_IN "Enabled" OC_KERNEL_ADD_ENTRY ["Enabled"];
  OC_SCHEMA_STRING_IN "ExecutablePath" OC_KERNEL_ADD_ENTRY ["ExecutablePath"];
  OC_SCHEMA_STRING_IN "Identifier" OC_KERNEL_ADD_ENTRY ["Identifier"];
  OC_SCHEMA_STRING_IN "MaxKernel" OC_KERNEL_ADD_ENTRY ["MaxKernel"];
  OC_SCHEMA_STRING_IN "MinKernel" OC_KERNEL_ADD_ENTRY ["MinKernel"];
  OC_SCHEMA_STRING_IN "PlistPath" OC_KERNEL_ADD_ENTRY ["PlistPath"]].

Definition mKernelForceSchema : OC_SCHEMA := OC_SCHEMA_DICT None mKernelForceSchemaEntry.

Definition mKernelPatchSchemaEntry : list OC_SCHEMA := [
  OC_SCHEMA_STRING_IN "Arch" OC_KERNEL_PATCH_ENTRY ["Arch"];
  OC_SCHEMA_STRING_IN "Base" OC_KERNEL_PATCH_ENTRY ["Base"];
  OC_SCHEMA_STRING_IN "Comment" OC_KERNEL_PATCH_ENTRY ["Comment"];
  OC_SCHEMA_INTEGER_IN "Count" OC_KERNEL_PATCH_ENTRY ["Count"];
  OC_SCHEMA_BOOLEAN_IN "Enabled" OC_KERNEL_PATCH_ENTRY ["Enabled"];
  OC_SCHEMA_DATA_IN "Find" OC_KERNEL_PATCH_ENTRY ["Find"];
  OC_SCHEMA_STRING_IN "Identifier" OC_KERNEL_PATCH_ENTRY ["Identifier"];
  OC_SCHEMA_INTEGER_IN "Limit" OC_KERNEL_PATCH_ENTRY ["Limit"];
  OC_SCHEMA_DATA_IN "Mask" OC_KERNEL_PATCH_ENTRY ["Mask"];
  OC_SCHEMA_STRING_IN "MaxKernel" OC_KERNEL_PATCH_ENTRY ["MaxKernel"];
  OC_SCHEMA_STRING_IN "MinKernel" OC_KERNEL_PATCH_ENTRY ["MinKernel"];
  OC_SCHEMA_DATA_IN "Replace" OC_KERNEL_PATCH_ENTRY ["Replace"];
  OC_SCHEMA_DATA_IN "ReplaceMask" OC_KERNEL_PATCH_ENTRY ["ReplaceMask"];
  OC_SCHEMA_INTEGER_IN "Skip" OC_KERNEL_PATCH_ENTRY ["Skip"]].

Definition mKernelPatchSchema : OC_SCHEMA := OC_SCHEMA_DICT None mKernelPatchSchemaEntry.

Definition mKernelQuirksSchema : list OC_SCHEMA := [
  OC_SCHEMA_BOOLEAN_IN "AppleCpuPmCfgLock" OC_GLOBAL_CONFIG ["Kernel"; "Quirks"; "AppleCpuPmCfgLock"];
  OC_SCHEMA_BOOLEAN_IN "AppleXcpmCfgLock" OC_GLOBAL_CONFIG ["Kernel"; "Quirks"; "AppleXcpmCfgLock"];
  OC_SCHEMA_BOOLEAN_IN "AppleXcpmExtraMsrs" OC_GLOBAL_CONFIG ["Kernel"; "Quirks"; "AppleXcpmExtraMsrs"];
  OC_SCHEMA_BOOLEAN_IN "AppleXcpmForceBoost" OC_GLOBAL_CONFIG ["Kernel"; "Quirks"; "AppleXcpmForceBoost"];
  OC_SCHEMA_BOOLEAN_IN "CustomPciSerialDevice" OC_GLOBAL_CONFIG ["Kernel"; "Quirks"; "CustomPciSerialDevice"];
  OC_SCHEMA_BOOLEAN_IN "CustomSMBIOSGuid" OC_GLOBAL_CONFIG ["Kernel"; "Quirks"; "CustomSmbiosGuid"];
  OC_SCHEMA_BOOLEAN_IN "DisableIoMapper" OC_GLOBAL_CONFIG ["Kernel"; "Quirks"; "DisableIoMapper"];
  OC_SCHEMA_BOOLEAN_IN "DisableIoMapperMapping" OC_GLOBAL_CONFIG ["Kernel"; "Quirks"; "DisableIoMapperMapping"];
  OC_SCHEMA_BOOLEAN_IN "DisableLinkeditJettison" OC_GLOBAL_CONFIG ["Kernel"; "Quirks"; "DisableLinkeditJettison"];
  OC_SCHEMA_BOOLEAN_IN "DisableRtcChecksum" OC_GLOBAL_CONFIG ["Kernel"; "Quirks"; "DisableRtcChecksum"];
  OC_SCHEMA_BOOLEAN_IN "ExtendBTFeatureFlags" OC_GLOBAL_CONFIG ["Kernel"; "Quirks"; "ExtendBTFeatureFlags"];
  OC_SCHEMA_BOOLEAN_IN "ExternalDiskIcons" OC_GLOBAL_CONFIG ["Kernel"; "Quirks"; "ExternalDiskIcons"];
  OC_SCHEMA_BOOLEAN_IN "ForceAquantiaEthernet" OC_GLOBAL_CONFIG ["Kernel"; "Quirks"; "ForceAquantiaEthernet"];
  OC_SCHEMA_BOOLEAN_IN "ForceSecureBootScheme" OC_GLOBAL_CONFIG ["Kernel"; "Quirks"; "ForceSecureBootScheme"];
  OC_SCHEMA_BOOLEAN_IN "IncreasePciBarSize" OC_GLOBAL_CONFIG ["Kernel"; "Quirks"; "IncreasePciBarSize"];
  OC_SCHEMA_BOOLEAN_IN "LapicKernelPanic" OC_GLOBAL_CONFIG ["Kernel"; "Quirks"; "LapicKernelPanic"];
  OC_SCHEMA_BOOLEAN_IN "LegacyCommpage" OC_GLOBAL_CONFIG ["Kernel"; "Quirks"; "LegacyCommpage"];
  OC_SCHEMA_BOOLEAN_IN "PanicNoKextDump" OC_GLOBAL_CONFIG ["Kernel"; "Quirks"; "PanicNoKextDump"];
  OC_SCHEMA_BOOLEAN_IN "PowerTimeoutKernelPanic" OC_GLOBAL_CONFIG ["Kernel"; "Quirks"; "PowerTimeoutKernelPanic"];
  OC_SCHEMA_BOOLEAN_IN "ProvideCurrentCpuInfo" OC_GLOBAL_CONFIG ["Kernel"; "Quirks"; "ProvideCurrentCpuInfo"];
  OC_SCHEMA_INTEGER_IN "SetApfsTrimTimeout" OC_GLOBAL_CONFIG ["Kernel"; "Quirks"; "SetApfsTrimTimeout"];
  OC_SCHEMA_BOOLEAN_IN "ThirdPartyDrives" OC_GLOBAL_CONFIG ["Kernel"; "Quirks"; "ThirdPartyDrives"];
  OC_SCHEMA_BOOLEAN_IN "XhciPortLimit" OC_GLOBAL_CONFIG ["Kernel"; "Quirks"; "XhciPortLimit"]].

Definition mKernelSchemeSchema : list OC_SCHEMA := [
  OC_SCHEMA_BOOLEAN_IN "CustomKernel" OC_GLOBAL_CONFIG ["Kernel"; "Scheme"; "CustomKernel"];
  OC_SCHEMA_BOOLEAN_IN "FuzzyMatch" OC_GLOBAL_CONFIG ["Kernel"; "Scheme"; "FuzzyMatch"];
  OC_SCHEMA_STRING_IN "KernelArch" OC_GLOBAL_CONFIG ["Kernel"; "Scheme"; "KernelArch"];
  OC_SCHEMA_STRING_IN "KernelCache" OC_GLOBAL_CONFIG ["Kernel"; "Scheme"; "KernelCache"]].

Definition mKernelConfigurationSchema : list OC_SCHEMA := [
  OC_SCHEMA_ARRAY_IN "Add" OC_GLOBAL_CONFIG ["Kernel"; "Add"] mKernelAddSchema;
  OC_SCHEMA_ARRAY_IN "Block" OC_GLOBAL_CONFIG ["Kernel"; "Block"] mKernelBlockSchema;
  OC_SCHEMA_DICT (Some "Emulate") mKernelEmulateSchema;
  OC_SCHEMA_ARRAY_IN "Force" OC_GLOBAL_CONFIG ["Kernel"; "Force"] mKernelForceSchema;
  OC_SCHEMA_ARRAY_IN "Patch" OC_GLOBAL_CONFIG ["Kernel"; "Patch"] mKernelPatchSchema;
  OC_SCHEMA_DICT (Some "Quirks") mKernelQuirksSchema;
  OC_SCHEMA_DICT (Some "Scheme") mKernelSchemeSchema].

Definition mMiscBlessOverrideSchema : OC_SCHEMA := OC_SCHEMA_STRING None.

Definition mMiscConfigurationBootSchema : list OC_SCHEMA := [
  OC_SCHEMA_INTEGER_IN "ConsoleAttributes" OC_GLOBAL_CONFIG ["Misc"; "Boot"; "ConsoleAttributes"];
  OC_SCHEMA_STRING_IN "HibernateMode" OC_GLOBAL_CONFIG ["Misc"; "Boot"; "HibernateMode"];
  OC_SCHEMA_BOOLEAN_IN "HibernateSkipsPicker" OC_GLOBAL_CONFIG ["Misc"; "Boot"; "HibernateSkipsPicker"];
  OC_SCHEMA_BOOLEAN_IN "HideAuxiliary" OC_GLOBAL_CONFIG ["Misc"; "Boot"; "HideAuxiliary"];
  OC_SCHEMA_STRING_IN "InstanceIdentifier" OC_GLOBAL_CONFIG ["Misc"; "Boot"; "InstanceIdentifier"];
  OC_SCHEMA_STRING_IN "LauncherOption" OC_GLOBAL_CONFIG ["Misc"; "Boot"; "LauncherOption"];
  OC_SCHEMA_STRING_IN "LauncherPath" OC_GLOBAL_CONFIG ["Misc"; "Boot"; "LauncherPath"];
  OC_SCHEMA_INTEGER_IN "PickerAttributes" OC_GLOBAL_CONFIG ["Misc"; "Boot"; "PickerAttributes"];
  OC_SCHEMA_BOOLEAN_IN "PickerAudioAssist" OC_GLOBAL_CONFIG ["Misc"; "Boot"; "PickerAudioAssist"];
  OC_SCHEMA_STRING_IN "PickerMode" OC_GLOBAL_CONFIG ["Misc"; "Boot"; "PickerMode"];
  OC_SCHEMA_STRING_IN "PickerVariant" OC_GLOBAL_CONFIG ["Misc"; "Boot"; "PickerVariant"];
  OC_SCHEMA_BOOLEAN_IN "PollAppleHotKeys" OC_GLOBAL_CONFIG ["Misc"; "Boot"; "PollAppleHotKeys"];
  OC_SCHEMA_BOOLEAN_IN "ShowPicker" OC_GLOBAL_CONFIG ["Misc"; "Boot"; "ShowPicker"];
  OC_SCHEMA_INTEGER_IN "TakeoffDelay" OC_GLOBAL_CONFIG ["Misc"; "Boot"; "TakeoffDelay"];
  OC_SCHEMA_INTEGER_IN "Timeout" OC_GLOBAL_CONFIG ["Misc"; "Boot"; "Timeout"]].

Definition mMiscConfigurationDebugSchema : list OC_SCHEMA := [
  OC_SCHEMA_BOOLEAN_IN "AppleDebug" OC_GLOBAL_CONFIG ["Misc"; "Debug"; "AppleDebug"];
  OC_SCHEMA_BOOLEAN_IN "ApplePanic" OC_GLOBAL_CONFIG ["Misc"; "Debug"; "ApplePanic"];
  OC_SCHEMA_BOOLEAN_IN "DisableWatchDog" OC_GLOBAL_CONFIG ["Misc"; "Debug"; "DisableWatchDog"];
  OC_SCHEMA_INTEGER_IN "DisplayDelay" OC_GLOBAL_CONFIG ["Misc"; "Debug"; "DisplayDelay"];
  OC_SCHEMA_INTEGER_IN "DisplayLevel" OC_GLOBAL_CONFIG ["Misc"; "Debug"; "DisplayLevel"];
  OC_SCHEMA_STRING_IN "LogModules" OC_GLOBAL_CONFIG ["Misc"; "Debug"; "LogModules"];
  OC_SCHEMA_BOOLEAN_IN "SysReport" OC_GLOBAL_CONFIG ["Misc"; "Debug"; "SysReport"];
  OC_SCHEMA_INTEGER_IN "Target" OC_GLOBAL_CONFIG ["Misc"; "Debug"; "Target"]].

Definition mMiscConfigurationSecuritySchema : list OC_SCHEMA := [
  OC_SCHEMA_BOOLEAN_IN "AllowSetDefault" OC_GLOBAL_CONFIG ["Misc"; "Security"; "AllowSetDefault"];
  OC_SCHEMA_INTEGER_IN "ApECID" OC_GLOBAL_CONFIG ["Misc"; "Security"; "ApECID"];
  OC_SCHEMA_BOOLEAN_IN "AuthRestart" OC_GLOBAL_CONFIG ["Misc"; "Security"; "AuthRestart"];
  OC_SCHEMA_BOOLEAN_IN "BlacklistAppleUpdate" OC_GLOBAL_CONFIG ["Misc"; "Security"; "BlacklistAppleUpdate"];
  OC_SCHEMA_STRING_IN "DmgLoading" OC_GLOBAL_CONFIG ["Misc"; "Security"; "DmgLoading"];
  OC_SCHEMA_BOOLEAN_IN "EnablePassword" OC_GLOBAL_CONFIG ["Misc"; "Security"; "EnablePassword"];
  OC_SCHEMA_INTEGER_IN "ExposeSensitiveData" OC_GLOBAL_CONFIG ["Misc"; "Security"; "ExposeSensitiveData"];
  OC_SCHEMA_INTEGER_IN "HaltLevel" OC_GLOBAL_CONFIG ["Misc"; "Security"; "HaltLevel"];
  OC_SCHEMA_DATAF_IN "PasswordHash" OC_GLOBAL_CONFIG ["Misc"; "Security"; "PasswordHash"];
  OC_SCHEMA_DATA_IN "PasswordSalt" OC_GLOBAL_CONFIG ["Misc"; "Security"; "PasswordSalt"];
  OC_SCHEMA_INTEGER_IN "ScanPolicy" OC_GLOBAL_CONFIG ["Misc"; "Security"; "ScanPolicy"];
  OC_SCHEMA_STRING_IN "SecureBootModel" OC_GLOBAL_CONFIG ["Misc"; "Security"; "SecureBootModel"];
  OC_SCHEMA_STRING_IN "Vault" OC_GLOBAL_CONFIG ["Misc"; "Security"; "Vault"]].

Definition mMiscConfigurationSerialCustomSchema : list OC_SCHEMA := [
  OC_SCHEMA_INTEGER_IN "BaudRate" OC_GLOBAL_CONFIG ["Misc"; "Serial"; "Custom"; "BaudRate"];
  OC_SCHEMA_INTEGER_IN "ClockRate" OC_GLOBAL_CONFIG ["Misc"; "Serial"; "Custom"; "ClockRate"];
  OC_SCHEMA_BOOLEAN_IN "DetectCable" OC_GLOBAL_CONFIG ["Misc"; "Serial"; "Custom"; "DetectCable"];
  OC_SCHEMA_INTEGER_IN "ExtendedTxFifoSize" OC_GLOBAL_CONFIG ["Misc"; "Serial"; "Custom"; "ExtendedTxFifoSize"];
  OC_SCHEMA_INTEGER_IN "FifoControl" OC_GLOBAL_CONFIG ["Misc"; "Serial"; "Custom"; "FifoControl"];
  OC_SCHEMA_INTEGER_IN "LineControl" OC_GLOBAL_CONFIG ["Misc"; "Serial"; "Custom"; "LineControl"];
  OC_SCHEMA_DATA_IN "PciDeviceInfo" OC_GLOBAL_CONFIG ["Misc"; "Serial"; "Custom"; "PciDeviceInfo"];
  OC_SCHEMA_INTEGER_IN "RegisterAccessWidth" OC_GLOBAL_CONFIG ["Misc"; "Serial"; "Custom"; "RegisterAccessWidth"];
  OC_SCHEMA_INTEGER_IN "RegisterBase" OC_GLOBAL_CONFIG ["Misc"; "Serial"; "Custom"; "RegisterBase"];
  OC_SCHEMA_INTEGER_IN "RegisterStride" OC_GLOBAL_CONFIG ["Misc"; "Serial"; "Custom"; "RegisterStride"];
  OC_SCHEMA_BOOLEAN_IN "UseHardwareFlowControl" OC_GLOBAL_CONFIG ["Misc"; "Serial"; "Custom"; "UseHardwareFlowControl"];
  OC_SCHEMA_BOOLEAN_IN "UseMmio" OC_GLOBAL_CONFIG ["Misc"; "Serial"; "Custom"; "UseMmio"]].

Definition mMiscConfigurationSerialSchema : list OC_SCHEMA := [
  OC_SCHEMA_DICT_OPT (Some "Custom") mMiscConfigurationSerialCustomSchema;
  OC_SCHEMA_BOOLEAN_IN "Init" OC_GLOBAL_CONFIG ["Misc"; "Serial"; "Init"];
  OC_SCHEMA_BOOLEAN_IN "Override" OC_GLOBAL_CONFIG ["Misc"; "Serial"; "Override"]].

Definition mMiscEntriesSchemaEntry : list OC_SCHEMA := [
  OC_SCHEMA_STRING_IN "Arguments" OC_MISC_TOOLS_ENTRY ["Arguments"];
  OC_SCHEMA_BOOLEAN_IN "Auxiliary" OC_MISC_TOOLS_ENTRY ["Auxiliary"];
  OC_SCHEMA_STRING_IN "Comment" OC_MISC_TOOLS_ENTRY ["Comment"];
  OC_SCHEMA_BOOLEAN_IN "Enabled" OC_MISC_TOOLS_ENTRY ["Enabled"];
  OC_SCHEMA_STRING_IN "Flavour" OC_MISC_TOOLS_ENTRY ["Flavour"];
  OC_SCHEMA_STRING_IN "Name" OC_MISC_TOOLS_ENTRY ["Name"];
  OC_SCHEMA_STRING_IN "Path" OC_MISC_TOOLS_ENTRY ["Path"];
  OC_SCHEMA_BOOLEAN_IN "TextMode" OC_MISC_TOOLS_ENTRY ["TextMode"]].

Definition mMiscEntriesSchema : OC_SCHEMA := OC_SCHEMA_DICT None mMiscEntriesSchemaEntry.

Definition mMiscToolsSchemaEntry : list OC_SCHEMA := [
  OC_SCHEMA_STRING_IN "Arguments" OC_MISC_TOOLS_ENTRY ["Arguments"];
  OC_SCHEMA_BOOLEAN_IN "Auxiliary" OC_MISC_TOOLS_ENTRY ["Auxiliary"];
  OC_SCHEMA_STRING_IN "Comment" OC_MISC_TOOLS_ENTRY ["Comment"];
  OC_SCHEMA_BOOLEAN_IN "Enabled" OC_MISC_TOOLS_ENTRY ["Enabled"];
  OC_SCHEMA_STRING_IN "Flavour" OC_MISC_TOOLS_ENTRY ["Flavour"];
  OC_SCHEMA_BOOLEAN_IN "FullNvramAccess" OC_MISC_TOOLS_ENTRY ["FullNvramAccess"];
  OC_SCHEMA_STRING_IN "Name" OC_MISC_TOOLS_ENTRY ["Name"];
  OC_SCHEMA_STRING_IN "Path" OC_MISC_TOOLS_ENTRY ["Path"];
  OC_SCHEMA_BOOLEAN_IN "RealPath" OC_MISC_TOOLS_ENTRY ["RealPath"];
  OC_SCHEMA_BOOLEAN_IN "TextMode" OC_MISC_TOOLS_ENTRY ["TextMode"]].

Definition mMiscToolsSchema : OC_SCHEMA := OC_SCHEMA_DICT None mMiscToolsSchemaEntry.

Definition mMiscConfigurationSchema : list OC_SCHEMA := [
  OC_SCHEMA_ARRAY_IN "BlessOverride" OC_GLOBAL_CONFIG ["Misc"; "BlessOverride"] mMiscBlessOverrideSchema;
  OC_SCHEMA_DICT (Some "Boot") mMiscConfigurationBootSchema;
  OC_SCHEMA_DICT (Some "Debug") mMiscConfigurationDebugSchema;
  OC_SCHEMA_ARRAY_IN "Entries" OC_GLOBAL_CONFIG ["Misc"; "Entries"] mMiscEntriesSchema;
  OC_SCHEMA_DICT (Some "Security") mMiscConfigurationSecuritySchema;
  OC_SCHEMA_DICT (Some "Serial") mMiscConfigurationSerialSchema;
  OC_SCHEMA_ARRAY_IN "Tools" OC_GLOBAL_CONFIG ["Misc"; "Tools"] mMiscToolsSchema].

Definition mNvramAddEntrySchema : OC_SCHEMA := OC_SCHEMA_MDATA None.

Definition mNvramAddSchema : OC_SCHEMA := OC_SCHEMA_MAP None mNvramAddEntrySchema.

Definition mNvramDeleteEntrySchema : OC_SCHEMA := OC_SCHEMA_STRING None.

Definition mNvramDeleteSchema : OC_SCHEMA := OC_SCHEMA_ARRAY None mNvramDeleteEntrySchema.

Definition mNvramLegacyEntrySchema : OC_SCHEMA := OC_SCHEMA_STRING None.

Definition mNvramLegacySchema : OC_SCHEMA := OC_SCHEMA_ARRAY None mNvramLegacyEntrySchema.

Definition mNvramConfigurationSchema : list OC_SCHEMA := [
  OC_SCHEMA_MAP_IN "Add" OC_GLOBAL_CONFIG ["Nvram"; "Add"] mNvramAddSchema;
  OC_SCHEMA_MAP_IN "Delete" OC_GLOBAL_CONFIG ["Nvram"; "Delete"] mNvramDeleteSchema;
  OC_SCHEMA_BOOLEAN_IN "LegacyOverwrite" OC_GLOBAL_CONFIG ["Nvram"; "LegacyOverwrite"];
  OC_SCHEMA_MAP_IN "LegacySchema" OC_GLOBAL_CONFIG ["Nvram"; "Legacy"] mNvramLegacySchema;
  OC_SCHEMA_BOOLEAN_IN "WriteFlash" OC_GLOBAL_CONFIG ["Nvram"; "WriteFlash"]].

Definition mPlatformConfigurationDataHubSchema : list OC_SCHEMA := [
  OC_SCHEMA_INTEGER_IN "ARTFrequency" OC_GLOBAL_CONFIG ["PlatformInfo"; "DataHub"; "ARTFrequency"];
  OC_SCHEMA_STRING_IN "BoardProduct" OC_GLOBAL_CONFIG ["PlatformInfo"; "DataHub"; "BoardProduct"];
  OC_SCHEMA_DATAF_IN "BoardRevision" OC_GLOBAL_CONFIG ["PlatformInfo"; "DataHub"; "BoardRevision"];
  OC_SCHEMA_INTEGER_IN "DevicePathsSupported" OC_GLOBAL_CONFIG ["PlatformInfo"; "DataHub"; "DevicePathsSupported"];
  OC_SCHEMA_INTEGER_IN "FSBFrequency" OC_GLOBAL_CONFIG ["PlatformInfo"; "DataHub"; "FSBFrequency"];
  OC_SCHEMA_INTEGER_IN "InitialTSC" OC_GLOBAL_CONFIG ["PlatformInfo"; "DataHub"; "InitialTSC"];
  OC_SCHEMA_STRING_IN "PlatformName" OC_GLOBAL_CONFIG ["PlatformInfo"; "DataHub"; "PlatformName"];
  OC_SCHEMA_DATAF_IN "SmcBranch" OC_GLOBAL_CONFIG ["PlatformInfo"; "DataHub"; "SmcBranch"];
  OC_SCHEMA_DATAF_IN "SmcPlatform" OC_GLOBAL_CONFIG ["PlatformInfo"; "DataHub"; "SmcPlatform"];
  OC_SCHEMA_DATAF_IN "SmcRevision" OC_GLOBAL_CONFIG ["PlatformInfo"; "DataHub"; "SmcRevision"];
  OC_SCHEMA_INTEGER_IN "StartupPowerEvents" OC_GLOBAL_CONFIG ["PlatformInfo"; "DataHub"; "StartupPowerEvents"];
  OC_SCHEMA_STRING_IN "SystemProductName" OC_GLOBAL_CONFIG ["PlatformInfo"; "DataHub"; "SystemProductName"];
  OC_SCHEMA_STRING_IN "SystemSerialNumber" OC_GLOBAL_CONFIG ["PlatformInfo"; "DataHub"; "SystemSerialNumber"];
  OC_SCHEMA_STRING_IN "SystemUUID" OC_GLOBAL_CONFIG ["PlatformInfo"; "DataHub"; "SystemUuid"]].

Definition mPlatformConfigurationGenericSchema : list OC_SCHEMA := [
  OC_SCHEMA_BOOLEAN_IN "AdviseFeatures" OC_GLOBAL_CONFIG ["PlatformInfo"; "Generic"; "AdviseFeatures"];
  OC_SCHEMA_STRING_IN "MLB" OC_GLOBAL_CONFIG ["PlatformInfo"; "Generic"; "Mlb"];
  OC_SCHEMA_BOOLEAN_IN "MaxBIOSVersion" OC_GLOBAL_CONFIG ["PlatformInfo"; "Generic"; "MaxBIOSVersion"];
  OC_SCHEMA_INTEGER_IN "ProcessorType" OC_GLOBAL_CONFIG ["PlatformInfo"; "Generic"; "ProcessorType"];
  OC_SCHEMA_MDATAF_IN "ROM" OC_GLOBAL_CONFIG ["PlatformInfo"; "Generic"; "Rom"];
  OC_SCHEMA_BOOLEAN_IN "SpoofVendor" OC_GLOBAL_CONFIG ["PlatformInfo"; "Generic"; "SpoofVendor"];
  OC_SCHEMA_STRING_IN "SystemMemoryStatus" OC_GLOBAL_CONFIG ["PlatformInfo"; "Generic"; "SystemMemoryStatus"];
  OC_SCHEMA_STRING_IN "SystemProductName" OC_GLOBAL_CONFIG ["PlatformInfo"; "Generic"; "SystemProductName"];
  OC_SCHEMA_STRING_IN "SystemSerialNumber" OC_GLOBAL_CONFIG ["PlatformInfo"; "Generic"; "SystemSerialNumber"];
  OC_SCHEMA_STRING_IN "SystemUUID" OC_GLOBAL_CONFIG ["PlatformInfo"; "Generic"; "SystemUuid"]].

Definition mPlatformConfigurationMemoryDeviceEntry : list OC_SCHEMA := [
  OC_SCHEMA_STRING_IN "AssetTag" OC_PLATFORM_MEMORY_DEVICE_ENTRY ["AssetTag"];
  OC_SCHEMA_STRING_IN "BankLocator" OC_PLATFORM_MEMORY_DEVICE_ENTRY ["BankLocator"];
  OC_SCHEMA_STRING_IN "DeviceLocator" OC_PLATFORM_MEMORY_DEVICE_ENTRY ["DeviceLocator"];
  OC_SCHEMA_STRING_IN "Manufacturer" OC_PLATFORM_MEMORY_DEVICE_ENTRY ["Manufacturer"];
  OC_SCHEMA_STRING_IN "PartNumber" OC_PLATFORM_MEMORY_DEVICE_ENTRY ["PartNumber"];
  OC_SCHEMA_STRING_IN "SerialNumber" OC_PLATFORM_MEMORY_DEVICE_ENTRY ["SerialNumber"];
  OC_SCHEMA_INTEGER_IN "Size" OC_PLATFORM_MEMORY_DEVICE_ENTRY ["Size"];
  OC_SCHEMA_INTEGER_IN "Speed" OC_PLATFORM_MEMORY_DEVICE_ENTRY ["Speed"]].

Definition mPlatformConfigurationMemoryDevicesSchema : OC_SCHEMA := OC_SCHEMA_DICT None mPlatformConfigurationMemoryDeviceEntry.

Definition mPlatformConfigurationMemorySchema : list OC_SCHEMA := [
  OC_SCHEMA_INTEGER_IN "DataWidth" OC_GLOBAL_CONFIG ["PlatformInfo"; "Memory"; "DataWidth"];
  OC_SCHEMA_ARRAY_IN "Devices" OC_GLOBAL_CONFIG ["PlatformInfo"; "Memory"; "Devices"] mPlatformConfigurationMemoryDevicesSchema;
  OC_SCHEMA_INTEGER_IN "ErrorCorrection" OC_GLOBAL_CONFIG ["PlatformInfo"; "Memory"; "ErrorCorrection"];
  OC_SCHEMA_INTEGER_IN "FormFactor" OC_GLOBAL_CONFIG ["PlatformInfo"; "Memory"; "FormFactor"];
  OC_SCHEMA_INTEGER_IN "MaxCapacity" OC_GLOBAL_CONFIG ["PlatformInfo"; "Memory"; "MaxCapacity"];
  OC_SCHEMA_INTEGER_IN "TotalWidth" OC_GLOBAL_CONFIG ["PlatformInfo"; "Memory"; "TotalWidth"];
  OC_SCHEMA_INTEGER_IN "Type" OC_GLOBAL_CONFIG ["PlatformInfo"; "Memory"; "Type"];
  OC_SCHEMA_INTEGER_IN "TypeDetail" OC_GLOBAL_CONFIG ["PlatformInfo"; "Memory"; "TypeDetail"]].

Definition mPlatformConfigurationNvramSchema : list OC_SCHEMA := [
  OC_SCHEMA_STRING_IN "BID" OC_GLOBAL_CONFIG ["PlatformInfo"; "Nvram"; "Bid"];
  OC_SCHEMA_DATAF_IN "FirmwareFeatures" OC_GLOBAL_CONFIG ["PlatformInfo"; "Nvram"; "FirmwareFeatures"];
  OC_SCHEMA_DATAF_IN "FirmwareFeaturesMask" OC_GLOBAL_CONFIG ["PlatformInfo"; "Nvram"; "FirmwareFeaturesMask"];
  OC_SCHEMA_STRING_IN "MLB" OC_GLOBAL_CONFIG ["PlatformInfo"; "Nvram"; "Mlb"];
  OC_SCHEMA_DATAF_IN "ROM" OC_GLOBAL_CONFIG ["PlatformInfo"; "Nvram"; "Rom"];
  OC_SCHEMA_STRING_IN "SystemSerialNumber" OC_GLOBAL_CONFIG ["PlatformInfo"; "Nvram"; "SystemSerialNumber"];
  OC_SCHEMA_STRING_IN "SystemUUID" OC_GLOBAL_CONFIG ["PlatformInfo"; "Nvram"; "SystemUuid"]].

Definition mPlatformConfigurationSmbiosSchema : list OC_SCHEMA := [
  OC_SCHEMA_STRING_IN "BIOSReleaseDate" OC_GLOBAL_CONFIG ["PlatformInfo"; "Smbios"; "BIOSReleaseDate"];
  OC_SCHEMA_STRING_IN "BIOSVendor" OC_GLOBAL_CONFIG ["PlatformInfo"; "Smbios"; "BIOSVendor"];
  OC_SCHEMA_STRING_IN "BIOSVersion" OC_GLOBAL_CONFIG ["PlatformInfo"; "Smbios"; "BIOSVersion"];
  OC_SCHEMA_STRING_IN "BoardAssetTag" OC_GLOBAL_CONFIG ["PlatformInfo"; "Smbios"; "BoardAssetTag"];
  OC_SCHEMA_STRING_IN "BoardLocationInChassis" OC_GLOBAL_CONFIG ["PlatformInfo"; "Smbios"; "BoardLocationInChassis"];
  OC_SCHEMA_STRING_IN "BoardManufacturer" OC_GLOBAL_CONFIG ["PlatformInfo"; "Smbios"; "BoardManufacturer"];
  OC_SCHEMA_STRING_IN "BoardProduct" OC_GLOBAL_CONFIG ["PlatformInfo"; "Smbios"; "BoardProduct"];
  OC_SCHEMA_STRING_IN "BoardSerialNumber" OC_GLOBAL_CONFIG ["PlatformInfo"; "Smbios"; "BoardSerialNumber"];
  OC_SCHEMA_INTEGER_IN "BoardType" OC_GLOBAL_CONFIG ["PlatformInfo"; "Smbios"; "BoardType"];
  OC_SCHEMA_STRING_IN "BoardVersion" OC_GLOBAL_CONFIG ["PlatformInfo"; "Smbios"; "BoardVersion"];
  OC_SCHEMA_STRING_IN "ChassisAssetTag" OC_GLOBAL_CONFIG ["PlatformInfo"; "Smbios"; "ChassisAssetTag"];
  OC_SCHEMA_STRING_IN "ChassisManufacturer" OC_GLOBAL_CONFIG ["PlatformInfo"; "Smbios"; "ChassisManufacturer"];
  OC_SCHEMA_STRING_IN "ChassisSerialNumber" OC_GLOBAL_CONFIG ["PlatformInfo"; "Smbios"; "ChassisSerialNumber"];
  OC_SCHEMA_INTEGER_IN "ChassisType" OC_GLOBAL_CONFIG ["PlatformInfo"; "Smbios"; "ChassisType"];
  OC_SCHEMA_STRING_IN "ChassisVersion" OC_GLOBAL_CONFIG ["PlatformInfo"; "Smbios"; "ChassisVersion"];
  OC_SCHEMA_DATAF_IN "FirmwareFeatures" OC_GLOBAL_CONFIG ["PlatformInfo"; "Smbios"; "FirmwareFeatures"];
  OC_SCHEMA_DATAF_IN "FirmwareFeaturesMask" OC_GLOBAL_CONFIG ["PlatformInfo"; "Smbios"; "FirmwareFeaturesMask"];
  OC_SCHEMA_INTEGER_IN "PlatformFeature" OC_GLOBAL_CONFIG ["PlatformInfo"; "Smbios"; "PlatformFeature"];
  OC_SCHEMA_INTEGER_IN "ProcessorType" OC_GLOBAL_CONFIG ["PlatformInfo"; "Smbios"; "ProcessorType"];
  OC_SCHEMA_DATAF_IN "SmcVersion" OC_GLOBAL_CONFIG ["PlatformInfo"; "Smbios"; "SmcVersion"];
  OC_SCHEMA_STRING_IN "SystemFamily" OC_GLOBAL_CONFIG ["PlatformInfo"; "Smbios"; "SystemFamily"];
  OC_SCHEMA_STRING_IN "SystemManufacturer" OC_GLOBAL_CONFIG ["PlatformInfo"; "Smbios"; "SystemManufacturer"];
  OC_SCHEMA_STRING_IN "SystemProductName" OC_GLOBAL_CONFIG ["PlatformInfo"; "Smbios"; "SystemProductName"];
  OC_SCHEMA_STRING_IN "SystemSKUNumber" OC_GLOBAL_CONFIG ["PlatformInfo"; "Smbios"; "SystemSKUNumber"];
  OC_SCHEMA_STRING_IN "SystemSerialNumber" OC_GLOBAL_CONFIG ["PlatformInfo"; "Smbios"; "SystemSerialNumber"];
  OC_SCHEMA_STRING_IN "SystemUUID" OC_GLOBAL_CONFIG ["PlatformInfo"; "Smbios"; "SystemUuid"];
  OC_SCHEMA_STRING_IN "SystemVersion" OC_GLOBAL_CONFIG ["PlatformInfo"; "Smbios"; "SystemVersion"]].

Definition mPlatformConfigurationSchema : list OC_SCHEMA := [
  OC_SCHEMA_BOOLEAN_IN "Automatic" OC_GLOBAL_CONFIG ["PlatformInfo"; "Automatic"];
  OC_SCHEMA_BOOLEAN_IN "CustomMemory" OC_GLOBAL_CONFIG ["PlatformInfo"; "CustomMemory"];
  OC_SCHEMA_DICT_OPT (Some "DataHub") mPlatformConfigurationDataHubSchema;
  OC_SCHEMA_DICT (Some "Generic") mPlatformConfigurationGenericSchema;
  OC_SCHEMA_DICT_OPT (Some "Memory") mPlatformConfigurationMemorySchema;
  OC_SCHEMA_DICT_OPT (Some "PlatformNVRAM") mPlatformConfigurationNvramSchema;
  OC_SCHEMA_DICT_OPT (Some "SMBIOS") mPlatformConfigurationSmbiosSchema;
  OC_SCHEMA_BOOLEAN_IN "UpdateDataHub" OC_GLOBAL_CONFIG ["PlatformInfo"; "UpdateDataHub"];
  OC_SCHEMA_BOOLEAN_IN "UpdateNVRAM" OC_GLOBAL_CONFIG ["PlatformInfo"; "UpdateNvram"];
  OC_SCHEMA_BOOLEAN_IN "UpdateSMBIOS" OC_GLOBAL_CONFIG ["PlatformInfo"; "UpdateSmbios"];
  OC_SCHEMA_STRING_IN "UpdateSMBIOSMode" OC_GLOBAL_CONFIG ["PlatformInfo"; "UpdateSmbiosMode"];
  OC_SCHEMA_BOOLEAN_IN "UseRawUuidEncoding" OC_GLOBAL_CONFIG ["PlatformInfo"; "UseRawUuidEncoding"]].

Definition mUefiDriversSchemaEntry : list OC_SCHEMA := [
  OC_SCHEMA_STRING_IN "Arguments" OC_UEFI_DRIVER_ENTRY ["Arguments"];
  OC_SCHEMA_STRING_IN "Comment" OC_UEFI_DRIVER_ENTRY ["Comment"];
  OC_SCHEMA_BOOLEAN_IN "Enabled" OC_UEFI_DRIVER_ENTRY ["Enabled"];
  OC_SCHEMA_BOOLEAN_IN "HideVerbose" OC_UEFI_DRIVER_ENTRY ["HideVerbose"];
  OC_SCHEMA_BOOLEAN_IN "LoadEarly" OC_UEFI_DRIVER_ENTRY ["LoadEarly"];
  OC_SCHEMA_STRING_IN "Path" OC_UEFI_DRIVER_ENTRY ["Path"]].

Definition mUefiDriversSchema : OC_SCHEMA := OC_SCHEMA_DICT None mUefiDriversSchemaEntry.

Definition mUefiQuirksSchema : list OC_SCHEMA := [
  OC_SCHEMA_BOOLEAN_IN "ActivateHpetSupport" OC_GLOBAL_CONFIG ["Uefi"; "Quirks"; "ActivateHpetSupport"];
  OC_SCHEMA_BOOLEAN_IN "DisableSecurityPolicy" OC_GLOBAL_CONFIG ["Uefi"; "Quirks"; "DisableSecurityPolicy"];
  OC_SCHEMA_BOOLEAN_IN "EnableVectorAcceleration" OC_GLOBAL_CONFIG ["Uefi"; "Quirks"; "EnableVectorAcceleration"];
  OC_SCHEMA_BOOLEAN_IN "EnableVmx" OC_GLOBAL_CONFIG ["Uefi"; "Quirks"; "EnableVmx"];
  OC_SCHEMA_INTEGER_IN "ExitBootServicesDelay" OC_GLOBAL_CONFIG ["Uefi"; "Quirks"; "ExitBootServicesDelay"];
  OC_SCHEMA_BOOLEAN_IN "ForceOcWriteFlash" OC_GLOBAL_CONFIG ["Uefi"; "Quirks"; "ForceOcWriteFlash"];
  OC_SCHEMA_BOOLEAN_IN "ForgeUefiSupport" OC_GLOBAL_CONFIG ["Uefi"; "Quirks"; "ForgeUefiSupport"];
  OC_SCHEMA_BOOLEAN_IN "IgnoreInvalidFlexRatio" OC_GLOBAL_CONFIG ["Uefi"; "Quirks"; "IgnoreInvalidFlexRatio"];
  OC_SCHEMA_BOOLEAN_IN "ReleaseUsbOwnership" OC_GLOBAL_CONFIG ["Uefi"; "Quirks"; "ReleaseUsbOwnership"];
  OC_SCHEMA_BOOLEAN_IN "ReloadOptionRoms" OC_GLOBAL_CONFIG ["Uefi"; "Quirks"; "ReloadOptionRoms"];
  OC_SCHEMA_BOOLEAN_IN "RequestBootVarRouting" OC_GLOBAL_CONFIG ["Uefi"; "Quirks"; "RequestBootVarRouting"];
  OC_SCHEMA_INTEGER_IN "ResizeGpuBars" OC_GLOBAL_CONFIG ["Uefi"; "Quirks"; "ResizeGpuBars"];
  OC_SCHEMA_BOOLEAN_IN "ResizeUsePciRbIo" OC_GLOBAL_CONFIG ["Uefi"; "Quirks"; "ResizeUsePciRbIo"];
  OC_SCHEMA_BOOLEAN_IN "ShimRetainProtocol" OC_GLOBAL_CONFIG ["Uefi"; "Quirks"; "ShimRetainProtocol"];
  OC_SCHEMA_INTEGER_IN "TscSyncTimeout" OC_GLOBAL_CONFIG ["Uefi"; "Quirks"; "TscSyncTimeout"];
  OC_SCHEMA_BOOLEAN_IN "UnblockFsConnect" OC_GLOBAL_CONFIG ["Uefi"; "Quirks"; "UnblockFsConnect"]].

Definition mUefiProtocolOverridesSchema : list OC_SCHEMA := [
  OC_SCHEMA_BOOLEAN_IN "AppleAudio" OC_GLOBAL_CONFIG ["Uefi"; "ProtocolOverrides"; "AppleAudio"];
  OC_SCHEMA_BOOLEAN_IN "AppleBootPolicy" OC_GLOBAL_CONFIG ["Uefi"; "ProtocolOverrides"; "AppleBootPolicy"];
  OC_SCHEMA_BOOLEAN_IN "AppleDebugLog" OC_GLOBAL_CONFIG ["Uefi"; "ProtocolOverrides"; "AppleDebugLog"];
  OC_SCHEMA_BOOLEAN_IN "AppleEg2Info" OC_GLOBAL_CONFIG ["Uefi"; "ProtocolOverrides"; "AppleEg2Info"];
  OC_SCHEMA_BOOLEAN_IN "AppleFramebufferInfo" OC_GLOBAL_CONFIG ["Uefi"; "ProtocolOverrides"; "AppleFramebufferInfo"];
  OC_SCHEMA_BOOLEAN_IN "AppleImageConversion" OC_GLOBAL_CONFIG ["Uefi"; "ProtocolOverrides"; "AppleImageConversion"];
  OC_SCHEMA_BOOLEAN_IN "AppleImg4Verification" OC_GLOBAL_CONFIG ["Uefi"; "ProtocolOverrides"; "AppleImg4Verification"];
  OC_SCHEMA_BOOLEAN_IN "AppleKeyMap" OC_GLOBAL_CONFIG ["Uefi"; "ProtocolOverrides"; "AppleKeyMap"];
  OC_SCHEMA_BOOLEAN_IN "AppleRtcRam" OC_GLOBAL_CONFIG ["Uefi"; "ProtocolOverrides"; "AppleRtcRam"];
  OC_SCHEMA_BOOLEAN_IN "AppleSecureBoot" OC_GLOBAL_CONFIG ["Uefi"; "ProtocolOverrides"; "AppleSecureBoot"];
  OC_SCHEMA_BOOLEAN_IN "AppleSmcIo" OC_GLOBAL_CONFIG ["Uefi"; "ProtocolOverrides"; "AppleSmcIo"];
  OC_SCHEMA_BOOLEAN_IN "AppleUserInterfaceTheme" OC_GLOBAL_CONFIG ["Uefi"; "ProtocolOverrides"; "AppleUserInterfaceTheme"];
  OC_SCHEMA_BOOLEAN_IN "DataHub" OC_GLOBAL_CONFIG ["Uefi"; "ProtocolOverrides"; "DataHub"];
  OC_SCHEMA_BOOLEAN_IN "DeviceProperties" OC_GLOBAL_CONFIG ["Uefi"; "ProtocolOverrides"; "DeviceProperties"];
  OC_SCHEMA_BOOLEAN_IN "FirmwareVolume" OC_GLOBAL_CONFIG ["Uefi"; "ProtocolOverrides"; "FirmwareVolume"];
  OC_SCHEMA_BOOLEAN_IN "HashServices" OC_GLOBAL_CONFIG ["Uefi"; "ProtocolOverrides"; "HashServices"];
  OC_SCHEMA_BOOLEAN_IN "OSInfo" OC_GLOBAL_CONFIG ["Uefi"; "ProtocolOverrides"; "OSInfo"];
  OC_SCHEMA_BOOLEAN_IN "PciIo" OC_GLOBAL_CONFIG ["Uefi"; "ProtocolOverrides"; "PciIo"];
  OC_SCHEMA_BOOLEAN_IN "UnicodeCollation" OC_GLOBAL_CONFIG ["Uefi"; "ProtocolOverrides"; "UnicodeCollation"]].

Definition mUefiApfsSchema : list OC_SCHEMA := [
  OC_SCHEMA_BOOLEAN_IN "EnableJumpstart" OC_GLOBAL_CONFIG ["Uefi"; "Apfs"; "EnableJumpstart"];
  OC_SCHEMA_BOOLEAN_IN "GlobalConnect" OC_GLOBAL_CONFIG ["Uefi"; "Apfs"; "GlobalConnect"];
  OC_SCHEMA_BOOLEAN_IN "HideVerbose" OC_GLOBAL_CONFIG ["Uefi"; "Apfs"; "HideVerbose"];
  OC_SCHEMA_BOOLEAN_IN "JumpstartHotPlug" OC_GLOBAL_CONFIG ["Uefi"; "Apfs"; "JumpstartHotPlug"];
  OC_SCHEMA_INTEGER_IN "MinDate" OC_GLOBAL_CONFIG ["Uefi"; "Apfs"; "MinDate"];
  OC_SCHEMA_INTEGER_IN "MinVersion" OC_GLOBAL_CONFIG ["Uefi"; "Apfs"; "MinVersion"]].

Definition mUefiAppleInputSchema : list OC_SCHEMA := [
  OC_SCHEMA_STRING_IN "AppleEvent" OC_GLOBAL_CONFIG ["Uefi"; "AppleInput"; "AppleEvent"];
  OC_SCHEMA_BOOLEAN_IN "CustomDelays" OC_GLOBAL_CONFIG ["Uefi"; "AppleInput"; "CustomDelays"];
  OC_SCHEMA_BOOLEAN_IN "GraphicsInputMirroring" OC_GLOBAL_CONFIG ["Uefi"; "AppleInput"; "GraphicsInputMirroring"];
  OC_SCHEMA_INTEGER_IN "KeyInitialDelay" OC_GLOBAL_CONFIG ["Uefi"; "AppleInput"; "KeyInitialDelay"];
  OC_SCHEMA_INTEGER_IN "KeySubsequentDelay" OC_GLOBAL_CONFIG ["Uefi"; "AppleInput"; "KeySubsequentDelay"];
  OC_SCHEMA_INTEGER_IN "PointerDwellClickTimeout" OC_GLOBAL_CONFIG ["Uefi"; "AppleInput"; "PointerDwellClickTimeout"];
  OC_SCHEMA_INTEGER_IN "PointerDwellDoubleClickTimeout" OC_GLOBAL_CONFIG ["Uefi"; "AppleInput"; "PointerDwellDoubleClickTimeout"];
  OC_SCHEMA_INTEGER_IN "PointerDwellRadius" OC_GLOBAL_CONFIG ["Uefi"; "AppleInput"; "PointerDwellRadius"];
  OC_SCHEMA_INTEGER_IN "PointerPollMask" OC_GLOBAL_CONFIG ["Uefi"; "AppleInput"; "PointerPollMask"];
  OC_SCHEMA_INTEGER_IN "PointerPollMax" OC_GLOBAL_CONFIG ["Uefi"; "AppleInput"; "PointerPollMax"];
  OC_SCHEMA_INTEGER_IN "PointerPollMin" OC_GLOBAL_CONFIG ["Uefi"; "AppleInput"; "PointerPollMin"];
  OC_SCHEMA_INTEGER_IN "PointerSpeedDiv" OC_GLOBAL_CONFIG ["Uefi"; "AppleInput"; "PointerSpeedDiv"];
  OC_SCHEMA_INTEGER_IN "PointerSpeedMul" OC_GLOBAL_CONFIG ["Uefi"; "AppleInput"; "PointerSpeedMul"]].

Definition mUefiAudioSchema : list OC_SCHEMA := [
  OC_SCHEMA_INTEGER_IN "AudioCodec" OC_GLOBAL_CONFIG ["Uefi"; "Audio"; "AudioCodec"];
  OC_SCHEMA_STRING_IN "AudioDevice" OC_GLOBAL_CONFIG ["Uefi"; "Audio"; "AudioDevice"];
  OC_SCHEMA_INTEGER_IN "AudioOutMask" OC_GLOBAL_CONFIG ["Uefi"; "Audio"; "AudioOutMask"];
  OC_SCHEMA_BOOLEAN_IN "AudioSupport" OC_GLOBAL_CONFIG ["Uefi"; "Audio"; "AudioSupport"];
  OC_SCHEMA_BOOLEAN_IN "DisconnectHda" OC_GLOBAL_CONFIG ["Uefi"; "Audio"; "DisconnectHda"];
  OC_SCHEMA_INTEGER_IN "MaximumGain" OC_GLOBAL_CONFIG ["Uefi"; "Audio"; "MaximumGain"];
  OC_SCHEMA_INTEGER_IN "MinimumAssistGain" OC_GLOBAL_CONFIG ["Uefi"; "Audio"; "MinimumAssistGain"];
  OC_SCHEMA_INTEGER_IN "MinimumAudibleGain" OC_GLOBAL_CONFIG ["Uefi"; "Audio"; "MinimumAudibleGain"];
  OC_SCHEMA_STRING_IN "PlayChime" OC_GLOBAL_CONFIG ["Uefi"; "Audio"; "PlayChime"];
  OC_SCHEMA_BOOLEAN_IN "ResetTrafficClass" OC_GLOBAL_CONFIG ["Uefi"; "Audio"; "ResetTrafficClass"];
  OC_SCHEMA_INTEGER_IN "SetupDelay" OC_GLOBAL_CONFIG ["Uefi"; "Audio"; "SetupDelay"]].

Definition mUefiInputSchema : list OC_SCHEMA := [
  OC_SCHEMA_BOOLEAN_IN "KeyFiltering" OC_GLOBAL_CONFIG ["Uefi"; "Input"; "KeyFiltering"];
  OC_SCHEMA_INTEGER_IN "KeyForgetThreshold" OC_GLOBAL_CONFIG ["Uefi"; "Input"; "KeyForgetThreshold"];
  OC_SCHEMA_BOOLEAN_IN "KeySupport" OC_GLOBAL_CONFIG ["Uefi"; "Input"; "KeySupport"];
  OC_SCHEMA_STRING_IN "KeySupportMode" OC_GLOBAL_CONFIG ["Uefi"; "Input"; "KeySupportMode"];
  OC_SCHEMA_BOOLEAN_IN "KeySwap" OC_GLOBAL_CONFIG ["Uefi"; "Input"; "KeySwap"];
  OC_SCHEMA_BOOLEAN_IN "PointerSupport" OC_GLOBAL_CONFIG ["Uefi"; "Input"; "PointerSupport"];
  OC_SCHEMA_STRING_IN "PointerSupportMode" OC_GLOBAL_CONFIG ["Uefi"; "Input"; "PointerSupportMode"];
  OC_SCHEMA_INTEGER_IN "TimerResolution" OC_GLOBAL_CONFIG ["Uefi"; "Input"; "TimerResolution"]].

Definition mUefiOutputSchema : list OC_SCHEMA := [
  OC_SCHEMA_BOOLEAN_IN "ClearScreenOnModeSwitch" OC_GLOBAL_CONFIG ["Uefi"; "Output"; "ClearScreenOnModeSwitch"];
  OC_SCHEMA_STRING_IN "ConsoleFont" OC_GLOBAL_CONFIG ["Uefi"; "Output"; "ConsoleFont"];
  OC_SCHEMA_STRING_IN "ConsoleMode" OC_GLOBAL_CONFIG ["Uefi"; "Output"; "ConsoleMode"];
  OC_SCHEMA_BOOLEAN_IN "DirectGopRendering" OC_GLOBAL_CONFIG ["Uefi"; "Output"; "DirectGopRendering"];
  OC_SCHEMA_BOOLEAN_IN "ForceResolution" OC_GLOBAL_CONFIG ["Uefi"; "Output"; "ForceResolution"];
  OC_SCHEMA_BOOLEAN_IN "GopBurstMode" OC_GLOBAL_CONFIG ["Uefi"; "Output"; "GopBurstMode"];
  OC_SCHEMA_STRING_IN "GopPassThrough" OC_GLOBAL_CONFIG ["Uefi"; "Output"; "GopPassThrough"];
  OC_SCHEMA_BOOLEAN_IN "IgnoreTextInGraphics" OC_GLOBAL_CONFIG ["Uefi"; "Output"; "IgnoreTextInGraphics"];
  OC_SCHEMA_STRING_IN "InitialMode" OC_GLOBAL_CONFIG ["Uefi"; "Output"; "InitialMode"];
  OC_SCHEMA_BOOLEAN_IN "ProvideConsoleGop" OC_GLOBAL_CONFIG ["Uefi"; "Output"; "ProvideConsoleGop"];
  OC_SCHEMA_BOOLEAN_IN "ReconnectGraphicsOnConnect" OC_GLOBAL_CONFIG ["Uefi"; "Output"; "ReconnectGraphicsOnConnect"];
  OC_SCHEMA_BOOLEAN_IN "ReconnectOnResChange" OC_GLOBAL_CONFIG ["Uefi"; "Output"; "ReconnectOnResChange"];
  OC_SCHEMA_BOOLEAN_IN "ReplaceTabWithSpace" OC_GLOBAL_CONFIG ["Uefi"; "Output"; "ReplaceTabWithSpace"];
  OC_SCHEMA_STRING_IN "Resolution" OC_GLOBAL_CONFIG ["Uefi"; "Output"; "Resolution"];
  OC_SCHEMA_BOOLEAN_IN "SanitiseClearScreen" OC_GLOBAL_CONFIG ["Uefi"; "Output"; "SanitiseClearScreen"];
  OC_SCHEMA_STRING_IN "TextRenderer" OC_GLOBAL_CONFIG ["Uefi"; "Output"; "TextRenderer"];
  OC_SCHEMA_INTEGER_IN "UIScale" OC_GLOBAL_CONFIG ["Uefi"; "Output"; "UIScale"];
  OC_SCHEMA_BOOLEAN_IN "UgaPassThrough" OC_GLOBAL_CONFIG ["Uefi"; "Output"; "UgaPassThrough"]].

Definition mUefiReservedMemoryEntrySchema : list OC_SCHEMA := [
  OC_SCHEMA_INTEGER_IN "Address" OC_UEFI_RSVD_ENTRY ["Address"];
  OC_SCHEMA_STRING_IN "Comment" OC_UEFI_RSVD_ENTRY ["Comment"];
  OC_SCHEMA_BOOLEAN_IN "Enabled" OC_UEFI_RSVD_ENTRY ["Enabled"];
  OC_SCHEMA_INTEGER_IN "Size" OC_UEFI_RSVD_ENTRY ["Size"];
  OC_SCHEMA_STRING_IN "Type" OC_UEFI_RSVD_ENTRY ["Type"]].

Definition mUefiReservedMemorySchema : OC_SCHEMA := OC_SCHEMA_DICT None mUefiReservedMemoryEntrySchema.

Definition mUefiUnloadSchema : OC_SCHEMA := OC_SCHEMA_STRING None.

Definition mUefiConfigurationSchema : list OC_SCHEMA := [
  OC_SCHEMA_DICT (Some "APFS") mUefiApfsSchema;
  OC_SCHEMA_DICT (Some "AppleInput") mUefiAppleInputSchema;
  OC_SCHEMA_DICT (Some "Audio") mUefiAudioSchema;
  OC_SCHEMA_BOOLEAN_IN "ConnectDrivers" OC_GLOBAL_CONFIG ["Uefi"; "ConnectDrivers"];
  OC_SCHEMA_ARRAY_IN "Drivers" OC_GLOBAL_CONFIG ["Uefi"; "Drivers"] mUefiDriversSchema;
  OC_SCHEMA_DICT (Some "Input") mUefiInputSchema;
  OC_SCHEMA_DICT (Some "Output") mUefiOutputSchema;
  OC_SCHEMA_DICT (Some "ProtocolOverrides") mUefiProtocolOverridesSchema;
  OC_SCHEMA_DICT (Some "Quirks") mUefiQuirksSchema;
  OC_SCHEMA_ARRAY_IN "ReservedMemory" OC_GLOBAL_CONFIG ["Uefi"; "ReservedMemory"] mUefiReservedMemorySchema;
  OC_SCHEMA_ARRAY_IN "Unload" OC_GLOBAL_CONFIG ["Uefi"; "Unload"] mUefiUnloadSchema].

Definition mRootConfigurationNodes : list OC_SCHEMA := [
  OC_SCHEMA_DICT (Some "ACPI") mAcpiConfigurationSchema;
  OC_SCHEMA_DICT (Some "Booter") mBooterConfigurationSchema;
  OC_SCHEMA_DICT (Some "DeviceProperties") mDevicePropertiesSchema;
  OC_SCHEMA_DICT (Some "Kernel") mKernelConfigurationSchema;
  OC_SCHEMA_DICT (Some "Misc") mMiscConfigurationSchema;
  OC_SCHEMA_DICT (Some "NVRAM") mNvramConfigurationSchema;
  OC_SCHEMA_DICT (Some "PlatformInfo") mPlatformConfigurationSchema;
  OC_SCHEMA_DICT (Some "UEFI") mUefiConfigurationSchema].

Definition mRootConfigurationInfo : OC_SCHEMA_INFO := SchemaDict mRootConfigurationNodes.

(** ** Operations *)
Section Model.
Context `{XmlPool, AsciiLib, CopyLib, Layout, BuildFlags}.

(** The result is memory, the buffer, the configuration, the state and the status. *)
Definition OcConfigurationInit (h : heap) (Buffer : list Z) (Size Live : Z) (Errors : option Z) : outcome (heap * list Z * obj * state * Z) :=
  '(h, b, Config, st, Success) ← ParseSerialized h OC_GLOBAL_CONFIG mRootConfigurationInfo Buffer Size Live Errors;
  if negb Success then
    let '(Config, p) := Destruct Config st.(PoolOf) in
    Ret (h, b, Config, set_Pool st p, EFI_UNSUPPORTED)
  else Ret (h, b, Config, st, EFI_SUCCESS).

Definition OcConfigurationFree (Config : obj) (s : pool_state) : obj * pool_state := Destruct Config s.

End Model.

(** ** The tables are sorted and the schema fits *)
Lemma config_tables : tables_ok mRootConfigurationInfo.
Proof. apply tables_sorted_ok. by vm_compute. Qed.

Lemma config_fits : SerializeSafety.fits mRootConfigurationInfo (typeof OC_GLOBAL_CONFIG) = true.
Proof. by vm_compute. Qed.

Lemma config_blocks : blocks OC_GLOBAL_CONFIG = 0%Z.
Proof. by vm_compute. Qed.

Lemma config_ok : obj_ok OC_GLOBAL_CONFIG.
Proof. vm_compute. repeat split; intros; try discriminate. Qed.

(** The schema has the sizes and types of the fields, and no two keys share memory. *)
Lemma config_exact : exact OC_GLOBAL_CONFIG mRootConfigurationInfo = true.
Proof. by vm_compute. Qed.

Lemma config_node_types : node_types mRootConfigurationInfo = true.
Proof. by vm_compute. Qed.

Lemma config_keys_apart : keys_apart mRootConfigurationInfo = true.
Proof. by vm_compute. Qed.

(** ** Reading a configuration *)
Section Specification.
Context `{HPool : XmlPool} {HPoolLaws : XmlPoolLaws HPool} `{HLib : AsciiLib} {HLaws : AsciiLibLaws HLib} {HOrder : AsciiOrder HLib}
  `{HCopy : CopyLib} {HCopyLaws : CopyLibLaws HCopy} `{HLayout : Layout} `{HFlags : BuildFlags}.

(** C3: [OcConfigurationInit] on any bytes, with any pool, returns without a fault and
    leaves the memory of the parser as it found it. The configuration has its type; the
    blocks that live belong to it, and [OcConfigurationFree] gives all of them back. The
    status is EFI_SUCCESS with a well-formed configuration, or EFI_UNSUPPORTED with one
    that owns no block. *)
Theorem OcConfigurationInit_safe h Buffer n Live Errors : fresh h -> (0 <= n <= Z.of_nat (List.length Buffer))%Z ->
  exists h' b Config st Status, OcConfigurationInit h Buffer n Live Errors = Ret (h', b, Config, st, Status) /\ same_blocks h h' /\
    typeof Config = typeof OC_GLOBAL_CONFIG /\ st.(PoolOf).(Template.Live) = (Live + blocks Config)%Z /\
    (OcConfigurationFree Config st.(PoolOf)).2.(Template.Live) = Live /\
    (Status = EFI_SUCCESS /\ obj_ok Config \/ Status = EFI_UNSUPPORTED /\ blocks Config = 0%Z).
Proof.
  intros HF Hn. unfold OcConfigurationInit, OcConfigurationFree.
  destruct (ParseSerialized_spec h OC_GLOBAL_CONFIG mRootConfigurationInfo Buffer n Live Errors HF Hn config_tables config_fits config_ok) as (h' & b & o & st & r & -> & HS & HT & Hok & HL & _ & Hr);
    [by rewrite config_blocks|]. rewrite config_blocks in HL. rewrite bind_ret. cbv beta iota. destruct (Destruct_spec o st.(PoolOf)) as (o' & E & Hb & HTo). destruct r; cbn [negb].
  - eexists _, _, _, _, _. split; [done|]. split; [done|]. split; [done|]. split; [lia|]. rewrite E. cbn. split; [lia|by left].
  - rewrite E. eexists _, _, _, _, _. split; [done|]. split; [done|]. split; [congruence|]. cbn. destruct (Destruct_spec o' (Pool st.(PoolOf).(Template.Asked) (st.(PoolOf).(Template.Live) - blocks o))) as (o2 & E2 & _).
    split; [lia|]. rewrite E2. cbn. split; [lia|by right].
Qed.

(** What is read from a text of the grammar. *)
Lemma Init_prints h t s rest Live Errors : all_met -> fresh h -> prints t s -> depth t < XML_PARSER_NEST_LEVEL -> narrow t ->
  Z.of_nat (List.length (s ++ rest)) <= XML_PARSER_MAX_SIZE ->
  exists h' b Config st k, OcConfigurationInit h (s ++ rest) (Z.of_nat (List.length (s ++ rest))) Live Errors
      = Ret (h', b, Config, st, if plist_dict t then EFI_SUCCESS else EFI_UNSUPPORTED) /\ same_blocks h h' /\
    match plist_dict t with
    | Some c => merge mRootConfigurationInfo OC_GLOBAL_CONFIG c (State (Pool k Live) Errors) = Ret (Config, st)
    | None => blocks Config = 0%Z /\ st.(PoolOf).(Template.Live) = Live /\ st.(ErrorCount) = (fun e => e +[32] 1) <$> Errors
    end.
Proof.
  intros Hmet HF Hp Hd Hn Hs. unfold OcConfigurationInit.
  destruct (ParseSerialized_prints h OC_GLOBAL_CONFIG mRootConfigurationInfo t s rest Live Errors Hmet HF Hp Hd Hn Hs config_tables config_fits config_ok) as (h' & b & o & st & k & -> & HS & HM);
    [by rewrite config_blocks|]. rewrite bind_ret. cbv beta iota. destruct (plist_dict t) as [c|].
  - rewrite bool_decide_true by done. by exists h', b, o, st, k.
  - rewrite bool_decide_false by tauto. cbn [negb]. destruct HM as [-> ->]. destruct (Destruct_spec OC_GLOBAL_CONFIG (Pool k Live)) as (o' & E & Hb & _). cbn [CountError PoolOf]. rewrite E.
    exists h', b, o'. eexists _, k. split; [done|]. split; [done|]. split; [done|]. cbn [PoolOf set_Pool Template.Live ErrorCount]. split; [rewrite config_blocks; lia|done].
Qed.

(** C4: if the text is a property list with a dictionary (in the grammar of the XML
    parser, whatever follows it), and the pool meets all requests, [OcConfigurationInit]
    succeeds, and the configuration and the number of errors are the merge of the
    dictionary into the initial configuration. *)
Theorem OcConfigurationInit_merges h t s rest c Live Errors : all_met -> fresh h -> prints t s -> depth t < XML_PARSER_NEST_LEVEL -> narrow t ->
  Z.of_nat (List.length (s ++ rest)) <= XML_PARSER_MAX_SIZE -> plist_dict t = Some c ->
  exists h' b Config st k, OcConfigurationInit h (s ++ rest) (Z.of_nat (List.length (s ++ rest))) Live Errors = Ret (h', b, Config, st, EFI_SUCCESS)
    /\ same_blocks h h' /\ merge mRootConfigurationInfo OC_GLOBAL_CONFIG c (State (Pool k Live) Errors) = Ret (Config, st).
Proof. intros Hmet HF Hp Hd Hn Hs HP. destruct (Init_prints h t s rest Live Errors Hmet HF Hp Hd Hn Hs) as (h' & b & Config & st & k & H). rewrite HP in H. by exists h', b, Config, st, k. Qed.

(** C21: when such a text is read (a property list with a dictionary in the grammar and
    the limits of the XML parser, and a pool that meets all requests), a field that no
    entry of the dictionary writes has its initial value in the configuration that
    [OcConfigurationInit] returns. *)
Theorem OcConfigurationInit_defaults h t s rest c Live Errors G : all_met -> fresh h -> prints t s -> depth t < XML_PARSER_NEST_LEVEL -> narrow t ->
  Z.of_nat (List.length (s ++ rest)) <= XML_PARSER_MAX_SIZE -> plist_dict t = Some c ->
  Forall (fun F => apart F G = true) (writes mRootConfigurationInfo c) ->
  exists h' b Config st, OcConfigurationInit h (s ++ rest) (Z.of_nat (List.length (s ++ rest))) Live Errors = Ret (h', b, Config, st, EFI_SUCCESS)
    /\ OC_SCHEMA_FIELD Config G = OC_SCHEMA_FIELD OC_GLOBAL_CONFIG G.
Proof.
  intros Hmet HF Hp Hd Hn Hs HP HW. destruct (Init_prints h t s rest Live Errors Hmet HF Hp Hd Hn Hs) as (h' & b & Config & st & k & H). rewrite HP in H. destruct H as (E & _ & HM).
  exists h', b, Config, st. split; [done|]. by eapply merge_keeps.
Qed.

(** C29: what the document says is in the field that the schema has for it, whatever
    else the document says. For every path of keys that leads to a value in the schema
    and once in the dictionary, the field of the configuration holds what the element
    means: a boolean in a field of one byte, an integer in all bytes of a field of 1, 2, 4
    or 8 bytes, data that fill a field of fixed size, data or a string with its
    terminator in a blob. For every path that leads to an array, the list has one value
    for each child of the right type, in order, and the entries of each value hold what
    the child means in the same way. *)
Theorem OcConfigurationInit_stores h t s rest c Live Errors : all_met -> fresh h -> prints t s -> depth t < XML_PARSER_NEST_LEVEL -> narrow t ->
  Z.of_nat (List.length (s ++ rest)) <= XML_PARSER_MAX_SIZE -> plist_dict t = Some c ->
  exists h' b Config st, OcConfigurationInit h (s ++ rest) (Z.of_nat (List.length (s ++ rest))) Live Errors = Ret (h', b, Config, st, EFI_SUCCESS) /\
    (forall ks i F v w, entry_at mRootConfigurationInfo ks = Some i -> is_value i F -> element_at c ks = Some v -> meaning i v = Some w -> holds Config F w) /\
    (forall ks F sch v, entry_at mRootConfigurationInfo ks = Some (SchemaArray F sch) -> element_at c ks = Some v -> cast_ok PLIST_NODE_TYPE_ARRAY v = true ->
      children_hold Config F sch v).
Proof.
  intros Hmet HF Hp Hd Hn Hs HP. destruct (Init_prints h t s rest Live Errors Hmet HF Hp Hd Hn Hs) as (h' & b & Config & st & k & H). rewrite HP in H. destruct H as (E & _ & HM).
  exists h', b, Config, st. split; [exact E|]. split.
  - intros ks i F v w HE HV Hv Hw. pose proof config_keys_apart as HK. apply andb_true_iff in HK as [HK _].
    exact (merge_holds _ c _ _ _ _ ks i F v w Hmet config_ok HK config_node_types config_exact HE HV Hv Hw HM).
  - intros ks F sch v HE Hv HC.
    refine (merge_array_holds _ c _ _ _ _ ks F sch v Hmet config_ok config_keys_apart config_node_types config_exact config_fits _ HE Hv HC HM).
    pose proof (plist_dict_weight t c HP) as Hw. pose proof (proj1 prints_weight t s Hp) as Hw2. rewrite length_app in Hs. unfold XML_PARSER_MAX_SIZE in Hs. lia.
Qed.

(** C30: the document of the parser decides whether any bytes are accepted, with any
    pool. EFI_SUCCESS is returned exactly if the parser builds a document and its
    element is a property list whose only child is a dictionary. In every other case
    (no document, another element, no or several children, another child) the status is
    EFI_UNSUPPORTED, one error is counted, and the configuration owns no block. In both
    cases the memory of the parser is as before. *)
Theorem OcConfigurationInit_rejects h Buffer n Live Errors : fresh h -> (0 <= n <= Z.of_nat (List.length Buffer))%Z ->
  exists h1 b d, XmlDocumentParse h Buffer n false = Ret (h1, b, d) /\
  exists h' b' Config st Status, OcConfigurationInit h Buffer n Live Errors = Ret (h', b', Config, st, Status) /\ same_blocks h h' /\
  let unsupported := Status = EFI_UNSUPPORTED /\ blocks Config = 0%Z /\ rejected Live Errors st in
  match d with
  | None => unsupported
  | Some d => exists t, parsed_as h1 b d t /\ if plist_dict t then Status = EFI_SUCCESS else unsupported
  end.
Proof.
  intros HF Hn. unfold OcConfigurationInit.
  destruct (ParseSerialized_decides h OC_GLOBAL_CONFIG mRootConfigurationInfo Buffer n Live Errors HF Hn config_tables config_fits config_ok) as (h1 & b & d & E & h' & b' & o & st & r & -> & HS & HD);
    [by rewrite config_blocks|]. exists h1, b, d. split; [done|]. rewrite bind_ret. cbv beta iota.
  assert (o = OC_GLOBAL_CONFIG -> rejected Live Errors st -> exists Config p, Destruct o st.(PoolOf) = (Config, p) /\ blocks Config = 0%Z /\ rejected Live Errors (set_Pool st p)) as HR.
  { intros -> [HL HE]. destruct (Destruct_spec OC_GLOBAL_CONFIG st.(PoolOf)) as (Config & ED & Hb & _). eexists _, _. split; [exact ED|]. split; [done|]. split; [|done]. cbn [set_Pool PoolOf Template.Live]. rewrite HL, config_blocks. lia. }
  destruct d as [d|].
  - destruct HD as (t & Ht & -> & HN). destruct (plist_dict t) as [c|] eqn:EP.
    + rewrite bool_decide_true by done. eexists _, _, _, _, _. split; [done|]. split; [done|]. exists t. by rewrite EP.
    + destruct (HN eq_refl) as [Ho Hr]. destruct (HR Ho Hr) as (Config & p & ED & HC). rewrite bool_decide_false by tauto. cbn [negb]. rewrite ED. eexists _, _, _, _, _. split; [done|]. split; [done|].
      exists t. by rewrite EP.
  - destruct HD as (-> & Ho & Hr). destruct (HR Ho Hr) as (Config & p & ED & HC). cbn [negb]. rewrite ED. by eexists _, _, _, _, _.
Qed.
End Specification.

(** ** A concrete configuration

    Elements without attributes, and their text without space between the tags. *)
#[local] Open Scope list_scope.
Fixpoint compact (t : xml) : list Z :=
  match t with
  | Elem name _ text ts =>
      str "<" ++ name ++ str ">" ++ match text, ts with Some s, _ => s | None, Some ts => foldr (fun t r => compact t ++ r) [] ts | None, None => [] end
      ++ str "</" ++ name ++ str ">"
  end.

#[export] Instance name_ok_dec name : Decision (name_ok name).
Proof. unfold name_ok, tag_char. destruct name; apply _. Defined.
#[export] Instance starts_black_dec s : Decision (starts_black s).
Proof. unfold starts_black. destruct s; apply _. Defined.
#[export] Instance text_ok_dec s : Decision (text_ok s).
Proof. unfold text_ok. apply _. Defined.

Fixpoint plain (t : xml) : bool :=
  match t with
  | Elem name attrs text ts =>
      bool_decide (name_ok name) && bool_decide (attrs = None) &&
      match text, ts with
      | Some s, None => bool_decide (text_ok s)
      | None, Some ts => bool_decide (ts <> []) && forallb plain ts
      | None, None => true
      | _, _ => false
      end
  end.

Lemma compact_prints : forall t, plain t = true -> prints t (compact t).
Proof.
  fix IH 1. intros [name attrs text ts] H. cbn [plain] in H. apply andb_true_iff in H as [[Hn%bool_decide_eq_true ->%bool_decide_eq_true]%andb_true_iff H].
  pose proof (tag_plain name Hn) as Ht. destruct text as [s|], ts as [ts|]; try done.
  - apply bool_decide_eq_true in H. refine (prints_text [] name None name [] s [] [] _ Ht _ H _ _); [by apply gap_space|constructor..].
  - apply andb_true_iff in H as [Hts%bool_decide_eq_true H].
    assert (prints_list ts (foldr (fun t r => compact t ++ r) [] ts)) as HL.
    { clear Hts. induction ts as [|t ts IHts]; [constructor|]. cbn in H. apply andb_true_iff in H as [H1 H2]. constructor; [by apply IH|by apply IHts]. }
    assert (some_children ts = Some ts) as <- by by destruct ts.
    assert (compact (Elem name None None (some_children ts)) = [] ++ str "<" ++ name ++ str ">" ++ foldr (fun t r => compact t ++ r) [] ts ++ [] ++ str "</" ++ name ++ [] ++ str ">") as ->
      by by destruct ts.
    refine (prints_children [] name None name ts _ [] [] _ Ht HL _ _); [by apply gap_space|by apply gap_space|constructor].
  - refine (prints_children [] name None name [] [] [] [] _ Ht prints_nil _ _); [by apply gap_space|by apply gap_space|constructor].
Qed.

Definition element (name : string) (ts : list xml) : xml := Elem (str name) None None (Some ts).
Definition text_element (name s : string) : xml := Elem (str name) None (Some (str s)) None.
Definition sample_dict : xml :=
  element "dict" [text_element "key" "Misc"; element "dict" [text_element "key" "Boot"; element "dict" [text_element "key" "Timeout"; text_element "integer" "5"]]].
Definition driver : xml := element "dict" [text_element "key" "Enabled"; Elem (str "true") None None None; text_element "key" "Path"; text_element "string" "a.efi"].
Definition driver_dict : xml :=
  element "dict" [
    text_element "key" "Misc"; element "dict" [text_element "key" "Boot"; element "dict" [text_element "key" "Timeout"; text_element "integer" "5"]];
    text_element "key" "UEFI"; element "dict" [text_element "key" "Drivers"; element "array" [driver]]].
Definition sample_plist : xml := element "plist" [sample_dict].
Definition sample_text : list Z := compact sample_plist.

Lemma sample_text_prints : prints sample_plist sample_text.
Proof. apply compact_prints. by vm_compute. Qed.

Lemma driver_prints : prints (element "plist" [driver_dict]) (compact (element "plist" [driver_dict])).
Proof. apply compact_prints. by vm_compute. Qed.

Lemma sample_plist_narrow : narrow sample_plist.
Proof. repeat constructor. Qed.

(** The timeout is set; the errors are those of missing keys. *)
Example sample_timeout :
  match @merge sample_pool sample_lib sample_copy sample_layout sample_flags mRootConfigurationInfo OC_GLOBAL_CONFIG sample_dict (State (Pool 0 0) (Some 0%Z)) with
  | Ret (o, st) => OC_SCHEMA_FIELD o ["Misc"; "Boot"; "Timeout"] = Ret (UINT32 5) /\ st = State (Pool 0 0) (Some 27%Z)
  | Fault _ => False
  end.
Proof. by vm_compute. Qed.

Lemma OcConfigurationInit_safe_witness :
  fresh sample_heap /\
  exists h' b Config st Status, @OcConfigurationInit sample_pool sample_lib sample_copy sample_layout sample_flags sample_heap (str "<plist><dict") 12 0 (Some 0%Z) = Ret (h', b, Config, st, Status)
    /\ same_blocks sample_heap h' /\ typeof Config = typeof OC_GLOBAL_CONFIG /\ st.(PoolOf).(Template.Live) = (0 + blocks Config)%Z /\
    (OcConfigurationFree Config st.(PoolOf)).2.(Template.Live) = 0%Z /\
    (Status = EFI_SUCCESS /\ obj_ok Config \/ Status = EFI_UNSUPPORTED /\ blocks Config = 0%Z).
Proof.
  split; [exact sample_fresh|].
  apply (@OcConfigurationInit_safe sample_pool sample_pool_laws sample_lib sample_lib_laws sample_order sample_copy sample_copy_laws sample_layout sample_flags sample_heap (str "<plist><dict") 12 0 (Some 0%Z) sample_fresh).
  by vm_compute.
Defined.

Lemma OcConfigurationInit_merges_witness :
  exists h' b Config st k, @OcConfigurationInit sample_pool sample_lib sample_copy sample_layout sample_flags sample_heap (sample_text ++ str "..") (Z.of_nat (List.length (sample_text ++ str ".."))) 0 (Some 0%Z)
      = Ret (h', b, Config, st, EFI_SUCCESS) /\ same_blocks sample_heap h'
    /\ @merge sample_pool sample_lib sample_copy sample_layout sample_flags mRootConfigurationInfo OC_GLOBAL_CONFIG sample_dict (State (Pool k 0) (Some 0%Z)) = Ret (Config, st).
Proof.
  apply (@OcConfigurationInit_merges sample_pool sample_pool_laws sample_lib sample_lib_laws sample_order sample_copy sample_copy_laws sample_layout sample_flags sample_heap sample_plist sample_text (str "..") sample_dict
    0 (Some 0%Z) sample_met sample_fresh sample_text_prints); [reflexivity|exact sample_plist_narrow|by vm_compute|by vm_compute].
Defined.

Lemma OcConfigurationInit_defaults_witness :
  exists h' b Config st, @OcConfigurationInit sample_pool sample_lib sample_copy sample_layout sample_flags sample_heap (sample_text ++ str "..") (Z.of_nat (List.length (sample_text ++ str ".."))) 0 (Some 0%Z)
      = Ret (h', b, Config, st, EFI_SUCCESS) /\ OC_SCHEMA_FIELD Config ["Misc"; "Boot"; "PickerMode"] = Ret (OC_STRING_CONSTR "Builtin").
Proof.
  apply (@OcConfigurationInit_defaults sample_pool sample_pool_laws sample_lib sample_lib_laws sample_order sample_copy sample_copy_laws sample_layout sample_flags sample_heap sample_plist sample_text (str "..") sample_dict
    0 (Some 0%Z) ["Misc"; "Boot"; "PickerMode"] sample_met sample_fresh sample_text_prints); [reflexivity|exact sample_plist_narrow|by vm_compute|by vm_compute|].
  vm_compute. repeat constructor.
Defined.

Lemma driver_narrow : narrow (element "plist" [driver_dict]).
Proof. repeat constructor. Qed.

Lemma driver_plist : plist_dict (element "plist" [driver_dict]) = Some driver_dict.
Proof. by vm_compute. Qed.

Lemma driver_size : Z.of_nat (List.length (compact (element "plist" [driver_dict]) ++ str "..")) <= XML_PARSER_MAX_SIZE.
Proof. by vm_compute. Qed.

(** A timeout and a driver. *)
Lemma OcConfigurationInit_stores_witness :
  let text := compact (element "plist" [driver_dict]) ++ str ".." in
  exists h' b Config st l v, @OcConfigurationInit sample_pool sample_lib sample_copy sample_layout sample_flags sample_heap text (Z.of_nat (List.length text)) 0 (Some 0%Z) = Ret (h', b, Config, st, EFI_SUCCESS) /\
    holds Config ["Misc"; "Boot"; "Timeout"] [5; 0; 0; 0]%Z /\
    OC_SCHEMA_FIELD Config ["Uefi"; "Drivers"] = Ret (Entries l) /\ default [] (Values l) = [v] /\ holds v ["Enabled"] [1%Z] /\ holds v ["Path"] (str "a.efi" ++ [0%Z]).
Proof.
  destruct (@OcConfigurationInit_stores sample_pool sample_pool_laws sample_lib sample_lib_laws sample_order sample_copy sample_copy_laws sample_layout sample_flags sample_heap (element "plist" [driver_dict])
    (compact (element "plist" [driver_dict])) (str "..") driver_dict 0 (Some 0%Z) sample_met sample_fresh driver_prints) as (h' & b & Config & st & E & H1 & H2);
    [reflexivity|exact driver_narrow|exact driver_size|exact driver_plist|].
  destruct (H2 (str <$> ["UEFI"; "Drivers"]) ["Uefi"; "Drivers"] mUefiDriversSchema (element "array" [driver])) as (l & EL & HF); [by vm_compute..|].
  change (filter _ _) with [driver] in HF. apply Forall2_cons_inv_l in HF as (v & vs & Hv & HF & EV). apply Forall2_nil_inv_l in HF as ->.
  exists h', b, Config, st, l, v. split; [exact E|]. split; [|split; [exact EL|split; [exact EV|split]]].
  - apply (H1 (str <$> ["Misc"; "Boot"; "Timeout"]) (SchemaValue ["Misc"; "Boot"; "Timeout"] 4 OC_SCHEMA_VALUE_INTEGER) _ (text_element "integer" "5")); vm_compute; reflexivity.
  - apply (Hv [str "Enabled"] (SchemaValue ["Enabled"] 1 OC_SCHEMA_VALUE_BOOLEAN) _ (Elem (str "true") None None None)); vm_compute; reflexivity.
  - apply (Hv [str "Path"] (SchemaBlob ["Path"] OC_SCHEMA_BLOB_STRING) _ (text_element "string" "a.efi")); vm_compute; reflexivity.
Defined.

(** A text that the parser tolerates: the last tag closes neither of the open elements. *)
Definition malformed_list : list Z := str "<plist><dict></dict><b></b/plist>".

Lemma malformed_list_parsed : exists h b d, @XmlDocumentParse sample_pool sample_lib sample_heap malformed_list 33 false = Ret (h, b, Some d) /\
  parsed_as h b d (Elem (str "plist") None None (Some [Elem (str "dict") None None None])).
Proof.
  eexists _, _, _. split; [vm_compute; reflexivity|]. eexists. split; [vm_compute; reflexivity|].
  eapply stands_node; [vm_compute; reflexivity..|done|]. constructor; [|constructor]. by eapply stands_leaf.
Qed.

(** No document is built for the first text, and one for the second; its only child is
    a dictionary, although another tag was meant to close it. *)
Lemma OcConfigurationInit_rejects_witness :
  fresh sample_heap /\
  (exists h' b' Config st, @OcConfigurationInit sample_pool sample_lib sample_copy sample_layout sample_flags sample_heap (str "<plist><dict") 12 0 (Some 0%Z) = Ret (h', b', Config, st, EFI_UNSUPPORTED)
    /\ same_blocks sample_heap h' /\ blocks Config = 0%Z /\ rejected 0 (Some 0%Z) st) /\
  (exists h' b' Config st, @OcConfigurationInit sample_pool sample_lib sample_copy sample_layout sample_flags sample_heap malformed_list 33 0 (Some 0%Z) = Ret (h', b', Config, st, EFI_SUCCESS)
    /\ same_blocks sample_heap h').
Proof.
  split; [exact sample_fresh|]. split.
  - destruct (@OcConfigurationInit_rejects sample_pool sample_pool_laws sample_lib sample_lib_laws sample_order sample_copy sample_copy_laws sample_layout sample_flags sample_heap (str "<plist><dict") 12 0 (Some 0%Z) sample_fresh)
      as (h1 & b & d & E & h' & b' & Config & st & Status & EI & HS & HD); [by vm_compute|].
    assert (exists h2 b2, @XmlDocumentParse sample_pool sample_lib sample_heap (str "<plist><dict") 12 false = Ret (h2, b2, None)) as (h2 & b2 & E2) by (eexists _, _; vm_compute; reflexivity).
    rewrite E2 in E. injection E as _ _ <-. destruct HD as (-> & HC). exists h', b', Config, st. split; [exact EI|]. split; [exact HS|exact HC].
  - destruct (@OcConfigurationInit_rejects sample_pool sample_pool_laws sample_lib sample_lib_laws sample_order sample_copy sample_copy_laws sample_layout sample_flags sample_heap malformed_list 33 0 (Some 0%Z) sample_fresh)
      as (h1 & b & d & E & h' & b' & Config & st & Status & EI & HS & HD); [by vm_compute|].
    destruct malformed_list_parsed as (h2 & b2 & d2 & E2 & HP). rewrite E2 in E. injection E as <- <- <-. destruct HD as (t & Ht & HD).
    destruct HP as (doc & H1 & H2), Ht as (doc' & K1 & K2). rewrite H1 in K1. injection K1 as <-. rewrite (stands_unique _ _ _ _ H2 _ K2) in HD.
    assert (Status = EFI_SUCCESS) as -> by exact HD. exists h', b', Config, st. split; [exact EI|exact HS].
Defined.

End Configuration.
